(* ===== verification/_CoqProject ===== *)
-Q . S2P
Prelude.v
JobId.v
CNum.v
Words.v
LogStream.v
EventCodec.v
EventsSmall.v
EventsRun.v
EventsSubmit.v
EventLog.v
LogTheorems.v
Values.v
Conf.v
ConfTheorems.v
Bitset.v
BitsetTheorems.v
DList.v
ListLib.v
ListTheorems.v
ListSet.v
HashTab.v
HashTheorems.v
JobArray.v
Window.v
DepToken.v
DepCond.v
DepParse.v
DepTheorems.v
Counters.v
Ledger.v
CounterInv.v
CounterTheorems.v
Dispatch.v
DispatchInv.v
DispatchSlots.v
DispatchRun.v
DispatchLimits.v
DispatchGrowth.v
DispatchTheorems.v
ResReq.v
ResReqSect.v
ResReqParse.v
ResReqSelect.v
ResReqRoom.v
ResReqMeaning.v
ResReqInv.v
ResReqRisk.v
ResReqTheorems.v
JGroup.v
JTree.v
JGroupInv.v
JGroupOps.v
JGroupPut.v
JGroupRemove.v
JGroupNew.v
JGroupWalk.v
JGroupTheorems.v
Xdr.v
XdrLib.v
XdrCarry.v
XdrMsg.v
XdrBatch.v
XdrRequest.v
XdrReply.v
XdrInfo.v
XdrDaemons.v
XdrSize.v
XdrSafe.v
XdrTheorems.v
XdrLim.v
XdrHosts.v
Float16.v
XdrLoad.v
XdrTerm.v
XdrRes.v
XdrSend.v
XdrCard.v
XdrBase.v
