(* ===== verification/Prelude.v ===== *)
(** * JH Lava: a verification of the core of the batch system

    JH Lava runs batch jobs on a cluster.  Users submit jobs to the master batch
    daemon (lsbatch/daemons/mbd.*.c), which decides where and when they run, and
    which writes everything that happens to a job to an event log
    (lsbatch/lib/lsb.log.c).  After a restart the daemon replays the log to
    rebuild its state, and tools such as bhist and bacct read the same files.
    Below lie libraries for text, sets, lists, time windows and job arrays
    (lsf/lib, lsf/intlib).  All paths here are below src/.

    ** Parts and files

    - [Prelude]: C strings as lists of characters, character classes, machine
      integers with their wrap-around, tactics shared by all files.
    - [JobId]: the 64-bit job identifiers of lsbatch/lsbatch.h ([LSB_JOBID],
      [LSB_ARRAY_IDX], [LSB_ARRAY_JOBID]).
    - [CNum]: the conversions of printf and scanf that the sources use, [%d] on
      32-bit integers and [%f] on IEEE numbers ([spec_float] of the Standard
      Library), with their round trips.
    - [Words], [Values]: lsf/lib/lib.words.c, one definition for each function,
      with the capacities of its buffers.  A write past a buffer is an outcome
      of the model, not excluded by it.
    - [Conf], [ConfTheorems]: the sections of configuration files, as tables or as lists of
      keys with values, and the lists of administrators (lsf/lib/lib.confmisc.c), on the
      lines, words and values of lib.words.c.
    - [LogStream]: how lsb.log.c writes fields to a stream that can fill up (the
      type [W]) and reads fields from a line (the type [R]); reading through a
      pointer that has left the line is the outcome [PastEnd].
    - [EventCodec]: the class that states what a kind of event promises to the
      log: its writer emits one line, and its reader inverts it.
    - [EventsSmall], [EventsRun], [EventsSubmit]: a module for each of the 27
      record layouts of lsb.log.c, with the struct of lsbatch.h, the writer, the
      reader and the instance of [EventCodec]; lsfRu2Str and str2lsfRu of
      lsf/lib/lib.lsf.c and convertRLimit of lsbatch/lib/lsb.misc.c.
    - [EventLog], [LogTheorems]: lsb_puteventrec, lsb_geteventrec_ex,
      lsb_readeventrecord, lsbGetNextJobRecFromFile and what they call, proved
      against the class.
    - [Bitset], [BitsetTheorems]: lsf/intlib/bitset.c.  The maps between objects
      and bit numbers are the caller's functions and variables of a section.
    - [JobArray]: index lists such as [name[1-10:2]%3] (lsf/intlib/jidx.c and
      callex.c, which are generated from the grammar idx.y and the rules cal.l;
      lsbatch/daemons/mbd.jarray.c).
    - [Window]: time windows (lsf/intlib/window.c, lsbatch/daemons/mbd.window.c)
      in the single-precision arithmetic of the source; the local time of a
      clock value is a parameter.
    - [DepToken], [DepCond], [DepParse], [DepTheorems]: dependency conditions
      (lsbatch/daemons/mbd.dep.c): tokens, the parser with its stacks of
      operators and operands, the jobs a condition selects, evaluation.  Jobs
      and arrays are records in two heaps ([gmap]s from references); the class
      [TimeWindows] is what the conditions need of time windows, and [Window]
      implements it.
    - [DList], [ListLib], [ListTheorems]: circular doubly linked lists in a heap of
      pointers, and the lists with observers of lsf/intlib/list.c.
    - [ListSet]: the sorted sets of lsf/intlib/listset.c.
    - [HashTab], [HashTheorems]: the hash tables of lsf/lib/lib.table.c, on [DList].
    - [Counters]: the counters of job slots by state that lsbatch/daemons/mbd.misc.c
      keeps for queues, users, groups and hosts, with the operations of mbd.job.c
      and mbd.init.c that change the state of a job.  [Ledger] and [CounterInv]
      have the invariant, [CounterTheorems] the theorems.
    - [Dispatch]: how lsbatch/daemons/mbd.policy.c dispatches a job: the slots that the
      limits leave to it (cntUQSlots, getHostJobSlots), the slots that it takes of
      its candidate hosts (getNumSlots, getNumProcs, allocHosts), and the loop of
      dispatchAJob that starts it, tries other candidates or reserves slots.  The
      replies of the slave daemons and the clock are arguments.  [DispatchInv] has
      what no update changes, [DispatchSlots] the choice of slots, [DispatchRun] a
      whole run, [DispatchLimits] what the limits promise, [DispatchGrowth] what a
      started job adds to the counters, [DispatchTheorems] the theorems.
    - [ResReq]: the resource requirements of lsf/intlib/resreq.c, such as
      [select[type==any && mem>50] order[mem] rusage[mem=20]], with the tokens of
      lsf/lib/lib.misc.c: the sections, the translation of the condition to Tcl in its
      two syntaxes and with alternatives, order, usage, filter and span.  A write past
      an array is the outcome [Crash].  [ResReqSect] finds the sections, [ResReqParse]
      reads their items, [ResReqSelect] translates the condition and [ResReqRoom]
      counts its characters, [ResReqMeaning] has requirements as data with their
      meaning, [ResReqInv] what the loops preserve, [ResReqRisk] the texts for which
      there is no outcome, [ResReqTheorems] the theorems.
    - [JGroup]: the tree of job groups and jobs of mbd.jgrp.c and the arrays of
      mbd.jarray.c.  [JTree] has linked trees in a heap, [JGroupInv] the
      invariant of the counts, [JGroupOps], [JGroupPut], [JGroupRemove] and
      [JGroupNew] its preservation by each operation, [JGroupWalk] the walk over
      the conditions, [JGroupTheorems] the theorems about all of them.
    - [Xdr]: the network messages.  A stream of xdrmem_create is a direction, a
      buffer and a position, and a codec is one function for both directions, as
      in the source; a write past a buffer of the caller is the outcome
      [Fault].  [XdrLib] has lsf/lib/lib.xdr.c and lib.xdrmisc.c, [XdrBatch] the
      identifiers and arrays that the records share, [XdrRequest], [XdrReply] and
      [XdrInfo] the records of lsbatch/lib/lsb.xdr.c, [XdrDaemons] those of
      lsbatch/daemons/daemons.xdr.c with getJobsState of sbd.comm.c, [XdrSize] the
      sizes of the buffers that the callers allocate.  [XdrMsg] has the class
      [Wire], what a record promises to the message layer, and the sending and
      receiving of a message against it.  [XdrCarry], [XdrSafe] and [XdrTheorems]
      have the lemmas and the theorems.
    - The messages of the base system, in the same style: [XdrLim] and [XdrHosts]
      have those of the load information manager to its clients
      (lsf/lib/lib.xdrlim.c; [XdrHosts] the two replies whose decoders keep memory
      between calls, which is an argument of the model), [Float16] the floating-point
      numbers of 16 bits and [XdrLoad] the messages between managers
      (lsf/lim/lim.xdr.c, and the message and its buffer in sendLoad of lim.load.c),
      [XdrTerm] the settings of terminals (lsf/lib/lib.term.c), [XdrRes] the requests
      to the remote execution server and its I/O server (lsf/lib/lib.xdrres.c,
      lib.xdrnio.c, chDisplay_ of lib.misc.c), [XdrSend] their sending and receiving
      (lsf/lib/lib.xdrrf.c), [XdrCard] the job cards of the slave batch daemon
      (lsbatch/daemons/sbd.xdr.c).  [XdrBase] has the theorems.

    ** What the theorems show

    - The event log ([LogTheorems]): of every sequence of well-formed records those
      that begin a line are read back, up to the normal form that the layout fixes
      and that has the same text.  These are all records but those behind an
      SBD_JOB_STATUS record, the one type of 29 whose line is not ended; the other
      theorems are about logs of the 28 types.  Copying a log drops its comment lines
      and keeps the other bytes; a write that fails for lack of space leaves the
      earlier records readable; asking for the records of some jobs returns those
      that their fields select, messages by user instead of job; each call of the
      reader makes progress.  Per event, the round trip of JOB_NEW, JOB_MODIFY2 and
      JOB_FINISH.
    - Text ([Values]): stripQStr inverts addQStr and stays inside its buffers;
      words are maximal; the readers of configuration files end.
    - Configuration files ([ConfTheorems]): a table gives each key the value of its
      column, and a list of lines the last value with its name; headers and lines that do
      not fit are refused; the readers end on every file.
    - Bit sets ([BitsetTheorems]): each operation refines the operation on sets of
      numbers; the iterator enumerates the members in order; the counting by
      table is the number of members.
    - Job arrays ([JobArray]): printed index lists are parsed back; the
      enumeration of the elements agrees with the membership test.
    - Time windows ([Window]): insertion is union of intervals, whatever order
      and overlap; an evaluation that is due reports a window open exactly at the
      clock times of its text, and other calls keep the last report.
    - Dependency conditions ([DepTheorems]): the parser and the evaluator give
      bracketed conditions on jobs given by number their meaning in the lattice
      invalid, false, true, outside the replay and when the byte read behind
      [preceTable] is small; the parser does not end exactly when it gets to a time
      condition that is stuck; conditions on arrays.
    - Lists, sets and tables ([ListTheorems], [ListSet], [HashTheorems]): the
      operations on pointers refine those on sequences, sets of numbers and
      finite maps, and no sequence of them follows a bad pointer; only the union of
      list sets keeps elements that both have twice.
    - Counters ([CounterTheorems]): in every state that the operations reach, each
      counter is the sum over the jobs of what their states require; the changes of
      state that [moves] leaves out are those that the code does not count.  A
      replay of the log counts jobs without reservations and not in RUN|WAIT the
      same.
    - Dispatching ([DispatchTheorems]): in every state that the operations on counters
      reach, a job that is dispatched and runs is within all limits of its queue,
      user, groups and hosts, without backfill and while no suspended slots are left
      out of the count of a host, which no code does; the counters stay exact whatever the slave daemons
      answer; the loop ends.
    - Resource requirements ([ResReqTheorems]): the text of a requirement is read as
      what it means, with its sections in any order; the parser ends on every text,
      what it accepts fits the arrays of the result, and a text for which the code
      writes outside an array or reads through NULL has one of the features of
      [hazard]; a condition in the new syntax can only overrun the arrays for names
      and values, with a long word or value.
    - The job tree ([JGroupTheorems]): in every state that the operations reach,
      the pointers form a tree, the counts of groups and arrays are the numbers
      of jobs below them, removed records are in no list of the tree, conditions on these numbers are exact; the walk over
      the conditions visits the nodes in order, and after twice as many calls as
      there are nodes every pending job has been checked.
    - Network messages ([XdrMsg], [XdrTheorems], [XdrSize], [XdrSafe]): what is
      encoded with its header, and with or without credentials, is decoded as it
      was sent, for each kind of record; so is the package of jobs of a slave
      daemon; an element longer than the receiver knows is skipped; the buffers
      that the callers allocate are large enough; no decoder in the list of
      [decoders_safe] leaves its buffers on any input.
    - The base system ([XdrBase], [XdrSend]): each kind of record is decoded as it was
      sent; the load of a host reaches the master with the built-in indices rounded
      to 16 bits, and the rounding is exact to a thousandth; the description of
      the hosts and the settings of a terminal arrive up to what the layout cannot
      hold, which is stated; a request that is sent through a channel is received
      from it.
    - Where the code does not do what it means to, a theorem states what it does:
      truncated lines, long host names, quotation marks in names of transferred
      files, limits of 2 GB and more, counters of bit sets, the precedence of
      [&&] over [||], brackets, names and invalid characters in conditions,
      steps of index lists, names and credentials in messages that are longer
      than their buffers, reports that are too short, replies about clusters that
      have grown, speeds of terminals, hosts that are not tried because a reason is
      tested as a set of bits, candidates that are sorted without their free slots,
      requirements with long names, values, sections or orders or with many
      alternatives, records behind one without newline, messages selected by user,
      changes of state that are not counted, arrays whose identifier is used again or
      that have no new element.

    ** Bounds and fuel

    - Integers are [Z] with the wrap-around of their C type written out; [time_t]
      and job identifiers have 64 bits, [int] 32.
    - The loops of the text layer run on fuel that is the length of the input;
      the theorems of [Values] show that it is never exhausted.
    - [insertW] inserts into ever shorter lists, so the length plus one is enough
      (used in the proof of its refinement theorem).
    - [parseDepCond] runs on the length of the text plus one.  [parse_terminates]
      says for which texts this is not enough, and that no fuel is enough for these;
      [time_window_hangs] has an example.
    - [eval_jobs] follows the lists of jobs of a user or an array; its fuel
      is the number of jobs in the heap and of elements of the condition, plus
      three, and running out is an outcome of its own ([OutOfFuel]), which the
      theorems about values exclude.
    - The parser of index lists has a stack of 150 entries (YYMAXDEPTH of the
      generated parser), two for each index of a list and the rest for the
      brackets, hence the bound of 73 indices in [array_name_roundtrip]; the
      model refuses a list for which the stack of the code has no room.
    - Loops over lists, hash chains and trees run on the number of cells of the
      heap plus one or two ([loop_fuel], [walk_fuel]); a well-formed structure is
      shorter, and the theorems show that the loops end.
    - The theorems about counters need sums of charges below 2^31, those about
      arrays fewer than 2^31 elements.  [getQUsable] of the scheduler is an
      argument of [Counters].
    - The loop of [dispatchAJob] runs on the number of candidates plus one, and
      [dispatch_terminates] shows that this is enough.  [dispatch_keeps_limits] needs
      limits of the configuration that are not negative, those per processor also
      after the multiplication, and groups that are listed once.
    - The loops of [ResReq] run on the length of their text plus one, and
      [requirement_wf] shows that this is enough.  [requirement_roundtrip] is about
      sections of fewer than 512 characters ([MAXLINELEN], the word of getNextToken), an
      expression of fewer than 512 and durations of at most 1000 ([MAXDURATION], up to
      which the seconds are exact in a [float]; checked for each).  [new_select_fits]
      has no bound on the text; it and [requirement_wf] need names of resources of two
      to thirty characters.
    - The theorems about messages need buffers below 2^31 bytes, and times that
      fit the 32 bits in which they travel.  Strings of records are not NULL
      except where the source tests for it.  The loops over the elements of a
      message run on the counts that the message carries.
    - Floating-point numbers in messages are their 32 bits; [Float16] reads them as
      exact values [m * 2 ^ e].  What is not a number has no encoding in the model,
      as frexp leaves its exponent open.  Sizes of structs, flags of files and
      terminals are those of Linux on x86-64.

    ** Not modelled

    Memory allocation is taken to succeed, except for negative sizes; freeing of
    memory and reference counts are left out (a job that is removed keeps its record,
    marked void, and the tree no longer leads to it).  Files are sequences of characters:
    opening, switching and locking of log files and the index files of lsb.log.c
    are outside.  Messages are sequences of bytes: sockets are outside, as is the
    third direction of the codecs (XDR_FREE), and the tables that most codecs keep
    between calls are made anew for each call ([XdrHosts] has the two where the old
    table matters).  Of the files with messages, xdr_niosStatus, sizeofJobCard (which
    nothing calls) and xdr_loadmatrix (which does nothing) are left out.  Of the
    scheduling policy, the order of the jobs, the choice of candidates by load,
    the evaluation of resource requirements by the Tcl interpreter, backfill and
    preemption are left out.  The slave daemon, the load information manager and the
    remote execution server act on processes, sockets and the load of hosts; only
    their messages are modelled.  Of the numbers in resource requirements, those with
    exponents, hexadecimal ones, infinities and what is not a number are the outcome
    [Unmodelled].

    ** Plan

    Next are xdr_niosStatus, the index files of the event log (lsb.log.c), the
    remaining structures of lsf/intlib (set.c, link.c), the windows of queues and
    hosts, and readyToDisp and getJUsable of the scheduling policy, and what
    lsf/lib/lib.conf.c and lsbatch/lib/lsb.conf.c make of the values of configuration files. *)
From Stdlib Require Import ZArith Ascii String List Bool Lia.
Import ListNotations.

(** ** C strings

    A C string is the list of its characters before the terminating NUL. *)
Abbreviation cstr := (list ascii).

Definition cs (s : string) : cstr := list_ascii_of_string s.

Definition SP : ascii := " "%char.
Definition QT : ascii := "034"%char.
Definition NL : ascii := "010"%char.
Definition NUL : ascii := "000"%char.

(** [isspace] of the C locale: space, tab, newline, vertical tab, form feed,
    carriage return. *)
Definition isspace (c : ascii) : bool :=
  (nat_of_ascii c =? 32)%nat
  || ((9 <=? nat_of_ascii c)%nat && (nat_of_ascii c <=? 13)%nat).

Definition isdigit (c : ascii) : bool :=
  (48 <=? nat_of_ascii c)%nat && (nat_of_ascii c <=? 57)%nat.

Arguments isspace : simpl never.
Arguments isdigit : simpl never.

(** [strcmp(a, b) == 0]. *)
Fixpoint streq (a b : cstr) : bool :=
  match a, b with
  | [], [] => true
  | x :: a', y :: b' => Ascii.eqb x y && streq a' b'
  | _, _ => false
  end.

Lemma streq_eq a b : streq a b = true <-> a = b.
Proof.
  revert b; induction a as [|x a IH]; intros [|y b]; cbn; try (split; congruence).
  rewrite andb_true_iff, Ascii.eqb_eq, IH. split; [intros []|intros [= -> ->]]; subst; auto.
Qed.

Lemma streq_refl a : streq a a = true.
Proof. now apply streq_eq. Qed.

(** ** Machine integers (LP64: [int] has 32 bits, [long] has 64) *)

Local Open Scope Z_scope.

Definition wrap32 (z : Z) : Z := (z + 2 ^ 31) mod 2 ^ 32 - 2 ^ 31.
Definition uwrap32 (z : Z) : Z := z mod 2 ^ 32.
Definition int32b (z : Z) : bool := (- 2 ^ 31 <=? z) && (z <? 2 ^ 31).
Definition int32 (z : Z) : Prop := - 2 ^ 31 <= z < 2 ^ 31.
Definition clamp64 (z : Z) : Z := Z.max (- 2 ^ 63) (Z.min (2 ^ 63 - 1) z).

Lemma int32b_spec z : int32b z = true <-> int32 z.
Proof. unfold int32b, int32. rewrite andb_true_iff, Z.leb_le, Z.ltb_lt. reflexivity. Qed.

Lemma wrap32_id z : int32 z -> wrap32 z = z.
Proof. unfold int32, wrap32. intros. rewrite Z.mod_small; lia. Qed.

Lemma wrap32_mod z : int32 z -> wrap32 (z mod 2 ^ 32) = z.
Proof. intros. unfold wrap32. rewrite Zplus_mod_idemp_l. now apply wrap32_id. Qed.

Lemma wrap32_int32 z : int32 (wrap32 z).
Proof. unfold int32, wrap32. pose proof (Z.mod_pos_bound (z + 2 ^ 31) (2 ^ 32)). lia. Qed.

Lemma clamp64_id z : int32 z -> clamp64 z = z.
Proof. unfold int32, clamp64. lia. Qed.

(** [(x & mask) != 0] *)
Definition has (x mask : Z) : bool := negb (Z.land x mask =? 0).

(** ** Automation *)

(** Boolean conjunctions in hypotheses are split into their conjuncts. *)
Ltac bool_split :=
  repeat match goal with
  | H : _ && _ = true |- _ => apply andb_true_iff in H; destruct H
  end.

(** Lemmas on the text of event records: what the conversions, the writers and the
    readers do on one field. *)
Create HintDb elog.
