(* ===== verification/JobId.v ===== *)
(** * Job identifiers (lsbatch/lsbatch.h)

    A job identifier is a 64-bit integer: the number of the job in the low 32
    bits and the index in a job array above them.  The macros [LSB_JOBID],
    [LSB_ARRAY_IDX] and [LSB_ARRAY_JOBID] at their C widths. *)
From Stdlib Require Import ZArith Bool Lia.
From S2P Require Import Prelude.
Local Open Scope Z_scope.

Definition LSB_MAX_ARRAY_JOBID : Z := 0x0FFFFFFFF.
Definition LSB_MAX_ARRAY_IDX : Z := 0x0FFFF.

Definition uwrap64 (z : Z) : Z := z mod 2 ^ 64.
Definition wrap64 (z : Z) : Z := (z + 2 ^ 63) mod 2 ^ 64 - 2 ^ 63.

(** [((LS_UNS_LONG_INT)array_idx << 32) | array_jobId], stored in an
    [LS_LONG_INT]: both operands are converted to 64 bits without sign. *)
Definition LSB_JOBID (array_jobId array_idx : Z) : Z :=
  wrap64 (Z.lor (uwrap64 (Z.shiftl (uwrap64 array_idx) 32)) (uwrap64 array_jobId)).

Definition LSB_ARRAY_IDX (jobId : Z) : Z :=
  if jobId =? -1 then 0 else Z.land (Z.shiftr (uwrap64 jobId) 32) LSB_MAX_ARRAY_IDX.

(** [(int)(jobId & LSB_MAX_ARRAY_JOBID)], -1 kept. *)
Definition LSB_ARRAY_JOBID (jobId : Z) : Z :=
  if jobId =? -1 then -1 else wrap32 (Z.land jobId LSB_MAX_ARRAY_JOBID).

(** ** The parts of an identifier *)

Lemma testbit_high b n i : 0 <= b < 2 ^ n -> n <= i -> Z.testbit b i = false.
Proof.
  intros Hb Hi. destruct (Z.eq_dec b 0) as [->|]; [apply Z.bits_0|].
  apply Z.bits_above_log2; [lia|]. enough (Z.log2 b < n) by lia. apply Z.log2_lt_pow2; lia.
Qed.

Lemma lor_shift a b n : 0 <= n -> 0 <= b < 2 ^ n -> Z.lor (a * 2 ^ n) b = a * 2 ^ n + b.
Proof.
  intros Hn Hb.
  assert (D : Z.land (a * 2 ^ n) b = 0).
  { apply Z.bits_inj'. intros i Hi. rewrite Z.land_spec, Z.bits_0.
    destruct (Z.ltb_spec i n).
    - now rewrite Z.mul_pow2_bits_low.
    - now rewrite (testbit_high b n i), andb_false_r. }
  rewrite Z.add_nocarry_lxor, Z.lxor_lor; auto.
Qed.

(** The number of a job of an array, as an integer. *)
Lemma LSB_JOBID_val j i : 0 <= j < 2 ^ 32 -> 0 <= i < 2 ^ 31 -> LSB_JOBID j i = i * 2 ^ 32 + j.
Proof.
  intros Hj Hi. unfold LSB_JOBID, uwrap64, wrap64.
  rewrite (Z.mod_small i), (Z.mod_small j) by lia. rewrite Z.shiftl_mul_pow2 by lia.
  rewrite (Z.mod_small (i * 2 ^ 32)) by lia. rewrite lor_shift by lia.
  rewrite Z.mod_small; lia.
Qed.

Lemma jobid_idx j i : 0 <= j < 2 ^ 32 -> 0 <= i <= LSB_MAX_ARRAY_IDX -> LSB_ARRAY_IDX (LSB_JOBID j i) = i.
Proof.
  unfold LSB_MAX_ARRAY_IDX. intros Hj Hi. rewrite LSB_JOBID_val by lia. unfold LSB_ARRAY_IDX, uwrap64.
  destruct (Z.eqb_spec (i * 2 ^ 32 + j) (-1)); [lia|].
  rewrite Z.mod_small by lia. rewrite Z.shiftr_div_pow2 by lia.
  rewrite Z.div_add_l, (Z.div_small j) by lia. rewrite Z.add_0_r.
  change LSB_MAX_ARRAY_IDX with (Z.ones 16). rewrite Z.land_ones, Z.mod_small; lia.
Qed.

Lemma jobid_job j i : 0 <= j < 2 ^ 31 -> 0 <= i <= LSB_MAX_ARRAY_IDX -> LSB_ARRAY_JOBID (LSB_JOBID j i) = j.
Proof.
  unfold LSB_MAX_ARRAY_IDX. intros Hj Hi. rewrite LSB_JOBID_val by lia. unfold LSB_ARRAY_JOBID.
  destruct (Z.eqb_spec (i * 2 ^ 32 + j) (-1)); [lia|].
  change LSB_MAX_ARRAY_JOBID with (Z.ones 32). rewrite Z.land_ones by lia.
  rewrite Z.add_comm, Z.mod_add, Z.mod_small by lia. apply wrap32_id. unfold int32. lia.
Qed.

(** An identifier determines the job and the index. *)
Lemma jobid_inj j i i' : 0 <= j < 2 ^ 32 -> 0 <= i < 2 ^ 31 -> 0 <= i' < 2 ^ 31 ->
  LSB_JOBID j i = LSB_JOBID j i' -> i = i'.
Proof. intros Hj Hi Hi'. rewrite !LSB_JOBID_val by lia. lia. Qed.
