(* ===== verification/CNum.v ===== *)
(** * Numbers as text: the [printf] and [scanf] conversions the sources use

    [%d] printing and scanning of [int]; [%w.pf] printing and [%f]/[%lf]
    scanning of IEEE binary32/binary64 values.  Floating-point values are the
    [spec_float] of the Standard Library; printing and scanning are the exact
    conversions (round to nearest, ties to even) of the C library. *)
From Stdlib Require Import ZArith Ascii String List Bool Lia.
From Corelib Require Import SpecFloat.
From S2P Require Import Prelude.
Import ListNotations.
Local Open Scope Z_scope.

(** ** Decimal digits *)

Definition digit (d : Z) : ascii := ascii_of_nat (48 + Z.to_nat d).
Definition digitval (c : ascii) : Z := Z.of_nat (nat_of_ascii c) - 48.

Arguments digit : simpl never.
Arguments digitval : simpl never.

(** The digits of [n >= 0], most significant first; [fuel] bounds their number. *)
Fixpoint udec (fuel : nat) (n : Z) : cstr :=
  match fuel with
  | O => []
  | S f => if n <? 10 then [digit n] else udec f (n / 10) ++ [digit (n mod 10)]
  end.

(** [log2 n + 1] digits are enough, since [10^k >= 2^k]. *)
Definition dec_fuel (n : Z) : nat := S (Z.to_nat (Z.log2 n)).
Definition unat (n : Z) : cstr := udec (dec_fuel n) n.

(** [printf("%d", z)] *)
Definition dec (z : Z) : cstr :=
  if z <? 0 then "-"%char :: unat (- z) else unat z.

(** The longest prefix of digits: its value from the accumulator, the number
    of digits and what follows. *)
Fixpoint scan_digits (acc : Z) (k : nat) (s : cstr) : Z * nat * cstr :=
  match s with
  | c :: s' => if isdigit c then scan_digits (acc * 10 + digitval c) (S k) s' else (acc, k, s)
  | [] => (acc, k, s)
  end.

Fixpoint skip_space (s : cstr) : cstr :=
  match s with
  | c :: s' => if isspace c then skip_space s' else s
  | [] => []
  end.

(** Optional sign of a number. *)
Definition scan_sign (s : cstr) : bool * cstr :=
  match s with
  | c :: s' =>
      if Ascii.eqb c "-" then (true, s')
      else if Ascii.eqb c "+" then (false, s') else (false, s)
  | [] => (false, s)
  end.

(** [sscanf(s, "%d%n", &i, &n)]: the value stored (a [long] conversion, then
    narrowed to [int]) and the input after it; [None] when no conversion is done. *)
Definition scan_int (s : cstr) : option (Z * cstr) :=
  let '(neg, s1) := scan_sign (skip_space s) in
  let '(v, k, r) := scan_digits 0 0 s1 in
  match k with
  | O => None
  | _ => Some (wrap32 (clamp64 (if neg then - v else v)), r)
  end.

(** ** Floating point *)

Definition sf32 (f : Z -> Z -> spec_float) : spec_float := f 24 128.
Definition sf64 (f : Z -> Z -> spec_float) : spec_float := f 53 1024.

(** [round(|x| * 10^p)] of a finite [x = m * 2^e], ties to even. *)
Definition round_dec (p : nat) (m : positive) (e : Z) : Z :=
  let num := Zpos m * 10 ^ Z.of_nat p in
  if 0 <=? e then num * 2 ^ e
  else
    let den := 2 ^ (- e) in
    let q := num / den in
    let r := num mod den in
    match (2 * r) ?= den with
    | Lt => q
    | Gt => q + 1
    | Eq => if Z.even q then q else q + 1
    end.

(** [N / 10^p] with [p] decimals. *)
Fixpoint pad_digits (p : nat) (n : Z) : cstr :=
  match p with
  | O => []
  | S p' => pad_digits p' (n / 10) ++ [digit (n mod 10)]
  end.

Definition fixed (p : nat) (n : Z) : cstr :=
  unat (n / 10 ^ Z.of_nat p)
  ++ match p with O => [] | _ => "."%char :: pad_digits p (n mod 10 ^ Z.of_nat p) end.

Definition signed (neg : bool) (s : cstr) : cstr := if neg then "-"%char :: s else s.

Definition pad_left (w : nat) (s : cstr) : cstr := repeat SP (w - length s) ++ s.

(** [printf("%w.pf", x)] *)
Definition fmt_f (w p : nat) (x : spec_float) : cstr :=
  pad_left w
    (match x with
     | S754_zero s => signed s (fixed p 0)
     | S754_finite s m e => signed s (fixed p (round_dec p m e))
     | S754_infinity s => signed s (cs "inf")
     | S754_nan => cs "nan"
     end).

(** The correctly rounded value of [(-1)^neg * n / 10^p]. *)
Definition dec_to_float (prec emax : Z) (neg : bool) (n : Z) (p : nat) : spec_float :=
  match n with
  | Zpos m =>
      let '(q, e, l) := SFdiv_core_binary prec emax (Zpos m) 0 (10 ^ Z.of_nat p) 0 in
      binary_round_aux prec emax neg q e l
  | _ => S754_zero neg
  end.

(** What [%f] finds: a decimal number, nothing to convert, or one of the forms
    the model leaves out (an exponent, a hexadecimal number, inf, nan). *)
Inductive fscan :=
| FNum (neg : bool) (n : Z) (p : nat) (rest : cstr)
| FNone
| FSpecial.

Definition special_start (c : ascii) : bool :=
  existsb (Ascii.eqb c) (list_ascii_of_string "iInN").
Definition special_mid (c : ascii) : bool :=
  existsb (Ascii.eqb c) (list_ascii_of_string "eExXpP").

Definition scan_float (s : cstr) : fscan :=
  let '(neg, s1) := scan_sign (skip_space s) in
  let '(v, k, r) := scan_digits 0 0 s1 in
  let '(v', k', r') :=
    match r with
    | c :: r1 => if Ascii.eqb c "." then scan_digits v 0 r1 else (v, O, r)
    | [] => (v, O, r)
    end in
  match (k + k')%nat, r' with
  | O, c :: _ => if special_start c then FSpecial else FNone
  | O, [] => FNone
  | _, c :: _ => if special_mid c then FSpecial else FNum neg v' k' r'
  | _, [] => FNum neg v' k' r'
  end.

(** [x] is the value read back from its own text with [p] decimals. *)
Definition sf_eqb (x y : spec_float) : bool :=
  match x, y with
  | S754_zero s, S754_zero t => eqb s t
  | S754_finite s m e, S754_finite t n f => eqb s t && Pos.eqb m n && (e =? f)
  | _, _ => false
  end.

Definition stable (prec emax : Z) (p : nat) (x : spec_float) : bool :=
  match x with
  | S754_zero _ => true
  | S754_finite s m e => sf_eqb (dec_to_float prec emax s (round_dec p m e) p) x
  | _ => false
  end.

Definition SFnonpos (x : spec_float) : bool := SFleb x (S754_zero false).

(** [atof(s)], for the forms [scan_float] models. *)
Definition atof (s : cstr) : option spec_float :=
  match scan_float s with
  | FNum neg n p _ => Some (dec_to_float 53 1024 neg n p)
  | FNone => Some (S754_zero false)
  | FSpecial => None
  end.

(** [(float) x] for a [double] [x], and [(double) x] for a [float] [x]. *)
Definition narrow (x : spec_float) : spec_float :=
  match x with
  | S754_finite s m e => binary_normalize 24 128 (if s then Zneg m else Zpos m) e s
  | _ => x
  end.

Definition widen (x : spec_float) : spec_float :=
  match x with
  | S754_finite s m e => binary_normalize 53 1024 (if s then Zneg m else Zpos m) e s
  | _ => x
  end.

(** [(float) z] and [(double) z] for an integer [z]. *)
Definition float_of (z : Z) : spec_float := binary_normalize 24 128 z 0 false.
Definition double_of (z : Z) : spec_float := binary_normalize 53 1024 z 0 false.

(** [(long) x]: towards zero; 0 stands for the values that have no [long]. *)
Definition trunc (x : spec_float) : Z :=
  match x with
  | S754_finite s m e =>
      let v := if 0 <=? e then Zpos m * 2 ^ e else Zpos m / 2 ^ (- e) in if s then - v else v
  | _ => 0
  end.

(** ** Lemmas: text and value of a number *)

(** A number or a quoted string of a record ends at a blank or at the end. *)
Definition sep (r : cstr) : Prop :=
  match r with [] => True | c :: _ => c = SP end.

Lemma digit_cases d : 0 <= d < 10 ->
  d = 0 \/ d = 1 \/ d = 2 \/ d = 3 \/ d = 4 \/ d = 5 \/ d = 6 \/ d = 7 \/ d = 8 \/ d = 9.
Proof. lia. Qed.

Ltac digit_case H := apply digit_cases in H; repeat (destruct H as [H | H]); subst; try reflexivity.

Lemma isdigit_digit d : 0 <= d < 10 -> isdigit (digit d) = true.
Proof. intros H. digit_case H. Qed.

Lemma digitval_digit d : 0 <= d < 10 -> digitval (digit d) = d.
Proof. intros H. digit_case H. Qed.

Fixpoint dval (acc : Z) (ds : cstr) : Z :=
  match ds with [] => acc | c :: t => dval (acc * 10 + digitval c) t end.

Lemma dval_app acc a b : dval acc (a ++ b) = dval (dval acc a) b.
Proof. revert acc; induction a; cbn; auto. Qed.

Lemma scan_digits_app ds r acc k :
  forallb isdigit ds = true ->
  scan_digits acc k (ds ++ r) = scan_digits (dval acc ds) (k + length ds) r.
Proof.
  revert acc k; induction ds as [|c ds IH]; cbn; intros acc k H.
  - now rewrite Nat.add_0_r.
  - bool_split. rewrite H, IH by auto. now rewrite Nat.add_succ_r.
Qed.

Lemma scan_digits_stop r acc k :
  match r with c :: _ => isdigit c = false | [] => True end ->
  scan_digits acc k r = (acc, k, r).
Proof. destruct r as [|c r]; cbn; [reflexivity|]. now intros ->. Qed.

Lemma sep_stop r : sep r -> match r with c :: _ => isdigit c = false | [] => True end.
Proof. destruct r; cbn; [auto|]. now intros ->. Qed.

Lemma udec_digits f n : 0 <= n -> forallb isdigit (udec f n) = true.
Proof.
  revert n; induction f as [|f IH]; cbn; intros n Hn; [reflexivity|].
  destruct (Z.ltb_spec n 10); cbn.
  - now rewrite isdigit_digit by lia.
  - rewrite forallb_app, IH by (apply Z.div_pos; lia). cbn.
    rewrite isdigit_digit; [reflexivity|]. apply Z.mod_pos_bound; lia.
Qed.

Lemma udec_val f n : 0 <= n < 10 ^ Z.of_nat f -> dval 0 (udec f n) = n.
Proof.
  revert n; induction f as [|f IH]; intros n Hn.
  - cbn in *. lia.
  - cbn [udec]. destruct (Z.ltb_spec n 10).
    + cbn [dval]. rewrite digitval_digit; lia.
    + rewrite dval_app, IH; cbn [dval].
      * pose proof (Z.mod_pos_bound n 10). rewrite digitval_digit by lia.
        pose proof (Z.div_mod n 10). lia.
      * rewrite Nat2Z.inj_succ, Z.pow_succ_r in Hn by lia.
        split; [apply Z.div_pos; lia|]. apply Z.div_lt_upper_bound; lia.
Qed.

Lemma dec_fuel_ok n : 0 <= n -> n < 10 ^ Z.of_nat (dec_fuel n).
Proof.
  intros Hn. unfold dec_fuel. rewrite Nat2Z.inj_succ, Z2Nat.id by apply Z.log2_nonneg.
  destruct (Z.eq_dec n 0) as [->|]; [reflexivity|].
  pose proof (Z.log2_spec n) as L. pose proof (Z.log2_nonneg n).
  assert (2 ^ Z.succ (Z.log2 n) <= 10 ^ Z.succ (Z.log2 n)) by (apply Z.pow_le_mono_l; lia).
  lia.
Qed.

Lemma unat_digits n : 0 <= n -> forallb isdigit (unat n) = true.
Proof. apply udec_digits. Qed.

Lemma unat_val n : 0 <= n -> dval 0 (unat n) = n.
Proof. intros. apply udec_val. split; [auto|now apply dec_fuel_ok]. Qed.

Lemma unat_cons n : 0 <= n -> exists c t, unat n = c :: t /\ isdigit c = true.
Proof.
  intros Hn. pose proof (unat_digits n Hn) as D. unfold unat, dec_fuel in *.
  cbn [udec] in *. destruct (n <? 10); cbn in D; [eauto using andb_prop|].
  - bool_split; eauto.
  - destruct (udec _ _ ++ _) as [|c t] eqn:E; [now destruct (udec _ _)|].
    cbn in D. bool_split; eauto.
Qed.

Lemma isdigit_plain c : isdigit c = true ->
  isspace c = false /\ Ascii.eqb c "-" = false /\ Ascii.eqb c "+" = false
  /\ Ascii.eqb c "." = false /\ Ascii.eqb c QT = false.
Proof.
  destruct c as [[] [] [] [] [] [] [] []]; vm_compute; try discriminate; auto.
Qed.

Lemma scan_digits_unat n r : 0 <= n ->
  scan_digits 0 0 (unat n ++ r) = scan_digits n (length (unat n)) r.
Proof. intros. rewrite scan_digits_app, unat_val by auto using unat_digits. reflexivity. Qed.

Lemma scan_sign_unat n r : 0 <= n -> scan_sign (unat n ++ r) = (false, unat n ++ r).
Proof.
  intros Hn. destruct (unat_cons n Hn) as (c & t & -> & D).
  apply isdigit_plain in D as (_ & A & B & _). cbn. now rewrite A, B.
Qed.

Lemma skip_space_sign neg n r : 0 <= n ->
  skip_space (signed neg (unat n) ++ r) = signed neg (unat n) ++ r.
Proof.
  intros Hn. destruct (unat_cons n Hn) as (c & t & -> & D).
  apply isdigit_plain in D as (A & _). destruct neg; cbn; [reflexivity|]. now rewrite A.
Qed.

Lemma scan_sign_signed neg n r : 0 <= n ->
  scan_sign (signed neg (unat n) ++ r) = (neg, unat n ++ r).
Proof. intros Hn. destruct neg; [reflexivity|]. now apply scan_sign_unat. Qed.

Lemma dec_signed z : dec z = signed (z <? 0) (unat (Z.abs z)).
Proof.
  unfold dec, signed. destruct (Z.ltb_spec z 0).
  - now rewrite Z.abs_neq by lia.
  - now rewrite Z.abs_eq by lia.
Qed.

(** [%d] reads back what [%d] printed, up to a character that is not a digit. *)
Lemma scan_int_stop z r : int32 z -> match r with c :: _ => isdigit c = false | [] => True end ->
  scan_int (dec z ++ r) = Some (z, r).
Proof.
  intros Hz Hr. unfold scan_int.
  rewrite dec_signed, skip_space_sign, scan_sign_signed, scan_digits_unat by lia.
  rewrite scan_digits_stop by assumption.
  destruct (unat_cons (Z.abs z)) as (c & t & -> & _); [lia|]. cbn [length].
  assert ((if z <? 0 then - Z.abs z else Z.abs z) = z) as ->.
  { destruct (Z.ltb_spec z 0); lia. }
  now rewrite clamp64_id, wrap32_id.
Qed.

Lemma scan_int_dec z r : int32 z -> sep r -> scan_int (dec z ++ r) = Some (z, r).
Proof. intros Hz Hr. apply scan_int_stop; [assumption|now apply sep_stop]. Qed.

Lemma scan_int_space r : scan_int (SP :: r) = scan_int r.
Proof. reflexivity. Qed.

Lemma pad_digits_spec p n : 0 <= n < 10 ^ Z.of_nat p ->
  forallb isdigit (pad_digits p n) = true /\ length (pad_digits p n) = p
  /\ forall acc, dval acc (pad_digits p n) = acc * 10 ^ Z.of_nat p + n.
Proof.
  revert n; induction p as [|p IH]; intros n Hn.
  - cbn in *. repeat split; intros; lia.
  - rewrite Nat2Z.inj_succ, Z.pow_succ_r in * by lia.
    destruct (IH (n / 10)) as (D & L & V).
    { split; [apply Z.div_pos; lia|]. apply Z.div_lt_upper_bound; lia. }
    pose proof (Z.mod_pos_bound n 10) as M. cbn [pad_digits].
    rewrite forallb_app, D, length_app, L. cbn [forallb length]. rewrite isdigit_digit by lia.
    split; [reflexivity|]. split; [lia|]. intros acc. rewrite dval_app, V. cbn [dval].
    rewrite digitval_digit by lia. pose proof (Z.div_mod n 10). lia.
Qed.

Lemma skip_space_spaces k s : skip_space (repeat SP k ++ s) = skip_space s.
Proof. induction k; auto. Qed.

Lemma sep_special c r : sep (c :: r) -> special_mid c = false /\ isdigit c = false.
Proof. cbn. now intros ->. Qed.

(** [%f] reads back the decimal that [%w.pf] printed. *)
Lemma scan_float_fixed w p neg n r : 0 <= n -> sep r ->
  scan_float (pad_left w (signed neg (fixed p n)) ++ r) = FNum neg n p r.
Proof.
  intros Hn Hr. unfold scan_float, pad_left, fixed.
  rewrite <- app_assoc, skip_space_spaces.
  set (q := n / _). set (f := n mod _).
  assert (Hq : 0 <= q) by (apply Z.div_pos; [lia | apply Z.pow_pos_nonneg; lia]).
  assert (Hf : 0 <= f < 10 ^ Z.of_nat p) by (apply Z.mod_pos_bound, Z.pow_pos_nonneg; lia).
  set (tl := match p with O => [] | _ => _ end).
  assert (signed neg (unat q ++ tl) = signed neg (unat q) ++ tl) as -> by now destruct neg.
  rewrite <- app_assoc, skip_space_sign, scan_sign_signed, scan_digits_unat by auto.
  destruct (unat_cons q Hq) as (c0 & t0 & -> & _). cbn [length].
  destruct (pad_digits_spec p f Hf) as (D & L & V).
  assert (E : q * 10 ^ Z.of_nat p + f = n).
  { unfold q, f. pose proof (Z.div_mod n (10 ^ Z.of_nat p)). lia. }
  destruct p as [|p'].
  - subst tl. cbn [app]. rewrite scan_digits_stop by now apply sep_stop.
    cbn in E, Hf. assert (q = n) as -> by lia.
    destruct r as [|c r]; [reflexivity|]. cbn in Hr. now subst c.
  - subst tl. cbn [app]. rewrite scan_digits_stop by reflexivity.
    cbv beta iota. change (Ascii.eqb "." ".") with true. cbv iota.
    rewrite scan_digits_app by exact D. rewrite V, E.
    rewrite scan_digits_stop by now apply sep_stop. rewrite L. destruct r as [|c r]; [reflexivity|]. cbn in Hr. now subst c.
Qed.

Lemma round_dec_nonneg p m e : 0 <= round_dec p m e.
Proof.
  unfold round_dec. pose proof (Z.pow_nonneg 10 (Z.of_nat p)).
  destruct (Z.leb_spec 0 e).
  - apply Z.mul_nonneg_nonneg; [lia|]. apply Z.pow_nonneg; lia.
  - assert (0 <= Z.pos m * 10 ^ Z.of_nat p / 2 ^ (- e)) by
      (apply Z.div_pos; [lia | apply Z.pow_pos_nonneg; lia]).
    destruct (_ ?= _); [destruct (Z.even _)| |]; lia.
Qed.

Lemma sf_eqb_eq x y : sf_eqb x y = true -> x = y.
Proof.
  destruct x, y; cbn; try discriminate; intros H; bool_split.
  - apply eqb_prop in H. congruence.
  - apply eqb_prop in H. apply Pos.eqb_eq in H1. apply Z.eqb_eq in H0. congruence.
Qed.

(** A stable value is read back exactly. *)
Lemma scan_float_stable prec emax w p x r :
  stable prec emax p x = true -> sep r ->
  exists neg n, scan_float (fmt_f w p x ++ r) = FNum neg n p r
    /\ dec_to_float prec emax neg n p = x.
Proof.
  intros Hx Hr. destruct x as [s| | |s m e]; try discriminate; unfold fmt_f.
  - exists s, 0. rewrite scan_float_fixed by (auto; lia). auto.
  - exists s, (round_dec p m e).
    rewrite scan_float_fixed by auto using round_dec_nonneg.
    split; [reflexivity|]. now apply sf_eqb_eq.
Qed.

Lemma scan_float_space r : scan_float (SP :: r) = scan_float r.
Proof. reflexivity. Qed.

#[export] Hint Resolve scan_int_dec round_dec_nonneg : elog.
