(* ===== verification/Words.v ===== *)
(** * Lines, words and quoted strings: lsf/lib/lib.words.c

    The text layer shared by the configuration files and the event log: the
    output stream with [putc], quoted strings ([addQStr], [stripQStr]), logical
    lines ([getNextLineD_], [getNextLineC_], [getNextLine_]), words
    ([getNextWord_] and its variants) and [subNewLine_].  Memory allocation is taken to succeed; fixed buffers keep
    their size, and a write past one is an outcome of its own. *)
From Stdlib Require Import ZArith Ascii String List Bool Lia.
From S2P Require Import Prelude CNum.
Import ListNotations.
Local Open Scope Z_scope.

Definition MAXLINELEN : nat := 512.

(** ** Output streams *)

(** What has been written, and how many characters the device still takes
    ([None]: no limit). *)
Record FILE := mkFILE { written : cstr; room : option nat }.

Definition full (f : FILE) : bool :=
  match room f with Some O => true | _ => false end.

(** [putc]: [false] is [EOF]. *)
Definition putc (c : ascii) (f : FILE) : bool * FILE :=
  if full f then (false, f)
  else (true, mkFILE (written f ++ [c]) (option_map pred (room f))).

(** [fprintf] of a text already formatted. *)
Fixpoint fputs (s : cstr) (f : FILE) : bool * FILE :=
  match s with
  | [] => (true, f)
  | c :: s' => let '(ok, f') := putc c f in if ok then fputs s' f' else (false, f')
  end.

(** ** Quoted strings *)

(** The loop of [addQStr]: a quote is written twice. *)
Fixpoint addQStr_loop (str : cstr) (log_fp : FILE) : bool * FILE :=
  match str with
  | [] => (true, log_fp)
  | c :: str' =>
      let '(ok, f) := if Ascii.eqb c QT then putc QT log_fp else (true, log_fp) in
      if ok then
        let '(ok, f) := putc c f in
        if ok then addQStr_loop str' f else (false, f)
      else (false, f)
  end.

Definition addQStr (log_fp : FILE) (str : cstr) : bool * FILE :=
  let '(ok, f) := putc SP log_fp in
  if ok then
    let '(ok, f) := putc QT f in
    if ok then
      let '(ok, f) := addQStr_loop str f in
      if ok then putc QT f else (false, f)
    else (false, f)
  else (false, f).

(** [stripQStr(q, str)]: the string between the first pair of quotes, with the
    return value (the distance from [q] to just after the closing quote), or
    [-1] with the number of characters already stored in [str]. *)
Inductive strip :=
| SOk (str : cstr) (count : nat)
| SFail (stored : nat).

Fixpoint strip_body (q : cstr) (n : nat) : strip :=
  match q with
  | [] => SFail 0
  | c :: q1 =>
      if Ascii.eqb c QT then
        match q1 with
        | c2 :: q2 =>
            if Ascii.eqb c2 QT then
              match strip_body q2 (n + 2) with
              | SOk s k => SOk (c2 :: s) k
              | SFail k => SFail (S k)
              end
            else SOk [] (n + 1)
        | [] => SOk [] (n + 1)
        end
      else
        match strip_body q1 (n + 1) with
        | SOk s k => SOk (c :: s) k
        | SFail k => SFail (S k)
        end
  end.

Fixpoint strip_from (q : cstr) (n : nat) : strip :=
  match q with
  | [] => SFail 0
  | c :: q1 => if Ascii.eqb c QT then strip_body q1 (n + 1) else strip_from q1 (n + 1)
  end.

Definition stripQStr (q : cstr) : strip := strip_from q 0.

(** ** Lines *)

(** The rest of a comment: whether the input ended in it, the input after it,
    and the number of newlines read. *)
Fixpoint skip_comment (fp : cstr) : bool * cstr * Z :=
  match fp with
  | [] => (true, [], 0)
  | c :: fp' => if Ascii.eqb c NL then (false, fp', 1) else skip_comment fp'
  end.

Definition blank (c : ascii) : ascii := if isspace c then SP else c.

Definition HASH : ascii := "#"%char.
Definition BSLASH : ascii := "\"%char.

(** The reading loop of [getNextLineD_]: the characters of the line so far (in
    reverse), whether a quotation is open, the input and the line counter.
    Returns the characters, whether [EOF] ended the loop, the input left and
    the counter. *)
Fixpoint lineD_loop (confFormat quotes : bool) (line : cstr) (fp : cstr) (lc : Z)
  : cstr * bool * cstr * Z :=
  match fp with
  | [] => (line, true, [], lc)
  | cin :: fp1 =>
      if Ascii.eqb cin NL then (line, false, fp1, lc + 1)
      else
        let quotes := if Ascii.eqb cin QT then negb quotes else quotes in
        if confFormat && Ascii.eqb cin HASH && negb quotes then
          let '(eof, fp2, n) := skip_comment fp1 in (line, eof, fp2, lc + n)
        else if confFormat && Ascii.eqb cin BSLASH then
          match fp1 with
          | [] => (line, true, [], lc)
          | cin2 :: fp2 =>
              let lc := if Ascii.eqb cin2 NL then lc + 1 else lc in
              let line := if isspace cin2 then line else cin :: line in
              lineD_loop confFormat quotes (blank cin2 :: line) fp2 lc
          end
        else lineD_loop confFormat quotes (blank cin :: line) fp1 lc
  end.

(** [while (lpos > 0 && line[--lpos] == ' ');], on the reversed line: the first
    character of the line always stays. *)
Fixpoint trim_back (line : cstr) : cstr :=
  match line with
  | [] => []
  | c :: l => match l with [] => line | _ => if Ascii.eqb c SP then trim_back l else line end
  end.

(** Returns the line or [NULL], the input left and the line counter. *)
Definition getNextLineD_ (confFormat : bool) (fp : cstr) (lc : Z) : option cstr * cstr * Z :=
  let '(line, eof, fp', lc') := lineD_loop confFormat false [] fp lc in
  let oneChar := (length line =? 1)%nat in
  let t := trim_back line in
  if negb eof || oneChar || (1 <? length t)%nat then (Some (rev t), fp', lc')
  else (None, fp', lc').

Definition all_blank (s : cstr) : bool := forallb (fun c => Ascii.eqb c SP) s.

(** [getNextLineC_] calls itself until a line holds more than blanks. Each call
    that returns a line has read at least one character, so the length of the
    input bounds the depth ([getNextLineC_fuel_total]). *)
Fixpoint getNextLineC_fuel (fuel : nat) (confFormat : bool) (fp : cstr) (lc : Z)
  : option (option cstr * cstr * Z) :=
  match fuel with
  | O => None
  | S fuel' =>
      match getNextLineD_ confFormat fp lc with
      | (None, fp', lc') => Some (None, fp', lc')
      | (Some l, fp', lc') =>
          if all_blank l then getNextLineC_fuel fuel' confFormat fp' lc'
          else Some (Some l, fp', lc')
      end
  end.

Definition getNextLineC_ (confFormat : bool) (fp : cstr) (lc : Z) : option cstr * cstr * Z :=
  match getNextLineC_fuel (S (length fp)) confFormat fp lc with
  | Some r => r
  | None => (None, fp, lc)
  end.

Definition getNextLine_ (confFormat : bool) (fp : cstr) : option cstr * cstr :=
  let '(l, fp', _) := getNextLineC_ confFormat fp 0 in (l, fp').

(** [subNewLine_]: from the last character to the first, a newline is deleted
    by moving the rest of the string one place to the left. *)
Definition delete_at (i : nat) (s : cstr) : cstr := firstn i s ++ skipn (S i) s.

Fixpoint subNewLine_loop (i : nat) (instr : cstr) : cstr :=
  match i with
  | O => instr
  | S k =>
      subNewLine_loop k
        (match nth_error instr k with
         | Some c => if Ascii.eqb c NL then delete_at k instr else instr
         | None => instr
         end)
  end.

Definition subNewLine_ (instr : cstr) : cstr := subNewLine_loop (length instr) instr.

(** ** Words *)

(** The static buffer [word[4*MAXLINELEN]]. *)
Definition WORDBUF : nat := 4 * MAXLINELEN.
Arguments WORDBUF : simpl never.

Inductive word :=
| Word (w : cstr)
| NoWord
| WordOverflow.

Fixpoint span (p : ascii -> bool) (s : cstr) : cstr * cstr :=
  match s with
  | [] => ([], [])
  | c :: s' => if p c then let '(a, b) := span p s' in (c :: a, b) else ([], s)
  end.

Definition take_word (skip stop : ascii -> bool) (line : cstr) : word * cstr :=
  let '(_, l1) := span skip line in
  let '(w, l2) := span (fun c => negb (stop c)) l1 in
  match w with
  | [] => (NoWord, l2)
  | _ => (if (length w <? WORDBUF)%nat then Word w else WordOverflow, l2)
  end.

(** The word found, and [*line] after the call. *)
Definition getNextWord_ (line : cstr) : word * cstr := take_word isspace isspace line.

Definition getNextWord1_ (line : cstr) : word * cstr :=
  take_word isspace
    (fun c => isspace c || Ascii.eqb c "," || Ascii.eqb c "]" || Ascii.eqb c "[") line.

Fixpoint charInSet (c : ascii) (set : cstr) : bool :=
  match set with
  | [] => false
  | x :: set' => if Ascii.eqb c x then true else charInSet c set'
  end.

Definition getNextWordSet (line : cstr) (set : cstr) : word * cstr :=
  take_word (fun c => charInSet c set) (fun c => charInSet c set) line.

(** ** Output streams: lemmas *)

Lemma fputs_app a b f :
  fputs (a ++ b) f = (let '(ok, f') := fputs a f in if ok then fputs b f' else (false, f')).
Proof.
  revert f; induction a as [|c a IH]; intros f; cbn; [reflexivity|].
  destruct (putc c f) as [[] f']; [apply IH|reflexivity].
Qed.

(** A text is written in full when the device has room for it, and is cut at
    the room left otherwise. *)
Lemma fputs_spec s f :
  fputs s f =
  match room f with
  | None => (true, mkFILE (written f ++ s) None)
  | Some k =>
      if (length s <=? k)%nat then (true, mkFILE (written f ++ s) (Some (k - length s)%nat))
      else (false, mkFILE (written f ++ firstn k s) (Some O))
  end.
Proof.
  revert f; induction s as [|c s IH]; intros [w [k|]]; cbn [fputs].
  - cbn [room written length Nat.leb]. now rewrite app_nil_r, Nat.sub_0_r.
  - cbn. now rewrite app_nil_r.
  - unfold putc, full; cbn [room written option_map]. destruct k as [|k].
    + cbn. now rewrite app_nil_r.
    + rewrite IH. cbn [room written length Nat.pred firstn].
      rewrite <- !app_assoc. reflexivity.
  - unfold putc, full; cbn [room written option_map]. rewrite IH. cbn. now rewrite <- app_assoc.
Qed.

(** ** Quoted strings: lemmas *)

(** The text of a quoted string: the quotes inside it are doubled. *)
Fixpoint esc (s : cstr) : cstr :=
  match s with
  | [] => []
  | c :: s' => if Ascii.eqb c QT then QT :: c :: esc s' else c :: esc s'
  end.

Definition quote (s : cstr) : cstr := QT :: esc s ++ [QT].

Lemma addQStr_loop_fputs s f : addQStr_loop s f = fputs (esc s) f.
Proof.
  revert f; induction s as [|c s IH]; intros f; cbn; [reflexivity|].
  destruct (Ascii.eqb c QT); cbn.
  - destruct (putc QT f) as [[] f1]; [|reflexivity].
    destruct (putc c f1) as [[] f2]; auto.
  - destruct (putc c f) as [[] f1]; auto.
Qed.

Lemma addQStr_fputs s f : addQStr f s = fputs (SP :: quote s) f.
Proof.
  unfold addQStr, quote; cbn.
  destruct (putc SP f) as [[] f1]; [|reflexivity].
  destruct (putc QT f1) as [[] f2]; [|reflexivity].
  rewrite addQStr_loop_fputs, fputs_app. destruct (fputs (esc s) f2) as [[] f3]; [|reflexivity].
  cbn. destruct (putc QT f3) as [[] f4]; reflexivity.
Qed.

Definition noquote (s : cstr) : bool := forallb (fun c => negb (Ascii.eqb c QT)) s.

Definition not_quote_start (r : cstr) : Prop :=
  match r with c :: _ => Ascii.eqb c QT = false | [] => True end.

Lemma sep_not_quote r : sep r -> not_quote_start r.
Proof. destruct r; cbn; auto. now intros ->. Qed.

Lemma strip_body_esc s r n : not_quote_start r ->
  strip_body (esc s ++ QT :: r) n = SOk s (n + length (esc s) + 1).
Proof.
  intros Hr. revert n; induction s as [|c s IH]; intros n; cbn [esc app].
  - cbn. rewrite Nat.add_0_r. destruct r as [|c r]; [reflexivity|]. cbn in Hr. now rewrite Hr.
  - destruct (Ascii.eqb c QT) eqn:E; cbn [app strip_body length].
    + rewrite E. change (Ascii.eqb QT QT) with true. cbv iota. rewrite IH. f_equal. lia.
    + rewrite E, IH. f_equal. lia.
Qed.

Lemma strip_from_skip p q n : noquote p = true ->
  strip_from (p ++ q) n = strip_from q (n + length p).
Proof.
  revert n; induction p as [|c p IH]; intros n H; cbn in *.
  - now rewrite Nat.add_0_r.
  - bool_split. apply negb_true_iff in H. rewrite H, IH by auto. f_equal. lia.
Qed.

Lemma length_quote s : length (quote s) = (length (esc s) + 2)%nat.
Proof. unfold quote. cbn. rewrite length_app. cbn. lia. Qed.

(** [stripQStr] gives back the string that was quoted, whatever unquoted text
    comes before it, and returns the distance to the end of its text. *)
Lemma stripQStr_quote p s r : noquote p = true -> not_quote_start r ->
  stripQStr (p ++ quote s ++ r) = SOk s (length p + length (quote s)).
Proof.
  intros Hp Hr. unfold stripQStr. rewrite strip_from_skip by auto.
  unfold quote. cbn [app strip_from]. change (Ascii.eqb QT QT) with true. cbv iota.
  rewrite <- app_assoc. cbn [app]. rewrite strip_body_esc by auto.
  f_equal. cbn [length]. rewrite length_app. cbn. lia.
Qed.

(** Whatever it is given, [stripQStr] stores fewer characters (with the
    terminator) than the text it reads, and stays inside that text. *)
Lemma strip_body_bound q n :
  match strip_body q n with
  | SOk s k => (n + length s + 1 <= k <= n + length q)%nat
  | SFail k => (k <= length q)%nat
  end.
Proof.
  revert n. induction q as [q IH] using (induction_ltof1 _ (@length ascii)); unfold ltof in IH.
  intros n. destruct q as [|c q1]; cbn; [lia|].
  destruct (Ascii.eqb c QT); [destruct q1 as [|c2 q2]; cbn; [lia|] |].
  - destruct (Ascii.eqb c2 QT); cbn; [|lia].
    pose proof (IH q2 ltac:(cbn; lia) (n + 2)%nat) as B. destruct (strip_body q2 (n + 2)); cbn in *; lia.
  - pose proof (IH q1 ltac:(cbn; lia) (n + 1)%nat) as B. destruct (strip_body q1 (n + 1)); cbn in *; lia.
Qed.

Lemma strip_from_bound q n :
  match strip_from q n with
  | SOk s k => (n + length s + 2 <= k <= n + length q)%nat
  | SFail k => (k <= length q)%nat
  end.
Proof.
  revert n; induction q as [|c q IH]; intros n; cbn; [lia|].
  destruct (Ascii.eqb c QT).
  - pose proof (strip_body_bound q (n + 1)) as B. destruct (strip_body q (n + 1)); lia.
  - specialize (IH (n + 1)%nat). destruct (strip_from q (n + 1)); lia.
Qed.

(** ** Lines: lemmas *)

(** Characters a record's line may hold: no white space but the blank. *)
Definition plainc (c : ascii) : bool := negb (isspace c) || Ascii.eqb c SP.
Definition plain (s : cstr) : bool := forallb plainc s.

Lemma plainc_blank c : plainc c = true -> blank c = c /\ Ascii.eqb c NL = false.
Proof.
  unfold plainc, blank. destruct (isspace c) eqn:E; cbn.
  - intros H%Ascii.eqb_eq. now subst.
  - intros _. split; [reflexivity|]. destruct (Ascii.eqb_spec c NL); [now subst|reflexivity].
Qed.

Lemma lineD_plain q s line fp lc : plain s = true ->
  exists q', lineD_loop false q line (s ++ fp) lc = lineD_loop false q' (rev s ++ line) fp lc.
Proof.
  revert q line; induction s as [|c s IH]; intros q line H; cbn [app rev].
  - now exists q.
  - cbn in H. bool_split. destruct (plainc_blank c) as [B N]; [auto|]. cbn [lineD_loop].
    rewrite N, B. cbn [andb]. destruct (IH (if Ascii.eqb c QT then negb q else q) (c :: line)) as [q' E]; [auto|].
    exists q'. rewrite E. now rewrite <- app_assoc.
Qed.

Lemma trim_back_spaces k l : (1 <= length l)%nat -> trim_back (repeat SP k ++ l) = trim_back l.
Proof.
  intros Hl. induction k as [|k IH]; cbn [repeat app]; [reflexivity|]. cbn [trim_back].
  destruct (repeat SP k ++ l) eqn:E.
  - apply app_eq_nil in E as [_ ->]. cbn in Hl. lia.
  - rewrite <- E in *. exact IH.
Qed.

Lemma trim_back_stay c l : Ascii.eqb c SP = false -> trim_back (c :: l) = c :: l.
Proof. intros H. cbn. rewrite H. now destruct l. Qed.

Lemma repeat_rev (k : nat) (c : ascii) : rev (repeat c k) = repeat c k.
Proof.
  induction k as [|k IH]; [reflexivity|]. cbn. rewrite IH.
  clear. induction k; cbn; congruence.
Qed.

(** A plain line that ends in a visible character [c] is read back without the
    blanks that follow it, up to the newline or to the end of the input. *)
Lemma getNextLineD_plain s c k fp lc :
  plain (s ++ [c]) = true -> Ascii.eqb c SP = false ->
  getNextLineD_ false (s ++ [c] ++ repeat SP k ++ NL :: fp) lc = (Some (s ++ [c]), fp, lc + 1)
  /\ (1 <= length s -> getNextLineD_ false (s ++ [c] ++ repeat SP k) lc = (Some (s ++ [c]), [], lc))%nat.
Proof.
  intros H Hc. unfold getNextLineD_.
  assert (P : plain ((s ++ [c]) ++ repeat SP k) = true).
  { unfold plain in *. rewrite forallb_app, H. clear. induction k; auto. }
  assert (T : trim_back (rev ((s ++ [c]) ++ repeat SP k)) = c :: rev s).
  { rewrite rev_app_distr, repeat_rev, trim_back_spaces; rewrite rev_app_distr; cbn [rev app].
    - now apply trim_back_stay.
    - cbn. lia. }
  assert (R : rev (c :: rev s) = s ++ [c]) by (cbn; now rewrite rev_involutive).
  split; [|intros Hl].
  - rewrite !app_assoc.
    destruct (lineD_plain false ((s ++ [c]) ++ repeat SP k) [] (NL :: fp) lc P) as [q ->].
    cbn [lineD_loop]. change (Ascii.eqb NL NL) with true. cbv iota. rewrite app_nil_r, T, R. reflexivity.
  - rewrite !app_assoc, <- (app_nil_r ((s ++ [c]) ++ _)).
    destruct (lineD_plain false ((s ++ [c]) ++ repeat SP k) [] [] lc P) as [q ->].
    cbn [lineD_loop]. rewrite app_nil_r, T, R. cbn [negb orb length]. rewrite !length_rev.
    destruct (_ =? 1)%nat; [reflexivity|]. cbn [orb].
    destruct (Nat.ltb_spec 1 (S (length s))); [reflexivity|lia].
Qed.

Lemma skip_comment_shorter fp : forall eof fp' n, skip_comment fp = (eof, fp', n) -> (length fp' <= length fp)%nat.
Proof.
  induction fp as [|c fp IH]; cbn; intros eof fp' n E.
  - injection E as _ <- _. cbn. lia.
  - destruct (Ascii.eqb c NL); [injection E as _ <- _; lia|]. apply IH in E. lia.
Qed.

Lemma lineD_loop_shorter conf fp : forall q line lc l eof fp' lc',
  lineD_loop conf q line fp lc = (l, eof, fp', lc') ->
  (length fp' <= length fp)%nat /\ (fp <> [] -> length fp' < length fp)%nat
  /\ (fp = [] -> l = line /\ eof = true).
Proof.
  induction fp as [fp IH] using (induction_ltof1 _ (@length ascii)); unfold ltof in IH.
  intros q line lc l eof fp' lc' E. destruct fp as [|c fp1]; cbn in E.
  - injection E as <- <- <- <-. cbn. repeat split; auto. congruence.
  - enough (length fp' <= length fp1)%nat as L by (cbn; repeat split; intros; try lia; discriminate).
    destruct (Ascii.eqb c NL); [injection E as _ _ <- _; lia|].
    destruct (conf && Ascii.eqb c HASH && _).
    + destruct (skip_comment fp1) as [[e f] n] eqn:S. injection E as _ _ <- _.
      now apply skip_comment_shorter in S.
    + destruct (conf && Ascii.eqb c BSLASH).
      * destruct fp1 as [|c2 fp2]; [injection E as _ _ <- _; auto|].
        apply IH in E; cbn in *; [lia|lia].
      * apply IH in E; cbn in *; lia.
Qed.

(** Every line returned has consumed input. *)
Lemma getNextLineD_shorter conf fp lc l fp' lc' :
  getNextLineD_ conf fp lc = (Some l, fp', lc') -> (length fp' < length fp)%nat.
Proof.
  unfold getNextLineD_. destruct (lineD_loop conf false [] fp lc) as [[[line eof] f] c] eqn:E.
  apply lineD_loop_shorter in E as (_ & A & B).
  intros H. destruct fp as [|x fp].
  - destruct (B eq_refl) as [-> ->]. discriminate.
  - assert (length f < length (x :: fp))%nat by (apply A; discriminate).
    destruct (_ || _); congruence.
Qed.

Lemma getNextLineC_fuel_total fuel conf fp lc : (length fp < fuel)%nat ->
  exists r, getNextLineC_fuel fuel conf fp lc = Some r.
Proof.
  revert fp lc; induction fuel as [|fuel IH]; intros fp lc H; [lia|]. cbn.
  destruct (getNextLineD_ conf fp lc) as [[[l|] fp'] lc'] eqn:E; [|eauto].
  destruct (all_blank l); [|eauto]. apply IH. apply getNextLineD_shorter in E. lia.
Qed.

(** A visible line is returned by the first call. *)
Lemma getNextLineC_visible conf fp lc l fp' lc' :
  getNextLineD_ conf fp lc = (Some l, fp', lc') -> all_blank l = false ->
  getNextLineC_ conf fp lc = (Some l, fp', lc').
Proof. intros E B. unfold getNextLineC_. cbn [getNextLineC_fuel]. now rewrite E, B. Qed.

(** ** [subNewLine_]: lemmas *)

Lemma delete_at_app a c b : delete_at (length a) (a ++ c :: b) = a ++ b.
Proof.
  unfold delete_at. rewrite firstn_app, firstn_all, Nat.sub_diag, app_nil_r. f_equal.
  rewrite skipn_app, skipn_all2 by lia.
  replace (S (length a) - length a)%nat with 1%nat by lia. reflexivity.
Qed.

Lemma subNewLine_loop_filter a b :
  subNewLine_loop (length a) (a ++ b) = filter (fun c => negb (Ascii.eqb c NL)) a ++ b.
Proof.
  revert b; induction a as [|c a IH] using rev_ind; intros b; [reflexivity|].
  rewrite length_app, Nat.add_1_r, <- app_assoc. cbn [subNewLine_loop app].
  rewrite nth_error_app2, Nat.sub_diag by lia. cbn [nth_error].
  rewrite filter_app. cbn [filter]. destruct (Ascii.eqb c NL); cbn [negb].
  - now rewrite delete_at_app, IH, app_nil_r.
  - rewrite IH, <- app_assoc. reflexivity.
Qed.
