(* ===== verification/LogStream.v ===== *)
(** * Reading and writing the fields of an event record (lsbatch/lib/lsb.log.c)

    The writers are sequences of [fprintf] and [addQStr] calls, each followed by
    [return LSBE_SYS_CALL] on failure: the type [W].  The readers move the
    pointer [line] along a NUL-terminated line with [sscanf], [stripQStr] and
    the macros [copyQStr] and [saveQStr], and return an error code at the first
    failure: the type [R].  [line += ccount + 1] steps over the blank after a
    field and so leaves the line when the field was the last one; a pointer past
    the terminator is [None], and reading through it is the fault [PastEnd]. *)
From Stdlib Require Import ZArith Ascii String List Bool Lia.
From Corelib Require Import SpecFloat.
From S2P Require Import Prelude CNum Words.
Import ListNotations.
Local Open Scope Z_scope.

(** ** Constants: lsf/lsf.h, lsbatch/lsbatch.h, lsbatch/daemons/daemonout.h *)

Definition MAX_VERSION_LEN : nat := 12.
Definition MAX_LSB_NAME_LEN : nat := 60.
Definition MAX_CMD_DESC_LEN : nat := 256.
Definition MAXLSFNAMELEN : nat := 40.
Definition MAXFILENAMELEN : nat := 256.
(** From the system headers of the supported platform (Linux x86_64). *)
Definition MAXHOSTNAMELEN : nat := 64.
Definition MAXPATHLEN : nat := 8 * MAXLINELEN.
Definition LSF_RLIM_NLIMITS : nat := 11.

Arguments MAX_LSB_NAME_LEN : simpl never.
Arguments MAX_CMD_DESC_LEN : simpl never.
Arguments MAXFILENAMELEN : simpl never.
Arguments MAXHOSTNAMELEN : simpl never.
Arguments MAXPATHLEN : simpl never.
Arguments MAXLINELEN : simpl never.

(** Error codes of the library, [LSBE_NO_ERROR] left out. *)
Inductive lsbe :=
| LSBE_UNKNOWN_EVENT
| LSBE_EVENT_FORMAT
| LSBE_EOF
| LSBE_SYS_CALL
| LSBE_NO_MEM.

(** ** Writers *)

(** [WNull]: a NULL pointer, or an array element that does not exist, is
    passed to [addQStr]. *)
Inductive wres :=
| WOk (f : FILE)
| WFail (f : FILE)
| WNull.

Definition W := FILE -> wres.

Definition wdone (r : bool * FILE) : wres :=
  let '(ok, f) := r in if ok then WOk f else WFail f.

Definition fprintf (s : cstr) : W := fun f => wdone (fputs s f).
Definition addQ (s : cstr) : W := fun f => wdone (addQStr f s).
Definition addQP (s : option cstr) : W :=
  match s with Some s => addQ s | None => fun _ => WNull end.

Definition wret : W := WOk.
Definition wseq (a b : W) : W :=
  fun f => match a f with WOk f' => b f' | r => r end.

(** The [i]-th to last of [n] elements of an array. *)
Fixpoint warray_from {A} (w : A -> W) (l : list A) (i n : nat) : W :=
  match n with
  | O => wret
  | S n' =>
      match nth_error l i with
      | Some a => wseq (w a) (warray_from w l (S i) n')
      | None => fun _ => WNull
      end
  end.

(** [for (i = 0; i < n; i++) w(l[i]);] *)
Definition warray {A} (w : A -> W) (l : list A) (n : Z) : W := warray_from w l 0 (Z.to_nat n).

Definition wif (b : bool) (w : W) : W := if b then w else wret.

Declare Scope log_scope.
Delimit Scope log_scope with log.
Infix ";;" := wseq (at level 61, right associativity) : log_scope.

(** ** Readers *)

Inductive fault :=
| PastEnd
| BufferOverflow
| UnmodelledFloat.

Definition cursor := option cstr.

Inductive rres (A : Type) :=
| ROk (a : A) (line : cursor)
| RErr (e : lsbe)
| RFault (x : fault).
Arguments ROk {A}.
Arguments RErr {A}.
Arguments RFault {A}.

Definition R (A : Type) := cursor -> rres A.

Definition ret {A} (a : A) : R A := ROk a.
Definition fail {A} (e : lsbe) : R A := fun _ => RErr e.
Definition bind {A B} (m : R A) (k : A -> R B) : R B :=
  fun c => match m c with ROk a c' => k a c' | RErr e => RErr e | RFault x => RFault x end.

Notation "x <- m ; k" := (bind m (fun x => k))
  (at level 60, m at next level, right associativity, format "x  <-  m ; '//' k") : log_scope.
Notation "m ;> k" := (bind m (fun _ => k))
  (at level 60, right associativity, format "m ;> '//' k") : log_scope.

Definition adv (n : nat) (c : cursor) : cursor :=
  match c with
  | Some s => if (n <=? length s)%nat then Some (skipn n s) else None
  | None => None
  end.

(** One [%d] of an [sscanf]: moves to the input after the number. *)
Definition scan_d : R Z := fun c =>
  match c with
  | None => RFault PastEnd
  | Some s =>
      match scan_int s with
      | Some (z, r) => ROk z (Some r)
      | None => RErr LSBE_EVENT_FORMAT
      end
  end.

(** One [%f] or [%lf]. *)
Definition scan_fp (prec emax : Z) : R spec_float := fun c =>
  match c with
  | None => RFault PastEnd
  | Some s =>
      match scan_float s with
      | FNum neg n p r => ROk (dec_to_float prec emax neg n p) (Some r)
      | FNone => RErr LSBE_EVENT_FORMAT
      | FSpecial => RFault UnmodelledFloat
      end
  end.
Definition scan_f : R spec_float := scan_fp 24 128.
Definition scan_lf : R spec_float := scan_fp 53 1024.

(** A blank in the format. *)
Definition scan_ws : R unit := fun c =>
  match c with None => RFault PastEnd | Some s => ROk tt (Some (skip_space s)) end.

(** The [+ 1] of [line += ccount + 1]. *)
Definition adv1 : R unit := fun c => ROk tt (adv 1 c).

(** An [sscanf] after which [line] is not moved. *)
Definition peek {A} (m : R A) : R A := fun c =>
  match m c with ROk a _ => ROk a c | r => r end.

(** [stripQStr] into an array of [size] characters, then [line += ccount + 1]. *)
Definition strip_buf (size : nat) : R cstr := fun c =>
  match c with
  | None => RFault PastEnd
  | Some s =>
      match stripQStr s with
      | SOk str k =>
          if (length str <? size)%nat then ROk str (adv (k + 1) c) else RFault BufferOverflow
      | SFail n => if (n <=? size)%nat then RErr LSBE_EVENT_FORMAT else RFault BufferOverflow
      end
  end.

(** The macro [copyQStr(line, maxLen, nonNil, destStr)].  Its temporary has
    [strlen(line)] characters, which [strip_from_bound] shows to be enough. *)
Definition copyQStr (maxLen : nat) (nonNil : bool) : R cstr := fun c =>
  match c with
  | None => RFault PastEnd
  | Some s =>
      match stripQStr s with
      | SOk str k =>
          if (maxLen <=? length str)%nat || (nonNil && (length str =? 0)%nat)
          then RErr LSBE_EVENT_FORMAT else ROk str (adv (k + 1) c)
      | SFail _ => RErr LSBE_EVENT_FORMAT
      end
  end.

(** The macro [saveQStr(line, destStr)]. *)
Definition saveQStr : R (option cstr) := fun c =>
  match c with
  | None => RFault PastEnd
  | Some s =>
      match stripQStr s with
      | SOk str k => ROk (Some str) (adv (k + 1) c)
      | SFail _ => RErr LSBE_EVENT_FORMAT
      end
  end.

(** [for (i = 0; i < n; i++) ...] *)
Fixpoint rtimes {A} (n : nat) (m : R A) : R (list A) :=
  match n with
  | O => ret []
  | S n' => bind m (fun a => bind (rtimes n' m) (fun l => ret (a :: l)))
  end.

Definition rif {A} (b : bool) (m : R A) (d : A) : R A := if b then m else ret d.

(** [*line != '\0'] *)
Definition at_end : R bool := fun c =>
  match c with
  | None => RFault PastEnd
  | Some s => ROk match s with [] => true | _ => false end c
  end.

(** ** The text of the fields *)

Definition fld_d (z : Z) : cstr := SP :: dec z.
Definition fld_q (s : cstr) : cstr := SP :: quote s.
Definition fld_f (w p : nat) (x : spec_float) : cstr := SP :: fmt_f w p x.
Definition fld_if (b : bool) (t : cstr) : cstr := if b then t else [].
Definition flds {A} (t : A -> cstr) (l : list A) : cstr := concat (map t l).

(** The pointer after the blank that starts the text [r]. *)
Definition C (r : cstr) : cursor := adv 1 (Some r).

Arguments fld_d : simpl never.
Arguments fld_q : simpl never.
Arguments fld_f : simpl never.
Arguments C : simpl never.

(** ** Writers: lemmas *)

(** [w] behaves as one [fprintf] of the text [s]. *)
Definition writes (w : W) (s : cstr) : Prop := forall f, w f = fprintf s f.

Lemma writes_seq a b s t : writes a s -> writes b t -> writes (wseq a b) (s ++ t).
Proof.
  intros A B f. unfold wseq. rewrite A. unfold fprintf. rewrite fputs_app.
  destruct (fputs s f) as [[] f']; cbn; [apply B|reflexivity].
Qed.

Lemma writes_ret : writes wret [].
Proof. intros f. reflexivity. Qed.

Lemma writes_fprintf s : writes (fprintf s) s.
Proof. intros f. reflexivity. Qed.

Lemma writes_q s : writes (addQ s) (fld_q s).
Proof. intros f. unfold addQ. now rewrite addQStr_fputs. Qed.

Lemma writes_qp s : writes (addQP (Some s)) (fld_q s).
Proof. apply writes_q. Qed.

Lemma writes_if b w t : (b = true -> writes w t) -> writes (wif b w) (fld_if b t).
Proof. destruct b; cbn; [auto|intros _; apply writes_ret]. Qed.

Lemma writes_eq w s t : writes w s -> s = t -> writes w t.
Proof. now intros ? <-. Qed.

Lemma warray_from_writes {A} (w : A -> W) (t : A -> cstr) (pre l : list A) :
  Forall (fun a => writes (w a) (t a)) l ->
  writes (warray_from w (pre ++ l) (length pre) (length l)) (flds t l).
Proof.
  intros H. revert pre; induction H as [|a l Ha Hl IH]; intros pre; cbn.
  - apply writes_ret.
  - rewrite nth_error_app2, Nat.sub_diag by lia. cbn.
    apply writes_seq; [exact Ha|]. specialize (IH (pre ++ [a])).
    rewrite <- app_assoc, length_app, Nat.add_1_r in IH. exact IH.
Qed.

Lemma writes_array {A} (w : A -> W) (t : A -> cstr) (l : list A) n :
  n = Z.of_nat (length l) -> Forall (fun a => writes (w a) (t a)) l ->
  writes (warray w l n) (flds t l).
Proof.
  intros -> H. unfold warray. rewrite Nat2Z.id. now apply (warray_from_writes w t [] l).
Qed.

Lemma writes_qs l n : n = Z.of_nat (length l) -> writes (warray addQ l n) (flds fld_q l).
Proof. intros. apply writes_array; [auto|]. apply Forall_forall. intros. apply writes_q. Qed.

Lemma writes_ds l n : n = Z.of_nat (length l) ->
  writes (warray (fun z => fprintf (fld_d z)) l n) (flds fld_d l).
Proof. intros. apply writes_array; [auto|]. apply Forall_forall. intros. apply writes_fprintf. Qed.

(** ** Separators: lemmas *)

Lemma sep_nil : sep [].
Proof. exact I. Qed.
Lemma sep_d z r : sep (fld_d z ++ r).
Proof. reflexivity. Qed.
Lemma sep_q s r : sep (fld_q s ++ r).
Proof. reflexivity. Qed.
Lemma sep_f w p x r : sep (fld_f w p x ++ r).
Proof. reflexivity. Qed.
Lemma sep_if b t r : sep (t ++ r) -> sep r -> sep (fld_if b t ++ r).
Proof. destruct b; auto. Qed.
Lemma sep_flds {A} (t : A -> cstr) l r : (forall a r', sep (t a ++ r')) -> sep r -> sep (flds t l ++ r).
Proof. intros H Hr. destruct l; cbn; [auto|]. unfold flds. cbn. rewrite <- app_assoc. apply H. Qed.
Lemma sep_flds_d l r : sep r -> sep (flds fld_d l ++ r).
Proof. apply sep_flds, sep_d. Qed.
Lemma sep_flds_q l r : sep r -> sep (flds fld_q l ++ r).
Proof. apply sep_flds, sep_q. Qed.

#[export] Hint Resolve sep_nil sep_d sep_q sep_f sep_flds_d sep_flds_q : elog.

(** ** Readers: lemmas *)

Lemma bind_ok {A B} (m : R A) (k : A -> R B) c a c' :
  m c = ROk a c' -> bind m k c = k a c'.
Proof. unfold bind. now intros ->. Qed.

Lemma C_d z r : C (fld_d z ++ r) = Some (dec z ++ r).
Proof. reflexivity. Qed.
Lemma C_q s r : C (fld_q s ++ r) = Some (quote s ++ r).
Proof. reflexivity. Qed.

Lemma scan_d_S z r : int32b z = true -> sep r -> scan_d (Some (fld_d z ++ r)) = ROk z (Some r).
Proof.
  intros Hz Hr. cbn. unfold fld_d. cbn [app]. rewrite scan_int_space, scan_int_dec; auto.
  now apply int32b_spec.
Qed.

Lemma scan_d_C z r : int32b z = true -> sep r -> scan_d (C (fld_d z ++ r)) = ROk z (Some r).
Proof. intros. rewrite C_d. now rewrite <- (scan_d_S z r). Qed.

Lemma scan_fp_S prec emax w p x r : stable prec emax p x = true -> sep r ->
  scan_fp prec emax (Some (fld_f w p x ++ r)) = ROk x (Some r).
Proof.
  intros Hx Hr. cbn. unfold fld_f. cbn [app]. rewrite scan_float_space.
  destruct (scan_float_stable prec emax w p x r Hx Hr) as (neg & n & -> & ->). reflexivity.
Qed.

Lemma scan_fp_C prec emax w p x r : stable prec emax p x = true -> sep r ->
  scan_fp prec emax (C (fld_f w p x ++ r)) = ROk x (Some r).
Proof.
  intros Hx Hr. rewrite <- (scan_fp_S prec emax w p x r Hx Hr). unfold C, fld_f. cbn.
  now rewrite scan_float_space.
Qed.

Lemma adv1_S r : adv1 (Some r) = ROk tt (C r).
Proof. reflexivity. Qed.

Lemma adv_app a n r : n = length a -> adv (n + 1) (Some (a ++ r)) = C r.
Proof.
  intros ->. unfold C, adv. rewrite length_app.
  destruct (Nat.leb_spec (length a + 1) (length a + length r)),
    (Nat.leb_spec 1 (length r)); try lia; [|reflexivity].
  f_equal. rewrite skipn_app, skipn_all2 by lia. cbn [app]. f_equal. lia.
Qed.

(** [stripQStr] at a quoted field, after any text [p] without quotes. *)
Lemma strip_at p s r : noquote p = true -> sep r ->
  stripQStr (p ++ quote s ++ r) = SOk s (length p + length (quote s))
  /\ adv (length p + length (quote s) + 1) (Some (p ++ quote s ++ r)) = C r.
Proof.
  intros Hp Hr. split; [apply stripQStr_quote; auto using sep_not_quote|].
  rewrite app_assoc. apply adv_app. now rewrite length_app.
Qed.

(** What the macros accept: a string shorter than the array, not empty when it
    must not be, on one line. *)
Definition strok (maxLen : nat) (nonNil : bool) (s : cstr) : bool :=
  (length s <? maxLen)%nat && (negb nonNil || negb (length s =? 0)%nat) && plain s.

Lemma copyQStr_at maxLen nonNil p s r :
  strok maxLen nonNil s = true -> noquote p = true -> sep r ->
  copyQStr maxLen nonNil (Some (p ++ quote s ++ r)) = ROk s (C r).
Proof.
  intros Hs Hp Hr. unfold copyQStr. destruct (strip_at p s r Hp Hr) as [-> ->].
  unfold strok in Hs. bool_split. apply Nat.ltb_lt in H.
  destruct (Nat.leb_spec maxLen (length s)); [lia|]. cbn.
  destruct nonNil, (length s =? 0)%nat; cbn in *; congruence.
Qed.

Lemma copyQStr_C maxLen nonNil s r : strok maxLen nonNil s = true -> sep r ->
  copyQStr maxLen nonNil (C (fld_q s ++ r)) = ROk s (C r).
Proof. intros. rewrite C_q. now apply (copyQStr_at maxLen nonNil []). Qed.

Lemma saveQStr_at p s r : noquote p = true -> sep r ->
  saveQStr (Some (p ++ quote s ++ r)) = ROk (Some s) (C r).
Proof. intros Hp Hr. unfold saveQStr. now destruct (strip_at p s r Hp Hr) as [-> ->]. Qed.

Lemma saveQStr_C s r : sep r -> saveQStr (C (fld_q s ++ r)) = ROk (Some s) (C r).
Proof. intros. rewrite C_q. now apply (saveQStr_at []). Qed.

Lemma strip_buf_at size p s r : (length s <? size)%nat = true -> noquote p = true -> sep r ->
  strip_buf size (Some (p ++ quote s ++ r)) = ROk s (C r).
Proof.
  intros Hs Hp Hr. unfold strip_buf. destruct (strip_at p s r Hp Hr) as [-> ->]. now rewrite Hs.
Qed.

Lemma strip_buf_C size s r : (length s <? size)%nat = true -> sep r ->
  strip_buf size (C (fld_q s ++ r)) = ROk s (C r).
Proof. intros. rewrite C_q. now apply (strip_buf_at size []). Qed.

Lemma rtimes_C {A} (m : R A) (t : A -> cstr) l r n :
  n = length l -> (forall a r', sep (t a ++ r')) -> sep r ->
  Forall (fun a => forall r', sep r' -> m (C (t a ++ r')) = ROk a (C r')) l ->
  rtimes n m (C (flds t l ++ r)) = ROk l (C r).
Proof.
  intros -> St Hr H. induction H as [|a l Ha Hl IH]; cbn; [reflexivity|].
  unfold flds in *. cbn. rewrite <- app_assoc.
  rewrite (bind_ok _ _ _ a (C (concat (map t l) ++ r))).
  - now rewrite (bind_ok _ _ _ _ _ IH).
  - apply Ha. now apply (sep_flds t l r).
Qed.

Lemma rif_C {A} b (m : R A) d a t r :
  (b = true -> m (C (t ++ r)) = ROk a (C r)) ->
  rif b m d (C (fld_if b t ++ r)) = ROk (if b then a else d) (C r).
Proof. destruct b; cbn; auto. Qed.

(** An [int] read with [%d%n], after which [line] moves to the next field. *)
Definition scan_d1 : R Z := bind scan_d (fun z => bind adv1 (fun _ => ret z)).

Lemma scan_d1_C z r : int32b z = true -> sep r -> scan_d1 (C (fld_d z ++ r)) = ROk z (C r).
Proof. intros. unfold scan_d1. erewrite bind_ok by now apply scan_d_C. reflexivity. Qed.

Lemma rtimes_d_C l r n : n = length l -> forallb int32b l = true -> sep r ->
  rtimes n scan_d1 (C (flds fld_d l ++ r)) = ROk l (C r).
Proof.
  intros Hn Hl Hr. apply rtimes_C; auto using sep_d.
  rewrite forallb_forall in Hl. apply Forall_forall. intros. now apply scan_d1_C; auto.
Qed.

Lemma rtimes_buf_C size l r n : n = length l ->
  forallb (fun s => (length s <? size)%nat) l = true -> sep r ->
  rtimes n (strip_buf size) (C (flds fld_q l ++ r)) = ROk l (C r).
Proof.
  intros Hn Hl Hr. apply rtimes_C; auto using sep_q.
  rewrite forallb_forall in Hl. apply Forall_forall. intros. now apply strip_buf_C; auto.
Qed.
