(* ===== verification/EventCodec.v ===== *)
(** * The interface between event codecs and the event log (lsbatch/lib/lsb.log.c)

    Each kind of event has a writer, a reader and a layout of its own in
    [lsb.log.c]; [lsb_puteventrec] and [lsb_geteventrec_ex] rely only on what
    the class [EventCodec] states of them: the writer emits one line, the reader
    run on that line gives the record back, and writing what was read gives the
    same line. *)
From Stdlib Require Import ZArith Ascii String List Bool Lia.
From Corelib Require Import SpecFloat.
From S2P Require Import Prelude CNum Words LogStream.
Import ListNotations.
Local Open Scope Z_scope.

(** ** Fields that may be NULL, times, counted arrays *)

Definition some {A} (o : option A) : bool := match o with Some _ => true | None => false end.

(** A [char *] field that is set, and whose text stays on one line. *)
Definition ostr (o : option cstr) : bool := match o with Some s => plain s | None => false end.
Definition fld_o (o : option cstr) : cstr := match o with Some s => fld_q s | None => [] end.

(** [(int) t] for a [time_t]. *)
Definition fld_t (t : Z) : cstr := fld_d (wrap32 t).
Arguments fld_t : simpl never.

Definition ints (l : list Z) : bool := forallb int32b l.

Definition counted {A} (n : Z) (l : list A) : bool := (n =? Z.of_nat (length l)) && int32b n.

(** [calloc] of [n] pointers: a negative count becomes a huge [size_t]. *)
Definition calloc (n : Z) : R unit := if n <? 0 then fail LSBE_NO_MEM else ret tt.

(** [stripQStr] into a local array of [size] characters, then [putstr_]. *)
Definition save_buf (size : nat) : R (option cstr) :=
  bind (strip_buf size) (fun s => ret (Some s)).

Definition obuf (size : nat) (o : option cstr) : bool :=
  match o with Some s => (length s <? size)%nat && plain s | None => false end.

(** Host names that fit the array they are read into. *)
Definition hosts (size : nat) (l : list cstr) : bool :=
  forallb (fun s => (length s <? size)%nat && plain s) l.

Definition newline : cstr := [NL].

Lemma writes_o o : ostr o = true -> writes (addQP o) (fld_o o).
Proof. destruct o; [intros _; apply writes_qp|discriminate]. Qed.

Lemma counted_len {A} n (l : list A) : counted n l = true -> n = Z.of_nat (length l).
Proof. unfold counted. intros. bool_split. now apply Z.eqb_eq. Qed.

Lemma counted_int {A} n (l : list A) : counted n l = true -> int32b n = true.
Proof. unfold counted. intros. now bool_split. Qed.

Lemma counted_nat {A} n (l : list A) : counted n l = true -> Z.to_nat n = length l.
Proof. intros H%counted_len. lia. Qed.

Lemma writes_cqs l n : counted n l = true -> writes (warray addQ l n) (flds fld_q l).
Proof. eauto using writes_qs, counted_len. Qed.

Lemma writes_cops l n : counted n l = true -> forallb ostr l = true ->
  writes (warray addQP l n) (flds fld_o l).
Proof.
  intros Hn Hl. apply writes_array; [now apply counted_len|].
  rewrite forallb_forall in Hl. apply Forall_forall. auto using writes_o.
Qed.

Lemma sep_o o r : sep r -> sep (fld_o o ++ r).
Proof. intros. destruct o; [apply sep_q|assumption]. Qed.
Lemma sep_t t r : sep (fld_t t ++ r).
Proof. reflexivity. Qed.
Lemma sep_flds_o l r : sep r -> sep (flds fld_o l ++ r).
Proof.
  intros Hr. induction l as [|o l IH]; [exact Hr|]. unfold flds in *. cbn. rewrite <- app_assoc.
  now apply sep_o.
Qed.

(** Optional text, [sep_if] with one premise. *)
Lemma sep_if_o b o r : sep r -> sep (fld_if b (fld_o o) ++ r).
Proof. intros. apply sep_if; auto using sep_o. Qed.
Lemma sep_if_d b z r : sep r -> sep (fld_if b (fld_d z) ++ r).
Proof. intros. apply sep_if; auto using sep_d. Qed.

Lemma wrap32_wrap z : wrap32 (wrap32 z) = wrap32 z.
Proof. apply wrap32_id, wrap32_int32. Qed.

Lemma fld_t_wrap t : fld_t (wrap32 t) = fld_t t.
Proof. unfold fld_t. now rewrite wrap32_wrap. Qed.

Lemma scan_t_C t r : sep r -> scan_d (C (fld_t t ++ r)) = ROk (wrap32 t) (Some r).
Proof. intros. apply scan_d_C; [apply int32b_spec, wrap32_int32|assumption]. Qed.

Lemma scan_t_S t r : sep r -> scan_d (Some (fld_t t ++ r)) = ROk (wrap32 t) (Some r).
Proof. intros. apply scan_d_S; [apply int32b_spec, wrap32_int32|assumption]. Qed.

Lemma saveQStr_o o r : ostr o = true -> sep r -> saveQStr (C (fld_o o ++ r)) = ROk o (C r).
Proof. destruct o; [intros _; apply saveQStr_C|discriminate]. Qed.

Lemma obuf_ostr size o : obuf size o = true -> ostr o = true.
Proof. destruct o; [|discriminate]. cbn. intros. now bool_split. Qed.

Lemma save_buf_o size o r : obuf size o = true -> sep r ->
  save_buf size (C (fld_o o ++ r)) = ROk o (C r).
Proof.
  destruct o; [|discriminate]. cbn [obuf fld_o]. intros. bool_split. unfold save_buf.
  now erewrite bind_ok by now apply strip_buf_C.
Qed.

Lemma calloc_ok {A} n (l : list A) c : counted n l = true -> calloc n c = ROk tt c.
Proof. intros H%counted_len. unfold calloc. now destruct (Z.ltb_spec n 0); [lia|]. Qed.

Lemma noquote_dec z : noquote (dec z ++ [SP]) = true.
Proof.
  unfold noquote. rewrite forallb_app. cbn. rewrite andb_true_r.
  rewrite dec_signed. assert (D := unat_digits (Z.abs z) (Z.abs_nonneg z)).
  assert (N : forallb (fun c => negb (Ascii.eqb c QT)) (unat (Z.abs z)) = true).
  { rewrite forallb_forall in D |- *. intros c Hc. apply D in Hc.
    destruct (Ascii.eqb_spec c QT); [subst; discriminate|reflexivity]. }
  unfold signed. now destruct (z <? 0).
Qed.

(** [copyQStr] after an [sscanf] that left [line] at the number. *)
Lemma copyQStr_over maxLen nonNil z s r : strok maxLen nonNil s = true -> sep r ->
  copyQStr maxLen nonNil (C (fld_d z ++ fld_q s ++ r)) = ROk s (C r).
Proof.
  intros. rewrite C_d. unfold fld_q.
  replace (dec z ++ (SP :: quote s) ++ r) with ((dec z ++ [SP]) ++ quote s ++ r)
    by now rewrite <- app_assoc.
  apply copyQStr_at; auto using noquote_dec.
Qed.

Lemma peek_ok {A} (m : R A) c a c' : m c = ROk a c' -> peek m c = ROk a c.
Proof. unfold peek. now intros ->. Qed.

Lemma rtimes_cbuf size l r n : counted n l = true ->
  hosts size l = true -> sep r ->
  rtimes (Z.to_nat n) (strip_buf size) (C (flds fld_q l ++ r)) = ROk l (C r).
Proof.
  unfold hosts. intros Hn Hl Hr. apply rtimes_buf_C; [now apply counted_nat| |exact Hr].
  rewrite forallb_forall in Hl |- *. intros s Hs. apply Hl in Hs. now bool_split.
Qed.

Lemma rtimes_csave l r n : counted n l = true -> forallb ostr l = true -> sep r ->
  rtimes (Z.to_nat n) saveQStr (C (flds fld_o l ++ r)) = ROk l (C r).
Proof.
  intros Hn Hl Hr. rewrite (counted_nat n l Hn). clear Hn n.
  revert Hl; induction l as [|o l IH]; intros Hl; [reflexivity|].
  cbn in Hl. bool_split. unfold flds in *. cbn [rtimes length map concat]. rewrite <- app_assoc.
  erewrite bind_ok by (apply saveQStr_o; [assumption|now apply (sep_flds_o l r)]).
  now erewrite bind_ok by now apply IH.
Qed.

(** The array of strings that an optional block of the record holds:
    [if (n) { l = calloc(n); for ... }]. *)
Lemma counted_zero {A} n (l : list A) : counted n l = true -> (n =? 0) = true -> l = [].
Proof. intros H%counted_len H0%Z.eqb_eq. destruct l; [reflexivity|cbn in H; lia]. Qed.

Lemma rif_hosts size n l r : counted n l = true -> hosts size l = true -> sep r ->
  rif (negb (n =? 0)) (bind (calloc n) (fun _ => rtimes (Z.to_nat n) (strip_buf size))) []
    (C (flds fld_q l ++ r)) = ROk l (C r).
Proof.
  intros Hn Hl Hr. destruct (n =? 0) eqn:E; cbn [negb rif].
  - now rewrite (counted_zero n l Hn E).
  - erewrite bind_ok by now apply calloc_ok with (l := l). now apply rtimes_cbuf.
Qed.

Lemma rif_hosts_pos size n l r : counted n l = true -> hosts size l = true -> sep r ->
  rif (0 <? n) (bind (calloc n) (fun _ => rtimes (Z.to_nat n) (strip_buf size))) []
    (C (flds fld_q l ++ r)) = ROk l (C r).
Proof.
  intros Hn Hl Hr. rewrite <- (rif_hosts size n l r Hn Hl Hr). f_equal.
  apply counted_len in Hn. destruct (Z.ltb_spec 0 n), (Z.eqb_spec n 0); cbn; auto; lia.
Qed.

Lemma calloc_pos {A} n (l : list A) c : counted n l = true ->
  rif (0 <? n) (calloc n) tt c = ROk tt c.
Proof. intros H. destruct (0 <? n); [now apply (calloc_ok n l)|reflexivity]. Qed.

Lemma writes_nz {A} (w : A -> W) t n (l : list A) : counted n l = true ->
  writes (warray w l n) (flds t l) -> writes (wif (negb (n =? 0)) (warray w l n)) (flds t l).
Proof.
  intros Hn Hw. destruct (n =? 0) eqn:E; cbn [negb wif]; [|exact Hw].
  rewrite (counted_zero n l Hn E). apply writes_ret.
Qed.

Lemma sep_sp r : sep ([SP] ++ r).
Proof. reflexivity. Qed.

(** Host names and a last string, after an additional blank. *)
Lemma hosts_user_sp size maxLen nonNil n l u r :
  counted n l = true -> hosts size l = true -> strok maxLen nonNil u = true -> sep r ->
  exists c, rtimes (Z.to_nat n) (strip_buf size) (C ([SP] ++ flds fld_q l ++ fld_q u ++ r)) = ROk l c
    /\ copyQStr maxLen nonNil c = ROk u (C r).
Proof.
  intros Hn Hl Hu Hr. change (C ([SP] ++ ?x)) with (Some x). rewrite (counted_nat n l Hn).
  destruct l as [|h l]; cbn [length rtimes].
  - eexists. split; [reflexivity|]. now apply (copyQStr_at maxLen nonNil [SP]).
  - cbn in Hl. bool_split. exists (C (fld_q u ++ r)). split; [|now apply copyQStr_C].
    unfold flds. cbn [map concat]. rewrite <- app_assoc.
    erewrite bind_ok
      by (apply (strip_buf_at size [SP] h); auto; now apply (sep_flds fld_q l), sep_q; auto with elog).
    erewrite bind_ok; [reflexivity|]. apply (rtimes_buf_C size l); auto with elog.
    clear - H0. induction l; cbn in *; [reflexivity|]. bool_split. now rewrite H, IHl.
Qed.

(** ** Lines *)

(** One line of text whose last character is visible. *)
Definition lineok (s : cstr) : bool :=
  plain s && match rev s with c :: _ => negb (Ascii.eqb c SP) | [] => false end.

Lemma plain_app a b : plain (a ++ b) = plain a && plain b.
Proof. apply forallb_app. Qed.

Lemma lineok_app a b : plain a = true -> lineok b = true -> lineok (a ++ b) = true.
Proof.
  unfold lineok. rewrite plain_app, rev_app_distr. intros ->. intros. bool_split.
  destruct (rev b); [discriminate|]. cbn [app]. now rewrite H, H0.
Qed.

Lemma lineok_snoc s : lineok s = true ->
  exists t c, s = t ++ [c] /\ plain s = true /\ Ascii.eqb c SP = false.
Proof.
  unfold lineok. intros. bool_split. destruct (rev s) as [|c t] eqn:E; [discriminate|].
  exists (rev t), c. rewrite <- (rev_involutive s), E. cbn. rewrite <- (rev_involutive s), E in H.
  split; [reflexivity|]. split; [exact H|]. now apply negb_true_iff.
Qed.

Lemma plain_digits s : forallb isdigit s = true -> plain s = true.
Proof.
  unfold plain. rewrite !forallb_forall. intros H c Hc. apply H, isdigit_plain in Hc.
  unfold plainc. now destruct Hc as [-> _].
Qed.

Lemma plain_esc s : plain (esc s) = plain s.
Proof.
  induction s as [|c s IH]; [reflexivity|]. cbn [esc].
  unfold plain in *. destruct (Ascii.eqb_spec c QT); [subst|]; cbn; now rewrite IH.
Qed.

Lemma plain_q s : plain s = true -> plain (fld_q s) = true.
Proof.
  intros H. change (fld_q s) with ([SP; QT] ++ esc s ++ [QT]). now rewrite !plain_app, plain_esc, H.
Qed.

Lemma plain_signed neg s : plain s = true -> plain (signed neg s) = true.
Proof. now destruct neg. Qed.

Lemma plain_d z : plain (fld_d z) = true.
Proof.
  change (fld_d z) with ([SP] ++ dec z). rewrite plain_app, dec_signed.
  apply plain_signed, plain_digits, unat_digits. lia.
Qed.

Lemma plain_t t : plain (fld_t t) = true.
Proof. apply plain_d. Qed.

Lemma plain_o o : ostr o = true -> plain (fld_o o) = true.
Proof. destruct o; [apply plain_q|discriminate]. Qed.

Lemma plain_if b t : (b = true -> plain t = true) -> plain (fld_if b t) = true.
Proof. destruct b; auto. Qed.

Lemma plain_flds {A} (t : A -> cstr) l :
  (forall a, In a l -> plain (t a) = true) -> plain (flds t l) = true.
Proof.
  intros H. unfold flds. induction l as [|a l IH]; [reflexivity|]. cbn. rewrite plain_app.
  now rewrite H, IH by (cbn; auto; intros; apply H; cbn; auto).
Qed.

Lemma plain_hosts size l : hosts size l = true -> plain (flds fld_q l) = true.
Proof.
  unfold hosts. rewrite forallb_forall. intros H. apply plain_flds. intros s Hs.
  apply H in Hs. bool_split. now apply plain_q.
Qed.

Lemma plain_ostrs l : forallb ostr l = true -> plain (flds fld_o l) = true.
Proof. rewrite forallb_forall. intros H. apply plain_flds. auto using plain_o. Qed.

Lemma plain_strok m b s : strok m b s = true -> plain s = true.
Proof. unfold strok. intros. now bool_split. Qed.

Lemma lineok_d z : lineok (fld_d z) = true.
Proof.
  unfold lineok. rewrite plain_d. unfold fld_d. cbn. rewrite dec_signed.
  destruct (unat_cons (Z.abs z)) as (c & t & E & Hc); [lia|].
  assert (D : forallb isdigit (rev (unat (Z.abs z))) = true).
  { pose proof (unat_digits (Z.abs z) (Z.abs_nonneg z)) as D. rewrite forallb_forall in *.
    intros x Hx. apply D. now apply in_rev. }
  assert (S : rev (signed (z <? 0) (unat (Z.abs z)))
              = rev (unat (Z.abs z)) ++ rev (signed (z <? 0) [])).
  { unfold signed. destruct (z <? 0); cbn; [reflexivity|now rewrite app_nil_r]. }
  rewrite S. destruct (rev (unat (Z.abs z))) as [|d u] eqn:R.
  - apply (f_equal (@rev _)) in R. rewrite rev_involutive, E in R. discriminate.
  - cbn in D |- *. bool_split. apply isdigit_plain in H.
    destruct (Ascii.eqb_spec d SP); [subst; destruct H; discriminate|reflexivity].
Qed.

Lemma lineok_t t : lineok (fld_t t) = true.
Proof. apply lineok_d. Qed.

Lemma lineok_q s : plain s = true -> lineok (fld_q s) = true.
Proof.
  intros H. unfold lineok. rewrite plain_q by assumption. unfold fld_q, quote. cbn.
  now rewrite rev_app_distr.
Qed.

Lemma lineok_o o : ostr o = true -> lineok (fld_o o) = true.
Proof. destruct o; [apply lineok_q|discriminate]. Qed.

Lemma lineok_opt a b t : lineok a = true -> (b = true -> lineok t = true) ->
  lineok (a ++ fld_if b t) = true.
Proof.
  intros Ha Ht. destruct b; cbn; [|now rewrite app_nil_r].
  apply lineok_app; [|auto]. unfold lineok in Ha. now bool_split.
Qed.

Lemma lineok_flds {A} a (t : A -> cstr) l : lineok a = true ->
  (forall x, In x l -> lineok (t x) = true) -> lineok (a ++ flds t l) = true.
Proof.
  intros Ha H. revert a Ha; induction l as [|x l IH]; intros a Ha; unfold flds in *; cbn.
  - now rewrite app_nil_r.
  - rewrite app_assoc. apply IH; [intros; apply H; cbn; auto|].
    apply lineok_app; [unfold lineok in Ha; now bool_split|apply H; cbn; auto].
Qed.

Lemma lineok_ostrs a l : lineok a = true -> forallb ostr l = true ->
  lineok (a ++ flds fld_o l) = true.
Proof. rewrite (forallb_forall ostr). intros Ha H. apply lineok_flds; auto using lineok_o. Qed.

(** ** The interface *)

(** [ev_read t] reads the fields of a record with event time [t]; [ev_norm t l]
    is the record the reader rebuilds: [l] with the fields that the layout does
    not carry at their initial values. *)
Class EventCodec (L : Type) := {
  ev_write : L -> W;
  ev_read : Z -> R L;
  ev_wf : L -> bool;
  ev_norm : Z -> L -> L;
  ev_body : L -> cstr;
  ev_pad : nat;
  ev_newline : bool;
  ev_writes : forall l, ev_wf l = true ->
    writes (ev_write l) (ev_body l ++ repeat SP ev_pad ++ if ev_newline then [NL] else []);
  ev_reads : forall t l, ev_wf l = true ->
    exists c, ev_read t (C (ev_body l)) = ROk (ev_norm t l) c;
  ev_line : forall l, ev_wf l = true -> lineok (ev_body l) = true;
  ev_sep : forall l, ev_wf l = true -> sep (ev_body l);
  ev_again : forall t l, ev_wf l = true ->
    ev_wf (ev_norm t l) = true /\ ev_body (ev_norm t l) = ev_body l
}.

(** ** Automation *)

Lemma rd_step {A B} (m : R A) (k : A -> R B) c0 a c1 x :
  m c0 = ROk a c1 -> (exists c, k a c1 = ROk x c) -> exists c, bind m k c0 = ROk x c.
Proof. intros E [c H]. exists c. now rewrite (bind_ok _ _ _ _ _ E). Qed.

#[export] Hint Resolve sep_if_o sep_if_d sep_sp sep_o sep_t sep_flds_o : elog.
#[export] Hint Resolve scan_d_C scan_d_S scan_t_C scan_t_S scan_fp_C scan_fp_S adv1_S
  copyQStr_C saveQStr_C saveQStr_o strip_buf_C calloc_ok scan_d1_C copyQStr_over peek_ok
  rtimes_cbuf rtimes_csave rtimes_d_C counted_int : elog.
#[export] Hint Resolve obuf_ostr save_buf_o rif_hosts rif_hosts_pos calloc_pos writes_nz plain_hosts plain_ostrs lineok_ostrs : elog.
#[export] Hint Resolve plain_q plain_d plain_t plain_o plain_if plain_strok
  lineok_d lineok_t lineok_q lineok_o lineok_opt : elog.
#[export] Hint Resolve writes_ret writes_fprintf writes_q writes_qp writes_o writes_cqs
  writes_cops : elog.
#[export] Hint Resolve writes_if | 9 : elog.

(** The writer of a record, against its layout. *)
Ltac wr_parts :=
  lazymatch goal with
  | |- writes (wseq _ _) _ => eapply writes_seq; [wr_parts|wr_parts]
  | |- _ => solve [eauto with elog]
  end.
Ltac wr := eapply writes_eq; [wr_parts|rewrite <- ?app_assoc; cbn [app]; rewrite ?app_nil_r; try reflexivity].

(** One step of a reader on the layout. *)
Ltac rd1 := eapply rd_step; [solve [eauto 25 with elog]|cbv beta].
Ltac rd := repeat rd1.
Ltac rd_done l := destruct l; eexists; reflexivity.

Ltac line_ok :=
  repeat lazymatch goal with
  | |- lineok (_ ++ fld_if _ _) = true => fail
  | |- lineok (_ ++ flds _ _) = true => fail
  | |- lineok (_ ++ _) = true => apply lineok_app; [solve [eauto with elog]|]
  end; eauto with elog.

(** Each law of a codec from its writer, reader, side condition and
    layout. *)
Ltac codec_writes w f b :=
  let l := fresh "l" in let H := fresh "H" in
  intros l H; unfold w; unfold f, ints in H; cbn in H; bool_split; unfold b; wr.
Ltac codec_reads r f b :=
  let l := fresh "l" in let H := fresh "H" in let t := fresh "t" in
  intros t l H; rewrite <- (app_nil_r (b l)); unfold r; unfold f, ints in H; cbn in H;
  bool_split; unfold b; rewrite <- ?app_assoc; rd; try rd_done l.
Ltac codec_line f b :=
  let l := fresh "l" in let H := fresh "H" in
  intros l H; unfold f, ints in H; cbn in H; bool_split; unfold b; line_ok.
Ltac codec_again b :=
  let l := fresh "l" in let H := fresh "H" in let t := fresh "t" in
  intros t l H; split; [exact H|unfold b; cbn; rewrite ?fld_t_wrap; reflexivity].
Ltac codec_law w r f b :=
  lazymatch goal with
  | |- forall _, _ -> writes _ _ => codec_writes w f b
  | |- _ -> forall _, _ -> exists _, _ => codec_reads r f b
  | |- forall _, _ -> lineok _ = true => codec_line f b
  | |- forall _, _ -> sep _ => reflexivity
  | |- _ -> forall _, _ -> _ /\ _ => codec_again b
  end.
