(* ===== verification/EventsSmall.v ===== *)
(** * The small event records (lsbatch/lib/lsb.log.c)

    One module for each event whose record is a list of numbers and strings:
    the struct of [lsbatch.h], its writer and its reader, its layout on the
    line, and the instance of [EventCodec] that relates them. *)
From Stdlib Require Import ZArith Ascii String List Bool Lia.
From S2P Require Import Prelude CNum Words LogStream EventCodec.
Import ListNotations.
Local Open Scope Z_scope.
Local Open Scope log_scope.


(** ** JOB_START_ACCEPT *)
Module JobStartAccept.

Record jobStartAcceptLog := mk {
  jobId : Z; jobPid : Z; jobPGid : Z; idx : Z }.

Definition writeJobStartAccept (l : jobStartAcceptLog) : W :=
  fprintf (fld_d (jobId l) ++ fld_d (jobPid l) ++ fld_d (jobPGid l)) ;;
  fprintf (fld_d (idx l)) ;;
  fprintf newline.

Definition readJobStartAccept : R jobStartAcceptLog :=
  jobId <- scan_d ; jobPid <- scan_d ; jobPGid <- scan_d ; adv1 ;>
  idx <- scan_d ; adv1 ;>
  ret (mk jobId jobPid jobPGid idx).

Definition wf (l : jobStartAcceptLog) : bool :=
  ints [jobId l; jobPid l; jobPGid l; idx l].

Definition body (l : jobStartAcceptLog) : cstr :=
  fld_d (jobId l) ++ fld_d (jobPid l) ++ fld_d (jobPGid l) ++ fld_d (idx l).

#[global, refine] Instance jobStartAccept_codec : EventCodec jobStartAcceptLog := {|
  ev_write := writeJobStartAccept; ev_read _ := readJobStartAccept; ev_wf := wf;
  ev_norm _ l := l; ev_body := body; ev_pad := 0; ev_newline := true |}.
Proof. all: codec_law writeJobStartAccept readJobStartAccept wf body. Defined.

End JobStartAccept.

(** ** JOB_EXECUTE *)
Module JobExecute.

Record jobExecuteLog := mk {
  jobId : Z; execUid : Z; execHome : option cstr; execCwd : option cstr; jobPGid : Z;
  execUsername : option cstr; jobPid : Z; idx : Z }.

Definition writeJobExecute (l : jobExecuteLog) : W :=
  fprintf (fld_d (jobId l) ++ fld_d (execUid l) ++ fld_d (jobPGid l)) ;;
  addQP (execCwd l) ;;
  addQP (execHome l) ;;
  addQP (execUsername l) ;;
  fprintf (fld_d (jobPid l)) ;;
  fprintf (fld_d (idx l)) ;;
  fprintf newline.

Definition readJobExecute : R jobExecuteLog :=
  jobId <- scan_d ; execUid <- scan_d ; jobPGid <- scan_d ; adv1 ;>
  execCwd <- saveQStr ;
  execHome <- saveQStr ;
  execUsername <- saveQStr ;
  jobPid <- scan_d ; adv1 ;>
  idx <- scan_d ;
  ret (mk jobId execUid execHome execCwd jobPGid execUsername jobPid idx).

Definition wf (l : jobExecuteLog) : bool :=
  ints [jobId l; execUid l; jobPGid l; jobPid l; idx l] && ostr (execCwd l) &&
  ostr (execHome l) && ostr (execUsername l).

Definition body (l : jobExecuteLog) : cstr :=
  fld_d (jobId l) ++ fld_d (execUid l) ++ fld_d (jobPGid l) ++ fld_o (execCwd l) ++
  fld_o (execHome l) ++ fld_o (execUsername l) ++ fld_d (jobPid l) ++ fld_d (idx l).

#[global, refine] Instance jobExecute_codec : EventCodec jobExecuteLog := {|
  ev_write := writeJobExecute; ev_read _ := readJobExecute; ev_wf := wf;
  ev_norm _ l := l; ev_body := body; ev_pad := 0; ev_newline := true |}.
Proof. all: codec_law writeJobExecute readJobExecute wf body. Defined.

End JobExecute.

(** ** SBD_JOB_STATUS: the writer emits no newline *)
Module SbdJobStatus.

Record sbdJobStatusLog := mk {
  jobId : Z; jStatus : Z; reasons : Z; subreasons : Z; actPid : Z; actValue : Z;
  actPeriod : Z; actFlags : Z; actStatus : Z; actReasons : Z; actSubReasons : Z; idx : Z }.

Definition writeSbdJobStatus (l : sbdJobStatusLog) : W :=
  fprintf (fld_d (jobId l) ++ fld_d (jStatus l) ++ fld_d (reasons l) ++ fld_d (subreasons l)
    ++ fld_d (actPid l) ++ fld_d (actValue l) ++ fld_t (actPeriod l) ++ fld_d (actFlags l)
    ++ fld_d (actStatus l) ++ fld_d (actReasons l) ++ fld_d (actSubReasons l)) ;;
  fprintf (fld_d (idx l)).

Definition readSbdJobStatus : R sbdJobStatusLog :=
  jobId <- scan_d ; jStatus <- scan_d ; reasons <- scan_d ; subreasons <- scan_d ;
  actPid <- scan_d ; actValue <- scan_d ; tmpActPeriod <- scan_d ; actFlags <- scan_d ;
  actStatus <- scan_d ; actReasons <- scan_d ; actSubReasons <- scan_d ; idx <- scan_d ; adv1 ;>
  ret (mk jobId jStatus reasons subreasons actPid actValue tmpActPeriod actFlags
         actStatus actReasons actSubReasons idx).

Definition wf (l : sbdJobStatusLog) : bool :=
  ints [jobId l; jStatus l; reasons l; subreasons l; actPid l; actValue l; actFlags l; actStatus l; actReasons l; actSubReasons l; idx l].

Definition body (l : sbdJobStatusLog) : cstr :=
  fld_d (jobId l) ++ fld_d (jStatus l) ++ fld_d (reasons l) ++ fld_d (subreasons l) ++
  fld_d (actPid l) ++ fld_d (actValue l) ++ fld_t (actPeriod l) ++ fld_d (actFlags l) ++
  fld_d (actStatus l) ++ fld_d (actReasons l) ++ fld_d (actSubReasons l) ++ fld_d (idx l).

Definition norm (l : sbdJobStatusLog) : sbdJobStatusLog :=
  mk (jobId l) (jStatus l) (reasons l) (subreasons l) (actPid l) (actValue l)
    (wrap32 (actPeriod l)) (actFlags l) (actStatus l) (actReasons l) (actSubReasons l)
    (idx l).

#[global, refine] Instance sbdJobStatus_codec : EventCodec sbdJobStatusLog := {|
  ev_write := writeSbdJobStatus; ev_read _ := readSbdJobStatus; ev_wf := wf;
  ev_norm _ l := norm l; ev_body := body; ev_pad := 0; ev_newline := false |}.
Proof. all: codec_law writeSbdJobStatus readSbdJobStatus wf body. Defined.

End SbdJobStatus.

(** ** JOB_SWITCH *)
Module JobSwitch.

Record jobSwitchLog := mk {
  userId : Z; jobId : Z; queue : cstr; idx : Z; userName : cstr }.

Definition writeJobSwitch (l : jobSwitchLog) : W :=
  fprintf (fld_d (userId l) ++ fld_d (jobId l)) ;;
  addQ (queue l) ;;
  fprintf (fld_d (idx l)) ;;
  addQ (userName l) ;;
  fprintf newline.

Definition readJobSwitch : R jobSwitchLog :=
  userId <- scan_d ; jobId <- scan_d ; adv1 ;>
  queue <- copyQStr MAX_LSB_NAME_LEN true ;
  idx <- scan_d ; adv1 ;>
  userName <- copyQStr MAX_LSB_NAME_LEN true ;
  ret (mk userId jobId queue idx userName).

Definition wf (l : jobSwitchLog) : bool :=
  ints [userId l; jobId l; idx l] && strok MAX_LSB_NAME_LEN true (queue l) &&
  strok MAX_LSB_NAME_LEN true (userName l).

Definition body (l : jobSwitchLog) : cstr :=
  fld_d (userId l) ++ fld_d (jobId l) ++ fld_q (queue l) ++ fld_d (idx l) ++
  fld_q (userName l).

#[global, refine] Instance jobSwitch_codec : EventCodec jobSwitchLog := {|
  ev_write := writeJobSwitch; ev_read _ := readJobSwitch; ev_wf := wf;
  ev_norm _ l := l; ev_body := body; ev_pad := 0; ev_newline := true |}.
Proof. all: codec_law writeJobSwitch readJobSwitch wf body. Defined.

End JobSwitch.

(** ** JOB_MOVE *)
Module JobMove.

Record jobMoveLog := mk {
  userId : Z; jobId : Z; position : Z; base : Z; idx : Z; userName : cstr }.

Definition writeJobMove (l : jobMoveLog) : W :=
  fprintf (fld_d (userId l) ++ fld_d (jobId l) ++ fld_d (position l) ++ fld_d (base l) ++ fld_d (idx l)) ;;
  addQ (userName l) ;;
  fprintf newline.

Definition readJobMove : R jobMoveLog :=
  userId <- scan_d ; jobId <- scan_d ; position <- scan_d ; base <- scan_d ; adv1 ;>
  idx <- scan_d ; adv1 ;>
  userName <- copyQStr MAX_LSB_NAME_LEN true ;
  ret (mk userId jobId position base idx userName).

Definition wf (l : jobMoveLog) : bool :=
  ints [userId l; jobId l; position l; base l; idx l] &&
  strok MAX_LSB_NAME_LEN true (userName l).

Definition body (l : jobMoveLog) : cstr :=
  fld_d (userId l) ++ fld_d (jobId l) ++ fld_d (position l) ++ fld_d (base l) ++
  fld_d (idx l) ++ fld_q (userName l).

#[global, refine] Instance jobMove_codec : EventCodec jobMoveLog := {|
  ev_write := writeJobMove; ev_read _ := readJobMove; ev_wf := wf;
  ev_norm _ l := l; ev_body := body; ev_pad := 0; ev_newline := true |}.
Proof. all: codec_law writeJobMove readJobMove wf body. Defined.

End JobMove.

(** ** CHKPNT *)
Module Chkpnt.

Record chkpntLog := mk {
  jobId : Z; period : Z; pid : Z; ok : Z; flags : Z; idx : Z }.

Definition writeChkpnt (l : chkpntLog) : W :=
  fprintf (fld_d (jobId l) ++ fld_t (period l) ++ fld_d (pid l) ++ fld_d (ok l) ++ fld_d (flags l) ++ fld_d (idx l) ++ newline).

Definition readChkpnt : R chkpntLog :=
  jobId <- scan_d ; tmpPeriod <- scan_d ; pid <- scan_d ; ok <- scan_d ; flags <- scan_d ; adv1 ;>
  idx <- scan_d ;
  ret (mk jobId tmpPeriod pid ok flags idx).

Definition wf (l : chkpntLog) : bool :=
  ints [jobId l; pid l; ok l; flags l; idx l].

Definition body (l : chkpntLog) : cstr :=
  fld_d (jobId l) ++ fld_t (period l) ++ fld_d (pid l) ++ fld_d (ok l) ++
  fld_d (flags l) ++ fld_d (idx l).

Definition norm (l : chkpntLog) : chkpntLog :=
  mk (jobId l) (wrap32 (period l)) (pid l) (ok l) (flags l) (idx l).

#[global, refine] Instance chkpnt_codec : EventCodec chkpntLog := {|
  ev_write := writeChkpnt; ev_read _ := readChkpnt; ev_wf := wf;
  ev_norm _ l := norm l; ev_body := body; ev_pad := 0; ev_newline := true |}.
Proof. all: codec_law writeChkpnt readChkpnt wf body. Defined.

End Chkpnt.

(** ** JOB_REQUEUE *)
Module JobRequeue.

Record jobRequeueLog := mk {
  jobId : Z; idx : Z }.

Definition writeJobRqueue (l : jobRequeueLog) : W :=
  fprintf (fld_d (jobId l) ++ fld_d (idx l) ++ newline).

Definition readJobRequeue : R jobRequeueLog :=
  jobId <- scan_d ; adv1 ;>
  idx <- scan_d ; adv1 ;>
  ret (mk jobId idx).

Definition wf (l : jobRequeueLog) : bool :=
  ints [jobId l; idx l].

Definition body (l : jobRequeueLog) : cstr :=
  fld_d (jobId l) ++ fld_d (idx l).

#[global, refine] Instance jobRequeue_codec : EventCodec jobRequeueLog := {|
  ev_write := writeJobRqueue; ev_read _ := readJobRequeue; ev_wf := wf;
  ev_norm _ l := l; ev_body := body; ev_pad := 0; ev_newline := true |}.
Proof. all: codec_law writeJobRqueue readJobRequeue wf body. Defined.

End JobRequeue.

(** ** JOB_CLEAN *)
Module JobClean.

Record jobCleanLog := mk {
  jobId : Z; idx : Z }.

Definition writeJobClean (l : jobCleanLog) : W :=
  fprintf (fld_d (jobId l) ++ fld_d (idx l) ++ newline).

Definition readJobClean : R jobCleanLog :=
  jobId <- scan_d ; idx <- scan_d ; adv1 ;>
  ret (mk jobId idx).

Definition wf (l : jobCleanLog) : bool :=
  ints [jobId l; idx l].

Definition body (l : jobCleanLog) : cstr :=
  fld_d (jobId l) ++ fld_d (idx l).

#[global, refine] Instance jobClean_codec : EventCodec jobCleanLog := {|
  ev_write := writeJobClean; ev_read _ := readJobClean; ev_wf := wf;
  ev_norm _ l := l; ev_body := body; ev_pad := 0; ev_newline := true |}.
Proof. all: codec_law writeJobClean readJobClean wf body. Defined.

End JobClean.

(** ** JOB_SIGACT *)
Module JobSigAct.

Record sigactLog := mk {
  jobId : Z; period : Z; pid : Z; jStatus : Z; reasons : Z; flags : Z;
  signalSymbol : option cstr; actStatus : Z; idx : Z }.

Definition writeJobSigAct (l : sigactLog) : W :=
  fprintf (fld_d (jobId l) ++ fld_t (period l) ++ fld_d (pid l) ++ fld_d (jStatus l)
    ++ fld_d (reasons l) ++ fld_d (flags l) ++ fld_d (actStatus l)) ;;
  addQP (signalSymbol l) ;;
  fprintf (fld_d (idx l)) ;;
  fprintf newline.

Definition readJobSigAct : R sigactLog :=
  jobId <- scan_d ; tmpPeriod <- scan_d ; pid <- scan_d ; jStatus <- scan_d ; reasons <- scan_d ;
  flags <- scan_d ; actStatus <- scan_d ; adv1 ;>
  signalSymbol <- save_buf MAXLINELEN ;
  idx <- scan_d ;
  ret (mk jobId tmpPeriod pid jStatus reasons flags signalSymbol actStatus idx).

Definition wf (l : sigactLog) : bool :=
  ints [jobId l; pid l; jStatus l; reasons l; flags l; actStatus l; idx l] &&
  obuf MAXLINELEN (signalSymbol l).

Definition body (l : sigactLog) : cstr :=
  fld_d (jobId l) ++ fld_t (period l) ++ fld_d (pid l) ++ fld_d (jStatus l) ++
  fld_d (reasons l) ++ fld_d (flags l) ++ fld_d (actStatus l) ++ fld_o (signalSymbol l) ++
  fld_d (idx l).

Definition norm (l : sigactLog) : sigactLog :=
  mk (jobId l) (wrap32 (period l)) (pid l) (jStatus l) (reasons l) (flags l)
    (signalSymbol l) (actStatus l) (idx l).

#[global, refine] Instance jobSigAct_codec : EventCodec sigactLog := {|
  ev_write := writeJobSigAct; ev_read _ := readJobSigAct; ev_wf := wf;
  ev_norm _ l := norm l; ev_body := body; ev_pad := 0; ev_newline := true |}.
Proof. all: codec_law writeJobSigAct readJobSigAct wf body. Defined.

End JobSigAct.

(** ** JOB_SIGNAL *)
Module JobSignal.

Record signalLog := mk {
  userId : Z; jobId : Z; signalSymbol : option cstr; runCount : Z; idx : Z; userName : cstr }.

Definition writeJobSignal (l : signalLog) : W :=
  fprintf (fld_d (jobId l) ++ fld_d (userId l) ++ fld_d (runCount l)) ;;
  addQP (signalSymbol l) ;;
  fprintf (fld_d (idx l)) ;;
  addQ (userName l) ;;
  fprintf newline.

Definition readJobSignal : R signalLog :=
  jobId <- scan_d ; userId <- scan_d ; runCount <- scan_d ; adv1 ;>
  signalSymbol <- save_buf MAXLINELEN ;
  idx <- scan_d ; adv1 ;>
  userName <- copyQStr MAX_LSB_NAME_LEN true ;
  ret (mk userId jobId signalSymbol runCount idx userName).

Definition wf (l : signalLog) : bool :=
  ints [jobId l; userId l; runCount l; idx l] && obuf MAXLINELEN (signalSymbol l) &&
  strok MAX_LSB_NAME_LEN true (userName l).

Definition body (l : signalLog) : cstr :=
  fld_d (jobId l) ++ fld_d (userId l) ++ fld_d (runCount l) ++ fld_o (signalSymbol l) ++
  fld_d (idx l) ++ fld_q (userName l).

#[global, refine] Instance jobSignal_codec : EventCodec signalLog := {|
  ev_write := writeJobSignal; ev_read _ := readJobSignal; ev_wf := wf;
  ev_norm _ l := l; ev_body := body; ev_pad := 0; ev_newline := true |}.
Proof. all: codec_law writeJobSignal readJobSignal wf body. Defined.

End JobSignal.

(** ** QUEUE_CTRL *)
Module QueueCtrl.

Record queueCtrlLog := mk {
  opCode : Z; queue : cstr; userId : Z; userName : cstr }.

Definition writeQueueCtrl (l : queueCtrlLog) : W :=
  fprintf (fld_d (opCode l)) ;;
  addQ (queue l) ;;
  fprintf (fld_d (userId l)) ;;
  addQ (userName l) ;;
  fprintf newline.

Definition readQueueCtrl : R queueCtrlLog :=
  opCode <- scan_d ; adv1 ;>
  queue <- copyQStr MAX_LSB_NAME_LEN true ;
  userId <- peek scan_d ;
  userName <- copyQStr MAX_LSB_NAME_LEN true ;
  ret (mk opCode queue userId userName).

Definition wf (l : queueCtrlLog) : bool :=
  ints [opCode l; userId l] && strok MAX_LSB_NAME_LEN true (queue l) &&
  strok MAX_LSB_NAME_LEN true (userName l).

Definition body (l : queueCtrlLog) : cstr :=
  fld_d (opCode l) ++ fld_q (queue l) ++ fld_d (userId l) ++ fld_q (userName l).

#[global, refine] Instance queueCtrl_codec : EventCodec queueCtrlLog := {|
  ev_write := writeQueueCtrl; ev_read _ := readQueueCtrl; ev_wf := wf;
  ev_norm _ l := l; ev_body := body; ev_pad := 0; ev_newline := true |}.
Proof. all: codec_law writeQueueCtrl readQueueCtrl wf body. Defined.

End QueueCtrl.

(** ** HOST_CTRL *)
Module HostCtrl.

Record hostCtrlLog := mk {
  opCode : Z; host : cstr; userId : Z; userName : cstr }.

Definition writeHostCtrl (l : hostCtrlLog) : W :=
  fprintf (fld_d (opCode l)) ;;
  addQ (host l) ;;
  fprintf (fld_d (userId l)) ;;
  addQ (userName l) ;;
  fprintf newline.

Definition readHostCtrl : R hostCtrlLog :=
  opCode <- scan_d ; adv1 ;>
  host <- copyQStr MAXHOSTNAMELEN false ;
  userId <- peek scan_d ;
  userName <- copyQStr MAX_LSB_NAME_LEN true ;
  ret (mk opCode host userId userName).

Definition wf (l : hostCtrlLog) : bool :=
  ints [opCode l; userId l] && strok MAXHOSTNAMELEN false (host l) &&
  strok MAX_LSB_NAME_LEN true (userName l).

Definition body (l : hostCtrlLog) : cstr :=
  fld_d (opCode l) ++ fld_q (host l) ++ fld_d (userId l) ++ fld_q (userName l).

#[global, refine] Instance hostCtrl_codec : EventCodec hostCtrlLog := {|
  ev_write := writeHostCtrl; ev_read _ := readHostCtrl; ev_wf := wf;
  ev_norm _ l := l; ev_body := body; ev_pad := 0; ev_newline := true |}.
Proof. all: codec_law writeHostCtrl readHostCtrl wf body. Defined.

End HostCtrl.

(** ** MBD_DIE *)
Module MbdDie.

Record mbdDieLog := mk {
  master : cstr; numRemoveJobs : Z; exitCode : Z }.

Definition writeMbdDie (l : mbdDieLog) : W :=
  addQ (master l) ;;
  fprintf (fld_d (numRemoveJobs l) ++ fld_d (exitCode l) ++ newline).

Definition readMbdDie : R mbdDieLog :=
  master <- copyQStr MAXHOSTNAMELEN false ;
  numRemoveJobs <- scan_d ; exitCode <- scan_d ;
  ret (mk master numRemoveJobs exitCode).

Definition wf (l : mbdDieLog) : bool :=
  ints [numRemoveJobs l; exitCode l] && strok MAXHOSTNAMELEN false (master l).

Definition body (l : mbdDieLog) : cstr :=
  fld_q (master l) ++ fld_d (numRemoveJobs l) ++ fld_d (exitCode l).

#[global, refine] Instance mbdDie_codec : EventCodec mbdDieLog := {|
  ev_write := writeMbdDie; ev_read _ := readMbdDie; ev_wf := wf;
  ev_norm _ l := l; ev_body := body; ev_pad := 0; ev_newline := true |}.
Proof. all: codec_law writeMbdDie readMbdDie wf body. Defined.

End MbdDie.

(** ** MBD_START *)
Module MbdStart.

Record mbdStartLog := mk {
  master : cstr; cluster : cstr; numHosts : Z; numQueues : Z }.

Definition writeMbdStart (l : mbdStartLog) : W :=
  addQ (master l) ;;
  addQ (cluster l) ;;
  fprintf (fld_d (numHosts l) ++ fld_d (numQueues l) ++ newline).

Definition readMbdStart : R mbdStartLog :=
  master <- copyQStr MAXHOSTNAMELEN false ;
  cluster <- copyQStr MAXLSFNAMELEN false ;
  numHosts <- scan_d ; numQueues <- scan_d ;
  ret (mk master cluster numHosts numQueues).

Definition wf (l : mbdStartLog) : bool :=
  ints [numHosts l; numQueues l] && strok MAXHOSTNAMELEN false (master l) &&
  strok MAXLSFNAMELEN false (cluster l).

Definition body (l : mbdStartLog) : cstr :=
  fld_q (master l) ++ fld_q (cluster l) ++ fld_d (numHosts l) ++ fld_d (numQueues l).

#[global, refine] Instance mbdStart_codec : EventCodec mbdStartLog := {|
  ev_write := writeMbdStart; ev_read _ := readMbdStart; ev_wf := wf;
  ev_norm _ l := l; ev_body := body; ev_pad := 0; ev_newline := true |}.
Proof. all: codec_law writeMbdStart readMbdStart wf body. Defined.

End MbdStart.

(** ** UNFULFILL *)
Module Unfulfill.

Record unfulfillLog := mk {
  jobId : Z; notSwitched : Z; sig : Z; sig1 : Z; sig1Flags : Z; chkPeriod : Z;
  notModified : Z; idx : Z }.

Definition writeUnfulfill (l : unfulfillLog) : W :=
  fprintf (fld_d (jobId l) ++ fld_d (notSwitched l) ++ fld_d (sig l) ++ fld_d (sig1 l)
    ++ fld_d (sig1Flags l) ++ fld_t (chkPeriod l) ++ fld_d (notModified l) ++ fld_d (idx l)
    ++ newline).

Definition readUnfulfill : R unfulfillLog :=
  jobId <- scan_d ; notSwitched <- scan_d ; sig <- scan_d ; sig1 <- scan_d ;
  sig1Flags <- scan_d ; tmpChkPeriod <- scan_d ; notModified <- scan_d ; adv1 ;>
  idx <- scan_d ; adv1 ;>
  ret (mk jobId notSwitched sig sig1 sig1Flags tmpChkPeriod notModified idx).

Definition wf (l : unfulfillLog) : bool :=
  ints [jobId l; notSwitched l; sig l; sig1 l; sig1Flags l; notModified l; idx l].

Definition body (l : unfulfillLog) : cstr :=
  fld_d (jobId l) ++ fld_d (notSwitched l) ++ fld_d (sig l) ++ fld_d (sig1 l) ++
  fld_d (sig1Flags l) ++ fld_t (chkPeriod l) ++ fld_d (notModified l) ++ fld_d (idx l).

Definition norm (l : unfulfillLog) : unfulfillLog :=
  mk (jobId l) (notSwitched l) (sig l) (sig1 l) (sig1Flags l) (wrap32 (chkPeriod l))
    (notModified l) (idx l).

#[global, refine] Instance unfulfill_codec : EventCodec unfulfillLog := {|
  ev_write := writeUnfulfill; ev_read _ := readUnfulfill; ev_wf := wf;
  ev_norm _ l := norm l; ev_body := body; ev_pad := 0; ev_newline := true |}.
Proof. all: codec_law writeUnfulfill readUnfulfill wf body. Defined.

End Unfulfill.

(** ** LOG_SWITCH *)
Module LogSwitch.

Record logSwitchLog := mk {
  lastJobId : Z }.

Definition writeLogSwitch (l : logSwitchLog) : W :=
  fprintf (fld_d (lastJobId l) ++ [SP]) ;;
  fprintf newline.

Definition readLogSwitch : R logSwitchLog :=
  lastJobId <- scan_d ; scan_ws ;> adv1 ;>
  ret (mk lastJobId).

Definition wf (l : logSwitchLog) : bool :=
  ints [lastJobId l].

Definition body (l : logSwitchLog) : cstr :=
  fld_d (lastJobId l).

#[global, refine] Instance logSwitch_codec : EventCodec logSwitchLog := {|
  ev_write := writeLogSwitch; ev_read _ := readLogSwitch; ev_wf := wf;
  ev_norm _ l := l; ev_body := body; ev_pad := 1; ev_newline := true |}.
Proof. all: codec_law writeLogSwitch readLogSwitch wf body. Defined.

End LogSwitch.

(** ** JOB_ATTR_SET: [hostname] is not written *)
Module JobAttrSet.

Record jobAttrSetLog := mk {
  jobId : Z; idx : Z; uid : Z; port : Z; hostname : option cstr }.

Definition writeJobAttrSet (l : jobAttrSetLog) : W :=
  fprintf (fld_d (jobId l) ++ fld_d (idx l) ++ fld_d (uid l) ++ fld_d (port l) ++ [SP]) ;;
  fprintf newline.

Definition readJobAttrSet : R jobAttrSetLog :=
  jobId <- scan_d ; idx <- scan_d ; uid <- scan_d ; port <- scan_d ;
  ret (mk jobId idx uid port None).

Definition wf (l : jobAttrSetLog) : bool :=
  ints [jobId l; idx l; uid l; port l].

Definition body (l : jobAttrSetLog) : cstr :=
  fld_d (jobId l) ++ fld_d (idx l) ++ fld_d (uid l) ++ fld_d (port l).

Definition norm (l : jobAttrSetLog) : jobAttrSetLog :=
  mk (jobId l) (idx l) (uid l) (port l) (None).

#[global, refine] Instance jobAttrSet_codec : EventCodec jobAttrSetLog := {|
  ev_write := writeJobAttrSet; ev_read _ := readJobAttrSet; ev_wf := wf;
  ev_norm _ l := norm l; ev_body := body; ev_pad := 1; ev_newline := true |}.
Proof. all: codec_law writeJobAttrSet readJobAttrSet wf body. Defined.

End JobAttrSet.

(** ** LOAD_INDEX *)
Module LoadIndex.

Record loadIndexLog := mk {
  nIdx : Z; name : list (option cstr) }.

Definition writeLoadIndex (l : loadIndexLog) : W :=
  fprintf (fld_d (nIdx l)) ;;
  wif (negb (nIdx l =? 0)) (warray addQP (name l) (nIdx l)) ;;
  fprintf newline.

Definition readLoadIndex : R loadIndexLog :=
  nIdx <- scan_d ; calloc nIdx ;> adv1 ;>
  name <- rtimes (Z.to_nat nIdx) saveQStr ;
  ret (mk nIdx name).

Definition wf (l : loadIndexLog) : bool :=
  ints [nIdx l] && counted (nIdx l) (name l) && forallb ostr (name l).

Definition body (l : loadIndexLog) : cstr :=
  fld_d (nIdx l) ++ flds fld_o (name l).

#[global, refine] Instance loadIndex_codec : EventCodec loadIndexLog := {|
  ev_write := writeLoadIndex; ev_read _ := readLoadIndex; ev_wf := wf;
  ev_norm _ l := l; ev_body := body; ev_pad := 0; ev_newline := true |}.
Proof. all: codec_law writeLoadIndex readLoadIndex wf body. Defined.

End LoadIndex.

(** ** MIG *)
Module Mig.

Record migLog := mk {
  jobId : Z; numAskedHosts : Z; askedHosts : list cstr; userId : Z; idx : Z; userName : cstr }.

Definition writeMig (l : migLog) : W :=
  fprintf (fld_d (jobId l) ++ fld_d (numAskedHosts l)) ;;
  wif (negb (numAskedHosts l =? 0)) (warray addQ (askedHosts l) (numAskedHosts l)) ;;
  fprintf (fld_d (userId l)) ;;
  fprintf (fld_d (idx l)) ;;
  addQ (userName l) ;;
  fprintf newline.

Definition readMig : R migLog :=
  jobId <- scan_d ; numAskedHosts <- scan_d ; adv1 ;>
  askedHosts <- rif (negb (numAskedHosts =? 0))
    (calloc numAskedHosts ;> rtimes (Z.to_nat numAskedHosts) (strip_buf MAXHOSTNAMELEN)) [] ;
  userId <- scan_d ; adv1 ;>
  idx <- peek scan_d ;
  userName <- copyQStr MAX_LSB_NAME_LEN true ;
  ret (mk jobId numAskedHosts askedHosts userId idx userName).

Definition wf (l : migLog) : bool :=
  ints [jobId l; numAskedHosts l; userId l; idx l] &&
  counted (numAskedHosts l) (askedHosts l) && hosts MAXHOSTNAMELEN (askedHosts l) &&
  strok MAX_LSB_NAME_LEN true (userName l).

Definition body (l : migLog) : cstr :=
  fld_d (jobId l) ++ fld_d (numAskedHosts l) ++ flds fld_q (askedHosts l) ++
  fld_d (userId l) ++ fld_d (idx l) ++ fld_q (userName l).

#[global, refine] Instance mig_codec : EventCodec migLog := {|
  ev_write := writeMig; ev_read _ := readMig; ev_wf := wf;
  ev_norm _ l := l; ev_body := body; ev_pad := 0; ev_newline := true |}.
Proof. all: codec_law writeMig readMig wf body. Defined.

End Mig.

(** ** JOB_FORCE *)
Module JobForce.

Record jobForceRequestLog := mk {
  userId : Z; numExecHosts : Z; execHosts : list cstr; jobId : Z; idx : Z; options : Z;
  userName : cstr }.

Definition writeJobForce (l : jobForceRequestLog) : W :=
  fprintf (fld_d (jobId l) ++ fld_d (userId l) ++ fld_d (idx l) ++ fld_d (options l) ++ fld_d (numExecHosts l) ++ [SP]) ;;
  warray addQ (execHosts l) (numExecHosts l) ;;
  addQ (userName l) ;;
  fprintf newline.

Definition readJobForce : R jobForceRequestLog :=
  jobId <- scan_d ; userId <- scan_d ; idx <- scan_d ; options <- scan_d ; numExecHosts <- scan_d ; adv1 ;>
  calloc numExecHosts ;>
  execHosts <- rtimes (Z.to_nat numExecHosts) (strip_buf MAXLINELEN) ;
  userName <- copyQStr MAX_LSB_NAME_LEN true ;
  ret (mk userId numExecHosts execHosts jobId idx options userName).

Definition wf (l : jobForceRequestLog) : bool :=
  ints [jobId l; userId l; idx l; options l; numExecHosts l] &&
  counted (numExecHosts l) (execHosts l) && hosts MAXLINELEN (execHosts l) &&
  strok MAX_LSB_NAME_LEN true (userName l).

Definition body (l : jobForceRequestLog) : cstr :=
  fld_d (jobId l) ++ fld_d (userId l) ++ fld_d (idx l) ++ fld_d (options l) ++
  fld_d (numExecHosts l) ++ [SP] ++ flds fld_q (execHosts l) ++ fld_q (userName l).

#[global, refine] Instance jobForce_codec : EventCodec jobForceRequestLog := {|
  ev_write := writeJobForce; ev_read _ := readJobForce; ev_wf := wf;
  ev_norm _ l := l; ev_body := body; ev_pad := 0; ev_newline := true |}.
Proof. all: codec_law writeJobForce readJobForce wf body.
  edestruct (hosts_user_sp MAXLINELEN MAX_LSB_NAME_LEN true (numExecHosts l) (execHosts l)
    (userName l) []) as (c & Eh & Eu); eauto with elog.
  eapply rd_step; [exact Eh|]. eapply rd_step; [exact Eu|]. rd_done l.
 Defined.

End JobForce.

(** ** JOB_MSG *)
Module JobMsg.

Record jobMsgLog := mk {
  usrId : Z; jobId : Z; msgId : Z; type : Z; src : option cstr; dest : option cstr;
  msg : option cstr; idx : Z }.

Definition writeJobMsg (l : jobMsgLog) : W :=
  fprintf (fld_d (usrId l) ++ fld_d (jobId l) ++ fld_d (msgId l) ++ fld_d (type l)) ;;
  addQP (src l) ;;
  addQP (dest l) ;;
  addQP (msg l) ;;
  fprintf (fld_d (idx l)) ;;
  fprintf newline.

Definition readJobMsg : R jobMsgLog :=
  usrId <- scan_d ; jobId <- scan_d ; msgId <- scan_d ; type <- scan_d ; adv1 ;>
  src <- save_buf MAXLINELEN ;
  dest <- save_buf MAXLINELEN ;
  msg <- save_buf MAXLINELEN ;
  idx <- scan_d ; adv1 ;>
  ret (mk usrId jobId msgId type src dest msg idx).

Definition wf (l : jobMsgLog) : bool :=
  ints [usrId l; jobId l; msgId l; type l; idx l] && obuf MAXLINELEN (src l) &&
  obuf MAXLINELEN (dest l) && obuf MAXLINELEN (msg l).

Definition body (l : jobMsgLog) : cstr :=
  fld_d (usrId l) ++ fld_d (jobId l) ++ fld_d (msgId l) ++ fld_d (type l) ++
  fld_o (src l) ++ fld_o (dest l) ++ fld_o (msg l) ++ fld_d (idx l).

#[global, refine] Instance jobMsg_codec : EventCodec jobMsgLog := {|
  ev_write := writeJobMsg; ev_read _ := readJobMsg; ev_wf := wf;
  ev_norm _ l := l; ev_body := body; ev_pad := 0; ev_newline := true |}.
Proof. all: codec_law writeJobMsg readJobMsg wf body. Defined.

End JobMsg.

(** ** JOB_MSG_ACK: the source declares the writer on the identical [jobMsgLog] *)
Module JobMsgAck.

Record jobMsgAckLog := mk {
  usrId : Z; jobId : Z; msgId : Z; type : Z; src : option cstr; dest : option cstr;
  msg : option cstr; idx : Z }.

Definition writeJobMsgAck (l : jobMsgAckLog) : W :=
  fprintf (fld_d (usrId l) ++ fld_d (jobId l) ++ fld_d (msgId l) ++ fld_d (type l)) ;;
  addQP (src l) ;;
  addQP (dest l) ;;
  addQP (msg l) ;;
  fprintf (fld_d (idx l)) ;;
  fprintf newline.

Definition readJobMsgAck : R jobMsgAckLog :=
  usrId <- scan_d ; jobId <- scan_d ; msgId <- scan_d ; type <- scan_d ; adv1 ;>
  src <- save_buf MAXLINELEN ;
  dest <- save_buf MAXLINELEN ;
  msg <- save_buf MAXLINELEN ;
  idx <- scan_d ; adv1 ;>
  ret (mk usrId jobId msgId type src dest msg idx).

Definition wf (l : jobMsgAckLog) : bool :=
  ints [usrId l; jobId l; msgId l; type l; idx l] && obuf MAXLINELEN (src l) &&
  obuf MAXLINELEN (dest l) && obuf MAXLINELEN (msg l).

Definition body (l : jobMsgAckLog) : cstr :=
  fld_d (usrId l) ++ fld_d (jobId l) ++ fld_d (msgId l) ++ fld_d (type l) ++
  fld_o (src l) ++ fld_o (dest l) ++ fld_o (msg l) ++ fld_d (idx l).

#[global, refine] Instance jobMsgAck_codec : EventCodec jobMsgAckLog := {|
  ev_write := writeJobMsgAck; ev_read _ := readJobMsgAck; ev_wf := wf;
  ev_norm _ l := l; ev_body := body; ev_pad := 0; ev_newline := true |}.
Proof. all: codec_law writeJobMsgAck readJobMsgAck wf body. Defined.

End JobMsgAck.
