(* ===== verification/EventsRun.v ===== *)
(** * Events of a running job: JOB_START, JOB_STATUS, JOB_FINISH
    (lsbatch/lib/lsb.log.c, with the resource usage of lsf/lib/lib.lsf.c)

    These records carry floating point fields, printed with a fixed number of
    decimals and read back with [%f] and [%lf]: the side conditions ask for
    values that the text determines ([stable]). *)
From Stdlib Require Import ZArith Ascii String List Bool Lia.
From Corelib Require Import SpecFloat.
From S2P Require Import Prelude CNum Words LogStream EventCodec.
Import ListNotations.
Local Open Scope Z_scope.
Local Open Scope log_scope.

Definition fzero : spec_float := S754_zero false.

Definition stable32 (p : nat) (x : spec_float) : bool := stable 24 128 p x.
Definition stable64 (p : nat) (x : spec_float) : bool := stable 53 1024 p x.

Lemma scan_f_S w p x r : stable32 p x = true -> sep r ->
  scan_f (Some (fld_f w p x ++ r)) = ROk x (Some r).
Proof. apply scan_fp_S. Qed.

Lemma scan_lf_S w p x r : stable64 p x = true -> sep r ->
  scan_lf (Some (fld_f w p x ++ r)) = ROk x (Some r).
Proof. apply scan_fp_S. Qed.

Lemma scan_lf_C w p x r : stable64 p x = true -> sep r ->
  scan_lf (C (fld_f w p x ++ r)) = ROk x (Some r).
Proof. apply scan_fp_C. Qed.

(** [%lf] after a blank of the format. *)
Definition scan_ws_lf : R spec_float := scan_ws ;> scan_lf.

Lemma scan_ws_lf_S w p x r : stable64 p x = true -> sep r ->
  scan_ws_lf (Some (fld_f w p x ++ r)) = ROk x (Some r).
Proof.
  intros Hx Hr. unfold scan_ws_lf. erewrite bind_ok by reflexivity.
  rewrite <- (scan_lf_S w p x r Hx Hr). unfold scan_lf, scan_fp, scan_float.
  replace (skip_space (skip_space (fld_f w p x ++ r))) with (skip_space (fld_f w p x ++ r));
    [reflexivity|].
  generalize (fld_f w p x ++ r). clear. intros s. induction s as [|c s IH]; [reflexivity|].
  cbn [skip_space]. destruct (isspace c) eqn:E; [exact IH|]. cbn [skip_space]. now rewrite E.
Qed.

Lemma plain_pad w s : plain s = true -> plain (pad_left w s) = true.
Proof.
  intros H. unfold pad_left. rewrite plain_app, H, andb_true_r.
  induction (w - length s)%nat; [reflexivity|assumption].
Qed.

Lemma pad_digits_plain p n : plain (pad_digits p n) = true.
Proof.
  revert n; induction p as [|p IH]; intros n; [reflexivity|]. cbn [pad_digits].
  rewrite plain_app, IH. cbn [andb]. apply plain_digits. cbn. rewrite isdigit_digit; [reflexivity|].
  apply Z.mod_pos_bound. lia.
Qed.

Lemma plain_fixed p n : 0 <= n -> plain (fixed p n) = true.
Proof.
  intros Hn. unfold fixed. rewrite plain_app.
  rewrite plain_digits by (apply unat_digits, Z.div_pos; lia).
  destruct p as [|p]; [reflexivity|]. exact (pad_digits_plain (S p) _).
Qed.

Lemma plain_f w p x : plain (fld_f w p x) = true.
Proof.
  change (fld_f w p x) with ([SP] ++ fmt_f w p x). rewrite plain_app. unfold fmt_f.
  apply andb_true_iff. split; [reflexivity|]. apply plain_pad.
  destruct x as [s|s| |s m e]; try (now destruct s); try reflexivity;
    apply plain_signed, plain_fixed; auto using round_dec_nonneg; lia.
Qed.

#[export] Hint Resolve scan_f_S scan_lf_S scan_lf_C scan_ws_lf_S plain_f : elog.

(** ** Resource usage: lsf.h, lib.lsf.c *)
Module Rusage.

Record lsfRusage := mk {
  ru_utime : spec_float; ru_stime : spec_float; ru_maxrss : spec_float; ru_ixrss : spec_float;
  ru_ismrss : spec_float; ru_idrss : spec_float; ru_isrss : spec_float; ru_minflt : spec_float;
  ru_majflt : spec_float; ru_nswap : spec_float; ru_inblock : spec_float;
  ru_oublock : spec_float; ru_ioch : spec_float; ru_msgsnd : spec_float;
  ru_msgrcv : spec_float; ru_nsignals : spec_float; ru_nvcsw : spec_float;
  ru_nivcsw : spec_float; ru_exutime : spec_float }.

Definition zero : lsfRusage :=
  mk fzero fzero fzero fzero fzero fzero fzero fzero fzero fzero fzero fzero fzero fzero fzero
     fzero fzero fzero fzero.

Definition text (u : lsfRusage) : cstr :=
  fld_f 1 6 (ru_utime u) ++ fld_f 1 6 (ru_stime u) ++ fld_f 1 0 (ru_maxrss u)
  ++ fld_f 1 0 (ru_ixrss u) ++ fld_f 1 0 (ru_ismrss u) ++ fld_f 1 0 (ru_idrss u)
  ++ fld_f 1 0 (ru_isrss u) ++ fld_f 1 0 (ru_minflt u) ++ fld_f 1 0 (ru_majflt u)
  ++ fld_f 1 0 (ru_nswap u) ++ fld_f 1 0 (ru_inblock u) ++ fld_f 1 0 (ru_oublock u)
  ++ fld_f 1 0 (ru_ioch u) ++ fld_f 1 0 (ru_msgsnd u) ++ fld_f 1 0 (ru_msgrcv u)
  ++ fld_f 1 0 (ru_nsignals u) ++ fld_f 1 0 (ru_nvcsw u) ++ fld_f 1 0 (ru_nivcsw u)
  ++ fld_f 1 0 (ru_exutime u).

Definition lsfRu2Str (u : lsfRusage) : W := fprintf (text u).

(** Moves [line] behind the 19 numbers; fewer than 19 is a format error of the
    callers. *)
Definition str2lsfRu : R lsfRusage :=
  utime <- scan_lf ; stime <- scan_ws_lf ; maxrss <- scan_ws_lf ; ixrss <- scan_ws_lf ;
  ismrss <- scan_ws_lf ; idrss <- scan_ws_lf ; isrss <- scan_ws_lf ; minflt <- scan_ws_lf ;
  majflt <- scan_ws_lf ; nswap <- scan_ws_lf ; inblock <- scan_ws_lf ; oublock <- scan_ws_lf ;
  ioch <- scan_ws_lf ; msgsnd <- scan_ws_lf ; msgrcv <- scan_ws_lf ; nsignals <- scan_ws_lf ;
  nvcsw <- scan_ws_lf ; nivcsw <- scan_ws_lf ; exutime <- scan_ws_lf ;
  ret (mk utime stime maxrss ixrss ismrss idrss isrss minflt majflt nswap inblock oublock ioch
          msgsnd msgrcv nsignals nvcsw nivcsw exutime).

(** The values the text determines: six decimals of the times, whole counts. *)
Definition wf (u : lsfRusage) : bool :=
  forallb (stable64 6) [ru_utime u; ru_stime u]
  && forallb (stable64 0)
       [ru_maxrss u; ru_ixrss u; ru_ismrss u; ru_idrss u; ru_isrss u; ru_minflt u; ru_majflt u;
        ru_nswap u; ru_inblock u; ru_oublock u; ru_ioch u; ru_msgsnd u; ru_msgrcv u;
        ru_nsignals u; ru_nvcsw u; ru_nivcsw u; ru_exutime u].

Lemma sep_text u r : sep (text u ++ r).
Proof. reflexivity. Qed.

Lemma sep_if_text b u r : sep r -> sep (fld_if b (text u) ++ r).
Proof. intros. apply sep_if; auto using sep_text. Qed.

Lemma plain_text u : plain (text u) = true.
Proof. unfold text. now rewrite !plain_app, !plain_f. Qed.

Lemma str2lsfRu_text u r : wf u = true -> sep r ->
  exists c, str2lsfRu (C (text u ++ r)) = ROk u c /\ c = Some r.
Proof.
  intros H Hr. unfold wf in H. cbn in H. bool_split. unfold str2lsfRu, text.
  rewrite <- !app_assoc. exists (Some r). split; [|reflexivity].
  repeat (erewrite bind_ok by eauto with elog; cbv beta). now destruct u.
Qed.

(** [str2lsfRu], then [line += ccount + 1]. *)
Definition str2lsfRu1 : R lsfRusage := u <- str2lsfRu ; adv1 ;> ret u.

Lemma str2lsfRu1_C u r : wf u = true -> sep r -> str2lsfRu1 (C (text u ++ r)) = ROk u (C r).
Proof.
  intros H Hr. destruct (str2lsfRu_text u r H Hr) as (c & E & ->). unfold str2lsfRu1.
  now erewrite bind_ok by exact E.
Qed.

#[export] Hint Resolve sep_text sep_if_text plain_text str2lsfRu1_C : elog.

End Rusage.
Import Rusage(lsfRusage, lsfRu2Str, str2lsfRu).
Export (hints) Rusage.

(** ** JOB_START and PRE_EXEC_START *)
Module JobStart.

Record jobStartLog := mk {
  jobId : Z; jStatus : Z; jobPid : Z; jobPGid : Z; hostFactor : spec_float; numExHosts : Z;
  execHosts : list cstr; queuePreCmd : option cstr; queuePostCmd : option cstr; jFlags : Z;
  idx : Z }.

Definition writeJobStart (l : jobStartLog) : W :=
  fprintf (fld_d (jobId l) ++ fld_d (jStatus l) ++ fld_d (jobPid l) ++ fld_d (jobPGid l)
    ++ fld_f 3 1 (hostFactor l) ++ fld_d (numExHosts l)) ;;
  wif (negb (numExHosts l =? 0)) (warray addQ (execHosts l) (numExHosts l)) ;;
  addQP (queuePreCmd l) ;;
  addQP (queuePostCmd l) ;;
  fprintf (fld_d (jFlags l)) ;;
  fprintf (fld_d (idx l)) ;;
  fprintf newline.

Definition readJobStart : R jobStartLog :=
  jobId <- scan_d ; jStatus <- scan_d ; jobPid <- scan_d ; jobPGid <- scan_d ;
  hostFactor <- scan_f ; numExHosts <- scan_d ; adv1 ;>
  (if numExHosts =? 0 then fail LSBE_EVENT_FORMAT else ret tt) ;>
  calloc numExHosts ;>
  execHosts <- rtimes (Z.to_nat numExHosts) (strip_buf MAXLINELEN) ;
  queuePreCmd <- saveQStr ;
  queuePostCmd <- saveQStr ;
  jFlags <- scan_d ; adv1 ;>
  idx <- scan_d ;
  ret (mk jobId jStatus jobPid jobPGid hostFactor numExHosts execHosts queuePreCmd queuePostCmd
          jFlags idx).

Definition wf (l : jobStartLog) : bool :=
  ints [jobId l; jStatus l; jobPid l; jobPGid l; jFlags l; idx l]
  && stable32 1 (hostFactor l) && negb (numExHosts l =? 0)
  && counted (numExHosts l) (execHosts l) && hosts MAXLINELEN (execHosts l)
  && ostr (queuePreCmd l) && ostr (queuePostCmd l).

Definition body (l : jobStartLog) : cstr :=
  fld_d (jobId l) ++ fld_d (jStatus l) ++ fld_d (jobPid l) ++ fld_d (jobPGid l)
  ++ fld_f 3 1 (hostFactor l) ++ fld_d (numExHosts l) ++ flds fld_q (execHosts l)
  ++ fld_o (queuePreCmd l) ++ fld_o (queuePostCmd l) ++ fld_d (jFlags l) ++ fld_d (idx l).

Lemma nonzero_ok n c : negb (n =? 0) = true ->
  (if n =? 0 then fail LSBE_EVENT_FORMAT else ret tt) c = ROk tt c.
Proof. now destruct (n =? 0). Qed.
#[local] Hint Resolve nonzero_ok : elog.

#[global, refine] Instance jobStart_codec : EventCodec jobStartLog := {|
  ev_write := writeJobStart; ev_read _ := readJobStart; ev_wf := wf;
  ev_norm _ l := l; ev_body := body; ev_pad := 0; ev_newline := true |}.
Proof. all: codec_law writeJobStart readJobStart wf body. Defined.

End JobStart.

(** ** JOB_STATUS: [jFlags] is not written *)
Module JobStatus.

Record jobStatusLog := mk {
  jobId : Z; jStatus : Z; reason : Z; subreasons : Z; cpuTime : spec_float; endTime : Z;
  ru : Z; lsfRusage_ : lsfRusage; jFlags : Z; exitStatus : Z; idx : Z }.

Definition writeJobStatus (l : jobStatusLog) : W :=
  fprintf (fld_d (jobId l) ++ fld_d (jStatus l) ++ fld_d (reason l) ++ fld_d (subreasons l)
    ++ fld_f 4 4 (cpuTime l) ++ fld_t (endTime l)) ;;
  fprintf (fld_d (ru l)) ;;
  wif (negb (ru l =? 0)) (lsfRu2Str (lsfRusage_ l)) ;;
  fprintf (fld_d (exitStatus l)) ;;
  fprintf (fld_d (idx l)) ;;
  fprintf newline.

Definition readJobStatus : R jobStatusLog :=
  jobId <- scan_d ; jStatus <- scan_d ; reason <- scan_d ; subreasons <- scan_d ;
  cpuTime <- scan_f ; tmpEnd <- scan_d ; ru <- scan_d ; adv1 ;>
  lsfRusage_ <- rif (negb (ru =? 0)) Rusage.str2lsfRu1 Rusage.zero ;
  exitStatus <- scan_d ; adv1 ;>
  idx <- scan_d ;
  ret (mk jobId jStatus reason subreasons cpuTime tmpEnd ru lsfRusage_ 0 exitStatus idx).

Definition wf (l : jobStatusLog) : bool :=
  ints [jobId l; jStatus l; reason l; subreasons l; ru l; exitStatus l; idx l]
  && stable32 4 (cpuTime l) && Rusage.wf (lsfRusage_ l).

Definition body (l : jobStatusLog) : cstr :=
  fld_d (jobId l) ++ fld_d (jStatus l) ++ fld_d (reason l) ++ fld_d (subreasons l)
  ++ fld_f 4 4 (cpuTime l) ++ fld_t (endTime l) ++ fld_d (ru l)
  ++ fld_if (negb (ru l =? 0)) (Rusage.text (lsfRusage_ l))
  ++ fld_d (exitStatus l) ++ fld_d (idx l).

Definition norm (l : jobStatusLog) : jobStatusLog :=
  mk (jobId l) (jStatus l) (reason l) (subreasons l) (cpuTime l) (wrap32 (endTime l)) (ru l)
     (if negb (ru l =? 0) then lsfRusage_ l else Rusage.zero) 0 (exitStatus l) (idx l).

Lemma rif_ru b u r : Rusage.wf u = true -> sep r ->
  rif b Rusage.str2lsfRu1 Rusage.zero (C (fld_if b (Rusage.text u) ++ r))
  = ROk (if b then u else Rusage.zero) (C r).
Proof. intros. apply rif_C. auto with elog. Qed.

Lemma writes_ru u : writes (lsfRu2Str u) (Rusage.text u).
Proof. apply writes_fprintf. Qed.
#[export] Hint Resolve rif_ru writes_ru : elog.

#[global, refine] Instance jobStatus_codec : EventCodec jobStatusLog := {|
  ev_write := writeJobStatus; ev_read _ := readJobStatus; ev_wf := wf;
  ev_norm _ l := norm l; ev_body := body; ev_pad := 0; ev_newline := true |}.
Proof.
  1-4: codec_law writeJobStatus readJobStatus wf body.
  intros _ l H. unfold wf in *. bool_split. unfold body, norm. cbn [jobId jStatus reason subreasons
    cpuTime endTime ru lsfRusage_ jFlags exitStatus idx]. rewrite H, H1, fld_t_wrap.
  now destruct (ru l =? 0).
Defined.

End JobStatus.
Export (hints) JobStatus.

(** ** JOB_FINISH: the end time is the event time, the CPU time is computed
    from the resource usage *)
Module JobFinish.

Record jobFinishLog := mk {
  jobId : Z; userId : Z; userName : cstr; options : Z; numProcessors : Z; jStatus : Z;
  submitTime : Z; beginTime : Z; termTime : Z; startTime : Z; endTime : Z; queue : cstr;
  resReq : option cstr; fromHost : cstr; cwd : cstr; inFile : cstr; outFile : cstr;
  errFile : cstr; inFileSpool : cstr; commandSpool : cstr; jobFile : cstr;
  numAskedHosts : Z; askedHosts : list cstr; hostFactor : spec_float; numExHosts : Z;
  execHosts : list cstr; cpuTime : spec_float; jobName : cstr; command : cstr;
  lsfRusage_ : lsfRusage; dependCond : option cstr; preExecCmd : option cstr;
  mailUser : option cstr; projectName : option cstr; exitStatus : Z; maxNumProcessors : Z;
  loginShell : option cstr; idx : Z; maxRMem : Z; maxRSwap : Z }.

Definition writeJobFinish (l : jobFinishLog) : W :=
  fprintf (fld_d (jobId l) ++ fld_d (userId l) ++ fld_d (options l) ++ fld_d (numProcessors l)
    ++ fld_t (submitTime l) ++ fld_t (beginTime l) ++ fld_t (termTime l)
    ++ fld_t (startTime l)) ;;
  addQ (userName l) ;;
  addQ (queue l) ;;
  addQP (resReq l) ;;
  addQP (dependCond l) ;;
  addQP (preExecCmd l) ;;
  addQ (fromHost l) ;;
  addQ (cwd l) ;;
  addQ (inFile l) ;;
  addQ (outFile l) ;;
  addQ (errFile l) ;;
  addQ (jobFile l) ;;
  fprintf (fld_d (numAskedHosts l)) ;;
  wif (negb (numAskedHosts l =? 0)) (warray addQ (askedHosts l) (numAskedHosts l)) ;;
  fprintf (fld_d (numExHosts l)) ;;
  wif (negb (numExHosts l =? 0)) (warray addQ (execHosts l) (numExHosts l)) ;;
  fprintf (fld_d (jStatus l) ++ fld_f 3 1 (hostFactor l)) ;;
  addQ (jobName l) ;;
  addQ (command l) ;;
  lsfRu2Str (lsfRusage_ l) ;;
  addQP (mailUser l) ;;
  addQP (projectName l) ;;
  fprintf (fld_d (exitStatus l)) ;;
  fprintf (fld_d (maxNumProcessors l)) ;;
  addQP (loginShell l) ;;
  fprintf (fld_d (idx l)) ;;
  fprintf (fld_d (maxRMem l)) ;;
  fprintf (fld_d (maxRSwap l)) ;;
  addQ (inFileSpool l) ;;
  addQ (commandSpool l) ;;
  fprintf newline.

(** [(float)(ru_utime + ru_stime)], negative values replaced by zero. *)
Definition cpu (u : lsfRusage) : spec_float :=
  let t := narrow (SFadd 53 1024 (Rusage.ru_utime u) (Rusage.ru_stime u)) in
  if SFltb t fzero then fzero else t.

Definition readJobFinish (eventTime : Z) : R jobFinishLog :=
  jobId <- scan_d ; userId <- scan_d ; options <- scan_d ; numProcessors <- scan_d ;
  tmpSubmit <- scan_d ; tmpBegin <- scan_d ; tmpTerm <- scan_d ; tmpStart <- scan_d ; adv1 ;>
  userName <- copyQStr MAX_LSB_NAME_LEN true ;
  queue <- copyQStr MAX_LSB_NAME_LEN true ;
  resReq <- saveQStr ;
  dependCond <- saveQStr ;
  preExecCmd <- saveQStr ;
  fromHost <- copyQStr MAXHOSTNAMELEN true ;
  cwd <- copyQStr MAXFILENAMELEN false ;
  inFile <- copyQStr MAXFILENAMELEN false ;
  outFile <- copyQStr MAXFILENAMELEN false ;
  errFile <- copyQStr MAXFILENAMELEN false ;
  jobFile <- copyQStr MAXFILENAMELEN true ;
  numAskedHosts <- scan_d ; adv1 ;>
  rif (0 <? numAskedHosts) (calloc numAskedHosts) tt ;>
  askedHosts <- rtimes (Z.to_nat numAskedHosts) (strip_buf MAXLINELEN) ;
  numExHosts <- scan_d ; adv1 ;>
  rif (0 <? numExHosts) (calloc numExHosts) tt ;>
  execHosts <- rtimes (Z.to_nat numExHosts) (strip_buf MAXLINELEN) ;
  jStatus <- scan_d ; hostFactor <- scan_f ; adv1 ;>
  jobName <- copyQStr MAX_CMD_DESC_LEN false ;
  command <- copyQStr MAX_CMD_DESC_LEN false ;
  ru <- Rusage.str2lsfRu1 ;
  mailUser <- saveQStr ;
  projectName <- saveQStr ;
  exitStatus <- scan_d ; adv1 ;>
  maxNumProcessors <- scan_d ; adv1 ;>
  loginShell <- saveQStr ;
  idx <- scan_d ; adv1 ;>
  maxRMem <- scan_d ; maxRSwap <- scan_d ; adv1 ;>
  inFileSpool <- copyQStr MAXFILENAMELEN false ;
  commandSpool <- copyQStr MAXFILENAMELEN false ;
  ret (mk jobId userId userName options numProcessors jStatus tmpSubmit tmpBegin tmpTerm
          tmpStart eventTime queue resReq fromHost cwd inFile outFile errFile inFileSpool
          commandSpool jobFile numAskedHosts askedHosts hostFactor numExHosts execHosts
          (cpu ru) jobName command ru dependCond preExecCmd mailUser projectName exitStatus
          maxNumProcessors loginShell idx maxRMem maxRSwap).

Definition wf (l : jobFinishLog) : bool :=
  ints [jobId l; userId l; options l; numProcessors l; jStatus l; exitStatus l;
        maxNumProcessors l; idx l; maxRMem l; maxRSwap l]
  && strok MAX_LSB_NAME_LEN true (userName l) && strok MAX_LSB_NAME_LEN true (queue l)
  && ostr (resReq l) && ostr (dependCond l) && ostr (preExecCmd l)
  && strok MAXHOSTNAMELEN true (fromHost l) && strok MAXFILENAMELEN false (cwd l)
  && strok MAXFILENAMELEN false (inFile l) && strok MAXFILENAMELEN false (outFile l)
  && strok MAXFILENAMELEN false (errFile l) && strok MAXFILENAMELEN true (jobFile l)
  && counted (numAskedHosts l) (askedHosts l) && hosts MAXLINELEN (askedHosts l)
  && counted (numExHosts l) (execHosts l) && hosts MAXLINELEN (execHosts l)
  && stable32 1 (hostFactor l) && strok MAX_CMD_DESC_LEN false (jobName l)
  && strok MAX_CMD_DESC_LEN false (command l) && Rusage.wf (lsfRusage_ l)
  && ostr (mailUser l) && ostr (projectName l) && ostr (loginShell l)
  && strok MAXFILENAMELEN false (inFileSpool l) && strok MAXFILENAMELEN false (commandSpool l).

Definition body (l : jobFinishLog) : cstr :=
  fld_d (jobId l) ++ fld_d (userId l) ++ fld_d (options l) ++ fld_d (numProcessors l)
  ++ fld_t (submitTime l) ++ fld_t (beginTime l) ++ fld_t (termTime l) ++ fld_t (startTime l)
  ++ fld_q (userName l) ++ fld_q (queue l) ++ fld_o (resReq l) ++ fld_o (dependCond l)
  ++ fld_o (preExecCmd l) ++ fld_q (fromHost l) ++ fld_q (cwd l) ++ fld_q (inFile l)
  ++ fld_q (outFile l) ++ fld_q (errFile l) ++ fld_q (jobFile l)
  ++ fld_d (numAskedHosts l) ++ flds fld_q (askedHosts l)
  ++ fld_d (numExHosts l) ++ flds fld_q (execHosts l)
  ++ fld_d (jStatus l) ++ fld_f 3 1 (hostFactor l) ++ fld_q (jobName l) ++ fld_q (command l)
  ++ Rusage.text (lsfRusage_ l) ++ fld_o (mailUser l) ++ fld_o (projectName l)
  ++ fld_d (exitStatus l) ++ fld_d (maxNumProcessors l) ++ fld_o (loginShell l)
  ++ fld_d (idx l) ++ fld_d (maxRMem l) ++ fld_d (maxRSwap l)
  ++ fld_q (inFileSpool l) ++ fld_q (commandSpool l).

Definition norm (eventTime : Z) (l : jobFinishLog) : jobFinishLog :=
  mk (jobId l) (userId l) (userName l) (options l) (numProcessors l) (jStatus l)
     (wrap32 (submitTime l)) (wrap32 (beginTime l)) (wrap32 (termTime l))
     (wrap32 (startTime l)) eventTime (queue l) (resReq l) (fromHost l) (cwd l) (inFile l)
     (outFile l) (errFile l) (inFileSpool l) (commandSpool l) (jobFile l) (numAskedHosts l)
     (askedHosts l) (hostFactor l) (numExHosts l) (execHosts l) (cpu (lsfRusage_ l))
     (jobName l) (command l) (lsfRusage_ l) (dependCond l) (preExecCmd l) (mailUser l)
     (projectName l) (exitStatus l) (maxNumProcessors l) (loginShell l) (idx l) (maxRMem l)
     (maxRSwap l).

#[global, refine] Instance jobFinish_codec : EventCodec jobFinishLog := {|
  ev_write := writeJobFinish; ev_read := readJobFinish; ev_wf := wf;
  ev_norm := norm; ev_body := body; ev_pad := 0; ev_newline := true |}.
Proof. all: codec_law writeJobFinish readJobFinish wf body. Defined.

End JobFinish.
