(* ===== verification/EventsSubmit.v ===== *)
(** * Events of a submission: JOB_NEW, JOB_MODIFY, JOB_MODIFY2
    (lsbatch/lib/lsb.log.c, with convertRLimit of lsbatch/lib/lsb.misc.c)

    Many fields of these records are written only when a bit of [options] or
    [options2] is set. *)
From Stdlib Require Import ZArith Ascii String List Bool Lia.
From Corelib Require Import SpecFloat.
From S2P Require Import Prelude CNum Words LogStream EventCodec EventsRun.
Import ListNotations.
Local Open Scope Z_scope.
Local Open Scope log_scope.

(** ** Submission options: lsbatch.h, daemonout.h *)

Definition SUB_JOB_NAME : Z := 0x01.
Definition SUB_QUEUE : Z := 0x02.
Definition SUB_HOST : Z := 0x04.
Definition SUB_IN_FILE : Z := 0x08.
Definition SUB_OUT_FILE : Z := 0x10.
Definition SUB_ERR_FILE : Z := 0x20.
Definition SUB_CHKPNT_PERIOD : Z := 0x400.
Definition SUB_CHKPNT_DIR : Z := 0x800.
Definition SUB_HOST_SPEC : Z := 0x10000.
Definition SUB_DEPEND_COND : Z := 0x20000.
Definition SUB_RES_REQ : Z := 0x40000.
Definition SUB_OTHER_FILES : Z := 0x80000.
Definition SUB_PRE_EXEC : Z := 0x100000.
Definition SUB_LOGIN_SHELL : Z := 0x200000.
Definition SUB_MAIL_USER : Z := 0x400000.
Definition SUB_PROJECT_NAME : Z := 0x2000000.
Definition SUB_INTERACTIVE : Z := 0x4000000.
Definition SUB_RLIMIT_UNIT_IS_KB : Z := 0x80000000.
Definition SUB2_MODIFY_CMD : Z := 0x02.
Definition SUB2_BSUB_BLOCK : Z := 0x04.
Definition SUB2_IN_FILE_SPOOL : Z := 0x80.
Definition SUB2_JOB_CMD_SPOOL : Z := 0x100.
Definition SUB2_JOB_PRIORITY : Z := 0x200.

Arguments has : simpl never.
Arguments subNewLine_ : simpl never.

(** ** Optional fields *)

Lemma implb_elim a b : implb a b = true -> a = true -> b = true.
Proof. now destruct a. Qed.

Lemma rif_save b o r : implb b (ostr o) = true -> sep r ->
  rif b saveQStr None (C (fld_if b (fld_o o) ++ r)) = ROk (if b then o else None) (C r).
Proof. intros Hb Hr. apply rif_C. intros E. apply saveQStr_o; eauto using implb_elim. Qed.

Lemma rif_d b z d r : int32b z = true -> sep r ->
  rif b scan_d1 d (C (fld_if b (fld_d z) ++ r)) = ROk (if b then z else d) (C r).
Proof. intros. apply rif_C. auto with elog. Qed.

Lemma writes_if_o b o : implb b (ostr o) = true -> writes (wif b (addQP o)) (fld_if b (fld_o o)).
Proof. intros Hb. apply writes_if. intros. apply writes_o. eauto using implb_elim. Qed.

Lemma plain_if_o b o : implb b (ostr o) = true -> plain (fld_if b (fld_o o)) = true.
Proof. intros Hb. apply plain_if. intros. apply plain_o. eauto using implb_elim. Qed.

Lemma lineok_if_o a b o : lineok a = true -> implb b (ostr o) = true ->
  lineok (a ++ fld_if b (fld_o o)) = true.
Proof. intros Ha Hb. apply lineok_opt; [exact Ha|]. intros. apply lineok_o. eauto using implb_elim. Qed.

(** What is not written does not matter for the layout. *)
Lemma fld_if_when (b : bool) o : fld_if b (fld_o (if b then o else None)) = fld_if b (fld_o o).
Proof. now destruct b. Qed.
Lemma implb_when (b : bool) o : implb b (ostr (if b then o else None)) = implb b (ostr o).
Proof. now destruct b. Qed.
Lemma implb_block {A} (b : bool) n (l : list A) (f : A -> bool) :
  implb b (counted (if b then n else 0) (if b then l else []) && forallb f (if b then l else []))
  = implb b (counted n l && forallb f l).
Proof. now destruct b. Qed.
Lemma int32b_if (b : bool) z : int32b z = true -> int32b (if b then z else 0) = true.
Proof. now destruct b. Qed.
Lemma option_map_when {A B} (f : A -> B) (b : bool) o :
  option_map f (if b then o else None) = if b then option_map f o else None.
Proof. now destruct b. Qed.

Lemma subNewLine_twice s : subNewLine_ (subNewLine_ s) = subNewLine_ s.
Proof.
  assert (F : forall t, subNewLine_ t = filter (fun c => negb (Ascii.eqb c NL)) t).
  { intros t. unfold subNewLine_. rewrite <- (app_nil_r t) at 2.
    now rewrite subNewLine_loop_filter, app_nil_r. }
  rewrite !F. induction s as [|c s IH]; [reflexivity|]. cbn.
  destruct (negb (Ascii.eqb c NL)) eqn:E; [cbn; now rewrite E, IH|exact IH].
Qed.

Lemma map_subNewLine_twice o :
  option_map subNewLine_ (option_map subNewLine_ o) = option_map subNewLine_ o.
Proof. destruct o; [|reflexivity]. cbn. now rewrite subNewLine_twice. Qed.

#[export] Hint Resolve rif_save rif_d writes_if_o plain_if_o : elog.

(** ** Transferred files

    Their names are printed with a plain [%s], and read with [copyQStr]. *)
Module XFile.

Record xFile := mk { subFn : cstr; execFn : cstr; options : Z }.

Definition fld_raw (s : cstr) : cstr := SP :: QT :: s ++ [QT].

Definition writexFile (x : xFile) : W :=
  fprintf (fld_raw (subFn x) ++ fld_raw (execFn x) ++ fld_d (options x)).

Definition readxFile : R xFile :=
  subFn <- copyQStr MAXFILENAMELEN false ;
  execFn <- copyQStr MAXFILENAMELEN false ;
  options <- scan_d1 ;
  ret (mk subFn execFn options).

(** A name without quotation marks is read back. *)
Definition wf (x : xFile) : bool :=
  strok MAXFILENAMELEN false (subFn x) && noquote (subFn x)
  && strok MAXFILENAMELEN false (execFn x) && noquote (execFn x) && int32b (options x).

Definition text (x : xFile) : cstr := fld_q (subFn x) ++ fld_q (execFn x) ++ fld_d (options x).

Lemma esc_noquote s : noquote s = true -> esc s = s.
Proof.
  induction s as [|c s IH]; [reflexivity|]. cbn. intros. bool_split.
  destruct (Ascii.eqb c QT); [discriminate|]. now rewrite IH.
Qed.

Lemma fld_raw_q s : noquote s = true -> fld_raw s = fld_q s.
Proof. intros H. unfold fld_q, quote. now rewrite esc_noquote. Qed.

Lemma writes_xf x : wf x = true -> writes (writexFile x) (text x).
Proof.
  unfold wf. intros. bool_split. unfold writexFile. rewrite !fld_raw_q by assumption.
  apply writes_fprintf.
Qed.

Lemma readxFile_C x r : wf x = true -> sep r -> readxFile (C (text x ++ r)) = ROk x (C r).
Proof.
  unfold wf. intros. bool_split. unfold readxFile, text. rewrite <- !app_assoc.
  repeat (erewrite bind_ok by eauto with elog; cbv beta). now destruct x.
Qed.

Lemma sep_xtext x r : sep (text x ++ r).
Proof. reflexivity. Qed.

Lemma plain_xf x : wf x = true -> plain (text x) = true.
Proof.
  unfold wf. intros. bool_split. unfold text. rewrite !plain_app, plain_d, !plain_q;
  eauto with elog.
Qed.

Lemma writes_xfs n l : counted n l = true -> forallb wf l = true ->
  writes (warray writexFile l n) (flds text l).
Proof.
  rewrite forallb_forall. intros Hn Hl. apply writes_array; [now apply counted_len|].
  apply Forall_forall. auto using writes_xf.
Qed.

Lemma read_xfs n l r : counted n l = true -> forallb wf l = true -> sep r ->
  rtimes (Z.to_nat n) readxFile (C (flds text l ++ r)) = ROk l (C r).
Proof.
  rewrite forallb_forall. intros Hn Hl Hr. apply rtimes_C; auto using counted_nat, sep_xtext.
  apply Forall_forall. auto using readxFile_C.
Qed.

Lemma sep_xfs l r : sep r -> sep (flds text l ++ r).
Proof. apply sep_flds, sep_xtext. Qed.

Lemma plain_xfs l : forallb wf l = true -> plain (flds text l) = true.
Proof. rewrite forallb_forall. intros H. apply plain_flds. auto using plain_xf. Qed.

#[export] Hint Resolve writes_xfs read_xfs sep_xfs plain_xfs : elog.

End XFile.
Import XFile(xFile).
Export (hints) XFile.

(** ** Resource limits: convertRLimit of lsb.misc.c *)

Definition LSF_RLIMIT_FSIZE : nat := 1.
Definition LSF_RLIMIT_DATA : nat := 2.
Definition LSF_RLIMIT_STACK : nat := 3.
Definition LSF_RLIMIT_CORE : nat := 4.
Definition LSF_RLIMIT_RSS : nat := 5.
Definition LSF_RLIMIT_VMEM : nat := 8.

Definition in_bytes (i : nat) : bool :=
  existsb (Nat.eqb i)
    [LSF_RLIMIT_FSIZE; LSF_RLIMIT_DATA; LSF_RLIMIT_STACK; LSF_RLIMIT_CORE; LSF_RLIMIT_RSS;
     LSF_RLIMIT_VMEM].

Arguments in_bytes : simpl never.

(** The limits from index [i] on. [*= 1024] on an [int] wraps on the supported
    machines. *)
Fixpoint convertRLimit_from (i : nat) (pRLimits : list Z) (toKb : bool) : list Z :=
  match pRLimits with
  | [] => []
  | x :: l =>
      (if in_bytes i && (0 <? x) then if toKb then Z.quot x 1024 else wrap32 (x * 1024) else x)
      :: convertRLimit_from (S i) l toKb
  end.

Definition convertRLimit (pRLimits : list Z) (toKb : bool) : list Z :=
  convertRLimit_from 0 pRLimits toKb.

(** Limits that can be converted to bytes without overflow. *)
Definition limits_fit (l : list Z) : bool :=
  forallb (fun x => int32b x && (x * 1024 <? 2 ^ 31)) l.

Lemma convertRLimit_roundtrip_from i l : limits_fit l = true ->
  convertRLimit_from i (convertRLimit_from i l false) true = l.
Proof.
  revert i; induction l as [|x l IH]; intros i H; [reflexivity|]. cbn in H |- *. bool_split.
  rewrite IH by assumption. f_equal. destruct (in_bytes i) eqn:E; [|reflexivity].
  cbn [andb]. destruct (Z.ltb_spec 0 x) as [P|P]; [|now destruct (Z.ltb_spec 0 x); [lia|]].
  rewrite wrap32_id by (unfold int32; lia).
  destruct (Z.ltb_spec 0 (x * 1024)); [|lia]. apply Z.quot_mul. lia.
Qed.

Lemma convertRLimit_ints i l : limits_fit l = true -> ints (convertRLimit_from i l false) = true.
Proof.
  revert i; induction l as [|x l IH]; intros i H; [reflexivity|]. cbn in H |- *. bool_split.
  apply andb_true_iff. split; [|apply IH; assumption].
  destruct (in_bytes i && (0 <? x)); [apply int32b_spec, wrap32_int32|assumption].
Qed.

Lemma limits_fit_ints l : limits_fit l = true -> ints l = true.
Proof.
  unfold limits_fit, ints. rewrite !forallb_forall. intros H x Hx. apply H in Hx. now bool_split.
Qed.

Lemma convertRLimit_length i l b : length (convertRLimit_from i l b) = length l.
Proof. revert i; induction l; intros i; cbn; auto. Qed.

(** ** JOB_NEW and JOB_MODIFY *)
Module JobNew.

Record jobNewLog := mk {
  jobId : Z; userId : Z; userName : cstr; options : Z; options2 : Z; numProcessors : Z;
  submitTime : Z; beginTime : Z; termTime : Z; sigValue : Z; chkpntPeriod : Z; restartPid : Z;
  rLimits : list Z; hostSpec : cstr; hostFactor : spec_float; umask : Z; queue : cstr;
  resReq : option cstr; fromHost : cstr; cwd : cstr; chkpntDir : cstr; inFile : cstr;
  outFile : cstr; errFile : cstr; inFileSpool : cstr; commandSpool : cstr;
  jobSpoolDir : cstr; subHomeDir : cstr; jobFile : cstr; numAskedHosts : Z;
  askedHosts : list cstr; dependCond : option cstr; jobName : cstr; command : cstr; nxf : Z;
  xf : list xFile; preExecCmd : option cstr; mailUser : option cstr;
  projectName : option cstr; niosPort : Z; maxNumProcessors : Z; schedHostType : option cstr;
  loginShell : option cstr; idx : Z; userPriority : Z }.

Definition kb (l : jobNewLog) : bool := has (options l) SUB_RLIMIT_UNIT_IS_KB.

(** The changes the writer makes to the caller's record: [convertRLimit] and
    [subNewLine_] work in place. *)
Definition prepare (l : jobNewLog) : jobNewLog :=
  mk (jobId l) (userId l) (userName l) (options l) (options2 l) (numProcessors l)
     (submitTime l) (beginTime l) (termTime l) (sigValue l) (chkpntPeriod l) (restartPid l)
     (if kb l then rLimits l else convertRLimit (rLimits l) false)
     (hostSpec l) (hostFactor l) (umask l) (queue l) (option_map subNewLine_ (resReq l))
     (fromHost l) (cwd l) (chkpntDir l) (inFile l) (outFile l) (errFile l) (inFileSpool l)
     (commandSpool l) (jobSpoolDir l) (subHomeDir l) (jobFile l) (numAskedHosts l)
     (askedHosts l) (option_map subNewLine_ (dependCond l)) (jobName l)
     (subNewLine_ (command l)) (nxf l) (xf l) (option_map subNewLine_ (preExecCmd l))
     (option_map subNewLine_ (mailUser l)) (projectName l) (niosPort l) (maxNumProcessors l)
     (schedHostType l) (loginShell l) (idx l) (userPriority l).

Definition print (l : jobNewLog) : W :=
  fprintf (fld_d (jobId l) ++ fld_d (userId l) ++ fld_d (options l) ++ fld_d (numProcessors l)
    ++ fld_t (submitTime l) ++ fld_t (beginTime l) ++ fld_t (termTime l) ++ fld_d (sigValue l)
    ++ fld_d (chkpntPeriod l) ++ fld_d (restartPid l)) ;;
  addQ (userName l) ;;
  warray (fun x => fprintf (fld_d x)) (rLimits l) (Z.of_nat LSF_RLIM_NLIMITS) ;;
  addQ (hostSpec l) ;;
  fprintf (fld_f 6 2 (hostFactor l)) ;;
  fprintf (fld_d (umask l)) ;;
  addQ (queue l) ;;
  addQP (resReq l) ;;
  addQ (fromHost l) ;;
  addQ (cwd l) ;;
  addQ (chkpntDir l) ;;
  addQ (inFile l) ;;
  addQ (outFile l) ;;
  addQ (errFile l) ;;
  addQ (subHomeDir l) ;;
  addQ (jobFile l) ;;
  fprintf (fld_d (numAskedHosts l)) ;;
  wif (negb (numAskedHosts l =? 0)) (warray addQ (askedHosts l) (numAskedHosts l)) ;;
  addQP (dependCond l) ;;
  addQP (preExecCmd l) ;;
  addQ (jobName l) ;;
  addQ (command l) ;;
  fprintf (fld_d (nxf l)) ;;
  warray XFile.writexFile (xf l) (nxf l) ;;
  addQP (mailUser l) ;;
  addQP (projectName l) ;;
  wif (has (options l) SUB_INTERACTIVE) (fprintf (fld_d (niosPort l))) ;;
  fprintf (fld_d (maxNumProcessors l)) ;;
  addQP (schedHostType l) ;;
  addQP (loginShell l) ;;
  fprintf (fld_d (options2 l)) ;;
  fprintf (fld_d (idx l)) ;;
  wif (has (options2 l) SUB2_BSUB_BLOCK) (fprintf (fld_d (niosPort l))) ;;
  addQ (inFileSpool l) ;;
  addQ (commandSpool l) ;;
  addQ (jobSpoolDir l) ;;
  fprintf (fld_d (userPriority l)) ;;
  fprintf newline.

Definition writeJobNew (l : jobNewLog) : W := print (prepare l).

(** [sscanf] that leaves [line] in place and gives the position behind the
    text it matched, and [line += ccount]. *)
Definition look {A} (m : R A) : R (A * cursor) := fun c =>
  match m c with ROk a c' => ROk (a, c') c | RErr e => RErr e | RFault x => RFault x end.
Definition seek (c : cursor) : R unit := fun _ => ROk tt c.

Definition scan_dd : R (Z * Z) := a <- scan_d ; b <- scan_d ; ret (a, b).

(** With [SUB2_BSUB_BLOCK], the port behind [options2] and [idx]. *)
Definition read_block (o2i : Z * Z * cursor) (niosPort : Z) : R Z :=
  rif (has (fst (fst o2i)) SUB2_BSUB_BLOCK)
    (seek (snd o2i) ;>
     e <- at_end ;
     rif (negb e) (peek scan_d) niosPort)
    niosPort.

Definition readJobNew : R jobNewLog :=
  jobId <- scan_d ; userId <- scan_d ; options <- scan_d ; numProcessors <- scan_d ;
  tmpSubmit <- scan_d ; tmpBegin <- scan_d ; tmpTerm <- scan_d ; sigValue <- scan_d ;
  chkpntPeriod <- scan_d ; restartPid <- scan_d ; adv1 ;>
  userName <- copyQStr MAX_LSB_NAME_LEN true ;
  rLimits <- rtimes LSF_RLIM_NLIMITS scan_d1 ;
  hostSpec <- copyQStr MAXHOSTNAMELEN false ;
  hostFactor <- scan_f ; umask <- scan_d ; adv1 ;>
  queue <- copyQStr MAX_LSB_NAME_LEN true ;
  resReq <- saveQStr ;
  fromHost <- copyQStr MAXHOSTNAMELEN true ;
  cwd <- copyQStr MAXFILENAMELEN false ;
  chkpntDir <- copyQStr MAXFILENAMELEN false ;
  inFile <- copyQStr MAXFILENAMELEN false ;
  outFile <- copyQStr MAXFILENAMELEN false ;
  errFile <- copyQStr MAXFILENAMELEN false ;
  subHomeDir <- copyQStr MAXFILENAMELEN false ;
  jobFile <- copyQStr MAXFILENAMELEN true ;
  numAskedHosts <- scan_d ; adv1 ;>
  askedHosts <- rif (0 <? numAskedHosts)
    (calloc numAskedHosts ;> rtimes (Z.to_nat numAskedHosts) (strip_buf MAXLINELEN)) [] ;
  dependCond <- saveQStr ;
  preExecCmd <- saveQStr ;
  jobName <- copyQStr MAX_CMD_DESC_LEN false ;
  command <- copyQStr MAX_CMD_DESC_LEN false ;
  nxf <- scan_d ; adv1 ;>
  rif (0 <? nxf) (calloc nxf) tt ;>
  xf <- rtimes (Z.to_nat nxf) XFile.readxFile ;
  mailUser <- saveQStr ;
  projectName <- saveQStr ;
  niosPort <- rif (has options SUB_INTERACTIVE) scan_d1 0 ;
  maxNumProcessors <- scan_d ; adv1 ;>
  schedHostType <- saveQStr ;
  loginShell <- saveQStr ;
  o2i <- look scan_dd ;
  niosPort <- read_block o2i niosPort ;
  inFileSpool <- copyQStr MAXFILENAMELEN false ;
  commandSpool <- copyQStr MAXFILENAMELEN false ;
  jobSpoolDir <- copyQStr MAXPATHLEN false ;
  userPriority <- scan_d ;
  ret (mk jobId userId userName options (fst (fst o2i)) numProcessors tmpSubmit tmpBegin tmpTerm
          sigValue chkpntPeriod restartPid
          (if has options SUB_RLIMIT_UNIT_IS_KB then rLimits else convertRLimit rLimits true)
          hostSpec hostFactor umask queue resReq fromHost cwd chkpntDir inFile outFile errFile
          inFileSpool commandSpool jobSpoolDir subHomeDir jobFile numAskedHosts askedHosts
          dependCond jobName command nxf xf preExecCmd mailUser projectName niosPort
          maxNumProcessors schedHostType loginShell (snd (fst o2i)) userPriority).

(** The side condition and the layout are those of the prepared record. *)
Definition wf_prepared (l : jobNewLog) : bool :=
  ints [jobId l; userId l; options l; numProcessors l; sigValue l; chkpntPeriod l; restartPid l;
        umask l; niosPort l; maxNumProcessors l; options2 l; idx l; userPriority l]
  && ints (rLimits l) && (length (rLimits l) =? LSF_RLIM_NLIMITS)%nat
  && strok MAX_LSB_NAME_LEN true (userName l) && strok MAXHOSTNAMELEN false (hostSpec l)
  && stable32 2 (hostFactor l) && strok MAX_LSB_NAME_LEN true (queue l) && ostr (resReq l)
  && strok MAXHOSTNAMELEN true (fromHost l) && strok MAXFILENAMELEN false (cwd l)
  && strok MAXFILENAMELEN false (chkpntDir l) && strok MAXFILENAMELEN false (inFile l)
  && strok MAXFILENAMELEN false (outFile l) && strok MAXFILENAMELEN false (errFile l)
  && strok MAXFILENAMELEN false (subHomeDir l) && strok MAXFILENAMELEN true (jobFile l)
  && counted (numAskedHosts l) (askedHosts l) && hosts MAXLINELEN (askedHosts l)
  && ostr (dependCond l) && ostr (preExecCmd l) && strok MAX_CMD_DESC_LEN false (jobName l)
  && strok MAX_CMD_DESC_LEN false (command l) && counted (nxf l) (xf l)
  && forallb XFile.wf (xf l) && ostr (mailUser l) && ostr (projectName l)
  && ostr (schedHostType l) && ostr (loginShell l) && strok MAXFILENAMELEN false (inFileSpool l)
  && strok MAXFILENAMELEN false (commandSpool l) && strok MAXPATHLEN false (jobSpoolDir l).

Definition wf (l : jobNewLog) : bool :=
  wf_prepared (prepare l) && (kb l || limits_fit (rLimits l)).

Definition body_prepared (l : jobNewLog) : cstr :=
  fld_d (jobId l) ++ fld_d (userId l) ++ fld_d (options l) ++ fld_d (numProcessors l)
  ++ fld_t (submitTime l) ++ fld_t (beginTime l) ++ fld_t (termTime l) ++ fld_d (sigValue l)
  ++ fld_d (chkpntPeriod l) ++ fld_d (restartPid l) ++ fld_q (userName l)
  ++ flds fld_d (rLimits l) ++ fld_q (hostSpec l) ++ fld_f 6 2 (hostFactor l)
  ++ fld_d (umask l) ++ fld_q (queue l) ++ fld_o (resReq l) ++ fld_q (fromHost l)
  ++ fld_q (cwd l) ++ fld_q (chkpntDir l) ++ fld_q (inFile l) ++ fld_q (outFile l)
  ++ fld_q (errFile l) ++ fld_q (subHomeDir l) ++ fld_q (jobFile l)
  ++ fld_d (numAskedHosts l) ++ flds fld_q (askedHosts l) ++ fld_o (dependCond l)
  ++ fld_o (preExecCmd l) ++ fld_q (jobName l) ++ fld_q (command l)
  ++ fld_d (nxf l) ++ flds XFile.text (xf l) ++ fld_o (mailUser l) ++ fld_o (projectName l)
  ++ fld_if (has (options l) SUB_INTERACTIVE) (fld_d (niosPort l)) ++ fld_d (maxNumProcessors l)
  ++ fld_o (schedHostType l) ++ fld_o (loginShell l) ++ fld_d (options2 l) ++ fld_d (idx l)
  ++ fld_if (has (options2 l) SUB2_BSUB_BLOCK) (fld_d (niosPort l))
  ++ fld_q (inFileSpool l) ++ fld_q (commandSpool l) ++ fld_q (jobSpoolDir l)
  ++ fld_d (userPriority l).

Definition body (l : jobNewLog) : cstr := body_prepared (prepare l).

(** What the reader rebuilds from a prepared record, the limits apart. *)
Definition norm_prepared (rl : list Z) (l : jobNewLog) : jobNewLog :=
  mk (jobId l) (userId l) (userName l) (options l) (options2 l) (numProcessors l)
     (wrap32 (submitTime l)) (wrap32 (beginTime l)) (wrap32 (termTime l)) (sigValue l)
     (chkpntPeriod l) (restartPid l) rl (hostSpec l) (hostFactor l) (umask l) (queue l)
     (resReq l) (fromHost l) (cwd l) (chkpntDir l) (inFile l) (outFile l) (errFile l)
     (inFileSpool l) (commandSpool l) (jobSpoolDir l) (subHomeDir l) (jobFile l)
     (numAskedHosts l) (askedHosts l) (dependCond l) (jobName l) (command l) (nxf l) (xf l)
     (preExecCmd l) (mailUser l) (projectName l)
     (if has (options2 l) SUB2_BSUB_BLOCK then niosPort l
      else if has (options l) SUB_INTERACTIVE then niosPort l else 0)
     (maxNumProcessors l) (schedHostType l) (loginShell l) (idx l) (userPriority l).

Definition norm (l : jobNewLog) : jobNewLog := norm_prepared (rLimits l) (prepare l).

Lemma look_ok a b r : int32b a = true -> int32b b = true -> sep r ->
  look scan_dd (C (fld_d a ++ fld_d b ++ r)) = ROk (a, b, Some r) (C (fld_d a ++ fld_d b ++ r)).
Proof.
  intros. unfold look, scan_dd. erewrite bind_ok by eauto with elog.
  now erewrite bind_ok by eauto with elog.
Qed.

(** The port and the string behind it, with [line] still before [options2] when
    no port was written. *)
Lemma block_spool maxLen nonNil a b n p s r :
  int32b n = true -> strok maxLen nonNil s = true -> sep r ->
  let blk := has a SUB2_BSUB_BLOCK in
  let t := fld_if blk (fld_d n) ++ fld_q s ++ r in
  exists c, read_block (a, b, Some t) p (C (fld_d a ++ fld_d b ++ t)) = ROk (if blk then n else p) c
    /\ copyQStr maxLen nonNil c = ROk s (C r).
Proof.
  intros Hn Hs Hr blk t. unfold read_block. cbn [fst snd]. fold blk. subst t.
  destruct blk; cbn [rif fld_if app].
  - eexists. split.
    + erewrite bind_ok by reflexivity. erewrite bind_ok by reflexivity. cbn [negb rif].
      eapply peek_ok. apply scan_d_S; auto with elog.
    + unfold fld_d, fld_q.
      replace ((SP :: dec n) ++ (SP :: quote s) ++ r) with ((SP :: dec n ++ [SP]) ++ quote s ++ r)
        by (cbn [app]; now rewrite <- app_assoc).
      apply copyQStr_at; [assumption|exact (noquote_dec n)|assumption].
  - eexists. split; [reflexivity|]. rewrite C_d. unfold fld_d, fld_q.
    replace (dec a ++ (SP :: dec b) ++ (SP :: quote s) ++ r)
      with (((dec a ++ [SP]) ++ (dec b ++ [SP])) ++ quote s ++ r)
      by now rewrite <- !app_assoc.
    apply copyQStr_at; auto. unfold noquote. rewrite forallb_app. apply andb_true_iff.
    split; apply noquote_dec.
Qed.

Lemma print_body l : wf_prepared l = true -> writes (print l) (body_prepared l ++ newline).
Proof.
  intros H. unfold wf_prepared, ints in H. cbn [forallb] in H. bool_split. unfold print, body_prepared.
  match goal with H : (length _ =? _)%nat = true |- _ => apply Nat.eqb_eq in H end.
  assert (W : writes (warray (fun x => fprintf (fld_d x)) (rLimits l) (Z.of_nat LSF_RLIM_NLIMITS))
                (flds fld_d (rLimits l))) by (apply writes_ds; congruence).
  assert (V : forall b z, writes (wif b (fprintf (fld_d z))) (fld_if b (fld_d z)))
    by (intros; apply writes_if; auto with elog).
  wr.
Qed.

Lemma read_prepared l : wf_prepared l = true -> exists c,
  readJobNew (C (body_prepared l))
  = ROk (norm_prepared
      (if kb l then rLimits l else convertRLimit (rLimits l) true) l) c.
Proof.
  intros H. rewrite <- (app_nil_r (body_prepared l)).
  unfold wf_prepared, ints in H. cbn [forallb] in H. bool_split.
  match goal with H : (length _ =? _)%nat = true |- _ => apply Nat.eqb_eq, eq_sym in H end.
  unfold readJobNew, body_prepared. rewrite <- !app_assoc. rd.
  eapply rd_step; [apply look_ok; eauto 25 with elog|cbv beta].
  edestruct (block_spool MAXFILENAMELEN false (options2 l) (idx l) (niosPort l)
    (if has (options l) SUB_INTERACTIVE then niosPort l else 0) (inFileSpool l))
    as (c & Eb & Es); [| | |eapply rd_step; [exact Eb|]; eapply rd_step; [exact Es|]];
    eauto 25 with elog.
  cbv beta. rd. destruct l. eexists. reflexivity.
Qed.

Lemma line_prepared l : wf_prepared l = true -> lineok (body_prepared l) = true.
Proof.
  intros H. unfold wf_prepared, ints in H. cbn [forallb] in H. bool_split. unfold body_prepared.
  assert (F : plain (flds fld_d (rLimits l)) = true) by (apply plain_flds; auto using plain_d).
  line_ok.
Qed.

Lemma limits_back l : kb l || limits_fit (rLimits l) = true ->
  (if kb l then rLimits (prepare l) else convertRLimit (rLimits (prepare l)) true) = rLimits l.
Proof.
  intros H. cbn. destruct (kb l); [reflexivity|]. now apply convertRLimit_roundtrip_from.
Qed.

Lemma prepare_norm l :
  prepare (norm l) = norm_prepared (rLimits (prepare l)) (prepare l).
Proof.
  unfold norm, norm_prepared, prepare, kb. cbn. rewrite !map_subNewLine_twice.
  now rewrite subNewLine_twice.
Qed.

Lemma norm_prepared_again l : wf_prepared l = true ->
  wf_prepared (norm_prepared (rLimits l) l) = true
  /\ body_prepared (norm_prepared (rLimits l) l) = body_prepared l.
Proof.
  intros H. unfold wf_prepared, body_prepared, ints in *. cbn in *. split.
  - destruct (has (options2 l) _); [exact H|]. destruct (has (options l) _); [exact H|].
    rewrite !andb_true_iff in *. tauto.
  - rewrite !fld_t_wrap. now destruct (has (options2 l) _), (has (options l) _).
Qed.

#[global, refine] Instance jobNew_codec : EventCodec jobNewLog := {|
  ev_write := writeJobNew; ev_read _ := readJobNew; ev_wf := wf;
  ev_norm _ l := norm l; ev_body := body; ev_pad := 0; ev_newline := true |}.
Proof.
  - intros l H. unfold wf in H. bool_split. now apply print_body.
  - intros _ l H. unfold wf in H. bool_split. destruct (read_prepared (prepare l) H) as [c E].
    exists c. unfold body. rewrite E. unfold norm. f_equal.
    exact (f_equal (fun rl => norm_prepared rl (prepare l)) (limits_back l H0)).
  - intros l H. unfold wf in H. bool_split. now apply line_prepared.
  - reflexivity.
  - intros _ l H. unfold wf in H. bool_split. unfold wf, body. rewrite prepare_norm.
    destruct (norm_prepared_again (prepare l) H) as [-> ->]. split; [exact H0|reflexivity].
Defined.

End JobNew.

(** ** JOB_MODIFY2 *)
Module JobMod.

Record jobModLog := mk {
  jobIdStr : option cstr; options : Z; options2 : Z; delOptions : Z; delOptions2 : Z;
  userId : Z; userName : option cstr; submitTime : Z; umask : Z; numProcessors : Z;
  beginTime : Z; termTime : Z; sigValue : Z; restartPid : Z; jobName : option cstr;
  queue : option cstr; numAskedHosts : Z; askedHosts : list (option cstr);
  resReq : option cstr; rLimits : list Z; hostSpec : option cstr; dependCond : option cstr;
  subHomeDir : option cstr; inFile : option cstr; outFile : option cstr;
  errFile : option cstr; command : option cstr; inFileSpool : option cstr;
  commandSpool : option cstr; chkpntPeriod : Z; chkpntDir : option cstr; nxf : Z;
  xf : list xFile; jobFile : option cstr; fromHost : option cstr; cwd : option cstr;
  preExecCmd : option cstr; mailUser : option cstr; projectName : option cstr;
  niosPort : Z; maxNumProcessors : Z; loginShell : option cstr; schedHostType : option cstr;
  userPriority : Z }.

(** The in-place changes of the writer: [subNewLine_] on two strings. *)
Definition prepare (l : jobModLog) : jobModLog :=
  mk (jobIdStr l) (options l) (options2 l) (delOptions l) (delOptions2 l) (userId l)
     (userName l) (submitTime l) (umask l) (numProcessors l) (beginTime l) (termTime l)
     (sigValue l) (restartPid l) (jobName l) (queue l) (numAskedHosts l) (askedHosts l)
     (resReq l) (rLimits l) (hostSpec l) (option_map subNewLine_ (dependCond l))
     (subHomeDir l) (inFile l) (outFile l) (errFile l) (command l) (inFileSpool l)
     (commandSpool l) (chkpntPeriod l) (chkpntDir l) (nxf l) (xf l) (jobFile l) (fromHost l)
     (cwd l) (option_map subNewLine_ (preExecCmd l)) (mailUser l) (projectName l) (niosPort l)
     (maxNumProcessors l) (loginShell l) (schedHostType l) (userPriority l).

(** [options & flag], [options2 & flag] *)
Definition opt (l : jobModLog) (flag : Z) : bool := has (options l) flag.
Definition opt2 (l : jobModLog) (flag : Z) : bool := has (options2 l) flag.
Definition in_file (l : jobModLog) : bool := opt l SUB_IN_FILE || opt2 l SUB2_IN_FILE_SPOOL.

Definition print (l : jobModLog) : W :=
  addQP (jobIdStr l) ;;
  fprintf (fld_d (options l) ++ fld_d (options2 l) ++ fld_d (delOptions l)) ;;
  fprintf (fld_d (userId l)) ;; addQP (userName l) ;;
  fprintf (fld_d (submitTime l) ++ fld_d (umask l) ++ fld_d (numProcessors l)
    ++ fld_d (beginTime l) ++ fld_d (termTime l) ++ fld_d (sigValue l) ++ fld_d (restartPid l)) ;;
  wif (opt l SUB_JOB_NAME) (addQP (jobName l)) ;;
  wif (opt l SUB_QUEUE) (addQP (queue l)) ;;
  wif (opt l SUB_HOST)
    (fprintf (fld_d (numAskedHosts l)) ;;
     wif (negb (numAskedHosts l =? 0)) (warray addQP (askedHosts l) (numAskedHosts l))) ;;
  wif (opt l SUB_RES_REQ) (addQP (resReq l)) ;;
  warray (fun x => fprintf (fld_d x)) (rLimits l) (Z.of_nat LSF_RLIM_NLIMITS) ;;
  wif (opt l SUB_HOST_SPEC) (addQP (hostSpec l)) ;;
  wif (opt l SUB_DEPEND_COND) (addQP (dependCond l)) ;;
  addQP (subHomeDir l) ;;
  wif (in_file l) (addQP (inFile l)) ;;
  wif (opt l SUB_OUT_FILE) (addQP (outFile l)) ;;
  wif (opt l SUB_ERR_FILE) (addQP (errFile l)) ;;
  wif (opt2 l SUB2_MODIFY_CMD) (addQP (command l)) ;;
  wif (opt l SUB_CHKPNT_PERIOD) (fprintf (fld_d (chkpntPeriod l))) ;;
  wif (opt l SUB_CHKPNT_DIR) (addQP (chkpntDir l)) ;;
  wif (opt l SUB_OTHER_FILES)
    (fprintf (fld_d (nxf l)) ;; warray XFile.writexFile (xf l) (nxf l)) ;;
  addQP (jobFile l) ;;
  addQP (fromHost l) ;;
  addQP (cwd l) ;;
  wif (opt l SUB_PRE_EXEC) (addQP (preExecCmd l)) ;;
  wif (opt l SUB_MAIL_USER) (addQP (mailUser l)) ;;
  wif (opt l SUB_PROJECT_NAME) (addQP (projectName l)) ;;
  fprintf (fld_d (niosPort l) ++ fld_d (maxNumProcessors l)) ;;
  wif (opt l SUB_LOGIN_SHELL) (addQP (loginShell l)) ;;
  addQP (schedHostType l) ;;
  fprintf (fld_d (delOptions2 l)) ;;
  wif (opt2 l SUB2_IN_FILE_SPOOL) (addQP (inFileSpool l)) ;;
  wif (opt2 l SUB2_JOB_CMD_SPOOL) (addQP (commandSpool l)) ;;
  wif (opt2 l SUB2_JOB_PRIORITY) (fprintf (fld_d (userPriority l))) ;;
  fprintf newline.

Definition writeJobMod (l : jobModLog) : W := print (prepare l).

Definition read_hosts : R (Z * list (option cstr)) :=
  n <- scan_d ; adv1 ;>
  h <- rif (negb (n =? 0)) (calloc n ;> rtimes (Z.to_nat n) saveQStr) [] ;
  ret (n, h).

Definition read_files : R (Z * list xFile) :=
  n <- scan_d ; adv1 ;>
  rif (0 <? n) (calloc n) tt ;>
  x <- rtimes (Z.to_nat n) XFile.readxFile ;
  ret (n, x).

Definition readJobMod : R jobModLog :=
  jobIdStr <- saveQStr ;
  options <- scan_d ; options2 <- scan_d ; delOptions <- scan_d ; userId <- scan_d ; adv1 ;>
  userName <- saveQStr ;
  submitTime <- scan_d ; umask <- scan_d ; numProcessors <- scan_d ; beginTime <- scan_d ;
  termTime <- scan_d ; sigValue <- scan_d ; restartPid <- scan_d ; adv1 ;>
  jobName <- rif (has options SUB_JOB_NAME) saveQStr None ;
  queue <- rif (has options SUB_QUEUE) saveQStr None ;
  h <- rif (has options SUB_HOST) read_hosts (0, []) ;
  resReq <- rif (has options SUB_RES_REQ) saveQStr None ;
  rLimits <- rtimes LSF_RLIM_NLIMITS scan_d1 ;
  hostSpec <- rif (has options SUB_HOST_SPEC) saveQStr None ;
  dependCond <- rif (has options SUB_DEPEND_COND) saveQStr None ;
  subHomeDir <- saveQStr ;
  inFile <- rif (has options SUB_IN_FILE || has options2 SUB2_IN_FILE_SPOOL) saveQStr None ;
  outFile <- rif (has options SUB_OUT_FILE) saveQStr None ;
  errFile <- rif (has options SUB_ERR_FILE) saveQStr None ;
  command <- rif (has options2 SUB2_MODIFY_CMD) saveQStr None ;
  chkpntPeriod <- rif (has options SUB_CHKPNT_PERIOD) scan_d1 0 ;
  chkpntDir <- rif (has options SUB_CHKPNT_DIR) saveQStr None ;
  x <- rif (has options SUB_OTHER_FILES) read_files (0, []) ;
  jobFile <- saveQStr ;
  fromHost <- saveQStr ;
  cwd <- saveQStr ;
  preExecCmd <- rif (has options SUB_PRE_EXEC) saveQStr None ;
  mailUser <- rif (has options SUB_MAIL_USER) saveQStr None ;
  projectName <- rif (has options SUB_PROJECT_NAME) saveQStr None ;
  niosPort <- scan_d ; maxNumProcessors <- scan_d ; adv1 ;>
  loginShell <- rif (has options SUB_LOGIN_SHELL) saveQStr None ;
  schedHostType <- saveQStr ;
  delOptions2 <- scan_d ; adv1 ;>
  inFileSpool <- rif (has options2 SUB2_IN_FILE_SPOOL) saveQStr None ;
  commandSpool <- rif (has options2 SUB2_JOB_CMD_SPOOL) saveQStr None ;
  userPriority <- rif (has options2 SUB2_JOB_PRIORITY) scan_d1 0 ;
  ret (mk jobIdStr options options2 delOptions delOptions2 userId userName submitTime umask
          numProcessors beginTime termTime sigValue restartPid jobName queue (fst h) (snd h)
          resReq rLimits hostSpec dependCond subHomeDir inFile outFile errFile command
          inFileSpool commandSpool chkpntPeriod chkpntDir (fst x) (snd x) jobFile fromHost cwd
          preExecCmd mailUser projectName niosPort maxNumProcessors loginShell schedHostType
          userPriority).

Definition wf_prepared (l : jobModLog) : bool :=
  ints [options l; options2 l; delOptions l; delOptions2 l; userId l; submitTime l; umask l;
        numProcessors l; beginTime l; termTime l; sigValue l; restartPid l; chkpntPeriod l;
        niosPort l; maxNumProcessors l; userPriority l]
  && ints (rLimits l) && (length (rLimits l) =? LSF_RLIM_NLIMITS)%nat
  && ostr (jobIdStr l) && ostr (userName l)
  && implb (opt l SUB_JOB_NAME) (ostr (jobName l)) && implb (opt l SUB_QUEUE) (ostr (queue l))
  && implb (opt l SUB_HOST)
       (counted (numAskedHosts l) (askedHosts l) && forallb ostr (askedHosts l))
  && implb (opt l SUB_RES_REQ) (ostr (resReq l))
  && implb (opt l SUB_HOST_SPEC) (ostr (hostSpec l))
  && implb (opt l SUB_DEPEND_COND) (ostr (dependCond l)) && ostr (subHomeDir l)
  && implb (in_file l) (ostr (inFile l)) && implb (opt l SUB_OUT_FILE) (ostr (outFile l))
  && implb (opt l SUB_ERR_FILE) (ostr (errFile l))
  && implb (opt2 l SUB2_MODIFY_CMD) (ostr (command l))
  && implb (opt l SUB_CHKPNT_DIR) (ostr (chkpntDir l))
  && implb (opt l SUB_OTHER_FILES) (counted (nxf l) (xf l) && forallb XFile.wf (xf l))
  && ostr (jobFile l) && ostr (fromHost l) && ostr (cwd l)
  && implb (opt l SUB_PRE_EXEC) (ostr (preExecCmd l))
  && implb (opt l SUB_MAIL_USER) (ostr (mailUser l))
  && implb (opt l SUB_PROJECT_NAME) (ostr (projectName l))
  && implb (opt l SUB_LOGIN_SHELL) (ostr (loginShell l)) && ostr (schedHostType l)
  && implb (opt2 l SUB2_IN_FILE_SPOOL) (ostr (inFileSpool l))
  && implb (opt2 l SUB2_JOB_CMD_SPOOL) (ostr (commandSpool l)).

Definition wf (l : jobModLog) : bool := wf_prepared (prepare l).

Definition body_prepared (l : jobModLog) : cstr :=
  fld_o (jobIdStr l) ++ fld_d (options l) ++ fld_d (options2 l) ++ fld_d (delOptions l)
  ++ fld_d (userId l) ++ fld_o (userName l) ++ fld_d (submitTime l) ++ fld_d (umask l)
  ++ fld_d (numProcessors l) ++ fld_d (beginTime l) ++ fld_d (termTime l)
  ++ fld_d (sigValue l) ++ fld_d (restartPid l)
  ++ fld_if (opt l SUB_JOB_NAME) (fld_o (jobName l))
  ++ fld_if (opt l SUB_QUEUE) (fld_o (queue l))
  ++ fld_if (opt l SUB_HOST) (fld_d (numAskedHosts l) ++ flds fld_o (askedHosts l))
  ++ fld_if (opt l SUB_RES_REQ) (fld_o (resReq l)) ++ flds fld_d (rLimits l)
  ++ fld_if (opt l SUB_HOST_SPEC) (fld_o (hostSpec l))
  ++ fld_if (opt l SUB_DEPEND_COND) (fld_o (dependCond l)) ++ fld_o (subHomeDir l)
  ++ fld_if (in_file l) (fld_o (inFile l)) ++ fld_if (opt l SUB_OUT_FILE) (fld_o (outFile l))
  ++ fld_if (opt l SUB_ERR_FILE) (fld_o (errFile l))
  ++ fld_if (opt2 l SUB2_MODIFY_CMD) (fld_o (command l))
  ++ fld_if (opt l SUB_CHKPNT_PERIOD) (fld_d (chkpntPeriod l))
  ++ fld_if (opt l SUB_CHKPNT_DIR) (fld_o (chkpntDir l))
  ++ fld_if (opt l SUB_OTHER_FILES) (fld_d (nxf l) ++ flds XFile.text (xf l))
  ++ fld_o (jobFile l) ++ fld_o (fromHost l) ++ fld_o (cwd l)
  ++ fld_if (opt l SUB_PRE_EXEC) (fld_o (preExecCmd l))
  ++ fld_if (opt l SUB_MAIL_USER) (fld_o (mailUser l))
  ++ fld_if (opt l SUB_PROJECT_NAME) (fld_o (projectName l))
  ++ fld_d (niosPort l) ++ fld_d (maxNumProcessors l)
  ++ fld_if (opt l SUB_LOGIN_SHELL) (fld_o (loginShell l)) ++ fld_o (schedHostType l)
  ++ ((fld_d (delOptions2 l) ++ fld_if (opt2 l SUB2_IN_FILE_SPOOL) (fld_o (inFileSpool l)))
      ++ fld_if (opt2 l SUB2_JOB_CMD_SPOOL) (fld_o (commandSpool l)))
  ++ fld_if (opt2 l SUB2_JOB_PRIORITY) (fld_d (userPriority l)).

Definition body (l : jobModLog) : cstr := body_prepared (prepare l).

(** What the reader rebuilds: the fields whose bit is not set are empty. *)
Definition norm_prepared (l : jobModLog) : jobModLog :=
  let when (b : bool) (o : option cstr) := if b then o else None in
  mk (jobIdStr l) (options l) (options2 l) (delOptions l) (delOptions2 l) (userId l)
     (userName l) (submitTime l) (umask l) (numProcessors l) (beginTime l) (termTime l)
     (sigValue l) (restartPid l) (when (opt l SUB_JOB_NAME) (jobName l))
     (when (opt l SUB_QUEUE) (queue l)) (if opt l SUB_HOST then numAskedHosts l else 0)
     (if opt l SUB_HOST then askedHosts l else []) (when (opt l SUB_RES_REQ) (resReq l))
     (rLimits l) (when (opt l SUB_HOST_SPEC) (hostSpec l))
     (when (opt l SUB_DEPEND_COND) (dependCond l)) (subHomeDir l) (when (in_file l) (inFile l))
     (when (opt l SUB_OUT_FILE) (outFile l)) (when (opt l SUB_ERR_FILE) (errFile l))
     (when (opt2 l SUB2_MODIFY_CMD) (command l))
     (when (opt2 l SUB2_IN_FILE_SPOOL) (inFileSpool l))
     (when (opt2 l SUB2_JOB_CMD_SPOOL) (commandSpool l))
     (if opt l SUB_CHKPNT_PERIOD then chkpntPeriod l else 0)
     (when (opt l SUB_CHKPNT_DIR) (chkpntDir l)) (if opt l SUB_OTHER_FILES then nxf l else 0)
     (if opt l SUB_OTHER_FILES then xf l else []) (jobFile l) (fromHost l) (cwd l)
     (when (opt l SUB_PRE_EXEC) (preExecCmd l)) (when (opt l SUB_MAIL_USER) (mailUser l))
     (when (opt l SUB_PROJECT_NAME) (projectName l)) (niosPort l) (maxNumProcessors l)
     (when (opt l SUB_LOGIN_SHELL) (loginShell l)) (schedHostType l)
     (if opt2 l SUB2_JOB_PRIORITY then userPriority l else 0).

Definition norm (l : jobModLog) : jobModLog := norm_prepared (prepare l).

Lemma rif_read_hosts b n h r :
  implb b (counted n h && forallb ostr h) = true -> sep r ->
  rif b read_hosts (0, []) (C (fld_if b (fld_d n ++ flds fld_o h) ++ r))
  = ROk (if b then (n, h) else (0, [])) (C r).
Proof.
  intros Hb Hr. apply rif_C. intros E. apply (implb_elim _ _ Hb) in E. bool_split.
  unfold read_hosts. rewrite <- app_assoc. erewrite bind_ok by eauto with elog.
  erewrite bind_ok by eauto with elog. erewrite bind_ok; [reflexivity|].
  destruct (n =? 0) eqn:Z; cbn [negb rif].
  - now rewrite (counted_zero n h H Z).
  - erewrite bind_ok by eauto with elog. now apply rtimes_csave.
Qed.

Lemma rif_read_files b n x r :
  implb b (counted n x && forallb XFile.wf x) = true -> sep r ->
  rif b read_files (0, []) (C (fld_if b (fld_d n ++ flds XFile.text x) ++ r))
  = ROk (if b then (n, x) else (0, [])) (C r).
Proof.
  intros Hb Hr. apply rif_C. intros E. apply (implb_elim _ _ Hb) in E. bool_split.
  unfold read_files. rewrite <- app_assoc. now repeat erewrite bind_ok by eauto with elog.
Qed.

Lemma writes_hosts_block b n h : implb b (counted n h && forallb ostr h) = true ->
  writes (wif b (fprintf (fld_d n) ;; wif (negb (n =? 0)) (warray addQP h n)))
    (fld_if b (fld_d n ++ flds fld_o h)).
Proof.
  intros Hb. apply writes_if. intros E. apply (implb_elim _ _ Hb) in E. bool_split.
  apply writes_seq; auto with elog.
Qed.

Lemma writes_files_block b n x : implb b (counted n x && forallb XFile.wf x) = true ->
  writes (wif b (fprintf (fld_d n) ;; warray XFile.writexFile x n))
    (fld_if b (fld_d n ++ flds XFile.text x)).
Proof.
  intros Hb. apply writes_if. intros E. apply (implb_elim _ _ Hb) in E. bool_split.
  apply writes_seq; auto with elog.
Qed.

Lemma plain_hosts_block b n h : implb b (counted n h && forallb ostr h) = true ->
  plain (fld_if b (fld_d n ++ flds fld_o h)) = true.
Proof.
  intros Hb. apply plain_if. intros E. apply (implb_elim _ _ Hb) in E. bool_split.
  rewrite plain_app, plain_d. cbn [andb]. auto with elog.
Qed.

Lemma plain_files_block b n x : implb b (counted n x && forallb XFile.wf x) = true ->
  plain (fld_if b (fld_d n ++ flds XFile.text x)) = true.
Proof.
  intros Hb. apply plain_if. intros E. apply (implb_elim _ _ Hb) in E. bool_split.
  rewrite plain_app, plain_d. cbn [andb]. auto with elog.
Qed.

Lemma sep_if_dt b n t r : sep r -> sep (fld_if b (fld_d n ++ t) ++ r).
Proof. intros. apply sep_if; [reflexivity|assumption]. Qed.

#[local] Hint Resolve rif_read_hosts rif_read_files writes_hosts_block writes_files_block
  plain_hosts_block plain_files_block sep_if_dt : elog.

Lemma print_mod_body l : wf_prepared l = true -> writes (print l) (body_prepared l ++ newline).
Proof.
  intros H. unfold wf_prepared, ints in H. cbn [forallb] in H. bool_split. unfold print, body_prepared.
  match goal with H : (length _ =? _)%nat = true |- _ => apply Nat.eqb_eq in H end.
  assert (W : writes (warray (fun x => fprintf (fld_d x)) (rLimits l) (Z.of_nat LSF_RLIM_NLIMITS))
                (flds fld_d (rLimits l))) by (apply writes_ds; congruence).
  assert (V : forall b z, writes (wif b (fprintf (fld_d z))) (fld_if b (fld_d z)))
    by (intros; apply writes_if; auto with elog).
  wr.
Qed.

Lemma read_mod_prepared l : wf_prepared l = true -> exists c,
  readJobMod (C (body_prepared l)) = ROk (norm_prepared l) c.
Proof.
  intros H. rewrite <- (app_nil_r (body_prepared l)).
  unfold wf_prepared, ints in H. cbn [forallb] in H. bool_split.
  match goal with H : (length _ =? _)%nat = true |- _ => apply Nat.eqb_eq, eq_sym in H end.
  unfold readJobMod, body_prepared. rewrite <- !app_assoc. rd.
  destruct l. eexists. unfold norm_prepared, opt in *. cbn in *. unfold opt. cbn.
  now destruct (has options0 SUB_HOST), (has options0 SUB_OTHER_FILES).
Qed.

Lemma line_mod_prepared l : wf_prepared l = true -> lineok (body_prepared l) = true.
Proof.
  intros H. unfold wf_prepared, ints in H. cbn [forallb] in H. bool_split. unfold body_prepared.
  assert (F : plain (flds fld_d (rLimits l)) = true) by (apply plain_flds; auto using plain_d).
  assert (G : forall b z, plain (fld_if b (fld_d z)) = true) by (intros [] ?; auto with elog).
  line_ok; auto using lineok_opt, lineok_if_o, lineok_d.
Qed.

Lemma prepare_mod_norm l : prepare (norm l) = norm_prepared (prepare l).
Proof.
  unfold norm, norm_prepared, prepare, opt, opt2, in_file. cbn.
  now rewrite !option_map_when, !map_subNewLine_twice.
Qed.

Lemma norm_mod_again l : wf_prepared l = true ->
  wf_prepared (norm_prepared l) = true /\ body_prepared (norm_prepared l) = body_prepared l.
Proof.
  intros H. unfold wf_prepared, body_prepared, norm_prepared, opt, opt2, in_file, ints in *.
  cbn in *. rewrite !implb_when, !fld_if_when, !implb_block. split.
  - rewrite !andb_true_iff in *.
    repeat match goal with |- _ /\ _ => split end; try tauto; apply int32b_if; tauto.
  - now destruct (has (options l) SUB_HOST), (has (options l) SUB_OTHER_FILES),
      (has (options l) SUB_CHKPNT_PERIOD), (has (options2 l) SUB2_JOB_PRIORITY).
Qed.

#[global, refine] Instance jobMod_codec : EventCodec jobModLog := {|
  ev_write := writeJobMod; ev_read _ := readJobMod; ev_wf := wf;
  ev_norm _ l := norm l; ev_body := body; ev_pad := 0; ev_newline := true |}.
Proof.
  - intros l H. now apply print_mod_body.
  - intros _ l H. now apply read_mod_prepared.
  - intros l H. now apply line_mod_prepared.
  - intros l H. unfold body, body_prepared. apply sep_o. reflexivity.
  - intros _ l H. unfold wf, body. rewrite prepare_mod_norm. now apply norm_mod_again.
Defined.

End JobMod.
