(* ===== verification/EventLog.v ===== *)
(** * The event log: records in a file (lsbatch/lib/lsb.log.c)

    [lsb_puteventrec] writes a record as one line,
    ["TYPE" "version" time fields...]; [lsb_geteventrec_ex] reads the next line
    and rebuilds the record.  The event-specific part goes through the
    interface [EventCodec]; this file is the part that does not depend on the
    event, the dispatch over the events, and the properties of whole files. *)
From Stdlib Require Import ZArith Ascii String List Bool Lia.
From Corelib Require Import SpecFloat.
From S2P Require Import Prelude JobId CNum Words LogStream EventCodec EventsSmall EventsRun EventsSubmit.
Import ListNotations.
Local Open Scope Z_scope.
Local Open Scope log_scope.

(** ** Event types: lsbatch.h *)

Inductive eventType :=
| EVENT_JOB_NEW
| EVENT_JOB_START
| EVENT_JOB_STATUS
| EVENT_JOB_SWITCH
| EVENT_JOB_MOVE
| EVENT_QUEUE_CTRL
| EVENT_HOST_CTRL
| EVENT_MBD_DIE
| EVENT_MBD_UNFULFILL
| EVENT_JOB_FINISH
| EVENT_LOAD_INDEX
| EVENT_CHKPNT
| EVENT_MIG
| EVENT_PRE_EXEC_START
| EVENT_MBD_START
| EVENT_JOB_MODIFY
| EVENT_JOB_SIGNAL
| EVENT_JOB_EXECUTE
| EVENT_JOB_MSG
| EVENT_JOB_MSG_ACK
| EVENT_JOB_REQUEUE
| EVENT_JOB_SIGACT
| EVENT_SBD_JOB_STATUS
| EVENT_JOB_START_ACCEPT
| EVENT_JOB_CLEAN
| EVENT_JOB_FORCE
| EVENT_LOG_SWITCH
| EVENT_JOB_MODIFY2
| EVENT_JOB_ATTR_SET.

(** The record: its type and the member of [union eventLog] that goes with it. *)
Inductive event :=
| JOB_NEW (l : JobNew.jobNewLog)
| JOB_START (l : JobStart.jobStartLog)
| JOB_STATUS (l : JobStatus.jobStatusLog)
| JOB_SWITCH (l : JobSwitch.jobSwitchLog)
| JOB_MOVE (l : JobMove.jobMoveLog)
| QUEUE_CTRL (l : QueueCtrl.queueCtrlLog)
| HOST_CTRL (l : HostCtrl.hostCtrlLog)
| MBD_DIE (l : MbdDie.mbdDieLog)
| MBD_UNFULFILL (l : Unfulfill.unfulfillLog)
| JOB_FINISH (l : JobFinish.jobFinishLog)
| LOAD_INDEX (l : LoadIndex.loadIndexLog)
| CHKPNT (l : Chkpnt.chkpntLog)
| MIG (l : Mig.migLog)
| PRE_EXEC_START (l : JobStart.jobStartLog)
| MBD_START (l : MbdStart.mbdStartLog)
| JOB_MODIFY (l : JobNew.jobNewLog)
| JOB_SIGNAL (l : JobSignal.signalLog)
| JOB_EXECUTE (l : JobExecute.jobExecuteLog)
| JOB_MSG (l : JobMsg.jobMsgLog)
| JOB_MSG_ACK (l : JobMsgAck.jobMsgAckLog)
| JOB_REQUEUE (l : JobRequeue.jobRequeueLog)
| JOB_SIGACT (l : JobSigAct.sigactLog)
| SBD_JOB_STATUS (l : SbdJobStatus.sbdJobStatusLog)
| JOB_START_ACCEPT (l : JobStartAccept.jobStartAcceptLog)
| JOB_CLEAN (l : JobClean.jobCleanLog)
| JOB_FORCE (l : JobForce.jobForceRequestLog)
| LOG_SWITCH (l : LogSwitch.logSwitchLog)
| JOB_MODIFY2 (l : JobMod.jobModLog)
| JOB_ATTR_SET (l : JobAttrSet.jobAttrSetLog)
| OTHER (type : Z).

Record eventRec := mkRec { version : cstr; eventTime : Z; eventLog : event }.

(** ** Writing a record *)

(** The name of the type; none for a type number that is not one of the above. *)
Definition type_name (e : event) : option cstr :=
  match e with
  | JOB_NEW _ => Some (cs "JOB_NEW")
  | JOB_START _ => Some (cs "JOB_START")
  | JOB_STATUS _ => Some (cs "JOB_STATUS")
  | JOB_SWITCH _ => Some (cs "JOB_SWITCH")
  | JOB_MOVE _ => Some (cs "JOB_MOVE")
  | QUEUE_CTRL _ => Some (cs "QUEUE_CTRL")
  | HOST_CTRL _ => Some (cs "HOST_CTRL")
  | MBD_DIE _ => Some (cs "MBD_DIE")
  | MBD_UNFULFILL _ => Some (cs "UNFULFILL")
  | JOB_FINISH _ => Some (cs "JOB_FINISH")
  | LOAD_INDEX _ => Some (cs "LOAD_INDEX")
  | CHKPNT _ => Some (cs "CHKPNT")
  | MIG _ => Some (cs "MIG")
  | PRE_EXEC_START _ => Some (cs "PRE_EXEC_START")
  | MBD_START _ => Some (cs "MBD_START")
  | JOB_MODIFY _ => Some (cs "JOB_MODIFY")
  | JOB_SIGNAL _ => Some (cs "JOB_SIGNAL")
  | JOB_EXECUTE _ => Some (cs "JOB_EXECUTE")
  | JOB_MSG _ => Some (cs "JOB_MSG")
  | JOB_MSG_ACK _ => Some (cs "JOB_MSG_ACK")
  | JOB_REQUEUE _ => Some (cs "JOB_REQUEUE")
  | JOB_SIGACT _ => Some (cs "JOB_SIGACT")
  | SBD_JOB_STATUS _ => Some (cs "SBD_JOB_STATUS")
  | JOB_START_ACCEPT _ => Some (cs "JOB_START_ACCEPT")
  | JOB_CLEAN _ => Some (cs "JOB_CLEAN")
  | JOB_FORCE _ => Some (cs "JOB_FORCE")
  | LOG_SWITCH _ => Some (cs "LOG_SWITCH")
  | JOB_MODIFY2 _ => Some (cs "JOB_MODIFY2")
  | JOB_ATTR_SET _ => Some (cs "JOB_ATTR_SET")
  | OTHER _ => None
  end.

Definition writeEvent (e : event) : W :=
  match e with
  | JOB_NEW l => JobNew.writeJobNew l
  | JOB_START l => JobStart.writeJobStart l
  | JOB_STATUS l => JobStatus.writeJobStatus l
  | JOB_SWITCH l => JobSwitch.writeJobSwitch l
  | JOB_MOVE l => JobMove.writeJobMove l
  | QUEUE_CTRL l => QueueCtrl.writeQueueCtrl l
  | HOST_CTRL l => HostCtrl.writeHostCtrl l
  | MBD_DIE l => MbdDie.writeMbdDie l
  | MBD_UNFULFILL l => Unfulfill.writeUnfulfill l
  | JOB_FINISH l => JobFinish.writeJobFinish l
  | LOAD_INDEX l => LoadIndex.writeLoadIndex l
  | CHKPNT l => Chkpnt.writeChkpnt l
  | MIG l => Mig.writeMig l
  | PRE_EXEC_START l => JobStart.writeJobStart l
  | MBD_START l => MbdStart.writeMbdStart l
  | JOB_MODIFY l => JobNew.writeJobNew l
  | JOB_SIGNAL l => JobSignal.writeJobSignal l
  | JOB_EXECUTE l => JobExecute.writeJobExecute l
  | JOB_MSG l => JobMsg.writeJobMsg l
  | JOB_MSG_ACK l => JobMsgAck.writeJobMsgAck l
  | JOB_REQUEUE l => JobRequeue.writeJobRqueue l
  | JOB_SIGACT l => JobSigAct.writeJobSigAct l
  | SBD_JOB_STATUS l => SbdJobStatus.writeSbdJobStatus l
  | JOB_START_ACCEPT l => JobStartAccept.writeJobStartAccept l
  | JOB_CLEAN l => JobClean.writeJobClean l
  | JOB_FORCE l => JobForce.writeJobForce l
  | LOG_SWITCH l => LogSwitch.writeLogSwitch l
  | JOB_MODIFY2 l => JobMod.writeJobMod l
  | JOB_ATTR_SET l => JobAttrSet.writeJobAttrSet l
  | OTHER _ => wret
  end.

(** What the call does: returns 0, returns -1 with [lsberrno] set, or passes a
    NULL string to [addQStr]. *)
Inductive putres :=
| PutOk (f : FILE)
| PutErr (e : lsbe) (f : FILE)
| PutNull.

Definition of_wres (r : wres) : putres :=
  match r with WOk f => PutOk f | WFail f => PutErr LSBE_SYS_CALL f | WNull => PutNull end.

(** ["%s" "%s" %d]: nothing is escaped here. *)
Definition header (name : cstr) (r : eventRec) : cstr :=
  [QT] ++ name ++ [QT] ++ XFile.fld_raw (version r) ++ fld_t (eventTime r).

Definition lsb_puteventrec (r : eventRec) (log_fp : FILE) : putres :=
  match type_name (eventLog r) with
  | None => PutErr LSBE_UNKNOWN_EVENT log_fp
  | Some etype => of_wres ((fprintf (header etype r) ;; writeEvent (eventLog r)) log_fp)
  end.

(** ** Reading a record *)

Inductive eventKind := EVENT_JOB_RELATED | EVENT_NON_JOB_RELATED.

Definition kindOf (t : eventType) : eventKind :=
  match t with
  | EVENT_JOB_NEW
  | EVENT_JOB_START
  | EVENT_JOB_STATUS
  | EVENT_JOB_SWITCH
  | EVENT_JOB_MOVE
  | EVENT_JOB_FINISH
  | EVENT_CHKPNT
  | EVENT_MIG
  | EVENT_PRE_EXEC_START
  | EVENT_JOB_MODIFY
  | EVENT_JOB_SIGNAL
  | EVENT_JOB_EXECUTE
  | EVENT_JOB_MSG
  | EVENT_JOB_MSG_ACK
  | EVENT_JOB_REQUEUE
  | EVENT_JOB_SIGACT
  | EVENT_SBD_JOB_STATUS
  | EVENT_JOB_START_ACCEPT
  | EVENT_JOB_CLEAN
  | EVENT_JOB_FORCE
  | EVENT_JOB_MODIFY2
  | EVENT_JOB_ATTR_SET => EVENT_JOB_RELATED
  | _ => EVENT_NON_JOB_RELATED
  end.

(** The chain of [strcmp]; [None] is the return value -1. *)
Definition getEventTypeAndKind (typeStr : cstr) : option (eventType * eventKind) :=
  let found t := Some (t, kindOf t) in
  if streq typeStr (cs "JOB_NEW") then found EVENT_JOB_NEW
  else if streq typeStr (cs "JOB_START") then found EVENT_JOB_START
  else if streq typeStr (cs "JOB_START_ACCEPT") then found EVENT_JOB_START_ACCEPT
  else if streq typeStr (cs "JOB_STATUS") then found EVENT_JOB_STATUS
  else if streq typeStr (cs "SBD_JOB_STATUS") then found EVENT_SBD_JOB_STATUS
  else if streq typeStr (cs "JOB_EXECUTE") then found EVENT_JOB_EXECUTE
  else if streq typeStr (cs "JOB_CLEAN") then found EVENT_JOB_CLEAN
  else if streq typeStr (cs "JOB_SWITCH") then found EVENT_JOB_SWITCH
  else if streq typeStr (cs "JOB_MOVE") then found EVENT_JOB_MOVE
  else if streq typeStr (cs "JOB_FINISH") then found EVENT_JOB_FINISH
  else if streq typeStr (cs "LOAD_INDEX") then found EVENT_LOAD_INDEX
  else if streq typeStr (cs "CHKPNT") then found EVENT_CHKPNT
  else if streq typeStr (cs "MIG") then found EVENT_MIG
  else if streq typeStr (cs "PRE_EXEC_START") then found EVENT_PRE_EXEC_START
  else if streq typeStr (cs "JOB_MODIFY") then found EVENT_JOB_MODIFY
  else if streq typeStr (cs "JOB_MODIFY2") then found EVENT_JOB_MODIFY2
  else if streq typeStr (cs "JOB_ATTR_SET") then found EVENT_JOB_ATTR_SET
  else if streq typeStr (cs "QUEUE_CTRL") then found EVENT_QUEUE_CTRL
  else if streq typeStr (cs "HOST_CTRL") then found EVENT_HOST_CTRL
  else if streq typeStr (cs "MBD_START") then found EVENT_MBD_START
  else if streq typeStr (cs "MBD_DIE") then found EVENT_MBD_DIE
  else if streq typeStr (cs "UNFULFILL") then found EVENT_MBD_UNFULFILL
  else if streq typeStr (cs "JOB_SIGNAL") then found EVENT_JOB_SIGNAL
  else if streq typeStr (cs "JOB_MSG") then found EVENT_JOB_MSG
  else if streq typeStr (cs "JOB_MSG_ACK") then found EVENT_JOB_MSG_ACK
  else if streq typeStr (cs "JOB_REQUEUE") then found EVENT_JOB_REQUEUE
  else if streq typeStr (cs "JOB_SIGACT") then found EVENT_JOB_SIGACT
  else if streq typeStr (cs "JOB_FORCE") then found EVENT_JOB_FORCE
  else if streq typeStr (cs "LOG_SWITCH") then found EVENT_LOG_SWITCH
  else if streq typeStr (cs "LOG_SWITCH") then found EVENT_LOG_SWITCH
  else None.

Definition rmap {A B} (f : A -> B) (m : R A) : R B := x <- m ; ret (f x).

Definition readEventRecord (type : eventType) (eventTime : Z) : R event :=
  match type with
  | EVENT_JOB_NEW => rmap JOB_NEW JobNew.readJobNew
  | EVENT_JOB_START => rmap JOB_START JobStart.readJobStart
  | EVENT_JOB_STATUS => rmap JOB_STATUS JobStatus.readJobStatus
  | EVENT_JOB_SWITCH => rmap JOB_SWITCH JobSwitch.readJobSwitch
  | EVENT_JOB_MOVE => rmap JOB_MOVE JobMove.readJobMove
  | EVENT_QUEUE_CTRL => rmap QUEUE_CTRL QueueCtrl.readQueueCtrl
  | EVENT_HOST_CTRL => rmap HOST_CTRL HostCtrl.readHostCtrl
  | EVENT_MBD_DIE => rmap MBD_DIE MbdDie.readMbdDie
  | EVENT_MBD_UNFULFILL => rmap MBD_UNFULFILL Unfulfill.readUnfulfill
  | EVENT_JOB_FINISH => rmap JOB_FINISH (JobFinish.readJobFinish eventTime)
  | EVENT_LOAD_INDEX => rmap LOAD_INDEX LoadIndex.readLoadIndex
  | EVENT_CHKPNT => rmap CHKPNT Chkpnt.readChkpnt
  | EVENT_MIG => rmap MIG Mig.readMig
  | EVENT_PRE_EXEC_START => rmap PRE_EXEC_START JobStart.readJobStart
  | EVENT_MBD_START => rmap MBD_START MbdStart.readMbdStart
  | EVENT_JOB_MODIFY => rmap JOB_MODIFY JobNew.readJobNew
  | EVENT_JOB_SIGNAL => rmap JOB_SIGNAL JobSignal.readJobSignal
  | EVENT_JOB_EXECUTE => rmap JOB_EXECUTE JobExecute.readJobExecute
  | EVENT_JOB_MSG => rmap JOB_MSG JobMsg.readJobMsg
  | EVENT_JOB_MSG_ACK => rmap JOB_MSG_ACK JobMsgAck.readJobMsgAck
  | EVENT_JOB_REQUEUE => rmap JOB_REQUEUE JobRequeue.readJobRequeue
  | EVENT_JOB_SIGACT => rmap JOB_SIGACT JobSigAct.readJobSigAct
  | EVENT_SBD_JOB_STATUS => rmap SBD_JOB_STATUS SbdJobStatus.readSbdJobStatus
  | EVENT_JOB_START_ACCEPT => rmap JOB_START_ACCEPT JobStartAccept.readJobStartAccept
  | EVENT_JOB_CLEAN => rmap JOB_CLEAN JobClean.readJobClean
  | EVENT_JOB_FORCE => rmap JOB_FORCE JobForce.readJobForce
  | EVENT_LOG_SWITCH => rmap LOG_SWITCH LogSwitch.readLogSwitch
  | EVENT_JOB_MODIFY2 => rmap JOB_MODIFY2 JobMod.readJobMod
  | EVENT_JOB_ATTR_SET => rmap JOB_ATTR_SET JobAttrSet.readJobAttrSet
  end.

(** [stripQStr] for the type and for the version: there must be text behind,
    and the string must fit its array. *)
Definition strip_name (maxLen : nat) : R cstr := fun c =>
  match c with
  | None => RFault PastEnd
  | Some s =>
      match stripQStr s with
      | SOk str k =>
          if (length s =? k)%nat || (maxLen <=? length str)%nat
          then RErr LSBE_EVENT_FORMAT else ROk str (adv (k + 1) c)
      | SFail _ => RErr LSBE_EVENT_FORMAT
      end
  end.

(** [if ((version = atof(...)) <= 0.0)]: [version] is a [float]. *)
Definition check_version (s : cstr) : R unit := fun c =>
  match atof s with
  | None => RFault UnmodelledFloat
  | Some v => if SFnonpos (narrow v) then RErr LSBE_EVENT_FORMAT else ROk tt c
  end.

(** The line of a record, after the comment lines. *)
Definition parse_line : R eventRec :=
  etype <- strip_name MAX_LSB_NAME_LEN ;
  ver <- strip_name MAX_VERSION_LEN ;
  check_version ver ;>
  tempTimeStamp <- scan_d ; adv1 ;>
  match getEventTypeAndKind etype with
  | None => fail LSBE_UNKNOWN_EVENT
  | Some (t, _) => e <- readEventRecord t tempTimeStamp ; ret (mkRec ver tempTimeStamp e)
  end.

(** A record from a line given by the caller.  Both strings go through
    [namebuf[MAXLINELEN]]; the time is stored through an [int] pointer into the
    cleared 64-bit [eventTime].  Every error is the return value -1. *)
Definition lsb_readeventrecord : R eventRec :=
  etype <- strip_buf MAXLINELEN ;
  (if (MAX_LSB_NAME_LEN <=? length etype)%nat then fail LSBE_EVENT_FORMAT else ret tt) ;>
  ver <- strip_buf MAXLINELEN ;
  (if (MAX_VERSION_LEN <=? length ver)%nat then fail LSBE_EVENT_FORMAT else ret tt) ;>
  time <- scan_d ; adv1 ;>
  check_version ver ;>
  match getEventTypeAndKind etype with
  | None => fail LSBE_UNKNOWN_EVENT
  | Some (t, _) => e <- readEventRecord t (uwrap32 time) ; ret (mkRec ver (uwrap32 time) e)
  end.

(** [getNextLine_], and again while the line is a comment: the line, or whether
    the end of the file was met behind a comment, and the input left.  [None]:
    out of fuel, which [next_record_line_total] excludes. *)
Fixpoint next_record_line (fuel : nat) (commented : bool) (fp : cstr) : option ((cstr + bool) * cstr) :=
  match fuel with
  | O => None
  | S fuel' =>
      match getNextLine_ false fp with
      | (None, fp') => Some (inr commented, fp')
      | (Some l, fp') =>
          match l with
          | c :: _ =>
              if Ascii.eqb c HASH then next_record_line fuel' true fp' else Some (inl l, fp')
          | [] => Some (inl l, fp')
          end
      end
  end.

(** A record; NULL with [lsberrno]; NULL with [LSBE_EOF] and the stream closed;
    or an access outside a buffer. *)
Inductive getres :=
| GRec (r : eventRec)
| GErr (e : lsbe)
| GEofClosed
| GFault (x : fault).

Definition of_rres (r : rres eventRec) : getres :=
  match r with ROk a _ => GRec a | RErr e => GErr e | RFault x => GFault x end.

(** The result and the input left. *)
Definition lsb_geteventrec_ex (log_fp : cstr) : getres * cstr :=
  match next_record_line (S (length log_fp)) false log_fp with
  | Some (inl line, fp') => (of_rres (parse_line (Some line)), fp')
  | Some (inr commented, fp') => (if commented then GEofClosed else GErr LSBE_EOF, fp')
  | None => (GErr LSBE_EOF, log_fp)
  end.

(** ** Records of some jobs only *)

(** What the [sscanf] of [checkJobEventAndJobId] finds: the event is not about
    a job, the job number cannot be read, or the number. *)
Inductive jobIdScan := NotJob | NoId | Id (z : Z).

Definition scan_id (s : cstr) : jobIdScan :=
  match scan_int s with Some (z, _) => Id z | None => NoId end.

(** The formats: a number; a quotation mark and a number; two numbers. *)
Definition scanJobId (line : cstr) (type : eventType) : jobIdScan :=
  match type with
  | EVENT_JOB_NEW | EVENT_JOB_MODIFY | EVENT_PRE_EXEC_START | EVENT_JOB_START
  | EVENT_JOB_START_ACCEPT | EVENT_JOB_STATUS | EVENT_SBD_JOB_STATUS | EVENT_JOB_FINISH
  | EVENT_CHKPNT | EVENT_MIG | EVENT_JOB_ATTR_SET | EVENT_JOB_SIGNAL | EVENT_JOB_EXECUTE
  | EVENT_JOB_MSG | EVENT_JOB_MSG_ACK | EVENT_JOB_SIGACT | EVENT_JOB_REQUEUE
  | EVENT_JOB_CLEAN | EVENT_JOB_FORCE => scan_id line
  | EVENT_JOB_MODIFY2 =>
      match line with c :: l => if Ascii.eqb c QT then scan_id l else NoId | [] => NoId end
  | EVENT_JOB_SWITCH | EVENT_JOB_MOVE =>
      match scan_int line with Some (_, l) => scan_id (skip_space l) | None => NoId end
  | _ => NotJob
  end.

Definition is_new (t : eventType) : bool := match t with EVENT_JOB_NEW => true | _ => false end.

Definition checkJobEventAndJobId (line : cstr) (type : eventType) (jobIds : list Z) : bool :=
  match scanJobId line type with
  | NotJob => false
  | NoId => true
  | Id z =>
      (length jobIds =? 0)%nat || is_new type
      || existsb (fun j => LSB_ARRAY_JOBID j =? z) jobIds
  end.

(** The index of an event file records the job numbers. 0: none. *)
Definition getJobIdFromEvent (line : cstr) (type : eventType) : Z :=
  match scanJobId line type with Id z => z | _ => 0 end.

(** One round of the loop of [lsbGetNextJobRecFromFile]: [None] is [continue]. *)
Definition job_step (jobIds : list Z) : R (option eventRec) :=
  nameBuf <- strip_buf MAXLINELEN ;
  (if (MAX_LSB_NAME_LEN <=? length nameBuf)%nat then fail LSBE_EVENT_FORMAT else ret tt) ;>
  match getEventTypeAndKind nameBuf with
  | Some (t, EVENT_JOB_RELATED) =>
      ver <- strip_buf MAXLINELEN ;
      (if (MAX_VERSION_LEN <=? length ver)%nat then fail LSBE_EVENT_FORMAT else ret tt) ;>
      check_version ver ;>
      tempTimeStamp <- scan_d ; adv1 ;>
      (fun c =>
        match c with
        | None => RFault PastEnd
        | Some line =>
            if checkJobEventAndJobId line t jobIds
            then (e <- readEventRecord t tempTimeStamp ;
                  ret (Some (mkRec ver tempTimeStamp e))) c
            else ROk None c
        end)
  | _ => ret None
  end.

(** [None]: out of fuel ([job_loop_total] excludes it). *)
Fixpoint job_loop (fuel : nat) (jobIds : list Z) (logFp : cstr) : option (getres * cstr) :=
  match fuel with
  | O => None
  | S fuel' =>
      match getNextLine_ false logFp with
      | (None, fp') => Some (GErr LSBE_EOF, fp')
      | (Some line, fp') =>
          if match line with c :: _ => Ascii.eqb c HASH | [] => false end
          then job_loop fuel' jobIds fp'
          else
            match job_step jobIds (Some line) with
            | ROk (Some r) _ => Some (GRec r, fp')
            | ROk None _ => job_loop fuel' jobIds fp'
            | RErr e => Some (GErr e, fp')
            | RFault x => Some (GFault x, fp')
            end
      end
  end.

Definition lsbGetNextJobRecFromFile (logFp : cstr) (jobIds : list Z) : getres * cstr :=
  match job_loop (S (length logFp)) jobIds logFp with
  | Some r => r
  | None => (GErr LSBE_EOF, logFp)
  end.

(** ** Events through the interface of their codecs *)

Definition on_event {A} (d : A) (f : forall L, EventCodec L -> L -> A) (e : event) : A :=
  match e with
  | JOB_NEW l => f _ _ l
  | JOB_START l => f _ _ l
  | JOB_STATUS l => f _ _ l
  | JOB_SWITCH l => f _ _ l
  | JOB_MOVE l => f _ _ l
  | QUEUE_CTRL l => f _ _ l
  | HOST_CTRL l => f _ _ l
  | MBD_DIE l => f _ _ l
  | MBD_UNFULFILL l => f _ _ l
  | JOB_FINISH l => f _ _ l
  | LOAD_INDEX l => f _ _ l
  | CHKPNT l => f _ _ l
  | MIG l => f _ _ l
  | PRE_EXEC_START l => f _ _ l
  | MBD_START l => f _ _ l
  | JOB_MODIFY l => f _ _ l
  | JOB_SIGNAL l => f _ _ l
  | JOB_EXECUTE l => f _ _ l
  | JOB_MSG l => f _ _ l
  | JOB_MSG_ACK l => f _ _ l
  | JOB_REQUEUE l => f _ _ l
  | JOB_SIGACT l => f _ _ l
  | SBD_JOB_STATUS l => f _ _ l
  | JOB_START_ACCEPT l => f _ _ l
  | JOB_CLEAN l => f _ _ l
  | JOB_FORCE l => f _ _ l
  | LOG_SWITCH l => f _ _ l
  | JOB_MODIFY2 l => f _ _ l
  | JOB_ATTR_SET l => f _ _ l
  | OTHER _ => d
  end.

Definition typeOf (e : event) : option eventType :=
  match e with
  | JOB_NEW _ => Some EVENT_JOB_NEW
  | JOB_START _ => Some EVENT_JOB_START
  | JOB_STATUS _ => Some EVENT_JOB_STATUS
  | JOB_SWITCH _ => Some EVENT_JOB_SWITCH
  | JOB_MOVE _ => Some EVENT_JOB_MOVE
  | QUEUE_CTRL _ => Some EVENT_QUEUE_CTRL
  | HOST_CTRL _ => Some EVENT_HOST_CTRL
  | MBD_DIE _ => Some EVENT_MBD_DIE
  | MBD_UNFULFILL _ => Some EVENT_MBD_UNFULFILL
  | JOB_FINISH _ => Some EVENT_JOB_FINISH
  | LOAD_INDEX _ => Some EVENT_LOAD_INDEX
  | CHKPNT _ => Some EVENT_CHKPNT
  | MIG _ => Some EVENT_MIG
  | PRE_EXEC_START _ => Some EVENT_PRE_EXEC_START
  | MBD_START _ => Some EVENT_MBD_START
  | JOB_MODIFY _ => Some EVENT_JOB_MODIFY
  | JOB_SIGNAL _ => Some EVENT_JOB_SIGNAL
  | JOB_EXECUTE _ => Some EVENT_JOB_EXECUTE
  | JOB_MSG _ => Some EVENT_JOB_MSG
  | JOB_MSG_ACK _ => Some EVENT_JOB_MSG_ACK
  | JOB_REQUEUE _ => Some EVENT_JOB_REQUEUE
  | JOB_SIGACT _ => Some EVENT_JOB_SIGACT
  | SBD_JOB_STATUS _ => Some EVENT_SBD_JOB_STATUS
  | JOB_START_ACCEPT _ => Some EVENT_JOB_START_ACCEPT
  | JOB_CLEAN _ => Some EVENT_JOB_CLEAN
  | JOB_FORCE _ => Some EVENT_JOB_FORCE
  | LOG_SWITCH _ => Some EVENT_LOG_SWITCH
  | JOB_MODIFY2 _ => Some EVENT_JOB_MODIFY2
  | JOB_ATTR_SET _ => Some EVENT_JOB_ATTR_SET
  | OTHER _ => None
  end.

Definition norm_event (t : Z) (e : event) : event :=
  match e with
  | JOB_NEW l => JOB_NEW (ev_norm t l)
  | JOB_START l => JOB_START (ev_norm t l)
  | JOB_STATUS l => JOB_STATUS (ev_norm t l)
  | JOB_SWITCH l => JOB_SWITCH (ev_norm t l)
  | JOB_MOVE l => JOB_MOVE (ev_norm t l)
  | QUEUE_CTRL l => QUEUE_CTRL (ev_norm t l)
  | HOST_CTRL l => HOST_CTRL (ev_norm t l)
  | MBD_DIE l => MBD_DIE (ev_norm t l)
  | MBD_UNFULFILL l => MBD_UNFULFILL (ev_norm t l)
  | JOB_FINISH l => JOB_FINISH (ev_norm t l)
  | LOAD_INDEX l => LOAD_INDEX (ev_norm t l)
  | CHKPNT l => CHKPNT (ev_norm t l)
  | MIG l => MIG (ev_norm t l)
  | PRE_EXEC_START l => PRE_EXEC_START (ev_norm t l)
  | MBD_START l => MBD_START (ev_norm t l)
  | JOB_MODIFY l => JOB_MODIFY (ev_norm t l)
  | JOB_SIGNAL l => JOB_SIGNAL (ev_norm t l)
  | JOB_EXECUTE l => JOB_EXECUTE (ev_norm t l)
  | JOB_MSG l => JOB_MSG (ev_norm t l)
  | JOB_MSG_ACK l => JOB_MSG_ACK (ev_norm t l)
  | JOB_REQUEUE l => JOB_REQUEUE (ev_norm t l)
  | JOB_SIGACT l => JOB_SIGACT (ev_norm t l)
  | SBD_JOB_STATUS l => SBD_JOB_STATUS (ev_norm t l)
  | JOB_START_ACCEPT l => JOB_START_ACCEPT (ev_norm t l)
  | JOB_CLEAN l => JOB_CLEAN (ev_norm t l)
  | JOB_FORCE l => JOB_FORCE (ev_norm t l)
  | LOG_SWITCH l => LOG_SWITCH (ev_norm t l)
  | JOB_MODIFY2 l => JOB_MODIFY2 (ev_norm t l)
  | JOB_ATTR_SET l => JOB_ATTR_SET (ev_norm t l)
  | OTHER n => OTHER n
  end.

Definition wf_event : event -> bool := on_event false (fun L c l => ev_wf l).
Definition body_event : event -> cstr := on_event [] (fun L c l => ev_body l).
Definition pad_event : event -> nat := on_event 0%nat (fun L c l => ev_pad (L := L)).
Definition nl_event : event -> bool := on_event false (fun L c l => ev_newline (L := L)).

Definition tail_event (e : event) : cstr :=
  repeat SP (pad_event e) ++ if nl_event e then [NL] else [].

Lemma write_event e : wf_event e = true -> writes (writeEvent e) (body_event e ++ tail_event e).
Proof. destruct e; intros H; try discriminate; exact (ev_writes l H). Qed.

Lemma rmap_ok {A B} (f : A -> B) m c a : (exists c', m c = ROk a c') ->
  exists c', rmap f m c = ROk (f a) c'.
Proof. intros [c' E]. exists c'. unfold rmap. now rewrite (bind_ok _ _ _ _ _ E). Qed.

Lemma read_event e t ty : wf_event e = true -> typeOf e = Some ty ->
  exists c, readEventRecord ty t (C (body_event e)) = ROk (norm_event t e) c.
Proof.
  destruct e; intros H [= <-]; try discriminate; exact (rmap_ok _ _ _ _ (ev_reads t l H)).
Qed.

Lemma line_event e : wf_event e = true -> lineok (body_event e) = true.
Proof. destruct e; intros H; try discriminate; exact (ev_line l H). Qed.

Lemma sep_event e : wf_event e = true -> sep (body_event e).
Proof. destruct e; intros H; try discriminate; exact (ev_sep l H). Qed.

Lemma wf_typed e : wf_event e = true -> exists name ty,
  type_name e = Some name /\ typeOf e = Some ty
  /\ getEventTypeAndKind name = Some (ty, kindOf ty)
  /\ (length name <? MAX_LSB_NAME_LEN)%nat = true /\ noquote name = true /\ plain name = true.
Proof.
  destruct e; intros H; try discriminate; clear H;
    (eexists; eexists; split; [reflexivity|]; split; [reflexivity|]; vm_compute; auto 6).
Qed.

(** ** One record *)

(** A version that the reader accepts. *)
Definition vers_ok (v : cstr) : bool :=
  noquote v && plain v && (length v <? MAX_VERSION_LEN)%nat
  && match atof v with Some x => negb (SFnonpos (narrow x)) | None => false end.

Definition wf_rec (r : eventRec) : bool := vers_ok (version r) && wf_event (eventLog r).

Definition nameOf (e : event) : cstr := match type_name e with Some n => n | None => [] end.

Definition line_of (r : eventRec) : cstr :=
  header (nameOf (eventLog r)) r ++ body_event (eventLog r).

Definition norm_rec (r : eventRec) : eventRec :=
  mkRec (version r) (wrap32 (eventTime r)) (norm_event (wrap32 (eventTime r)) (eventLog r)).

(** [lsb_puteventrec] writes the line of the record. *)
Lemma put_line r f : wf_rec r = true ->
  lsb_puteventrec r f = of_wres (fprintf (line_of r ++ tail_event (eventLog r)) f).
Proof.
  unfold wf_rec. intros. bool_split. unfold lsb_puteventrec, line_of, nameOf.
  destruct (wf_typed _ H0) as (n & ty & -> & _). f_equal. rewrite <- app_assoc.
  apply (writes_seq (fprintf (header n r)) (writeEvent (eventLog r)));
    auto using writes_fprintf, write_event.
Qed.

Lemma header_quoted name r : noquote name = true -> noquote (version r) = true ->
  header name r = quote name ++ fld_q (version r) ++ fld_t (eventTime r).
Proof.
  intros Hn Hv. unfold header. rewrite XFile.fld_raw_q by assumption.
  unfold quote at 1. rewrite XFile.esc_noquote by assumption. cbn. now rewrite <- !app_assoc.
Qed.

Lemma strip_name_quote maxLen s r : (length s <? maxLen)%nat = true -> sep r -> r <> [] ->
  strip_name maxLen (Some (quote s ++ r)) = ROk s (C r).
Proof.
  intros Hs Hr Hn. unfold strip_name. destruct (strip_at [] s r) as [E1 E2]; auto.
  cbn [app length Nat.add] in E1, E2. rewrite E1, E2, length_app.
  destruct (Nat.eqb_spec (length (quote s) + length r) (length (quote s)));
    [destruct r; [congruence|cbn in *; lia]|].
  apply Nat.ltb_lt in Hs. destruct (Nat.leb_spec maxLen (length s)); [lia|reflexivity].
Qed.

Lemma strip_name_C maxLen s r : (length s <? maxLen)%nat = true -> sep r -> r <> [] ->
  strip_name maxLen (C (fld_q s ++ r)) = ROk s (C r).
Proof. rewrite C_q. apply strip_name_quote. Qed.

Lemma check_version_ok v c : vers_ok v = true -> check_version v c = ROk tt c.
Proof.
  unfold vers_ok, check_version. intros. bool_split. destruct (atof v); [|discriminate].
  now destruct (SFnonpos _).
Qed.

(** The line of a record is parsed back. *)
Lemma parse_line_of r : wf_rec r = true ->
  exists c, parse_line (Some (line_of r)) = ROk (norm_rec r) c.
Proof.
  unfold wf_rec. intros. bool_split. unfold line_of, nameOf.
  destruct (wf_typed _ H0) as (n & ty & -> & Hty & Hget & Hn & Hq & _).
  assert (V := H). unfold vers_ok in V. bool_split.
  rewrite header_quoted, <- !app_assoc by assumption. unfold parse_line.
  eapply rd_step; [apply strip_name_quote; auto with elog; discriminate|cbv beta].
  eapply rd_step; [apply strip_name_C; auto with elog; discriminate|cbv beta].
  eapply rd_step; [now apply check_version_ok|cbv beta].
  eapply rd_step; [apply scan_t_C; now apply sep_event|cbv beta]. rd1. rewrite Hget.
  destruct (read_event (eventLog r) (wrap32 (eventTime r)) ty H0 Hty) as [c E].
  eapply rd_step; [exact E|]. eexists. reflexivity.
Qed.

(** ** Lines of the file *)

Lemma plain_quote s : plain s = true -> plain (quote s) = true.
Proof. intros H. apply (plain_q s) in H. unfold fld_q in H. cbn in H. exact H. Qed.

Lemma line_of_ok r : wf_rec r = true ->
  lineok (line_of r) = true /\ (exists l, line_of r = QT :: l) /\ (1 < length (line_of r))%nat.
Proof.
  unfold wf_rec. intros. bool_split. unfold line_of, nameOf.
  destruct (wf_typed _ H0) as (n & ty & -> & _ & _ & _ & Hq & Hp).
  unfold vers_ok in H. bool_split. split; [|split; [eexists; reflexivity|unfold header; rewrite !length_app; cbn; lia]].
  apply lineok_app; [|now apply line_event]. rewrite header_quoted by assumption.
  rewrite !plain_app, plain_quote, plain_q, plain_t by assumption. reflexivity.
Qed.

Lemma getNextLine_line l k rest : lineok l = true -> (exists l', l = QT :: l') ->
  getNextLine_ false (l ++ repeat SP k ++ NL :: rest) = (Some l, rest)
  /\ ((1 < length l)%nat -> getNextLine_ false (l ++ repeat SP k) = (Some l, [])).
Proof.
  intros Hl [l' E]. destruct (lineok_snoc l Hl) as (t & c & El & Hp & Hc).
  assert (B : all_blank l = false) by (rewrite E; reflexivity).
  rewrite El in Hp. unfold getNextLine_. split; [|intros Hlen].
  - destruct (getNextLineD_plain t c k rest 0 Hp Hc) as [D _].
    rewrite app_assoc, <- El in D. now rewrite (getNextLineC_visible _ _ _ _ _ _ D B).
  - destruct (getNextLineD_plain t c k rest 0 Hp Hc) as [_ D].
    rewrite app_assoc, <- El in D.
    rewrite (getNextLineC_visible _ _ _ _ _ _ (D ltac:(rewrite El, length_app in Hlen; cbn in Hlen; lia)) B).
    reflexivity.
Qed.

Lemma getNextLine_shorter fp l fp' : getNextLine_ false fp = (Some l, fp') ->
  (length fp' < length fp)%nat.
Proof.
  unfold getNextLine_, getNextLineC_. generalize 0. intros lc.
  assert (G : forall fuel fp lc l fp' lc',
    getNextLineC_fuel fuel false fp lc = Some (Some l, fp', lc') -> (length fp' < length fp)%nat).
  { induction fuel as [|fuel IH]; intros g c m g' c'; [discriminate|]. cbn.
    destruct (getNextLineD_ false g c) as [[[x|] y] z] eqn:E; [|discriminate].
    apply getNextLineD_shorter in E. destruct (all_blank x); [|congruence].
    intros ?%IH. lia. }
  destruct (getNextLineC_fuel _ false fp lc) as [[[o g] z]|] eqn:E; [|discriminate].
  intros [= -> ->]. eauto.
Qed.

(** The fuel of [lsb_geteventrec_ex] is enough. *)
Lemma next_record_line_total fuel b fp : (length fp < fuel)%nat ->
  exists r, next_record_line fuel b fp = Some r.
Proof.
  revert b fp; induction fuel as [|fuel IH]; intros b fp H; [lia|]. cbn [next_record_line].
  destruct (getNextLine_ false fp) as [[l|] fp'] eqn:E; [|eauto].
  apply getNextLine_shorter in E. destruct l as [|c l]; [eauto|].
  destruct (Ascii.eqb c HASH); [apply IH; lia|eauto].
Qed.

Lemma job_loop_total fuel ids fp : (length fp < fuel)%nat ->
  exists r, job_loop fuel ids fp = Some r.
Proof.
  revert fp; induction fuel as [|fuel IH]; intros fp H; [lia|]. cbn [job_loop].
  destruct (getNextLine_ false fp) as [[l|] fp'] eqn:E; [|eauto].
  apply getNextLine_shorter in E. destruct (match l with [] => false | _ => _ end); [apply IH; lia|].
  destruct (job_step ids (Some l)) as [[r|] c| |]; eauto. apply IH. lia.
Qed.

(** A comment line as [lsb.events] has it: [#], text, newline. *)
Definition comment (s : cstr) : cstr := HASH :: s ++ [NL].

Lemma getNextLine_comment s c k rest : plain (s ++ [c]) = true -> Ascii.eqb c SP = false ->
  getNextLine_ false (comment ((s ++ [c]) ++ repeat SP k) ++ rest) = (Some (HASH :: s ++ [c]), rest).
Proof.
  intros Hp Hc. unfold comment.
  destruct (getNextLineD_plain (HASH :: s) c k rest 0) as [D _]; [exact Hp|exact Hc|].
  unfold getNextLine_. rewrite (getNextLineC_visible false _ 0 (HASH :: s ++ [c]) rest 1);
    [reflexivity| |reflexivity].
  change (HASH :: s ++ [c]) with ((HASH :: s) ++ [c]). change 1 with (0 + 1). rewrite <- D.
  f_equal. cbn. rewrite <- !app_assoc. reflexivity.
Qed.

(** The next record of a file that continues with a record. *)
Lemma get_line r rest : wf_rec r = true -> nl_event (eventLog r) = true ->
  lsb_geteventrec_ex (line_of r ++ tail_event (eventLog r) ++ rest) = (GRec (norm_rec r), rest).
Proof.
  intros H Hn. destruct (line_of_ok r H) as (Hl & Hq & Hlen). unfold tail_event. rewrite Hn, <- app_assoc.
  destruct (getNextLine_line (line_of r) (pad_event (eventLog r)) rest Hl Hq) as [G _].
  unfold lsb_geteventrec_ex. cbn [next_record_line]. cbn [app]. rewrite G.
  destruct Hq as [l El]. destruct (parse_line_of r H) as [c P].
  rewrite El at 1. cbn iota. change (Ascii.eqb QT HASH) with false. cbn iota.
  now rewrite P.
Qed.

Lemma get_last_line r : wf_rec r = true ->
  lsb_geteventrec_ex (line_of r ++ tail_event (eventLog r)) = (GRec (norm_rec r), []).
Proof.
  intros H. destruct (nl_event (eventLog r)) eqn:Hn.
  - rewrite <- (get_line r [] H Hn). now rewrite app_nil_r.
  - destruct (line_of_ok r H) as (Hl & Hq & Hlen). unfold tail_event. rewrite Hn, app_nil_r.
    destruct (getNextLine_line (line_of r) (pad_event (eventLog r)) [] Hl Hq) as [_ G].
    unfold lsb_geteventrec_ex. cbn [next_record_line]. destruct Hq as [l El].
    rewrite (G Hlen).
    destruct (parse_line_of r H) as [c P]. rewrite El at 1. cbn iota.
    change (Ascii.eqb QT HASH) with false. cbn iota. now rewrite P.
Qed.

(** ** Whole files *)

(** Records written one after the other, up to the first failure. *)
Fixpoint put_all (rs : list eventRec) (f : FILE) : putres :=
  match rs with
  | [] => PutOk f
  | r :: rs' => match lsb_puteventrec r f with PutOk f' => put_all rs' f' | x => x end
  end.

(** The results of [n] calls of [lsb_geteventrec_ex], and the input left. *)
Fixpoint get_all (n : nat) (fp : cstr) : list getres * cstr :=
  match n with
  | O => ([], fp)
  | S n' =>
      let '(r, fp1) := lsb_geteventrec_ex fp in
      let '(l, fp2) := get_all n' fp1 in (r :: l, fp2)
  end.

Definition wf_line (r : eventRec) : bool := wf_rec r && nl_event (eventLog r).

Definition text_of (r : eventRec) : cstr := line_of r ++ tail_event (eventLog r).

Lemma put_text r w : wf_rec r = true ->
  lsb_puteventrec r (mkFILE w None) = PutOk (mkFILE (w ++ text_of r) None).
Proof. intros H. rewrite put_line by assumption. unfold fprintf. now rewrite fputs_spec. Qed.

Lemma put_all_text rs w : forallb wf_rec rs = true ->
  put_all rs (mkFILE w None) = PutOk (mkFILE (w ++ flds text_of rs) None).
Proof.
  revert w; induction rs as [|r rs IH]; intros w H; [unfold flds; cbn; now rewrite app_nil_r|].
  cbn in H. bool_split. cbn [put_all]. rewrite put_text by assumption.
  rewrite IH by assumption. unfold flds. cbn [map concat]. now rewrite app_assoc.
Qed.

Lemma get_all_text rs rest : forallb wf_line rs = true ->
  get_all (length rs) (flds text_of rs ++ rest) = (map (fun r => GRec (norm_rec r)) rs, rest).
Proof.
  induction rs as [|r rs IH]; intros H; [reflexivity|]. cbn in H. unfold wf_line in H.
  bool_split. unfold flds in *. cbn [length get_all map concat]. unfold text_of at 1.
  rewrite <- !app_assoc, get_line by assumption. rewrite IH by assumption. reflexivity.
Qed.

Lemma wf_line_rec rs : forallb wf_line rs = true -> forallb wf_rec rs = true.
Proof.
  rewrite !forallb_forall. intros H r Hr. apply H in Hr. unfold wf_line in Hr. now bool_split.
Qed.

Lemma norm_event_again t e : wf_event e = true ->
  wf_event (norm_event t e) = true /\ body_event (norm_event t e) = body_event e.
Proof. destruct e; intros H; try discriminate; exact (ev_again t l H). Qed.

Lemma norm_event_same t e :
  type_name (norm_event t e) = type_name e /\ tail_event (norm_event t e) = tail_event e
  /\ nl_event (norm_event t e) = nl_event e.
Proof. now destruct e. Qed.

(** A record that was read is written with the same text. *)
Lemma norm_rec_again r : wf_rec r = true ->
  wf_rec (norm_rec r) = true /\ text_of (norm_rec r) = text_of r.
Proof.
  unfold wf_rec. intros. bool_split. unfold text_of, line_of, norm_rec, header, nameOf. cbn.
  destruct (norm_event_again (wrap32 (eventTime r)) _ H0) as [-> ->].
  destruct (norm_event_same (wrap32 (eventTime r)) (eventLog r)) as (-> & -> & _).
  rewrite fld_t_wrap, H. auto.
Qed.

(** The loop of [lsbGetNextJobRecFromFile] on one line. *)
Definition job_of (e : event) : jobIdScan :=
  match typeOf e, C (body_event e) with
  | Some t, Some line => scanJobId line t
  | _, _ => NotJob
  end.

(** What the caller asks for: the submissions, and the events of the jobs. *)
Definition wanted (jobIds : list Z) (r : eventRec) : bool :=
  match job_of (eventLog r), typeOf (eventLog r) with
  | NotJob, _ | _, None => false
  | NoId, _ => true
  | Id z, Some t =>
      (length jobIds =? 0)%nat || is_new t || existsb (fun j => LSB_ARRAY_JOBID j =? z) jobIds
  end.

Lemma kind_not_job t line : kindOf t = EVENT_NON_JOB_RELATED -> scanJobId line t = NotJob.
Proof. destruct t; intros [=]; reflexivity. Qed.

Lemma strip_buf_quote size s r : (length s <? size)%nat = true -> sep r ->
  strip_buf size (Some (quote s ++ r)) = ROk s (C r).
Proof. intros. now apply (strip_buf_at size []). Qed.

Lemma ltb_below (n m k : nat) : (n <? m)%nat = true -> (m <= k)%nat ->
  (n <? k)%nat = true /\ (m <=? n)%nat = false.
Proof.
  rewrite Nat.ltb_lt. intros. split; [apply Nat.ltb_lt; lia|apply Nat.leb_gt; lia].
Qed.

Lemma readeventrecord_line r : wf_rec r = true -> 0 <= wrap32 (eventTime r) ->
  exists c, lsb_readeventrecord (Some (line_of r)) = ROk (norm_rec r) c.
Proof.
  unfold wf_rec. intros. bool_split. unfold line_of, nameOf.
  destruct (wf_typed _ H1) as (n & ty & -> & Hty & Hget & Hn & Hq & _).
  assert (V := H). unfold vers_ok in V. bool_split.
  destruct (ltb_below _ _ MAXLINELEN Hn ltac:(unfold MAX_LSB_NAME_LEN, MAXLINELEN; lia)) as [Hn1 Hn2].
  destruct (ltb_below _ _ MAXLINELEN H4 ltac:(unfold MAX_VERSION_LEN, MAXLINELEN; lia)) as [Hv1 Hv2].
  rewrite header_quoted, <- !app_assoc by assumption. unfold lsb_readeventrecord.
  eapply rd_step; [apply strip_buf_quote; auto with elog|cbv beta]. rewrite Hn2.
  eapply rd_step; [reflexivity|cbv beta].
  eapply rd_step; [apply strip_buf_C; auto with elog|cbv beta]. rewrite Hv2.
  eapply rd_step; [reflexivity|cbv beta].
  eapply rd_step; [apply scan_t_C; now apply sep_event|cbv beta]. rd1.
  eapply rd_step; [now apply check_version_ok|cbv beta]. rewrite Hget.
  assert (U : uwrap32 (wrap32 (eventTime r)) = wrap32 (eventTime r)).
  { pose proof (wrap32_int32 (eventTime r)) as I. unfold int32 in I. apply Z.mod_small. lia. }
  rewrite U. destruct (read_event (eventLog r) (wrap32 (eventTime r)) ty H1 Hty) as [c E].
  eapply rd_step; [exact E|]. eexists. reflexivity.
Qed.

Lemma job_step_line ids r : wf_rec r = true -> exists c,
  job_step ids (Some (line_of r)) = ROk (if wanted ids r then Some (norm_rec r) else None) c.
Proof.
  unfold wf_rec. intros. bool_split. unfold line_of, nameOf, wanted, job_of.
  destruct (wf_typed _ H0) as (n & ty & -> & Hty & Hget & Hn & Hq & _). rewrite Hty.
  assert (V := H). unfold vers_ok in V. bool_split.
  destruct (ltb_below _ _ MAXLINELEN Hn ltac:(unfold MAX_LSB_NAME_LEN, MAXLINELEN; lia)) as [Hn1 Hn2].
  destruct (ltb_below _ _ MAXLINELEN H3 ltac:(unfold MAX_VERSION_LEN, MAXLINELEN; lia)) as [Hv1 Hv2].
  rewrite header_quoted, <- !app_assoc by assumption. unfold job_step.
  eapply rd_step; [apply strip_buf_quote; auto with elog|cbv beta]. rewrite Hn2.
  eapply rd_step; [reflexivity|cbv beta]. rewrite Hget.
  assert (Hb := sep_event _ H0). assert (Hl := line_event _ H0).
  destruct (body_event (eventLog r)) as [|x b] eqn:Eb; [discriminate|].
  change (C (x :: b)) with (Some b). cbn iota.
  destruct (kindOf ty) eqn:K; [|rewrite kind_not_job by assumption; eexists; reflexivity].
  eapply rd_step; [apply strip_buf_C; auto with elog|cbv beta]. rewrite Hv2.
  eapply rd_step; [reflexivity|cbv beta].
  eapply rd_step; [now apply check_version_ok|cbv beta].
  eapply rd_step; [now apply scan_t_C|cbv beta]. rd1. change (C (x :: b)) with (Some b). cbn iota.
  unfold checkJobEventAndJobId.
  destruct (read_event (eventLog r) (wrap32 (eventTime r)) ty H0 Hty) as [c E].
  rewrite Eb in E. change (C (x :: b)) with (Some b) in E. unfold bind, ret. rewrite E.
  destruct (scanJobId b ty); [eexists; reflexivity|eexists; reflexivity|].
  destruct (_ || _); eexists; reflexivity.
Qed.
