(* ===== verification/LogTheorems.v ===== *)
(** * Properties of the event log (lsbatch/lib/lsb.log.c)

    Round trips of whole files, what a failed write leaves behind, reading the
    records of some jobs, progress of the reader, and the inputs on which the
    readers leave their buffers. *)
From Stdlib Require Import ZArith Ascii String List Bool Lia.
From Corelib Require Import SpecFloat.
From S2P Require Import Prelude JobId CNum Words LogStream EventCodec EventsSmall EventsRun EventsSubmit EventLog.
Import ListNotations.
Local Open Scope Z_scope.

(** ** Reading the records of some jobs: lemmas *)

Fixpoint next_wanted (ids : list Z) (rs : list eventRec) : option (eventRec * list eventRec) :=
  match rs with
  | [] => None
  | r :: rs' => if wanted ids r then Some (r, rs') else next_wanted ids rs'
  end.

(** [n] calls of [lsbGetNextJobRecFromFile]. *)
Fixpoint get_jobs (n : nat) (ids : list Z) (fp : cstr) : list getres :=
  match n with
  | O => []
  | S n' => let '(r, fp') := lsbGetNextJobRecFromFile fp ids in r :: get_jobs n' ids fp'
  end.

Lemma text_of_next r rest : wf_line r = true ->
  getNextLine_ false (text_of r ++ rest) = (Some (line_of r), rest).
Proof.
  unfold wf_line. intros. bool_split. destruct (line_of_ok r H) as (Hl & Hq & _).
  unfold text_of, tail_event. rewrite H0, <- !app_assoc.
  exact (proj1 (getNextLine_line (line_of r) _ rest Hl Hq)).
Qed.

Lemma text_of_length r rest : wf_line r = true -> (length rest < length (text_of r ++ rest))%nat.
Proof. intros H. eapply getNextLine_shorter, text_of_next, H. Qed.

Lemma job_loop_text fuel ids rs : forallb wf_line rs = true ->
  (length (flds text_of rs) < fuel)%nat ->
  job_loop fuel ids (flds text_of rs)
  = Some (match next_wanted ids rs with
          | Some (r, rs') => (GRec (norm_rec r), flds text_of rs')
          | None => (GErr LSBE_EOF, [])
          end).
Proof.
  revert fuel; induction rs as [|r rs IH]; intros fuel H Hf; [destruct fuel; [lia|reflexivity]|].
  cbn in H. bool_split. unfold flds in *. cbn [map concat] in *.
  pose proof (text_of_length r (concat (map text_of rs)) H).
  destruct fuel as [|fuel]; [lia|]. cbn [job_loop next_wanted].
  rewrite text_of_next by assumption. assert (W := H). unfold wf_line in W. bool_split.
  destruct (line_of_ok r H2) as (_ & (l & El) & _). destruct (job_step_line ids r H2) as [c E].
  rewrite El. change (Ascii.eqb QT HASH) with false. cbn iota. rewrite <- El, E.
  destruct (wanted ids r); [reflexivity|]. apply IH; [assumption|lia].
Qed.

Lemma next_job_text ids rs : forallb wf_line rs = true ->
  lsbGetNextJobRecFromFile (flds text_of rs) ids
  = match next_wanted ids rs with
    | Some (r, rs') => (GRec (norm_rec r), flds text_of rs')
    | None => (GErr LSBE_EOF, [])
    end.
Proof. intros H. unfold lsbGetNextJobRecFromFile. rewrite job_loop_text by (auto; lia). reflexivity. Qed.

Lemma next_wanted_filter ids rs :
  match next_wanted ids rs with
  | Some (r, rs') => filter (wanted ids) rs = r :: filter (wanted ids) rs'
      /\ incl rs' rs
  | None => filter (wanted ids) rs = []
  end.
Proof.
  induction rs as [|r rs IH]; [reflexivity|]. cbn. destruct (wanted ids r).
  - split; [reflexivity|]. now apply incl_tl, incl_refl.
  - destruct (next_wanted ids rs) as [[]|]; [|exact IH]. destruct IH. split; auto using incl_tl.
Qed.

Lemma get_jobs_wanted ids rs : forallb wf_line rs = true ->
  get_jobs (S (length (filter (wanted ids) rs))) ids (flds text_of rs)
  = map (fun r => GRec (norm_rec r)) (filter (wanted ids) rs) ++ [GErr LSBE_EOF].
Proof.
  remember (length (filter (wanted ids) rs)) as n eqn:En.
  revert rs En; induction n as [|n IH]; intros rs En H; cbn [get_jobs]; rewrite next_job_text by assumption;
    pose proof (next_wanted_filter ids rs) as N; destruct (next_wanted ids rs) as [[r rs']|].
  - destruct N as [N _]. rewrite N in En. discriminate.
  - now rewrite N.
  - destruct N as [N I]. rewrite N in En |- *. cbn [map app]. f_equal.
    apply IH; [now injection En|]. rewrite forallb_forall in *. auto.
  - rewrite N in En. discriminate.
Qed.

(** ** The job of a record

    By the fields of the record, whatever its text: the number of its job; for
    JOB_MODIFY2, whose job is a string, the number at its head. *)
Inductive subject := NoJob | AnyJob | Job (number : Z).

Definition subject_of (e : event) : subject :=
  match e with
  | JOB_NEW l | JOB_MODIFY l => Job (JobNew.jobId l)
  | JOB_START l | PRE_EXEC_START l => Job (JobStart.jobId l)
  | JOB_STATUS l => Job (JobStatus.jobId l)
  | JOB_SWITCH l => Job (JobSwitch.jobId l)
  | JOB_MOVE l => Job (JobMove.jobId l)
  | JOB_FINISH l => Job (JobFinish.jobId l)
  | CHKPNT l => Job (Chkpnt.jobId l)
  | MIG l => Job (Mig.jobId l)
  | JOB_SIGNAL l => Job (JobSignal.jobId l)
  | JOB_EXECUTE l => Job (JobExecute.jobId l)
  | JOB_MSG l => Job (JobMsg.jobId l)
  | JOB_MSG_ACK l => Job (JobMsgAck.jobId l)
  | JOB_REQUEUE l => Job (JobRequeue.jobId l)
  | JOB_SIGACT l => Job (JobSigAct.jobId l)
  | SBD_JOB_STATUS l => Job (SbdJobStatus.jobId l)
  | JOB_START_ACCEPT l => Job (JobStartAccept.jobId l)
  | JOB_CLEAN l => Job (JobClean.jobId l)
  | JOB_FORCE l => Job (JobForce.jobId l)
  | JOB_ATTR_SET l => Job (JobAttrSet.jobId l)
  | JOB_MODIFY2 l =>
      match JobMod.jobIdStr l with
      | Some s => match scan_int s with Some (z, _) => Job z | None => AnyJob end
      | None => AnyJob
      end
  | _ => NoJob
  end.

Definition is_message (e : event) : bool := match e with JOB_MSG _ | JOB_MSG_ACK _ => true | _ => false end.
Definition is_submission (e : event) : bool := match e with JOB_NEW _ => true | _ => false end.

Lemma scan_id_first z r : int32b z = true -> sep r -> scan_id (dec z ++ r) = Id z.
Proof. intros Hz Hr. unfold scan_id. rewrite scan_int_dec; auto. now apply int32b_spec. Qed.

Lemma scan_digits_esc s r acc k :
  fst (scan_digits acc k (esc s ++ QT :: r)) = fst (scan_digits acc k s).
Proof.
  revert acc k; induction s as [|c s IH]; intros acc k; [reflexivity|]. cbn [esc].
  destruct (Ascii.eqb_spec c QT) as [->|N]; [reflexivity|]. cbn. destruct (isdigit c); [apply IH|reflexivity].
Qed.

Lemma skip_space_esc s r : skip_space (esc s ++ QT :: r) = esc (skip_space s) ++ QT :: r.
Proof.
  induction s as [|c s IH]; [reflexivity|]. cbn [esc skip_space].
  destruct (Ascii.eqb_spec c QT) as [->|N]; [reflexivity|]. cbn. destruct (isspace c); [apply IH|].
  cbn. destruct (Ascii.eqb_spec c QT); [contradiction|reflexivity].
Qed.

Lemma scan_sign_esc s r : exists s', scan_sign (esc s ++ QT :: r) = (fst (scan_sign s), esc s' ++ QT :: r)
  /\ snd (scan_sign s) = s'.
Proof.
  destruct s as [|c s]; [exists []; split; reflexivity|]. cbn [esc scan_sign].
  destruct (Ascii.eqb_spec c QT) as [->|N].
  - exists (QT :: s). split; reflexivity.
  - cbn [app scan_sign]. destruct (Ascii.eqb c "-"); [exists s; split; reflexivity|].
    destruct (Ascii.eqb c "+"); [exists s; split; reflexivity|].
    exists (c :: s). cbn [esc]. destruct (Ascii.eqb_spec c QT); [contradiction|split; reflexivity].
Qed.

(** The number at the head of a string is found behind its quotation mark. *)
Lemma scan_id_esc s r : scan_id (esc s ++ QT :: r) = scan_id s.
Proof.
  unfold scan_id, scan_int. rewrite skip_space_esc.
  destruct (scan_sign_esc (skip_space s) r) as (s' & -> & E). destruct (scan_sign (skip_space s)) as [neg s1]. cbn in E |- *.
  subst s'. pose proof (scan_digits_esc s1 r 0 0) as D.
  destruct (scan_digits 0 0 (esc s1 ++ QT :: r)) as [[v k] q], (scan_digits 0 0 s1) as [[v' k'] q']. cbn in D.
  injection D as -> ->. now destruct k'.
Qed.

Definition scan_of (x : subject) : jobIdScan := match x with NoJob => NotJob | AnyJob => NoId | Job z => Id z end.



Lemma number_first z r : int32b z = true -> sep r ->
  match C (fld_d z ++ r) with Some line => scan_id line | None => NotJob end = Id z.
Proof. intros Hz Hr. rewrite C_d. now apply scan_id_first. Qed.

Lemma number_second u z r : int32b u = true -> int32b z = true -> sep r ->
  match C (fld_d u ++ fld_d z ++ r) with
  | Some line => match scan_int line with Some (_, l) => scan_id (skip_space l) | None => NoId end
  | None => NotJob
  end = Id z.
Proof.
  intros Hu Hz Hr. rewrite C_d, scan_int_dec; [|now apply int32b_spec|reflexivity].
  change (skip_space (fld_d z ++ r)) with (skip_space (dec z ++ r)).
  rewrite dec_signed, skip_space_sign, <- dec_signed by lia. now apply scan_id_first.
Qed.


(** The conditions on the fields of a record, one by one. *)
Ltac fields_of H :=
  match type of H with
  | ?b = true =>
      let b' := eval cbv beta iota delta [ev_wf
        JobNew.jobNew_codec JobNew.wf JobStart.jobStart_codec JobStart.wf JobStatus.jobStatus_codec
        JobStatus.wf JobSwitch.jobSwitch_codec JobSwitch.wf JobMove.jobMove_codec JobMove.wf
        JobFinish.jobFinish_codec JobFinish.wf Mig.mig_codec Mig.wf JobSignal.jobSignal_codec JobSignal.wf
        JobExecute.jobExecute_codec JobExecute.wf JobSigAct.jobSigAct_codec JobSigAct.wf
        JobForce.jobForce_codec JobForce.wf JobMod.jobMod_codec JobMod.wf Chkpnt.chkpnt_codec Chkpnt.wf
        JobRequeue.jobRequeue_codec JobRequeue.wf SbdJobStatus.sbdJobStatus_codec SbdJobStatus.wf
        JobStartAccept.jobStartAccept_codec JobStartAccept.wf JobClean.jobClean_codec JobClean.wf
        JobAttrSet.jobAttrSet_codec JobAttrSet.wf
        JobMsg.jobMsg_codec JobMsg.wf JobMsgAck.jobMsgAck_codec JobMsgAck.wf JobNew.wf_prepared JobMod.wf_prepared ints forallb] in b in
      change (b' = true) in H
  end; bool_split.

(** The number that the test of the code reads from the line of a record. *)
Lemma job_of_subject e : wf_event e = true -> is_message e = false -> job_of e = scan_of (subject_of e).
Proof.
  intros H M. destruct e; try discriminate; try reflexivity; cbv beta iota delta [wf_event on_event] in H.
  all: unfold job_of; cbv beta iota delta [typeOf body_event on_event scanJobId subject_of scan_of].
  all: try (apply number_first; [|reflexivity]; fields_of H; assumption).
  all: try (apply number_second; [| |reflexivity]; fields_of H; assumption).
  change (ev_body l) with (JobMod.body l). unfold JobMod.body, JobMod.body_prepared.
  change (JobMod.jobIdStr (JobMod.prepare l)) with (JobMod.jobIdStr l).
  assert (O : ostr (JobMod.jobIdStr l) = true) by (fields_of H; assumption).
  destruct (JobMod.jobIdStr l) as [s|]; [|discriminate]. cbn [fld_o]. rewrite C_q. unfold quote. cbn [app].
  rewrite Ascii.eqb_refl, <- app_assoc. cbn [app]. rewrite scan_id_esc. unfold scan_id. now destruct (scan_int s) as [[]|].
Qed.

(** The number that the code compares: for messages it is that of the user, which
    stands first in their lines. *)
Definition tested (e : event) : subject :=
  match e with
  | JOB_MSG l => Job (JobMsg.usrId l)
  | JOB_MSG_ACK l => Job (JobMsgAck.usrId l)
  | _ => subject_of e
  end.

Definition chosen (x : subject) (new : bool) (ids : list Z) : bool :=
  match x with
  | NoJob => false
  | AnyJob => true
  | Job z => (length ids =? 0)%nat || new || existsb (fun j => LSB_ARRAY_JOBID j =? z) ids
  end.

(** What a caller with the jobs [ids] asks for: every submission and the records of
    these jobs, all records of jobs when none is given; and what it gets. *)
Definition asked (ids : list Z) (r : eventRec) : bool :=
  chosen (subject_of (eventLog r)) (is_submission (eventLog r)) ids.
Definition selected (ids : list Z) (r : eventRec) : bool :=
  chosen (tested (eventLog r)) (is_submission (eventLog r)) ids.

Lemma job_of_tested e : wf_event e = true -> job_of e = scan_of (tested e).
Proof.
  intros H. destruct (is_message e) eqn:M; [|rewrite job_of_subject by assumption; now destruct e].
  destruct e; try discriminate; unfold job_of; cbv beta iota delta [typeOf body_event on_event scanJobId tested scan_of];
    (apply number_first; [|reflexivity]; cbv beta iota delta [wf_event on_event] in H; fields_of H; assumption).
Qed.

Lemma wanted_selected ids r : wf_rec r = true -> wanted ids r = selected ids r.
Proof.
  unfold wf_rec. intros H. bool_split. unfold wanted, selected. rewrite job_of_tested by assumption.
  destruct (eventLog r); try discriminate; try reflexivity.
  cbn. destruct (JobMod.jobIdStr l) as [s|]; [|reflexivity]. now destruct (scan_int s) as [[]|].
Qed.

Lemma selected_asked ids r : is_message (eventLog r) = false -> selected ids r = asked ids r.
Proof. unfold selected, asked. now destruct (eventLog r). Qed.

(** ** Lines with several records

    [writeSbdJobStatus] writes no newline, so the next record goes on in the line
    of the status.  The reader takes the first record of a line: [visible] are
    the records that begin a line. *)
Fixpoint seen (first : bool) (rs : list eventRec) : list eventRec :=
  match rs with
  | [] => []
  | r :: rs' => (if first then [r] else []) ++ seen (nl_event (eventLog r)) rs'
  end.

Definition visible (rs : list eventRec) : list eventRec := seen true rs.

Lemma visible_all rs : forallb (fun r => nl_event (eventLog r)) rs = true -> visible rs = rs.
Proof. unfold visible. induction rs as [|r rs IH]; [reflexivity|]. cbn. intros. bool_split. rewrite H. now rewrite IH. Qed.

Definition ends_number (r : cstr) : Prop := match r with c :: _ => isdigit c = false | [] => True end.

Lemma no_newline r : wf_rec r = true -> nl_event (eventLog r) = false ->
  exists l, eventLog r = SBD_JOB_STATUS l /\ SbdJobStatus.wf l = true /\ text_of r = line_of r.
Proof.
  unfold wf_rec. intros H N. bool_split. unfold text_of, tail_event.
  destruct (eventLog r) eqn:E; try discriminate. exists l. split; [reflexivity|]. split; [assumption|].
  rewrite N. cbn. now rewrite app_nil_r.
Qed.

Lemma scan_d_stop z r : int32b z = true -> ends_number r -> scan_d (Some (fld_d z ++ r)) = ROk z (Some r).
Proof.
  intros Hz Hr. cbn. unfold fld_d. cbn [app]. rewrite scan_int_space, scan_int_stop; auto. now apply int32b_spec.
Qed.

(** A status is read whatever follows its last number. *)
Lemma read_status l r : SbdJobStatus.wf l = true -> ends_number r ->
  exists c, SbdJobStatus.readSbdJobStatus (C (SbdJobStatus.body l ++ r)) = ROk (SbdJobStatus.norm l) c.
Proof.
  intros H Hr. cbn in H. bool_split. unfold SbdJobStatus.readSbdJobStatus, SbdJobStatus.body. rewrite <- !app_assoc.
  eapply rd_step; [apply scan_d_C; [assumption|reflexivity]|cbv beta].
  repeat (eapply rd_step; [first [apply scan_t_S; reflexivity|apply scan_d_S; [assumption|reflexivity]]|cbv beta]).
  eapply rd_step; [apply scan_d_stop; assumption|cbv beta]. rd1. eexists. reflexivity.
Qed.

Lemma parse_row r l : wf_rec r = true -> nl_event (eventLog r) = false -> ends_number l ->
  exists c, parse_line (Some (line_of r ++ l)) = ROk (norm_rec r) c.
Proof.
  intros H N Hl. destruct (no_newline r H N) as (x & E & Hx & _). unfold wf_rec in H. bool_split.
  unfold line_of, nameOf, norm_rec. rewrite E. cbn [type_name body_event on_event norm_event].
  change (ev_body x) with (SbdJobStatus.body x). change (ev_norm _ x) with (SbdJobStatus.norm x).
  assert (V := H). unfold vers_ok in V. bool_split.
  rewrite header_quoted, <- !app_assoc by (reflexivity || assumption). unfold parse_line.
  eapply rd_step; [apply strip_name_quote; auto with elog; discriminate|cbv beta].
  eapply rd_step; [apply strip_name_C; auto with elog; discriminate|cbv beta].
  eapply rd_step; [now apply check_version_ok|cbv beta].
  eapply rd_step; [apply scan_t_C; reflexivity|cbv beta]. rd1.
  change (getEventTypeAndKind _) with (Some (EVENT_SBD_JOB_STATUS, EVENT_JOB_RELATED)). cbn iota beta.
  destruct (read_status x l Hx Hl) as [c R].
  eapply rd_step; [|eexists; reflexivity]. cbn [readEventRecord]. unfold rmap. now rewrite (bind_ok _ _ _ _ _ R).
Qed.

(** The text of records up to the end of the first line. *)
Lemma row_split rs : forallb wf_rec rs = true -> rs <> [] ->
  exists l k rs', lineok l = true /\ (exists l', l = QT :: l') /\ (1 < length l)%nat
    /\ seen false rs = visible rs' /\ forallb wf_rec rs' = true /\ (length rs' < length rs)%nat
    /\ (flds text_of rs = l ++ repeat SP k ++ NL :: flds text_of rs' \/ flds text_of rs = l ++ repeat SP k /\ rs' = []).
Proof.
  induction rs as [|r rs IH]; intros H Hn; [congruence|]. cbn in H. bool_split. clear Hn.
  destruct (line_of_ok r H) as (Hl & Hq & Hlen). unfold flds. cbn [map concat seen length].
  destruct (nl_event (eventLog r)) eqn:N.
  - exists (line_of r), (pad_event (eventLog r)), rs. split; [assumption|]. split; [assumption|]. split; [assumption|].
    split; [reflexivity|]. split; [assumption|]. split; [lia|]. left.
    unfold text_of at 1, tail_event. rewrite N, <- !app_assoc. reflexivity.
  - destruct (no_newline r H N) as (_ & _ & _ & E). rewrite E. destruct rs as [|r2 rs].
    + exists (line_of r), 0%nat, []. cbn. repeat split; auto.
    + destruct IH as (l & k & rs' & L1 & (l' & L2) & L3 & L4 & L5 & L6 & L7); [assumption|congruence|].
      exists (line_of r ++ l), k, rs'. split; [apply lineok_app; [unfold lineok in Hl; now bool_split|assumption]|].
      split; [destruct Hq as [q ->]; eexists; reflexivity|]. split; [rewrite length_app; lia|].
      split; [exact L4|]. split; [exact L5|]. split; [lia|]. unfold flds in L7.
      destruct L7 as [->|[-> ->]]; [left|right; split; [|reflexivity]]; now rewrite <- !app_assoc.
Qed.

(** One call reads the first record of a line and leaves the lines behind it. *)
Lemma get_row r rs : wf_rec r = true -> forallb wf_rec rs = true ->
  exists rs', lsb_geteventrec_ex (flds text_of (r :: rs)) = (GRec (norm_rec r), flds text_of rs')
    /\ seen (nl_event (eventLog r)) rs = visible rs' /\ forallb wf_rec rs' = true /\ (length rs' <= length rs)%nat.
Proof.
  intros H Hs. unfold flds. cbn [map concat]. destruct (nl_event (eventLog r)) eqn:N.
  { exists rs. unfold text_of at 1. rewrite <- app_assoc, get_line by assumption. repeat split; auto. }
  destruct (no_newline r H N) as (_ & _ & _ & E). destruct rs as [|r2 rs].
  { exists []. cbn [map concat]. rewrite app_nil_r. unfold text_of. rewrite get_last_line by assumption. repeat split; auto. }
  destruct (row_split (r2 :: rs) Hs) as (l & k & rs' & L1 & (l' & L2) & L3 & L4 & L5 & L6 & L7); [congruence|].
  exists rs'. split; [|repeat split; auto; lia]. rewrite E. destruct (line_of_ok r H) as (Hl & Hq & Hlen).
  destruct (parse_row r l H N) as [c P]; [rewrite L2; reflexivity|].
  assert (G : getNextLine_ false (line_of r ++ flds text_of (r2 :: rs)) = (Some (line_of r ++ l), flds text_of rs')).
  { destruct (getNextLine_line (line_of r ++ l) k (flds text_of rs')) as [G1 G2].
    - apply lineok_app; [unfold lineok in Hl; now bool_split|assumption].
    - destruct Hq as [q ->]. eexists. reflexivity.
    - destruct L7 as [->|[-> ->]]; rewrite app_assoc; [exact G1|]. apply G2. rewrite length_app. lia. }
  unfold lsb_geteventrec_ex. cbn [next_record_line]. unfold flds in G at 1. rewrite G. destruct Hq as [q Eq].
  rewrite Eq at 1. cbn [app]. change (Ascii.eqb QT HASH) with false. cbn iota. now rewrite P.
Qed.

Lemma get_visible n rs : (length rs <= n)%nat -> forallb wf_rec rs = true ->
  get_all (S (length (visible rs))) (flds text_of rs)
  = (map (fun r => GRec (norm_rec r)) (visible rs) ++ [GErr LSBE_EOF], []).
Proof.
  revert rs; induction n as [|n IH]; intros [|r rs] Hn H; try reflexivity; cbn in Hn; [lia|].
  cbn in H. bool_split. destruct (get_row r rs) as (rs' & G & S & W & L); [assumption..|].
  unfold visible. cbn [seen app length map]. rewrite S. cbn [get_all]. rewrite G.
  specialize (IH rs' ltac:(lia) W). cbn [get_all] in IH |- *. now rewrite IH.
Qed.

(** ** Records that are read back as they are

    The layouts carry all fields of 19 types.  In six more a period or a time is
    printed as an [int], and JOB_STATUS and JOB_ATTR_SET leave out a field; these
    records come back unchanged when the fields have the values given here.  The
    other types (submissions, modifications, finished jobs) come back in the
    normal form [norm_rec]. *)
Definition exact_event (e : event) : bool :=
  match e with
  | JOB_STATUS l => int32b (JobStatus.endTime l) && (JobStatus.jFlags l =? 0) && negb (JobStatus.ru l =? 0)
  | SBD_JOB_STATUS l => int32b (SbdJobStatus.actPeriod l)
  | CHKPNT l => int32b (Chkpnt.period l)
  | JOB_SIGACT l => int32b (JobSigAct.period l)
  | MBD_UNFULFILL l => int32b (Unfulfill.chkPeriod l)
  | JOB_ATTR_SET l => match JobAttrSet.hostname l with None => true | Some _ => false end
  | JOB_NEW _ | JOB_MODIFY _ | JOB_MODIFY2 _ | JOB_FINISH _ | OTHER _ => false
  | _ => true
  end.

Definition exact_rec (r : eventRec) : bool := int32b (eventTime r) && exact_event (eventLog r).

Lemma norm_exact r : exact_rec r = true -> norm_rec r = r.
Proof.
  unfold exact_rec. intros. bool_split. apply int32b_spec in H. unfold norm_rec. destruct r as [v t e].
  cbn [version eventTime eventLog] in *. rewrite wrap32_id by assumption. f_equal.
  destruct e; try discriminate; try reflexivity; destruct l; cbn in *; bool_split.
  - apply int32b_spec in H0. apply Z.eqb_eq in H2. apply negb_true_iff in H1. unfold JobStatus.norm. cbn.
    rewrite wrap32_id, H1 by assumption. now subst.
  - apply int32b_spec in H0. unfold Unfulfill.norm. cbn. now rewrite wrap32_id.
  - apply int32b_spec in H0. unfold Chkpnt.norm. cbn. now rewrite wrap32_id.
  - apply int32b_spec in H0. unfold JobSigAct.norm. cbn. now rewrite wrap32_id.
  - apply int32b_spec in H0. unfold SbdJobStatus.norm. cbn. now rewrite wrap32_id.
  - now destruct hostname.
Qed.

(** ** Comment lines *)

Lemma notes_record ns r rest : forallb lineok ns = true -> wf_line r = true ->
  forall b fuel, (length ns < fuel)%nat ->
  next_record_line fuel b (flds comment ns ++ text_of r ++ rest) = Some (inl (line_of r), rest).
Proof.
  intros Hn Hr. induction ns as [|s ns IH]; intros b [|fuel] Hf; cbn [length] in Hf; try lia; cbn [next_record_line].
  - cbn [flds map concat app]. rewrite text_of_next by assumption. unfold wf_line in Hr. bool_split.
    destruct (line_of_ok r H) as (_ & (l & ->) & _). reflexivity.
  - cbn in Hn. bool_split. destruct (lineok_snoc s H) as (t & c & -> & Hp & Hc).
    unfold flds. cbn [map concat]. rewrite <- app_assoc.
    pose proof (getNextLine_comment t c 0 (concat (map comment ns) ++ text_of r ++ rest) Hp Hc) as G.
    cbn [repeat] in G. rewrite app_nil_r in G. rewrite G. change (Ascii.eqb HASH HASH) with true. cbn iota.
    apply IH; [assumption|lia].
Qed.

Lemma notes_end ns : forallb lineok ns = true -> forall b fuel, (length ns < fuel)%nat ->
  next_record_line fuel b (flds comment ns) = Some (inr (b || negb (length ns =? 0)%nat), []).
Proof.
  intros Hn. induction ns as [|s ns IH]; intros b [|fuel] Hf; cbn [length] in Hf; try lia; cbn [next_record_line].
  - cbn. now rewrite orb_false_r.
  - cbn in Hn. bool_split. destruct (lineok_snoc s H) as (t & c & -> & Hp & Hc). unfold flds. cbn [map concat].
    pose proof (getNextLine_comment t c 0 (concat (map comment ns)) Hp Hc) as G.
    cbn [repeat] in G. rewrite app_nil_r in G. rewrite G. change (Ascii.eqb HASH HASH) with true. cbn iota.
    fold (flds comment ns). rewrite IH by (assumption || lia). now rewrite orb_true_r.
Qed.

Lemma notes_length ns : (length ns <= length (flds comment ns))%nat.
Proof. unfold flds. induction ns as [|s ns IH]; [auto|]. cbn. rewrite length_app. lia. Qed.

(** A log as it is on disk: each record may have comment lines before it, and there
    may be some at the end. *)
Definition block_text (b : list cstr * eventRec) : cstr := flds comment (fst b) ++ text_of (snd b).
Definition block_ok (b : list cstr * eventRec) : bool := forallb lineok (fst b) && wf_line (snd b).
Definition log_text (bs : list (list cstr * eventRec)) (ns : list cstr) : cstr := flds block_text bs ++ flds comment ns.

Lemma get_block b rest : block_ok b = true ->
  lsb_geteventrec_ex (block_text b ++ rest) = (GRec (norm_rec (snd b)), rest).
Proof.
  unfold block_ok. intros. bool_split. unfold block_text, lsb_geteventrec_ex. rewrite <- app_assoc.
  rewrite notes_record by (assumption || (rewrite !length_app; pose proof (notes_length (fst b)); lia)).
  unfold wf_line in H0. bool_split. destruct (parse_line_of (snd b) H0) as [c ->]. reflexivity.
Qed.

Lemma get_end ns : forallb lineok ns = true ->
  lsb_geteventrec_ex (flds comment ns) = (if (length ns =? 0)%nat then GErr LSBE_EOF else GEofClosed, []).
Proof.
  intros H. unfold lsb_geteventrec_ex. rewrite notes_end by (assumption || (pose proof (notes_length ns); lia)).
  cbn [orb]. now destruct (length ns =? 0)%nat.
Qed.

Lemma get_blocks bs ns : forallb block_ok bs = true -> forallb lineok ns = true ->
  get_all (S (length bs)) (log_text bs ns)
  = (map (fun b => GRec (norm_rec (snd b))) bs ++ [if (length ns =? 0)%nat then GErr LSBE_EOF else GEofClosed], []).
Proof.
  intros Hb Hn. unfold log_text. induction bs as [|b bs IH].
  - cbn [length get_all map app]. change (flds block_text [] ++ flds comment ns) with (flds comment ns).
    now rewrite get_end.
  - cbn in Hb. bool_split. unfold flds at 1. cbn [map concat length]. rewrite <- app_assoc.
    cbn [get_all]. rewrite get_block by assumption. specialize (IH H0). cbn [get_all] in IH.
    unfold flds at 1 in IH. now rewrite IH.
Qed.

(** ** Sample records *)

Definition sample_switch : eventRec :=
  mkRec (cs "1.0") 1700000000
    (JOB_SWITCH (JobSwitch.mk 501 17 (cs "night") 0 (cs "lu ser"))).

Definition sample_clean : eventRec := mkRec (cs "1.0") 1700000060 (JOB_CLEAN (JobClean.mk 17 0)).

Definition sample_force : eventRec :=
  mkRec (cs "1.0") 1700000099
    (JOB_FORCE (JobForce.mk 0 2 [cs "hostA"; cs "host B"] 18 3 1 (cs "root"))).

Definition sample_log : list eventRec := [sample_switch; sample_clean; sample_force].

(** ** Files *)

(** C1: Any sequence of well-formed records of the 29 types is written by
    [lsb_puteventrec] to a text from which the calls of [lsb_geteventrec_ex]
    return, in order, the records that begin a line, and then the end of the
    file.  These are all records when each of them is of one of the 28 types whose
    line ends in a newline, and then they are read whatever follows in the file; a
    record behind an SBD_JOB_STATUS record, which has no newline, is in its line
    and is not returned.  Each record comes back in its normal form, which has the
    same text, and which is the record itself when no field is cut to 32 bits or
    left out by the layout ([exact_rec]). *)
Theorem log_roundtrip rs : forallb wf_rec rs = true ->
  exists text, put_all rs (mkFILE [] None) = PutOk (mkFILE text None)
    /\ get_all (S (length (visible rs))) text
       = (map (fun r => GRec (norm_rec r)) (visible rs) ++ [GErr LSBE_EOF], [])
    /\ (forallb wf_line rs = true -> visible rs = rs
        /\ forall rest, get_all (length rs) (text ++ rest) = (map (fun r => GRec (norm_rec r)) rs, rest))
    /\ forall r, In r rs -> text_of (norm_rec r) = text_of r /\ (exact_rec r = true -> norm_rec r = r).
Proof.
  intros H. exists (flds text_of rs). split; [now rewrite put_all_text|].
  split; [now apply (get_visible (length rs))|]. split.
  - intros L. split; [|intros; now apply get_all_text]. apply visible_all.
    rewrite forallb_forall in *. intros r Hr. specialize (L r Hr). unfold wf_line in L. now bool_split.
  - intros r Hr. rewrite forallb_forall in H. split; [now apply norm_rec_again, H|apply norm_exact].
Qed.

(** A status of a job of the slave daemon, and a log in which it is followed by
    another record. *)
Definition sample_status : eventRec :=
  mkRec (cs "1.0") 1700000070 (SBD_JOB_STATUS (SbdJobStatus.mk 17 4 0 0 231 0 60 0 0 0 0 0)).

Lemma log_roundtrip_witness :
  (exists text, put_all sample_log (mkFILE [] None) = PutOk (mkFILE text None)
     /\ get_all 3 (text ++ []) = (map GRec sample_log, []))
  /\ exists text, put_all [sample_status; sample_clean; sample_force] (mkFILE [] None) = PutOk (mkFILE text None)
     /\ get_all 3 text = ([GRec sample_status; GRec sample_force; GErr LSBE_EOF], []).
Proof.
  split.
  - destruct (log_roundtrip sample_log) as (text & P & _ & G & _); [vm_compute; reflexivity|].
    exists text. split; [exact P|]. destruct G as [_ G]; [vm_compute; reflexivity|]. exact (G []).
  - destruct (log_roundtrip [sample_status; sample_clean; sample_force]) as (text & P & G & _); [vm_compute; reflexivity|].
    exists text. split; [exact P|exact G].
Defined.

(** C2: A write that runs out of space returns [LSBE_SYS_CALL] and leaves a
    prefix of the line at the end of the log; the well-formed records written
    before, of the 28 types whose line ends in a newline, are still read back, in
    order and in normal form. *)
Theorem log_survives_failed_write rs r k :
  forallb wf_line rs = true -> wf_rec r = true ->
  exists f', lsb_puteventrec r (mkFILE (flds text_of rs) (Some k))
      = (if (length (text_of r) <=? k)%nat then PutOk f' else PutErr LSBE_SYS_CALL f')
    /\ get_all (length rs) (written f')
       = (map (fun r => GRec (norm_rec r)) rs, firstn k (text_of r)).
Proof.
  intros Hrs Hr. rewrite put_line by assumption. unfold fprintf. rewrite fputs_spec.
  cbn [room written]. fold (text_of r).
  destruct (Nat.leb_spec (length (text_of r)) k) as [L|L]; cbn [wdone of_wres]; eexists;
    (split; [reflexivity|]); cbn [written]; rewrite get_all_text by assumption; [|reflexivity].
  now rewrite firstn_all2 by lia.
Qed.

Lemma log_survives_failed_write_witness :
  exists f', lsb_puteventrec sample_force (mkFILE (flds text_of [sample_clean]) (Some 20%nat))
      = PutErr LSBE_SYS_CALL f'
    /\ fst (get_all 1 (written f')) = [GRec (norm_rec sample_clean)].
Proof.
  destruct (log_survives_failed_write [sample_clean] sample_force 20) as (f & E & G);
    [vm_compute; reflexivity|vm_compute; reflexivity|].
  exists f. split; [rewrite E; reflexivity|exact (f_equal fst G)].
Defined.

(** C33: In a log of well-formed records of the 28 types whose line ends in a
    newline, with any number of comment lines before each record and at the end,
    the calls of [lsb_geteventrec_ex] return the records (in normal form), and
    then the end of the file; writing them again gives the text of the log
    without its comment lines, hence the same bytes when there are none. *)
Theorem log_copy_exact bs ns : forallb block_ok bs = true -> forallb lineok ns = true ->
  get_all (S (length bs)) (log_text bs ns)
  = (map (fun b => GRec (norm_rec (snd b))) bs ++ [if (length ns =? 0)%nat then GErr LSBE_EOF else GEofClosed], [])
  /\ put_all (map (fun b => norm_rec (snd b)) bs) (mkFILE [] None) = PutOk (mkFILE (flds (fun b => text_of (snd b)) bs) None)
  /\ (forallb (fun b => length (fst b) =? 0)%nat bs && (length ns =? 0)%nat = true ->
      flds (fun b => text_of (snd b)) bs = log_text bs ns).
Proof.
  intros Hb Hn. split; [now apply get_blocks|].
  assert (A : forallb wf_rec (map (fun b => norm_rec (snd b)) bs) = true
              /\ flds text_of (map (fun b => norm_rec (snd b)) bs) = flds (fun b => text_of (snd b)) bs).
  { clear Hn ns. unfold flds. induction bs as [|b bs IH]; [auto|]. cbn [forallb map concat] in Hb |- *. bool_split.
    unfold block_ok, wf_line in H. bool_split. destruct (norm_rec_again (snd b) H1) as [-> ->]. destruct IH as [-> ->]; auto. }
  destruct A as [Aw At]. split; [rewrite put_all_text by assumption; now rewrite At|].
  intros E. bool_split. unfold log_text. destruct ns; [|discriminate]. cbn [flds map concat]. rewrite app_nil_r.
  clear - H. induction bs as [|[xs r] bs IH]; [reflexivity|]. cbn in H. bool_split. destruct xs; [|discriminate].
  unfold flds in *. cbn [map concat]. now rewrite IH.
Qed.

Lemma log_copy_exact_witness :
  get_all 3 (log_text [([], sample_switch); ([cs "1700000060"], sample_clean)] [cs "end"])
    = ([GRec sample_switch; GRec sample_clean; GEofClosed], [])
  /\ put_all [sample_switch; sample_clean] (mkFILE [] None) = PutOk (mkFILE (text_of sample_switch ++ text_of sample_clean) None).
Proof.
  destruct (log_copy_exact [([], sample_switch); ([cs "1700000060"], sample_clean)] [cs "end"]) as (G & P & _);
    [vm_compute; reflexivity|vm_compute; reflexivity|].
  split; [exact G|]. unfold flds in P. cbn [map concat] in P. rewrite app_nil_r in P. exact P.
Defined.

(** C3: [lsbGetNextJobRecFromFile], called on a log of well-formed records of the 28
    types whose line ends in a newline until it reports the end of the file,
    returns in the order of the log, each in normal form, exactly the records that
    the fields of the records select: all submissions, and the records whose job
    number (at the head of the job string in JOB_MODIFY2) is that of a given job;
    all records about jobs when no job is given.  JOB_MSG and JOB_MSG_ACK records
    are selected by the number of the user instead, so the selection is the one
    asked for when the log has no messages. *)
Theorem job_records_filter ids rs : forallb wf_line rs = true ->
  get_jobs (S (length (filter (selected ids) rs))) ids (flds text_of rs)
  = map (fun r => GRec (norm_rec r)) (filter (selected ids) rs) ++ [GErr LSBE_EOF]
  /\ (forallb (fun r => negb (is_message (eventLog r))) rs = true -> filter (selected ids) rs = filter (asked ids) rs).
Proof.
  intros H. split.
  - assert (E : filter (selected ids) rs = filter (wanted ids) rs).
    { apply wf_line_rec in H. rewrite forallb_forall in H. apply filter_ext_in. intros r Hr. symmetry. auto using wanted_selected. }
    rewrite E. clear E. now apply get_jobs_wanted.
  - intros M. rewrite forallb_forall in M. apply filter_ext_in. intros r Hr. apply selected_asked.
    now apply negb_true_iff, M.
Qed.

Lemma job_records_filter_witness :
  get_jobs 3 [17] (flds text_of sample_log)
  = [GRec (norm_rec sample_switch); GRec (norm_rec sample_clean); GErr LSBE_EOF]
  /\ filter (asked [17]) sample_log = [sample_switch; sample_clean].
Proof.
  destruct (job_records_filter [17] sample_log) as [G A]; [vm_compute; reflexivity|]. split; [exact G|].
  rewrite <- A by reflexivity. reflexivity.
Defined.

(** A message of user 501 to job 17 is not among the records of job 17, and is among
    those of job 501. *)
Definition sample_msg : eventRec :=
  mkRec (cs "1.0") 1700000080
    (JOB_MSG (JobMsg.mk 501 17 1 0 (Some (cs "a")) (Some (cs "b")) (Some (cs "hello")) 0)).

Theorem job_msg_by_user :
  asked [17] sample_msg = true /\ get_jobs 1 [17] (flds text_of [sample_msg]) = [GErr LSBE_EOF]
  /\ asked [501] sample_msg = false /\ get_jobs 1 [501] (flds text_of [sample_msg]) = [GRec sample_msg].
Proof. repeat split; vm_compute; reflexivity. Qed.

Lemma next_record_line_shorter fuel b g l g' : next_record_line fuel b g = Some (inl l, g') ->
  (length g' < length g)%nat.
Proof.
  revert b g; induction fuel as [|fuel IH]; intros b g; [discriminate|]. cbn [next_record_line].
  destruct (getNextLine_ false g) as [[x|] y] eqn:N; [|discriminate].
  apply getNextLine_shorter in N. destruct x as [|c x]; [congruence|].
  destruct (Ascii.eqb c HASH); [|congruence]. intros ?%IH. lia.
Qed.

(** Every call of [lsb_geteventrec_ex] that does not report the end of the
    file has consumed input, so a loop over a log of [n] characters ends after
    at most [n + 1] calls. *)
Theorem reader_progress fp res fp' : lsb_geteventrec_ex fp = (res, fp') ->
  res = GErr LSBE_EOF \/ res = GEofClosed \/ (length fp' < length fp)%nat.
Proof.
  unfold lsb_geteventrec_ex. intros E.
  destruct (next_record_line _ false fp) as [[[l|b] g]|] eqn:N; injection E as <- <-; auto.
  - eauto using next_record_line_shorter.
  - destruct b; auto.
Qed.

Lemma reader_progress_witness :
  let fp := flds text_of [sample_clean] in
  GRec (norm_rec sample_clean) = GErr LSBE_EOF \/ GRec (norm_rec sample_clean) = GEofClosed
  \/ (0 < length fp)%nat.
Proof. apply (reader_progress (flds text_of [sample_clean]) _ []). vm_compute. reflexivity. Defined.

(** Comment lines before a record are skipped; behind the last record they
    make [lsb_geteventrec_ex] close the caller's stream, which it does not do at
    a plain end of the file. *)
Theorem comments_skipped_or_closed s c rest : plain (s ++ [c]) = true -> Ascii.eqb c SP = false ->
  lsb_geteventrec_ex [] = (GErr LSBE_EOF, [])
  /\ lsb_geteventrec_ex (comment (s ++ [c])) = (GEofClosed, [])
  /\ (forall r, wf_line r = true ->
        lsb_geteventrec_ex (comment (s ++ [c]) ++ text_of r ++ rest) = (GRec (norm_rec r), rest)).
Proof.
  intros Hp Hc. split; [reflexivity|].
  pose proof (fun rest => getNextLine_comment s c 0 rest Hp Hc) as G. cbn [repeat] in G.
  rewrite app_nil_r in G. split.
  - unfold lsb_geteventrec_ex. cbn [next_record_line]. rewrite <- (app_nil_r (comment _)), G.
    change (Ascii.eqb HASH HASH) with true. cbn iota.
    destruct (length (comment (s ++ [c]) ++ [])) eqn:L; [rewrite length_app in L; discriminate|]. reflexivity.
  - intros r Hr. pose proof (get_line r rest) as R. unfold wf_line in Hr. bool_split.
    rewrite app_assoc in R. fold (text_of r) in R. specialize (R H H0).
    unfold lsb_geteventrec_ex in *. cbn [next_record_line] in *. rewrite G.
    change (Ascii.eqb HASH HASH) with true. cbn iota.
    destruct (line_of_ok r H) as (_ & (l & El) & _).
    assert (N : getNextLine_ false (text_of r ++ rest) = (Some (line_of r), rest))
      by (apply text_of_next; unfold wf_line; now rewrite H, H0).
    rewrite N, El in R. change (Ascii.eqb QT HASH) with false in R. cbn iota in R.
    destruct (length (comment (s ++ [c]) ++ text_of r ++ rest)) eqn:L;
      [rewrite length_app in L; discriminate|].
    cbn [next_record_line]. rewrite N, El. exact R.
Qed.

Lemma comments_skipped_or_closed_witness :
  lsb_geteventrec_ex [] = (GErr LSBE_EOF, [])
  /\ lsb_geteventrec_ex (comment (cs "1700000000" ++ ["7"%char])) = (GEofClosed, [])
  /\ (forall r, wf_line r = true ->
        lsb_geteventrec_ex (comment (cs "1700000000" ++ ["7"%char]) ++ text_of r ++ []) = (GRec (norm_rec r), [])).
Proof. apply comments_skipped_or_closed; reflexivity. Defined.

(** The type names written by [lsb_puteventrec] are those that
    [getEventTypeAndKind] knows: each name gives back the type it was written
    for. *)
Theorem type_name_roundtrip e n : type_name e = Some n ->
  exists t, typeOf e = Some t /\ getEventTypeAndKind n = Some (t, kindOf t).
Proof. destruct e; intros [= <-]; eexists; (split; [reflexivity|]); vm_compute; reflexivity. Qed.

Lemma type_name_roundtrip_witness :
  exists t, typeOf (JOB_CLEAN (JobClean.mk 17 0)) = Some t
    /\ getEventTypeAndKind (cs "JOB_CLEAN") = Some (t, kindOf t).
Proof. apply type_name_roundtrip. reflexivity. Defined.

(** ** Single records *)

(** Any event, against the interface of its codec. *)
Lemma codec_roundtrip {L} (c : EventCodec L) t l w :
  ev_wf l = true -> ev_newline (L := L) = true -> ev_pad (L := L) = 0%nat ->
  exists text cur, ev_write l (mkFILE w None) = WOk (mkFILE (w ++ text ++ [NL]) None)
    /\ plain text = true /\ ev_read t (C text) = ROk (ev_norm t l) cur.
Proof.
  intros H N P. destruct (ev_reads t l H) as [cur R]. exists (ev_body l), cur.
  split; [|split; [|exact R]].
  - rewrite (ev_writes l H), N, P. unfold fprintf. now rewrite fputs_spec.
  - pose proof (ev_line l H) as Hl. unfold lineok in Hl. now bool_split.
Qed.

Definition fone : spec_float := Eval vm_compute in binary_normalize 24 128 1 0 false.
Definition dquarter : spec_float := Eval vm_compute in binary_normalize 53 1024 1 (-2) false.

Definition sample_rusage : Rusage.lsfRusage :=
  Rusage.mk dquarter dquarter fzero fzero fzero fzero fzero fzero fzero fzero fzero fzero fzero fzero
    fzero fzero fzero fzero fzero.

Definition sample_new : JobNew.jobNewLog :=
  JobNew.mk 17 501 (cs "lu") (SUB_INTERACTIVE + SUB_RES_REQ) SUB2_BSUB_BLOCK 1 1700000000 0 0 0 0 0
    [-1; 1024; -1; -1; -1; 2048; -1; -1; -1; 600; -1] (cs "hostA") fone 18 (cs "normal")
    (Some (cs "type==" ++ [QT] ++ cs "LINUX" ++ [QT; NL])) (cs "hostA") (cs "/home/lu") [] [] (cs "out") [] [] []
    (cs "/spool") (cs "/home/lu") (cs "1700000000.17") 1 [cs "hostB"] (Some []) (cs "sim") (cs "./run x")
    1 [XFile.mk (cs "in.dat") (cs "in.dat") 1] (Some []) (Some (cs "lu")) (Some (cs "default")) 4242 1
    (Some []) (Some []) 0 5.

(** A JOB_NEW record is written as one line and read back: every field is
    restored, the resource limits after conversion to bytes and back, the
    strings that may contain newlines without them, [niosPort] when one of its
    two flags says that it was written. *)
Theorem jobNew_roundtrip l w : JobNew.wf l = true ->
  exists text cur, JobNew.writeJobNew l (mkFILE w None) = WOk (mkFILE (w ++ text ++ [NL]) None)
    /\ plain text = true /\ JobNew.readJobNew (C text) = ROk (JobNew.norm l) cur.
Proof. intros H. exact (codec_roundtrip JobNew.jobNew_codec 0 l w H eq_refl eq_refl). Qed.

Lemma jobNew_roundtrip_witness :
  exists text cur, JobNew.writeJobNew sample_new (mkFILE [] None) = WOk (mkFILE (text ++ [NL]) None)
    /\ plain text = true /\ JobNew.readJobNew (C text) = ROk (JobNew.norm sample_new) cur.
Proof. apply (jobNew_roundtrip sample_new []). vm_compute. reflexivity. Defined.

Definition sample_mod : JobMod.jobModLog :=
  JobMod.mk (Some (cs "17[1-3]")) (SUB_JOB_NAME + SUB_HOST + SUB_OTHER_FILES) SUB2_JOB_PRIORITY 0 0 501
    (Some (cs "lu")) 1700000000 18 1 0 0 0 0 (Some (cs "sim2")) None 1 [Some (cs "hostB")] None
    [-1; -1; -1; -1; -1; -1; -1; -1; -1; -1; -1] None None (Some (cs "/home/lu")) None None None None
    None None 0 None 1 [XFile.mk (cs "a") (cs "b") 2] (Some (cs "f")) (Some (cs "hostA"))
    (Some (cs "/home/lu")) None None None 0 1 None (Some []) 50.

(** A JOB_MODIFY2 record is written as one line and read back: each of the
    optional fields is restored when its option bit is set and is empty
    otherwise. *)
Theorem jobMod_roundtrip l w : JobMod.wf l = true ->
  exists text cur, JobMod.writeJobMod l (mkFILE w None) = WOk (mkFILE (w ++ text ++ [NL]) None)
    /\ plain text = true /\ JobMod.readJobMod (C text) = ROk (JobMod.norm l) cur.
Proof. intros H. exact (codec_roundtrip JobMod.jobMod_codec 0 l w H eq_refl eq_refl). Qed.

Lemma jobMod_roundtrip_witness :
  exists text cur, JobMod.writeJobMod sample_mod (mkFILE [] None) = WOk (mkFILE (text ++ [NL]) None)
    /\ plain text = true /\ JobMod.readJobMod (C text) = ROk (JobMod.norm sample_mod) cur.
Proof. apply (jobMod_roundtrip sample_mod []). vm_compute. reflexivity. Defined.

Definition sample_finish : JobFinish.jobFinishLog :=
  JobFinish.mk 17 501 (cs "lu") 0 1 64 1700000000 0 0 1700000005 0 (cs "normal") (Some []) (cs "hostA")
    (cs "/home/lu") [] (cs "out") [] [] [] (cs "1700000000.17") 1 [cs "hostB"] fone 1 [cs "hostB"] fzero
    (cs "sim") (cs "./run") sample_rusage (Some []) (Some []) (Some (cs "lu")) (Some (cs "default")) 0 1
    (Some []) 0 100 200.

(** A JOB_FINISH record is written as one line and read back; its end time
    is the time of the event, and its CPU time is the sum of the user and the
    system time of the resource usage, in single precision and not negative. *)
Theorem jobFinish_roundtrip t l w : JobFinish.wf l = true ->
  exists text cur, JobFinish.writeJobFinish l (mkFILE w None) = WOk (mkFILE (w ++ text ++ [NL]) None)
    /\ plain text = true /\ JobFinish.readJobFinish t (C text) = ROk (JobFinish.norm t l) cur.
Proof. intros H. exact (codec_roundtrip JobFinish.jobFinish_codec t l w H eq_refl eq_refl). Qed.

Lemma jobFinish_roundtrip_witness :
  exists text cur,
    JobFinish.writeJobFinish sample_finish (mkFILE [] None) = WOk (mkFILE (text ++ [NL]) None)
    /\ plain text = true
    /\ JobFinish.readJobFinish 1700000099 (C text) = ROk (JobFinish.norm 1700000099 sample_finish) cur.
Proof. apply (jobFinish_roundtrip 1700000099 sample_finish []). vm_compute. reflexivity. Defined.

(** ** Limits, and lines the readers do not expect *)

(** [convertRLimit] to bytes and back is the identity on limits whose value
    in bytes is an [int]. *)
Theorem convertRLimit_roundtrip l : limits_fit l = true ->
  convertRLimit (convertRLimit l false) true = l.
Proof. apply convertRLimit_roundtrip_from. Qed.

Lemma convertRLimit_roundtrip_witness :
  convertRLimit (convertRLimit [-1; 100; 200; -1; 0; 2097151; 5; 6; 7; 8; 9] false) true
  = [-1; 100; 200; -1; 0; 2097151; 5; 6; 7; 8; 9].
Proof. apply convertRLimit_roundtrip. reflexivity. Defined.

(** A limit in kilobytes from 2 GB up to 4 GB overflows when it is written in
    bytes: it is read back as a negative number, which means no limit. *)
Theorem convertRLimit_overflow pre x post :
  2 ^ 21 <= x < 2 ^ 22 -> length pre = LSF_RLIMIT_RSS ->
  exists y, nth_error (convertRLimit (convertRLimit (pre ++ x :: post) false) true) LSF_RLIMIT_RSS
            = Some y /\ y < 0.
Proof.
  intros Hx Hp. unfold LSF_RLIMIT_RSS in Hp.
  do 5 (destruct pre as [|? pre]; [discriminate|]). destruct pre; [|discriminate].
  cbn. destruct (Z.ltb_spec 0 x) as [_|]; [|lia].
  assert (W : wrap32 (x * 1024) = x * 1024 - 2 ^ 32).
  { unfold wrap32. change (2 ^ 31) with 2147483648. change (2 ^ 32) with 4294967296 in *.
    change (2 ^ 21) with 2097152 in Hx. change (2 ^ 22) with 4194304 in Hx. Z.div_mod_to_equations. lia. }
  change (in_bytes 5) with true. cbn [andb]. rewrite W.
  destruct (Z.ltb_spec 0 (x * 1024 - 2 ^ 32)); [lia|].
  exists (x * 1024 - 2 ^ 32). split; [reflexivity|lia].
Qed.

Lemma convertRLimit_overflow_witness :
  exists y, nth_error (convertRLimit (convertRLimit ([-1; -1; -1; -1; -1] ++ 3000000 :: [-1]) false) true) 5
            = Some y /\ y < 0.
Proof. apply (convertRLimit_overflow [-1; -1; -1; -1; -1] 3000000 [-1]); [lia|reflexivity]. Defined.

(** A JOB_SWITCH line cut off after its two numbers makes the reader step
    over the end of the line and read there. *)
Theorem truncated_switch_fault userId jobId : int32 userId -> int32 jobId ->
  JobSwitch.readJobSwitch (C (fld_d userId ++ fld_d jobId)) = RFault PastEnd.
Proof.
  intros Hu Hj. apply int32b_spec in Hu, Hj. rewrite <- (app_nil_r (fld_d jobId)).
  unfold JobSwitch.readJobSwitch.
  erewrite bind_ok by (apply scan_d_C; auto with elog).
  erewrite bind_ok by (apply scan_d_S; auto with elog). reflexivity.
Qed.

Lemma truncated_switch_fault_witness :
  JobSwitch.readJobSwitch (C (fld_d 501 ++ fld_d 17)) = RFault PastEnd
  /\ fst (lsb_geteventrec_ex
         (quote (cs "JOB_SWITCH") ++ fld_q (cs "1.0") ++ fld_d 1700000000 ++ fld_d 501 ++ fld_d 17 ++ [NL]))
     = GFault PastEnd.
Proof.
  split; [apply truncated_switch_fault; unfold int32; lia|]. vm_compute. reflexivity.
Defined.

(** [writeMig] accepts host names of any length, [readMig] copies them into an
    array of [MAXHOSTNAMELEN] characters: a longer first name overflows it. *)
Theorem mig_host_overflow l h hs w : Mig.askedHosts l = h :: hs -> (MAXHOSTNAMELEN <= length h)%nat ->
  ints [Mig.jobId l; Mig.numAskedHosts l] = true ->
  counted (Mig.numAskedHosts l) (Mig.askedHosts l) = true ->
  exists text, Mig.writeMig l (mkFILE w None) = WOk (mkFILE (w ++ text ++ [NL]) None)
    /\ Mig.readMig (C text) = RFault BufferOverflow.
Proof.
  intros Eh Hh Hi Hc. exists (Mig.body l). split.
  - assert (W : writes (Mig.writeMig l) (Mig.body l ++ [NL])) by (unfold Mig.writeMig, Mig.body; wr).
    rewrite W. unfold fprintf. now rewrite fputs_spec.
  - cbn in Hi. bool_split. unfold Mig.readMig, Mig.body. rewrite Eh in *. unfold flds. cbn [map concat].
    erewrite bind_ok by (apply scan_d_C; auto with elog).
    erewrite bind_ok by (apply scan_d_S; [assumption|reflexivity]). rewrite <- !app_assoc.
    erewrite bind_ok by apply adv1_S. pose proof (counted_len _ _ Hc) as Hn. cbn in Hn.
    unfold bind at 1. destruct (Z.eqb_spec (Mig.numAskedHosts l) 0) as [|_]; [lia|]. cbn [negb rif].
    erewrite bind_ok by (eapply calloc_ok; exact Hc).
    rewrite (counted_nat _ _ Hc). cbn [length rtimes]. unfold bind at 1, strip_buf. rewrite C_q.
    destruct (strip_at [] h (flds fld_q hs ++ fld_d (Mig.userId l) ++ fld_d (Mig.idx l)
      ++ fld_q (Mig.userName l)) eq_refl ltac:(auto with elog)) as [E _].
    unfold flds in E. cbn [app] in E. rewrite E.
    unfold MAXHOSTNAMELEN in *. destruct (Nat.ltb_spec (length h) 64); [lia|reflexivity].
Qed.

Lemma mig_host_overflow_witness :
  exists text,
    Mig.writeMig (Mig.mk 17 1 [repeat "h"%char 70] 501 0 (cs "lu")) (mkFILE [] None)
    = WOk (mkFILE (text ++ [NL]) None)
    /\ Mig.readMig (C text) = RFault BufferOverflow.
Proof.
  apply (mig_host_overflow (Mig.mk 17 1 [repeat "h"%char 70] 501 0 (cs "lu")) (repeat "h"%char 70) [] []);
    [reflexivity|cbn; unfold MAXHOSTNAMELEN; lia|reflexivity|reflexivity].
Defined.

(** The file names of a transfer are printed without doubling quotation
    marks: a name with a quotation mark inside is read back cut at the mark. *)
Theorem xfile_quote_lost a c b rest : noquote a = true -> plain a = true ->
  (length a < MAXFILENAMELEN)%nat -> Ascii.eqb c QT = false ->
  exists cur, copyQStr MAXFILENAMELEN false (C (XFile.fld_raw (a ++ QT :: c :: b) ++ rest)) = ROk a cur.
Proof.
  intros Ha Hp Hl Hc.
  assert (E : C (XFile.fld_raw (a ++ QT :: c :: b) ++ rest) = Some (quote a ++ (c :: b) ++ QT :: rest)).
  { unfold XFile.fld_raw, quote. rewrite XFile.esc_noquote by assumption.
    unfold C. cbn. now rewrite <- !app_assoc. }
  rewrite E. unfold copyQStr.
  rewrite (stripQStr_quote [] a ((c :: b) ++ QT :: rest) eq_refl Hc : stripQStr (quote a ++ _) = _).
  destruct (Nat.leb_spec MAXFILENAMELEN (length a)); [lia|]. eexists. reflexivity.
Qed.

Lemma xfile_quote_lost_witness :
  exists cur, copyQStr MAXFILENAMELEN false
    (C (XFile.fld_raw (cs "my" ++ QT :: "x"%char :: cs "file") ++ cs " 1")) = ROk (cs "my") cur.
Proof.
  apply xfile_quote_lost; [reflexivity|reflexivity| |reflexivity]. cbn. unfold MAXFILENAMELEN. lia.
Defined.

(** [lsb_readeventrecord] on the line of a record gives the record that
    [lsb_geteventrec_ex] gives, for times from 1970 on. *)
Theorem readeventrecord_agrees r rest : wf_line r = true -> 0 <= wrap32 (eventTime r) ->
  exists rec c, lsb_readeventrecord (Some (line_of r)) = ROk rec c
    /\ lsb_geteventrec_ex (text_of r ++ rest) = (GRec rec, rest).
Proof.
  unfold wf_line. intros. bool_split. destruct (readeventrecord_line r H H0) as [c E].
  exists (norm_rec r), c. split; [exact E|]. unfold text_of. rewrite <- app_assoc. now apply get_line.
Qed.

Lemma readeventrecord_agrees_witness :
  exists rec c, lsb_readeventrecord (Some (line_of sample_force)) = ROk rec c
    /\ lsb_geteventrec_ex (text_of sample_force ++ []) = (GRec rec, []).
Proof. apply readeventrecord_agrees; vm_compute; [reflexivity|discriminate]. Defined.
