(* ===== verification/Values.v ===== *)
(** * Words, bracketed values and configuration lines (lsf/lib/lib.words.c)

    [getNextValueQ_] collects the words between two bracket characters into a
    buffer of its own, whose capacity the model tracks; [nextline_] reads
    configuration files through a buffer of [BUFSIZ] characters.  The file ends
    with the properties of [lib.words.c]. *)
From Stdlib Require Import ZArith Ascii String List Bool Lia.
From S2P Require Import Prelude CNum Words.
Import ListNotations.

(** ** [getNextValueQ_] *)

(** [lserrno = LSE_CONF_SYNTAX], or a write beyond a buffer: the static one of
    [getNextWord_], or [value]. *)
Inductive value :=
| Value (v : cstr)
| NoValue
| ConfSyntax
| ValueOverflow.

(** [strchr] followed by the cut: the text before the first [c]. *)
Fixpoint before_first (c : ascii) (s : cstr) : option cstr :=
  match s with
  | [] => None
  | x :: s' => if Ascii.eqb x c then Some [] else option_map (cons x) (before_first c s')
  end.

(** [strrchr] followed by the cut: the text before the last [c]. *)
Fixpoint before_last (c : ascii) (s : cstr) : option cstr :=
  match s with
  | [] => None
  | x :: s' =>
      match before_last c s' with
      | Some t => Some (x :: t)
      | None => if Ascii.eqb x c then Some [] else None
      end
  end.

(** The loop: the value so far, the size it was allocated with and [valuelen],
    which the reallocation leaves smaller than the size. A word is at least one
    character, so the length of the line bounds the number of rounds. *)
Fixpoint valueQ_loop (fuel : nat) (ch2 : ascii) (v : cstr) (size valuelen : nat) (line : cstr)
  : value * cstr :=
  match fuel with
  | O => (ConfSyntax, line)
  | S fuel' =>
      match getNextWord_ line with
      | (NoWord, line) => (ConfSyntax, line)
      | (WordOverflow, line) => (ValueOverflow, line)
      | (Word sp, line) =>
          if streq sp [ch2] then (Value v, line)
          else
            let '(size, valuelen) :=
              if (valuelen - 1 <? length v + length sp + 2)%nat
              then (valuelen + length sp + MAXLINELEN, valuelen + MAXLINELEN)%nat
              else (size, valuelen) in
            let v := v ++ SP :: sp in
            if (size <=? length v)%nat then (ValueOverflow, line)
            else
              match before_last ch2 v with
              | Some t => (Value t, line)
              | None => valueQ_loop fuel' ch2 v size valuelen line
              end
      end
  end.

(** [value = malloc(...); strcpy(value, sp)], then the search for [ch2]. *)
Definition valueQ_start (ch2 : ascii) (sp line : cstr) : value * cstr :=
  let valuelen := if (MAXLINELEN <? length sp)%nat then (2 * length sp)%nat else MAXLINELEN in
  if (valuelen <=? length sp)%nat then (ValueOverflow, line)
  else
    match before_first ch2 sp with
    | Some t => (Value t, line)
    | None => valueQ_loop (S (length line)) ch2 sp valuelen valuelen line
    end.

Definition getNextValueQ_ (line : cstr) (ch1 ch2 : ascii) : value * cstr :=
  match getNextWord_ line with
  | (NoWord, line) => (NoValue, line)
  | (WordOverflow, line) => (ValueOverflow, line)
  | (Word sp, line) =>
      match sp with
      | [] => (Value sp, line)
      | c :: rest =>
          if negb (Ascii.eqb c ch1) then (Value sp, line)
          else if streq sp [ch1] then
            match getNextWord_ line with
            | (NoWord, line) => (ConfSyntax, line)
            | (WordOverflow, line) => (ValueOverflow, line)
            | (Word sp, line) => valueQ_start ch2 sp line
            end
          else valueQ_start ch2 rest line
      end
  end.

(** ** [nextline_] *)

(** [BUFSIZ] of the C library. *)
Definition BUFSIZ : nat := Nat.pow 2 13.
Arguments BUFSIZ : simpl never.

(** [fgets] into a buffer of [k + 1] characters: up to a newline or [k]
    characters; [None] at the end of the file. *)
Fixpoint fgets_upto (k : nat) (fp : cstr) : cstr * cstr :=
  match k, fp with
  | O, _ | _, [] => ([], fp)
  | S k', c :: fp' =>
      if Ascii.eqb c NL then ([c], fp') else let '(b, r) := fgets_upto k' fp' in (c :: b, r)
  end.

Definition fgets (size : nat) (fp : cstr) : option (cstr * cstr) :=
  match fp with [] => None | _ => Some (fgets_upto (size - 1) fp) end.

(** A line is skipped when it is blank or starts with [#]. *)
Definition skipped (p : cstr) : bool :=
  match p with [] => true | c :: _ => Ascii.eqb c HASH end.

Fixpoint nextline_fuel (fuel : nat) (fp : cstr) : option (option cstr * cstr) :=
  match fuel with
  | O => None
  | S fuel' =>
      match fgets BUFSIZ fp with
      | None => Some (None, [])
      | Some (buf, fp') =>
          let p := skip_space buf in
          if skipped p then nextline_fuel fuel' fp' else Some (Some p, fp')
      end
  end.

Definition nextline_ (fp : cstr) : option cstr * cstr :=
  match nextline_fuel (S (length fp)) fp with Some r => r | None => (None, fp) end.

(** ** Lemmas *)

Lemma span_length p s : (length (fst (span p s)) + length (snd (span p s)) = length s)%nat.
Proof.
  induction s as [|c s IH]; [reflexivity|]. cbn. destruct (p c); [|reflexivity].
  destruct (span p s). cbn in *. lia.
Qed.

Lemma span_all p s : forallb p (fst (span p s)) = true.
Proof.
  induction s as [|c s IH]; [reflexivity|]. cbn. destruct (p c) eqn:E; [|reflexivity].
  destruct (span p s). cbn in *. now rewrite E, IH.
Qed.

Lemma span_app p s : fst (span p s) ++ snd (span p s) = s.
Proof.
  induction s as [|c s IH]; [reflexivity|]. cbn. destruct (p c); [|reflexivity].
  destruct (span p s). cbn in *. now rewrite IH.
Qed.

Lemma span_next p s : match snd (span p s) with c :: _ => p c = false | [] => True end.
Proof.
  induction s as [|c s IH]; [exact I|]. cbn. destruct (p c) eqn:E; [|exact E].
  now destruct (span p s).
Qed.

(** A word is a maximal run of characters that do not stop it, after a run of
    skipped characters. *)
Lemma take_word_spec skip stop line w rest : take_word skip stop line = (w, rest) ->
  exists pre wd, line = pre ++ wd ++ rest /\ forallb skip pre = true
    /\ forallb (fun c => negb (stop c)) wd = true
    /\ match rest with c :: _ => stop c = true | [] => True end
    /\ w = match wd with
           | [] => NoWord
           | _ => if (length wd <? WORDBUF)%nat then Word wd else WordOverflow
           end.
Proof.
  unfold take_word. destruct (span skip line) as [pre l1] eqn:E1.
  destruct (span (fun c => negb (stop c)) l1) as [wd l2] eqn:E2. intros H.
  pose proof (span_app skip line) as A1. pose proof (span_all skip line) as B1.
  pose proof (span_app (fun c => negb (stop c)) l1) as A2.
  pose proof (span_all (fun c => negb (stop c)) l1) as B2.
  pose proof (span_next (fun c => negb (stop c)) l1) as N2.
  rewrite E1 in A1, B1. rewrite E2 in A2, B2, N2. cbn in *. exists pre, wd.
  assert (R : l2 = rest) by (destruct wd; congruence). subst l2.
  rewrite A2. repeat split; auto.
  - destruct rest; [exact I|]. now apply negb_false_iff.
  - destruct wd; congruence.
Qed.

(** No word of the line is longer than [n] characters. *)
Fixpoint short_words (n cur : nat) (s : cstr) : bool :=
  match s with
  | [] => true
  | c :: s' => if isspace c then short_words n 0 s' else (S cur <=? n)%nat && short_words n (S cur) s'
  end.

Lemma short_words_mono n s : forall c d, (d <= c)%nat -> short_words n c s = true -> short_words n d s = true.
Proof.
  induction s as [|x s IH]; intros c d L; [reflexivity|]. cbn [short_words].
  destruct (isspace x); [auto|]. intros H. bool_split. rewrite (IH (S c) (S d)) by (auto; lia).
  apply Nat.leb_le in H. rewrite andb_true_r. apply Nat.leb_le. lia.
Qed.

Lemma short_words_suffix n a b : forall c, short_words n c (a ++ b) = true -> short_words n 0 b = true.
Proof.
  induction a as [|x a IH]; intros c; cbn; [apply short_words_mono; lia|].
  destruct (isspace x); [apply IH|]. intros. bool_split. eauto.
Qed.

Lemma short_words_word n w b : forall c, forallb (fun x => negb (isspace x)) w = true ->
  short_words n c (w ++ b) = true -> w = [] \/ (c + length w <= n)%nat.
Proof.
  induction w as [|x w IH]; intros c; [auto|]. cbn [app short_words forallb]. intros H. bool_split.
  apply negb_true_iff in H. rewrite H. intros. bool_split. right.
  apply Nat.leb_le in H1. destruct (IH _ H0 H2) as [->|]; cbn; lia.
Qed.

Lemma getNextWord_short n line w rest : (n < WORDBUF)%nat -> short_words n 0 line = true ->
  getNextWord_ line = (w, rest) ->
  short_words n 0 rest = true
  /\ match w with Word sp => (length sp <= n)%nat | NoWord => True | WordOverflow => False end.
Proof.
  intros Hn H E. apply take_word_spec in E as (pre & wd & -> & _ & Hw & _ & ->).
  assert (R := H). rewrite app_assoc in R. apply short_words_suffix in R. split; [exact R|].
  apply short_words_suffix in H. apply short_words_word in H; [|exact Hw].
  destruct wd as [|c wd]; [exact I|]. destruct H as [H|H]; [discriminate|].
  destruct (Nat.ltb_spec (length (c :: wd)) WORDBUF); cbn in *; lia.
Qed.

(** The recorded length of the buffer stays above the text as long as no word is
    longer than what one reallocation adds. *)
Lemma valueQ_loop_fits n fuel ch2 v size valuelen line :
  (n + 2 <= MAXLINELEN)%nat -> (length v < valuelen <= size)%nat ->
  short_words n 0 line = true ->
  fst (valueQ_loop fuel ch2 v size valuelen line) <> ValueOverflow.
Proof.
  intros Hn. assert (M : (n < WORDBUF)%nat) by (unfold WORDBUF; lia).
  revert v size valuelen line. induction fuel as [|fuel IH];
    intros v size valuelen line Hv Hs; [discriminate|]. cbn [valueQ_loop].
  destruct (getNextWord_ line) as [w l] eqn:E. apply (getNextWord_short n) in E as [Hl W]; auto.
  destruct w as [sp| |]; [|discriminate|contradiction].
  destruct (streq sp [ch2]); [discriminate|].
  destruct (Nat.ltb_spec (valuelen - 1) (length v + length sp + 2)); cbv zeta;
    match goal with |- context [(?a <=? ?b)%nat] =>
      destruct (Nat.leb_spec a b) as [B|B]; rewrite length_app in B; cbn [length] in B; [lia|] end;
    (destruct (before_last ch2 (v ++ SP :: sp)); [discriminate|]);
    (apply IH; [rewrite length_app; cbn [length]; lia|assumption]).
Qed.

Lemma valueQ_start_fits n ch2 sp line : (n + 2 <= MAXLINELEN)%nat -> (length sp < MAXLINELEN)%nat ->
  short_words n 0 line = true -> fst (valueQ_start ch2 sp line) <> ValueOverflow.
Proof.
  intros Hn Hs Hl. unfold valueQ_start. cbv zeta.
  destruct (Nat.ltb_spec MAXLINELEN (length sp)); [lia|].
  destruct (Nat.leb_spec MAXLINELEN (length sp)); [lia|].
  destruct (before_first ch2 sp); [discriminate|]. now apply (valueQ_loop_fits n).
Qed.

Lemma fgets_upto_spec k fp b r : fgets_upto k fp = (b, r) ->
  fp = b ++ r /\ (length b <= k)%nat /\ ((0 < k)%nat -> fp <> [] -> b <> []).
Proof.
  revert fp b r; induction k as [|k IH]; intros [|c fp] b r; cbn; try (intros [= <- <-]; cbn; auto with arith).
  - repeat split; auto with arith; lia.
  - destruct (Ascii.eqb c NL); [intros [= <- <-]; cbn; repeat split; auto with arith; discriminate|].
    destruct (fgets_upto k fp) as [b' r'] eqn:E. intros [= <- <-].
    destruct (IH _ _ _ E) as (-> & L & _). cbn. repeat split; auto with arith. discriminate.
Qed.

Lemma fgets_shorter size fp b r : (1 < size)%nat -> fgets size fp = Some (b, r) ->
  fp = b ++ r /\ (length b < size)%nat /\ (length r < length fp)%nat.
Proof.
  intros Hs. unfold fgets. destruct fp as [|c fp]; [discriminate|]. intros [= E].
  apply fgets_upto_spec in E as (E & L & N). specialize (N ltac:(lia) ltac:(discriminate)).
  rewrite E. repeat split; [lia|]. rewrite length_app. destruct b; [contradiction|cbn; lia].
Qed.

Lemma BUFSIZ_pos : (1 < BUFSIZ)%nat.
Proof. apply Nat.ltb_lt. vm_compute. reflexivity. Qed.

Lemma nextline_fuel_total fuel fp : (length fp < fuel)%nat -> exists r, nextline_fuel fuel fp = Some r.
Proof.
  revert fp; induction fuel as [|fuel IH]; intros fp H; [lia|]. cbn.
  destruct (fgets BUFSIZ fp) as [[b r]|] eqn:E; [|eauto].
  apply fgets_shorter in E as (_ & _ & L); [|exact BUFSIZ_pos].
  destruct (skipped _); [apply IH; lia|eauto].
Qed.

Lemma skip_space_head s : match skip_space s with c :: _ => isspace c = false | [] => True end.
Proof. induction s as [|c s IH]; [exact I|]. cbn. destruct (isspace c) eqn:E; [exact IH|exact E]. Qed.

(** ** Properties *)

(** A string written with [addQStr], whatever characters it has, is recovered
    by [stripQStr] from the text around it, and the return value is the position
    just behind the closing quotation mark. *)
Theorem addQStr_stripQStr s p r w : noquote p = true -> not_quote_start r ->
  exists text, addQStr (mkFILE w None) s = (true, mkFILE (w ++ text) None)
    /\ stripQStr (p ++ text ++ r) = SOk s (length p + length text).
Proof.
  intros Hp Hr. exists (SP :: quote s). split.
  - rewrite addQStr_fputs, fputs_spec. reflexivity.
  - assert (N : noquote (p ++ [SP]) = true) by (unfold noquote in *; rewrite forallb_app, Hp; reflexivity).
    replace (p ++ (SP :: quote s) ++ r) with ((p ++ [SP]) ++ quote s ++ r) by now rewrite <- app_assoc.
    rewrite (stripQStr_quote (p ++ [SP]) s r N Hr). f_equal. rewrite length_app. cbn. lia.
Qed.

Lemma addQStr_stripQStr_witness :
  exists text, addQStr (mkFILE [] None) (cs "a" ++ [QT; NL] ++ cs "b") = (true, mkFILE text None)
    /\ stripQStr (cs "12" ++ text ++ cs " 7")
       = SOk (cs "a" ++ [QT; NL] ++ cs "b") (2 + length text).
Proof. apply (addQStr_stripQStr (cs "a" ++ [QT; NL] ++ cs "b") (cs "12") (cs " 7") []); reflexivity. Defined.

(** On any text, [stripQStr] stores at most as many characters, with the
    terminator, as the text has, and stays inside the text: the buffers of
    [strlen(line)] characters of [copyQStr] and [saveQStr] are large enough. *)
Theorem stripQStr_in_bounds q :
  match stripQStr q with
  | SOk s k => (length s + 1 <= length q /\ k <= length q)%nat
  | SFail stored => (stored <= length q)%nat
  end.
Proof. pose proof (strip_from_bound q 0) as B. unfold stripQStr. destruct (strip_from q 0); lia. Qed.

(** [getNextLineC_] terminates on every input, and a line it returns holds
    more than blanks. *)
Theorem getNextLineC_spec conf fp lc :
  (exists r, getNextLineC_fuel (S (length fp)) conf fp lc = Some r)
  /\ match getNextLineC_ conf fp lc with
     | (Some l, fp', _) => all_blank l = false
     | (None, _, _) => True
     end.
Proof.
  split; [apply getNextLineC_fuel_total; lia|]. unfold getNextLineC_.
  assert (G : forall fuel fp lc, match getNextLineC_fuel fuel conf fp lc with
    | Some (Some l, _, _) => all_blank l = false | _ => True end).
  { induction fuel as [|fuel IH]; intros g c; [exact I|]. cbn.
    destruct (getNextLineD_ conf g c) as [[[x|] y] z]; [|exact I].
    destruct (all_blank x) eqn:B; [apply IH|exact B]. }
  specialize (G (S (length fp)) fp lc). now destruct (getNextLineC_fuel _ conf fp lc) as [[[[]]]|].
Qed.

(** [getNextWord_] returns the next maximal run of characters that are not
    white space and leaves the rest of the line, when the run fits the static
    buffer. *)
Theorem getNextWord_maximal line w rest : getNextWord_ line = (Word w, rest) ->
  exists pre, line = pre ++ w ++ rest /\ forallb isspace pre = true
    /\ forallb (fun c => negb (isspace c)) w = true /\ w <> []
    /\ match rest with c :: _ => isspace c = true | [] => True end.
Proof.
  intros E. apply take_word_spec in E as (pre & wd & El & Hp & Hw & Hr & E).
  destruct wd as [|c wd]; [discriminate|].
  destruct (length (c :: wd) <? WORDBUF)%nat; [|discriminate]. injection E as ->.
  exists pre. repeat split; auto. discriminate.
Qed.

Lemma getNextWord_maximal_witness :
  exists pre, cs "  ab cd" = pre ++ cs "ab" ++ cs " cd" /\ forallb isspace pre = true
    /\ forallb (fun c => negb (isspace c)) (cs "ab") = true /\ cs "ab" <> [] /\ isspace SP = true.
Proof. apply (getNextWord_maximal (cs "  ab cd") (cs "ab") (cs " cd")). reflexivity. Defined.

(** [getNextValueQ_] does not write beyond its buffer on a line whose words
    have at most [MAXLINELEN - 2] characters. *)
Theorem getNextValueQ_fits line ch1 ch2 : short_words (MAXLINELEN - 2) 0 line = true ->
  fst (getNextValueQ_ line ch1 ch2) <> ValueOverflow.
Proof.
  intros H. set (n := (MAXLINELEN - 2)%nat) in *.
  assert (M : MAXLINELEN = 512%nat) by reflexivity.
  assert (Hn : (n + 2 <= MAXLINELEN)%nat) by (subst n; lia).
  assert (B : (n < WORDBUF)%nat) by (unfold WORDBUF; lia).
  unfold getNextValueQ_. destruct (getNextWord_ line) as [w l] eqn:E.
  apply (getNextWord_short n) in E as [Hl W]; auto.
  destruct w as [[|c rest]| |]; try discriminate; [|contradiction].
  destruct (negb (Ascii.eqb c ch1)); [discriminate|]. destruct (streq (c :: rest) [ch1]).
  - destruct (getNextWord_ l) as [w2 l2] eqn:E2. apply (getNextWord_short n) in E2 as [Hl2 W2]; auto.
    destruct w2 as [sp| |]; [|discriminate|contradiction]. apply (valueQ_start_fits n); auto. lia.
  - apply (valueQ_start_fits n); auto. cbn in W. lia.
Qed.

Lemma getNextValueQ_fits_witness :
  fst (getNextValueQ_ (cs "( a b ) c") "(" ")") <> ValueOverflow.
Proof. apply getNextValueQ_fits. vm_compute. reflexivity. Defined.

(** A value whose first word has exactly [MAXLINELEN] characters overflows the
    buffer of [MAXLINELEN] characters by its terminator. *)
Theorem getNextValueQ_off_by_one w rest ch1 ch2 :
  forallb (fun c => negb (isspace c)) w = true -> length w = MAXLINELEN -> isspace ch1 = false ->
  fst (getNextValueQ_ (ch1 :: w ++ SP :: rest) ch1 ch2) = ValueOverflow.
Proof.
  intros Hw Hl Hc. assert (M : MAXLINELEN = 512%nat) by reflexivity.
  assert (G : getNextWord_ (ch1 :: w ++ SP :: rest) = (Word (ch1 :: w), SP :: rest)).
  { destruct (getNextWord_ (ch1 :: w ++ SP :: rest)) as [x r] eqn:E. revert E.
    unfold getNextWord_, take_word. cbn [span]. rewrite Hc. cbn [span]. rewrite Hc. cbn [negb].
    assert (S : span (fun c => negb (isspace c)) (w ++ SP :: rest) = (w, SP :: rest)).
    { clear - Hw. induction w as [|c w IH]; [reflexivity|]. cbn in *. bool_split. rewrite H, IH; auto. }
    rewrite S. destruct (Nat.ltb_spec (length (ch1 :: w)) WORDBUF) as [_|F]; [congruence|].
    cbn in F. unfold WORDBUF in F. lia. }
  unfold getNextValueQ_. rewrite G, Ascii.eqb_refl. cbn [negb].
  assert (S : streq (ch1 :: w) [ch1] = false) by (cbn; destruct w; [cbn in Hl; lia|]; now rewrite andb_false_r).
  rewrite S. unfold valueQ_start. rewrite Hl. cbv zeta. rewrite Nat.ltb_irrefl, Nat.leb_refl. reflexivity.
Qed.

Lemma getNextValueQ_off_by_one_witness :
  fst (getNextValueQ_ ("("%char :: repeat "x"%char MAXLINELEN ++ SP :: cs ")") "(" ")") = ValueOverflow.
Proof. apply getNextValueQ_off_by_one; vm_compute; reflexivity. Defined.

(** The reallocation of [getNextValueQ_] records less than it allocates: after
    a word of more than [MAXLINELEN] characters, the next one makes it shrink
    the buffer below the text it holds. *)
Theorem getNextValueQ_realloc_shrinks :
  fst (getNextValueQ_ (cs "(a " ++ repeat "x"%char 2000 ++ cs " b )") "(" ")") = ValueOverflow.
Proof. vm_compute. reflexivity. Qed.

(** [nextline_] terminates on every file; what it returns starts with a
    visible character that is not the comment character, and lies within the
    buffer. *)
Theorem nextline_spec fp :
  (exists r, nextline_fuel (S (length fp)) fp = Some r)
  /\ match nextline_ fp with
     | (Some (c :: p), _) => isspace c = false /\ c <> HASH /\ (length (c :: p) < BUFSIZ)%nat
     | (Some [], _) => False
     | (None, _) => True
     end.
Proof.
  split; [apply nextline_fuel_total; lia|]. unfold nextline_.
  assert (G : forall fuel fp, match nextline_fuel fuel fp with
     | Some (Some (c :: p), _) => isspace c = false /\ c <> HASH /\ (length (c :: p) < BUFSIZ)%nat
     | Some (Some [], _) => False
     | _ => True end).
  { induction fuel as [|fuel IH]; intros g; [exact I|]. cbn.
    destruct (fgets BUFSIZ g) as [[b r]|] eqn:E; [|exact I].
    apply fgets_shorter in E as (_ & L & _); [|exact BUFSIZ_pos].
    pose proof (skip_space_head b) as Hh.
    assert (S : (length (skip_space b) <= length b)%nat)
      by (clear; induction b as [|x b IH]; cbn; [lia|destruct (isspace x); cbn; lia]).
    destruct (skipped (skip_space b)) eqn:K; [apply IH|].
    destruct (skip_space b) as [|c p]; [discriminate K|]. cbn in K. repeat split; [exact Hh| |exact (Nat.le_lt_trans _ _ _ S L)].
    intros ->. now rewrite Ascii.eqb_refl in K. }
  specialize (G (S (length fp)) fp). now destruct (nextline_fuel _ fp) as [[[[]|]]|].
Qed.
