(* ===== verification/Conf.v ===== *)
(** * Sections of configuration files (lsf/lib/lib.confmisc.c)

    A configuration file has sections between a line [Begin name] and a line
    [End name].  A section is a table, whose first line names the columns ([keyMatch]) and
    each other line has a value for each of them ([mapValues]), or a list of lines
    [key = value] ([readHvalues]).  The lines are those of [getNextLineC_], the words
    those of [getNextWord_] and the values those of [getNextValueQ_].  Messages to the
    system log are left out. *)
From Stdlib Require Import ZArith Ascii String Lia.
From stdpp Require Import base gmap list.
From S2P Require Import Prelude CNum Words Values.
Local Open Scope Z_scope.

(** ** Outcomes *)

(** A static buffer is overrun, or NULL is used as a string. *)
Inductive reading (A : Type) := Read (a : A) | Overrun | NullWord | NoFuel.
Arguments Read {A} a.
Arguments Overrun {A}.
Arguments NullWord {A}.
Arguments NoFuel {A}.

Definition rbind {A B} (m : reading A) (f : A -> reading B) : reading B :=
  match m with Read a => f a | Overrun => Overrun | NullWord => NullWord | NoFuel => NoFuel end.

(** The next word, [None] for NULL, and the rest of the line. *)
Definition next_word (line : cstr) : reading (option cstr * cstr) :=
  match getNextWord_ line with
  | (Word w, r) => Read (Some w, r)
  | (NoWord, r) => Read (None, r)
  | (WordOverflow, _) => Overrun
  end.

Definition getNextValue (line : cstr) : reading (option cstr * cstr) :=
  match getNextValueQ_ line "(" ")" with
  | (Value v, r) => Read (Some v, r)
  | (NoValue, r) | (ConfSyntax, r) => Read (None, r)
  | (ValueOverflow, _) => Overrun
  end.

(** ** Names without regard to case *)

Definition tolower (c : ascii) : ascii :=
  let n := nat_of_ascii c in if ((65 <=? n) && (n <=? 90))%nat then ascii_of_nat (n + 32) else c.
Definition lower (s : cstr) : cstr := map tolower s.
Definition strcasecmp (a b : cstr) : bool := streq (lower a) (lower b).

(** ** Tables *)

Record keymap := mkKey { key : cstr; val : option cstr; position : Z }.

Definition set_position (p : Z) (k : keymap) : keymap := mkKey (key k) (val k) p.
Definition set_value (v : option cstr) (k : keymap) : keymap := mkKey (key k) v (position k).

(** The column of a word: [None] for an unknown name and for one that came before. *)
Fixpoint place_key (word : cstr) (pos : Z) (keyList : list keymap) : option (list keymap) :=
  match keyList with
  | [] => None
  | k :: ks =>
      if strcasecmp word (key k) then if position k =? -1 then Some (set_position pos k :: ks) else None
      else match place_key word pos ks with Some ks => Some (k :: ks) | None => None end
  end.

Fixpoint key_loop (fuel : nat) (keyList : list keymap) (sp : cstr) (pos : Z) : reading (bool * list keymap) :=
  match fuel with
  | O => NoFuel
  | S fuel =>
      rbind (next_word sp) (fun '(word, sp) =>
        match word with
        | None => Read (true, keyList)
        | Some w => match place_key w pos keyList with Some ks => key_loop fuel ks sp (pos + 1) | None => Read (false, keyList) end
        end)
  end.

Definition keyMatch (keyList : list keymap) (line : cstr) (exact : bool) : reading (bool * list keymap) :=
  rbind (key_loop (S (length line)) (map (set_position (-1)) keyList) line 0) (fun '(ok, ks) =>
    Read (ok && (negb exact || forallb (fun k => negb (position k =? -1)) ks), ks)).

(** A minus stands for an empty value. *)
Definition putstr (v : cstr) : cstr := if streq v (cs "-"%string) then [] else v.

Fixpoint place_value (v : cstr) (pos : Z) (keyList : list keymap) : option (list keymap) :=
  match keyList with
  | [] => None
  | k :: ks =>
      if position k =? pos then Some (set_value (Some (putstr v)) k :: ks)
      else match place_value v pos ks with Some ks => Some (k :: ks) | None => None end
  end.

(** The values of a line: the keys and the number of values, or [None] when there are too many. *)
Fixpoint value_loop (fuel : nat) (keyList : list keymap) (line : cstr) (pos : Z) : reading (option (list keymap * Z)) :=
  match fuel with
  | O => NoFuel
  | S fuel =>
      rbind (getNextValue line) (fun '(value, line) =>
        match value with
        | None => Read (Some (keyList, pos))
        | Some v => match place_value v pos keyList with Some ks => value_loop fuel ks line (pos + 1) | None => Read None end
        end)
  end.

Definition mapValues (keyList : list keymap) (line : cstr) : reading (Z * list keymap) :=
  let ks := map (set_value None) keyList in
  let numv := Z.of_nat (length (filter (fun k => position k <> -1) ks)) in
  rbind (value_loop (S (length line)) ks line 0) (fun r =>
    match r with
    | Some (ks', pos) => Read (if pos =? numv then (0, ks') else (-1, map (set_value None) ks'))
    | None => Read (-1, ks)
    end).

(** ** Lists of keys and values *)

Fixpoint putValue (keyList : list keymap) (k value : cstr) : option (list keymap) :=
  match keyList with
  | [] => None
  | e :: ks =>
      if strcasecmp (key e) k then Some (set_value (Some (putstr value)) e :: ks)
      else match putValue ks k value with Some ks => Some (e :: ks) | None => None end
  end.

Definition isSectionEnd (linep sectionName : cstr) : reading bool :=
  rbind (next_word linep) (fun '(word, linep) =>
    match word with
    | None => NullWord
    | Some w => if strcasecmp w (cs "end"%string) then rbind (next_word linep) (fun _ => Read true) else Read false
    end).

Fixpoint strip_sp (s : cstr) : cstr :=
  match s with
  | c :: s' => if Ascii.eqb c SP then strip_sp s' else s
  | [] => []
  end.

(** The text behind the first [=]. *)
Fixpoint behind_eq (s : cstr) : option cstr :=
  match s with
  | [] => None
  | c :: s' => if Ascii.eqb c "=" then Some s' else behind_eq s'
  end.

(** The value of a line: brackets around it are taken away. *)
Definition line_value (value : cstr) : cstr :=
  let value := strip_sp value in
  match value with
  | c :: s => if Ascii.eqb c "(" then default s (before_last ")" s) else value
  | [] => []
  end.

(** A line of the section: a line without [=] or with an unknown key is ignored. *)
Definition value_line (keyList : list keymap) (linep : cstr) : reading (list keymap) :=
  rbind (next_word linep) (fun '(word, _) =>
    match word with
    | None => NullWord
    | Some w =>
        let k := default w (before_first "=" w) in
        Read (match behind_eq linep with
              | None => keyList
              | Some value => default keyList (putValue keyList k (line_value value))
              end)
    end).

(** Returns the code, the keys, and the file and its line number behind the section. *)
Fixpoint read_loop (fuel : nat) (keyList : list keymap) (linep fp : cstr) (LineNum : Z) (exact : bool) (section : cstr)
  : reading (Z * list keymap * cstr * Z) :=
  match fuel with
  | O => NoFuel
  | S fuel =>
      rbind (value_line keyList linep) (fun ks =>
        match getNextLineC_ true fp LineNum with
        | (None, fp, n) => Read (-1, ks, fp, n)
        | (Some linep, fp, n) =>
            rbind (isSectionEnd linep section) (fun e =>
              if e then
                if exact && negb (forallb (fun k => match val k with Some _ => true | None => false end) ks)
                then Read (-1, map (set_value None) ks, fp, n) else Read (0, ks, fp, n)
              else read_loop fuel ks linep fp n exact section)
        end)
  end.

Definition readHvalues (keyList : list keymap) (linep fp : cstr) (LineNum : Z) (exact : bool) (section : cstr)
  : reading (Z * list keymap * cstr * Z) := read_loop (S (length fp)) keyList linep fp LineNum exact section.

(** ** Beginnings and ends *)

Fixpoint begin_loop (fuel : nat) (fp : cstr) (LineNum : Z) : reading (option cstr * cstr * Z) :=
  match fuel with
  | O => NoFuel
  | S fuel =>
      match getNextLineC_ true fp LineNum with
      | (None, fp, n) => Read (None, fp, n)
      | (Some sp, fp, n) =>
          rbind (next_word sp) (fun '(wp, sp) =>
            match wp with
            | Some w => if strcasecmp w (cs "begin"%string) then Read (Some sp, fp, n) else begin_loop fuel fp n
            | None => begin_loop fuel fp n
            end)
      end
  end.
(** The rest of the line behind [begin]. *)
Definition getBeginLine (fp : cstr) (LineNum : Z) : reading (option cstr * cstr * Z) := begin_loop (S (length fp)) fp LineNum.

Fixpoint skip_loop (fuel : nat) (fp : cstr) (LineNum : Z) (sectionName : cstr) : reading (cstr * Z) :=
  match fuel with
  | O => NoFuel
  | S fuel =>
      match getNextLineC_ true fp LineNum with
      | (None, fp, n) => Read (fp, n)
      | (Some cp, fp, n) => rbind (isSectionEnd cp sectionName) (fun e => if e then Read (fp, n) else skip_loop fuel fp n sectionName)
      end
  end.
Definition doSkipSection (fp : cstr) (LineNum : Z) (sectionName : cstr) : reading (cstr * Z) := skip_loop (S (length fp)) fp LineNum sectionName.

(** ** Administrators *)

(** [adminNames], [adminIds] and [adminGIds], each with room for [numAds] entries. *)
Record admins := mkAdmins { adminNames : list cstr; adminIds : list Z; adminGIds : list Z }.

Definition isInlist (names : list cstr) (userName : cstr) : bool := existsb (fun n => streq n userName) names.

Section Users.
(** The user and group of a name: the password file. *)
Context (getpwlsfuser_ : cstr -> option (Z * Z)).

Definition putInLists (word : cstr) (a : admins) (numAds : Z) : reading (Z * admins * Z) :=
  if isInlist (adminNames a) word then Read (0, a, numAds)
  else if numAds <=? Z.of_nat (length (adminNames a)) then Overrun
  else
    let '(uid, gid) := default (-1, -1) (getpwlsfuser_ word) in
    let a := mkAdmins (adminNames a ++ [word]) (adminIds a ++ [uid]) (adminGIds a ++ [gid]) in
    Read (0, a, if numAds <=? Z.of_nat (length (adminNames a)) then wrap32 (numAds * 2) else numAds).

End Users.

(** ** Lemmas: tables *)

(** The words and the values of a line. *)
Fixpoint gather (next : cstr -> reading (option cstr * cstr)) (fuel : nat) (line : cstr) : reading (list cstr) :=
  match fuel with
  | O => NoFuel
  | S fuel => rbind (next line) (fun '(w, r) => match w with None => Read [] | Some w => rbind (gather next fuel r) (fun ws => Read (w :: ws)) end)
  end.
Definition words (line : cstr) : reading (list cstr) := gather next_word (S (length line)) line.
Definition values (line : cstr) : reading (list cstr) := gather getNextValue (S (length line)) line.

Lemma strcasecmp_eq a b : strcasecmp a b = true <-> lower a = lower b.
Proof. apply streq_eq. Qed.
Lemma strcasecmp_ne a b : strcasecmp a b = false <-> lower a <> lower b.
Proof. rewrite <- strcasecmp_eq. destruct (strcasecmp a b); split; congruence. Qed.

(** The place of a name in a list. *)
Fixpoint find_name (n : cstr) (ws : list cstr) : option nat :=
  match ws with
  | [] => None
  | w :: ws => if strcasecmp w n then Some 0%nat else option_map S (find_name n ws)
  end.
Definition col (ws : list cstr) (k : keymap) : Z := match find_name (key k) ws with Some j => Z.of_nat j | None => -1 end.
Definition at_col (ws : list cstr) (k : keymap) : keymap := set_position (col ws k) k.

Lemma find_name_app n a b : find_name n (a ++ b) = match find_name n a with Some j => Some j | None => option_map (Nat.add (length a)) (find_name n b) end.
Proof.
  induction a as [|w a IH]; cbn; [now destruct (find_name n b)|]. destruct (strcasecmp w n); [reflexivity|]. rewrite IH.
  destruct (find_name n a); [reflexivity|]. now destruct (find_name n b).
Qed.

Lemma find_name_none n ws : find_name n ws = None <-> lower n ∉ map lower ws.
Proof.
  induction ws as [|w ws IH]; cbn; [split; [intros _; apply not_elem_of_nil|reflexivity]|]. rewrite not_elem_of_cons. destruct (strcasecmp w n) eqn:E.
  - apply strcasecmp_eq in E. split; [discriminate|]. intros [H _]. congruence.
  - apply strcasecmp_ne in E. rewrite <- IH. destruct (find_name n ws); cbn; split; try discriminate; try (now intros [_ H]). intros _. split; [congruence|reflexivity].
Qed.

Lemma find_name_some n ws j : find_name n ws = Some j -> exists w, ws !! j = Some w /\ lower w = lower n.
Proof.
  revert j. induction ws as [|w ws IH]; intros j; cbn; [discriminate|]. destruct (strcasecmp w n) eqn:E.
  - intros [= <-]. exists w. split; [reflexivity|now apply strcasecmp_eq].
  - destruct (find_name n ws) as [i|]; [|discriminate]. cbn. intros [= <-]. now apply IH.
Qed.

Lemma find_name_nodup n ws j w : NoDup (map lower ws) -> ws !! j = Some w -> lower w = lower n -> find_name n ws = Some j.
Proof.
  revert j. induction ws as [|x ws IH]; intros j Hn Hj Hw; [discriminate|]. cbn in Hn |- *. apply NoDup_cons in Hn as [Hx Hn]. destruct j as [|j].
  - injection Hj as ->. apply strcasecmp_eq in Hw. now rewrite Hw.
  - cbn in Hj. rewrite (IH j) by auto. destruct (strcasecmp x n) eqn:E; [|reflexivity]. apply strcasecmp_eq in E. destruct Hx. rewrite E, <- Hw.
    apply list_elem_of_In, in_map, list_elem_of_In. now apply list_elem_of_lookup_2 in Hj.
Qed.

Definition distinct (keys : list keymap) : Prop := NoDup (map (fun k => lower (key k)) keys).
Definition knownb (keys : list keymap) (w : cstr) : bool := existsb (fun k => strcasecmp w (key k)) keys.

(** A column is added when its name is known and new. *)
Lemma place_col keys ws w : distinct keys ->
  place_key w (Z.of_nat (length ws)) (map (at_col ws) keys)
  = if knownb keys w && bool_decide (lower w ∉ map lower ws) then Some (map (at_col (ws ++ [w])) keys) else None.
Proof.
  unfold distinct. induction keys as [|k keys IH]; intros Hd; [reflexivity|]. cbn in Hd. apply NoDup_cons in Hd as [Hk Hd]. cbn [map place_key knownb existsb].
  change (key (at_col ws k)) with (key k). change (position (at_col ws k)) with (col ws k). destruct (strcasecmp w (key k)) eqn:E.
  - cbn [orb andb]. apply strcasecmp_eq in E. rewrite E. unfold col at 1. destruct (find_name (key k) ws) as [j|] eqn:F.
    + destruct (Z.eqb_spec (Z.of_nat j) (-1)); [lia|]. rewrite bool_decide_eq_false_2; [reflexivity|]. intros H. apply find_name_none in H. congruence.
    + cbn [Z.eqb Pos.eqb]. rewrite bool_decide_eq_true_2 by (now apply find_name_none). f_equal. f_equal.
      * unfold at_col, col, set_position. cbn. rewrite find_name_app, F. cbn. apply strcasecmp_eq in E. rewrite E. cbn. now rewrite Nat.add_0_r.
      * apply map_ext_in. intros k' Hk'. unfold at_col. f_equal. unfold col. rewrite find_name_app. destruct (find_name (key k') ws); [reflexivity|]. cbn.
        destruct (strcasecmp w (key k')) eqn:E'; [|reflexivity]. apply strcasecmp_eq in E'. destruct Hk. rewrite <- E, E'. apply list_elem_of_In, (in_map (fun k => lower (key k)) keys). exact Hk'.
  - cbn [orb]. rewrite IH by exact Hd. fold (knownb keys w). destruct (knownb keys w && _); [|reflexivity]. f_equal. f_equal. unfold at_col. f_equal. unfold col.
    rewrite find_name_app. destruct (find_name (key k) ws); [reflexivity|]. cbn. now rewrite E.
Qed.

(** The header of a table. *)
Definition names_fit (keys : list keymap) (ws : list cstr) : bool := forallb (knownb keys) ws && bool_decide (NoDup (map lower ws)).

Lemma key_loop_words keys : distinct keys -> forall fuel line pre ws, gather next_word fuel line = Read ws -> NoDup (map lower pre) ->
  exists ks, key_loop fuel (map (at_col pre) keys) line (Z.of_nat (length pre))
             = Read (forallb (knownb keys) ws && bool_decide (NoDup (map lower (pre ++ ws))), ks)
             /\ (forallb (knownb keys) ws && bool_decide (NoDup (map lower (pre ++ ws))) = true -> ks = map (at_col (pre ++ ws)) keys).
Proof.
  intros Hd. induction fuel as [|fuel IH]; intros line pre ws Hw Hp; [discriminate|]. cbn [gather key_loop] in *. destruct (next_word line) as [[[w|] r]| | |]; try discriminate; cbn [rbind] in *.
  - destruct (gather next_word fuel r) as [ws'| | |] eqn:E; try discriminate. cbn in Hw. injection Hw as <-. rewrite place_col by exact Hd.
    assert (A : pre ++ w :: ws' = (pre ++ [w]) ++ ws') by (now rewrite <- app_assoc). destruct (knownb keys w) eqn:K; cbn [andb forallb]; rewrite K; cbn [andb].
    + destruct (decide (lower w ∉ map lower pre)) as [N|N].
      * rewrite bool_decide_eq_true_2 by exact N. rewrite A. replace (Z.of_nat (length pre) + 1) with (Z.of_nat (length (pre ++ [w]))) by (rewrite length_app; cbn; lia).
        apply IH; [exact E|]. rewrite map_app. apply NoDup_app. split; [exact Hp|]. split; [|apply NoDup_singleton]. cbn. intros x Hx Hx'%list_elem_of_singleton. congruence.
      * rewrite bool_decide_eq_false_2 by exact N. assert (D : bool_decide (NoDup (map lower (pre ++ w :: ws'))) = false).
        { apply bool_decide_eq_false_2. rewrite map_app. intros (_ & H & _)%NoDup_app. apply N. intros H'. apply (H _ H'). cbn. apply list_elem_of_here. }
        rewrite D, andb_false_r. eexists. split; [reflexivity|discriminate].
    + eexists. split; [reflexivity|discriminate].
  - injection Hw as <-. cbn. rewrite app_nil_r, bool_decide_eq_true_2 by exact Hp. eexists. split; [reflexivity|auto].
Qed.

Definition header_ok (keys : list keymap) (ws : list cstr) (exact : bool) : bool :=
  names_fit keys ws && (negb exact || forallb (fun k => negb (col ws k =? -1)) keys).

Lemma keyMatch_words keys line exact ws : distinct keys -> words line = Read ws ->
  exists ks, keyMatch keys line exact = Read (header_ok keys ws exact, ks) /\ (header_ok keys ws exact = true -> ks = map (at_col ws) keys).
Proof.
  intros Hd Hw. destruct (key_loop_words keys Hd _ _ [] ws Hw NoDup_nil_2) as (ks & E & F). cbn [app length] in E, F. change (Z.of_nat 0) with 0 in E. unfold keyMatch.
  replace (map (set_position (-1)) keys) with (map (at_col []) keys) by reflexivity. rewrite E. cbn [rbind]. fold (names_fit keys ws) in *. unfold header_ok.
  destruct (names_fit keys ws); cbn [andb]; [|eexists; split; [reflexivity|discriminate]]. rewrite (F eq_refl). exists (map (at_col ws) keys). split; [|auto].
  assert (A : forallb (fun k => negb (position k =? -1)) (map (at_col ws) keys) = forallb (fun k => negb (col ws k =? -1)) keys).
  { clear. induction keys as [|k keys IH]; [reflexivity|]. cbn. now rewrite IH. }
  now rewrite A.
Qed.

(** The keys when the first [j] values are stored. *)
Definition stage (ws vs : list cstr) (j : nat) (k : keymap) : keymap :=
  mkKey (key k) (match find_name (key k) ws with Some i => if (i <? j)%nat then option_map putstr (vs !! i) else None | None => None end) (col ws k).

Lemma stage_other ws vs j k : find_name (key k) ws <> Some j -> stage ws vs (S j) k = stage ws vs j k.
Proof.
  intros H. unfold stage. f_equal. destruct (find_name (key k) ws) as [i|]; [|reflexivity]. destruct (Nat.ltb_spec i (S j)), (Nat.ltb_spec i j); try reflexivity; [|lia].
  exfalso. apply H. f_equal. lia.
Qed.

Lemma place_stage keys ws vs j v : distinct keys -> vs !! j = Some v ->
  place_value v (Z.of_nat j) (map (stage ws vs j) keys)
  = if existsb (fun k => bool_decide (find_name (key k) ws = Some j)) keys then Some (map (stage ws vs (S j)) keys) else None.
Proof.
  unfold distinct. intros Hd Hv. induction keys as [|k keys IH]; [reflexivity|]. cbn in Hd. apply NoDup_cons in Hd as [Hk Hd]. cbn [map place_value existsb].
  change (position (stage ws vs j k)) with (col ws k).
  assert (C : (col ws k =? Z.of_nat j) = bool_decide (find_name (key k) ws = Some j)).
  { unfold col. destruct (find_name (key k) ws) as [i|]; [|now destruct j]. destruct (decide (i = j)) as [->|N].
    - rewrite bool_decide_eq_true_2 by reflexivity. apply Z.eqb_refl.
    - rewrite bool_decide_eq_false_2 by congruence. apply Z.eqb_neq. lia. }
  rewrite C. case_bool_decide as D; cbn [orb].
  - f_equal. f_equal.
    + unfold stage, set_value. cbn [key position]. rewrite D, Hv. assert (L : (j <? S j)%nat = true) by (apply Nat.ltb_lt; lia). now rewrite L.
    + apply map_ext_in. intros k' Hk'. symmetry. apply stage_other. intros D'. destruct Hk.
      apply find_name_some in D as (w & Hw & H1). apply find_name_some in D' as (w' & Hw' & H2). replace (lower (key k)) with (lower (key k')) by congruence.
      apply list_elem_of_In, (in_map (fun k => lower (key k)) keys). exact Hk'.
  - rewrite IH by exact Hd. destruct (existsb _ keys); [|reflexivity]. now rewrite stage_other by exact D.
Qed.

(** Every column of the header has its key. *)
Lemma column_key keys ws j : names_fit keys ws = true -> existsb (fun k => bool_decide (find_name (key k) ws = Some j)) keys = (j <? length ws)%nat.
Proof.
  unfold names_fit. intros [Hk Hn]%andb_prop. apply bool_decide_eq_true in Hn. destruct (Nat.ltb_spec j (length ws)) as [L|L].
  - apply lookup_lt_is_Some in L as [w Hw]. rewrite forallb_forall in Hk. specialize (Hk w). pose proof (list_elem_of_lookup_2 _ _ _ Hw) as Hi%list_elem_of_In. apply Hk in Hi.
    unfold knownb in Hi. apply existsb_exists in Hi as (k & Hin & E%strcasecmp_eq). apply existsb_exists. exists k. split; [exact Hin|]. apply bool_decide_eq_true_2. now apply (find_name_nodup _ ws j w).
  - destruct (existsb _ keys) eqn:E; [|reflexivity]. apply existsb_exists in E as (k & _ & E). apply bool_decide_eq_true in E. apply find_name_some in E as (w & Hw & _). apply lookup_lt_Some in Hw. lia.
Qed.

Lemma value_loop_values keys ws vs : distinct keys -> names_fit keys ws = true -> forall fuel line rest j, gather getNextValue fuel line = Read rest -> drop j vs = rest -> (j <= length vs)%nat ->
  (j <= length ws)%nat ->
  value_loop fuel (map (stage ws vs j) keys) line (Z.of_nat j)
  = Read (if (length vs <=? length ws)%nat then Some (map (stage ws vs (length vs)) keys, Z.of_nat (length vs)) else None).
Proof.
  intros Hd Hf. induction fuel as [|fuel IH]; intros line rest j Hc Hr Hj Hl; [discriminate|]. cbn [gather value_loop] in *. destruct (getNextValue line) as [[[v|] r]| | |]; try discriminate; cbn [rbind] in *.
  - destruct (gather getNextValue fuel r) as [rest'| | |] eqn:E; try discriminate. cbn in Hc. injection Hc as <-.
    assert (Hv : vs !! j = Some v) by (rewrite <- (Nat.add_0_r j), <- lookup_drop, Hr; reflexivity). pose proof (lookup_lt_Some _ _ _ Hv) as Lj.
    rewrite place_stage, column_key by auto. destruct (Nat.ltb_spec j (length ws)).
    + replace (Z.of_nat j + 1) with (Z.of_nat (S j)) by lia. apply (IH r rest' (S j)); auto; try lia. rewrite <- Nat.add_1_r, <- drop_drop, Hr. reflexivity.
    + destruct (Nat.leb_spec (length vs) (length ws)); [lia|reflexivity].
  - injection Hc as <-. assert (j = length vs) as -> by (apply (f_equal length) in Hr; rewrite length_drop in Hr; cbn in Hr; lia).
    destruct (Nat.leb_spec (length vs) (length ws)); [reflexivity|lia].
Qed.

(** As many keys have a column as the header has names. *)
Lemma count_columns keys ws : distinct keys -> names_fit keys ws = true -> length (filter (fun k => col ws k <> -1) keys) = length ws.
Proof.
  intros Hd Hf. pose proof Hf as Hf'. unfold names_fit in Hf'. apply andb_prop in Hf' as [Hk Hn]. apply bool_decide_eq_true in Hn.
  rewrite <- (length_map (fun k => lower (key k)) (filter _ keys)), <- (length_map lower ws). apply Permutation_length, NoDup_Permutation; [|exact Hn|].
  - unfold distinct in Hd. clear -Hd. induction keys as [|k keys IH]; [constructor|]. cbn in Hd. apply NoDup_cons in Hd as [H1 H2]. rewrite filter_cons. case_decide; [|auto]. cbn. apply NoDup_cons. split; [|auto].
    intros H'. apply H1. apply list_elem_of_In, in_map_iff in H' as (k' & <- & Hin). apply list_elem_of_In, list_elem_of_filter in Hin as [_ Hin].
    apply list_elem_of_In, (in_map (fun k => lower (key k)) keys). now apply list_elem_of_In.
  - intros x. rewrite !list_elem_of_In, !in_map_iff. split.
    + intros (k & <- & Hin). apply list_elem_of_In, list_elem_of_filter in Hin as [Hc _]. unfold col in Hc. destruct (find_name (key k) ws) as [j|] eqn:F; [|easy].
      apply find_name_some in F as (w & Hw & E). exists w. split; [exact E|]. now apply list_elem_of_In, (list_elem_of_lookup_2 _ j).
    + intros (w & <- & Hin). apply list_elem_of_In, list_elem_of_lookup_1 in Hin as [j Hj]. pose proof (column_key keys ws j Hf) as C. apply lookup_lt_Some in Hj as L. apply Nat.ltb_lt in L. rewrite L in C.
      apply existsb_exists in C as (k & Hink & C). apply bool_decide_eq_true in C. exists k. pose proof (find_name_some _ _ _ C) as (w' & Hw' & E). split; [congruence|].
      apply list_elem_of_In, list_elem_of_filter. split; [unfold col; rewrite C; lia|now apply list_elem_of_In].
Qed.

(** What a line of a table gives to a key. *)
Definition filled (ws vs : list cstr) (k : keymap) : keymap :=
  mkKey (key k) (match find_name (key k) ws with Some i => option_map putstr (vs !! i) | None => None end) (col ws k).
Definition unfilled (ws : list cstr) (k : keymap) : keymap := mkKey (key k) None (col ws k).

Lemma stage_first ws vs k : stage ws vs 0 k = unfilled ws k.
Proof. unfold stage, unfilled. f_equal. now destruct (find_name (key k) ws). Qed.

Lemma stage_last ws vs k : length vs = length ws -> stage ws vs (length vs) k = filled ws vs k.
Proof.
  intros L. unfold stage, filled. f_equal. destruct (find_name (key k) ws) as [i|] eqn:F; [|reflexivity]. apply find_name_some in F as (w & Hw & _). apply lookup_lt_Some in Hw.
  destruct (Nat.ltb_spec i (length vs)); [reflexivity|lia].
Qed.

Lemma mapValues_values keys ws line vs : distinct keys -> names_fit keys ws = true -> values line = Read vs ->
  mapValues (map (at_col ws) keys) line = Read (if (length vs =? length ws)%nat then (0, map (filled ws vs) keys) else (-1, map (unfilled ws) keys)).
Proof.
  intros Hd Hf Hv. unfold mapValues. replace (map (set_value None) (map (at_col ws) keys)) with (map (stage ws vs 0) keys).
  2: { rewrite map_map. apply map_ext. intros k. apply stage_first. }
  change 0 with (Z.of_nat 0) at 1. rewrite (value_loop_values keys ws vs Hd Hf _ _ vs 0 Hv) by (cbn; lia || reflexivity). cbn [rbind].
  assert (C : length (filter (fun k => position k <> -1) (map (stage ws vs 0) keys)) = length ws).
  { rewrite <- (count_columns keys ws Hd Hf). clear. induction keys as [|k keys IH]; [reflexivity|]. cbn [map]. rewrite !filter_cons. change (position (stage ws vs 0 k)) with (col ws k). case_decide; cbn; now rewrite IH. }
  rewrite C. destruct (Nat.leb_spec (length vs) (length ws)) as [L|L].
  - destruct (Nat.eqb_spec (length vs) (length ws)) as [E|E].
    + rewrite E, Z.eqb_refl, <- E. f_equal. f_equal. apply map_ext. intros k. now apply stage_last.
    + destruct (Z.eqb_spec (Z.of_nat (length vs)) (Z.of_nat (length ws))); [lia|]. f_equal. f_equal. rewrite map_map. now apply map_ext.
  - destruct (Nat.eqb_spec (length vs) (length ws)); [lia|]. f_equal. f_equal. apply map_ext. intros k. apply stage_first.
Qed.

(** ** Lemmas: lists of keys and values *)

(** A character that a line keeps. *)
Definition conf_char (c : ascii) : bool := plainc c && negb (Ascii.eqb c HASH) && negb (Ascii.eqb c BSLASH).

Lemma lineD_conf q s line fp lc : forallb conf_char s = true -> exists q', lineD_loop true q line (s ++ fp) lc = lineD_loop true q' (rev s ++ line) fp lc.
Proof.
  revert q line. induction s as [|c s IH]; intros q line H; [now exists q|]. cbn [forallb] in H. apply andb_prop in H as [[[H1 H2]%andb_prop H3]%andb_prop H].
  apply negb_true_iff in H2, H3. destruct (plainc_blank c H1) as [B N]. cbn [app lineD_loop]. rewrite N, B, H2, H3. cbn [andb].
  destruct (IH (if Ascii.eqb c QT then negb q else q) (c :: line) H) as [q' E]. exists q'. rewrite E. cbn [rev]. now rewrite <- app_assoc.
Qed.

Lemma conf_line s c fp lc : forallb conf_char (s ++ [c]) = true -> Ascii.eqb c SP = false -> getNextLineC_ true (s ++ [c] ++ NL :: fp) lc = (Some (s ++ [c]), fp, lc + 1).
Proof.
  intros H Hc. apply getNextLineC_visible.
  - unfold getNextLineD_. rewrite app_assoc. destruct (lineD_conf false (s ++ [c]) [] (NL :: fp) lc H) as [q ->]. cbn [lineD_loop]. rewrite Ascii.eqb_refl, app_nil_r, rev_app_distr. cbn [rev app].
    rewrite trim_back_stay by exact Hc. cbn [negb orb rev]. now rewrite rev_involutive.
  - unfold all_blank. rewrite forallb_app. cbn [forallb]. rewrite Hc. now rewrite andb_false_r.
Qed.

(** A word of a line. *)
Definition wordb (s : cstr) : bool := match s with [] => false | _ => forallb (fun c => conf_char c && negb (isspace c)) s && (length s <? WORDBUF)%nat end.

Lemma span_word s r : forallb (fun c => negb (isspace c)) s = true -> match r with c :: _ => isspace c = true | [] => True end -> span (fun c => negb (isspace c)) (s ++ r) = (s, r).
Proof.
  intros Hs Hr. induction s as [|c s IH]; cbn; [destruct r as [|c r]; [reflexivity|]; cbn; now rewrite Hr|]. cbn in Hs. apply andb_prop in Hs as [-> Hs]. now rewrite IH.
Qed.

Lemma next_word_word w r : wordb w = true -> match r with c :: _ => isspace c = true | [] => True end -> next_word (w ++ r) = Read (Some w, r).
Proof.
  unfold wordb. destruct w as [|c w]; [discriminate|]. intros [H L]%andb_prop Hr. unfold next_word, getNextWord_, take_word.
  assert (Hs : forallb (fun c => negb (isspace c)) (c :: w) = true) by (rewrite forallb_forall in H |- *; intros x Hx%H; now apply andb_prop in Hx as [_ Hx]).
  assert (S0 : span isspace ((c :: w) ++ r) = ([], (c :: w) ++ r)) by (cbn in Hs |- *; apply andb_prop in Hs as [Hs _]; apply negb_true_iff in Hs; now rewrite Hs).
  rewrite S0, span_word by auto. now rewrite L.
Qed.

Lemma conf_word w : wordb w = true -> exists v c, w = v ++ [c] /\ forallb conf_char (v ++ [c]) = true /\ Ascii.eqb c SP = false.
Proof.
  unfold wordb. intros H. assert (Hn : w <> []) by (destruct w; [discriminate|easy]). assert (Hw : forallb (fun c => conf_char c && negb (isspace c)) w = true) by (destruct w; [discriminate|now apply andb_prop in H as [H _]]).
  destruct (exists_last Hn) as (v & c & ->). exists v, c. split; [reflexivity|]. rewrite forallb_forall in Hw. split.
  - rewrite forallb_forall. intros x Hx%Hw. now apply andb_prop in Hx as [Hx _].
  - assert (Hc : conf_char c && negb (isspace c) = true) by (apply Hw, in_or_app; right; now left). destruct (Ascii.eqb_spec c SP) as [->|]; [|reflexivity]. now apply andb_prop in Hc as [_ Hc].
Qed.

Record entry := mkEntry { e_key : cstr; e_value : cstr }.
Definition entry_text (e : entry) : cstr := e_key e ++ cs " = "%string ++ e_value e.

(** A value that is written without brackets. *)
Definition valueb (v : cstr) : bool :=
  forallb conf_char v && match v with c :: _ => negb (Ascii.eqb c SP) && negb (Ascii.eqb c "(") | [] => false end && negb (Ascii.eqb (List.last v SP) SP).
Definition entryb (e : entry) : bool :=
  wordb (e_key e) && forallb (fun c => negb (Ascii.eqb c "=")) (e_key e) && negb (strcasecmp (e_key e) (cs "end"%string)) && valueb (e_value e).

Definition put (keys : list keymap) (e : entry) : list keymap := default keys (putValue keys (e_key e) (e_value e)).

Lemma behind_eq_app k r : forallb (fun c => negb (Ascii.eqb c "=")) k = true -> behind_eq (k ++ "="%char :: r) = Some r.
Proof. induction k as [|c k IH]; cbn; [reflexivity|]. intros [H1 H2]%andb_prop. apply negb_true_iff in H1. rewrite H1. auto. Qed.

Lemma before_first_none k : forallb (fun c => negb (Ascii.eqb c "=")) k = true -> before_first "=" k = None.
Proof. induction k as [|c k IH]; cbn; [reflexivity|]. intros [H1 H2]%andb_prop. apply negb_true_iff in H1. rewrite H1, IH by exact H2. reflexivity. Qed.

Lemma put_entry keys e : entryb e = true -> value_line keys (entry_text e) = Read (put keys e).
Proof.
  unfold entryb. intros [[[Hw Heq]%andb_prop _]%andb_prop Hv]%andb_prop. unfold value_line, entry_text. rewrite next_word_word by (auto; reflexivity). cbn [rbind].
  rewrite before_first_none by exact Heq. replace (e_key e ++ cs " = "%string ++ e_value e) with ((e_key e ++ [SP]) ++ "="%char :: SP :: e_value e) by (now rewrite <- app_assoc).
  rewrite behind_eq_app by (now rewrite forallb_app, Heq). unfold put. do 2 f_equal. unfold valueb in Hv. destruct (e_value e) as [|c v]; [now rewrite andb_false_r in Hv|].
  apply andb_prop in Hv as [[_ [H1 H2]%andb_prop]%andb_prop _]. apply negb_true_iff in H1, H2. unfold line_value. cbn [strip_sp]. rewrite Ascii.eqb_refl, H1, H2. reflexivity.
Qed.

Lemma entry_line e fp lc : entryb e = true -> getNextLineC_ true (entry_text e ++ NL :: fp) lc = (Some (entry_text e), fp, lc + 1).
Proof.
  unfold entryb. intros [[[Hw _]%andb_prop _]%andb_prop Hv]%andb_prop. unfold valueb in Hv. apply andb_prop in Hv as [[Hv _]%andb_prop Hl]. apply negb_true_iff in Hl.
  assert (Hn : e_value e <> []) by (destruct (e_value e); [now rewrite Ascii.eqb_refl in Hl|discriminate]). pose proof (app_removelast_last SP Hn) as E.
  set (v := removelast (e_value e)) in *. set (c := List.last (e_value e) SP) in *. unfold entry_text. rewrite E. rewrite !app_assoc, <- (app_assoc _ [c]). apply conf_line; [|exact Hl].
  assert (Hk : forallb conf_char (e_key e) = true).
  { unfold wordb in Hw. destruct (e_key e); [discriminate|]. apply andb_prop in Hw as [Hw _]. rewrite forallb_forall in Hw |- *. intros x Hx%Hw. now apply andb_prop in Hx as [Hx _]. }
  rewrite <- !app_assoc, <- E, !forallb_app, Hv, Hk. reflexivity.
Qed.

Definition end_text (name : cstr) : cstr := cs "End "%string ++ name.

Lemma end_line name fp lc : wordb name = true -> getNextLineC_ true (end_text name ++ NL :: fp) lc = (Some (end_text name), fp, lc + 1) /\ isSectionEnd (end_text name) name = Read true.
Proof.
  intros Hw. split.
  - destruct (conf_word name Hw) as (v & c & -> & Hv & Hc). unfold end_text. rewrite app_assoc, <- (app_assoc _ [c]). apply conf_line; [|exact Hc].
    rewrite <- app_assoc, forallb_app, Hv. reflexivity.
  - unfold isSectionEnd, end_text. change (cs "End "%string ++ name) with (cs "End"%string ++ SP :: name). rewrite next_word_word by reflexivity. cbn [rbind]. change (strcasecmp (cs "End"%string) (cs "end"%string)) with true. cbv iota.
    assert (N : next_word (SP :: name) = Read (Some name, [])).
    { rewrite <- (next_word_word name [] Hw I), app_nil_r. unfold next_word, getNextWord_, take_word. cbn [span]. change (isspace SP) with true. cbv iota. now destruct (span isspace name). }
    rewrite N. reflexivity.
Qed.

Lemma entry_not_end e name : entryb e = true -> isSectionEnd (entry_text e) name = Read false.
Proof.
  unfold entryb. intros [[[Hw _]%andb_prop He]%andb_prop _]%andb_prop. unfold isSectionEnd, entry_text. rewrite next_word_word by (auto; reflexivity). cbn [rbind]. apply negb_true_iff in He. now rewrite He.
Qed.

Definition complete (keys : list keymap) : bool := forallb (fun k => match val k with Some _ => true | None => false end) keys.
Definition entries_text (es : list entry) : cstr := concat (map (fun e => entry_text e ++ [NL]) es).

Lemma read_entries name exact fp : wordb name = true -> forall es e keys n fuel, Forall (fun e => entryb e = true) (e :: es) -> (length es < fuel)%nat ->
  read_loop fuel keys (entry_text e) (entries_text es ++ end_text name ++ NL :: fp) n exact name
  = let ks := fold_left put (e :: es) keys in
    let n' := n + Z.of_nat (length es) + 1 in
    if exact && negb (complete ks) then Read (-1, map (set_value None) ks, fp, n') else Read (0, ks, fp, n').
Proof.
  intros Hn. induction es as [|e' es IH]; intros e keys n fuel H Hf; inversion_clear H as [|? ? He Hes]; (destruct fuel as [|fuel]; [cbn in Hf; lia|]); cbn [read_loop]; rewrite put_entry by exact He; cbn [rbind].
  - cbn [entries_text map concat app]. destruct (end_line name fp n Hn) as [-> ->]. cbn [rbind fold_left length]. rewrite Z.add_0_r. reflexivity.
  - inversion_clear Hes as [|? ? He' Hes']. unfold entries_text. cbn [map concat]. rewrite <- !app_assoc. cbn [app]. rewrite entry_line by exact He'. rewrite entry_not_end by exact He'. cbn [rbind].
    fold (entries_text es). rewrite IH; [|now constructor|cbn in Hf; lia]. cbn zeta. cbn [fold_left length]. now replace (n + 1 + Z.of_nat (length es) + 1) with (n + Z.of_nat (S (length es)) + 1) by lia.
Qed.
