(* ===== verification/ConfTheorems.v ===== *)
(** * Sections of configuration files: theorems *)
From Stdlib Require Import ZArith Ascii String Lia.
From stdpp Require Import base gmap list.
From S2P Require Import Prelude CNum Words Values Conf.
Local Open Scope Z_scope.

(** ** Tables *)

(** C30: A table gives each key, of keys with different names, the value of its column. [keyMatch] accepts the first line of a table
    exactly when its words, without regard to case, are different names of keys, and with [exact]
    all of them; then [mapValues] accepts a line exactly when it has as many values as there are
    columns, stores in each key the value at its place in the first line, with [-] for an empty
    one, and leaves nothing in keys without a column or when the line is refused. *)
Theorem table_read keys header row exact ws vs : distinct keys -> words header = Read ws -> values row = Read vs ->
  exists ks, keyMatch keys header exact = Read (header_ok keys ws exact, ks)
    /\ (header_ok keys ws exact = true ->
        mapValues ks row = Read (if (length vs =? length ws)%nat then (0, map (filled ws vs) keys) else (-1, map (unfilled ws) keys))).
Proof.
  intros Hd Hw Hv. destruct (keyMatch_words keys header exact ws Hd Hw) as (ks & E & F). exists ks. split; [exact E|]. intros Hh. rewrite (F Hh).
  apply mapValues_values; auto. unfold header_ok in Hh. now apply andb_prop in Hh as [Hh _].
Qed.

Definition HOST_KEYS : list keymap := [mkKey (cs "HOSTNAME") None (-1); mkKey (cs "model") None 7; mkKey (cs "RESOURCES") (Some (cs "old")) (-1)]%string.

Lemma table_read_witness : exists ks, keyMatch HOST_KEYS (cs "HostName resources  MODEL"%string) true = Read (true, ks)
  /\ (true = true -> mapValues ks (cs "hostA (cs linux) -"%string)
      = Read (0, [mkKey (cs "HOSTNAME") (Some (cs "hostA")) 0; mkKey (cs "model") (Some []) 2; mkKey (cs "RESOURCES") (Some (cs "cs linux")) 1]%string)).
Proof.
  apply (table_read HOST_KEYS (cs "HostName resources  MODEL"%string) (cs "hostA (cs linux) -"%string) true
           (map cs ["HostName"; "resources"; "MODEL"]%string) (map cs ["hostA"; "cs linux"; "-"]%string)); [|reflexivity|reflexivity].
  apply (bool_decide_unpack _). vm_compute. exact I.
Defined.

(** ** Lists of keys and values *)

(** What a line does to a key, and what all of them do. *)
Definition give (k : keymap) (e : entry) : keymap := if strcasecmp (key k) (e_key e) then set_value (Some (putstr (e_value e))) k else k.
Definition given (es : list entry) (k : keymap) : keymap := fold_left give es k.

Lemma key_give k e : key (give k e) = key k.
Proof. unfold give. now destruct (strcasecmp _ _). Qed.

Lemma put_give keys e : distinct keys -> put keys e = map (fun k => give k e) keys.
Proof.
  unfold distinct, put. intros Hd.
  assert (G : putValue keys (e_key e) (e_value e) = if existsb (fun k => strcasecmp (key k) (e_key e)) keys then Some (map (fun k => give k e) keys) else None).
  { induction keys as [|k keys IH]; [reflexivity|]. cbn in Hd. apply NoDup_cons in Hd as [Hk Hd]. cbn [putValue existsb map]. unfold give at 1. destruct (strcasecmp (key k) (e_key e)) eqn:E; cbn [orb].
    - f_equal. f_equal. apply strcasecmp_eq in E. rewrite <- (map_id keys) at 1. apply map_ext_in. intros k' Hk'. unfold give. destruct (strcasecmp (key k') (e_key e)) eqn:E'; [|reflexivity].
      apply strcasecmp_eq in E'. destruct Hk. rewrite E, <- E'. apply list_elem_of_In, (in_map (fun k => lower (key k)) keys). exact Hk'.
    - rewrite IH by exact Hd. now destruct (existsb _ keys). }
  rewrite G. destruct (existsb _ keys) eqn:X; [reflexivity|]. cbn. rewrite <- (map_id keys) at 1. apply map_ext_in. intros k Hk. unfold give.
  destruct (strcasecmp (key k) (e_key e)) eqn:E; [|reflexivity]. assert (Y : existsb (fun k => strcasecmp (key k) (e_key e)) keys = true) by (apply existsb_exists; eauto). congruence.
Qed.

Lemma fold_put keys es : distinct keys -> fold_left put es keys = map (given es) keys.
Proof.
  revert keys. induction es as [|e es IH]; intros keys Hd; cbn [fold_left]; [symmetry; apply map_id|]. rewrite put_give, IH by (auto; unfold distinct in *; rewrite map_map, (map_ext _ (fun k => lower (key k))); auto; intros k; now rewrite key_give).
  rewrite map_map. reflexivity.
Qed.

Definition begin_text (name : cstr) : cstr := cs "Begin "%string ++ name.
Definition section_text (name : cstr) (es : list entry) : cstr := entries_text es ++ end_text name ++ [NL].

Lemma begin_line name fp n : wordb name = true -> getBeginLine (begin_text name ++ NL :: fp) n = Read (Some (SP :: name), fp, n + 1).
Proof.
  intros Hw. unfold getBeginLine. cbn [begin_loop].
  assert (L : getNextLineC_ true (begin_text name ++ NL :: fp) n = (Some (begin_text name), fp, n + 1)).
  { destruct (conf_word name Hw) as (v & c & -> & Hv & Hc). unfold begin_text. rewrite app_assoc, <- (app_assoc _ [c]). apply conf_line; [|exact Hc]. rewrite <- app_assoc, forallb_app, Hv. reflexivity. }
  rewrite L. unfold begin_text. change (cs "Begin "%string ++ name) with (cs "Begin"%string ++ SP :: name). rewrite next_word_word by reflexivity. reflexivity.
Qed.

Lemma skip_entries name fp : wordb name = true -> forall es n fuel, Forall (fun e => entryb e = true) es -> (length es < fuel)%nat ->
  skip_loop fuel (entries_text es ++ end_text name ++ NL :: fp) n name = Read (fp, n + Z.of_nat (length es) + 1).
Proof.
  intros Hw. induction es as [|e es IH]; intros n fuel H Hf; (destruct fuel as [|fuel]; [cbn in Hf; lia|]); cbn [skip_loop].
  - cbn [entries_text map concat app]. destruct (end_line name fp n Hw) as [-> ->]. cbn [rbind length]. now rewrite Z.add_0_r.
  - inversion_clear H as [|? ? He Hes]. unfold entries_text. cbn [map concat]. rewrite <- !app_assoc. cbn [app]. rewrite entry_line, entry_not_end by exact He. cbn [rbind].
    fold (entries_text es). rewrite IH; [|exact Hes|cbn in Hf; lia]. cbn [length]. do 2 f_equal. lia.
Qed.

Lemma length_entries es r : (length es <= length (entries_text es ++ r))%nat.
Proof. induction es as [|e es IH]; [cbn; lia|]. unfold entries_text in *. cbn [map concat length]. rewrite !length_app in *. cbn. lia. Qed.

(** C31: A section of lines [key = value], with values of plain characters that do not begin with
    a bracket, whose [Begin] line is the next line of the file, is found and read: [getBeginLine] stops at its first line, and
    [readHvalues] gives each key the value of the last line with its name, in any case, with [-]
    for an empty one; with [exact] the section is refused, and nothing is kept, when a key has no
    value. The file is left behind the end of the section, where [doSkipSection] leaves it too. *)
Theorem section_read keys name e es exact fp n : distinct keys -> wordb name = true -> Forall (fun e => entryb e = true) (e :: es) ->
  let rest := entries_text (e :: es) ++ end_text name ++ NL :: fp in
  let fp' := entries_text es ++ end_text name ++ NL :: fp in
  let ks := map (given (e :: es)) keys in
  let behind := n + Z.of_nat (length es) + 3 in
  getBeginLine (begin_text name ++ NL :: rest) n = Read (Some (SP :: name), rest, n + 1)
  /\ getNextLineC_ true rest (n + 1) = (Some (entry_text e), fp', n + 2)
  /\ readHvalues keys (entry_text e) fp' (n + 2) exact name
     = (if exact && negb (complete ks) then Read (-1, map (set_value None) ks, fp, behind) else Read (0, ks, fp, behind))
  /\ doSkipSection rest (n + 1) name = Read (fp, behind).
Proof.
  intros Hd Hw H rest fp' ks behind. split; [now apply begin_line|]. pose proof H as H'. inversion_clear H' as [|? ? He Hes]. split; [|split].
  - subst rest fp'. unfold entries_text. cbn [map concat]. rewrite <- !app_assoc. cbn [app]. rewrite entry_line by exact He. now replace (n + 1 + 1) with (n + 2) by lia.
  - unfold readHvalues. subst fp'. rewrite read_entries; auto; [|pose proof (length_entries es (end_text name ++ NL :: fp)); lia]. cbn zeta. rewrite fold_put by exact Hd.
    subst ks behind. now replace (n + 2 + Z.of_nat (length es) + 1) with (n + Z.of_nat (length es) + 3) by lia.
  - unfold doSkipSection. subst rest. rewrite skip_entries; auto; [|pose proof (length_entries (e :: es) (end_text name ++ NL :: fp)); lia]. subst behind. cbn [length]. do 2 f_equal. lia.
Qed.

Definition PARAM_KEYS : list keymap := [mkKey (cs "MBD_SLEEP_TIME") None 0; mkKey (cs "DEFAULT_QUEUE") None 0; mkKey (cs "CLEAN_PERIOD") None 0]%string.
Definition PARAM_LINES : list entry := [mkEntry (cs "default_queue") (cs "night normal"); mkEntry (cs "MBD_SLEEP_TIME") (cs "60"); mkEntry (cs "CLEAN_PERIOD") (cs "-")]%string.

Lemma section_read_witness : readHvalues PARAM_KEYS (cs "MBD_SLEEP_TIME = 20"%string) (entries_text PARAM_LINES ++ end_text (cs "Parameters"%string) ++ NL :: cs "Begin X"%string) 2 true (cs "Parameters"%string)
  = Read (0, [mkKey (cs "MBD_SLEEP_TIME") (Some (cs "60")) 0; mkKey (cs "DEFAULT_QUEUE") (Some (cs "night normal")) 0; mkKey (cs "CLEAN_PERIOD") (Some []) 0]%string, cs "Begin X"%string, 6).
Proof.
  refine (proj1 (proj2 (proj2 (section_read PARAM_KEYS (cs "Parameters"%string) (mkEntry (cs "MBD_SLEEP_TIME") (cs "20"))%string PARAM_LINES true (cs "Begin X"%string) 0 _ _ _)))).
  - apply (bool_decide_unpack _). vm_compute. exact I.
  - vm_compute. reflexivity.
  - repeat (apply Forall_cons_2; [vm_compute; reflexivity|]). apply Forall_nil_2.
Defined.

(** ** Termination *)

Lemma line_shorter fp n l fp' n' : getNextLineC_ true fp n = (Some l, fp', n') -> (length fp' < length fp)%nat.
Proof.
  unfold getNextLineC_. assert (G : forall fuel fp n l fp' n', getNextLineC_fuel fuel true fp n = Some (Some l, fp', n') -> (length fp' < length fp)%nat).
  { induction fuel as [|fuel IH]; intros f m x f' m'; [discriminate|]. cbn. destruct (getNextLineD_ true f m) as [[[y|] g] k] eqn:E; [|discriminate]. apply getNextLineD_shorter in E.
    destruct (all_blank y); [intros H%IH; lia|]. now intros [= <- <- <-]. }
  destruct (getNextLineC_fuel _ true fp n) as [[[x f] m]|] eqn:E; [|discriminate]. intros [= -> -> ->]. now apply G in E.
Qed.

Lemma next_word_ends line : next_word line <> NoFuel.
Proof. unfold next_word. destruct (getNextWord_ line) as [[] ?]; discriminate. Qed.

Lemma section_end_ends l s : isSectionEnd l s <> NoFuel.
Proof.
  unfold isSectionEnd. pose proof (next_word_ends l). destruct (next_word l) as [[[w|] r]| | |]; try discriminate; [|easy]. cbn. destruct (strcasecmp _ _); [|discriminate].
  pose proof (next_word_ends r). now destruct (next_word r).
Qed.

(** The readers of sections end on every file, whatever it holds. *)
Theorem conf_readers_end keys linep fp n exact name :
  readHvalues keys linep fp n exact name <> NoFuel /\ getBeginLine fp n <> NoFuel /\ doSkipSection fp n name <> NoFuel.
Proof.
  split; [|split].
  - unfold readHvalues. assert (G : forall fuel keys l fp n, (length fp < fuel)%nat -> read_loop fuel keys l fp n exact name <> NoFuel); [|apply G; lia].
    induction fuel as [|fuel IH]; intros ks l f m Hf; [lia|]. cbn [read_loop]. assert (P : value_line ks l <> NoFuel) by (unfold value_line; pose proof (next_word_ends l); destruct (next_word l) as [[[w|] r]| | |]; easy).
    destruct (value_line ks l) as [ks'| | |]; try easy. cbn [rbind]. destruct (getNextLineC_ true f m) as [[[l'|] f'] m'] eqn:E; [|discriminate]. apply line_shorter in E.
    pose proof (section_end_ends l' name). destruct (isSectionEnd l' name) as [[]| | |]; try easy; cbn [rbind]; [destruct (_ && _); discriminate|]. apply IH. lia.
  - unfold getBeginLine. assert (G : forall fuel fp n, (length fp < fuel)%nat -> begin_loop fuel fp n <> NoFuel); [|apply G; lia].
    induction fuel as [|fuel IH]; intros f m Hf; [lia|]. cbn [begin_loop]. destruct (getNextLineC_ true f m) as [[[l'|] f'] m'] eqn:E; [|discriminate]. apply line_shorter in E.
    pose proof (next_word_ends l'). destruct (next_word l') as [[[w|] r]| | |]; try easy; cbn [rbind]; [|apply IH; lia]. destruct (strcasecmp _ _); [discriminate|apply IH; lia].
  - unfold doSkipSection. assert (G : forall fuel fp n, (length fp < fuel)%nat -> skip_loop fuel fp n name <> NoFuel); [|apply G; lia].
    induction fuel as [|fuel IH]; intros f m Hf; [lia|]. cbn [skip_loop]. destruct (getNextLineC_ true f m) as [[[l'|] f'] m'] eqn:E; [|discriminate]. apply line_shorter in E.
    pose proof (section_end_ends l' name). destruct (isSectionEnd l' name) as [[]| | |]; try easy; cbn [rbind]. apply IH. lia.
Qed.

(** ** Administrators *)

(** The lists of administrators have no name twice and never fill their arrays. *)
Definition admins_ok (a : admins) (numAds : Z) : Prop :=
  NoDup (adminNames a) /\ length (adminIds a) = length (adminNames a) /\ length (adminGIds a) = length (adminNames a)
  /\ Z.of_nat (length (adminNames a)) < numAds.

Theorem admins_fit getpw word a numAds : admins_ok a numAds -> numAds < 2 ^ 30 ->
  exists a' numAds', putInLists getpw word a numAds = Read (0, a', numAds') /\ admins_ok a' numAds' /\ (forall u, u ∈ adminNames a' <-> u = word \/ u ∈ adminNames a).
Proof.
  intros (H1 & H2 & H3 & H4) Hn. unfold putInLists.
  assert (I : isInlist (adminNames a) word = bool_decide (word ∈ adminNames a)).
  { unfold isInlist. case_bool_decide as D.
    - apply existsb_exists. exists word. split; [now apply list_elem_of_In|apply streq_refl].
    - destruct (existsb _ _) eqn:E; [|reflexivity]. apply existsb_exists in E as (x & Hx & Ex). apply streq_eq in Ex. subst. now apply list_elem_of_In in Hx. }
  rewrite I. case_bool_decide as D; [exists a, numAds; split; [reflexivity|]; split; [now repeat split|]; intros u; split; [now right|intros [->|]; easy]|].
  destruct (Z.leb_spec numAds (Z.of_nat (length (adminNames a)))); [lia|]. destruct (default (-1, -1) (getpw word)) as [uid gid]. cbn [adminNames].
  eexists _, _. split; [reflexivity|]. unfold admins_ok. cbn [adminNames adminIds adminGIds]. rewrite !length_app, H2, H3. cbn [length]. split.
  - repeat split.
    + apply NoDup_app. split; [exact H1|]. split; [|apply NoDup_singleton]. intros x Hx Hx'%list_elem_of_singleton. now subst.
    + destruct (Z.leb_spec numAds (Z.of_nat (length (adminNames a) + 1))); [|lia]. rewrite wrap32_id; [lia|]. unfold int32. lia.
  - intros u. rewrite elem_of_app, list_elem_of_singleton. tauto.
Qed.

(** A key without a value is reported as ignored, but its value becomes the empty text. *)
Theorem null_value_kept : value_line PARAM_KEYS (cs "DEFAULT_QUEUE ="%string) = Read (put PARAM_KEYS (mkEntry (cs "DEFAULT_QUEUE") []))%string
  /\ map val (put PARAM_KEYS (mkEntry (cs "DEFAULT_QUEUE") []))%string = [None; Some []; None].
Proof. split; reflexivity. Qed.
