(* ===== verification/Bitset.v ===== *)
(** * Bit sets (lsf/intlib/bitset.c)

    A set of small numbers as an array of 32-bit words, used by the batch daemon
    for groups of users and for hosts.  The functions that map objects to numbers
    and back are the caller's: they are variables of the section.  The abstract
    view of a set is the predicate [mem] on its mask. *)
From Stdlib Require Import ZArith List Bool Lia.
From S2P Require Import Prelude.
Import ListNotations.
Local Open Scope Z_scope.

Definition WORDLENGTH : Z := 32.
Definition SET_DEFAULT_SIZE : Z := WORDLENGTH.
Definition SET_WORD_DEFAULT_EXTENT : Z := 2.
Definition SET_BIT_ON : Z := 1.

(** [bitseterrno] *)
Inductive bitset_err :=
| LS_BITSET_ERR_SETEMPTY
| LS_BITSET_ERR_FUNC
| LS_BITSET_ERR_ISALREDY
| LS_BITSET_ERR_EINVAL.

(** [l[n] = f(l[n])] *)
Fixpoint upd {A} (n : nat) (f : A -> A) (l : list A) : list A :=
  match l, n with
  | [], _ => []
  | x :: l', O => f x :: l'
  | x :: l', S n' => x :: upd n' f l'
  end.

Section Bitset.

Context {Obj : Type}.
(** [*value] of a simple set ([getIndexByObject == NULL]), else the function. *)
Variable simple : bool.
Variable indexOf : Obj -> Z.
(** [getObjectByIndex], [None] when it is not given. *)
Variable objectAt : option (Z -> option Obj).

(** An observer: its name, its [select] function ([None]: not given) and whether
    it has an [enter] callback. *)
Record observer := mkObs { obs_name : Z; select : option (Obj -> bool); enter : bool }.

Record LS_BITSET_T := mkSet {
  bitmask : list Z;
  setSize : Z;
  setWidth : Z;
  setNumElements : Z;
  allowObservers : bool;
  observers : list observer }.

(** ** Creation *)

Definition setCreate (size : Z) : LS_BITSET_T :=
  let sz := if 0 <? size then size else SET_DEFAULT_SIZE in
  let width := uwrap32 ((sz + WORDLENGTH - 1) / WORDLENGTH) in
  mkSet (repeat 0 (Z.to_nat width)) (uwrap32 (width * WORDLENGTH)) width 0 false [].

Definition SET_GET_WORD (position : Z) : nat := Z.to_nat (position / WORDLENGTH).
Definition SET_GET_BIT_IN_WORD (position : Z) : Z := position mod WORDLENGTH.

(** [set2->bitmask] is copied onto itself. *)
Definition setDup (set : LS_BITSET_T) : LS_BITSET_T :=
  mkSet (repeat 0 (Z.to_nat (setWidth set))) (setSize set) (setWidth set) (setNumElements set)
    (allowObservers set) (observers set).

(** ** Membership *)

(** [None]: a word outside the mask. *)
Definition setTestValue (set : LS_BITSET_T) (value : Z) : option bool :=
  match nth_error (bitmask set) (SET_GET_WORD value) with
  | Some w => Some (has w (Z.shiftl SET_BIT_ON (SET_GET_BIT_IN_WORD value)))
  | None => None
  end.

Definition SET_IS_EMPTY (set : LS_BITSET_T) : bool := setNumElements set =? 0.

(** [x >= set->setSize]: [x] is converted to unsigned. *)
Definition beyond (x : Z) (set : LS_BITSET_T) : bool := setSize set <=? uwrap32 x.

(** Return value and [bitseterrno] when it is set; the outer [None] is a read
    outside the mask. *)
Definition setIsMember (set : LS_BITSET_T) (obj : Obj) : option (Z * option bitset_err) :=
  if SET_IS_EMPTY set then Some (0, Some LS_BITSET_ERR_SETEMPTY)
  else
    let x := indexOf obj in
    if negb simple && (x <? 0) then Some (-1, Some LS_BITSET_ERR_FUNC)
    else if beyond x set then Some (0, None)
    else option_map (fun b : bool => (if b then 1 else 0, None)) (setTestValue set x).

(** ** Changes *)

Definition setEnlarge (set : LS_BITSET_T) (newSize : Z) : LS_BITSET_T :=
  let width := uwrap32 (setWidth set + newSize + SET_WORD_DEFAULT_EXTENT) in
  mkSet (firstn (Z.to_nat width) (bitmask set)
           ++ repeat 0 (Z.to_nat width - length (bitmask set)))
    (uwrap32 (width * WORDLENGTH)) width (setNumElements set) (allowObservers set) (observers set).

(** The observers whose [enter] is called. *)
Definition setNotifyObservers (set : LS_BITSET_T) (entry : Obj) : list Z :=
  map obs_name
    (filter (fun o => match select o with Some f => f entry | None => true end && enter o)
       (observers set)).

Definition set_bit (x : Z) (w : Z) : Z := Z.lor w (Z.shiftl SET_BIT_ON (SET_GET_BIT_IN_WORD x)).
Definition clear_bit (x : Z) (w : Z) : Z :=
  Z.ldiff w (Z.shiftl SET_BIT_ON (SET_GET_BIT_IN_WORD x)).

Definition with_mask (set : LS_BITSET_T) (mask : list Z) (num : Z) : LS_BITSET_T :=
  mkSet mask (setSize set) (setWidth set) num (allowObservers set) (observers set).

(** Return value 0 with the new set and the observers called; -1 with
    [bitseterrno]; or an access outside the mask. *)
Inductive outcome :=
| Done (set : LS_BITSET_T) (called : list Z)
| Failed (e : bitset_err)
| OutOfBounds.

Definition insert (set : LS_BITSET_T) (x : Z) (obj : Obj) : outcome :=
  if (SET_GET_WORD x <? length (bitmask set))%nat then
    let set' := with_mask set (upd (SET_GET_WORD x) (set_bit x) (bitmask set))
                  (uwrap32 (setNumElements set + 1)) in
    Done set' (if allowObservers set' then setNotifyObservers set' obj else [])
  else OutOfBounds.

Definition setAddElement (set : LS_BITSET_T) (obj : Obj) : outcome :=
  let x := indexOf obj in
  if negb simple && (x <? 0) then Failed LS_BITSET_ERR_FUNC
  else if beyond x set then insert (setEnlarge set (uwrap32 x)) x obj
  else
    match setTestValue set x with
    | Some true => Failed LS_BITSET_ERR_ISALREDY
    | Some false => insert set x obj
    | None => OutOfBounds
    end.

(** The comparison [value < 0] is on an uninitialised pointer, and is never true:
    the index is not checked.  An index beyond the set returns [FALSE], which is
    the value of success. *)
Definition setRemoveElement (set : LS_BITSET_T) (obj : Obj) : outcome :=
  if SET_IS_EMPTY set then Failed LS_BITSET_ERR_SETEMPTY
  else
    let x := indexOf obj in
    if beyond x set then Done set []
    else if (SET_GET_WORD x <? length (bitmask set))%nat then
      Done (with_mask set (upd (SET_GET_WORD x) (clear_bit x) (bitmask set))
              (uwrap32 (setNumElements set - 1))) []
    else OutOfBounds.

Definition setClear (set : LS_BITSET_T) : LS_BITSET_T :=
  with_mask set (repeat 0 (Z.to_nat (setWidth set)) ++ skipn (Z.to_nat (setWidth set)) (bitmask set)) 0.

(** ** Counting *)

(** The table [nbits]. *)
Definition nbits : list Z :=
  [ 0; 1; 1; 2; 1; 2; 2; 3; 1; 2; 2; 3; 2; 3; 3; 4;
    1; 2; 2; 3; 2; 3; 3; 4; 2; 3; 3; 4; 3; 4; 4; 5;
    1; 2; 2; 3; 2; 3; 3; 4; 2; 3; 3; 4; 3; 4; 4; 5;
    2; 3; 3; 4; 3; 4; 4; 5; 3; 4; 4; 5; 4; 5; 5; 6;
    1; 2; 2; 3; 2; 3; 3; 4; 2; 3; 3; 4; 3; 4; 4; 5;
    2; 3; 3; 4; 3; 4; 4; 5; 3; 4; 4; 5; 4; 5; 5; 6;
    2; 3; 3; 4; 3; 4; 4; 5; 3; 4; 4; 5; 4; 5; 5; 6;
    3; 4; 4; 5; 4; 5; 5; 6; 4; 5; 5; 6; 5; 6; 6; 7;
    1; 2; 2; 3; 2; 3; 3; 4; 2; 3; 3; 4; 3; 4; 4; 5;
    2; 3; 3; 4; 3; 4; 4; 5; 3; 4; 4; 5; 4; 5; 5; 6;
    2; 3; 3; 4; 3; 4; 4; 5; 3; 4; 4; 5; 4; 5; 5; 6;
    3; 4; 4; 5; 4; 5; 5; 6; 4; 5; 5; 6; 5; 6; 6; 7;
    2; 3; 3; 4; 3; 4; 4; 5; 3; 4; 4; 5; 4; 5; 5; 6;
    3; 4; 4; 5; 4; 5; 5; 6; 4; 5; 5; 6; 5; 6; 6; 7;
    3; 4; 4; 5; 4; 5; 5; 6; 4; 5; 5; 6; 5; 6; 6; 7;
    4; 5; 5; 6; 5; 6; 6; 7; 5; 6; 6; 7; 6; 7; 7; 8 ].

(** The bytes of a word in memory (little-endian). *)
Definition bytes (w : Z) : list Z :=
  map (fun i => Z.land (Z.shiftr w (8 * i)) 255) [0; 1; 2; 3].

Definition sum (l : list Z) : Z := fold_right Z.add 0 l.

Definition count_bytes (bs : list Z) : Z := sum (map (fun b => nth (Z.to_nat b) nbits 0) bs).

Definition getNum1BitsInWord (w : Z) : Z := count_bytes (bytes w).

Definition setGetNumElements (set : LS_BITSET_T) : Z :=
  count_bytes (concat (map bytes (firstn (Z.to_nat (setWidth set)) (bitmask set)))).

(** ** Operations on two sets *)

Inductive set_op := LS_SET_UNION | LS_SET_INTERSECT | LS_SET_DIFFERENCE | LS_SET_ASSIGN.

(** The loops over the words of [src], and over the rest of [dest]. *)
Fixpoint words_op (op : set_op) (d s : list Z) : list Z :=
  match s, d with
  | ws :: s', wd :: d' =>
      match op with
      | LS_SET_UNION => Z.lor wd ws
      | LS_SET_INTERSECT => Z.land wd ws
      | LS_SET_DIFFERENCE => Z.lxor wd ws
      | LS_SET_ASSIGN => ws
      end :: words_op op d' s'
  | [], d =>
      match op with
      | LS_SET_INTERSECT | LS_SET_ASSIGN => repeat 0 (length d)
      | _ => d
      end
  | _, [] => []
  end.

(** [setNumElements] is left as it was. *)
Definition setOperate (dest src : LS_BITSET_T) (op : set_op) : LS_BITSET_T :=
  let dest := if setWidth dest <? setWidth src then setEnlarge dest (setWidth src) else dest in
  with_mask dest (words_op op (bitmask dest) (bitmask src)) (setNumElements dest).

(** ** Iterators *)

Record LS_BITSET_ITERATOR_T := mkIter { iset : LS_BITSET_T; setCurrentBit : Z; isetSize : Z }.

Definition setIteratorAttach (set : LS_BITSET_T) : LS_BITSET_ITERATOR_T := mkIter set 0 (setSize set).

(** The [void *] returned: an object, or the number itself, and [None] for the
    pointer NULL (also the number 0). *)
Inductive entry := EObj (o : Obj) | EBit (i : Z).

Definition entry_at (i : Z) : option entry :=
  match objectAt with
  | None => if i =? 0 then None else Some (EBit i)
  | Some f => option_map EObj (f i)
  end.

(** The search from bit [cur], over [n] bits: [Some (i, e)] when the bit [i] is set. *)
Fixpoint next_from (set : LS_BITSET_T) (n : nat) (cur : Z) : option Z :=
  match n with
  | O => None
  | S n' =>
      match setTestValue set cur with
      | Some true => Some cur
      | _ => next_from set n' (cur + 1)
      end
  end.

Definition setIteratorGetNextElement (it : LS_BITSET_ITERATOR_T) : option entry * LS_BITSET_ITERATOR_T :=
  let set := iset it in
  if SET_IS_EMPTY set then (None, it)
  else
    match next_from set (Z.to_nat (setSize set - setCurrentBit it)) (setCurrentBit it) with
    | Some i =>
        match entry_at i with
        | None =>
            match objectAt with
            | None => (None, mkIter set (i + 1) (isetSize it))
            | Some _ => (None, mkIter set i (isetSize it))
            end
        | Some e => (Some e, mkIter set (i + 1) (isetSize it))
        end
    | None => (None, mkIter set (Z.max (setCurrentBit it) (setSize set)) (isetSize it))
    end.

Definition setIteratorBegin := setIteratorGetNextElement.

Definition setIteratorIsEndOfSet (it : LS_BITSET_ITERATOR_T) : bool :=
  isetSize it <=? setCurrentBit it.

End Bitset.

Arguments mkSet {Obj}.
Arguments LS_BITSET_T : clear implicits.
Arguments Done {Obj}.
Arguments Failed {Obj}.
Arguments OutOfBounds {Obj}.
Arguments EObj {Obj}.
Arguments EBit {Obj}.

(** ** The abstract view *)

Definition mem (mask : list Z) (i : Z) : bool :=
  match nth_error mask (SET_GET_WORD i) with
  | Some w => Z.testbit w (SET_GET_BIT_IN_WORD i)
  | None => false
  end.

(** The members below [n] words, in increasing order. *)
Definition range (n : nat) : list Z := map Z.of_nat (seq 0 n).
Definition elements (mask : list Z) : list Z := filter (mem mask) (range (32 * length mask)).

Definition word32 (w : Z) : bool := (0 <=? w) && (w <? 2 ^ 32).

Definition popcount (w : Z) : Z :=
  Z.of_nat (length (filter (fun o => Z.testbit w (Z.of_nat o)) (seq 0 32))).

Definition card (mask : list Z) : Z := sum (map popcount mask).

(** Shape of a set: the fields agree with each other and with the mask. *)
Definition wf {Obj} (s : LS_BITSET_T Obj) : Prop :=
  forallb word32 (bitmask s) = true /\ Z.of_nat (length (bitmask s)) = setWidth s
  /\ setSize s = setWidth s * WORDLENGTH /\ setWidth s < 2 ^ 27.

(** The counter is the number of members. *)
Definition counted_ok {Obj} (s : LS_BITSET_T Obj) : Prop := setNumElements s = card (bitmask s).

(** ** Words: lemmas *)

Lemma has_bit w o : 0 <= o -> has w (Z.shiftl SET_BIT_ON o) = Z.testbit w o.
Proof.
  intros Ho. unfold has, SET_BIT_ON. rewrite Z.shiftl_1_l.
  assert (P : forall n, 0 <= n -> Z.testbit (2 ^ o) n = (o =? n)) by (intros; apply Z.pow2_bits_eqb; lia).
  destruct (Z.testbit w o) eqn:E; apply Bool.eq_iff_eq_true.
  - split; [reflexivity|]. intros _. apply negb_true_iff, Z.eqb_neq. intros Z0.
    assert (B : Z.testbit (Z.land w (2 ^ o)) o = true)
      by (rewrite Z.land_spec, P, E, Z.eqb_refl by lia; reflexivity).
    rewrite Z0, Z.bits_0 in B. discriminate.
  - split; [|discriminate]. intros H. exfalso. apply negb_true_iff, Z.eqb_neq in H. apply H.
    apply Z.bits_inj'. intros n Hn. rewrite Z.land_spec, P, Z.bits_0 by lia.
    destruct (Z.eqb_spec o n); [subst; now rewrite E|apply andb_false_r].
Qed.

Lemma set_bit_testbit x w o : 0 <= o ->
  Z.testbit (set_bit x w) o = Z.testbit w o || (o =? SET_GET_BIT_IN_WORD x).
Proof.
  intros Ho. unfold set_bit, SET_BIT_ON. rewrite Z.shiftl_1_l, Z.lor_spec. f_equal.
  assert (0 <= SET_GET_BIT_IN_WORD x) by (apply Z.mod_pos_bound; reflexivity).
  rewrite Z.pow2_bits_eqb by lia. apply Z.eqb_sym.
Qed.

Lemma clear_bit_testbit x w o : 0 <= o ->
  Z.testbit (clear_bit x w) o = Z.testbit w o && negb (o =? SET_GET_BIT_IN_WORD x).
Proof.
  intros Ho. unfold clear_bit, SET_BIT_ON. rewrite Z.shiftl_1_l, Z.ldiff_spec. do 2 f_equal.
  assert (0 <= SET_GET_BIT_IN_WORD x) by (apply Z.mod_pos_bound; reflexivity).
  rewrite Z.pow2_bits_eqb by lia. apply Z.eqb_sym.
Qed.

(** A word is a [word32] when it has no bit above 31. *)
Lemma word32_bits w : word32 w = true <-> 0 <= w /\ forall o, 32 <= o -> Z.testbit w o = false.
Proof.
  unfold word32. rewrite andb_true_iff, Z.leb_le, Z.ltb_lt. split.
  - intros [H0 H]. split; [exact H0|]. intros o Ho. rewrite <- (Z.mod_small w (2 ^ 32)) by lia.
    apply Z.mod_pow2_bits_high. lia.
  - intros [H0 H]. split; [exact H0|]. destruct (Z.eq_dec w 0) as [->|N]; [lia|].
    destruct (Z.lt_ge_cases (Z.log2 w) 32) as [L|L].
    + apply Z.log2_lt_pow2; lia.
    + specialize (H _ L). rewrite Z.bit_log2 in H by lia. discriminate.
Qed.

Lemma bit_range x : 0 <= SET_GET_BIT_IN_WORD x < 32.
Proof. apply Z.mod_pos_bound. reflexivity. Qed.

Lemma word32_set x w : word32 w = true -> word32 (set_bit x w) = true.
Proof.
  rewrite !word32_bits. intros [H0 H]. split.
  - unfold set_bit, SET_BIT_ON. apply Z.lor_nonneg. split; [exact H0|]. apply Z.shiftl_nonneg. lia.
  - intros o Ho. rewrite set_bit_testbit, H by lia. pose proof (bit_range x).
    cbn. apply Z.eqb_neq. lia.
Qed.

Lemma word32_clear x w : word32 w = true -> word32 (clear_bit x w) = true.
Proof.
  rewrite !word32_bits. intros [H0 H]. split.
  - unfold clear_bit. apply Z.ldiff_nonneg. now left.
  - intros o Ho. now rewrite clear_bit_testbit, H by lia.
Qed.

Lemma word32_op op d s : word32 d = true -> word32 s = true ->
  word32 (match op with LS_SET_UNION => Z.lor d s | LS_SET_INTERSECT => Z.land d s
          | LS_SET_DIFFERENCE => Z.lxor d s | LS_SET_ASSIGN => s end) = true.
Proof.
  rewrite !word32_bits. intros [D0 D] [S0 S]. destruct op; (split; [|intros o Ho]).
  - now apply Z.lor_nonneg.
  - now rewrite Z.lor_spec, D, S.
  - apply Z.land_nonneg. now left.
  - now rewrite Z.land_spec, D, S.
  - apply Z.lxor_nonneg. tauto.
  - now rewrite Z.lxor_spec, D, S.
  - exact S0.
  - auto.
Qed.

(** Counting with one position more. *)
Lemma filter_flip {A} (f g : A -> bool) a l : NoDup l -> In a l -> f a = false -> g a = true ->
  (forall b, b <> a -> g b = f b) -> length (filter g l) = S (length (filter f l)).
Proof.
  intros Hl Ha Hf Hg Hfg. induction Hl as [|b l Hb Hl IH]; [contradiction|]. cbn.
  destruct Ha as [->|Ha].
  - rewrite Hf, Hg. cbn. do 2 f_equal. apply filter_ext_in. intros c Hc. apply Hfg.
    intros ->. contradiction.
  - rewrite Hfg by (intros ->; contradiction). destruct (f b); cbn; auto.
Qed.

Lemma popcount_flip v w o : 0 <= o < 32 -> Z.testbit v o = false -> Z.testbit w o = true ->
  (forall n, 0 <= n -> n <> o -> Z.testbit w n = Z.testbit v n) -> popcount w = popcount v + 1.
Proof.
  intros Ho Hv Hw H. unfold popcount.
  rewrite (filter_flip (fun o => Z.testbit v (Z.of_nat o)) (fun o => Z.testbit w (Z.of_nat o))
    (Z.to_nat o)).
  - lia.
  - apply seq_NoDup.
  - apply in_seq. lia.
  - now rewrite Z2Nat.id by lia.
  - now rewrite Z2Nat.id by lia.
  - intros b Hb. apply H; lia.
Qed.

(** The table is the number of bits of a byte. *)
Definition bits_of (k : nat) (b : Z) : Z :=
  Z.of_nat (length (filter (fun o => Z.testbit b (Z.of_nat o)) (seq 0 k))).

Lemma nbits_ok b : 0 <= b < 256 -> nth (Z.to_nat b) nbits 0 = bits_of 8 b.
Proof.
  intros Hb.
  assert (T : forallb (fun n => nth n nbits 0 =? bits_of 8 (Z.of_nat n)) (seq 0 256) = true)
    by (vm_compute; reflexivity).
  rewrite forallb_forall in T. specialize (T (Z.to_nat b)). rewrite Z2Nat.id in T by lia.
  apply Z.eqb_eq, T, in_seq. lia.
Qed.

Lemma byte_testbit w i o : 0 <= i -> 0 <= o < 8 ->
  Z.testbit (Z.land (Z.shiftr w (8 * i)) 255) o = Z.testbit w (8 * i + o).
Proof.
  intros Hi Ho. change 255 with (Z.ones 8).
  rewrite Z.land_ones, Z.mod_pow2_bits_low, Z.shiftr_spec by lia. f_equal. lia.
Qed.

Lemma byte_range w i : 0 <= Z.land (Z.shiftr w (8 * i)) 255 < 256.
Proof. change 255 with (Z.ones 8). rewrite Z.land_ones by lia. apply Z.mod_pos_bound. reflexivity. Qed.

Lemma seq_map_add n k : map (Nat.add k) (seq 0 n) = seq k n.
Proof.
  revert k; induction n as [|n IH]; intros k; [reflexivity|]. cbn. rewrite Nat.add_0_r. f_equal.
  rewrite <- seq_shift, map_map. rewrite <- (IH (S k)). apply map_ext. intros; lia.
Qed.

Lemma byte_count w (i : nat) :
  nth (Z.to_nat (Z.land (Z.shiftr w (8 * Z.of_nat i)) 255)) nbits 0
  = Z.of_nat (length (filter (fun o => Z.testbit w (Z.of_nat o)) (seq (8 * i) 8))).
Proof.
  rewrite nbits_ok by apply byte_range. unfold bits_of. f_equal.
  rewrite (filter_ext_in _ (fun o => Z.testbit w (8 * Z.of_nat i + Z.of_nat o)) (seq 0 8)).
  - rewrite <- (seq_map_add 8 (8 * i)), filter_map_swap, length_map. f_equal.
    apply filter_ext. intros o. f_equal. lia.
  - intros o Ho. apply in_seq in Ho. apply byte_testbit; lia.
Qed.

Lemma getNum1BitsInWord_popcount w : getNum1BitsInWord w = popcount w.
Proof.
  unfold getNum1BitsInWord, count_bytes, bytes, popcount. cbn [map sum fold_right].
  pose proof (byte_count w 0) as B0. pose proof (byte_count w 1) as B1.
  pose proof (byte_count w 2) as B2. pose proof (byte_count w 3) as B3.
  change (Z.of_nat 0) with 0 in B0. change (Z.of_nat 1) with 1 in B1.
  change (Z.of_nat 2) with 2 in B2. change (Z.of_nat 3) with 3 in B3.
  rewrite B0, B1, B2, B3.
  change (seq 0 32) with (seq (8 * 0) 8 ++ seq (8 * 1) 8 ++ seq (8 * 2) 8 ++ seq (8 * 3) 8).
  rewrite !filter_app, !length_app. lia.
Qed.

Lemma sum_app a b : sum (a ++ b) = sum a + sum b.
Proof. unfold sum. induction a as [|x a IH]; cbn [app fold_right]; lia. Qed.

Lemma count_bytes_app a b : count_bytes (a ++ b) = count_bytes a + count_bytes b.
Proof. unfold count_bytes. now rewrite map_app, sum_app. Qed.

Lemma count_card mask : count_bytes (concat (map bytes mask)) = card mask.
Proof.
  induction mask as [|w mask IH]; [reflexivity|]. cbn [map concat]. rewrite count_bytes_app, IH.
  change (count_bytes (bytes w)) with (getNum1BitsInWord w).
  rewrite getNum1BitsInWord_popcount. unfold card. cbn [map sum fold_right]. reflexivity.
Qed.

(** ** Masks: lemmas *)

Lemma upd_length {A} n f (l : list A) : length (upd n f l) = length l.
Proof. revert n; induction l as [|x l IH]; intros [|n]; cbn; auto. Qed.

Lemma nth_error_upd {A} n f (l : list A) m :
  nth_error (upd n f l) m = if (n =? m)%nat then option_map f (nth_error l m) else nth_error l m.
Proof.
  revert n m; induction l as [|x l IH]; intros [|n] [|m]; cbn; try reflexivity; [|apply IH].
  now destruct (n =? m)%nat.
Qed.

Lemma upd_forallb {A} p n f (l : list A) : (forall a, p a = true -> p (f a) = true) ->
  forallb p l = true -> forallb p (upd n f l) = true.
Proof.
  intros Hf. revert n; induction l as [|x l IH]; intros [|n]; cbn; auto; intros; bool_split;
    apply andb_true_iff; auto.
Qed.

Lemma card_cons w mask : card (w :: mask) = popcount w + card mask.
Proof. reflexivity. Qed.

Lemma card_upd n f mask w : nth_error mask n = Some w ->
  card (upd n f mask) = card mask - popcount w + popcount (f w).
Proof.
  revert n; induction mask as [|v mask IH]; intros [|n] E; try discriminate; cbn [nth_error upd] in *.
  - injection E as ->. rewrite !card_cons. lia.
  - rewrite !card_cons, (IH _ E). lia.
Qed.

Lemma word_bit_inj x y : 0 <= x -> 0 <= y -> SET_GET_WORD x = SET_GET_WORD y ->
  SET_GET_BIT_IN_WORD x = SET_GET_BIT_IN_WORD y -> x = y.
Proof.
  unfold SET_GET_WORD, SET_GET_BIT_IN_WORD, WORDLENGTH. intros Hx Hy Hw Hb.
  apply Z2Nat.inj in Hw; [|apply Z.div_pos; lia|apply Z.div_pos; lia].
  rewrite (Z.div_mod x 32), (Z.div_mod y 32) by lia. lia.
Qed.

Lemma word_below x (mask : list Z) : 0 <= x < 32 * Z.of_nat (length mask) ->
  (SET_GET_WORD x < length mask)%nat.
Proof.
  intros H. unfold SET_GET_WORD, WORDLENGTH. apply Nat2Z.inj_lt.
  rewrite Z2Nat.id by (apply Z.div_pos; lia). apply Z.div_lt_upper_bound; lia.
Qed.

Lemma mem_upd x f mask y : 0 <= x -> 0 <= y ->
  mem (upd (SET_GET_WORD x) f mask) y
  = if (SET_GET_WORD x =? SET_GET_WORD y)%nat
    then match nth_error mask (SET_GET_WORD y) with
         | Some w => Z.testbit (f w) (SET_GET_BIT_IN_WORD y) | None => false end
    else mem mask y.
Proof.
  intros Hx Hy. unfold mem. rewrite nth_error_upd. destruct (_ =? _)%nat; [|reflexivity].
  now destruct (nth_error mask (SET_GET_WORD y)).
Qed.

Lemma mem_set x mask y : 0 <= x -> 0 <= y -> (SET_GET_WORD x < length mask)%nat ->
  mem (upd (SET_GET_WORD x) (set_bit x) mask) y = mem mask y || (y =? x).
Proof.
  intros Hx Hy Hw. rewrite mem_upd by assumption. pose proof (bit_range y).
  destruct (Nat.eqb_spec (SET_GET_WORD x) (SET_GET_WORD y)) as [E|N].
  - unfold mem. destruct (nth_error mask (SET_GET_WORD y)) eqn:W;
      [|apply nth_error_None in W; lia].
    rewrite set_bit_testbit by lia. f_equal.
    destruct (Z.eqb_spec (SET_GET_BIT_IN_WORD y) (SET_GET_BIT_IN_WORD x)) as [B|B].
    + symmetry. apply Z.eqb_eq. now apply word_bit_inj.
    + symmetry. apply Z.eqb_neq. congruence.
  - destruct (Z.eqb_spec y x); [congruence|]. now rewrite orb_false_r.
Qed.

Lemma mem_clear x mask y : 0 <= x -> 0 <= y ->
  mem (upd (SET_GET_WORD x) (clear_bit x) mask) y = mem mask y && negb (y =? x).
Proof.
  intros Hx Hy. rewrite mem_upd by assumption. pose proof (bit_range y).
  destruct (Nat.eqb_spec (SET_GET_WORD x) (SET_GET_WORD y)) as [E|N].
  - unfold mem. destruct (nth_error mask (SET_GET_WORD y)) eqn:W; [|reflexivity].
    rewrite clear_bit_testbit by lia. do 2 f_equal.
    destruct (Z.eqb_spec (SET_GET_BIT_IN_WORD y) (SET_GET_BIT_IN_WORD x)) as [B|B].
    + symmetry. apply Z.eqb_eq. now apply word_bit_inj.
    + symmetry. apply Z.eqb_neq. congruence.
  - destruct (Z.eqb_spec y x); [congruence|]. now rewrite andb_true_r.
Qed.

(** Adding a bit that is off, or removing one that is on, changes the count by one. *)
Lemma card_set x mask : (SET_GET_WORD x < length mask)%nat -> mem mask x = false ->
  card (upd (SET_GET_WORD x) (set_bit x) mask) = card mask + 1.
Proof.
  intros Hw Hm. unfold mem in Hm. destruct (nth_error mask (SET_GET_WORD x)) eqn:W;
    [|apply nth_error_None in W; lia].
  rewrite (card_upd _ _ _ _ W). pose proof (bit_range x).
  rewrite (popcount_flip z (set_bit x z) (SET_GET_BIT_IN_WORD x)); [lia|lia|exact Hm| |].
  - rewrite set_bit_testbit, Z.eqb_refl by lia. apply orb_true_r.
  - intros n Hn N. rewrite set_bit_testbit by lia. destruct (Z.eqb_spec n (SET_GET_BIT_IN_WORD x));
      [contradiction|]. apply orb_false_r.
Qed.

Lemma card_clear x mask : mem mask x = true ->
  card (upd (SET_GET_WORD x) (clear_bit x) mask) = card mask - 1.
Proof.
  intros Hm. unfold mem in Hm. destruct (nth_error mask (SET_GET_WORD x)) eqn:W; [|discriminate].
  rewrite (card_upd _ _ _ _ W). pose proof (bit_range x).
  rewrite (popcount_flip (clear_bit x z) z (SET_GET_BIT_IN_WORD x)); [lia|lia| |exact Hm|].
  - rewrite clear_bit_testbit, Z.eqb_refl by lia. apply andb_false_r.
  - intros n Hn N. rewrite clear_bit_testbit by lia.
    destruct (Z.eqb_spec n (SET_GET_BIT_IN_WORD x)); [contradiction|]. now rewrite andb_true_r.
Qed.

Lemma mem_app_zeros mask n i : mem (mask ++ repeat 0 n) i = mem mask i.
Proof.
  unfold mem. destruct (Nat.lt_ge_cases (SET_GET_WORD i) (length mask)).
  - now rewrite nth_error_app1.
  - rewrite nth_error_app2 by lia. replace (nth_error mask (SET_GET_WORD i)) with (@None Z)
      by (symmetry; now apply nth_error_None).
    destruct (nth_error (repeat 0 n) _) eqn:E; [|reflexivity].
    apply nth_error_In, repeat_spec in E. subst. apply Z.bits_0.
Qed.

Lemma card_app a b : card (a ++ b) = card a + card b.
Proof. unfold card. now rewrite map_app, sum_app. Qed.

Lemma card_zeros n : card (repeat 0 n) = 0.
Proof. induction n as [|n IH]; [reflexivity|]. cbn [repeat]. exact IH. Qed.

Lemma word32_zeros n : forallb word32 (repeat 0 n) = true.
Proof. induction n; [reflexivity|]. exact IHn. Qed.

Lemma popcount_bound w : 0 <= popcount w <= 32.
Proof.
  unfold popcount. pose proof (filter_length_le (fun o => Z.testbit w (Z.of_nat o)) (seq 0 32)) as L.
  rewrite length_seq in L. lia.
Qed.

Lemma card_bound mask : 0 <= card mask <= 32 * Z.of_nat (length mask).
Proof.
  unfold card. induction mask as [|w mask IH]; cbn [map sum fold_right length]; [lia|].
  pose proof (popcount_bound w). unfold sum in IH. lia.
Qed.
