(* ===== verification/BitsetTheorems.v ===== *)
(** * Properties of bit sets (lsf/intlib/bitset.c)

    Each operation against the abstract view of [Bitset.v]: the members of the
    mask, and the counter [setNumElements]. *)
From Stdlib Require Import ZArith List Bool Lia.
From S2P Require Import Prelude Bitset.
Import ListNotations.
Local Open Scope Z_scope.

Section BitsetFacts.

Context {Obj : Type} (simple : bool) (indexOf : Obj -> Z).
Implicit Types s : LS_BITSET_T Obj.

Lemma uwrap32_id z : 0 <= z < 2 ^ 32 -> uwrap32 z = z.
Proof. apply Z.mod_small. Qed.

Lemma beyond_spec s x : wf s -> 0 <= x < 2 ^ 31 -> beyond x s = (setWidth s * WORDLENGTH <=? x).
Proof.
  intros (_ & _ & Hs & _) Hx. unfold beyond. rewrite uwrap32_id, Hs by lia. reflexivity.
Qed.

Lemma setTestValue_mem s x : (SET_GET_WORD x < length (bitmask s))%nat ->
  setTestValue s x = Some (mem (bitmask s) x).
Proof.
  intros H. unfold setTestValue, mem. destruct (nth_error _ _) eqn:E;
    [|apply nth_error_None in E; lia].
  rewrite has_bit; [reflexivity|]. apply (bit_range x).
Qed.

Lemma wf_below s x : wf s -> 0 <= x < setWidth s * WORDLENGTH -> (SET_GET_WORD x < length (bitmask s))%nat.
Proof. intros (_ & Hl & _) Hx. apply word_below. unfold WORDLENGTH in Hx. lia. Qed.

Lemma setEnlarge_spec s n : wf s -> 0 <= n -> setWidth s + n + 2 < 2 ^ 27 ->
  let s' := setEnlarge s n in
  wf s' /\ setWidth s' = setWidth s + n + 2 /\ setNumElements s' = setNumElements s
  /\ bitmask s' = bitmask s ++ repeat 0 (Z.to_nat (n + 2))
  /\ allowObservers s' = allowObservers s /\ observers s' = observers s.
Proof.
  intros (Hm & Hl & Hs & Hb) Hn Hw. unfold setEnlarge, SET_WORD_DEFAULT_EXTENT. cbn zeta.
  set (w := setWidth s + n + 2) in *. assert (0 <= w) by lia.
  assert (E1 : uwrap32 w = w) by (apply uwrap32_id; lia).
  assert (E2 : uwrap32 (w * WORDLENGTH) = w * WORDLENGTH) by (apply uwrap32_id; unfold WORDLENGTH; lia).
  rewrite E1, E2.
  assert (E : firstn (Z.to_nat w) (bitmask s) ++ repeat 0 (Z.to_nat w - length (bitmask s))
              = bitmask s ++ repeat 0 (Z.to_nat (n + 2))).
  { rewrite firstn_all2 by lia. do 2 f_equal. lia. }
  rewrite E. unfold wf. cbn. repeat split; try lia.
  - now rewrite forallb_app, Hm, word32_zeros.
  - rewrite length_app, repeat_length. lia.
Qed.

Lemma wf_mask s mask num : wf s -> length mask = length (bitmask s) ->
  forallb word32 mask = true -> wf (with_mask s mask num).
Proof. intros (Hm & Hl & Hs & Hb) E F. unfold wf. cbn. repeat split; auto. now rewrite E. Qed.

(** The update shared by the two branches of [setAddElement]. *)
Lemma insert_spec s x obj : wf s -> counted_ok s -> 0 <= x < setWidth s * WORDLENGTH ->
  mem (bitmask s) x = false ->
  exists s' called, insert s x obj = Done s' called /\ wf s' /\ counted_ok s'
    /\ (forall y, 0 <= y -> mem (bitmask s') y = mem (bitmask s) y || (y =? x))
    /\ called = (if allowObservers s then setNotifyObservers s obj else []).
Proof.
  intros W K Hx Hm. pose proof (wf_below s x W Hx) as B. unfold insert.
  apply Nat.ltb_lt in B as B'. rewrite B'. do 2 eexists. split; [reflexivity|].
  assert (Hc := card_bound (upd (SET_GET_WORD x) (set_bit x) (bitmask s))).
  rewrite upd_length, card_set in Hc by assumption.
  assert (Wl := W). destruct Wl as (Hw & Hl & Hsz & Hb). unfold counted_ok in *. split; [|split; [|split]].
  - apply wf_mask; [exact W|apply upd_length|apply upd_forallb; [apply word32_set|exact Hw]].
  - cbn [with_mask bitmask setNumElements]. rewrite K, card_set by assumption. apply uwrap32_id. lia.
  - intros y Hy. cbn [with_mask bitmask]. apply mem_set; lia.
  - reflexivity.
Qed.

Lemma setAddElement_new s obj : wf s -> counted_ok s -> 0 <= indexOf obj ->
  setWidth s + indexOf obj + 2 < 2 ^ 27 -> mem (bitmask s) (indexOf obj) = false ->
  exists s' called, setAddElement simple indexOf s obj = Done s' called /\ wf s' /\ counted_ok s'
    /\ (forall y, 0 <= y -> mem (bitmask s') y = mem (bitmask s) y || (y =? indexOf obj))
    /\ called = (if allowObservers s then setNotifyObservers s obj else []).
Proof.
  intros W K Hx Hb Hm. unfold setAddElement. cbn zeta.
  assert (0 <= setWidth s) by (destruct W as (_ & <- & _); lia).
  destruct (Z.ltb_spec (indexOf obj) 0); [lia|]. rewrite andb_false_r.
  rewrite beyond_spec by (auto; lia). destruct (Z.leb_spec (setWidth s * WORDLENGTH) (indexOf obj)) as [L|L].
  - rewrite uwrap32_id by lia.
    destruct (setEnlarge_spec s (indexOf obj) W Hx Hb) as (W' & Hw' & Hn' & Hm' & Ho' & Hob').
    destruct (insert_spec (setEnlarge s (indexOf obj)) (indexOf obj) obj) as (s' & c & E & A & B & M & F).
    + exact W'.
    + unfold counted_ok in *. now rewrite Hn', Hm', card_app, card_zeros, K, Z.add_0_r.
    + rewrite Hw'. unfold WORDLENGTH. lia.
    + rewrite Hm', mem_app_zeros. exact Hm.
    + exists s', c. split; [exact E|]. split; [exact A|]. split; [exact B|]. split.
      * intros y Hy. rewrite M by assumption. now rewrite Hm', mem_app_zeros.
      * rewrite F, Ho'. unfold setNotifyObservers. now rewrite Hob'.
  - rewrite setTestValue_mem by (apply wf_below; auto; lia). rewrite Hm.
    apply insert_spec; auto; lia.
Qed.

Lemma setAddElement_old s obj : wf s -> 0 <= indexOf obj < 2 ^ 31 ->
  mem (bitmask s) (indexOf obj) = true ->
  setAddElement simple indexOf s obj = Failed LS_BITSET_ERR_ISALREDY.
Proof.
  intros W Hx Hm. unfold setAddElement. cbn zeta. destruct (Z.ltb_spec (indexOf obj) 0); [lia|].
  rewrite andb_false_r, beyond_spec by auto.
  assert (B : (SET_GET_WORD (indexOf obj) < length (bitmask s))%nat).
  { unfold mem in Hm. destruct (nth_error _ _) eqn:E; [|discriminate].
    apply nth_error_Some. congruence. }
  assert (L : indexOf obj < setWidth s * WORDLENGTH).
  { destruct W as (_ & Hl & _). unfold SET_GET_WORD, WORDLENGTH in *. apply Nat2Z.inj_lt in B.
    rewrite Z2Nat.id in B by (apply Z.div_pos; lia).
    pose proof (Z.mul_succ_div_gt (indexOf obj) 32 ltac:(lia)). lia. }
  destruct (Z.leb_spec (setWidth s * WORDLENGTH) (indexOf obj)); [lia|].
  now rewrite setTestValue_mem, Hm by assumption.
Qed.

Lemma remove_spec s obj : wf s -> counted_ok s -> 0 <= indexOf obj < 2 ^ 31 ->
  mem (bitmask s) (indexOf obj) = true ->
  exists s', setRemoveElement indexOf s obj = Done s' [] /\ wf s' /\ counted_ok s'
    /\ (forall y, 0 <= y -> mem (bitmask s') y = mem (bitmask s) y && negb (y =? indexOf obj)).
Proof.
  intros W K Hx Hm.
  assert (B : (SET_GET_WORD (indexOf obj) < length (bitmask s))%nat).
  { unfold mem in Hm. destruct (nth_error _ _) eqn:E; [|discriminate].
    apply nth_error_Some. congruence. }
  assert (L : indexOf obj < setWidth s * WORDLENGTH).
  { destruct W as (_ & Hl & _). unfold SET_GET_WORD, WORDLENGTH in *. apply Nat2Z.inj_lt in B.
    rewrite Z2Nat.id in B by (apply Z.div_pos; lia).
    pose proof (Z.mul_succ_div_gt (indexOf obj) 32 ltac:(lia)). lia. }
  assert (Hc := card_bound (upd (SET_GET_WORD (indexOf obj)) (clear_bit (indexOf obj)) (bitmask s))).
  rewrite upd_length, card_clear in Hc by assumption.
  assert (Wl := W). destruct Wl as (Hw & Hl & Hsz & Hb). unfold counted_ok in *.
  unfold setRemoveElement, SET_IS_EMPTY. rewrite K.
  destruct (Z.eqb_spec (card (bitmask s)) 0); [lia|]. cbn zeta. rewrite beyond_spec by auto.
  destruct (Z.leb_spec (setWidth s * WORDLENGTH) (indexOf obj)); [lia|].
  apply Nat.ltb_lt in B as B'. rewrite B'. eexists. split; [reflexivity|]. split; [|split].
  - apply wf_mask; [exact W|apply upd_length|apply upd_forallb; [apply word32_clear|exact Hw]].
  - cbn [with_mask bitmask setNumElements]. rewrite card_clear by assumption. apply uwrap32_id. lia.
  - intros y Hy. cbn [with_mask bitmask]. apply mem_clear; lia.
Qed.

Lemma words_op_length op d t : (length t <= length d)%nat -> length (words_op op d t) = length d.
Proof.
  revert d; induction t as [|w t IH]; intros [|v d] H; cbn in *; try lia.
  - now destruct op.
  - destruct op; cbn; try reflexivity; now rewrite repeat_length.
  - rewrite IH; lia.
Qed.

Definition bit_op (op : set_op) (a b : bool) : bool :=
  match op with
  | LS_SET_UNION => a || b | LS_SET_INTERSECT => a && b
  | LS_SET_DIFFERENCE => xorb a b | LS_SET_ASSIGN => b
  end.

Lemma words_op_nil op d :
  words_op op d [] = match op with LS_SET_INTERSECT | LS_SET_ASSIGN => repeat 0 (length d) | _ => d end.
Proof. now destruct d. Qed.

Lemma nth_words_op op d t n : (length t <= length d)%nat ->
  nth_error (words_op op d t) n
  = match nth_error d n, nth_error t n with
    | Some a, Some b =>
        Some (match op with LS_SET_UNION => Z.lor a b | LS_SET_INTERSECT => Z.land a b
              | LS_SET_DIFFERENCE => Z.lxor a b | LS_SET_ASSIGN => b end)
    | Some a, None =>
        Some (match op with LS_SET_INTERSECT | LS_SET_ASSIGN => 0 | _ => a end)
    | None, _ => None
    end.
Proof.
  revert d n; induction t as [|w t IH]; intros d n H.
  - assert (N : nth_error (@nil Z) n = None) by (destruct n; reflexivity). rewrite N.
    rewrite words_op_nil. destruct op; destruct (nth_error d n) eqn:E; try reflexivity;
      try (apply nth_error_repeat, nth_error_Some; congruence);
      (apply nth_error_None; rewrite repeat_length; now apply nth_error_None).
  - destruct d as [|v d]; [cbn in H; lia|]. destruct n as [|n]; [now destruct op|].
    cbn [words_op nth_error]. apply IH. cbn in H. lia.
Qed.

Lemma mem_words_op op d t i : (length t <= length d)%nat -> 0 <= i ->
  mem (words_op op d t) i = bit_op op (mem d i) (mem t i).
Proof.
  intros H Hi. unfold mem. rewrite nth_words_op by assumption. pose proof (bit_range i).
  destruct (nth_error d (SET_GET_WORD i)) eqn:D.
  - destruct (nth_error t (SET_GET_WORD i)), op; cbn [bit_op];
      rewrite ?Z.lor_spec, ?Z.land_spec, ?Z.lxor_spec, ?Z.bits_0, ?orb_false_r, ?andb_false_r, ?xorb_false_r;
      reflexivity.
  - assert (T : nth_error t (SET_GET_WORD i) = None)
      by (apply nth_error_None; apply nth_error_None in D; lia).
    rewrite T. now destruct op.
Qed.

Lemma word32_words_op op d t : forallb word32 d = true -> forallb word32 t = true ->
  forallb word32 (words_op op d t) = true.
Proof.
  revert d; induction t as [|w t IH]; intros [|v d] Hd Ht; try reflexivity.
  - now destruct op.
  - destruct op; cbn [words_op]; auto using word32_zeros.
  - cbn [words_op forallb] in *. bool_split. rewrite word32_op, IH by assumption. reflexivity.
Qed.

Lemma setOperate_spec (dest src : LS_BITSET_T Obj) op : wf dest -> wf src -> setWidth dest + setWidth src + 2 < 2 ^ 27 ->
  wf (setOperate dest src op)
  /\ (forall i, 0 <= i -> mem (bitmask (setOperate dest src op)) i
        = bit_op op (mem (bitmask dest) i) (mem (bitmask src) i))
  /\ setNumElements (setOperate dest src op) = setNumElements dest.
Proof.
  intros Wd Ws Hb. unfold setOperate. cbn zeta.
  assert (Hs0 : 0 <= setWidth src) by (destruct Ws as (_ & <- & _); lia).
  assert (G : forall d : LS_BITSET_T Obj, wf d -> setWidth src <= setWidth d -> (forall i, mem (bitmask d) i = mem (bitmask dest) i) ->
    setNumElements d = setNumElements dest ->
    wf (with_mask d (words_op op (bitmask d) (bitmask src)) (setNumElements d))
    /\ (forall i, 0 <= i -> mem (bitmask (with_mask d (words_op op (bitmask d) (bitmask src)) (setNumElements d))) i
          = bit_op op (mem (bitmask dest) i) (mem (bitmask src) i))
    /\ setNumElements (with_mask d (words_op op (bitmask d) (bitmask src)) (setNumElements d)) = setNumElements dest).
  { intros d Wdd Hw Hm Hn. assert (L : (length (bitmask src) <= length (bitmask d))%nat)
      by (destruct Wdd as (_ & A & _), Ws as (_ & B & _); lia).
    split; [|split; [|exact Hn]].
    - apply wf_mask; [exact Wdd|now apply words_op_length|].
      apply word32_words_op; [apply Wdd|apply Ws].
    - intros i Hi. cbn [with_mask bitmask]. rewrite mem_words_op by assumption. now rewrite Hm. }
  destruct (Z.ltb_spec (setWidth dest) (setWidth src)) as [L|L]; [|now apply G].
  destruct (setEnlarge_spec dest (setWidth src) Wd Hs0 Hb) as (W' & Hw' & Hn' & Hm' & _).
  apply G; auto; [destruct Wd as (_ & D & _); lia|]. intros i. rewrite Hm'. apply mem_app_zeros.
Qed.

End BitsetFacts.

(** ** Iteration *)

Section Iteration.

Context {Obj : Type} (f : Z -> option Obj).
Implicit Types s : LS_BITSET_T Obj.

(** Calls of [setIteratorGetNextElement] until NULL, at most [n]. *)
Fixpoint iterate (n : nat) (it : LS_BITSET_ITERATOR_T) : list (@entry Obj) :=
  match n with
  | O => []
  | S n' =>
      match setIteratorGetNextElement (Some f) it with
      | (Some e, it') => e :: iterate n' it'
      | (None, _) => []
      end
  end.

(** The members from [cur], over [n] numbers. *)
Definition members_from s (n : nat) (cur : Z) : list Z :=
  filter (mem (bitmask s)) (map (fun k => cur + Z.of_nat k) (seq 0 n)).

Lemma members_from_S s n cur :
  members_from s (S n) cur = (if mem (bitmask s) cur then [cur] else []) ++ members_from s n (cur + 1).
Proof.
  unfold members_from. cbn [seq map filter]. rewrite Z.add_0_r, <- seq_shift, map_map.
  rewrite (map_ext _ (fun k => cur + 1 + Z.of_nat k)) by (intros; lia).
  now destruct (mem (bitmask s) cur).
Qed.

Lemma next_from_spec s n cur : wf s -> 0 <= cur -> cur + Z.of_nat n <= setWidth s * WORDLENGTH ->
  match next_from s n cur with
  | Some i => cur <= i < cur + Z.of_nat n
      /\ members_from s n cur = i :: members_from s (Z.to_nat (cur + Z.of_nat n - (i + 1))) (i + 1)
  | None => members_from s n cur = []
  end.
Proof.
  intros W. revert cur; induction n as [|n IH]; intros cur Hc Hn; [reflexivity|]. cbn [next_from].
  rewrite setTestValue_mem by (apply wf_below; auto; lia). rewrite members_from_S.
  destruct (mem (bitmask s) cur).
  - split; [lia|]. cbn [app]. f_equal. f_equal. lia.
  - specialize (IH (cur + 1) ltac:(lia) ltac:(lia)). cbn [app].
    destruct (next_from s n (cur + 1)); [|exact IH]. destruct IH as [H ->]. split; [lia|].
    f_equal. f_equal. lia.
Qed.

Lemma iterate_spec s n cur sz : wf s -> SET_IS_EMPTY s = false -> 0 <= cur <= setWidth s * WORDLENGTH ->
  (forall i, mem (bitmask s) i = true -> f i <> None) ->
  (length (members_from s (Z.to_nat (setSize s - cur)) cur) < n)%nat ->
  map Some (iterate n (mkIter s cur sz))
  = map (fun i => option_map EObj (f i)) (members_from s (Z.to_nat (setSize s - cur)) cur).
Proof.
  intros W E Hc Hf. revert cur Hc; induction n as [|n IH]; intros cur Hc Hn; [lia|].
  assert (Hs : setSize s = setWidth s * WORDLENGTH) by apply W.
  cbn [iterate]. unfold setIteratorGetNextElement. cbn [iset setCurrentBit]. rewrite E.
  pose proof (next_from_spec s (Z.to_nat (setSize s - cur)) cur W ltac:(lia) ltac:(lia)) as N.
  destruct (next_from s _ cur) as [i|]; [|now rewrite N].
  destruct N as [Hi N]. rewrite N in Hn |- *. cbn [length map] in *.
  assert (M : mem (bitmask s) i = true).
  { assert (I : In i (members_from s (Z.to_nat (setSize s - cur)) cur)) by (rewrite N; now left).
    unfold members_from in I. now apply filter_In in I. }
  unfold entry_at. specialize (Hf i M) as F. destruct (f i) as [o|]; [|contradiction]. cbn [option_map map].
  f_equal. replace (Z.to_nat (cur + Z.of_nat (Z.to_nat (setSize s - cur)) - (i + 1)))
    with (Z.to_nat (setSize s - (i + 1))) in * by lia.
  apply IH; lia.
Qed.

End Iteration.

Lemma members_from_elements {Obj} (s : LS_BITSET_T Obj) : wf s ->
  members_from s (Z.to_nat (setSize s - 0)) 0 = elements (bitmask s).
Proof.
  intros (_ & Hl & Hs & _). unfold members_from, elements, range. f_equal.
  replace (Z.to_nat (setSize s - 0)) with (32 * length (bitmask s))%nat
    by (rewrite Hs; unfold WORDLENGTH; lia).
  apply map_ext. intros; lia.
Qed.

(** The counter of a well-formed set against the list of its members. *)
Lemma mem_cons_high w mask k : mem (w :: mask) (Z.of_nat (32 + k)) = mem mask (Z.of_nat k).
Proof.
  unfold mem, SET_GET_WORD, SET_GET_BIT_IN_WORD, WORDLENGTH.
  replace (Z.of_nat (32 + k)) with (Z.of_nat k + 1 * 32) by lia.
  rewrite Z.div_add, Z.mod_add, Z2Nat.inj_add by (try apply Z.div_pos; lia).
  rewrite Nat.add_1_r. reflexivity.
Qed.

Lemma mem_cons_low w mask k : (k < 32)%nat -> mem (w :: mask) (Z.of_nat k) = Z.testbit w (Z.of_nat k).
Proof.
  intros H. unfold mem, SET_GET_WORD, SET_GET_BIT_IN_WORD, WORDLENGTH.
  now rewrite Z.div_small, Z.mod_small by lia.
Qed.

Lemma card_elements mask : card mask = Z.of_nat (length (elements mask)).
Proof.
  induction mask as [|w mask IH]; [reflexivity|]. rewrite card_cons, IH. unfold elements, range.
  replace (32 * length (w :: mask))%nat with (32 + 32 * length mask)%nat by (cbn [length]; lia).
  rewrite seq_app, map_app, filter_app, length_app, Nat2Z.inj_add.
  assert (A : length (filter (mem (w :: mask)) (map Z.of_nat (seq 0 32)))
              = length (filter (fun o => Z.testbit w (Z.of_nat o)) (seq 0 32))).
  { rewrite filter_map_swap, length_map.
    rewrite (filter_ext_in (fun a => mem (w :: mask) (Z.of_nat a)) (fun o => Z.testbit w (Z.of_nat o)));
      [reflexivity|]. intros k Hk. apply in_seq in Hk. apply mem_cons_low. lia. }
  assert (B : length (filter (mem (w :: mask)) (map Z.of_nat (seq (0 + 32) (32 * length mask))))
              = length (filter (mem mask) (map Z.of_nat (seq 0 (32 * length mask))))).
  { rewrite <- (seq_map_add (32 * length mask) (0 + 32)), map_map, !filter_map_swap, !length_map.
    rewrite (filter_ext (fun a => mem (w :: mask) (Z.of_nat (0 + 32 + a))) (fun a => mem mask (Z.of_nat a)));
      [reflexivity|]. intros k. apply mem_cons_high. }
  rewrite A, B. reflexivity.
Qed.

Lemma setCreate_wf {Obj} size : size < 2 ^ 31 -> wf (setCreate (Obj := Obj) size) /\ counted_ok (setCreate (Obj := Obj) size).
Proof.
  intros H. unfold setCreate, SET_DEFAULT_SIZE. cbn zeta.
  set (sz := if 0 <? size then size else WORDLENGTH).
  assert (Hz : 1 <= sz < 2 ^ 31) by (subst sz; unfold WORDLENGTH; destruct (Z.ltb_spec 0 size); lia).
  set (w := (sz + WORDLENGTH - 1) / WORDLENGTH).
  assert (Hw : 0 <= w < 2 ^ 27).
  { subst w. unfold WORDLENGTH. split; [apply Z.div_pos; lia|apply Z.div_lt_upper_bound; lia]. }
  assert (E1 : uwrap32 w = w) by (apply uwrap32_id; lia).
  assert (E2 : uwrap32 (w * WORDLENGTH) = w * WORDLENGTH) by (apply uwrap32_id; unfold WORDLENGTH; lia).
  rewrite E1, E2.
  unfold wf, counted_ok. cbn [bitmask setSize setWidth setNumElements]. rewrite word32_zeros, repeat_length, card_zeros. repeat split; lia.
Qed.

(** ** Properties *)

Definition sample_set : LS_BITSET_T Z := setCreate 64.

(** [setAddElement] on a well-formed set: an element that is a member is
    refused with [LS_BITSET_ERR_ISALREDY]; any other is added, with the mask
    enlarged when needed: exactly that member is new, the counter is again the
    number of members, and the observers that select it are called. *)
Theorem setAddElement_spec {Obj} simple (indexOf : Obj -> Z) s obj :
  wf s -> counted_ok s -> 0 <= indexOf obj -> setWidth s + indexOf obj + 2 < 2 ^ 27 ->
  if mem (bitmask s) (indexOf obj)
  then setAddElement simple indexOf s obj = Failed LS_BITSET_ERR_ISALREDY
  else exists s' called, setAddElement simple indexOf s obj = Done s' called /\ wf s' /\ counted_ok s'
    /\ (forall y, 0 <= y -> mem (bitmask s') y = mem (bitmask s) y || (y =? indexOf obj))
    /\ called = (if allowObservers s then setNotifyObservers s obj else []).
Proof.
  intros W K Hx Hb. assert (0 <= setWidth s) by (destruct W as (_ & <- & _); lia).
  destruct (mem (bitmask s) (indexOf obj)) eqn:M.
  - apply setAddElement_old; auto; lia.
  - now apply setAddElement_new.
Qed.

Lemma setAddElement_spec_witness :
  exists s' called, setAddElement false (fun x => x) sample_set 100 = Done s' called /\ wf s' /\ counted_ok s'
    /\ (forall y, 0 <= y -> mem (bitmask s') y = mem (bitmask sample_set) y || (y =? 100))
    /\ called = [].
Proof.
  destruct (setCreate_wf (Obj := Z) 64 ltac:(lia)) as [W K].
  apply (setAddElement_spec false (fun x => x) sample_set 100 W K); vm_compute; congruence.
Defined.

(** [setRemoveElement] of a member removes exactly that member and keeps the
    counter equal to the number of members. *)
Theorem setRemoveElement_spec {Obj} (indexOf : Obj -> Z) s obj :
  wf s -> counted_ok s -> 0 <= indexOf obj < 2 ^ 31 -> mem (bitmask s) (indexOf obj) = true ->
  exists s', setRemoveElement indexOf s obj = Done s' [] /\ wf s' /\ counted_ok s'
    /\ (forall y, 0 <= y -> mem (bitmask s') y = mem (bitmask s) y && negb (y =? indexOf obj)).
Proof. apply remove_spec. Qed.

Definition sample_member : LS_BITSET_T Z := mkSet [0; 8] 64 2 1 false [].

Lemma setRemoveElement_spec_witness :
  exists s', setRemoveElement (fun x => x) sample_member 35 = Done s' [] /\ wf s' /\ counted_ok s'
    /\ (forall y, 0 <= y -> mem (bitmask s') y = mem (bitmask sample_member) y && negb (y =? 35)).
Proof.
  apply (setRemoveElement_spec (fun x => x) sample_member 35); [|reflexivity|lia|reflexivity].
  vm_compute. repeat split.
Defined.

(** [setGetNumElements] counts the bits of the mask with the table of byte
    counts: it is the number of members. *)
Theorem setGetNumElements_spec {Obj} (s : LS_BITSET_T Obj) : wf s ->
  setGetNumElements s = Z.of_nat (length (elements (bitmask s))).
Proof.
  intros (_ & Hl & _). unfold setGetNumElements. rewrite firstn_all2 by lia.
  now rewrite count_card, card_elements.
Qed.

Lemma setGetNumElements_spec_witness :
  setGetNumElements sample_member = Z.of_nat (length (elements (bitmask sample_member))).
Proof. apply setGetNumElements_spec. vm_compute. repeat split. Defined.

(** [setOperate] combines the members of two sets, of whatever widths, by
    union, intersection, symmetric difference or assignment, and leaves the
    counter of [dest] as it was. *)
Theorem setOperate_members {Obj} (dest src : LS_BITSET_T Obj) op :
  wf dest -> wf src -> setWidth dest + setWidth src + 2 < 2 ^ 27 ->
  wf (setOperate dest src op)
  /\ (forall i, 0 <= i -> mem (bitmask (setOperate dest src op)) i
        = bit_op op (mem (bitmask dest) i) (mem (bitmask src) i))
  /\ setNumElements (setOperate dest src op) = setNumElements dest.
Proof. apply setOperate_spec. Qed.

Lemma setOperate_members_witness :
  wf (setOperate sample_set sample_member LS_SET_UNION)
  /\ (forall i, 0 <= i -> mem (bitmask (setOperate sample_set sample_member LS_SET_UNION)) i
        = bit_op LS_SET_UNION (mem (bitmask sample_set) i) (mem (bitmask sample_member) i))
  /\ setNumElements (setOperate sample_set sample_member LS_SET_UNION) = 0.
Proof.
  apply (setOperate_members sample_set sample_member LS_SET_UNION); vm_compute; repeat split.
Defined.

(** Since [setOperate] does not change the counter, the members that a union
    adds to an empty set stay invisible: [setIsMember] answers no for every
    object. *)
Theorem union_into_empty_invisible {Obj} simple (indexOf : Obj -> Z) dest src obj :
  setNumElements dest = 0 ->
  setIsMember simple indexOf (setOperate dest src LS_SET_UNION) obj = Some (0, Some LS_BITSET_ERR_SETEMPTY).
Proof.
  intros H. unfold setIsMember, SET_IS_EMPTY, setOperate. cbn zeta.
  destruct (setWidth dest <? setWidth src); cbn [with_mask setNumElements setEnlarge]; now rewrite H.
Qed.

Lemma union_into_empty_invisible_witness :
  mem (bitmask (setOperate sample_set sample_member LS_SET_UNION)) 35 = true
  /\ setIsMember true (fun x => x) (setOperate sample_set sample_member LS_SET_UNION) 35
     = Some (0, Some LS_BITSET_ERR_SETEMPTY).
Proof. split; [reflexivity|]. apply union_into_empty_invisible. reflexivity. Defined.

(** An iterator over a set whose counter is not zero returns the objects of
    all members, in increasing order of their numbers, and then NULL, provided
    that [getObjectByIndex] knows every member. *)
Theorem setIterator_enumerates {Obj} (f : Z -> option Obj) s :
  wf s -> counted_ok s -> (forall i, mem (bitmask s) i = true -> f i <> None) ->
  map Some (iterate f (S (length (elements (bitmask s)))) (setIteratorAttach s))
  = map (fun i => option_map EObj (f i)) (elements (bitmask s)).
Proof.
  intros W K Hf. rewrite <- (members_from_elements s W). unfold setIteratorAttach.
  destruct (SET_IS_EMPTY s) eqn:E.
  - unfold SET_IS_EMPTY in E. apply Z.eqb_eq in E. unfold counted_ok in K. rewrite E, card_elements in K.
    rewrite (members_from_elements s W). destruct (elements (bitmask s)); [|cbn in K; lia].
    cbn [length iterate]. unfold setIteratorGetNextElement. cbn [iset]. unfold SET_IS_EMPTY.
    now rewrite E.
  - apply iterate_spec; auto. destruct W as (_ & Hl & _). unfold WORDLENGTH. lia.
Qed.

Lemma setIterator_enumerates_witness :
  map Some (iterate (fun i => Some i) (S (length (elements (bitmask sample_member)))) (setIteratorAttach sample_member))
  = map (fun i => option_map EObj (Some i)) (elements (bitmask sample_member))
  /\ elements (bitmask sample_member) = [35].
Proof.
  split; [|reflexivity]. apply (setIterator_enumerates (fun i => Some i) sample_member);
    [vm_compute; repeat split|reflexivity|discriminate].
Defined.

(** [setDup] copies the new mask onto itself instead of the old one: the
    duplicate has no members, but the counter of the original. *)
Theorem setDup_loses_members {Obj} (s : LS_BITSET_T Obj) :
  (forall i, mem (bitmask (setDup s)) i = false) /\ setNumElements (setDup s) = setNumElements s.
Proof.
  split; [|reflexivity]. intros i. cbn [setDup bitmask].
  rewrite (mem_app_zeros [] (Z.to_nat (setWidth s)) i : mem (repeat 0 _) i = _).
  unfold mem. now destruct (SET_GET_WORD i).
Qed.

(** [setRemoveElement] does not look whether the element is a member: on a set
    with one member, removing another number makes the counter zero, and the
    member can no longer be found. *)
Theorem remove_absent_hides_member {Obj} (indexOf : Obj -> Z) s a b :
  wf s -> setNumElements s = 1 -> 0 <= indexOf a < setSize s -> 0 <= indexOf b < setSize s ->
  int32 (indexOf b) -> indexOf a <> indexOf b -> mem (bitmask s) (indexOf a) = true ->
  exists s', setRemoveElement indexOf s b = Done s' [] /\ mem (bitmask s') (indexOf a) = true
    /\ setIsMember false indexOf s' a = Some (0, Some LS_BITSET_ERR_SETEMPTY).
Proof.
  intros W N Ha Hb Hi Hab Hm. unfold int32 in Hi. assert (Hs : setSize s = setWidth s * WORDLENGTH) by apply W.
  assert (Hw : setWidth s < 2 ^ 27) by apply W.
  unfold setRemoveElement, SET_IS_EMPTY. rewrite N. cbn [Z.eqb]. cbn zeta.
  rewrite beyond_spec by (auto; lia). destruct (Z.leb_spec (setWidth s * WORDLENGTH) (indexOf b)); [lia|].
  pose proof (wf_below s (indexOf b) W ltac:(lia)) as B. apply Nat.ltb_lt in B. rewrite B.
  eexists. split; [reflexivity|]. split.
  - cbn [with_mask bitmask]. rewrite mem_clear, Hm by lia. cbn. apply negb_true_iff, Z.eqb_neq. congruence.
  - reflexivity.
Qed.

Lemma remove_absent_hides_member_witness :
  exists s', setRemoveElement (fun x => x) sample_member 4 = Done s' [] /\ mem (bitmask s') 35 = true
    /\ setIsMember false (fun x => x) s' 35 = Some (0, Some LS_BITSET_ERR_SETEMPTY).
Proof.
  apply (remove_absent_hides_member (fun x => x) sample_member 35 4);
    [vm_compute; repeat split|reflexivity|unfold sample_member; cbn; lia
    |unfold sample_member; cbn; lia|unfold int32; lia|discriminate|reflexivity].
Defined.
