(* ===== verification/DList.v ===== *)
(** * Circular doubly linked lists in a heap

    [lsf/intlib/list.c] and [lsf/lib/lib.table.c] both keep their elements in
    circular doubly linked lists whose header is an element like the others.
    The heap maps the address of an element to its two pointers; an access to an
    address that is not in the heap is [None].  [dlist h p xs] says that the
    elements linked behind the header [p] are [xs]. *)
From stdpp Require Import base gmap list.
From Stdlib Require Import ZArith Lia.

(** [struct _listEntry] ([forw], [back]) and [struct hLinks] ([fwPtr], [bwPtr]). *)
Record links := mkLinks { fw : Z; bw : Z }.

Implicit Types (h : gmap Z links) (p q x : Z) (xs ys : list Z).

Definition get_fw h p : option Z := fw <$> h !! p.
Definition get_bw h p : option Z := bw <$> h !! p.
Definition set_fw h p (v : Z) : option (gmap Z links) :=
  l ← h !! p; Some (<[p := mkLinks v (bw l)]> h).
Definition set_bw h p (v : Z) : option (gmap Z links) :=
  l ← h !! p; Some (<[p := mkLinks (fw l) v]> h).

(** ** Segments *)

(** From [p] over [xs] to [q], in both directions. *)
Fixpoint chain h p xs q : Prop :=
  match xs with
  | [] => get_fw h p = Some q /\ get_bw h q = Some p
  | x :: xs' => get_fw h p = Some x /\ get_bw h x = Some p /\ chain h x xs' q
  end.

Definition dlist h p xs : Prop := NoDup (p :: xs) /\ chain h p xs p.

Lemma chain_app h p xs x ys q :
  chain h p (xs ++ x :: ys) q <-> chain h p xs x /\ chain h x ys q.
Proof.
  revert p; induction xs as [|y xs IH]; intros p; cbn; [tauto|]. rewrite IH. tauto.
Qed.

(** A segment depends on the forward pointers of all but its end and the backward
    pointers of all but its beginning. *)
Lemma chain_ext h h' p xs q :
  (forall y, y ∈ p :: xs -> get_fw h' y = get_fw h y) ->
  (forall y, y ∈ xs ++ [q] -> get_bw h' y = get_bw h y) ->
  chain h p xs q -> chain h' p xs q.
Proof.
  revert p; induction xs as [|x xs IH]; intros p F B; cbn.
  - rewrite F, B by set_solver. auto.
  - intros (E1 & E2 & C). rewrite F, B by set_solver. split; [done|]. split; [done|].
    apply IH; [| |done]; intros y Hy; [apply F|apply B]; set_solver.
Qed.

Lemma chain_fw_in h p xs q : chain h p xs q -> forall y, y ∈ p :: xs -> is_Some (h !! y).
Proof.
  revert p; induction xs as [|x xs IH]; intros p; cbn.
  - intros [E _] y ->%list_elem_of_singleton. unfold get_fw in E. by destruct (h !! p).
  - intros (E & _ & C) y [->|Hy]%elem_of_cons; [|by eapply IH].
    unfold get_fw in E. by destruct (h !! p).
Qed.

(** The last element of [p :: xs] is the predecessor of the end. *)
Fixpoint lastd p xs : Z := match xs with [] => p | x :: xs' => lastd x xs' end.

Lemma lastd_in p xs : lastd p xs ∈ p :: xs.
Proof. revert p; induction xs as [|x xs IH]; intros p; cbn; [set_solver|]. specialize (IH x). set_solver. Qed.

Lemma lastd_snoc p xs x : lastd p (xs ++ [x]) = x.
Proof. revert p; induction xs as [|y xs IH]; intros p; cbn; auto. Qed.

Lemma chain_last h p xs q : chain h p xs q -> get_bw h q = Some (lastd p xs).
Proof. revert p; induction xs as [|x xs IH]; intros p; cbn; [tauto|]. intros (_ & _ & C). by apply IH. Qed.

Lemma chain_head h p xs q : chain h p xs q -> get_fw h p = Some (hd q xs).
Proof. destruct xs; cbn; tauto. Qed.

(** A segment gets a new end when its last pointer is changed. *)
Lemma chain_retarget h h' p xs q t : NoDup (p :: xs) -> chain h p xs q ->
  get_fw h' (lastd p xs) = Some t -> get_bw h' t = Some (lastd p xs) ->
  (forall y, y ∈ p :: xs -> y <> lastd p xs -> get_fw h' y = get_fw h y) ->
  (forall y, y ∈ xs -> get_bw h' y = get_bw h y) -> chain h' p xs t.
Proof.
  revert p; induction xs as [|x xs IH]; intros p N C E1 E2 F B; cbn in *; [tauto|].
  destruct C as (C1 & C2 & C). apply NoDup_cons in N as [N1 N].
  assert (p <> lastd x xs) by (pose proof (lastd_in x xs); set_solver).
  rewrite F, B by set_solver. split; [done|]. split; [done|].
  apply IH; auto; intros y Hy; [intros; apply F|apply B]; set_solver.
Qed.

(** ** Fields after an update *)

Lemma set_fw_fields h p v : is_Some (h !! p) -> exists h', set_fw h p v = Some h'
  /\ (forall y, get_fw h' y = if decide (y = p) then Some v else get_fw h y)
  /\ (forall y, get_bw h' y = get_bw h y).
Proof.
  intros [l E]. unfold set_fw. rewrite E. cbn. eexists. split; [done|]. unfold get_fw, get_bw.
  split; intros y; destruct (decide (y = p)) as [->|]; rewrite ?lookup_insert_eq, ?lookup_insert_ne by done; cbn; try done.
  by rewrite E.
Qed.

Lemma set_bw_fields h p v : is_Some (h !! p) -> exists h', set_bw h p v = Some h'
  /\ (forall y, get_fw h' y = get_fw h y)
  /\ (forall y, get_bw h' y = if decide (y = p) then Some v else get_bw h y).
Proof.
  intros [l E]. unfold set_bw. rewrite E. cbn. eexists. split; [done|]. unfold get_fw, get_bw.
  split; intros y; destruct (decide (y = p)) as [->|]; rewrite ?lookup_insert_eq, ?lookup_insert_ne by done; cbn; try done.
  by rewrite E.
Qed.

Lemma fw_some h p v : get_fw h p = Some v -> is_Some (h !! p).
Proof. unfold get_fw. destruct (h !! p); done. Qed.
Lemma bw_some h p v : get_bw h p = Some v -> is_Some (h !! p).
Proof. unfold get_bw. destruct (h !! p); done. Qed.
Lemma some_fw h p : is_Some (h !! p) -> exists v, get_fw h p = Some v.
Proof. unfold get_fw. intros [l ->]. by eexists. Qed.
Lemma some_bw h p : is_Some (h !! p) -> exists v, get_bw h p = Some v.
Proof. unfold get_bw. intros [l ->]. by eexists. Qed.

(** Runs the next field update of the goal. *)
Ltac field_step :=
  match goal with
  | |- context [set_fw ?h ?p ?v] =>
      let h' := fresh "h" in let E := fresh "E" in let F := fresh "F" in let B := fresh "B" in
      destruct (set_fw_fields h p v) as (h' & E & F & B); [|rewrite E; cbn [mbind option_bind]]
  | |- context [set_bw ?h ?p ?v] =>
      let h' := fresh "h" in let E := fresh "E" in let F := fresh "F" in let B := fresh "B" in
      destruct (set_bw_fields h p v) as (h' & E & F & B); [|rewrite E; cbn [mbind option_bind]]
  end.

(** [inserted h s e h']: [e] was put before [s]; [removed h x h']: [x] was taken
    out.  Everything else is as before. *)
Definition inserted h (s e : Z) h' : Prop := exists b, get_bw h s = Some b
  /\ (forall y, get_fw h' y = if decide (y = b) then Some e else if decide (y = e) then Some s else get_fw h y)
  /\ (forall y, get_bw h' y = if decide (y = s) then Some e else if decide (y = e) then Some b else get_bw h y).

Definition removed h (x : Z) h' : Prop := exists f b, get_fw h x = Some f /\ get_bw h x = Some b
  /\ (forall y, get_fw h' y = if decide (y = b) then Some f else get_fw h y)
  /\ (forall y, get_bw h' y = if decide (y = f) then Some b else get_bw h y).

(** ** Insertion and removal *)

Lemma dlist_head h p xs : dlist h p xs -> get_fw h p = Some (hd p xs).
Proof. intros [_ C]. by apply chain_head in C. Qed.

Lemma dlist_last h p xs : dlist h p xs -> get_bw h p = Some (lastd p xs).
Proof. intros [_ C]. by apply chain_last in C. Qed.

Lemma dlist_in h p xs y : dlist h p xs -> y ∈ p :: xs -> is_Some (h !! y).
Proof. intros [_ C]. by apply (chain_fw_in _ _ _ _ C). Qed.

(** The list cut before the element [s], which is the header at its end. *)
Lemma dlist_cut h p l1 l2 : dlist h p (l1 ++ l2) ->
  chain h p l1 (hd p l2) /\ (l2 = [] \/ exists s l2', l2 = s :: l2' /\ chain h s l2' p).
Proof.
  intros [_ C]. destruct l2 as [|s l2]; cbn.
  - rewrite app_nil_r in C. auto.
  - apply chain_app in C as [C1 C2]. split; [done|]. right. by exists s, l2.
Qed.

Lemma dlist_pred h p l1 l2 : dlist h p (l1 ++ l2) -> get_bw h (hd p l2) = Some (lastd p l1).
Proof. intros D. apply dlist_cut in D as [C _]. by apply chain_last in C. Qed.

Lemma lastd_not_behind p l1 l2 y : NoDup (p :: l1 ++ l2) -> y ∈ l2 -> y <> lastd p l1.
Proof.
  rewrite NoDup_cons, NoDup_app. intros (Np & _ & N & _) Hy ->. pose proof (lastd_in p l1) as L.
  apply elem_of_cons in L as [E|L]; [|by eapply N]. rewrite E in Hy. set_solver.
Qed.

Lemma hd_not_before p l1 l2 y : NoDup (p :: l1 ++ l2) -> y ∈ l1 -> y <> hd p l2.
Proof.
  rewrite NoDup_cons, NoDup_app. intros (Np & _ & N & _) Hy ->. destruct l2 as [|s l2]; cbn in Hy.
  - set_solver.
  - apply (N s Hy). set_solver.
Qed.

Lemma dlist_insert h p l1 l2 e h' : dlist h p (l1 ++ l2) -> e ∉ p :: l1 ++ l2 ->
  inserted h (hd p l2) e h' -> dlist h' p (l1 ++ e :: l2).
Proof.
  intros D He (b & Hb & F & B). rewrite (dlist_pred _ _ _ _ D) in Hb. injection Hb as <-.
  pose proof (proj1 D) as N. destruct (dlist_cut _ _ _ _ D) as [C1 C2]. clear D.
  assert (Hl : e <> lastd p l1) by (intros ->; pose proof (lastd_in p l1); set_solver).
  assert (Hs : e <> hd p l2) by (intros ->; destruct l2; cbn in He; set_solver).
  assert (He2 : forall y, y ∈ p :: l1 ++ l2 -> y <> e) by (intros y Hy ->; done).
  split.
  { rewrite NoDup_cons, NoDup_app in *. rewrite NoDup_cons. clear - N He. set_solver. }
  apply chain_app. split.
  - apply (chain_retarget h h' p l1 (hd p l2)); auto.
    + rewrite NoDup_cons, NoDup_app in *. clear - N. set_solver.
    + by rewrite F, decide_True.
    + by rewrite B, decide_False, decide_True.
    + intros y Hy Hn. rewrite F, !decide_False; auto. apply He2. clear - Hy. set_solver.
    + intros y Hy. rewrite B, !decide_False; auto; [apply He2; clear - Hy; set_solver|by eapply hd_not_before].
  - assert (E : get_fw h' e = Some (hd p l2) /\ get_bw h' (hd p l2) = Some e).
    { by rewrite F, B, decide_False, !decide_True. }
    destruct C2 as [->|(s & l2' & -> & C2)]; cbn [hd chain] in *; [done|]. destruct E as [E1 E2]. split; [done|]. split; [done|].
    apply (chain_ext h); auto; intros y Hy.
    + rewrite F, !decide_False; auto; [apply He2; clear - Hy; set_solver|by eapply lastd_not_behind].
    + assert (y <> s /\ y <> e) as [? ?]; [|by rewrite B, !decide_False].
      split; [|apply He2; clear - Hy; set_solver]. intros ->.
      rewrite NoDup_cons, NoDup_app, NoDup_cons in N. clear - N Hy. set_solver.
Qed.

Lemma dlist_remove h p l1 x l2 h' : dlist h p (l1 ++ x :: l2) -> removed h x h' -> dlist h' p (l1 ++ l2).
Proof.
  intros D (f & b & Hf & Hb & F & B). pose proof (dlist_pred _ _ _ _ D) as P. cbn in P. rewrite P in Hb. injection Hb as <-.
  destruct D as [N C]. apply chain_app in C as [C1 C2].
  rewrite (chain_head _ _ _ _ C2) in Hf. injection Hf as <-.
  assert (N' : NoDup (p :: l1 ++ l2)).
  { rewrite NoDup_cons, NoDup_app in *. rewrite NoDup_cons in N. clear - N. set_solver. }
  split; [done|].
  assert (R : chain h' p l1 (hd p l2)).
  { apply (chain_retarget h h' p l1 x); auto.
    - rewrite NoDup_cons, NoDup_app in N'. rewrite NoDup_cons. clear - N'. set_solver.
    - by rewrite F, decide_True.
    - by rewrite B, decide_True.
    - intros y Hy Hl. by rewrite F, decide_False.
    - intros y Hy. rewrite B, decide_False; auto. by eapply hd_not_before. }
  destruct l2 as [|s l2]; cbn in *; [by rewrite app_nil_r|].
  apply chain_app. split; [done|]. destruct C2 as (_ & _ & C2).
  apply (chain_ext h); auto; intros y Hy.
  - rewrite F, decide_False; auto. by eapply lastd_not_behind.
  - rewrite B, decide_False; auto. intros ->. rewrite NoDup_cons, NoDup_app, NoDup_cons in N'. clear - N' Hy. set_solver.
Qed.

(** Lists without a common element do not disturb each other. *)
Lemma dlist_insert_frame h p xs e h' q ys l1 l2 : dlist h p xs -> xs = l1 ++ l2 -> inserted h (hd p l2) e h' ->
  dlist h q ys -> e ∉ q :: ys -> (forall y, y ∈ p :: xs -> y ∉ q :: ys) -> dlist h' q ys.
Proof.
  intros D -> (b & Hb & F & B) [N C] He Dj. rewrite (dlist_pred _ _ _ _ D) in Hb. injection Hb as <-.
  assert (L : lastd p l1 ∉ q :: ys) by (apply Dj; pose proof (lastd_in p l1); set_solver).
  assert (S : hd p l2 ∉ q :: ys) by (apply Dj; destruct l2; cbn; set_solver).
  split; [done|]. apply (chain_ext h); auto; intros y Hy.
  - rewrite F, decide_False, decide_False; auto; set_solver.
  - rewrite B, decide_False, decide_False; auto; set_solver.
Qed.

Lemma dlist_remove_frame h p l1 x l2 h' q ys : dlist h p (l1 ++ x :: l2) -> removed h x h' ->
  dlist h q ys -> (forall y, y ∈ p :: l1 ++ x :: l2 -> y ∉ q :: ys) -> dlist h' q ys.
Proof.
  intros D (f & b & Hf & Hb & F & B) [N C] Dj. pose proof (dlist_pred _ _ _ _ D) as P. cbn in P. rewrite P in Hb. injection Hb as <-.
  destruct D as [_ C0]. apply chain_app in C0 as [_ C2]. rewrite (chain_head _ _ _ _ C2) in Hf. injection Hf as <-.
  assert (L : lastd p l1 ∉ q :: ys) by (apply Dj; pose proof (lastd_in p l1); set_solver).
  assert (S : hd p l2 ∉ q :: ys) by (apply Dj; destruct l2; cbn; set_solver).
  split; [done|]. apply (chain_ext h); auto; intros y Hy.
  - rewrite F, decide_False; auto; set_solver.
  - rewrite B, decide_False; auto; set_solver.
Qed.

Lemma inserted_dom h s e h' y : inserted h s e h' -> is_Some (h !! e) -> is_Some (h !! s) ->
  is_Some (h !! y) -> is_Some (h' !! y).
Proof.
  intros (b & Hb & F & B) He Hs Hy. apply some_bw in Hy as [v Hy]. pose proof (B y) as By. rewrite Hy in By.
  repeat case_decide; by eapply bw_some.
Qed.

Lemma removed_dom h x h' y : removed h x h' -> is_Some (h !! y) -> is_Some (h' !! y).
Proof.
  intros (f & b & _ & _ & F & B) Hy. apply some_bw in Hy as [v Hy]. pose proof (B y) as By. rewrite Hy in By.
  case_decide; by eapply bw_some.
Qed.

Lemma dlist_size h p xs : dlist h p xs -> (length xs < size h)%nat.
Proof.
  intros D. assert (S : (list_to_set (p :: xs) : gset Z) ⊆ dom h).
  { intros y Hy%elem_of_list_to_set. apply elem_of_dom. by eapply dlist_in. }
  apply subseteq_size in S. rewrite size_list_to_set in S by apply D. rewrite size_dom in S. cbn in S. lia.
Qed.

(** ** Families of lists *)

(** All lists of a heap, by their headers: no two have an element in common. *)
Definition lists h (A : gmap Z (list Z)) : Prop :=
  (forall p xs, A !! p = Some xs -> dlist h p xs)
  /\ (forall p q xs ys, A !! p = Some xs -> A !! q = Some ys -> p <> q -> forall y, y ∈ p :: xs -> y ∉ q :: ys).

(** An element that is in none of the lists. *)
Definition outside (A : gmap Z (list Z)) (e : Z) : Prop := forall p xs, A !! p = Some xs -> e ∉ p :: xs.

Lemma lists_change h h' A p xs ys : lists h A -> A !! p = Some xs -> dlist h' p ys ->
  (forall q zs, A !! q = Some zs -> p <> q -> dlist h' q zs) ->
  (forall y, y ∈ ys -> y ∈ xs \/ outside A y) -> lists h' (<[p := ys]> A).
Proof.
  intros [D J] Hp Dp Oth In. split.
  - intros q zs. destruct (decide (p = q)) as [<-|N]; rewrite ?lookup_insert_eq, ?lookup_insert_ne by done; [by intros [= <-]|eauto].
  - assert (K : forall q zs, A !! q = Some zs -> p <> q -> forall y, y ∈ p :: ys -> y ∉ q :: zs).
    { intros q zs Hq N y [->|Hy]%elem_of_cons; [apply (J p q xs zs Hp Hq N); set_solver|].
      destruct (In y Hy) as [Hx|Ho]; [apply (J p q xs zs Hp Hq N); set_solver|by eapply Ho]. }
    intros q r zs us. destruct (decide (p = q)) as [<-|Nq], (decide (p = r)) as [<-|Nr];
      rewrite ?lookup_insert_eq, ?lookup_insert_ne by done; intros Hq Hr N; try done.
    + injection Hq as <-. by apply K.
    + injection Hr as <-. intros y Hy Hy'. by apply (K q zs Hq (not_eq_sym N) y).
    + by apply (J q r).
Qed.

Lemma lists_insert h h' A p l1 l2 e : lists h A -> A !! p = Some (l1 ++ l2) -> outside A e ->
  inserted h (hd p l2) e h' -> lists h' (<[p := l1 ++ e :: l2]> A).
Proof.
  intros K Hp Ho I. pose proof K as [D J]. eapply lists_change; [done|done| | |].
  - eapply dlist_insert; eauto.
  - intros q zs Hq N. eapply (dlist_insert_frame h p _ e h' q zs l1 l2); eauto.
  - intros y Hy. assert (y = e \/ y ∈ l1 ++ l2) as [->|] by set_solver; auto.
Qed.

Lemma lists_remove h h' A p l1 e l2 : lists h A -> A !! p = Some (l1 ++ e :: l2) -> removed h e h' ->
  lists h' (<[p := l1 ++ l2]> A) /\ outside (<[p := l1 ++ l2]> A) e.
Proof.
  intros K Hp R. pose proof K as [D J]. pose proof (D _ _ Hp) as Dp. split.
  - eapply lists_change; [done|done| | |].
    + by eapply dlist_remove.
    + intros q zs Hq N. eapply dlist_remove_frame; eauto.
    + intros y Hy. left. set_solver.
  - intros q zs. destruct (decide (p = q)) as [<-|N]; rewrite ?lookup_insert_eq, ?lookup_insert_ne by done.
    + intros [= <-] Hy. destruct Dp as [N _]. rewrite NoDup_cons, NoDup_app, NoDup_cons in N. set_solver.
    + intros Hq. apply (J p q _ _ Hp Hq N). set_solver.
Qed.

Lemma outside_insert A p xs e : outside A e -> e ∉ p :: xs -> outside (<[p := xs]> A) e.
Proof.
  intros O N q ys. destruct (decide (p = q)) as [<-|]; rewrite ?lookup_insert_eq, ?lookup_insert_ne by done; [by intros [= <-]|apply O].
Qed.

Lemma outside_fresh h A e : lists h A -> h !! e = None -> outside A e.
Proof. intros [Dl _] E p xs H Hy. destruct (dlist_in _ _ _ _ (Dl _ _ H) Hy) as [l El]. congruence. Qed.

(** Changes of the heap outside the lists. *)
Lemma lists_ext h h' A e : lists h A -> outside A e -> (forall y, y <> e -> h' !! y = h !! y) -> lists h' A.
Proof.
  intros [Dl J] O E. split; [|done]. intros p xs H. destruct (Dl _ _ H) as [N C]. split; [done|].
  assert (K : forall y, y ∈ p :: xs -> h' !! y = h !! y) by (intros y Hy; apply E; intros ->; by eapply O).
  apply (chain_ext h); auto; intros y Hy; unfold get_fw, get_bw; rewrite K; auto. set_solver.
Qed.

Lemma inserted_none h s e h' a : inserted h s e h' -> is_Some (h !! e) -> h !! a = None -> h' !! a = None.
Proof.
  intros (b & Hb & F & B) [l He] Ha. pose proof (B a) as Ba. rewrite !decide_False in Ba.
  - unfold get_bw in Ba. rewrite Ha in Ba. by destruct (h' !! a).
  - intros ->. congruence.
  - intros ->. apply bw_some in Hb as [? ?]. congruence.
Qed.

Lemma removed_none h x h' a : removed h x h' -> (forall f, get_fw h x = Some f -> is_Some (h !! f)) ->
  h !! a = None -> h' !! a = None.
Proof.
  intros (f & b & Hf & Hb & F & B) K Ha. pose proof (B a) as Ba. rewrite decide_False in Ba.
  - unfold get_bw in Ba. rewrite Ha in Ba. by destruct (h' !! a).
  - intros ->. destruct (K _ Hf). congruence.
Qed.

(** A new, empty list; and an empty list whose header goes away. *)
Lemma lists_new h A p : lists h A -> outside A p -> lists (<[p := mkLinks p p]> h) (<[p := []]> A).
Proof.
  intros K O. assert (L : lists (<[p := mkLinks p p]> h) A).
  { eapply lists_ext; [exact K|exact O|]. intros y Hy. by rewrite lookup_insert_ne. }
  assert (Dp : dlist (<[p := mkLinks p p]> h) p []).
  { split; [apply NoDup_singleton|]. cbn. unfold get_fw, get_bw. by rewrite lookup_insert_eq. }
  split.
  - intros q xs. destruct (decide (p = q)) as [<-|N]; rewrite ?lookup_insert_eq, ?(lookup_insert_ne A) by done;
      [by intros [= <-]|apply L].
  - intros q r xs ys. destruct (decide (p = q)) as [<-|Nq], (decide (p = r)) as [<-|Nr];
      rewrite ?lookup_insert_eq, ?lookup_insert_ne by done; intros Hq Hr N y Hy; try done.
    + injection Hq as <-. apply list_elem_of_singleton in Hy as ->. by apply O.
    + injection Hr as <-. rewrite list_elem_of_singleton. intros ->. by eapply O.
    + by eapply (proj2 K q r).
Qed.

Lemma lists_drop h A p : lists h A -> A !! p = Some [] -> lists (delete p h) (delete p A).
Proof.
  intros [Dl J] H. assert (O : outside (delete p A) p).
  { intros q xs. destruct (decide (p = q)) as [<-|N]; [by rewrite lookup_delete_eq|]. rewrite lookup_delete_ne by done.
    intros Hq. apply (J p q [] xs H Hq N). set_solver. }
  eapply (lists_ext h _ _ p); [|exact O|intros y Hy; by rewrite lookup_delete_ne].
  split.
  - intros q xs [_ Hq]%lookup_delete_Some. by apply Dl.
  - intros q r xs ys [_ Hq]%lookup_delete_Some [_ Hr]%lookup_delete_Some. by apply J.
Qed.
