(* ===== verification/ListLib.v ===== *)
(** * Doubly linked lists with observers (lsf/intlib/list.c, list.h)

    The daemon keeps its jobs, queues and hosts in these lists.  The header of a
    list is an element of its own circle.  Pointers are addresses ([0] is NULL);
    the fields [forw] and [back] of entries, headers and observers are in one
    heap, the other fields in one map for each kind of object.  [None] is an
    access through a pointer to nothing.  Allocation is taken to succeed and
    returns a new address.  Observers and destructors are functions of the
    caller; they act on the state [Client] of the caller, not on the lists. *)
From stdpp Require Import base gmap list.
From Stdlib Require Import ZArith Ascii String List Bool Lia.
From S2P Require Import Prelude DList.
Import ListNotations.
Local Open Scope Z_scope.

Inductive LIST_EVENT_TYPE_T := LIST_EVENT_ENTER | LIST_EVENT_LEAVE | LIST_EVENT_NULL.
Record LIST_EVENT_T := mkEvent { type : LIST_EVENT_TYPE_T; entry : Z }.

Definition LIST_ERR_BADARG : Z := 1.
Definition LIST_ERR_NOOBSVR : Z := 3.
Definition LIST_TRAVERSE_FORWARD : Z := 1.
Definition LIST_TRAVERSE_BACKWARD : Z := 2.

Record LIST_T := mkList { name : cstr; numEnts : Z; allowObservers : bool; observers : Z }.
Record LIST_ITERATOR_T := mkIter { it_list : Z; curEnt : Z }.

Section Lists.
Context {Data Client : Type}.

(** The argument [extra] of the callbacks is part of the closures. *)
Abbreviation callback := (Z -> LIST_EVENT_T -> Client -> Client).
Record LIST_OBSERVER_T := mkObs {
  o_name : cstr; o_list : Z; select : option (LIST_EVENT_T -> Client -> bool);
  enter : option callback; leave_ : option callback }.

Record heap := mkHeap {
  ptrs : gmap Z links; heads : gmap Z LIST_T; obs : gmap Z LIST_OBSERVER_T; data : gmap Z Data;
  brk : Z; listerrno : Z; client : Client }.
Implicit Types (st : heap) (iter : LIST_ITERATOR_T).

Definition set_ptrs st (p : gmap Z links) : heap :=
  mkHeap p (heads st) (obs st) (data st) (brk st) (listerrno st) (client st).
Definition set_heads st (l : gmap Z LIST_T) : heap :=
  mkHeap (ptrs st) l (obs st) (data st) (brk st) (listerrno st) (client st).
Definition set_obs st (o : gmap Z LIST_OBSERVER_T) : heap :=
  mkHeap (ptrs st) (heads st) o (data st) (brk st) (listerrno st) (client st).
Definition set_data st (d : gmap Z Data) : heap :=
  mkHeap (ptrs st) (heads st) (obs st) d (brk st) (listerrno st) (client st).
Definition set_errno st (e : Z) : heap :=
  mkHeap (ptrs st) (heads st) (obs st) (data st) (brk st) e (client st).
Definition set_client st (c : Client) : heap :=
  mkHeap (ptrs st) (heads st) (obs st) (data st) (brk st) (listerrno st) c.

(** [calloc] of an object that begins with the two pointers, and [free]. *)
Definition calloc st : Z * heap :=
  (brk st, mkHeap (<[brk st := mkLinks 0 0]> (ptrs st)) (heads st) (obs st) (data st) (brk st + 1)
             (listerrno st) (client st)).
Definition free (p : Z) st : heap :=
  mkHeap (delete p (ptrs st)) (delete p (heads st)) (delete p (obs st)) (delete p (data st)) (brk st)
    (listerrno st) (client st).

Definition listCreate st (nm : cstr) : Z * heap :=
  let '(list, st) := calloc st in
  (list, set_heads (set_ptrs st (<[list := mkLinks list list]> (ptrs st)))
           (<[list := mkList nm 0 false 0]> (heads st))).

Definition LIST_IS_EMPTY st (list : Z) : option bool := f ← get_fw (ptrs st) list; Some (Z.eqb f list).

Definition listAllowObservers st (list : Z) : option (Z * heap) :=
  l ← heads st !! list;
  if allowObservers l then Some (0, st)
  else
    let st := set_heads st (<[list := mkList (name l) (numEnts l) true (observers l)]> (heads st)) in
    let '(o, st) := listCreate st (cs "Observer list") in
    l ← heads st !! list;
    Some (0, set_heads st (<[list := mkList (name l) (numEnts l) (allowObservers l) o]> (heads st))).

Definition listGetFrontEntry st (list : Z) : option Z :=
  e ← LIST_IS_EMPTY st list; if (e : bool) then Some 0 else get_fw (ptrs st) list.
Definition listGetBackEntry st (list : Z) : option Z :=
  e ← LIST_IS_EMPTY st list; if (e : bool) then Some 0 else get_bw (ptrs st) list.

(** ** Iterators *)

Definition listIteratorAttach st (list : Z) : option LIST_ITERATOR_T :=
  f ← get_fw (ptrs st) list; Some (mkIter list f).
Definition listIteratorGetCurEntry iter : Z := if Z.eqb (curEnt iter) (it_list iter) then 0 else curEnt iter.
Definition listIteratorIsEndOfList iter : bool := Z.eqb (curEnt iter) (it_list iter).
Definition listIteratorNext st iter : option (LIST_ITERATOR_T * Z) :=
  f ← get_fw (ptrs st) (curEnt iter);
  let iter := mkIter (it_list iter) f in Some (iter, listIteratorGetCurEntry iter).
Definition listIteratorPrev st iter : option (LIST_ITERATOR_T * Z) :=
  b ← get_bw (ptrs st) (curEnt iter);
  let iter := mkIter (it_list iter) b in Some (iter, listIteratorGetCurEntry iter).

(** The loop [for (ent = listIteratorGetCurEntry(&iter); ent != NULL; next)].  The
    body returns [inr] to leave it. *)
Section Loop.
Context {A R : Type} (fwd : bool) (body : Z -> A -> option (A + R)%type).

Fixpoint for_entries (fuel : nat) st iter (ent : Z) (acc : A) : option (A + R)%type :=
  match fuel with
  | O => None
  | S f =>
      if Z.eqb ent 0 then Some (inl acc)
      else
        r ← body ent acc;
        match r with
        | inr x => Some (inr x)
        | inl acc =>
            '(iter, ent) ← (if fwd then listIteratorNext st iter else listIteratorPrev st iter);
            for_entries f st iter ent acc
        end
  end.
End Loop.

(** A loop without [break] or [return]. *)
Definition finished {A} (r : (A + Empty_set)%type) : A := match r with inl a => a | inr e => match e with end end.

(** A loop visits every element of the heap at most once. *)
Definition loop_fuel st : nat := S (S (size (ptrs st))).

Definition listSearchEntry st (list : Z) (equal : Z -> bool) : option Z :=
  iter ← listIteratorAttach st list;
  r ← for_entries true (fun ent (_ : unit) => Some (if equal ent then inr ent else inl tt))
        (loop_fuel st) st iter (listIteratorGetCurEntry iter) tt;
  Some (match r with inl _ => 0 | inr ent => ent end).

(** [listIteratorSetCurEntry]: [-1] leaves the iterator as it was. *)
Definition listIteratorSetCurEntry st iter (ent : Z) (validateEnt : bool) : option (Z * LIST_ITERATOR_T * heap) :=
  if validateEnt then
    front ← listGetFrontEntry st (it_list iter);
    let it := mkIter (it_list iter) front in
    r ← for_entries true (fun e (_ : unit) => Some (if Z.eqb e ent then inr tt else inl tt))
          (loop_fuel st) st it (listIteratorGetCurEntry it) tt;
    match r with
    | inl _ => Some (-1, iter, set_errno st LIST_ERR_BADARG)
    | inr _ => Some (0, mkIter (it_list iter) ent, st)
    end
  else Some (0, mkIter (it_list iter) ent, st).

(** ** Observers *)

(** The loop of [listNotifyObservers] over the observers of [list].  Its condition
    is the end of the list, not a NULL entry. *)
Definition notify (list : Z) (o : LIST_OBSERVER_T) (ev : LIST_EVENT_T) (c : Client) : Client :=
  if match select o with Some s => s ev c | None => true end then
    match type ev with
    | LIST_EVENT_ENTER => match enter o with Some f => f list ev c | None => c end
    | LIST_EVENT_LEAVE => match leave_ o with Some f => f list ev c | None => c end
    | LIST_EVENT_NULL => c
    end
  else c.

Fixpoint notify_loop (fuel : nat) st (list : Z) iter (ev : LIST_EVENT_T) : option (Z * heap) :=
  match fuel with
  | O => None
  | S f =>
      if listIteratorIsEndOfList iter then Some (0, st)
      else
        o ← obs st !! listIteratorGetCurEntry iter;
        let bad := match type ev with
                   | LIST_EVENT_NULL => match select o with Some s => s ev (client st) | None => true end
                   | _ => false end in
        if (bad : bool) then Some (-1, set_errno st LIST_ERR_BADARG)
        else
          let st := set_client st (notify list o ev (client st)) in
          '(iter, _) ← listIteratorNext st iter;
          notify_loop f st list iter ev
  end.

Definition listNotifyObservers st (list : Z) (ev : LIST_EVENT_T) : option (Z * heap) :=
  l ← heads st !! list;
  iter ← listIteratorAttach st (observers l);
  notify_loop (loop_fuel st) st list iter ev.

(** The part that insertion and removal share: the observers, then the counter. *)
Definition tell st (list : Z) (ev : LIST_EVENT_T) (d : Z) : option heap :=
  l ← heads st !! list;
  st ← (if allowObservers l then
          e ← LIST_IS_EMPTY st (observers l);
          if (e : bool) then Some st else '(_, st) ← listNotifyObservers st list ev; Some st
        else Some st);
  l ← heads st !! list;
  Some (set_heads st (<[list := mkList (name l) (wrap32 (numEnts l + d)) (allowObservers l) (observers l)]> (heads st))).

(** ** Changing a list *)

Definition link_before (h : gmap Z links) (succ entry : Z) : option (gmap Z links) :=
  h ← set_fw h entry succ;
  b ← get_bw h succ;
  h ← set_bw h entry b;
  b ← get_bw h succ;
  h ← set_fw h b entry;
  set_bw h succ entry.

Definition unlink (h : gmap Z links) (entry : Z) : option (gmap Z links) :=
  b ← get_bw h entry;
  f ← get_fw h entry;
  h ← set_fw h b f;
  f ← get_fw h entry;
  b ← get_bw h entry;
  set_bw h f b.

Definition listInsertEntryBefore st (list succ entry : Z) : option heap :=
  h ← link_before (ptrs st) succ entry;
  tell (set_ptrs st h) list (mkEvent LIST_EVENT_ENTER entry) 1.
Definition listInsertEntryAfter st (list pred entry : Z) : option heap :=
  f ← get_fw (ptrs st) pred; listInsertEntryBefore st list f entry.
Definition listInsertEntryAtFront st (list entry : Z) : option heap :=
  f ← get_fw (ptrs st) list; listInsertEntryBefore st list f entry.
Definition listInsertEntryAtBack st (list entry : Z) : option heap :=
  listInsertEntryBefore st list list entry.

Definition listRemoveEntry st (list entry : Z) : option heap :=
  b ← get_bw (ptrs st) entry;
  f ← get_fw (ptrs st) entry;
  if Z.eqb b 0 || Z.eqb f 0 then Some st
  else
    h ← unlink (ptrs st) entry;
    tell (set_ptrs st h) list (mkEvent LIST_EVENT_LEAVE entry) (-1).

(** The interface without a header: [inList], [offList], [mkListHeader]. *)
Definition inList (h : gmap Z links) (pred entry : Z) : option (gmap Z links) := link_before h pred entry.
Definition offList (h : gmap Z links) (entry : Z) : option (gmap Z links) := unlink h entry.
Definition mkListHeader st : Z * heap :=
  let '(q, st) := calloc st in (q, set_ptrs st (<[q := mkLinks q q]> (ptrs st))).

(** ** Observers of a list *)

(** The variable arguments are pairs of an event and a callback, up to
    [LIST_EVENT_NULL]. *)
Fixpoint observer_args (args : list (LIST_EVENT_TYPE_T * callback)) (o : LIST_OBSERVER_T) : LIST_OBSERVER_T :=
  match args with
  | [] => o
  | (LIST_EVENT_NULL, _) :: _ => o
  | (LIST_EVENT_ENTER, f) :: args' => observer_args args' (mkObs (o_name o) (o_list o) (select o) (Some f) (leave_ o))
  | (LIST_EVENT_LEAVE, f) :: args' => observer_args args' (mkObs (o_name o) (o_list o) (select o) (enter o) (Some f))
  end.

Definition listObserverCreate st (nm : cstr) (sel : option (LIST_EVENT_T -> Client -> bool))
    (args : list (LIST_EVENT_TYPE_T * callback)) : Z * heap :=
  let '(o, st) := calloc st in
  (o, set_obs st (<[o := observer_args args (mkObs nm 0 sel None None)]> (obs st))).

Definition set_olist (l : Z) (o : LIST_OBSERVER_T) : LIST_OBSERVER_T :=
  mkObs (o_name o) l (select o) (enter o) (leave_ o).

Definition listObserverAttach st (observer list : Z) : option (Z * heap) :=
  l ← heads st !! list;
  if negb (allowObservers l) then Some (-1, set_errno st LIST_ERR_NOOBSVR)
  else
    st ← listInsertEntryBefore st (observers l) (observers l) observer;
    o ← obs st !! observer;
    Some (0, set_obs st (<[observer := set_olist list o]> (obs st))).

Definition listObserverDetach st (observer : Z) : option heap :=
  o ← obs st !! observer;
  st ← (if Z.eqb (o_list o) 0 then Some st else listRemoveEntry st (o_list o) observer);
  o ← obs st !! observer;
  Some (set_obs st (<[observer := set_olist 0 o]> (obs st))).

(** ** Whole lists *)

(** Iterators are attached to the front and moved to the back for a traversal
    backwards; [list2Vector], [listDisplay] and [listCat] begin alike. *)
Definition traverse_start st (list direction : Z) : option (LIST_ITERATOR_T * bool) :=
  let direction := if Z.eqb direction 0 then LIST_TRAVERSE_FORWARD else direction in
  iter ← listIteratorAttach st list;
  iter ← (if has direction LIST_TRAVERSE_BACKWARD
          then b ← listGetBackEntry st list; Some (mkIter (it_list iter) b) else Some iter);
  Some (iter, has direction LIST_TRAVERSE_FORWARD).

(** The vector with the entries in the order of the traversal. *)
Definition list2Vector st (list direction : Z) : option (Datatypes.list Z) :=
  '(iter, fwd) ← traverse_start st list direction;
  r ← for_entries fwd (fun ent v => Some (inl (v ++ [ent])))
        (loop_fuel st) st iter (listIteratorGetCurEntry iter) [];
  Some (finished r).

Definition listDisplay st (list direction : Z) (displayFunc : Z -> Client -> Client) : option heap :=
  '(iter, fwd) ← traverse_start st list direction;
  r ← for_entries fwd (fun ent c => Some (inl (displayFunc ent c)))
        (loop_fuel st) st iter (listIteratorGetCurEntry iter) (client st);
  Some (set_client st (finished r)).

(** [listCat] stops before the text that does not fit; the comparison is one of
    unsigned numbers. *)
Definition listCat st (list direction bufferSize : Z) (catFunc : Z -> option cstr) : option cstr :=
  '(iter, fwd) ← traverse_start st list direction;
  r ← for_entries fwd
        (fun ent buffer =>
           match catFunc ent with
           | None => Some (inl buffer)
           | Some str =>
               Some (if Z.ltb ((bufferSize - 1) mod 2 ^ 64) (Z.of_nat (length buffer) + Z.of_nat (length str))
                     then inr buffer else inl (buffer ++ str))
           end)
        (loop_fuel st) st iter (listIteratorGetCurEntry iter) [];
  Some (match r with inl b | inr b => b end).

(** [listDup]: the loop reads the old list and changes the heap, so the iterator
    steps through the new heap. *)
Fixpoint dup_loop (fuel : nat) st (newList : Z) iter (ent : Z) : option heap :=
  match fuel with
  | O => None
  | S f =>
      if Z.eqb ent 0 then Some st
      else
        let '(new, st) := calloc st in
        l ← ptrs st !! ent;
        let st := set_ptrs st (<[new := l]> (ptrs st)) in
        let st := match data st !! ent with Some d => set_data st (<[new := d]> (data st)) | None => st end in
        st ← listInsertEntryAtBack st newList new;
        '(iter, ent) ← listIteratorNext st iter;
        dup_loop f st newList iter ent
  end.

Definition listDup st (list : Z) : option (Z * heap) :=
  l ← heads st !! list;
  let '(newList, st) := listCreate st (name l) in
  iter ← listIteratorAttach st list;
  st ← dup_loop (loop_fuel st) st newList iter (listIteratorGetCurEntry iter);
  Some (newList, st).

(** [listDestroy]: [destroy] stands for the destructor of the caller, which frees
    the entry, or for [free].  The list of observers is destroyed the same way;
    it was made by [listCreate] and has no observers of its own. *)
Fixpoint destroy_loop (fuel : nat) st (list : Z) (destroy : Z -> Client -> Client) : option heap :=
  match fuel with
  | O => None
  | S f =>
      e ← LIST_IS_EMPTY st list;
      if (e : bool) then Some st
      else
        ent ← get_fw (ptrs st) list;
        st ← listRemoveEntry st list ent;
        destroy_loop f (free ent (set_client st (destroy ent (client st)))) list destroy
  end.

Fixpoint destroy_depth (depth : nat) st (list : Z) (destroy : Z -> Client -> Client) : option heap :=
  match depth with
  | O => None
  | S d =>
      st ← destroy_loop (loop_fuel st) st list destroy;
      l ← heads st !! list;
      st ← (if allowObservers l then destroy_depth d st (observers l) (fun _ c => c) else Some st);
      Some (free list st)
  end.

Definition listDestroy st (list : Z) (destroy : Z -> Client -> Client) : option heap :=
  destroy_depth (loop_fuel st) st list destroy.
End Lists.
