(* ===== verification/ListTheorems.v ===== *)
(** * Properties of doubly linked lists (lsf/intlib/list.c)

    The lists of the heap against sequences: [repr st A] relates a heap to the
    map [A] from the headers of all lists to their entries. *)
From stdpp Require Import base gmap list.
From Stdlib Require Import ZArith Lia.
From S2P Require Import Prelude DList ListLib.
Local Open Scope Z_scope.

(** ** The pointers *)

Lemma link_before_inserted h s e b : is_Some (h !! e) -> is_Some (h !! b) -> get_bw h s = Some b -> e <> s ->
  exists h', link_before h s e = Some h' /\ inserted h s e h'.
Proof.
  intros He Hb Hs N. unfold link_before. field_step; [done|].
  rewrite B, Hs. cbn. field_step; [destruct (some_bw _ _ He) as [v Hv]; eapply bw_some; by rewrite B|].
  rewrite B0, decide_False by done. rewrite B, Hs. cbn. field_step.
  { destruct (some_fw _ _ Hb) as [v Hv]. destruct (decide (b = e)) as [->|].
    - eapply fw_some. by rewrite F0, F, decide_True.
    - eapply fw_some. by rewrite F0, F, decide_False. }
  field_step; [eapply bw_some; by rewrite B1, B0, decide_False, B|].
  eexists. split; [done|]. exists b. split; [done|]. split; intros y.
  - by rewrite F2, F1, F0, F.
  - by rewrite B2, B1, B0, B.
Qed.

Lemma unlink_removed h x f b : get_fw h x = Some f -> get_bw h x = Some b -> is_Some (h !! f) -> is_Some (h !! b) ->
  exists h', unlink h x = Some h' /\ removed h x h'.
Proof.
  intros Hf Hb If Ib. unfold unlink. rewrite Hb, Hf. cbn. field_step; [done|].
  assert (E1 : get_fw h0 x = Some f) by (rewrite F; by case_decide).
  rewrite E1, B, Hb. cbn. field_step; [destruct (some_bw _ _ If) as [v Hv]; eapply bw_some; by rewrite B|].
  eexists. split; [done|]. exists f, b. repeat split; auto; intros y.
  - by rewrite F0, F.
  - by rewrite B0, B.
Qed.

Lemma dlist_link_before h p l1 l2 e : dlist h p (l1 ++ l2) -> is_Some (h !! e) -> e ∉ p :: l1 ++ l2 ->
  exists h', link_before h (hd p l2) e = Some h' /\ inserted h (hd p l2) e h'.
Proof.
  intros D He Hn. apply (link_before_inserted _ _ _ (lastd p l1)); [done| |by apply dlist_pred|].
  - eapply dlist_in; [done|]. pose proof (lastd_in p l1). set_solver.
  - intros ->. apply Hn. destruct l2; cbn; set_solver.
Qed.

Lemma dlist_unlink h p l1 x l2 : dlist h p (l1 ++ x :: l2) ->
  exists h', unlink h x = Some h' /\ removed h x h'.
Proof.
  intros D. pose proof (dlist_pred _ _ _ _ D) as Hb. cbn in Hb. pose proof D as [_ C].
  apply chain_app in C as [_ C]. apply chain_head in C.
  apply (unlink_removed _ _ (hd p l2) (lastd p l1)); auto; eapply dlist_in; eauto.
  - destruct l2; cbn; set_solver.
  - pose proof (lastd_in p l1). set_solver.
Qed.

Section ListFacts.
Context {Data Client : Type}.
Implicit Types (st : @heap Data Client) (os : list (@LIST_OBSERVER_T Client)) (L : Z) (xs : list Z).

(** ** Traversal *)

Lemma next_entry st p l1 x l2 : dlist (ptrs st) p (l1 ++ x :: l2) ->
  listIteratorNext st (mkIter p x) = Some (mkIter p (hd p l2), if Z.eqb (hd p l2) p then 0 else hd p l2).
Proof.
  intros [_ C]. apply chain_app in C as [_ C]. apply chain_head in C. unfold listIteratorNext. cbn. by rewrite C.
Qed.

Lemma prev_entry st p l1 x l2 : dlist (ptrs st) p (l1 ++ x :: l2) ->
  listIteratorPrev st (mkIter p x) = Some (mkIter p (lastd p l1), if Z.eqb (lastd p l1) p then 0 else lastd p l1).
Proof. intros D. apply dlist_pred in D. cbn in D. unfold listIteratorPrev. cbn. by rewrite D. Qed.

(** The order in which a traversal meets the entries. *)
Definition visits (fwd : bool) xs : list Z := if fwd then xs else rev xs.

(** A loop body, run over a sequence. *)
Fixpoint run_body {A R} (body : Z -> A -> option (A + R)) (xs : list Z) (acc : A) : option (A + R) :=
  match xs with
  | [] => Some (inl acc)
  | x :: xs' => r ← body x acc; match r with inl acc => run_body body xs' acc | inr r => Some (inr r) end
  end.

Definition entry_or_null p (x : Z) : Z := if Z.eqb x p then 0 else x.

Lemma for_entries_forward {A R} (body : Z -> A -> option (A + R)) fuel st p l1 l2 acc :
  dlist (ptrs st) p (l1 ++ l2) -> 0 ∉ p :: l1 ++ l2 -> (length l2 < fuel)%nat ->
  for_entries true body fuel st (mkIter p (hd p l2)) (entry_or_null p (hd p l2)) acc = run_body body l2 acc.
Proof.
  revert fuel l1 acc; induction l2 as [|x l2 IH]; intros [|fuel] l1 acc D Z0 Hf; cbn in Hf; try lia; cbn [hd].
  - unfold entry_or_null. rewrite Z.eqb_refl. done.
  - assert (entry_or_null p x = x /\ x <> 0) as [-> Hx].
    { unfold entry_or_null. destruct (Z.eqb_spec x p) as [->|]; [|set_solver].
      destruct D as [N _]. rewrite NoDup_cons in N. set_solver. }
    cbn [for_entries run_body]. destruct (Z.eqb_spec x 0); [done|].
    destruct (body x acc) as [[acc'|r]|]; cbn; auto. rewrite (next_entry st p l1 x l2 D). cbn.
    change (if Z.eqb (hd p l2) p then 0 else hd p l2) with (entry_or_null p (hd p l2)).
    apply (IH fuel (l1 ++ [x])); rewrite <- ?app_assoc; cbn; auto. lia.
Qed.

Lemma for_entries_backward {A R} (body : Z -> A -> option (A + R)) fuel st p l1 l2 acc :
  dlist (ptrs st) p (rev l1 ++ l2) -> 0 ∉ p :: rev l1 ++ l2 -> (length l1 < fuel)%nat ->
  for_entries false body fuel st (mkIter p (hd p l1)) (entry_or_null p (hd p l1)) acc = run_body body l1 acc.
Proof.
  revert fuel l2 acc; induction l1 as [|x l1 IH]; intros [|fuel] l2 acc D Z0 Hf; cbn in Hf; try lia; cbn [hd].
  - unfold entry_or_null. rewrite Z.eqb_refl. done.
  - cbn [rev] in D, Z0. rewrite <- app_assoc in D, Z0. cbn [app] in D, Z0.
    assert (entry_or_null p x = x /\ x <> 0) as [-> Hx].
    { unfold entry_or_null. destruct (Z.eqb_spec x p) as [->|]; [|set_solver].
      destruct D as [N _]. rewrite NoDup_cons in N. set_solver. }
    cbn [for_entries run_body]. destruct (Z.eqb_spec x 0); [done|].
    destruct (body x acc) as [[acc'|r]|]; cbn; auto. rewrite (prev_entry st p _ x l2 D). cbn.
    assert (H : lastd p (rev l1) = hd p l1).
    { destruct l1 as [|y l1]; cbn; [done|]. apply lastd_snoc. }
    rewrite H. change (if Z.eqb (hd p l1) p then 0 else hd p l1) with (entry_or_null p (hd p l1)).
    apply (IH fuel (x :: l2)); auto. lia.
Qed.

(** ** Observers *)

Definition notify_all L (ev : LIST_EVENT_T) os (c : Client) : Client :=
  fold_left (fun c o => notify L o ev c) os c.

Lemma notify_loop_spec fuel st L p l1 l2 os ev : dlist (ptrs st) p (l1 ++ l2) ->
  Forall2 (fun e o => obs st !! e = Some o) l2 os -> type ev <> LIST_EVENT_NULL -> (length l2 < fuel)%nat ->
  notify_loop fuel st L (mkIter p (hd p l2)) ev = Some (0, set_client st (notify_all L ev os (client st))).
Proof.
  intros D F T. revert fuel l1 st D F; induction l2 as [|x l2 IH] in os |- *; intros [|fuel] l1 st D F Hf; cbn in Hf; try lia.
  - apply Forall2_nil_inv_l in F as ->. cbn. unfold listIteratorIsEndOfList. cbn. rewrite Z.eqb_refl. by destruct st.
  - apply Forall2_cons_inv_l in F as (o & os' & Ho & F & ->). cbn [notify_loop hd].
    unfold listIteratorIsEndOfList, listIteratorGetCurEntry. cbn [curEnt it_list].
    assert (N : Z.eqb x p = false).
    { apply Z.eqb_neq. intros ->. destruct D as [N _]. rewrite NoDup_cons in N. set_solver. }
    rewrite N, Ho. cbn [mbind option_bind].
    replace (match type ev with LIST_EVENT_NULL => _ | _ => false end) with false by (by destruct (type ev)).
    rewrite (next_entry _ p l1 x l2) by done. cbn [mbind option_bind].
    rewrite (IH os' fuel (l1 ++ [x])); [done|by rewrite <- app_assoc|done|lia].
Qed.

(** The list that holds the observers of a list. *)
Definition watch st L : option Z := l ← heads st !! L; if allowObservers l then Some (observers l) else None.

Lemma tell_spec st L l ev d os : heads st !! L = Some l -> type ev <> LIST_EVENT_NULL ->
  match watch st L with
  | None => os = []
  | Some w => exists ys, dlist (ptrs st) w ys /\ Forall2 (fun e o => obs st !! e = Some o) ys os
  end ->
  tell st L ev d = Some (set_client (set_heads st (<[L := mkList (name l) (wrap32 (numEnts l + d)) (allowObservers l) (observers l)]> (heads st)))
                           (notify_all L ev os (client st))).
Proof.
  intros H T W. unfold tell. unfold watch in W. rewrite H in *. cbn in W |- *.
  destruct (allowObservers l) eqn:A; [|subst os; cbn; rewrite H; cbn; rewrite A; by destruct st].
  destruct W as (ys & D & F). unfold LIST_IS_EMPTY. rewrite (dlist_head _ _ _ D). cbn.
  destruct (Z.eqb_spec (hd (observers l) ys) (observers l)) as [E|E]; cbn.
  - assert (ys = []) as ->.
    { destruct ys as [|y ys]; [done|]. cbn in E. subst y. destruct D as [N _]. rewrite NoDup_cons in N. set_solver. }
    apply Forall2_nil_inv_l in F as ->. cbn. rewrite H. cbn. rewrite A. by destruct st.
  - unfold listNotifyObservers. rewrite H. cbn [mbind option_bind]. unfold listIteratorAttach. rewrite (dlist_head _ _ _ D). cbn [mbind option_bind].
    rewrite (notify_loop_spec _ _ _ _ [] ys os); auto; [|unfold loop_fuel; pose proof (dlist_size _ _ _ D); lia].
    cbn. rewrite H. cbn. by rewrite A.
Qed.

(** ** All lists of a heap *)

Lemma wrap32_add_l a b : wrap32 (wrap32 a + b) = wrap32 (a + b).
Proof.
  unfold wrap32. f_equal. replace ((a + 2 ^ 31) mod 2 ^ 32 - 2 ^ 31 + b + 2 ^ 31) with ((a + 2 ^ 31) mod 2 ^ 32 + b) by lia.
  rewrite Zplus_mod_idemp_l. f_equal. lia.
Qed.

(** Observers and their lists do not change while entries come and go: they are
    those of the heap [st0]. *)
Section Refinement.
Context (st0 : @heap Data Client).

Record repr st (A : gmap Z (list Z)) : Prop := mkRepr {
  r_obs : obs st = obs st0;
  r_alloc : forall e, is_Some (ptrs st0 !! e) -> is_Some (ptrs st !! e);
  r_lists : lists (ptrs st) A;
  r_null : outside A 0;
  r_head : forall L xs, A !! L = Some xs -> watch st L = watch st0 L
    /\ exists l, heads st !! L = Some l /\ numEnts l = wrap32 (Z.of_nat (length xs));
  r_watch : forall L xs w, A !! L = Some xs -> watch st0 L = Some w -> w <> L
    /\ exists ys, A !! w = Some ys /\ Forall (fun e => is_Some (obs st0 !! e)) ys }.

Lemma r_list st A L xs : repr st A -> A !! L = Some xs -> dlist (ptrs st) L xs /\ 0 ∉ L :: xs.
Proof. intros R H. split; [by apply (proj1 (r_lists _ _ R))|by apply (r_null _ _ R)]. Qed.

(** The observers of a list, in the order in which they were attached. *)
Definition watchers (A : gmap Z (list Z)) L : list (@LIST_OBSERVER_T Client) :=
  match watch st0 L with
  | None => []
  | Some w => omap (fun e => obs st0 !! e) (default [] (A !! w))
  end.

Lemma watchers_forall (ys : list Z) : Forall (fun e => is_Some (obs st0 !! e)) ys ->
  Forall2 (fun e o => obs st0 !! e = Some o) ys (omap (fun e => obs st0 !! e) ys).
Proof. induction 1 as [|e ys [o Ho] _ IH]; cbn; [constructor|]. rewrite Ho. by constructor. Qed.

(** One change of a list [L] from [xs] to [ys]. *)
Lemma repr_change st A L xs ys h ev d : repr st A -> A !! L = Some xs -> type ev <> LIST_EVENT_NULL ->
  lists h (<[L := ys]> A) -> 0 ∉ ys -> Z.of_nat (length ys) = Z.of_nat (length xs) + d ->
  (forall e, is_Some (ptrs st !! e) -> is_Some (h !! e)) ->
  (forall L' w, is_Some (A !! L') -> watch st0 L' = Some w -> w = L -> Forall (fun e => is_Some (obs st0 !! e)) ys) ->
  exists st', tell (set_ptrs st h) L ev d = Some st' /\ repr st' (<[L := ys]> A)
    /\ client st' = notify_all L ev (watchers A L) (client st).
Proof.
  intros R HL T K Z0 Len Al Ob. destruct (r_head _ _ R _ _ HL) as (Hw & l & Hl & Hn).
  eexists. split; [apply (tell_spec _ _ l ev d (watchers A L)); auto|].
  { change (watch (set_ptrs st h) L) with (watch st L). rewrite Hw. unfold watchers.
    destruct (watch st0 L) as [w|] eqn:W; [|done]. destruct (r_watch _ _ R _ _ _ HL W) as (N & zs & Hz & F).
    rewrite Hz. cbn. exists zs. split; [apply (proj1 K); by rewrite lookup_insert_ne|].
    rewrite (r_obs _ _ R). by apply watchers_forall. }
  split; [|done]. constructor; cbn.
  - apply R.
  - intros e He. by apply Al, R.
  - done.
  - apply outside_insert; [apply R|]. pose proof (r_null _ _ R _ _ HL). set_solver.
  - intros L' zs. destruct (decide (L = L')) as [<-|N]; rewrite ?lookup_insert_eq, ?lookup_insert_ne by done.
    + intros [= <-]. split; [|eexists; split; [done|]; cbn; rewrite Hn, wrap32_add_l; by f_equal].
      rewrite <- Hw. unfold watch. cbn. by rewrite lookup_insert_eq, Hl.
    + intros H. destruct (r_head _ _ R _ _ H) as (E & l' & Hl' & Hn'). split; [|by exists l'].
      rewrite <- E. unfold watch. cbn. by rewrite lookup_insert_ne.
  - intros L' zs w H W. assert (HA : is_Some (A !! L')).
    { destruct (decide (L = L')) as [<-|N]; [by eexists|]. rewrite lookup_insert_ne in H by done. by eexists. }
    destruct HA as [zs' HA]. destruct (r_watch _ _ R _ _ _ HA W) as (N & vs & Hv & F). split; [done|].
    destruct (decide (L = w)) as [<-|]; [|rewrite lookup_insert_ne by done; eauto].
    rewrite lookup_insert_eq. eexists. split; [done|]. apply (Ob L' L); [by eexists|done|done].
Qed.

(** ** Sequences of operations *)

Inductive op :=
| InsertBefore (L succ e : Z) | InsertAfter (L pred e : Z) | InsertAtFront (L e : Z) | InsertAtBack (L e : Z)
| RemoveEntry (L e : Z).

Definition exec (o : op) st : option heap :=
  match o with
  | InsertBefore L s e => listInsertEntryBefore st L s e
  | InsertAfter L p e => listInsertEntryAfter st L p e
  | InsertAtFront L e => listInsertEntryAtFront st L e
  | InsertAtBack L e => listInsertEntryAtBack st L e
  | RemoveEntry L e => listRemoveEntry st L e
  end.

(** What the operations mean for sequences.  The header stands for the end of the
    list as a successor and for its beginning as a predecessor. *)
Fixpoint put_before (s e : Z) xs : list Z :=
  match xs with [] => [e] | x :: xs' => if Z.eqb x s then e :: xs else x :: put_before s e xs' end.
Fixpoint put_after (p e : Z) xs : list Z :=
  match xs with [] => [] | x :: xs' => if Z.eqb x p then x :: e :: xs' else x :: put_after p e xs' end.
Fixpoint take_out (e : Z) xs : list Z :=
  match xs with [] => [] | x :: xs' => if Z.eqb x e then xs' else x :: take_out e xs' end.

Definition list_of (A : gmap Z (list Z)) L : list Z := default [] (A !! L).

Definition target (o : op) : Z :=
  match o with InsertBefore L _ _ | InsertAfter L _ _ | InsertAtFront L _ | InsertAtBack L _ | RemoveEntry L _ => L end.

Definition event_of (o : op) : LIST_EVENT_T :=
  match o with
  | InsertBefore _ _ e | InsertAfter _ _ e | InsertAtFront _ e | InsertAtBack _ e => mkEvent LIST_EVENT_ENTER e
  | RemoveEntry _ e => mkEvent LIST_EVENT_LEAVE e
  end.

Definition effect (o : op) xs : list Z :=
  match o with
  | InsertBefore _ s e => put_before s e xs
  | InsertAfter L p e => if Z.eqb p L then e :: xs else put_after p e xs
  | InsertAtFront _ e => e :: xs
  | InsertAtBack _ e => xs ++ [e]
  | RemoveEntry _ e => take_out e xs
  end.

Definition abs (o : op) (A : gmap Z (list Z)) : gmap Z (list Z) := <[target o := effect o (list_of A (target o))]> A.

(** A new entry is allocated and in no list; observers only enter lists of
    observers. *)
Definition fresh (A : gmap Z (list Z)) L (e : Z) : Prop :=
  e <> 0 /\ is_Some (ptrs st0 !! e) /\ outside A e
  /\ (forall L' , is_Some (A !! L') -> watch st0 L' = Some L -> is_Some (obs st0 !! e)).

Definition legal (A : gmap Z (list Z)) (o : op) : Prop :=
  is_Some (A !! target o) /\
  match o with
  | InsertBefore L s e => s ∈ L :: list_of A L /\ fresh A L e
  | InsertAfter L p e => p ∈ L :: list_of A L /\ fresh A L e
  | InsertAtFront L e | InsertAtBack L e => fresh A L e
  | RemoveEntry L e => e ∈ list_of A L
  end.

Fixpoint legal_ops (A : gmap Z (list Z)) (os : list op) : Prop :=
  match os with [] => True | o :: os' => legal A o /\ legal_ops (abs o A) os' end.

Definition exec_all (os : list op) st : option heap := foldl (fun s o => st ← s; exec o st) (Some st) os.

(** The calls of the observers. *)
Fixpoint events (A : gmap Z (list Z)) (os : list op) (c : Client) : Client :=
  match os with
  | [] => c
  | o :: os' => events (abs o A) os' (notify_all (target o) (event_of o) (watchers A (target o)) c)
  end.

Definition abs_all (os : list op) (A : gmap Z (list Z)) : gmap Z (list Z) := foldl (fun A o => abs o A) A os.

Lemma insert_at st A L l1 l2 e : repr st A -> A !! L = Some (l1 ++ l2) -> fresh A L e ->
  exists st', listInsertEntryBefore st L (hd L l2) e = Some st' /\ repr st' (<[L := l1 ++ e :: l2]> A)
    /\ client st' = notify_all L (mkEvent LIST_EVENT_ENTER e) (watchers A L) (client st).
Proof.
  intros R HL (E0 & Ee & Ef & Eo). destruct (r_list _ _ _ _ R HL) as [D Z0].
  pose proof (Ef _ _ HL) as Hn. apply (r_alloc _ _ R) in Ee.
  destruct (dlist_link_before _ _ _ _ _ D Ee Hn) as (h & Eh & I).
  unfold listInsertEntryBefore. rewrite Eh. cbn [mbind option_bind].
  apply (repr_change _ _ _ (l1 ++ l2)); auto.
  - eapply lists_insert; eauto. apply R.
  - clear - Z0 E0. set_solver.
  - rewrite !length_app. cbn. lia.
  - intros y Hy. eapply inserted_dom; eauto. eapply dlist_in; [done|]. destruct l2; cbn; clear; set_solver.
  - intros L' w H W ->. destruct H as [zs H]. destruct (r_watch _ _ R _ _ _ H W) as (_ & ys & Hy & F).
    rewrite HL in Hy. injection Hy as <-. apply Forall_app in F as [F1 F2]. apply Forall_app. split; [done|].
    constructor; [|done]. apply (Eo L'); [by eexists|done].
Qed.

Lemma remove_at st A L l1 e l2 : repr st A -> A !! L = Some (l1 ++ e :: l2) ->
  exists st', listRemoveEntry st L e = Some st' /\ repr st' (<[L := l1 ++ l2]> A)
    /\ client st' = notify_all L (mkEvent LIST_EVENT_LEAVE e) (watchers A L) (client st).
Proof.
  intros R HL. destruct (r_list _ _ _ _ R HL) as [D Z0].
  destruct (dlist_unlink _ _ _ _ _ D) as (h & Eh & I). pose proof I as (f & b & Hf & Hb & _).
  unfold listRemoveEntry. rewrite Hb, Hf. cbn [mbind option_bind].
  assert (b <> 0 /\ f <> 0) as [B0 F0].
  { pose proof (dlist_pred _ _ _ _ D) as P. cbn in P. rewrite Hb in P. injection P as ->.
    destruct D as [_ C]. apply chain_app in C as [_ C]. apply chain_head in C. rewrite Hf in C. injection C as ->.
    pose proof (lastd_in L l1). split; intros E; apply Z0; rewrite <- E; [|destruct l2; cbn]; clear - H; set_solver. }
  destruct (Z.eqb_spec b 0), (Z.eqb_spec f 0); try done. cbn [orb]. rewrite Eh. cbn [mbind option_bind].
  apply (repr_change _ _ _ (l1 ++ e :: l2)); auto.
  - eapply lists_remove; eauto. apply R.
  - clear - Z0. set_solver.
  - rewrite !length_app. cbn. lia.
  - intros y Hy. by eapply removed_dom.
  - intros L' w H W ->. destruct H as [zs H]. destruct (r_watch _ _ R _ _ _ H W) as (_ & ys & Hy & F).
    rewrite HL in Hy. injection Hy as <-. apply Forall_app in F as [F1 F2]. apply Forall_app. inversion F2. by split.
Qed.

Lemma put_before_split L s e xs : s ∈ L :: xs -> NoDup (L :: xs) ->
  exists l1 l2, xs = l1 ++ l2 /\ hd L l2 = s /\ put_before s e xs = l1 ++ e :: l2.
Proof.
  intros Hs N. induction xs as [|x xs IH].
  - exists [], []. cbn. repeat split. apply elem_of_cons in Hs as [->|Hs]; [done|by apply elem_of_nil in Hs].
  - cbn. destruct (Z.eqb_spec x s) as [->|Hx]; [by exists [], (s :: xs)|].
    destruct IH as (l1 & l2 & -> & H2 & ->); [clear - Hs Hx; set_solver| |by exists (x :: l1), l2].
    rewrite !NoDup_cons in *. clear - N. set_solver.
Qed.

Lemma put_after_split p e xs : p ∈ xs -> exists l1 l2, xs = l1 ++ p :: l2 /\ put_after p e xs = l1 ++ p :: e :: l2.
Proof.
  induction xs as [|x xs IH]; intros Hp; [by apply elem_of_nil in Hp|]. cbn.
  destruct (Z.eqb_spec x p) as [->|Hx]; [by exists [], xs|].
  destruct IH as (l1 & l2 & -> & ->); [clear - Hp Hx; set_solver|]. by exists (x :: l1), l2.
Qed.

Lemma take_out_split e xs : e ∈ xs -> exists l1 l2, xs = l1 ++ e :: l2 /\ take_out e xs = l1 ++ l2.
Proof.
  induction xs as [|x xs IH]; intros Hp; [by apply elem_of_nil in Hp|]. cbn.
  destruct (Z.eqb_spec x e) as [->|Hx]; [by exists [], xs|].
  destruct IH as (l1 & l2 & -> & ->); [clear - Hp Hx; set_solver|]. by exists (x :: l1), l2.
Qed.

Lemma exec_spec st A o : repr st A -> legal A o -> exists st', exec o st = Some st' /\ repr st' (abs o A)
  /\ client st' = notify_all (target o) (event_of o) (watchers A (target o)) (client st).
Proof.
  intros R [[xs HL] Hl]. assert (HX : list_of A (target o) = xs) by (unfold list_of; by rewrite HL).
  unfold abs. destruct (r_list _ _ _ _ R HL) as [D Z0].
  destruct o as [L s e|L p e|L e|L e|L e]; cbn [exec target event_of effect] in *; rewrite HX in *.
  - destruct Hl as [Hs F]. destruct (put_before_split L s e xs Hs (proj1 D)) as (l1 & l2 & -> & <- & ->). by apply insert_at.
  - destruct Hl as [Hp F]. unfold listInsertEntryAfter. destruct (Z.eqb_spec p L) as [->|N].
    + rewrite (dlist_head _ _ _ D). by apply (insert_at _ _ _ []).
    + destruct (put_after_split p e xs) as (l1 & l2 & -> & ->); [clear - Hp N; set_solver|].
      pose proof D as [_ C]. apply chain_app in C as [_ C]. apply chain_head in C. rewrite C. cbn [mbind option_bind].
      replace (l1 ++ p :: l2) with ((l1 ++ [p]) ++ l2) in HL by (by rewrite <- app_assoc).
      replace (l1 ++ p :: e :: l2) with ((l1 ++ [p]) ++ e :: l2) by (by rewrite <- app_assoc). by apply insert_at.
  - unfold listInsertEntryAtFront. rewrite (dlist_head _ _ _ D). by apply (insert_at _ _ _ []).
  - replace xs with (xs ++ []) in HL by apply app_nil_r. by apply (insert_at _ _ _ xs []).
  - destruct (take_out_split e xs Hl) as (l1 & l2 & -> & ->). by apply remove_at.
Qed.

(** C28: Sequences of insertions and removals on any number of lists: when each new
    entry is in no list, and the neighbour of a new entry and each removed entry are
    in the list, the pointers follow the sequences they stand for, no
    list disturbs another, every counter is the length of its list, and the
    observers of a list are called once for each change, in the order in which
    they were attached. *)
Theorem list_ops_refine st A ops : repr st A -> legal_ops A ops ->
  exists st', exec_all ops st = Some st' /\ repr st' (abs_all ops A) /\ client st' = events A ops (client st).
Proof.
  unfold exec_all, abs_all. revert st A; induction ops as [|o ops IH]; intros st A R Hl; cbn; [by exists st|].
  destruct Hl as [Ho Hl]. destruct (exec_spec _ _ _ R Ho) as (st1 & E & R1 & C1). rewrite E.
  destruct (IH _ _ R1 Hl) as (st2 & E2 & R2 & C2). exists st2. by rewrite C2, C1.
Qed.
End Refinement.

(** ** Traversal of a whole list *)

(** A traversal forwards meets the entries of a list in their order, and a
    traversal backwards in the reverse order, each once. *)
Theorem list2Vector_order st L xs direction : dlist (ptrs st) L xs -> 0 ∉ L :: xs ->
  direction = LIST_TRAVERSE_FORWARD \/ direction = LIST_TRAVERSE_BACKWARD ->
  list2Vector st L direction = Some (visits (Z.eqb direction LIST_TRAVERSE_FORWARD) xs).
Proof.
  intros D Z0 Hd. pose proof (dlist_size _ _ _ D) as Sz.
  assert (Run : forall l acc, run_body (R := Empty_set) (fun ent v => Some (inl (v ++ [ent]))) l acc = Some (inl (acc ++ l))).
  { induction l as [|x l IH]; intros acc; cbn; [by rewrite app_nil_r|]. by rewrite IH, <- app_assoc. }
  unfold list2Vector, traverse_start, listIteratorAttach. rewrite (dlist_head _ _ _ D).
  destruct Hd as [-> | ->]; cbn [Z.eqb mbind option_bind].
  - change (has _ LIST_TRAVERSE_BACKWARD) with false. change (has _ LIST_TRAVERSE_FORWARD) with true.
    cbn -[for_entries loop_fuel listIteratorGetCurEntry]. change (listIteratorGetCurEntry (mkIter L (hd L xs))) with (entry_or_null L (hd L xs)).
    rewrite (for_entries_forward _ _ st L [] xs); auto; [|unfold loop_fuel; lia]. by rewrite Run.
  - change (has _ LIST_TRAVERSE_BACKWARD) with true. change (has _ LIST_TRAVERSE_FORWARD) with false.
    unfold listGetBackEntry, LIST_IS_EMPTY. rewrite (dlist_head _ _ _ D). cbn -[for_entries loop_fuel listIteratorGetCurEntry].
    destruct (Z.eqb_spec (hd L xs) L) as [E|E]; cbn -[for_entries loop_fuel listIteratorGetCurEntry].
    + assert (xs = []) as ->.
      { destruct xs as [|x xs]; [done|]. cbn in E. subst x. destruct D as [N _]. rewrite NoDup_cons in N. set_solver. }
      replace (listIteratorGetCurEntry (mkIter L 0)) with 0; [done|].
      unfold listIteratorGetCurEntry. cbn [curEnt it_list]. by destruct (Z.eqb 0 L).
    + rewrite (dlist_last _ _ _ D). cbn -[for_entries loop_fuel listIteratorGetCurEntry].
      assert (H : lastd L xs = hd L (rev xs)).
      { rewrite <- (rev_involutive xs) at 1. destruct (rev xs) as [|y ys]; cbn; [done|]. apply lastd_snoc. }
      rewrite H. change (listIteratorGetCurEntry (mkIter L (hd L (rev xs)))) with (entry_or_null L (hd L (rev xs))).
      rewrite (for_entries_backward _ _ st L (rev xs) []); rewrite ?rev_involutive, ?app_nil_r, ?length_rev; auto;
        [|unfold loop_fuel; lia]. by rewrite Run.
Qed.

(** ** Detaching an observer *)

(** [listObserverDetach] removes the observer in the name of the list it
    observes, not of the list of observers: the observer is unlinked, but the
    counter of the observed list is decremented although none of its entries has
    left, the counter of the list of observers is not, and the other observers
    are told that the observer itself has left the list. *)
Theorem observer_detach_miscounts st0 st A L xs w l1 o l2 ob : repr st0 st A -> A !! L = Some xs ->
  watch st0 L = Some w -> A !! w = Some (l1 ++ o :: l2) -> obs st !! o = Some ob -> o_list ob = L ->
  exists st' l lw, listObserverDetach st o = Some st'
    /\ dlist (ptrs st') L xs /\ dlist (ptrs st') w (l1 ++ l2)
    /\ heads st' !! L = Some l /\ numEnts l = wrap32 (Z.of_nat (length xs) - 1)
    /\ heads st' !! w = Some lw /\ numEnts lw = wrap32 (Z.of_nat (length (l1 ++ o :: l2)))
    /\ client st' = notify_all L (mkEvent LIST_EVENT_LEAVE o) (omap (fun e => obs st !! e) (l1 ++ l2)) (client st).
Proof.
  intros R HL W HW Ho Hl. destruct (r_list _ _ _ _ _ R HL) as [D Z0]. destruct (r_list _ _ _ _ _ R HW) as [Dw Zw].
  destruct (r_watch _ _ _ R _ _ _ HL W) as (N & ys & Hy & F). rewrite HW in Hy. injection Hy as <-.
  destruct (r_head _ _ _ R _ _ HL) as (HwL & l & Ehl & Hn). destruct (r_head _ _ _ R _ _ HW) as (_ & lw & Ehw & Hnw).
  destruct (dlist_unlink _ _ _ _ _ Dw) as (h & Eh & I). pose proof I as (f & b & Hf & Hb & _).
  assert (b <> 0 /\ f <> 0) as [B0 F0].
  { pose proof (dlist_pred _ _ _ _ Dw) as P. cbn in P. rewrite Hb in P. injection P as ->.
    pose proof Dw as [_ C]. apply chain_app in C as [_ C]. apply chain_head in C. rewrite Hf in C. injection C as ->.
    pose proof (lastd_in w l1). split; intros E; apply Zw; rewrite <- E; [|destruct l2; cbn]; clear - H; set_solver. }
  assert (F' : Forall (fun e => is_Some (obs st0 !! e)) (l1 ++ l2)).
  { apply Forall_app in F as [F1 F2]. apply Forall_app. inversion F2. by split. }
  unfold listObserverDetach. rewrite Ho. cbn [mbind option_bind].
  assert (L0 : L <> 0) by (clear - Z0; set_solver).
  rewrite Hl. destruct (Z.eqb_spec L 0); [done|]. unfold listRemoveEntry. rewrite Hb, Hf. cbn [mbind option_bind].
  destruct (Z.eqb_spec b 0), (Z.eqb_spec f 0); try done. cbn [orb]. rewrite Eh. cbn [mbind option_bind].
  rewrite (tell_spec _ _ l _ _ (omap (fun e => obs st !! e) (l1 ++ l2))); [|done|discriminate|].
  - cbn. rewrite Ho. cbn. eexists _, _, lw. split; [done|]. cbn.
    split; [|split; [by eapply dlist_remove|]].
    { eapply dlist_remove_frame; eauto. intros y Hy. by apply (proj2 (r_lists _ _ _ R) w L _ _ HW HL). }
    rewrite lookup_insert_eq, lookup_insert_ne by done. split; [done|]. cbn. rewrite Hn, wrap32_add_l. by repeat split.
  - change (watch (set_ptrs st h) L) with (watch st L). rewrite HwL, W. exists (l1 ++ l2).
    split; [by eapply dlist_remove|]. change (obs (set_ptrs st h)) with (obs st). rewrite (r_obs _ _ _ R).
    by apply watchers_forall.
Qed.
End ListFacts.

(** ** Witnesses *)

Section Sample.
(** Two lists: 1 with the entries 11 and 12, observed by the observer 21 in the
    list 2, and the free entries 13 and 14.  The caller records the events. *)
Definition record_event (L : Z) (ev : LIST_EVENT_T) (c : list (Z * LIST_EVENT_T)) := c ++ [(L, ev)].
Definition sample_obs : LIST_OBSERVER_T := mkObs [] 1 None (Some record_event) (Some record_event).
Definition sample_heap : @heap unit (list (Z * LIST_EVENT_T)) :=
  mkHeap (list_to_map [(1, mkLinks 11 12); (11, mkLinks 12 1); (12, mkLinks 1 11); (2, mkLinks 21 21); (21, mkLinks 2 2);
                       (13, mkLinks 0 0); (14, mkLinks 0 0)])
    (list_to_map [(1, mkList [] 2 true 2); (2, mkList [] 1 false 0)]) (list_to_map [(21, sample_obs)]) ∅ 100 0 [].
Definition sample_lists : gmap Z (list Z) := list_to_map [(1, [11; 12]); (2, [21])].

Lemma sample_lookup L xs : sample_lists !! L = Some xs -> (L = 1 /\ xs = [11; 12]) \/ (L = 2 /\ xs = [21]).
Proof.
  unfold sample_lists. cbn. destruct (decide (1 = L)) as [<-|]; [rewrite lookup_insert_eq; intros [= <-]; by left|].
  rewrite lookup_insert_ne by done. destruct (decide (2 = L)) as [<-|]; [rewrite lookup_insert_eq; intros [= <-]; by right|].
  by rewrite lookup_insert_ne.
Qed.

Lemma sample_repr : repr sample_heap sample_heap sample_lists.
Proof.
  constructor; auto.
  - split.
    + intros L xs [[-> ->]|[-> ->]]%sample_lookup; (split; [|vm_compute; tauto]);
        repeat (apply NoDup_cons; split; [set_solver by lia|]); apply NoDup_nil_2.
    + intros L1 L2 xs1 xs2 [[-> ->]|[-> ->]]%sample_lookup [[-> ->]|[-> ->]]%sample_lookup N y; try done; set_solver by lia.
  - intros L xs [[-> ->]|[-> ->]]%sample_lookup; set_solver by lia.
  - intros L xs [[-> ->]|[-> ->]]%sample_lookup; (split; [done|]); eexists; (split; [reflexivity|reflexivity]).
  - intros L xs w [[-> ->]|[-> ->]]%sample_lookup; vm_compute; intros [= <-]. split; [done|].
    exists [21]. split; [done|]. repeat constructor. by eexists.
Qed.

Lemma list_ops_refine_witness :
  let ops := [InsertBefore 1 12 13; RemoveEntry 1 11] in
  abs_all ops sample_lists !! 1 = Some [13; 12] /\
  exists st', exec_all ops sample_heap = Some st' /\ repr sample_heap st' (abs_all ops sample_lists)
    /\ client st' = events sample_heap sample_lists ops [].
Proof.
  split; [reflexivity|]. apply list_ops_refine; [exact sample_repr|]. split; [|split; [|exact I]].
  - split; [by eexists|]. split; [vm_compute; set_solver by lia|]. split; [done|]. split; [by eexists|]. split.
    + intros L ys [[-> ->]|[-> ->]]%sample_lookup; set_solver by lia.
    + intros L [ys [[-> ->]|[-> ->]]%sample_lookup]; done.
  - split; [by eexists|]. vm_compute. set_solver by lia.
Defined.

Lemma list2Vector_order_witness : list2Vector sample_heap 1 LIST_TRAVERSE_BACKWARD = Some [12; 11].
Proof.
  apply (list2Vector_order sample_heap 1 [11; 12] LIST_TRAVERSE_BACKWARD); [| |by right].
  - by apply (r_list _ _ _ _ _ sample_repr).
  - by apply (r_list _ _ _ _ _ sample_repr).
Defined.

Lemma observer_detach_miscounts_witness : exists st' l lw,
  listObserverDetach sample_heap 21 = Some st' /\ dlist (ptrs st') 1 [11; 12] /\ dlist (ptrs st') 2 []
  /\ heads st' !! 1 = Some l /\ numEnts l = 1 /\ heads st' !! 2 = Some lw /\ numEnts lw = 1 /\ client st' = [].
Proof.
  apply (observer_detach_miscounts sample_heap sample_heap sample_lists 1 [11; 12] 2 [] 21 [] sample_obs);
    [exact sample_repr|reflexivity..].
Defined.
End Sample.
