(* ===== verification/ListSet.v ===== *)
(** * Sorted list sets (lsf/intlib/listset.c)

    A set of [long]s (numbers or addresses) is a chain of nodes in increasing
    order.  The operations reuse the nodes of their arguments and put the others
    on the free list, so an argument is not used after the call: a set is the
    list of its elements.  Allocation is taken to succeed.  Elements that an
    operation drops are first marked with [-1]. *)
From stdpp Require Import base gmap sorting.
From Stdlib Require Import ZArith Lia.
From S2P Require Import Prelude.
Local Open Scope Z_scope.

Abbreviation listSet := (list Z).

Fixpoint listSetEqual (set1 set2 : listSet) : bool :=
  match set1, set2 with
  | x :: s1, y :: s2 => if x =? y then listSetEqual s1 s2 else false
  | [], [] => true
  | _, _ => false
  end.

Fixpoint listSetUnion (set1 : listSet) : listSet -> listSet :=
  fix union2 (set2 : listSet) : listSet :=
    match set1, set2 with
    | x :: s1, y :: s2 => if x <=? y then x :: listSetUnion s1 set2 else y :: union2 s2
    | [], _ => set2
    | _, [] => set1
    end.

(** Both passes over a set: the marks, and the removal of what is marked, first
    behind the head and then the head. *)
Definition sweep (set : listSet) : listSet :=
  match set with
  | [] => []
  | x :: s => let s := List.filter (fun e => negb (e <? 0)) s in if x <? 0 then s else x :: s
  end.

Fixpoint mark_intersect (setA : listSet) : listSet -> listSet :=
  fix mark2 (setB : listSet) : listSet :=
    match setA with
    | [] => []
    | x :: sA =>
        match setB with
        | [] => -1 :: mark_intersect sA []
        | y :: sB =>
            if x =? y then x :: mark_intersect sA sB
            else if x <? y then -1 :: mark_intersect sA setB
            else mark2 sB
        end
    end.

Definition listSetIntersect (set1 set2 : listSet) : listSet := sweep (mark_intersect set1 set2).

Fixpoint listSetDuplicate (set : listSet) : listSet :=
  match set with [] => [] | x :: s => x :: listSetDuplicate s end.

Fixpoint listSetMember (elem : Z) (set : listSet) : bool :=
  match set with [] => false | x :: s => if x =? elem then true else listSetMember elem s end.

Fixpoint listSetDel (elem : Z) (set : listSet) : listSet :=
  match set with [] => [] | x :: s => if x =? elem then s else x :: listSetDel elem s end.

Fixpoint insert_after (elem : Z) (set : listSet) : listSet :=
  match set with
  | x :: set' => if x <? elem then x :: insert_after elem set' else elem :: set
  | [] => [elem]
  end.

Definition listSetInsert (elem : Z) (set : listSet) : listSet :=
  if listSetMember elem set then set
  else
    match set with
    | [] => [elem]
    | x :: set' => if elem <? x then elem :: set else x :: insert_after elem set'
    end.

Fixpoint mark_sub (set1 : listSet) : listSet -> listSet :=
  fix mark2 (set2 : listSet) : listSet :=
    match set1, set2 with
    | x :: s1, y :: s2 =>
        if x =? y then -1 :: mark_sub s1 s2
        else if y <? x then mark2 s2
        else x :: mark_sub s1 set2
    | _, _ => set1
    end.

Definition listSetSub (set1 set2 : listSet) : listSet :=
  match set1, set2 with
  | [], _ => []
  | _, [] => set1
  | _, _ => sweep (mark_sub set1 set2)
  end.

(** The element number [k], counted from 1, as an [int]; 0 for none. *)
Definition listSetGetEle (k : Z) (set : listSet) : Z :=
  if k <? 1 then 0 else match set !! Z.to_nat (k - 1) with Some e => wrap32 e | None => 0 end.

Definition listSetNumEle (set : listSet) : Z := wrap32 (Z.of_nat (length set)).

(** [listSetSelect]: [low] and [up] are the positions behind the last elements
    below [start] and up to [end_]; the loop stops at the first element above
    [end_]. *)
Fixpoint select_loop (start end_ : Z) (ptr : listSet) (i : nat) (low up : option nat) : option nat * option nat :=
  match ptr with
  | x :: ptr' =>
      if x <=? end_
      then select_loop start end_ ptr' (S i) (if x <? start then Some (S i) else low) (Some (S i))
      else (low, up)
  | [] => (low, up)
  end.

Definition listSetSelect (start end_ : Z) (set : listSet) : listSet :=
  if end_ <? start then []
  else
    match select_loop start end_ set 0 None None with
    | (low, None) => []
    | (low, Some up) =>
        match low with
        | None => take up set
        | Some low => if (low =? length set)%nat then [] else drop low (take up set)
        end
    end.

(** ** Iterators *)

(** [listSetIteratorBegin] reads through the pointer without a test: on the empty
    set it is a fault. *)
Definition listSetIteratorBegin (pos : listSet) : option (Z * listSet) :=
  match pos with [] => None | x :: s => Some (x, s) end.
Definition listSetIteratorGetNext (pos : listSet) : option Z * listSet :=
  match pos with [] => (None, []) | x :: s => (Some x, s) end.

(** ** Lemmas *)

Abbreviation sorted := (StronglySorted Z.lt).

Lemma sorted_cons x l : sorted (x :: l) <-> sorted l /\ Forall (Z.lt x) l.
Proof. split; [by inversion 1|intros []; by constructor]. Qed.

Lemma listSetMember_in e l : listSetMember e l = true <-> e ∈ l.
Proof.
  induction l as [|x l IH]; cbn; [set_solver|]. destruct (Z.eqb_spec x e) as [->|]; [set_solver|].
  rewrite IH. set_solver.
Qed.

Lemma sorted_below x l y : sorted (x :: l) -> y ∈ l -> x < y.
Proof. intros [_ H]%sorted_cons. rewrite Forall_forall in H. apply H. Qed.

Lemma listSetDel_in e l y : sorted l -> y ∈ listSetDel e l <-> y ∈ l /\ y <> e.
Proof.
  induction l as [|x l IH]; intros S; cbn; [set_solver|]. pose proof S as [S' _]%sorted_cons.
  destruct (Z.eqb_spec x e) as [->|].
  - split; [|set_solver]. intros H. pose proof (sorted_below _ _ _ S H). split; [set_solver|lia].
  - rewrite !elem_of_cons, IH by done. clear IH. naive_solver.
Qed.

Lemma listSetDel_sorted e l : sorted l -> sorted (listSetDel e l).
Proof.
  induction l as [|x l IH]; intros S; cbn; [done|]. pose proof S as [S' F]%sorted_cons.
  destruct (Z.eqb_spec x e); [done|]. apply sorted_cons. split; [auto|].
  rewrite Forall_forall in *. intros y Hy. apply F. apply listSetDel_in in Hy; [tauto|done].
Qed.

Lemma insert_after_spec e l : sorted l -> e ∉ l ->
  sorted (insert_after e l) /\ forall y, y ∈ insert_after e l <-> y = e \/ y ∈ l.
Proof.
  induction l as [|x l IH]; intros S N; cbn.
  - split; [apply sorted_cons; split; constructor|set_solver].
  - pose proof S as [S' F]%sorted_cons. destruct (Z.ltb_spec x e).
    + destruct IH as [IH1 IH2]; [done|set_solver|]. split; [|intros y; rewrite !elem_of_cons, IH2; clear; naive_solver].
      apply sorted_cons. split; [done|]. rewrite Forall_forall in *. intros y [->|Hy]%IH2; [lia|auto].
    + assert (e <> x) by set_solver. split; [|set_solver]. apply sorted_cons. split; [done|].
      constructor; [lia|]. rewrite Forall_forall in *. intros y Hy. specialize (F y Hy). lia.
Qed.

Lemma listSetInsert_spec e l : sorted l ->
  sorted (listSetInsert e l) /\ forall y, y ∈ listSetInsert e l <-> y = e \/ y ∈ l.
Proof.
  intros S. unfold listSetInsert. destruct (listSetMember e l) eqn:M.
  - apply listSetMember_in in M. split; [done|]. intros y. split; [auto|]. by intros [->|].
  - assert (N : e ∉ l) by (intros H%listSetMember_in; congruence). destruct l as [|x l].
    + split; [apply sorted_cons; split; constructor|set_solver].
    + destruct (Z.ltb_spec e x) as [H|H].
      * split; [|set_solver]. apply sorted_cons. split; [done|]. apply sorted_cons in S as [_ F]. constructor; [done|].
        rewrite Forall_forall in *. intros y Hy. specialize (F y Hy). lia.
      * pose proof (insert_after_spec e (x :: l) S N) as I. cbn in I.
        destruct (Z.ltb_spec x e); [exact I|]. assert (e <> x) by set_solver. lia.
Qed.

Lemma filter_in (f : Z -> bool) l y : y ∈ List.filter f l <-> y ∈ l /\ f y = true.
Proof. rewrite !list_elem_of_In. apply filter_In. Qed.

Lemma filter_sorted (f : Z -> bool) l : sorted l -> sorted (List.filter f l).
Proof.
  induction l as [|x l IH]; cbn; [done|]. intros [S F]%sorted_cons. destruct (f x); [|auto]. apply sorted_cons.
  split; [auto|]. rewrite Forall_forall in *. intros y [Hy _]%filter_in. auto.
Qed.

Lemma sweep_filter l : sweep l = List.filter (fun e => negb (e <? 0)) l.
Proof. destruct l as [|x l]; cbn; [done|]. by destruct (x <? 0). Qed.

Lemma filter_ext_elem (f g : Z -> bool) l : (forall x, x ∈ l -> f x = g x) -> List.filter f l = List.filter g l.
Proof. intros H. apply filter_ext_in. intros x Hx. apply H. by apply list_elem_of_In. Qed.

Lemma filter_nonneg l : Forall (Z.le 0) l -> List.filter (fun e => negb (e <? 0)) l = l.
Proof. induction 1 as [|x l Hx _ IH]; cbn; [done|]. destruct (Z.ltb_spec x 0); [lia|]. cbn. by f_equal. Qed.

Lemma member_below e l : sorted l -> Forall (Z.lt e) l -> listSetMember e l = false.
Proof.
  intros _ F. destruct (listSetMember e l) eqn:M; [|done]. apply listSetMember_in in M.
  rewrite Forall_forall in F. specialize (F _ M). lia.
Qed.

Lemma above_trans x y l : x < y -> Forall (Z.lt y) l -> Forall (Z.lt x) l.
Proof. intros H F. eapply Forall_impl; [exact F|]. cbn. intros. lia. Qed.

Lemma mark_intersect_spec A B : sorted A -> sorted B -> Forall (Z.le 0) A ->
  List.filter (fun e => negb (e <? 0)) (mark_intersect A B) = List.filter (fun x => listSetMember x B) A.
Proof.
  revert B; induction A as [|x A IH]; intros B SA SB P; [by destruct B|].
  pose proof SA as [SA' FA]%sorted_cons. apply Forall_cons in P as [Px P].
  induction B as [|y B IHB].
  - cbn. by apply IH.
  - pose proof SB as [SB' FB]%sorted_cons. specialize (IHB SB').
    assert (Skip : forall z, z <> y -> listSetMember z (y :: B) = listSetMember z B).
    { intros z Hz. cbn. destruct (Z.eqb_spec y z); congruence. }
    cbn [mark_intersect]. destruct (Z.eqb_spec x y) as [->|N]; [|destruct (Z.ltb_spec x y)].
    + cbn. rewrite Z.eqb_refl. destruct (Z.ltb_spec y 0); [lia|]. cbn. f_equal. rewrite IH by done.
      apply filter_ext_elem. intros z Hz. symmetry. apply Skip. rewrite Forall_forall in FA. specialize (FA z Hz). lia.
    + assert (M : listSetMember x (y :: B) = false).
      { apply member_below; [done|]. constructor; [done|]. by eapply above_trans. }
      cbn [List.filter]. rewrite M. rewrite <- IH by done. cbn. destruct B; reflexivity.
    + etransitivity; [exact IHB|]. apply filter_ext_elem. intros z Hz. symmetry. apply Skip.
      apply elem_of_cons in Hz as [->|Hz]; [done|]. rewrite Forall_forall in FA. specialize (FA z Hz). lia.
Qed.

Lemma mark_sub_spec A B : sorted A -> sorted B -> Forall (Z.le 0) A ->
  List.filter (fun e => negb (e <? 0)) (mark_sub A B) = List.filter (fun x => negb (listSetMember x B)) A.
Proof.
  revert B; induction A as [|x A IH]; intros B SA SB P; [by destruct B|].
  pose proof SA as [SA' FA]%sorted_cons. pose proof P as [Px P']%Forall_cons.
  induction B as [|y B IHB].
  - change (mark_sub (x :: A) []) with (x :: A). apply filter_ext_elem. intros z Hz. rewrite Forall_forall in P.
    specialize (P z Hz). cbn. destruct (Z.ltb_spec z 0); [lia|done].
  - pose proof SB as [SB' FB]%sorted_cons. specialize (IHB SB').
    assert (Skip : forall z, z <> y -> listSetMember z (y :: B) = listSetMember z B).
    { intros z Hz. cbn. destruct (Z.eqb_spec y z); congruence. }
    cbn [mark_sub]. destruct (Z.eqb_spec x y) as [->|N]; [|destruct (Z.ltb_spec y x)].
    + cbn. rewrite Z.eqb_refl. cbn. rewrite IH by done.
      apply filter_ext_elem. intros z Hz. f_equal. symmetry. apply Skip. rewrite Forall_forall in FA. specialize (FA z Hz). lia.
    + etransitivity; [exact IHB|]. apply filter_ext_elem. intros z Hz. f_equal. symmetry. apply Skip.
      apply elem_of_cons in Hz as [->|Hz]; [done|]. rewrite Forall_forall in FA. specialize (FA z Hz). lia.
    + assert (M : listSetMember x (y :: B) = false).
      { apply member_below; [done|]. assert (x < y) by lia. constructor; [done|]. by eapply above_trans. }
      cbn [List.filter]. rewrite M. destruct (Z.ltb_spec x 0); [lia|]. cbn [negb]. f_equal. by apply IH.
Qed.

(** A prefix of a sorted list is cut off by a bound. *)
Lemma sorted_split (e : Z) l : sorted l -> exists l1 l2, l = l1 ++ l2 /\ Forall (fun x => x <= e) l1 /\ Forall (Z.lt e) l2.
Proof.
  induction l as [|x l IH]; intros S; [by exists [], []|]. pose proof S as [S' F]%sorted_cons.
  destruct (Z.leb_spec x e).
  - destruct (IH S') as (l1 & l2 & -> & F1 & F2). exists (x :: l1), l2. auto.
  - exists [], (x :: l). split; [done|]. split; [done|]. constructor; [done|]. by eapply above_trans.
Qed.

Lemma select_loop_stop s e l2 i low up : Forall (Z.lt e) l2 -> select_loop s e l2 i low up = (low, up).
Proof. intros F. destruct l2 as [|x l2]; [done|]. inversion F. cbn. destruct (Z.leb_spec x e); [lia|done]. Qed.

(** Over elements up to the end: below the start, and from it on. *)
Lemma select_loop_low s e l l2 i low up : Forall (fun x => x < s) l -> Forall (fun x => x <= e) l -> l <> [] ->
  select_loop s e (l ++ l2) i low up = select_loop s e l2 (i + length l)%nat (Some (i + length l)%nat) (Some (i + length l)%nat).
Proof.
  revert i low up; induction l as [|x l IH]; intros i low up Fs Fe N; [done|].
  inversion Fs; inversion Fe; subst. cbn. destruct (Z.leb_spec x e); [|lia]. destruct (Z.ltb_spec x s); [|lia].
  destruct l as [|y l]; [cbn; by rewrite Nat.add_1_r|]. rewrite IH by done. cbn. f_equal; f_equal; lia.
Qed.

Lemma select_loop_mid s e l l2 i low up : Forall (fun x => s <= x <= e) l -> l <> [] ->
  select_loop s e (l ++ l2) i low up = select_loop s e l2 (i + length l)%nat low (Some (i + length l)%nat).
Proof.
  revert i low up; induction l as [|x l IH]; intros i low up F N; [done|]. inversion F; subst.
  cbn. destruct (Z.leb_spec x e); [|lia]. destruct (Z.ltb_spec x s); [lia|].
  destruct l as [|y l]; [cbn; by rewrite Nat.add_1_r|]. rewrite IH by done. cbn. f_equal; f_equal; lia.
Qed.

Lemma listSetSelect_spec s e l : sorted l -> s <= e ->
  listSetSelect s e l = List.filter (fun x => (s <=? x) && (x <=? e)) l.
Proof.
  intros S He. unfold listSetSelect. destruct (Z.ltb_spec e s); [lia|].
  destruct (sorted_split e l S) as (l1 & c & -> & F1 & Fc).
  assert (S1 : sorted l1).
  { clear - S. induction l1 as [|x l1 IH]; [constructor|]. apply sorted_cons in S as [S F]. apply Forall_app in F as [F _].
    apply sorted_cons. auto. }
  destruct (sorted_split (s - 1) l1 S1) as (a & b & -> & Fa & Fb). apply Forall_app in F1 as [Fa' Fb'].
  assert (Fil : List.filter (fun x => (s <=? x) && (x <=? e)) ((a ++ b) ++ c) = b).
  { rewrite !List.filter_app. assert (Na : List.filter (fun x => (s <=? x) && (x <=? e)) a = []).
    { clear - Fa. induction Fa as [|x a Hx _ IH]; cbn; [done|]. destruct (Z.leb_spec s x); [lia|]. exact IH. }
    assert (Nc : List.filter (fun x => (s <=? x) && (x <=? e)) c = []).
    { clear - Fc. induction Fc as [|x c Hx _ IH]; cbn; [done|]. destruct (Z.leb_spec x e); [lia|].
      rewrite andb_false_r. exact IH. }
    rewrite Na, Nc, app_nil_r. cbn. clear - Fb Fb'. induction Fb as [|x b Hx _ IH]; cbn; [done|]. inversion Fb'; subst.
    destruct (Z.leb_spec s x), (Z.leb_spec x e); try lia. cbn. f_equal. auto. }
  rewrite Fil. rewrite <- app_assoc.
  assert (Fa2 : Forall (fun x => x < s) a) by (eapply Forall_impl; [exact Fa|]; cbn; lia).
  assert (Fb2 : Forall (fun x => s <= x <= e) b).
  { rewrite Forall_forall in *. intros x Hx. specialize (Fb x Hx). specialize (Fb' x Hx). lia. }
  destruct a as [|x a], b as [|y b].
  - cbn [app]. by rewrite select_loop_stop.
  - rewrite app_nil_l, select_loop_mid, select_loop_stop by done. cbn [Nat.add]. by rewrite take_app_length.
  - rewrite select_loop_low by done. rewrite app_nil_l, select_loop_stop by done. cbn [Nat.add].
    destruct (_ =? _)%nat; [done|]. rewrite take_app_length. apply drop_ge. lia.
  - rewrite select_loop_low by done. rewrite select_loop_mid, select_loop_stop by done. cbn [Nat.add].
    rewrite app_assoc, take_app_length' by (by rewrite length_app). rewrite drop_app_length.
    destruct (Nat.eqb_spec (length (x :: a)) (length (((x :: a) ++ y :: b) ++ c))) as [E|]; [|done].
    rewrite !length_app in E. cbn in E. lia.
Qed.

Lemma listSetEqual_eq l1 l2 : listSetEqual l1 l2 = true <-> l1 = l2.
Proof.
  revert l2; induction l1 as [|x l1 IH]; intros [|y l2]; cbn; try done.
  destruct (Z.eqb_spec x y) as [->|]; [|split; [done|congruence]]. rewrite IH. split; [by intros ->|by intros [=]].
Qed.

Lemma sorted_unique l1 l2 : sorted l1 -> sorted l2 -> (forall x, x ∈ l1 <-> x ∈ l2) -> l1 = l2.
Proof.
  revert l2; induction l1 as [|x l1 IH]; intros l2 S1 S2 H.
  - destruct l2 as [|y l2]; [done|]. specialize (H y). set_solver.
  - destruct l2 as [|y l2]; [specialize (H x); set_solver|].
    assert (x = y) as <-.
    { assert (Hx : x ∈ y :: l2) by (apply H; set_solver). assert (Hy : y ∈ x :: l1) by (apply H; set_solver).
      apply elem_of_cons in Hx as [->|Hx]; [done|]. apply elem_of_cons in Hy as [->|Hy]; [done|].
      pose proof (sorted_below _ _ _ S1 Hy). pose proof (sorted_below _ _ _ S2 Hx). lia. }
    f_equal. pose proof S1 as [S1' _]%sorted_cons. pose proof S2 as [S2' _]%sorted_cons. apply IH; [done..|].
    intros z. specialize (H z). rewrite !elem_of_cons in H.
    split; intros Hz; [pose proof (sorted_below _ _ _ S1 Hz)|pose proof (sorted_below _ _ _ S2 Hz)];
      destruct H as [H1 H2]; [destruct H1 as [->|]|destruct H2 as [->|]]; auto; lia.
Qed.

(** The union merges the two chains: nothing is lost and nothing is dropped. *)
Lemma listSetUnion_perm s1 s2 : listSetUnion s1 s2 ≡ₚ s1 ++ s2.
Proof.
  revert s2; induction s1 as [|x s1 IH]; intros s2; [by destruct s2|]. induction s2 as [|y s2 IH2].
  - cbn. by rewrite app_nil_r.
  - cbn [listSetUnion]. destruct (Z.leb_spec x y).
    + cbn. by rewrite IH.
    + change (listSetUnion (x :: s1)) with (fun s => listSetUnion (x :: s1) s) in IH2. cbn beta in IH2.
      etransitivity; [apply Permutation_skip, IH2|]. apply Permutation_middle.
Qed.

Lemma listSetUnion_in s1 s2 x : x ∈ listSetUnion s1 s2 <-> x ∈ s1 \/ x ∈ s2.
Proof. rewrite listSetUnion_perm. apply elem_of_app. Qed.

Lemma listSetUnion_cons x y s1 s2 :
  listSetUnion (x :: s1) (y :: s2) = if x <=? y then x :: listSetUnion s1 (y :: s2) else y :: listSetUnion (x :: s1) s2.
Proof. done. Qed.

Lemma sorted_le l : sorted l -> StronglySorted Z.le l.
Proof.
  induction l as [|x l IH]; intros S; [constructor|]. apply sorted_cons in S as [S F]. constructor; [auto|].
  eapply Forall_impl; [exact F|]. cbn. lia.
Qed.

(** The order in which the elements are kept, with elements of both sets twice. *)
Lemma listSetUnion_le s1 s2 : StronglySorted Z.le s1 -> StronglySorted Z.le s2 -> StronglySorted Z.le (listSetUnion s1 s2).
Proof.
  intros S1. revert s2; induction S1 as [|x s1 S1 IH F1]; intros s2 S2; [by destruct s2|].
  induction S2 as [|y s2 S2 IH2 F2]; [by constructor|].
  rewrite listSetUnion_cons. rewrite Forall_forall in F1, F2. destruct (Z.leb_spec x y).
  - constructor; [apply IH; constructor; [done|]; by rewrite Forall_forall|]. rewrite Forall_forall.
    intros z [Hz|Hz]%listSetUnion_in; [auto|]. apply elem_of_cons in Hz as [->|Hz]; [done|]. specialize (F2 z Hz). lia.
  - constructor; [done|]. rewrite Forall_forall.
    intros z [Hz|Hz]%listSetUnion_in; [|auto]. apply elem_of_cons in Hz as [->|Hz]; [lia|]. specialize (F1 z Hz). lia.
Qed.

Lemma sorted_nodup l : sorted l -> NoDup l.
Proof.
  induction l as [|x l IH]; intros S; [constructor|]. pose proof S as [S' _]%sorted_cons. constructor; [|auto].
  intros H. pose proof (sorted_below _ _ _ S H). lia.
Qed.

Lemma nodup_sorted l : StronglySorted Z.le l -> NoDup l -> sorted l.
Proof.
  induction 1 as [|x l S IH F]; intros N; [constructor|]. apply NoDup_cons in N as [N N']. apply sorted_cons.
  split; [auto|]. rewrite Forall_forall in *. intros y Hy. specialize (F y Hy). assert (x <> y) by (by intros ->). lia.
Qed.

(** The result is a set only when the arguments have no element in common. *)
Lemma listSetUnion_sorted s1 s2 : sorted s1 -> sorted s2 ->
  sorted (listSetUnion s1 s2) <-> (list_to_set s1 : gset Z) ## list_to_set s2.
Proof.
  intros S1 S2. assert (D : NoDup (listSetUnion s1 s2) <-> (list_to_set s1 : gset Z) ## list_to_set s2).
  { rewrite listSetUnion_perm, NoDup_app. pose proof (sorted_nodup _ S1). pose proof (sorted_nodup _ S2). set_solver. }
  rewrite <- D. split; [apply sorted_nodup|]. apply nodup_sorted, listSetUnion_le; by apply sorted_le.
Qed.

Lemma listSetSelect_filter lo hi l : sorted l -> listSetSelect lo hi l = List.filter (fun x => (lo <=? x) && (x <=? hi)) l.
Proof.
  intros S. destruct (Z.le_gt_cases lo hi); [by apply listSetSelect_spec|]. unfold listSetSelect.
  destruct (Z.ltb_spec hi lo); [|lia]. clear S. induction l as [|x l IH]; [done|]. cbn.
  destruct (Z.leb_spec lo x), (Z.leb_spec x hi); try lia; exact IH.
Qed.

Lemma listSetSub_filter s1 s2 : sorted s1 -> sorted s2 -> Forall (Z.le 0) s1 ->
  listSetSub s1 s2 = List.filter (fun x => negb (listSetMember x s2)) s1.
Proof.
  intros S1 S2 P. rewrite <- mark_sub_spec by done. rewrite <- sweep_filter. destruct s1 as [|x s1]; [by destruct s2|].
  destruct s2; [|done]. change (x :: s1 = sweep (x :: s1)). by rewrite sweep_filter, filter_nonneg.
Qed.

Lemma listSetIntersect_filter s1 s2 : sorted s1 -> sorted s2 -> Forall (Z.le 0) s1 ->
  listSetIntersect s1 s2 = List.filter (fun x => listSetMember x s2) s1.
Proof. intros S1 S2 P. unfold listSetIntersect. by rewrite sweep_filter, mark_intersect_spec. Qed.

Lemma listSetMember_not e l : negb (listSetMember e l) = true <-> e ∉ l.
Proof. rewrite <- listSetMember_in. destruct (listSetMember e l); cbn; naive_solver. Qed.

Lemma listSetDuplicate_id l : listSetDuplicate l = l.
Proof. induction l as [|x l IH]; cbn; [done|]. by rewrite IH. Qed.

(** ** Properties *)

(** C29: On strictly increasing chains the operations against sets of numbers.
    Insertion, deletion, selection of a range (any range, the empty ones too),
    comparison, membership and copying are those of sets and keep the order;
    intersection and difference are when the first set has no negative element,
    since dropped elements are marked with -1.  Union has the elements of both in
    increasing order, each as often as the two sets together have it: the result
    is strictly increasing, hence a set again, exactly when the arguments are
    disjoint. *)
Theorem listset_refines_sets s1 s2 e lo hi : sorted s1 -> sorted s2 ->
  (sorted (listSetInsert e s1) /\ (list_to_set (listSetInsert e s1) : gset Z) = {[e]} ∪ list_to_set s1)
  /\ (sorted (listSetDel e s1) /\ (list_to_set (listSetDel e s1) : gset Z) = list_to_set s1 ∖ {[e]})
  /\ (Forall (Z.le 0) s1 ->
       sorted (listSetIntersect s1 s2) /\ (list_to_set (listSetIntersect s1 s2) : gset Z) = list_to_set s1 ∩ list_to_set s2)
  /\ (Forall (Z.le 0) s1 ->
       sorted (listSetSub s1 s2) /\ (list_to_set (listSetSub s1 s2) : gset Z) = list_to_set s1 ∖ list_to_set s2)
  /\ (sorted (listSetSelect lo hi s1)
       /\ (list_to_set (listSetSelect lo hi s1) : gset Z) = filter (fun x => lo <= x <= hi) (list_to_set s1))
  /\ (StronglySorted Z.le (listSetUnion s1 s2) /\ listSetUnion s1 s2 ≡ₚ s1 ++ s2
       /\ (list_to_set (listSetUnion s1 s2) : gset Z) = list_to_set s1 ∪ list_to_set s2
       /\ (sorted (listSetUnion s1 s2) <-> (list_to_set s1 : gset Z) ## list_to_set s2))
  /\ (listSetEqual s1 s2 = true <-> (list_to_set s1 : gset Z) = list_to_set s2)
  /\ (listSetMember e s1 = true <-> e ∈ (list_to_set s1 : gset Z))
  /\ listSetDuplicate s1 = s1.
Proof.
  intros S1 S2. destruct (listSetInsert_spec e s1 S1) as [I1 I2]. split_and!.
  - done.
  - apply leibniz_equiv. intros x. rewrite elem_of_list_to_set, I2. set_solver.
  - by apply listSetDel_sorted.
  - apply leibniz_equiv. intros x. rewrite elem_of_list_to_set, listSetDel_in by done. set_solver.
  - intros P. rewrite listSetIntersect_filter by done. split; [by apply filter_sorted|].
    apply leibniz_equiv. intros x. rewrite elem_of_list_to_set, filter_in, listSetMember_in. set_solver.
  - intros P. rewrite listSetSub_filter by done. split; [by apply filter_sorted|].
    apply leibniz_equiv. intros x. rewrite elem_of_list_to_set, filter_in, listSetMember_not. set_solver.
  - rewrite listSetSelect_filter by done. by apply filter_sorted.
  - apply leibniz_equiv. intros x. rewrite listSetSelect_filter, elem_of_list_to_set, filter_in by done.
    rewrite elem_of_filter, elem_of_list_to_set, andb_true_iff, !Z.leb_le. tauto.
  - apply listSetUnion_le; by apply sorted_le.
  - apply listSetUnion_perm.
  - apply leibniz_equiv. intros x. rewrite elem_of_list_to_set, listSetUnion_in. set_solver.
  - by apply listSetUnion_sorted.
  - rewrite listSetEqual_eq. split; [by intros ->|]. intros H. apply sorted_unique; [done..|].
    intros x. by rewrite <- !(elem_of_list_to_set (C := gset Z)), H.
  - rewrite listSetMember_in. by rewrite elem_of_list_to_set.
  - apply listSetDuplicate_id.
Qed.

(** [listSetUnion] merges the sets without removing duplicates: an element of
    both occurs twice, and is still there after it was deleted once. *)
Theorem listSetUnion_duplicates s1 s2 : listSetUnion s1 s2 ≡ₚ s1 ++ s2
  /\ forall e, sorted s1 -> sorted s2 -> e ∈ s1 -> e ∈ s2 ->
       listSetMember e (listSetDel e (listSetUnion s1 s2)) = true.
Proof.
  pose proof (listSetUnion_perm s1 s2) as P.
  split; [exact P|]. intros e _ _ H1 H2. apply listSetMember_in.
  assert (D : forall l, e :: listSetDel e l ≡ₚ l \/ e ∉ l).
  { induction l as [|x l IH]; [right; set_solver|]. cbn. destruct (Z.eqb_spec x e) as [->|N]; [by left|].
    destruct IH as [IH|IH]; [left|right; set_solver]. rewrite <- IH at 2. apply Permutation_swap. }
  destruct (D (listSetUnion s1 s2)) as [D'|D'].
  - apply list_elem_of_split in H1 as (a & b & ->).
    assert (M : (a ++ e :: b) ++ s2 ≡ₚ e :: a ++ b ++ s2) by (rewrite <- app_assoc; symmetry; apply Permutation_middle).
    assert (E : e :: listSetDel e (listSetUnion (a ++ e :: b) s2) ≡ₚ e :: a ++ b ++ s2).
    { etransitivity; [exact D'|]. etransitivity; [exact P|exact M]. }
    apply Permutation_cons_inv in E. rewrite E. set_solver.
  - rewrite P in D'. set_solver.
Qed.

Lemma listset_refines_sets_witness :
  listSetIntersect [1; 3; 5] [3; 4; 5] = [3; 5] /\ listSetSub [1; 3; 5] [3; 4] = [1; 5]
  /\ (list_to_set (listSetIntersect [1; 3; 5] [3; 4; 5]) : gset Z) = list_to_set [1; 3; 5] ∩ list_to_set [3; 4; 5].
Proof.
  split; [reflexivity|]. split; [reflexivity|].
  apply (listset_refines_sets [1; 3; 5] [3; 4; 5] 0 0 0); [repeat constructor|repeat constructor|repeat (constructor; [lia|]); constructor].
Defined.

Lemma listSetUnion_duplicates_witness :
  listSetUnion [1; 3] [3; 4] = [1; 3; 3; 4] /\ listSetMember 3 (listSetDel 3 (listSetUnion [1; 3] [3; 4])) = true.
Proof.
  split; [reflexivity|]. apply (listSetUnion_duplicates [1; 3] [3; 4]); [repeat constructor..|set_solver|set_solver].
Defined.
