(* ===== verification/HashTab.v ===== *)
(** * Hash tables (lsf/lib/lib.table.c, lib.table.h)

    The tables of users, hosts, jobs and resources.  A table is an array of slots,
    each the header of a circular doubly linked list of entries.  Slots and
    entries are addresses of one heap of pointers; slot number [i] of an array at
    [b] is [b + i].  [None] is an access to an address that is not allocated.
    Allocation is taken to succeed.  [hData] is a pointer of the caller: a value
    of type [D], or NULL. *)
From stdpp Require Import base gmap list.
From Stdlib Require Import ZArith Ascii Lia.
From S2P Require Import Prelude DList.
Local Open Scope Z_scope.

Section HashTab.
Context {D : Type}.

Record hEnt := mkEnt { hData : option D; keyname : cstr }.
Record store := mkStore { lnk : gmap Z links; ents : gmap Z hEnt; top : Z }.
Record hTab := mkTab { slotPtr : Z; numEnts : Z; size : Z }.
Implicit Types (st : store) (t : hTab) (key : cstr).

Definition set_lnk st (h : gmap Z links) : store := mkStore h (ents st) (top st).

(** ** Links *)

Definition insList_ (h : gmap Z links) (elemPtr destPtr : Z) : option (gmap Z links) :=
  b ← get_bw h destPtr;
  h ← set_bw h elemPtr b;
  h ← set_fw h elemPtr destPtr;
  b ← get_bw h destPtr;
  h ← set_fw h b elemPtr;
  set_bw h destPtr elemPtr.

Definition remList_ (h : gmap Z links) (elemPtr : Z) : option (gmap Z links) :=
  if elemPtr =? 0 then Some h
  else
    b ← get_bw h elemPtr;
    if elemPtr =? b then Some h
    else
      f ← get_fw h elemPtr;
      h ← set_bw h f b;
      b ← get_bw h elemPtr;
      f ← get_fw h elemPtr;
      set_fw h b f.

Definition initList_ (h : gmap Z links) (headPtr : Z) : gmap Z links := <[headPtr := mkLinks headPtr headPtr]> h.

(** ** Size and addresses *)

Definition primes : list Z := [101; 1009; 5009; 10007; 20011; 50021; 100003; 200003; 500009; 1030637].

Definition getClosestPrime (x : Z) : Z :=
  match List.find (fun p => x <? p) primes with Some p => p | None => 1030637 end.

(** [char] is signed; the arithmetic is that of [unsigned int]. *)
Definition schar (c : ascii) : Z :=
  let n := Z.of_nat (nat_of_ascii c) in if n <? 128 then n else n - 256.

Fixpoint addr_from (sz : Z) (key : cstr) (ha : Z) : Z :=
  match key with
  | [] => ha
  | c :: key' => addr_from sz key' (uwrap32 (ha * 128 + schar c) mod sz)
  end.
Definition getAddr (sz : Z) (key : cstr) : Z := addr_from sz key 0.

Fixpoint init_slots (n : nat) (slot : Z) (h : gmap Z links) : gmap Z links :=
  match n with O => h | S n' => init_slots n' (slot + 1) (initList_ h slot) end.

Definition h_initTab_ st (numSlots : Z) : store * hTab :=
  let sz := getClosestPrime numSlots in
  (mkStore (init_slots (Z.to_nat sz) (top st) (lnk st)) (ents st) (top st + sz), mkTab (top st) 0 sz).

(** ** Lookup *)

Fixpoint find_loop (fuel : nat) st key (hList ptr : Z) : option (option Z) :=
  match fuel with
  | O => None
  | S f =>
      if ptr =? hList then Some None
      else
        ent ← ents st !! ptr;
        if streq (keyname ent) key then Some (Some ptr)
        else b ← get_bw (lnk st) ptr; find_loop f st key hList b
  end.

Definition h_findEnt st key (hList : Z) : option (option Z) :=
  b ← get_bw (lnk st) hList; find_loop (S (base.size (lnk st))) st key hList b.

Definition h_getEnt_ st t key : option (option Z) :=
  if numEnts t =? 0 then Some None else h_findEnt st key (slotPtr t + getAddr (size t) key).

Definition h_TabEmpty_ t : bool := numEnts t =? 0.

(** ** Growth *)

Definition RESETFACTOR : Z := 2.

(** One slot of the old array, until it is empty. *)
Fixpoint move_slot (fuel : nat) st t (lastList : Z) : option (store * hTab) :=
  match fuel with
  | O => None
  | S f =>
      e ← get_bw (lnk st) lastList;
      if lastList =? e then Some (st, t)
      else
        h ← remList_ (lnk st) e;
        ent ← ents st !! e;
        h ← insList_ h e (slotPtr t + getAddr (size t) (keyname ent));
        move_slot f (set_lnk st h) (mkTab (slotPtr t) (wrap32 (numEnts t + 1)) (size t)) lastList
  end.

Fixpoint move_slots (n : nat) st t (lastList : Z) : option (store * hTab) :=
  match n with
  | O => Some (st, t)
  | S n' => '(st, t) ← move_slot (S (base.size (lnk st))) st t lastList; move_slots n' st t (lastList + 1)
  end.

Fixpoint free_slots (n : nat) (slot : Z) (h : gmap Z links) : gmap Z links :=
  match n with O => h | S n' => free_slots n' (slot + 1) (delete slot h) end.

Definition resetTab st t : option (store * hTab) :=
  let '(st, t') := h_initTab_ st (wrap32 (size t * RESETFACTOR)) in
  '(st, t') ← move_slots (Z.to_nat (size t)) st t' (slotPtr t);
  Some (set_lnk st (free_slots (Z.to_nat (size t)) (slotPtr t) (lnk st)), t').

(** ** Changes *)

(** [h_addEnt_]: the entry, and whether it is new.  [RESETLIMIT] is 1.5. *)
Definition h_addEnt_ st t key : option (Z * bool * store * hTab) :=
  r ← h_findEnt st key (slotPtr t + getAddr (size t) key);
  match r with
  | Some e => Some (e, false, st, t)
  | None =>
      '(st, t) ← (if 3 * size t <=? 2 * numEnts t then resetTab st t else Some (st, t));
      let e := top st in
      let st := mkStore (<[e := mkLinks 0 0]> (lnk st)) (<[e := mkEnt None key]> (ents st)) (e + 1) in
      h ← insList_ (lnk st) e (slotPtr t + getAddr (size t) key);
      Some (e, true, set_lnk st h, mkTab (slotPtr t) (wrap32 (numEnts t + 1)) (size t))
  end.

(** [h_rmEnt_]; [h_delRef_] is the same, [h_delEnt_] also frees [hData]. *)
Definition h_rmEnt_ st t (e : option Z) : option (store * hTab) :=
  match e with
  | None => Some (st, t)
  | Some e =>
      h ← remList_ (lnk st) e;
      Some (mkStore (delete e h) (delete e (ents st)) (top st), mkTab (slotPtr t) (wrap32 (numEnts t - 1)) (size t))
  end.
Definition h_delRef_ := h_rmEnt_.

Definition h_delEnt_ st t (e : option Z) : option (store * hTab * list D) :=
  let freed := match e with
               | Some e => match ents st !! e with Some ent => option_list (hData ent) | None => [] end
               | None => [] end in
  '(st, t) ← h_rmEnt_ st t e; Some (st, t, freed).

(** [entry->hData = d] *)
Definition set_hData st (e : Z) (d : option D) : option store :=
  ent ← ents st !! e; Some (mkStore (lnk st) (<[e := mkEnt d (keyname ent)]> (ents st)) (top st)).

(** ** Iteration *)

Record sTab := mkSTab { nIndex : Z; hEntPtr : option Z; hList : Z }.

(** The next slot with an entry: its last entry, and the slot. *)
Fixpoint next_slot (fuel : nat) st t (i : Z) : option (option (Z * Z) * Z) :=
  match fuel with
  | O => None
  | S f =>
      if size t <=? i then Some (None, i)
      else
        let hl := slotPtr t + i in
        b ← get_bw (lnk st) hl;
        if hl =? b then next_slot f st t (i + 1) else Some (Some (b, hl), i + 1)
  end.

Definition h_nextEnt_ st t (s : sTab) : option (option Z * sTab) :=
  let here := match hEntPtr s with Some e => if e =? hList s then None else Some e | None => None end in
  match here with
  | Some e => b ← get_bw (lnk st) e; Some (Some e, mkSTab (nIndex s) (Some b) (hList s))
  | None =>
      '(r, i) ← next_slot (S (Z.to_nat (size t))) st t (nIndex s);
      match r with
      | None => Some (None, mkSTab i (hEntPtr s) (hList s))
      | Some (e, hl) => b ← get_bw (lnk st) e; Some (Some e, mkSTab i (Some b) hl)
      end
  end.

Definition h_firstEnt_ st t : option (option Z * sTab) :=
  let s := mkSTab 0 None 0 in
  if slotPtr t =? 0 then Some (None, s) else h_nextEnt_ st t s.

(** [FOR_EACH_HTAB_ENTRY]: the keys and the data of all entries.  The fuel is the
    number of turns. *)
Fixpoint for_rest (fuel : nat) st t (r : option Z) (s : sTab) : option (list (cstr * option D)) :=
  match fuel with
  | O => None
  | S f =>
      match r with
      | None => Some []
      | Some e =>
          ent ← ents st !! e;
          '(r, s) ← h_nextEnt_ st t s;
          l ← for_rest f st t r s;
          Some ((keyname ent, hData ent) :: l)
      end
  end.

Definition FOR_EACH_HTAB_ENTRY st t : option (list (cstr * option D)) :=
  '(r, s) ← h_firstEnt_ st t; for_rest (S (base.size (ents st))) st t r s.

(** ** Release of a whole table: the values given to the destructor *)

Fixpoint free_slot (fuel : nat) st (slot : Z) (out : list D) : option (store * list D) :=
  match fuel with
  | O => None
  | S f =>
      e ← get_bw (lnk st) slot;
      if slot =? e then Some (st, out)
      else
        h ← remList_ (lnk st) e;
        ent ← ents st !! e;
        free_slot f (mkStore (delete e h) (delete e (ents st)) (top st)) slot (out ++ option_list (hData ent))
  end.

Fixpoint free_all (n : nat) st (slot : Z) (out : list D) : option (store * list D) :=
  match n with
  | O => Some (st, out)
  | S n' => '(st, out) ← free_slot (S (base.size (lnk st))) st slot out; free_all n' st (slot + 1) out
  end.

Definition h_freeTab_ st t : option (store * hTab * list D) :=
  '(st, out) ← free_all (Z.to_nat (size t)) st (slotPtr t) [];
  Some (set_lnk st (free_slots (Z.to_nat (size t)) (slotPtr t) (lnk st)), mkTab 0 0 (size t), out).

(** [h_freeRefTab_] leaves the data to the caller. *)
Definition h_freeRefTab_ st t : option (store * hTab) := '(st, t, _) ← h_freeTab_ st t; Some (st, t).
End HashTab.
