(* ===== verification/HashTheorems.v ===== *)
(** * Hash tables implement finite maps (lsf/lib/lib.table.c)

    [tab_rep A st t M]: the table [t] in the heap [st] stands for the map [M] from
    keys to entries, where [A] gives the entries of every slot. *)
From stdpp Require Import base gmap list.
From Stdlib Require Import ZArith Ascii Lia.
From S2P Require Import Prelude DList HashTab.
Local Open Scope Z_scope.

(** ** The pointers *)

Lemma insList_inserted h s e b : is_Some (h !! e) -> is_Some (h !! b) -> get_bw h s = Some b -> e <> s ->
  exists h', insList_ h e s = Some h' /\ inserted h s e h'.
Proof.
  intros He Hb Hs N. unfold insList_. rewrite Hs. cbn. field_step; [done|].
  field_step; [destruct (some_fw _ _ He) as [v Hv]; eapply fw_some; by rewrite F|].
  rewrite B0, B, decide_False, Hs by done. cbn. field_step.
  { destruct (some_bw _ _ Hb) as [v Hv]. destruct (decide (b = e)) as [->|].
    - eapply bw_some. by rewrite B0, B, decide_True.
    - eapply bw_some. by rewrite B0, B, decide_False. }
  field_step; [eapply bw_some; by rewrite B1, B0, B, decide_False|].
  eexists. split; [done|]. exists b. split; [done|]. split; intros y.
  - by rewrite F2, F1, F0, F.
  - by rewrite B2, B1, B0, B.
Qed.

Lemma remList_removed h x f b : x <> 0 -> x <> b -> get_fw h x = Some f -> get_bw h x = Some b ->
  is_Some (h !! f) -> is_Some (h !! b) -> exists h', remList_ h x = Some h' /\ removed h x h'.
Proof.
  intros H0 Hx Hf Hb If Ib. unfold remList_. destruct (Z.eqb_spec x 0); [done|]. rewrite Hb. cbn.
  destruct (Z.eqb_spec x b); [done|]. rewrite Hf. cbn. field_step; [done|].
  assert (E1 : get_bw h0 x = Some b) by (rewrite B; by case_decide).
  rewrite E1, F, Hf. cbn. field_step; [destruct (some_fw _ _ Ib) as [v Hv]; eapply fw_some; by rewrite F|].
  eexists. split; [done|]. exists f, b. repeat split; auto; intros y.
  - by rewrite F0, F.
  - by rewrite B0, B.
Qed.

(** ** Addresses *)

Lemma addr_from_bound sz key ha : 0 < sz -> 0 <= ha < sz -> 0 <= addr_from sz key ha < sz.
Proof. intros H. revert ha. induction key as [|c key IH]; intros ha Hh; cbn; [done|]. apply IH. by apply Z.mod_pos_bound. Qed.

Lemma getAddr_bound sz key : 0 < sz -> 0 <= getAddr sz key < sz.
Proof. intros H. apply addr_from_bound; lia. Qed.

Lemma prime_bounds x : 0 < getClosestPrime x <= 1030637.
Proof.
  unfold getClosestPrime. destruct (List.find _ primes) as [p|] eqn:E; [|lia].
  apply find_some in E as [E _]. cbn in E. repeat (destruct E as [<-|E]; [lia|]). done.
Qed.

Section HashFacts.
Context {D : Type}.
Implicit Types (st : @store D) (t : hTab) (key : cstr) (A : gmap Z (list Z)) (M : gmap cstr Z)
  (m : gmap cstr (option D)).

Definition slot_of t key : Z := slotPtr t + getAddr (size t) key.
Definition is_slot t (p : Z) : Prop := slotPtr t <= p < slotPtr t + size t.

(** [A] may have more lists than the slots of [t]. *)
Record tab_rep A st t M : Prop := mkRep {
  t_size : 0 < size t <= 1030637;
  t_slots : forall p, is_slot t p -> is_Some (A !! p);
  t_ents : forall p es e, is_slot t p -> A !! p = Some es -> e ∈ es ->
    exists ent, ents st !! e = Some ent /\ slot_of t (keyname ent) = p /\ M !! keyname ent = Some e;
  t_keys : forall k e, M !! k = Some e ->
    exists es ent, A !! slot_of t k = Some es /\ e ∈ es /\ ents st !! e = Some ent /\ keyname ent = k }.

(** The counter is not part of the representation. *)
Lemma tab_rep_num A st t M n : tab_rep A st t M -> tab_rep A st (mkTab (slotPtr t) n (size t)) M.
Proof. intros [R1 R2 R3 R4]. by constructor. Qed.

Lemma slot_of_slot t key : 0 < size t -> is_slot t (slot_of t key).
Proof. intros H. unfold is_slot, slot_of. pose proof (getAddr_bound (size t) key H). lia. Qed.

(** What the heap has to satisfy besides. *)
Record heap_ok A st : Prop := mkOk {
  k_lists : lists (lnk st) A;
  k_null : outside A 0;
  k_top : forall a, top st <= a -> lnk st !! a = None /\ ents st !! a = None;
  k_pos : 0 < top st }.

Lemma slot_list A st t M key : tab_rep A st t M -> exists es, A !! slot_of t key = Some es.
Proof. intros R. apply (t_slots _ _ _ _ R), slot_of_slot, R. Qed.

(** An entry is found under its key and only under it. *)
Lemma find_loop_spec A st t M key es l r fuel : heap_ok A st -> tab_rep A st t M ->
  A !! slot_of t key = Some es -> es = l ++ r -> (length l < fuel)%nat ->
  (forall e, e ∈ r -> M !! key <> Some e) ->
  find_loop fuel st key (slot_of t key) (lastd (slot_of t key) l) = Some (M !! key).
Proof.
  intros K R HA. revert r fuel. induction l as [|e l IH] using rev_ind; intros r fuel E Hf Hr; (destruct fuel as [|f]; [lia|]); cbn [find_loop].
  - cbn. rewrite Z.eqb_refl. destruct (M !! key) as [e|] eqn:HM; [|done].
    destruct (t_keys _ _ _ _ R _ _ HM) as (es' & ent & HA' & He & _). rewrite HA in HA'. injection HA' as <-.
    subst es. by destruct (Hr e He).
  - rewrite lastd_snoc. pose proof (proj1 (k_lists _ _ K) _ _ HA) as Dl.
    assert (He : e ∈ es) by (rewrite E; set_solver).
    destruct (Z.eqb_spec e (slot_of t key)) as [->|N].
    { destruct Dl as [Nd _]. rewrite NoDup_cons in Nd. by destruct Nd. }
    destruct (t_ents _ _ _ _ R _ _ _ (slot_of_slot t key (proj1 (t_size _ _ _ _ R))) HA He) as (ent & He' & _ & HM).
    rewrite He'. cbn. destruct (streq (keyname ent) key) eqn:Q.
    + apply streq_eq in Q. subst key. by rewrite HM.
    + subst es. rewrite <- app_assoc in Dl. pose proof (dlist_pred _ _ _ _ Dl) as P. cbn in P. rewrite P. cbn.
      apply (IH (e :: r)); [by rewrite <- app_assoc| |].
      * rewrite length_app in Hf. cbn in Hf. lia.
      * intros x [->|Hx]%elem_of_cons; [|by apply Hr]. intros E. destruct (t_keys _ _ _ _ R _ _ E) as (? & ent' & _ & _ & H1 & H2).
        rewrite He' in H1. injection H1 as <-. rewrite H2 in Q. by rewrite streq_refl in Q.
Qed.

Lemma list_fits A st p es : heap_ok A st -> A !! p = Some es -> (length es < base.size (lnk st))%nat.
Proof. intros K HA. by eapply dlist_size, K. Qed.

Lemma h_findEnt_spec A st t M key : heap_ok A st -> tab_rep A st t M ->
  h_findEnt st key (slot_of t key) = Some (M !! key).
Proof.
  intros K R. destruct (slot_list _ _ _ _ key R) as [es HA]. unfold h_findEnt.
  rewrite (dlist_last _ _ _ (proj1 (k_lists _ _ K) _ _ HA)). cbn [mbind option_bind].
  apply (find_loop_spec A st t M key es es []); auto.
  - by rewrite app_nil_r.
  - pose proof (list_fits _ _ _ _ K HA). lia.
  - set_solver.
Qed.

(** ** One entry *)

Lemma tab_rep_ext A A' st st' t M : tab_rep A st t M -> (forall p, is_slot t p -> A' !! p = A !! p) ->
  (forall k e, M !! k = Some e -> ents st' !! e = ents st !! e) -> tab_rep A' st' t M.
Proof.
  intros R Q E. constructor; [apply R| | |].
  - intros p Hp. rewrite Q by done. by apply R.
  - intros p es e Hp Ha He. rewrite Q in Ha by done. destruct (t_ents _ _ _ _ R _ _ _ Hp Ha He) as (ent & H & ? & HM).
    exists ent. by erewrite E.
  - intros k e Hk. destruct (t_keys _ _ _ _ R _ _ Hk) as (es & ent & Ha & He & H & ?). exists es, ent.
    erewrite E by done. by rewrite Q by (apply slot_of_slot, R).
Qed.

Lemma tab_frame A st t M p es h : tab_rep A st t M -> ~ is_slot t p -> tab_rep (<[p := es]> A) (set_lnk st h) t M.
Proof.
  intros R N. eapply tab_rep_ext; [exact R| |done]. intros q Hq. apply lookup_insert_ne. by intros ->.
Qed.

Lemma tab_insert A st t M key e ent : heap_ok A st -> tab_rep A st t M -> outside A e -> is_Some (lnk st !! e) ->
  e <> 0 -> ents st !! e = Some ent -> keyname ent = key -> M !! key = None ->
  exists es h, A !! slot_of t key = Some es /\ insList_ (lnk st) e (slot_of t key) = Some h
    /\ heap_ok (<[slot_of t key := es ++ [e]]> A) (set_lnk st h)
    /\ tab_rep (<[slot_of t key := es ++ [e]]> A) (set_lnk st h) t (<[key := e]> M).
Proof.
  intros K R O He E0 Hent Hk HM. destruct (slot_list _ _ _ _ key R) as [es HA]. set (s := slot_of t key) in *.
  pose proof (proj1 (k_lists _ _ K) _ _ HA) as Dl.
  destruct (insList_inserted (lnk st) s e (lastd s es)) as (h & Eh & I); [done| | | |].
  { eapply dlist_in; [exact Dl|apply lastd_in]. }
  { by apply dlist_last. }
  { intros ->. apply (O _ _ HA). set_solver. }
  exists es, h. split; [done|]. split; [done|]. split.
  - constructor; cbn.
    + apply (lists_insert (lnk st) h A s es [] e); [apply K|by rewrite app_nil_r|done|done].
    + apply outside_insert; [apply K|]. pose proof (k_null _ _ K _ _ HA). set_solver.
    + intros a Ha. destruct (k_top _ _ K a Ha) as [H1 H2]. split; [|done]. by eapply inserted_none.
    + apply K.
  - pose proof (slot_of_slot t key (proj1 (t_size _ _ _ _ R))) as Hs. constructor.
    + apply R.
    + intros q Hq. destruct (decide (s = q)) as [<-|N]; rewrite ?lookup_insert_eq, ?lookup_insert_ne by done; [by eexists|by apply R].
    + intros q xs x Hq Hx Hin. assert (x = e /\ s = q \/ exists xs', A !! q = Some xs' /\ x ∈ xs') as [[-> <-]|(xs' & HA' & Hin')].
      { destruct (decide (s = q)) as [<-|N]; [|rewrite lookup_insert_ne in Hx by done; by eauto].
        rewrite lookup_insert_eq in Hx. injection Hx as <-. apply elem_of_app in Hin as [Hin|Hin]; [by eauto|].
        left. apply list_elem_of_singleton in Hin. done. }
      * exists ent. rewrite Hk, lookup_insert_eq. done.
      * destruct (t_ents _ _ _ _ R _ _ _ Hq HA' Hin') as (ent' & H1 & H2 & H3). exists ent'. split; [done|]. split; [done|].
        rewrite lookup_insert_ne; [done|]. intros E. rewrite <- E in H3. congruence.
    + intros k x [[-> ->]|[N Hx]]%lookup_insert_Some.
      * exists (es ++ [x]), ent. rewrite lookup_insert_eq. split; [done|]. split; [set_solver|done].
      * destruct (t_keys _ _ _ _ R _ _ Hx) as (xs & ent' & H1 & H2 & H3). destruct (decide (s = slot_of t k)) as [Es|Es].
        -- exists (es ++ [e]), ent'. rewrite <- Es, lookup_insert_eq. split; [done|]. rewrite <- Es, HA in H1. injection H1 as <-.
           split; [set_solver|done].
        -- exists xs, ent'. by rewrite lookup_insert_ne.
Qed.

Lemma tab_remove A st t M key e l1 l2 : heap_ok A st -> tab_rep A st t M -> M !! key = Some e ->
  A !! slot_of t key = Some (l1 ++ e :: l2) ->
  exists h, remList_ (lnk st) e = Some h /\ heap_ok (<[slot_of t key := l1 ++ l2]> A) (set_lnk st h)
    /\ tab_rep (<[slot_of t key := l1 ++ l2]> A) (set_lnk st h) t (delete key M)
    /\ outside (<[slot_of t key := l1 ++ l2]> A) e /\ is_Some (h !! e) /\ e <> 0.
Proof.
  intros K R HM HA. set (s := slot_of t key) in *. pose proof (proj1 (k_lists _ _ K) _ _ HA) as Dl.
  pose proof (dlist_pred _ _ _ _ Dl) as Hb. cbn in Hb. pose proof Dl as [Nd C]. apply chain_app in C as [_ C]. apply chain_head in C.
  assert (E0 : e <> 0) by (intros ->; apply (k_null _ _ K _ _ HA); set_solver).
  assert (If : is_Some (lnk st !! hd s l2)) by (eapply dlist_in; [exact Dl|]; destruct l2; cbn; set_solver).
  destruct (remList_removed (lnk st) e (hd s l2) (lastd s l1)) as (h & Eh & I); try done.
  { apply (lastd_not_behind s l1 (e :: l2)); [done|set_solver]. }
  { eapply dlist_in; [exact Dl|]. pose proof (lastd_in s l1). set_solver. }
  destruct (lists_remove _ _ _ _ _ _ _ (k_lists _ _ K) HA I) as [L O].
  exists h. split; [done|]. split; [|split; [|split; [done|split; [|done]]]].
  - constructor; cbn; [done| | |apply K].
    + apply outside_insert; [apply K|]. pose proof (k_null _ _ K _ _ HA). set_solver.
    + intros a Ha. destruct (k_top _ _ K a Ha) as [H1 H2]. split; [|done]. eapply removed_none; eauto. by intros f; rewrite C; intros [= <-].
  - pose proof (slot_of_slot t key (proj1 (t_size _ _ _ _ R))) as Hs. constructor.
    + apply R.
    + intros q Hq. destruct (decide (s = q)) as [<-|N]; rewrite ?lookup_insert_eq, ?lookup_insert_ne by done; [by eexists|by apply R].
    + intros q xs x Hq Hx Hin. assert (exists xs', A !! q = Some xs' /\ x ∈ xs') as (xs' & HA' & Hin').
      { destruct (decide (s = q)) as [<-|N]; [|rewrite lookup_insert_ne in Hx by done; by eauto].
        rewrite lookup_insert_eq in Hx. injection Hx as <-. eexists. split; [exact HA|]. set_solver. }
      destruct (t_ents _ _ _ _ R _ _ _ Hq HA' Hin') as (ent' & H1 & H2 & H3). exists ent'. split; [done|]. split; [done|].
      rewrite lookup_delete_ne; [done|]. intros E. rewrite <- E, HM in H3. injection H3 as <-.
      apply (O _ _ Hx). set_solver.
    + intros k x [N Hx]%lookup_delete_Some. destruct (t_keys _ _ _ _ R _ _ Hx) as (xs & ent' & H1 & H2 & H3 & H4).
      destruct (decide (s = slot_of t k)) as [Es|Es].
      * exists (l1 ++ l2), ent'. rewrite <- Es, lookup_insert_eq. rewrite <- Es, HA in H1. injection H1 as <-.
        split; [done|]. split; [|done]. assert (x <> e); [|set_solver]. intros ->.
        destruct (t_keys _ _ _ _ R _ _ HM) as (_ & ent'' & _ & _ & H5 & H6). congruence.
      * exists xs, ent'. by rewrite lookup_insert_ne.
  - eapply removed_dom; [done|]. by eapply fw_some.
Qed.

(** ** New slots *)

Fixpoint add_slots (n : nat) (p : Z) A : gmap Z (list Z) :=
  match n with O => A | S n' => add_slots n' (p + 1) (<[p := []]> A) end.

Lemma add_slots_lookup n p A q :
  add_slots n p A !! q = if decide (p <= q < p + Z.of_nat n) then Some [] else A !! q.
Proof.
  revert p A; induction n as [|n IH]; intros p A; cbn [add_slots]; [rewrite decide_False; [done|lia]|]. rewrite IH.
  destruct (decide (p = q)) as [<-|N]; rewrite ?lookup_insert_eq, ?lookup_insert_ne by done.
  - rewrite decide_False, decide_True; [done|lia|lia].
  - destruct (decide (p + 1 <= q < p + 1 + Z.of_nat n)), (decide (p <= q < p + Z.of_nat (S n))); auto; lia.
Qed.

Lemma init_slots_lookup n p (h : gmap Z links) q :
  init_slots n p h !! q = if decide (p <= q < p + Z.of_nat n) then Some (mkLinks q q) else h !! q.
Proof.
  revert p h; induction n as [|n IH]; intros p h; cbn [init_slots]; [rewrite decide_False; [done|lia]|]. rewrite IH.
  unfold initList_. destruct (decide (p = q)) as [<-|N]; rewrite ?lookup_insert_eq, ?lookup_insert_ne by done.
  - rewrite decide_False, decide_True; [done|lia|lia].
  - destruct (decide (p + 1 <= q < p + 1 + Z.of_nat n)), (decide (p <= q < p + Z.of_nat (S n))); auto; lia.
Qed.

Lemma init_slots_lists n p h A : lists h A -> (forall q, p <= q < p + Z.of_nat n -> outside A q) ->
  lists (init_slots n p h) (add_slots n p A).
Proof.
  revert p h A; induction n as [|n IH]; intros p h A L O; cbn; [done|]. apply IH.
  - apply lists_new; [done|]. apply O. lia.
  - intros q Hq. apply outside_insert; [apply O; lia|]. rewrite list_elem_of_singleton. lia.
Qed.

Lemma init_ok A st n st' t' : heap_ok A st -> h_initTab_ st n = (st', t') ->
  exists A', heap_ok A' st' /\ tab_rep A' st' t' ∅ /\ numEnts t' = 0
    /\ ents st' = ents st /\ (forall p, p < top st -> A' !! p = A !! p) /\ slotPtr t' = top st.
Proof.
  intros K. unfold h_initTab_. pose proof (prime_bounds n) as P. set (sz := getClosestPrime n) in *. intros [= <- <-].
  exists (add_slots (Z.to_nat sz) (top st) A).
  assert (Hi : forall p, p < top st -> add_slots (Z.to_nat sz) (top st) A !! p = A !! p).
  { intros p Hp. rewrite add_slots_lookup, decide_False; [done|lia]. }
  split; [|split; [|done]].
  - constructor; cbn.
    + apply init_slots_lists; [apply K|]. intros q Hq. eapply outside_fresh; [apply K|]. apply (k_top _ _ K). lia.
    + intros q xs. rewrite add_slots_lookup. case_decide; [intros [= <-]|apply (k_null _ _ K)].
      rewrite list_elem_of_singleton. pose proof (k_pos _ _ K). lia.
    + intros a Ha. rewrite init_slots_lookup, decide_False by lia. apply (k_top _ _ K). lia.
    + pose proof (k_pos _ _ K). lia.
  - constructor; cbn; [lia| | |].
    + unfold is_slot. cbn. intros q Hq. rewrite add_slots_lookup, decide_True by lia. by eexists.
    + unfold is_slot. cbn. intros q xs e Hq. rewrite add_slots_lookup, decide_True by lia. intros [= <-]. set_solver.
    + intros k e. by rewrite lookup_empty.
Qed.

(** The slots of a table are allocated. *)
Lemma slot_below A st t M p : heap_ok A st -> tab_rep A st t M -> is_slot t p -> p < top st.
Proof.
  intros K R Hp. destruct (t_slots _ _ _ _ R p Hp) as [es Hes]. destruct (Z.lt_ge_cases p (top st)) as [|H]; [done|].
  destruct (k_top _ _ K p H) as [E _]. destruct (dlist_in _ _ _ p (proj1 (k_lists _ _ K) _ _ Hes)); [set_solver|congruence].
Qed.

(** ** Moving the entries *)

(** Two tables in one heap: the one that is emptied and the one that is filled. *)
Record moving A st told tnew M1 M2 : Prop := mkMoving {
  m_ok : heap_ok A st; m_old : tab_rep A st told M1; m_new : tab_rep A st tnew M2;
  m_apart : forall p, is_slot told p -> ~ is_slot tnew p; m_disj : M1 ##ₘ M2;
  m_num : numEnts tnew = Z.of_nat (base.size M2);
  m_small : Z.of_nat (base.size M1) + Z.of_nat (base.size M2) < 2 ^ 31 }.

Lemma move_slot_spec es : forall fuel A st told tnew M1 M2 p,
  moving A st told tnew M1 M2 -> is_slot told p -> A !! p = Some es -> (length es < fuel)%nat ->
  exists A' st' tnew' M1' M2', move_slot fuel st tnew p = Some (st', tnew')
    /\ moving A' st' told tnew' M1' M2' /\ M1' ∪ M2' = M1 ∪ M2 /\ A' !! p = Some []
    /\ (forall q, is_slot told q -> q <> p -> A' !! q = A !! q)
    /\ ents st' = ents st /\ top st' = top st /\ slotPtr tnew' = slotPtr tnew /\ size tnew' = size tnew.
Proof.
  induction es as [|e es IH] using rev_ind; intros fuel A st told tnew M1 M2 p V Hp HA Hf;
    (destruct fuel as [|fuel]; [lia|]); cbn [move_slot].
  - rewrite (dlist_last _ _ _ (proj1 (k_lists _ _ (m_ok _ _ _ _ _ _ V)) _ _ HA)). cbn. rewrite Z.eqb_refl.
    exists A, st, tnew, M1, M2. done.
  - destruct V as [K Ro Rn Ap Dj Nm Sm]. pose proof (proj1 (k_lists _ _ K) _ _ HA) as Dl.
    rewrite (dlist_last _ _ _ Dl), lastd_snoc. cbn [mbind option_bind].
    destruct (Z.eqb_spec p e) as [->|Np]; [destruct Dl as [Nd _]; rewrite NoDup_cons in Nd; set_solver|].
    destruct (t_ents _ _ _ _ Ro p _ e Hp HA) as (ent & He & Hs & HM); [set_solver|].
    rewrite <- Hs in HA. destruct (tab_remove _ _ _ _ _ _ _ _ K Ro HM HA) as (h & Eh & K1 & Ro1 & O & Ie & E0).
    rewrite app_nil_r in *. rewrite Eh. cbn [mbind option_bind]. rewrite He. cbn [mbind option_bind].
    pose proof (tab_frame _ _ _ _ _ es h Rn (Ap _ (slot_of_slot told (keyname ent) (proj1 (t_size _ _ _ _ Ro))))) as Rn1.
    assert (HM2 : M2 !! keyname ent = None) by (by eapply map_disjoint_Some_l).
    destruct (tab_insert _ _ _ _ _ _ _ K1 Rn1 O Ie E0 He eq_refl HM2) as (es2 & h2 & HA2 & Eh2 & K2 & Rn2).
    cbn [lnk set_lnk] in Eh2. unfold slot_of in Eh2. rewrite Eh2. cbn [mbind option_bind]. rewrite Hs in *.
    set (s2 := slot_of tnew (keyname ent)) in *.
    assert (Hs2 : ~ is_slot told s2).
    { intros H. apply (Ap _ H). apply slot_of_slot, Rn. }
    pose proof (tab_frame _ _ _ _ s2 (es2 ++ [e]) h2 Ro1 Hs2) as Ro2.
    destruct (IH fuel (<[s2 := es2 ++ [e]]> (<[p := es]> A)) (set_lnk (set_lnk st h) h2) told (mkTab (slotPtr tnew) (wrap32 (numEnts tnew + 1)) (size tnew))
                (delete (keyname ent) M1) (<[keyname ent := e]> M2) p) as (A' & st' & tnew' & M1' & M2' & E & V' & U & Hz & Oth & Rest).
    + constructor; auto.
      * by apply tab_rep_num.
      * apply map_disjoint_insert_r_2; [by rewrite lookup_delete_eq|]. by apply map_disjoint_delete_l.
      * cbn. rewrite Nm, map_size_insert_None by done. rewrite wrap32_id; [lia|]. unfold int32.
        assert (base.size M1 <> 0%nat); [|lia].
        intros Z0%map_size_empty_inv. by rewrite Z0, lookup_empty in HM.
      * rewrite map_size_insert_None, map_size_delete_Some by (done || by eexists). assert (base.size M1 <> 0%nat); [|lia].
        intros Z0%map_size_empty_inv. by rewrite Z0, lookup_empty in HM.
    + done.
    + rewrite lookup_insert_ne; [by rewrite lookup_insert_eq|]. intros ->. done.
    + rewrite length_app in Hf. cbn in Hf. lia.
    + exists A', st', tnew', M1', M2'. split; [exact E|]. split; [done|]. split.
      { rewrite U, <- insert_union_r by (by rewrite lookup_delete_eq).
        rewrite insert_union_l, insert_delete_id by done. done. }
      split; [done|]. split; [|done]. intros q Hq Nq. rewrite Oth by done.
      rewrite lookup_insert_ne by (intros ->; done). by rewrite lookup_insert_ne.
Qed.

Lemma move_slots_spec n : forall A st told tnew M1 M2 p,
  moving A st told tnew M1 M2 -> p + Z.of_nat n = slotPtr told + size told -> slotPtr told <= p ->
  (forall q, is_slot told q -> q < p -> A !! q = Some []) ->
  exists A' st' tnew' M1' M2', move_slots n st tnew p = Some (st', tnew')
    /\ moving A' st' told tnew' M1' M2' /\ M1' ∪ M2' = M1 ∪ M2 /\ (forall q, is_slot told q -> A' !! q = Some [])
    /\ ents st' = ents st /\ slotPtr tnew' = slotPtr tnew /\ size tnew' = size tnew.
Proof.
  induction n as [|n IH]; intros A st told tnew M1 M2 p V Hn Hp Em; cbn [move_slots].
  - exists A, st, tnew, M1, M2. repeat (split; [done|]). split; [|done]. intros q Hq. apply Em; [done|]. destruct Hq. lia.
  - assert (Sp : is_slot told p) by (unfold is_slot; lia).
    destruct (t_slots _ _ _ _ (m_old _ _ _ _ _ _ V) p Sp) as [es HA].
    destruct (move_slot_spec es (S (base.size (lnk st))) A st told tnew M1 M2 p V Sp HA) as
      (A1 & st1 & t1 & M11 & M21 & E & V1 & U1 & Z1 & Oth & H1 & H2 & H3 & H4).
    { pose proof (list_fits _ _ _ _ (m_ok _ _ _ _ _ _ V) HA). lia. }
    rewrite E. cbn [mbind option_bind].
    destruct (IH A1 st1 told t1 M11 M21 (p + 1) V1) as (A2 & st2 & t2 & M12 & M22 & E2 & V2 & U2 & Z2 & H5 & H6 & H7); [lia|lia| |].
    { intros q Hq Hl. destruct (decide (q = p)) as [->|]; [done|]. rewrite Oth by done. apply Em; [done|lia]. }
    exists A2, st2, t2, M12, M22. split; [exact E2|]. split; [done|]. split; [by rewrite U2|]. split; [done|].
    by rewrite H5, H6, H7.
Qed.

Lemma free_slots_ok n : forall A st p, heap_ok A st -> (forall q, p <= q < p + Z.of_nat n -> A !! q = Some []) ->
  exists A', heap_ok A' (set_lnk st (free_slots n p (lnk st)))
    /\ forall q, ~ (p <= q < p + Z.of_nat n) -> A' !! q = A !! q.
Proof.
  induction n as [|n IH]; intros A st p K Em; cbn [free_slots].
  - exists A. split; [by destruct st|done].
  - destruct (IH (delete p A) (set_lnk st (delete p (lnk st))) (p + 1)) as (A' & K' & H').
    + constructor; cbn; [apply lists_drop; [apply K|apply Em; lia]| | |apply K].
      * intros q xs [_ Hq]%lookup_delete_Some. by apply (k_null _ _ K).
      * intros a Ha. destruct (k_top _ _ K a Ha) as [E1 E2]. split; [|done]. apply lookup_delete_None. by right.
    + intros q Hq. rewrite lookup_delete_ne by lia. apply Em. lia.
    + exists A'. split; [exact K'|]. intros q Hq. rewrite H' by lia. rewrite lookup_delete_ne; [done|]. intros ->. lia.
Qed.

(** A table that has grown holds the same entries under the same keys. *)
Lemma resetTab_spec A st t M : heap_ok A st -> tab_rep A st t M -> Z.of_nat (base.size M) < 2 ^ 31 ->
  exists A' st' t', resetTab st t = Some (st', t') /\ heap_ok A' st' /\ tab_rep A' st' t' M
    /\ numEnts t' = Z.of_nat (base.size M) /\ ents st' = ents st.
Proof.
  intros K R Sm. unfold resetTab. destruct (h_initTab_ st (wrap32 (size t * RESETFACTOR))) as [st1 t1] eqn:E1.
  destruct (init_ok _ _ _ _ _ K E1) as (A1 & K1 & R1 & N1 & En1 & Lo & Sp).
  assert (Ro : tab_rep A1 st1 t M).
  { eapply tab_rep_ext; [exact R| |by rewrite En1]. intros p Hp. eapply Lo, slot_below; eauto. }
  destruct (move_slots_spec (Z.to_nat (size t)) A1 st1 t t1 M ∅ (slotPtr t)) as
    (A2 & st2 & t2 & M1 & M2 & E2 & V & U & Em & En2 & H3 & H4).
  - constructor; auto.
    + intros p Hp [Hq _]. pose proof (slot_below _ _ _ _ _ K R Hp). rewrite Sp in Hq. lia.
    + apply map_disjoint_empty_r.
    + rewrite map_size_empty. lia.
  - pose proof (t_size _ _ _ _ R). lia.
  - lia.
  - intros q [Hq _] H. lia.
  - rewrite E2. cbn [mbind option_bind]. destruct V as [K2 Ro2 Rn2 Ap Dj Nm _].
    assert (M1 = ∅) as ->.
    { apply map_empty. intros k. destruct (M1 !! k) as [e|] eqn:Hk; [|done].
      destruct (t_keys _ _ _ _ Ro2 _ _ Hk) as (es & ent & Hs & He & _). rewrite Em in Hs by (apply slot_of_slot, R).
      injection Hs as <-. by apply elem_of_nil in He. }
    rewrite left_id_L in U by apply _. rewrite right_id_L in U by apply _. subst M2.
    destruct (free_slots_ok (Z.to_nat (size t)) A2 st2 (slotPtr t) K2) as (A3 & K3 & H5).
    { intros q Hq. apply Em. unfold is_slot. pose proof (t_size _ _ _ _ R). lia. }
    exists A3, (set_lnk st2 (free_slots (Z.to_nat (size t)) (slotPtr t) (lnk st2))), t2.
    split; [done|]. split; [done|]. split; [|by rewrite <- En1].
    eapply tab_rep_ext; [exact Rn2| |done]. intros p Hp. apply H5. intros Hq. apply (Ap p); [|done].
    unfold is_slot. pose proof (t_size _ _ _ _ R). lia.
Qed.

(** ** The table as a map *)

(** What the callers do: enter a value under a key, read it, remove it. *)
Inductive op := Add (key : cstr) (d : option D) | Get (key : cstr) | Remove (key : cstr).
Inductive answer := Entered (new : bool) | Found (d : option (option D)) | Removed (was : bool).

Definition exec (o : op) st t : option (answer * store * hTab) :=
  match o with
  | Add key d => '(e, new, st, t) ← h_addEnt_ st t key; st ← set_hData st e d; Some (Entered new, st, t)
  | Get key =>
      r ← h_getEnt_ st t key;
      match r with
      | None => Some (Found None, st, t)
      | Some e => ent ← ents st !! e; Some (Found (Some (hData ent)), st, t)
      end
  | Remove key =>
      r ← h_getEnt_ st t key; '(st, t) ← h_rmEnt_ st t r;
      Some (Removed (match r with Some _ => true | None => false end), st, t)
  end.

Definition spec (o : op) (m : gmap cstr (option D)) : answer * gmap cstr (option D) :=
  match o with
  | Add key d => (Entered (match m !! key with Some _ => false | None => true end), <[key := d]> m)
  | Get key => (Found (m !! key), m)
  | Remove key => (Removed (match m !! key with Some _ => true | None => false end), delete key m)
  end.

(** What is seen of a sequence: each answer with the entry counter of the table
    behind it, and the table that is left. *)
Fixpoint exec_all (os : list op) st t : option (list (answer * Z) * store * hTab) :=
  match os with
  | [] => Some ([], st, t)
  | o :: os' => '(a, st, t) ← exec o st t; '(l, st', t') ← exec_all os' st t; Some ((a, numEnts t) :: l, st', t')
  end.

Fixpoint spec_all (os : list op) (m : gmap cstr (option D)) : list (answer * Z) * gmap cstr (option D) :=
  match os with
  | [] => ([], m)
  | o :: os' => let '(a, m) := spec o m in let '(l, m') := spec_all os' m in ((a, Z.of_nat (base.size m)) :: l, m')
  end.

Definition table st t (m : gmap cstr (option D)) : Prop := exists A M,
  heap_ok A st /\ tab_rep A st t M /\ numEnts t = Z.of_nat (base.size M)
  /\ forall k, m !! k = e ← M !! k; hData <$> ents st !! e.

Lemma table_some A st t M m : tab_rep A st t M -> (forall k, m !! k = e ← M !! k; hData <$> ents st !! e) ->
  forall k, is_Some (m !! k) <-> is_Some (M !! k).
Proof.
  intros R H k. rewrite H. destruct (M !! k) as [e|] eqn:E; cbn; [|done].
  destruct (t_keys _ _ _ _ R _ _ E) as (_ & ent & _ & _ & He & _). rewrite He. cbn. split; by eexists.
Qed.

Lemma table_size A st t M m : tab_rep A st t M -> (forall k, m !! k = e ← M !! k; hData <$> ents st !! e) ->
  base.size m = base.size M.
Proof.
  intros R H. rewrite <- !size_dom. f_equal. apply leibniz_equiv. intros k. rewrite !elem_of_dom. by eapply table_some.
Qed.

(** Writing [hData] changes the map at one key. *)
Lemma set_hData_spec A st t M m key e d : heap_ok A st -> tab_rep A st t M -> M !! key = Some e ->
  (forall k, k <> key -> m !! k = x ← M !! k; hData <$> ents st !! x) ->
  exists st', set_hData st e d = Some st' /\ heap_ok A st' /\ tab_rep A st' t M
    /\ forall k, <[key := d]> m !! k = x ← M !! k; hData <$> ents st' !! x.
Proof.
  intros K R HM Hm. destruct (t_keys _ _ _ _ R _ _ HM) as (es & ent & HA & Hin & He & Hk). unfold set_hData. rewrite He. cbn.
  eexists. split; [done|]. split; [|split].
  - constructor; cbn; [apply K|apply K| |apply K]. intros a Ha. destruct (k_top _ _ K a Ha) as [H1 H2]. split; [done|].
    apply lookup_insert_None. split; [done|]. intros ->. congruence.
  - constructor; [apply R|apply R| |].
    + intros p xs x Hp Hxs Hx. destruct (t_ents _ _ _ _ R _ _ _ Hp Hxs Hx) as (ent' & H1 & H2 & H3). cbn.
      destruct (decide (e = x)) as [<-|N].
      * rewrite He in H1. injection H1 as <-. rewrite lookup_insert_eq. by eexists.
      * rewrite lookup_insert_ne by done. by eexists.
    + intros k x Hx. destruct (t_keys _ _ _ _ R _ _ Hx) as (xs & ent' & H1 & H2 & H3 & H4). cbn.
      destruct (decide (e = x)) as [<-|N].
      * rewrite He in H3. injection H3 as <-. exists xs, (mkEnt d (keyname ent)). by rewrite lookup_insert_eq.
      * exists xs, ent'. by rewrite lookup_insert_ne.
  - intros k. cbn. destruct (decide (key = k)) as [<-|N].
    + rewrite lookup_insert_eq, HM. cbn. by rewrite lookup_insert_eq.
    + rewrite lookup_insert_ne, Hm by done. destruct (M !! k) as [x|] eqn:Hx; cbn; [|done].
      rewrite lookup_insert_ne; [done|]. intros ->.
      destruct (t_keys _ _ _ _ R _ _ Hx) as (_ & ent' & _ & _ & H3 & H4). congruence.
Qed.

Lemma h_getEnt_spec A st t M key : heap_ok A st -> tab_rep A st t M -> numEnts t = Z.of_nat (base.size M) ->
  h_getEnt_ st t key = Some (M !! key).
Proof.
  intros K R N. unfold h_getEnt_. destruct (Z.eqb_spec (numEnts t) 0) as [E|]; [|by eapply h_findEnt_spec].
  assert (base.size M = 0%nat) as ->%map_size_empty_inv by lia. by rewrite lookup_empty.
Qed.

Lemma add_existing st t m key d : table st t m -> is_Some (m !! key) ->
  exists st' t', exec (Add key d) st t = Some (Entered false, st', t') /\ table st' t' (<[key := d]> m).
Proof.
  intros (A & M & K & R & N & Hm) Hk. apply (table_some _ _ _ _ _ R Hm) in Hk as [e HM]. cbn. unfold h_addEnt_.
  fold (slot_of t key). rewrite (h_findEnt_spec A st t M) by done. rewrite HM. cbn.
  destruct (set_hData_spec A st t M m key e d K R HM) as (st' & E & K' & R' & Hm'); [by intros|]. rewrite E. cbn.
  eexists _, _. split; [done|]. by exists A, M.
Qed.

(** A new entry at the top of the heap. *)
Lemma alloc_ok A st t M key : heap_ok A st -> tab_rep A st t M ->
  let st' := mkStore (<[top st := mkLinks 0 0]> (lnk st)) (<[top st := mkEnt None key]> (ents st)) (top st + 1) in
  heap_ok A st' /\ tab_rep A st' t M /\ outside A (top st).
Proof.
  intros K R st'. destruct (k_top _ _ K (top st)) as [H1 H2]; [lia|].
  assert (O : outside A (top st)) by (eapply outside_fresh; [apply K|done]). split; [|split; [|done]].
  - constructor; cbn; [|apply K| |].
    + eapply lists_ext; [apply K|exact O|]. intros y Hy. by rewrite lookup_insert_ne.
    + intros a Ha. rewrite !lookup_insert_ne by lia. apply (k_top _ _ K). lia.
    + pose proof (k_pos _ _ K). lia.
  - eapply tab_rep_ext; [exact R|done|]. intros k e He. destruct (t_keys _ _ _ _ R _ _ He) as (_ & ent & _ & _ & H & _). cbn.
    rewrite lookup_insert_ne; [done|]. intros E. rewrite <- E in H. congruence.
Qed.

Lemma add_new st t m key d : table st t m -> m !! key = None -> Z.of_nat (base.size m) < 2 ^ 31 - 1 ->
  exists st' t', exec (Add key d) st t = Some (Entered true, st', t') /\ table st' t' (<[key := d]> m).
Proof.
  intros (A & M & K & R & N & Hm) Hk Sm. assert (HM : M !! key = None).
  { apply eq_None_not_Some. intros H%(table_some _ _ _ _ _ R Hm). rewrite Hk in H. by destruct H. }
  rewrite (table_size _ _ _ _ _ R Hm) in Sm. cbn. unfold h_addEnt_.
  fold (slot_of t key). rewrite (h_findEnt_spec A st t M) by done. rewrite HM. cbn [mbind option_bind].
  assert (exists A1 st1 t1, (if 3 * size t <=? 2 * numEnts t then resetTab st t else Some (st, t)) = Some (st1, t1)
    /\ heap_ok A1 st1 /\ tab_rep A1 st1 t1 M /\ numEnts t1 = Z.of_nat (base.size M) /\ ents st1 = ents st)
    as (A1 & st1 & t1 & E1 & K1 & R1 & N1 & En1).
  { destruct (3 * size t <=? 2 * numEnts t); [apply (resetTab_spec A); auto; lia|by exists A, st, t]. }
  rewrite E1. cbn [mbind option_bind]. destruct (alloc_ok _ _ _ _ key K1 R1) as (K2 & R2 & O).
  set (st2 := mkStore _ _ _) in *. fold (slot_of t1 key).
  destruct (tab_insert A1 st2 t1 M key (top st1) (mkEnt None key) K2 R2 O) as (es & h & HA & Eh & K3 & R3); auto.
  { cbn. rewrite lookup_insert_eq. by eexists. }
  { pose proof (k_pos _ _ K1). lia. }
  { cbn. by rewrite lookup_insert_eq. }
  rewrite Eh. cbn [mbind option_bind]. apply (tab_rep_num _ _ _ _ (wrap32 (numEnts t1 + 1))) in R3.
  edestruct (set_hData_spec _ (set_lnk st2 h) _ _ m key (top st1) d K3 R3) as (st' & E & K' & R' & Hm').
  { by rewrite lookup_insert_eq. }
  { intros k Nk. rewrite (lookup_insert_ne M) by done. rewrite Hm. destruct (M !! k) as [x|] eqn:Hx; cbn; [|done].
    rewrite En1. rewrite lookup_insert_ne; [done|]. intros <-. destruct (t_keys _ _ _ _ R1 _ _ Hx) as (_ & ent & _ & _ & H & _).
    destruct (k_top _ _ K1 (top st1)); [lia|]. congruence. }
  rewrite E. cbn. eexists _, _. split; [done|]. eexists _, _. split; [exact K'|]. split; [exact R'|]. split; [|exact Hm'].
  cbn. rewrite N1, map_size_insert_None by done. rewrite wrap32_id; [lia|]. unfold int32. lia.
Qed.

Lemma rmEnt_spec st t m key : table st t m -> Z.of_nat (base.size m) < 2 ^ 31 ->
  exists st' t', exec (Remove key) st t = Some (fst (spec (Remove key) m), st', t') /\ table st' t' (delete key m).
Proof.
  intros (A & M & K & R & N & Hm) Sm. rewrite (table_size _ _ _ _ _ R Hm) in Sm. cbn.
  rewrite (h_getEnt_spec A st t M) by done. cbn [mbind option_bind].
  pose proof (table_some _ _ _ _ _ R Hm key) as HS. destruct (M !! key) as [e|] eqn:HM; cbn [h_rmEnt_].
  - destruct (proj2 HS) as [x Hx]; [by eexists|]. rewrite Hx.
    destruct (t_keys _ _ _ _ R _ _ HM) as (es & ent & HA & Hin & He & Hk). apply list_elem_of_split in Hin as (l1 & l2 & ->).
    destruct (tab_remove _ _ _ _ _ _ _ _ K R HM HA) as (h & Eh & K1 & R1 & O & Ie & E0). rewrite Eh. cbn.
    assert (Inj : forall k y, key <> k -> M !! k = Some y -> e <> y).
    { intros k y Nk Hy ->. destruct (t_keys _ _ _ _ R _ _ Hy) as (_ & ent' & _ & _ & H3 & H4). congruence. }
    eexists _, _. split; [done|]. eexists (<[slot_of t key := l1 ++ l2]> A), (delete key M). split; [|split; [|split]].
    + constructor; cbn; [|apply K1| |apply K1].
      * eapply lists_ext; [apply K1|exact O|]. intros y Hy. by rewrite lookup_delete_ne.
      * intros a Ha. destruct (k_top _ _ K1 a Ha) as [H1 H2]. cbn in *. rewrite !lookup_delete_None. by split; right.
    + apply (tab_rep_ext _ (<[slot_of t key := l1 ++ l2]> A) _ (mkStore (delete e h) (delete e (ents st)) (top st))) in R1; [by apply tab_rep_num|done|].
      intros k y [Nk Hy]%lookup_delete_Some. cbn. by apply lookup_delete_ne, (Inj k).
    + cbn. rewrite N, map_size_delete_Some by (by eexists). assert (base.size M <> 0%nat).
      { intros Z0%map_size_empty_inv. by rewrite Z0, lookup_empty in HM. }
      rewrite wrap32_id; [lia|]. unfold int32. lia.
    + intros k. cbn. destruct (decide (key = k)) as [<-|Nk]; [by rewrite !lookup_delete_eq|]. rewrite !lookup_delete_ne by done.
      rewrite Hm. destruct (M !! k) as [y|] eqn:Hy; cbn; [|done]. by rewrite lookup_delete_ne by (by apply (Inj k)).
  - assert (m !! key = None) as Hn by (apply eq_None_not_Some; intros H%HS; by destruct H).
    rewrite Hn. cbn. eexists _, _. split; [done|]. exists A, M. rewrite delete_id by done. done.
Qed.

Lemma exec_table_spec st t m o : table st t m -> Z.of_nat (base.size m) < 2 ^ 31 - 1 ->
  exists st' t', exec o st t = Some (fst (spec o m), st', t') /\ table st' t' (snd (spec o m)).
Proof.
  intros T Sm. destruct o as [key d|key|key].
  - cbn [spec fst snd]. destruct (m !! key) eqn:E; [apply add_existing; [done|by eexists]|by apply add_new].
  - exists st, t. split; [|done]. destruct T as (A & M & K & R & N & Hm). cbn. rewrite (h_getEnt_spec A st t M) by done.
    cbn. rewrite Hm. destruct (M !! key) as [e|] eqn:HM; cbn; [|done].
    destruct (t_keys _ _ _ _ R _ _ HM) as (_ & ent & _ & _ & H & _). by rewrite H.
  - apply rmEnt_spec; [done|]. lia.
Qed.

Lemma spec_size m o : (base.size (snd (spec o m)) <= S (base.size m))%nat.
Proof.
  destruct o as [key d|key|key]; cbn [spec snd].
  - rewrite map_size_insert. destruct (m !! key); cbn; auto.
  - auto.
  - rewrite map_size_delete. destruct (m !! key); cbn; auto. etransitivity; [apply Nat.le_pred_l|auto].
Qed.

Lemma table_counter st t m : table st t m -> numEnts t = Z.of_nat (base.size m).
Proof. intros (A & M & K & R & N & Hm). by rewrite N, (table_size _ _ _ _ _ R Hm). Qed.

Lemma exec_all_spec os : forall st t m, table st t m -> Z.of_nat (base.size m) + Z.of_nat (length os) < 2 ^ 31 ->
  exists st' t', exec_all os st t = Some (fst (spec_all os m), st', t') /\ table st' t' (snd (spec_all os m)).
Proof.
  induction os as [|o os IH]; intros st t m T Sm; cbn [exec_all spec_all]; [by exists st, t|]. cbn [length] in Sm.
  destruct (exec_table_spec st t m o T) as (st' & t' & E & T'); [lia|]. rewrite E. cbn [mbind option_bind].
  destruct (IH st' t' _ T') as (st2 & t2 & E2 & T2); [pose proof (spec_size m o); lia|]. rewrite E2, (table_counter _ _ _ T').
  destruct (spec o m) as [a m']. cbn in *. destruct (spec_all os m') as [l m2]. by exists st2, t2.
Qed.

Lemma init_table st n : heap_ok ∅ st -> table (fst (h_initTab_ st n)) (snd (h_initTab_ st n)) ∅.
Proof.
  intros K. destruct (h_initTab_ st n) as [st' t'] eqn:E. destruct (init_ok _ _ _ _ _ K E) as (A & K' & R' & N & _).
  exists A, ∅. split; [done|]. split; [done|]. split; [by rewrite map_size_empty|]. intros k. by rewrite !lookup_empty.
Qed.

(** C27: A hash table is a finite map: whatever the size asked for and whatever the
    keys, a sequence of fewer than 2^31 entries (of new data under a key that is
    there too), lookups and removals on a new table gives the answers of a map,
    also when the table grows and all entries move to other slots; behind every
    operation the entry counter [numEnts] is the number of keys of the map, and a
    lookup in the table that is left finds what the map has. *)
Theorem hash_refines_map st n os : heap_ok ∅ st -> Z.of_nat (length os) < 2 ^ 31 ->
  exists st' t', exec_all os (fst (h_initTab_ st n)) (snd (h_initTab_ st n)) = Some (fst (spec_all os ∅), st', t')
    /\ numEnts t' = Z.of_nat (base.size (snd (spec_all os ∅)))
    /\ forall key, exec (Get key) st' t' = Some (Found (snd (spec_all os ∅) !! key), st', t').
Proof.
  intros K Sm. destruct (exec_all_spec os _ _ _ (init_table st n K)) as (st' & t' & E & T); [by rewrite map_size_empty|].
  exists st', t'. split; [done|]. split; [by eapply table_counter|]. intros key.
  destruct T as (A & M & K' & R & N & Hm). cbn. rewrite (h_getEnt_spec A st' t' M) by done. cbn. rewrite Hm.
  destruct (M !! key) as [e|] eqn:HM; cbn; [|done]. destruct (t_keys _ _ _ _ R _ _ HM) as (_ & ent & _ & _ & H & _). by rewrite H.
Qed.

(** ** Iteration *)

Section Iterate.
Context (A : gmap Z (list Z)) (st : @store D) (t : hTab) (M : gmap cstr Z) (K : heap_ok A st) (R : tab_rep A st t M).

(** The entries of the last [n] slots, in the order of the iteration. *)
Fixpoint all_from (n : nat) (i : Z) : list Z :=
  match n with O => [] | S n' => rev (default [] (A !! (slotPtr t + i))) ++ all_from n' (i + 1) end.

Lemma next_slot_spec n : forall i fuel, 0 <= i -> i + Z.of_nat n = size t -> (n < fuel)%nat ->
  (all_from n i = [] /\ next_slot fuel st t i = Some (None, size t))
  \/ exists j n' es e, A !! (slotPtr t + j) = Some (es ++ [e]) /\ all_from n i = e :: rev es ++ all_from n' (j + 1)
       /\ next_slot fuel st t i = Some (Some (e, slotPtr t + j), j + 1) /\ 0 <= j /\ j + 1 + Z.of_nat n' = size t.
Proof.
  induction n as [|n IH]; intros i [|fuel] Hi Hn Hf; try lia; cbn [next_slot all_from].
  - left. split; [done|]. destruct (Z.leb_spec (size t) i); [|lia]. do 3 f_equal. lia.
  - destruct (Z.leb_spec (size t) i); [lia|]. destruct (t_slots _ _ _ _ R (slotPtr t + i)) as [es HA]; [unfold is_slot; lia|].
    pose proof (proj1 (k_lists _ _ K) _ _ HA) as Dl. rewrite HA, (dlist_last _ _ _ Dl). cbn [mbind option_bind default from_option].
    destruct es as [|e es _] using rev_ind.
    + cbn. rewrite Z.eqb_refl. apply IH; lia.
    + right. exists i, n, es, e. rewrite lastd_snoc. destruct (Z.eqb_spec (slotPtr t + i) e) as [E|].
      { destruct Dl as [Nd _]. rewrite NoDup_cons in Nd. set_solver. }
      split; [done|]. cbn. rewrite rev_app_distr. cbn. repeat split; auto; lia.
Qed.

Definition pairs (l : list Z) : list (cstr * option D) :=
  omap (fun e => (fun ent => (keyname ent, hData ent)) <$> ents st !! e) l.

(** The iterator at the entry [lastd p l1] of the slot [p], behind which the
    entries [l1] are still to come. *)
Lemma next_spec n i p l1 l2 : is_slot t p -> A !! p = Some (l1 ++ l2) -> 0 <= i -> i + Z.of_nat n = size t ->
  (rev l1 ++ all_from n i = [] /\ exists s, h_nextEnt_ st t (mkSTab i (Some (lastd p l1)) p) = Some (None, s))
  \/ exists e n' i' p' l1' l2', h_nextEnt_ st t (mkSTab i (Some (lastd p l1)) p) = Some (Some e, mkSTab i' (Some (lastd p' l1')) p')
       /\ rev l1 ++ all_from n i = e :: rev l1' ++ all_from n' i' /\ is_slot t p' /\ A !! p' = Some (l1' ++ l2')
       /\ e ∈ l1' ++ l2' /\ 0 <= i' /\ i' + Z.of_nat n' = size t.
Proof.
  intros Hp HA Hi Hn. pose proof (proj1 (k_lists _ _ K) _ _ HA) as Dl. unfold h_nextEnt_. cbn [hEntPtr hList nIndex].
  destruct l1 as [|e l1 _] using rev_ind.
  - cbn [lastd]. rewrite Z.eqb_refl. destruct (next_slot_spec n i (S (Z.to_nat (size t)))) as [[E1 E2]|(j & n' & es & e & HA' & E1 & E2 & Hj & Hn')]; [lia..| |].
    + left. split; [done|]. rewrite E2. cbn. by eexists.
    + right. rewrite E2. cbn [mbind option_bind]. pose proof (dlist_pred _ _ _ _ (proj1 (k_lists _ _ K) _ _ HA')) as P. cbn in P. rewrite P. cbn [mbind option_bind].
      exists e, n', (j + 1), (slotPtr t + j), es, [e]. repeat split; auto; unfold is_slot; try lia. set_solver.
  - right. rewrite lastd_snoc. destruct (Z.eqb_spec e p) as [->|]; [destruct Dl as [Nd _]; rewrite NoDup_cons in Nd; set_solver|].
    rewrite <- app_assoc in HA, Dl. cbn [app] in HA, Dl. pose proof (dlist_pred _ _ _ _ Dl) as P. cbn in P. rewrite P. cbn [mbind option_bind].
    exists e, n, i, p, l1, (e :: l2). rewrite rev_app_distr. cbn. repeat split; auto; try apply Hp. set_solver.
Qed.

Lemma slot_ent p es e : is_slot t p -> A !! p = Some es -> e ∈ es -> exists ent, ents st !! e = Some ent.
Proof. intros Hp HA He. destruct (t_ents _ _ _ _ R _ _ _ Hp HA He) as (ent & H & _). eauto. Qed.

Lemma for_rest_spec fuel : forall n i p l1 l2 e, is_slot t p -> A !! p = Some (l1 ++ l2) -> e ∈ l1 ++ l2 ->
  0 <= i -> i + Z.of_nat n = size t -> (S (length (rev l1 ++ all_from n i)) < fuel)%nat ->
  for_rest fuel st t (Some e) (mkSTab i (Some (lastd p l1)) p) = Some (pairs (e :: rev l1 ++ all_from n i)).
Proof.
  induction fuel as [|fuel IH]; intros n i p l1 l2 e Hp HA He Hi Hn Hf; [lia|]. cbn [for_rest].
  destruct (slot_ent _ _ _ Hp HA He) as [ent Hent]. rewrite Hent. cbn [mbind option_bind].
  destruct (next_spec n i p l1 l2 Hp HA Hi Hn) as [[Er [s E]]|(e' & n' & i' & p' & l1' & l2' & E & Er & Hp' & HA' & He' & Hi' & Hn')];
    rewrite E, Er; cbn [mbind option_bind].
  - destruct fuel; [lia|]. cbn. by rewrite Hent.
  - rewrite Er in Hf. cbn [length] in Hf. rewrite (IH n' i' p' l1' l2') by (auto; lia). cbn. by rewrite Hent.
Qed.

Lemma all_from_in n : forall i e, e ∈ all_from n i <-> exists j es, i <= j < i + Z.of_nat n /\ A !! (slotPtr t + j) = Some es /\ e ∈ es.
Proof.
  induction n as [|n IH]; intros i e; cbn [all_from]; [split; [set_solver|intros (j & es & H & _); lia]|].
  rewrite elem_of_app, IH. split.
  - intros [H|(j & es & H & ?)]; [|exists j, es; split; [lia|done]].
    destruct (A !! (slotPtr t + i)) as [es|] eqn:E; cbn in H; [|set_solver]. exists i, es. split; [lia|]. split; [done|].
    rewrite list_elem_of_In in *. by apply in_rev.
  - intros (j & es & H & HA & He). destruct (decide (j = i)) as [->|N].
    + left. rewrite HA. cbn. rewrite list_elem_of_In in *. by apply in_rev in He.
    + right. exists j, es. split; [lia|done].
Qed.

Lemma all_from_nodup n : forall i, NoDup (all_from n i).
Proof.
  induction n as [|n IH]; intros i; cbn [all_from]; [apply NoDup_nil_2|]. apply NoDup_app. split; [|split; [|apply IH]].
  - destruct (A !! (slotPtr t + i)) as [es|] eqn:E; cbn; [|apply NoDup_nil_2]. apply NoDup_ListNoDup, NoDup_rev, NoDup_ListNoDup.
    destruct (proj1 (k_lists _ _ K) _ _ E) as [Nd _]. by apply NoDup_cons in Nd as [_ ?].
  - intros e He (j & es & Hj & HA & He')%all_from_in. destruct (A !! (slotPtr t + i)) as [es'|] eqn:E; cbn in He; [|set_solver].
    assert (e ∈ es') by (rewrite list_elem_of_In in *; by apply in_rev).
    apply (proj2 (k_lists _ _ K) _ _ _ _ E HA ltac:(lia) e); set_solver.
Qed.

Lemma all_entries e : e ∈ all_from (Z.to_nat (size t)) 0 <-> exists k, M !! k = Some e.
Proof.
  pose proof (t_size _ _ _ _ R) as Sz. rewrite all_from_in. split.
  - intros (j & es & Hj & HA & He). destruct (t_ents _ _ _ _ R (slotPtr t + j) es e) as (ent & _ & _ & H); [unfold is_slot; lia|done|done|eauto].
  - intros [k Hk]. destruct (t_keys _ _ _ _ R _ _ Hk) as (es & ent & HA & He & _). exists (getAddr (size t) k), es.
    pose proof (getAddr_bound (size t) k (proj1 Sz)). split; [lia|done].
Qed.

Lemma for_each_all : FOR_EACH_HTAB_ENTRY st t = Some (pairs (all_from (Z.to_nat (size t)) 0)).
Proof.
  pose proof (t_size _ _ _ _ R) as Sz. unfold FOR_EACH_HTAB_ENTRY, h_firstEnt_.
  destruct (t_slots _ _ _ _ R (slotPtr t)) as [es0 H0]; [unfold is_slot; lia|].
  destruct (Z.eqb_spec (slotPtr t) 0) as [E|_]; [exfalso; rewrite E in H0; apply (k_null _ _ K _ _ H0); set_solver|].
  unfold h_nextEnt_. cbn [hEntPtr hList nIndex].
  assert (Len : (length (all_from (Z.to_nat (size t)) 0) <= base.size (ents st))%nat).
  { assert (S : (list_to_set (all_from (Z.to_nat (size t)) 0) : gset Z) ⊆ dom (ents st)).
    { intros e [k Hk]%elem_of_list_to_set%all_entries. apply elem_of_dom.
      destruct (t_keys _ _ _ _ R _ _ Hk) as (_ & ent & _ & _ & H & _). by eexists. }
    apply subseteq_size in S. rewrite size_list_to_set in S by apply all_from_nodup. by rewrite size_dom in S. }
  destruct (next_slot_spec (Z.to_nat (size t)) 0 (S (Z.to_nat (size t)))) as [[E1 E2]|(j & n' & es & e & HA & E1 & E2 & Hj & Hn')];
    [lia..|rewrite E2; cbn [mbind option_bind]; by rewrite E1|].
  rewrite E2. cbn [mbind option_bind]. pose proof (dlist_pred _ _ _ _ (proj1 (k_lists _ _ K) _ _ HA)) as P. cbn in P. rewrite P. cbn [mbind option_bind].
  rewrite E1 in *. cbn [length] in Len. apply (for_rest_spec _ n' (j + 1) (slotPtr t + j) es [e]); unfold is_slot; auto; try lia. set_solver.
Qed.

Lemma pairs_in l k d : (k, d) ∈ pairs l <-> exists e ent, e ∈ l /\ ents st !! e = Some ent /\ keyname ent = k /\ hData ent = d.
Proof.
  unfold pairs. rewrite list_elem_of_omap. split.
  - intros (e & He & H). destruct (ents st !! e) as [ent|] eqn:E; [|done]. injection H as <- <-. eauto 6.
  - intros (e & ent & He & E & <- & <-). exists e. by rewrite E.
Qed.

Lemma pairs_nodup l : NoDup l -> (forall e, e ∈ l -> exists k, M !! k = Some e) -> NoDup (pairs l).
Proof.
  induction 1 as [|e l He Nd IH]; intros H; cbn; [apply NoDup_nil_2|].
  destruct (ents st !! e) as [ent|] eqn:E; cbn; [|apply IH; set_solver].
  apply NoDup_cons. split; [|apply IH; set_solver]. intros (e' & ent' & He' & E' & Hk & _)%pairs_in.
  destruct (H e) as [k Hm]; [set_solver|]. destruct (H e') as [k' Hm']; [set_solver|].
  destruct (t_keys _ _ _ _ R _ _ Hm) as (_ & x & _ & _ & H1 & H2). destruct (t_keys _ _ _ _ R _ _ Hm') as (_ & y & _ & _ & H3 & H4).
  assert (e = e') as <-; [|done]. congruence.
Qed.
End Iterate.

(** The iteration over a table meets every entry exactly once: the keys and data
    it sees are those of the map, in some order. *)
Theorem hash_iteration st t m : table st t m ->
  exists l, FOR_EACH_HTAB_ENTRY st t = Some l /\ l ≡ₚ map_to_list m.
Proof.
  intros (A & M & K & R & N & Hm). eexists. split; [by eapply for_each_all|].
  pose proof (all_entries A st t M K R) as Al. apply NoDup_Permutation.
  - eapply pairs_nodup; [exact K|exact R|by eapply all_from_nodup|]. intros e. by apply Al.
  - apply NoDup_map_to_list.
  - intros [k d]. rewrite elem_of_map_to_list, pairs_in, Hm. split.
    + intros (e & ent & [k' Hk]%Al & E & H1 & H2). destruct (t_keys _ _ _ _ R _ _ Hk) as (_ & x & _ & _ & H3 & H4).
      rewrite E in H3. injection H3 as <-. rewrite <- H4, H1 in Hk. rewrite Hk. cbn. rewrite E. by rewrite <- H2.
    + destruct (M !! k) as [e|] eqn:Hk; cbn; [|done]. destruct (t_keys _ _ _ _ R _ _ Hk) as (_ & x & _ & _ & H3 & H4).
      rewrite H3. intros [= <-]. exists e, x. split; [apply Al; eauto|done].
Qed.
End HashFacts.

(** ** Witnesses *)

Definition empty_store : @store Z := mkStore ∅ ∅ 1.

Lemma empty_ok : heap_ok ∅ empty_store.
Proof.
  constructor; cbn; [|intros p xs; by rewrite lookup_empty|intros a Ha; by rewrite !lookup_empty|lia].
  split; intros *; by rewrite lookup_empty.
Qed.

Definition key_a : cstr := ["a"%char].
Definition key_b : cstr := ["b"%char].

Lemma hash_refines_map_witness : exists st' t',
  exec_all [Add key_a (Some 1); Add key_b (Some 2); Get key_a; Add key_a None; Remove key_b; Get key_b; Get key_a]
    (fst (h_initTab_ empty_store 4)) (snd (h_initTab_ empty_store 4))
  = Some ([(Entered true, 1); (Entered true, 2); (Found (Some (Some 1)), 2); (Entered false, 2); (Removed true, 1);
           (Found None, 1); (Found (Some None), 1)], st', t')
  /\ numEnts t' = 1.
Proof.
  destruct (hash_refines_map empty_store 4 [Add key_a (Some 1); Add key_b (Some 2); Get key_a; Add key_a None; Remove key_b; Get key_b; Get key_a])
    as (st' & t' & E & N & _); [exact empty_ok|cbn; lia|]. exists st', t'. split; [exact E|exact N].
Defined.

Lemma hash_iteration_witness : exists st t l,
  exec (Add key_a (Some 1)) (fst (h_initTab_ empty_store 4)) (snd (h_initTab_ empty_store 4)) = Some (Entered true, st, t)
  /\ FOR_EACH_HTAB_ENTRY st t = Some l /\ l ≡ₚ map_to_list (<[key_a := Some 1]> ∅ : gmap cstr (option Z)).
Proof.
  destruct (exec_table_spec _ _ ∅ (Add key_a (Some 1)) (init_table empty_store 4 empty_ok)) as (st & t & E & T); [by rewrite map_size_empty|].
  destruct (hash_iteration st t _ T) as (l & E1 & P). exists st, t, l. split; [exact E|]. split; [exact E1|exact P].
Defined.
