(* ===== verification/JobArray.v ===== *)
(** * Index lists of job arrays (lsbatch/daemons/mbd.jarray.c, lsf/intlib/idx.y,
    lsf/intlib/cal.l)

    A job array is named [name[indices]%limit].  [idxparse] is the parser that
    yacc makes of [idx.y] (in [jidx.c]) over the lexical rules of [cal.l] (in
    [callex.c]); [parseJobArrayIndex] checks and completes what it returns.
    The daemon's configuration is a parameter: [maxJobArraySize], and whether it
    is replaying its log ([mSchedStage == M_STAGE_REPLAY]). *)
From Stdlib Require Import ZArith Ascii String List Bool Lia.
From S2P Require Import Prelude JobId CNum.
Import ListNotations.
Local Open Scope Z_scope.

Definition INFINIT_INT : Z := 0x7fffffff.

(** [atoi(s)] of the C library: 0 without a number. *)
Definition atoi (s : cstr) : Z := match scan_int s with Some (v, _) => v | None => 0 end.

(** [isint_] of [lsf/lib/lib.misc.c]: [strtol] reads the whole word without
    leaving the range of [long]; the value is narrowed to [int] before it is
    compared with [-INFINIT_INT]. *)
Definition isint_ (word : cstr) : bool :=
  let '(neg, s1) := scan_sign (skip_space word) in
  let '(v, k, r) := scan_digits 0 0 s1 in
  let n := if neg then - v else v in
  match k, r with
  | S _, [] => (clamp64 n =? n) && (- INFINIT_INT <? wrap32 n)
  | _, _ => false
  end.

(** ** Lexical analysis: cal.l *)

(** The tokens of the grammar; [BAD] is any token that no rule of [idx.y] has. *)
Inductive token := ICON (text : cstr) | CH (c : ascii) | BAD.

(** [{white_space}+] *)
Definition white_space (c : ascii) : bool :=
  Ascii.eqb c SP || Ascii.eqb c "009" || Ascii.eqb c NL.

(** A comment from slash and star to the last star and slash of the line: the
    text after it. *)
Fixpoint comment_end (s : cstr) : option cstr :=
  match s with
  | c :: s' =>
      if Ascii.eqb c NL then None
      else
        match comment_end s' with
        | Some r => Some r
        | None =>
            match s' with
            | c2 :: r => if Ascii.eqb c "*" && Ascii.eqb c2 "/" then Some r else None
            | [] => None
            end
        end
  | [] => None
  end.

Fixpoint digits (s : cstr) : cstr * cstr :=
  match s with
  | c :: s' => if isdigit c then let '(d, r) := digits s' in (c :: d, r) else ([], s)
  | [] => ([], [])
  end.

Definition idx_char (c : ascii) : bool :=
  existsb (Ascii.eqb c) ["["%char; "]"%char; ","%char; ":"%char; "-"%char; "%"%char].

(** The tokens of a text, up to the first [BAD] one: no production of the
    grammar recovers from it.  The fuel is the number of characters. *)
Fixpoint yylex (fuel : nat) (s : cstr) : list token :=
  match fuel, s with
  | S f, c :: s' =>
      if white_space c || Ascii.eqb c "#" then yylex f s'
      else if Ascii.eqb c "/" then
        match s' with
        | c2 :: s2 =>
            if Ascii.eqb c2 "*"
            then match comment_end s2 with Some r => yylex f r | None => [BAD] end
            else [BAD]
        | [] => [BAD]
        end
      else if isdigit c then
        let '(d, r) := digits s in
        match r with
        | c2 :: _ => if Ascii.eqb c2 "." then [BAD] else ICON d :: yylex f r
        | [] => [ICON d]
        end
      else if idx_char c then CH c :: yylex f s'
      else [BAD]
  | _, _ => []
  end.

(** ** The grammar: idx.y *)

Record idxList := mkIdx { start : Z; end_ : Z; step : Z }.

(** States on the stack of the parser, [YYMAXDEPTH] at most. *)
Definition YYMAXDEPTH : nat := 150.

Definition is_ch (c : ascii) (t : token) : bool := match t with CH d => Ascii.eqb c d | _ => false end.

Definition if_room {A} (slot : nat) (x : option A) : option A :=
  if (slot <? YYMAXDEPTH)%nat then x else None.

(** [region]; [b] is the place of its first token on the stack. *)
Definition region (b : nat) (ts : list token) : option (Z * Z * list token) :=
  match ts with
  | ICON x :: m :: ts1 =>
      if is_ch "-" m then
        match ts1 with
        | ICON y :: ts2 => if_room (b + 2) (Some (atoi x, atoi y, ts2))
        | _ => if_room (b + 1) (Some (atoi x, INFINIT_INT, ts1))
        end
      else if_room b (Some (atoi x, atoi x, m :: ts1))
  | [ICON x] => if_room b (Some (atoi x, atoi x, []))
  | m :: ICON y :: ts1 => if is_ch "-" m then if_room (b + 1) (Some (1, atoi y, ts1)) else None
  | _ => None
  end.

(** [index], with the check of its bounds. *)
Definition index (b : nat) (ts : list token) : option (idxList * list token) :=
  match region b ts with
  | None => None
  | Some (s, e, ts1) =>
      match
        match ts1 with
        | m :: ts2 =>
            if is_ch ":" m then
              match ts2 with
              | ICON x :: ts3 => if_room (b + 2) (Some (atoi x, ts3))
              | _ => None
              end
            else Some (1, ts1)
        | [] => Some (1, [])
        end
      with
      | None => None
      | Some (st, ts3) =>
          if (s <? 1) || (e <? s) || (st <=? 0) then None else Some (mkIdx s e st, ts3)
      end
  end.

(** [indcies] and the closing bracket.  Every index takes a token, so the number
    of tokens is enough fuel. *)
Fixpoint indcies (fuel : nat) (b : nat) (ts : list token) : option (list idxList * list token) :=
  match fuel with
  | O => None
  | S f =>
      match index b ts with
      | Some (i, m :: ts1) =>
          if is_ch "]" m then Some ([i], ts1)
          else if is_ch "," m then
            match if_room (b + 1) (indcies f (b + 2) ts1) with
            | Some (l, ts2) => Some (i :: l, ts2)
            | None => None
            end
          else None
      | _ => None
      end
  end.

(** [idxparse]: the list and the limit behind ['%'], or an error. *)
Definition idxparse (yybuff : cstr) : option (list idxList * Z) :=
  match yylex (length yybuff) yybuff with
  | m :: ts =>
      if is_ch "[" m then
        match indcies (length ts) 2 ts with
        | Some (l, []) => Some (l, INFINIT_INT)
        | Some (l, [p; ICON x]) => if is_ch "%" p then Some (l, atoi x) else None
        | _ => None
        end
      else None
  | [] => None
  end.

(** ** mbd.jarray.c *)

Inductive lsbe :=
| LSBE_NO_ERROR | LSBE_NO_JOB | LSBE_BAD_JOB | LSBE_BAD_IDX | LSBE_BIG_IDX | LSBE_BAD_JOBID
| LSBE_DEPEND_SYNTAX | LSBE_ARRAY_NULL | LSBE_DEP_ARRAY_SIZE.

Record config := mkConfig { maxJobArraySize : Z; replay : bool; jobDepLastSub : bool }.

Section Config.
Context (cf : config).

(** The end of an index without upper bound. *)
Definition close_end (i : idxList) : idxList :=
  if end_ i =? INFINIT_INT
  then mkIdx (start i) (wrap32 (start i + wrap32 (wrap32 (maxJobArraySize cf - 1) * step i))) (step i)
  else i.

Definition idx_error (i : idxList) (error : lsbe) : lsbe :=
  let error := if (start i <? 1) || (step i <? 1) then LSBE_BAD_IDX else error in
  let error := if end_ i <? start i then LSBE_BAD_IDX else error in
  if negb (replay cf) && (LSB_MAX_ARRAY_IDX <=? end_ i) then LSBE_BIG_IDX else error.

Definition idx_size (i : idxList) : Z := wrap32 (Z.quot (wrap32 (end_ i - start i)) (step i) + 1).

(** The loop over the list: the list with its ends, the error and [arraySize]. *)
Fixpoint check_indices (l : list idxList) (error : lsbe) (arraySize : Z) : list idxList * lsbe * Z :=
  match l with
  | [] => ([], error, arraySize)
  | i :: l' =>
      let i' := close_end i in
      let '(r, e, n) := check_indices l' (idx_error i' error) (wrap32 (arraySize + idx_size i')) in
      (i' :: r, e, n)
  end.

Fixpoint strchr (c : ascii) (s : cstr) : option cstr :=
  match s with
  | d :: s' => if Ascii.eqb d c then Some s else strchr c s'
  | [] => None
  end.

(** The list, empty for NULL, [*error], and [*maxJLimit] when it is set. *)
Definition parseJobArrayIndex (job_name : cstr) : list idxList * lsbe * option Z :=
  match strchr "[" job_name with
  | None => ([], LSBE_NO_ERROR, None)
  | Some yybuff =>
      match idxparse yybuff with
      | None => ([], LSBE_BAD_JOB, Some INFINIT_INT)
      | Some (l, limit) =>
          let '(l', error, arraySize) := check_indices l LSBE_NO_ERROR 0 in
          let error := if negb (replay cf) && (maxJobArraySize cf <? arraySize) then LSBE_BIG_IDX else error in
          match error with
          | LSBE_NO_ERROR => (l', LSBE_NO_ERROR, Some limit)
          | _ => ([], error, Some limit)
          end
      end
  end.

(** ** Membership and enumeration *)

Definition in_idx (x : Z) (i : idxList) : bool :=
  negb ((x <? start i) || (end_ i <? x)) && (Z.rem (x - start i) (step i) =? 0).

(** NULL stands for all indices. *)
Definition inIdxList (jobId : Z) (l : list idxList) : bool :=
  match l with
  | [] => true
  | _ => existsb (in_idx (LSB_ARRAY_IDX jobId)) l
  end.

(** [for (j = start; j <= end; j += step)]: the values of [j], or those before an
    overflow of [j].  The fuel is used up only when [step < 1]. *)
Inductive loop := Values (l : list Z) | Overflow (l : list Z) | NoFuel.

Definition lcons (x : Z) (r : loop) : loop :=
  match r with Values l => Values (x :: l) | Overflow l => Overflow (x :: l) | NoFuel => NoFuel end.

Fixpoint idx_loop (fuel : nat) (j e st : Z) : loop :=
  match fuel with
  | O => NoFuel
  | S f => if j <=? e then lcons j (if int32b (j + st) then idx_loop f (j + st) e st else Overflow [])
           else Values []
  end.

Definition idx_values (i : idxList) : loop :=
  idx_loop (Z.to_nat (end_ i - start i + 2)) (start i) (end_ i) (step i).

Definition MAX_JOB_IDS : nat := 50.

(** The search among the numbers already stored, and the new one behind them. *)
Definition add_new (ids : list Z) (x : Z) : list Z :=
  if existsb (Z.eqb x) ids then ids else ids ++ [x].

Fixpoint collect (jobId : Z) (l : list idxList) (ids : list Z) : loop :=
  match l with
  | [] => Values ids
  | i :: l' =>
      match idx_values i with
      | Values js => collect jobId l' (fold_left add_new (map (LSB_JOBID jobId) js) ids)
      | r => r
      end
  end.

(** [getJobIdIndexList]: an error, or the number of the job and the indices. *)
Definition getJobIdIndexList (jobIdStr : cstr) : lsbe + (Z * list idxList) :=
  match strchr "[" jobIdStr with
  | None =>
      let jobId := atoi jobIdStr in
      if negb (isint_ jobIdStr) || (jobId <? 0) then inl LSBE_BAD_JOBID else inr (jobId, [])
  | Some idx =>
      let word := firstn (length jobIdStr - length idx) jobIdStr in
      let jobId := atoi word in
      if negb (isint_ word) || (jobId <=? 0) || (LSB_MAX_ARRAY_JOBID <? jobId) then inl LSBE_BAD_JOBID
      else
        match parseJobArrayIndex jobIdStr with
        | ([], LSBE_NO_ERROR, _) => inr (jobId, [])
        | ([], e, _) => inl e
        | (l, _, _) => inr (jobId, l)
        end
  end.

(** [getJobIdList]: an error, or the identifiers; the inner result is that of the
    loops. *)
Definition getJobIdList (jobIdStr : cstr) : lsbe + loop :=
  match getJobIdIndexList jobIdStr with
  | inl e => inl e
  | inr (jobId, l) =>
      if jobId <=? 0 then inl LSBE_BAD_JOBID
      else
        match l with
        | [] => inr (Values [jobId])
        | _ => inr (collect jobId l [])
        end
  end.
End Config.

(** ** Lemmas: the loops over the indices *)

Lemma idx_loop_spec fuel j e st : 1 <= st -> e + st < 2 ^ 31 -> - 2 ^ 31 <= j -> (Z.to_nat (e - j + 1) < fuel)%nat ->
  exists l, idx_loop fuel j e st = Values l
    /\ (forall x, In x l <-> j <= x <= e /\ (x - j) mod st = 0).
Proof.
  intros Hst He. revert j; induction fuel as [|f IH]; intros j Hj Hf; [lia|]. cbn [idx_loop].
  destruct (Z.leb_spec j e) as [L|L].
  - assert (R : int32b (j + st) = true) by (apply int32b_spec; unfold int32; lia). rewrite R.
    destruct (IH (j + st)) as (l & -> & Hl); [lia|lia|]. exists (j :: l). split; [reflexivity|].
    intros x. cbn [In]. rewrite Hl. replace (x - j) with (x - (j + st) + 1 * st) by lia.
    rewrite Z.mod_add by lia. split.
    + intros [<-|[? ?]]; [|lia]. split; [lia|]. replace (j - (j + st)) with ((-1) * st) by lia.
      apply Z.mod_mul. lia.
    + intros [B M]. destruct (Z.eq_dec j x) as [|N]; [now left|right]. split; [|exact M].
      split; [|lia]. apply Z.mod_divide in M as [q Hq]; [|lia].
      assert (0 < q + 1) by (apply (Z.mul_pos_cancel_r (q + 1) st); lia). nia.
  - exists []. split; [reflexivity|]. intros x. cbn. lia.
Qed.

(** An index whose loop does not overflow. *)
Definition idx_ok (i : idxList) : bool :=
  (1 <=? start i) && (start i <=? end_ i) && (end_ i <? LSB_MAX_ARRAY_IDX) && (1 <=? step i).

Definition step_fits (i : idxList) : bool := end_ i + step i <? 2 ^ 31.

Lemma in_idx_spec x i : idx_ok i = true ->
  in_idx x i = true <-> start i <= x <= end_ i /\ (x - start i) mod step i = 0.
Proof.
  unfold idx_ok, in_idx. intros H. bool_split. rewrite andb_true_iff, negb_true_iff, orb_false_iff.
  rewrite !Z.ltb_ge, Z.eqb_eq. split.
  - intros [[? ?] R]. split; [lia|]. now rewrite <- Z.rem_mod_nonneg by lia.
  - intros [? M]. split; [lia|]. now rewrite Z.rem_mod_nonneg by lia.
Qed.

Lemma idx_values_spec i : idx_ok i = true -> step_fits i = true ->
  exists l, idx_values i = Values l /\ (forall x, In x l <-> in_idx x i = true).
Proof.
  intros H S. pose proof (fun x => in_idx_spec x i H) as E. unfold idx_ok, step_fits in *. bool_split.
  destruct (idx_loop_spec (Z.to_nat (end_ i - start i + 2)) (start i) (end_ i) (step i)) as (l & R & Hl);
    [lia|lia|lia|lia|]. exists l. split; [exact R|]. intros x. now rewrite Hl, E.
Qed.

Lemma add_new_in ids x y : In y (add_new ids x) <-> In y ids \/ y = x.
Proof.
  unfold add_new. destruct (existsb (Z.eqb x) ids) eqn:E.
  - apply existsb_exists in E as (z & Hz & Ez%Z.eqb_eq). subst z. split; [auto|]. intros [?| ->]; auto.
  - rewrite in_app_iff. cbn. intuition.
Qed.

Lemma add_new_nodup ids x : NoDup ids -> NoDup (add_new ids x).
Proof.
  unfold add_new. intros H. destruct (existsb (Z.eqb x) ids) eqn:E; [exact H|].
  apply NoDup_app; [exact H|repeat constructor; auto|]. intros y Hy [<-|[]].
  assert (existsb (Z.eqb x) ids = true) by (apply existsb_exists; exists x; split; [exact Hy|apply Z.eqb_refl]).
  congruence.
Qed.

Lemma fold_add_new xs ids : NoDup ids ->
  NoDup (fold_left add_new xs ids) /\ (forall y, In y (fold_left add_new xs ids) <-> In y ids \/ In y xs).
Proof.
  revert ids; induction xs as [|x xs IH]; intros ids H; cbn [fold_left].
  - split; [exact H|]. cbn. intuition.
  - destruct (IH (add_new ids x) (add_new_nodup ids x H)) as [N E]. split; [exact N|].
    intros y. rewrite E, add_new_in. cbn. intuition.
Qed.

(** [collect] gives every identifier once. *)
Lemma collect_spec jobId l ids : NoDup ids -> forallb idx_ok l = true -> forallb step_fits l = true ->
  exists r, collect jobId l ids = Values r /\ NoDup r
    /\ (forall y, In y r <-> In y ids \/ exists j, y = LSB_JOBID jobId j /\ existsb (in_idx j) l = true).
Proof.
  revert ids; induction l as [|i l IH]; intros ids N H S; cbn [collect forallb] in *.
  - exists ids. split; [reflexivity|]. split; [exact N|]. intros y. split; [auto|].
    intros [?|(j & _ & ?)]; [assumption|discriminate].
  - bool_split. destruct (idx_values_spec i) as (js & -> & Hj); [assumption..|].
    destruct (fold_add_new (map (LSB_JOBID jobId) js) ids N) as [N' E].
    destruct (IH _ N' H2 H1) as (r & -> & Nr & Er). exists r. split; [reflexivity|]. split; [exact Nr|].
    intros y. rewrite Er, E, in_map_iff. cbn [existsb]. split.
    + intros [[?|(j & <- & Hin)]|(j & -> & Hin)]; [now left|right; exists j|right; exists j].
      * split; [reflexivity|]. apply Hj in Hin. now rewrite Hin.
      * split; [reflexivity|]. now rewrite Hin, orb_true_r.
    + intros [?|(j & -> & [Hin|Hin]%orb_true_iff)]; [auto|left; right|right].
      * exists j. split; [reflexivity|]. now apply Hj.
      * eauto.
Qed.

(** ** Lemmas: the checks *)

Lemma idx_error_ok cf i e : idx_error cf i e = LSBE_NO_ERROR ->
  e = LSBE_NO_ERROR /\ (replay cf = false -> idx_ok i = true).
Proof.
  unfold idx_error, idx_ok.
  destruct (Z.ltb_spec (start i) 1), (Z.ltb_spec (step i) 1), (Z.ltb_spec (end_ i) (start i)),
    (Z.leb_spec LSB_MAX_ARRAY_IDX (end_ i)), (replay cf); cbn; intros E; try discriminate;
    (split; [exact E|]); intros R; try discriminate; rewrite !andb_true_iff, !Z.leb_le, Z.ltb_lt; lia.
Qed.

Lemma idx_ok_error cf i e : idx_ok i = true -> idx_error cf i e = e.
Proof.
  unfold idx_error, idx_ok. intros H. bool_split.
  destruct (Z.ltb_spec (start i) 1), (Z.ltb_spec (step i) 1), (Z.ltb_spec (end_ i) (start i)),
    (Z.leb_spec LSB_MAX_ARRAY_IDX (end_ i)); try lia. now rewrite andb_false_r.
Qed.

Lemma check_indices_ok cf l l' e n n' : check_indices cf l e n = (l', LSBE_NO_ERROR, n') ->
  e = LSBE_NO_ERROR /\ (replay cf = false -> forallb idx_ok l' = true).
Proof.
  revert l' e n; induction l as [|i l IH]; intros l' e n; cbn [check_indices].
  - intros [= <- -> <-]. auto.
  - destruct (check_indices cf l _ _) as [[r e'] m] eqn:E. intros [= <- -> <-].
    apply IH in E as [E F]. apply idx_error_ok in E as [-> O]. split; [reflexivity|].
    intros R. cbn. now rewrite (O R), (F R).
Qed.

(** What [parseJobArrayIndex] returns satisfies the bounds, outside the replay. *)
Lemma parseJobArrayIndex_ok cf s l m : replay cf = false ->
  parseJobArrayIndex cf s = (l, LSBE_NO_ERROR, m) -> forallb idx_ok l = true.
Proof.
  intros R. unfold parseJobArrayIndex. destruct (strchr "[" s) as [b|]; [|now intros [= <- _]].
  destruct (idxparse b) as [[l0 lim]|]; [|discriminate].
  destruct (check_indices cf l0 LSBE_NO_ERROR 0) as [[l' e] n] eqn:E. rewrite R. cbn [negb andb].
  destruct (maxJobArraySize cf <? n); [discriminate|].
  destruct e; try discriminate. intros [= <- _]. now apply check_indices_ok in E as [_ F]; auto.
Qed.

(** ** Lemmas: the text of a list *)

Definition show_idx (i : idxList) : cstr := dec (start i) ++ "-"%char :: dec (end_ i) ++ ":"%char :: dec (step i).

(** [i,j,...] *)
Fixpoint show_list (i : idxList) (l : list idxList) : cstr :=
  show_idx i ++ match l with [] => [] | j :: l' => ","%char :: show_list j l' end.

Definition show_limit (m : Z) : cstr := if m =? INFINIT_INT then [] else "%"%char :: dec m.

Definition show_array (i : idxList) (l : list idxList) (m : Z) : cstr :=
  "["%char :: show_list i l ++ "]"%char :: show_limit m.

Definition lex (s : cstr) : list token := yylex (length s) s.

Lemma comment_end_shorter s r : comment_end s = Some r -> (length r < length s)%nat.
Proof.
  revert r; induction s as [|c s IH]; intros r; cbn; [discriminate|].
  destruct (Ascii.eqb c NL); [discriminate|].
  destruct (comment_end s) as [x|]; [intros [= <-]; specialize (IH x eq_refl); lia|].
  destruct s as [|c2 s]; [discriminate|]. destruct (_ && _); [intros [= <-]; cbn; lia|discriminate].
Qed.

Lemma digits_split s : let '(d, r) := digits s in s = d ++ r.
Proof.
  induction s as [|c s IH]; [reflexivity|]. cbn. destruct (isdigit c); [|reflexivity].
  destruct (digits s). now rewrite IH.
Qed.

Lemma yylex_fuel f s : (length s <= f)%nat -> yylex f s = lex s.
Proof.
  unfold lex. revert s; induction f as [f IH] using lt_wf_ind; intros s H.
  assert (IH' : forall g t, (g < f)%nat -> (length t <= g)%nat -> (length t < f)%nat -> yylex g t = yylex (length t) t)
    by (intros; apply IH; auto).
  destruct s as [|c s]; [destruct f; reflexivity|]. destruct f as [|f]; [cbn in H; lia|].
  cbn in H. cbn [yylex length].
  destruct (white_space c || Ascii.eqb c "#"); [apply IH'; lia|].
  destruct (Ascii.eqb c "/").
  { destruct s as [|c2 s2]; [reflexivity|]. destruct (Ascii.eqb c2 "*"); [|reflexivity].
    destruct (comment_end s2) as [r|] eqn:E; [|reflexivity]. apply comment_end_shorter in E. cbn [length] in H |- *.
    transitivity (yylex (length r) r); [|symmetry]; apply IH'; lia. }
  destruct (isdigit c) eqn:D.
  { pose proof (digits_split (c :: s)) as P. cbn [digits] in P |- *. rewrite D in P |- *.
    destruct (digits s) as [d r]. injection P as ->. rewrite length_app in *.
    destruct r as [|c2 r]; [reflexivity|]. destruct (Ascii.eqb c2 "."); [reflexivity|].
    cbn [length] in *. f_equal. transitivity (yylex (length (c2 :: r)) (c2 :: r)); [|symmetry]; apply IH'; cbn [length]; lia. }
  destruct (idx_char c); [|reflexivity]. f_equal. apply IH'; lia.
Qed.

Lemma lex_ch c s : idx_char c = true -> lex (c :: s) = CH c :: lex s.
Proof.
  unfold idx_char. intros H. apply existsb_exists in H as (d & Hd & E%Ascii.eqb_eq). subst d.
  cbn in Hd. repeat destruct Hd as [<-|Hd]; try easy; reflexivity.
Qed.

(** A character that ends a number. *)
Definition stops (r : cstr) : Prop :=
  match r with c :: _ => isdigit c = false /\ Ascii.eqb c "." = false | [] => True end.

Lemma digits_app d r : forallb isdigit d = true -> stops r -> digits (d ++ r) = (d, r).
Proof.
  intros H S. induction d as [|c d IH]; cbn in H |- *.
  - destruct r as [|c r]; [reflexivity|]. cbn. now rewrite (proj1 S).
  - bool_split. now rewrite H, IH.
Qed.

Lemma lex_dec z r : 0 <= z -> stops r -> lex (dec z ++ r) = ICON (dec z) :: lex r.
Proof.
  intros Hz S. rewrite dec_signed. destruct (Z.ltb_spec z 0); [lia|]. rewrite Z.abs_eq by lia. cbn [signed].
  pose proof (unat_digits z Hz) as D. destruct (unat_cons z Hz) as (c & t & E & Dc).
  unfold lex at 1. pose proof (digits_app (unat z) r D S) as P. rewrite E in *. cbn [app] in P |- *. cbn [length yylex].
  assert (W : white_space c || Ascii.eqb c "#" = false /\ Ascii.eqb c "/" = false).
  { clear - Dc. unfold isdigit, white_space in *. destruct c as [[] [] [] [] [] [] [] []]; cbn in Dc; easy. }
  destruct W as [-> ->]. rewrite Dc, P. destruct r as [|c2 r]; [reflexivity|].
  rewrite (proj2 S). f_equal. apply yylex_fuel. rewrite length_app. cbn. lia.
Qed.

Lemma lex_idx i r : 0 <= start i -> 0 <= end_ i -> 0 <= step i -> stops r ->
  lex (show_idx i ++ r)
  = ICON (dec (start i)) :: CH "-" :: ICON (dec (end_ i)) :: CH ":" :: ICON (dec (step i)) :: lex r.
Proof.
  intros. unfold show_idx. rewrite <- app_assoc. cbn [app]. rewrite <- app_assoc. cbn [app].
  rewrite lex_dec, lex_ch, lex_dec, lex_ch, lex_dec; auto; now split.
Qed.

Lemma atoi_dec z : int32 z -> atoi (dec z) = z.
Proof. intros H. unfold atoi. rewrite <- (app_nil_r (dec z)), scan_int_dec; [reflexivity|exact H|exact I]. Qed.

Lemma isint_dec z : int32 z -> - INFINIT_INT < z -> isint_ (dec z) = true.
Proof.
  intros H L. unfold isint_. rewrite <- (app_nil_r (dec z)).
  rewrite dec_signed, skip_space_sign, scan_sign_signed, scan_digits_unat by lia. cbn [scan_digits].
  destruct (unat_cons (Z.abs z)) as (c & t & -> & _); [lia|]. cbn [length].
  assert ((if z <? 0 then - Z.abs z else Z.abs z) = z) as ->.
  { destruct (Z.ltb_spec z 0); lia. }
  rewrite clamp64_id, wrap32_id by assumption. rewrite Z.eqb_refl. now apply Z.ltb_lt.
Qed.

(** An index that is written and read back: the bounds, and a step that is an [int]. *)
Definition idx_text_ok (i : idxList) : bool := idx_ok i && (step i <? 2 ^ 31).

Lemma index_text b i r : idx_text_ok i = true -> (b + 2 < YYMAXDEPTH)%nat ->
  index b (ICON (dec (start i)) :: CH "-" :: ICON (dec (end_ i)) :: CH ":" :: ICON (dec (step i)) :: r)
  = Some (i, r).
Proof.
  unfold idx_text_ok, idx_ok. intros H Hb. bool_split. change LSB_MAX_ARRAY_IDX with 65535 in *.
  assert (R : (b + 2 <? YYMAXDEPTH)%nat = true) by now apply Nat.ltb_lt.
  unfold index. cbn [region is_ch Ascii.eqb Bool.eqb andb]. unfold if_room. rewrite R.
  rewrite !atoi_dec by (unfold int32; lia).
  destruct (Z.ltb_spec (start i) 1), (Z.ltb_spec (end_ i) (start i)), (Z.leb_spec (step i) 0); try lia.
  destruct i; cbn in *. destruct (Z.leb_spec step0 0); [lia|reflexivity].
Qed.

(** Room for the list: two states of the stack for each index. *)
Definition MAX_INDICES : nat := 73.

Lemma indcies_text i l r fuel b : forallb idx_text_ok (i :: l) = true ->
  (b + 2 * length l + 2 < YYMAXDEPTH)%nat -> (length l < fuel)%nat ->
  indcies fuel b (lex (show_list i l ++ "]"%char :: r)) = Some (i :: l, lex r).
Proof.
  revert i fuel b; induction l as [|j l IH]; intros i fuel b H Hb Hf; cbn [forallb] in H; bool_split;
    pose proof H as O; unfold idx_text_ok, idx_ok in O; bool_split;
    (destruct fuel as [|fuel]; [cbn in Hf; lia|]); cbn [show_list]; rewrite <- app_assoc; cbn [app];
    rewrite lex_idx by (try lia; now split); rewrite lex_ch by reflexivity; cbn [indcies];
    rewrite index_text by (cbn [length] in *; auto; lia); cbn [is_ch Ascii.eqb Bool.eqb andb].
  - reflexivity.
  - unfold if_room. cbn [length] in *. destruct (Nat.ltb_spec (b + 1) YYMAXDEPTH); [|lia].
    rewrite IH; [reflexivity|cbn [forallb]; now rewrite andb_true_iff|lia|lia].
Qed.

Lemma tokens_enough i l r :
  (2 * length l < length (lex (show_list i l ++ "]"%char :: r)))%nat \/ forallb idx_text_ok (i :: l) = false.
Proof.
  revert i; induction l as [|j l IH]; intros i; cbn [show_list forallb];
    (destruct (idx_text_ok i) eqn:O; [|now right]); unfold idx_text_ok, idx_ok in O; bool_split;
    rewrite <- app_assoc; cbn [app]; rewrite lex_idx by (try lia; now split); rewrite lex_ch by reflexivity.
  - left. cbn. lia.
  - destruct (IH j) as [L|F]; [left; cbn [length]; lia|right; exact F].
Qed.

Lemma idxparse_text i l m : forallb idx_text_ok (i :: l) = true -> (length l < MAX_INDICES)%nat -> 0 <= m -> int32 m ->
  idxparse (show_array i l m) = Some (i :: l, m).
Proof.
  unfold MAX_INDICES. intros H Hl Hm Hi. unfold idxparse. change (yylex _ (show_array i l m)) with (lex (show_array i l m)).
  unfold show_array. rewrite lex_ch by reflexivity. cbn [is_ch Ascii.eqb Bool.eqb andb].
  destruct (tokens_enough i l (show_limit m)) as [L|F]; [|congruence].
  rewrite indcies_text by (unfold YYMAXDEPTH; auto; lia).
  unfold show_limit. destruct (Z.eqb_spec m INFINIT_INT) as [->|_]; [reflexivity|].
  rewrite lex_ch by reflexivity. rewrite <- (app_nil_r (dec m)), lex_dec by now auto.
  cbn. now rewrite atoi_dec.
Qed.

(** The size of the array as the daemon counts it. *)
Definition total (l : list idxList) : Z := fold_right (fun i n => (end_ i - start i) / step i + 1 + n) 0 l.

Lemma idx_size_ok i : idx_ok i = true -> idx_size i = (end_ i - start i) / step i + 1
  /\ 1 <= (end_ i - start i) / step i + 1 <= LSB_MAX_ARRAY_IDX.
Proof.
  unfold idx_ok, idx_size. intros H. bool_split. change LSB_MAX_ARRAY_IDX with 65535 in *.
  rewrite (wrap32_id (end_ i - start i)) by (unfold int32; lia). rewrite Z.quot_div_nonneg by lia.
  assert (0 <= (end_ i - start i) / step i) by (apply Z.div_pos; lia).
  assert ((end_ i - start i) / step i <= end_ i - start i) by (apply Z.div_le_upper_bound; nia).
  rewrite wrap32_id by (unfold int32; lia). lia.
Qed.

Lemma check_indices_text cf l n : forallb idx_ok l = true -> 0 <= n -> n + 65535 * Z.of_nat (length l) < 2 ^ 31 ->
  check_indices cf l LSBE_NO_ERROR n = (l, LSBE_NO_ERROR, n + total l).
Proof.
  revert n; induction l as [|i l IH]; intros n H Hn Hb; cbn [check_indices forallb total fold_right length] in *.
  - now rewrite Z.add_0_r.
  - bool_split. destruct (idx_size_ok i) as [E B]; [assumption|]. change LSB_MAX_ARRAY_IDX with 65535 in B.
    assert (C : close_end cf i = i).
    { unfold close_end. destruct (Z.eqb_spec (end_ i) INFINIT_INT) as [F|_]; [|reflexivity].
      unfold idx_ok in H. bool_split. rewrite F in *. discriminate. }
    rewrite C, idx_ok_error, E, wrap32_id by (unfold int32; auto; lia). rewrite IH by (auto; lia).
    f_equal. unfold total. cbn [fold_right]. lia.
Qed.

Definition no_bracket (s : cstr) : bool := forallb (fun c => negb (Ascii.eqb c "[")) s.

Lemma strchr_app c s r : forallb (fun d => negb (Ascii.eqb d c)) s = true -> strchr c (s ++ c :: r) = Some (c :: r).
Proof.
  induction s as [|d s IH]; cbn; intros H; [now rewrite Ascii.eqb_refl|].
  bool_split. apply negb_true_iff in H. rewrite H. auto.
Qed.

Example parse_ex :
  parseJobArrayIndex (mkConfig 1000 false false) (cs "sim[1-3, 10-20:5, 7]%4")
  = ([mkIdx 1 3 1; mkIdx 10 20 5; mkIdx 7 7 1], LSBE_NO_ERROR, Some 4).
Proof. vm_compute. reflexivity. Qed.

Example ids_ex :
  getJobIdList (mkConfig 1000 false false) (cs "17[1-3,2-6:2]")
  = inr (Values (map (LSB_JOBID 17) [1; 2; 3; 4; 6])).
Proof. vm_compute. reflexivity. Qed.

(** ** Properties *)

(** C34: The name of a job array, written as [name[s-e:k,...]%m], is parsed back to
    its index list and its limit, for every list of at most 73 indices that
    satisfies the bounds of the daemon. *)
Theorem array_name_roundtrip cf name i l m :
  no_bracket name = true -> forallb idx_text_ok (i :: l) = true -> (length l < MAX_INDICES)%nat ->
  0 <= m < 2 ^ 31 -> total (i :: l) <= maxJobArraySize cf ->
  parseJobArrayIndex cf (name ++ show_array i l m) = (i :: l, LSBE_NO_ERROR, Some m).
Proof.
  intros Hn Hi Hl Hm Ht. unfold parseJobArrayIndex, show_array.
  rewrite (strchr_app "[" name) by exact Hn. fold (show_array i l m).
  rewrite idxparse_text by (unfold int32; auto; lia).
  assert (K : forallb idx_ok (i :: l) = true).
  { apply forallb_forall. intros x Hx. rewrite forallb_forall in Hi. specialize (Hi x Hx).
    unfold idx_text_ok in Hi. now bool_split. }
  unfold MAX_INDICES in Hl. rewrite check_indices_text by (auto; cbn [length]; lia).
  rewrite Z.add_0_l. destruct (Z.ltb_spec (maxJobArraySize cf) (total (i :: l))); [lia|].
  now rewrite andb_false_r.
Qed.

Lemma array_name_roundtrip_witness :
  parseJobArrayIndex (mkConfig 1000 false false) (cs "sim" ++ show_array (mkIdx 1 9 2) [mkIdx 100 100 1] 5)
  = ([mkIdx 1 9 2; mkIdx 100 100 1], LSBE_NO_ERROR, Some 5).
Proof.
  apply (array_name_roundtrip (mkConfig 1000 false false) (cs "sim") (mkIdx 1 9 2) [mkIdx 100 100 1] 5);
    [reflexivity|reflexivity|cbn; unfold MAX_INDICES; lia|lia|vm_compute; discriminate].
Defined.

Lemma getJobIdIndexList_ok cf s jobId i l : replay cf = false ->
  getJobIdIndexList cf s = inr (jobId, i :: l) -> 0 < jobId < 2 ^ 31 /\ forallb idx_ok (i :: l) = true.
Proof.
  intros R. unfold getJobIdIndexList. destruct (strchr "[" s) as [b|].
  2:{ destruct (_ || _); discriminate. }
  set (w := firstn _ s). assert (B : int32 (atoi w)).
  { unfold atoi, scan_int. destruct (scan_sign _) as [g s1], (scan_digits 0 0 s1) as [[v []] r];
      [unfold int32; lia|apply wrap32_int32]. }
  destruct (Z.leb_spec (atoi w) 0); [now rewrite orb_true_r|].
  destruct (negb (isint_ w) || false || _); [discriminate|].
  destruct (parseJobArrayIndex cf s) as [[[|i' l'] e] m] eqn:E; [destruct e; discriminate|].
  intros [= <- <- <-]. split; [unfold int32 in B; lia|].
  destruct e; try (apply (parseJobArrayIndex_ok cf s _ m R E)).
  all: exfalso; revert E; unfold parseJobArrayIndex; destruct (strchr "[" s); [|discriminate];
    destruct (idxparse _) as [[? ?]|]; [|discriminate]; destruct (check_indices cf _ _ _) as [[? e] ?];
    destruct (negb (replay cf) && _), e; discriminate.
Qed.

(** C7: [getJobIdList] enumerates an index list without repetition: the
    identifiers it returns are those of the elements that [inIdxList] accepts.
    This is outside the replay of the log, for lists in which adding a step to an
    index does not overflow an [int]. *)
Theorem getJobIdList_enumerates cf s jobId i l : replay cf = false ->
  getJobIdIndexList cf s = inr (jobId, i :: l) -> forallb step_fits (i :: l) = true ->
  exists ids, getJobIdList cf s = inr (Values ids) /\ NoDup ids
    /\ (forall x, In x ids -> exists j, 0 <= j <= LSB_MAX_ARRAY_IDX /\ x = LSB_JOBID jobId j)
    /\ (forall j, 0 <= j <= LSB_MAX_ARRAY_IDX ->
          In (LSB_JOBID jobId j) ids <-> inIdxList (LSB_JOBID jobId j) (i :: l) = true).
Proof.
  intros R E S. destruct (getJobIdIndexList_ok cf s jobId i l R E) as [Hj O].
  destruct (collect_spec jobId (i :: l) [] (NoDup_nil _) O S) as (ids & C & N & M).
  unfold getJobIdList. rewrite E. destruct (Z.leb_spec jobId 0); [lia|].
  exists ids. split; [now rewrite C|]. split; [exact N|].
  assert (B : forall j, existsb (in_idx j) (i :: l) = true -> 0 <= j <= LSB_MAX_ARRAY_IDX).
  { intros j (k & Hk & Hin)%existsb_exists. rewrite forallb_forall in O. specialize (O k Hk).
    apply in_idx_spec in Hin; [|exact O]. unfold idx_ok in O. bool_split. lia. }
  split.
  - intros x [[]|(j & -> & Hx)]%M. eauto.
  - intros j Jb. unfold inIdxList. rewrite (jobid_idx jobId j) by lia. rewrite M. split.
    + intros [[]|(j' & Ej & Hx)]. specialize (B j' Hx). change LSB_MAX_ARRAY_IDX with 65535 in *.
      now rewrite (jobid_inj jobId j j') by (auto; lia).
    + eauto.
Qed.

Lemma getJobIdList_enumerates_witness :
  exists ids, getJobIdList (mkConfig 1000 false false) (cs "17[1-3,2-6:2]") = inr (Values ids) /\ NoDup ids
    /\ (forall x, In x ids -> exists j, 0 <= j <= LSB_MAX_ARRAY_IDX /\ x = LSB_JOBID 17 j)
    /\ (forall j, 0 <= j <= LSB_MAX_ARRAY_IDX ->
          In (LSB_JOBID 17 j) ids <-> inIdxList (LSB_JOBID 17 j) [mkIdx 1 3 1; mkIdx 2 6 2] = true).
Proof.
  apply (getJobIdList_enumerates (mkConfig 1000 false false) (cs "17[1-3,2-6:2]") 17 (mkIdx 1 3 1) [mkIdx 2 6 2]);
    [reflexivity|vm_compute; reflexivity|reflexivity].
Defined.

(** An index with a step near the largest [int] passes the checks, and the loop
    over it overflows its counter. *)
Theorem idx_step_overflow cf s jobId i l :
  getJobIdIndexList cf s = inr (jobId, i :: l) -> 0 < jobId ->
  start i <= end_ i -> 2 ^ 31 <= start i + step i -> getJobIdList cf s = inr (Overflow [start i]).
Proof.
  intros E Hj Hb Ho. unfold getJobIdList. rewrite E. destruct (Z.leb_spec jobId 0); [lia|].
  cbn [collect]. unfold idx_values. replace (Z.to_nat (end_ i - start i + 2)) with (S (Z.to_nat (end_ i - start i + 1))) by lia.
  cbn [idx_loop]. destruct (Z.leb_spec (start i) (end_ i)); [|lia].
  destruct (int32b (start i + step i)) eqn:K; [apply int32b_spec in K; unfold int32 in K; lia|]. reflexivity.
Qed.

Lemma idx_step_overflow_witness :
  getJobIdList (mkConfig 1000 false false) (cs "17[2:2147483647]") = inr (Overflow [2]).
Proof.
  apply (idx_step_overflow (mkConfig 1000 false false) (cs "17[2:2147483647]") 17 (mkIdx 2 2 2147483647) []);
    [vm_compute; reflexivity|lia|cbn; lia|cbn; lia].
Defined.
