(* ===== verification/Window.v ===== *)
(** * Time windows (lsf/intlib/window.c, lsbatch/daemons/mbd.window.c)

    Run windows of queues, dispatch windows of hosts and the [time(...)]
    condition are seven lists of intervals, one for each day.  Hours are the
    [float]s of the source: [8:30] is 8.5; -1 and 25 stand for an interval
    without begin or end, and the interval from 25 to 25 for none.  The local
    time of a clock value ([ctime]) is a parameter. *)
From Stdlib Require Import ZArith Ascii String List Bool Lia.
From Corelib Require Import SpecFloat.
From S2P Require Import Prelude CNum JobArray.
Import ListNotations.
Local Open Scope Z_scope.

Definition F0 : spec_float := S754_zero false.
Definition F23 : spec_float := Eval vm_compute in float_of 23.
Definition F24 : spec_float := Eval vm_compute in float_of 24.
Definition F25 : spec_float := Eval vm_compute in float_of 25.
Definition Fm1 : spec_float := Eval vm_compute in float_of (-1).
Definition F59 : spec_float := Eval vm_compute in float_of 59.
Definition F3600 : spec_float := Eval vm_compute in float_of 3600.

(** ** window.c *)

Record windows := mkWind { opentime : spec_float; closetime : spec_float }.

Definition new_wind : windows := mkWind F25 F25.

Definition MIN (x y : spec_float) : spec_float := if SFltb x y then x else y.
Definition MAX (x y : spec_float) : spec_float := if SFltb y x then x else y.

(** Whether the interval is absorbed by [wp], and [wp]. *)
Definition mergeW (wp : windows) (ohour chour : spec_float) : bool * windows :=
  if SFeqb (opentime wp) Fm1 && SFeqb (closetime wp) F25 then (true, wp)
  else if SFeqb ohour Fm1 && SFeqb chour F25 then (true, mkWind Fm1 F25)
  else if SFeqb ohour F25 && SFeqb chour F25 then (true, wp)
  else if SFleb chour ohour then (true, wp)
  else if SFeqb (opentime wp) F25 && SFeqb (closetime wp) F25 then (true, mkWind ohour chour)
  else
    let ohour := if SFleb ohour F0 then Fm1 else ohour in
    let chour := if SFleb F24 chour then F25 else chour in
    if negb (SFltb chour (opentime wp)) && negb (SFltb (closetime wp) ohour)
    then (true, mkWind (MIN ohour (opentime wp)) (MAX chour (closetime wp)))
    else (false, wp).

Definition fill (ohour chour : spec_float) : windows :=
  if SFltb ohour chour then mkWind ohour chour else new_wind.

(** [insertW]: when the interval was absorbed, the windows behind the first are
    inserted again.  A call inserts into a shorter list than its caller's, so
    [length + 1] is enough fuel. *)
Fixpoint insertW_fuel (fuel : nat) (window : list windows) (ohour chour : spec_float) : list windows :=
  match fuel with
  | O => window
  | S f =>
      match window with
      | [] => [fill ohour chour]
      | _ =>
          let merged := map (fun wp => mergeW wp ohour chour) window in
          if existsb fst merged then
            match map snd merged with
            | [] => []
            | first :: rest =>
                fold_left (fun acc wp => insertW_fuel f acc (opentime wp) (closetime wp)) rest [first]
            end
          else window ++ [fill ohour chour]
      end
  end.

Definition insertW (window : list windows) (ohour chour : spec_float) : list windows :=
  insertW_fuel (S (length window)) window ohour chour.

(** [week[0..7]]; a list without windows is the pointer NULL. *)
Definition week_t : Type := list (list windows).

Definition day_of (week : week_t) (i : nat) : list windows := nth i week [].

Fixpoint upd_day (i : nat) (f : list windows -> list windows) (week : week_t) : week_t :=
  match i, week with
  | O, w :: week' => f w :: week'
  | S i', w :: week' => w :: upd_day i' f week'
  | _, [] => []
  end.

Definition insert_day (o c : spec_float) (week : week_t) (i : nat) : week_t :=
  upd_day i (fun w => insertW w o c) week.

(** The part of a word behind the last colon, and the part before it. *)
Fixpoint strrchr (c : ascii) (s : cstr) : option (cstr * cstr) :=
  match s with
  | [] => None
  | d :: s' =>
      match strrchr c s' with
      | Some (a, b) => Some (d :: a, b)
      | None => if Ascii.eqb d c then Some ([], s') else None
      end
  end.

Definition int_word (w : cstr) : bool := isint_ w && (0 <=? atoi w).

(** [*hour = atof(word)], and the check against 23. *)
Definition parse_hour (word : cstr) : option spec_float :=
  if int_word word then
    match atof word with
    | Some d => let h := narrow d in if SFltb F23 h then None else Some h
    | None => None
    end
  else None.

(** [*hour + min / 60.0] *)
Definition add_min (h : spec_float) (min : spec_float) : spec_float :=
  narrow (SFadd 53 1024 (widen h) (SFdiv 53 1024 (widen min) (double_of 60))).

Definition parse_time (word : cstr) : option (spec_float * nat) :=
  match strrchr ":" word with
  | None => option_map (fun h => (add_min h F0, 0%nat)) (parse_hour word)
  | Some (word, sp) =>
      if int_word sp then
        let min := float_of (atoi sp) in
        if SFltb F59 min then None
        else
          match strrchr ":" word with
          | None => option_map (fun h => (add_min h min, 0%nat)) (parse_hour word)
          | Some (word, sp) =>
              match parse_hour sp with
              | None => None
              | Some h =>
                  if int_word word then
                    let day := if atoi word =? 0 then 7 else atoi word in
                    if (day <? 1) || (7 <? day) then None else Some (add_min h min, Z.to_nat day)
                  else None
              end
          end
      else None
  end.

(** The days from [i] on, round the week, until [cday]: at most seven rounds. *)
Fixpoint day_loop (rounds : nat) (i oday cday : nat) (ohour chour : spec_float) (week : week_t) : week_t :=
  match rounds with
  | O => week
  | S k =>
      let i := if (i =? 8)%nat then 1%nat else i in
      if (i =? oday)%nat then day_loop k (S i) oday cday ohour chour (insert_day ohour F25 week i)
      else if (i =? cday)%nat then
        fold_left (fun wk j => match day_of wk j with [] => insert_day F25 F25 wk j | _ => wk end)
          (seq 1 7) (insert_day Fm1 chour week i)
      else day_loop k (S i) oday cday ohour chour (insert_day Fm1 F25 week i)
  end.

Definition DAYS : list nat := [1; 2; 3; 4; 5; 6; 7]%nat.

(** [addWindow]; [None] is the return value -1, when [week] is not changed. *)
Definition addWindow (wordpair : cstr) (week : week_t) : option week_t :=
  match strchr "-" wordpair with
  | None => None
  | Some tail =>
      let word := firstn (length wordpair - length tail) wordpair in
      match parse_time (List.tl tail), parse_time word with
      | Some (chour, cday), Some (ohour, oday) =>
          if ((oday =? 0)%nat || (cday =? 0)%nat) && negb (oday =? cday)%nat then None
          else
            let never := (oday =? 0)%nat && (cday =? 0)%nat && SFeqb ohour chour in
            let ohour := if never then F25 else ohour in
            let chour := if never then F25 else chour in
            if (oday =? 0)%nat then
              if SFltb chour ohour then
                Some (fold_left (fun wk i => insert_day Fm1 chour (insert_day ohour F25 wk i) i) DAYS week)
              else Some (fold_left (fun wk i => insert_day ohour chour wk i) DAYS week)
            else if (oday =? cday)%nat then
              if SFltb chour ohour then None
              else
                let same := SFeqb ohour chour in
                let ohour := if same then F25 else ohour in
                let chour := if same then F25 else chour in
                let week := insert_day ohour chour week oday in
                Some (fold_left (fun wk j => if (j =? oday)%nat then wk
                                  else match day_of wk j with [] => insert_day F25 F25 wk j | _ => wk end)
                        DAYS week)
            else Some (day_loop 8 oday oday cday ohour chour week)
      | _, _ => None
      end
  end.

(** [checkWindow]: whether the window is open, and the edge.  The sum with
    [now] is computed in [float]. *)
Definition checkWindow (hour : spec_float) (wind_edge : Z) (wp : windows) (now : Z) : bool * Z :=
  let active := SFleb (opentime wp) hour && SFltb hour (closetime wp) in
  let t := if active then closetime wp else MIN (opentime wp) F24 in
  let tmp_edge :=
    trunc (SFadd 24 128 (float_of now) (SFmul 24 128 (SFsub 24 128 t hour) F3600)) in
  (active, if tmp_edge <? wind_edge then tmp_edge else wind_edge).

(** ** mbd.window.c *)

Record timeWindow := mkTW { statusOpen : bool; week : week_t; windEdge : Z }.

Definition newTimeWindow : timeWindow := mkTW true (repeat [] 8) 0.

(** The loop over the windows of the day, up to the first open one. *)
Fixpoint check_day (hour : spec_float) (edge : Z) (l : list windows) (now : Z) : bool * Z :=
  match l with
  | [] => (false, edge)
  | wp :: l' =>
      let '(active, edge') := checkWindow hour edge wp now in
      if active then (true, edge') else check_day hour edge' l' now
  end.

Section Clock.
(** [getDayHour]: the day of the week (7 for Sunday), the hour and the minute of
    the local time. *)
Context (localtime : Z -> nat * Z * Z).

Definition clock_hour (h m : Z) : spec_float := add_min (float_of h) (float_of m).

(** [now + (24.0 - hour) * 3600.0] *)
Definition midnight (now : Z) (hour : spec_float) : Z :=
  trunc (SFadd 53 1024 (double_of now)
           (SFmul 53 1024 (SFsub 53 1024 (double_of 24) (widen hour)) (double_of 3600))).

Definition updateTimeWindow (now : Z) (timeW : timeWindow) : timeWindow :=
  if (now <? windEdge timeW) || (windEdge timeW =? 0) then timeW
  else
    let '(day, h, m) := localtime now in
    let hour := clock_hour h m in
    let edge := midnight now hour in
    match day_of (week timeW) day with
    | [] => mkTW (statusOpen timeW) (week timeW) edge
    | l => let '(open, edge') := check_day hour edge l now in mkTW open (week timeW) edge'
    end.
End Clock.

(** ** Order of hours

    [key] is the value of a [float] in units of the least positive one. *)

Definition key (x : spec_float) : Z :=
  match x with
  | S754_finite s m e => let v := Zpos m * 2 ^ (e + 149) in if s then - v else v
  | _ => 0
  end.

Definition is_float (x : spec_float) : bool :=
  match x with
  | S754_zero _ => true
  | S754_finite _ m e => bounded 24 128 m e
  | _ => false
  end.

Lemma digits2_pos_bound m : 2 ^ (Zpos (digits2_pos m) - 1) <= Zpos m < 2 ^ Zpos (digits2_pos m).
Proof.
  induction m as [m IH|m IH|]; cbn [digits2_pos]; [| |cbn; lia];
    rewrite Pos2Z.inj_succ; replace (Z.succ (Z.pos (digits2_pos m)) - 1) with (Z.succ (Z.pos (digits2_pos m) - 1)) by lia;
    rewrite !Z.pow_succ_r by lia; lia.
Qed.

Lemma bounded_mantissa m e : bounded 24 128 m e = true ->
  -149 <= e /\ Zpos m < 2 ^ 24 /\ (-149 < e -> 2 ^ 23 <= Zpos m).
Proof.
  unfold bounded, canonical_mantissa, fexp, emin. intros H. bool_split.
  apply Z.eqb_eq in H. pose proof (digits2_pos_bound m) as [L U].
  assert (D : Z.pos (digits2_pos m) <= 24) by lia. split; [lia|]. split.
  - eapply Z.lt_le_trans; [exact U|]. apply Z.pow_le_mono_r; lia.
  - intros He. assert (Z.pos (digits2_pos m) = 24) as E by lia. now rewrite E in L.
Qed.

(** Positive floats: first the exponents, then the mantissas. *)
Lemma compare_pos m1 e1 m2 e2 : bounded 24 128 m1 e1 = true -> bounded 24 128 m2 e2 = true ->
  (Zpos m1 * 2 ^ (e1 + 149) ?= Zpos m2 * 2 ^ (e2 + 149))
  = match e1 ?= e2 with Lt => Lt | Gt => Gt | Eq => (m1 ?= m2)%positive end.
Proof.
  intros B1 B2. apply bounded_mantissa in B1 as (E1 & U1 & L1), B2 as (E2 & U2 & L2).
  assert (A : forall m e m' e', -149 <= e -> Z.pos m < 2 ^ 24 -> 2 ^ 23 <= Z.pos m' -> e < e' ->
            Zpos m * 2 ^ (e + 149) < Zpos m' * 2 ^ (e' + 149)).
  { intros m e m' e' He U L Lt. apply Z.lt_le_trans with (2 ^ 24 * 2 ^ (e + 149)).
    - apply Z.mul_lt_mono_pos_r; [apply Z.pow_pos_nonneg; lia|exact U].
    - rewrite <- Z.pow_add_r by lia. apply Z.le_trans with (2 ^ 23 * 2 ^ (e' + 149)).
      + rewrite <- Z.pow_add_r by lia. apply Z.pow_le_mono_r; lia.
      + apply Z.mul_le_mono_nonneg_r; [apply Z.pow_nonneg; lia|exact L]. }
  destruct (Z.compare_spec e1 e2) as [->|H|H].
  - change ((m1 ?= m2)%positive) with (Zpos m1 ?= Zpos m2). symmetry. apply Zmult_compare_compat_r.
    apply Z.lt_gt, Z.pow_pos_nonneg; lia.
  - apply Z.compare_lt_iff, A; lia.
  - apply Z.compare_gt_iff, A; lia.
Qed.

Lemma SFcompare_key x y : is_float x = true -> is_float y = true -> SFcompare x y = Some (key x ?= key y).
Proof.
  assert (P : forall m e, -149 <= e -> 0 < Z.pos m * 2 ^ (e + 149)).
  { intros. apply Z.mul_pos_pos; [lia|]. apply Z.pow_pos_nonneg; lia. }
  assert (N : forall m e, bounded 24 128 m e = true -> 0 < Z.pos m * 2 ^ (e + 149)).
  { intros m e B. exact (P m e (proj1 (bounded_mantissa m e B))). }
  destruct x as [sx| | |sx mx ex], y as [sy| | |sy my ey]; cbn [is_float SFcompare key]; try discriminate;
    intros Hx Hy.
  - reflexivity.
  - pose proof (N _ _ Hy). destruct sy; f_equal; symmetry; [apply Z.compare_gt_iff|apply Z.compare_lt_iff]; lia.
  - pose proof (N _ _ Hx). destruct sx; f_equal; symmetry; [apply Z.compare_lt_iff|apply Z.compare_gt_iff]; lia.
  - pose proof (N _ _ Hx). pose proof (N _ _ Hy). destruct sx, sy; f_equal.
    + rewrite Z.compare_opp, (compare_pos my ey mx ex) by assumption. rewrite (Z.compare_antisym ex ey).
      destruct (ex ?= ey); cbn; [|reflexivity..]. symmetry. apply Pos.compare_antisym.
    + symmetry. apply Z.compare_lt_iff. lia.
    + symmetry. apply Z.compare_gt_iff. lia.
    + rewrite compare_pos by assumption. now destruct (ex ?= ey).
Qed.

Lemma SFltb_key x y : is_float x = true -> is_float y = true -> SFltb x y = (key x <? key y).
Proof. intros Hx Hy. unfold SFltb, Z.ltb. now rewrite SFcompare_key. Qed.

Lemma SFleb_key x y : is_float x = true -> is_float y = true -> SFleb x y = (key x <=? key y).
Proof. intros Hx Hy. unfold SFleb, Z.leb. now rewrite SFcompare_key. Qed.

Lemma SFeqb_key x y : is_float x = true -> is_float y = true -> SFeqb x y = (key x =? key y).
Proof. intros Hx Hy. unfold SFeqb. rewrite SFcompare_key, Z.eqb_compare by assumption. reflexivity. Qed.

(** ** Coverage *)

Definition K0 : Z := 0.
Definition K24 : Z := Eval vm_compute in key F24.
Definition K25 : Z := Eval vm_compute in key F25.
Definition Km1 : Z := Eval vm_compute in key Fm1.

(** An interval that may be inserted. *)
Definition range_ok (o c : spec_float) : Prop :=
  is_float o = true /\ is_float c = true /\ Km1 <= key o /\ key c <= K25.

(** A window of a list: none, or an interval with a begin before its end. *)
Definition wind_ok (w : windows) : Prop :=
  range_ok (opentime w) (closetime w)
  /\ (key (opentime w) = K25 /\ key (closetime w) = K25 \/ key (opentime w) < key (closetime w)).

Definition in_range (h : Z) (o c : spec_float) : bool := (key o <=? h) && (h <? key c).
Definition in_wind (h : Z) (w : windows) : bool := in_range h (opentime w) (closetime w).
Definition open_at (l : list windows) (h : Z) : bool := existsb (in_wind h) l.

(** The hours of a day. *)
Definition day_hour (h : Z) : Prop := K0 <= h < K24.

Ltac keys :=
  repeat first [rewrite SFltb_key by first [assumption|reflexivity]
               |rewrite SFleb_key by first [assumption|reflexivity]
               |rewrite SFeqb_key by first [assumption|reflexivity]];
  change (key F24) with K24 in *; change (key F25) with K25 in *; change (key Fm1) with Km1 in *;
  change (key F0) with K0 in *.

(** Equalities of coverages, by arithmetic. *)
Ltac cover :=
  unfold in_wind, in_range; cbn [opentime closetime];
  change (key F25) with K25; change (key Fm1) with Km1;
  apply eq_iff_eq_true; rewrite ?orb_true_iff, ?andb_true_iff, ?Z.leb_le, ?Z.ltb_lt; lia.

(** The limits at which the day ends are replaced by those without end. *)
Lemma norm_open o : is_float o = true -> Km1 <= key o ->
  exists o', (if SFleb o F0 then Fm1 else o) = o' /\ is_float o' = true /\ Km1 <= key o' <= key o
    /\ (key o' = key o \/ key o <= K0).
Proof.
  intros F B. keys. change Km1 with (key Fm1) in *. destruct (Z.leb_spec (key o) K0); eexists; (split; [reflexivity|]).
  - split; [reflexivity|]. lia.
  - split; [exact F|]. lia.
Qed.

Lemma norm_close c : is_float c = true -> key c <= K25 ->
  exists c', (if SFleb F24 c then F25 else c) = c' /\ is_float c' = true /\ key c <= key c' <= K25
    /\ (key c' = key c \/ K24 <= key c).
Proof.
  intros F B. keys. change K25 with (key F25) in *. destruct (Z.leb_spec K24 (key c)); eexists; (split; [reflexivity|]).
  - split; [reflexivity|]. lia.
  - split; [exact F|]. lia.
Qed.

Lemma MIN_key x y : is_float x = true -> is_float y = true ->
  is_float (MIN x y) = true /\ key (MIN x y) = Z.min (key x) (key y).
Proof. intros. unfold MIN. keys. destruct (Z.ltb_spec (key x) (key y)); split; auto; lia. Qed.

Lemma MAX_key x y : is_float x = true -> is_float y = true ->
  is_float (MAX x y) = true /\ key (MAX x y) = Z.max (key x) (key y).
Proof. intros. unfold MAX. keys. destruct (Z.ltb_spec (key y) (key x)); split; auto; lia. Qed.

Lemma mergeW_spec w o c : wind_ok w -> range_ok o c ->
  let '(b, w') := mergeW w o c in
  wind_ok w'
  /\ (b = false -> w' = w /\ key o < key c)
  /\ (b = true -> forall h, day_hour h -> in_wind h w' = in_wind h w || in_range h o c).
Proof.
  intros Hw Ho. pose proof Hw as ((Fo & Fc & Bo & Bc) & W). pose proof Ho as (Go & Gc & Ao & Ac).
  assert (C : Km1 < K0 < K24 /\ K24 < K25) by (unfold Km1, K0, K24, K25; lia).
  assert (T : forall w', wind_ok w' -> (forall h, day_hour h -> in_wind h w' = in_wind h w || in_range h o c) ->
     wind_ok w' /\ (true = false -> w' = w /\ key o < key c)
     /\ (true = true -> forall h, day_hour h -> in_wind h w' = in_wind h w || in_range h o c))
    by (intros w' ? ?; split; [assumption|split; [discriminate|auto]]).
  unfold mergeW, day_hour in *. destruct w as [wo wc]; cbn [opentime closetime] in *. keys.
  destruct ((key wo =? Km1) && (key wc =? K25)) eqn:E1.
  { bool_split. apply T; [exact Hw|]. intros h Hh. cover. }
  destruct ((key o =? Km1) && (key c =? K25)) eqn:E2.
  { bool_split. apply T; [|intros h Hh; cover].
    split; [repeat split; try reflexivity; cbv; discriminate|right; reflexivity]. }
  destruct ((key o =? K25) && (key c =? K25)) eqn:E3.
  { bool_split. apply T; [exact Hw|]. intros h Hh. cover. }
  destruct (Z.leb_spec (key c) (key o)) as [L|L].
  { apply T; [exact Hw|]. intros h Hh. cover. }
  destruct ((key wo =? K25) && (key wc =? K25)) eqn:E4.
  { bool_split. apply T; [split; [exact Ho|right; exact L]|]. intros h Hh. cover. }
  assert (W' : key wo < key wc).
  { destruct W as [[A B]|]; [|assumption]. rewrite A, B, !Z.eqb_refl in E4. discriminate. }
  destruct (norm_open o Go Ao) as (o' & No & Fo' & Bo' & Do). rewrite SFleb_key in No by (auto; reflexivity).
  destruct (norm_close c Gc Ac) as (c' & Nc & Fc' & Bc' & Dc). rewrite SFleb_key in Nc by (auto; reflexivity).
  change (key F0) with K0 in No. change (key F24) with K24 in Nc. rewrite No, Nc. keys.
  destruct (MIN_key o' wo Fo' Fo) as [Fm Em], (MAX_key c' wc Fc' Fc) as [FM EM].
  destruct (negb (key c' <? key wo) && negb (key wc <? key o')) eqn:E5.
  - apply andb_true_iff in E5 as [L1%negb_true_iff%Z.ltb_ge L2%negb_true_iff%Z.ltb_ge].
    apply T.
    + unfold wind_ok, range_ok. cbn [opentime closetime]. rewrite Em, EM.
      repeat split; auto; lia.
    + intros h Hh. unfold in_wind, in_range. cbn [opentime closetime]. rewrite Em, EM. cover.
  - split; [exact Hw|]. split; [auto|discriminate].
Qed.

Lemma fill_spec o c : range_ok o c ->
  wind_ok (fill o c) /\ (forall h, day_hour h -> in_wind h (fill o c) = in_range h o c).
Proof.
  intros (Fo & Fc & Bo & Bc). unfold fill, day_hour. keys.
  assert (C : K0 < K24 < K25 /\ Km1 < K25) by (unfold Km1, K0, K24, K25; lia).
  destruct (Z.ltb_spec (key o) (key c)) as [L|L].
  - split; [split; [repeat split; auto|now right]|reflexivity].
  - split; [split; [repeat split; cbv; discriminate|now left]|].
    intros h Hh. unfold in_wind. cbn [opentime closetime new_wind]. cover.
Qed.

Lemma open_at_app a b h : open_at (a ++ b) h = open_at a h || open_at b h.
Proof. apply existsb_app. Qed.

(** The list after one round of [mergeW]. *)
Lemma merged_list l o c : Forall wind_ok l -> range_ok o c ->
  let m := map (fun wp => mergeW wp o c) l in
  Forall wind_ok (map snd m)
  /\ (existsb fst m = true ->
      forall h, day_hour h -> open_at (map snd m) h = open_at l h || in_range h o c).
Proof.
  intros Hl Ho. induction Hl as [|w l Hw Hl IH]; [split; [constructor|discriminate]|]. cbn in *.
  pose proof (mergeW_spec w o c Hw Ho) as M. destruct (mergeW w o c) as [b w']. cbn [fst snd].
  destruct M as (Ok & Mf & Mt), IH as [IHok IH]. split; [now constructor|].
  assert (S : existsb fst (map (fun wp => mergeW wp o c) l) = false -> map snd (map (fun wp => mergeW wp o c) l) = l).
  { clear - Hl Ho. induction Hl as [|w l Hw Hl IH]; [reflexivity|]. cbn.
    pose proof (mergeW_spec w o c Hw Ho) as M. destruct (mergeW w o c) as [b w']. cbn.
    destruct M as (_ & Mf & _), b; [discriminate|]. intros E. now rewrite IH, (proj1 (Mf eq_refl)). }
  intros E h Hh. fold (open_at (map snd (map (fun wp => mergeW wp o c) l)) h). fold (open_at l h).
  destruct b; cbn in E.
  - rewrite (Mt eq_refl h Hh). destruct (existsb fst (map (fun wp => mergeW wp o c) l)) eqn:X.
    + rewrite IH by auto. destruct (in_wind h w), (in_range h o c), (open_at l h); reflexivity.
    + rewrite S by reflexivity. destruct (in_wind h w), (in_range h o c), (open_at l h); reflexivity.
  - destruct (Mf eq_refl) as [-> _]. rewrite IH by auto. apply orb_assoc.
Qed.

Lemma insertW_fuel_spec fuel l o c : (length l < fuel)%nat -> Forall wind_ok l -> range_ok o c ->
  let r := insertW_fuel fuel l o c in
  Forall wind_ok r /\ r <> [] /\ (length r <= S (length l))%nat
  /\ (forall h, day_hour h -> open_at r h = open_at l h || in_range h o c).
Proof.
  revert l o c; induction fuel as [|f IH]; intros l o c Hf Hl Ho; [lia|]. cbn [insertW_fuel].
  destruct (fill_spec o c Ho) as [Fk Fc].
  destruct l as [|w l].
  { split; [auto|]. split; [discriminate|]. split; [cbn; lia|].
    intros h Hh. cbn. now rewrite Fc, orb_false_r. }
  set (L := w :: l) in *. destruct (merged_list L o c Hl Ho) as [Mk Mc].
  destruct (existsb fst (map (fun wp => mergeW wp o c) L)) eqn:E.
  - specialize (Mc eq_refl). assert (N : length (map snd (map (fun wp => mergeW wp o c) L)) = length L)
      by now rewrite !length_map.
    destruct (map snd (map (fun wp => mergeW wp o c) L)) as [|first rest]; [discriminate|].
    assert (R : forall rest acc, Forall wind_ok acc -> Forall wind_ok rest -> acc <> [] ->
      (length acc + length rest <= f)%nat ->
      let r := fold_left (fun acc wp => insertW_fuel f acc (opentime wp) (closetime wp)) rest acc in
      Forall wind_ok r /\ r <> [] /\ (length r <= length acc + length rest)%nat
      /\ (forall h, day_hour h -> open_at r h = open_at acc h || open_at rest h)).
    { clear - IH. induction rest as [|x rest IHr]; intros acc Ha Hr Hn Hlen; cbn [fold_left length] in *.
      - repeat split; auto; [lia|]. intros h _. now rewrite orb_false_r.
      - inversion_clear Hr. destruct (IH acc (opentime x) (closetime x)) as (A1 & A2 & A3 & A4); [lia|auto|apply H|].
        destruct (IHr _ A1 H0 A2) as (B1 & B2 & B3 & B4); [lia|]. repeat split; auto; [lia|].
        intros h Hh. rewrite B4, A4 by auto. cbn [open_at existsb]. symmetry. apply orb_assoc. }
    inversion Mk; subst. cbn [length] in N.
    destruct (R rest [first]) as (R1 & R2 & R3 & R4); [auto|auto|discriminate|cbn in *; lia|].
    split; [exact R1|]. split; [exact R2|]. split; [etransitivity; [exact R3|cbn [length]; lia]|].
    intros h Hh. rewrite R4, <- Mc by exact Hh. cbn. now rewrite orb_false_r.
  - split; [apply Forall_app; split; auto|]. split; [now destruct l|].
    split; [rewrite length_app; cbn; lia|]. intros h Hh.
    rewrite open_at_app. cbn [open_at existsb]. now rewrite Fc, orb_false_r.
Qed.

(** ** The minutes of a day *)

(** [minute t] is the hour of the clock [t] minutes after midnight; [time_text t]
    is how it is written in a configuration file. *)
Definition minute (t : nat) : spec_float := clock_hour (Z.of_nat t / 60) (Z.of_nat t mod 60).
Definition time_text (t : nat) : cstr := dec (Z.of_nat t / 60) ++ ":"%char :: dec (Z.of_nat t mod 60).

Fixpoint increasing (l : list Z) : bool :=
  match l with
  | x :: ((y :: _) as l') => (x <? y) && increasing l'
  | _ => true
  end.

Lemma minutes_checked :
  (let l := map minute (seq 0 1440) in
   forallb is_float l && increasing (-1 :: map key l ++ [K24])) = true.
Proof. vm_compute. reflexivity. Qed.

Lemma increasing_nth l i j x y : increasing l = true -> (i < j)%nat ->
  nth_error l i = Some x -> nth_error l j = Some y -> x < y.
Proof.
  revert i j x; induction l as [|a l IH]; intros i j x H Hij Hi Hj; [now destruct i|].
  assert (T : increasing l = true) by (destruct l; [reflexivity|cbn in H; now bool_split]).
  destruct j as [|j]; [lia|]. cbn in Hj. destruct i as [|i]; cbn in Hi; [|exact (IH i j x T ltac:(lia) Hi Hj)].
  injection Hi as ->. destruct l as [|b l]; [now destruct j|]. cbn [increasing] in H. bool_split.
  apply Z.ltb_lt in H. destruct j as [|j]; [injection Hj as ->; exact H|].
  eapply Z.lt_trans; [exact H|]. exact (IH 0%nat (S j) b T ltac:(lia) eq_refl Hj).
Qed.

Lemma nth_minutes t : (t < 1440)%nat ->
  nth_error (-1 :: map key (map minute (seq 0 1440)) ++ [K24]) (S t) = Some (key (minute t)).
Proof.
  intros H. cbn [nth_error]. rewrite nth_error_app1 by (rewrite !length_map, length_seq; exact H).
  rewrite !nth_error_map, nth_error_seq by exact H. destruct (Nat.ltb_spec t 1440); [reflexivity|lia].
Qed.

Lemma minute_ok t : (t < 1440)%nat -> is_float (minute t) = true /\ day_hour (key (minute t)).
Proof.
  intros H. pose proof minutes_checked as M. cbv zeta in M. apply andb_true_iff in M as [F I]. split.
  - rewrite forallb_forall in F. apply F, in_map, in_seq. lia.
  - unfold day_hour, K0. split.
    + enough (-1 < key (minute t)) by lia. eapply increasing_nth with (i := 0%nat) (j := S t); [exact I|lia|reflexivity|].
      now apply nth_minutes.
    + eapply increasing_nth with (i := S t) (j := 1441%nat); [exact I|lia|now apply nth_minutes|].
      change (nth_error (map key (map minute (seq 0 1440)) ++ [K24]) 1440 = Some K24).
      rewrite nth_error_app2, !length_map, length_seq by (rewrite !length_map, length_seq; lia). reflexivity.
Qed.

(** The order of the clock is the order of the hours. *)
Lemma minute_lt s t : (s < 1440)%nat -> (t < 1440)%nat -> (key (minute s) <? key (minute t)) = (s <? t)%nat.
Proof.
  intros Hs Ht. pose proof minutes_checked as M. cbv zeta in M. apply andb_true_iff in M as [_ I].
  assert (L : forall a b, (a < b)%nat -> (b < 1440)%nat -> key (minute a) < key (minute b)).
  { intros a b Hab Hb. eapply increasing_nth with (i := S a) (j := S b); [exact I|lia|apply nth_minutes; lia..]. }
  destruct (Nat.ltb_spec s t) as [H|H]; [apply Z.ltb_lt; auto|apply Z.ltb_ge].
  destruct (Nat.eq_dec s t) as [->|]; [lia|]. specialize (L t s ltac:(lia) Hs). lia.
Qed.

Lemma minute_le s t : (s < 1440)%nat -> (t < 1440)%nat -> (key (minute s) <=? key (minute t)) = (s <=? t)%nat.
Proof.
  intros Hs Ht. rewrite Z.leb_antisym, minute_lt by assumption. now rewrite Nat.leb_antisym.
Qed.

(** ** Texts of times *)

Lemma int_word_dec z : 0 <= z < 1000 -> int_word (dec z) = true /\ atoi (dec z) = z.
Proof.
  intros H. assert (E : forallb (fun n => int_word (dec (Z.of_nat n))) (seq 0 1000) = true) by (vm_compute; reflexivity).
  rewrite forallb_forall in E. specialize (E (Z.to_nat z)). rewrite Z2Nat.id in E by lia.
  split; [apply E, in_seq; lia|apply atoi_dec; unfold int32; lia].
Qed.

Lemma parse_hour_dec h : 0 <= h <= 23 -> parse_hour (dec h) = Some (float_of h).
Proof.
  intros H. assert (E : forallb (fun n => match parse_hour (dec (Z.of_nat n)) with
                                          | Some x => sf_eqb x (float_of (Z.of_nat n)) | None => false end)
                          (seq 0 24) = true) by (vm_compute; reflexivity).
  rewrite forallb_forall in E. specialize (E (Z.to_nat h)). rewrite Z2Nat.id in E by lia.
  specialize (E ltac:(apply in_seq; lia)). destruct (parse_hour (dec h)); [|discriminate].
  now apply sf_eqb_eq in E as ->.
Qed.

Lemma strrchr_none c s : forallb (fun d => negb (Ascii.eqb d c)) s = true -> strrchr c s = None.
Proof.
  induction s as [|d s IH]; cbn; [reflexivity|]. intros H. bool_split. rewrite IH by assumption.
  apply negb_true_iff in H. now rewrite H.
Qed.

Lemma strrchr_app c a b : forallb (fun d => negb (Ascii.eqb d c)) b = true -> strrchr c (a ++ c :: b) = Some (a, b).
Proof.
  intros H. induction a as [|d a IH]; cbn; [|now rewrite IH].
  rewrite strrchr_none by exact H. now rewrite Ascii.eqb_refl.
Qed.

Lemma dec_without z c : 0 <= z -> isdigit c = false -> forallb (fun d => negb (Ascii.eqb d c)) (dec z) = true.
Proof.
  intros Hz Hc. rewrite dec_signed. destruct (Z.ltb_spec z 0); [lia|]. rewrite Z.abs_eq by lia. cbn [signed].
  apply forallb_forall. intros d Hd. pose proof (unat_digits z Hz) as D. rewrite forallb_forall in D.
  specialize (D d Hd). destruct (Ascii.eqb_spec d c); [congruence|reflexivity].
Qed.

Lemma minute_parts t : (t < 1440)%nat -> 0 <= Z.of_nat t / 60 <= 23 /\ 0 <= Z.of_nat t mod 60 <= 59.
Proof. intros H. Z.div_mod_to_equations. lia. Qed.

Lemma parse_time_text t : (t < 1440)%nat -> parse_time (time_text t) = Some (minute t, 0%nat).
Proof.
  intros H. destruct (minute_parts t H) as [Hh Hm]. unfold parse_time, time_text.
  rewrite strrchr_app by (apply dec_without; [lia|reflexivity]).
  destruct (int_word_dec (Z.of_nat t mod 60)) as [-> ->]; [lia|].
  rewrite strrchr_none by (apply dec_without; [lia|reflexivity]). rewrite parse_hour_dec by lia.
  assert (F : SFltb F59 (float_of (Z.of_nat t mod 60)) = false).
  { assert (E : forallb (fun n => negb (SFltb F59 (float_of (Z.of_nat n)))) (seq 0 60) = true) by (vm_compute; reflexivity).
    rewrite forallb_forall in E. specialize (E (Z.to_nat (Z.of_nat t mod 60))). rewrite Z2Nat.id in E by lia.
    apply negb_true_iff, E, in_seq. lia. }
  rewrite F. reflexivity.
Qed.

(** ** Windows on every day *)

(** The clock [u] is in the window from [s] to [t], round midnight when [t] is
    before [s]; a window from a time to itself is never open. *)
Definition daily (s t u : nat) : bool :=
  if (s <? t)%nat then (s <=? u)%nat && (u <? t)%nat
  else if (t <? s)%nat then (s <=? u)%nat || (u <? t)%nat else false.

Definition window_text (w : nat * nat) : cstr := time_text (fst w) ++ "-"%char :: time_text (snd w).

Lemma time_text_without t c : isdigit c = false -> Ascii.eqb ":" c = false ->
  forallb (fun d => negb (Ascii.eqb d c)) (time_text t) = true.
Proof.
  intros H1 H2. unfold time_text. rewrite forallb_app. cbn [forallb].
  rewrite !dec_without, H2 by (try assumption; Z.div_mod_to_equations; lia). reflexivity.
Qed.

Definition insert_daily (s t : nat) (w : list windows) : list windows :=
  if (s =? t)%nat then insertW w F25 F25
  else if (t <? s)%nat then insertW (insertW w (minute s) F25) Fm1 (minute t)
  else insertW w (minute s) (minute t).

Lemma addWindow_text s t w0 w1 w2 w3 w4 w5 w6 w7 : (s < 1440)%nat -> (t < 1440)%nat ->
  addWindow (window_text (s, t)) [w0; w1; w2; w3; w4; w5; w6; w7]
  = Some (w0 :: map (insert_daily s t) [w1; w2; w3; w4; w5; w6; w7]).
Proof.
  intros Hs Ht. unfold addWindow, window_text. cbn [fst snd].
  rewrite (strchr_app "-") by now apply time_text_without.
  rewrite length_app, Nat.add_sub, firstn_app, firstn_all, Nat.sub_diag, firstn_O, app_nil_r. cbn [List.tl].
  rewrite !parse_time_text by assumption. cbn [Nat.eqb orb andb negb].
  destruct (minute_ok s Hs) as [Fs _], (minute_ok t Ht) as [Ft _].
  assert (E : SFeqb (minute s) (minute t) = (s =? t)%nat).
  { rewrite SFeqb_key by assumption. pose proof (minute_lt s t Hs Ht). pose proof (minute_lt t s Ht Hs).
    destruct (Nat.eqb_spec s t) as [->|N]; [apply Z.eqb_refl|]. apply Z.eqb_neq. intros K. rewrite K, Z.ltb_irrefl in *.
    destruct (Nat.ltb_spec s t), (Nat.ltb_spec t s); try discriminate; lia. }
  rewrite E. unfold insert_daily. destruct (Nat.eqb_spec s t) as [->|N]; [reflexivity|].
  rewrite SFltb_key, minute_lt by assumption. destruct (t <? s)%nat; reflexivity.
Qed.

Lemma insert_daily_spec s t w : (s < 1440)%nat -> (t < 1440)%nat -> Forall wind_ok w ->
  Forall wind_ok (insert_daily s t w) /\ insert_daily s t w <> []
  /\ (forall u, (u < 1440)%nat ->
        open_at (insert_daily s t w) (key (minute u)) = open_at w (key (minute u)) || daily s t u).
Proof.
  intros Hs Ht Hw. destruct (minute_ok s Hs) as [Fs [Ls Us]], (minute_ok t Ht) as [Ft [Lt Ut]].
  assert (C : Km1 < K0 < K24 /\ K24 < K25) by (unfold Km1, K0, K24, K25; lia).
  assert (I : forall w o c, Forall wind_ok w -> range_ok o c ->
    Forall wind_ok (insertW w o c) /\ insertW w o c <> []
    /\ (forall u, (u < 1440)%nat -> open_at (insertW w o c) (key (minute u))
                                    = open_at w (key (minute u)) || in_range (key (minute u)) o c)).
  { intros w' o c Hw' Ho. destruct (insertW_fuel_spec (S (length w')) w' o c) as (A & B & _ & D); [lia|auto..|].
    split; [exact A|]. split; [exact B|]. intros u Hu. apply D, minute_ok, Hu. }
  unfold insert_daily, daily. destruct (Nat.eqb_spec s t) as [->|N].
  - destruct (I w F25 F25 Hw) as (A & B & D); [repeat split; cbv; discriminate|].
    split; [exact A|]. split; [exact B|]. intros u Hu. rewrite D, Nat.ltb_irrefl by exact Hu. f_equal.
    unfold in_range. change (key F25) with K25. destruct (minute_ok u Hu) as [_ [_ Uu]]. apply andb_false_iff.
    rewrite Z.leb_gt. lia.
  - destruct (Nat.ltb_spec t s) as [L|L].
    + destruct (I w (minute s) F25 Hw) as (A & _ & D); [repeat split; auto; [lia|cbv; discriminate]|].
      destruct (I _ Fm1 (minute t) A) as (A' & B' & D'); [repeat split; auto; [cbv; discriminate|lia]|].
      split; [exact A'|]. split; [exact B'|]. intros u Hu. rewrite D', D by exact Hu.
      destruct (Nat.ltb_spec s t); [lia|]. rewrite <- orb_assoc. f_equal. unfold in_range.
      change (key F25) with K25. change (key Fm1) with Km1. destruct (minute_ok u Hu) as [_ [Lu Uu]].
      rewrite minute_le, minute_lt by assumption.
      destruct (Z.ltb_spec (key (minute u)) K25), (Z.leb_spec Km1 (key (minute u))); try lia.
      now rewrite andb_true_r, andb_true_l.
    + destruct (I w (minute s) (minute t) Hw) as (A & B & D); [repeat split; auto; lia|].
      split; [exact A|]. split; [exact B|]. intros u Hu. rewrite D by exact Hu.
      destruct (Nat.ltb_spec s t); [|lia]. unfold in_range. now rewrite minute_le, minute_lt.
Qed.

(** All windows of a list of texts, as [parseDepCond] and the configuration
    readers add them. *)
Fixpoint add_all (l : list cstr) (wk : week_t) : option week_t :=
  match l with
  | [] => Some wk
  | x :: l' => match addWindow x wk with Some wk' => add_all l' wk' | None => None end
  end.

Definition clocks (w : nat * nat) : bool := (fst w <? 1440)%nat && (snd w <? 1440)%nat.

Lemma add_all_spec ws w0 days : forallb clocks ws = true -> length days = 7%nat -> Forall (Forall wind_ok) days ->
  exists days', add_all (map window_text ws) (w0 :: days) = Some (w0 :: days') /\ length days' = 7%nat
    /\ (forall d, (d < 7)%nat -> Forall wind_ok (nth d days' [])
        /\ (nth d days [] <> [] \/ ws <> [] -> nth d days' [] <> [])
        /\ forall u, (u < 1440)%nat -> open_at (nth d days' []) (key (minute u))
             = open_at (nth d days []) (key (minute u)) || existsb (fun w => daily (fst w) (snd w) u) ws).
Proof.
  revert days; induction ws as [|[s t] ws IH]; intros days Hws Hd Hok.
  - exists days. split; [reflexivity|]. split; [exact Hd|]. intros d Lt. split; [|split; [tauto|]].
    + rewrite Forall_forall in Hok. apply Hok, nth_In. lia.
    + intros u _. now rewrite orb_false_r.
  - cbn [forallb] in Hws. bool_split. unfold clocks in H. cbn [fst snd] in H. bool_split.
    apply Nat.ltb_lt in H, H1. cbn [map add_all].
    do 7 (destruct days as [|? days]; [discriminate|]). destruct days; [|discriminate].
    rewrite addWindow_text by assumption. set (days := [l; l0; l1; l2; l3; l4; l5]) in *.
    assert (Hok' : Forall (Forall wind_ok) (map (insert_daily s t) days)).
    { apply Forall_map. eapply Forall_impl; [|exact Hok]. intros a Ha. now apply insert_daily_spec. }
    destruct (IH (map (insert_daily s t) days) H0 eq_refl Hok') as (days' & -> & L & P).
    exists days'. split; [reflexivity|]. split; [exact L|]. intros d Ld. destruct (P d Ld) as (P1 & P2 & P3).
    assert (E : nth d (map (insert_daily s t) days) [] = insert_daily s t (nth d days [])).
    { rewrite (nth_indep _ [] (insert_daily s t [])) by (rewrite length_map; exact Ld). apply map_nth. }
    assert (W : Forall wind_ok (nth d days [])) by (rewrite Forall_forall in Hok; apply Hok, nth_In; exact Ld).
    destruct (insert_daily_spec s t _ H H1 W) as (_ & Q2 & Q3). rewrite E in P3.
    split; [exact P1|]. split.
    + intros _. apply P2. left. now rewrite E.
    + intros u Hu. rewrite P3, Q3 by exact Hu. cbn [existsb fst snd]. symmetry. apply orb_assoc.
Qed.

(** ** Properties *)

(** [insertW] computes the union: for every hour of the day, the list is open
    after the insertion exactly when it was open before or the hour is in the
    new interval; and the intervals of the list stay well formed. *)
Theorem insertW_union l o c : Forall wind_ok l -> range_ok o c ->
  Forall wind_ok (insertW l o c)
  /\ forall h, day_hour h -> open_at (insertW l o c) h = open_at l h || in_range h o c.
Proof.
  intros Hl Ho. destruct (insertW_fuel_spec (S (length l)) l o c) as (A & _ & _ & D); auto.
Qed.

Lemma insertW_union_witness :
  open_at (insertW (insertW [] (minute 480) (minute 600)) (minute 540) (minute 720)) (key (minute 660)) = true.
Proof.
  assert (R : range_ok (minute 480) (minute 600) /\ range_ok (minute 540) (minute 720))
    by (repeat split; vm_compute; (reflexivity || discriminate)).
  destruct (insertW_union [] (minute 480) (minute 600) (Forall_nil _) (proj1 R)) as [A B].
  destruct (insertW_union _ (minute 540) (minute 720) A (proj2 R)) as [_ D].
  rewrite D; [vm_compute; reflexivity|]. split; vm_compute; [discriminate|reflexivity].
Defined.

(** Over the windows of a day the report is whether one of them is open. *)
Lemma check_day_open h now l : is_float h = true -> Forall wind_ok l ->
  forall m, fst (check_day h m l now) = open_at l (key h).
Proof.
  intros Fh. induction l as [|x l IH]; intros Hl m; [reflexivity|]. inversion_clear Hl. cbn [check_day open_at existsb].
  destruct H as ((Fo & Fc & _) & _). unfold checkWindow, in_wind, in_range.
  rewrite SFleb_key, SFltb_key by assumption. cbv zeta.
  destruct ((key (opentime x) <=? key h) && (key h <? key (closetime x))); [reflexivity|]. now apply IH.
Qed.

(** C6: A non-empty list of daily windows such as [8:30-17:45], added with [addWindow]
    to a new time window, is accepted.  An evaluation by [updateTimeWindow], that
    is a call at or after the edge that is set ([0 < windEdge <= now], as at the
    first evaluation, where the edge is the present time), reports the window open
    exactly when the clock time of the call is in one of the windows, on every day
    of the week and whatever was reported before; a call before the edge, or with
    no edge set, keeps the last report. *)
Theorem window_open_iff localtime ws d u now : forallb clocks ws = true -> ws <> [] ->
  (1 <= d <= 7)%nat -> (u < 1440)%nat -> localtime now = (d, Z.of_nat u / 60, Z.of_nat u mod 60) ->
  exists wk, add_all (map window_text ws) (week newTimeWindow) = Some wk
    /\ forall last edge,
      (0 < edge <= now -> statusOpen (updateTimeWindow localtime now (mkTW last wk edge))
                          = existsb (fun w => daily (fst w) (snd w) u) ws)
      /\ (edge = 0 \/ now < edge -> updateTimeWindow localtime now (mkTW last wk edge) = mkTW last wk edge).
Proof.
  intros Hws Hn Hd Hu Hl.
  destruct (add_all_spec ws [] (repeat [] 7)) as (days & E & L & P); [exact Hws|reflexivity|repeat constructor|].
  exists ([] :: days). split; [exact E|]. intros last edge. unfold updateTimeWindow. cbn [windEdge week statusOpen].
  split; intros He; [|destruct (Z.ltb_spec now edge), (Z.eqb_spec edge 0); try lia; reflexivity].
  destruct d as [|d]; [lia|].
  destruct (P d ltac:(lia)) as (Ok & Ne & Op). specialize (Ne (or_intror Hn)). specialize (Op u Hu).
  rewrite nth_repeat in Op. cbn [open_at existsb orb] in Op. rewrite <- Op.
  destruct (Z.ltb_spec now edge); [lia|]. destruct (Z.eqb_spec edge 0); [lia|]. cbn [orb].
  rewrite Hl. cbn [day_of nth]. change (clock_hour _ _) with (minute u).
  pose proof (fun m => check_day_open (minute u) now _ (proj1 (minute_ok u Hu)) Ok m) as G.
  destruct (nth d days []) as [|w l]; [congruence|].
  specialize (G (midnight now (minute u))). destruct (check_day _ _ _ _). exact G.
Qed.

Lemma window_open_iff_witness :
  exists wk, add_all [cs "22:0-6:30"; cs "12:0-13:15"] (week newTimeWindow) = Some wk
    /\ statusOpen (updateTimeWindow (fun _ => (3%nat, 5, 10)) 1700000000 (mkTW false wk 1700000000)) = true
    /\ statusOpen (updateTimeWindow (fun _ => (3%nat, 5, 10)) 1700000000 (mkTW false wk 1700000001)) = false.
Proof.
  destruct (window_open_iff (fun _ => (3%nat, 5, 10)) [(1320, 390); (720, 795)]%nat 3 310 1700000000) as (wk & E & H);
    [reflexivity|discriminate|lia|lia|reflexivity|]. exists wk. split; [exact E|]. split.
  - rewrite (proj1 (H false 1700000000)); [reflexivity|lia].
  - rewrite (proj2 (H false 1700000001)); [reflexivity|lia].
Defined.

(** The edge of a window is computed in single precision: ten minutes before the
    end of a window, the time of the next check is 703 seconds ahead. *)
Example window_edge_late :
  let t := 1700000449 in
  checkWindow (minute 530) (t + 86400) (mkWind (minute 480) (minute 540)) t = (true, t + 703).
Proof. vm_compute. reflexivity. Qed.
