(* ===== verification/DepToken.v ===== *)
(** * Tokens of dependency conditions (lsbatch/daemons/mbd.dep.c: tokenTable, getToken) *)
From stdpp Require Import base list.
From Stdlib Require Import ZArith Ascii String List Bool Lia.
From S2P Require Import Prelude CNum Words.
Import ListNotations.

(** mbd.h *)
Inductive dptType :=
| DPT_AND | DPT_OR | DPT_NOT | DPT_LEFT_ | DPT_RIGHT_ | DPT_DONE | DPT_EXIT | DPT_STARTED | DPT_NAME
| DPT_ENDED | DPT_NUMPEND | DPT_NUMHOLD | DPT_NUMRUN | DPT_NUMEXIT | DPT_NUMDONE | DPT_NUMSTART
| DPT_NUMENDED | DPT_COMMA | DPT_GT | DPT_GE | DPT_LT | DPT_LE | DPT_EQ | DPT_NE | DPT_POST_DONE
| DPT_POST_ERR | DPT_TRUE | DPT_WINDOW.

Definition dptType_eq_dec (a b : dptType) : {a = b} + {a <> b}.
Proof. decide equality. Defined.

Definition teq (a b : dptType) : bool := if dptType_eq_dec a b then true else false.

Lemma teq_refl a : teq a a = true.
Proof. unfold teq. destruct (dptType_eq_dec a a); congruence. Qed.

(** Name, type, and whether a letter behind the name makes it part of a longer
    one. *)
Definition tokenTable : list (cstr * dptType * bool) :=
  [(cs "(", DPT_LEFT_, false);
   (cs ")", DPT_RIGHT_, false);
   (cs "&&", DPT_AND, false);
   (cs "||", DPT_OR, false);
   (cs "exit", DPT_EXIT, true);
   (cs "started", DPT_STARTED, true);
   (cs "ended", DPT_ENDED, true);
   (cs "time", DPT_WINDOW, true);
   (cs "done", DPT_DONE, true);
   (cs "post_done", DPT_POST_DONE, true);
   (cs "post_err", DPT_POST_ERR, true);
   (cs "numpend", DPT_NUMPEND, true);
   (cs "numhold", DPT_NUMHOLD, true);
   (cs "numrun", DPT_NUMRUN, true);
   (cs "numexit", DPT_NUMEXIT, true);
   (cs "numdone", DPT_NUMDONE, true);
   (cs "numstart", DPT_NUMSTART, true);
   (cs "numended", DPT_NUMENDED, true);
   (cs ",", DPT_COMMA, false);
   (cs ">=", DPT_GE, false);
   (cs "<=", DPT_LE, false);
   (cs "==", DPT_EQ, false);
   (cs "!=", DPT_NE, false);
   (cs "<", DPT_LT, false);
   (cs ">", DPT_GT, false);
   (cs "!", DPT_NOT, false)].

Definition isalpha (c : ascii) : bool :=
  let n := nat_of_ascii c in ((65 <=? n) && (n <=? 90) || (97 <=? n) && (n <=? 122))%nat.
Definition isalnum (c : ascii) : bool := isalpha c || isdigit c.

Definition IS_QUOTE (c : ascii) : bool := Ascii.eqb c QT || Ascii.eqb c "'".

Definition IS_VALIDCHAR (c : ascii) : bool :=
  isalnum c
  || existsb (Ascii.eqb c)
       ["*"%char; "_"%char; "."%char; ":"%char; "%"%char; ","%char; "@"%char; "/"%char; "["%char;
        "]"%char; "-"%char].

Definition IS_DELIM (c : ascii) : bool := Ascii.eqb c "," || Ascii.eqb c SP.

(** [strncmp(s, name, strlen(name)) == 0]: what follows the name in [s]. *)
Fixpoint strip_prefix (name s : cstr) : option cstr :=
  match name, s with
  | [], _ => Some s
  | c :: name', d :: s' => if Ascii.eqb c d then strip_prefix name' s' else None
  | _ :: _, [] => None
  end.

(** The first entry of the table that begins the text, and the text behind it. *)
Fixpoint lookup (tab : list (cstr * dptType * bool)) (s : cstr) : option (cstr * dptType * bool * cstr) :=
  match tab with
  | [] => None
  | (name, t, chk) :: tab' =>
      match strip_prefix name s with
      | Some r => Some (name, t, chk, r)
      | None => lookup tab' s
      end
  end.

(** [4 * MAXLINELEN - 1] *)
Definition TOKENLEN : nat := 4 * MAXLINELEN - 1.

(** The characters of a quoted name, the closing mark included; [n] is the room
    left in the token. *)
Fixpoint quoted (quote : ascii) (n : nat) (s : cstr) : cstr * cstr :=
  match n, s with
  | S n', c :: s' =>
      if Ascii.eqb c quote then ([c], s')
      else let '(t, r) := quoted quote n' s' in (c :: t, r)
  | _, _ => ([], s)
  end.

Definition name_char (c : ascii) : bool := IS_VALIDCHAR c && negb (IS_DELIM c).

Fixpoint name_chars (n : nat) (s : cstr) : cstr * cstr :=
  match n, s with
  | S n', c :: s' =>
      if name_char c then let '(t, r) := name_chars n' s' in (c :: t, r) else ([], s)
  | _, _ => ([], s)
  end.

(** A name; [pre] is what the token holds already. *)
Definition name_token (pre s : cstr) : cstr * cstr :=
  match s with
  | c :: s' =>
      if IS_QUOTE c
      then let '(t, r) := quoted c (TOKENLEN - (length pre + 1)) s' in (pre ++ c :: t, r)
      else let '(t, r) := name_chars (TOKENLEN - length pre) s in (pre ++ t, r)
  | [] => (pre, [])
  end.

Definition starts_name (s : cstr) : bool :=
  match s with c :: _ => isalnum c || Ascii.eqb c "*" | [] => false end.

(** [getToken(&sp, &type)]: the token, its type and the text behind it; [None] at
    the end of the text, when [type] is left as it was. *)
Definition getToken (sp : cstr) : option (cstr * dptType * cstr) :=
  match skip_space sp with
  | [] => None
  | s =>
      match lookup tokenTable s with
      | Some (name, t, chk, r) =>
          if starts_name r && chk
          then let '(tok, r') := name_token name r in Some (tok, DPT_NAME, r')
          else Some (name, t, r)
      | None => let '(tok, r) := name_token [] s in Some (tok, DPT_NAME, r)
      end
  end.

(** All tokens of a text, at most [n]. *)
Fixpoint tokens (n : nat) (s : cstr) : list (cstr * dptType) :=
  match n with
  | O => []
  | S n' => match getToken s with Some (t, ty, r) => (t, ty) :: tokens n' r | None => [] end
  end.

Example tokens_ex :
  tokens 20 (cs "done(17[1-3]) && !exit(done2,>=3)")
  = [(cs "done", DPT_DONE); (cs "(", DPT_LEFT_); (cs "17[1-3]", DPT_NAME); (cs ")", DPT_RIGHT_);
     (cs "&&", DPT_AND); (cs "!", DPT_NOT); (cs "exit", DPT_EXIT); (cs "(", DPT_LEFT_);
     (cs "done2", DPT_NAME); (cs ",", DPT_COMMA); (cs ">=", DPT_GE); (cs "3", DPT_NAME);
     (cs ")", DPT_RIGHT_)].
Proof. vm_compute. reflexivity. Qed.

(** ** Progress *)

Lemma skip_space_length s : (length (skip_space s) <= length s)%nat.
Proof. induction s as [|c s IH]; cbn; [lia|]. destruct (isspace c); cbn; lia. Qed.

Lemma strip_prefix_length name s r : strip_prefix name s = Some r ->
  length s = (length name + length r)%nat.
Proof.
  revert s; induction name as [|c name IH]; intros s; cbn; [now intros [= ->]|].
  destruct s as [|d s]; [discriminate|]. destruct (Ascii.eqb c d); [|discriminate]. intros H.
  cbn. now rewrite (IH s).
Qed.

Lemma lookup_length tab s name t chk r : forallb (fun e => negb (length (fst (fst e)) =? 0)%nat) tab = true ->
  lookup tab s = Some (name, t, chk, r) -> (0 < length name)%nat /\ length s = (length name + length r)%nat.
Proof.
  induction tab as [|[[n0 t0] c0] tab IH]; cbn [forallb lookup fst]; [discriminate|]. intros H. bool_split.
  destruct (strip_prefix n0 s) as [x|] eqn:E; [|now apply IH].
  intros [= -> -> -> ->]. apply strip_prefix_length in E. split; [|exact E].
  destruct (Nat.eqb_spec (length name) 0); [discriminate|lia].
Qed.

Lemma quoted_length q n s t r : quoted q n s = (t, r) ->
  length s = (length t + length r)%nat /\ (length t <= n)%nat.
Proof.
  revert s t; induction n as [|n IH]; intros [|c s] t; cbn; try (intros [= <- <-]; cbn; lia).
  destruct (Ascii.eqb c q); [intros [= <- <-]; cbn; lia|].
  destruct (quoted q n s) as [t' r'] eqn:E. intros [= <- <-]. apply IH in E. cbn. lia.
Qed.

Lemma name_chars_length n s t r : name_chars n s = (t, r) ->
  length s = (length t + length r)%nat /\ (length t <= n)%nat.
Proof.
  revert s t; induction n as [|n IH]; intros [|c s] t; cbn; try (intros [= <- <-]; cbn; lia).
  destruct (name_char c); [|intros [= <- <-]; cbn; lia].
  destruct (name_chars n s) as [t' r'] eqn:E. intros [= <- <-]. apply IH in E. cbn. lia.
Qed.

Lemma name_chars_nil n s r : name_chars n s = ([], r) -> s = r.
Proof.
  destruct n, s as [|c s]; cbn; try congruence. destruct (name_char c); [|congruence].
  destruct (name_chars n s). discriminate.
Qed.

Lemma name_token_length pre s t r : name_token pre s = (t, r) -> (length pre < TOKENLEN)%nat ->
  (length pre + length s = length t + length r)%nat /\ (length t <= TOKENLEN)%nat.
Proof.
  unfold name_token. destruct s as [|c s]; [intros [= <- <-]; cbn [length]; lia|]. intros E P. revert E.
  destruct (IS_QUOTE c).
  - destruct (quoted c _ s) as [t' r'] eqn:E. intros [= <- <-]. apply quoted_length in E.
    rewrite length_app. cbn [length]. lia.
  - destruct (name_chars _ (c :: s)) as [t' r'] eqn:E. intros [= <- <-]. apply name_chars_length in E.
    rewrite length_app. lia.
Qed.

(** A token and the text behind it are no longer than the text; nothing is
    consumed only for an empty name, in front of a character that begins no
    token. *)
Lemma getToken_length sp t ty r : getToken sp = Some (t, ty, r) ->
  (length t + length r <= length sp)%nat /\ (length t <= TOKENLEN)%nat
  /\ ((0 < length t)%nat \/ ty = DPT_NAME /\ skip_space sp = r).
Proof.
  unfold getToken. pose proof (skip_space_length sp) as L.
  destruct (skip_space sp) as [|c s] eqn:Es; [discriminate|].
  destruct (lookup tokenTable (c :: s)) as [[[[name t0] chk] r0]|] eqn:E.
  - assert (N : (length name <= 9)%nat).
    { clear - E. unfold tokenTable in E. cbn [lookup] in E.
      repeat match type of E with
      | match ?x with Some _ => _ | None => _ end = _ => destruct x; [injection E as <- _ _ _; cbn; lia|]
      end. discriminate. }
    apply lookup_length in E; [|reflexivity]. unfold TOKENLEN, MAXLINELEN in *.
    destruct (starts_name r0 && chk).
    + destruct (name_token name r0) as [tok r'] eqn:T. intros [= <- <- <-].
      pose proof (name_token_length _ _ _ _ T) as B. unfold TOKENLEN, MAXLINELEN in B. 
      assert (P : exists z, tok = name ++ z).
      { clear - T. unfold name_token in T. destruct r0 as [|d r0]; [injection T as <- _; exists []; now rewrite app_nil_r|].
        destruct (IS_QUOTE d); [destruct (quoted _ _ _)|destruct (name_chars _ _)]; injection T as <- _; eauto. }
      destruct P as [z ->]. rewrite length_app in *. lia.
    + intros [= <- <- <-]. lia.
  - destruct (name_token [] (c :: s)) as [tok r'] eqn:T. intros [= <- <- <-].
    apply name_token_length in T as B; [|unfold TOKENLEN, MAXLINELEN; cbn; lia]. cbn [length] in *.
    split; [lia|]. split; [lia|]. destruct tok as [|x tok]; [right|left; cbn; lia]. split; [reflexivity|].
    revert T. unfold name_token. destruct (IS_QUOTE c); [destruct (quoted _ _ _); cbn; intros [=]|].
    destruct (name_chars _ (c :: s)) as [x y] eqn:N. cbn [app]. intros [= -> ->].
    now apply name_chars_nil in N.
Qed.

(** ** What is left is the end of the text *)

Lemma skip_space_suffix s : skip_space s `suffix_of` s.
Proof. induction s as [|c s IH]; cbn; [done|]. destruct (isspace c); [now apply suffix_cons_r|done]. Qed.

Lemma strip_prefix_suffix name s r : strip_prefix name s = Some r -> r `suffix_of` s.
Proof.
  revert s; induction name as [|c name IH]; intros s; cbn; [now intros [= ->]|].
  destruct s as [|d s]; [discriminate|]. destruct (Ascii.eqb c d); [|discriminate]. intros H. apply suffix_cons_r, IH, H.
Qed.

Lemma lookup_suffix tab s name t chk r : lookup tab s = Some (name, t, chk, r) -> r `suffix_of` s.
Proof.
  induction tab as [|[[n0 t0] c0] tab IH]; cbn [lookup]; [discriminate|].
  destruct (strip_prefix n0 s) eqn:E; [|exact IH]. intros [= -> -> -> ->]. eauto using strip_prefix_suffix.
Qed.

Lemma quoted_suffix q n s t r : quoted q n s = (t, r) -> r `suffix_of` s.
Proof.
  revert s t; induction n as [|n IH]; intros [|c s] t; cbn; try (intros [= <- <-]; done).
  destruct (Ascii.eqb c q); [intros [= <- <-]; now apply suffix_cons_r|].
  destruct (quoted q n s) eqn:E. intros [= <- <-]. eapply suffix_cons_r, IH, E.
Qed.

Lemma name_chars_suffix n s t r : name_chars n s = (t, r) -> r `suffix_of` s.
Proof.
  revert s t; induction n as [|n IH]; intros [|c s] t; cbn; try (intros [= <- <-]; done).
  destruct (name_char c); [|intros [= <- <-]; done].
  destruct (name_chars n s) eqn:E. intros [= <- <-]. eapply suffix_cons_r, IH, E.
Qed.

Lemma name_token_suffix pre s t r : name_token pre s = (t, r) -> r `suffix_of` s.
Proof.
  unfold name_token. destruct s as [|c s]; [now intros [= <- <-]|]. destruct (IS_QUOTE c).
  - destruct (quoted _ _ _) eqn:E. intros [= <- <-]. eapply suffix_cons_r, quoted_suffix, E.
  - destruct (name_chars _ _) eqn:E. intros [= <- <-]. eapply name_chars_suffix, E.
Qed.

Lemma getToken_suffix sp t ty r : getToken sp = Some (t, ty, r) -> r `suffix_of` sp.
Proof.
  unfold getToken. pose proof (skip_space_suffix sp) as S. destruct (skip_space sp) as [|c s]; [discriminate|].
  intros H. etrans; [|exact S]. revert H.
  destruct (lookup tokenTable (c :: s)) as [[[[name t0] chk] r0]|] eqn:E.
  - apply lookup_suffix in E. destruct (starts_name r0 && chk); [|now intros [= <- <- <-]].
    destruct (name_token name r0) eqn:N. intros [= <- <- <-]. apply name_token_suffix in N. etrans; eassumption.
  - destruct (name_token [] (c :: s)) eqn:N. intros [= <- <- <-]. eauto using name_token_suffix.
Qed.
