(* ===== verification/DepCond.v ===== *)
(** * Dependency conditions (lsbatch/daemons/mbd.dep.c)

    A job may wait for a condition on other jobs, such as
    [done(17) && exit(18, >3)].  [parseDepCond] builds a tree of [dptNode]s with
    two stacks; [evalDepCond] computes its value, which it also stores in the
    nodes.  Records of jobs and arrays are reached through pointers: [jData] and
    [jgArrayBase] are kept in heaps, and a node holds references.  Reference
    counts are not modelled; allocation is taken to succeed. *)
From stdpp Require Import base gmap.
From Stdlib Require Import ZArith Ascii String List Bool Lia.
From S2P Require Import Prelude JobId CNum Words ListSet JobArray Window DepToken.
Import ListNotations.
Local Open Scope Z_scope.

(** ** The state of the daemon *)

Inductive nodeKind := JGRP_NODE_JOB | JGRP_NODE_GROUP | JGRP_NODE_ARRAY.

Definition is_array (k : nodeKind) : bool := match k with JGRP_NODE_ARRAY => true | _ => false end.

(** The fields of [struct jData] that conditions use; [array] is
    [ARRAY_DATA(jgrpNode)] when [jgrpNode] is the node of an array. *)
Record jData := mkJob {
  jobId : Z; jStatus : Z; jFlags : Z; startTime : Z; endTime : Z; exitStatus : Z;
  nodeType : nodeKind; nextJob : option Z; uPtr : cstr; jobName : cstr; submitTime : Z;
  array : option Z }.

Record jgArrayBase := mkArray { status : Z; counts : list Z }.

(** [jobIdHT] maps identifiers to records; [children] are the jobs below the root
    of the job tree, an array standing for its elements; [context] is the index
    list of the job being submitted ([setIdxListContext]). *)
Record mbd := mkMbd {
  conf : config; jobIdHT : gmap Z Z; jobs : gmap Z jData; arrays : gmap Z jgArrayBase;
  children : list Z; context : list idxList; now : Z }.

(** [getJobData] *)
Definition getJobData (st : mbd) (id : Z) : option Z := if id <=? 0 then None else jobIdHT st !! id.

(** ** Time windows, as the conditions use them (mbd.window.c, window.c) *)

Class TimeWindows := {
  tw : Type;
  tw_new : tw;
  tw_add : cstr -> tw -> option tw;
  tw_edge : Z -> tw -> tw;
  tw_update : Z -> tw -> tw;
  tw_open : tw -> bool }.

(** The implementation of [Window.v], for a local time. *)
Definition mbd_windows (localtime : Z -> nat * Z * Z) : TimeWindows := {|
  tw := timeWindow;
  tw_new := newTimeWindow;
  tw_add x w := option_map (fun wk => mkTW (statusOpen w) wk (windEdge w)) (addWindow x (week w));
  tw_edge e w := mkTW (statusOpen w) (week w) e;
  tw_update := updateTimeWindow localtime;
  tw_open := statusOpen |}.

(** ** Nodes *)

Inductive dpval := DP_FALSE | DP_TRUE | DP_INVALID | DP_REJECT.

(** [struct jobIdx] *)
Record jobIdx := mkJobIdx { idxs : list idxList; depJobList : list Z }.

Section Dep.
Context `{TW : TimeWindows}.

(** An operator has its operands in [left] and [right]; a negation only in
    [left]. *)
Inductive dptNode :=
| Bin (type : dptType) (value : dpval) (left right : dptNode)
| Neg (value : dpval) (left : dptNode)
| Job (type : dptType) (value : dpval) (opType : dptType) (exitCode : Z) (oneToOne : bool)
    (jobRec : option Z) (idx : option jobIdx)
| Timew (value : dpval) (w : tw)
| Jgrp (type : dptType) (value : dpval) (opType : dptType) (num : Z) (base : option Z).

(** [newNode] for a job: [DPT_EXIT] starts with the operator [DPT_TRUE], the
    other types with the 0 of [calloc], which is [DPT_AND]. *)
Definition newJob (type : dptType) (oneToOne : bool) (jobRec : option Z) (idx : option jobIdx) : dptNode :=
  Job type DP_FALSE (if teq type DPT_EXIT then DPT_TRUE else DPT_AND) 0 oneToOne jobRec idx.

Definition newJgrp (type : dptType) (base : option Z) : dptNode := Jgrp type DP_FALSE DPT_NE 0 base.

(** ** The stacks *)

(** [MERGE_TOP] with the operator [op]: the operand on top of the stack becomes
    the left one. *)
Definition reduce (op : dptType) (operands : list dptNode) : option (list dptNode) :=
  match operands with
  | [] => None
  | operand1 :: r =>
      if teq op DPT_NOT then Some (Neg DP_FALSE operand1 :: r)
      else
        match r with
        | operand2 :: r' => Some (Bin op DP_FALSE operand1 operand2 :: r')
        | [] => None
        end
  end.

(** [MERGE_LEFT]: up to the opening bracket. *)
Fixpoint mergeLeft (operators : list dptType) (operands : list dptNode)
  : option (list dptType * list dptNode) :=
  match operators with
  | [] => None
  | op :: ops =>
      if teq op DPT_LEFT_ then Some (ops, operands)
      else match reduce op operands with Some r => mergeLeft ops r | None => None end
  end.

(** [MERGE_ALL]: as long as it goes. *)
Fixpoint mergeAll (operators : list dptType) (operands : list dptNode) : list dptType * list dptNode :=
  match operators with
  | [] => ([], operands)
  | op :: ops => match reduce op operands with Some r => mergeAll ops r | None => (operators, operands) end
  end.

(** ** Outcomes *)

(** [Fault] is an access through a NULL or dangling pointer, or an overflow of a
    loop counter. *)
Inductive res (A : Type) := Ok (a : A) | Err (e : lsbe) | Fault | OutOfFuel.
#[global] Arguments Ok {A}.
#[global] Arguments Err {A}.
#[global] Arguments Fault {A}.
#[global] Arguments OutOfFuel {A}.

#[global] Instance res_ret : MRet res := fun A a => Ok a.
#[global] Instance res_bind : MBind res := fun A B f m =>
  match m with Ok a => f a | Err e => Err e | Fault => Fault | OutOfFuel => OutOfFuel end.

Definition deref {A} (o : option A) : res A := match o with Some a => Ok a | None => Fault end.
End Dep.

Section Match.
Context (st : mbd).

(** One index of the list: the set with the elements found, or the identifier
    that does not exist. *)
Fixpoint find_elements (id : Z) (js : list Z) (set : list Z) : list Z + Z :=
  match js with
  | [] => inl set
  | i :: js' =>
      match getJobData st (LSB_JOBID id i) with
      | Some r => find_elements id js' (listSetInsert r set)
      | None => inr (LSB_JOBID id i)
      end
  end.

Fixpoint find_all (id : Z) (l : list idxList) (set : list Z) : res (list Z + Z) :=
  match l with
  | [] => Ok (inl set)
  | i :: l' =>
      match idx_values i with
      | Values js =>
          match find_elements id js set with
          | inl set' => find_all id l' set'
          | inr x => Ok (inr x)
          end
      | Overflow js => match find_elements id js set with inl _ => Fault | inr x => Ok (inr x) end
      | NoFuel => Fault
      end
  end.

(** The jobs of the user: all of them, or with [jobDepLastSub] the one submitted
    last when the name does not end in a star. *)
Fixpoint user_jobs (user : cstr) (last : bool) (refs : list Z) (found : list Z) (latest : Z) : res (list Z) :=
  match refs with
  | [] => Ok found
  | r :: refs' =>
      match jobs st !! r with
      | None => Fault
      | Some j =>
          if streq (uPtr j) user then
            if last then
              if latest <? submitTime j then user_jobs user last refs' [r] (submitTime j)
              else user_jobs user last refs' found latest
            else user_jobs user last refs' (found ++ [r]) latest
          else user_jobs user last refs' found latest
      end
  end.

(** The elements that exist, with the identifiers of the array [id]. *)
Definition existing (id : Z) (js : list Z) : list Z :=
  fold_left (fun set i => match getJobData st (LSB_JOBID id i) with
                          | Some r => listSetInsert r set
                          | None => set end) js [].

Definition same_first (a b : list idxList) : bool :=
  match a, b with
  | x :: _, y :: _ => (start x =? start y) && (end_ x =? end_ y) && (step x =? step y)
  | _, _ => false
  end.

(** [checkIdx]: a one-to-one dependency needs an array of the same shape as the
    one being submitted. *)
Definition checkIdx (r : Z) : res (option jobIdx) :=
  match jobs st !! r with
  | None => Fault
  | Some j =>
      let '(dep, _, _) := parseJobArrayIndex (conf st) (jobName j) in
      match dep with
      | d :: _ =>
          if same_first dep (context st) then
            match idx_values d with
            | Values js => Ok (Some (mkJobIdx [] (existing (jobId j) js)))
            | _ => Fault
            end
          else Ok None
      | [] => Ok None
      end
  end.

(** The outcome of [matchJobs]: NULL with [numFoundJob] left as it was
    ([parseJobArrayIndex] failed), NULL with [numFoundJob = 0] and the reply code
    set, or the jobs. *)
Inductive matched :=
| BadIndex
| NotFound (e : lsbe)
| Found (refs : list Z) (idx : option jobIdx).

Fixpoint strstr (pat s : cstr) : option (cstr * cstr) :=
  match strip_prefix pat s with
  | Some r => Some ([], r)
  | None => match s with
            | c :: s' => option_map (fun '(a, b) => (c :: a, b)) (strstr pat s')
            | [] => None
            end
  end.

Definition before (c : ascii) (s : cstr) : cstr := fst (span (fun d => negb (Ascii.eqb d c)) s).

Definition no_job (code : lsbe) : lsbe := match code with LSBE_DEPEND_SYNTAX => LSBE_NO_JOB | e => e end.

(** The number or the name that the token stands for, after the index list is cut
    off. *)
Definition job_of_token (jobp : cstr) : Z * option cstr :=
  match jobp with
  | c :: s =>
      if IS_QUOTE c then (0, Some (before c s))
      else if isint_ jobp then (atoi jobp, None) else (0, Some jobp)
  | [] => (0, Some [])
  end.

Definition ends_in_star (name : cstr) : bool :=
  match rev name with c :: _ => Ascii.eqb c "*" | [] => false end.

(** By number: an array stands for its elements. *)
Definition match_number (id : Z) (oneToOne : bool) (idxList : list idxList) (code : lsbe) : res matched :=
  match getJobData st id with
  | None => Ok (NotFound (no_job code))
  | Some r =>
      match jobs st !! r with
      | None => Fault
      | Some j =>
          if oneToOne then
            if is_array (nodeType j) then
              x ← checkIdx r;
              match x with
              | Some ix => Ok (Found [r] (Some ix))
              | None => Ok (NotFound LSBE_DEP_ARRAY_SIZE)
              end
            else Ok (NotFound (no_job code))
          else
            let l := match idxList with
                     | [] => if is_array (nodeType j)
                             then fst (fst (parseJobArrayIndex (conf st) (jobName j))) else []
                     | _ => idxList
                     end in
            match l with
            | [] => Ok (Found [r] None)
            | _ =>
                x ← find_all id l [];
                match x with
                | inl set => Ok (Found [r] (Some (mkJobIdx l set)))
                | inr _ => Ok (NotFound (no_job code))
                end
            end
      end
  end.

(** By name: the name itself is not compared with the names of the jobs. *)
Definition match_name (name user : cstr) (oneToOne : bool) (idxList : list idxList) (code : lsbe) : res matched :=
  if (length name =? 0)%nat then Ok (NotFound (no_job code))
  else
    found ← user_jobs user (jobDepLastSub (conf st) && negb (ends_in_star name)) (children st) [] 0;
    match found with
    | [] => Ok (NotFound (no_job code))
    | r :: _ =>
        if oneToOne then
          x ← checkIdx r;
          match x with
          | Some ix => Ok (Found found (Some ix))
          | None => Ok (NotFound LSBE_DEP_ARRAY_SIZE)
          end
        else Ok (Found found (match idxList with [] => None | _ => Some (mkJobIdx idxList []) end))
    end.

(** [matchJobs]; [flag] is the value of [*flag], [None] for the pointer NULL.
    The result has the new value of [*flag]. *)
Definition matchJobs (jobp user : cstr) (flag : option bool) (code : lsbe) : res (matched * option bool) :=
  let '(jobp, flag) :=
    match strstr (cs "[*]") jobp with
    | Some (a, _) => (a, option_map (fun _ => true) flag)
    | None => (jobp, flag)
    end in
  let '(l, error, _) := parseJobArrayIndex (conf st) jobp in
  match error with
  | LSBE_NO_ERROR =>
      let one := match flag with Some b => b | None => false end in
      let '(id, name) := job_of_token (before "[" jobp) in
      r ← (if id =? 0
             then match name with Some n => match_name n user one l code | None => Ok (NotFound (no_job code)) end
             else match_number id one l code);
      Ok (r, flag)
  | _ => Ok (BadIndex, flag)
  end.
End Match.

(** ** Parsing *)

Section Parse.
Context `{TW : TimeWindows} (st : mbd) (user : cstr) (windowConf : bool).

(** [preceTable] has three entries; [after] is the byte behind it, which is read
    for an opening bracket. *)
Context (after : Z).

Definition prece (t : dptType) : Z :=
  match t with DPT_AND => 2 | DPT_OR => 1 | DPT_NOT => 3 | _ => after end.

(** The local variables that live across the tokens. *)
Record pstate := mkP {
  dependCond : cstr; operators : list dptType; operands : list dptNode;
  numJob : nat; opFlag : bool; replyCode : lsbe }.

Definition set_cond (p : pstate) (s : cstr) : pstate :=
  mkP s (operators p) (operands p) (numJob p) (opFlag p) (replyCode p).
Definition set_ops (p : pstate) (ops : list dptType) (opnds : list dptNode) : pstate :=
  mkP (dependCond p) ops opnds (numJob p) (opFlag p) (replyCode p).
Definition set_match (p : pstate) (n : nat) (f : bool) (e : lsbe) : pstate :=
  mkP (dependCond p) (operators p) (operands p) n f e.

(** [goto Error] *)
Definition error {A} (p : pstate) : res A := Err (replyCode p).

Definition push_operand (n : dptNode) (p : pstate) : pstate := set_ops p (operators p) (n :: operands p).

(** A token that must be there. *)
Definition next_token (p : pstate) : res (cstr * dptType * pstate) :=
  match getToken (dependCond p) with
  | Some (t, ty, r) => Ok (t, ty, set_cond p r)
  | None => error p
  end.

Definition expect_token (want : dptType) (p : pstate) : res pstate :=
  '(_, ty, p') ← next_token p;
  if teq ty want then Ok p' else error p.

(** [&&], [||], [!]: at most one operator of the stack is merged. *)
Definition operator (t : dptType) (p : pstate) : res pstate :=
  match operators p with
  | prev :: ops =>
      if prece t <? prece prev then
        match reduce prev (operands p) with
        | Some r => Ok (set_ops p (t :: ops) r)
        | None => error p
        end
      else Ok (set_ops p (t :: prev :: ops) (operands p))
  | [] => Ok (set_ops p [t] (operands p))
  end.

(** [createMoreNodes]: the nodes are joined by [DPT_AND] one after another. *)
Fixpoint createMoreNodes (type : dptType) (refs : list Z) (idx : option jobIdx) (first : bool)
    (opnds : list dptNode) : option (list dptNode) :=
  match refs with
  | [] => Some opnds
  | r :: refs' =>
      let opnds := newJob type false (Some r) idx :: opnds in
      if first then createMoreNodes type refs' idx false opnds
      else match reduce DPT_AND opnds with
           | Some opnds' => createMoreNodes type refs' idx false opnds'
           | None => None
           end
  end.

(** The result of [matchJobs] becomes one operand.  [flag] tells whether
    [&opFlag] was passed. *)
Definition job_operand (type : dptType) (token : cstr) (flag : bool) (p : pstate) : res pstate :=
  '(m, f) ← matchJobs st token user (if flag then Some (opFlag p) else None) (replyCode p);
  let f := match f with Some b => b | None => opFlag p end in
  match m with
  | Found refs idx =>
      let p := set_match p (length refs) f (replyCode p) in
      match refs with
      | [r] =>
          Ok (push_operand (newJob type (flag && f) (Some r) idx)
                (if flag then set_match p 1 false (replyCode p) else p))
      | _ =>
          match createMoreNodes type refs idx true (operands p) with
          | Some opnds => Ok (set_ops p (operators p) opnds)
          | None => error p
          end
      end
  | _ =>
      let '(n, e) := match m with NotFound e => (0%nat, e) | _ => (numJob p, replyCode p) end in
      let p := set_match p n f e in
      if replay (conf st)
      then if (1 <? n)%nat then Fault else Ok (push_operand (newJob type false None None) p)
      else error p
  end.

(** The operator and the number behind a comma. *)
Fixpoint set_exit (op : dptType) (code : Z) (n : dptNode) : dptNode :=
  match n with
  | Bin t v l r => Bin t v (set_exit op code l) (set_exit op code r)
  | Neg v l => Neg v (set_exit op code l)
  | Job t v _ _ o j i => Job t v op code o j i
  | n => n
  end.

Definition set_num (op : dptType) (num : Z) (n : dptNode) : dptNode :=
  match n with Jgrp t v _ _ b => Jgrp t v op num b | n => n end.

Definition on_top (f : dptNode -> dptNode) (p : pstate) : pstate :=
  match operands p with n :: r => set_ops p (operators p) (f n :: r) | [] => p end.

Definition is_cmp (t : dptType) : bool :=
  match t with DPT_GT | DPT_GE | DPT_LT | DPT_LE | DPT_EQ | DPT_NE => true | _ => false end.

(** [)], or a comma, an optional comparison and a number; [star]: a star stands
    for [INFINIT_INT]. *)
Definition comparison (star : bool) (set : dptType -> Z -> dptNode -> dptNode) (p : pstate) : res pstate :=
  '(_, ty, p) ← next_token p;
  if teq ty DPT_RIGHT_ then Ok p
  else if teq ty DPT_COMMA then
    '(tok, ty, p) ← next_token p;
    if is_cmp ty || teq ty DPT_NAME then
      '(op, tok, p) ←
        (if is_cmp ty
         then '(tok, ty', p) ← next_token p;
              if teq ty' DPT_NAME then Ok (ty, tok, p) else error p
         else Ok (DPT_EQ, tok, p));
      if isint_ tok then expect_token DPT_RIGHT_ (on_top (set op (atoi tok)) p)
      else if star && streq tok (cs "*") then expect_token DPT_RIGHT_ (on_top (set op INFINIT_INT) p)
      else error p
    else error p
  else error p.

(** [done(...)] and the like *)
Definition job_condition (type : dptType) (p : pstate) : res pstate :=
  if windowConf then error p
  else
    p ← expect_token DPT_LEFT_ p;
    '(tok, _, p) ← next_token p;
    p ← job_operand type tok true p;
    if teq type DPT_EXIT then comparison false set_exit p else expect_token DPT_RIGHT_ p.

(** [numdone(...)] and the like.  In the replay a job that is not an array is
    taken for one. *)
Definition num_condition (type : dptType) (p : pstate) : res pstate :=
  p ← expect_token DPT_LEFT_ p;
  '(tok, _, p) ← next_token p;
  let null (p : pstate) :=
    if replay (conf st) then Ok (push_operand (newJgrp type None) p) else error p in
  let p' := set_match p (numJob p) (opFlag p) LSBE_ARRAY_NULL in
  p ←
    match (if isint_ tok then getJobData st (atoi tok) else None) with
    | None => null p'
    | Some r =>
        j ← deref (jobs st !! r);
        match array j with
        | Some b => Ok (push_operand (newJgrp type (Some b)) p)
        | None => if replay (conf st) then Fault else error p'
        end
    end;
  comparison true set_num p.

(** The names between the brackets of [time(...)]; [None] is an error. *)
Fixpoint window_names (fuel : nat) (s : cstr) : res (option (list cstr * cstr)) :=
  match fuel with
  | O => OutOfFuel
  | S f =>
      match getToken s with
      | None => Ok None
      | Some (tok, ty, r) =>
          if teq ty DPT_RIGHT_ then Ok (Some ([], r))
          else if teq ty DPT_NAME then
            x ← window_names f r;
            Ok (option_map (fun '(l, r) => (tok :: l, r)) x)
          else Ok None
      end
  end.

Fixpoint add_windows (l : list cstr) (w : tw) : option tw :=
  match l with
  | [] => Some w
  | x :: l' => match tw_add x w with Some w' => add_windows l' w' | None => None end
  end.

Definition window_condition (fuel : nat) (p : pstate) : res pstate :=
  p ← expect_token DPT_LEFT_ p;
  x ← window_names fuel (dependCond p);
  match x with
  | None => error p
  | Some (l, r) =>
      match add_windows l tw_new with
      | None => error p
      | Some w =>
          let w := tw_update (now st) (tw_edge (now st) w) in
          Ok (push_operand (Timew DP_FALSE w) (set_cond p r))
      end
  end.

(** One round of the loop over the tokens. *)
Definition token_step (fuel : nat) (tok : cstr) (ty : dptType) (p : pstate) : res pstate :=
  match ty with
  | DPT_AND | DPT_OR | DPT_NOT => operator ty p
  | DPT_LEFT_ => Ok (set_ops p (DPT_LEFT_ :: operators p) (operands p))
  | DPT_RIGHT_ =>
      match mergeLeft (operators p) (operands p) with
      | Some (ops, opnds) => Ok (set_ops p ops opnds)
      | None => error p
      end
  | DPT_WINDOW => window_condition fuel p
  | DPT_DONE | DPT_POST_DONE | DPT_POST_ERR | DPT_EXIT | DPT_STARTED | DPT_ENDED => job_condition ty p
  | DPT_NAME => if windowConf then error p else job_operand DPT_DONE tok false p
  | DPT_NUMPEND | DPT_NUMHOLD | DPT_NUMRUN | DPT_NUMEXIT | DPT_NUMDONE | DPT_NUMSTART | DPT_NUMENDED =>
      num_condition ty p
  | _ => error p
  end.

Fixpoint parse_loop (fuel : nat) (p : pstate) : res pstate :=
  match fuel with
  | O => OutOfFuel
  | S f =>
      match getToken (dependCond p) with
      | None => Ok p
      | Some (tok, ty, r) => p' ← token_step f tok ty (set_cond p r); parse_loop f p'
      end
  end.

(** The end of [parseDepCond]: one tree, and no operator left. *)
Definition finish (p : pstate) : res dptNode :=
  match mergeAll (operators p) (operands p) with
  | ([], [root]) => Ok root
  | _ => error p
  end.

Definition parse_fuel (fuel : nat) (cond : cstr) : res dptNode :=
  p ← parse_loop fuel (mkP cond [] [] 0 false LSBE_DEPEND_SYNTAX); finish p.

Definition parseDepCond (cond : cstr) : res dptNode := parse_fuel (S (length cond)) cond.
End Parse.

(** ** Evaluation *)

(** lsbatch.h, daemons.h, mbd.h *)
Definition JOB_STAT_PEND : Z := 0x01.
Definition JOB_STAT_PSUSP : Z := 0x02.
Definition JOB_STAT_EXIT : Z := 0x20.
Definition JOB_STAT_DONE : Z := 0x40.
Definition JOB_STAT_PDONE : Z := 0x80.
Definition JOB_STAT_PERR : Z := 0x100.
Definition JOB_STAT_VOID : Z := 0x00100000.
Definition JOB_STAT_PRE_EXEC : Z := 0x04000000.
Definition JFLAG_LASTRUN_SUCC : Z := 0x002.
Definition JGRP_VOID : Z := -1.

Definition IS_PEND (s : Z) : bool := has s JOB_STAT_PEND || has s JOB_STAT_PSUSP.
Definition IS_FINISH (s : Z) : bool := has s JOB_STAT_DONE || has s JOB_STAT_EXIT.
Definition IS_POST_DONE (s : Z) : bool := Z.land s JOB_STAT_PDONE =? JOB_STAT_PDONE.
Definition IS_POST_ERR (s : Z) : bool := Z.land s JOB_STAT_PERR =? JOB_STAT_PERR.
Definition IS_POST_FINISH (s : Z) : bool := IS_POST_DONE s || IS_POST_ERR s.

Definition opExpr (opType : dptType) (operand1 operand2 : Z) : bool :=
  match opType with
  | DPT_LT => operand1 <? operand2
  | DPT_LE => operand1 <=? operand2
  | DPT_GT => operand2 <? operand1
  | DPT_GE => operand2 <=? operand1
  | DPT_EQ => operand1 =? operand2
  | DPT_NE => negb (operand1 =? operand2)
  | DPT_TRUE => true
  | _ => false
  end.

Definition JGRP_COUNT_NJOBS : nat := 0.
Definition JGRP_COUNT_PEND : nat := 1.
Definition JGRP_COUNT_NPSUSP : nat := 2.
Definition JGRP_COUNT_NRUN : nat := 3.
Definition JGRP_COUNT_NEXIT : nat := 6.
Definition JGRP_COUNT_NDONE : nat := 7.

Definition getCounterOfDep (type : dptType) (counts : list Z) : Z :=
  let c i := nth i counts 0 in
  match type with
  | DPT_NUMPEND => c JGRP_COUNT_PEND
  | DPT_NUMRUN => c JGRP_COUNT_NRUN
  | DPT_NUMHOLD => c JGRP_COUNT_NPSUSP
  | DPT_NUMEXIT => c JGRP_COUNT_NEXIT
  | DPT_NUMDONE => c JGRP_COUNT_NDONE
  | DPT_NUMSTART => wrap32 (wrap32 (c JGRP_COUNT_NJOBS - c JGRP_COUNT_PEND) - c JGRP_COUNT_NPSUSP)
  | DPT_NUMENDED => wrap32 (c JGRP_COUNT_NEXIT + c JGRP_COUNT_NDONE)
  | _ => 0
  end.

(** [depJob == NULL || depJob->endTime < t] *)
Definition earlier (depJob : option jData) (t : Z) : bool :=
  match depJob with None => true | Some d => endTime d <? t end.

Definition evalJobDep (type opType : dptType) (exitCode : Z) (j : jData) (depJob : option jData) : bool :=
  let s := jStatus j in
  match type with
  | DPT_DONE =>
      earlier depJob (endTime j)
      && (has s JOB_STAT_DONE || IS_PEND s && has (jFlags j) JFLAG_LASTRUN_SUCC)
  | DPT_POST_DONE => earlier depJob (endTime j) && (IS_POST_DONE s && has s JOB_STAT_DONE)
  | DPT_POST_ERR => earlier depJob (endTime j) && (IS_POST_ERR s && has s JOB_STAT_DONE)
  | DPT_EXIT =>
      earlier depJob (endTime j) && opExpr opType (Z.shiftr (exitStatus j) 8) exitCode
      && (IS_FINISH s || IS_PEND s && negb (has (jFlags j) JFLAG_LASTRUN_SUCC))
      && negb (has s JOB_STAT_DONE)
  | DPT_ENDED => earlier depJob (endTime j) && (IS_FINISH s || IS_PEND s)
  | DPT_STARTED =>
      negb (startTime j =? 0) && earlier depJob (startTime j) && negb (has s JOB_STAT_PRE_EXEC)
  | _ => false
  end.

(** The job will not satisfy the condition any more. *)
Definition hopeless (type : dptType) (s : Z) : bool :=
  has s JOB_STAT_VOID
  || IS_FINISH s
     && negb (negb (IS_POST_FINISH s) && has s JOB_STAT_DONE
              && (teq type DPT_POST_DONE || teq type DPT_POST_ERR)).

Section Eval.
Context `{TW : TimeWindows} (st : mbd).

(** The loop over the jobs of a node.  [ptr] is the rest of [depJobList] when it
    is used; otherwise the elements of the array are linked by [nextJob].
    [all] is false for a single job. *)
Fixpoint eval_jobs (fuel : nat) (test : jData -> bool) (skip : Z -> bool) (type : dptType) (all : bool)
    (jpbw : option Z) (ptr : option (list Z)) (value : dpval) : res dpval :=
  match fuel with
  | O => OutOfFuel
  | S f =>
      match jpbw with
      | None => Ok value
      | Some r =>
          match jobs st !! r with
          | None => Fault
          | Some j =>
              let next (value : dpval) :=
                if all then
                  match ptr with
                  | Some (x :: l) => eval_jobs f test skip type all (Some x) (Some l) value
                  | Some [] => eval_jobs f test skip type all None ptr value
                  | None => eval_jobs f test skip type all (nextJob j) None value
                  end
                else eval_jobs f test skip type all None ptr value in
              if skip (jobId j) then next value
              else if test j then next DP_TRUE
              else if hopeless type (jStatus j) then Ok DP_INVALID
              else Ok DP_FALSE
          end
      end
  end.

(** The element with the index of the waiting job, or else the last one: the loop
    over an iterator of [depJobList], whose current element is [r]. *)
Fixpoint one_to_one (arrayIdx : Z) (r : Z) (pos : list Z) : res Z :=
  match jobs st !! r with
  | None => Fault
  | Some j =>
      if arrayIdx =? LSB_ARRAY_IDX (jobId j) then Ok r
      else match pos with
           | [] => Ok r
           | r' :: pos' => one_to_one arrayIdx r' pos'
           end
  end.

(** The chain of [nextJob] visits a job once, so the number of jobs bounds it; a
    list of elements is bounded by its length. *)
Definition eval_fuel (idx : option jobIdx) : nat :=
  (3 + size (jobs st) + match idx with Some i => length (depJobList i) | None => 0 end)%nat.

Definition eval_job (type opType : dptType) (exitCode : Z) (one : bool) (jobRec : option Z) (idx : option jobIdx)
    (value : dpval) (depJob : option jData) : res dpval :=
  match jobRec with
  | None => Ok DP_INVALID
  | Some r =>
      match jobs st !! r with
      | None => Fault
      | Some j =>
          let arr := is_array (nodeType j) in
          let test j := evalJobDep type opType exitCode j depJob in
          let skip id := match idx with Some i => negb (inIdxList id (idxs i)) && negb one | None => false end in
          let run jpbw ptr := eval_jobs (eval_fuel idx) test skip type (arr && negb one) jpbw ptr value in
          if arr then
            if one then
              match depJob with
              | None => Fault
              | Some d =>
                  let arrayIdx := LSB_ARRAY_IDX (jobId d) in
                  match getJobData st (LSB_JOBID (jobId j) arrayIdx) with
                  | Some x => run (Some x) None
                  | None =>
                      match idx with
                      | None => Ok DP_INVALID
                      | Some i =>
                          match listSetIteratorBegin (depJobList i) with
                          | None => Fault
                          | Some (r1, pos) => x ← one_to_one arrayIdx r1 pos; run (Some x) None
                          end
                      end
                  end
              end
            else
              match idx with
              | Some (mkJobIdx _ (x :: l)) => run (Some x) (Some l)
              | _ => run (nextJob j) None
              end
          else run (Some r) None
      end
  end.

(** The value and the node with what is stored in it. *)
Fixpoint evalDepCond (node : dptNode) (depJob : option jData) : res (dpval * dptNode) :=
  match node with
  | Bin DPT_OR _ l r =>
      '(v, l') ← evalDepCond l depJob;
      match v with
      | DP_REJECT => Ok (DP_REJECT, Bin DPT_OR DP_REJECT l' r)
      | DP_TRUE => Ok (DP_TRUE, Bin DPT_OR DP_TRUE l' r)
      | DP_FALSE =>
          '(w, r') ← evalDepCond r depJob;
          let v := match w with DP_REJECT => DP_REJECT | DP_TRUE => DP_TRUE | _ => DP_FALSE end in
          Ok (v, Bin DPT_OR v l' r')
      | DP_INVALID => '(w, r') ← evalDepCond r depJob; Ok (w, Bin DPT_OR w l' r')
      end
  | Bin DPT_AND _ l r =>
      '(v, l') ← evalDepCond l depJob;
      match v with
      | DP_INVALID | DP_REJECT => Ok (v, Bin DPT_AND v l' r)
      | DP_FALSE =>
          '(w, r') ← evalDepCond r depJob;
          let v := match w with DP_INVALID | DP_REJECT => w | _ => DP_FALSE end in
          Ok (v, Bin DPT_AND v l' r')
      | DP_TRUE => '(w, r') ← evalDepCond r depJob; Ok (w, Bin DPT_AND w l' r')
      end
  | Bin t v l r => Ok (v, Bin t v l r)
  | Neg _ l =>
      '(v, l') ← evalDepCond l depJob;
      let v := match v with DP_REJECT => DP_REJECT | DP_FALSE | DP_INVALID => DP_TRUE | DP_TRUE => DP_FALSE end in
      Ok (v, Neg v l')
  | Job t v op code one j idx =>
      v' ← eval_job t op code one j idx v depJob; Ok (v', Job t v' op code one j idx)
  | Timew _ w =>
      let w' := tw_update (now st) w in
      let v := if tw_open w' then DP_TRUE else DP_FALSE in
      Ok (v, Timew v w')
  | Jgrp t v op num None => Ok (DP_INVALID, Jgrp t DP_INVALID op num None)
  | Jgrp t v op num (Some b) =>
      match arrays st !! b with
      | None => Fault
      | Some a =>
          if status a =? JGRP_VOID then Ok (DP_INVALID, Jgrp t DP_INVALID op num None)
          else
            let n :=
              if num =? INFINIT_INT then
                let m := nth JGRP_COUNT_NJOBS (counts a) 0 in if m <=? 0 then INFINIT_INT else m
              else num in
            let v := if opExpr op (getCounterOfDep t (counts a)) n then DP_TRUE else DP_FALSE in
            Ok (v, Jgrp t v op num (Some b))
      end
  end.

Fixpoint resetDepCond (node : dptNode) : dptNode :=
  match node with
  | Bin t _ l r =>
      match t with
      | DPT_AND | DPT_OR => Bin t DP_FALSE (resetDepCond l) (resetDepCond r)
      | _ => Bin t DP_FALSE l r
      end
  | Neg _ l => Neg DP_FALSE (resetDepCond l)
  | Job t _ op code one j idx => Job t DP_FALSE op code one j idx
  | Timew _ w => Timew DP_FALSE w
  | Jgrp t _ op num b => Jgrp t DP_FALSE op num b
  end.
End Eval.
