(* ===== verification/DepParse.v ===== *)
(** * The parser of dependency conditions: lemmas (lsbatch/daemons/mbd.dep.c)

    How much text every step consumes, and what the steps do on the text of a
    condition: [cond] is the abstract syntax, [text] its concrete form. *)
From stdpp Require Import base gmap.
From Stdlib Require Import ZArith Ascii String List Bool Lia.
From S2P Require Import Prelude JobId CNum Words JobArray Window DepToken DepCond.
Import ListNotations.
Local Open Scope Z_scope.

(** ** Consumption *)

Section Shrink.
Context `{TW : TimeWindows} (st : mbd) (user : cstr) (windowConf : bool) (after : Z).

(** The length of the text not read yet, and how the texts of two states are
    related: the text of the later one is the end of the text of the earlier. *)
Definition todo (p : pstate) : nat := length (dependCond p).
Definition later (p' p : pstate) : Prop := dependCond p' `suffix_of` dependCond p.

Lemma later_trans p q r : later p q -> later q r -> later p r.
Proof. unfold later. intros. etrans; eassumption. Qed.

Lemma later_same p' p : dependCond p' = dependCond p -> later p' p.
Proof. unfold later. now intros ->. Qed.

Lemma later_todo p' p : later p' p -> (todo p' <= todo p)%nat.
Proof. apply suffix_length. Qed.

Lemma bind_Ok {A B} (m : res A) (f : A -> res B) b : mbind f m = Ok b -> exists a, m = Ok a /\ f a = Ok b.
Proof. destruct m; cbn; try discriminate. eauto. Qed.

Ltac ok_split :=
  repeat match goal with
  | H : mbind _ _ = Ok _ |- _ => apply bind_Ok in H as (? & ? & ?)
  | H : (let '_ := ?x in _) = Ok _ |- _ => destruct x
  | x : _ * _ |- _ => destruct x
  | H : error _ = Ok _ |- _ => discriminate H
  | H : Err _ = Ok _ |- _ => discriminate H
  | H : Fault = Ok _ |- _ => discriminate H
  | H : OutOfFuel = Ok _ |- _ => discriminate H
  | H : (if ?b then _ else _) = Ok _ |- _ => destruct b eqn:?
  | H : Ok _ = Ok _ |- _ => injection H as H; subst
  end.

(** Chains of [later]. *)
Ltac chain := repeat first [eassumption | apply later_same; reflexivity | eapply later_trans; [eassumption|]].

Lemma next_token_later p t ty p' : next_token p = Ok (t, ty, p') -> later p' p.
Proof.
  unfold next_token. destruct (getToken (dependCond p)) as [[[t0 ty0] r]|] eqn:E; [|discriminate].
  intros [= <- <- <-]. exact (getToken_suffix _ _ _ _ E).
Qed.

Lemma expect_token_later w p p' : expect_token w p = Ok p' -> later p' p.
Proof. unfold expect_token. intros H. ok_split. eauto using next_token_later. Qed.

Lemma on_top_later f (p p' : pstate) : later p' (on_top f p) -> later p' p.
Proof. unfold on_top, later. now destruct (operands p). Qed.

Lemma comparison_later b set p p' : comparison b set p = Ok p' -> later p' p.
Proof.
  unfold comparison. intros H. ok_split;
    repeat match goal with
    | H : next_token _ = Ok _ |- _ => apply next_token_later in H
    | H : expect_token _ _ = Ok _ |- _ => apply expect_token_later in H
    | H : later _ (on_top _ _) |- _ => apply on_top_later in H
    end; chain.
Qed.

Lemma job_operand_later ty tok f p p' : job_operand st user ty tok f p = Ok p' -> later p' p.
Proof.
  unfold job_operand. intros H. apply bind_Ok in H as ([m fl] & E & H).
  destruct m as [|e|refs idx].
  1,2: ok_split; chain.
  destruct refs as [|r [|r' refs]]; ok_split; try destruct f; chain.
Qed.

Ltac later_facts :=
  repeat match goal with
  | H : next_token _ = Ok _ |- _ => apply next_token_later in H
  | H : expect_token _ _ = Ok _ |- _ => apply expect_token_later in H
  | H : comparison _ _ _ = Ok _ |- _ => apply comparison_later in H
  | H : job_operand _ _ _ _ _ _ = Ok _ |- _ => apply job_operand_later in H
  end.

Lemma job_condition_later ty p p' : job_condition st user windowConf ty p = Ok p' -> later p' p.
Proof. unfold job_condition. intros H. ok_split; later_facts; chain. Qed.

Lemma num_condition_later ty p p' : num_condition st ty p = Ok p' -> later p' p.
Proof.
  unfold num_condition. intros H. apply bind_Ok in H as (p1 & H1 & H). apply bind_Ok in H as ([[tok t] p2] & H2 & H).
  apply bind_Ok in H as (p3 & H3 & H). later_facts.
  assert (later p3 p2); [|chain].
  clear - H3. destruct (if isint_ tok then getJobData st (atoi tok) else None) as [r|]; ok_split; chain.
Qed.

Lemma window_names_later fuel s l r : window_names fuel s = Ok (Some (l, r)) -> r `suffix_of` s.
Proof.
  revert s l; induction fuel as [|f IH]; intros s l; cbn [window_names]; [discriminate|].
  destruct (getToken s) as [[[tok ty] r0]|] eqn:E; [|discriminate]. apply getToken_suffix in E.
  destruct (teq ty DPT_RIGHT_); [now intros [= <- <-]|]. destruct (teq ty DPT_NAME); [|discriminate].
  intros H. apply bind_Ok in H as ([[l1 r1]|] & H1 & H); [|discriminate]. injection H as <- <-.
  apply IH in H1. etrans; eassumption.
Qed.

Lemma window_condition_later fuel p p' : window_condition st fuel p = Ok p' -> later p' p.
Proof.
  unfold window_condition. intros H. apply bind_Ok in H as (p1 & H1 & H). apply bind_Ok in H as ([[l r]|] & H2 & H);
    [|discriminate]. apply window_names_later in H2. later_facts. destruct (add_windows l tw_new); ok_split.
  unfold later in *. cbn. etrans; eassumption.
Qed.

Lemma token_step_later fuel tok ty p p' : token_step st user windowConf after fuel tok ty p = Ok p' -> later p' p.
Proof.
  intros H. destruct ty; cbn [token_step] in H; try discriminate H;
    try (eapply job_condition_later; exact H); try (eapply num_condition_later; exact H);
    try (eapply window_condition_later; exact H).
  1-3: unfold operator in H; destruct (operators p) as [|prev ops]; ok_split; [chain| |chain];
    destruct (reduce prev (operands p)); ok_split; chain.
  - ok_split. chain.
  - destruct (mergeLeft (operators p) (operands p)) as [[]|]; ok_split. chain.
  - ok_split. later_facts. exact H.
Qed.

(** An empty name stands for no job. *)
Lemma empty_name ty f p : replay (conf st) = false ->
  exists e, job_operand st user ty [] f p = Err e.
Proof.
  intros R. unfold job_operand, matchJobs. cbn. destruct f; cbn; rewrite R; eauto.
Qed.

(** Every round of the loop takes something from the text. *)
Lemma round_shrinks fuel p tok ty r p' : replay (conf st) = false ->
  getToken (dependCond p) = Some (tok, ty, r) ->
  token_step st user windowConf after fuel tok ty (set_cond p r) = Ok p' -> (todo p' < todo p)%nat.
Proof.
  intros R E H. pose proof (later_todo _ _ (token_step_later _ _ _ _ _ H)) as L. apply getToken_length in E as (E1 & _ & E2).
  unfold todo in *. cbn [dependCond set_cond] in L. destruct E2 as [|[-> S]]; [lia|].
  destruct tok as [|c tok]; [|cbn in E1; lia]. cbn [token_step] in H. destruct windowConf; [discriminate|].
  destruct (empty_name DPT_DONE false (set_cond p r) R) as [e X]. congruence.
Qed.
End Shrink.

(** ** Conditions and their text *)

(** A condition on a job, on its exit code, or on the counters of an array. *)
Inductive atom :=
| JobAtom (type : dptType) (id : Z)
| ExitAtom (id : Z) (op : dptType) (code : Z)
| NumAtom (type : dptType) (id : Z) (op : dptType) (num : Z).

Inductive cond :=
| Atom (a : atom)
| And (a b : cond)
| Or (a b : cond)
| Not (a : cond).

Definition type_text (t : dptType) : cstr :=
  match find (fun e => teq (snd (fst e)) t) tokenTable with Some (n, _, _) => n | None => [] end.

Definition atom_text (a : atom) : cstr :=
  match a with
  | JobAtom t id => type_text t ++ "("%char :: dec id ++ [")"%char]
  | ExitAtom id op code =>
      type_text DPT_EXIT ++ "("%char :: dec id ++ ","%char :: type_text op ++ dec code ++ [")"%char]
  | NumAtom t id op num =>
      type_text t ++ "("%char :: dec id ++ ","%char :: type_text op ++ dec num ++ [")"%char]
  end.

Definition paren (b : bool) (s : cstr) : cstr := if b then "("%char :: s ++ [")"%char] else s.

(** The text of a condition as an operand: of [||] on the right (level 0), of
    [||] on the left (1), of [&&] or [!] (2).  An operand of [&&] that is not a
    single condition is put in brackets. *)
Fixpoint text (e : cond) (level : nat) : cstr :=
  match e with
  | Atom a => atom_text a
  | And a b => paren (1 <? level)%nat (text a 2 ++ cs " && " ++ text b 2)
  | Not a => paren (1 <? level)%nat (cs "!" ++ text a 2)
  | Or a b => paren (0 <? level)%nat (text a 1 ++ cs " || " ++ text b 0)
  end.

Example text_ex :
  text (Or (And (Atom (JobAtom DPT_DONE 1)) (Not (Atom (ExitAtom 2 DPT_GE 3)))) (Atom (JobAtom DPT_ENDED 4))) 0
  = cs "done(1) && (!exit(2,>=3)) || ended(4)".
Proof. vm_compute. reflexivity. Qed.

(** ** Tokens of the text *)

Definition is_job_type (t : dptType) : bool :=
  match t with DPT_DONE | DPT_POST_DONE | DPT_POST_ERR | DPT_EXIT | DPT_STARTED | DPT_ENDED => true | _ => false end.
Definition is_num_type (t : dptType) : bool :=
  match t with
  | DPT_NUMPEND | DPT_NUMHOLD | DPT_NUMRUN | DPT_NUMEXIT | DPT_NUMDONE | DPT_NUMSTART | DPT_NUMENDED => true
  | _ => false
  end.

Lemma token_keyword t r : is_job_type t || is_num_type t = true ->
  getToken (type_text t ++ "("%char :: r) = Some (type_text t, t, "("%char :: r).
Proof. destruct t; cbn [is_job_type is_num_type orb]; try discriminate; reflexivity. Qed.

(** A mark of the table that is never part of a name. *)
Lemma getToken_mark s c s' name t r : skip_space s = c :: s' -> lookup tokenTable (c :: s') = Some (name, t, false, r) ->
  getToken s = Some (name, t, r).
Proof. intros E L. unfold getToken. now rewrite E, L, andb_false_r. Qed.

Lemma token_left r : getToken ("("%char :: r) = Some (cs "(", DPT_LEFT_, r).
Proof. now eapply getToken_mark. Qed.
Lemma token_right r : getToken (")"%char :: r) = Some (cs ")", DPT_RIGHT_, r).
Proof. now eapply getToken_mark. Qed.
Lemma token_comma r : getToken (","%char :: r) = Some (cs ",", DPT_COMMA, r).
Proof. now eapply getToken_mark. Qed.
Lemma token_and r : getToken (cs " && " ++ r) = Some (cs "&&", DPT_AND, SP :: r).
Proof. now eapply getToken_mark. Qed.
Lemma token_or r : getToken (cs " || " ++ r) = Some (cs "||", DPT_OR, SP :: r).
Proof. now eapply getToken_mark. Qed.
Lemma token_space r : getToken (SP :: r) = getToken r.
Proof. reflexivity. Qed.

Lemma digit_chars c : isdigit c = true -> In c (list_ascii_of_string "0123456789").
Proof.
  unfold isdigit. destruct c as [[] [] [] [] [] [] [] []]; cbn; intros H; try discriminate H; tauto.
Qed.

Ltac each_digit H := apply digit_chars in H; cbn in H; repeat destruct H as [<-|H]; [..|destruct H].

Lemma name_chars_digits n d c r : forallb isdigit d = true -> (length d <= n)%nat -> name_char c = false ->
  name_chars n (d ++ c :: r) = (d, c :: r).
Proof.
  revert n; induction d as [|x d IH]; intros n H L Hc; cbn in H, L |- *.
  - destruct n; cbn; [reflexivity|now rewrite Hc].
  - bool_split. destruct n as [|n]; [lia|]. cbn [name_chars].
    assert (X : name_char x = true) by (each_digit H; reflexivity). rewrite X, IH; auto. lia.
Qed.

Lemma getToken_digits d c r : forallb isdigit d = true -> d <> [] -> (length d <= TOKENLEN)%nat -> name_char c = false ->
  getToken (d ++ c :: r) = Some (d, DPT_NAME, c :: r).
Proof.
  intros D N L Hc. destruct d as [|x d]; [congruence|]. pose proof D as D'. cbn in D'. bool_split.
  unfold getToken. cbn [app].
  assert (S : skip_space (x :: d ++ c :: r) = x :: d ++ c :: r
              /\ lookup tokenTable (x :: d ++ c :: r) = None /\ IS_QUOTE x = false).
  { clear - H. each_digit H; repeat split; reflexivity. }
  destruct S as (-> & -> & Q). unfold name_token. rewrite Q. cbn [app length]. rewrite Nat.sub_0_r.
  change (x :: d ++ c :: r) with ((x :: d) ++ c :: r). now rewrite name_chars_digits.
Qed.

Lemma udec_length f n : (length (udec f n) <= f)%nat.
Proof.
  revert n; induction f as [|f IH]; intros n; cbn; [lia|]. destruct (n <? 10); cbn; [lia|].
  rewrite length_app. specialize (IH (n / 10)). cbn. lia.
Qed.

Definition nat31 (z : Z) : bool := (0 <=? z) && (z <? 2 ^ 31).

Lemma dec_digits z : nat31 z = true -> forallb isdigit (dec z) = true /\ dec z <> [] /\ (length (dec z) <= TOKENLEN)%nat.
Proof.
  unfold nat31. intros H. bool_split. rewrite dec_signed. destruct (Z.ltb_spec z 0); [lia|].
  rewrite Z.abs_eq by lia. cbn [signed]. split; [apply unat_digits; lia|]. split.
  - destruct (unat_cons z) as (c & t & -> & _); [lia|discriminate].
  - unfold unat. etransitivity; [apply udec_length|]. unfold dec_fuel, TOKENLEN, MAXLINELEN.
    assert (Z.log2 z <= 30) by (destruct (Z.eq_dec z 0) as [->|]; [cbn; lia|apply Z.lt_succ_r, Z.log2_lt_pow2; lia]). lia.
Qed.

Lemma token_dec z c r : nat31 z = true -> name_char c = false ->
  getToken (dec z ++ c :: r) = Some (dec z, DPT_NAME, c :: r).
Proof. intros H Hc. destruct (dec_digits z H) as (A & B & C). now apply getToken_digits. Qed.

Lemma token_cmp op z r : is_cmp op = true -> nat31 z = true ->
  getToken (type_text op ++ dec z ++ r) = Some (type_text op, op, dec z ++ r).
Proof.
  intros Ho Hz. destruct (dec_digits z Hz) as (A & B & _). destruct (dec z) as [|c d]; [congruence|].
  cbn in A. bool_split. clear - Ho H. each_digit H; destruct op; try discriminate; now eapply getToken_mark.
Qed.

(** ** The parser on the text *)

Section Run.
Context `{TW : TimeWindows} (st : mbd) (user : cstr) (after : Z).

Local Abbreviation step := (token_step st user false after).

(** The node that an atom stands for: a job that [matchJobs] finds as one
    record, or an array. *)
Definition atom_node (a : atom) : option dptNode :=
  match a with
  | JobAtom t id =>
      match match_number st id false [] LSBE_DEPEND_SYNTAX with
      | Ok (Found [r] idx) => Some (newJob t false (Some r) idx)
      | _ => None
      end
  | ExitAtom id op code =>
      match match_number st id false [] LSBE_DEPEND_SYNTAX with
      | Ok (Found [r] idx) => Some (set_exit op code (newJob DPT_EXIT false (Some r) idx))
      | _ => None
      end
  | NumAtom t id op num =>
      match option_map (fun r => jobs st !! r) (getJobData st id) with
      | Some (Some j) => option_map (fun b => Jgrp t DP_FALSE op num (Some b)) (array j)
      | _ => None
      end
  end.

Definition atom_ok (a : atom) : bool :=
  match a with
  | JobAtom t id => is_job_type t && nat31 id && (0 <? id)
  | ExitAtom id op code => nat31 id && (0 <? id) && is_cmp op && nat31 code
  | NumAtom t id op num => is_num_type t && nat31 id && (0 <? id) && is_cmp op && nat31 num
  end.

Lemma int32_of_nat31 z : nat31 z = true -> int32 z.
Proof. unfold nat31, int32. intros H. bool_split. lia. Qed.

(** The number of a job. *)
Lemma digits_before c s : forallb isdigit s = true -> isdigit c = false -> before c s = s.
Proof.
  intros H Hc. unfold before. induction s as [|d s IH]; cbn in *; [reflexivity|]. bool_split.
  destruct (Ascii.eqb_spec d c); [congruence|]. cbn. destruct (span _ s). cbn in *. now rewrite IH.
Qed.

Lemma digits_strchr c s : forallb isdigit s = true -> isdigit c = false -> strchr c s = None.
Proof.
  intros H Hc. induction s as [|d s IH]; cbn in *; [reflexivity|]. bool_split.
  destruct (Ascii.eqb_spec d c); [congruence|]. now apply IH.
Qed.

Lemma digits_strstr s : forallb isdigit s = true -> strstr (cs "[*]") s = None.
Proof.
  intros H. induction s as [|d s IH]; [reflexivity|]. cbn [forallb] in H. bool_split.
  cbn [strstr]. rewrite IH by assumption. each_digit H; reflexivity.
Qed.

Lemma matchJobs_number id flag code : nat31 id = true -> 0 < id ->
  matchJobs st (dec id) user flag code
  = (m ← match_number st id (match flag with Some b => b | None => false end) [] code; Ok (m, flag)).
Proof.
  intros H Hp. destruct (dec_digits id H) as (D & N & _). unfold matchJobs. rewrite digits_strstr by exact D.
  unfold parseJobArrayIndex. rewrite digits_strchr by (auto; reflexivity). rewrite digits_before by (auto; reflexivity).
  assert (J : job_of_token (dec id) = (id, None)).
  { unfold job_of_token. pose proof (isint_dec id (int32_of_nat31 _ H)) as I. rewrite I by (unfold INFINIT_INT; lia).
    rewrite atoi_dec by now apply int32_of_nat31. destruct (dec id) as [|c d]; [congruence|].
    cbn in D. bool_split. assert (IS_QUOTE c = false) as -> by (each_digit H0; reflexivity). reflexivity. }
  rewrite J. destruct (Z.eqb_spec id 0); [lia|]. reflexivity.
Qed.

(** The state of the parser between two conditions. *)
Definition state (n : nat) (s : cstr) (ops : list dptType) (opnds : list dptNode) : pstate :=
  mkP s ops opnds n false LSBE_DEPEND_SYNTAX.

Lemma expect_left n s ops opnds : expect_token DPT_LEFT_ (state n ("("%char :: s) ops opnds) = Ok (state n s ops opnds).
Proof. unfold expect_token, next_token. cbn [state dependCond]. now rewrite token_left. Qed.

Lemma expect_right n s ops opnds : expect_token DPT_RIGHT_ (state n (")"%char :: s) ops opnds) = Ok (state n s ops opnds).
Proof. unfold expect_token, next_token. cbn [state dependCond]. now rewrite token_right. Qed.

Lemma next_dec n z c s ops opnds : nat31 z = true -> name_char c = false ->
  next_token (state n (dec z ++ c :: s) ops opnds) = Ok (dec z, DPT_NAME, state n (c :: s) ops opnds).
Proof. intros. unfold next_token. cbn [state dependCond]. now rewrite token_dec. Qed.

Lemma next_comma n s ops opnds :
  next_token (state n (","%char :: s) ops opnds) = Ok (cs ",", DPT_COMMA, state n s ops opnds).
Proof. unfold next_token. cbn [state dependCond]. now rewrite token_comma. Qed.

Lemma next_cmp op z n s ops opnds : is_cmp op = true -> nat31 z = true ->
  next_token (state n (type_text op ++ dec z ++ s) ops opnds) = Ok (type_text op, op, state n (dec z ++ s) ops opnds).
Proof. intros. unfold next_token. cbn [state dependCond]. now rewrite token_cmp. Qed.

Lemma job_operand_number t n id r idx s ops opnds : nat31 id = true -> 0 < id ->
  match_number st id false [] LSBE_DEPEND_SYNTAX = Ok (Found [r] idx) ->
  job_operand st user t (dec id) true (state n s ops opnds)
  = Ok (state 1 s ops (newJob t false (Some r) idx :: opnds)).
Proof.
  intros H Hp M. unfold job_operand. rewrite matchJobs_number by assumption. cbn [state opFlag replyCode].
  rewrite M. reflexivity.
Qed.

(** The comparison of [exit] and of the counters. *)
Lemma comparison_text star set op z n s ops t opnds : is_cmp op = true -> nat31 z = true ->
  comparison star set (state n (","%char :: type_text op ++ dec z ++ ")"%char :: s) ops (t :: opnds))
  = Ok (state n s ops (set op z t :: opnds)).
Proof.
  intros Ho Hz. unfold comparison. rewrite next_comma. cbn [mbind res_bind]. rewrite next_cmp by assumption.
  cbn [mbind res_bind teq]. change (teq DPT_COMMA DPT_RIGHT_) with false. change (teq DPT_COMMA DPT_COMMA) with true.
  rewrite Ho. cbn [orb]. rewrite next_dec by (auto; reflexivity). cbn [mbind res_bind].
  change (teq DPT_NAME DPT_NAME) with true. cbn [mbind res_bind].
  rewrite isint_dec by (try (apply int32_of_nat31; exact Hz); unfold nat31, INFINIT_INT in *; bool_split; lia).
  rewrite atoi_dec by now apply int32_of_nat31. exact (expect_right n s ops (set op z t :: opnds)).
Qed.

Lemma job_condition_text t n id r idx c s ops opnds : nat31 id = true -> 0 < id -> name_char c = false ->
  match_number st id false [] LSBE_DEPEND_SYNTAX = Ok (Found [r] idx) ->
  let p := state 1 (c :: s) ops (newJob t false (Some r) idx :: opnds) in
  job_condition st user false t (state n ("("%char :: dec id ++ c :: s) ops opnds)
  = if teq t DPT_EXIT then comparison false set_exit p else expect_token DPT_RIGHT_ p.
Proof.
  intros H Hp Hc M p. unfold job_condition. rewrite expect_left. cbn [mbind res_bind].
  rewrite next_dec by assumption. cbn [mbind res_bind]. rewrite (job_operand_number t n id r idx) by assumption.
  reflexivity.
Qed.

Lemma num_condition_text t n id r j b c s ops opnds : nat31 id = true -> name_char c = false ->
  getJobData st id = Some r -> jobs st !! r = Some j -> array j = Some b ->
  num_condition st t (state n ("("%char :: dec id ++ c :: s) ops opnds)
  = comparison true set_num (state n (c :: s) ops (newJgrp t (Some b) :: opnds)).
Proof.
  intros H Hc G J B. unfold num_condition. rewrite expect_left. cbn [mbind res_bind].
  rewrite next_dec by assumption. cbn [mbind res_bind].
  rewrite isint_dec by (try (apply int32_of_nat31; exact H); unfold nat31, INFINIT_INT in *; bool_split; lia).
  rewrite atoi_dec, G by now apply int32_of_nat31. rewrite J. cbn [deref mbind res_bind]. rewrite B. reflexivity.
Qed.

Lemma step_job fuel tok t p : is_job_type t = true -> step fuel tok t p = job_condition st user false t p.
Proof. now destruct t. Qed.
Lemma step_num fuel tok t p : is_num_type t = true -> step fuel tok t p = num_condition st t p.
Proof. now destruct t. Qed.

Lemma atom_step a t n s ops opnds : atom_ok a = true -> atom_node a = Some t ->
  exists tok ty r n', getToken (atom_text a ++ s) = Some (tok, ty, r)
    /\ forall fuel, step fuel tok ty (state n r ops opnds) = Ok (state n' s ops (t :: opnds)).
Proof.
  intros Ha Hn. destruct a as [ty id|id op code|ty id op num]; cbn [atom_ok atom_node atom_text] in *; bool_split;
    rewrite <- app_assoc; cbn [app]; rewrite <- app_assoc; cbn [app]; rewrite <- ?app_assoc; cbn [app].
  - destruct (match_number st id false [] LSBE_DEPEND_SYNTAX) as [[| |[|r [|? ?]] idx]| | |] eqn:M; try discriminate.
    injection Hn as <-. do 3 eexists. exists 1%nat. split; [apply token_keyword; now rewrite H|]. intros fuel.
    rewrite step_job by assumption. rewrite (job_condition_text ty n id r idx) by (auto; lia).
    destruct (teq ty DPT_EXIT); [|apply expect_right].
    unfold comparison, next_token. cbn [state dependCond]. now rewrite token_right.
  - destruct (match_number st id false [] LSBE_DEPEND_SYNTAX) as [[| |[|r [|? ?]] idx]| | |] eqn:M; try discriminate.
    injection Hn as <-. do 3 eexists. exists 1%nat. split; [now apply token_keyword|]. intros fuel.
    rewrite step_job by reflexivity. rewrite (job_condition_text DPT_EXIT n id r idx) by (auto; lia).
    now apply comparison_text.
  - destruct (getJobData st id) as [r|] eqn:G; [|discriminate]. cbn [option_map] in Hn.
    destruct (jobs st !! r) as [j|] eqn:J; [|discriminate]. destruct (array j) as [b|] eqn:B; [|discriminate].
    injection Hn as <-. do 3 eexists. exists n. split; [apply token_keyword; now rewrite H, orb_true_r|]. intros fuel.
    rewrite step_num by assumption. rewrite (num_condition_text ty n id r j b) by first [assumption|reflexivity].
    now apply comparison_text.
Qed.

(** ** Rounds of the loop *)

(** [rounds k p p']: [k] rounds lead from [p] to [p']. *)
Inductive rounds : nat -> pstate -> pstate -> Prop :=
| rounds_0 p : rounds 0 p p
| rounds_S k p tok ty r p1 p2 : getToken (dependCond p) = Some (tok, ty, r) ->
    (forall fuel, step fuel tok ty (set_cond p r) = Ok p1) -> rounds k p1 p2 -> rounds (S k) p p2.

Lemma rounds_app j k p q r : rounds j p q -> rounds k q r -> rounds (j + k) p r.
Proof. induction 1; intros K; [exact K|]. cbn. econstructor; eauto. Qed.

Lemma rounds_loop k p q f : rounds k p q -> parse_loop st user false after (k + f) p = parse_loop st user false after f q.
Proof.
  induction 1 as [|k p tok ty r p1 p2 E S R IH]; [reflexivity|]. cbn [Nat.add parse_loop]. rewrite E, S. exact IH.
Qed.

Lemma rounds_shrink k p q : replay (conf st) = false -> rounds k p q -> (k + todo q <= todo p)%nat.
Proof.
  intros R. induction 1 as [|k p tok ty r p1 p2 E S _ IH]; [lia|].
  pose proof (round_shrinks st user false after 0 p tok ty r p1 R E (S 0%nat)). lia.
Qed.

(** What the operators [pend] on top of the stack make of the operands [stk]. *)
Inductive reduces : list dptType -> list dptNode -> dptNode -> Prop :=
| reduces_done t : reduces [] [t] t
| reduces_step op pend stk stk' t : op <> DPT_LEFT_ ->
    (forall opnds, reduce op (stk ++ opnds) = Some (stk' ++ opnds)) -> reduces pend stk' t -> reduces (op :: pend) stk t.

Lemma reduces_snoc pend stk t op u : op <> DPT_LEFT_ -> op <> DPT_NOT -> reduces pend stk t ->
  reduces (pend ++ [op]) (stk ++ [u]) (Bin op DP_FALSE t u).
Proof.
  intros Hl Hn. induction 1 as [t|op' pend stk stk' t Ho E R IH]; cbn [app].
  - apply reduces_step with [Bin op DP_FALSE t u]; [exact Hl| |constructor]. intros opnds. cbn.
    unfold teq. destruct (dptType_eq_dec op DPT_NOT); congruence.
  - apply reduces_step with (stk' ++ [u]); [exact Ho| |exact IH].
    intros opnds. rewrite <- !app_assoc. apply E.
Qed.

Lemma reduces_left pend stk t ops opnds : reduces pend stk t ->
  mergeLeft (pend ++ DPT_LEFT_ :: ops) (stk ++ opnds) = Some (ops, t :: opnds).
Proof.
  induction 1 as [t|op pend stk stk' t Ho E R IH]; [reflexivity|]. cbn [app mergeLeft].
  unfold teq. destruct (dptType_eq_dec op DPT_LEFT_); [congruence|]. now rewrite E.
Qed.

Lemma reduces_all pend stk t : reduces pend stk t -> mergeAll pend stk = ([], [t]).
Proof.
  induction 1 as [t|op pend stk stk' t Ho E R IH]; [reflexivity|]. cbn [mergeAll].
  specialize (E []). rewrite !app_nil_r in E. now rewrite E.
Qed.

(** ** Conditions *)

(** The tree that the parser builds: the later operand is the left one. *)
Fixpoint tree (e : cond) : option dptNode :=
  match e with
  | Atom a => if atom_ok a then atom_node a else None
  | And a b => ta ← tree a; tb ← tree b; Some (Bin DPT_AND DP_FALSE tb ta)
  | Or a b => ta ← tree a; tb ← tree b; Some (Bin DPT_OR DP_FALSE tb ta)
  | Not a => ta ← tree a; Some (Neg DP_FALSE ta)
  end.

(** Stacks on which no operator is merged by the next one: behind a bracket this
    depends on the byte that stands for its precedence. *)
Definition low (ops : list dptType) : Prop :=
  match ops with [] => True | op :: _ => op = DPT_LEFT_ /\ after <= 1 \/ op = DPT_OR end.

(** Conditions whose text at level 2, 1, 0 has no bracket around an operand. *)
Definition flat2 (e : cond) : bool := match e with Atom _ => true | _ => false end.
Definition flat1 (e : cond) : bool :=
  match e with Atom _ => true | And a b => flat2 a && flat2 b | Not a => flat2 a | Or _ _ => false end.
Fixpoint flat0 (e : cond) : bool := match e with Or a b => flat1 a && flat0 b | _ => flat1 e end.

(** The byte is harmless, or it is not read. *)
Definition fine (flat : bool) : Prop := after <= 1 \/ flat = true.

Lemma fine_and x y : fine (x && y) -> fine x /\ fine y.
Proof. unfold fine. rewrite andb_true_iff. tauto. Qed.

Lemma fine_false : fine false -> after <= 1.
Proof. intros [H|H]; [exact H|discriminate]. Qed.

(** At most one operator is pending. *)
Definition one (pend : list dptType) (stk : list dptNode) (t : dptNode) : Prop :=
  pend = [] /\ stk = [t]
  \/ exists op, pend = [op] /\ (op = DPT_AND \/ op = DPT_NOT)
      /\ forall opnds, reduce op (stk ++ opnds) = Some (t :: opnds).

Lemma one_reduces pend stk t : one pend stk t -> reduces pend stk t.
Proof.
  intros [[-> ->]|(op & -> & Ho & E)]; [constructor|].
  apply reduces_step with [t]; [destruct Ho as [-> | ->]; discriminate|exact E|constructor].
Qed.

Lemma low_operator t n s ops opnds : low ops -> t = DPT_AND \/ t = DPT_OR \/ t = DPT_NOT ->
  operator after t (state n s ops opnds) = Ok (state n s (t :: ops) opnds).
Proof.
  intros L T. unfold operator. cbn [state operators]. destruct ops as [|prev ops]; [reflexivity|].
  assert (E : (prece after t <? prece after prev) = false).
  { apply Z.ltb_ge. destruct L as [[-> ?]| ->], T as [-> |[-> | ->]]; cbn; lia. }
  now rewrite E.
Qed.

Lemma rounds_1 n s ops opnds tok ty r q : getToken s = Some (tok, ty, r) ->
  (forall fuel, step fuel tok ty (state n r ops opnds) = Ok q) -> rounds 1 (state n s ops opnds) q.
Proof. intros E H. econstructor; [exact E|exact H|constructor]. Qed.

Lemma atom_rounds a t n s ops opnds : atom_ok a = true -> atom_node a = Some t ->
  exists n', rounds 1 (state n (atom_text a ++ s) ops opnds) (state n' s ops (t :: opnds)).
Proof.
  intros O N. destruct (atom_step a t n s ops opnds O N) as (tok & ty & r & n' & E & S).
  exists n'. eapply rounds_1; eauto.
Qed.

Lemma rounds_space k n s ops opnds q : rounds (S k) (state n s ops opnds) q -> rounds (S k) (state n (SP :: s) ops opnds) q.
Proof.
  inversion 1 as [|k' p tok ty r p1 p2 E S R]; subst. cbn [state dependCond] in E.
  econstructor; [cbn [state dependCond]; rewrite token_space; exact E|exact S|exact R].
Qed.

Lemma paren_rounds body t n s ops opnds :
  (exists k n' pend stk, rounds (S k) (state n (body ++ ")"%char :: s) (DPT_LEFT_ :: ops) opnds)
      (state n' (")"%char :: s) (pend ++ DPT_LEFT_ :: ops) (stk ++ opnds)) /\ reduces pend stk t) ->
  exists k n', rounds (S k) (state n (paren true body ++ s) ops opnds) (state n' s ops (t :: opnds)).
Proof.
  intros (k & n' & pend & stk & R & T). exists (S k + 1)%nat, n'. cbn [paren app]. rewrite <- app_assoc. cbn [app].
  change (S (S k + 1)) with (1 + (S k + 1))%nat. eapply rounds_app; [|eapply rounds_app; [exact R|]].
  - eapply rounds_1; [apply token_left|]. reflexivity.
  - eapply rounds_1; [apply token_right|]. intros fuel. cbn [token_step state operators operands].
    now rewrite (reduces_left pend stk t).
Qed.

Lemma text_head e t : tree e = Some t -> exists c r, text e 2 = c :: r /\ Ascii.eqb "=" c = false.
Proof.
  destruct e as [a|a b|a b|a]; cbn [tree text paren Nat.ltb Nat.leb]; try (intros _; eexists _, _; split; reflexivity).
  destruct (atom_ok a) eqn:E; [|discriminate]. intros _.
  destruct a as [ty id|id op code|ty id op num]; cbn [atom_ok] in E; bool_split; cbn [atom_text].
  - destruct ty; try discriminate; eexists _, _; split; reflexivity.
  - eexists _, _; split; reflexivity.
  - destruct ty; try discriminate; eexists _, _; split; reflexivity.
Qed.

Lemma token_not c r : Ascii.eqb "=" c = false -> getToken ("!"%char :: c :: r) = Some (cs "!", DPT_NOT, c :: r).
Proof.
  intros H. eapply getToken_mark; [reflexivity|].
  destruct c as [[] [] [] [] [] [] [] []]; try discriminate H; reflexivity.
Qed.

Definition runs (e : cond) (t : dptNode) : Prop := forall n s ops opnds,
  (fine (flat2 e) -> exists k n', rounds (S k) (state n (text e 2 ++ s) ops opnds) (state n' s ops (t :: opnds)))
  /\ (fine (flat1 e) -> low ops -> exists k n' pend stk,
        rounds (S k) (state n (text e 1 ++ s) ops opnds) (state n' s (pend ++ ops) (stk ++ opnds)) /\ one pend stk t)
  /\ (fine (flat0 e) -> low ops -> exists k n' pend stk,
        rounds (S k) (state n (text e 0 ++ s) ops opnds) (state n' s (pend ++ ops) (stk ++ opnds)) /\ reduces pend stk t).

(** A text without brackets for [&&] and [!]: levels 0 and 1 are the same. *)
Lemma runs_one flat body t : (fine flat -> forall n s ops opnds, low ops -> exists k n' pend stk,
    rounds (S k) (state n (body ++ s) ops opnds) (state n' s (pend ++ ops) (stk ++ opnds)) /\ one pend stk t) ->
  forall n s ops opnds,
  (fine false -> exists k n', rounds (S k) (state n (paren true body ++ s) ops opnds) (state n' s ops (t :: opnds)))
  /\ (fine flat -> low ops -> exists k n' pend stk,
        rounds (S k) (state n (body ++ s) ops opnds) (state n' s (pend ++ ops) (stk ++ opnds)) /\ one pend stk t)
  /\ (fine flat -> low ops -> exists k n' pend stk,
        rounds (S k) (state n (body ++ s) ops opnds) (state n' s (pend ++ ops) (stk ++ opnds)) /\ reduces pend stk t).
Proof.
  intros B n s ops opnds. split; [|split].
  - intros F%fine_false. apply paren_rounds.
    destruct (B (or_introl F) n (")"%char :: s) (DPT_LEFT_ :: ops) opnds) as (k & n' & pend & stk & R & O); [now left|].
    exists k, n', pend, stk. split; [exact R|now apply one_reduces].
  - intros F. now apply B.
  - intros F L. destruct (B F n s ops opnds L) as (k & n' & pend & stk & R & O).
    exists k, n', pend, stk. split; [exact R|now apply one_reduces].
Qed.

Lemma runs_atom a t : atom_ok a = true -> atom_node a = Some t -> runs (Atom a) t.
Proof.
  intros O N n s ops opnds. cbn [text]. destruct (atom_rounds a t n s ops opnds O N) as [n' A].
  split; [eauto|]. split; intros _ _; exists 0%nat, n', [], [t]; (split; [exact A|]); [now left|constructor].
Qed.

Lemma runs_and a b ta tb : runs a ta -> runs b tb -> runs (And a b) (Bin DPT_AND DP_FALSE tb ta).
Proof.
  intros Ra Rb. refine (runs_one (flat2 a && flat2 b) (text a 2 ++ cs " && " ++ text b 2) _ _). intros [Fa Fb]%fine_and n s ops opnds L.
  rewrite <- !app_assoc. destruct (proj1 (Ra n (cs " && " ++ text b 2 ++ s) ops opnds) Fa) as (k & n1 & R1).
  destruct (proj1 (Rb n1 s (DPT_AND :: ops) (ta :: opnds)) Fb) as (j & n2 & R2).
  exists (k + S (S j))%nat, n2, [DPT_AND], [tb; ta]. split.
  - change (S (k + S (S j))) with (S k + (1 + S j))%nat. eapply rounds_app; [exact R1|].
    eapply rounds_app; [|apply rounds_space, R2].
    eapply rounds_1; [apply token_and|]. intros fuel. cbn [token_step]. apply low_operator; auto.
  - right. exists DPT_AND. repeat split; auto.
Qed.

Lemma runs_or_body a b ta tb n s ops opnds : runs a ta -> runs b tb -> fine (flat1 a && flat0 b) -> low ops ->
  exists k n' pend stk,
  rounds (S k) (state n ((text a 1 ++ cs " || " ++ text b 0) ++ s) ops opnds) (state n' s (pend ++ ops) (stk ++ opnds))
  /\ reduces pend stk (Bin DPT_OR DP_FALSE tb ta).
Proof.
  intros Ra Rb [Fa Fb]%fine_and L. rewrite <- !app_assoc.
  destruct (proj1 (proj2 (Ra n (cs " || " ++ text b 0 ++ s) ops opnds)) Fa L) as (k & n1 & pa & sa & R1 & O).
  destruct (proj2 (proj2 (Rb n1 s (DPT_OR :: ops) (ta :: opnds))) Fb (or_intror eq_refl)) as (j & n2 & pb & sb & R2 & T).
  exists (k + S (S j))%nat, n2, (pb ++ [DPT_OR]), (sb ++ [ta]). split; [|now apply reduces_snoc].
  rewrite <- !app_assoc. change (S (k + S (S j))) with (S k + (1 + S j))%nat. eapply rounds_app; [exact R1|].
  eapply rounds_app; [|apply rounds_space, R2].
  eapply rounds_1; [apply token_or|]. intros fuel. cbn [token_step].
  destruct O as [[-> ->]|(op & -> & Ho & E)]; [apply low_operator; auto|].
  unfold operator. cbn [state operators operands app]. rewrite E. now destruct Ho as [-> | ->].
Qed.

Lemma runs_or a b ta tb : runs a ta -> runs b tb -> runs (Or a b) (Bin DPT_OR DP_FALSE tb ta).
Proof.
  intros Ra Rb n s ops opnds. cbn [text flat2 flat1 flat0].
  assert (P : fine false -> exists k n', rounds (S k) (state n (paren true (text a 1 ++ cs " || " ++ text b 0) ++ s) ops opnds)
                (state n' s ops (Bin DPT_OR DP_FALSE tb ta :: opnds))).
  { intros F%fine_false. apply paren_rounds, runs_or_body; auto; now left. }
  split; [exact P|]. split; [|intros F L; now apply runs_or_body].
  intros F _. destruct (P F) as (k & n' & Q). exists k, n', [], [Bin DPT_OR DP_FALSE tb ta]. split; [exact Q|now left].
Qed.

Lemma runs_not a ta : tree a = Some ta -> runs a ta -> runs (Not a) (Neg DP_FALSE ta).
Proof.
  intros Ta Ra. refine (runs_one (flat2 a) (cs "!" ++ text a 2) _ _). intros Fa n s ops opnds L. cbn [cs list_ascii_of_string app].
  destruct (text_head a ta Ta) as (c & r & E & Hc).
  destruct (proj1 (Ra n s (DPT_NOT :: ops) opnds) Fa) as (k & n1 & R).
  exists (S k), n1, [DPT_NOT], [ta]. split.
  - change (S (S k)) with (1 + S k)%nat. eapply rounds_app; [|exact R]. rewrite E. cbn [app].
    eapply rounds_1; [now apply token_not|]. intros fuel. cbn [token_step]. apply low_operator; auto.
  - right. exists DPT_NOT. repeat split; auto.
Qed.

Lemma text_runs e t : tree e = Some t -> runs e t.
Proof.
  revert t; induction e as [a|a IHa b IHb|a IHa b IHb|a IHa]; intros t; cbn [tree].
  - destruct (atom_ok a) eqn:O; [|discriminate]. now apply runs_atom.
  - destruct (tree a) as [ta|]; [|discriminate]. destruct (tree b) as [tb|]; [|discriminate].
    intros [= <-]. apply runs_and; auto.
  - destruct (tree a) as [ta|]; [|discriminate]. destruct (tree b) as [tb|]; [|discriminate].
    intros [= <-]. apply runs_or; auto.
  - destruct (tree a) as [ta|] eqn:Ta; [|discriminate]. intros [= <-]. apply runs_not; auto.
Qed.

(** The whole text. *)
Lemma rounds_parse k s n ops opnds t : replay (conf st) = false ->
  rounds k (state 0 s [] []) (state n [] ops opnds) -> mergeAll ops opnds = ([], [t]) ->
  parseDepCond st user false after s = Ok t.
Proof.
  intros R Rk M. pose proof (rounds_shrink k _ _ R Rk) as L. unfold todo in L. cbn [state dependCond] in L.
  unfold parseDepCond, parse_fuel. fold (state 0 s [] []).
  replace (S (length s)) with (k + S (length s - k))%nat by (cbn in L; lia).
  rewrite (rounds_loop _ _ _ _ Rk). cbn [parse_loop state dependCond].
  change (getToken []) with (@None (cstr * dptType * cstr)). cbn [mbind res_bind].
  unfold finish. cbn [state operators operands]. now rewrite M.
Qed.

Lemma parse_text e t : fine (flat0 e) -> replay (conf st) = false -> tree e = Some t ->
  parseDepCond st user false after (text e 0) = Ok t.
Proof.
  intros F R T. destruct (proj2 (proj2 (text_runs e t T 0%nat [] [] [])) F I) as (k & n & pend & stk & Rk & Rd).
  rewrite !app_nil_r in Rk. eapply rounds_parse; [exact R|exact Rk|now apply reduces_all].
Qed.

(** An operator behind a condition. *)
Lemma op_rounds t (name : cstr) n s ops opnds q :
  t = DPT_AND /\ name = cs " && " \/ t = DPT_OR /\ name = cs " || " ->
  operator after t (state n (SP :: s) ops opnds) = Ok q -> rounds 1 (state n (name ++ s) ops opnds) q.
Proof. intros [[-> ->]|[-> ->]] E; (eapply rounds_1; [first [apply token_and|apply token_or]|intros; exact E]). Qed.
End Run.

(** ** Where the parser can run without end *)

Create HintDb depfuel.

Section Fuel.
Context `{TW : TimeWindows} (st : mbd) (user : cstr) (windowConf : bool) (after : Z).

Definition ends {A} (m : res A) : Prop := m <> OutOfFuel.

Lemma ends_bind {A B} (m : res A) (f : A -> res B) : ends m -> (forall a, ends (f a)) -> ends (mbind f m).
Proof. unfold ends. destruct m; cbn; auto. Qed.

Lemma ends_Ok {A} (a : A) : ends (Ok a).
Proof. discriminate. Qed.
Lemma ends_Err {A} e : ends (A := A) (Err e).
Proof. discriminate. Qed.
Lemma ends_Fault {A} : ends (A := A) Fault.
Proof. discriminate. Qed.

Lemma deref_ends {A} (o : option A) : ends (deref o).
Proof. destruct o; discriminate. Qed.

Hint Resolve ends_Ok ends_Err ends_Fault deref_ends : depfuel.

(** Case analysis down to outcomes that are not [OutOfFuel]. *)
Ltac ends_tac :=
  repeat first
    [ progress auto with depfuel
    | apply ends_bind; [|intros]
    | match goal with
      | |- ends (error _) => apply ends_Err
      | |- ends (match ?x with _ => _ end) => destruct x
      | |- ends (let '_ := ?x in _) => destruct x
      end ].

Lemma next_token_ends p : ends (next_token p).
Proof. unfold next_token. ends_tac. Qed.
Hint Resolve next_token_ends : depfuel.

Lemma expect_token_ends w p : ends (expect_token w p).
Proof. unfold expect_token. ends_tac. Qed.
Hint Resolve expect_token_ends : depfuel.

Lemma comparison_ends b set p : ends (comparison b set p).
Proof. unfold comparison. ends_tac. Qed.
Hint Resolve comparison_ends : depfuel.

Lemma find_all_ends id l set : ends (find_all st id l set).
Proof. revert set; induction l as [|i l IH]; intros set; cbn [find_all]; ends_tac. Qed.

Lemma user_jobs_ends u last refs found t : ends (user_jobs st u last refs found t).
Proof. revert found t; induction refs as [|r refs IH]; intros found t; cbn [user_jobs]; ends_tac. Qed.

Lemma checkIdx_ends r : ends (checkIdx st r).
Proof. unfold checkIdx. ends_tac. Qed.
Hint Resolve find_all_ends user_jobs_ends checkIdx_ends : depfuel.

Lemma match_number_ends id one l code : ends (match_number st id one l code).
Proof. unfold match_number. ends_tac. Qed.

Lemma match_name_ends name one l code : ends (match_name st name user one l code).
Proof. unfold match_name. ends_tac. Qed.
Hint Resolve match_number_ends match_name_ends : depfuel.

Lemma matchJobs_ends jobp flag code : ends (matchJobs st jobp user flag code).
Proof. unfold matchJobs. ends_tac. Qed.
Hint Resolve matchJobs_ends : depfuel.

Lemma job_operand_ends ty tok f p : ends (job_operand st user ty tok f p).
Proof. unfold job_operand. ends_tac. Qed.
Hint Resolve job_operand_ends : depfuel.

Lemma job_condition_ends ty p : ends (job_condition st user windowConf ty p).
Proof. unfold job_condition. ends_tac. Qed.

Lemma num_condition_ends ty p : ends (num_condition st ty p).
Proof. unfold num_condition. cbv zeta. ends_tac. Qed.
Hint Resolve job_condition_ends num_condition_ends : depfuel.

Lemma token_step_ends fuel tok ty p : ty <> DPT_WINDOW -> ends (token_step st user windowConf after fuel tok ty p).
Proof. intros H. destruct ty; cbn [token_step]; try congruence; try unfold operator; ends_tac. Qed.

(** The states that the loop over the tokens goes through. *)
Inductive reaches : pstate -> pstate -> Prop :=
| reaches_here p : reaches p p
| reaches_next fuel p tok ty r p1 p2 : getToken (dependCond p) = Some (tok, ty, r) ->
    token_step st user windowConf after fuel tok ty (set_cond p r) = Ok p1 -> reaches p1 p2 -> reaches p p2.

(** The list of windows of a time condition, at a point from which the loop over the
    names does not get to its end: behind some names nothing is consumed. *)
Inductive stuck : cstr -> Prop :=
| stuck_here s tok : getToken s = Some (tok, DPT_NAME, s) -> stuck s
| stuck_next s tok r : getToken s = Some (tok, DPT_NAME, r) -> stuck r -> stuck s.

(** A state in which the loop meets such a condition. *)
Definition window_stuck (p : pstate) : Prop := exists tok r tok' r',
  getToken (dependCond p) = Some (tok, DPT_WINDOW, r) /\ getToken r = Some (tok', DPT_LEFT_, r') /\ stuck r'.

Lemma window_names_stuck s : stuck s -> forall fuel, window_names fuel s = OutOfFuel.
Proof.
  induction 1 as [s tok E|s tok r E _ IH]; intros fuel.
  - induction fuel as [|f IH]; [reflexivity|]. cbn [window_names]. rewrite E.
    change (teq DPT_NAME DPT_RIGHT_) with false. change (teq DPT_NAME DPT_NAME) with true. cbn iota. now rewrite IH.
  - destruct fuel as [|f]; [reflexivity|]. cbn [window_names]. rewrite E.
    change (teq DPT_NAME DPT_RIGHT_) with false. change (teq DPT_NAME DPT_NAME) with true. cbn iota. now rewrite IH.
Qed.

Lemma window_names_out fuel s : (length s < fuel)%nat -> window_names fuel s = OutOfFuel -> stuck s.
Proof.
  revert s; induction fuel as [|f IH]; intros s L; [lia|]. cbn [window_names].
  destruct (getToken s) as [[[tok ty] r]|] eqn:E; [|discriminate]. destruct (teq ty DPT_RIGHT_); [discriminate|].
  unfold teq. destruct (dptType_eq_dec ty DPT_NAME) as [->|]; [|discriminate]. intros H.
  pose proof (getToken_suffix _ _ _ _ E) as [pre Hp]. destruct pre as [|c pre].
  - cbn in Hp. subst r. now apply (stuck_here s tok).
  - apply (stuck_next s tok r E), IH; [rewrite Hp, length_app in L; cbn in L; lia|].
    destruct (window_names f r) as [[[]|]| | |]; try discriminate H. reflexivity.
Qed.

Lemma window_names_more fuel fuel' s x : window_names fuel' s = Ok x ->
  window_names fuel s = Ok x \/ window_names fuel s = OutOfFuel.
Proof.
  revert fuel s x; induction fuel' as [|f' IH]; intros fuel s x; cbn [window_names]; [discriminate|].
  destruct fuel as [|f]; [right; reflexivity|]. cbn [window_names].
  destruct (getToken s) as [[[tok ty] r]|]; [|auto]. destruct (teq ty DPT_RIGHT_); [auto|].
  destruct (teq ty DPT_NAME); [|auto]. intros H. apply bind_Ok in H as (y & Hy & H).
  destruct (IH f r y Hy) as [-> | ->]; cbn [mbind res_bind]; auto.
Qed.

(** The fuel only decides whether the names of a time condition are read. *)
Lemma token_step_fuel fuel fuel' tok ty p p1 : token_step st user windowConf after fuel' tok ty p = Ok p1 ->
  token_step st user windowConf after fuel tok ty p = Ok p1 \/ token_step st user windowConf after fuel tok ty p = OutOfFuel.
Proof.
  destruct ty; try (intros H; left; exact H). cbn [token_step]. unfold window_condition. intros H.
  apply bind_Ok in H as (q & Hq & H). rewrite Hq. cbn [mbind res_bind]. apply bind_Ok in H as (x & Hx & H).
  destruct (window_names_more fuel fuel' (dependCond q) x Hx) as [-> | ->]; cbn [mbind res_bind]; auto.
Qed.

Lemma window_stuck_step p tok r : getToken (dependCond p) = Some (tok, DPT_WINDOW, r) -> window_stuck p ->
  forall fuel, token_step st user windowConf after fuel tok DPT_WINDOW (set_cond p r) = OutOfFuel.
Proof.
  intros E (tok1 & r1 & tok2 & r2 & E1 & E2 & S) fuel. rewrite E in E1. injection E1 as -> ->.
  cbn [token_step]. unfold window_condition, expect_token, next_token. cbn [set_cond dependCond]. rewrite E2.
  cbn [mbind res_bind]. change (teq DPT_LEFT_ DPT_LEFT_) with true. cbn iota. cbn [mbind res_bind set_cond dependCond].
  now rewrite window_names_stuck.
Qed.

Lemma parse_loop_stuck p q : reaches p q -> window_stuck q -> forall fuel, parse_loop st user windowConf after fuel p = OutOfFuel.
Proof.
  induction 1 as [p|fuel' p tok ty r p1 p2 E S _ IH]; intros W [|f]; try reflexivity; cbn [parse_loop].
  - pose proof W as (tok & r & _ & _ & E & _). rewrite E. now rewrite (window_stuck_step p tok r E W).
  - rewrite E. destruct (token_step_fuel f fuel' tok ty (set_cond p r) p1 S) as [-> | ->]; [|reflexivity].
    cbn [mbind res_bind]. now apply IH.
Qed.

Lemma window_condition_out fuel p : (todo p <= fuel)%nat -> window_condition st fuel p = OutOfFuel ->
  exists tok r, getToken (dependCond p) = Some (tok, DPT_LEFT_, r) /\ stuck r.
Proof.
  intros L. unfold window_condition, expect_token, next_token.
  destruct (getToken (dependCond p)) as [[[tok ty] r]|] eqn:E; [|discriminate]. cbn [mbind res_bind].
  unfold teq. destruct (dptType_eq_dec ty DPT_LEFT_) as [->|]; [|discriminate]. cbn [mbind res_bind set_cond dependCond].
  intros H. exists tok, r. split; [reflexivity|]. apply (window_names_out fuel).
  - apply getToken_length in E as (E0 & _ & [E|[E _]]); unfold todo in L; [lia|discriminate].
  - destruct (window_names fuel r) as [[[l r']|]| | |]; try discriminate H; [|reflexivity].
    cbn in H. destruct (add_windows l tw_new); discriminate.
Qed.

Lemma parse_loop_out fuel p : replay (conf st) = false -> (todo p < fuel)%nat ->
  parse_loop st user windowConf after fuel p = OutOfFuel -> exists q, reaches p q /\ window_stuck q.
Proof.
  intros R. revert p; induction fuel as [|f IH]; intros p L; [lia|]. cbn [parse_loop].
  destruct (getToken (dependCond p)) as [[[tok ty] r]|] eqn:E; [|discriminate].
  destruct (token_step st user windowConf after f tok ty (set_cond p r)) as [p'| | |] eqn:S; try discriminate; cbn [mbind res_bind].
  - intros H. pose proof (round_shrinks _ _ _ _ _ _ _ _ _ _ R E S).
    destruct (IH p') as (q & Rq & W); [lia|exact H|]. exists q. split; [|exact W]. econstructor; eauto.
  - intros _. exists p. split; [constructor|].
    destruct (dptType_eq_dec ty DPT_WINDOW) as [->|N]; [|now destruct (token_step_ends f tok ty (set_cond p r) N)].
    destruct (window_condition_out f (set_cond p r)) as (tok' & r' & E' & W); [|exact S|exists tok, r, tok', r'; auto].
    pose proof (suffix_length _ _ (getToken_suffix _ _ _ _ E)). unfold todo in *. cbn. lia.
Qed.

(** A character in front of which [getToken] returns an empty name for ever. *)
Definition dead (c : ascii) : bool :=
  negb (isspace c) && negb (IS_QUOTE c) && negb (name_char c)
  && negb (existsb (Ascii.eqb c) ["("%char; ")"%char; "&"%char; "|"%char; ","%char; ">"%char; "<"%char; "="%char; "!"%char]).

Lemma getToken_dead c s : dead c = true -> getToken (c :: s) = Some ([], DPT_NAME, c :: s).
Proof.
  unfold dead. intros H. apply andb_true_iff in H as [H Hm]. apply andb_true_iff in H as [H Hn].
  apply andb_true_iff in H as [Hs Hq]. apply negb_true_iff in Hs, Hq, Hn. unfold getToken. cbn [skip_space]. rewrite Hs.
  assert (L : lookup tokenTable (c :: s) = None).
  { clear - Hm Hn. destruct c as [[] [] [] [] [] [] [] []]; try discriminate Hm; try discriminate Hn; reflexivity. }
  rewrite L. unfold name_token. rewrite Hq. destruct (TOKENLEN - length [])%nat; cbn; [reflexivity|now rewrite Hn].
Qed.

Lemma window_names_dead fuel c s : dead c = true -> window_names fuel (c :: s) = OutOfFuel.
Proof.
  intros D. induction fuel as [|f IH]; [reflexivity|]. cbn [window_names]. rewrite getToken_dead by exact D.
  change (teq DPT_NAME DPT_RIGHT_) with false. change (teq DPT_NAME DPT_NAME) with true. cbn iota. now rewrite IH.
Qed.
End Fuel.
