(* ===== verification/DepTheorems.v ===== *)
(** * Properties of dependency conditions (lsbatch/daemons/mbd.dep.c)

    The parser against the abstract syntax of [DepParse.v], the evaluation
    against the lattice of values, and the texts on which the parser does not do
    what its precedences say or does not end. *)
From stdpp Require Import base gmap.
From Stdlib Require Import ZArith Ascii String List Bool Lia.
From S2P Require Import Prelude JobId CNum Words JobArray Window DepToken DepCond DepParse.
Import ListNotations.
Local Open Scope Z_scope.

(** ** The lattice of values: invalid, false, true *)

Definition rank (v : dpval) : Z :=
  match v with DP_INVALID => 0 | DP_FALSE => 1 | DP_TRUE => 2 | DP_REJECT => 3 end.

Definition vmin (x y : dpval) : dpval := if rank x <=? rank y then x else y.
Definition vmax (x y : dpval) : dpval := if rank x <=? rank y then y else x.
Definition vnot (x : dpval) : dpval := match x with DP_TRUE => DP_FALSE | DP_REJECT => DP_REJECT | _ => DP_TRUE end.

Lemma vmin_comm x y : vmin x y = vmin y x.
Proof. now destruct x, y. Qed.
Lemma vmax_comm x y : vmax x y = vmax y x.
Proof. now destruct x, y. Qed.

Section Eval.
Context `{TW : TimeWindows} (st : mbd) (depJob : option jData).

Definition leaf (n : dptNode) : bool := match n with Bin _ _ _ _ | Neg _ _ => false | _ => true end.

(** The value of a tree: conjunction is the minimum, disjunction the maximum. *)
Fixpoint den (n : dptNode) : option dpval :=
  match n with
  | Bin DPT_AND _ l r => x ← den l; y ← den r; Some (vmin x y)
  | Bin DPT_OR _ l r => x ← den l; y ← den r; Some (vmax x y)
  | Bin _ v _ _ => Some v
  | Neg _ l => x ← den l; Some (vnot x)
  | n => match evalDepCond st n depJob with Ok (v, _) => Some v | _ => None end
  end.

(** No node holds [DP_REJECT]; [newNode] starts them with [DP_FALSE]. *)
Fixpoint no_reject (n : dptNode) : bool :=
  let ok v := match v with DP_REJECT => false | _ => true end in
  match n with
  | Bin _ v l r => ok v && no_reject l && no_reject r
  | Neg v l => ok v && no_reject l
  | Job _ v _ _ _ _ _ | Timew v _ | Jgrp _ v _ _ _ => ok v
  end.

Lemma eval_jobs_no_reject fuel test skip type all jpbw ptr v w :
  v <> DP_REJECT -> eval_jobs st fuel test skip type all jpbw ptr v = Ok w -> w <> DP_REJECT.
Proof.
  revert jpbw ptr v; induction fuel as [|f IH]; intros jpbw ptr v Hv; cbn [eval_jobs]; [discriminate|].
  destruct jpbw as [r|]; [|congruence]. destruct (jobs st !! r) as [j|]; [|discriminate]. cbv zeta.
  destruct (skip (jobId j)), (test j), all, ptr as [[|x l]|], (hopeless type (jStatus j)); intros E;
    first [apply IH in E; (exact E || assumption || discriminate)|congruence].
Qed.

Lemma eval_job_no_reject t op code one j idx v w :
  v <> DP_REJECT -> eval_job st t op code one j idx v depJob = Ok w -> w <> DP_REJECT.
Proof.
  intros Hv. unfold eval_job. destruct j as [r|]; [|congruence]. destruct (jobs st !! r) as [j|]; [|discriminate].
  cbv zeta. destruct (is_array (nodeType j)); [|apply eval_jobs_no_reject, Hv]. destruct one.
  - destruct depJob as [d|]; [|discriminate]. destruct (getJobData st _); [apply eval_jobs_no_reject, Hv|].
    destruct idx as [i|]; [|congruence]. destruct (ListSet.listSetIteratorBegin _) as [[r1 pos]|]; [|congruence]. intros H. apply bind_Ok in H as (x & _ & H). eapply eval_jobs_no_reject; eauto.
  - destruct idx as [[ixs [|x l]]|]; apply eval_jobs_no_reject, Hv.
Qed.

Lemma leaf_no_reject n v n' : leaf n = true -> no_reject n = true -> evalDepCond st n depJob = Ok (v, n') ->
  v <> DP_REJECT /\ no_reject n' = true.
Proof.
  destruct n as [| |t x op code one j idx|x w|t x op num [b|]]; cbn [leaf no_reject]; try discriminate; intros _ R; cbn.
  - intros H. apply bind_Ok in H as (w & H & [= <- <-]).
    apply eval_job_no_reject in H; [|intros ->; discriminate]. split; [exact H|]. now destruct w.
  - intros [= <- <-]. now destruct (tw_open _).
  - destruct (arrays st !! b) as [a|]; [|discriminate]. destruct (status a =? JGRP_VOID); [now intros [= <- <-]|].
    intros [= <- <-]. now destruct (opExpr _ _ _).
  - now intros [= <- <-].
Qed.

(** The evaluation with its short cuts has the value of the lattice. *)
Lemma eval_den n v : no_reject n = true -> den n = Some v ->
  exists n', evalDepCond st n depJob = Ok (v, n') /\ v <> DP_REJECT /\ no_reject n' = true.
Proof.
  revert v; induction n as [t x l IHl r IHr|x l IHl| | |]; intros v R D.
  - cbn [no_reject] in R. bool_split. destruct t; cbn [den] in D;
      try (injection D as <-; eexists; split; [reflexivity|]; split; [intros ->; discriminate|cbn; now rewrite H, H0, H1]).
    1,2: destruct (den l) as [a|]; [|discriminate]; destruct (den r) as [b|]; [|discriminate]; injection D as <-;
      destruct (IHl a H1 eq_refl) as (l' & El & Ra & Rl), (IHr b H0 eq_refl) as (r' & Er & Rb & Rr);
      cbn [evalDepCond]; rewrite El; cbn [mbind res_bind]; destruct a; try congruence; rewrite ?Er; cbn [mbind res_bind];
      destruct b; try congruence; eexists; (split; [reflexivity|]); (split; [discriminate|]); cbn; now rewrite Rl, ?Rr, ?H0.
  - cbn [no_reject den] in R, D. bool_split. destruct (den l) as [a|]; [|discriminate]. injection D as <-.
    destruct (IHl a H0 eq_refl) as (l' & El & Ra & Rl). cbn [evalDepCond]. rewrite El. cbn [mbind res_bind].
    destruct a; try congruence; eexists; (split; [reflexivity|]); (split; [discriminate|]); cbn; now rewrite Rl.
  - unfold den in D. destruct (evalDepCond st _ depJob) as [[w n']| | |] eqn:E; try discriminate. injection D as <-.
    pose proof E as E'. apply leaf_no_reject in E' as [? ?]; [eauto|reflexivity|exact R].
  - unfold den in D. destruct (evalDepCond st _ depJob) as [[w' n']| | |] eqn:E; try discriminate. injection D as <-.
    pose proof E as E'. apply leaf_no_reject in E' as [? ?]; [eauto|reflexivity|exact R].
  - unfold den in D. destruct (evalDepCond st _ depJob) as [[w n']| | |] eqn:E; try discriminate. injection D as <-.
    pose proof E as E'. apply leaf_no_reject in E' as [? ?]; [eauto|reflexivity|exact R].
Qed.

(** The meaning of a condition. *)
Fixpoint sem (e : cond) : option dpval :=
  match e with
  | Atom a => n ← atom_node st a; den n
  | And a b => x ← sem a; y ← sem b; Some (vmin x y)
  | Or a b => x ← sem a; y ← sem b; Some (vmax x y)
  | Not a => x ← sem a; Some (vnot x)
  end.

Lemma atom_no_reject a n : atom_node st a = Some n -> no_reject n = true /\ leaf n = true.
Proof.
  destruct a as [t id|id op code|t id op num]; cbn [atom_node].
  1,2: destruct (match_number _ _ _ _ _) as [[| |[|r [|? ?]] idx]| | |]; try discriminate; now intros [= <-].
  destruct (option_map _ _) as [[j|]|]; try discriminate. destruct (array j); [now intros [= <-]|discriminate].
Qed.

Lemma tree_den e t v : tree st e = Some t -> sem e = Some v -> den t = Some v /\ no_reject t = true.
Proof.
  revert t v; induction e as [a|a IHa b IHb|a IHa b IHb|a IHa]; intros t v; cbn [tree sem].
  - destruct (atom_ok a); [|discriminate]. intros E. rewrite E. cbn. apply atom_no_reject in E as [E _]. auto.
  - destruct (tree st a) as [ta|]; [|discriminate]. destruct (tree st b) as [tb|]; [|discriminate]. intros [= <-].
    destruct (sem a) as [x|]; [|discriminate]. destruct (sem b) as [y|]; [|discriminate]. intros [= <-].
    destruct (IHa _ _ eq_refl eq_refl) as [Da Ra], (IHb _ _ eq_refl eq_refl) as [Db Rb].
    cbn. rewrite Da, Db, Ra, Rb. cbn. now rewrite vmin_comm.
  - destruct (tree st a) as [ta|]; [|discriminate]. destruct (tree st b) as [tb|]; [|discriminate]. intros [= <-].
    destruct (sem a) as [x|]; [|discriminate]. destruct (sem b) as [y|]; [|discriminate]. intros [= <-].
    destruct (IHa _ _ eq_refl eq_refl) as [Da Ra], (IHb _ _ eq_refl eq_refl) as [Db Rb].
    cbn. rewrite Da, Db, Ra, Rb. cbn. now rewrite vmax_comm.
  - destruct (tree st a) as [ta|]; [|discriminate]. intros [= <-].
    destruct (sem a) as [x|]; [|discriminate]. intros [= <-].
    destruct (IHa _ _ eq_refl eq_refl) as [Da Ra]. cbn. now rewrite Da, Ra.
Qed.
End Eval.

(** ** A sample state *)

Definition sample_job (id stat : Z) (next : option Z) (arr : option Z) : jData :=
  mkJob id stat 0 100 200 0 (match arr with Some _ => JGRP_NODE_ARRAY | None => JGRP_NODE_JOB end) next
    (cs "lu") (cs "sim") 50 arr.

(** Jobs 1 (running), 2 (done), 3 (exited with code 5), 4 (done). *)
Definition sample_state : mbd :=
  mkMbd (mkConfig 1000 false false) (list_to_map [(1, 101); (2, 102); (3, 103); (4, 104)])
    (list_to_map [(101, sample_job 1 4 None None); (102, sample_job 2 JOB_STAT_DONE None None);
                  (103, mkJob 3 JOB_STAT_EXIT 0 100 200 (5 * 256) JGRP_NODE_JOB None (cs "lu") (cs "sim") 60 None);
                  (104, sample_job 4 JOB_STAT_DONE None None)])
    empty [101; 102; 103; 104] [] 1700000000.

#[local] Instance sample_windows : TimeWindows := mbd_windows (fun _ => (1%nat, 12, 0)).

Example sample_parse :
  match parseDepCond sample_state (cs "lu") false 0 (cs "done(2) && (exit(3, >=5) || started(1))") with
  | Ok t => match evalDepCond sample_state t None with Ok (v, _) => Some v | _ => None end
  | _ => None
  end = Some DP_TRUE.
Proof. vm_compute. reflexivity. Qed.

(** ** Properties *)

(** C4: Outside the replay of the log, a condition built with [&&], [||] and [!] from
    conditions on jobs and arrays given by their numbers ([done(17)],
    [exit(18,>3)], [numdone(19,>=5)] and the like, no names, index lists or time
    windows), written with brackets round every operand of [&&] and [!] that is
    not a single condition, is parsed to its tree, and the evaluation of the tree
    has the meaning of the condition, given the values of the single conditions:
    the minimum for [&&] and the maximum for [||] in the order invalid, false,
    true, whatever operands the evaluation skips.  For a text that has such
    brackets the byte [after] that is read behind [preceTable] must be at most 1;
    a text without them is parsed so whatever the byte is. *)
Theorem depcond_meaning `{TW : TimeWindows} st user after depJob e t v :
  after <= 1 \/ flat0 e = true -> replay (conf st) = false -> tree st e = Some t -> sem st depJob e = Some v ->
  parseDepCond st user false after (text e 0) = Ok t
  /\ exists t', evalDepCond st t depJob = Ok (v, t').
Proof.
  intros Ha R T S. split; [now apply parse_text|].
  destruct (tree_den st depJob e t v T S) as [D N]. destruct (eval_den st depJob t v N D) as (t' & E & _). eauto.
Qed.

(** With a larger byte behind [preceTable] no disjunction in brackets is accepted. *)
Theorem bracket_needs_byte `{TW : TimeWindows} st user after a b na :
  1 < after -> atom_ok a = true -> atom_node st a = Some na ->
  exists e, parseDepCond st user false after (text (Or (Atom a) (Atom b)) 1) = Err e.
Proof.
  intros Ha Oa Na. cbn [text Nat.ltb Nat.leb paren]. rewrite <- !app_assoc.
  set (s3 := cs " || " ++ atom_text b ++ [")"%char]).
  destruct (atom_rounds st user after a na 0 s3 [DPT_LEFT_] [] Oa Na) as [n1 R1].
  assert (L : rounds st user after 1 (state 0 ("("%char :: atom_text a ++ s3) [] []) (state 0 (atom_text a ++ s3) [DPT_LEFT_] []))
    by (eapply rounds_1; [apply token_left|reflexivity]).
  pose proof (rounds_app _ _ _ _ _ _ _ _ L R1) as R. cbn [Nat.add] in R.
  unfold parseDepCond, parse_fuel. fold (state 0 ("("%char :: atom_text a ++ s3) [] []).
  replace (S (length _)) with (2 + S (length (atom_text a) + length (atom_text b) + 4))%nat
    by (unfold s3; cbn [length]; rewrite !length_app; cbn; lia).
  rewrite (rounds_loop _ _ _ _ _ _ _ R). cbn [parse_loop state dependCond]. unfold s3. rewrite token_or.
  cbn [token_step]. unfold operator. cbn [set_cond operators operands state].
  change (prece after DPT_OR) with 1. change (prece after DPT_LEFT_) with after.
  destruct (Z.ltb_spec 1 after); [|lia]. eexists. reflexivity.
Qed.

Definition sample_cond : cond :=
  Or (And (Atom (JobAtom DPT_DONE 2)) (Not (Atom (ExitAtom 3 DPT_GE 5)))) (And (Atom (JobAtom DPT_ENDED 3)) (Atom (JobAtom DPT_STARTED 1))).

Example sample_text : text sample_cond 0 = cs "done(2) && (!exit(3,>=5)) || ended(3) && started(1)".
Proof. vm_compute. reflexivity. Qed.

Lemma depcond_meaning_witness :
  exists t, parseDepCond sample_state (cs "lu") false 0 (text sample_cond 0) = Ok t
    /\ exists t', evalDepCond sample_state t None = Ok (DP_TRUE, t').
Proof.
  assert (X : match tree sample_state sample_cond with Some _ => true | None => false end = true)
    by (vm_compute; reflexivity).
  destruct (tree sample_state sample_cond) as [t|] eqn:T; [|discriminate X].
  exists t. apply (depcond_meaning sample_state (cs "lu") 0 None sample_cond t DP_TRUE);
    [left; lia|reflexivity|exact T|vm_compute; reflexivity].
Defined.

(** [evalDepCond], with the values it stores in the nodes and the operands it
    skips, returns the value of the tree in the lattice, and stores no
    [DP_REJECT]. *)
Theorem evalDepCond_lattice `{TW : TimeWindows} st depJob n v :
  no_reject n = true -> den st depJob n = Some v ->
  exists n', evalDepCond st n depJob = Ok (v, n') /\ v <> DP_REJECT /\ no_reject n' = true.
Proof. apply eval_den. Qed.

Lemma evalDepCond_lattice_witness :
  let n := Bin DPT_OR DP_FALSE (newJob DPT_DONE false None None) (newJob DPT_DONE false (Some 101) None) in
  exists n', evalDepCond sample_state n None = Ok (DP_FALSE, n') /\ DP_FALSE <> DP_REJECT /\ no_reject n' = true.
Proof. apply (evalDepCond_lattice sample_state None); vm_compute; reflexivity. Defined.

(** C36: Without brackets, [a && b && c || d] is parsed as [a && (b && c || d)]: only
    one operator is taken from the stack when [||] is read.  The job does not
    start when [d] holds and [a] does not, although [(a && b && c) || d] is
    true. *)
Theorem and_or_misparsed `{TW : TimeWindows} st user after depJob a b c d na nb nc nd vb vc :
  replay (conf st) = false -> forallb atom_ok [a; b; c; d] = true ->
  atom_node st a = Some na -> atom_node st b = Some nb -> atom_node st c = Some nc -> atom_node st d = Some nd ->
  den st depJob na = Some DP_FALSE -> den st depJob nb = Some vb -> den st depJob nc = Some vc ->
  den st depJob nd = Some DP_TRUE ->
  let t := Bin DPT_AND DP_FALSE (Bin DPT_OR DP_FALSE nd (Bin DPT_AND DP_FALSE nc nb)) na in
  parseDepCond st user false after
    (atom_text a ++ cs " && " ++ atom_text b ++ cs " && " ++ atom_text c ++ cs " || " ++ atom_text d) = Ok t
  /\ (exists t', evalDepCond st t depJob = Ok (DP_FALSE, t'))
  /\ sem st depJob (Or (And (Atom a) (And (Atom b) (Atom c))) (Atom d)) = Some DP_TRUE.
Proof.
  intros R O Na Nb Nc Nd Da Db Dc Dd t. cbn [forallb] in O. rewrite andb_true_r in O. bool_split.
  split; [|split].
  - set (s3 := cs " || " ++ atom_text d). set (s2 := cs " && " ++ atom_text c ++ s3).
    set (s1 := cs " && " ++ atom_text b ++ s2).
    destruct (atom_rounds st user after a na 0 s1 [] [] H Na) as [n1 R1].
    destruct (atom_rounds st user after b nb n1 s2 [DPT_AND] [na] H0 Nb) as [n2 R2].
    destruct (atom_rounds st user after c nc n2 s3 [DPT_AND; DPT_AND] [nb; na] H1 Nc) as [n3 R3].
    destruct (atom_rounds st user after d nd n3 [] [DPT_OR; DPT_AND] [Bin DPT_AND DP_FALSE nc nb; na] H2 Nd) as [n4 R4].
    rewrite app_nil_r in R4.
    assert (A1 : rounds st user after 1 (state n1 s1 [] [na]) (state n1 (SP :: atom_text b ++ s2) [DPT_AND] [na]))
      by (eapply op_rounds; [left; split; reflexivity|reflexivity]).
    assert (A2 : rounds st user after 1 (state n2 s2 [DPT_AND] [nb; na])
                   (state n2 (SP :: atom_text c ++ s3) [DPT_AND; DPT_AND] [nb; na]))
      by (eapply op_rounds; [left; split; reflexivity|reflexivity]).
    assert (A3 : rounds st user after 1 (state n3 s3 [DPT_AND; DPT_AND] [nc; nb; na])
                   (state n3 (SP :: atom_text d) [DPT_OR; DPT_AND] [Bin DPT_AND DP_FALSE nc nb; na]))
      by (eapply op_rounds; [right; split; reflexivity|reflexivity]).
    apply rounds_space in R2, R3, R4.
    pose proof (rounds_app _ _ _ _ _ _ _ _ A3 R4) as C. pose proof (rounds_app _ _ _ _ _ _ _ _ R3 C) as C2.
    pose proof (rounds_app _ _ _ _ _ _ _ _ A2 C2) as C3. pose proof (rounds_app _ _ _ _ _ _ _ _ R2 C3) as C4.
    pose proof (rounds_app _ _ _ _ _ _ _ _ A1 C4) as C5. pose proof (rounds_app _ _ _ _ _ _ _ _ R1 C5) as C6.
    exact (rounds_parse st user after _ _ _ _ _ t R C6 eq_refl).
  - destruct (eval_den st depJob t DP_FALSE) as (t' & E & _); [| |eauto].
    + apply atom_no_reject in Na as [Ra _], Nb as [Rb _], Nc as [Rc _], Nd as [Rd _].
      cbn. now rewrite Ra, Rb, Rc, Rd.
    + cbn. rewrite Da, Db, Dc, Dd. cbn. now destruct vb, vc.
  - cbn [sem]. rewrite Na, Nb, Nc, Nd. cbn. rewrite Da, Db, Dc, Dd. cbn. now destruct vb, vc.
Qed.

(** [done(1) && done(2) && done(4) || done(2)], with job 1 running and the others
    done. *)
Lemma and_or_misparsed_witness :
  let j id := JobAtom DPT_DONE id in
  match atom_node sample_state (j 1), atom_node sample_state (j 2), atom_node sample_state (j 4) with
  | Some n1, Some n2, Some n4 =>
      let t := Bin DPT_AND DP_FALSE (Bin DPT_OR DP_FALSE n2 (Bin DPT_AND DP_FALSE n4 n2)) n1 in
      parseDepCond sample_state (cs "lu") false 0
        (atom_text (j 1) ++ cs " && " ++ atom_text (j 2) ++ cs " && " ++ atom_text (j 4) ++ cs " || " ++ atom_text (j 2))
      = Ok t
      /\ (exists t', evalDepCond sample_state t None = Ok (DP_FALSE, t'))
      /\ sem sample_state None (Or (And (Atom (j 1)) (And (Atom (j 2)) (Atom (j 4)))) (Atom (j 2))) = Some DP_TRUE
  | _, _, _ => False
  end.
Proof.
  intros j.
  assert (D1 : (n ← atom_node sample_state (j 1); den sample_state None n) = Some DP_FALSE) by (vm_compute; reflexivity).
  assert (D2 : (n ← atom_node sample_state (j 2); den sample_state None n) = Some DP_TRUE) by (vm_compute; reflexivity).
  assert (D4 : (n ← atom_node sample_state (j 4); den sample_state None n) = Some DP_TRUE) by (vm_compute; reflexivity).
  destruct (atom_node sample_state (j 1)) as [n1|] eqn:N1; [|discriminate D1].
  destruct (atom_node sample_state (j 2)) as [n2|] eqn:N2; [|discriminate D2].
  destruct (atom_node sample_state (j 4)) as [n4|] eqn:N4; [|discriminate D4].
  apply (and_or_misparsed sample_state (cs "lu") 0 None (j 1) (j 2) (j 4) (j 2) n1 n2 n4 n2 DP_TRUE DP_TRUE);
    first [assumption|reflexivity|lia].
Defined.

Lemma parse_time_dead `{TW : TimeWindows} st user windowConf after fuel c s : dead c = true ->
  parse_fuel st user windowConf after fuel (cs "time(" ++ c :: s) = OutOfFuel.
Proof.
  intros D. unfold parse_fuel. destruct fuel as [|fuel]; [reflexivity|]. cbn [parse_loop dependCond].
  change (getToken (cs "time(" ++ c :: s)) with (Some (cs "time", DPT_WINDOW, "("%char :: c :: s)). cbn [token_step].
  unfold window_condition, expect_token, next_token. cbn [set_cond dependCond]. rewrite token_left.
  cbn [mbind res_bind]. change (teq DPT_LEFT_ DPT_LEFT_) with true. cbn iota. cbn [mbind res_bind set_cond dependCond].
  now rewrite window_names_dead.
Qed.

(** C35: Outside the replay of the log, [parseDepCond] does not end on a text exactly
    when its loop over the tokens, which reads the conditions one after another,
    comes to a condition [time(] in whose list of windows the loop over the names
    gets to a place where no character is consumed; then no fuel is enough.  In
    particular it ends on every text in which it meets no time condition, also
    when the letters of [time] are part of a name. *)
Theorem parse_terminates `{TW : TimeWindows} st user windowConf after s : replay (conf st) = false ->
  (parseDepCond st user windowConf after s = OutOfFuel <->
     exists p, reaches st user windowConf after (mkP s [] [] 0 false LSBE_DEPEND_SYNTAX) p /\ window_stuck p)
  /\ (parseDepCond st user windowConf after s = OutOfFuel ->
      forall fuel, parse_fuel st user windowConf after fuel s = OutOfFuel).
Proof.
  intros R. unfold parseDepCond.
  assert (F : parse_fuel st user windowConf after (S (length s)) s = OutOfFuel ->
              exists p, reaches st user windowConf after (mkP s [] [] 0 false LSBE_DEPEND_SYNTAX) p /\ window_stuck p).
  { unfold parse_fuel. intros E. apply (parse_loop_out st user windowConf after (S (length s))); [exact R|cbn; lia|].
    destruct (parse_loop _ _ _ _ _ _) as [p| | |]; cbn in E; try discriminate; [|reflexivity].
    unfold finish in E. destruct (mergeAll _ _) as [[|] [|? [|]]]; discriminate. }
  assert (G : (exists p, reaches st user windowConf after (mkP s [] [] 0 false LSBE_DEPEND_SYNTAX) p /\ window_stuck p) ->
              forall fuel, parse_fuel st user windowConf after fuel s = OutOfFuel).
  { intros (p & Rp & W) fuel. unfold parse_fuel. now rewrite (parse_loop_stuck _ _ _ _ _ _ Rp W). }
  split; [split; auto|auto].
Qed.

(** The text [done(overtime)] has the letters of [time] and ends, with the reply that
    no such job exists or with a tree; [time(#)] does not end. *)
Lemma parse_terminates_witness :
  parseDepCond sample_state (cs "nobody") false 0 (cs "done(overtime)") <> OutOfFuel
  /\ (forall fuel, parse_fuel sample_state (cs "lu") false 0 fuel (cs "time(#)") = OutOfFuel)
  /\ exists p, reaches sample_state (cs "lu") false 0 (mkP (cs "time(#)") [] [] 0 false LSBE_DEPEND_SYNTAX) p /\ window_stuck p.
Proof.
  assert (E : parseDepCond sample_state (cs "lu") false 0 (cs "time(#)") = OutOfFuel)
    by exact (parse_time_dead sample_state (cs "lu") false 0 8 "#" (cs ")") eq_refl).
  assert (X : match parseDepCond sample_state (cs "nobody") false 0 (cs "done(overtime)") with OutOfFuel => false | _ => true end = true)
    by (vm_compute; reflexivity).
  split; [intros O; rewrite O in X; discriminate X|].
  destruct (parse_terminates sample_state (cs "lu") false 0 (cs "time(#)") eq_refl) as [[I _] F].
  split; [exact (F E)|exact (I E)].
Defined.

(** A character that begins no token, right behind [time(], makes the parser
    loop for ever: no amount of fuel is enough.  Any user can submit such a
    condition. *)
Theorem time_window_hangs `{TW : TimeWindows} st user windowConf after fuel c s : dead c = true ->
  parse_fuel st user windowConf after fuel (cs "time(" ++ c :: s) = OutOfFuel.
Proof. apply parse_time_dead. Qed.

Lemma time_window_hangs_witness :
  parse_fuel sample_state (cs "lu") false 0 5000 (cs "time(" ++ ";"%char :: cs "8:00-17:00)") = OutOfFuel.
Proof. apply time_window_hangs. reflexivity. Defined.

(** A name that is neither quoted nor a number and has no index list. *)
Definition plain_name (n : cstr) : bool :=
  no_bracket n && negb (isint_ n) && match n with c :: _ => negb (IS_QUOTE c) | [] => false end.

Lemma no_bracket_strchr n : no_bracket n = true -> strchr "[" n = None /\ before "[" n = n /\ strstr (cs "[*]") n = None.
Proof.
  unfold no_bracket, before. induction n as [|c n IH]; cbn [forallb]; [repeat split; reflexivity|]. intros H. bool_split.
  destruct (IH H0) as (A & B & C). apply negb_true_iff in H. cbn [strchr span]. rewrite H, A. cbn [negb].
  split; [reflexivity|]. split.
  - destruct (span _ n). cbn in *. now rewrite B.
  - cbn [strstr strip_prefix cs list_ascii_of_string]. rewrite Ascii.eqb_sym, H. cbn [cs list_ascii_of_string] in C. now rewrite C.
Qed.

(** The name in a condition such as [done(name)] is not compared with the names
    of the jobs: two names give the same jobs, all jobs of the user or, with
    [jobDepLastSub], the one submitted last. *)
Theorem job_name_ignored st user flag code n1 n2 : plain_name n1 = true -> plain_name n2 = true ->
  ends_in_star n1 = ends_in_star n2 -> matchJobs st n1 user flag code = matchJobs st n2 user flag code.
Proof.
  assert (M : forall n, plain_name n = true -> matchJobs st n user flag code
    = (r ← match_name st n user (match flag with Some b => b | None => false end) [] code; Ok (r, flag))).
  { intros n H. unfold plain_name in H. bool_split. destruct (no_bracket_strchr n H) as (A & B & C).
    unfold matchJobs. rewrite C. unfold parseJobArrayIndex. rewrite A, B. unfold job_of_token.
    destruct n as [|c n]; [discriminate|]. apply negb_true_iff in H0, H1. rewrite H0, H1. reflexivity. }
  intros H1 H2 S. rewrite (M n1 H1), (M n2 H2). f_equal. unfold match_name. rewrite S.
  unfold plain_name in H1, H2. destruct n1, n2; bool_split; try discriminate. reflexivity.
Qed.

Lemma job_name_ignored_witness :
  matchJobs sample_state (cs "nosuchjob") (cs "lu") (Some false) LSBE_DEPEND_SYNTAX
  = matchJobs sample_state (cs "sim") (cs "lu") (Some false) LSBE_DEPEND_SYNTAX
  /\ matchJobs sample_state (cs "sim") (cs "lu") (Some false) LSBE_DEPEND_SYNTAX
     = Ok (Found [101; 102; 103; 104] None, Some false).
Proof. split; [apply job_name_ignored; reflexivity|vm_compute; reflexivity]. Defined.

(** A job has ended exactly when it is done or has exited: the three conditions
    agree on every job, and a job that is not both finished and pending is not
    done and exited at once. *)
Theorem ended_iff_done_or_exit j depJob :
  evalJobDep DPT_ENDED DPT_AND 0 j depJob
  = evalJobDep DPT_DONE DPT_AND 0 j depJob || evalJobDep DPT_EXIT DPT_TRUE 0 j depJob
  /\ (IS_FINISH (jStatus j) && IS_PEND (jStatus j) = false ->
      evalJobDep DPT_DONE DPT_AND 0 j depJob && evalJobDep DPT_EXIT DPT_TRUE 0 j depJob = false).
Proof.
  cbn [evalJobDep opExpr]. unfold IS_FINISH.
  destruct (earlier depJob (endTime j)), (has (jStatus j) JOB_STAT_DONE), (has (jStatus j) JOB_STAT_EXIT),
    (IS_PEND (jStatus j)), (has (jFlags j) JFLAG_LASTRUN_SUCC); cbn; split; (reflexivity || discriminate || auto).
Qed.

Lemma ended_iff_done_or_exit_witness :
  let j := sample_job 2 JOB_STAT_DONE None None in
  evalJobDep DPT_DONE DPT_AND 0 j None && evalJobDep DPT_EXIT DPT_TRUE 0 j None = false.
Proof. apply (ended_iff_done_or_exit (sample_job 2 JOB_STAT_DONE None None) None). reflexivity. Defined.

(** An opening bracket that is never closed is accepted when two conditions
    follow it without an operator, and the condition is false for ever. *)
Theorem unclosed_bracket_accepted `{TW : TimeWindows} st user after depJob a b na nb :
  replay (conf st) = false -> atom_ok a = true -> atom_ok b = true ->
  atom_node st a = Some na -> atom_node st b = Some nb ->
  exists t, parseDepCond st user false after ("("%char :: atom_text a ++ SP :: atom_text b) = Ok t
    /\ evalDepCond st t depJob = Ok (DP_FALSE, t).
Proof.
  intros R Oa Ob Na Nb. exists (Bin DPT_LEFT_ DP_FALSE nb na). split; [|reflexivity].
  destruct (atom_rounds st user after a na 0 (SP :: atom_text b) [DPT_LEFT_] [] Oa Na) as [n1 R1].
  destruct (atom_rounds st user after b nb n1 [] [DPT_LEFT_] [na] Ob Nb) as [n2 R2]. rewrite app_nil_r in R2.
  assert (A : rounds st user after 1 (state 0 ("("%char :: atom_text a ++ SP :: atom_text b) [] [])
                (state 0 (atom_text a ++ SP :: atom_text b) [DPT_LEFT_] []))
    by (eapply rounds_1; [apply token_left|reflexivity]).
  apply rounds_space in R2. pose proof (rounds_app _ _ _ _ _ _ _ _ R1 R2) as C.
  exact (rounds_parse st user after _ _ _ _ _ _ R (rounds_app _ _ _ _ _ _ _ _ A C) eq_refl).
Qed.

Lemma unclosed_bracket_accepted_witness :
  exists t, parseDepCond sample_state (cs "lu") false 0
      ("("%char :: atom_text (JobAtom DPT_DONE 2) ++ SP :: atom_text (JobAtom DPT_DONE 4)) = Ok t
    /\ evalDepCond sample_state t None = Ok (DP_FALSE, t).
Proof.
  assert (X : match atom_node sample_state (JobAtom DPT_DONE 2), atom_node sample_state (JobAtom DPT_DONE 4) with
              | Some _, Some _ => true | _, _ => false end = true) by (vm_compute; reflexivity).
  destruct (atom_node sample_state (JobAtom DPT_DONE 2)) as [n2|] eqn:N2; [|discriminate X].
  destruct (atom_node sample_state (JobAtom DPT_DONE 4)) as [n4|] eqn:N4; [|discriminate X].
  exact (unclosed_bracket_accepted sample_state (cs "lu") 0 None (JobAtom DPT_DONE 2) (JobAtom DPT_DONE 4) n2 n4
    eq_refl eq_refl eq_refl N2 N4).
Defined.

(** ** Arrays *)

(** The verdict of the loop over the elements of an array. *)
Fixpoint verdict (test : jData -> bool) (type : dptType) (js : list jData) (v : dpval) : dpval :=
  match js with
  | [] => v
  | j :: js' =>
      if test j then verdict test type js' DP_TRUE
      else if hopeless type (jStatus j) then DP_INVALID else DP_FALSE
  end.

Lemma eval_jobs_list st fuel test skip type r l js v :
  mapM (fun x => jobs st !! x) (r :: l) = Some js -> (length l + 1 < fuel)%nat ->
  eval_jobs st fuel test skip type true (Some r) (Some l) v
  = Ok (verdict test type (List.filter (fun j => negb (skip (jobId j))) js) v).
Proof.
  revert fuel r js v; induction l as [|x l IH]; intros fuel r js v M L; (destruct fuel as [|f]; [lia|]);
    cbn [eval_jobs]; apply mapM_Some in M; inversion M as [|? j ? js' Ej Mj]; subst; rewrite Ej; cbv zeta.
  - inversion Mj; subst. destruct f as [|f]; [cbn in L; lia|]. cbn [List.filter]. destruct (skip (jobId j)); [reflexivity|].
    cbn [negb verdict]. destruct (test j); [reflexivity|]. now destruct (hopeless type (jStatus j)).
  - apply mapM_Some in Mj. pose proof (fun v => IH f x js' v Mj ltac:(cbn in L; lia)) as E.
    cbn [List.filter]. destruct (skip (jobId j)); [apply E|]. cbn [negb verdict].
    destruct (test j); [apply E|]. now destruct (hopeless type (jStatus j)).
Qed.

Lemma verdict_true test type js v : js <> [] ->
  verdict test type js v = DP_TRUE <-> forallb test js = true.
Proof.
  intros N. destruct js as [|j js]; [congruence|]. clear N. revert j v; induction js as [|k js IH]; intros j v; cbn.
  - destruct (test j); cbn; [easy|]. now destruct (hopeless type (jStatus j)).
  - destruct (test j); cbn [andb]; [exact (IH k DP_TRUE)|]. now destruct (hopeless type (jStatus j)).
Qed.

(** A condition on elements of an array is true exactly when every element that
    its index list selects satisfies the condition; otherwise the first element
    that does not decides between false and invalid. *)
Theorem array_condition_all st type op code r arr ixs x l js v depJob :
  jobs st !! r = Some arr -> nodeType arr = JGRP_NODE_ARRAY ->
  mapM (fun y => jobs st !! y) (x :: l) = Some js ->
  let sel := List.filter (fun j => inIdxList (jobId j) ixs) js in
  let test j := evalJobDep type op code j depJob in
  sel <> [] ->
  exists w, eval_job st type op code false (Some r) (Some (mkJobIdx ixs (x :: l))) v depJob = Ok w
    /\ w = verdict test type sel v /\ (w = DP_TRUE <-> forallb test sel = true).
Proof.
  intros Hr Ha M sel test Hs. eexists. split; [|split; [reflexivity|now apply verdict_true]].
  unfold eval_job. rewrite Hr, Ha. cbn [is_array negb andb]. unfold eval_fuel. cbn [depJobList idxs].
  rewrite (eval_jobs_list st _ test _ type x l js v M) by (cbn [length]; lia). subst sel. do 2 f_equal.
  apply filter_ext. intros j. now rewrite andb_true_r, negb_involutive.
Qed.

(** An array with three elements, of which the first two are done. *)
Definition array_state : mbd :=
  mkMbd (mkConfig 1000 false false) empty
    (list_to_map [(200, sample_job 7 1 (Some 201) (Some 300));
                  (201, sample_job (LSB_JOBID 7 1) JOB_STAT_DONE (Some 202) None);
                  (202, sample_job (LSB_JOBID 7 2) JOB_STAT_DONE (Some 203) None);
                  (203, sample_job (LSB_JOBID 7 3) 4 None None)])
    empty [200] [] 1700000000.

Lemma array_condition_all_witness :
  exists w, eval_job array_state DPT_DONE DPT_AND 0 false (Some 200) (Some (mkJobIdx [mkIdx 1 2 1] [201; 202; 203])) DP_FALSE None
      = Ok w
    /\ w = verdict (fun j => evalJobDep DPT_DONE DPT_AND 0 j None) DPT_DONE
             [sample_job (LSB_JOBID 7 1) JOB_STAT_DONE (Some 202) None; sample_job (LSB_JOBID 7 2) JOB_STAT_DONE (Some 203) None]
             DP_FALSE
    /\ (w = DP_TRUE <-> true = true).
Proof.
  apply (array_condition_all array_state DPT_DONE DPT_AND 0 200 (sample_job 7 1 (Some 201) (Some 300)) [mkIdx 1 2 1] 201
    [202; 203] [sample_job (LSB_JOBID 7 1) JOB_STAT_DONE (Some 202) None; sample_job (LSB_JOBID 7 2) JOB_STAT_DONE (Some 203) None;
                sample_job (LSB_JOBID 7 3) 4 None None]);
    [vm_compute; reflexivity|reflexivity|vm_compute; reflexivity|vm_compute; discriminate].
Defined.
