(* ===== verification/Counters.v ===== *)
(** * Counters of queues, users and hosts (lsbatch/daemons/mbd.misc.c)

    The master daemon counts job slots by state for every queue, user, user group
    and host, and for the pairs of queue and user, queue and host, user and host,
    host and user.  The limits of the configuration are compared with these
    counters when jobs are dispatched.

    A pointer to a queue, user or host is the name of the object.  The tables
    [uAcct] and [hAcct] are the maps that the hash tables of HashTab.v refine.
    [reasonTb[1]] and [hReasonTb[1]] are maps from host numbers (0 for the queue or
    user itself), in which a missing number is 0.  Messages to the system log are
    left out.  [getQUsable] of the scheduler recomputes what [qUsable] holds; it is
    an argument of the functions that call it. *)
From stdpp Require Import base gmap list.
From Stdlib Require Import ZArith Ascii Lia.
From Corelib Require Import SpecFloat.
From S2P Require Import Prelude CNum.
Local Open Scope Z_scope.

(** ** Constants of lsbatch.h, mbd.h, daemons.h and lsf.h *)

Definition JOB_STAT_PEND : Z := 0x01.
Definition JOB_STAT_PSUSP : Z := 0x02.
Definition JOB_STAT_RUN : Z := 0x04.
Definition JOB_STAT_SSUSP : Z := 0x08.
Definition JOB_STAT_USUSP : Z := 0x10.
Definition JOB_STAT_EXIT : Z := 0x20.
Definition JOB_STAT_DONE : Z := 0x40.
Definition JOB_STAT_WAIT : Z := 0x200.
Definition JOB_STAT_UNKWN : Z := 0x10000.
Definition JOB_STAT_PRE_EXEC : Z := 0x04000000.
Definition JOB_STAT_RESERVE : Z := 0x20000000.
Definition JOB_STAT_MIG : Z := 0x40000000.
Definition MASK_INT_JOB_STAT : Z := 0x000FFFFF.

Definition MASK_STATUS (s : Z) : Z := Z.land s MASK_INT_JOB_STAT.
Definition SET_STATE (s n : Z) : Z := Z.lor (Z.ldiff s MASK_INT_JOB_STAT) n.
Definition IS_PEND (s : Z) : bool := has s JOB_STAT_PEND || has s JOB_STAT_PSUSP.
Definition IS_START (s : Z) : bool := has s JOB_STAT_RUN || has s JOB_STAT_SSUSP || has s JOB_STAT_USUSP.
Definition IS_FINISH (s : Z) : bool := has s JOB_STAT_DONE || has s JOB_STAT_EXIT.

Definition INFINIT_INT : Z := 0x7fffffff.
Definition INFINIT_FLOAT : spec_float := Eval vm_compute in float_of 0x7fffffff.
Definition HOST_STAT_FULL : Z := 0x10.
Definition HOST_STAT_UNREACH : Z := 0x20.
Definition HOST_STAT_UNAVAIL : Z := 0x40.
Definition HOST_STAT_EXCLUSIVE : Z := 0x100.
Definition HOST_STAT_REMOTE : Z := 0x80000000.
Definition LIM_UNAVAIL : Z := 0x00010000.
Definition M_STAGE_QUE_CAND : Z := 0x0004.
Definition M_STAGE_REPLAY : Z := 0x0008.
Definition QUEUE_UPDATE_USABLE : Z := 0x08.
Definition USER_GROUP : Z := 0x001.
Definition USER_INIT : Z := 0x004.
Definition SUB_EXCLUSIVE : Z := 0x40.
Definition PEND_QUE_JOB_LIMIT : Z := 303.
Definition PEND_QUE_USR_JLIMIT : Z := 304.
Definition PEND_USER_JOB_LIMIT : Z := 601.
Definition PEND_UGRP_JOB_LIMIT : Z := 602.
Definition PEND_HOST_JOB_LIMIT : Z := 1305.
Definition PEND_QUE_PROC_JLIMIT : Z := 1306.
Definition PEND_QUE_HOST_JLIMIT : Z := 1307.
Definition PEND_USER_PROC_JLIMIT : Z := 1308.
Definition PEND_HOST_USR_JLIMIT : Z := 1309.
Definition PEND_UGRP_PROC_JLIMIT : Z := 1324.

(** ** Data *)

(** The counters that queues, users, hosts and accounts have in common.  Hosts
    have no [numPEND], accounts of users no [numJobs] and accounts of hosts
    neither; they are 0 there. *)
Record counters := mkCnt { numJobs : Z; numPEND : Z; numRUN : Z; numSSUSP : Z; numUSUSP : Z; numRESERVE : Z }.
Definition czero : counters := mkCnt 0 0 0 0 0 0.

Record userAcct := mkUAcct { ua_userId : Z; ua_cnt : counters; ua_reason : Z }.

(** What [getQUsable] computes. *)
Record qUsable := mkUsable { numUsable : Z; q_numSlots : Z; numReasons : Z; qAttrib : Z; q_reasonTb : gmap Z Z }.
Record qData := mkQ {
  q_maxJobs : Z; q_uJobLimit : Z; q_hJobLimit : Z; q_pJobLimit : spec_float; q_flags : Z;
  q_cnt : counters; q_uAcct : gmap cstr userAcct; q_hAcct : gmap cstr counters; q_usable : qUsable }.

(** [u_numSlots] is [None] when the code stores a value it never computed. *)
Record uData := mkU {
  u_maxJobs : Z; u_pJobLimit : spec_float; u_flags : Z; gPtr : list cstr; ancestors : list cstr;
  u_cnt : counters; u_hAcct : gmap cstr counters; u_reasonTb : gmap Z Z; u_numSlots : option Z }.

Record hData := mkH {
  hostId : Z; numCPUs : Z; hStatus : Z; limStatus : Z; h_uJobLimit : Z; h_maxJobs : Z;
  num_preemptable : Z; num_availd_ssusp : Z; numDispJobs : Z;
  h_cnt : counters; h_uAcct : gmap cstr userAcct }.

(** A group of users: its name, its members and its subgroups. *)
Inductive gData := mkG (group : cstr) (memberTab : list cstr) (subgroups : list gData).
Definition group (g : gData) : cstr := match g with mkG n _ _ => n end.

(** A job; [hPtr] is NULL when it is empty, [numHostPtr] is its length. *)
Record jData := mkJ {
  userName : cstr; userId : Z; jStatus : Z; maxNumProcessors : Z; options : Z; qPtr : cstr; hPtr : list cstr }.
Definition uPtr (j : jData) : cstr := userName j.
Definition numHostPtr (j : jData) : Z := Z.of_nat (length (hPtr j)).

Record mbd := mkMbd {
  queues : gmap cstr qData; users : gmap cstr uData; hosts : gmap cstr hData; hReasonTb : gmap Z Z;
  usergroups : list gData; mSchedStage : Z }.

(** *** Field updates *)

Definition set_jStatus (j : jData) (s : Z) : jData := mkJ (userName j) (userId j) s (maxNumProcessors j) (options j) (qPtr j) (hPtr j).
Definition set_qPtr (j : jData) (q : cstr) : jData := mkJ (userName j) (userId j) (jStatus j) (maxNumProcessors j) (options j) q (hPtr j).
Definition set_hPtr (j : jData) (h : list cstr) : jData := mkJ (userName j) (userId j) (jStatus j) (maxNumProcessors j) (options j) (qPtr j) h.

Definition set_q_cnt (c : counters) q : qData :=
  mkQ (q_maxJobs q) (q_uJobLimit q) (q_hJobLimit q) (q_pJobLimit q) (q_flags q) c (q_uAcct q) (q_hAcct q) (q_usable q).
Definition set_q_uAcct (t : gmap cstr userAcct) q : qData :=
  mkQ (q_maxJobs q) (q_uJobLimit q) (q_hJobLimit q) (q_pJobLimit q) (q_flags q) (q_cnt q) t (q_hAcct q) (q_usable q).
Definition set_q_hAcct (t : gmap cstr counters) q : qData :=
  mkQ (q_maxJobs q) (q_uJobLimit q) (q_hJobLimit q) (q_pJobLimit q) (q_flags q) (q_cnt q) (q_uAcct q) t (q_usable q).
Definition set_q_flags (f : Z) q : qData :=
  mkQ (q_maxJobs q) (q_uJobLimit q) (q_hJobLimit q) (q_pJobLimit q) f (q_cnt q) (q_uAcct q) (q_hAcct q) (q_usable q).
Definition set_q_usable (u : qUsable) q : qData :=
  mkQ (q_maxJobs q) (q_uJobLimit q) (q_hJobLimit q) (q_pJobLimit q) (q_flags q) (q_cnt q) (q_uAcct q) (q_hAcct q) u.
Definition set_u_cnt (c : counters) u : uData :=
  mkU (u_maxJobs u) (u_pJobLimit u) (u_flags u) (gPtr u) (ancestors u) c (u_hAcct u) (u_reasonTb u) (u_numSlots u).
Definition set_u_flags (f : Z) u : uData :=
  mkU (u_maxJobs u) (u_pJobLimit u) f (gPtr u) (ancestors u) (u_cnt u) (u_hAcct u) (u_reasonTb u) (u_numSlots u).
Definition set_u_hAcct (t : gmap cstr counters) u : uData :=
  mkU (u_maxJobs u) (u_pJobLimit u) (u_flags u) (gPtr u) (ancestors u) (u_cnt u) t (u_reasonTb u) (u_numSlots u).
Definition set_u_reasonTb (t : gmap Z Z) u : uData :=
  mkU (u_maxJobs u) (u_pJobLimit u) (u_flags u) (gPtr u) (ancestors u) (u_cnt u) (u_hAcct u) t (u_numSlots u).
Definition set_u_numSlots (n : option Z) u : uData :=
  mkU (u_maxJobs u) (u_pJobLimit u) (u_flags u) (gPtr u) (ancestors u) (u_cnt u) (u_hAcct u) (u_reasonTb u) n.
Definition set_gPtr (g : list cstr) u : uData :=
  mkU (u_maxJobs u) (u_pJobLimit u) (u_flags u) g (ancestors u) (u_cnt u) (u_hAcct u) (u_reasonTb u) (u_numSlots u).
Definition set_h_cnt (c : counters) h : hData :=
  mkH (hostId h) (numCPUs h) (hStatus h) (limStatus h) (h_uJobLimit h) (h_maxJobs h) (num_preemptable h) (num_availd_ssusp h) (numDispJobs h) c (h_uAcct h).
Definition set_hStatus (s : Z) h : hData :=
  mkH (hostId h) (numCPUs h) s (limStatus h) (h_uJobLimit h) (h_maxJobs h) (num_preemptable h) (num_availd_ssusp h) (numDispJobs h) (h_cnt h) (h_uAcct h).
Definition set_h_uAcct (t : gmap cstr userAcct) h : hData :=
  mkH (hostId h) (numCPUs h) (hStatus h) (limStatus h) (h_uJobLimit h) (h_maxJobs h) (num_preemptable h) (num_availd_ssusp h) (numDispJobs h) (h_cnt h) t.
Definition set_numDispJobs (n : Z) h : hData :=
  mkH (hostId h) (numCPUs h) (hStatus h) (limStatus h) (h_uJobLimit h) (h_maxJobs h) (num_preemptable h) (num_availd_ssusp h) n (h_cnt h) (h_uAcct h).

Definition set_queues (q : gmap cstr qData) st : mbd := mkMbd q (users st) (hosts st) (hReasonTb st) (usergroups st) (mSchedStage st).
Definition set_users (u : gmap cstr uData) st : mbd := mkMbd (queues st) u (hosts st) (hReasonTb st) (usergroups st) (mSchedStage st).
Definition set_hosts (h : gmap cstr hData) st : mbd := mkMbd (queues st) (users st) h (hReasonTb st) (usergroups st) (mSchedStage st).
Definition set_hReasonTb (t : gmap Z Z) st : mbd := mkMbd (queues st) (users st) (hosts st) t (usergroups st) (mSchedStage st).

(** ** Counters *)

(** [addValue] resets a counter that becomes negative. *)
Definition addValue (currentValue num : Z) : Z :=
  let v := wrap32 (currentValue + num) in if 0 <=? v then v else 0.

Definition addValues (c d : counters) : counters :=
  mkCnt (addValue (numJobs c) (numJobs d)) (addValue (numPEND c) (numPEND d)) (addValue (numRUN c) (numRUN d))
    (addValue (numSSUSP c) (numSSUSP d)) (addValue (numUSUSP c) (numUSUSP d)) (addValue (numRESERVE c) (numRESERVE d)).

Definition addOneAbs (num addedNum : Z) (clean : bool) : Z :=
  let num := if clean then 0 else num in
  if 0 <? addedNum then wrap32 (num + 1) else if addedNum <? 0 then wrap32 (num - 1) else num.

(** The four counters of an account of a host. *)
Definition addOnes (c d : counters) : counters :=
  mkCnt (numJobs c) (numPEND c) (addOneAbs (numRUN c) (numRUN d) false) (addOneAbs (numSSUSP c) (numSSUSP d) false)
    (addOneAbs (numUSUSP c) (numUSUSP d) false) (addOneAbs (numRESERVE c) (numRESERVE d) false).

(** The slots in use by started jobs and reservations. *)
Definition slots (c : counters) : Z := numRUN c + numSSUSP c + numUSUSP c + numRESERVE c.

(** No change of a started or reserved slot. *)
Definition newJob (d : counters) : bool :=
  (numRUN d =? 0) && (numSSUSP d =? 0) && (numUSUSP d =? 0) && (numRESERVE d =? 0).

Definition reason (tb : gmap Z Z) (i : Z) : Z := default 0 (tb !! i).
Definition CLEAR_REASON (v r : Z) : Z := if v =? r then 0 else v.
Definition SET_REASON (condition : bool) (v r : Z) : Z := if condition then r else CLEAR_REASON v r.
Definition set_reason (tb : gmap Z Z) (i : Z) (f : Z -> Z) : gmap Z Z := <[i := f (reason tb i)]> tb.

(** ** Accounts *)

(** [getUAcct] and [addUAcct] inside [updUAcct]: the account, if there is one
    afterwards, and the table. *)
Definition addUAcct (userId : Z) (d : counters) : userAcct := mkUAcct userId d 0.

Definition updUAcct (jData : jData) (up : cstr) (uAcct : gmap cstr userAcct) (d : counters) :
    option userAcct * gmap cstr userAcct :=
  match uAcct !! up with
  | Some foundU =>
      let foundU := mkUAcct (ua_userId foundU) (addValues (ua_cnt foundU) d) (ua_reason foundU) in
      (Some foundU, <[up := foundU]> uAcct)
  | None =>
      if newJob d && (numPEND d =? 0) then (None, uAcct)
      else let foundU := addUAcct (userId jData) d in (Some foundU, <[up := foundU]> uAcct)
  end.

(** The end of [updUAcct] for an account of a queue ([hp == NULL]). *)
Definition updUAcct_q (jData : jData) (up : cstr) (d : counters) (qp : qData) : qData :=
  let '(foundU, t) := updUAcct jData up (q_uAcct qp) d in
  match foundU with
  | None => qp
  | Some a =>
      let numSlots := wrap32 (q_uJobLimit qp - slots (ua_cnt a)) in
      set_q_uAcct (<[up := mkUAcct (ua_userId a) (ua_cnt a) (SET_REASON (numSlots <=? 0) (ua_reason a) PEND_QUE_USR_JLIMIT)]> t) qp
  end.

(** [ceil] of a float, as an [int]. *)
Definition ceil_int (x : spec_float) : Z :=
  match x with
  | S754_finite s m e =>
      let v := if s then Zneg m else Zpos m in
      wrap32 (if 0 <=? e then v * 2 ^ e else - (- v / 2 ^ (- e)))
  | _ => 0
  end.

Definition pJobLimitOk (hp : hData) (hAcct : option counters) (pJobLimit : spec_float) : Z :=
  if SFleb pJobLimit (S754_zero false) then 0
  else if SFleb INFINIT_FLOAT pJobLimit then INFINIT_INT
  else
    let cpus := if numCPUs hp =? 0 then 1 else numCPUs hp in
    let numSlots := ceil_int (SFmul 24 128 pJobLimit (float_of cpus)) in
    let numSlots := match hAcct with Some a => wrap32 (numSlots - slots a) | None => numSlots end in
    if numSlots <=? 0 then 0 else numSlots.

Definition hJobLimitOk (hAcct : option counters) (hJobLimit : Z) : Z :=
  if hJobLimit <=? 0 then 0
  else if hJobLimit =? INFINIT_INT then INFINIT_INT
  else
    let numSlots := match hAcct with Some a => wrap32 (hJobLimit - slots a) | None => hJobLimit end in
    if numSlots <=? 0 then 0 else numSlots.

(** The account of one host: [getHAcct] and [addHAcct] inside [updHAcct]. *)
Definition updHAcct_entry (h : cstr) (hAcct : gmap cstr counters) (d : counters) : option counters * gmap cstr counters :=
  match hAcct !! h with
  | Some foundH => let foundH := addOnes foundH d in (Some foundH, <[h := foundH]> hAcct)
  | None =>
      if (0 <? numRUN d) || (0 <? numSSUSP d) || (0 <? numUSUSP d) || (0 <? numRESERVE d)
      then let foundH := addOnes czero d in (Some foundH, <[h := foundH]> hAcct)
      else (None, hAcct)
  end.

Definition reachable_host (hp : hData) : bool :=
  negb (has (hStatus hp) HOST_STAT_UNREACH) && negb (has (hStatus hp) HOST_STAT_UNAVAIL)
  && negb (has (limStatus hp) LIM_UNAVAIL).

Definition CHECKQUSABLE (stage : Z) (oldReason newReason : Z) (qp : qData) : qData :=
  if (newReason =? 0) && negb (oldReason =? 0) && has stage M_STAGE_QUE_CAND
  then set_q_flags (Z.lor (q_flags qp) QUEUE_UPDATE_USABLE) qp else qp.

Definition set_q_reason (i : Z) (v : Z) (qp : qData) : qData :=
  let u := q_usable qp in
  set_q_usable (mkUsable (numUsable u) (q_numSlots u) (numReasons u) (qAttrib u) (<[i := v]> (q_reasonTb u))) qp.
Definition q_reason (qp : qData) (i : Z) : Z := reason (q_reasonTb (q_usable qp)) i.

Section Counters.
(** The usable hosts and the reasons of a queue, computed by the scheduler. *)
Variable getQUsable : mbd -> qData -> qUsable.

(** One host of [updHAcct] for the accounts of a queue. *)
Definition updHAcct_q_host (stage : Z) (h : cstr) (hp : hData) (d : counters) (qp : qData) : qData :=
  let '(foundH, t) := updHAcct_entry h (q_hAcct qp) d in
  let qp := set_q_hAcct t qp in
  let i := hostId hp in
  let svReason := q_reason qp i in
  let qp := set_q_flags (Z.ldiff (q_flags qp) QUEUE_UPDATE_USABLE) qp in
  let limited (numSlots r : Z) (qp : qData) :=
    let qp := set_q_reason i (SET_REASON (numSlots <=? 0) (q_reason qp i) r) qp in
    CHECKQUSABLE stage svReason (q_reason qp i) qp in
  let numSlots := pJobLimitOk hp foundH (q_pJobLimit qp) in
  let '(numSlots, qp) :=
    if (numSlots <=? 0) && reachable_host hp then (numSlots, limited numSlots PEND_QUE_PROC_JLIMIT qp)
    else let numSlots := hJobLimitOk foundH (q_hJobLimit qp) in (numSlots, limited numSlots PEND_QUE_HOST_JLIMIT qp) in
  if (0 <? numSlots) && ((svReason =? PEND_QUE_PROC_JLIMIT) || (svReason =? PEND_QUE_HOST_JLIMIT)) then
    let qp := set_q_reason i (CLEAR_REASON (q_reason qp i) svReason) qp in
    CHECKQUSABLE stage svReason (q_reason qp i) qp
  else qp.

Fixpoint updHAcct_q_loop (st : mbd) (hs : list cstr) (d : counters) (qp : qData) : qData :=
  match hs with
  | [] => qp
  | h :: hs' =>
      updHAcct_q_loop st hs' d
        match hosts st !! h with
        | Some hp => if has (hStatus hp) HOST_STAT_REMOTE then qp else updHAcct_q_host (mSchedStage st) h hp d qp
        | None => qp
        end
  end.

Definition updHAcct_q (st : mbd) (jData : jData) (d : counters) (qp : qData) : qData :=
  match hPtr jData with
  | [] => qp
  | hs =>
      let qp := set_q_flags (Z.ldiff (q_flags qp) QUEUE_UPDATE_USABLE) qp in
      let qp := updHAcct_q_loop st hs d qp in
      if has (q_flags qp) QUEUE_UPDATE_USABLE
      then set_q_flags (Z.ldiff (q_flags qp) QUEUE_UPDATE_USABLE) (set_q_usable (getQUsable st qp) qp)
      else qp
  end.

(** One host of [updHAcct] for the accounts of a user or a group. *)
Definition updHAcct_u_host (h : cstr) (hp : hData) (d : counters) (up : uData) : uData :=
  let '(foundH, t) := updHAcct_entry h (u_hAcct up) d in
  let up := set_u_hAcct t up in
  let i := hostId hp in
  let numSlots := pJobLimitOk hp foundH (u_pJobLimit up) in
  let r := if has (u_flags up) USER_GROUP then PEND_UGRP_PROC_JLIMIT else PEND_USER_PROC_JLIMIT in
  if (numSlots <=? 0) && reachable_host hp
  then set_u_reasonTb (set_reason (u_reasonTb up) i (fun v => SET_REASON (numSlots <=? 0) v r)) up
  else if 0 <? numSlots then set_u_reasonTb (set_reason (u_reasonTb up) i (fun v => CLEAR_REASON v r)) up
  else up.

Fixpoint updHAcct_u (st : mbd) (hs : list cstr) (d : counters) (up : uData) : uData :=
  match hs with
  | [] => up
  | h :: hs' =>
      updHAcct_u st hs' d
        match hosts st !! h with
        | Some hp => if has (hStatus hp) HOST_STAT_REMOTE then up else updHAcct_u_host h hp d up
        | None => up
        end
  end.

(** ** Queues *)

(** The job limit of a queue. *)
Definition limit_q (qp : qData) : qData :=
  let numSlots :=
    if q_maxJobs qp =? INFINIT_INT then INFINIT_INT
    else wrap32 (q_maxJobs qp - (numJobs (q_cnt qp) - numPEND (q_cnt qp))) in
  let v := if q_reason qp 0 =? INFINIT_INT then 0 else q_reason qp 0 in
  set_q_reason 0 (SET_REASON (numSlots <=? 0) v PEND_QUE_JOB_LIMIT) qp.

Definition user_ancestors (st : mbd) (u : cstr) : list cstr :=
  match users st !! u with Some up => ancestors up | None => [] end.

Definition updQaccount (st : mbd) (jp : jData) (d : counters) : mbd :=
  match queues st !! qPtr jp with
  | None => st
  | Some qp =>
      let qp := limit_q (set_q_cnt (addValues (q_cnt qp) d) qp) in
      let d5 := mkCnt 0 (numPEND d) (numRUN d) (numSSUSP d) (numUSUSP d) (numRESERVE d) in
      let qp := updUAcct_q jp (uPtr jp) d5 qp in
      let qp := fold_left (fun qp grp => updUAcct_q jp grp d5 qp) (user_ancestors st (uPtr jp)) qp in
      let qp := if newJob d && (numPEND d =? 0) then qp else updHAcct_q st jp d qp in
      set_queues (<[qPtr jp := qp]> (queues st)) st
  end.

(** ** Users *)

Definition gDirectMember (word : cstr) (g : gData) : bool :=
  match g with
  | mkG _ memberTab subgroups =>
      match memberTab, subgroups with
      | [], [] => true
      | _, _ => existsb (streq word) memberTab
      end
  end.

Fixpoint gMember (word : cstr) (g : gData) : bool :=
  gDirectMember word g
  || match g with mkG _ _ subgroups => existsb (gMember word) subgroups end.

(** [initUData] with the limits of [addUserData]. *)
Definition new_user (maxJobs : Z) (pJobLimit : spec_float) : uData :=
  mkU maxJobs pJobLimit 0 [] [] czero ∅ ∅ (Some INFINIT_INT).

Definition default_name : cstr := ["d"; "e"; "f"; "a"; "u"; "l"; "t"]%char.

Definition getUserData (user : cstr) (us : gmap cstr uData) : gmap cstr uData :=
  match us !! user with
  | Some _ => us
  | None =>
      match us !! default_name with
      | Some defUser => <[user := new_user (u_maxJobs defUser) (u_pJobLimit defUser)]> us
      | None => <[user := new_user INFINIT_INT INFINIT_FLOAT]> us
      end
  end.

Definition updUserData1 (st : mbd) (jData : jData) (d : counters) (up : uData) : uData :=
  let up := set_u_cnt (addValues (u_cnt up) d) up in
  if negb (newJob d) && SFltb (u_pJobLimit up) INFINIT_FLOAT
  then updHAcct_u st (hPtr jData) (mkCnt 0 0 (numRUN d) (numSSUSP d) (numUSUSP d) (numRESERVE d)) up
  else up.

(** The job limit of a user or a group: the slots that are left, and the reason. *)
Definition limit_u (r : Z) (up : uData) : Z * uData :=
  let numSlots := if u_maxJobs up =? INFINIT_INT then INFINIT_INT else wrap32 (u_maxJobs up - slots (u_cnt up)) in
  let v := if reason (u_reasonTb up) 0 =? INFINIT_INT then 0 else reason (u_reasonTb up) 0 in
  (numSlots, set_u_reasonTb (<[0 := SET_REASON (numSlots <=? 0) v r]> (u_reasonTb up)) up).

(** [alter] on the object behind a pointer. *)
Definition on_user (u : cstr) (f : uData -> uData) (st : mbd) : mbd := set_users (alter f u (users st)) st.

(** The groups of a user are looked up once. *)
Definition init_groups (st : mbd) (user : cstr) : mbd :=
  match users st !! user with
  | Some up =>
      if has (u_flags up) USER_INIT then st
      else
        let names := map group (List.filter (gMember user) (usergroups st)) in
        let st := set_users (fold_left (fun us g => getUserData g us) names (users st)) st in
        on_user user (fun up => set_u_flags (Z.lor (u_flags up) USER_INIT) (set_gPtr names up)) st
  | None => st
  end.

(** The loop over the groups; [numSlots] is the smallest number of slots so far. *)
Fixpoint updGroups (st : mbd) (jData : jData) (d : counters) (gs : list cstr) (numSlots : option Z) : option Z * mbd :=
  match gs with
  | [] => (numSlots, st)
  | g :: gs' =>
      match users st !! g with
      | None => updGroups st jData d gs' numSlots
      | Some ugp =>
          let ugp := updUserData1 st jData d (set_u_flags (Z.lor (u_flags ugp) USER_GROUP) ugp) in
          let '(numSlots, ugp) :=
            if newJob d then (numSlots, ugp)
            else let '(num, ugp) := limit_u PEND_UGRP_JOB_LIMIT ugp in
                 (option_map (Z.min num) numSlots, ugp) in
          updGroups (set_users (<[g := ugp]> (users st)) st) jData d gs' numSlots
      end
  end.

Definition updUserData (st : mbd) (jData : jData) (d : counters) : mbd :=
  let st := set_users (getUserData (userName jData) (users st)) st in
  match users st !! uPtr jData with
  | None => st
  | Some up =>
      let up := updUserData1 st jData d (set_u_flags (Z.ldiff (u_flags up) USER_GROUP) up) in
      let '(numSlots, up) :=
        if newJob d then (None, up)
        else let '(n, up) := limit_u PEND_USER_JOB_LIMIT up in (Some n, up) in
      let st := set_users (<[uPtr jData := up]> (users st)) st in
      match usergroups st with
      | [] => on_user (uPtr jData) (set_u_numSlots numSlots) st
      | _ =>
          let st := init_groups st (uPtr jData) in
          let gs := match users st !! uPtr jData with Some up => gPtr up | None => [] end in
          let '(numSlots, st) := updGroups st jData d gs numSlots in
          on_user (uPtr jData) (set_u_numSlots numSlots) st
      end
  end.

(** ** Hosts *)

(** [updUAcct] for the account of the user on a host: the table of the host and
    the reason of the user. *)
Definition updUAcct_h (jData : jData) (h : cstr) (hp : hData) (d : counters) (st : mbd) : mbd :=
  let '(foundU, t) := updUAcct jData (uPtr jData) (h_uAcct hp) d in
  match foundU with
  | None => st
  | Some a =>
      let numSlots := wrap32 (h_uJobLimit hp - slots (ua_cnt a)) in
      let st := set_hosts (<[h := set_h_uAcct t hp]> (hosts st)) st in
      on_user (uPtr jData)
        (fun up => set_u_reasonTb (set_reason (u_reasonTb up) (hostId hp)
                                     (fun v => SET_REASON (numSlots <=? 0) v PEND_HOST_USR_JLIMIT)) up) st
  end.

(** The job limit of a host and its reasons. *)
Definition limit_h (h : cstr) (hp : hData) (st : mbd) : mbd :=
  let i := hostId hp in
  let full := h_maxJobs hp <=? numJobs (h_cnt hp) in
  let spare := Z.max 0 (num_preemptable hp) + Z.max 0 (num_availd_ssusp hp) in
  let hp := set_hStatus (if full then Z.lor (hStatus hp) HOST_STAT_FULL else Z.ldiff (hStatus hp) HOST_STAT_FULL) hp in
  let hp := if numJobs (h_cnt hp) <=? 0 then set_hStatus (Z.ldiff (hStatus hp) HOST_STAT_EXCLUSIVE) hp else hp in
  let v := if full && (h_maxJobs hp <=? wrap32 (numJobs (h_cnt hp) - spare)) then PEND_HOST_JOB_LIMIT
           else CLEAR_REASON (reason (hReasonTb st) i) PEND_HOST_JOB_LIMIT in
  let st := set_hReasonTb (<[i := v]> (hReasonTb st)) st in
  let st := if full then st
            else set_queues ((fun qp => set_q_reason i (CLEAR_REASON (q_reason qp i) PEND_HOST_JOB_LIMIT) qp) <$> queues st) st in
  set_hosts (<[h := hp]> (hosts st)) st.

(** [updHostData]: [d] has no [numPEND].  A NULL host ends the loop. *)
Fixpoint updHostData_loop (st : mbd) (jData : jData) (d : counters) (hs : list cstr) : mbd :=
  match hs with
  | [] => st
  | h :: hs' =>
      match hosts st !! h with
      | None => st
      | Some hp =>
          if has (hStatus hp) HOST_STAT_REMOTE then updHostData_loop st jData d hs'
          else
            let st := if (h_uJobLimit hp <? INFINIT_INT) && negb (newJob d)
                      then updUAcct_h jData h hp (mkCnt 0 0 (numRUN d) (numSSUSP d) (numUSUSP d) (numRESERVE d)) st else st in
            match hosts st !! h with
            | None => st
            | Some hp => updHostData_loop (limit_h h (set_h_cnt (addValues (h_cnt hp) d) hp) st) jData d hs'
            end
      end
  end.

Definition updHostData (st : mbd) (jData : jData) (numJobs numRUN numSSUSP numUSUSP numRESERVE : Z) : mbd :=
  updHostData_loop st jData (mkCnt numJobs 0 numRUN numSSUSP numUSUSP numRESERVE) (hPtr jData).

(** ** Changes of state *)

Definition IS_POST_FINISH (s : Z) : bool := (Z.land s 0x80 =? 0x80) || (Z.land s 0x100 =? 0x100).

(** The three updates of a change of state.  The code calls them in different
    orders in different branches: [QUH] is queue, user, host and [QHU] queue,
    host, user. *)
Inductive order := QUH | QHU.
Definition update (o : order) (st : mbd) (jData : jData) (d : counters) (nJ nR nS nU nV : Z) : mbd :=
  let st := updQaccount st jData d in
  match o with
  | QUH => updHostData (updUserData st jData d) jData nJ nR nS nU nV
  | QHU => updUserData (updHostData st jData nJ nR nS nU nV) jData d
  end.

(** The updates of a job that has no hosts to count. *)
Definition update0 (st : mbd) (jData : jData) (d : counters) : mbd := updUserData (updQaccount st jData d) jData d.

Definition updCounters (st : mbd) (jData : jData) (oldStatus : Z) : mbd :=
  let known (s : Z) := MASK_STATUS (Z.ldiff s JOB_STAT_UNKWN) in
  if IS_FINISH oldStatus then st
  else if known (jStatus jData) =? known oldStatus then st
  else if IS_PEND (jStatus jData) && IS_PEND oldStatus then st
  else
    let num := numHostPtr jData in
    let numReq := maxNumProcessors jData in
    let old (s : Z) := has oldStatus s in
    let newStatus := known (jStatus jData) in
    if newStatus =? JOB_STAT_RUN then
      if old JOB_STAT_PEND || old JOB_STAT_PSUSP then
        update QUH st jData (mkCnt (- numReq + num) (- numReq) num 0 0 0) 1 1 0 0 0
      else if old JOB_STAT_SSUSP then update QUH st jData (mkCnt 0 0 num (- num) 0 0) 0 1 (-1) 0 0
      else if old JOB_STAT_USUSP then update QUH st jData (mkCnt 0 0 num 0 (- num) 0) 0 1 0 (-1) 0
      else st
    else if newStatus =? JOB_STAT_SSUSP then
      if old JOB_STAT_RUN then update QUH st jData (mkCnt 0 0 (- num) num 0 0) 0 (-1) 1 0 0
      else if old JOB_STAT_USUSP then update QUH st jData (mkCnt 0 0 0 num (- num) 0) 0 0 1 (-1) 0
      else if old JOB_STAT_PEND then update QUH st jData (mkCnt (- numReq + num) (- numReq) 0 num 0 0) 1 0 1 0 0
      else st
    else if newStatus =? JOB_STAT_USUSP then
      if old JOB_STAT_RUN then update QUH st jData (mkCnt 0 0 (- num) 0 num 0) 0 (-1) 0 1 0
      else if old JOB_STAT_SSUSP then update QUH st jData (mkCnt 0 0 0 (- num) num 0) 0 0 (-1) 1 0
      else if old JOB_STAT_PEND then update QUH st jData (mkCnt (- numReq + num) (- numReq) 0 0 num 0) 1 0 0 1 0
      else st
    else if (newStatus =? JOB_STAT_EXIT) || (newStatus =? JOB_STAT_DONE) then
      if old JOB_STAT_WAIT || old JOB_STAT_RUN then update QHU st jData (mkCnt (- num) 0 (- num) 0 0 0) (-1) (-1) 0 0 0
      else if old JOB_STAT_USUSP then update QHU st jData (mkCnt (- num) 0 0 0 (- num) 0) (-1) 0 0 (-1) 0
      else if old JOB_STAT_SSUSP then update QHU st jData (mkCnt (- num) 0 0 (- num) 0 0) (-1) 0 (-1) 0 0
      else if IS_PEND oldStatus then update0 st jData (mkCnt (- numReq) (- numReq) 0 0 0 0)
      else st
    else if newStatus =? JOB_STAT_PEND then
      if old JOB_STAT_RUN then update QHU st jData (mkCnt (numReq - num) numReq (- num) 0 0 0) (-1) (-1) 0 0 0
      else if old JOB_STAT_USUSP then update QHU st jData (mkCnt (- num + numReq) numReq 0 0 (- num) 0) (-1) 0 0 (-1) 0
      else if old JOB_STAT_SSUSP then update QHU st jData (mkCnt (- num + numReq) numReq 0 (- num) 0 0) (-1) 0 (-1) 0 0
      else st
    else st.

(** The lists of jobs with reservations ([proxyHRsvJLAddEntry] and the like) are
    left out. *)
Definition updResCounters (st : mbd) (jData : jData) (newStatus : Z) : mbd :=
  let s := jStatus jData in
  if negb (IS_PEND s) && negb (IS_START s) then st
  else
    let num := numHostPtr jData in
    let numReq := maxNumProcessors jData in
    let was := has s JOB_STAT_RESERVE in
    let will := has newStatus JOB_STAT_RESERVE in
    let masked := MASK_STATUS (Z.ldiff s JOB_STAT_UNKWN) in
    if masked =? JOB_STAT_SSUSP then
      if negb was && will && IS_START newStatus then update QUH st jData (mkCnt 0 0 0 (- num) 0 num) 0 0 (-1) 0 1
      else if was && negb will && (IS_START newStatus || has newStatus JOB_STAT_PEND) then
        update QUH st jData (mkCnt 0 0 0 num 0 (- num)) 0 0 1 0 (-1)
      else if was && IS_FINISH newStatus then update QUH st jData (mkCnt (- num) 0 0 0 0 (- num)) (-1) 0 0 0 (-1)
      else st
    else if masked =? JOB_STAT_USUSP then
      if negb was && will && IS_START newStatus then update QUH st jData (mkCnt 0 0 0 0 (- num) num) 0 0 0 (-1) 1
      else if was && negb will && IS_START newStatus then update QUH st jData (mkCnt 0 0 0 0 num (- num)) 0 0 0 1 (-1)
      else if was && IS_FINISH newStatus then update QUH st jData (mkCnt (- num) 0 0 0 0 (- num)) (-1) 0 0 0 (-1)
      else st
    else if (masked =? JOB_STAT_PEND) || (masked =? JOB_STAT_PSUSP) then
      if was && negb will && IS_PEND newStatus then update QHU st jData (mkCnt 0 num 0 0 0 (- num)) (-1) 0 0 0 (-1)
      else if negb was && will && IS_PEND newStatus then update QHU st jData (mkCnt 0 (- num) 0 0 0 num) 1 0 0 0 1
      else if IS_PEND s && was && IS_FINISH newStatus then
        update QHU st jData (mkCnt (- numReq) (- numReq + num) 0 0 0 (- num)) (-1) 0 0 0 (-1)
      else st
    else st.

(** The counters of a job without a reservation that moves from queue [qfp] to
    [qtp]: the [switch] of [updSwitchJob]. *)
Definition switch_counters (st : mbd) (jp : jData) (qfp qtp : cstr) (oldNumReq : Z) : mbd * jData :=
  let num := numHostPtr jp in
  let numReq := maxNumProcessors jp in
  let replay := mSchedStage st =? M_STAGE_REPLAY in
  let moved (from to : mbd -> jData -> mbd) :=
    let st := if replay then st else from st (set_qPtr jp qfp) in
    (if replay then st else to st (set_qPtr jp qtp), set_qPtr jp qtp) in
  let s := MASK_STATUS (jStatus jp) in
  let in_state (a : Z) := (s =? a) || (s =? Z.lor a JOB_STAT_UNKWN) in
  if (s =? JOB_STAT_PEND) || (s =? JOB_STAT_PSUSP) then
    moved (fun st jp => update0 st jp (mkCnt (- oldNumReq) (- oldNumReq) 0 0 0 0))
      (fun st jp => update0 st jp (mkCnt numReq numReq 0 0 0 0))
  else if in_state JOB_STAT_RUN then
    moved (fun st jp => update QHU st jp (mkCnt (- num) 0 (- num) 0 0 0) (-1) (-1) 0 0 0)
      (fun st jp => update QHU st jp (mkCnt num 0 num 0 0 0) 1 1 0 0 0)
  else if in_state JOB_STAT_SSUSP then
    moved (fun st jp => update QHU st jp (mkCnt (- num) 0 0 (- num) 0 0) (-1) 0 (-1) 0 0)
      (fun st jp => update QHU st jp (mkCnt num 0 0 num 0 0) 1 0 1 0 0)
  else if in_state JOB_STAT_USUSP then
    moved (fun st jp => update QHU st jp (mkCnt (- num) 0 0 0 (- num) 0) (-1) 0 0 (-1) 0)
      (fun st jp => update QHU st jp (mkCnt num 0 0 0 num 0) 1 0 0 1 0)
  else (st, jp).

(** [updSwitchJob]: the state and the job in its new queue. *)
Definition updSwitchJob (st : mbd) (jp : jData) (qfp qtp : cstr) (oldNumReq : Z) : mbd * jData :=
  if has (jStatus jp) JOB_STAT_RESERVE then
    let s := Z.ldiff (jStatus jp) JOB_STAT_RESERVE in
    let st := updResCounters st (set_qPtr jp qfp) s in
    let '(st, jp) := switch_counters st (set_jStatus (set_qPtr jp qtp) s) qfp qtp oldNumReq in
    let s := Z.lor (jStatus jp) JOB_STAT_RESERVE in
    (updResCounters st jp s, set_jStatus jp s)
  else switch_counters st jp qfp qtp oldNumReq.

(** ** Callers: what they do to the counters and to the state of the job *)

(** [deallocHosts] of mbd.policy.c. *)
Definition deallocHosts (st : mbd) (jp : jData) : mbd * jData :=
  (set_hosts (fold_left (fun m h => alter (fun hp => set_numDispJobs (wrap32 (numDispJobs hp - 1)) hp) h m)
                (hPtr jp) (hosts st)) st,
   set_hPtr jp []).

Definition freeReserveSlots (st : mbd) (jp : jData) : mbd * jData :=
  if negb (has (jStatus jp) JOB_STAT_RESERVE) then (st, jp)
  else
    let s := Z.ldiff (jStatus jp) JOB_STAT_RESERVE in
    deallocHosts (updResCounters st jp s) (set_jStatus jp s).

(** The counters in [reserveSlots]; the time of the reservation and [numUsable]
    belong to the scheduler. *)
Definition reserveSlots (st : mbd) (jp : jData) : mbd * jData :=
  if has (jStatus jp) JOB_STAT_RESERVE then (st, jp)
  else
    let s := Z.lor (jStatus jp) JOB_STAT_RESERVE in
    (updResCounters st jp s, set_jStatus jp s).

Definition resetReserve (st : mbd) (jp : jData) (newStatus : Z) : mbd * jData :=
  if negb (has (jStatus jp) JOB_STAT_RESERVE) then (st, jp)
  else
    let '(st, jp) :=
      if (has newStatus JOB_STAT_PSUSP || IS_FINISH newStatus) && has (jStatus jp) JOB_STAT_PEND then
        let '(st, jp) := freeReserveSlots st jp in
        (st, set_jStatus jp (Z.ldiff (jStatus jp) JOB_STAT_RESERVE))
      else (st, jp) in
    if IS_START (jStatus jp)
       && (has newStatus JOB_STAT_RUN || IS_FINISH newStatus || has newStatus JOB_STAT_USUSP || has newStatus JOB_STAT_PEND) then
      let s := Z.ldiff (jStatus jp) JOB_STAT_RESERVE in
      (updResCounters st jp s, set_jStatus jp s)
    else (st, jp).

(** [jStatusChange] outside the replay of the log, with [eventTime == LOG_IT]: the
    reservation, the state, the counters, and the hosts of a job that pends
    again.  The counters of job groups are in JGroup.v; run time, preemption, the
    lists of jobs and the event log are left out. *)
Definition jStatusChange (glMigToPendFlag : bool) (st : mbd) (jp : jData) (newStatus : Z) : mbd * jData :=
  let oldStatus := jStatus jp in
  if MASK_STATUS (Z.ldiff newStatus JOB_STAT_UNKWN) =? MASK_STATUS (Z.ldiff oldStatus JOB_STAT_UNKWN) then (st, jp)
  else
    let newStatus := MASK_STATUS newStatus in
    let '(st, jp) := if has (jStatus jp) JOB_STAT_RESERVE then resetReserve st jp newStatus else (st, jp) in
    let jp := set_jStatus jp (SET_STATE (jStatus jp) newStatus) in
    let '(jp, freeExec) :=
      if IS_START newStatus && IS_PEND oldStatus then (set_jStatus jp (Z.ldiff (jStatus jp) JOB_STAT_MIG), false)
      else if IS_FINISH newStatus then (set_jStatus jp (Z.ldiff (jStatus jp) JOB_STAT_MIG), false)
      else if has newStatus JOB_STAT_PEND && IS_START oldStatus then
        let s := if has (jStatus jp) JOB_STAT_MIG && glMigToPendFlag then Z.ldiff (jStatus jp) JOB_STAT_MIG else jStatus jp in
        (set_jStatus jp (Z.ldiff s JOB_STAT_PRE_EXEC), true)
      else (jp, false) in
    let st := updCounters st jp oldStatus in
    (st, if freeExec then set_hPtr jp [] else jp).

(** The counters in [handleNewJob]. *)
Definition handleNewJob (st : mbd) (jpbw : jData) : mbd :=
  let st := set_users (getUserData (userName jpbw) (users st)) st in
  if mSchedStage st =? M_STAGE_REPLAY then st
  else update0 st jpbw (mkCnt (maxNumProcessors jpbw) (maxNumProcessors jpbw) 0 0 0 0).

(** The state of the job and the counters in [handleRequeueJob]; [psusp] is
    [pendEvent.sig1Flags == JOB_STAT_PSUSP]. *)
Definition handleRequeueJob (st : mbd) (jp : jData) (psusp : bool) : mbd * jData :=
  let jp := set_hPtr (set_jStatus jp (if psusp then JOB_STAT_PSUSP else JOB_STAT_PEND)) [] in
  (if mSchedStage st =? M_STAGE_REPLAY then st
   else update0 st jp (mkCnt (maxNumProcessors jp) (maxNumProcessors jp) 0 0 0 0), jp).

(** The end of the replay in mbd.log.c: all jobs that are not finished are counted
    afresh, as pending jobs that change their state.  The lists of started jobs
    of users and hosts are left out. *)
Definition clean_exclusive (st : mbd) : mbd :=
  set_hosts ((fun hp => set_hStatus (Z.ldiff (hStatus hp) HOST_STAT_EXCLUSIVE) hp) <$> hosts st) st.

Definition recount_job (st : mbd) (jp : jData) : mbd :=
  let num := maxNumProcessors jp in
  let st := update0 st (set_jStatus jp JOB_STAT_PEND) (mkCnt num num 0 0 0 0) in
  if has (jStatus jp) JOB_STAT_PEND then st
  else
    let st := updCounters st jp JOB_STAT_PEND in
    if has (options jp) SUB_EXCLUSIVE && IS_START (jStatus jp)
    then set_hosts (fold_left (fun m h => alter (fun hp => set_hStatus (Z.lor (hStatus hp) HOST_STAT_EXCLUSIVE) hp) h m)
                      (hPtr jp) (hosts st)) st
    else st.

Definition recount (st : mbd) (js : list jData) : mbd := fold_left recount_job js (clean_exclusive st).
End Counters.
