(* ===== verification/Ledger.v ===== *)
(** * Ledgers: tables of counters as sums over jobs

    The counters of Counters.v are exact when each is the sum of what the jobs
    contribute to it.  This file has the arithmetic of counters, sums over a map
    of entries, and what the updates of one table do to such a sum.  An entry is
    the place of a job (its queue, user and hosts) with its contributions. *)
From stdpp Require Import base gmap list.
From Stdlib Require Import ZArith Ascii Lia.
From Corelib Require Import SpecFloat.
From S2P Require Import Prelude CNum Counters.
Local Open Scope Z_scope.

(** ** Vectors of counters *)

Definition cadd (a b : counters) : counters :=
  mkCnt (numJobs a + numJobs b) (numPEND a + numPEND b) (numRUN a + numRUN b) (numSSUSP a + numSSUSP b)
    (numUSUSP a + numUSUSP b) (numRESERVE a + numRESERVE b).
Definition cscale (n : Z) (a : counters) : counters :=
  mkCnt (n * numJobs a) (n * numPEND a) (n * numRUN a) (n * numSSUSP a) (n * numUSUSP a) (n * numRESERVE a).
Definition all_counters (P : Z -> Prop) (a : counters) : Prop :=
  P (numJobs a) /\ P (numPEND a) /\ P (numRUN a) /\ P (numSSUSP a) /\ P (numUSUSP a) /\ P (numRESERVE a).

(** A counter in its range. *)
Definition nat32 (z : Z) : Prop := 0 <= z < 2 ^ 31.

(** The parts that accounts of users and of hosts have. *)
Definition no_jobs (a : counters) : counters := mkCnt 0 (numPEND a) (numRUN a) (numSSUSP a) (numUSUSP a) (numRESERVE a).
Definition started (a : counters) : counters := mkCnt 0 0 (numRUN a) (numSSUSP a) (numUSUSP a) (numRESERVE a).
Definition signs (a : counters) : counters :=
  mkCnt 0 0 (Z.sgn (numRUN a)) (Z.sgn (numSSUSP a)) (Z.sgn (numUSUSP a)) (Z.sgn (numRESERVE a)).

Ltac cnt_fields :=
  repeat match goal with
  | c : counters |- _ => destruct c
  end; cbn [numJobs numPEND numRUN numSSUSP numUSUSP numRESERVE] in *.
Ltac cnt_eq := cnt_fields; unfold cadd, cscale, no_jobs, started, signs, czero; cbn; f_equal; try lia.

Lemma cadd_0_l a : cadd czero a = a.
Proof. cnt_eq. Qed.
Lemma cadd_0_r a : cadd a czero = a.
Proof. cnt_eq. Qed.
Lemma cadd_comm a b : cadd a b = cadd b a.
Proof. cnt_eq. Qed.
Lemma cadd_assoc a b c : cadd a (cadd b c) = cadd (cadd a b) c.
Proof. cnt_eq. Qed.
Lemma cscale_0_l a : cscale 0 a = czero.
Proof. cnt_eq. Qed.
Lemma cscale_0_r n : cscale n czero = czero.
Proof. cnt_eq. Qed.
Lemma cscale_1 a : cscale 1 a = a.
Proof. cnt_eq. Qed.
Lemma cscale_cadd n a b : cscale n (cadd a b) = cadd (cscale n a) (cscale n b).
Proof. cnt_eq. Qed.
Lemma cscale_add m n a : cscale (m + n) a = cadd (cscale m a) (cscale n a).
Proof. cnt_eq. Qed.
Lemma cscale_mul m n a : cscale m (cscale n a) = cscale (m * n) a.
Proof. cnt_eq. Qed.

Lemma no_jobs_cadd a b : no_jobs (cadd a b) = cadd (no_jobs a) (no_jobs b).
Proof. cnt_eq. Qed.
Lemma started_cadd a b : started (cadd a b) = cadd (started a) (started b).
Proof. cnt_eq. Qed.

Create Rewrite HintDb counters.
#[export] Hint Rewrite cadd_0_l cadd_0_r cscale_0_l cscale_0_r cscale_1 : counters.

(** What lies between two values in range is in range. *)
Lemma between a m n d : 0 <= m <= n -> nat32 a -> nat32 (a + n * d) -> nat32 (a + m * d).
Proof. unfold nat32. intros. destruct (Z.le_gt_cases 0 d); nia. Qed.

Lemma cbetween a m n d : 0 <= m <= n -> all_counters nat32 a -> all_counters nat32 (cadd a (cscale n d)) ->
  all_counters nat32 (cadd a (cscale m d)).
Proof.
  cnt_fields. unfold all_counters; cbn. intros Hn (?&?&?&?&?&?) (?&?&?&?&?&?).
  split_and!; eapply between; eauto.
Qed.

Lemma nat32_int32 z : nat32 z -> int32 z.
Proof. unfold nat32, int32. lia. Qed.

Lemma addValue_exact a b : nat32 (a + b) -> addValue a b = a + b.
Proof.
  intros H. unfold addValue. rewrite wrap32_id by (by apply nat32_int32). unfold nat32 in H.
  by rewrite (proj2 (Z.leb_le _ _)) by lia.
Qed.

Lemma addValues_exact a b : all_counters nat32 (cadd a b) -> addValues a b = cadd a b.
Proof. intros (?&?&?&?&?&?). unfold addValues, cadd in *; cbn in *. by rewrite !addValue_exact. Qed.

Lemma addOneAbs_exact a b : nat32 (a + Z.sgn b) -> addOneAbs a b false = a + Z.sgn b.
Proof.
  intros H. unfold addOneAbs. destruct (Z.ltb_spec 0 b).
  - rewrite Z.sgn_pos in * by lia. by rewrite wrap32_id by (by apply nat32_int32).
  - destruct (Z.ltb_spec b 0).
    + rewrite Z.sgn_neg in * by lia. change (a - 1) with (a + -1). by rewrite wrap32_id by (by apply nat32_int32).
    + replace b with 0 by lia. cbn. lia.
Qed.

Lemma addOnes_exact a b : all_counters nat32 (cadd a (signs b)) -> addOnes a b = cadd a (signs b).
Proof.
  intros (?&?&?&?&?&?). unfold addOnes, cadd, signs in *; cbn in *.
  rewrite !addOneAbs_exact by done. f_equal; lia.
Qed.

(** ** Flags *)

Lemma has_lor x a m : Z.land a m = 0 -> has (Z.lor x a) m = has x m.
Proof. intros H. unfold has. by rewrite Z.land_lor_distr_l, H, Z.lor_0_r. Qed.

Lemma land_ldiff x a m : Z.land a m = 0 -> Z.land (Z.ldiff x a) m = Z.land x m.
Proof.
  intros H. apply Z.bits_inj'. intros n Hn.
  rewrite !Z.land_spec, Z.ldiff_spec. assert (B : Z.testbit (Z.land a m) n = false) by (rewrite H; apply Z.testbit_0_l).
  rewrite Z.land_spec in B. destruct (Z.testbit x n), (Z.testbit a n), (Z.testbit m n); done.
Qed.

Lemma has_ldiff x a m : Z.land a m = 0 -> has (Z.ldiff x a) m = has x m.
Proof. intros H. unfold has. by rewrite land_ldiff. Qed.

Lemma land_ldiff_all x a m : Z.land m a = m -> Z.land (Z.ldiff x a) m = 0.
Proof.
  intros H. apply Z.bits_inj'. intros n Hn. rewrite Z.land_spec, Z.ldiff_spec, Z.testbit_0_l.
  rewrite <- H, Z.land_spec. by destruct (Z.testbit x n), (Z.testbit a n), (Z.testbit m n).
Qed.

(** ** Sums over maps *)

Section Sum.
Context {A : Type}.
Implicit Types (f g : A -> counters) (m : gmap Z A).

Definition csum f m : counters := map_fold (fun _ e acc => cadd (f e) acc) czero m.

Lemma csum_empty f : csum f ∅ = czero.
Proof. apply map_fold_empty. Qed.

Lemma csum_insert f m k e : m !! k = None -> csum f (<[k := e]> m) = cadd (f e) (csum f m).
Proof.
  intros H. unfold csum. apply (map_fold_insert_L (fun _ e acc => cadd (f e) acc)); [|done].
  intros. by rewrite !cadd_assoc, (cadd_comm (f _)).
Qed.

Lemma csum_delete f m k e : m !! k = Some e -> csum f m = cadd (f e) (csum f (delete k m)).
Proof. intros H. rewrite <- (insert_delete_id m k e H) at 1. apply csum_insert. by rewrite lookup_delete_eq. Qed.

Lemma csum_replace f m k e e' d : m !! k = Some e -> f e' = cadd (f e) d -> csum f (<[k := e']> m) = cadd (csum f m) d.
Proof.
  intros H E. rewrite <- insert_delete_eq, csum_insert by (by rewrite lookup_delete_eq).
  rewrite (csum_delete f m k e H), E. cnt_eq.
Qed.

Lemma csum_keep f m k e e' : m !! k = Some e -> f e' = f e -> csum f (<[k := e']> m) = csum f m.
Proof. intros H E. rewrite (csum_replace f m k e e' czero H); by autorewrite with counters. Qed.

Lemma csum_zero f m : (forall k e, m !! k = Some e -> f e = czero) -> csum f m = czero.
Proof.
  induction m as [|k e m Hk IH] using map_ind; intros H; [apply csum_empty|].
  rewrite csum_insert by done. rewrite (H k e), IH; [cnt_eq| |by rewrite lookup_insert_eq].
  intros k' e' E. apply (H k' e'). rewrite lookup_insert_ne; [done|congruence].
Qed.

(** A sum of small contributions is small. *)
Definition zsum (b : A -> Z) m : Z := map_fold (fun _ e acc => b e + acc) 0 m.

Lemma zsum_insert (b : A -> Z) m k e : m !! k = None -> zsum b (<[k := e]> m) = b e + zsum b m.
Proof.
  intros H. unfold zsum. apply (map_fold_insert_L (fun _ e acc => b e + acc)); [|done]. intros. lia.
Qed.

Lemma csum_range f (b : A -> Z) m : (forall k e, m !! k = Some e -> all_counters (fun z => 0 <= z <= b e) (f e)) ->
  all_counters (fun z => 0 <= z <= zsum b m) (csum f m).
Proof.
  induction m as [|k e m Hk IH] using map_ind; intros H.
  - rewrite csum_empty. unfold zsum. rewrite map_fold_empty. unfold all_counters. cbn. lia.
  - rewrite csum_insert, zsum_insert by done.
    destruct (H k e) as (?&?&?&?&?&?); [by rewrite lookup_insert_eq|].
    destruct IH as (?&?&?&?&?&?); [|unfold all_counters, cadd; cbn in *; lia].
    intros k' e' E. apply (H k' e'). rewrite lookup_insert_ne; [done|congruence].
Qed.
End Sum.

Lemma zsum_replace {A} (b : A -> Z) (m : gmap Z A) k e e' : m !! k = Some e -> zsum b (<[k := e']> m) = zsum b m - b e + b e'.
Proof.
  intros H. rewrite <- insert_delete_eq, zsum_insert by (by rewrite lookup_delete_eq).
  rewrite <- (insert_delete_id m k e H) at 2. rewrite zsum_insert by (by rewrite lookup_delete_eq). lia.
Qed.

(** ** How often a name occurs *)

Definition occ (x : cstr) (l : list cstr) : Z := Z.of_nat (length (List.filter (fun y => bool_decide (y = x)) l)).

Lemma occ_nil x : occ x [] = 0.
Proof. done. Qed.
Lemma occ_cons x y l : occ x (y :: l) = (if decide (y = x) then 1 else 0) + occ x l.
Proof. unfold occ. cbn. case_decide; [rewrite bool_decide_true by done; cbn; lia|by rewrite bool_decide_false]. Qed.
Lemma occ_nonneg x l : 0 <= occ x l.
Proof. unfold occ. lia. Qed.
Lemma occ_length x l : occ x l <= Z.of_nat (length l).
Proof. unfold occ. pose proof (List.filter_length_le (fun y => bool_decide (y = x)) l). lia. Qed.
Lemma occ_one x y : occ x [y] = if decide (y = x) then 1 else 0.
Proof. rewrite occ_cons, occ_nil. by case_decide. Qed.
Lemma occ_0 x l : x ∉ l -> occ x l = 0.
Proof. induction l as [|y l IH]; [done|]. intros H. rewrite occ_cons, IH by set_solver. case_decide; set_solver. Qed.

(** ** Loops that add to one counter for every occurrence of its name *)

Section Loop.
Context {R : Type} (I : R -> Prop) (val : R -> counters) (step : cstr -> R -> R) (x : cstr) (loc : bool) (d : counters).
Hypothesis step_inv : forall k r, I r -> I (step k r).
Hypothesis step_here : forall r, I r -> loc = true -> all_counters nat32 (val r) -> all_counters nat32 (cadd (val r) d) -> val (step x r) = cadd (val r) d.
Hypothesis step_other : forall k r, I r -> k <> x \/ loc = false -> val (step k r) = val r.

Definition times (ks : list cstr) : Z := if loc then occ x ks else 0.

Lemma times_cons k ks : times (k :: ks) = (if loc then if decide (k = x) then 1 else 0 else 0) + times ks.
Proof. unfold times. destruct loc; [apply occ_cons|done]. Qed.

Lemma times_nonneg ks : 0 <= times ks.
Proof. unfold times. destruct loc; [apply occ_nonneg|done]. Qed.

Lemma bump_loop ks r : I r -> all_counters nat32 (val r) -> all_counters nat32 (cadd (val r) (cscale (times ks) d)) ->
  I (fold_left (fun r k => step k r) ks r)
  /\ val (fold_left (fun r k => step k r) ks r) = cadd (val r) (cscale (times ks) d).
Proof.
  revert r; induction ks as [|k ks IH]; intros r Hi Hr Hn.
  - cbn. split; [done|]. unfold times. destruct loc; [rewrite occ_nil|]; by autorewrite with counters.
  - rewrite times_cons in Hn |- *. cbn [fold_left].
    assert (K : k = x /\ loc = true \/ (k <> x \/ loc = false)) by (destruct loc, (decide (k = x)); auto).
    destruct K as [[-> L]|K].
    + rewrite L, decide_True in Hn |- * by done.
      pose proof (times_nonneg ks).
      assert (H1 : all_counters nat32 (cadd (val r) d)).
      { rewrite <- (cscale_1 d). by apply (cbetween _ 1 (1 + times ks)); [lia|..]. }
      rewrite cscale_add, cscale_1, cadd_assoc in Hn |- *.
      specialize (IH (step x r) (step_inv _ _ Hi)). rewrite step_here in IH by done. by apply IH.
    + replace (if loc then if decide (k = x) then 1 else 0 else 0) with 0 in *
        by (destruct loc, (decide (k = x)); destruct K; congruence).
      rewrite Z.add_0_l in *. specialize (IH (step k r) (step_inv _ _ Hi)). rewrite step_other in IH by done. by apply IH.
Qed.
End Loop.

(** ** Accounts *)

Definition uacct (t : gmap cstr userAcct) (u : cstr) : counters := default czero (ua_cnt <$> t !! u).
Definition hacct (t : gmap cstr counters) (h : cstr) : counters := default czero (t !! h).

Lemma uacct_insert t u a u' : uacct (<[u := a]> t) u' = if decide (u = u') then ua_cnt a else uacct t u'.
Proof. unfold uacct. case_decide; [subst; by rewrite lookup_insert_eq|by rewrite lookup_insert_ne]. Qed.
Lemma hacct_insert t h a h' : hacct (<[h := a]> t) h' = if decide (h = h') then a else hacct t h'.
Proof. unfold hacct. case_decide; [subst; by rewrite lookup_insert_eq|by rewrite lookup_insert_ne]. Qed.

Lemma newJob_zero d : newJob d = true -> started d = czero.
Proof.
  unfold newJob. intros H. rewrite !andb_true_iff, !Z.eqb_eq in H. destruct H as [[[]]]. cnt_eq.
Qed.

(** [updUAcct] adds to the account of the user and to no other. *)
Lemma updUAcct_spec j u t d : numJobs d = 0 -> all_counters nat32 (cadd (uacct t u) d) ->
  let r := updUAcct j u t d in
  uacct (snd r) u = cadd (uacct t u) d
  /\ (forall u', u' <> u -> uacct (snd r) u' = uacct t u')
  /\ match fst r with Some a => ua_cnt a = uacct (snd r) u | None => snd r = t end.
Proof.
  intros J. unfold updUAcct. destruct (t !! u) as [a|] eqn:E; cbn.
  - assert (U : uacct t u = ua_cnt a) by (unfold uacct; by rewrite E). rewrite U. intros H.
    rewrite uacct_insert, decide_True by done. cbn. rewrite addValues_exact by done.
    split_and!; [done| |done]. intros u' N. by rewrite uacct_insert, decide_False.
  - assert (U : uacct t u = czero) by (unfold uacct; by rewrite E). rewrite U. intros H.
    destruct (newJob d && (numPEND d =? 0)) eqn:N; cbn.
    + apply andb_true_iff in N as [N P]. apply Z.eqb_eq in P. apply newJob_zero in N.
      split_and!; [|done|done]. rewrite U. unfold started, czero in N. injection N as ????. unfold cadd, czero. cbn. f_equal; lia.
    + rewrite uacct_insert, decide_True by done. cbn. rewrite cadd_0_l.
      split_and!; [done| |done]. intros u' N'. by rewrite uacct_insert, decide_False.
Qed.

(** The same for the accounts of hosts, which count by one. *)
Lemma updHAcct_entry_spec h t d : all_counters nat32 (cadd (hacct t h) (signs d)) ->
  let r := updHAcct_entry h t d in
  hacct (snd r) h = cadd (hacct t h) (signs d) /\ (forall h', h' <> h -> hacct (snd r) h' = hacct t h').
Proof.
  unfold updHAcct_entry. destruct (t !! h) as [a|] eqn:E; cbn.
  - assert (U : hacct t h = a) by (unfold hacct; by rewrite E). rewrite U. intros H.
    rewrite hacct_insert, decide_True, addOnes_exact by done.
    split; [done|]. intros h' N. by rewrite hacct_insert, decide_False.
  - assert (U : hacct t h = czero) by (unfold hacct; by rewrite E). rewrite U. intros H.
    destruct ((0 <? numRUN d) || (0 <? numSSUSP d) || (0 <? numUSUSP d) || (0 <? numRESERVE d)) eqn:N; cbn.
    + rewrite hacct_insert, decide_True, addOnes_exact by done.
      split; [done|]. intros h' N'. by rewrite hacct_insert, decide_False.
    + rewrite U. split; [|done]. rewrite !orb_false_iff, !Z.ltb_ge in N. destruct N as [[[]]].
      unfold all_counters, nat32, signs, cadd, czero in *. cbn in *.
      f_equal; lia.
Qed.
