(* ===== verification/CounterInv.v ===== *)
(** * The counters as a ledger of jobs

    An entry is the place of a job (its queue, user and hosts) with its
    contributions: slots for queues and users, units for each of its hosts.  The
    tables are exact when every counter is the sum of the contributions of the
    entries that are charged to it.  [updQaccount], [updUserData] and
    [updHostData] each keep their tables exact when an entry changes. *)
From stdpp Require Import base gmap list.
From Stdlib Require Import ZArith Ascii Lia.
From Corelib Require Import SpecFloat.
From S2P Require Import Prelude CNum Counters Ledger.
Local Open Scope Z_scope.

Record entry := mkE { e_q : cstr; e_u : cstr; e_h : list cstr; e_v : counters; e_hv : counters; e_size : Z }.
Abbreviation entries := (gmap Z entry).

Definition one (b : bool) : Z := if b then 1 else 0.

Lemma one_range b : 0 <= one b <= 1.
Proof. by destruct b. Qed.

(** ** The configuration: who is charged for the jobs of a user, and which hosts
    are counted *)

Section Ledger.
Variable anc : cstr -> list cstr.
Variable groups : list gData.
Variable local : cstr -> bool.
Variable getQUsable : mbd -> qData -> qUsable.

Definition payers (u : cstr) : list cstr := u :: map group (List.filter (gMember u) groups).

(** How often a host is counted in a list. *)
Definition hocc (h : cstr) (hs : list cstr) : Z := if local h then occ h hs else 0.

(** The weights with which an entry is charged. *)
Definition wq (q : cstr) (e : entry) : Z := one (bool_decide (e_q e = q)).
Definition wqu (q u : cstr) (e : entry) : Z := wq q e * occ u (e_u e :: anc (e_u e)).
Definition wqh (q h : cstr) (e : entry) : Z := wq q e * hocc h (e_h e).
Definition wu (u : cstr) (e : entry) : Z := occ u (payers (e_u e)).
Definition wuh (u h : cstr) (e : entry) : Z := wu u e * hocc h (e_h e).
Definition wh (h : cstr) (e : entry) : Z := hocc h (e_h e).
Definition whu (h u : cstr) (e : entry) : Z := one (bool_decide (e_u e = u)) * hocc h (e_h e).

Definition charge (w : entry -> Z) (v : entry -> counters) (E : entries) : counters := csum (fun e => cscale (w e) (v e)) E.

(** *** Exact tables *)

Definition queue_exact (E : entries) (q : cstr) (qp : qData) : Prop :=
  q_cnt qp = charge (wq q) e_v E
  /\ (forall u, uacct (q_uAcct qp) u = charge (wqu q u) (no_jobs ∘ e_v) E)
  /\ (forall h, hacct (q_hAcct qp) h = charge (wqh q h) (started ∘ e_hv) E).
Definition user_exact (E : entries) (u : cstr) (up : uData) : Prop :=
  u_cnt up = charge (wu u) e_v E
  /\ (SFltb (u_pJobLimit up) INFINIT_FLOAT = true -> forall h, hacct (u_hAcct up) h = charge (wuh u h) (started ∘ e_hv) E).
Definition host_exact (E : entries) (h : cstr) (hp : hData) : Prop :=
  h_cnt hp = charge (wh h) e_hv E
  /\ (h_uJobLimit hp < INFINIT_INT -> forall u, uacct (h_uAcct hp) u = charge (whu h u) (started ∘ e_hv) E).

Definition queues_exact (E : entries) st : Prop := map_Forall (queue_exact E) (queues st).
Definition users_exact (E : entries) st : Prop := map_Forall (user_exact E) (users st).
Definition hosts_exact (E : entries) st : Prop := map_Forall (host_exact E) (hosts st).

(** *** Entries in range *)

Definition share (e : entry) : Z := (Z.of_nat (length (payers (e_u e))) + Z.of_nat (length (anc (e_u e))) + 1) * e_size e.
Definition entry_ok (e : entry) : Prop :=
  all_counters (fun z => 0 <= z <= e_size e) (e_v e) /\ all_counters (fun z => 0 <= z <= 1) (e_hv e)
  /\ Z.of_nat (length (e_h e)) <= e_size e /\ numPEND (e_hv e) = 0.
Definition entries_ok (E : entries) : Prop := map_Forall (fun _ => entry_ok) E /\ zsum share E < 2 ^ 31.

Lemma entries_ok_replace E k e e' : E !! k = Some e -> entries_ok E -> entry_ok e' -> share e' <= share e ->
  entries_ok (<[k := e']> E).
Proof.
  intros Ek [Ok S] Oe Se. split; [by apply map_Forall_insert_2|]. rewrite (zsum_replace share E k e e' Ek). lia.
Qed.

Lemma hocc_range h hs : 0 <= hocc h hs <= Z.of_nat (length hs).
Proof. unfold hocc. destruct (local h); [split; [apply occ_nonneg|apply occ_length]|lia]. Qed.

(** A sum of charges is in range when each charge is. *)
Lemma charge_range w v E :
  entries_ok E -> (forall e, entry_ok e -> all_counters (fun z => 0 <= z <= share e) (cscale (w e) (v e))) ->
  all_counters nat32 (charge w v E).
Proof.
  intros [Ok S] H.
  destruct (csum_range (fun e => cscale (w e) (v e)) share E) as (?&?&?&?&?&?).
  - intros k e Hk. apply H. by apply (Ok k).
  - unfold all_counters, charge, nat32. lia.
Qed.

(** The bound of a slot counter and of a unit counter. *)
Lemma scaled_range n b v c : 0 <= n <= b -> 0 <= c -> all_counters (fun z => 0 <= z <= c) v ->
  all_counters (fun z => 0 <= z <= b * c) (cscale n v).
Proof. clear. intros Hn Hc (?&?&?&?&?&?). unfold all_counters, cscale; cbn. split_and!; nia. Qed.

Lemma size_nonneg e : entry_ok e -> 0 <= e_size e.
Proof. intros (_ & _ & L & _). lia. Qed.

Lemma no_jobs_range e : entry_ok e -> all_counters (fun z => 0 <= z <= e_size e) (no_jobs (e_v e)).
Proof. intros Ok. pose proof (size_nonneg e Ok). destruct Ok as [(?&?&?&?&?&?) _]. unfold all_counters, no_jobs; cbn. lia. Qed.
Lemma started_range e : entry_ok e -> all_counters (fun z => 0 <= z <= 1) (started (e_hv e)).
Proof. intros (_ & (?&?&?&?&?&?) & _). unfold all_counters, started; cbn. lia. Qed.

Lemma slot_range w v e : entry_ok e -> 0 <= w <= Z.of_nat (length (payers (e_u e))) + Z.of_nat (length (anc (e_u e))) + 1 ->
  all_counters (fun z => 0 <= z <= e_size e) v -> all_counters (fun z => 0 <= z <= share e) (cscale w v).
Proof. intros Ok Hw Hv. apply scaled_range; [done|by apply size_nonneg|done]. Qed.

Lemma unit_range w n v e : entry_ok e -> 0 <= w <= Z.of_nat (length (payers (e_u e))) + Z.of_nat (length (anc (e_u e))) + 1 ->
  0 <= n <= Z.of_nat (length (e_h e)) -> all_counters (fun z => 0 <= z <= 1) v ->
  all_counters (fun z => 0 <= z <= share e) (cscale (w * n) v).
Proof.
  intros Ok Hw Hn (?&?&?&?&?&?). destruct Ok as (_ & _ & L & _).
  assert (0 <= w * n <= share e) by (unfold share; split; nia).
  unfold all_counters, cscale; cbn. split_and!; nia.
Qed.

Lemma wq_range q e : 0 <= wq q e <= 1.
Proof. apply one_range. Qed.
Lemma wqu_range q u e : 0 <= wqu q u e <= Z.of_nat (length (payers (e_u e))) + Z.of_nat (length (anc (e_u e))) + 1.
Proof.
  unfold wqu. pose proof (wq_range q e). pose proof (occ_nonneg u (e_u e :: anc (e_u e))).
  pose proof (occ_length u (e_u e :: anc (e_u e))) as L. cbn [length] in L. nia.
Qed.
Lemma wu_range u e : 0 <= wu u e <= Z.of_nat (length (payers (e_u e))) + Z.of_nat (length (anc (e_u e))) + 1.
Proof. unfold wu. pose proof (occ_nonneg u (payers (e_u e))). pose proof (occ_length u (payers (e_u e))). lia. Qed.

Lemma ranges E : entries_ok E ->
  (forall q, all_counters nat32 (charge (wq q) e_v E))
  /\ (forall q u, all_counters nat32 (charge (wqu q u) (no_jobs ∘ e_v) E))
  /\ (forall q h, all_counters nat32 (charge (wqh q h) (started ∘ e_hv) E))
  /\ (forall u, all_counters nat32 (charge (wu u) e_v E))
  /\ (forall u h, all_counters nat32 (charge (wuh u h) (started ∘ e_hv) E))
  /\ (forall h, all_counters nat32 (charge (wh h) e_hv E))
  /\ (forall h u, all_counters nat32 (charge (whu h u) (started ∘ e_hv) E)).
Proof.
  intros Ok. split_and!; intros; apply charge_range; try done; intros e He; cbn.
  - apply slot_range; [done| |apply He]. pose proof (wq_range q e). lia.
  - apply slot_range; [done|apply wqu_range|by apply no_jobs_range].
  - apply unit_range; [done| |apply hocc_range|by apply started_range]. pose proof (wq_range q e). lia.
  - apply slot_range; [done|apply wu_range|apply He].
  - apply unit_range; [done|apply wu_range|apply hocc_range|by apply started_range].
  - unfold wh. replace (hocc h (e_h e)) with (1 * hocc h (e_h e)) by lia.
    apply unit_range; [done|lia|apply hocc_range|apply He].
  - apply unit_range; [done| |apply hocc_range|by apply started_range].
    pose proof (one_range (bool_decide (e_u e = u))). lia.
Qed.

(** ** One entry changes *)

(** The entry of a job whose slots change by [d] and whose units by [hd]. *)
Definition moved (e : entry) (d hd : counters) : entry :=
  mkE (e_q e) (e_u e) (e_h e) (cadd (e_v e) d) (cadd (e_hv e) hd) (e_size e).

Lemma charge_moved (w : entry -> Z) (v : entry -> counters) E k e e' dv :
  E !! k = Some e -> w e' = w e -> v e' = cadd (v e) dv ->
  charge w v (<[k := e']> E) = cadd (charge w v E) (cscale (w e) dv).
Proof. intros H W V. unfold charge. apply (csum_replace _ E k e); [done|]. by rewrite W, V, cscale_cadd. Qed.

(** The daemon agrees with the configuration. *)
Record conf (st : mbd) : Prop := {
  c_local : forall h, local h = match hosts st !! h with Some hp => negb (has (hStatus hp) HOST_STAT_REMOTE) | None => false end;
  c_anc : forall u, user_ancestors st u = anc u;
  c_groups : usergroups st = groups;
  c_exist : forall g, g ∈ groups -> is_Some (users st !! group g);
  c_init : forall u up, users st !! u = Some up -> has (u_flags up) USER_INIT = true -> u :: gPtr up = payers u }.

Section OneJob.
Variables (E : entries) (k : Z) (e : entry) (d hd : counters) (j : jData).
Hypotheses (Ek : E !! k = Some e) (Ok : entries_ok E) (Ok' : entries_ok (<[k := moved e d hd]> E)).
Hypotheses (Jq : qPtr j = e_q e) (Ju : uPtr j = e_u e) (Jh : hPtr j = e_h e).
Hypothesis Sg : e_h e = [] \/ signs d = started hd.
Local Abbreviation E' := (<[k := moved e d hd]> E).

Lemma charge_v w : (forall e d hd, w (moved e d hd) = w e) -> charge w e_v E' = cadd (charge w e_v E) (cscale (w e) d).
Proof. intros H. by apply charge_moved. Qed.
Lemma charge_nj w : (forall e d hd, w (moved e d hd) = w e) ->
  charge w (no_jobs ∘ e_v) E' = cadd (charge w (no_jobs ∘ e_v) E) (cscale (w e) (no_jobs d)).
Proof. intros H. apply charge_moved; [done..|]. apply no_jobs_cadd. Qed.
Lemma charge_hv w : (forall e d hd, w (moved e d hd) = w e) -> charge w e_hv E' = cadd (charge w e_hv E) (cscale (w e) hd).
Proof. intros H. by apply charge_moved. Qed.
Lemma charge_st w : (forall e d hd, w (moved e d hd) = w e) ->
  charge w (started ∘ e_hv) E' = cadd (charge w (started ∘ e_hv) E) (cscale (w e) (started hd)).
Proof. intros H. apply charge_moved; [done..|]. apply started_cadd. Qed.

(** *** Queues *)

Lemma updUAcct_q_spec u c qp : numJobs c = 0 ->
  let qp' := updUAcct_q j u c qp in
  (all_counters nat32 (cadd (uacct (q_uAcct qp) u) c) -> uacct (q_uAcct qp') u = cadd (uacct (q_uAcct qp) u) c)
  /\ (forall u', u' <> u -> uacct (q_uAcct qp') u' = uacct (q_uAcct qp) u')
  /\ q_cnt qp' = q_cnt qp /\ q_hAcct qp' = q_hAcct qp.
Proof.
  intros J. unfold updUAcct_q. destruct (updUAcct j u (q_uAcct qp) c) as [o t] eqn:F.
  assert (N : forall u', u' <> u -> uacct t u' = uacct (q_uAcct qp) u').
  { revert F. unfold updUAcct. intros F u' N. repeat case_match; simplify_eq; try done; by rewrite uacct_insert, decide_False. }
  split_and!; [|destruct o; cbn; [|intros; by rewrite <- N]|by destruct o..].
  - intros H. pose proof (updUAcct_spec j u (q_uAcct qp) c J H) as (A & B & C). rewrite F in A, C; cbn in A, C.
    destruct o as [a|]; cbn; [rewrite uacct_insert, decide_True by done; cbn; congruence|congruence].
  - intros u' H. rewrite uacct_insert, decide_False by done. by apply N.
Qed.

Lemma updHAcct_q_host_fields stage h hp c qp :
  let qp' := updHAcct_q_host stage h hp c qp in
  q_cnt qp' = q_cnt qp /\ q_uAcct qp' = q_uAcct qp /\ q_hAcct qp' = snd (updHAcct_entry h (q_hAcct qp) c).
Proof.
  unfold updHAcct_q_host. destruct (updHAcct_entry h (q_hAcct qp) c) as [o t]. cbn [snd].
  unfold CHECKQUSABLE. repeat case_match; simplify_eq; done.
Qed.

Lemma updHAcct_q_loop_fold st c hs qp : updHAcct_q_loop st hs c qp
  = fold_left (fun qp h => match hosts st !! h with
                           | Some hp => if has (hStatus hp) HOST_STAT_REMOTE then qp else updHAcct_q_host (mSchedStage st) h hp c qp
                           | None => qp end) hs qp.
Proof. revert qp; induction hs as [|h hs IH]; intros qp; cbn; [done|apply IH]. Qed.

Lemma updHAcct_entry_other h t c h' : h' <> h -> hacct (snd (updHAcct_entry h t c)) h' = hacct t h'.
Proof. unfold updHAcct_entry. intros N. repeat case_match; cbn; try done; by rewrite hacct_insert, decide_False. Qed.

Lemma updHAcct_q_spec st c qp h : conf st -> all_counters nat32 (hacct (q_hAcct qp) h) ->
  all_counters nat32 (cadd (hacct (q_hAcct qp) h) (cscale (hocc h (hPtr j)) (signs c))) ->
  let qp' := updHAcct_q getQUsable st j c qp in
  q_cnt qp' = q_cnt qp /\ q_uAcct qp' = q_uAcct qp
  /\ hacct (q_hAcct qp') h = cadd (hacct (q_hAcct qp) h) (cscale (hocc h (hPtr j)) (signs c)).
Proof.
  intros C R R'. unfold updHAcct_q. destruct (hPtr j) as [|h0 hs] eqn:Eh.
  { split_and!; try done. unfold hocc. rewrite occ_nil. destruct (local h); by autorewrite with counters. }
  rewrite <- Eh in *. rewrite updHAcct_q_loop_fold.
  set (step := fun h qp => match hosts st !! h with
     | Some hp => if has (hStatus hp) HOST_STAT_REMOTE then qp else updHAcct_q_host (mSchedStage st) h hp c qp
     | None => qp end).
  change (fold_left _ (hPtr j) _) with (fold_left (fun r k => step k r) (hPtr j) (set_q_flags (Z.ldiff (q_flags qp) QUEUE_UPDATE_USABLE) qp)).
  destruct (bump_loop (fun r => q_cnt r = q_cnt qp /\ q_uAcct r = q_uAcct qp) (fun r => hacct (q_hAcct r) h) step h (local h) (signs c))
    with (ks := hPtr j) (r := set_q_flags (Z.ldiff (q_flags qp) QUEUE_UPDATE_USABLE) qp) as [[I1 I2] V]; try done.
  - intros k' r [H1 H2]. unfold step. destruct (hosts st !! k') as [hp|]; [|done].
    destruct (has _ _); [done|]. destruct (updHAcct_q_host_fields (mSchedStage st) k' hp c r) as (-> & -> & _). done.
  - intros r _ L _ Hr. unfold step. rewrite (c_local st C) in L. destruct (hosts st !! h) as [hp|]; [|done].
    apply negb_true_iff in L. rewrite L. destruct (updHAcct_q_host_fields (mSchedStage st) h hp c r) as (_ & _ & ->).
    by apply updHAcct_entry_spec.
  - intros k' r _ N. unfold step. destruct (hosts st !! k') as [hp|] eqn:K; [|done]. destruct (has _ _) eqn:Hs; [done|].
    destruct (updHAcct_q_host_fields (mSchedStage st) k' hp c r) as (_ & _ & ->).
    destruct (decide (k' = h)) as [->|Nk]; [|by apply updHAcct_entry_other].
    exfalso. destruct N as [N|N]; [done|]. rewrite (c_local st C), K, Hs in N. done.
  - set (r := fold_left _ _ _) in *. destruct (has (q_flags r) QUEUE_UPDATE_USABLE); cbn; by rewrite ?I1, ?I2, ?V.
Qed.

Lemma wq_here : wq (e_q e) e = 1.
Proof. unfold wq. by rewrite bool_decide_true. Qed.
Lemma wq_other q : q <> e_q e -> wq q e = 0.
Proof. intros N. unfold wq. by rewrite bool_decide_false. Qed.

(** Hosts are charged with the signs of the change of slots. *)
Lemma signs_hosts n h : cscale (n * hocc h (e_h e)) (signs d) = cscale (n * hocc h (e_h e)) (started hd).
Proof. destruct Sg as [H|H]; [|by rewrite H]. rewrite H. unfold hocc. rewrite occ_nil. by destruct (local h); rewrite !Z.mul_0_r, !cscale_0_l. Qed.

Lemma newJob_signs : newJob d = true -> signs d = czero.
Proof. intros N. apply newJob_zero in N. unfold started, czero, signs in *. injection N as -> -> -> ->. done. Qed.

(** The accounts of the user and its ancestors in a queue. *)
Lemma queue_users_spec us qp u :
  all_counters nat32 (uacct (q_uAcct qp) u) ->
  all_counters nat32 (cadd (uacct (q_uAcct qp) u) (cscale (occ u us) (no_jobs d))) ->
  let qp' := fold_left (fun qp grp => updUAcct_q j grp (no_jobs d) qp) us qp in
  (q_cnt qp' = q_cnt qp /\ q_hAcct qp' = q_hAcct qp)
  /\ uacct (q_uAcct qp') u = cadd (uacct (q_uAcct qp) u) (cscale (occ u us) (no_jobs d)).
Proof.
  intros R R'.
  apply (bump_loop (fun r => q_cnt r = q_cnt qp /\ q_hAcct r = q_hAcct qp) (fun r => uacct (q_uAcct r) u)
           (fun grp r => updUAcct_q j grp (no_jobs d) r) u true (no_jobs d)); try done.
  - intros k' r [H1 H2]. destruct (updUAcct_q_spec k' (no_jobs d) r) as (_ & _ & -> & ->); done.
  - intros r _ _ _ H. by apply updUAcct_q_spec.
  - intros k' r _ [N|N]; [|done]. by apply updUAcct_q_spec.
Qed.

Lemma updQaccount_exact st : conf st -> queues_exact E st -> queues_exact E' (updQaccount getQUsable st j d).
Proof.
  intros C Q. destruct (ranges E Ok) as (R1 & R2 & R3 & _). destruct (ranges E' Ok') as (R1' & R2' & R3' & _).
  assert (Other : forall q qp, q <> e_q e -> queue_exact E q qp -> queue_exact E' q qp).
  { intros q qp N (H1 & H2 & H3). split_and!.
    - rewrite charge_v, wq_other by done. by autorewrite with counters.
    - intros u. rewrite charge_nj by done. unfold wqu at 2. rewrite wq_other by done. by autorewrite with counters.
    - intros h. rewrite charge_st by done. unfold wqh at 2. rewrite wq_other by done. by autorewrite with counters. }
  unfold updQaccount. rewrite Jq, Ju. destruct (queues st !! e_q e) as [qp|] eqn:Eq.
  2:{ intros q qp Hq. apply Other; [congruence|by apply Q]. }
  intros q qp' Hq. cbn in Hq. destruct (decide (q = e_q e)) as [->|N].
  2:{ rewrite lookup_insert_ne in Hq by done. apply Other; [done|by apply Q]. }
  rewrite lookup_insert_eq in Hq. simplify_eq. destruct (Q _ _ Eq) as (H1 & H2 & H3).
  rewrite (c_anc st C). fold (no_jobs d).
  change (updUAcct_q j (e_u e) (no_jobs d) ?q) with (fold_left (fun qp grp => updUAcct_q j grp (no_jobs d) qp) [e_u e] q).
  rewrite <- fold_left_app. cbn [app].
  set (qp0 := limit_q (set_q_cnt (addValues (q_cnt qp) d) qp)).
  assert (F0 : q_cnt qp0 = charge (wq (e_q e)) e_v E').
  { cbn. rewrite H1, charge_v, wq_here, cscale_1 by done. apply addValues_exact.
    specialize (R1' (e_q e)). by rewrite charge_v, wq_here, cscale_1 in R1'. }
  set (qp1 := fold_left _ _ qp0).
  assert (F1 : forall u, (q_cnt qp1 = q_cnt qp0 /\ q_hAcct qp1 = q_hAcct qp0)
                         /\ uacct (q_uAcct qp1) u = charge (wqu (e_q e) u) (no_jobs ∘ e_v) E').
  { intros u. rewrite charge_nj by done. specialize (R2 (e_q e) u). specialize (R2' (e_q e) u).
    rewrite charge_nj in R2' by done. rewrite <- H2 in *. unfold wqu in R2' |- * . rewrite wq_here, Z.mul_1_l in *.
    by apply (queue_users_spec (e_u e :: anc (e_u e)) qp0 u). }
  destruct (F1 (e_u e)) as [[G1 G2] _].
  destruct (newJob d && (numPEND d =? 0)) eqn:N; cycle 1.
  - assert (S : forall h, let qp' := updHAcct_q getQUsable st j d qp1 in
        q_cnt qp' = q_cnt qp1 /\ q_uAcct qp' = q_uAcct qp1 /\ hacct (q_hAcct qp') h = charge (wqh (e_q e) h) (started ∘ e_hv) E').
    { intros h. rewrite charge_st by done. specialize (R3 (e_q e) h). specialize (R3' (e_q e) h).
      rewrite charge_st in R3' by done. rewrite <- H3 in *. unfold wqh in R3' |- *. rewrite wq_here in *.
      rewrite <- signs_hosts in *. rewrite Z.mul_1_l in *. rewrite <- Jh in *.
      change (q_hAcct qp) with (q_hAcct qp0) in *. rewrite <- G2 in *. by apply updHAcct_q_spec. }
    destruct (S (e_u e)) as (S1 & S2 & _). split_and!.
    + by rewrite S1, G1, F0.
    + intros u. rewrite S2. apply F1.
    + intros h. apply S.
  - apply andb_true_iff in N as [N _]. split_and!; [by rewrite G1, F0|apply F1|].
    intros h. rewrite G2, charge_st by done. unfold wqh at 2. rewrite <- signs_hosts, newJob_signs by done.
    autorewrite with counters. apply H3.
Qed.

Lemma updQaccount_frame st : users (updQaccount getQUsable st j d) = users st
  /\ hosts (updQaccount getQUsable st j d) = hosts st /\ usergroups (updQaccount getQUsable st j d) = usergroups st
  /\ mSchedStage (updQaccount getQUsable st j d) = mSchedStage st.
Proof. unfold updQaccount. by destruct (queues st !! qPtr j). Qed.

(** *** Users and groups *)

(** What the updates leave as it is. *)
Definition ukey (up : uData) : spec_float * list cstr * list cstr * bool :=
  (u_pJobLimit up, ancestors up, gPtr up, has (u_flags up) USER_INIT).

Lemma conf_users st us : conf st -> (forall u, ukey <$> us !! u = ukey <$> users st !! u) -> conf (set_users us st).
Proof.
  intros [L A G X I] H. split; cbn; [done| |done| |].
  - intros u. rewrite <- A. unfold user_ancestors; cbn. specialize (H u).
    destruct (us !! u), (users st !! u); cbn in H; try done. unfold ukey in H. by injection H.
  - intros g Hg. specialize (X g Hg). specialize (H (group g)). destruct (users st !! group g) eqn:E1; [|by destruct X].
    by destruct (us !! group g).
  - intros u up Hu Hi. specialize (H u). rewrite Hu in H. destruct (users st !! u) as [up0|] eqn:E0; cbn in H; [|done].
    unfold ukey in H. injection H as _ _ -> Hf. apply (I u up0); [done|congruence].
Qed.

Lemma updHAcct_u_fields st hs c up : let up' := updHAcct_u st hs c up in ukey up' = ukey up /\ u_cnt up' = u_cnt up.
Proof.
  revert up; induction hs as [|h hs IH]; intros up; cbn; [done|].
  destruct (IH match hosts st !! h with
               | Some hp => if has (hStatus hp) HOST_STAT_REMOTE then up else updHAcct_u_host h hp c up
               | None => up end) as [-> ->].
  unfold updHAcct_u_host. repeat case_match; simplify_eq; done.
Qed.

Lemma updHAcct_u_spec st c up h : conf st -> all_counters nat32 (hacct (u_hAcct up) h) ->
  all_counters nat32 (cadd (hacct (u_hAcct up) h) (cscale (hocc h (hPtr j)) (signs c))) ->
  hacct (u_hAcct (updHAcct_u st (hPtr j) c up)) h = cadd (hacct (u_hAcct up) h) (cscale (hocc h (hPtr j)) (signs c)).
Proof.
  intros C R R'.
  set (step := fun h up => match hosts st !! h with
     | Some hp => if has (hStatus hp) HOST_STAT_REMOTE then up else updHAcct_u_host h hp c up | None => up end).
  assert (F : forall hs up, updHAcct_u st hs c up = fold_left (fun r k => step k r) hs up).
  { intros hs; induction hs as [|h' hs IH]; intros u; cbn; [done|apply IH]. }
  assert (S : forall h hp up, u_hAcct (updHAcct_u_host h hp c up) = snd (updHAcct_entry h (u_hAcct up) c)).
  { intros h' hp u. unfold updHAcct_u_host. destruct (updHAcct_entry h' (u_hAcct u) c). repeat case_match; done. }
  rewrite F. apply (bump_loop (fun _ => True) (fun r => hacct (u_hAcct r) h) step h (local h) (signs c)); try done.
  - intros r _ L _ Hr. unfold step. rewrite (c_local st C) in L. destruct (hosts st !! h) as [hp|]; [|done].
    apply negb_true_iff in L. rewrite L, S. by apply updHAcct_entry_spec.
  - intros k' r _ N. unfold step. destruct (hosts st !! k') as [hp|] eqn:K; [|done]. destruct (has _ _) eqn:Hs; [done|].
    rewrite S. destruct (decide (k' = h)) as [->|Nk]; [|by apply updHAcct_entry_other].
    exfalso. destruct N as [N|N]; [done|]. rewrite (c_local st C), K, Hs in N. done.
Qed.

(** A user or a group is charged: [f] changes its flags, [r] is the reason. *)
Definition charged (st : mbd) (f : Z -> Z) (r : Z) (up : uData) : uData :=
  let up := updUserData1 st j d (set_u_flags (f (u_flags up)) up) in
  if newJob d then up else snd (limit_u r up).

Lemma charged_spec st f r up : conf st -> (forall x, has (f x) USER_INIT = has x USER_INIT) ->
  ukey (charged st f r up) = ukey up /\ u_cnt (charged st f r up) = addValues (u_cnt up) d
  /\ (SFltb (u_pJobLimit up) INFINIT_FLOAT = true -> forall h, all_counters nat32 (hacct (u_hAcct up) h) ->
      all_counters nat32 (cadd (hacct (u_hAcct up) h) (cscale (hocc h (e_h e)) (signs d))) ->
      hacct (u_hAcct (charged st f r up)) h = cadd (hacct (u_hAcct up) h) (cscale (hocc h (e_h e)) (signs d))).
Proof.
  intros C Hf. rewrite <- Jh. set (up0 := set_u_flags (f (u_flags up)) up).
  assert (K0 : ukey up0 = ukey up) by (unfold ukey; cbn; by rewrite Hf).
  assert (S : let up' := updUserData1 st j d up0 in ukey up' = ukey up /\ u_cnt up' = addValues (u_cnt up) d
     /\ (SFltb (u_pJobLimit up) INFINIT_FLOAT = true -> forall h, all_counters nat32 (hacct (u_hAcct up) h) ->
         all_counters nat32 (cadd (hacct (u_hAcct up) h) (cscale (hocc h (hPtr j)) (signs d))) ->
         hacct (u_hAcct up') h = cadd (hacct (u_hAcct up) h) (cscale (hocc h (hPtr j)) (signs d)))).
  { unfold updUserData1. cbn zeta. destruct (newJob d) eqn:N; cbn [negb andb].
    - rewrite newJob_signs by done. split_and!; [exact K0|done|]. intros. by autorewrite with counters.
    - destruct (SFltb _ INFINIT_FLOAT) eqn:F; cycle 1.
      { split_and!; [exact K0|done|]. intros F'. cbn in F. congruence. }
      set (c := mkCnt _ _ _ _ _ _). set (up1 := set_u_cnt _ _). destruct (updHAcct_u_fields st (hPtr j) c up1) as [-> ->].
      split_and!; [exact K0|done|]. intros _ h. change (signs d) with (signs c). by apply (updHAcct_u_spec st c up1). }
  unfold charged. fold up0. destruct (newJob d); [done|]. exact S.
Qed.

(** One user or group is charged. *)
Definition charge_user (f : Z -> Z) (r : Z) (u : cstr) (st : mbd) : mbd := set_users (alter (charged st f r) u (users st)) st.

Definition uval (u : cstr) (st : mbd) : counters := match users st !! u with Some up => u_cnt up | None => czero end.
Definition limited (up : uData) : bool := SFltb (u_pJobLimit up) INFINIT_FLOAT.
Definition hval (u h : cstr) (st : mbd) : counters :=
  match users st !! u with Some up => if limited up then hacct (u_hAcct up) h else czero | None => czero end.

Definition keys_as (st0 st : mbd) : Prop :=
  (forall u, ukey <$> users st !! u = ukey <$> users st0 !! u) /\ queues st = queues st0 /\ hosts st = hosts st0
  /\ usergroups st = usergroups st0 /\ mSchedStage st = mSchedStage st0.

Section Charge.
Variables (f : Z -> Z) (r : Z).
Hypothesis Hf : forall x, has (f x) USER_INIT = has x USER_INIT.

Lemma charge_user_keys u st : conf st -> conf (charge_user f r u st) /\ keys_as st (charge_user f r u st).
Proof.
  intros C.
  assert (K : forall u', ukey <$> users (charge_user f r u st) !! u' = ukey <$> users st !! u').
  { intros u'. cbn. destruct (decide (u = u')) as [->|N]; [|by rewrite lookup_alter_ne].
    rewrite lookup_alter_eq. destruct (users st !! u') as [up|]; [|done]. cbn.
    by destruct (charged_spec st f r up C Hf) as [-> _]. }
  split; [by apply conf_users|by split].
Qed.

Lemma charge_user_uval u st : conf st -> is_Some (users st !! u) -> all_counters nat32 (cadd (uval u st) d) ->
  uval u (charge_user f r u st) = cadd (uval u st) d.
Proof.
  intros C [up Hu] R. unfold uval in *. cbn. rewrite lookup_alter_eq, Hu in *. cbn.
  destruct (charged_spec st f r up C Hf) as (_ & -> & _). by apply addValues_exact.
Qed.

Lemma charge_user_hval u h st : conf st -> (exists up, users st !! u = Some up /\ limited up = true) ->
  all_counters nat32 (hval u h st) -> all_counters nat32 (cadd (hval u h st) (cscale (hocc h (e_h e)) (signs d))) ->
  hval u h (charge_user f r u st) = cadd (hval u h st) (cscale (hocc h (e_h e)) (signs d)).
Proof.
  intros C (up & Hu & L). unfold hval. cbn. rewrite lookup_alter_eq, Hu. cbn. rewrite L. intros R R'.
  destruct (charged_spec st f r up C Hf) as (K & _ & ->); [|done..].
  unfold limited in *. unfold ukey in K. injection K as -> _ _ _. by rewrite L.
Qed.

Lemma charge_user_other u u' h st : u <> u' ->
  uval u' (charge_user f r u st) = uval u' st /\ hval u' h (charge_user f r u st) = hval u' h st.
Proof. intros N. unfold uval, hval. cbn. by rewrite lookup_alter_ne. Qed.

(** Several users and groups are charged. *)
Lemma charge_users_spec us st : conf st ->
  let st' := fold_left (fun st u => charge_user f r u st) us st in
  (conf st' /\ keys_as st st')
  /\ (forall u, is_Some (users st !! u) -> all_counters nat32 (uval u st) -> all_counters nat32 (cadd (uval u st) (cscale (occ u us) d)) ->
      uval u st' = cadd (uval u st) (cscale (occ u us) d))
  /\ (forall u h, (exists up, users st !! u = Some up /\ limited up = true) ->
      all_counters nat32 (hval u h st) ->
      all_counters nat32 (cadd (hval u h st) (cscale (occ u us * hocc h (e_h e)) (signs d))) ->
      hval u h st' = cadd (hval u h st) (cscale (occ u us * hocc h (e_h e)) (signs d))).
Proof.
  intros C.
  assert (Inv : forall k' r', (conf r' /\ keys_as st r') -> conf (charge_user f r k' r') /\ keys_as st (charge_user f r k' r')).
  { intros u r' [C' (K1 & K2 & K3 & K4 & K5)]. destruct (charge_user_keys u r' C') as [C2 (K1' & K2' & K3' & K4' & K5')].
    split; [done|]. split_and!; [intros; by rewrite K1'|congruence..]. }
  assert (Ini : conf st /\ keys_as st st) by done.
  assert (All : forall us r', conf r' /\ keys_as st r' -> let st' := fold_left (fun st u => charge_user f r u st) us r' in conf st' /\ keys_as st st').
  { intros us'; induction us' as [|u us' IH]; intros r' H; [done|]. cbn. apply IH, Inv, H. }
  cbn zeta. split; [by apply All|]. split.
  - intros u Hu R R'.
    apply (bump_loop (fun r' => conf r' /\ keys_as st r') (uval u) (charge_user f r) u true d); try done.
    + intros r' [C' (K & _)] _ _ Hr. apply charge_user_uval; try done. specialize (K u).
      destruct Hu as [up Hu]. rewrite Hu in K. destruct (users r' !! u); [done|by cbn in K].
    + intros k' r' _ [N|N]; [|done]. by apply (charge_user_other k' u u).
  - intros u h (up & Hu & L) R R'. rewrite <- cscale_mul in *.
    apply (bump_loop (fun r' => conf r' /\ keys_as st r') (hval u h) (charge_user f r) u true
             (cscale (hocc h (e_h e)) (signs d))); try done.
    + intros r' [C' (K & _)] _ Hr Hr'. apply charge_user_hval; try done. specialize (K u). rewrite Hu in K.
      destruct (users r' !! u) as [up'|]; [|by cbn in K]. exists up'. split; [done|]. cbn in K. unfold ukey in K.
      injection K as K _ _ _. unfold limited in *. by rewrite K.
    + intros k' r' _ [N|N]; [|done]. by apply (charge_user_other k' u h).
Qed.
End Charge.

(** Names and counters of users are left as they are. *)
Definition uview (up : uData) : counters * gmap cstr counters * spec_float := (u_cnt up, u_hAcct up, u_pJobLimit up).
Definition views_as (st0 st : mbd) : Prop :=
  (forall u, uview <$> users st !! u = uview <$> users st0 !! u) /\ queues st = queues st0 /\ hosts st = hosts st0
  /\ usergroups st = usergroups st0 /\ mSchedStage st = mSchedStage st0.

Lemma views_vals st0 st u h : views_as st0 st -> uval u st = uval u st0 /\ hval u h st = hval u h st0.
Proof.
  intros (H & _). specialize (H u). unfold uval, hval, limited.
  destruct (users st !! u), (users st0 !! u); cbn in H; try done. unfold uview in H. by injection H as -> -> ->.
Qed.

Lemma on_user_views u g st : (forall up, uview (g up) = uview up) -> views_as st (on_user u g st).
Proof.
  intros H. split; [|done]. intros u'. cbn. destruct (decide (u = u')) as [->|N]; [|by rewrite lookup_alter_ne].
  rewrite lookup_alter_eq. destruct (users st !! u'); cbn; [by rewrite H|done].
Qed.

Lemma set_users_id st : set_users (users st) st = st.
Proof. by destruct st. Qed.

Lemma getUserData_id u us : is_Some (us !! u) -> getUserData u us = us.
Proof. intros [up H]. unfold getUserData. by rewrite H. Qed.

Lemma init_groups_spec st u : conf st -> is_Some (users st !! u) ->
  let st' := init_groups st u in
  conf st' /\ views_as st st' /\ exists up, users st' !! u = Some up /\ u :: gPtr up = payers u.
Proof.
  intros C [up Hu]. unfold init_groups. rewrite Hu. destruct (has (u_flags up) USER_INIT) eqn:Hi.
  { split_and!; [done|done|]. exists up. split; [done|]. by apply (c_init st C). }
  rewrite (c_groups st C). set (names := map group _).
  assert (G : fold_left (fun us g => getUserData g us) names (users st) = users st).
  { assert (X : Forall (fun g => is_Some (users st !! g)) names).
    { apply Forall_map, Forall_forall. intros g Hg. apply (c_exist st C).
      apply list_elem_of_In, List.filter_In in Hg as [Hg _]. by apply list_elem_of_In. }
    clear -X. induction X as [|g names H X IH]; [done|]. cbn. by rewrite getUserData_id. }
  rewrite G, set_users_id. set (g := fun up => _). set (st' := on_user u g _). split_and!.
  - destruct C as [L A Gr Ex In]. split; [done| |done| |].
    + intros u'. rewrite <- A. unfold user_ancestors, st', on_user; cbn. destruct (decide (u = u')) as [->|N]; [|by rewrite lookup_alter_ne].
      rewrite lookup_alter_eq. by destruct (users st !! u').
    + intros x Hx. cbn. destruct (decide (u = group x)) as [->|N]; [|by rewrite lookup_alter_ne; eauto].
      rewrite lookup_alter_eq, Hu. by eexists.
    + intros u' up' Hu'. cbn in Hu'. destruct (decide (u = u')) as [->|N].
      * rewrite lookup_alter_eq, Hu in Hu'. cbn in Hu'. simplify_eq. cbn. done.
      * rewrite lookup_alter_ne in Hu' by done. by apply In.
  - by apply on_user_views.
  - exists (g up). split; [|done]. cbn. by rewrite lookup_alter_eq, Hu.
Qed.

Lemma alter_insert {A} (g : A -> A) (m : gmap cstr A) i x : m !! i = Some x -> alter g i m = <[i := g x]> m.
Proof.
  intros H. apply map_eq. intros i'. destruct (decide (i = i')) as [<-|N].
  - by rewrite lookup_alter_eq, lookup_insert_eq, H.
  - by rewrite lookup_alter_ne, lookup_insert_ne.
Qed.

Lemma charge_user_none f r u st : users st !! u = None -> charge_user f r u st = st.
Proof.
  intros H. unfold charge_user. replace (alter (charged st f r) u (users st)) with (users st); [apply set_users_id|].
  apply map_eq. intros i. destruct (decide (u = i)) as [<-|N]; [by rewrite lookup_alter_eq, H|by rewrite lookup_alter_ne].
Qed.

Abbreviation as_group := (fun x => Z.lor x USER_GROUP).
Abbreviation as_user := (fun x => Z.ldiff x USER_GROUP).

Lemma updGroups_fold gs st n :
  snd (updGroups st j d gs n) = fold_left (fun st g => charge_user as_group PEND_UGRP_JOB_LIMIT g st) gs st.
Proof.
  revert st n; induction gs as [|g gs IH]; intros st n; [done|]. cbn [updGroups fold_left].
  destruct (users st !! g) as [ugp|] eqn:Hg; [|by rewrite charge_user_none].
  unfold charge_user at 2. rewrite (alter_insert _ _ _ _ Hg). unfold charged. cbn zeta.
  destruct (newJob d); [apply IH|]. destruct (limit_u _ _) as [num ugp'] eqn:L. cbn [snd]. apply IH.
Qed.

(** [updUserData]: the user, the groups, and [numSlots]. *)
Lemma updUserData_steps st : conf st -> is_Some (users st !! e_u e) -> exists st2 n,
  let st1 := charge_user as_user PEND_USER_JOB_LIMIT (e_u e) st in
  conf st2 /\ views_as st1 st2
  /\ updUserData st j d
     = on_user (e_u e) (set_u_numSlots n)
         (fold_left (fun st g => charge_user as_group PEND_UGRP_JOB_LIMIT g st) (tail (payers (e_u e))) st2).
Proof.
  intros C X. unfold updUserData. unfold uPtr in *. rewrite Ju, getUserData_id, set_users_id by done.
  destruct X as [up Hu]. rewrite Hu.
  set (st1 := charge_user as_user PEND_USER_JOB_LIMIT (e_u e) st).
  assert (H1 : st1 = set_users (<[e_u e := charged st as_user PEND_USER_JOB_LIMIT up]> (users st)) st)
    by (unfold st1, charge_user; by rewrite (alter_insert _ _ _ _ Hu)).
  assert (H2 : exists n, (if newJob d then (None, updUserData1 st j d (set_u_flags (as_user (u_flags up)) up))
      else let '(n, up) := limit_u PEND_USER_JOB_LIMIT (updUserData1 st j d (set_u_flags (as_user (u_flags up)) up)) in (Some n, up))
      = (n, charged st as_user PEND_USER_JOB_LIMIT up)).
  { unfold charged. destruct (newJob d); [by eexists|]. destruct (limit_u _ _); by eexists. }
  destruct H2 as [n H2]. cbn zeta in H2 |- *. rewrite H2, <- H1.
  assert (C1 : conf st1) by (apply charge_user_keys; [intros; by apply has_ldiff|done]).
  assert (X1 : is_Some (users st1 !! e_u e)) by (rewrite H1; cbn; rewrite lookup_insert_eq; by eexists).
  destruct (usergroups st1) as [|g0 gs0] eqn:Eg.
  - exists st1, n. split_and!; [done|done|]. unfold payers. rewrite <- (c_groups _ C1), Eg. done.
  - destruct (init_groups_spec st1 (e_u e) C1 X1) as (C2 & V2 & up2 & Hu2 & Hp2). rewrite Hu2, <- Hp2. cbn [tail].
    pose proof (updGroups_fold (gPtr up2) (init_groups st1 (e_u e)) n) as F.
    destruct (updGroups _ _ _ _ _) as [n' st3]. cbn in F. subst st3. by exists (init_groups st1 (e_u e)), n'.
Qed.

Lemma payers_head u : payers u = u :: tail (payers u).
Proof. done. Qed.

(** The sum of two charges of the same counter. *)
Lemma charge_twice a m n c : 0 <= m -> 0 <= n -> all_counters nat32 a -> all_counters nat32 (cadd a (cscale (m + n) c)) ->
  all_counters nat32 (cadd a (cscale m c)) /\ cadd (cadd a (cscale m c)) (cscale n c) = cadd a (cscale (m + n) c).
Proof.
  clear. intros. split; [by apply (cbetween _ m (m + n)); [lia|..]|]. by rewrite cscale_add, cadd_assoc.
Qed.

Definition plim (u : cstr) (st : mbd) : option spec_float := u_pJobLimit <$> users st !! u.

Lemma keys_plim st0 st u : keys_as st0 st -> plim u st = plim u st0.
Proof.
  intros [K _]. specialize (K u). unfold plim. destruct (users st !! u), (users st0 !! u); cbn in *; try done.
  unfold ukey in K. by injection K as -> _ _ _.
Qed.
Lemma views_plim st0 st u : views_as st0 st -> plim u st = plim u st0.
Proof.
  intros [K _]. specialize (K u). unfold plim. destruct (users st !! u), (users st0 !! u); cbn in *; try done.
  unfold uview in K. by injection K as _ _ ->.
Qed.
Lemma plim_some u st : is_Some (users st !! u) <-> is_Some (plim u st).
Proof. unfold plim. by rewrite fmap_is_Some. Qed.
Lemma plim_limited u st x : plim u st = Some x -> SFltb x INFINIT_FLOAT = true ->
  exists up, users st !! u = Some up /\ limited up = true.
Proof. unfold plim. intros H L. apply fmap_Some in H as (up & -> & ->). by exists up. Qed.

(** The two passes, over the user and over its groups, as one. *)
Lemma updUserData_vals st : conf st -> is_Some (users st !! e_u e) ->
  let st' := updUserData st j d in
  (conf st' /\ queues st' = queues st /\ hosts st' = hosts st /\ mSchedStage st' = mSchedStage st
   /\ forall u, plim u st' = plim u st)
  /\ (forall u, is_Some (plim u st) -> all_counters nat32 (uval u st) -> all_counters nat32 (cadd (uval u st) (cscale (wu u e) d)) ->
      uval u st' = cadd (uval u st) (cscale (wu u e) d))
  /\ (forall u h x, plim u st = Some x -> SFltb x INFINIT_FLOAT = true -> all_counters nat32 (hval u h st) ->
      all_counters nat32 (cadd (hval u h st) (cscale (wuh u h e) (signs d))) ->
      hval u h st' = cadd (hval u h st) (cscale (wuh u h e) (signs d))).
Proof.
  intros C X. destruct (updUserData_steps st C X) as (st2 & n & C2 & V2 & ->). set (st1 := charge_user _ _ _ st) in *.
  assert (Hd : forall x, has (as_user x) USER_INIT = has x USER_INIT) by (intros; by apply has_ldiff).
  assert (Hl : forall x, has (as_group x) USER_INIT = has x USER_INIT) by (intros; by apply has_lor).
  destruct (charge_users_spec as_user PEND_USER_JOB_LIMIT Hd [e_u e] st C) as ([C1 K1] & U1 & W1).
  cbn [fold_left] in C1, K1, U1, W1. fold st1 in C1, K1, U1, W1.
  destruct (charge_users_spec as_group PEND_UGRP_JOB_LIMIT Hl (tail (payers (e_u e))) st2 C2) as ([C3 K3] & U3 & W3).
  set (st3 := fold_left _ _ st2) in *.
  assert (V4 : views_as st3 (on_user (e_u e) (set_u_numSlots n) st3)) by (by apply on_user_views).
  assert (S : forall u, wu u e = occ u [e_u e] + occ u (tail (payers (e_u e)))).
  { intros u. unfold wu. rewrite (payers_head (e_u e)) at 1. by rewrite !occ_cons, occ_nil, Z.add_0_r. }
  assert (P2 : forall u, plim u st2 = plim u st) by (intros u; by rewrite (views_plim _ _ u V2), (keys_plim _ _ u K1)).
  assert (N1 : forall u, 0 <= occ u [e_u e] /\ 0 <= occ u (tail (payers (e_u e)))) by (intros; split; apply occ_nonneg).
  split; [split_and!|split].
  - apply conf_users; [done|]. intros u. destruct (decide (e_u e = u)) as [<-|N]; [|by rewrite lookup_alter_ne].
    rewrite lookup_alter_eq. by destruct (users st3 !! e_u e).
  - by destruct V4 as (_ & -> & _), K3 as (_ & -> & _), V2 as (_ & -> & _), K1 as (_ & -> & _).
  - by destruct V4 as (_ & _ & -> & _), K3 as (_ & _ & -> & _), V2 as (_ & _ & -> & _), K1 as (_ & _ & -> & _).
  - by destruct V4 as (_ & _ & _ & _ & ->), K3 as (_ & _ & _ & _ & ->), V2 as (_ & _ & _ & _ & ->), K1 as (_ & _ & _ & _ & ->).
  - intros u. by rewrite (views_plim _ _ u V4), (keys_plim _ _ u K3).
  - intros u Hx R R'. destruct (N1 u) as [N N']. rewrite S in R'. destruct (charge_twice _ _ _ d N N' R R') as [Q1 Q2].
    rewrite (proj1 (views_vals _ _ u u V4)), S, <- Q2.
    assert (H12 : uval u st2 = cadd (uval u st) (cscale (occ u [e_u e]) d)).
    { rewrite (proj1 (views_vals _ _ u u V2)). apply U1; [by apply plim_some|done|done]. }
    rewrite <- H12 in *. apply U3; [by apply plim_some; rewrite P2|done|by rewrite Q2].
  - intros u h x Hx L R R'. destruct (N1 u) as [N N']. pose proof (hocc_range h (e_h e)) as Hr.
    unfold wuh in *. rewrite S, Z.mul_add_distr_r in *.
    destruct (charge_twice _ (occ u [e_u e] * hocc h (e_h e)) (occ u (tail (payers (e_u e))) * hocc h (e_h e)) (signs d) ltac:(nia) ltac:(nia) R R') as [Q1 Q2].
    rewrite (proj2 (views_vals _ _ u h V4)), <- Q2.
    assert (H12 : hval u h st2 = cadd (hval u h st) (cscale (occ u [e_u e] * hocc h (e_h e)) (signs d))).
    { rewrite (proj2 (views_vals _ _ u h V2)). apply W1; [by apply (plim_limited u st x)|done|done]. }
    rewrite <- H12 in *. apply W3; [apply (plim_limited u st2 x); [by rewrite P2|done]|done|by rewrite Q2].
Qed.

Lemma updUserData_exact st : conf st -> is_Some (users st !! e_u e) -> users_exact E st -> users_exact E' (updUserData st j d).
Proof.
  intros C X U. destruct (ranges E Ok) as (_ & _ & _ & R4 & R5 & _). destruct (ranges E' Ok') as (_ & _ & _ & R4' & R5' & _).
  destruct (updUserData_vals st C X) as ((_ & _ & _ & _ & P) & V & W). intros u up Hu. specialize (P u).
  assert (Hp : plim u st = Some (u_pJobLimit up)) by (rewrite <- P; unfold plim; by rewrite Hu).
  destruct (users st !! u) as [up0|] eqn:Hu0; [|unfold plim in Hp; by rewrite Hu0 in Hp].
  destruct (U u up0 Hu0) as [H1 H2].
  assert (L0 : limited up0 = limited up) by (unfold plim in Hp; rewrite Hu0 in Hp; unfold limited; by injection Hp as ->).
  split.
  - specialize (R4 u). specialize (R4' u). rewrite charge_v in * by done. rewrite <- H1 in *.
    assert (H0 : uval u st = u_cnt up0) by (unfold uval; by rewrite Hu0). rewrite <- H0 in *.
    rewrite <- V by (done || by eexists). unfold uval. by rewrite Hu.
  - intros L h. assert (L1 : limited up0 = true) by (by rewrite L0). specialize (H2 L1 h). specialize (R5 u h). specialize (R5' u h).
    rewrite charge_st in * by done. unfold wuh in R5' at 2. unfold wuh at 2. rewrite <- signs_hosts in *. fold (wuh u h e) in *.
    rewrite <- H2 in *. assert (H0 : hval u h st = hacct (u_hAcct up0) h) by (unfold hval; by rewrite Hu0, L1). rewrite <- H0 in *.
    rewrite <- (W u h _ Hp) by done. unfold hval, limited. by rewrite Hu, L.
Qed.

(** *** Hosts *)

Definition hkey (hp : hData) : Z * bool := (h_uJobLimit hp, has (hStatus hp) HOST_STAT_REMOTE).
Definition qview (qp : qData) : counters * gmap cstr userAcct * gmap cstr counters := (q_cnt qp, q_uAcct qp, q_hAcct qp).

(** What [updHostData] leaves as it is. *)
Definition frame_h (st0 st : mbd) : Prop :=
  (forall h, hkey <$> hosts st !! h = hkey <$> hosts st0 !! h)
  /\ (forall u, (fun up => (ukey up, uview up)) <$> users st !! u = (fun up => (ukey up, uview up)) <$> users st0 !! u)
  /\ (forall q, qview <$> queues st !! q = qview <$> queues st0 !! q)
  /\ usergroups st = usergroups st0 /\ mSchedStage st = mSchedStage st0.

Lemma frame_h_trans st0 st1 st2 : frame_h st0 st1 -> frame_h st1 st2 -> frame_h st0 st2.
Proof.
  intros (A1 & B1 & C1 & D1 & F1) (A2 & B2 & C2 & D2 & F2).
  split_and!; intros; congruence.
Qed.

Lemma conf_frame st0 st : frame_h st0 st -> conf st0 -> conf st.
Proof.
  intros (A & B & _ & D & _) [L An G X In]. split.
  - intros h. rewrite L. specialize (A h). destruct (hosts st !! h), (hosts st0 !! h); cbn in A; try done.
    unfold hkey in A. by injection A as _ ->.
  - intros u. rewrite <- An. unfold user_ancestors. specialize (B u). destruct (users st !! u) as [up|], (users st0 !! u) as [up0|]; try done.
    assert (K : ukey up = ukey up0) by (cbn in B; congruence). unfold ukey in K. by injection K as _ -> _ _.
  - congruence.
  - intros g Hg. destruct (X g Hg) as [up E1]. specialize (B (group g)). rewrite E1 in B.
    destruct (users st !! group g); [by eexists|by cbn in B].
  - intros u up Hu Hi. specialize (B u). rewrite Hu in B. destruct (users st0 !! u) as [up0|] eqn:E0; [|done].
    assert (K : ukey up = ukey up0) by (cbn in B; congruence). unfold ukey in K. injection K as _ _ -> Hf. apply (In u up0); [done|congruence].
Qed.

Lemma queues_exact_frame F st0 st : frame_h st0 st -> queues_exact F st0 -> queues_exact F st.
Proof.
  intros (_ & _ & C & _) Q q qp Hq. specialize (C q). rewrite Hq in C. destruct (queues st0 !! q) as [qp0|] eqn:E0; cbn in C; [|done].
  unfold qview in C. injection C as C1 C2 C3. destruct (Q q qp0 E0) as (H1 & H2 & H3).
  split_and!; intros; by rewrite ?C1, ?C2, ?C3.
Qed.

Lemma users_exact_frame F st0 st : frame_h st0 st -> users_exact F st0 -> users_exact F st.
Proof.
  intros (_ & B & _) U u up Hu. specialize (B u). rewrite Hu in B. destruct (users st0 !! u) as [up0|] eqn:E0; [|done].
  assert (K : uview up = uview up0) by (cbn in B; congruence). unfold uview in K. injection K as B1 B2 B3. destruct (U u up0 E0) as [H1 H2].
  split; [by rewrite B1|]. intros L h. rewrite B2. apply H2. by rewrite <- B3.
Qed.

Definition charge_host (h : cstr) (st : mbd) : mbd :=
  match hosts st !! h with
  | None => st
  | Some hp =>
      if has (hStatus hp) HOST_STAT_REMOTE then st
      else
        let st := if (h_uJobLimit hp <? INFINIT_INT) && negb (newJob hd)
                  then updUAcct_h j h hp (started hd) st else st in
        match hosts st !! h with
        | None => st
        | Some hp => limit_h h (set_h_cnt (addValues (h_cnt hp) hd) hp) st
        end
  end.

Lemma charge_host_missing h st : hosts st !! h = None -> charge_host h st = st.
Proof. intros H. unfold charge_host. by rewrite H. Qed.

Lemma updUAcct_h_spec h hp st : hosts st !! h = Some hp ->
  let st' := updUAcct_h j h hp (started hd) st in
  hosts st' = <[h := set_h_uAcct (snd (updUAcct j (uPtr j) (h_uAcct hp) (started hd))) hp]> (hosts st) /\ frame_h st st'.
Proof.
  intros Hh. unfold updUAcct_h. destruct (updUAcct j (uPtr j) (h_uAcct hp) (started hd)) as [[a|] t] eqn:F; cbn [snd].
  - split; [done|]. split_and!; cbn; [|intros u|done..].
    + intros h'. destruct (decide (h = h')) as [<-|N]; [by rewrite lookup_insert_eq, Hh|by rewrite lookup_insert_ne].
    + destruct (decide (uPtr j = u)) as [<-|N]; [|by rewrite lookup_alter_ne]. rewrite lookup_alter_eq. by destruct (users st !! uPtr j).
  - split; [|done]. assert (T : t = h_uAcct hp) by (revert F; unfold updUAcct; repeat case_match; naive_solver).
    rewrite T. rewrite insert_id; [done|]. rewrite Hh. by destruct hp.
Qed.

Lemma limit_h_spec h hp st hp0 : hosts st !! h = Some hp0 -> hkey hp = hkey hp0 ->
  let st' := limit_h h hp st in
  frame_h st st' /\ exists hp', hosts st' = <[h := hp']> (hosts st) /\ h_cnt hp' = h_cnt hp /\ h_uAcct hp' = h_uAcct hp.
Proof.
  intros Hh K. unfold limit_h. cbn zeta. set (full := h_maxJobs hp <=? numJobs (h_cnt hp)).
  set (hp1 := set_hStatus _ hp). set (hp2 := if numJobs (h_cnt hp1) <=? 0 then _ else hp1).
  assert (K2 : hkey hp2 = hkey hp).
  { assert (K1 : hkey hp1 = hkey hp) by (unfold hkey, hp1; cbn; f_equal; destruct full; [by apply has_lor|by apply has_ldiff]).
    unfold hp2. destruct (_ <=? 0); [|done]. rewrite <- K1. unfold hkey. cbn. f_equal. by apply has_ldiff. }
  split; cycle 1.
  { exists hp2. split_and!; [by destruct full|unfold hp2; by destruct (_ <=? 0)..]. }
  split_and!.
  - intros h'. assert (HH : hosts (set_hosts (<[h := hp2]> (hosts st)) st) !! h' = <[h := hp2]> (hosts st) !! h') by done.
    destruct (decide (h = h')) as [<-|N].
    + destruct full; cbn; by rewrite lookup_insert_eq, Hh; cbn; rewrite K2, K.
    + destruct full; cbn; by rewrite lookup_insert_ne.
  - by destruct full.
  - intros q. destruct full; cbn; [done|]. rewrite lookup_fmap. by destruct (queues st !! q).
  - by destruct full.
  - by destruct full.
Qed.

Lemma charge_host_spec h hp st : hosts st !! h = Some hp -> has (hStatus hp) HOST_STAT_REMOTE = false ->
  let st' := charge_host h st in
  frame_h st st' /\ exists hp', hosts st' = <[h := hp']> (hosts st) /\ h_cnt hp' = addValues (h_cnt hp) hd
    /\ h_uAcct hp' = if (h_uJobLimit hp <? INFINIT_INT) && negb (newJob hd)
                     then snd (updUAcct j (uPtr j) (h_uAcct hp) (started hd)) else h_uAcct hp.
Proof.
  intros Hh Hr. unfold charge_host. rewrite Hh, Hr. destruct ((h_uJobLimit hp <? INFINIT_INT) && negb (newJob hd)); cbn zeta.
  - destruct (updUAcct_h_spec h hp st Hh) as [H1 F1]. set (st1 := updUAcct_h j h hp (started hd) st) in *.
    set (hp1 := set_h_uAcct _ hp) in H1. assert (Hh1 : hosts st1 !! h = Some hp1) by (by rewrite H1, lookup_insert_eq).
    rewrite Hh1. destruct (limit_h_spec h (set_h_cnt (addValues (h_cnt hp1) hd) hp1) st1 hp1 Hh1) as (F2 & hp' & H2 & H3 & H4); [done|].
    split; [by eapply frame_h_trans|]. exists hp'. rewrite H2, H1, insert_insert_eq. done.
  - rewrite Hh. destruct (limit_h_spec h (set_h_cnt (addValues (h_cnt hp) hd) hp) st hp Hh) as (F2 & hp' & H2 & H3 & H4); [done|].
    split; [done|]. by exists hp'.
Qed.

Lemma charge_host_frame h st : frame_h st (charge_host h st).
Proof.
  unfold charge_host. destruct (hosts st !! h) as [hp|] eqn:Hh; [|done]. destruct (has (hStatus hp) HOST_STAT_REMOTE) eqn:Hr; [done|].
  destruct (charge_host_spec h hp st Hh Hr) as [F _]. revert F. unfold charge_host. by rewrite Hh, Hr.
Qed.

Lemma updHostData_fold hs st : Forall (fun h => is_Some (hosts st !! h)) hs ->
  updHostData_loop st j hd hs = fold_left (fun st h => charge_host h st) hs st.
Proof.
  revert st; induction hs as [|h hs IH]; intros st X; [done|]. cbn [updHostData_loop fold_left].
  pose proof (Forall_inv X) as [hp Hh]. pose proof (charge_host_frame h st) as (F & _).
  assert (Xs : Forall (fun h' => is_Some (hosts (charge_host h st) !! h')) hs).
  { eapply Forall_impl; [exact (Forall_inv_tail X)|]. intros h' [hp' Hh']. specialize (F h'). rewrite Hh' in F.
    destruct (hosts (charge_host h st) !! h'); [by eexists|by cbn in F]. }
  rewrite <- IH by exact Xs. clear Xs IH F. unfold charge_host. rewrite Hh.
  destruct (has (hStatus hp) HOST_STAT_REMOTE) eqn:Hr; [done|]. fold (started hd). cbn zeta.
  destruct ((h_uJobLimit hp <? INFINIT_INT) && negb (newJob hd)); [|by rewrite Hh].
  destruct (updUAcct_h_spec h hp st Hh) as [H1 _]. by rewrite H1, lookup_insert_eq.
Qed.

Definition hcval (h : cstr) (st : mbd) : counters := match hosts st !! h with Some hp => h_cnt hp | None => czero end.
Definition hulim (hp : hData) : bool := h_uJobLimit hp <? INFINIT_INT.
Definition huval (h u : cstr) (st : mbd) : counters :=
  match hosts st !! h with Some hp => if hulim hp then uacct (h_uAcct hp) u else czero | None => czero end.

Lemma charge_host_other h h' u st : h <> h' -> hcval h' (charge_host h st) = hcval h' st /\ huval h' u (charge_host h st) = huval h' u st.
Proof.
  intros N. destruct (hosts st !! h) as [hp|] eqn:Hh; [|by rewrite charge_host_missing].
  destruct (has (hStatus hp) HOST_STAT_REMOTE) eqn:Hr; [unfold charge_host; by rewrite Hh, Hr|].
  destruct (charge_host_spec h hp st Hh Hr) as (_ & hp' & H & _). unfold hcval, huval. rewrite H. by rewrite lookup_insert_ne.
Qed.

Lemma charge_host_remote h st : (forall hp, hosts st !! h = Some hp -> has (hStatus hp) HOST_STAT_REMOTE = true) -> charge_host h st = st.
Proof. intros H. unfold charge_host. destruct (hosts st !! h) as [hp|]; [|done]. by rewrite (H hp). Qed.

Lemma charge_host_hcval h hp st : hosts st !! h = Some hp -> has (hStatus hp) HOST_STAT_REMOTE = false ->
  all_counters nat32 (cadd (hcval h st) hd) -> hcval h (charge_host h st) = cadd (hcval h st) hd.
Proof.
  intros Hh Hr R. destruct (charge_host_spec h hp st Hh Hr) as (_ & hp' & H & H1 & _).
  unfold hcval in *. rewrite H, lookup_insert_eq, Hh in *. rewrite H1. by apply addValues_exact.
Qed.

Lemma charge_host_huval h hp u st : hosts st !! h = Some hp -> has (hStatus hp) HOST_STAT_REMOTE = false -> hulim hp = true ->
  all_counters nat32 (cadd (huval h u st) (cscale (one (bool_decide (e_u e = u))) (started hd))) ->
  huval h u (charge_host h st) = cadd (huval h u st) (cscale (one (bool_decide (e_u e = u))) (started hd)).
Proof.
  intros Hh Hr L R. destruct (charge_host_spec h hp st Hh Hr) as ((F & _) & hp' & H & _ & H2).
  specialize (F h). rewrite H, lookup_insert_eq, Hh in F. cbn in F. unfold hkey in F. injection F as F1 _.
  assert (L' : hulim hp' = true) by (unfold hulim in *; by rewrite F1).
  unfold huval in *. rewrite H, lookup_insert_eq, Hh, L in *. rewrite L', H2. unfold hulim in L. rewrite L. cbn [andb].
  destruct (newJob hd) eqn:N; cbn [negb].
  { rewrite (newJob_zero _ N). by autorewrite with counters. }
  rewrite Ju. destruct (decide (e_u e = u)) as [<-|Nu].
  - rewrite bool_decide_true in * by done. cbn [one] in *. rewrite cscale_1 in *. by apply updUAcct_spec.
  - rewrite bool_decide_false in * by done. cbn [one] in *. autorewrite with counters.
    unfold updUAcct. repeat case_match; cbn; try done; by rewrite uacct_insert, decide_False.
Qed.

Lemma updHostData_exact st : conf st -> Forall (fun h => is_Some (hosts st !! h)) (e_h e) -> hosts_exact E st ->
  let st' := updHostData_loop st j hd (hPtr j) in hosts_exact E' st' /\ frame_h st st'.
Proof.
  intros C X H. destruct (ranges E Ok) as (_ & _ & _ & _ & _ & R6 & R7). destruct (ranges E' Ok') as (_ & _ & _ & _ & _ & R6' & R7').
  rewrite Jh, updHostData_fold by done. cbn zeta. set (st' := fold_left _ _ _).
  assert (Inv : forall k' r, frame_h st r -> frame_h st (charge_host k' r)) by (intros; eapply frame_h_trans; [done|apply charge_host_frame]).
  assert (Fr : frame_h st st').
  { assert (G : forall hs r, frame_h st r -> frame_h st (fold_left (fun st h => charge_host h st) hs r))
      by (intros hs; induction hs as [|h hs IH]; intros r F0; [done|]; cbn; apply IH; by apply Inv).
    by apply G. }
  split; [|done].
  assert (Loc : forall r h hp, frame_h st r -> hosts r !! h = Some hp -> has (hStatus hp) HOST_STAT_REMOTE = negb (local h)).
  { intros r h hp F Hh. rewrite (c_local r (conf_frame _ _ F C)), Hh. by rewrite negb_involutive. }
  assert (Other : forall k' r h, frame_h st r -> k' <> h \/ local h = false -> k' <> h \/ charge_host k' r = r).
  { intros k' r h F [N|N]; [by left|]. destruct (decide (k' = h)) as [->|]; [right|by left]. apply charge_host_remote.
    intros hp Hh. by rewrite (Loc r h hp F Hh), N. }
  intros h hp' Hh'. destruct Fr as [Fh _]. specialize (Fh h). rewrite Hh' in Fh. destruct (hosts st !! h) as [hp|] eqn:Hh; cbn in Fh; [|done].
  unfold hkey in Fh. injection Fh as Fl _. destruct (H h hp Hh) as [H1 H2].
  assert (Here : forall r, frame_h st r -> exists hp1, hosts r !! h = Some hp1 /\ h_uJobLimit hp1 = h_uJobLimit hp).
  { intros r (F & _). specialize (F h). rewrite Hh in F. destruct (hosts r !! h) as [hp1|]; cbn in F; [|done].
    unfold hkey in F. injection F as F _. by exists hp1. }
  split.
  - specialize (R6 h). specialize (R6' h). rewrite charge_hv in * by done. rewrite <- H1 in *.
    assert (V0 : hcval h st = h_cnt hp) by (unfold hcval; by rewrite Hh). rewrite <- V0 in *.
    replace (h_cnt hp') with (hcval h st') by (unfold hcval; by rewrite Hh').
    apply (bump_loop (frame_h st) (hcval h) charge_host h (local h) hd); try done.
    + intros r F L _ Hr. destruct (Here r F) as (hp1 & Hr1 & _). apply (charge_host_hcval h hp1); [done| |done].
      rewrite (Loc r h hp1 F Hr1), L. done.
    + intros k' r F N. destruct (Other k' r h F N) as [N'| ->]; [by apply (charge_host_other k' h h)|done].
  - intros L u. rewrite Fl in L. specialize (H2 L u). specialize (R7 h u). specialize (R7' h u).
    assert (HL : hulim hp = true) by (unfold hulim; by apply Z.ltb_lt).
    rewrite charge_st in * by done. unfold whu in R7' at 2. unfold whu at 2. rewrite Z.mul_comm, <- cscale_mul in *. rewrite <- H2 in *.
    assert (V0 : huval h u st = uacct (h_uAcct hp) u) by (unfold huval; by rewrite Hh, HL). rewrite <- V0 in *.
    assert (V1 : uacct (h_uAcct hp') u = huval h u st').
    { unfold huval. rewrite Hh'. unfold hulim in *. by rewrite Fl, HL. }
    rewrite V1. apply (bump_loop (frame_h st) (huval h u) charge_host h (local h) (cscale (one (bool_decide (e_u e = u))) (started hd))); try done.
    + intros r F Lh _ Hr. destruct (Here r F) as (hp1 & Hr1 & Hl1). apply (charge_host_huval h hp1); [done| | |done].
      * by rewrite (Loc r h hp1 F Hr1), Lh.
      * unfold hulim in *. by rewrite Hl1.
    + intros k' r F N. destruct (Other k' r h F N) as [N'| ->]; [by apply (charge_host_other k' h u)|done].
Qed.
End OneJob.

(** ** The ledger *)

Definition placed (st : mbd) (e : entry) : Prop :=
  is_Some (users st !! e_u e) /\ Forall (fun h => is_Some (hosts st !! h)) (e_h e).

Record ledger (E : entries) (st : mbd) : Prop := {
  l_conf : conf st; l_ok : entries_ok E; l_placed : map_Forall (fun _ => placed st) E;
  l_queues : queues_exact E st; l_users : users_exact E st; l_hosts : hosts_exact E st }.

Lemma placed_mono st st' e : (forall u, is_Some (users st !! u) -> is_Some (users st' !! u)) ->
  (forall h, is_Some (hosts st !! h) -> is_Some (hosts st' !! h)) -> placed st e -> placed st' e.
Proof. intros U H [P1 P2]. split; [by apply U|]. eapply Forall_impl; [done|]. apply H. Qed.

(** [conf] and the tables of users and hosts do not depend on queues. *)
Lemma conf_ext st st' : users st' = users st -> hosts st' = hosts st -> usergroups st' = usergroups st -> conf st -> conf st'.
Proof. intros U H G [c1 c2 c3 c4 c5]. split; unfold user_ancestors; rewrite ?U, ?H, ?G; done. Qed.

Section Step.
Variables (E : entries) (k : Z) (e : entry) (d hd : counters) (j : jData).
Hypotheses (Ek : E !! k = Some e) (Ok' : entries_ok (<[k := moved e d hd]> E)).
Hypotheses (Jq : qPtr j = e_q e) (Ju : uPtr j = e_u e) (Jh : hPtr j = e_h e).
Hypothesis Sg : e_h e = [] \/ signs d = started hd.
Local Abbreviation E' := (<[k := moved e d hd]> E).

Lemma placed_moved st : map_Forall (fun _ => placed st) E -> map_Forall (fun _ => placed st) E'.
Proof. intros P. apply map_Forall_insert_2; [exact (P k e Ek)|done]. Qed.

(** The three parts.  [all_placed] is kept by each, and each keeps the tables of
    the others exact for whatever entries they are. *)
Definition all_placed (st : mbd) : Prop := map_Forall (fun _ => placed st) E.

Definition part (Q U H : mbd -> Prop) (st st' : mbd) : Prop :=
  conf st' /\ all_placed st' /\ mSchedStage st' = mSchedStage st /\ Q st' /\ U st' /\ H st'.

Lemma all_placed_frame st st' : frame_h st st' -> all_placed st -> all_placed st'.
Proof.
  intros (F1 & F2 & _) P i x Hi. apply (placed_mono st); [| |by apply (P i)].
  - intros u [up Hu]. specialize (F2 u). rewrite Hu in F2. destruct (users st' !! u); [by eexists|by cbn in F2].
  - intros h [hp Hh]. specialize (F1 h). rewrite Hh in F1. destruct (hosts st' !! h); [by eexists|by cbn in F1].
Qed.

Lemma part_q st Eu Eh : conf st -> entries_ok E -> all_placed st -> queues_exact E st -> users_exact Eu st -> hosts_exact Eh st ->
  part (queues_exact E') (users_exact Eu) (hosts_exact Eh) st (updQaccount getQUsable st j d).
Proof.
  intros C Ok P Q U H. pose proof (updQaccount_exact E k e d hd j Ek Ok Ok' Jq Ju Jh Sg st C Q) as Q'.
  destruct (updQaccount_frame d j st) as (F1 & F2 & F3 & F4). split_and!; try done.
  - by apply (conf_ext st).
  - intros i x Hi. apply (placed_mono st); [by rewrite F1|by rewrite F2|by apply (P i)].
  - unfold users_exact. by rewrite F1.
  - unfold hosts_exact. by rewrite F2.
Qed.

Lemma part_u st Eq Eh : conf st -> entries_ok E -> all_placed st -> queues_exact Eq st -> users_exact E st -> hosts_exact Eh st ->
  part (queues_exact Eq) (users_exact E') (hosts_exact Eh) st (updUserData st j d).
Proof.
  intros C Ok P Q U H. destruct (P k e Ek) as [X1 X2].
  destruct (updUserData_vals e d j Ju Jh st C X1) as ((C' & G1 & G2 & G3 & Pl) & _).
  pose proof (updUserData_exact E k e d hd j Ek Ok Ok' Ju Jh Sg st C X1 U) as U'. split_and!; try done.
  - intros i x Hi. apply (placed_mono st); [|by rewrite G2|by apply (P i)]. intros u. by rewrite !plim_some, Pl.
  - unfold queues_exact. by rewrite G1.
  - unfold hosts_exact. by rewrite G2.
Qed.

Lemma part_h st Eq Eu : conf st -> entries_ok E -> all_placed st -> queues_exact Eq st -> users_exact Eu st -> hosts_exact E st ->
  part (queues_exact Eq) (users_exact Eu) (hosts_exact E') st (updHostData_loop st j hd (hPtr j)).
Proof.
  intros C Ok P Q U H. destruct (P k e Ek) as [X1 X2].
  destruct (updHostData_exact E k e d hd j Ek Ok Ok' Ju Jh st C X2 H) as [H' F]. split_and!; [| | | | |done].
  - by apply (conf_frame st).
  - by apply (all_placed_frame st).
  - apply F.
  - by apply (queues_exact_frame Eq st).
  - by apply (users_exact_frame Eu st).
Qed.

Lemma update_ledger o st : numPEND hd = 0 -> ledger E st ->
  let st' := update getQUsable o st j d (numJobs hd) (numRUN hd) (numSSUSP hd) (numUSUSP hd) (numRESERVE hd) in
  ledger E' st' /\ mSchedStage st' = mSchedStage st.
Proof.
  intros Z0 [C Ok P Q U H].
  assert (L : forall st, updHostData st j (numJobs hd) (numRUN hd) (numSSUSP hd) (numUSUSP hd) (numRESERVE hd) = updHostData_loop st j hd (hPtr j))
    by (intros; unfold updHostData; rewrite <- Z0; by destruct hd).
  unfold update. cbn zeta. destruct (part_q st E E C Ok P Q U H) as (C1 & P1 & S1 & Q1 & U1 & H1).
  destruct o; rewrite L.
  - destruct (part_u _ _ _ C1 Ok P1 Q1 U1 H1) as (C2 & P2 & S2 & Q2 & U2 & H2).
    destruct (part_h _ _ _ C2 Ok P2 Q2 U2 H2) as (C3 & P3 & S3 & Q3 & U3 & H3).
    split; [|congruence]. split; try done. by apply placed_moved.
  - destruct (part_h _ _ _ C1 Ok P1 Q1 U1 H1) as (C2 & P2 & S2 & Q2 & U2 & H2).
    destruct (part_u _ _ _ C2 Ok P2 Q2 U2 H2) as (C3 & P3 & S3 & Q3 & U3 & H3).
    split; [|congruence]. split; try done. by apply placed_moved.
Qed.

(** Without a change of units the hosts are exact as they are. *)
Lemma update0_ledger st : hd = czero -> ledger E st ->
  let st' := update0 getQUsable st j d in ledger E' st' /\ mSchedStage st' = mSchedStage st.
Proof.
  intros Z0 [C Ok P Q U H]. unfold update0. cbn zeta. destruct (part_q st E E C Ok P Q U H) as (C1 & P1 & S1 & Q1 & U1 & H1).
  destruct (part_u _ _ _ C1 Ok P1 Q1 U1 H1) as (C2 & P2 & S2 & Q2 & U2 & H2).
  split; [|congruence]. split; try done; [by apply placed_moved|].
  intros h hp Hh. destruct (H2 h hp Hh) as [A B]. split.
  - rewrite (charge_moved (wh h) e_hv E k e (moved e d hd) hd Ek), Z0 by done. autorewrite with counters. exact A.
  - intros L u. rewrite (charge_moved (whu h u) (started ∘ e_hv) E k e (moved e d hd) (started hd) Ek), Z0;
      [|done|cbn; by rewrite started_cadd]. autorewrite with counters. by apply B.
Qed.
End Step.

(** *** Entries that are not charged *)

(** Two entries for which every charge is the same. *)
Definition same_charges (e e' : entry) : Prop :=
  e_v e' = e_v e /\ e_hv e = czero /\ e_hv e' = czero /\ (e_v e = czero \/ e_q e' = e_q e /\ e_u e' = e_u e).

Lemma same_charges_terms e e' : same_charges e e' ->
  (forall w, cscale (w e') (e_hv e') = cscale (w e) (e_hv e)) /\ (forall w, cscale (w e') (started (e_hv e')) = cscale (w e) (started (e_hv e)))
  /\ (forall q, cscale (wq q e') (e_v e') = cscale (wq q e) (e_v e))
  /\ (forall q u, cscale (wqu q u e') (no_jobs (e_v e')) = cscale (wqu q u e) (no_jobs (e_v e)))
  /\ (forall u, cscale (wu u e') (e_v e') = cscale (wu u e) (e_v e)).
Proof.
  intros (V & H & H' & K). rewrite H, H', V. change (started czero) with czero. split_and!; intros; rewrite ?cscale_0_r; try done.
  - destruct K as [K|[K1 K2]]; [rewrite K; by rewrite !cscale_0_r|unfold wq; by rewrite K1].
  - destruct K as [K|[K1 K2]]; [rewrite K; change (no_jobs czero) with czero; by rewrite !cscale_0_r|unfold wqu, wq; by rewrite K1, K2].
  - destruct K as [K|[K1 K2]]; [rewrite K; by rewrite !cscale_0_r|unfold wu; by rewrite K2].
Qed.

(** The tables stay exact when every sum is the same. *)
Record same_sums (E F : entries) : Prop := {
  s_q : forall q, charge (wq q) e_v F = charge (wq q) e_v E;
  s_qu : forall q u, charge (wqu q u) (no_jobs ∘ e_v) F = charge (wqu q u) (no_jobs ∘ e_v) E;
  s_u : forall u, charge (wu u) e_v F = charge (wu u) e_v E;
  s_h : forall w, charge w e_hv F = charge w e_hv E;
  s_s : forall w, charge w (started ∘ e_hv) F = charge w (started ∘ e_hv) E }.

Lemma ledger_same_sums E F st : same_sums E F -> entries_ok F -> map_Forall (fun _ => placed st) F -> ledger E st -> ledger F st.
Proof.
  intros [s1 s2 s3 s4 s5] Ok P [C _ _ Q U H]. split; try done.
  - intros q qp Hq. destruct (Q q qp Hq) as (H1 & H2 & H3). split_and!; intros; by rewrite ?s1, ?s2, ?s5.
  - intros u up Hu. destruct (U u up Hu) as (H1 & H2). split; intros; rewrite ?s3, ?s5; [done|by apply H2].
  - intros h hp Hh. destruct (H h hp Hh) as (H1 & H2). split; intros; rewrite ?s4, ?s5; [done|by apply H2].
Qed.

Lemma same_sums_replace E k e e' : E !! k = Some e -> same_charges e e' -> same_sums E (<[k := e']> E).
Proof.
  intros Ek S. destruct (same_charges_terms e e' S) as (T1 & T2 & T3 & T4 & T5).
  split; intros; apply (csum_keep _ E k e); try done; cbn; auto.
Qed.

Lemma same_sums_insert E k e : E !! k = None -> e_v e = czero -> e_hv e = czero -> same_sums E (<[k := e]> E).
Proof.
  intros Ek V H. split; intros; unfold charge; rewrite csum_insert by done; cbn; rewrite ?V, ?H;
    change (no_jobs czero) with czero; change (started czero) with czero; by rewrite cscale_0_r, cadd_0_l.
Qed.

Lemma same_sums_delete E k e : E !! k = Some e -> e_v e = czero -> e_hv e = czero -> same_sums E (delete k E).
Proof.
  intros Ek V H. assert (D : delete k E !! k = None) by (by rewrite lookup_delete_eq).
  destruct (same_sums_insert (delete k E) k e D V H) as [s1 s2 s3 s4 s5]. rewrite insert_delete_id in * by done.
  by split.
Qed.
End Ledger.
