(* ===== verification/CounterTheorems.v ===== *)
(** * The counters are exact

    Every change of state of a job that the daemon makes keeps all counters equal
    to the sums over the jobs. *)
From stdpp Require Import base gmap list.
From Stdlib Require Import ZArith Ascii Lia.
From Corelib Require Import SpecFloat.
From S2P Require Import Prelude CNum Counters Ledger CounterInv.
Local Open Scope Z_scope.

(** ** States of jobs *)

(** The state without flags. *)
Definition known (s : Z) : Z := MASK_STATUS (Z.ldiff s JOB_STAT_UNKWN).
Definition KNOWN : Z := Eval vm_compute in Z.ldiff MASK_INT_JOB_STAT JOB_STAT_UNKWN.
Definition JOB_STAT_RWAIT : Z := Eval vm_compute in Z.lor JOB_STAT_RUN JOB_STAT_WAIT.
Abbreviation reserved j := (has (jStatus j) JOB_STAT_RESERVE).

Lemma known_land s : known s = Z.land s KNOWN.
Proof.
  unfold known, MASK_STATUS. rewrite <- (land_ldiff s JOB_STAT_UNKWN KNOWN) by done.
  apply Z.bits_inj'. intros n Hn. change KNOWN with (Z.ldiff MASK_INT_JOB_STAT JOB_STAT_UNKWN).
  rewrite !Z.land_spec, !Z.ldiff_spec. by destruct (Z.testbit s n), (Z.testbit JOB_STAT_UNKWN n), (Z.testbit MASK_INT_JOB_STAT n).
Qed.

Lemma has_known s x : Z.land KNOWN x = x -> has s x = has (known s) x.
Proof. intros H. unfold has. rewrite known_land, <- Z.land_assoc. by rewrite H. Qed.

Lemma known_ldiff s a : Z.land a KNOWN = 0 -> known (Z.ldiff s a) = known s.
Proof. intros H. rewrite !known_land. by apply land_ldiff. Qed.

Lemma known_lor s a : Z.land a KNOWN = 0 -> known (Z.lor s a) = known s.
Proof. intros H. rewrite !known_land, Z.land_lor_distr_l, H. apply Z.lor_0_r. Qed.

Lemma known_mask s : known (MASK_STATUS s) = known s.
Proof. rewrite !known_land. unfold MASK_STATUS. by rewrite <- Z.land_assoc. Qed.

Lemma known_set s n : known (SET_STATE s n) = known n.
Proof. rewrite !known_land. unfold SET_STATE. by rewrite Z.land_lor_distr_l, land_ldiff_all. Qed.

Lemma reserve_set s n : has (SET_STATE s (MASK_STATUS n)) JOB_STAT_RESERVE = has s JOB_STAT_RESERVE.
Proof.
  unfold SET_STATE. rewrite has_lor; [by rewrite has_ldiff|]. unfold MASK_STATUS. by rewrite <- Z.land_assoc, Z.land_0_r.
Qed.

(** ** Contributions *)

(** Slots in queues and of users, and units on each host, by state. *)
Definition pending (m : Z) : bool := (m =? JOB_STAT_PEND) || (m =? JOB_STAT_PSUSP).
Definition running (m : Z) : bool := (m =? JOB_STAT_RUN) || (m =? JOB_STAT_RWAIT).

Definition slots_at (m : Z) (r : bool) (num numReq : Z) : counters :=
  if pending m then if r then mkCnt numReq (numReq - num) 0 0 0 num else mkCnt numReq numReq 0 0 0 0
  else if running m then mkCnt num 0 num 0 0 0
  else if m =? JOB_STAT_SSUSP then if r then mkCnt num 0 0 0 0 num else mkCnt num 0 0 num 0 0
  else if m =? JOB_STAT_USUSP then if r then mkCnt num 0 0 0 0 num else mkCnt num 0 0 0 num 0
  else czero.
Definition units_at (m : Z) (r : bool) : counters :=
  if pending m then if r then mkCnt 1 0 0 0 0 1 else czero else slots_at m r 1 0.

Definition slots_of (j : jData) : counters := slots_at (known (jStatus j)) (reserved j) (numHostPtr j) (maxNumProcessors j).
Definition units_of (j : jData) : counters := units_at (known (jStatus j)) (reserved j).

Definition entry_of (j : jData) : entry :=
  mkE (qPtr j) (uPtr j) (hPtr j) (slots_of j) (units_of j) (maxNumProcessors j + numHostPtr j).
Abbreviation entries_of jobs := (entry_of <$> (jobs : gmap Z jData)).

(** A pending job has not more slots reserved than it asks for. *)
Definition job_ok (j : jData) : Prop :=
  0 <= maxNumProcessors j /\ (pending (known (jStatus j)) = true -> reserved j = true -> numHostPtr j <= maxNumProcessors j).

Lemma entry_of_ok j : job_ok j -> entry_ok (entry_of j).
Proof.
  intros [H1 H2]. assert (0 <= numHostPtr j) by (unfold numHostPtr; lia).
  unfold entry_ok, entry_of, slots_of, units_of, units_at, slots_at; cbn [e_v e_hv e_h e_size].
  destruct (pending (known (jStatus j))), (reserved j); try specialize (H2 eq_refl eq_refl);
    repeat case_match; unfold all_counters, czero, numHostPtr in *; cbn in *; lia.
Qed.

(** ** Updates of one job *)

Section Counters.
Variable anc : cstr -> list cstr.
Variable groups : list gData.
Variable local : cstr -> bool.
Variable getQUsable : mbd -> qData -> qUsable.
Abbreviation ledger := (CounterInv.ledger anc groups local).

(** The same job in another state. *)
Definition same_job (j j' : jData) : Prop :=
  userName j' = userName j /\ maxNumProcessors j' = maxNumProcessors j /\ qPtr j' = qPtr j /\ hPtr j' = hPtr j.

Lemma same_job_refl j : same_job j j.
Proof. done. Qed.
Lemma same_job_status j s : same_job j (set_jStatus j s).
Proof. done. Qed.

(** Exact counters, with job [k] in the state of [j]. *)
Definition exact_with (jobs : gmap Z jData) (k : Z) (j : jData) (stage : Z) (st : mbd) : Prop :=
  ledger (entries_of (<[k := j]> jobs)) st /\ mSchedStage st = stage.

Section Job.
Variables (jobs : gmap Z jData) (k stage : Z) (j j' jx : jData).
Hypotheses (Sj : same_job j j') (Sx : same_job j jx) (Okj : job_ok j').

Lemma moved_entry d hd : slots_of j' = cadd (slots_of j) d -> units_of j' = cadd (units_of j) hd ->
  entry_of j' = moved (entry_of j) d hd.
Proof.
  destruct Sj as (E1 & E2 & E3 & E4). intros D H. unfold entry_of, moved; cbn. rewrite D, H. unfold uPtr, numHostPtr. by rewrite E1, E2, E3, E4.
Qed.

Lemma moved_entries d hd st : slots_of j' = cadd (slots_of j) d -> units_of j' = cadd (units_of j) hd ->
  ledger (entries_of (<[k := j]> jobs)) st ->
  <[k := moved (entry_of j) d hd]> (entries_of (<[k := j]> jobs)) = entries_of (<[k := j']> jobs)
  /\ entries_ok anc groups (<[k := moved (entry_of j) d hd]> (entries_of (<[k := j]> jobs))).
Proof.
  intros D H L. rewrite <- (moved_entry d hd D H). split; [by rewrite !fmap_insert, insert_insert_eq|].
  destruct Sj as (E1 & E2 & E3 & E4). apply (entries_ok_replace _ _ _ k (entry_of j)).
  - by rewrite fmap_insert, lookup_insert_eq.
  - apply L.
  - by apply entry_of_ok.
  - unfold share, entry_of, uPtr, numHostPtr; cbn. by rewrite E1, E2, E4.
Qed.

Lemma step_update o st d hd : slots_of j' = cadd (slots_of j) d -> units_of j' = cadd (units_of j) hd ->
  hPtr j = [] \/ signs d = started hd -> numPEND hd = 0 -> exact_with jobs k j stage st ->
  exact_with jobs k j' stage (update getQUsable o st jx d (numJobs hd) (numRUN hd) (numSSUSP hd) (numUSUSP hd) (numRESERVE hd)).
Proof.
  intros D H Sg P [L S]. destruct (moved_entries d hd st D H L) as [E1 E2]. destruct Sx as (X1 & X2 & X3 & X4).
  assert (Ek : entries_of (<[k := j]> jobs) !! k = Some (entry_of j)) by (by rewrite fmap_insert, lookup_insert_eq).
  destruct (update_ledger anc groups local getQUsable _ k (entry_of j) d hd jx Ek E2 X3 X1 X4 Sg o st P L) as [L' S'].
  split; [by rewrite <- E1|congruence].
Qed.

Lemma step_update0 st d : slots_of j' = cadd (slots_of j) d -> units_of j' = units_of j ->
  signs d = czero -> exact_with jobs k j stage st -> exact_with jobs k j' stage (update0 getQUsable st jx d).
Proof.
  intros D H Sg [L S]. rewrite <- (cadd_0_r (units_of j)) in H. destruct (moved_entries d czero st D H L) as [E1 E2].
  destruct Sx as (X1 & X2 & X3 & X4).
  assert (Ek : entries_of (<[k := j]> jobs) !! k = Some (entry_of j)) by (by rewrite fmap_insert, lookup_insert_eq).
  destruct (update0_ledger anc groups local getQUsable _ k (entry_of j) d czero jx Ek E2 X3 X1 X4 (or_intror Sg) st eq_refl L) as [L' S'].
  split; [by rewrite <- E1|congruence].
Qed.

(** The contributions do not change. *)
Lemma step_none st : slots_of j' = slots_of j -> units_of j' = units_of j -> exact_with jobs k j stage st -> exact_with jobs k j' stage st.
Proof.
  intros D H [L S]. split; [|done]. rewrite <- (cadd_0_r (slots_of j)) in D. rewrite <- (cadd_0_r (units_of j)) in H.
  destruct (moved_entries czero czero st D H L) as [E1 _]. rewrite <- E1.
  replace (moved _ czero czero) with (entry_of j) by (unfold moved, entry_of; cbn; by rewrite !cadd_0_r).
  by rewrite insert_id by (by rewrite fmap_insert, lookup_insert_eq).
Qed.
End Job.

(** *** Changes of state *)

(** The changes that the daemon counts: those of jobs without a reservation, and
    those that end a reservation first. *)
Definition moves (r : bool) : list (Z * Z) :=
  if r then
    [(JOB_STAT_PEND, JOB_STAT_PSUSP); (JOB_STAT_PEND, JOB_STAT_EXIT); (JOB_STAT_PEND, JOB_STAT_DONE);
     (JOB_STAT_SSUSP, JOB_STAT_RUN); (JOB_STAT_SSUSP, JOB_STAT_USUSP); (JOB_STAT_SSUSP, JOB_STAT_EXIT);
     (JOB_STAT_SSUSP, JOB_STAT_DONE); (JOB_STAT_SSUSP, JOB_STAT_PEND);
     (JOB_STAT_USUSP, JOB_STAT_RUN); (JOB_STAT_USUSP, JOB_STAT_EXIT); (JOB_STAT_USUSP, JOB_STAT_DONE);
     (JOB_STAT_USUSP, JOB_STAT_PEND)]
  else
    [(JOB_STAT_PEND, JOB_STAT_PSUSP); (JOB_STAT_PSUSP, JOB_STAT_PEND);
     (JOB_STAT_PEND, JOB_STAT_RUN); (JOB_STAT_PSUSP, JOB_STAT_RUN); (JOB_STAT_PEND, JOB_STAT_SSUSP);
     (JOB_STAT_PEND, JOB_STAT_USUSP); (JOB_STAT_PEND, JOB_STAT_EXIT); (JOB_STAT_PEND, JOB_STAT_DONE);
     (JOB_STAT_PSUSP, JOB_STAT_EXIT); (JOB_STAT_PSUSP, JOB_STAT_DONE);
     (JOB_STAT_RUN, JOB_STAT_RWAIT); (JOB_STAT_RUN, JOB_STAT_SSUSP); (JOB_STAT_RUN, JOB_STAT_USUSP);
     (JOB_STAT_RUN, JOB_STAT_EXIT); (JOB_STAT_RUN, JOB_STAT_DONE); (JOB_STAT_RUN, JOB_STAT_PEND);
     (JOB_STAT_RWAIT, JOB_STAT_RUN); (JOB_STAT_RWAIT, JOB_STAT_SSUSP); (JOB_STAT_RWAIT, JOB_STAT_USUSP);
     (JOB_STAT_RWAIT, JOB_STAT_EXIT); (JOB_STAT_RWAIT, JOB_STAT_DONE); (JOB_STAT_RWAIT, JOB_STAT_PEND);
     (JOB_STAT_SSUSP, JOB_STAT_RUN); (JOB_STAT_SSUSP, JOB_STAT_USUSP); (JOB_STAT_SSUSP, JOB_STAT_EXIT);
     (JOB_STAT_SSUSP, JOB_STAT_DONE); (JOB_STAT_SSUSP, JOB_STAT_PEND);
     (JOB_STAT_USUSP, JOB_STAT_RUN); (JOB_STAT_USUSP, JOB_STAT_SSUSP); (JOB_STAT_USUSP, JOB_STAT_EXIT);
     (JOB_STAT_USUSP, JOB_STAT_DONE); (JOB_STAT_USUSP, JOB_STAT_PEND);
     (JOB_STAT_EXIT, JOB_STAT_DONE); (JOB_STAT_DONE, JOB_STAT_EXIT)].

(** The cases of a change of state. *)
Ltac move_cases H :=
  repeat (apply elem_of_cons in H as [H|H]; [injection H as -> ->|]); [..|by apply not_elem_of_nil in H].

(** Tests of known states are evaluated. *)
Ltac eval_states :=
  repeat match goal with
  | |- context [has ?a ?b] => is_const_status a; let v := eval vm_compute in (has a b) in change (has a b) with v
  | |- context [?a =? ?b] => is_const_status a; is_const_status b; let v := eval vm_compute in (a =? b) in change (a =? b) with v
  end; cbn [orb andb negb]
with is_const_status a :=
  lazymatch a with
  | JOB_STAT_PEND => idtac | JOB_STAT_PSUSP => idtac | JOB_STAT_RUN => idtac | JOB_STAT_SSUSP => idtac
  | JOB_STAT_USUSP => idtac | JOB_STAT_EXIT => idtac | JOB_STAT_DONE => idtac | JOB_STAT_RWAIT => idtac
  end.

(** The contributions of both states are compared, and the signs of the change
    with the units. *)
Ltac contributions :=
  unfold slots_of, units_of;
  repeat match goal with
  | H : known _ = _ |- _ => rewrite H
  | H : has (jStatus _) JOB_STAT_RESERVE = _ |- _ => rewrite H
  end;
  unfold units_at, slots_at, pending, running; eval_states; unfold cadd, czero; cbn;
  unfold numHostPtr in *; cbn;
  repeat match goal with
  | H : hPtr _ = hPtr _ |- _ => rewrite H
  | H : maxNumProcessors _ = maxNumProcessors _ |- _ => rewrite H
  end; try done; f_equal; lia.

Ltac sign_case :=
  match goal with
  | |- hPtr ?j = [] \/ _ =>
      destruct (hPtr j) eqn:?; [by left|right]; unfold signs, started, numHostPtr; cbn;
      repeat match goal with H : hPtr _ = _ |- _ => rewrite H end; cbn; f_equal; lia
  end.

Ltac by_update jb :=
  lazymatch goal with
  | |- exact_with _ _ _ _ (update _ ?o0 ?s0 _ ?d0 ?x1 ?x2 ?x3 ?x4 ?x5) =>
      eapply step_update with (j := jb) (o := o0) (st := s0) (d := d0) (hd := mkCnt x1 0 x2 x3 x4 x5);
      [done|done|done|contributions|contributions|sign_case|done|done]
  | |- exact_with _ _ _ _ (update0 _ ?s0 _ ?d0) =>
      eapply step_update0 with (j := jb) (st := s0) (d := d0); [done|done|done|contributions|contributions|done|done]
  | |- exact_with _ _ _ _ ?s0 =>
      eapply step_none with (j := jb) (st := s0); [done|done|contributions|contributions|done]
  end.

Lemma updCounters_step jobs k stage j1 j oldStatus st :
  same_job j1 j -> job_ok j -> known (jStatus j1) = known oldStatus -> reserved j1 = false -> reserved j = false ->
  (known oldStatus, known (jStatus j)) ∈ moves false -> exact_with jobs k j1 stage st ->
  exact_with jobs k j stage (updCounters getQUsable st j oldStatus).
Proof.
  intros Sj Okj Ho R1 R Hm X. unfold updCounters, IS_FINISH, IS_PEND. cbn zeta. fold (known (jStatus j)) (known oldStatus).
  rewrite !(has_known oldStatus), !(has_known (jStatus j)) by done.
  remember (known oldStatus) as m eqn:Em. remember (known (jStatus j)) as m' eqn:Em'. symmetry in Em'. clear Em.
  pose proof Sj as (S1 & S2 & S3 & S4).
  move_cases Hm; eval_states; by_update j1.
Qed.

(** The states of jobs, and the changes between them that [updCounters] does not
    count: it leaves all tables alone, although a job contributes different slots
    in the two states. *)
Definition job_states : list Z :=
  [JOB_STAT_PEND; JOB_STAT_PSUSP; JOB_STAT_RUN; JOB_STAT_RWAIT; JOB_STAT_SSUSP; JOB_STAT_USUSP; JOB_STAT_EXIT; JOB_STAT_DONE].

Definition uncounted (a b : Z) : Prop :=
  a ∈ job_states /\ b ∈ job_states /\ a <> b /\ (a, b) ∉ moves false.

(** Written out. *)
Definition uncounted_moves : list (Z * Z) :=
  [(JOB_STAT_PEND, JOB_STAT_RWAIT); (JOB_STAT_PSUSP, JOB_STAT_RWAIT); (JOB_STAT_PSUSP, JOB_STAT_SSUSP);
   (JOB_STAT_PSUSP, JOB_STAT_USUSP); (JOB_STAT_RUN, JOB_STAT_PSUSP); (JOB_STAT_RWAIT, JOB_STAT_PSUSP);
   (JOB_STAT_SSUSP, JOB_STAT_PSUSP); (JOB_STAT_SSUSP, JOB_STAT_RWAIT); (JOB_STAT_USUSP, JOB_STAT_PSUSP);
   (JOB_STAT_USUSP, JOB_STAT_RWAIT);
   (JOB_STAT_EXIT, JOB_STAT_PEND); (JOB_STAT_EXIT, JOB_STAT_PSUSP); (JOB_STAT_EXIT, JOB_STAT_RUN);
   (JOB_STAT_EXIT, JOB_STAT_RWAIT); (JOB_STAT_EXIT, JOB_STAT_SSUSP); (JOB_STAT_EXIT, JOB_STAT_USUSP);
   (JOB_STAT_DONE, JOB_STAT_PEND); (JOB_STAT_DONE, JOB_STAT_PSUSP); (JOB_STAT_DONE, JOB_STAT_RUN);
   (JOB_STAT_DONE, JOB_STAT_RWAIT); (JOB_STAT_DONE, JOB_STAT_SSUSP); (JOB_STAT_DONE, JOB_STAT_USUSP)].

Lemma uncounted_cases a b : uncounted a b -> (a, b) ∈ uncounted_moves.
Proof.
  intros (Ha & Hb & N & M).
  assert (B : forall x y, x ∈ job_states -> y ∈ job_states ->
    bool_decide (x = y) || bool_decide ((x, y) ∈ moves false) || bool_decide ((x, y) ∈ uncounted_moves) = true).
  { intros x y Hx Hy. repeat (apply elem_of_cons in Hx as [->|Hx]; [|]); [..|by apply not_elem_of_nil in Hx];
      (repeat (apply elem_of_cons in Hy as [->|Hy]; [vm_compute; reflexivity|]); by apply not_elem_of_nil in Hy). }
  specialize (B a b Ha Hb). rewrite !orb_true_iff, !bool_decide_eq_true in B. tauto.
Qed.

Lemma uncounted_nothing a b st j oldStatus : uncounted a b -> known oldStatus = a -> known (jStatus j) = b ->
  updCounters getQUsable st j oldStatus = st.
Proof.
  intros H%uncounted_cases <- Hb. unfold updCounters, IS_FINISH, IS_PEND. cbn zeta. fold (known (jStatus j)) (known oldStatus).
  rewrite !(has_known oldStatus), !(has_known (jStatus j)) by done. rewrite Hb.
  remember (known oldStatus) as m eqn:Em. clear Em Hb. move_cases H; done.
Qed.

Lemma uncounted_differ a b num numReq : uncounted a b -> 0 < num -> 0 < numReq ->
  slots_at a false num numReq <> slots_at b false num numReq.
Proof. intros H%uncounted_cases Hn Hr. move_cases H; cbn; intros [=]; lia. Qed.

(** *** Reservations *)

Definition reservable : list Z := [JOB_STAT_PEND; JOB_STAT_PSUSP; JOB_STAT_SSUSP; JOB_STAT_USUSP].

Abbreviation without j := (set_jStatus j (Z.ldiff (jStatus j) JOB_STAT_RESERVE)).
Abbreviation with_reserve j := (set_jStatus j (Z.lor (jStatus j) JOB_STAT_RESERVE)).

Lemma reserve_without s : has (Z.ldiff s JOB_STAT_RESERVE) JOB_STAT_RESERVE = false.
Proof. unfold has. by rewrite land_ldiff_all. Qed.
Lemma reserve_with s : has (Z.lor s JOB_STAT_RESERVE) JOB_STAT_RESERVE = true.
Proof.
  unfold has. apply negb_true_iff, Z.eqb_neq. intros H. assert (B : Z.testbit (Z.land (Z.lor s JOB_STAT_RESERVE) JOB_STAT_RESERVE) 29 = false)
    by (rewrite H; apply Z.testbit_0_l).
  rewrite Z.land_spec, Z.lor_spec in B. by destruct (Z.testbit s 29).
Qed.

Lemma job_ok_without j : job_ok j -> job_ok (without j).
Proof. intros [H _]. split; [done|]. cbn. by rewrite reserve_without. Qed.

Ltac known_cases H :=
  repeat (apply elem_of_cons in H as [H|H]; [|]); [..|by apply not_elem_of_nil in H].

Lemma updRes_free jobs k stage j st : reserved j = true -> known (jStatus j) ∈ reservable -> job_ok j ->
  exact_with jobs k j stage st ->
  exact_with jobs k (without j) stage (updResCounters getQUsable st j (Z.ldiff (jStatus j) JOB_STAT_RESERVE)).
Proof.
  intros R Hm Okj X. assert (R' : reserved (without j) = false) by apply reserve_without.
  assert (K' : known (jStatus (without j)) = known (jStatus j)) by (by apply known_ldiff).
  pose proof (job_ok_without j Okj) as Okj'. pose proof (same_job_status j (Z.ldiff (jStatus j) JOB_STAT_RESERVE)) as Sj.
  unfold updResCounters, IS_START, IS_PEND, IS_FINISH. cbn zeta. fold (known (jStatus j)).
  rewrite reserve_without, R, !(has_known (Z.ldiff (jStatus j) _)), known_ldiff, !(has_known (jStatus j)) by done.
  known_cases Hm; rewrite Hm; eval_states; by_update j.
Qed.

Lemma updRes_set jobs k stage j st : reserved j = false -> known (jStatus j) ∈ reservable -> job_ok (with_reserve j) ->
  exact_with jobs k j stage st ->
  exact_with jobs k (with_reserve j) stage (updResCounters getQUsable st j (Z.lor (jStatus j) JOB_STAT_RESERVE)).
Proof.
  intros R Hm Okj' X. assert (R' : reserved (with_reserve j) = true) by apply reserve_with.
  assert (K' : known (jStatus (with_reserve j)) = known (jStatus j)) by (by apply known_lor).
  pose proof (same_job_status j (Z.lor (jStatus j) JOB_STAT_RESERVE)) as Sj.
  unfold updResCounters, IS_START, IS_PEND, IS_FINISH. cbn zeta. fold (known (jStatus j)).
  rewrite reserve_with, R, !(has_known (Z.lor (jStatus j) _)), known_lor, !(has_known (jStatus j)) by done.
  known_cases Hm; rewrite Hm; eval_states; by_update j.
Qed.

(** *** Hosts are given back *)

(** A job that charges no host can get other hosts. *)
Lemma set_hosts_step jobs k stage j hs st : units_of j = czero -> slots_of (set_hPtr j hs) = slots_of j ->
  Forall (fun h => is_Some (hosts st !! h)) hs -> entries_ok anc groups (entries_of (<[k := set_hPtr j hs]> jobs)) ->
  exact_with jobs k j stage st -> exact_with jobs k (set_hPtr j hs) stage st.
Proof.
  intros H D X Ok [L S]. split; [|done]. assert (Ek : entries_of (<[k := j]> jobs) !! k = Some (entry_of j)) by (by rewrite fmap_insert, lookup_insert_eq).
  assert (Er : <[k := entry_of (set_hPtr j hs)]> (entries_of (<[k := j]> jobs)) = entries_of (<[k := set_hPtr j hs]> jobs))
    by (by rewrite !fmap_insert, insert_insert_eq).
  apply (ledger_same_sums anc groups local (entries_of (<[k := j]> jobs))); [|done| |done].
  - rewrite <- Er. apply (same_sums_replace anc groups _ k (entry_of j)); [done|]. split_and!; [done|done|done|by right].
  - rewrite <- Er. apply map_Forall_insert_2; [|apply L]. split; [|done]. by destruct (l_placed _ _ _ _ _ L k _ Ek).
Qed.

Lemma no_hosts_ok jobs k j : entries_ok anc groups (entries_of (<[k := j]> jobs)) -> job_ok j ->
  entries_ok anc groups (entries_of (<[k := set_hPtr j []]> jobs)).
Proof.
  intros Ok [H1 H2].
  assert (Er : <[k := entry_of (set_hPtr j [])]> (entries_of (<[k := j]> jobs)) = entries_of (<[k := set_hPtr j []]> jobs))
    by (by rewrite !fmap_insert, insert_insert_eq).
  rewrite <- Er. apply (entries_ok_replace _ _ _ k (entry_of j)); [by rewrite fmap_insert, lookup_insert_eq|done| |].
  - apply entry_of_ok. split; [done|]. intros. cbn. unfold numHostPtr. cbn. done.
  - unfold share. apply Z.mul_le_mono_nonneg_l; [cbn [e_u entry_of]; lia|]. cbn. unfold numHostPtr. cbn. lia.
Qed.

(** Changes of hosts that leave the counters alone. *)
Definition hview (hp : hData) : Z * bool * counters * gmap cstr userAcct := (hkey hp, h_cnt hp, h_uAcct hp).

Lemma hosts_ledger E st hs : (forall h, hview <$> hs !! h = hview <$> hosts st !! h) ->
  ledger E st -> ledger E (set_hosts hs st).
Proof.
  intros V [C Ok P Q U Hx]. assert (Fr : frame_h st (set_hosts hs st)).
  { split_and!; try done. intros h. cbn. specialize (V h). destruct (hs !! h), (hosts st !! h); cbn in *; try done. unfold hview in V. congruence. }
  split; [by apply (conf_frame _ _ _ st)|done| | | |].
  - by apply (all_placed_frame _ st).
  - by apply (queues_exact_frame _ _ _ st).
  - by apply (users_exact_frame _ _ _ st).
  - intros h hp Hh. specialize (V h). cbn in Hh. rewrite Hh in V. destruct (hosts st !! h) as [hp0|] eqn:E0; [|done].
    cbn in V. unfold hview in V. assert (hkey hp = hkey hp0 /\ h_cnt hp = h_cnt hp0 /\ h_uAcct hp = h_uAcct hp0) as (K & K1 & K2) by (split_and!; congruence).
    destruct (Hx h hp0 E0) as [A B]. unfold hkey in K. injection K as K _. split; [by rewrite K1|]. intros Lu u. rewrite K2. apply B. by rewrite <- K.
Qed.

Lemma alter_views (f : hData -> hData) (l : list cstr) (m : gmap cstr hData) (h : cstr) : (forall hp, hview (f hp) = hview hp) ->
  hview <$> fold_left (fun m h => alter f h m) l m !! h = hview <$> m !! h.
Proof.
  intros F. revert m; induction l as [|h' l IH]; intros m; [done|]. cbn. rewrite IH.
  destruct (decide (h' = h)) as [->|N]; [|by rewrite lookup_alter_ne]. rewrite lookup_alter_eq. destruct (m !! h); cbn; [by rewrite F|done].
Qed.

Lemma deallocHosts_step jobs k stage j st : units_of j = czero -> slots_of (set_hPtr j []) = slots_of j -> job_ok j ->
  exact_with jobs k j stage st -> exact_with jobs k (snd (deallocHosts st j)) stage (fst (deallocHosts st j)).
Proof.
  intros H D Okj [L S]. cbn. apply set_hosts_step; [done|done|by constructor|apply no_hosts_ok; [apply L|done]|]. split; [|done].
  apply hosts_ledger; [|done]. intros h. by apply alter_views.
Qed.

Lemma freeReserve_step jobs k stage j st : reserved j = true -> pending (known (jStatus j)) = true -> job_ok j ->
  exact_with jobs k j stage st ->
  let r := freeReserveSlots getQUsable st j in exact_with jobs k (snd r) stage (fst r) /\ snd r = set_hPtr (without j) [].
Proof.
  intros R Pm Okj X. unfold freeReserveSlots. rewrite R. cbn zeta. cbn [negb]. split; [|done].
  assert (Hm : known (jStatus j) ∈ reservable).
  { unfold pending in Pm. apply orb_true_iff in Pm as [Pm|Pm]; apply Z.eqb_eq in Pm; rewrite Pm; unfold reservable; set_solver. }
  assert (K' : known (jStatus (without j)) = known (jStatus j)) by (by apply known_ldiff).
  assert (U : units_of (without j) = czero) by (unfold units_of, units_at; rewrite K', Pm; cbn; by rewrite reserve_without).
  apply deallocHosts_step; [done| |by apply job_ok_without|by apply updRes_free].
  unfold slots_of, slots_at. cbn. cbn in K'. by rewrite K', Pm, reserve_without.
Qed.

(** *** [jStatusChange] *)

Lemma moves_differ r m m' : (m, m') ∈ moves r -> m' <> m.
Proof. intros H. destruct r; move_cases H; done. Qed.

Lemma moves_reset m m' : (m, m') ∈ moves true -> (m, m') ∈ moves false /\ m ∈ reservable.
Proof. intros H. move_cases H; (split; [unfold moves|unfold reservable]); set_solver. Qed.

(** A job without a reservation has nothing to reset; the flags of the state do
    not matter. *)
Definition in_state (m : Z) (j : jData) : Prop := known (jStatus j) = m /\ reserved j = false.

Lemma in_state_ldiff m j a : Z.land a KNOWN = 0 -> Z.land a JOB_STAT_RESERVE = 0 -> in_state m j ->
  in_state m (set_jStatus j (Z.ldiff (jStatus j) a)).
Proof. intros H1 H2 [K R]. split; cbn; [by rewrite known_ldiff|by rewrite has_ldiff]. Qed.

Lemma in_state_ok m j : in_state m j -> 0 <= maxNumProcessors j -> job_ok j.
Proof. intros [_ R] H. split; [done|]. by rewrite R. Qed.

Lemma pending_no_units m j : in_state m j -> pending m = true ->
  units_of j = czero /\ forall hs, slots_of (set_hPtr j hs) = slots_of j.
Proof.
  intros [K R] P. unfold units_of, slots_of, units_at, slots_at. cbn. rewrite K, R, P. done.
Qed.

Lemma resetReserve_step jobs k stage j n st : reserved j = true -> job_ok j -> (known (jStatus j), known n) ∈ moves true ->
  exact_with jobs k j stage st ->
  let r := resetReserve getQUsable st j n in
  exact_with jobs k (snd r) stage (fst r) /\ in_state (known (jStatus j)) (snd r) /\ maxNumProcessors (snd r) = maxNumProcessors j.
Proof.
  intros R Okj Hm X. destruct (moves_reset _ _ Hm) as [_ Hr].
  assert (W : in_state (known (jStatus j)) (without j)) by (split; [by apply known_ldiff|apply reserve_without]).
  unfold resetReserve, IS_FINISH, IS_START. rewrite R. cbn zeta. cbn [negb].
  rewrite !(has_known n), (has_known (jStatus j)) by done.
  remember (known (jStatus j)) as m eqn:Em. remember (known n) as m' eqn:En. symmetry in Em.
  destruct (pending m) eqn:Pm.
  - destruct (freeReserve_step jobs k stage j st R) as [X1 Ej]; [by rewrite Em|done|done|].
    destruct (freeReserveSlots getQUsable st j) as [st1 j1]. cbn in X1, Ej. subst j1.
    assert (Es : Z.ldiff (Z.ldiff (jStatus j) JOB_STAT_RESERVE) JOB_STAT_RESERVE = Z.ldiff (jStatus j) JOB_STAT_RESERVE).
    { apply Z.bits_inj'. intros i Hi. rewrite !Z.ldiff_spec. by destruct (Z.testbit (jStatus j) i), (Z.testbit JOB_STAT_RESERVE i). }
    assert (W1 : known (Z.ldiff (jStatus j) JOB_STAT_RESERVE) = m) by apply W.
    move_cases Hm; try done; eval_states; cbn;
      rewrite Es, !(has_known (Z.ldiff (jStatus j) JOB_STAT_RESERVE)), W1 by done; eval_states; done.
  - assert (X1 : exact_with jobs k (without j) stage (updResCounters getQUsable st j (Z.ldiff (jStatus j) JOB_STAT_RESERVE)))
      by (apply updRes_free; [done|by rewrite Em|done|done]).
    move_cases Hm; try done; eval_states; cbn; rewrite !(has_known (jStatus j)), Em by done; eval_states; done.
Qed.

Lemma jStatusChange_step mig jobs k stage j s st : job_ok j -> (known (jStatus j), known s) ∈ moves (reserved j) ->
  exact_with jobs k j stage st ->
  let r := jStatusChange getQUsable mig st j s in exact_with jobs k (snd r) stage (fst r) /\ job_ok (snd r).
Proof.
  intros Okj Hm X. unfold jStatusChange. cbn zeta. fold (known s) (known (jStatus j)).
  rewrite (proj2 (Z.eqb_neq _ _) (moves_differ _ _ _ Hm)).
  assert (Y : exists st1 j1, (if reserved j then resetReserve getQUsable st j (MASK_STATUS s) else (st, j)) = (st1, j1)
     /\ exact_with jobs k j1 stage st1 /\ in_state (known (jStatus j)) j1 /\ maxNumProcessors j1 = maxNumProcessors j).
  { destruct (reserved j) eqn:R; [|by exists st, j].
    assert (Hm' : (known (jStatus j), known (MASK_STATUS s)) ∈ moves true) by (by rewrite known_mask).
    pose proof (resetReserve_step jobs k stage j _ st R Okj Hm' X) as Y. destruct (resetReserve _ _ _ _) as [st1 j1]. by exists st1, j1. }
  destruct Y as (st1 & j1 & -> & X1 & [K1 R1] & M1).
  assert (Hm0 : (known (jStatus j), known s) ∈ moves false) by (destruct (reserved j); [by apply moves_reset|done]).
  set (j2 := set_jStatus j1 _).
  assert (I2 : in_state (known s) j2) by (split; cbn; [by rewrite known_set, known_mask|by rewrite reserve_set]).
  match goal with |- context [let '(a, b) := ?t in _] => set (pr := t) end.
  assert (Y : in_state (known s) (fst pr) /\ same_job j1 (fst pr) /\ (snd pr = true -> pending (known s) = true)).
  { assert (Pf : has (MASK_STATUS s) JOB_STAT_PEND = true -> pending (known s) = true).
    { rewrite has_known, known_mask by done. clear -Hm0. remember (known (jStatus j)) as m. remember (known s) as m'.
      move_cases Hm0; done. }
    unfold pr. repeat case_match; simplify_eq; cbn; (split; [|split; [done|intros; try done]]);
      repeat (apply in_state_ldiff; [done..|]); try exact I2; try (by bool_split; auto).
    - apply (in_state_ldiff _ (set_jStatus j2 (Z.ldiff (jStatus j2) JOB_STAT_MIG))); [done..|]. by apply in_state_ldiff. }
  destruct pr as [j3 fe]. cbn in Y. destruct Y as (I3 & S3 & F3).
  assert (O3 : job_ok j3) by (apply (in_state_ok (known s)); [done|]; destruct S3 as (_ & -> & _); rewrite M1; apply Okj).
  assert (X3 : exact_with jobs k j3 stage (updCounters getQUsable st1 j3 (jStatus j))).
  { destruct I3 as [K3 R3]. apply (updCounters_step jobs k stage j1); try done. by rewrite K3. }
  destruct fe; [|done]. cbn. destruct (pending_no_units _ j3 I3 (F3 eq_refl)) as [U3 D3].
  split; [|split; [apply O3|]; cbn; by destruct I3 as [_ ->]].
  apply set_hosts_step; [done|done|by constructor|apply no_hosts_ok; [apply X3|done]|done].
Qed.

(** *** Jobs that enter, leave and move *)

(** The entry of a job before it is charged. *)
Definition uncharged (j : jData) : entry :=
  mkE (qPtr j) (uPtr j) (hPtr j) czero czero (maxNumProcessors j + numHostPtr j).

Definition exact_entry (E : entries) (k : Z) (e : entry) (stage : Z) (st : mbd) : Prop :=
  ledger (<[k := e]> E) st /\ mSchedStage st = stage.

Lemma exact_with_entry jobs k j stage st : exact_with jobs k j stage st <-> exact_entry (entries_of jobs) k (entry_of j) stage st.
Proof. unfold exact_with, exact_entry. by rewrite fmap_insert. Qed.

Lemma uncharged_ok j : job_ok j -> entry_ok (uncharged j).
Proof.
  intros [H _]. unfold entry_ok, uncharged, all_counters, numHostPtr; cbn. lia.
Qed.

Section Entry.
Variables (E : entries) (k stage : Z) (e : entry) (j : jData) (d hd : counters).
Hypotheses (Jq : qPtr j = e_q e) (Ju : uPtr j = e_u e) (Jh : hPtr j = e_h e).
Hypothesis Ok' : entry_ok (moved e d hd).

Lemma entry_moved st : exact_entry E k e stage st ->
  <[k := e]> E !! k = Some e /\ entries_ok anc groups (<[k := moved e d hd]> (<[k := e]> E)).
Proof.
  intros [L _]. split; [by rewrite lookup_insert_eq|]. apply (entries_ok_replace _ _ _ k e); [by rewrite lookup_insert_eq|apply L|done|done].
Qed.

Lemma entry_update o st : e_h e = [] \/ signs d = started hd -> numPEND hd = 0 -> exact_entry E k e stage st ->
  exact_entry E k (moved e d hd) stage (update getQUsable o st j d (numJobs hd) (numRUN hd) (numSSUSP hd) (numUSUSP hd) (numRESERVE hd)).
Proof.
  intros Sg P X. destruct (entry_moved st X) as [Ek Ok2]. destruct X as [L S].
  destruct (update_ledger anc groups local getQUsable _ k e d hd j Ek Ok2 Jq Ju Jh Sg o st P L) as [L' S'].
  split; [by rewrite insert_insert_eq in L'|congruence].
Qed.

Lemma entry_update0 st : hd = czero -> signs d = czero -> exact_entry E k e stage st ->
  exact_entry E k (moved e d hd) stage (update0 getQUsable st j d).
Proof.
  intros Z0 Sg X. destruct (entry_moved st X) as [Ek Ok2]. destruct X as [L S].
  assert (Sg' : e_h e = [] \/ signs d = started hd) by (right; by rewrite Z0).
  destruct (update0_ledger anc groups local getQUsable _ k e d hd j Ek Ok2 Jq Ju Jh Sg' st Z0 L) as [L' S'].
  split; [by rewrite insert_insert_eq in L'|congruence].
Qed.
End Entry.

(** An entry that charges nothing is replaced by another. *)
Lemma entry_replace E k stage e e' st : same_charges e e' -> entry_ok e' -> share anc groups e' <= share anc groups e -> placed st e' ->
  exact_entry E k e stage st -> exact_entry E k e' stage st.
Proof.
  intros Sc Oe Se Pe [L S]. split; [|done]. assert (Ek : <[k := e]> E !! k = Some e) by (by rewrite lookup_insert_eq).
  rewrite <- (insert_insert_eq E k e' e). apply (ledger_same_sums anc groups local (<[k := e]> E)); [| | |done].
  - by apply (same_sums_replace anc groups _ k e).
  - by apply (entries_ok_replace _ _ _ k e); [|apply L|..].
  - apply map_Forall_insert_2; [done|apply L].
Qed.

(** A pending job that is not charged yet. *)
Lemma charge_pending E k stage j st : in_state JOB_STAT_PEND j \/ in_state JOB_STAT_PSUSP j -> 0 <= maxNumProcessors j ->
  exact_entry E k (uncharged j) stage st ->
  exact_entry E k (entry_of j) stage (update0 getQUsable st j (mkCnt (maxNumProcessors j) (maxNumProcessors j) 0 0 0 0)).
Proof.
  intros I H X. set (d := mkCnt _ _ _ _ _ _).
  assert (Ej : entry_of j = moved (uncharged j) d czero).
  { unfold entry_of, moved, slots_of, units_of, units_at, slots_at. cbn. rewrite !cadd_0_l. destruct I as [[-> ->]|[-> ->]]; done. }
  assert (Oj : job_ok j) by (destruct I as [I|I]; by eapply in_state_ok).
  rewrite Ej. apply entry_update0; try done. rewrite <- Ej. by apply entry_of_ok.
Qed.

Lemma uncharge_pending E k stage j st : in_state JOB_STAT_PEND j \/ in_state JOB_STAT_PSUSP j -> 0 <= maxNumProcessors j ->
  exact_entry E k (entry_of j) stage st ->
  exact_entry E k (uncharged j) stage (update0 getQUsable st j (mkCnt (- maxNumProcessors j) (- maxNumProcessors j) 0 0 0 0)).
Proof.
  intros I H X. set (d := mkCnt _ _ _ _ _ _). assert (Oj : job_ok j) by (destruct I as [I|I]; by eapply in_state_ok).
  assert (Ej : uncharged j = moved (entry_of j) d czero).
  { unfold uncharged, entry_of, moved, slots_of, units_of, units_at, slots_at. cbn.
    destruct I as [[-> ->]|[-> ->]]; cbn; unfold cadd; cbn; f_equal; unfold czero; f_equal; lia. }
  rewrite Ej. apply entry_update0; try done. rewrite <- Ej. by apply uncharged_ok.
Qed.

(** A new user has no jobs. *)
Lemma getUserData_ledger E u st : ledger E st -> ledger E (set_users (getUserData u (users st)) st).
Proof.
  intros L. destruct (users st !! u) as [up|] eqn:Hu; [rewrite getUserData_id by (by eexists); by rewrite set_users_id|].
  assert (exists n p, getUserData u (users st) = <[u := new_user n p]> (users st)) as (n & p & ->).
  { unfold getUserData. rewrite Hu. destruct (users st !! default_name); by eexists _, _. }
  destruct L as [[c1 c2 c3 c4 c5] Ok P Q U H]. split; try done.
  - split; cbn; try done.
    + intros u'. rewrite <- c2. unfold user_ancestors. cbn. destruct (decide (u = u')) as [<-|N]; [by rewrite lookup_insert_eq, Hu|by rewrite lookup_insert_ne].
    + intros g Hg. destruct (decide (u = group g)) as [->|N]; [rewrite lookup_insert_eq; by eexists|rewrite lookup_insert_ne by done; by apply c4].
    + intros u' up'. destruct (decide (u = u')) as [<-|N]; [rewrite lookup_insert_eq; by intros [= <-]|rewrite lookup_insert_ne by done; apply c5].
  - intros i e Hi. apply (placed_mono st); [|done|by apply (P i)]. intros u' [up' Hu']. cbn.
    rewrite lookup_insert_ne by congruence. by eexists.
  - intros u' up'. cbn. destruct (decide (u = u')) as [<-|N]; [|rewrite lookup_insert_ne by done; apply U].
    rewrite lookup_insert_eq. intros [= <-].
    assert (W : forall i e, E !! i = Some e -> wu groups u e = 0).
    { intros i e Hi. unfold wu, payers. apply occ_0. rewrite not_elem_of_cons. split.
      - intros ->. destruct (P i e Hi) as [[? X] _]. congruence.
      - intros Hg. apply list_elem_of_In, in_map_iff in Hg as (g & <- & Hg). apply List.filter_In in Hg as [Hg _].
        destruct (c4 g) as [? X]; [by apply list_elem_of_In|congruence]. }
    split; [|intros _ h]; symmetry; apply csum_zero; intros i e Hi; cbn; unfold wuh; rewrite (W i e Hi); apply cscale_0_l.
Qed.

Definition replaying (stage : Z) : bool := stage =? M_STAGE_REPLAY.

Lemma handleNewJob_step jobs k stage j st : ledger (entries_of jobs) st -> mSchedStage st = stage -> replaying stage = false ->
  jobs !! k = None -> in_state JOB_STAT_PEND j \/ in_state JOB_STAT_PSUSP j -> hPtr j = [] -> 0 <= maxNumProcessors j ->
  entries_ok anc groups (entries_of (<[k := j]> jobs)) -> exact_with jobs k j stage (handleNewJob getQUsable st j).
Proof.
  intros L S R Hk I Hh H Ok. unfold handleNewJob. cbn zeta.
  apply (getUserData_ledger _ (userName j)) in L. set (st0 := set_users _ st) in *.
  assert (S0 : mSchedStage st0 = stage) by done. rewrite S0. unfold replaying in R. rewrite R.
  apply exact_with_entry. apply charge_pending; [done|done|]. split; [|done].
  assert (Ek : entries_of jobs !! k = None) by (by rewrite lookup_fmap, Hk).
  apply (ledger_same_sums anc groups local (entries_of jobs)); [by apply same_sums_insert| | |done].
  - rewrite fmap_insert in Ok. rewrite <- (insert_insert_eq (entries_of jobs) k (uncharged j) (entry_of j)).
    apply (entries_ok_replace _ _ _ k (entry_of j)); [by rewrite lookup_insert_eq|done| |done].
    apply uncharged_ok. destruct I as [I|I]; by eapply in_state_ok.
  - apply map_Forall_insert_2; [|apply L]. split; cbn; [|by rewrite Hh].
    unfold getUserData. destruct (users st !! userName j) eqn:E1; [by eexists|].
    destruct (users st !! default_name); rewrite lookup_insert_eq; by eexists.
Qed.

Definition finished (m : Z) : Prop := m = JOB_STAT_EXIT \/ m = JOB_STAT_DONE.

Lemma finished_zero j : finished (known (jStatus j)) -> slots_of j = czero /\ units_of j = czero.
Proof. unfold slots_of, units_of. by intros [-> | ->]; destruct (reserved j). Qed.

Lemma handleRequeueJob_step jobs k stage j psusp st : finished (known (jStatus j)) -> replaying stage = false -> 0 <= maxNumProcessors j ->
  exact_with jobs k j stage st ->
  let r := handleRequeueJob getQUsable st j psusp in exact_with jobs k (snd r) stage (fst r) /\ job_ok (snd r).
Proof.
  intros F R H [L S]. destruct (finished_zero j F) as [V U]. unfold handleRequeueJob. cbn zeta. set (j' := set_hPtr _ _).
  rewrite S. unfold replaying in R. rewrite R. cbn [fst snd].
  assert (I : in_state JOB_STAT_PEND j' \/ in_state JOB_STAT_PSUSP j') by (unfold j'; destruct psusp; [right|left]; done).
  assert (Oj : job_ok j') by (destruct I as [I|I]; by eapply in_state_ok).
  split; [|done]. apply exact_with_entry. change (maxNumProcessors j') with (maxNumProcessors j).
  apply (charge_pending _ _ _ j'); [done|done|]. apply (entry_replace _ _ _ (entry_of j)).
  - split_and!; [cbn; by rewrite V|done|done|by left].
  - by apply uncharged_ok.
  - unfold share. apply Z.mul_le_mono_nonneg_l; [cbn [e_u uncharged]; lia|]. cbn. unfold numHostPtr. cbn. lia.
  - split; [|by constructor]. destruct (l_placed _ _ _ _ _ L k (entry_of j)) as [P _]; [by rewrite fmap_insert, lookup_insert_eq|exact P].
  - by apply exact_with_entry.
Qed.

(** *** Another queue *)

(** The states in which a job is moved. *)
Definition switchable (s : Z) : Prop :=
  MASK_STATUS s ∈ [JOB_STAT_PEND; JOB_STAT_PSUSP; JOB_STAT_RUN; Z.lor JOB_STAT_RUN JOB_STAT_UNKWN; JOB_STAT_SSUSP;
                   Z.lor JOB_STAT_SSUSP JOB_STAT_UNKWN; JOB_STAT_USUSP; Z.lor JOB_STAT_USUSP JOB_STAT_UNKWN].

(** A started job: its slots and units, taken from one queue and given to
    another. *)
Lemma move_started jobs k stage j q st d hd (v := slots_of j) (hv := units_of j) :
  job_ok j -> reserved j = false -> pending (known (jStatus j)) = false -> numPEND hv = 0 -> hPtr j = [] \/ signs v = started hv ->
  d = cscale (-1) v -> hd = cscale (-1) hv -> exact_with jobs k j stage st ->
  exact_with jobs k (set_qPtr j q) stage
    (update getQUsable QHU (update getQUsable QHU st j d (numJobs hd) (numRUN hd) (numSSUSP hd) (numUSUSP hd) (numRESERVE hd))
       (set_qPtr j q) v (numJobs hv) (numRUN hv) (numSSUSP hv) (numUSUSP hv) (numRESERVE hv)).
Proof.
  intros Oj R P Hp Sg -> -> X. apply exact_with_entry in X. apply exact_with_entry.
  assert (E1 : moved (entry_of j) (cscale (-1) v) (cscale (-1) hv) = uncharged j).
  { unfold moved, uncharged, entry_of, v, hv. cbn [e_q e_u e_h e_v e_hv e_size]. f_equal; destruct (slots_of j), (units_of j); unfold cadd, cscale, czero; cbn; f_equal; lia. }
  assert (E2 : entry_of (set_qPtr j q) = moved (uncharged (set_qPtr j q)) v hv)
    by (unfold moved, uncharged, entry_of; cbn; by rewrite !cadd_0_l).
  assert (Oj' : job_ok (set_qPtr j q)) by exact Oj.
  set (st1 := update getQUsable QHU st j _ _ _ _ _ _).
  assert (X1 : exact_entry (entries_of jobs) k (uncharged j) stage st1).
  { rewrite <- E1. apply entry_update; try done.
    - rewrite E1. by apply uncharged_ok.
    - destruct Sg as [Sg|Sg]; [by left|right]. revert Sg. unfold signs, started. intros [= H1 H2 H3 H4]. cbn. f_equal; lia.
    - cbn. lia. }
  rewrite E2. apply entry_update; try done; [rewrite <- E2; by apply entry_of_ok|].
  apply (entry_replace _ _ _ (uncharged j)); [split_and!; try done; by left|by apply uncharged_ok|done| |done].
  destruct X1 as [L1 _]. by destruct (l_placed _ _ _ _ _ L1 k (uncharged j)) as [P1 P2]; [rewrite lookup_insert_eq|].
Qed.

Lemma move_pending jobs k stage j q st : 0 <= maxNumProcessors j -> in_state JOB_STAT_PEND j \/ in_state JOB_STAT_PSUSP j ->
  exact_with jobs k j stage st ->
  exact_with jobs k (set_qPtr j q) stage
    (update0 getQUsable (update0 getQUsable st j (mkCnt (- maxNumProcessors j) (- maxNumProcessors j) 0 0 0 0))
       (set_qPtr j q) (mkCnt (maxNumProcessors j) (maxNumProcessors j) 0 0 0 0)).
Proof.
  intros H I X. apply exact_with_entry in X. apply exact_with_entry. apply (uncharge_pending _ _ _ _ _ I H) in X.
  apply (charge_pending _ _ _ (set_qPtr j q)); [done|done|].
  apply (entry_replace _ _ _ (uncharged j)); [split_and!; try done; by left| |done| |done].
  - apply uncharged_ok. destruct I as [I|I]; by eapply in_state_ok.
  - destruct X as [L1 _]. by destruct (l_placed _ _ _ _ _ L1 k (uncharged j)) as [P1 P2]; [rewrite lookup_insert_eq|].
Qed.

Lemma set_qPtr_id j : set_qPtr j (qPtr j) = j.
Proof. by destruct j. Qed.

Ltac eval_eqb :=
  repeat match goal with
  | |- context [?a =? ?b] => let v := eval vm_compute in (a =? b) in lazymatch v with true => idtac | false => idtac end; change (a =? b) with v
  end; cbn [orb andb negb].

(** [jp] is the job, in either queue. *)
Lemma switch_step jobs k stage j jp q st : replaying stage = false -> job_ok j -> reserved j = false -> switchable (jStatus j) ->
  set_qPtr jp (qPtr j) = j -> exact_with jobs k j stage st ->
  let r := switch_counters getQUsable st jp (qPtr j) q (maxNumProcessors j) in
  exact_with jobs k (snd r) stage (fst r) /\ snd r = set_qPtr j q.
Proof.
  intros R Oj Rj Sw Ej X. assert (Es : jStatus jp = jStatus j) by (by rewrite <- Ej).
  assert (En : numHostPtr jp = numHostPtr j) by (by rewrite <- Ej). assert (Er : maxNumProcessors jp = maxNumProcessors j) by (by rewrite <- Ej).
  assert (Eq : set_qPtr jp q = set_qPtr j q) by (by rewrite <- Ej).
  unfold switch_counters. cbn zeta. rewrite (proj2 X), Es, En, Er, Ej, Eq. unfold replaying in R. rewrite R.
  assert (Kj : known (jStatus j) = known (MASK_STATUS (jStatus j))) by (by rewrite known_mask).
  unfold switchable in Sw. known_cases Sw; rewrite Sw in Kj |- *; eval_eqb; cbn [fst snd]; (split; [|done]).
  1,2: apply move_pending; [apply Oj| |done]; [left + right; split; [exact Kj|done]].
  all: lazymatch goal with
       | |- exact_with _ _ _ _ (update _ _ (update _ _ _ _ ?d0 ?y1 ?y2 ?y3 ?y4 ?y5) _ ?v0 ?x1 ?x2 ?x3 ?x4 ?x5) =>
           assert (Hv : slots_of j = v0) by (unfold slots_of; by rewrite Kj, Rj);
           assert (Hh : units_of j = mkCnt x1 0 x2 x3 x4 x5) by (unfold units_of; by rewrite Kj, Rj);
           pose proof (move_started jobs k stage j q st d0 (mkCnt y1 0 y2 y3 y4 y5)) as M
       end; cbn zeta in M; rewrite Hv, Hh in M; apply M; try done; try (by rewrite Kj); try (unfold cscale; cbn; f_equal; lia).
  all: destruct (hPtr j) eqn:Ep; [by left|right]; unfold signs, started, numHostPtr; rewrite Ep; cbn; f_equal; lia.
Qed.

Lemma switchable_reserved s : switchable s -> switchable (Z.ldiff s JOB_STAT_RESERVE).
Proof. unfold switchable, MASK_STATUS. by rewrite land_ldiff. Qed.

Lemma updSwitchJob_step jobs k stage j q st : replaying stage = false -> job_ok j -> switchable (jStatus j) ->
  (reserved j = true -> known (jStatus j) ∈ reservable) -> exact_with jobs k j stage st ->
  let r := updSwitchJob getQUsable st j (qPtr j) q (maxNumProcessors j) in
  exact_with jobs k (snd r) stage (fst r) /\ job_ok (snd r).
Proof.
  intros R Oj Sw Rs X. unfold updSwitchJob. destruct (reserved j) eqn:Rj; cbn zeta.
  - rewrite set_qPtr_id. specialize (Rs eq_refl).
    pose proof (updRes_free jobs k stage j st Rj Rs Oj X) as X1. set (st1 := updResCounters _ st j _) in *.
    destruct (switch_step jobs k stage (without j) (set_jStatus (set_qPtr j q) (Z.ldiff (jStatus j) JOB_STAT_RESERVE)) q st1)
      as [X2 E2]; [done|by apply job_ok_without|apply reserve_without|by apply switchable_reserved|by destruct j|done|].
    change (qPtr (without j)) with (qPtr j) in X2, E2. change (maxNumProcessors (without j)) with (maxNumProcessors j) in X2, E2.
    destruct (switch_counters _ _ _ _ _ _) as [st2 j2]. cbn in X2, E2. subst j2. cbn [fst snd].
    assert (K1 : known (jStatus (set_qPtr (without j) q)) = known (jStatus j)) by (by apply known_ldiff).
    assert (O2 : job_ok (with_reserve (set_qPtr (without j) q))).
    { split; [apply Oj|]. cbn. intros Hp _. rewrite known_lor, known_ldiff in Hp by done. by apply Oj. }
    split; [|done]. apply updRes_set; [apply reserve_without|by rewrite K1|done|done].
  - destruct (switch_step jobs k stage j j q st R Oj Rj Sw (set_qPtr_id j) X) as [X1 E1]. split; [done|]. rewrite E1. exact Oj.
Qed.

(** ** Runs of the daemon *)

Record world := mkW { db : mbd; jobs : gmap Z jData }.

(** The charges of all jobs together fit an [int]. *)
Definition bounded (js : gmap Z jData) : Prop := zsum (share anc groups) (entries_of js) < 2 ^ 31.

(** What happens to the jobs outside the replay of the log: a job is submitted, is
    given hosts, reserves them or gives them back, changes its state, moves to
    another queue, is requeued after its end, and is removed. *)
Inductive step : world -> world -> Prop :=
| Submit st js k j : js !! k = None -> in_state JOB_STAT_PEND j \/ in_state JOB_STAT_PSUSP j -> hPtr j = [] ->
    0 <= maxNumProcessors j -> bounded (<[k := j]> js) ->
    step (mkW st js) (mkW (handleNewJob getQUsable st j) (<[k := j]> js))
| Alloc st js k j hs : js !! k = Some j -> in_state JOB_STAT_PEND j \/ in_state JOB_STAT_PSUSP j ->
    Forall (fun h => is_Some (hosts st !! h)) hs -> bounded (<[k := set_hPtr j hs]> js) ->
    step (mkW st js) (mkW st (<[k := set_hPtr j hs]> js))
| Reserve st js k j r : js !! k = Some j -> reserved j = false -> known (jStatus j) ∈ reservable ->
    numHostPtr j <= maxNumProcessors j -> reserveSlots getQUsable st j = r ->
    step (mkW st js) (mkW (fst r) (<[k := snd r]> js))
| Free st js k j r : js !! k = Some j -> pending (known (jStatus j)) = true -> freeReserveSlots getQUsable st j = r ->
    step (mkW st js) (mkW (fst r) (<[k := snd r]> js))
| Change st js k j mig s r : js !! k = Some j -> (known (jStatus j), known s) ∈ moves (reserved j) ->
    jStatusChange getQUsable mig st j s = r -> step (mkW st js) (mkW (fst r) (<[k := snd r]> js))
| Switch st js k j q r : js !! k = Some j -> switchable (jStatus j) -> (reserved j = true -> known (jStatus j) ∈ reservable) ->
    updSwitchJob getQUsable st j (qPtr j) q (maxNumProcessors j) = r ->
    step (mkW st js) (mkW (fst r) (<[k := snd r]> js))
| Requeue st js k j psusp r : js !! k = Some j -> finished (known (jStatus j)) ->
    handleRequeueJob getQUsable st j psusp = r -> step (mkW st js) (mkW (fst r) (<[k := snd r]> js))
| Clean st js k j : js !! k = Some j -> finished (known (jStatus j)) -> step (mkW st js) (mkW st (delete k js)).

Record exact (w : world) : Prop := {
  x_ledger : ledger (entries_of (jobs w)) (db w); x_jobs : map_Forall (fun _ => job_ok) (jobs w);
  x_stage : replaying (mSchedStage (db w)) = false }.

Lemma job_entries_ok js : map_Forall (fun _ => job_ok) js -> bounded js -> entries_ok anc groups (entries_of js).
Proof.
  intros O B. split; [|done]. intros k e. rewrite lookup_fmap. intros H. apply fmap_Some in H as (j & Hj & ->).
  apply entry_of_ok. by apply (O k).
Qed.

Lemma exact_job st js k j : exact (mkW st js) -> js !! k = Some j -> job_ok j /\ exact_with js k j (mSchedStage st) st.
Proof. intros [L O S] Hj. split; [by apply (O k)|]. split; [|done]. by rewrite insert_id. Qed.

Lemma exact_after st st' js k j' : exact (mkW st js) -> exact_with js k j' (mSchedStage st) st' /\ job_ok j' -> exact (mkW st' (<[k := j']> js)).
Proof. intros [L O S] [[L' S'] O']. split; cbn in *; [done|by apply map_Forall_insert_2|by rewrite S']. Qed.

Lemma step_exact w w' : step w w' -> exact w -> exact w'.
Proof.
  intros St X. destruct St as [st js k j Hk I Hh H B|st js k j hs Hj I F B|st js k j r Hj R K N E|st js k j r Hj P E
    |st js k j mig s r Hj M E|st js k j q r Hj Sw Rs E|st js k j psusp r Hj F E|st js k j Hj F]; try subst r.
  - assert (Oj : job_ok j) by (destruct I as [I|I]; by eapply in_state_ok). apply (exact_after st); [done|]. split; [|done].
    apply handleNewJob_step; try done; [apply X|apply X|]. apply job_entries_ok; [apply map_Forall_insert_2; [done|apply X]|done].
  - destruct (exact_job _ _ _ _ X Hj) as [Oj Xj].
    assert (Oj' : job_ok (set_hPtr j hs)) by (destruct I as [I|I]; eapply in_state_ok; [exact I|apply Oj|exact I|apply Oj]).
    apply (exact_after st); [done|]. split; [|done]. assert (U : units_of j = czero /\ forall hs, slots_of (set_hPtr j hs) = slots_of j)
      by (destruct I as [I|I]; by eapply pending_no_units).
    apply set_hosts_step; [apply U|apply U|done| |done]. apply job_entries_ok; [apply map_Forall_insert_2; [done|apply X]|done].
  - destruct (exact_job _ _ _ _ X Hj) as [Oj Xj]. apply (exact_after st); [done|]. unfold reserveSlots. rewrite R. cbn.
    assert (O' : job_ok (with_reserve j)) by (split; [apply Oj|done]). split; [by apply updRes_set|done].
  - destruct (exact_job _ _ _ _ X Hj) as [Oj Xj]. apply (exact_after st); [done|]. destruct (reserved j) eqn:R.
    + destruct (freeReserve_step js k _ j st R P Oj Xj) as [X' E']. split; [done|]. rewrite E'. split; [apply Oj|]. cbn. by rewrite reserve_without.
    + unfold freeReserveSlots. rewrite R. done.
  - destruct (exact_job _ _ _ _ X Hj) as [Oj Xj]. apply (exact_after st); [done|]. by apply jStatusChange_step.
  - destruct (exact_job _ _ _ _ X Hj) as [Oj Xj]. apply (exact_after st); [done|]. apply updSwitchJob_step; try done. apply X.
  - destruct (exact_job _ _ _ _ X Hj) as [Oj Xj]. apply (exact_after st); [done|]. apply handleRequeueJob_step; try done; [apply X|apply Oj].
  - destruct X as [L O S]. destruct (finished_zero j F) as [V U]. cbn in *. assert (Ek : entries_of js !! k = Some (entry_of j)) by (by rewrite lookup_fmap, Hj).
    split; cbn; [|by apply map_Forall_delete|done]. rewrite fmap_delete.
    apply (ledger_same_sums anc groups local (entries_of js)); [by apply (same_sums_delete anc groups _ k (entry_of j))| | |done].
    + destruct L as [_ [Ok B] _ _ _ _]. split; [by apply map_Forall_delete|].
      rewrite <- (insert_delete_id _ k _ Ek), zsum_insert in B by (by rewrite lookup_delete_eq).
      assert (0 <= share anc groups (entry_of j)).
      { apply Z.mul_nonneg_nonneg; [lia|]. cbn. destruct (O k j Hj) as [H _]. unfold numHostPtr. lia. }
      lia.
    + apply map_Forall_delete. apply L.
Qed.

Lemma steps_exact w w' : rtc step w w' -> exact w -> exact w'.
Proof. induction 1; eauto using step_exact. Qed.

(** The daemon before the first job: every counter is 0, every group has its user
    data and no user has its groups yet. *)
Record fresh (st : mbd) : Prop := {
  f_queues : map_Forall (fun _ qp => q_cnt qp = czero /\ q_uAcct qp = ∅ /\ q_hAcct qp = ∅) (queues st);
  f_users : map_Forall (fun _ up => u_cnt up = czero /\ u_hAcct up = ∅ /\ has (u_flags up) USER_INIT = false) (users st);
  f_hosts : map_Forall (fun _ hp => h_cnt hp = czero /\ h_uAcct hp = ∅) (hosts st);
  f_groups : Forall (fun g => is_Some (users st !! group g)) (usergroups st) }.
End Counters.

Definition local_host (st : mbd) (h : cstr) : bool :=
  match hosts st !! h with Some hp => negb (has (hStatus hp) HOST_STAT_REMOTE) | None => false end.

(** Entries that charge nothing. *)
Lemma fresh_ledger st E : fresh st -> map_Forall (fun _ e => placed st e /\ e_v e = czero /\ e_hv e = czero) E ->
  entries_ok (user_ancestors st) (usergroups st) E -> ledger (user_ancestors st) (usergroups st) (local_host st) E st.
Proof.
  intros [Q U H G] Ze Ok.
  assert (C1 : forall w, charge w e_v E = czero) by (intros w; apply csum_zero; intros k e He; destruct (Ze k e He) as (_ & -> & _); apply cscale_0_r).
  assert (C2 : forall w, charge w e_hv E = czero) by (intros w; apply csum_zero; intros k e He; destruct (Ze k e He) as (_ & _ & ->); apply cscale_0_r).
  assert (C3 : forall w, charge w (no_jobs ∘ e_v) E = czero) by (intros w; apply csum_zero; intros k e He; cbn; destruct (Ze k e He) as (_ & -> & _); apply cscale_0_r).
  assert (C4 : forall w, charge w (started ∘ e_hv) E = czero) by (intros w; apply csum_zero; intros k e He; cbn; destruct (Ze k e He) as (_ & _ & ->); apply cscale_0_r).
  split; [|done|intros k e He; by apply (Ze k)| | |].
  - split; try done.
    + intros g Hg. by apply (proj1 (Forall_forall _ _) G).
    + intros u up Hu Hi. destruct (U u up Hu) as (_ & _ & X). congruence.
  - intros q qp Hq. destruct (Q q qp Hq) as (H1 & H2 & H3). unfold queue_exact. rewrite H1, H2, H3.
    split_and!; intros; by rewrite ?C1, ?C3, ?C4.
  - intros u up Hu. destruct (U u up Hu) as (H1 & H2 & _). unfold user_exact. rewrite H1, H2. split; intros; by rewrite ?C1, ?C4.
  - intros h hp Hh. destruct (H h hp Hh) as (H1 & H2). unfold host_exact. rewrite H1, H2. split; intros; by rewrite ?C2, ?C4.
Qed.

Lemma fresh_exact st : fresh st -> replaying (mSchedStage st) = false -> exact (user_ancestors st) (usergroups st) (local_host st) (mkW st ∅).
Proof.
  intros F S. split; cbn; [|apply map_Forall_empty|done]. rewrite fmap_empty. apply fresh_ledger; [done|apply map_Forall_empty|].
  split; [apply map_Forall_empty|]. unfold zsum. by rewrite map_fold_empty.
Qed.

(** C8: In every state that the daemon reaches from its start by submissions, gifts
    of hosts, reservations and their release, moves between queues, requeues and
    removals of jobs and by the changes of state in [moves] (for a job without a
    reservation all changes between its states but PEND, SSUSP and USUSP to
    [RUN | WAIT], those of PSUSP to started states other than RUN, those of
    started jobs to PSUSP, and those from EXIT and DONE back to other states; for a job with a
    reservation those that end it), every counter of every queue, user, user
    group and host, and of the accounts of users and hosts in them, is exactly the
    sum of what the jobs contribute to it, as long as the total of all charges is
    in the range of [int]; in particular no counter is negative and [addValue]
    never resets one.  The changes of jobs without a reservation that are left
    out would break this: [updCounters] counts nothing for them, although the
    contributions of the two states differ. *)
Theorem counters_exact getQUsable st w :
  fresh st -> replaying (mSchedStage st) = false -> rtc (step (user_ancestors st) (usergroups st) getQUsable) (mkW st ∅) w ->
  (queues_exact (user_ancestors st) (local_host st) (entry_of <$> jobs w) (db w)
   /\ users_exact (usergroups st) (local_host st) (entry_of <$> jobs w) (db w)
   /\ hosts_exact (local_host st) (entry_of <$> jobs w) (db w))
  /\ (forall a b j oldStatus num numReq, uncounted a b -> known oldStatus = a -> known (jStatus j) = b -> 0 < num -> 0 < numReq ->
      updCounters getQUsable (db w) j oldStatus = db w /\ slots_at a false num numReq <> slots_at b false num numReq).
Proof.
  intros F S R. pose proof (steps_exact _ _ (local_host st) _ _ _ R (fresh_exact st F S)) as X.
  destruct X as [[_ _ _ Q U H] _ _]. split; [done|]. intros a b j o num numReq Hu Ha Hb Hn Hr.
  split; [by apply (uncounted_nothing getQUsable a b)|by apply uncounted_differ].
Qed.

(** ** Restart *)

Section Recount.
Variable anc : cstr -> list cstr.
Variable groups : list gData.
Variable local : cstr -> bool.
Variable getQUsable : mbd -> qData -> qUsable.
Abbreviation ledger := (CounterInv.ledger anc groups local).

(** The states that are counted afresh. *)
Definition recountable (j : jData) : Prop :=
  reserved j = false /\ known (jStatus j) ∈ [JOB_STAT_PEND; JOB_STAT_PSUSP; JOB_STAT_RUN; JOB_STAT_SSUSP; JOB_STAT_USUSP] /\ 0 <= maxNumProcessors j.

Lemma recountable_ok j : recountable j -> job_ok j.
Proof. intros (R & _ & H). split; [done|]. by rewrite R. Qed.

Lemma recount_job_step js k stage j st : recountable j -> exact_with anc groups local js k (set_jStatus j JOB_STAT_EXIT) stage st ->
  exact_with anc groups local js k j stage (recount_job getQUsable st j).
Proof.
  intros Rj X0. pose proof (recountable_ok j Rj) as Oj. destruct Rj as (R & Hm & H).
  assert (I0 : in_state JOB_STAT_PEND (set_jStatus j JOB_STAT_PEND)) by done. apply exact_with_entry in X0.
  change (entry_of (set_jStatus j JOB_STAT_EXIT)) with (uncharged (set_jStatus j JOB_STAT_PEND)) in X0.
  apply (charge_pending anc groups local getQUsable _ _ _ _ _ (or_introl I0) H) in X0. apply exact_with_entry in X0.
  unfold recount_job. cbn zeta. set (st1 := update0 _ _ _ _) in *. rewrite has_known by done.
  assert (Xc : (known JOB_STAT_PEND, known (jStatus j)) ∈ moves false -> exact_with anc groups local js k j stage (updCounters getQUsable st1 j JOB_STAT_PEND))
    by (intros M; by apply (updCounters_step anc groups local getQUsable js k stage (set_jStatus j JOB_STAT_PEND) j JOB_STAT_PEND st1)).
  assert (Fin : forall s, exact_with anc groups local js k j stage s -> exact_with anc groups local js k j stage
      (if has (options j) SUB_EXCLUSIVE && IS_START (jStatus j)
       then set_hosts (fold_left (fun m h => alter (fun hp => set_hStatus (Z.lor (hStatus hp) HOST_STAT_EXCLUSIVE) hp) h m) (hPtr j) (hosts s)) s else s)).
  { intros s [Ls Ss]. destruct (_ && _); [|done]. split; [|done]. apply hosts_ledger; [|done]. intros h. apply alter_views.
    intros hp. unfold hview, hkey. cbn. by rewrite has_lor. }
  repeat (apply elem_of_cons in Hm as [Hm|Hm]; [rewrite Hm in *|]); [..|by apply not_elem_of_nil in Hm].
  all: cbn - [updCounters].
  1: apply (step_none anc groups local js k stage (set_jStatus j JOB_STAT_PEND) j); try done; unfold slots_of, units_of; by rewrite Hm, R.
  all: apply Fin, Xc; unfold moves; set_solver.
Qed.

Lemma recount_fold l js st : NoDup l.*1 -> Forall (fun p => recountable p.2 /\ js !! p.1 = Some (set_jStatus p.2 JOB_STAT_EXIT)) l ->
  ledger (entries_of js) st -> ledger (entries_of (list_to_map l ∪ js)) (fold_left (recount_job getQUsable) l.*2 st).
Proof.
  revert js st; induction l as [|[k j] l IH]; intros js st Nd Fl L; [cbn; by rewrite left_id_L by apply _|].
  apply NoDup_cons in Nd as [Nk Nd]. apply Forall_cons in Fl as [[Rj Hj] Fl]. cbn in *.
  assert (X : exact_with anc groups local js k (set_jStatus j JOB_STAT_EXIT) (mSchedStage st) st) by (split; [by rewrite insert_id|done]).
  destruct (recount_job_step js k _ j st Rj X) as [L' _].
  assert (Er : <[k := j]> (list_to_map l) ∪ js = list_to_map l ∪ <[k := j]> js).
  { rewrite <- insert_union_l, insert_union_r; [done|]. by apply not_elem_of_list_to_map_1. }
  rewrite Er. apply IH; [done| |done]. rewrite Forall_forall in Fl |- *. intros p Hp. destruct (Fl p Hp) as [H1 H2]. split; [done|].
  rewrite lookup_insert_ne; [done|]. intros ->. apply Nk, list_elem_of_fmap. by exists p.
Qed.
End Recount.

Lemma zsum_fmap {A B} (f : A -> B) (b : B -> Z) (m : gmap Z A) : zsum b (f <$> m) = zsum (b ∘ f) m.
Proof. unfold zsum. by rewrite map_fold_fmap. Qed.

Lemma zsum_union {A} (b : A -> Z) (m1 m2 : gmap Z A) : m1 ##ₘ m2 -> zsum b (m1 ∪ m2) = zsum b m1 + zsum b m2.
Proof.
  induction m1 as [|k x m1 Hk IH] using map_ind; intros D.
  - rewrite left_id_L by apply _. unfold zsum at 2. by rewrite map_fold_empty.
  - apply map_disjoint_insert_l in D as [Dk D]. rewrite <- insert_union_l, !zsum_insert, IH; [lia|done|done|].
    by apply lookup_union_None_2.
Qed.

Lemma zsum_nonneg {A} (b : A -> Z) (m : gmap Z A) : (forall k e, m !! k = Some e -> 0 <= b e) -> 0 <= zsum b m.
Proof.
  induction m as [|k x m Hk IH] using map_ind; intros H; [unfold zsum; by rewrite map_fold_empty|].
  rewrite zsum_insert by done. assert (0 <= b x) by (apply (H k); by rewrite lookup_insert_eq).
  assert (0 <= zsum b m); [|lia]. apply IH. intros k' e He. apply (H k'). rewrite lookup_insert_ne; [done|]. intros ->. congruence.
Qed.

Lemma recount_ledger getQUsable st l : fresh st -> NoDup l.*1 ->
  Forall (fun p => recountable p.2 /\ placed st (entry_of p.2)) l -> bounded (user_ancestors st) (usergroups st) (list_to_map l) ->
  ledger (user_ancestors st) (usergroups st) (local_host st) (entry_of <$> list_to_map l) (recount getQUsable st l.*2).
Proof.
  intros F Nd Fl B. set (gone := fun j => set_jStatus j JOB_STAT_EXIT). set (m := list_to_map l : gmap Z jData).
  assert (Hin : forall k j, m !! k = Some j -> recountable j /\ placed st (entry_of j)).
  { intros k j Hj. apply elem_of_list_to_map_2 in Hj. by apply (proj1 (Forall_forall _ _) Fl (k, j)). }
  assert (L0 : ledger (user_ancestors st) (usergroups st) (local_host st) (entry_of <$> (gone <$> m)) st).
  { apply fresh_ledger; [done| |].
    - intros k e He. rewrite !lookup_fmap in He. destruct (m !! k) as [j|] eqn:Hj; [|done]. injection He as <-.
      destruct (Hin k j Hj) as [_ Pj]. by split.
    - split; [|unfold bounded in B; rewrite !zsum_fmap in *; exact B].
      intros k e He. rewrite !lookup_fmap in He. destruct (m !! k) as [j|] eqn:Hj; [|done]. injection He as <-.
      apply entry_of_ok. destruct (Hin k j Hj) as [(_ & _ & H) _]. by split. }
  assert (L1 : ledger (user_ancestors st) (usergroups st) (local_host st) (entry_of <$> (gone <$> m)) (clean_exclusive st)).
  { apply hosts_ledger; [|done]. intros h. rewrite lookup_fmap. destruct (hosts st !! h) as [hp|]; [|done]. cbn. f_equal.
    unfold hview, hkey. cbn. by rewrite has_ldiff. }
  assert (Er : m = m ∪ (gone <$> m)).
  { apply map_eq. intros k. destruct (m !! k) as [j|] eqn:Hj; [by rewrite (lookup_union_Some_l _ _ _ _ Hj)|].
    rewrite lookup_union_r by done. by rewrite lookup_fmap, Hj. }
  unfold recount. rewrite Er. apply (recount_fold _ _ _ _ l); [done| |done]. rewrite Forall_forall in Fl |- *. intros p Hp.
  split; [by apply Fl|]. destruct p as [k j]. cbn [fst snd].
  assert (Hk : m !! k = Some j) by (by apply elem_of_list_to_map_1). by rewrite lookup_fmap, Hk.
Qed.

(** Jobs that are finished contribute nothing. *)
Lemma finished_sums anc groups (fin m : gmap Z jData) : map_Forall (fun _ j => finished (known (jStatus j))) fin -> fin ##ₘ m ->
  same_sums anc groups (entry_of <$> m) (entry_of <$> (fin ∪ m)).
Proof.
  induction fin as [|k j fin Hk IH] using map_ind; intros F D; [rewrite left_id_L by apply _; by split|].
  apply map_Forall_insert_1_1 in F as Fj. apply map_Forall_insert_1_2 in F; [|done].
  apply map_disjoint_insert_l in D as [Dk D]. destruct (IH F D) as [s1 s2 s3 s4 s5]. destruct (finished_zero j Fj) as [V U].
  rewrite <- insert_union_l, fmap_insert.
  destruct (same_sums_insert anc groups (entry_of <$> (fin ∪ m)) k (entry_of j)) as [t1 t2 t3 t4 t5]; [|done|done|].
  { rewrite lookup_fmap, lookup_union_None_2 by done. done. }
  split; intros; by rewrite ?t1, ?t2, ?t3, ?t4, ?t5.
Qed.

(** C9: Counting the jobs afresh at the end of a replay gives the counters that the
    daemon had before its restart.  For a run (by the steps of [counters_exact])
    whose jobs are either finished or pending, running or suspended without a
    reservation and not waiting in [RUN | WAIT], a restarted daemon with the same
    configuration in which the jobs that are not finished are counted has for
    every queue the same counters and accounts, for every user and group and for
    every host the same counters, and the same accounts where they are kept,
    that is under a limit of the user for each processor or of the host for each
    user.  Jobs with reservations and jobs in [RUN | WAIT] are not covered: they
    are counted afresh as jobs without reservations and as pending jobs. *)
Theorem restart_same_counters getQUsable getQUsable' st w l fin :
  fresh st -> replaying (mSchedStage st) = false -> rtc (step (user_ancestors st) (usergroups st) getQUsable) (mkW st ∅) w ->
  NoDup l.*1 -> jobs w = fin ∪ list_to_map l -> fin ##ₘ list_to_map l ->
  map_Forall (fun _ j => finished (known (jStatus j))) fin -> Forall (fun p => recountable p.2 /\ placed st (entry_of p.2)) l ->
  let st' := recount getQUsable' st l.*2 in
  (forall q qp qp', queues (db w) !! q = Some qp -> queues st' !! q = Some qp' ->
     q_cnt qp' = q_cnt qp /\ (forall u, uacct (q_uAcct qp') u = uacct (q_uAcct qp) u) /\ (forall h, hacct (q_hAcct qp') h = hacct (q_hAcct qp) h))
  /\ (forall u up up', users (db w) !! u = Some up -> users st' !! u = Some up' ->
     u_cnt up' = u_cnt up
     /\ (SFltb (u_pJobLimit up) INFINIT_FLOAT = true -> SFltb (u_pJobLimit up') INFINIT_FLOAT = true ->
         forall h, hacct (u_hAcct up') h = hacct (u_hAcct up) h))
  /\ (forall h hp hp', hosts (db w) !! h = Some hp -> hosts st' !! h = Some hp' ->
     h_cnt hp' = h_cnt hp
     /\ (h_uJobLimit hp < INFINIT_INT -> h_uJobLimit hp' < INFINIT_INT -> forall u, uacct (h_uAcct hp') u = uacct (h_uAcct hp) u)).
Proof.
  intros F S R Nd Ew D Ff Fl st'. pose proof (steps_exact _ _ (local_host st) _ _ _ R (fresh_exact st F S)) as [L O _].
  rewrite Ew in L. destruct (finished_sums (user_ancestors st) (usergroups st) fin _ Ff D) as [s1 s2 s3 s4 s5].
  assert (B : bounded (user_ancestors st) (usergroups st) (list_to_map l)).
  { destruct L as [_ [Ok B] _ _ _ _]. unfold bounded. rewrite map_fmap_union, zsum_union in B by (by apply map_disjoint_fmap).
    assert (0 <= zsum (share (user_ancestors st) (usergroups st)) (entry_of <$> fin)); [|lia].
    apply zsum_nonneg. intros k e He. unfold share. apply Z.mul_nonneg_nonneg; [lia|]. apply size_nonneg, (Ok k).
    rewrite map_fmap_union. by apply lookup_union_Some_l. }
  destruct (recount_ledger getQUsable' st l F Nd Fl B) as [_ _ _ Q' U' H']. destruct L as [_ _ _ Q U H]. split_and!.
  - intros q qp qp' Hq Hq'. destruct (Q q qp Hq) as (A1 & A2 & A3). destruct (Q' q qp' Hq') as (B1 & B2 & B3).
    rewrite A1, B1. split_and!; intros; by rewrite ?A2, ?A3, ?B2, ?B3, ?s1, ?s2, ?s5.
  - intros u up up' Hu Hu'. destruct (U u up Hu) as [A1 A2]. destruct (U' u up' Hu') as [B1 B2].
    rewrite A1, B1. split; [by rewrite s3|]. intros L1 L2 h. by rewrite A2, B2, s5.
  - intros h hp hp' Hh Hh'. destruct (H h hp Hh) as [A1 A2]. destruct (H' h hp' Hh') as [B1 B2].
    rewrite A1, B1. split; [by rewrite s4|]. intros L1 L2 u. by rewrite A2, B2, s5.
Qed.

(** A daemon with two queues, a user in a group, and one host. *)
Definition short : cstr := ["s"; "h"; "o"; "r"; "t"]%char.
Definition long : cstr := ["l"; "o"; "n"; "g"]%char.
Definition ann : cstr := ["a"; "n"; "n"]%char.
Definition lab : cstr := ["l"; "a"; "b"]%char.
Definition node : cstr := ["n"; "o"; "d"; "e"]%char.

Definition sample_queue : qData :=
  mkQ 10 5 INFINIT_INT (float_of 2) 0 czero ∅ ∅ (mkUsable 0 0 0 0 ∅).
Definition sample_mbd : mbd :=
  mkMbd {[short := sample_queue; long := sample_queue]}
    {[ann := new_user 10 (float_of 4); lab := new_user 20 INFINIT_FLOAT]}
    {[node := mkH 1 4 0 0 8 16 0 0 0 czero ∅]} ∅ [mkG lab [ann] []] 0.
Definition sample_job : jData := mkJ ann 501 JOB_STAT_PEND 2 0 short [].
Definition keep_usable : mbd -> qData -> qUsable := fun _ qp => q_usable qp.

Lemma sample_fresh : fresh sample_mbd.
Proof.
  split; try done.
  - intros q qp Hq. unfold sample_mbd, queues in Hq. apply lookup_insert_Some in Hq as [[_ <-]|[_ Hq]]; [done|]. by apply lookup_singleton_Some in Hq as [_ <-].
  - intros u up Hu. unfold sample_mbd, users in Hu. apply lookup_insert_Some in Hu as [[_ <-]|[_ Hu]]; [done|]. by apply lookup_singleton_Some in Hu as [_ <-].
  - intros h hp Hh. unfold sample_mbd, hosts in Hh. by apply lookup_singleton_Some in Hh as [_ <-].
  - constructor; [by eexists|constructor].
Qed.

(** The job is submitted, gets two slots, runs, is suspended and moved. *)
Definition sample_run : world :=
  let j1 := set_hPtr sample_job [node; node] in
  let r0 := handleNewJob keep_usable sample_mbd sample_job in
  let r1 := jStatusChange keep_usable false r0 j1 JOB_STAT_RUN in
  let r2 := jStatusChange keep_usable false (fst r1) (snd r1) JOB_STAT_SSUSP in
  let r3 := updSwitchJob keep_usable (fst r2) (snd r2) short long 2 in
  mkW (fst r3) {[7 := snd r3]}.

Lemma sample_steps : rtc (step (user_ancestors sample_mbd) (usergroups sample_mbd) keep_usable) (mkW sample_mbd ∅) sample_run.
Proof.
  unfold sample_run. cbn zeta. set (j1 := set_hPtr sample_job _). set (r0 := handleNewJob _ _ _).
  eapply rtc_l; [apply (Submit _ _ _ sample_mbd ∅ 7 sample_job); [done|by left|done|done|by vm_compute]|].
  eapply rtc_l; [apply (Alloc _ _ _ r0 _ 7 sample_job [node; node]); [done|by left| |by vm_compute]|].
  { repeat constructor; vm_compute; by eexists. }
  fold j1. set (r1 := jStatusChange _ _ r0 j1 _).
  eapply rtc_l; [eapply (Change _ _ _ r0 _ 7 j1 false JOB_STAT_RUN r1); [done|vm_compute; set_solver|done]|].
  set (r2 := jStatusChange _ _ (fst r1) _ _).
  eapply rtc_l; [eapply (Change _ _ _ (fst r1) _ 7 (snd r1) false JOB_STAT_SSUSP r2); [done| |done]|].
  { vm_compute. set_solver. }
  set (r3 := updSwitchJob _ _ _ _ _ _).
  eapply rtc_l; [eapply (Switch _ _ _ (fst r2) _ 7 (snd r2) long r3); [done| |by vm_compute|by vm_compute]|].
  { unfold switchable. vm_compute. set_solver. }
  apply reflexive_eq. f_equal.
Qed.

Lemma counters_exact_witness :
  queues_exact (user_ancestors sample_mbd) (local_host sample_mbd) (entry_of <$> jobs sample_run) (db sample_run)
  /\ (q_cnt <$> queues (db sample_run) !! long) = Some (mkCnt 2 0 0 2 0 0)
  /\ (u_cnt <$> users (db sample_run) !! lab) = Some (mkCnt 2 0 0 2 0 0).
Proof.
  split; [apply (proj1 (counters_exact keep_usable sample_mbd sample_run sample_fresh eq_refl sample_steps))|].
  split; vm_compute; reflexivity.
Defined.

Lemma restart_same_counters_witness : exists j st',
  jobs sample_run !! 7 = Some j /\ recount keep_usable sample_mbd [j] = st'
  /\ (q_cnt <$> queues st' !! long) = (q_cnt <$> queues (db sample_run) !! long)
  /\ (h_cnt <$> hosts st' !! node) = (h_cnt <$> hosts (db sample_run) !! node).
Proof.
  destruct (jobs sample_run !! 7) as [j|] eqn:Hj; [|vm_compute in Hj; discriminate]. exists j, (recount keep_usable sample_mbd [j]).
  destruct (restart_same_counters keep_usable keep_usable sample_mbd sample_run [(7, j)] ∅ sample_fresh eq_refl sample_steps) as (Q & _ & H).
  - repeat constructor. apply not_elem_of_nil.
  - vm_compute in Hj. injection Hj as <-. vm_compute. reflexivity.
  - apply map_disjoint_empty_l.
  - apply map_Forall_empty.
  - vm_compute in Hj. injection Hj as <-. repeat constructor; vm_compute; try done; try (by eexists); try set_solver.
  - split; [done|]. split; [done|]. split.
    + destruct (queues (db sample_run) !! long) as [qp|] eqn:E1; [|vm_compute in E1; discriminate].
      destruct (queues (recount keep_usable sample_mbd [j]) !! long) as [qp'|] eqn:E2; [|vm_compute in Hj; injection Hj as <-; vm_compute in E2; discriminate].
      cbn. f_equal. by apply (Q long qp qp').
    + destruct (hosts (db sample_run) !! node) as [hp|] eqn:E1; [|vm_compute in E1; discriminate].
      destruct (hosts (recount keep_usable sample_mbd [j]) !! node) as [hp'|] eqn:E2; [|vm_compute in Hj; injection Hj as <-; vm_compute in E2; discriminate].
      cbn. f_equal. by apply (proj1 (H node hp hp' E1 E2)).
Defined.

(** Changes that no branch of [updCounters] counts. *)
Lemma updCounters_none getQUsable st j oldStatus :
  (known oldStatus = JOB_STAT_PEND /\ known (jStatus j) = JOB_STAT_RWAIT)
  \/ (known oldStatus = JOB_STAT_RWAIT /\ known (jStatus j) = JOB_STAT_RUN) ->
  updCounters getQUsable st j oldStatus = st.
Proof.
  intros H. unfold updCounters, IS_FINISH, IS_PEND. cbn zeta. fold (known (jStatus j)) (known oldStatus).
  rewrite !(has_known oldStatus), !(has_known (jStatus j)) by done. by destruct H as [[-> ->]|[-> ->]].
Qed.

Lemma jStatusChange_none getQUsable mig st j s : reserved j = false ->
  (known (jStatus j) = JOB_STAT_PEND /\ s = JOB_STAT_RWAIT) \/ (known (jStatus j) = JOB_STAT_RWAIT /\ s = JOB_STAT_RUN) ->
  let r := jStatusChange getQUsable mig st j s in fst r = st /\ in_state s (snd r).
Proof.
  intros R H. unfold jStatusChange. cbn zeta. fold (known s) (known (jStatus j)). rewrite R. unfold IS_START, IS_PEND, IS_FINISH.
  rewrite !(has_known (jStatus j)) by done. set (j2 := set_jStatus j (SET_STATE (jStatus j) (MASK_STATUS s))).
  assert (I2 : in_state (known s) j2) by (split; cbn; [by rewrite known_set, known_mask|by rewrite reserve_set]).
  destruct H as [[K ->]|[K ->]]; rewrite K; cbn - [set_jStatus updCounters].
  - pose proof (in_state_ldiff _ j2 JOB_STAT_MIG eq_refl eq_refl I2) as I3. split; [|exact I3].
    apply updCounters_none. left. split; [done|apply I3].
  - split; [|exact I2]. apply updCounters_none. right. split; [done|apply I2].
Qed.

(** A job that goes from pending to running by way of [RUN | WAIT] is never
    counted as started: none of the two changes of state touches a counter, so
    the job stays counted as pending while it runs. *)
Theorem rwait_not_counted getQUsable mig st j : in_state JOB_STAT_PEND j ->
  let r1 := jStatusChange getQUsable mig st j JOB_STAT_RWAIT in
  let r2 := jStatusChange getQUsable mig (fst r1) (snd r1) JOB_STAT_RUN in
  fst r2 = st /\ in_state JOB_STAT_RUN (snd r2).
Proof.
  intros [K R]. destruct (jStatusChange_none getQUsable mig st j JOB_STAT_RWAIT R (or_introl (conj K eq_refl))) as [E1 [K1 R1]].
  cbn zeta. rewrite E1. exact (jStatusChange_none getQUsable mig st _ JOB_STAT_RUN R1 (or_intror (conj K1 eq_refl))).
Qed.

Lemma rwait_not_counted_witness :
  let r1 := jStatusChange keep_usable false (handleNewJob keep_usable sample_mbd sample_job) sample_job JOB_STAT_RWAIT in
  let r2 := jStatusChange keep_usable false (fst r1) (snd r1) JOB_STAT_RUN in
  fst r2 = handleNewJob keep_usable sample_mbd sample_job /\ in_state JOB_STAT_RUN (snd r2).
Proof. apply (rwait_not_counted keep_usable false _ sample_job). split; vm_compute; reflexivity. Defined.
