(* ===== verification/Dispatch.v ===== *)
(** * Dispatching jobs within the limits (lsbatch/daemons/mbd.policy.c)

    How many slots a job may use by the limits of its queue, its user and his groups
    ([cntUQSlots]) and by those of a host ([getHostJobSlots]); which slots of its
    candidate hosts it gets ([getNumSlots], [getNumProcs], [allocHosts]); and the loop
    that starts it or reserves slots for it ([dispatchAJob]).

    The counters are those of Counters.v.  Jobs do not backfill: the branches for
    queues with [Q_ATTRIB_BACKFILL] are left out, and so are messages to the system
    log, times of dispatch, the memory that jobs reserve on hosts, and the groups of
    candidates of jobs with alternatives ([groupCands] in [removeCandHost]).  The answers of the slave daemon and of the clock are
    arguments, numbered by the attempt. *)
From stdpp Require Import base gmap list.
From Stdlib Require Import ZArith Ascii Lia.
From Corelib Require Import SpecFloat.
From S2P Require Import Prelude CNum Counters.
Local Open Scope Z_scope.

Definition PEND_JOB_NO_FILE : Z := 7.
Definition PEND_JOB_DELAY_SCHED : Z := 13.
Definition PEND_QUE_USR_PJLIMIT : Z := 305.
Definition PEND_JOB_SPREAD_TASK : Z := 312.
Definition PEND_QUE_SPREAD_TASK : Z := 313.
Definition PEND_QUE_PJOB_LIMIT : Z := 314.
Definition PEND_USER_PJOB_LIMIT : Z := 603.
Definition PEND_UGRP_PJOB_LIMIT : Z := 604.
Definition PEND_SBD_GETPID : Z := 1005.
Definition PEND_SBD_LOCK : Z := 1006.
Definition PEND_SBD_ZOMBIE : Z := 1007.
Definition PEND_SBD_ROOT : Z := 1008.
Definition PEND_HOST_LESS_SLOTS : Z := 1303.
Definition PEND_HOST_NO_USER : Z := 1313.
Definition PEND_HOST_ACCPT_ONE : Z := 1314.
Definition PEND_SBD_JOB_QUOTA : Z := 1602.
Definition PEND_JOB_START_FAIL : Z := 1603.
Definition PEND_JOB_START_UNKNWN : Z := 1604.
Definition PEND_SBD_NO_MEM : Z := 1605.
Definition PEND_SBD_NO_PROCESS : Z := 1606.
Definition JOB_STAGE_DISP : Z := 0x4.
Definition JOB_STAGE_DONE : Z := 0x8.
Definition SUB_PRE_EXEC : Z := 0x100000.
Definition FIRST_HOST_PRIORITY : Z := 0x7fffffff.

(** ** The limits of queue, user and groups *)

(** The reasons that last for a session. *)
Definition OUT_SCHED_RS (r : Z) : bool :=
  existsb (Z.eqb r)
    [PEND_HOST_JOB_LIMIT; PEND_QUE_JOB_LIMIT; PEND_QUE_USR_JLIMIT; PEND_QUE_PROC_JLIMIT; PEND_QUE_HOST_JLIMIT;
     PEND_USER_JOB_LIMIT; PEND_UGRP_JOB_LIMIT; PEND_USER_PROC_JLIMIT; PEND_UGRP_PROC_JLIMIT; PEND_HOST_USR_JLIMIT].

(** The slots that are left of [maxJobs]. *)
Definition slots_left (maxJobs : Z) (c : counters) : Z :=
  if maxJobs =? INFINIT_INT then INFINIT_INT else wrap32 (maxJobs - (numJobs c - numPEND c)).

(** The reason for a job of one processor and for a parallel job. *)
Definition by_size (jp : jData) (one many : Z) : Z := if maxNumProcessors jp =? 1 then one else many.

(** The loop over the groups of the user: the smallest number of slots and the first reason. *)
Fixpoint group_slots (us : gmap cstr uData) (jp : jData) (numProcessors : Z) (gs : list cstr) (jReason1 numUserGroup : Z) : Z * Z :=
  match gs with
  | [] => (jReason1, numUserGroup)
  | g :: gs' =>
      match us !! g with
      | None => group_slots us jp numProcessors gs' jReason1 numUserGroup
      | Some ugp =>
          let num := slots_left (u_maxJobs ugp) (u_cnt ugp) in
          let jReason1 := if (jReason1 =? 0) && (num <? numProcessors) then by_size jp PEND_UGRP_JOB_LIMIT PEND_UGRP_PJOB_LIMIT else jReason1 in
          group_slots us jp numProcessors gs' jReason1 (Z.min num numUserGroup)
      end
  end.

(** The limit of the queue for the slots of a user. *)
Definition queue_user_slots (qp : qData) (jp : jData) (numProcessors jReason minSlots : Z) : Z * Z :=
  if (jReason =? 0) && (q_uJobLimit qp <? INFINIT_INT) then
    match q_uAcct qp !! uPtr jp with
    | None => (jReason, minSlots)
    | Some uAcct =>
        if OUT_SCHED_RS (ua_reason uAcct) then (ua_reason uAcct, minSlots)
        else
          let num := wrap32 (q_uJobLimit qp - slots (ua_cnt uAcct)) in
          (if num <? numProcessors then by_size jp PEND_QUE_USR_JLIMIT PEND_QUE_USR_PJLIMIT else 0, Z.min minSlots num)
    end
  else (jReason, minSlots).

(** The slots that the job may use, and the reason if there are none. *)
Definition cntUQSlots (st : mbd) (jp : jData) (numProcessors slotHoldTime newReason : Z) : Z * Z :=
  match queues st !! qPtr jp, users st !! uPtr jp with
  | Some qp, Some up =>
      let numQueue := slots_left (q_maxJobs qp) (q_cnt qp) in
      let jReason :=
        if (q_maxJobs qp <? maxNumProcessors jp) || (numQueue <=? 0) || ((slotHoldTime <=? 0) && (numQueue <? numProcessors))
        then by_size jp PEND_QUE_JOB_LIMIT PEND_QUE_PJOB_LIMIT else 0 in
      let numUser := slots_left (u_maxJobs up) (u_cnt up) in
      let jReason :=
        if (jReason =? 0) && (numUser <? numProcessors) then by_size jp PEND_USER_JOB_LIMIT PEND_USER_PJOB_LIMIT else jReason in
      let minSlots := Z.min numQueue numUser in
      let '(jReason1, numUserGroup) := group_slots (users st) jp numProcessors (gPtr up) 0 INFINIT_INT in
      let minSlots := Z.min minSlots numUserGroup in
      let jReason := if negb (jReason1 =? 0) && (jReason =? 0) then jReason1 else jReason in
      let '(jReason, minSlots) := queue_user_slots qp jp numProcessors jReason minSlots in
      if jReason =? 0 then (minSlots, newReason) else (0, jReason)
  | _, _ => (0, newReason)
  end.

(** ** The limits on a host *)

(** What is left of a limit, and not less than 0. *)
Definition room (limit : Z) (acct : option counters) : Z :=
  Z.max 0 (match acct with Some a => wrap32 (limit - slots a) | None => limit end).

(** [(int) ceil((double)(pJobLimit * numCPUs))] *)
Definition per_cpu (pJobLimit : spec_float) (hp : hData) : Z := ceil_int (SFmul 24 128 pJobLimit (float_of (numCPUs hp))).

Fixpoint group_host_slots (us : gmap cstr uData) (h : cstr) (hp : hData) (gs : list cstr) (numSlots : Z) (reason : Z) : Z * Z :=
  match gs with
  | [] => (numSlots, reason)
  | g :: gs' =>
      match us !! g with
      | None => group_host_slots us h hp gs' numSlots reason
      | Some ugp =>
          if SFltb (u_pJobLimit ugp) INFINIT_FLOAT then
            let numSlots1 := room (per_cpu (u_pJobLimit ugp) hp) (u_hAcct ugp !! h) in
            if numSlots1 <=? 0 then (0, PEND_UGRP_PROC_JLIMIT) else group_host_slots us h hp gs' (Z.min numSlots numSlots1) reason
          else group_host_slots us h hp gs' numSlots reason
      end
  end.

(** The number of slots, which is also that of the available slots, and the reason. *)
Definition ckPerHULimits (us : gmap cstr uData) (h : cstr) (hp : hData) (u : cstr) (up : uData) (reason : Z) : Z * Z :=
  let numSlots := if h_uJobLimit hp =? INFINIT_INT then INFINIT_INT else room (h_uJobLimit hp) (ua_cnt <$> h_uAcct hp !! u) in
  if numSlots <=? 0 then (0, PEND_HOST_USR_JLIMIT)
  else
    let numSlots1 :=
      if SFltb (u_pJobLimit up) INFINIT_FLOAT then room (per_cpu (u_pJobLimit up) hp) (u_hAcct up !! h) else INFINIT_INT in
    if numSlots1 <=? 0 then (0, PEND_USER_PROC_JLIMIT)
    else group_host_slots us h hp (gPtr up) (Z.min numSlots numSlots1) reason.

(** What the account of a host in a queue knows of preemption: suspended slots that
    do not count ([num_availd_ssusp], which no code sets to another number than 0,
    mbd.misc.c:745), and slots that the queue can preempt. *)
Record hPreempt := mkPreempt { num_availd : Z; num_enable_preempt : Z }.

(** Slots, available slots and the reason.  [numCandPtr] and [numProcessors] are those of the job. *)
Definition getHostJobSlots1 (numNeeded : Z) (st : mbd) (jp : jData) (numCandPtr numProcessors : Z) (h : cstr) (hp : hData)
    (qp : qData) (up : uData) (pre : hPreempt) (noHULimits : bool) (newReason : Z) : Z * Z * Z :=
  let '(numSlots, numAvailSlots) :=
    if h_maxJobs hp =? INFINIT_INT then (INFINIT_INT, INFINIT_INT)
    else
      let '(n, a) :=
        match q_hAcct qp !! h with
        | Some _ =>
            let a := Z.max 0 (wrap32 (h_maxJobs hp - (numJobs (h_cnt hp) - num_availd pre))) in (wrap32 (a + num_enable_preempt pre), a)
        | None => let n := wrap32 (h_maxJobs hp - numJobs (h_cnt hp)) in (n, n)
        end in
      (Z.max 0 n, Z.max 0 a) in
  let limited := negb (h_maxJobs hp =? INFINIT_INT) in
  if limited && (numSlots <? numNeeded) then (0, 0, PEND_HOST_JOB_LIMIT)
  else
    let newReason :=
      if limited && (numCandPtr =? 1) && (numAvailSlots <? numProcessors) && (reason (hReasonTb st) (hostId hp) =? 0)
      then PEND_HOST_JOB_LIMIT else newReason in
    if noHULimits then (numSlots, numAvailSlots, newReason)
    else
      let '(numSlots1, newReason) := ckPerHULimits (users st) h hp (uPtr jp) up newReason in
      (Z.min numSlots numSlots1, Z.min numAvailSlots numSlots1, newReason).

(** Without slots to backfill. *)
Definition getHostJobSlots (st : mbd) (jp : jData) (numCandPtr numProcessors : Z) (h : cstr) (hp : hData) (qp : qData) (up : uData)
    (pre : hPreempt) (noHULimits : bool) (newReason : Z) : Z * Z * Z :=
  let hAcct := q_hAcct qp !! h in
  let numSlots := pJobLimitOk hp hAcct (q_pJobLimit qp) in
  if numSlots <? 1 then (0, 0, PEND_QUE_PROC_JLIMIT)
  else
    let numSlots1 := hJobLimitOk hAcct (q_hJobLimit qp) in
    if numSlots1 <? 1 then (0, 0, PEND_QUE_HOST_JLIMIT)
    else
      let numSlots := Z.min numSlots numSlots1 in
      let '(numSlots1, numAvailSlots1, newReason) :=
        getHostJobSlots1 1 st jp numCandPtr numProcessors h hp qp up pre noHULimits newReason in
      if numSlots1 =? 0 then (0, 0, newReason) else (Z.min numSlots numSlots1, Z.min numSlots numAvailSlots1, newReason).

(** ** The job and its candidates *)

(** A NULL host is the empty name. *)
Record candHost := mkCand { c_host : cstr; c_numSlots : Z; c_numAvailSlots : Z }.

(** The fields of a resource requirement and of an asked host that are used here. *)
Record resVal := mkResVal { maxNumHosts : Z; pTile : Z }.
Record askedHost := mkAsked { a_hostId : Z; priority : Z }.

(** What the queue and the submission of the job say. *)
Record bill := mkBill {
  numProcessors : Z; minProcLimit : Z; slotHoldTime : Z; acceptIntvl : Z;
  j_resVal : option resVal; q_resVal : option resVal; j_askedPtr : list askedHost; q_askedPtr : list askedHost }.

(** What the scheduler keeps in the job. *)
Record sched := mkSched {
  s_numSlots : Z; s_numAvailSlots : Z; candPtr : list candHost; execCandPtr : list candHost;
  numEligProc : Z; numAvailEligProc : Z; newReason : Z; reasonTb : list Z; processed : Z }.

(** The state while a job is dispatched. *)
Record dstate := mkD { mb : mbd; numLsbUsable : Z; jd : jData; sc : sched }.

Definition set_mb (st : mbd) s : dstate := mkD st (numLsbUsable s) (jd s) (sc s).
Definition set_jd (j : jData) s : dstate := mkD (mb s) (numLsbUsable s) j (sc s).
Definition set_sc (x : sched) s : dstate := mkD (mb s) (numLsbUsable s) (jd s) x.
Definition set_cands (n a : Z) (cs : list candHost) (tb : list Z) x : sched :=
  mkSched n a cs (execCandPtr x) (numEligProc x) (numAvailEligProc x) (newReason x) tb (processed x).
Definition set_exec (es : list candHost) (n a : Z) x : sched :=
  mkSched (s_numSlots x) (s_numAvailSlots x) (candPtr x) es n a (newReason x) (reasonTb x) (processed x).
Definition set_reasons (r : Z) (tb : list Z) x : sched :=
  mkSched (s_numSlots x) (s_numAvailSlots x) (candPtr x) (execCandPtr x) (numEligProc x) (numAvailEligProc x) r tb (processed x).
Definition set_processed (p : Z) x : sched :=
  mkSched (s_numSlots x) (s_numAvailSlots x) (candPtr x) (execCandPtr x) (numEligProc x) (numAvailEligProc x) (newReason x) (reasonTb x) p.
Definition stage (p : Z) s : dstate := set_sc (set_processed (Z.lor (processed (sc s)) p) (sc s)) s.

(** ** Reasons *)

(** A reason has the number of its host in the upper half. *)
Definition GET_HIGH (w : Z) : Z := Z.land (Z.shiftr w 16) 0xffff.
Definition PUT_HIGH (w s : Z) : Z := wrap32 (Z.lor (Z.shiftl s 16) (Z.land w 0xffff)).

Fixpoint addReason (tb : list Z) (hostId aReason : Z) : list Z :=
  match tb with
  | [] => [PUT_HIGH aReason hostId]
  | r :: tb' => if GET_HIGH r =? hostId then PUT_HIGH aReason hostId :: tb' else r :: addReason tb' hostId aReason
  end.

Definition allInOne (b : bill) : bool :=
  match j_resVal b with Some r => maxNumHosts r =? 1 | None => false end
  || (match j_resVal b with Some r => pTile r =? INFINIT_INT | None => true end
      && match q_resVal b with Some r => maxNumHosts r =? 1 | None => false end).

Definition needHandleFirstHost (b : bill) : Z :=
  match j_askedPtr b, q_askedPtr b with
  | a :: _, _ => if priority a =? FIRST_HOST_PRIORITY then a_hostId a else 0
  | [], a :: _ => if priority a =? FIRST_HOST_PRIORITY then a_hostId a else 0
  | [], [] => 0
  end.

(** The sort of the candidates of a job for one host in [getCandHosts]: hosts and
    slots are exchanged, the available slots stay where they are. *)
Fixpoint max_from (cs : list candHost) (k iMax : nat) (nMax : Z) : nat * Z :=
  match cs with
  | [] => (iMax, nMax)
  | c :: cs' => if nMax <? c_numSlots c then max_from cs' (S k) k (c_numSlots c) else max_from cs' (S k) iMax nMax
  end.

Definition exchange (cs : list candHost) (i iMax : nat) : list candHost :=
  match cs !! i, cs !! iMax with
  | Some a, Some b =>
      let cs := <[iMax := mkCand (c_host a) (c_numSlots a) (c_numAvailSlots b)]> cs in
      match cs !! i with
      | Some a' => <[i := mkCand (c_host b) (c_numSlots b) (c_numAvailSlots a')]> cs
      | None => cs
      end
  | _, _ => cs
  end.

Fixpoint sort_cands (n i : nat) (cs : list candHost) : list candHost :=
  match n with
  | O => cs
  | S n' =>
      match cs !! i with
      | Some c => sort_cands n' (S i) (exchange cs i (fst (max_from (drop (S i) cs) (S i) i (c_numSlots c))))
      | None => cs
      end
  end.

(** ** Slots of the candidates *)

(** The loop over the candidates; [seen] are those before, in their new order.  For a
    job on one host the chosen candidate is moved to the front. *)
Fixpoint num_slots (b : bill) (hs : gmap cstr hData) (x : sched) (seen cs : list candHost) (tb : list Z) (n a : Z) :
    list candHost * list Z * Z * Z :=
  match cs with
  | [] => (seen, tb, n, a)
  | c :: cs' =>
      let ns := Z.min (c_numSlots c) (s_numSlots x) in
      let na := Z.min (Z.min (c_numAvailSlots c) ns) (s_numAvailSlots x) in
      let c := mkCand (c_host c) ns na in
      let tb := if na <? numProcessors b
                then addReason tb (match hs !! c_host c with Some hp => hostId hp | None => 0 end) PEND_HOST_LESS_SLOTS else tb in
      if allInOne b && (needHandleFirstHost b =? 0) then
        if (if n =? 0 then 0 <? ns else (n <? numProcessors b) && (numProcessors b <=? ns))
        then num_slots b hs x (c :: seen) cs' tb ns na
        else num_slots b hs x (seen ++ [c]) cs' tb n a
      else num_slots b hs x (seen ++ [c]) cs' tb (wrap32 (n + ns)) (wrap32 (a + na))
  end.

Definition getNumSlots (b : bill) (s : dstate) : dstate :=
  let x := sc s in
  let '(cs, tb, n, a) := num_slots b (hosts (mb s)) x [] (candPtr x) (reasonTb x) 0 0 in
  set_sc (set_cands (Z.min (s_numSlots x) n) (Z.min (s_numAvailSlots x) a) cs tb x) s.

(** ** Slots of the job *)

(** Available slots of the candidates, as long as the job may use more and asks for more. *)
Fixpoint take_avail (avail most : Z) (cs : list candHost) (acc : Z) : list candHost * Z :=
  match cs with
  | [] => ([], acc)
  | c :: cs' =>
      if (acc <? avail) && (acc <? most) then
        let n := Z.min (Z.min (c_numAvailSlots c) (most - acc)) (avail - acc) in
        let '(es, acc') := take_avail avail most cs' (acc + n) in
        (mkCand (c_host c) n n :: es, acc')
      else ([], acc)
  end.

(** All slots of the host are reserved. *)
Definition all_reserved (hs : gmap cstr hData) (c : candHost) : bool :=
  match hs !! c_host c with Some hp => h_maxJobs hp <=? numRESERVE (h_cnt hp) | None => false end.

(** If these are not enough: slots of the same candidates that can be preempted, ... *)
Fixpoint take_more (hs : gmap cstr hData) (slots procs : Z) (cs es : list candHost) (acc : Z) : list candHost * Z :=
  match cs, es with
  | c :: cs', e :: es' =>
      if (acc <? slots) && (acc <? procs) then
        if all_reserved hs c then
          let '(rest, acc') := take_more hs slots procs cs' es' acc in (e :: rest, acc')
        else
          let n := Z.min (c_numSlots c - c_numAvailSlots e) (procs - acc) in
          let '(rest, acc') := take_more hs slots procs cs' es' (acc + n) in
          (mkCand (c_host e) (c_numSlots e + n) (c_numAvailSlots e) :: rest, acc')
      else (es, acc)
  | _, _ => (es, acc)
  end.

(** ... and of the other candidates. *)
Fixpoint take_new (hs : gmap cstr hData) (slots procs : Z) (cs : list candHost) (acc : Z) : list candHost * Z :=
  match cs with
  | [] => ([], acc)
  | c :: cs' =>
      if (acc <? slots) && (acc <? procs) then
        if all_reserved hs c then
          let '(rest, acc') := take_new hs slots procs cs' acc in (mkCand [] 0 0 :: rest, acc')
        else
          let n := Z.min (c_numSlots c) (procs - acc) in
          let '(rest, acc') := take_new hs slots procs cs' (acc + n) in
          (mkCand (c_host c) n (Z.min (c_numAvailSlots c) n) :: rest, acc')
      else ([], acc)
  end.

Definition getNumProcs (b : bill) (s : dstate) : dstate :=
  let x := sc s in
  let hs := hosts (mb s) in
  let '(es, a) := take_avail (s_numAvailSlots x) (maxNumProcessors (jd s)) (candPtr x) 0 in
  if a <? numProcessors b then
    let '(es1, n) := take_more hs (s_numSlots x) (numProcessors b) (candPtr x) es a in
    if (n <? s_numSlots x) && (n <? numProcessors b) then
      let '(es2, n) := take_new hs (s_numSlots x) (numProcessors b) (drop (length es) (candPtr x)) n in
      set_sc (set_exec (es1 ++ es2) n a x) s
    else set_sc (set_exec es1 n a x) s
  else set_sc (set_exec es a a x) s.

(** ** Hosts of the job *)

Definition slots_of_cand (e : candHost) : list cstr := replicate (Z.to_nat (c_numSlots e)) (c_host e).

(** [None]: there is nothing to allocate.  The array has [numEligProc] entries. *)
Definition allocHosts (s : dstate) : option dstate :=
  let x := sc s in
  if numEligProc x <=? 0 then None
  else
    let hPtr := concat (slots_of_cand <$> execCandPtr x) in
    Some (set_mb (set_hosts (fold_left (fun m h => alter (fun hp => set_numDispJobs (wrap32 (numDispJobs hp + 1)) hp) h m) hPtr (hosts (mb s))) (mb s))
      (set_jd (set_hPtr (jd s) hPtr) s)).

Definition first_hData (s : dstate) : option hData := match hPtr (jd s) with h :: _ => hosts (mb s) !! h | [] => None end.

(** [numUsable] of the queue of the job. *)
Definition use_up (n : Z) (s : dstate) : dstate :=
  let f qp := let u := q_usable qp in
              set_q_usable (mkUsable (wrap32 (numUsable u - n)) (q_numSlots u) (numReasons u) (qAttrib u) (q_reasonTb u)) qp in
  set_mb (set_queues (alter f (qPtr (jd s)) (queues (mb s))) (mb s)) s.

(** ** Starting the job *)

(** Replies of the slave daemon. *)
Definition ERR_NO_ERROR : Z := 1.
Definition ERR_BAD_REQ : Z := 2.
Definition ERR_NO_JOB : Z := 3.
Definition ERR_NO_FILE : Z := 4.
Definition ERR_FORK_FAIL : Z := 5.
Definition ERR_NO_USER : Z := 6.
Definition ERR_LOCK_FAIL : Z := 7.
Definition ERR_MEM : Z := 9.
Definition ERR_NULL : Z := 10.
Definition ERR_JOB_QUOTA : Z := 13.
Definition ERR_ROOT_JOB : Z := 16.
Definition ERR_PID_FAIL : Z := 21.

Definition start_reason (reply : Z) : Z :=
  if reply =? ERR_MEM then PEND_SBD_NO_MEM
  else if reply =? ERR_FORK_FAIL then PEND_SBD_NO_PROCESS
  else if reply =? ERR_PID_FAIL then PEND_SBD_GETPID
  else if reply =? ERR_ROOT_JOB then PEND_SBD_ROOT
  else if reply =? ERR_LOCK_FAIL then PEND_SBD_LOCK
  else if reply =? ERR_JOB_QUOTA then PEND_SBD_JOB_QUOTA
  else if reply =? ERR_NO_USER then PEND_HOST_NO_USER
  else if reply =? ERR_NO_FILE then PEND_JOB_NO_FILE
  else PEND_JOB_START_FAIL.

Definition set_newReason (r : Z) (s : dstate) : dstate := set_sc (set_reasons r (reasonTb (sc s)) (sc s)) s.

(** A failure that is due to the host makes the host unusable. *)
Definition jobStartError (reply : Z) (s : dstate) : dstate :=
  let r := start_reason reply in
  if (r =? PEND_JOB_NO_FILE) || (r =? PEND_HOST_NO_USER) || (r =? PEND_SBD_LOCK) || (r =? PEND_SBD_ROOT) then set_newReason r s
  else
    match first_hData s with
    | None => set_newReason r s
    | Some hp =>
        let s := set_newReason 0 (set_mb (set_hReasonTb (<[hostId hp := r]> (hReasonTb (mb s))) (mb s)) s) in
        let s := use_up (numCPUs hp) s in
        mkD (mb s) (wrap32 (numLsbUsable s - numCPUs hp)) (jd s) (sc s)
    end.

Section Dispatch.
Variable getQUsable : mbd -> qData -> qUsable.
(** The slave daemon, in attempt [n]: the reply and the state of the job in it. *)
Variables start_job signal_job : nat -> jData -> Z * Z.
(** The host with a zombie of the job. *)
Variable zombie : option cstr.
Variable enoughMaxUsableSlots : mbd -> jData -> bool.
(** The clock: whether the session has lasted too long after attempt [n]. *)
Variable stay_too_long : nat -> bool.
Variable maxJobPerSession : Z.
Variable b : bill.

(** Process numbers, times and the load of the hosts are left out. *)
Definition jobStarted (repStatus : Z) (s : dstate) : dstate :=
  if IS_FINISH (jStatus (jd s)) || IS_FINISH repStatus then s
  else
    let s := set_sc (set_reasons 0 [] (sc s)) s in
    let j := jd s in
    let st := if has (options j) SUB_EXCLUSIVE
              then set_hosts (fold_left (fun m h => alter (fun hp => set_hStatus (Z.lor (hStatus hp) HOST_STAT_EXCLUSIVE) hp) h m) (hPtr j) (hosts (mb s))) (mb s)
              else mb s in
    let j := if has (options j) SUB_PRE_EXEC then set_jStatus j (Z.lor (jStatus j) JOB_STAT_PRE_EXEC) else j in
    let '(st, j) := jStatusChange getQUsable false st j JOB_STAT_RUN in
    set_mb st (set_jd j s).

Definition dispatch_it (n : nat) (s : dstate) : bool * dstate :=
  if bool_decide (zombie = head (hPtr (jd s))) && bool_decide (is_Some zombie) then (false, set_newReason PEND_SBD_ZOMBIE s)
  else
    let '(reply, repStatus) := start_job n (jd s) in
    if reply =? ERR_NO_ERROR then (true, set_newReason 0 (jobStarted repStatus s))
    else if reply =? ERR_NULL then
      let '(reply, repStatus) := signal_job n (jd s) in
      if reply =? ERR_NO_ERROR then (true, set_newReason 0 (jobStarted repStatus s))
      else if reply =? ERR_NO_JOB then (false, set_newReason PEND_JOB_START_FAIL s)
      else (false, set_newReason PEND_JOB_START_UNKNWN s)
    else (false, jobStartError reply s).

(** The hosts of the job are closed to all queues for a while. *)
Definition close_host (h : cstr) (st : mbd) : mbd :=
  match hosts st !! h with
  | None => st
  | Some hp =>
      if (0 <? acceptIntvl b) || (maxJobPerSession <=? numDispJobs hp) then
        let f qp :=
          let qp := if OUT_SCHED_RS (q_reason qp (hostId hp)) then qp else set_q_reason (hostId hp) PEND_HOST_ACCPT_ONE qp in
          let u := q_usable qp in
          set_q_usable (mkUsable (wrap32 (numUsable u - 1)) (q_numSlots u) (numReasons u) (qAttrib u) (q_reasonTb u)) qp in
        set_queues (f <$> queues st) st
      else st
  end.
Definition setExecHostsAcceptInterval (s : dstate) : dstate :=
  set_mb (fold_left (fun st h => close_host h st) (hPtr (jd s)) (mb s)) s.

(** Nothing here answers [DISP_PREEMPT]. *)
Inductive dispatchAJobReturnCode := DISP_OK | DISP_FAIL | DISP_RESERVE | DISP_PREEMPT | DISP_NO_JOB | DISP_TIME_OUT.

Definition dealloc (s : dstate) : dstate :=
  let '(st, j) := deallocHosts (mb s) (jd s) in set_mb st (set_jd j s).

Definition removeCandHost (s : dstate) : dstate :=
  set_sc (set_cands (s_numSlots (sc s)) (s_numAvailSlots (sc s)) (tail (candPtr (sc s))) (reasonTb (sc s)) (sc s)) s.

(** [newReason & PEND_JOB_NO_FILE]: the reason is tested as if it were a set of bits. *)
Definition no_file (s : dstate) : bool := has (newReason (sc s)) PEND_JOB_NO_FILE.

Definition dispatchToCandHost (n : nat) (s : dstate) : dispatchAJobReturnCode * dstate :=
  match allocHosts s with
  | None => (DISP_NO_JOB, s)
  | Some s =>
      if numHostPtr (jd s) <? numProcessors b then (DISP_NO_JOB, dealloc s)
      else
        let '(ok, s) := dispatch_it n (set_newReason 0 s) in
        if ok then (DISP_OK, setExecHostsAcceptInterval s)
        else
          let s := dealloc s in
          (DISP_FAIL, if no_file s then s else removeCandHost s)
  end.

Definition free_reserved (s : dstate) : dstate :=
  if has (jStatus (jd s)) JOB_STAT_RESERVE then let '(st, j) := freeReserveSlots getQUsable (mb s) (jd s) in set_mb st (set_jd j s) else s.

(** The slots that the job can have, none of them started, are held for it. *)
Definition reserve (s : dstate) : dispatchAJobReturnCode * dstate :=
  let s := stage JOB_STAGE_DONE s in
  if (0 <? slotHoldTime b) && enoughMaxUsableSlots (mb s) (jd s) then
    match allocHosts s with
    | Some s =>
        let '(st, j) := reserveSlots getQUsable (mb s) (jd s) in
        (DISP_RESERVE, use_up (numHostPtr j) (set_mb st (set_jd j s)))
    | None => (DISP_NO_JOB, s)
    end
  else (DISP_NO_JOB, s).

(** Why a job with tasks on several hosts has not enough slots. *)
Definition spread_reason (s : dstate) : dstate :=
  let add r := set_sc (set_reasons (newReason (sc s)) (addReason (reasonTb (sc s)) 0 r) (sc s)) s in
  let spread v := match v with Some r => negb (pTile r =? INFINIT_INT) | None => false end in
  if spread (j_resVal b) then add PEND_JOB_SPREAD_TASK
  else if match j_resVal b with Some r => negb (maxNumHosts r =? 1) | None => true end && spread (q_resVal b) then add PEND_QUE_SPREAD_TASK
  else s.

(** The loop; [n] attempts have failed.  [None] when the fuel is used up. *)
Fixpoint dispatch_loop (fuel n : nat) (dontTryNextCandHost : bool) (s : dstate) : option (dispatchAJobReturnCode * dstate) :=
  match fuel with
  | O => None
  | S fuel' =>
      let s := getNumProcs b s in
      if numAvailEligProc (sc s) <? Z.max (numProcessors b) (minProcLimit b) then
        if slotHoldTime b <=? 0 then Some (DISP_NO_JOB, stage JOB_STAGE_DONE s)
        else Some (reserve (free_reserved (spread_reason s)))
      else
        let '(ret, s) := dispatchToCandHost n (free_reserved s) in
        match ret with
        | DISP_FAIL =>
            if dontTryNextCandHost then Some (DISP_FAIL, s)
            else if match candPtr (sc s) with [] => true | _ => false end || no_file s then Some (DISP_FAIL, stage JOB_STAGE_DONE s)
            else if stay_too_long n then Some (DISP_TIME_OUT, s)
            else dispatch_loop fuel' (S n) dontTryNextCandHost s
        | DISP_OK => Some (DISP_OK, stage JOB_STAGE_DISP (stage JOB_STAGE_DONE s))
        | _ => Some (ret, stage JOB_STAGE_DONE s)
        end
  end.

(** [delayed]: the queue waits before it schedules a new job. *)
Definition dispatchAJob (delayed dontTryNextCandHost : bool) (s : dstate) : option (dispatchAJobReturnCode * dstate) :=
  if delayed then Some (DISP_NO_JOB, stage JOB_STAGE_DONE (set_newReason PEND_JOB_DELAY_SCHED s))
  else
    let s := getNumSlots b s in
    dispatch_loop (S (length (candPtr (sc s)))) 0 dontTryNextCandHost s.
End Dispatch.
