(* ===== verification/DispatchInv.v ===== *)
(** * What dispatching preserves

    The limits of the configuration stay as they are in all updates of counters;
    changes of reasons, of usable processors and of the flags of hosts leave the
    counters alone. *)
From stdpp Require Import base gmap list.
From Stdlib Require Import ZArith Ascii Lia.
From Corelib Require Import SpecFloat.
From S2P Require Import Prelude CNum Counters Ledger CounterInv CounterTheorems Dispatch.
Local Open Scope Z_scope.

(** ** Limits *)

Definition qlim (qp : qData) : Z * Z * Z * spec_float := (q_maxJobs qp, q_uJobLimit qp, q_hJobLimit qp, q_pJobLimit qp).
Definition ulim (up : uData) : Z * spec_float := (u_maxJobs up, u_pJobLimit up).
Definition hlim (hp : hData) : Z * Z * Z * Z := (hostId hp, numCPUs hp, h_uJobLimit hp, h_maxJobs hp).

(** Users may be new. *)
Record same_limits (st st' : mbd) : Prop := {
  k_q : forall q, qlim <$> queues st' !! q = qlim <$> queues st !! q;
  k_u : forall u up, users st !! u = Some up -> ulim <$> users st' !! u = Some (ulim up);
  k_h : forall h, hlim <$> hosts st' !! h = hlim <$> hosts st !! h }.

#[export] Instance same_limits_order : PreOrder same_limits.
Proof.
  split; [split; [done|intros u up Hu; cbn; by rewrite Hu|done]|]. intros a x c [Q1 U1 H1] [Q2 U2 H2]. split.
  - intros q. by rewrite Q2.
  - intros u up Hu. specialize (U1 u up Hu). destruct (users x !! u) as [up1|] eqn:E; [|done]. rewrite (U2 u up1 E). exact U1.
  - intros h. by rewrite H2.
Qed.

(** One table changes. *)
Lemma limits_queues st qs : (forall q, qlim <$> qs !! q = qlim <$> queues st !! q) -> same_limits st (set_queues qs st).
Proof. intros H. split; [done|intros u up Hu; cbn; by rewrite Hu|done]. Qed.
Lemma limits_users st us : (forall u up, users st !! u = Some up -> ulim <$> us !! u = Some (ulim up)) -> same_limits st (set_users us st).
Proof. intros H. by split. Qed.
Lemma limits_hosts st hs : (forall h, hlim <$> hs !! h = hlim <$> hosts st !! h) -> same_limits st (set_hosts hs st).
Proof. intros H. split; [done|intros u up Hu; cbn; by rewrite Hu|done]. Qed.

Lemma fmap_alter_same {A B} (g : A -> B) (f : A -> A) (k : cstr) (m : gmap cstr A) (i : cstr) : (forall x, g (f x) = g x) -> g <$> alter f k m !! i = g <$> m !! i.
Proof.
  intros H. destruct (decide (k = i)) as [->|N]; [|by rewrite lookup_alter_ne]. rewrite lookup_alter_eq. destruct (m !! i); cbn; [by rewrite H|done].
Qed.
Lemma fmap_insert_same {A B} (g : A -> B) (k : cstr) (m : gmap cstr A) x y (i : cstr) : m !! k = Some y -> g x = g y -> g <$> <[k := x]> m !! i = g <$> m !! i.
Proof.
  intros H E. destruct (decide (k = i)) as [->|N]; [|by rewrite lookup_insert_ne]. rewrite lookup_insert_eq, H. cbn. by rewrite E.
Qed.
Lemma fmap_fold_same {A B} (g : A -> B) (f : A -> A) (l : list cstr) (m : gmap cstr A) (i : cstr) : (forall x, g (f x) = g x) ->
  g <$> fold_left (fun m k => alter f k m) l m !! i = g <$> m !! i.
Proof. intros H. revert m; induction l as [|k l IH]; intros m; [done|]. cbn. rewrite IH. by apply fmap_alter_same. Qed.

(** *** Queues *)

Lemma qlim_updUAcct j u d qp : qlim (updUAcct_q j u d qp) = qlim qp.
Proof. unfold updUAcct_q. destruct (updUAcct j u (q_uAcct qp) d) as [[a|] t]; done. Qed.

Lemma qlim_check s o n qp : qlim (CHECKQUSABLE s o n qp) = qlim qp.
Proof. unfold CHECKQUSABLE. by case_match. Qed.

Lemma qlim_host s h hp d qp : qlim (updHAcct_q_host s h hp d qp) = qlim qp.
Proof.
  unfold updHAcct_q_host. destruct (updHAcct_entry h (q_hAcct qp) d) as [a t]. cbn zeta.
  match goal with |- context [let '(_, _) := ?p in _] => set (pr := p) end.
  assert (X : qlim (snd pr) = qlim qp) by (unfold pr; case_match; cbn [snd]; rewrite qlim_check; done).
  destruct pr as [n qp1]. cbn in X. case_match; [|done]. rewrite qlim_check. exact X.
Qed.

Lemma qlim_hosts st hs d qp : qlim (updHAcct_q_loop st hs d qp) = qlim qp.
Proof.
  revert qp; induction hs as [|h hs IH]; intros qp; [done|]. cbn. rewrite IH. repeat case_match; [done|apply qlim_host|done].
Qed.

Lemma qlim_updHAcct g st j d qp : qlim (updHAcct_q g st j d qp) = qlim qp.
Proof.
  unfold updHAcct_q. destruct (hPtr j) as [|h hs]; [done|]. cbn zeta.
  assert (X : forall qp1, qlim (updHAcct_q_loop st (h :: hs) d (set_q_flags qp1 qp)) = qlim qp) by (intros; by rewrite qlim_hosts).
  case_match; exact (X _).
Qed.

Lemma qlim_ancestors j d l qp : qlim (fold_left (fun qp grp => updUAcct_q j grp d qp) l qp) = qlim qp.
Proof. revert qp; induction l as [|a l IH]; intros qp; [done|]. cbn. rewrite IH. apply qlim_updUAcct. Qed.

Lemma limits_updQaccount g st j d : same_limits st (updQaccount g st j d).
Proof.
  unfold updQaccount. destruct (queues st !! qPtr j) as [qp|] eqn:E; [|done]. cbn zeta. apply limits_queues. intros q.
  apply (fmap_insert_same qlim _ _ _ qp); [done|]. case_match; rewrite ?qlim_updHAcct, qlim_ancestors, qlim_updUAcct; done.
Qed.

(** *** Users *)

Lemma ulim_hosts st hs d up : ulim (updHAcct_u st hs d up) = ulim up.
Proof.
  revert up; induction hs as [|h hs IH]; intros up; [done|]. cbn. rewrite IH. case_match; [|done]. case_match; [done|].
  unfold updHAcct_u_host. destruct (updHAcct_entry h (u_hAcct up) d) as [a t]. cbn zeta. by repeat case_match.
Qed.

Lemma ulim_updUserData1 st j d up : ulim (updUserData1 st j d up) = ulim up.
Proof. unfold updUserData1. cbn zeta. case_match; [|done]. by rewrite ulim_hosts. Qed.

Lemma ulim_limit r up : ulim (snd (limit_u r up)) = ulim up.
Proof. done. Qed.

Lemma users_getUserData u us v vp : us !! v = Some vp -> getUserData u us !! v = Some vp.
Proof.
  intros H. unfold getUserData. destruct (us !! u) eqn:E; [done|]. assert (u <> v) by congruence. case_match; by rewrite lookup_insert_ne.
Qed.

Lemma limits_getUserData u st : same_limits st (set_users (getUserData u (users st)) st).
Proof. apply limits_users. intros v vp H. by rewrite (users_getUserData u _ v vp H). Qed.

Lemma limits_on_user u f st : (forall up, ulim (f up) = ulim up) -> same_limits st (on_user u f st).
Proof. intros F. apply limits_users. intros v vp H. rewrite (fmap_alter_same ulim) by done. by rewrite H. Qed.

Lemma limits_user_insert u up up' st : users st !! u = Some up -> ulim up' = ulim up -> same_limits st (set_users (<[u := up']> (users st)) st).
Proof. intros E F. apply limits_users. intros v vp H. rewrite (fmap_insert_same ulim _ _ _ up) by done. by rewrite H. Qed.

Lemma limits_init_groups st u : same_limits st (init_groups st u).
Proof.
  unfold init_groups. destruct (users st !! u); [|done]. case_match; [done|]. cbn zeta. etrans; [|by apply limits_on_user].
  apply limits_users. generalize (map group (List.filter (gMember u) (usergroups st))). intros l v vp Hv.
  assert (X : fold_left (fun us g => getUserData g us) l (users st) !! v = Some vp); [|by rewrite X].
  revert Hv. generalize (users st). induction l as [|a l IH]; intros us Hv; [done|]. cbn. apply IH. by apply users_getUserData.
Qed.

Lemma limits_updGroups j d gs : forall st n, same_limits st (snd (updGroups st j d gs n)).
Proof.
  induction gs as [|a gs IH]; intros st n; [done|]. cbn. destruct (users st !! a) as [ugp|] eqn:E; [|apply IH].
  assert (U : ulim (updUserData1 st j d (set_u_flags (Z.lor (u_flags ugp) USER_GROUP) ugp)) = ulim ugp) by (by rewrite ulim_updUserData1).
  destruct (newJob d); (etrans; [|apply IH]); apply (limits_user_insert a ugp); try done; exact U.
Qed.

Lemma limits_updUserData st j d : same_limits st (updUserData st j d).
Proof.
  unfold updUserData. cbn zeta. etrans; [apply (limits_getUserData (userName j))|]. set (st0 := set_users _ st).
  destruct (users st0 !! uPtr j) as [up|] eqn:E; [|done]. set (up1 := updUserData1 _ _ _ _).
  assert (U1 : ulim up1 = ulim up) by (unfold up1; by rewrite ulim_updUserData1).
  assert (L : forall n up2 r, ulim up2 = ulim up ->
    same_limits st0 (let st := set_users (<[uPtr j := up2]> (users st0)) st0 in
      match usergroups st with
      | [] => on_user (uPtr j) (set_u_numSlots n) st
      | _ => let st := init_groups st (uPtr j) in
             let '(n, st) := updGroups st j d (r st) n in on_user (uPtr j) (set_u_numSlots n) st
      end)).
  { intros n up2 r U. cbn zeta. etrans; [by apply (limits_user_insert (uPtr j) up)|]. set (st1 := set_users _ st0).
    case_match; [by apply limits_on_user|]. etrans; [apply (limits_init_groups st1 (uPtr j))|]. set (st2 := init_groups _ _).
    pose proof (limits_updGroups j d (r st2) st2 n) as G. destruct (updGroups _ _ _ _ _) as [n' st3]. etrans; [exact G|]. by apply limits_on_user. }
  destruct (newJob d).
  - apply (L None up1 (fun st => match users st !! uPtr j with Some up => gPtr up | None => [] end)); done.
  - cbn [limit_u]. apply (L _ _ (fun st => match users st !! uPtr j with Some up => gPtr up | None => [] end)). cbn. exact U1.
Qed.

(** *** Hosts *)

Lemma limits_hReason st t : same_limits st (set_hReasonTb t st).
Proof. split; [done|intros u up Hu; cbn; by rewrite Hu|done]. Qed.

Lemma limits_updUAcct_h j h hp d st : hosts st !! h = Some hp -> same_limits st (updUAcct_h j h hp d st).
Proof.
  intros E. unfold updUAcct_h. destruct (updUAcct _ _ _ _) as [[a|] t]; [|done]. cbn zeta. etrans; [|by apply limits_on_user].
  apply limits_hosts. intros i. by apply (fmap_insert_same hlim _ _ _ hp).
Qed.

Lemma limits_limit_h h hp hp0 st : hosts st !! h = Some hp0 -> hlim hp = hlim hp0 -> same_limits st (limit_h h hp st).
Proof.
  intros E F. unfold limit_h. cbn zeta. set (st1 := set_hReasonTb _ st).
  match goal with |- same_limits _ (set_hosts _ ?c) => set (st2 := c) end. etrans; [apply (limits_hReason st)|]. fold st1.
  assert (L : same_limits st1 st2 /\ hosts st2 = hosts st).
  { unfold st2. case_match; [done|]. split; [|done]. apply limits_queues. intros q. rewrite lookup_fmap. by destruct (queues st1 !! q). }
  destruct L as [L Eh]. etrans; [exact L|]. apply limits_hosts. intros i. rewrite Eh. apply (fmap_insert_same hlim _ _ _ hp0); [done|].
  rewrite <- F. match goal with |- hlim (if ?c then _ else _) = _ => by destruct c end.
Qed.

Lemma limits_updHostData_loop j d hs : forall st, same_limits st (updHostData_loop st j d hs).
Proof.
  induction hs as [|h hs IH]; intros st; [done|]. cbn. destruct (hosts st !! h) as [hp|] eqn:E; [|done]. case_match; [apply IH|].
  match goal with |- same_limits st (match hosts ?a !! h with _ => _ end) => set (st1 := a) end.
  assert (L : same_limits st st1) by (unfold st1; case_match; [by apply limits_updUAcct_h|done]).
  etrans; [exact L|]. destruct (hosts st1 !! h) as [hp1|] eqn:E1; [|done]. etrans; [|apply IH]. by apply (limits_limit_h h _ hp1).
Qed.

(** *** Changes of state *)

Lemma limits_update g o st j d nJ nR nS nU nV : same_limits st (update g o st j d nJ nR nS nU nV).
Proof.
  unfold update. etrans; [apply (limits_updQaccount g st j d)|]. destruct o.
  - etrans; [apply limits_updUserData|apply limits_updHostData_loop].
  - etrans; [apply limits_updHostData_loop|apply limits_updUserData].
Qed.
Lemma limits_update0 g st j d : same_limits st (update0 g st j d).
Proof. unfold update0. etrans; [apply limits_updQaccount|apply limits_updUserData]. Qed.

Lemma limits_updCounters g st j o : same_limits st (updCounters g st j o).
Proof. unfold updCounters. cbn zeta. repeat case_match; first [apply limits_update|apply limits_update0|done]. Qed.
Lemma limits_updRes g st j n : same_limits st (updResCounters g st j n).
Proof. unfold updResCounters. cbn zeta. repeat case_match; first [apply limits_update|done]. Qed.

Lemma limits_dealloc st j : same_limits st (fst (deallocHosts st j)).
Proof. cbn. apply limits_hosts. intros h. by apply fmap_fold_same. Qed.

Lemma limits_free g st j : same_limits st (fst (freeReserveSlots g st j)).
Proof. unfold freeReserveSlots. case_match; [done|]. etrans; [|apply limits_dealloc]. apply limits_updRes. Qed.

Lemma limits_reset g st j n : same_limits st (fst (resetReserve g st j n)).
Proof.
  unfold resetReserve. case_match; [done|]. pose proof (limits_free g st j) as F. destruct (freeReserveSlots g st j) as [st1 j1]. cbn in F.
  repeat case_match; simplify_eq; cbn; try done; try apply limits_updRes. etrans; [exact F|apply limits_updRes].
Qed.

Lemma limits_jStatusChange g m st j s : same_limits st (fst (jStatusChange g m st j s)).
Proof.
  unfold jStatusChange. cbn zeta. case_match; [done|]. pose proof (limits_reset g st j (MASK_STATUS s)) as R.
  destruct (if has (jStatus j) JOB_STAT_RESERVE then _ else _) as [st1 j1] eqn:E.
  assert (L : same_limits st st1) by (destruct (has (jStatus j) JOB_STAT_RESERVE); [by rewrite E in R|by simplify_eq]).
  repeat case_match; simplify_eq; cbn; (etrans; [exact L|apply limits_updCounters]).
Qed.
