(* ===== verification/DispatchSlots.v ===== *)
(** * The slots that a job gets

    [getNumSlots], [getNumProcs] and [allocHosts]: a job gets slots of its candidates only,
    from each not more than it has, and in all not more than it may use and asks for. *)
From stdpp Require Import base gmap list.
From Stdlib Require Import ZArith Ascii Lia.
From S2P Require Import Prelude CNum Counters Ledger Dispatch.
Local Open Scope Z_scope.

Definition cand_ok (c : candHost) : Prop := 0 <= c_numAvailSlots c <= c_numSlots c.

Fixpoint total (es : list candHost) : Z :=
  match es with
  | [] => 0
  | e :: es' => c_numSlots e + total es'
  end.

Lemma total_app es es' : total (es ++ es') = total es + total es'.
Proof. induction es as [|e es IH]; cbn; lia. Qed.

(** ** Slots of the candidates *)

Lemma Forall2_take_cons {A B} (P : A -> B -> Prop) x y l k : P x y -> Forall2 P l (take (length l) k) -> Forall2 P (x :: l) (take (length (x :: l)) (y :: k)).
Proof. intros. by constructor. Qed.

(** An entry takes from the candidate at its place. *)
Definition taken (e c : candHost) : Prop := c_host e = c_host c /\ c_numSlots e = c_numAvailSlots e /\ 0 <= c_numSlots e <= c_numAvailSlots c.

Lemma take_avail_spec avail most cs : Forall cand_ok cs -> forall acc es a, take_avail avail most cs acc = (es, a) ->
  acc <= a /\ (acc < a -> a <= avail) /\ (acc <= most -> a <= most) /\ a = acc + total es /\ Forall2 taken es (take (length es) cs).
Proof.
  induction 1 as [|c cs Hc _ IH]; intros acc es a E; cbn in E; [injection E as <- <-; cbn; repeat split; (constructor || lia)|].
  unfold cand_ok in Hc. destruct (Z.ltb_spec acc avail), (Z.ltb_spec acc most); cbn in E; try (injection E as <- <-; cbn; repeat split; (constructor || lia)).
  destruct (take_avail avail most cs _) as [es' a'] eqn:E'. injection E as <- <-. destruct (IH _ _ _ E') as (H1 & H2 & H3 & H4 & H5).
  split_and!; try (cbn; lia). apply Forall2_take_cons; [unfold taken; cbn; split_and!; [done|done|lia|lia]|done].
Qed.

(** More slots of the same hosts. *)
Definition same_hosts (e e' : candHost) : Prop := c_host e' = c_host e /\ c_numSlots e <= c_numSlots e'.

Lemma take_more_spec hs n p cs : Forall cand_ok cs -> forall es acc es' a, Forall2 taken es (take (length es) cs) ->
  take_more hs n p cs es acc = (es', a) -> acc <= a /\ (acc <= p -> a <= p) /\ a - acc = total es' - total es /\ Forall2 same_hosts es es'.
Proof.
  assert (R : forall es, Forall2 same_hosts es es) by (intros; apply Forall_Forall2_diag, Forall_true; done).
  induction 1 as [|c cs Hc _ IH]; intros es acc es' a T E.
  - destruct es; cbn in E; injection E as <- <-; (split; [lia|]; split; [lia|]; split; [lia|apply R]).
  - destruct es as [|e es]; cbn in E; [injection E as <- <-; (split; [lia|]; split; [lia|]; split; [lia|apply R])|].
    cbn in T. inversion T as [|? ? ? ? Te T']; subst. destruct Te as (Eh & En & Er). unfold cand_ok in Hc.
    destruct (Z.ltb_spec acc n), (Z.ltb_spec acc p); cbn in E;
      try (injection E as <- <-; (split; [lia|]; split; [lia|]; split; [lia|apply R])).
    destruct (all_reserved hs c).
    + destruct (take_more hs n p cs es acc) as [rest a'] eqn:E'. injection E as <- <-.
      destruct (IH _ _ _ _ T' E') as (H1 & H2 & H3 & H4). cbn. repeat split; try lia. constructor; [done|]. exact H4.
    + destruct (take_more hs n p cs es _) as [rest a'] eqn:E'. injection E as <- <-.
      destruct (IH _ _ _ _ T' E') as (H1 & H2 & H3 & H4). cbn. repeat split; try lia. constructor; [|done]. unfold same_hosts. cbn. lia || (split; [done|lia]).
Qed.

(** Entries of new hosts, or of none. *)
Definition from_cands (cs : list candHost) (e : candHost) : Prop := 0 <= c_numSlots e /\ (c_numSlots e = 0 \/ c_host e ∈ c_host <$> cs).

Lemma from_cands_cons c cs es : Forall (from_cands cs) es -> Forall (from_cands (c :: cs)) es.
Proof. intros F. eapply Forall_impl; [exact F|]. intros e [H1 H2]. split; [done|]. destruct H2; [by left|right; cbn; by apply list_elem_of_further]. Qed.

Lemma take_new_spec hs n p cs : Forall cand_ok cs -> forall acc es a, take_new hs n p cs acc = (es, a) ->
  acc <= a /\ (acc <= p -> a <= p) /\ a - acc = total es /\ Forall (from_cands cs) es.
Proof.
  induction 1 as [|c cs Hc _ IH]; intros acc es a E; cbn in E; [injection E as <- <-; cbn; repeat split; (constructor || lia)|].
  unfold cand_ok in Hc. destruct (Z.ltb_spec acc n), (Z.ltb_spec acc p); cbn in E; try (injection E as <- <-; cbn; repeat split; (constructor || lia)).
  destruct (all_reserved hs c).
  - destruct (take_new hs n p cs acc) as [rest a'] eqn:E'. injection E as <- <-. destruct (IH _ _ _ E') as (H1 & H2 & H3 & H4).
    cbn. repeat split; try lia. constructor; [split; cbn; [lia|by left]|by apply from_cands_cons].
  - destruct (take_new hs n p cs _) as [rest a'] eqn:E'. injection E as <- <-. destruct (IH _ _ _ E') as (H1 & H2 & H3 & H4).
    cbn. repeat split; try lia. constructor; [split; cbn; [lia|right; cbn; apply list_elem_of_here]|by apply from_cands_cons].
Qed.

Lemma taken_from es cs : Forall2 taken es (take (length es) cs) -> Forall (from_cands cs) es.
Proof.
  revert cs; induction es as [|e es IH]; intros cs T; [constructor|]. destruct cs as [|c cs]; cbn in T; [by inversion T|].
  inversion T as [|? ? ? ? Te T']; subst. destruct Te as (Eh & En & Er). constructor; [split; [lia|right; rewrite Eh; cbn; apply list_elem_of_here]|].
  by apply from_cands_cons, IH.
Qed.

Lemma more_from es es' cs : Forall (from_cands cs) es -> Forall2 same_hosts es es' ->
  (forall e, e ∈ es -> c_host e ∈ c_host <$> cs) -> Forall (from_cands cs) es'.
Proof.
  intros F H. induction H as [|e e' es es' [Eh En] H IH]; intros M; [constructor|]. inversion F as [|? ? [P _] F']; subst.
  constructor; [split; [lia|right; rewrite Eh; apply M, list_elem_of_here]|]. apply IH; [done|]. intros x Hx. by apply M, list_elem_of_further.
Qed.

Lemma taken_hosts es cs : Forall2 taken es (take (length es) cs) -> forall e, e ∈ es -> c_host e ∈ c_host <$> cs.
Proof.
  intros T e He. apply list_elem_of_lookup in He as [i Hi]. destruct (Forall2_lookup_l _ _ _ _ _ T Hi) as (c & Hc & Eh & _).
  rewrite Eh. apply list_elem_of_fmap. exists c. split; [done|]. apply lookup_take_Some in Hc as [Hc _]. by eapply list_elem_of_lookup_2.
Qed.

(** ** [getNumProcs] *)

(** What it leaves, and the slots it found. *)
Record procs (b : bill) (s s' : dstate) : Prop := {
  p_mb : mb s' = mb s; p_jd : jd s' = jd s; p_cand : candPtr (sc s') = candPtr (sc s);
  p_numSlots : s_numSlots (sc s') = s_numSlots (sc s); p_avail : s_numAvailSlots (sc s') = s_numAvailSlots (sc s);
  p_elig : numEligProc (sc s') = total (execCandPtr (sc s'));
  p_from : Forall (from_cands (candPtr (sc s))) (execCandPtr (sc s'));
  p_most : numEligProc (sc s') <= maxNumProcessors (jd s);
  p_enough : numProcessors b <= numAvailEligProc (sc s') ->
    numEligProc (sc s') = numAvailEligProc (sc s') /\ numEligProc (sc s') <= s_numAvailSlots (sc s)
    /\ Forall2 taken (execCandPtr (sc s')) (take (length (execCandPtr (sc s'))) (candPtr (sc s))) }.

Lemma getNumProcs_spec b s : Forall cand_ok (candPtr (sc s)) -> 1 <= numProcessors b <= maxNumProcessors (jd s) -> procs b s (getNumProcs b s).
Proof.
  intros Hc Hp. unfold getNumProcs. destruct (take_avail _ _ _ 0) as [es a] eqn:E1.
  destruct (take_avail_spec _ _ _ Hc _ _ _ E1) as (H1 & H2 & H3 & H4 & H5).
  destruct (Z.ltb_spec a (numProcessors b)) as [L|L].
  - destruct (take_more _ _ _ _ es a) as [es1 n] eqn:E2. destruct (take_more_spec _ _ _ _ Hc _ _ _ _ H5 E2) as (M1 & M2 & M3 & M4).
    pose proof (more_from _ _ _ (taken_from _ _ H5) M4 (taken_hosts _ _ H5)) as F1.
    destruct ((n <? _) && (n <? _)).
    + destruct (take_new _ _ _ _ n) as [es2 n'] eqn:E3.
      assert (Hd : Forall cand_ok (drop (length es) (candPtr (sc s)))) by (by apply Forall_drop).
      destruct (take_new_spec _ _ _ _ Hd _ _ _ E3) as (N1 & N2 & N3 & N4). split; cbn; try done; try lia.
      * rewrite total_app. lia.
      * apply Forall_app. split; [done|]. eapply Forall_impl; [exact N4|]. intros e [P1 P2]. split; [done|].
        destruct P2 as [P2|P2]; [by left|right]. rewrite fmap_drop in P2. apply list_elem_of_lookup in P2 as [i Hi].
        rewrite lookup_drop in Hi. by eapply list_elem_of_lookup_2.
    + split; cbn; try done; try lia.
  - split; cbn; try done; try lia; [by apply taken_from|]. intros _. split_and!; [done|lia|done].
Qed.

(** ** [getNumSlots] *)

(** The candidates keep their hosts and lose slots that the job may not use. *)
Definition narrowed (x : sched) (c c' : candHost) : Prop :=
  c_host c' = c_host c /\ c_numSlots c' <= c_numSlots c /\ c_numAvailSlots c' <= c_numAvailSlots c
  /\ (0 <= s_numSlots x -> 0 <= s_numAvailSlots x -> cand_ok c -> cand_ok c').

Lemma num_slots_spec b hs x cs : forall seen tb n a old, (exists p, p ≡ₚ old /\ Forall2 (narrowed x) p seen) ->
  let '(r, _, _, _) := num_slots b hs x seen cs tb n a in exists p, p ≡ₚ old ++ cs /\ Forall2 (narrowed x) p r.
Proof.
  induction cs as [|c cs IH]; intros seen tb n a old (p & P1 & P2); cbn [num_slots].
  - rewrite app_nil_r. by exists p.
  - set (c' := mkCand (c_host c) _ _). assert (N : narrowed x c c').
    { unfold narrowed, c', cand_ok. cbn. repeat split; lia. }
    assert (F : exists p', p' ≡ₚ old ++ [c] /\ Forall2 (narrowed x) p' (c' :: seen)).
    { exists (c :: p). split; [rewrite P1; apply Permutation_cons_append|by constructor]. }
    assert (Bk : exists p', p' ≡ₚ old ++ [c] /\ Forall2 (narrowed x) p' (seen ++ [c'])).
    { exists (p ++ [c]). split; [by rewrite P1|]. apply Forall2_app; [done|by constructor]. }
    replace (old ++ c :: cs) with ((old ++ [c]) ++ cs) by (by rewrite <- app_assoc).
    destruct (allInOne b && (needHandleFirstHost b =? 0)); [|by apply IH].
    match goal with |- context [if ?t then num_slots _ _ _ (_ :: _) _ _ _ _ else _] => destruct t end; by apply IH.
Qed.

(** ** [allocHosts] *)

Definition alloc_hosts (es : list candHost) : list cstr := concat (slots_of_cand <$> es).

Lemma alloc_length es cs : Forall (from_cands cs) es -> Z.of_nat (length (alloc_hosts es)) = total es.
Proof.
  unfold alloc_hosts. induction 1 as [|e es [H _] _ IH]; [done|]. cbn. unfold slots_of_cand at 1. rewrite length_app, length_replicate, Nat2Z.inj_add, IH. lia.
Qed.

Lemma alloc_from es cs : Forall (from_cands cs) es -> Forall (fun h => h ∈ c_host <$> cs) (alloc_hosts es).
Proof.
  unfold alloc_hosts. induction 1 as [|e es [H1 H2] _ IH]; [constructor|]. cbn. apply Forall_app. split; [|done].
  unfold slots_of_cand. destruct H2 as [->|H2]; [constructor|]. by apply Forall_replicate.
Qed.

Lemma occ_app x l l' : occ x (l ++ l') = occ x l + occ x l'.
Proof. induction l as [|y l IH]; [done|]. cbn. rewrite !occ_cons, IH. lia. Qed.

Lemma occ_replicate x y n : occ x (replicate n y) = if decide (y = x) then Z.of_nat n else 0.
Proof. induction n as [|n IH]; cbn; [by case_decide|]. rewrite occ_cons, IH. case_decide; lia. Qed.

(** From each candidate not more than it has. *)
Lemma alloc_occ es cs c : Forall cand_ok cs -> NoDup (c_host <$> cs) -> Forall2 taken es (take (length es) cs) -> c ∈ cs ->
  occ (c_host c) (alloc_hosts es) <= c_numAvailSlots c.
Proof.
  intros Ok. revert cs Ok; induction es as [|e es IH]; intros cs Ok Nd T Hc; [rewrite Forall_forall in Ok; specialize (Ok c Hc); unfold cand_ok in Ok; rewrite occ_nil; lia|].
  destruct cs as [|c0 cs]; [by apply not_elem_of_nil in Hc|]. cbn in T. inversion T as [|? ? ? ? Te T']; subst. destruct Te as (Eh & En & Er).
  cbn in Nd. apply NoDup_cons in Nd as [Ni Nd]. inversion Ok as [|? ? Oc Ok']; subst.
  unfold alloc_hosts. cbn. rewrite occ_app. unfold slots_of_cand at 1. rewrite occ_replicate. fold (alloc_hosts es). rewrite Eh.
  apply elem_of_cons in Hc as [->|Hc].
  - rewrite decide_True by done. rewrite occ_0; [lia|]. intros Hin.
    pose proof (alloc_from es cs (taken_from _ _ T')) as F. rewrite Forall_forall in F. by apply Ni, F.
  - rewrite decide_False; [specialize (IH cs Ok' Nd T' Hc); lia|]. intros E. apply Ni. rewrite E. by apply list_elem_of_fmap_2.
Qed.
