(* ===== verification/DispatchRun.v ===== *)
(** * A run of [dispatchAJob]

    Every step of the dispatch keeps the counters exact and the limits of the
    configuration as they are; the job keeps pending, with or without a
    reservation, or runs on hosts that its candidates had slots on. *)
From stdpp Require Import base gmap list.
From Stdlib Require Import ZArith Ascii Lia.
From Corelib Require Import SpecFloat.
From S2P Require Import Prelude CNum Counters Ledger CounterInv CounterTheorems Dispatch DispatchInv DispatchSlots.
Local Open Scope Z_scope.

Section Run.
Variable anc : cstr -> list cstr.
Variable groups : list gData.
Variable local : cstr -> bool.
Variable getQUsable : mbd -> qData -> qUsable.
Abbreviation ledger := (CounterInv.ledger anc groups local).

(** ** Changes that the counters do not see *)

Record quiet (st st' : mbd) : Prop := {
  n_limits : same_limits st st'; n_stage : mSchedStage st' = mSchedStage st;
  n_ledger : forall E, ledger E st -> ledger E st' }.

#[local] Instance quiet_order : PreOrder quiet.
Proof. split; [by split|]. intros a b c [L1 S1 X1] [L2 S2 X2]. split; [by etrans|congruence|auto]. Qed.

Lemma quiet_queues st qs : (forall q, (fun qp => (qlim qp, qview qp)) <$> qs !! q = (fun qp => (qlim qp, qview qp)) <$> queues st !! q) ->
  quiet st (set_queues qs st).
Proof.
  intros V. split; [apply limits_queues|done|].
  - intros q. specialize (V q). destruct (qs !! q), (queues st !! q); cbn in *; congruence.
  - intros E [C Ok P Q U H]. split; try done; [by apply (conf_ext _ _ _ st)|].
    intros q qp Hq. cbn in Hq. specialize (V q). rewrite Hq in V. destruct (queues st !! q) as [qp0|] eqn:E0; [|done]. cbn in V.
    assert (W : qview qp = qview qp0) by congruence. unfold qview in W. injection W as W1 W2 W3. unfold queue_exact. rewrite W1, W2, W3. by apply Q.
Qed.

Lemma quiet_hosts st hs : (forall h, (fun hp => (hlim hp, hview hp)) <$> hs !! h = (fun hp => (hlim hp, hview hp)) <$> hosts st !! h) ->
  quiet st (set_hosts hs st).
Proof.
  intros V. split; [apply limits_hosts|done|].
  - intros h. specialize (V h). destruct (hs !! h), (hosts st !! h); cbn in *; congruence.
  - intros E. apply hosts_ledger. intros h. specialize (V h). destruct (hs !! h), (hosts st !! h); cbn in *; congruence.
Qed.

Lemma quiet_hReason st t : quiet st (set_hReasonTb t st).
Proof. split; [apply limits_hReason|done|]. intros E [C Ok P Q U H]. split; try done. by apply (conf_ext _ _ _ st). Qed.

Lemma quiet_alter st (f : hData -> hData) l : (forall hp, (hlim (f hp), hview (f hp)) = (hlim hp, hview hp)) ->
  quiet st (set_hosts (fold_left (fun m h => alter f h m) l (hosts st)) st).
Proof. intros F. apply quiet_hosts. intros h. by apply (fmap_fold_same (fun hp => (hlim hp, hview hp))). Qed.

Lemma quiet_use_up n s : quiet (mb s) (mb (use_up n s)).
Proof. cbn. apply quiet_queues. intros q. by apply (fmap_alter_same (fun qp => (qlim qp, qview qp))). Qed.

Lemma quiet_error reply s : let s' := jobStartError reply s in quiet (mb s) (mb s') /\ jd s' = jd s /\ candPtr (sc s') = candPtr (sc s) /\ s_numAvailSlots (sc s') = s_numAvailSlots (sc s).
Proof.
  unfold jobStartError. cbn zeta. case_match; [done|]. case_match; [|done]. split; [|done].
  set (st1 := set_hReasonTb (<[hostId h := start_reason reply]> (hReasonTb (mb s))) (mb s)). transitivity st1; [apply quiet_hReason|].
  exact (quiet_use_up (numCPUs h) (set_newReason 0 (set_mb st1 s))).
Qed.

Lemma quiet_close maxJobPerSession b h st : quiet st (close_host maxJobPerSession b h st).
Proof.
  unfold close_host. case_match; [|done]. case_match; [|done]. apply quiet_queues. intros q. rewrite lookup_fmap.
  destruct (queues st !! q); cbn; [|done]. by case_match.
Qed.

Lemma quiet_accept maxJobPerSession b s : let s' := setExecHostsAcceptInterval maxJobPerSession b s in quiet (mb s) (mb s') /\ jd s' = jd s.
Proof.
  split; [|done]. cbn. generalize (mb s). induction (hPtr (jd s)) as [|h hs IH]; intros st; [done|]. cbn. etrans; [|apply IH]. apply quiet_close.
Qed.

(** Hosts that exist stay. *)
Lemma limits_host st st' h : same_limits st st' -> is_Some (hosts st !! h) -> is_Some (hosts st' !! h).
Proof. intros L [hp Hh]. pose proof (k_h _ _ L h) as K. rewrite Hh in K. destruct (hosts st' !! h); [by eexists|done]. Qed.

(** Exact counters after a quiet change. *)
Lemma exact_quiet js k j stage st st' : quiet st st' -> exact_with anc groups local js k j stage st -> exact_with anc groups local js k j stage st'.
Proof. intros [_ S X] [L Es]. split; [by apply X|congruence]. Qed.

(** ** The state of a dispatch *)

(** The same job, with other hosts and in another state. *)
Definition alike (j j' : jData) : Prop := userName j' = userName j /\ maxNumProcessors j' = maxNumProcessors j /\ qPtr j' = qPtr j.

Variables (js : gmap Z jData) (k stage : Z) (st0 : mbd) (j0 : jData) (b : bill).
(** What the job may use in all and on each host. *)
Variables (most : Z) (on_host : cstr -> Z).
Hypothesis Jobs : map_Forall (fun _ => job_ok) js.
Hypothesis Procs : 1 <= numProcessors b <= maxNumProcessors j0.
(** The charges fit an [int] with as many hosts as the job asks for. *)
Hypothesis Fits : forall hs, Z.of_nat (length hs) <= maxNumProcessors j0 -> bounded anc groups (<[k := set_hPtr j0 hs]> js).
Abbreviation exact_with := (CounterTheorems.exact_with anc groups local js k).

Definition usable (st : mbd) (c : candHost) : Prop := cand_ok c /\ is_Some (hosts st !! c_host c) /\ c_numAvailSlots c <= on_host (c_host c).

(** Exact counters, the limits of the start, and the job of the start. *)
Record kept (s : dstate) : Prop := {
  g_exact : exact_with (jd s) stage (mb s); g_limits : same_limits st0 (mb s); g_job : alike j0 (jd s); g_ok : job_ok (jd s) }.

(** The job is pending and has its candidates. *)
Record good (s : dstate) : Prop := {
  g_kept : kept s; g_pend : known (jStatus (jd s)) = JOB_STAT_PEND;
  g_cands : Forall (usable (mb s)) (candPtr (sc s)); g_nodup : NoDup (c_host <$> candPtr (sc s));
  g_avail : s_numAvailSlots (sc s) <= most }.

Lemma zsum_same (f : jData -> Z) (m : gmap Z jData) i x y : f x = f y -> zsum f (<[i := x]> m) = zsum f (<[i := y]> m).
Proof. intros E. rewrite <- !(insert_delete_eq m i), !zsum_insert by apply lookup_delete_eq. by rewrite E. Qed.

Lemma fits j hs : alike j0 j -> job_ok (set_hPtr j hs) -> Z.of_nat (length hs) <= maxNumProcessors j0 ->
  entries_ok anc groups (entries_of (<[k := set_hPtr j hs]> js)).
Proof.
  intros (A1 & A2 & A3) Ok Le. apply job_entries_ok; [by apply map_Forall_insert_2|]. specialize (Fits hs Le).
  unfold bounded in *. rewrite zsum_fmap in *. rewrite (zsum_same _ js k _ (set_hPtr j0 hs)); [done|].
  unfold share, entry_of, uPtr, numHostPtr. cbn. by rewrite A1, A2.
Qed.

(** Candidates stay usable when the daemon changes. *)
Lemma usable_limits st st' cs : same_limits st st' -> Forall (usable st) cs -> Forall (usable st') cs.
Proof. intros L F. eapply Forall_impl; [exact F|]. intros c (A & H & B). split_and!; [done| |done]. by apply (limits_host st). Qed.

(** A quiet change of a state that keeps the job and its candidates. *)
Lemma kept_quiet s s' : quiet (mb s) (mb s') -> jd s' = jd s -> kept s -> kept s'.
Proof.
  intros Q Ej [X L J O]. split; rewrite ?Ej; try done; [by apply (exact_quiet _ _ _ _ (mb s))|]. etrans; [exact L|apply Q].
Qed.

Lemma good_quiet s s' : quiet (mb s) (mb s') -> jd s' = jd s -> candPtr (sc s') = candPtr (sc s) -> s_numAvailSlots (sc s') = s_numAvailSlots (sc s) -> good s -> good s'.
Proof.
  intros Q Ej Ec Ea [K P C N A]. split; [by apply (kept_quiet s)|by rewrite Ej| |by rewrite Ec|by rewrite Ea].
  rewrite Ec. by apply (usable_limits (mb s)); [apply Q|].
Qed.

Lemma good_sc x s : candPtr x = candPtr (sc s) -> s_numAvailSlots x = s_numAvailSlots (sc s) -> good s -> good (set_sc x s).
Proof. intros Ec Ea. by apply good_quiet. Qed.
Lemma good_stage p s : good s -> good (Dispatch.stage p s).
Proof. by apply good_sc. Qed.

(** ** Slots *)

Lemma good_numSlots s : 0 <= s_numSlots (sc s) -> 0 <= s_numAvailSlots (sc s) -> good s -> good (getNumSlots b s).
Proof.
  intros H1 H2 [K P C N A]. unfold getNumSlots.
  pose proof (num_slots_spec b (hosts (mb s)) (sc s) (candPtr (sc s)) [] (reasonTb (sc s)) 0 0 []) as V.
  destruct (num_slots _ _ _ _ _ _ _ _) as [[[cs tb] n] a]. destruct V as (p & Pp & Fp); [by exists []|]. cbn in Pp.
  split; [by apply (kept_quiet s)|done|cbn..].
  - apply Forall_forall. intros c' Hc'. apply list_elem_of_lookup in Hc' as [i Hi].
    destruct (Forall2_lookup_r _ _ _ _ _ Fp Hi) as (c & Hc & E1 & E2 & E3 & E4). apply list_elem_of_lookup_2 in Hc. rewrite Pp in Hc.
    rewrite Forall_forall in C. destruct (C c Hc) as (C1 & C2 & C3). unfold usable. rewrite E1. split_and!; [by apply E4|done|lia].
  - assert (E : c_host <$> cs = c_host <$> p); [|by rewrite E, Pp]. clear -Fp. induction Fp as [|c c' p cs (E & _) _ IH]; [done|]. cbn. by rewrite E, IH.
  - lia.
Qed.

Lemma cands_ok s : good s -> Forall cand_ok (candPtr (sc s)).
Proof. intros G. eapply Forall_impl; [apply (g_cands _ G)|]. by intros c (? & _). Qed.

Lemma good_numProcs s : good s -> procs b s (getNumProcs b s) /\ good (getNumProcs b s).
Proof.
  intros G. destruct (g_job _ (g_kept _ G)) as (_ & M & _). pose proof (getNumProcs_spec b s (cands_ok s G)) as P.
  destruct P as [P1 P2 P3 P4 P5 P6 P7 P8 P9]; [by rewrite M|]. split; [by split|].
  apply (good_quiet s); try done. by rewrite P1.
Qed.

(** A pending job without a reservation. *)
Definition idle (s : dstate) : Prop := good s /\ reserved (jd s) = false.

Lemma idle_state s : idle s -> in_state JOB_STAT_PEND (jd s).
Proof. intros [G R]. by split; [apply G|]. Qed.

Lemma idle_free s : good s -> idle (free_reserved getQUsable s) /\ sc (free_reserved getQUsable s) = sc s.
Proof.
  intros G. unfold free_reserved. destruct (has (jStatus (jd s)) JOB_STAT_RESERVE) eqn:R; [|done]. destruct G as [[X L J O] P C N A].
  assert (Pm : pending (known (jStatus (jd s))) = true) by (by rewrite P).
  destruct (freeReserve_step anc groups local getQUsable js k stage (jd s) (mb s) R Pm O X) as [X' Ej].
  pose proof (limits_free getQUsable (mb s) (jd s)) as Lf. destruct (freeReserveSlots getQUsable (mb s) (jd s)) as [st j]. cbn in X', Ej, Lf. subst j.
  split; [|done]. split; [|cbn; by apply reserve_without]. split; cbn; try done.
  - split; cbn; try done; [by etrans|]. split; [apply O|]. cbn. by rewrite reserve_without.
  - by rewrite known_ldiff.
  - by apply (usable_limits (mb s)).
Qed.

Lemma idle_sc x s : candPtr x = candPtr (sc s) -> s_numAvailSlots x = s_numAvailSlots (sc s) -> idle s -> idle (set_sc x s).
Proof. intros Ec Ea [G R]. split; [by apply good_sc|done]. Qed.

(** Other hosts for the job. *)
Lemma idle_hosts s st hs : idle s -> quiet (mb s) st -> Z.of_nat (length hs) <= maxNumProcessors j0 -> Forall (fun h => is_Some (hosts st !! h)) hs ->
  idle (set_mb st (set_jd (set_hPtr (jd s) hs) s)).
Proof.
  intros I Q Le F. destruct (pending_no_units _ _ (idle_state s I) eq_refl) as [U D]. destruct I as [[[X L J O] P C N A] R].
  assert (O' : job_ok (set_hPtr (jd s) hs)) by (split; [apply O|]; cbn; by rewrite R).
  split; [|done]. split; cbn; try done; [|by apply (usable_limits (mb s)); [apply Q|]]. split; cbn; try done; [|by etrans; [|apply Q]].
  apply set_hosts_step; [done|apply D|done|by apply fits|]. by apply (exact_quiet _ _ _ _ (mb s)).
Qed.

Lemma idle_alloc s s' : idle s -> Forall (from_cands (candPtr (sc s))) (execCandPtr (sc s)) -> numEligProc (sc s) = total (execCandPtr (sc s)) ->
  numEligProc (sc s) <= maxNumProcessors j0 -> allocHosts s = Some s' ->
  idle s' /\ sc s' = sc s /\ hPtr (jd s') = alloc_hosts (execCandPtr (sc s)) /\ numHostPtr (jd s') = numEligProc (sc s).
Proof.
  intros I F T Le H. unfold allocHosts in H. case_match; [done|]. injection H as <-. fold (alloc_hosts (execCandPtr (sc s))).
  pose proof (alloc_length _ _ F) as Ln. split_and!; try done; [|cbn; unfold numHostPtr; cbn; lia].
  match goal with |- idle (set_mb ?x _) => set (st := x) end. assert (Q : quiet (mb s) st) by (by apply quiet_alter).
  apply idle_hosts; [done|done|lia|]. eapply Forall_impl; [apply (alloc_from _ _ F)|]. intros h Hh. cbv beta in *.
  apply list_elem_of_fmap in Hh as (c & -> & Hc). destruct I as [[_ _ C _ _] _]. rewrite Forall_forall in C. destruct (C c Hc) as (_ & Hs & _).
  by apply (limits_host (mb s)); [apply Q|].
Qed.

Lemma idle_dealloc s : idle s -> idle (dealloc s) /\ sc (dealloc s) = sc s.
Proof.
  intros I. split; [|done]. unfold dealloc. cbn. apply (idle_hosts s _ []); [done|by apply quiet_alter| |by constructor].
  destruct I as [[[_ _ (_ & M & _) [O _]] _ _ _ _] _]. cbn. lia.
Qed.

(** ** The start of the job *)

Lemma jStatusChange_run m st j : in_state JOB_STAT_PEND j -> let j' := snd (jStatusChange getQUsable m st j JOB_STAT_RUN) in in_state JOB_STAT_RUN j' /\ same_job j j'.
Proof.
  intros [K R]. unfold jStatusChange. cbn zeta. fold (known (jStatus j)) (known JOB_STAT_RUN). rewrite K. change (known JOB_STAT_RUN =? JOB_STAT_PEND) with false. cbn iota.
  rewrite R. assert (Ip : IS_PEND (jStatus j) = true) by (unfold IS_PEND; by rewrite (has_known _ JOB_STAT_PEND), K).
  rewrite Ip. change (IS_START (MASK_STATUS JOB_STAT_RUN) && true) with true. cbn. split; [|done]. apply (in_state_ldiff JOB_STAT_RUN (set_jStatus j _)); [done|done|].
  split; [apply (known_set (jStatus j) JOB_STAT_RUN)|]. cbn. pose proof (reserve_set (jStatus j) JOB_STAT_RUN) as E. cbn in E. by rewrite E.
Qed.

(** The job runs on the hosts that it was given, or its end was reported at once. *)
Lemma kept_started repStatus s : idle s -> let s' := jobStarted getQUsable repStatus s in
  kept s' /\ hPtr (jd s') = hPtr (jd s) /\ (known (jStatus (jd s')) = JOB_STAT_PEND \/ in_state JOB_STAT_RUN (jd s')).
Proof.
  intros I. pose proof (idle_state s I) as [Ks Rs]. destruct I as [[[X L J O] P C N A] R]. unfold jobStarted. cbn zeta. case_match; [split_and!; [by split|done|by left]|]. cbn [sc set_sc jd mb set_mb set_jd].
  match goal with |- context [jStatusChange _ _ ?a ?c _] => set (st := a); set (j := c) end.
  assert (Q : quiet (mb s) st) by (unfold st; case_match; [apply quiet_alter; intros hp; unfold hview, hkey; cbn; by rewrite has_lor|done]).
  assert (Ij : in_state JOB_STAT_PEND j /\ same_job (jd s) j).
  { unfold j. case_match; [|done]. split; [|done]. split; cbn; [by rewrite known_lor|by rewrite has_lor]. }
  destruct Ij as [Ij Sj]. assert (Oj : job_ok j) by (eapply in_state_ok; [done|]; destruct Sj as (_ & -> & _); apply O).
  assert (Xj : exact_with j stage st).
  { apply (exact_quiet _ _ _ _ (mb s)); [done|]. destruct (pending_no_units _ _ (conj Ks Rs) eq_refl) as [U _]. destruct (pending_no_units _ _ Ij eq_refl) as [U' _].
    apply (step_none anc groups local js k stage (jd s)); [done|done| |by rewrite U, U'|done]. destruct Ij as [K' R']. unfold slots_of. rewrite K', R', Ks, Rs.
    destruct Sj as (_ & -> & _ & Eh). unfold numHostPtr. by rewrite Eh. }
  assert (Mv : (known (jStatus j), known JOB_STAT_RUN) ∈ moves (reserved j)) by (destruct Ij as [-> ->]; vm_compute; do 2 apply list_elem_of_further; apply list_elem_of_here).
  destruct (jStatusChange_step anc groups local getQUsable false js k stage j JOB_STAT_RUN st Oj Mv Xj) as [X' O'].
  destruct (jStatusChange_run false st j Ij) as [I' S']. pose proof (limits_jStatusChange getQUsable false st j JOB_STAT_RUN) as Lc.
  destruct (jStatusChange getQUsable false st j JOB_STAT_RUN) as [st' j']. cbn in *. destruct Sj as (S1 & S2 & S3 & S4), S' as (T1 & T2 & T3 & T4), J as (J1 & J2 & J3).
  split_and!; [|congruence|by right]. split; cbn; [done| |split_and!; congruence|done]. etrans; [exact L|]. etrans; [apply Q|done].
Qed.

(** What [dispatch_it] leaves: a started job, or the job as it was. *)
Definition attempted (s : dstate) (ok : bool) (s' : dstate) : Prop :=
  if ok then kept s' /\ hPtr (jd s') = hPtr (jd s) /\ (known (jStatus (jd s')) = JOB_STAT_PEND \/ in_state JOB_STAT_RUN (jd s'))
  else idle s' /\ candPtr (sc s') = candPtr (sc s).

Lemma kept_it start_job signal_job zombie n s : idle s ->
  let r := dispatch_it getQUsable start_job signal_job zombie n s in attempted s (fst r) (snd r).
Proof.
  intros I. assert (F : forall r, attempted s false (set_newReason r s)) by (intros r; split; [by apply idle_sc|done]).
  assert (T : forall r, attempted s true (set_newReason 0 (jobStarted getQUsable r s))).
  { intros r. destruct (kept_started r s I) as (K & Eh & D). split_and!; try done. by apply (kept_quiet (jobStarted getQUsable r s)). }
  unfold dispatch_it. cbn zeta. case_match; [apply F|]. destruct (start_job n (jd s)) as [reply repStatus]. case_match; [apply T|]. case_match.
  - destruct (signal_job n (jd s)) as [reply' repStatus']. case_match; [apply T|]. case_match; apply F.
  - cbn. destruct (quiet_error reply s) as (Q & Ej & Ec & Ea). destruct I as [G R]. split; [|done]. split; [by apply (good_quiet s)|by rewrite Ej].
Qed.

Lemma idle_remove s : idle s -> idle (removeCandHost s).
Proof.
  intros [[K P C N A] R]. split; [|done]. split; cbn; try done; [by apply (kept_quiet s)| |].
  - destruct (candPtr (sc s)); [done|by inversion C].
  - destruct (candPtr (sc s)); [done|by inversion N].
Qed.

(** The job runs on not more slots than it may use, in all and on each host. *)
Definition granted (j : jData) : Prop :=
  numProcessors b <= numHostPtr j <= most /\ minProcLimit b <= numHostPtr j /\ numHostPtr j <= maxNumProcessors j0
  /\ forall h, h ∈ hPtr j -> occ h (hPtr j) <= on_host h.

(** The answers of a dispatch. *)
Definition answered (r : dispatchAJobReturnCode) (s : dstate) : Prop :=
  match r with
  | DISP_OK => kept s /\ granted (jd s) /\ (known (jStatus (jd s)) = JOB_STAT_PEND \/ in_state JOB_STAT_RUN (jd s))
  | DISP_RESERVE => kept s /\ known (jStatus (jd s)) = JOB_STAT_PEND /\ reserved (jd s) = true
  | _ => good s
  end.

(** The slots that [getNumProcs] found. *)
Lemma granted_alloc s s' j : good s -> procs b s s' -> Z.max (numProcessors b) (minProcLimit b) <= numAvailEligProc (sc s') ->
  hPtr j = alloc_hosts (execCandPtr (sc s')) -> granted j.
Proof.
  intros G [P1 P2 P3 P4 P5 P6 P7 P8 P9] Le Eh. destruct (P9 ltac:(lia)) as (E1 & E2 & E3). pose proof (g_avail _ G) as A.
  destruct (g_job _ (g_kept _ G)) as (_ & M & _).
  assert (Ln : numHostPtr j = numEligProc (sc s')) by (unfold numHostPtr; rewrite Eh, (alloc_length _ _ P7); done).
  unfold granted. split_and!; try lia. intros h Hh. rewrite Eh in *. pose proof (alloc_from _ _ P7) as F. rewrite Forall_forall in F.
  specialize (F h Hh). cbn in F. apply list_elem_of_fmap in F as (c & -> & Hc). pose proof (g_cands _ G) as C. rewrite Forall_forall in C.
  destruct (C c Hc) as (_ & _ & B). etrans; [|exact B]. apply (alloc_occ _ (candPtr (sc s))); [by apply cands_ok|apply G|done|done].
Qed.

Section Loop.
Variables start_job signal_job : nat -> jData -> Z * Z.
Variable zombie : option cstr.
Variable enoughMaxUsableSlots : mbd -> jData -> bool.
Variable stay_too_long : nat -> bool.
Variable maxJobPerSession : Z.
Abbreviation toCandHost := (dispatchToCandHost getQUsable start_job signal_job zombie maxJobPerSession b).
Abbreviation with_reserve j := (set_jStatus j (Z.lor (jStatus j) JOB_STAT_RESERVE)).
Abbreviation loop := (dispatch_loop getQUsable start_job signal_job zombie enoughMaxUsableSlots stay_too_long maxJobPerSession b).

Lemma answered_cand n s s1 s2 : good s -> procs b s s1 -> idle s2 -> sc s2 = sc s1 ->
  Z.max (numProcessors b) (minProcLimit b) <= numAvailEligProc (sc s1) -> answered (fst (toCandHost n s2)) (snd (toCandHost n s2)).
Proof.
  intros G P I Es Le. pose proof P as [P1 P2 P3 P4 P5 P6 P7 P8 P9]. destruct (g_job _ (g_kept _ G)) as (_ & M & _).
  unfold dispatchToCandHost. destruct (allocHosts s2) as [s3|] eqn:Ea; [|apply I].
  destruct (idle_alloc s2 s3 I) as (I3 & S3 & H3 & N3); [by rewrite Es, P3|by rewrite Es|by rewrite Es, <- M|done|].
  case_match; [apply (idle_dealloc s3 I3)|]. set (s4 := set_newReason 0 s3). assert (I4 : idle s4) by (by apply idle_sc).
  pose proof (kept_it start_job signal_job zombie n s4 I4) as T. destruct (dispatch_it _ _ _ _ n s4) as [ok s5]. destruct ok; cbn in T.
  - destruct T as (K & Eh & D). destruct (quiet_accept maxJobPerSession b s5) as [Q Ej]. cbn [fst snd answered]. rewrite Ej. split_and!; [by apply (kept_quiet s5)| |done].
    apply (granted_alloc s s1); try done. by rewrite Eh, <- Es.
  - cbn. destruct (idle_dealloc s5) as [I6 _]; [apply T|]. case_match; [apply I6|apply (idle_remove _ I6)].
Qed.

Lemma answered_reserve s s1 s2 : good s -> procs b s s1 -> idle s2 -> candPtr (sc s2) = candPtr (sc s1) ->
  execCandPtr (sc s2) = execCandPtr (sc s1) -> numEligProc (sc s2) = numEligProc (sc s1) ->
  answered (fst (reserve getQUsable enoughMaxUsableSlots b s2)) (snd (reserve getQUsable enoughMaxUsableSlots b s2)).
Proof.
  intros G [P1 P2 P3 P4 P5 P6 P7 P8 P9] I Ec Ex En. destruct (g_job _ (g_kept _ G)) as (_ & M & _). unfold reserve.
  set (s3 := Dispatch.stage JOB_STAGE_DONE s2). assert (I3 : idle s3) by (by apply idle_sc). case_match; [|apply I3].
  destruct (allocHosts s3) as [s4|] eqn:Ea; [|apply I3].
  destruct (idle_alloc s3 s4 I3) as (I4 & S4 & H4 & N4); cbn; [by rewrite Ec, Ex, P3|by rewrite En, Ex|by rewrite En, <- M|done|].
  destruct I4 as [[[X L J O] Pd C N A] R]. unfold reserveSlots. rewrite R. cbn.
  assert (O' : job_ok (with_reserve (jd s4))) by (split; [apply O|]; intros _ _; cbn in *; destruct J as (_ & -> & _); unfold numHostPtr in *; cbn in *; lia).
  split_and!; [|cbn; by rewrite known_lor|apply reserve_with].
  set (s5 := set_mb (updResCounters getQUsable (mb s4) (jd s4) (Z.lor (jStatus (jd s4)) JOB_STAT_RESERVE)) (set_jd (with_reserve (jd s4)) s4)).
  apply (kept_quiet s5 (use_up _ s5)); [apply quiet_use_up|done|]. split; cbn; try done.
  - apply updRes_set; try done. rewrite Pd. unfold reservable. apply list_elem_of_here.
  - etrans; [exact L|apply limits_updRes].
Qed.

Lemma loop_answered fuel : forall n d s r s', good s -> loop fuel n d s = Some (r, s') -> answered r s'.
Proof.
  induction fuel as [|fuel IH]; intros n d s r s' G E; [done|]. cbn [dispatch_loop] in E. destruct (good_numProcs s G) as [P G1].
  set (s1 := getNumProcs b s) in *. destruct (Z.ltb_spec (numAvailEligProc (sc s1)) (Z.max (numProcessors b) (minProcLimit b))) as [Lt|Le].
  - case_match; [injection E as <- <-; by apply good_stage|]. injection E as E.
    assert (G2 : good (spread_reason b s1) /\ candPtr (sc (spread_reason b s1)) = candPtr (sc s1)
      /\ execCandPtr (sc (spread_reason b s1)) = execCandPtr (sc s1) /\ numEligProc (sc (spread_reason b s1)) = numEligProc (sc s1)).
    { unfold spread_reason. cbn zeta. repeat case_match; (split; [|done]); try done; by apply good_sc. }
    destruct G2 as (G2 & E1 & E2 & E3). destruct (idle_free _ G2) as [I Es].
    pose proof (answered_reserve s s1 (free_reserved getQUsable (spread_reason b s1)) G P I) as R. rewrite E, Es in R. by apply R.
  - destruct (idle_free s1 G1) as [I Es]. pose proof (answered_cand n s s1 _ G P I Es Le) as R. destruct (toCandHost n _) as [ret s2]. cbn [fst snd] in R.
    destruct ret; cbn [answered] in R.
    + injection E as <- <-. destruct R as (K & R). split; [by apply (kept_quiet s2)|done].
    + destruct d; [injection E as <- <-; done|]. case_match; [injection E as <- <-; by apply good_stage|]. case_match; [injection E as <- <-; done|]. by eapply IH.
    + injection E as <- <-. destruct R as (K & R). split; [by apply (kept_quiet s2)|done].
    + injection E as <- <-. by apply good_stage.
    + injection E as <- <-. by apply good_stage.
    + injection E as <- <-. by apply good_stage.
Qed.

Lemma dispatch_answered delayed d s r s' : good s -> 0 <= s_numSlots (sc s) -> 0 <= s_numAvailSlots (sc s) ->
  dispatchAJob getQUsable start_job signal_job zombie enoughMaxUsableSlots stay_too_long maxJobPerSession b delayed d s = Some (r, s') -> answered r s'.
Proof.
  intros G H1 H2 E. unfold dispatchAJob in E. destruct delayed.
  - injection E as <- <-. apply good_stage, good_sc; done.
  - eapply loop_answered; [|exact E]. by apply good_numSlots.
Qed.
End Loop.
End Run.
