(* ===== verification/DispatchLimits.v ===== *)
(** * The limits and the counters

    What [cntUQSlots] and [getHostJobSlots] promise of a number of slots, and what
    a job that starts adds to the counters. *)
From stdpp Require Import base gmap list.
From Stdlib Require Import ZArith Ascii Lia.
From Corelib Require Import SpecFloat.
From S2P Require Import Prelude CNum Counters Ledger CounterInv CounterTheorems Dispatch DispatchInv DispatchSlots.
Local Open Scope Z_scope.

(** ** What the limits leave *)

(** [n] does not exceed a limit of the configuration. *)
Definition under (n limit : Z) : Prop := limit = INFINIT_INT \/ n <= limit.

(** The limit of a queue per processor on a host, as in [pJobLimitOk]. *)
Definition cpu_limit (pJobLimit : spec_float) (hp : hData) : Z :=
  ceil_int (SFmul 24 128 pJobLimit (float_of (if numCPUs hp =? 0 then 1 else numCPUs hp))).

Lemma wrap32_le z : - 2 ^ 31 <= z -> wrap32 z <= z.
Proof. intros H. unfold wrap32. pose proof (Z.mod_le (z + 2 ^ 31) (2 ^ 32)). lia. Qed.

(** A number of slots that a limit leaves. *)
Lemma left_under limit c n : 1 <= n <= slots_left limit c -> 0 <= limit -> numJobs c - numPEND c < 2 ^ 31 ->
  under (numJobs c - numPEND c + n) limit.
Proof.
  unfold slots_left, under. intros H L F. destruct (Z.eqb_spec limit INFINIT_INT) as [->|]; [by left|right].
  pose proof (wrap32_le (limit - (numJobs c - numPEND c))). lia.
Qed.

Lemma wrapped_under limit used n : n <= wrap32 (limit - used) -> 0 <= limit -> used < 2 ^ 31 -> used + n <= limit.
Proof. intros H L F. pose proof (wrap32_le (limit - used)). lia. Qed.

Lemma room_under limit a n : 1 <= n <= room limit a -> 0 <= limit -> slots (default czero a) < 2 ^ 31 -> slots (default czero a) + n <= limit.
Proof. unfold room. destruct a as [a|]; cbn; intros H L F; [apply wrapped_under; lia|unfold slots; cbn; lia]. Qed.

(** ** [cntUQSlots] *)

Lemma group_slots_min us jp p gs : forall r n, snd (group_slots us jp p gs r n) <= n
  /\ forall g ugp, g ∈ gs -> us !! g = Some ugp -> snd (group_slots us jp p gs r n) <= slots_left (u_maxJobs ugp) (u_cnt ugp).
Proof.
  induction gs as [|g gs IH]; intros r n; cbn; [split; [done|]; intros ? ? H; by apply not_elem_of_nil in H|].
  destruct (us !! g) as [ugp|] eqn:E.
  - match goal with |- context [group_slots us jp p gs ?x ?y] => destruct (IH x y) as [H1 H2] end. split; [lia|].
    intros g' ugp' Hg E'. apply elem_of_cons in Hg as [->|Hg]; [|by apply (H2 g')]. simplify_eq. lia.
  - destruct (IH r n) as [H1 H2]. split; [done|]. intros g' ugp' Hg E'. apply elem_of_cons in Hg as [->|Hg]; [congruence|by apply (H2 g')].
Qed.

(** A job that may use [n] slots may use them by every limit of queue, user and groups. *)
Record may_use (st : mbd) (j : jData) (n : Z) (qp : qData) (up : uData) : Prop := {
  m_queue : n <= slots_left (q_maxJobs qp) (q_cnt qp);
  m_user : forall u vp, u ∈ uPtr j :: gPtr up -> users st !! u = Some vp -> n <= slots_left (u_maxJobs vp) (u_cnt vp);
  m_acct : forall a, q_uAcct qp !! uPtr j = Some a -> q_uJobLimit qp < INFINIT_INT -> n <= wrap32 (q_uJobLimit qp - slots (ua_cnt a)) }.

Lemma cntUQSlots_spec st j p t r n : 1 <= n <= fst (cntUQSlots st j p t r) ->
  exists qp up, queues st !! qPtr j = Some qp /\ users st !! uPtr j = Some up /\ may_use st j n qp up.
Proof.
  unfold cntUQSlots. intros H. destruct (queues st !! qPtr j) as [qp|] eqn:Eq; [|cbn in H; lia]. destruct (users st !! uPtr j) as [up|] eqn:Eu; [|cbn in H; lia].
  exists qp, up. split_and!; [done|done|]. pose proof (group_slots_min (users st) j p (gPtr up) 0 INFINIT_INT) as G.
  cbn zeta in H. destruct (group_slots (users st) j p (gPtr up) 0 INFINIT_INT) as [r1 ng]. cbn in G. destruct G as [G1 G2].
  match goal with H : context [queue_user_slots qp j p ?x ?y] |- _ => set (jr := x) in H; set (ms := y) in H end.
  assert (K : n <= ms /\ forall a, q_uAcct qp !! uPtr j = Some a -> q_uJobLimit qp < INFINIT_INT -> n <= wrap32 (q_uJobLimit qp - slots (ua_cnt a))).
  { unfold queue_user_slots in H. destruct (Z.ltb_spec (q_uJobLimit qp) INFINIT_INT) as [Lt|Ge].
    - destruct (Z.eqb_spec jr 0) as [E0|N0]; cbn [andb] in H; [|destruct (Z.eqb_spec jr 0); [done|cbn in H; lia]].
      destruct (q_uAcct qp !! uPtr j) as [a|]; [|rewrite E0 in H; cbn in H; split; [lia|done]].
      destruct (OUT_SCHED_RS (ua_reason a)) eqn:Eo; [destruct (Z.eqb_spec (ua_reason a) 0) as [E1|]; [rewrite E1 in Eo; done|cbn in H; lia]|].
      cbn [fst snd] in H. assert (1 <= n <= Z.min ms (wrap32 (q_uJobLimit qp - slots (ua_cnt a)))) by (case_match; [done|cbn in H; lia]).
      split; [lia|]. intros a' Ea _. simplify_eq. lia.
    - rewrite andb_false_r in H. split; [case_match; cbn in H; lia|]. intros; lia. }
  destruct K as [K1 K2]. unfold ms in K1. split; [lia| |done]. intros u vp Hu Ev. apply elem_of_cons in Hu as [->|Hu]; [simplify_eq; lia|].
  specialize (G2 u vp Hu Ev). lia.
Qed.

(** ** [getHostJobSlots] *)

Lemma group_host_slots_min us h hp gs : forall n r, fst (group_host_slots us h hp gs n r) <= Z.max 0 n
  /\ (1 <= fst (group_host_slots us h hp gs n r) -> forall g ugp, g ∈ gs -> us !! g = Some ugp -> SFltb (u_pJobLimit ugp) INFINIT_FLOAT = true ->
      fst (group_host_slots us h hp gs n r) <= room (per_cpu (u_pJobLimit ugp) hp) (u_hAcct ugp !! h)).
Proof.
  induction gs as [|g gs IH]; intros n r; cbn; [split; [lia|]; intros _ ? ? H; by apply not_elem_of_nil in H|].
  destruct (us !! g) as [ugp|] eqn:E.
  - destruct (SFltb (u_pJobLimit ugp) INFINIT_FLOAT) eqn:El.
    + set (m := room (per_cpu (u_pJobLimit ugp) hp) (u_hAcct ugp !! h)). destruct (Z.leb_spec m 0); [cbn; split; lia|].
      destruct (IH (Z.min n m) r) as [H1 H2]. split; [lia|]. intros H0 g' ugp' Hg E' El'. apply elem_of_cons in Hg as [->|Hg]; [|by apply (H2 H0 g')].
      simplify_eq. fold m. lia.
    + destruct (IH n r) as [H1 H2]. split; [done|]. intros H0 g' ugp' Hg E' El'. apply elem_of_cons in Hg as [->|Hg]; [congruence|by apply (H2 H0 g')].
  - destruct (IH n r) as [H1 H2]. split; [done|]. intros H0 g' ugp' Hg E' El'. apply elem_of_cons in Hg as [->|Hg]; [congruence|by apply (H2 H0 g')].
Qed.

(** The slots that the limits of users leave on a host. *)
Record user_room (st : mbd) (j : jData) (h : cstr) (hp : hData) (up : uData) (n : Z) : Prop := {
  u_room : h_uJobLimit hp = INFINIT_INT \/ n <= room (h_uJobLimit hp) (ua_cnt <$> h_uAcct hp !! uPtr j);
  u_cpus : forall u vp, u ∈ uPtr j :: gPtr up -> users st !! u = Some vp -> SFltb (u_pJobLimit vp) INFINIT_FLOAT = true ->
    n <= room (per_cpu (u_pJobLimit vp) hp) (u_hAcct vp !! h) }.

Lemma user_room_le st j h hp up m n : n <= m -> user_room st j h hp up m -> user_room st j h hp up n.
Proof. intros Le [[U|U] C]; (split; [|intros u vp Hu Ev Es; specialize (C u vp Hu Ev Es); lia]); [by left|right; lia]. Qed.

Lemma ckPerHULimits_spec st j h hp up r : users st !! uPtr j = Some up -> 1 <= fst (ckPerHULimits (users st) h hp (uPtr j) up r) ->
  user_room st j h hp up (fst (ckPerHULimits (users st) h hp (uPtr j) up r)).
Proof.
  intros Eu. unfold ckPerHULimits. set (a := if h_uJobLimit hp =? INFINIT_INT then _ else _). set (c := if SFltb (u_pJobLimit up) INFINIT_FLOAT then _ else _). cbn zeta.
  destruct (Z.leb_spec a 0); [cbn; lia|]. destruct (Z.leb_spec c 0); [cbn; lia|]. intros H1.
  destruct (group_host_slots_min (users st) h hp (gPtr up) (Z.min a c) r) as [G1 G2]. split.
  - unfold a in *. destruct (Z.eqb_spec (h_uJobLimit hp) INFINIT_INT); [by left|right; lia].
  - intros u vp Hu Ev Es. apply elem_of_cons in Hu as [->|Hu]; [|by apply (G2 H1 u)]. simplify_eq. unfold c in *. rewrite Es in *. lia.
Qed.

(** The slots that every limit leaves on a host. *)
Record host_room (st : mbd) (j : jData) (h : cstr) (hp : hData) (qp : qData) (up : uData) (pre : hPreempt) (n : Z) : Prop := {
  r_cpus : n <= pJobLimitOk hp (q_hAcct qp !! h) (q_pJobLimit qp);
  r_queue : n <= hJobLimitOk (q_hAcct qp !! h) (q_hJobLimit qp);
  r_host : h_maxJobs hp = INFINIT_INT \/ n <= wrap32 (h_maxJobs hp - (numJobs (h_cnt hp) - match q_hAcct qp !! h with Some _ => num_availd pre | None => 0 end));
  r_user : user_room st j h hp up n }.

Lemma getHostJobSlots_spec st j nc np h hp qp up pre r n : users st !! uPtr j = Some up ->
  1 <= n <= snd (fst (getHostJobSlots st j nc np h hp qp up pre false r)) -> host_room st j h hp qp up pre n.
Proof.
  intros Eu. unfold getHostJobSlots, getHostJobSlots1. cbn zeta. destruct (Z.ltb_spec (pJobLimitOk hp (q_hAcct qp !! h) (q_pJobLimit qp)) 1); [cbn; lia|].
  destruct (Z.ltb_spec (hJobLimitOk (q_hAcct qp !! h) (q_hJobLimit qp)) 1); [cbn; lia|].
  match goal with |- context [if ?t then (INFINIT_INT, INFINIT_INT) else ?y] => set (pr := if t then (INFINIT_INT, INFINIT_INT) else y) end.
  assert (Hh : h_maxJobs hp = INFINIT_INT \/ snd pr <= Z.max 0 (wrap32 (h_maxJobs hp - (numJobs (h_cnt hp) - match q_hAcct qp !! h with Some _ => num_availd pre | None => 0 end)))).
  { unfold pr. destruct (Z.eqb_spec (h_maxJobs hp) INFINIT_INT); [by left|right]. destruct (q_hAcct qp !! h); cbv beta iota zeta delta [snd]; [lia|]. rewrite Z.sub_0_r. lia. }
  destruct pr as [ns na]. cbn [snd] in Hh. match goal with |- context [if ?t && (ns <? 1) then _ else _] => destruct (t && (ns <? 1)) end; [cbn; lia|].
  match goal with |- context [ckPerHULimits _ _ _ _ _ ?x] => pose proof (ckPerHULimits_spec st j h hp up x Eu) as U; destruct (ckPerHULimits (users st) h hp (uPtr j) up x) as [n1 r1] end.
  cbn [fst] in U. destruct (Z.min ns n1 =? 0); cbn; [lia|]. intros Hn. split; [lia|lia| |apply (user_room_le _ _ _ _ _ n1); [lia|]; apply U; lia].
  destruct Hh as [Hh|Hh]; [by left|right; lia].
Qed.
