(* ===== verification/DispatchGrowth.v ===== *)
(** * What a job that starts adds to the counters

    Both states, before and after the start of the job, have exact counters: they
    differ by the contributions of this job. *)
From stdpp Require Import base gmap list.
From Stdlib Require Import ZArith Ascii Lia.
From Corelib Require Import SpecFloat.
From S2P Require Import Prelude CNum Counters Ledger CounterInv CounterTheorems Dispatch DispatchInv DispatchSlots DispatchRun.
Local Open Scope Z_scope.

(** ** Linear measures of counters *)

(** Slots that are not waiting. *)
Definition active (c : counters) : Z := numJobs c - numPEND c.

Class Linear (f : counters -> Z) : Prop := {
  lin_add : forall a c, f (cadd a c) = f a + f c;
  lin_scale : forall n a, f (cscale n a) = n * f a }.

#[export] Instance active_linear : Linear active.
Proof. split; intros; unfold active; cbn; lia. Qed.
#[export] Instance slots_linear : Linear slots.
Proof. split; intros; unfold slots; cbn; lia. Qed.
#[export] Instance numJobs_linear : Linear numJobs.
Proof. by split. Qed.

(** Slots that wait or are reserved. *)
Definition waiting (c : counters) : Z := numPEND c + numRESERVE c.
#[export] Instance waiting_linear : Linear waiting.
Proof. split; intros; unfold waiting; cbn; lia. Qed.

Lemma lin_zero f `{Linear f} : f czero = 0.
Proof. rewrite <- (cscale_0_l czero), lin_scale. lia. Qed.

Lemma lin_csum {A} f `{Linear f} (g : A -> counters) m : f (csum g m) = zsum (fun x => f (g x)) m.
Proof.
  induction m as [|i x m Hi IH] using map_ind; [unfold zsum; by rewrite csum_empty, lin_zero, map_fold_empty|].
  by rewrite csum_insert, zsum_insert, lin_add, IH.
Qed.

Lemma zsum_le {A} (f g : A -> Z) (m : gmap Z A) : (forall k x, m !! k = Some x -> f x <= g x) -> zsum f m <= zsum g m.
Proof.
  induction m as [|i x m Hi IH] using map_ind; intros H; [done|]. rewrite !zsum_insert by done.
  assert (f x <= g x) by (apply (H i); apply lookup_insert_eq).
  assert (zsum f m <= zsum g m); [|lia]. apply IH. intros k y Hk. apply (H k). rewrite lookup_insert_ne; [done|]. congruence.
Qed.


Lemma occ_nodup x l : NoDup l -> occ x l <= 1.
Proof.
  induction 1 as [|y l Hy _ IH]; [rewrite occ_nil; lia|]. rewrite occ_cons. destruct (decide (y = x)) as [->|]; [|lia]. rewrite occ_0 by done. lia.
Qed.

(** ** One job *)

Section Growth.
Variable anc : cstr -> list cstr.
Variable groups : list gData.
Variable local : cstr -> bool.
Variables (js : gmap Z jData) (k : Z).
Abbreviation charge_with w v j := (charge w v (entries_of (<[k := j]> js))).

Lemma charge_job w v j : charge_with w v j = cadd (cscale (w (entry_of j)) (v (entry_of j))) (charge w v (entries_of (delete k js))).
Proof. unfold charge. rewrite <- insert_delete_eq, fmap_insert, csum_insert; [done|]. by rewrite lookup_fmap, lookup_delete_eq. Qed.

Lemma grows f `{Linear f} w v j j' n : 0 <= w (entry_of j) * f (v (entry_of j)) -> w (entry_of j') * f (v (entry_of j')) <= n ->
  f (charge_with w v j') <= f (charge_with w v j) + n.
Proof. intros H1 H2. rewrite !charge_job, !lin_add, !lin_scale. lia. Qed.

(** Slots are in range together, not only each kind of them. *)
Lemma slots_range j : job_ok j -> 0 <= slots (no_jobs (slots_of j)) <= e_size (entry_of j) /\ 0 <= slots (started (units_of j)) <= 1.
Proof.
  intros [H1 H2]. assert (0 <= numHostPtr j) by (unfold numHostPtr; lia). unfold slots_of, units_of, units_at, slots_at, slots. cbn [e_size entry_of].
  destruct (pending (known (jStatus j))), (reserved j); try specialize (H2 eq_refl eq_refl); repeat case_match; cbn; lia.
Qed.

Definition weight_ok (w : entry -> Z) : Prop := forall e, 0 <= w e <= Z.of_nat (length (payers groups (e_u e))) + Z.of_nat (length (anc (e_u e))) + 1.

Lemma slots_fit (w : entry -> Z) (v : entry -> counters) jobs : entries_ok anc groups (entries_of jobs) ->
  (forall j, job_ok j -> slots (cscale (w (entry_of j)) (v (entry_of j))) <= share anc groups (entry_of j)) ->
  map_Forall (fun _ => job_ok) jobs -> slots (charge w v (entries_of jobs)) < 2 ^ 31.
Proof.
  intros [_ B] H J. unfold charge. rewrite (lin_csum slots). eapply Z.le_lt_trans; [|exact B]. apply zsum_le. intros i e He.
  rewrite lookup_fmap in He. apply fmap_Some in He as (j & Hj & ->). apply H. by apply (J i).
Qed.

Lemma fit_jobs w jobs : weight_ok w -> entries_ok anc groups (entries_of jobs) -> map_Forall (fun _ => job_ok) jobs ->
  slots (charge w (no_jobs ∘ e_v) (entries_of jobs)) < 2 ^ 31.
Proof.
  intros W Ok J. apply slots_fit; [done| |done]. intros j Oj. rewrite lin_scale. destruct (slots_range j Oj) as [S _]. specialize (W (entry_of j)).
  unfold share. apply Z.mul_le_mono_nonneg; [apply W|apply W|apply S|apply S].
Qed.

Lemma fit_units (w : entry -> Z) h jobs : weight_ok w -> entries_ok anc groups (entries_of jobs) -> map_Forall (fun _ => job_ok) jobs ->
  slots (charge (fun e => w e * hocc local h (e_h e)) (started ∘ e_hv) (entries_of jobs)) < 2 ^ 31.
Proof.
  intros W Ok J. apply slots_fit; [done| |done]. intros j Oj. rewrite lin_scale. destruct (slots_range j Oj) as [_ S]. specialize (W (entry_of j)).
  pose proof (hocc_range local h (hPtr j)) as Hh. unfold share. rewrite <- Z.mul_assoc. destruct Oj as [O _].
  assert (Hs : 0 <= hocc local h (hPtr j) * slots (started (units_of j)) <= maxNumProcessors j + numHostPtr j) by (unfold numHostPtr; nia).
  apply Z.mul_le_mono_nonneg; [apply W|apply W|apply Hs|apply Hs].
Qed.

(** ** The job starts *)

Variables (stage stage' : Z) (st st' : mbd) (j j' : jData).
Hypothesis Jobs : map_Forall (fun _ => job_ok) (<[k := j]> js).
Hypotheses (X : exact_with anc groups local js k j stage st) (X' : exact_with anc groups local js k j' stage' st').
Hypotheses (Al : alike j j') (Pd : known (jStatus j) = JOB_STAT_PEND) (Rn : in_state JOB_STAT_RUN j').
Hypotheses (Up : NoDup (payers groups (uPtr j))) (Ua : NoDup (uPtr j :: anc (uPtr j))).

Lemma okj : job_ok j.
Proof. apply (Jobs k). apply lookup_insert_eq. Qed.

(** What the pending job held, and what the running job holds. *)
Lemma held : 0 <= active (slots_of j) /\ 0 <= slots (no_jobs (slots_of j)) /\ 0 <= slots (started (units_of j)) /\ 0 <= numJobs (units_of j).
Proof.
  destruct (slots_range j okj) as [S1 S2]. split_and!; [|apply S1|apply S2|]; destruct okj as [O1 O2]; unfold slots_of, units_of, units_at, slots_at, active; rewrite Pd; cbn;
    destruct (reserved j); cbn; unfold numHostPtr; lia.
Qed.

Lemma holds : active (slots_of j') = numHostPtr j' /\ slots (no_jobs (slots_of j')) = numHostPtr j' /\ slots (started (units_of j')) = 1 /\ numJobs (units_of j') = 1.
Proof. destruct Rn as [K R]. unfold slots_of, units_of, units_at, slots_at, active, slots. rewrite K, R. cbn. lia. Qed.

Lemma same_user : e_u (entry_of j') = uPtr j /\ e_q (entry_of j') = qPtr j.
Proof. destruct Al as (A1 & _ & A3). cbn. unfold uPtr. by rewrite A1, A3. Qed.

Lemma hocc_le h : 0 <= hocc local h (hPtr j') <= occ h (hPtr j').
Proof. unfold hocc. pose proof (occ_nonneg h (hPtr j')). destruct (local h); lia. Qed.

Lemma hosts_nonneg : 0 <= numHostPtr j'.
Proof. unfold numHostPtr. lia. Qed.

Lemma weight_one u : wu groups u (entry_of j') <= 1.
Proof. unfold wu. destruct same_user as [-> _]. by apply occ_nodup. Qed.

Lemma queue_growth q qp qp' h : queues st !! q = Some qp -> queues st' !! q = Some qp' ->
  active (q_cnt qp') <= active (q_cnt qp) + numHostPtr j'
  /\ slots (uacct (q_uAcct qp') (uPtr j)) <= slots (uacct (q_uAcct qp) (uPtr j)) + numHostPtr j'
  /\ slots (hacct (q_hAcct qp') h) <= slots (hacct (q_hAcct qp) h) + occ h (hPtr j').
Proof.
  intros E E'. destruct X as [[_ _ _ Q _ _] _], X' as [[_ _ _ Q' _ _] _]. destruct (Q q qp E) as (-> & -> & ->), (Q' q qp' E') as (-> & -> & ->).
  destruct held as (H1 & H2 & H3 & _), holds as (V1 & V2 & V3 & V4). pose proof (wq_range q (entry_of j)). pose proof (wq_range q (entry_of j')). pose proof hosts_nonneg.
  pose proof (hocc_le h). pose proof (hocc_range local h (hPtr j)). split_and!; apply grows; try apply _; cbn [entry_of e_v e_hv e_h compose].
  - nia.
  - rewrite V1. nia.
  - pose proof (wqu_range anc groups q (uPtr j) (entry_of j)). nia.
  - rewrite V2. unfold wqu. destruct same_user as [-> _]. pose proof (occ_nodup (uPtr j) _ Ua). pose proof (occ_nonneg (uPtr j) (uPtr j :: anc (uPtr j))).
    assert (wq q (entry_of j') * occ (uPtr j) (uPtr j :: anc (uPtr j)) <= 1) by nia. nia.
  - unfold wqh. apply Z.mul_nonneg_nonneg; [|done]. apply Z.mul_nonneg_nonneg; [lia|apply hocc_range].
  - rewrite V3. unfold wqh. cbn [e_h entry_of]. nia.
Qed.

Lemma user_growth u up up' h : users st !! u = Some up -> users st' !! u = Some up' -> ulim up' = ulim up ->
  active (u_cnt up') <= active (u_cnt up) + numHostPtr j'
  /\ (SFltb (u_pJobLimit up) INFINIT_FLOAT = true -> slots (hacct (u_hAcct up') h) <= slots (hacct (u_hAcct up) h) + occ h (hPtr j')).
Proof.
  intros E E' El. destruct X as [[_ _ _ _ Q _] _], X' as [[_ _ _ _ Q' _] _]. destruct (Q u up E) as (-> & K), (Q' u up' E') as (-> & K').
  injection El as _ El. rewrite El in K'. destruct held as (H1 & H2 & H3 & _), holds as (V1 & V2 & V3 & V4). pose proof (wu_range anc groups u (entry_of j)). pose proof (wu_range anc groups u (entry_of j')).
  pose proof (weight_one u). pose proof hosts_nonneg. pose proof (hocc_le h). pose proof (hocc_range local h (hPtr j)). split; [|intros Es; rewrite (K Es h), (K' Es h)]; apply grows; try apply _; cbn [entry_of e_v e_hv e_h compose].
  - nia.
  - rewrite V1. nia.
  - unfold wuh. apply Z.mul_nonneg_nonneg; [|done]. apply Z.mul_nonneg_nonneg; [lia|apply hocc_range].
  - rewrite V3. unfold wuh. cbn [e_h entry_of]. nia.
Qed.

Lemma host_growth h hp hp' : hosts st !! h = Some hp -> hosts st' !! h = Some hp' -> hlim hp' = hlim hp ->
  numJobs (h_cnt hp') <= numJobs (h_cnt hp) + occ h (hPtr j')
  /\ (h_uJobLimit hp < INFINIT_INT -> slots (uacct (h_uAcct hp') (uPtr j)) <= slots (uacct (h_uAcct hp) (uPtr j)) + occ h (hPtr j')).
Proof.
  intros E E' El. destruct X as [[_ _ _ _ _ Q] _], X' as [[_ _ _ _ _ Q'] _]. destruct (Q h hp E) as (-> & K), (Q' h hp' E') as (-> & K').
  injection El as _ _ El _. rewrite El in K'. destruct held as (H1 & H2 & H3 & H4), holds as (V1 & V2 & V3 & V4).
  pose proof (hocc_le h). pose proof (hocc_range local h (hPtr j)). split; [|intros Es; rewrite (K Es), (K' Es)]; apply grows; try apply _; cbn [entry_of e_v e_hv e_h compose].
  - unfold wh. apply Z.mul_nonneg_nonneg; [apply hocc_range|done].
  - rewrite V4. unfold wh. cbn [e_h entry_of]. lia.
  - unfold whu. apply Z.mul_nonneg_nonneg; [|done]. apply Z.mul_nonneg_nonneg; [apply one_range|apply hocc_range].
  - rewrite V3. unfold whu. cbn [e_h e_u entry_of]. pose proof (one_range (bool_decide (uPtr j' = uPtr j))). nia.
Qed.
End Growth.
