(* ===== verification/DispatchTheorems.v ===== *)
(** * Dispatching keeps the limits

    The theorems about [dispatchAJob]: a job that starts does not exceed any limit
    of its queue, its user, the groups of the user and its hosts; the counters
    stay exact; the dispatch ends. *)
From stdpp Require Import base gmap list.
From Stdlib Require Import ZArith Ascii Lia.
From Corelib Require Import SpecFloat.
From S2P Require Import Prelude CNum Counters Ledger CounterInv CounterTheorems Dispatch DispatchInv DispatchSlots DispatchRun DispatchLimits DispatchGrowth.
Local Open Scope Z_scope.

(** ** Limits that are kept *)

(** Limits of the configuration are not negative and fit an [int], those per
    processor with the processors of the hosts. *)
Definition limit_ok (z : Z) : Prop := 0 <= z <= INFINIT_INT.
Record sound_limits (st : mbd) : Prop := {
  v_queues : map_Forall (fun _ qp => limit_ok (q_maxJobs qp) /\ limit_ok (q_uJobLimit qp)) (queues st);
  v_users : map_Forall (fun _ up => limit_ok (u_maxJobs up)) (users st);
  v_hosts : map_Forall (fun _ hp => limit_ok (h_maxJobs hp) /\ limit_ok (h_uJobLimit hp)) (hosts st);
  v_qcpus : map_Forall (fun _ qp => map_Forall (fun _ hp => SFleb INFINIT_FLOAT (q_pJobLimit qp) = false -> 0 <= cpu_limit (q_pJobLimit qp) hp) (hosts st)) (queues st);
  v_ucpus : map_Forall (fun _ up => map_Forall (fun _ hp => SFltb (u_pJobLimit up) INFINIT_FLOAT = true -> 0 <= per_cpu (u_pJobLimit up) hp) (hosts st)) (users st) }.

(** The job [j], of a user in the groups [gs], is within all limits.  On a host
    there may be [extra] suspended slots that do not count; none when [extra] is 0. *)
Record within (gs : list cstr) (extra : cstr -> Z) (j : jData) (st : mbd) : Prop := {
  in_queue : forall qp, queues st !! qPtr j = Some qp ->
    under (active (q_cnt qp)) (q_maxJobs qp) /\ under (slots (uacct (q_uAcct qp) (uPtr j))) (q_uJobLimit qp);
  in_users : forall u up, u ∈ uPtr j :: gs -> users st !! u = Some up -> under (active (u_cnt up)) (u_maxJobs up);
  in_host : forall h hp, h ∈ hPtr j -> hosts st !! h = Some hp ->
    (h_maxJobs hp = INFINIT_INT \/ numJobs (h_cnt hp) <= h_maxJobs hp + extra h)
    /\ under (slots (uacct (h_uAcct hp) (uPtr j))) (h_uJobLimit hp);
  in_queue_host : forall h hp qp, h ∈ hPtr j -> hosts st !! h = Some hp -> queues st !! qPtr j = Some qp ->
    under (slots (hacct (q_hAcct qp) h)) (q_hJobLimit qp)
    /\ (SFleb INFINIT_FLOAT (q_pJobLimit qp) = false -> slots (hacct (q_hAcct qp) h) <= cpu_limit (q_pJobLimit qp) hp);
  in_user_host : forall h hp u up, h ∈ hPtr j -> hosts st !! h = Some hp -> u ∈ uPtr j :: gs -> users st !! u = Some up ->
    SFltb (u_pJobLimit up) INFINIT_FLOAT = true -> slots (hacct (u_hAcct up) h) <= per_cpu (u_pJobLimit up) hp }.

(** ** A job that starts within what the limits leave *)

Lemma pJobLimit_under hp a pl n : 1 <= n <= pJobLimitOk hp a pl -> SFleb INFINIT_FLOAT pl = false -> 0 <= cpu_limit pl hp ->
  slots (default czero a) < 2 ^ 31 -> slots (default czero a) + n <= cpu_limit pl hp.
Proof.
  unfold pJobLimitOk. intros H E L F. destruct (SFleb pl _); [lia|]. rewrite E in H. fold (cpu_limit pl hp) in H. cbn zeta in H.
  destruct a as [a|]; cbn in *; (case_match; [lia|]); [apply wrapped_under; lia|unfold slots; cbn; lia].
Qed.

Lemma hJobLimit_under a limit n : 1 <= n <= hJobLimitOk a limit -> slots (default czero a) < 2 ^ 31 -> under (slots (default czero a) + n) limit.
Proof.
  unfold hJobLimitOk. intros H F. destruct (Z.leb_spec limit 0); [lia|]. destruct (Z.eqb_spec limit INFINIT_INT) as [->|]; [by left|right].
  cbn zeta in H. destruct a as [a|]; cbn in *; (case_match; [lia|]); [apply wrapped_under; lia|unfold slots; cbn; lia].
Qed.

Lemma under_le m n limit : m <= n -> under n limit -> under m limit.
Proof. intros L [H|H]; [by left|right; lia]. Qed.

Section Start.
Variable anc : cstr -> list cstr.
Variable groups : list gData.
Variable local : cstr -> bool.
Variables (js : gmap Z jData) (k stage stage' : Z) (st st' : mbd) (j j' : jData) (gs : list cstr).
Hypothesis Jobs : map_Forall (fun _ => job_ok) (<[k := j]> js).
Hypotheses (X : exact_with anc groups local js k j stage st) (X' : exact_with anc groups local js k j' stage' st').
Hypotheses (Al : alike j j') (Pd : known (jStatus j) = JOB_STAT_PEND) (Rn : in_state JOB_STAT_RUN j').
Hypotheses (Up : NoDup (payers groups (uPtr j))) (Ua : NoDup (uPtr j :: anc (uPtr j))).
Hypotheses (Lm : same_limits st st') (Sl : sound_limits st) (Hn : 1 <= numHostPtr j') (Hp : 1 <= maxNumProcessors j).

Lemma queue_of q qp' : queues st' !! q = Some qp' -> exists qp, queues st !! q = Some qp /\ qlim qp' = qlim qp.
Proof. intros E. pose proof (k_q _ _ Lm q) as K. rewrite E in K. destruct (queues st !! q) as [qp|]; [|done]. cbn in K. exists qp. split; [done|congruence]. Qed.
Lemma host_of h hp' : hosts st' !! h = Some hp' -> exists hp, hosts st !! h = Some hp /\ hlim hp' = hlim hp.
Proof. intros E. pose proof (k_h _ _ Lm h) as K. rewrite E in K. destruct (hosts st !! h) as [hp|]; [|done]. cbn in K. exists hp. split; [done|congruence]. Qed.
Lemma user_of u up up' : users st !! u = Some up -> users st' !! u = Some up' -> ulim up' = ulim up.
Proof. intros E E'. pose proof (k_u _ _ Lm u up E) as K. rewrite E' in K. cbn in K. congruence. Qed.

(** Everything that is compared fits an [int]. *)
Lemma entries_fit : entries_ok anc groups (entries_of (<[k := j]> js)).
Proof. apply X. Qed.

Lemma active_fit c : all_counters nat32 c -> active c < 2 ^ 31.
Proof. intros (H1 & H2 & _). unfold active, nat32 in *. lia. Qed.

Lemma queue_fit q qp u h : queues st !! q = Some qp ->
  active (q_cnt qp) < 2 ^ 31 /\ slots (uacct (q_uAcct qp) u) < 2 ^ 31 /\ slots (hacct (q_hAcct qp) h) < 2 ^ 31.
Proof.
  intros E. destruct X as [[_ Ok _ Q _ _] _]. destruct (Q q qp E) as (-> & -> & ->). split_and!.
  - apply active_fit. exact (proj1 (ranges anc groups local _ Ok) q).
  - apply (fit_jobs anc groups); [|done|done]. intros e. apply wqu_range.
  - apply (fit_units anc groups local (wq q)); [|done|done]. intros e. pose proof (wq_range q e). lia.
Qed.

Lemma user_fit u up h : users st !! u = Some up ->
  active (u_cnt up) < 2 ^ 31 /\ (SFltb (u_pJobLimit up) INFINIT_FLOAT = true -> slots (hacct (u_hAcct up) h) < 2 ^ 31).
Proof.
  intros E. destruct X as [[_ Ok _ _ U _] _]. destruct (U u up E) as (-> & K). split.
  - apply active_fit. destruct (ranges anc groups local _ Ok) as (_ & _ & _ & R & _). apply R.
  - intros Es. rewrite (K Es). apply (fit_units anc groups local (wu groups u)); [|done|done]. intros e. apply wu_range.
Qed.

Lemma host_fit h hp u : hosts st !! h = Some hp ->
  0 <= numJobs (h_cnt hp) < 2 ^ 31 /\ (h_uJobLimit hp < INFINIT_INT -> slots (uacct (h_uAcct hp) u) < 2 ^ 31).
Proof.
  intros E. destruct X as [[_ Ok _ _ _ H] _]. destruct (H h hp E) as (-> & K). split.
  - destruct (ranges anc groups local _ Ok) as (_ & _ & _ & _ & _ & R & _). apply R.
  - intros Es. rewrite (K Es). apply (fit_units anc groups local (fun e => one (bool_decide (e_u e = u)))); [|done|done].
    intros e. pose proof (one_range (bool_decide (e_u e = u))). lia.
Qed.

(** The user of a pending job has an account in its queue. *)
Lemma acct_exists qp : queues st !! qPtr j = Some qp -> is_Some (q_uAcct qp !! uPtr j).
Proof.
  intros E. destruct (q_uAcct qp !! uPtr j) eqn:Ea; [by eexists|]. exfalso. destruct X as [[_ [Ok _] _ Q _ _] _]. destruct (Q _ qp E) as (_ & K & _).
  specialize (K (uPtr j)). unfold uacct in K. rewrite Ea in K. cbn in K. apply (f_equal waiting) in K. rewrite charge_job, lin_add, lin_scale in K.
  assert (W : 1 <= wqu anc (qPtr j) (uPtr j) (entry_of j)).
  { unfold wqu, wq. cbn [entry_of e_q e_u]. rewrite bool_decide_eq_true_2 by done. rewrite occ_cons, decide_True by done. pose proof (occ_nonneg (uPtr j) (anc (uPtr j))). cbn [one]. lia. }
  assert (V : 1 <= waiting ((no_jobs ∘ e_v) (entry_of j))) by (cbn; unfold slots_of, slots_at, waiting; rewrite Pd; cbn; destruct (reserved j); cbn; lia).
  assert (R : 0 <= waiting (charge (wqu anc (qPtr j) (uPtr j)) (no_jobs ∘ e_v) (entries_of (delete k js)))).
  { unfold charge. rewrite (lin_csum waiting). apply zsum_nonneg. intros i e He. rewrite lin_scale. pose proof (wqu_range anc groups (qPtr j) (uPtr j) e).
    assert (Oe : entry_ok e). { apply (Ok i). rewrite <- insert_delete_eq, fmap_insert. rewrite lookup_insert_ne; [done|]. intros ->. by rewrite lookup_fmap, lookup_delete_eq in He. }
    pose proof (no_jobs_range e Oe) as (? & ? & ? & ? & ? & ?). cbn [compose]. unfold waiting. nia. }
  change (waiting czero) with 0 in K. nia.
Qed.

Variables (qp0 : qData) (up0 : uData) (pre : cstr -> hPreempt).
Hypotheses (Eq : queues st !! qPtr j = Some qp0) (Eu : users st !! uPtr j = Some up0) (MU : may_use st j (numHostPtr j') qp0 up0).
Hypothesis HR : forall h, h ∈ hPtr j' -> exists hp, hosts st !! h = Some hp /\ host_room st j h hp qp0 up0 (pre h) (occ h (hPtr j')) /\ 0 <= num_availd (pre h).
(** Groups of the user are known to the daemon. *)
Hypothesis Gs : Forall (fun g => is_Some (users st !! g)) (gPtr up0).

Lemma occ_in h l : h ∈ l -> 1 <= occ h l.
Proof. intros H. apply list_elem_of_split in H as (l1 & l2 & ->). rewrite occ_app, occ_cons, decide_True by done. pose proof (occ_nonneg h l1). pose proof (occ_nonneg h l2). lia. Qed.

Lemma start_queue : forall qp, queues st' !! qPtr j' = Some qp ->
  under (active (q_cnt qp)) (q_maxJobs qp) /\ under (slots (uacct (q_uAcct qp) (uPtr j'))) (q_uJobLimit qp).
Proof.
  intros qp' E'. destruct Al as (A1 & A2 & A3). unfold uPtr at 1. rewrite A1. fold (uPtr j). rewrite A3 in E'. destruct (queue_of _ _ E') as (qp & E & El). rewrite Eq in E. injection E as <-.
  unfold qlim in El. injection El as L1 L2 L3 L4. rewrite L1, L2. destruct (v_queues _ Sl _ _ Eq) as [S1 S2]. unfold limit_ok in *.
  destruct (queue_growth anc groups local js k stage stage' st st' j j' Jobs X X' Al Pd Rn Ua _ _ _ [] Eq E') as (G1 & G2 & _).
  destruct (queue_fit _ _ (uPtr j) [] Eq) as (F1 & F2 & _). destruct MU as [M1 _ M3]. split.
  - eapply under_le; [exact G1|]. apply left_under; [lia|lia|exact F1].
  - destruct (decide (q_uJobLimit qp0 = INFINIT_INT)) as [|N]; [by left|right]. destruct (acct_exists qp0 Eq) as [a Ea]. specialize (M3 a Ea ltac:(lia)).
    assert (Ua' : uacct (q_uAcct qp0) (uPtr j) = ua_cnt a) by (unfold uacct; by rewrite Ea). rewrite Ua' in *. etrans; [exact G2|]. apply wrapped_under; lia.
Qed.

Lemma start_user u up : u ∈ uPtr j' :: gPtr up0 -> users st' !! u = Some up -> exists vp, users st !! u = Some vp /\ u ∈ uPtr j :: gPtr up0 /\ ulim up = ulim vp.
Proof.
  intros Hu E'. destruct Al as (A1 & _ & _). assert (Hu' : u ∈ uPtr j :: gPtr up0) by (unfold uPtr in *; by rewrite <- A1).
  assert (S : is_Some (users st !! u)). { apply elem_of_cons in Hu' as [->|Hg]; [by eexists|]. rewrite Forall_forall in Gs. by apply Gs. }
  destruct S as [vp E]. exists vp. split_and!; [done|done|by apply (user_of u)].
Qed.

Lemma start_users : forall u up, u ∈ uPtr j' :: gPtr up0 -> users st' !! u = Some up -> under (active (u_cnt up)) (u_maxJobs up).
Proof.
  intros u up' Hu E'. destruct (start_user u up' Hu E') as (up & E & Hu' & El). pose proof El as El'. unfold ulim in El'. injection El' as L1 L2. rewrite L1.
  destruct (user_growth anc groups local js k stage stage' st st' j j' Jobs X X' Al Pd Rn Up u up up' [] E E' El) as [G _].
  destruct (user_fit u up [] E) as [F _]. eapply under_le; [exact G|]. apply left_under; [split; [done|]; by apply (m_user _ _ _ _ _ MU u)|apply (v_users _ Sl u up E)|exact F].
Qed.

Lemma start_host : forall h hp, h ∈ hPtr j' -> hosts st' !! h = Some hp ->
  (h_maxJobs hp = INFINIT_INT \/ numJobs (h_cnt hp) <= h_maxJobs hp + num_availd (pre h))
  /\ under (slots (uacct (h_uAcct hp) (uPtr j'))) (h_uJobLimit hp).
Proof.
  assert (Eu' : uPtr j' = uPtr j) by apply Al.
  intros h hp' Hh E'. destruct (host_of h hp' E') as (hp & E & El). pose proof El as El'. unfold hlim in El'. injection El' as L1 L2 L3 L4. rewrite L3, L4, Eu'.
  destruct (HR h Hh) as (hp1 & E1 & [R1 R2 R3 [R4 _]] & Pa). rewrite E in E1. injection E1 as <-. pose proof (occ_in h _ Hh). destruct (v_hosts _ Sl h hp E) as [S1 S2]. unfold limit_ok in *.
  destruct (host_growth anc groups local js k stage stage' st st' j j' Jobs X X' Pd Rn h hp hp' E E' El) as [G1 G2]. destruct (host_fit h hp (uPtr j) E) as [F1 F2]. split.
  - destruct R3 as [R3|R3]; [by left|right]. assert (numJobs (h_cnt hp) - match q_hAcct qp0 !! h with Some _ => num_availd (pre h) | None => 0 end + occ h (hPtr j') <= h_maxJobs hp)
      by (apply wrapped_under; [done|lia|]; case_match; lia). case_match; lia.
  - destruct R4 as [R4|R4]; [by left|]. destruct (decide (h_uJobLimit hp = INFINIT_INT)) as [|N]; [by left|right].
    etrans; [apply G2; lia|]. specialize (F2 ltac:(lia)). apply (room_under _ (ua_cnt <$> h_uAcct hp !! uPtr j)); [lia|lia|exact F2].
Qed.

Lemma start_queue_host : forall h hp qp, h ∈ hPtr j' -> hosts st' !! h = Some hp -> queues st' !! qPtr j' = Some qp ->
  under (slots (hacct (q_hAcct qp) h)) (q_hJobLimit qp)
  /\ (SFleb INFINIT_FLOAT (q_pJobLimit qp) = false -> slots (hacct (q_hAcct qp) h) <= cpu_limit (q_pJobLimit qp) hp).
Proof.
  assert (Eq' : qPtr j' = qPtr j) by apply Al.
  intros h hp' qp' Hh E' Eq1. rewrite Eq' in Eq1. destruct (host_of h hp' E') as (hp & E & El). unfold hlim in El. injection El as L1 L2 L3 L4.
  destruct (queue_of _ _ Eq1) as (qp & E2 & El2). rewrite Eq in E2. injection E2 as <-. unfold qlim in El2. injection El2 as K1 K2 K3 K4. rewrite K3, K4.
  destruct (HR h Hh) as (hp1 & E1 & [R1 R2 R3 _] & _). rewrite E in E1. injection E1 as <-. pose proof (occ_in h _ Hh).
  destruct (queue_growth anc groups local js k stage stage' st st' j j' Jobs X X' Al Pd Rn Ua _ _ _ h Eq Eq1) as (_ & _ & G). destruct (queue_fit _ _ (uPtr j) h Eq) as (_ & _ & F).
  assert (Ec : cpu_limit (q_pJobLimit qp0) hp' = cpu_limit (q_pJobLimit qp0) hp) by (unfold cpu_limit; by rewrite L2). rewrite Ec. split.
  - eapply under_le; [exact G|]. apply (hJobLimit_under (q_hAcct qp0 !! h)); [lia|exact F].
  - intros Es. etrans; [exact G|]. apply (pJobLimit_under hp (q_hAcct qp0 !! h)); [lia|done| |exact F]. by apply (v_qcpus _ Sl (qPtr j) qp0 Eq h hp).
Qed.

Lemma start_user_host : forall h hp u up, h ∈ hPtr j' -> hosts st' !! h = Some hp -> u ∈ uPtr j' :: gPtr up0 -> users st' !! u = Some up ->
  SFltb (u_pJobLimit up) INFINIT_FLOAT = true -> slots (hacct (u_hAcct up) h) <= per_cpu (u_pJobLimit up) hp.
Proof.
  intros h hp' u up' Hh E' Hu E2 Es. destruct (host_of h hp' E') as (hp & E & El). unfold hlim in El. injection El as L1 L2 L3 L4.
  destruct (start_user u up' Hu E2) as (up & E3 & Hu' & El). pose proof El as El'. unfold ulim in El'. injection El' as K1 K2. rewrite K2 in *.
  destruct (HR h Hh) as (hp1 & E1 & [_ _ _ [_ R]] & _). rewrite E in E1. injection E1 as <-. pose proof (occ_in h _ Hh). specialize (R u up Hu' E3 Es).
  destruct (user_growth anc groups local js k stage stage' st st' j j' Jobs X X' Al Pd Rn Up u up up' h E3 E2 El) as [_ G]. destruct (user_fit u up h E3) as [_ F].
  assert (Ec : per_cpu (u_pJobLimit up) hp' = per_cpu (u_pJobLimit up) hp) by (unfold per_cpu; by rewrite L2). rewrite Ec.
  etrans; [by apply G|]. apply (room_under _ (u_hAcct up !! h)); [lia| |by apply F]. by apply (v_ucpus _ Sl u up E3 h hp).
Qed.

Lemma start_within : within (gPtr up0) (fun h => num_availd (pre h)) j' st'.
Proof. split; [apply start_queue|apply start_users|apply start_host|apply start_queue_host|apply start_user_host]. Qed.
End Start.

(** ** [dispatchAJob] *)

(** The slots that are left to the job on a host. *)
Definition host_slots (st : mbd) (j : jData) (b : bill) (pre : cstr -> hPreempt) (h : cstr) : Z :=
  match hosts st !! h, queues st !! qPtr j, users st !! uPtr j with
  | Some hp, Some qp, Some up => snd (fst (getHostJobSlots st j 1 (numProcessors b) h hp qp up (pre h) false 0))
  | _, _, _ => 0
  end.

(** What the scheduler has found out before it dispatches the job: the slots that
    it may use, and its candidates.  Groups and their users are listed once. *)
Record requested (anc : cstr -> list cstr) (groups : list gData) (js : gmap Z jData) (k : Z) (b : bill) (pre : cstr -> hPreempt) (s : dstate) : Prop := {
  q_pending : known (jStatus (jd s)) = JOB_STAT_PEND;
  q_procs : 1 <= numProcessors b <= maxNumProcessors (jd s);
  q_fits : forall hs, Z.of_nat (length hs) <= maxNumProcessors (jd s) -> bounded anc groups (<[k := set_hPtr (jd s) hs]> js);
  q_payers : NoDup (payers groups (uPtr (jd s)));
  q_ancestors : NoDup (uPtr (jd s) :: anc (uPtr (jd s)));
  q_groups : forall up, users (mb s) !! uPtr (jd s) = Some up -> Forall (fun g => is_Some (users (mb s) !! g)) (gPtr up);
  q_slots : 0 <= s_numAvailSlots (sc s) <= s_numSlots (sc s);
  q_limit : s_numAvailSlots (sc s) <= fst (cntUQSlots (mb s) (jd s) (numProcessors b) (slotHoldTime b) 0);
  q_cands : Forall (usable (host_slots (mb s) (jd s) b pre) (mb s)) (candPtr (sc s));
  q_hosts : NoDup (c_host <$> candPtr (sc s));
  q_availd : forall h, 0 <= num_availd (pre h) }.

Section Theorems.
Variable getQUsable : mbd -> qData -> qUsable.
Variables start_job signal_job : nat -> jData -> Z * Z.
Variable zombie : option cstr.
Variable enoughMaxUsableSlots : mbd -> jData -> bool.
Variable stay_too_long : nat -> bool.
Variable maxJobPerSession : Z.
Variable b : bill.
Abbreviation dispatch := (dispatchAJob getQUsable start_job signal_job zombie enoughMaxUsableSlots stay_too_long maxJobPerSession b).

Section Reached.
Variables (anc : cstr -> list cstr) (groups : list gData) (local : cstr -> bool).
Variables (js : gmap Z jData) (k : Z) (pre : cstr -> hPreempt) (s s' : dstate) (r : dispatchAJobReturnCode) (delayed d : bool).
Hypotheses (Ex : exact anc groups local (mkW (mb s) js)) (Hj : js !! k = Some (jd s)) (Rq : requested anc groups js k b pre s).
Hypothesis Ds : dispatch delayed d s = Some (r, s').

Lemma reached_answer : answered anc groups local js k (mSchedStage (mb s)) (mb s) (jd s) b (s_numAvailSlots (sc s)) (host_slots (mb s) (jd s) b pre) r s'.
Proof.
  destruct Ex as [L O S]. cbn in L, O. destruct Rq. eapply dispatch_answered; [done|done|done| | | |exact Ds]; [|lia|lia].
  split; try done. split; [|done|done|by apply (O k)]. split; [|done]. cbn. by rewrite insert_id.
Qed.

Lemma reached_within up : users (mb s) !! uPtr (jd s) = Some up -> in_state JOB_STAT_RUN (jd s') -> sound_limits (mb s) ->
  within (gPtr up) (fun h => num_availd (pre h)) (jd s') (mb s').
Proof.
  intros Eu Rn Sl. pose proof reached_answer as A. destruct Ex as [L O S]. cbn in L, O. destruct Rq.
  assert (Ok : exists K : kept anc groups local js k (mSchedStage (mb s)) (mb s) (jd s) s', granted (jd s) b (s_numAvailSlots (sc s)) (host_slots (mb s) (jd s) b pre) (jd s')).
  { destruct Rn as [Kn _]. destruct r; cbn in A; [destruct A as (K & G & _); by exists K|..]; exfalso;
      [apply g_pend in A|destruct A as (_ & A & _)|apply g_pend in A..]; by rewrite A in Kn. }
  destruct Ok as ([X' Lm Al O'] & (G1 & G2) & _ & G3 & G4). assert (Hn : 1 <= numHostPtr (jd s')) by lia.
  destruct (cntUQSlots_spec (mb s) (jd s) (numProcessors b) (slotHoldTime b) 0 (numHostPtr (jd s'))) as (qp & up1 & Eq & Eu1 & MU); [lia|]. rewrite Eu in Eu1. injection Eu1 as <-.
  apply (start_within anc groups local js k (mSchedStage (mb s)) (mSchedStage (mb s)) (mb s) (mb s') (jd s) (jd s')) with (qp0 := qp); try done; try lia; try by auto.
  - by rewrite insert_id.
  - split; [|done]. by rewrite insert_id.
  - intros h Hh. specialize (G4 h Hh). unfold host_slots in G4. pose proof (occ_in h _ Hh). destruct (hosts (mb s) !! h) as [hp|] eqn:Eh; [|lia]. rewrite Eq, Eu in G4.
    exists hp. split_and!; [done|eapply getHostJobSlots_spec; [done|split; [done|exact G4]]|done].
Qed.
End Reached.

(** C10: A dispatch keeps every limit.  In every state that the daemon reaches (by
    the steps of [counters_exact]), when the scheduler dispatches a pending job
    with the slots that [cntUQSlots] grants it and with distinct candidates that
    have the slots of [getHostJobSlots] (without slots to backfill), and the job
    then runs, the counters of its queue, of the user in the queue, of the user
    and of each of his groups, of the queue, the user and the groups on each of
    the hosts of the job, and of these hosts are within the limits of the
    configuration, for the hosts plus the suspended slots [num_availd] that the
    code does not count; it writes no other number than 0 there (mbd.misc.c:745),
    and then the hosts are within their limits too.  This holds for all replies
    of the slave daemons, with and without a reservation, after any number of
    failed attempts.  It supposes that the limits are not negative, that the user
    is listed once in each of his groups, and that all charges fit an [int]. *)
Theorem dispatch_keeps_limits st js k pre s s' r delayed d up :
  fresh st -> replaying (mSchedStage st) = false ->
  rtc (step (user_ancestors st) (usergroups st) getQUsable) (mkW st ∅) (mkW (mb s) js) -> js !! k = Some (jd s) ->
  requested (user_ancestors st) (usergroups st) js k b pre s -> sound_limits (mb s) -> users (mb s) !! uPtr (jd s) = Some up ->
  dispatch delayed d s = Some (r, s') -> in_state JOB_STAT_RUN (jd s') ->
  within (gPtr up) (fun h => num_availd (pre h)) (jd s') (mb s')
  /\ ((forall h, num_availd (pre h) = 0) -> within (gPtr up) (fun _ => 0) (jd s') (mb s')).
Proof.
  intros F S R Hj Rq Sl Eu Ds Rn. assert (W : within (gPtr up) (fun h => num_availd (pre h)) (jd s') (mb s')).
  { eapply reached_within; try done. by eapply (steps_exact _ _ (local_host st)), fresh_exact. }
  split; [done|]. intros Z0. destruct W as [W1 W2 W3 W4 W5]. split; try done. intros h hp Hh Eh. specialize (W3 h hp Hh Eh). by rewrite Z0 in W3.
Qed.

(** C11: A dispatch keeps the counters exact, whatever it answers; with [DISP_OK]
    the job is on at least as many slots as it needs and as the queue demands, and
    on not more than it asks for; with [DISP_RESERVE] the job holds a reservation;
    with every other answer it is still pending. *)
Theorem dispatch_keeps_counters st js k pre s s' r delayed d :
  fresh st -> replaying (mSchedStage st) = false ->
  rtc (step (user_ancestors st) (usergroups st) getQUsable) (mkW st ∅) (mkW (mb s) js) -> js !! k = Some (jd s) ->
  requested (user_ancestors st) (usergroups st) js k b pre s -> dispatch delayed d s = Some (r, s') ->
  exact (user_ancestors st) (usergroups st) (local_host st) (mkW (mb s') (<[k := jd s']> js))
  /\ match r with
     | DISP_OK => Z.max (numProcessors b) (minProcLimit b) <= numHostPtr (jd s') <= maxNumProcessors (jd s)
     | DISP_RESERVE => reserved (jd s') = true /\ known (jStatus (jd s')) = JOB_STAT_PEND
     | _ => known (jStatus (jd s')) = JOB_STAT_PEND
     end.
Proof.
  intros F S R Hj Rq Ds. assert (Ex : exact (user_ancestors st) (usergroups st) (local_host st) (mkW (mb s) js)) by (by eapply steps_exact, fresh_exact).
  pose proof (reached_answer _ _ _ _ _ _ _ _ _ _ _ Ex Hj Rq Ds) as A.
  assert (K : kept (user_ancestors st) (usergroups st) (local_host st) js k (mSchedStage (mb s)) (mb s) (jd s) s') by (destruct r; apply A).
  split; [destruct K; by apply (exact_after _ _ _ (mb s))|]. destruct r; cbn in A; try apply A.
  - destruct A as (_ & (G1 & G2 & G3 & _) & _). lia.
  - split; apply A.
Qed.

(** ** Termination *)

Lemma it_cands n s : candPtr (sc (snd (dispatch_it getQUsable start_job signal_job zombie n s))) = candPtr (sc s).
Proof.
  unfold dispatch_it. assert (J : forall r, candPtr (sc (jobStarted getQUsable r s)) = candPtr (sc s)).
  { intros r. unfold jobStarted. case_match; [done|]. cbn zeta. by destruct (jStatusChange _ _ _ _ _). }
  case_match; [done|]. destruct (start_job n (jd s)) as [reply rs]. case_match; [apply J|]. case_match.
  - destruct (signal_job n (jd s)) as [reply' rs']. case_match; [apply J|]. by case_match.
  - cbn. unfold jobStartError. cbn zeta. case_match; [done|]. by case_match.
Qed.

Lemma cands_numProcs s : candPtr (sc (getNumProcs b s)) = candPtr (sc s).
Proof. unfold getNumProcs. repeat case_match; done. Qed.
Lemma cands_free s : candPtr (sc (free_reserved getQUsable s)) = candPtr (sc s).
Proof. unfold free_reserved. case_match; [|done]. by destruct (freeReserveSlots _ _ _). Qed.

(** An attempt that fails removes a candidate, or gives up. *)
Lemma fail_removes n s s' : dispatchToCandHost getQUsable start_job signal_job zombie maxJobPerSession b n s = (DISP_FAIL, s') ->
  no_file s' = true \/ candPtr (sc s') = tail (candPtr (sc s)).
Proof.
  unfold dispatchToCandHost. destruct (allocHosts s) as [s1|] eqn:E; [|done]. assert (E1 : candPtr (sc s1) = candPtr (sc s)) by (unfold allocHosts in E; case_match; by simplify_eq).
  case_match; [done|]. pose proof (it_cands n (set_newReason 0 s1)) as I. destruct (dispatch_it _ _ _ _ _ _) as [ok s2]. cbn in I. destruct ok; [done|].
  intros X. injection X as <-. destruct (no_file (dealloc s2)) eqn:N; [by left|right]. cbn. by rewrite I, E1.
Qed.

Lemma loop_ends fuel : forall n d s, (length (candPtr (sc s)) < fuel)%nat ->
  is_Some (dispatch_loop getQUsable start_job signal_job zombie enoughMaxUsableSlots stay_too_long maxJobPerSession b fuel n d s).
Proof.
  induction fuel as [|fuel IH]; intros n d s Hf; [lia|]. cbn [dispatch_loop]. case_match; [case_match; by eexists|].
  pose proof (fail_removes n (free_reserved getQUsable (getNumProcs b s))) as Fr. destruct (dispatchToCandHost _ _ _ _ _ _ _ _) as [ret s2].
  destruct ret; try by eexists. destruct d; [by eexists|]. destruct (Fr s2 eq_refl) as [Fn|Fc].
  - rewrite Fn, orb_true_r. by eexists.
  - rewrite cands_free, cands_numProcs in Fc. destruct (candPtr (sc s2)) as [|c cs] eqn:Ec; [by eexists|]. case_match; [by eexists|]. case_match; [by eexists|].
    apply IH. rewrite Ec, Fc. destruct (candPtr (sc s)); cbn in *; [done|]. lia.
Qed.

(** C12: [dispatchAJob] ends: for all replies of the slave daemons, the loop makes
    at most as many attempts as the job has candidates, because every failed
    attempt removes one or gives up. *)
Theorem dispatch_terminates delayed d s : exists r s',
  dispatchAJob getQUsable start_job signal_job zombie enoughMaxUsableSlots stay_too_long maxJobPerSession b delayed d s = Some (r, s').
Proof.
  unfold dispatchAJob. destruct delayed; [by do 2 eexists|]. set (s1 := getNumSlots b s).
  destruct (loop_ends (S (length (candPtr (sc s1)))) 0 d s1) as [[r s'] E]; [lia|]. by exists r, s'.
Qed.

(** ** Attempts that are not made *)

Lemma free_job s : maxNumProcessors (jd (free_reserved getQUsable s)) = maxNumProcessors (jd s) /\ sc (free_reserved getQUsable s) = sc s.
Proof. unfold free_reserved, freeReserveSlots. destruct (has (jStatus (jd s)) JOB_STAT_RESERVE); [|done]. cbn. done. Qed.

Lemma has_done p : has (Z.lor p JOB_STAGE_DONE) JOB_STAGE_DONE = true.
Proof.
  unfold has. apply negb_true_iff, Z.eqb_neq. intros E. assert (B : Z.testbit (Z.land (Z.lor p JOB_STAGE_DONE) JOB_STAGE_DONE) 3 = false) by (rewrite E; apply Z.testbit_0_l).
  rewrite Z.land_spec, Z.lor_spec in B. by destruct (Z.testbit p 3).
Qed.

Lemma alloc_enough s s1 : procs b s s1 -> numProcessors b <= numAvailEligProc (sc s1) -> 1 <= numProcessors b -> forall s2, sc s2 = sc s1 ->
  exists s3, allocHosts s2 = Some s3 /\ sc s3 = sc s1 /\ numProcessors b <= numHostPtr (jd s3).
Proof.
  intros [P1 P2 P3 P4 P5 P6 P7 P8 P9] Le H1 s2 E. destruct (P9 Le) as (E1 & _ & _). unfold allocHosts. rewrite E. destruct (Z.leb_spec (numEligProc (sc s1)) 0); [lia|].
  eexists. split; [done|]. split; [done|]. cbn. unfold numHostPtr. cbn. fold (alloc_hosts (execCandPtr (sc s1))). rewrite (alloc_length _ _ P7). lia.
Qed.

(** C39: A host on which the user of the job is unknown ends the dispatch.  The reason
    1313 has a bit in common with [PEND_JOB_NO_FILE] (7), so the job is taken for
    one whose files are missing: the host stays a candidate, no other candidate
    is tried, and the job is done for the session. *)
Theorem unknown_user_ends_dispatch s (s1 := getNumSlots b s) :
  Forall cand_ok (candPtr (sc s1)) -> 1 <= numProcessors b <= maxNumProcessors (jd s) ->
  Z.max (numProcessors b) (minProcLimit b) <= numAvailEligProc (sc (getNumProcs b s1)) ->
  zombie = None -> (forall j, fst (start_job 0 j) = ERR_NO_USER) ->
  exists s', dispatch false false s = Some (DISP_FAIL, s') /\ candPtr (sc s') = candPtr (sc s1) /\ newReason (sc s') = PEND_HOST_NO_USER
    /\ has (processed (sc s')) JOB_STAGE_DONE = true.
Proof.
  intros Hc Hp Le Hz Hr. assert (J1 : jd s1 = jd s) by (unfold s1, getNumSlots; by destruct (num_slots _ _ _ _ _ _ _ _) as [[[? ?] ?] ?]).
  pose proof (getNumProcs_spec b s1 Hc) as P. rewrite J1 in P. specialize (P Hp).
  unfold dispatchAJob. fold s1. cbn [dispatch_loop]. destruct (Z.ltb_spec (numAvailEligProc (sc (getNumProcs b s1))) (Z.max (numProcessors b) (minProcLimit b))); [lia|].
  set (s2 := free_reserved getQUsable (getNumProcs b s1)). destruct (alloc_enough s1 _ P ltac:(lia) ltac:(lia) s2) as (s3 & Ea & E3 & N3); [apply free_job|].
  unfold dispatchToCandHost. rewrite Ea. destruct (Z.ltb_spec (numHostPtr (jd s3)) (numProcessors b)); [lia|].
  assert (E4 : dispatch_it getQUsable start_job signal_job zombie 0 (set_newReason 0 s3) = (false, set_newReason PEND_HOST_NO_USER (set_newReason 0 s3))).
  { unfold dispatch_it. rewrite Hz, andb_false_r. specialize (Hr (jd (set_newReason 0 s3))). destruct (start_job 0 (jd (set_newReason 0 s3))) as [reply rs]. cbn in Hr. by subst reply. }
  rewrite E4. set (s5 := dealloc (set_newReason PEND_HOST_NO_USER (set_newReason 0 s3))). assert (N : no_file s5 = true) by reflexivity.
  cbv beta iota zeta. rewrite !N, orb_true_r. eexists. split; [done|]. split_and!; [|done|apply has_done]. cbn. by rewrite E3, (p_cand _ _ _ P).
Qed.

(** C40: The sort of the candidates of a job for one host leaves their available
    slots behind.  A job that needs more slots than the smaller of two hosts has
    is not dispatched, although the larger host is free and would be enough when
    the candidates were exchanged with all of their fields. *)
Theorem sort_loses_slots h1 h2 a c x st n j d (sorted := sort_cands 2 0 [mkCand h1 a a; mkCand h2 c c])
    (with_cands := fun cs => mkD st n j (mkSched (s_numSlots x) (s_numAvailSlots x) cs (execCandPtr x) (numEligProc x) (numAvailEligProc x) (newReason x) (reasonTb x) (processed x))) :
  allInOne b = true -> needHandleFirstHost b = 0 -> 0 < a < numProcessors b -> numProcessors b <= c -> numProcessors b < maxNumProcessors j ->
  slotHoldTime b <= 0 -> c <= s_numSlots x -> c <= s_numAvailSlots x ->
  (exists s', dispatch false d (with_cands sorted) = Some (DISP_NO_JOB, s'))
  /\ numProcessors b <= numAvailEligProc (sc (getNumProcs b (getNumSlots b (with_cands [mkCand h2 c c; mkCand h1 a a])))).
Proof.
  intros H1 H2 Ha Hc Hm Ht Hs Hv.
  assert (Es : sorted = [mkCand h2 c a; mkCand h1 a c]).
  { unfold sorted. cbn. destruct (Z.ltb_spec a c) as [_|]; [|lia]. cbn. done. }
  assert (Slots : forall v w, 0 < v <= c -> a <= w -> exists tb, getNumSlots b (with_cands [mkCand h2 c v; mkCand h1 a w])
     = set_sc (set_cands c v [mkCand h2 c v; mkCand h1 a a] tb (sc (with_cands []))) (with_cands [])).
  { intros v w Hv1 Hw1. unfold getNumSlots, with_cands. cbn [num_slots sc candPtr c_numSlots c_numAvailSlots c_host s_numSlots s_numAvailSlots mb hosts reasonTb].
    rewrite H1, H2. cbn [andb Z.eqb]. rewrite (Z.min_l c), (Z.min_l v c), (Z.min_l v), (Z.min_l a), (Z.min_r w), (Z.min_l a) by lia.
    destruct (Z.ltb_spec 0 c); [|lia]. cbn [Z.eqb]. destruct (Z.eqb_spec c 0); [lia|]. destruct (Z.ltb_spec c (numProcessors b)); [lia|]. cbn [andb app].
    rewrite (Z.min_r (s_numSlots x)), (Z.min_r (s_numAvailSlots x)) by lia. by eexists. }
  split.
  - rewrite Es. destruct (Slots a c) as [tb E]; [lia|lia|]. unfold dispatchAJob. rewrite E. cbn [dispatch_loop].
    assert (A : numAvailEligProc (sc (getNumProcs b (set_sc (set_cands c a [mkCand h2 c a; mkCand h1 a a] tb (sc (with_cands []))) (with_cands [])))) = a).
    { unfold getNumProcs. cbn [sc set_sc set_cands candPtr s_numAvailSlots jd with_cands take_avail c_numAvailSlots]. destruct (Z.ltb_spec 0 a); [|lia].
      destruct (Z.ltb_spec 0 (maxNumProcessors j)); [|lia]. cbn [andb]. rewrite (Z.min_l a), (Z.min_l a), Z.add_0_l by lia. rewrite Z.ltb_irrefl. cbn [andb].
      destruct (Z.ltb_spec a (numProcessors b)); [|lia]. destruct (take_more _ _ _ _ _ _) as [es1 n1]. destruct ((n1 <? _) && (n1 <? _)); [|done]. by destruct (take_new _ _ _ _ _) as [es2 n2]. }
    rewrite A. destruct (Z.ltb_spec a (Z.max (numProcessors b) (minProcLimit b))); [|lia]. destruct (Z.leb_spec (slotHoldTime b) 0); [|lia]. by eexists.
  - destruct (Slots c a) as [tb E]; [lia|lia|]. rewrite E. unfold getNumProcs. cbn [sc set_sc set_cands candPtr s_numAvailSlots jd with_cands take_avail c_numAvailSlots].
    destruct (Z.ltb_spec 0 c); [|lia]. destruct (Z.ltb_spec 0 (maxNumProcessors j)); [|lia]. cbn [andb]. set (m := Z.min (Z.min c (maxNumProcessors j - 0)) (c - 0)).
    assert (Hm1 : numProcessors b <= 0 + m) by (unfold m; lia). destruct ((0 + m <? c) && (0 + m <? maxNumProcessors j)) eqn:Eb.
    + exfalso. unfold m in Eb. lia.
    + destruct (Z.ltb_spec (0 + m) (numProcessors b)); [lia|]. done.
Qed.
End Theorems.

(** ** A dispatch *)

(** The job of CounterTheorems.v needs two slots and may use five; the host offers four. *)
Definition sample_bill : bill := mkBill 2 0 0 0 None None [] [].
Definition sample_cands (cs : list candHost) : dstate :=
  mkD (handleNewJob keep_usable sample_mbd sample_job) 4 sample_job (mkSched 5 5 cs [] 0 0 0 [] 0).
Definition sample_dispatch : dstate := sample_cands [mkCand node 4 4].
Definition no_preempt (h : cstr) : hPreempt := mkPreempt 0 0.
Definition replies (r : Z) (n : nat) (j : jData) : Z * Z := (r, JOB_STAT_RUN).
Abbreviation sample_result r b s := (dispatchAJob keep_usable (replies r) (replies r) None (fun _ _ => false) (fun _ => false) 8 b false false s).

Lemma sample_submitted : rtc (step (user_ancestors sample_mbd) (usergroups sample_mbd) keep_usable) (mkW sample_mbd ∅) (mkW (mb sample_dispatch) {[7 := sample_job]}).
Proof. eapply rtc_l; [apply (Submit _ _ _ sample_mbd ∅ 7 sample_job); [done|by left|done|done|by vm_compute]|]. apply rtc_refl. Qed.

Lemma sample_requested : requested (user_ancestors sample_mbd) (usergroups sample_mbd) {[7 := sample_job]} 7 sample_bill no_preempt sample_dispatch.
Proof.
  split; try done.
  - intros hs Hl. unfold bounded. rewrite zsum_fmap. rewrite insert_singleton_eq, <- insert_empty, zsum_insert by done.
    unfold zsum. rewrite map_fold_empty. unfold compose, share.
    match goal with |- ?a * _ + _ < _ => let v := eval vm_compute in a in change a with v end.
    change (e_size _) with (2 + Z.of_nat (length hs)). change (maxNumProcessors _) with 2 in Hl. lia.
  - apply (bool_decide_unpack _). vm_compute. exact I.
  - apply (bool_decide_unpack _). vm_compute. exact I.
  - intros up Hu. assert (E : gPtr <$> users (mb sample_dispatch) !! ann = Some [lab]) by (vm_compute; reflexivity). change (uPtr (jd sample_dispatch)) with ann in Hu. rewrite Hu in E.
    injection E as ->. apply (bool_decide_unpack _). vm_compute. exact I.
  - constructor; [|constructor]. split_and!; [done|vm_compute; by eexists|vm_compute; done].
  - repeat constructor. apply not_elem_of_nil.
Qed.

Lemma sample_summary :
  (fun '(r, s) => (r, hPtr (jd s), known (jStatus (jd s)), reserved (jd s), q_cnt <$> queues (mb s) !! short)) <$> sample_result ERR_NO_ERROR sample_bill sample_dispatch
  = Some (DISP_OK, [node; node], JOB_STAT_RUN, false, Some (mkCnt 2 0 2 0 0 0)).
Proof. vm_compute. reflexivity. Qed.

Lemma dispatch_keeps_limits_witness : exists s', sample_result ERR_NO_ERROR sample_bill sample_dispatch = Some (DISP_OK, s')
  /\ hPtr (jd s') = [node; node] /\ within [lab] (fun _ => 0) (jd s') (mb s').
Proof.
  pose proof sample_summary as F. destruct (sample_result ERR_NO_ERROR sample_bill sample_dispatch) as [[r s']|] eqn:E; [|discriminate].
  cbn in F. injection F as -> Eh Kn Rs Eq. pose proof (conj Kn Rs : in_state JOB_STAT_RUN (jd s')) as Rn. exists s'. split; [done|]. split; [done|].
  destruct (users (mb sample_dispatch) !! ann) as [up|] eqn:Eu; [|vm_compute in Eu; discriminate].
  assert (Eg : gPtr up = [lab]) by (vm_compute in Eu; injection Eu as <-; reflexivity). rewrite <- Eg.
  refine (proj2 (dispatch_keeps_limits keep_usable (replies ERR_NO_ERROR) (replies ERR_NO_ERROR) None (fun _ _ => false) (fun _ => false) 8 sample_bill
    sample_mbd {[7 := sample_job]} 7 no_preempt sample_dispatch s' DISP_OK false false up sample_fresh eq_refl sample_submitted eq_refl sample_requested _ Eu E Rn) (fun _ => eq_refl)).
  unfold limit_ok. split; apply (bool_decide_unpack _); vm_compute; exact I.
Defined.

Lemma dispatch_keeps_counters_witness : exists s', sample_result ERR_NO_ERROR sample_bill sample_dispatch = Some (DISP_OK, s')
  /\ exact (user_ancestors sample_mbd) (usergroups sample_mbd) (local_host sample_mbd) (mkW (mb s') {[7 := jd s']})
  /\ (q_cnt <$> queues (mb s') !! short) = Some (mkCnt 2 0 2 0 0 0).
Proof.
  pose proof sample_summary as F. destruct (sample_result ERR_NO_ERROR sample_bill sample_dispatch) as [[r s']|] eqn:E; [|discriminate].
  destruct (dispatch_keeps_counters keep_usable (replies ERR_NO_ERROR) (replies ERR_NO_ERROR) None (fun _ _ => false) (fun _ => false) 8 sample_bill
    sample_mbd {[7 := sample_job]} 7 no_preempt sample_dispatch s' r false false sample_fresh eq_refl sample_submitted eq_refl sample_requested E) as [X _].
  rewrite insert_singleton_eq in X. cbn in F. injection F as -> Eh Kn Rs Eq. exists s'. split; [done|]. by split.
Defined.

Lemma unknown_user_ends_dispatch_witness : exists s', sample_result ERR_NO_USER sample_bill (sample_cands [mkCand node 4 4; mkCand lab 4 4]) = Some (DISP_FAIL, s')
  /\ length (candPtr (sc s')) = 2%nat.
Proof.
  destruct (unknown_user_ends_dispatch keep_usable (replies ERR_NO_USER) (replies ERR_NO_USER) None (fun _ _ => false) (fun _ => false) 8 sample_bill
    (sample_cands [mkCand node 4 4; mkCand lab 4 4])) as (s' & E & Ec & _).
  - repeat constructor; vm_compute; done.
  - vm_compute. done.
  - vm_compute. done.
  - reflexivity.
  - reflexivity.
  - exists s'. split; [exact E|]. rewrite Ec. reflexivity.
Defined.

(** A job for one host that asks for six to eight slots: one host has four, the other eight. *)
Definition one_host_bill : bill := mkBill 6 0 0 0 (Some (mkResVal 1 INFINIT_INT)) None [] [].
Definition big_job : jData := mkJ ann 501 JOB_STAT_PEND 8 0 short [].

Lemma sort_loses_slots_witness : exists s',
  sample_result ERR_NO_ERROR one_host_bill
    (mkD sample_mbd 4 big_job (mkSched 8 8 (sort_cands 2 0 [mkCand node 4 4; mkCand lab 8 8]) [] 0 0 0 [] 0)) = Some (DISP_NO_JOB, s').
Proof.
  apply (sort_loses_slots keep_usable (replies ERR_NO_ERROR) (replies ERR_NO_ERROR) None (fun _ _ => false) (fun _ => false) 8 one_host_bill
    node lab 4 8 (mkSched 8 8 [] [] 0 0 0 [] 0) sample_mbd 4 big_job false); try reflexivity; cbn; lia.
Defined.
