(* ===== verification/ResReq.v ===== *)
(** * Resource requirements (lsf/intlib/resreq.c)

    A resource requirement such as [select[type==any && mem>50] order[r15s:pg]
    rusage[mem=20:duration=2h] span[hosts=1]] says which hosts can run a job, how to
    order them, what the job uses and how it is spread.  [parseResReq] cuts it into
    its sections and parses each; the section [select], in one of two syntaxes, is
    translated to a Tcl expression.

    A function returns its code and the changed [resVal].  A write outside an array,
    an access through NULL or a conversion without a value is the outcome [Crash].  Numbers with exponents, hexadecimal
    ones, infinities and what is not a number, which [strtod] reads too, are the
    outcome [Unmodelled]. *)
From Stdlib Require Import ZArith Ascii String Lia.
From stdpp Require Import base gmap list.
From Corelib Require Import SpecFloat.
From S2P Require Import Prelude CNum JobArray.
Local Open Scope Z_scope.

(** ** Outcomes *)

(** What is undefined: the word of [getNextToken], the arrays [order] and [indicies], the
    names and values of [resToClassNew], its text or that of [resToClassOld] or the
    expression is overrun, the table of resources is too short for a built-in index, a
    [float] is converted to an [int] that cannot hold it, NULL is used. *)
Inductive overrun := Word | Order | Indicies | Name | Value | Text | Select | Table | Conversion | NullToken.
Inductive outcome (A : Type) := Ok (a : A) | Crash (o : overrun) | Unmodelled | OutOfFuel.
Arguments Ok {A} a.
Arguments Crash {A} o.
Arguments Unmodelled {A}.
Arguments OutOfFuel {A}.

Definition obind {A B} (m : outcome A) (f : A -> outcome B) : outcome B :=
  match m with Ok a => f a | Crash o => Crash o | Unmodelled => Unmodelled | OutOfFuel => OutOfFuel end.

Declare Scope outcome_scope.
Notation "'let*' x := m 'in' f" := (obind m (fun x => f)) (at level 10, x name, f at level 200) : outcome_scope.
Notation "'let*' ' x := m 'in' f" := (obind m (fun x => f)) (at level 10, x strict pattern, f at level 200) : outcome_scope.
Local Open Scope outcome_scope.

(** ** Constants and data *)

Definition MAXLINELEN : Z := 512.
Definition MAXLSFNAMELEN : Z := 40.
Definition NBUILTINDEX : Z := 11.
Definition MAXSRES : Z := 32.
Definition R15S : Z := 0.
Definition R1M : Z := 1.
Definition R15M : Z := 2.
Definition PG : Z := 4.
Definition LS : Z := 6.
Definition IT : Z := 7.
Definition SWP : Z := 9.
Definition IDLETIME : Z := 5.
Definition INFINIT_LOAD : spec_float := Eval vm_compute in float_of 0x7fffffff.
Definition RESF_DYNAMIC : Z := 0x02.
Definition RESF_SHARED : Z := 0x08.
Definition PR_SELECT : Z := 0x01.
Definition PR_ORDER : Z := 0x02.
Definition PR_RUSAGE : Z := 0x04.
Definition PR_FILTER : Z := 0x08.
Definition PR_DEFFROMTYPE : Z := 0x10.
Definition PR_BATCH : Z := 0x20.
Definition PR_SPAN : Z := 0x40.
Definition PR_XOR : Z := 0x80.
Definition PARSE_OK : Z := 0.
Definition PARSE_BAD_EXP : Z := -1.
Definition PARSE_BAD_NAME : Z := -2.
Definition PARSE_BAD_VAL : Z := -3.
Definition PARSE_BAD_FILTER : Z := -4.

Inductive valueType := LS_BOOLEAN | LS_NUMERIC | LS_STRING | LS_EXTERNAL.
Inductive orderType := INCR | DECR | NA.

Record resItem := mkItem { r_name : cstr; r_valueType : valueType; r_orderType : orderType; r_flags : Z }.
Record lsInfo := mkInfo { resTable : list resItem; hostTypes : list cstr; hostModels : list cstr; numIndx : Z }.
Definition nRes (i : lsInfo) : Z := Z.of_nat (length (resTable i)).

(** [order] and [indicies] are the entries that count, [nphase] and [nindex] their numbers. *)
Record resVal := mkVal {
  selectStr : cstr; selectStrSize : Z; order : list Z; genClass : Z; val : list spec_float; indicies : list Z;
  rusgBitMaps : list Z; duration : Z; decay : spec_float; numHosts : Z; v_maxNumHosts : Z; v_pTile : Z; options : Z; xorExprs : list cstr }.

Definition set_selectStr (s : cstr) v := mkVal s (selectStrSize v) (order v) (genClass v) (val v) (indicies v) (rusgBitMaps v) (duration v) (decay v) (numHosts v) (v_maxNumHosts v) (v_pTile v) (options v) (xorExprs v).
Definition set_order (o : list Z) v := mkVal (selectStr v) (selectStrSize v) o (genClass v) (val v) (indicies v) (rusgBitMaps v) (duration v) (decay v) (numHosts v) (v_maxNumHosts v) (v_pTile v) (options v) (xorExprs v).
Definition set_genClass (g : Z) v := mkVal (selectStr v) (selectStrSize v) (order v) g (val v) (indicies v) (rusgBitMaps v) (duration v) (decay v) (numHosts v) (v_maxNumHosts v) (v_pTile v) (options v) (xorExprs v).
Definition set_val (x : list spec_float) v := mkVal (selectStr v) (selectStrSize v) (order v) (genClass v) x (indicies v) (rusgBitMaps v) (duration v) (decay v) (numHosts v) (v_maxNumHosts v) (v_pTile v) (options v) (xorExprs v).
Definition set_indicies (x : list Z) v := mkVal (selectStr v) (selectStrSize v) (order v) (genClass v) (val v) x (rusgBitMaps v) (duration v) (decay v) (numHosts v) (v_maxNumHosts v) (v_pTile v) (options v) (xorExprs v).
Definition set_rusgBitMaps (x : list Z) v := mkVal (selectStr v) (selectStrSize v) (order v) (genClass v) (val v) (indicies v) x (duration v) (decay v) (numHosts v) (v_maxNumHosts v) (v_pTile v) (options v) (xorExprs v).
Definition set_duration (x : Z) v := mkVal (selectStr v) (selectStrSize v) (order v) (genClass v) (val v) (indicies v) (rusgBitMaps v) x (decay v) (numHosts v) (v_maxNumHosts v) (v_pTile v) (options v) (xorExprs v).
Definition set_decay (x : spec_float) v := mkVal (selectStr v) (selectStrSize v) (order v) (genClass v) (val v) (indicies v) (rusgBitMaps v) (duration v) x (numHosts v) (v_maxNumHosts v) (v_pTile v) (options v) (xorExprs v).
Definition set_hosts_span (a b : Z) v := mkVal (selectStr v) (selectStrSize v) (order v) (genClass v) (val v) (indicies v) (rusgBitMaps v) (duration v) (decay v) a b (v_pTile v) (options v) (xorExprs v).
Definition set_pTile (x : Z) v := mkVal (selectStr v) (selectStrSize v) (order v) (genClass v) (val v) (indicies v) (rusgBitMaps v) (duration v) (decay v) (numHosts v) (v_maxNumHosts v) x (options v) (xorExprs v).
Definition add_option (o : Z) v := mkVal (selectStr v) (selectStrSize v) (order v) (genClass v) (val v) (indicies v) (rusgBitMaps v) (duration v) (decay v) (numHosts v) (v_maxNumHosts v) (v_pTile v) (Z.lor (options v) o) (xorExprs v).
Definition set_xorExprs (x : list cstr) v := mkVal (selectStr v) (selectStrSize v) (order v) (genClass v) (val v) (indicies v) (rusgBitMaps v) (duration v) (decay v) (numHosts v) (v_maxNumHosts v) (v_pTile v) (options v) x.

(** [SET_BIT] *)
Definition SET_BIT (bitNo : Z) (ints : list Z) : list Z :=
  alter (fun w => wrap32 (Z.lor w (Z.shiftl 1 (bitNo mod 32)))) (Z.to_nat (bitNo / 32)) ints.

(** ** Names *)

(** The table of resources: later names replace earlier ones, and four names have aliases. *)
Fixpoint res_names (i : Z) (t : list resItem) (m : gmap cstr Z) : gmap cstr Z :=
  match t with
  | [] => m
  | r :: t' => res_names (i + 1) t' (<[r_name r := i]> m)
  end.
Definition initParse (info : lsInfo) : gmap cstr Z :=
  <[cs "cpu"%string := R1M]> (<[cs "idle"%string := IT]> (<[cs "swap"%string := SWP]> (<[cs "login"%string := LS]> (res_names 0 (resTable info) ∅)))).

Definition getResEntry (info : lsInfo) (res : cstr) : Z := default (-1) (initParse info !! res).

Definition KEY_DURATION : Z := 1.
Definition KEY_HOSTS : Z := 2.
Definition KEY_PTILE : Z := 3.
Definition KEY_DECAY : Z := 4.
Definition getKeyEntry (key : cstr) : Z :=
  if streq key (cs "duration"%string) then KEY_DURATION
  else if streq key (cs "decay"%string) then KEY_DECAY
  else if streq key (cs "hosts"%string) then KEY_HOSTS
  else if streq key (cs "ptile"%string) then KEY_PTILE
  else -1.

Definition item (info : lsInfo) (entry : Z) : option resItem := resTable info !! Z.to_nat entry.

(** ** Tokens and numbers (lsf/lib/lib.misc.c) *)

Definition len (s : cstr) : Z := Z.of_nat (length s).

(** The text before the first [c]. *)
Fixpoint before (c : ascii) (s : cstr) : cstr :=
  match s with
  | [] => []
  | x :: s' => if Ascii.eqb x c then [] else x :: before c s'
  end.

(** The token, [None] for NULL, and the text behind it. *)
Definition getNextToken (sp : cstr) : outcome (option cstr * cstr) :=
  match sp with
  | [] => Ok (None, [])
  | c :: s' =>
      let sp := if Ascii.eqb c ":" || Ascii.eqb c "=" || Ascii.eqb c SP then s' else sp in
      match sp with
      | [] => Ok (None, [])
      | _ =>
          if MAXLINELEN <=? len sp then Crash Word
          else let word := before "=" (before ":" sp) in Ok (Some word, drop (length word) sp)
      end
  end.

Definition MAXFLOAT : spec_float := Eval vm_compute in widen (S754_finite false 16777215 104).

(** The value of a word that is a number within the range of [float].  An underflow is refused. *)
Definition number (word : cstr) : outcome (option spec_float) :=
  match scan_float word with
  | FSpecial => Unmodelled
  | FNone => Ok None
  | FNum neg n p r =>
      let x := dec_to_float 53 1024 neg n p in
      let tiny := match x with
                  | S754_zero _ => negb (n =? 0)
                  | S754_finite _ m _ => Zpos (digits2_pos m) <? 53
                  | _ => false
                  end in
      Ok (match r with
          | [] => if negb tiny && SFleb x MAXFLOAT && SFltb (SFopp MAXFLOAT) x then Some x else None
          | _ => None
          end)
  end.

(** [isanumber_] and [atof] of a token that may be NULL: [None] when it is not a number. *)
Definition isanumber_ (word : option cstr) : outcome (option spec_float) :=
  match word with
  | None | Some [] => Ok None
  | Some w => number w
  end.

Definition getVal (resReq : cstr) : outcome (option spec_float * cstr) :=
  let* '(token, r) := getNextToken resReq in
  let* x := isanumber_ token in
  Ok (narrow <$> x, r).

(** The digits at the beginning. *)
Fixpoint digits_of (s : cstr) : cstr :=
  match s with
  | c :: s' => if isdigit c then c :: digits_of s' else []
  | [] => []
  end.

(** What follows the unit is ignored. *)
Definition getTimeVal (time : cstr) : outcome (option spec_float * cstr) :=
  let* '(token, r) := getNextToken time in
  match token with
  | None => Crash NullToken
  | Some w =>
      let d := digits_of w in
      let '(num, oneChar) :=
        match drop (length d) w with
        | c :: _ => if Ascii.eqb c "m" || Ascii.eqb c "h" || Ascii.eqb c "s" then (d, Some c) else (w, None)
        | [] => (w, None)
        end in
      let* x := isanumber_ (Some num) in
      Ok ((fun x =>
             let v := narrow x in
             match oneChar with
             | Some c => if Ascii.eqb c "h" then SFmul 24 128 v (float_of 3600) else if Ascii.eqb c "m" then SFmul 24 128 v (float_of 60) else v
             | None => SFmul 24 128 v (float_of 60)
             end) <$> x, r)
  end.

(** The result, two values and the rest. *)
Definition getValPair (resReq : cstr) : outcome (Z * Z * Z * cstr) :=
  let* '(token, r) := getNextToken resReq in
  match token with
  | None | Some [] => Ok (0, INFINIT_INT, INFINIT_INT, r)
  | Some w =>
      let w1 := before "/" (before "," w) in
      let '(wd1, wd2) :=
        match drop (length w1) w with
        | [] => (Some w1, None)
        | _ :: w2 => (match w1 with [] => None | _ => Some w1 end, match w2 with [] => None | _ => Some w2 end)
        end in
      let bad d := match d with Some d => negb (isint_ d) | None => false end in
      Ok (if bad wd1 || bad wd2 || match wd1, wd2 with None, None => true | _, _ => false end then (-1, INFINIT_INT, INFINIT_INT, r)
          else (0, match wd1 with Some d => atoi d | None => INFINIT_INT end, match wd2 with Some d => atoi d | None => INFINIT_INT end, r))
  end.

Definition blank (s : cstr) : bool := forallb (Ascii.eqb SP) s.

(** A leading minus. *)
Definition minus (token : cstr) : bool * cstr :=
  match token with
  | c :: t => if Ascii.eqb c "-" then (true, t) else (false, token)
  | [] => (false, [])
  end.

Definition next_is (c : ascii) (s : cstr) : bool := match s with x :: _ => Ascii.eqb x c | [] => false end.

(** ** Sections *)

Record sections := mkSections { s_select : cstr; s_order : cstr; s_rusage : cstr; s_filter : cstr; s_span : cstr }.

Definition keywords : list cstr :=
  [cs "select"%string; cs "order"%string; cs "rusage"%string; cs "filter"%string; cs "span"%string].

Fixpoint prefixb (p s : cstr) : bool :=
  match p, s with
  | [], _ => true
  | c :: p', x :: s' => Ascii.eqb c x && prefixb p' s'
  | _ :: _, [] => false
  end.

(** The first occurrence of the keyword that is followed by a bracket; [skip]
    characters are passed over, since the search goes on behind an occurrence. *)
Fixpoint find_section (kw s : cstr) (pos skip : nat) : option nat :=
  match s with
  | [] => None
  | _ :: s' =>
      match skip with
      | S k => find_section kw s' (S pos) k
      | O =>
          if prefixb kw s
          then if next_is "[" (drop (length kw) s) then Some pos else find_section kw s' (S pos) (length kw - 1)
          else find_section kw s' (S pos) 0
      end
  end.

(** The string that begins at a position of the buffer. *)
Definition text_at (buf : cstr) (start : nat) : cstr := before NUL (drop start buf).

(** [sectptr[i]] and the buffer when the section is cut out: [None] is PARSE_BAD_EXP. *)
Definition cut_section (kw : cstr) (p : option nat) (buf : cstr) : option (option nat * cstr) :=
  match p with
  | None => Some (None, buf)
  | Some p =>
      let buf := <[p := NUL]> buf in
      if next_is "[" (drop (p + length kw) buf) then
        let start := S (p + length kw) in
        let body := before "]" (text_at buf start) in
        if next_is "]" (drop (start + length body) buf) then Some (Some start, <[(start + length body)%nat := NUL]> buf) else None
      else None
  end.

Fixpoint cut_sections (kps : list (cstr * option nat)) (buf : cstr) : option (list (option nat) * cstr) :=
  match kps with
  | [] => Some ([], buf)
  | (kw, p) :: rest =>
      match cut_section kw p buf with
      | None => None
      | Some (q, buf) => match cut_sections rest buf with Some (qs, buf) => Some (q :: qs, buf) | None => None end
      end
  end.

(** The number of spaces at the end. *)
Fixpoint trailing (s : cstr) : nat :=
  match s with
  | [] => 0
  | c :: s' => if blank s then length s else trailing s'
  end.

Definition trim_at (buf : cstr) (start : nat) : cstr :=
  let s := text_at buf start in
  let n := trailing s in
  take (start + (length s - n)) buf ++ repeat NUL n ++ drop (start + length s) buf.

(** A section that is not there is the start of the buffer for [select] and the NUL at its end for the others. *)
Definition parseSection (resReq : cstr) : option sections :=
  let ps := map (fun kw => find_section kw resReq 0 0) keywords in
  match cut_sections (combine keywords ps) (resReq ++ [NUL]) with
  | None => None
  | Some (qs, buf) =>
      let starts := match qs with
                    | [] => []
                    | q :: qs => default 0%nat q :: map (default (length resReq)) qs
                    end in
      let buf := fold_left trim_at starts buf in
      match map (text_at buf) starts with
      | [a; b; c; d; e] => Some (mkSections a b c d e)
      | _ => None
      end
  end.

(** ** Defaults *)

Definition SIZE (resReq : cstr) : Z := Z.max (3 * len resReq + 1) (MAXLINELEN + MAXLSFNAMELEN).

Definition default_select (opts : Z) : cstr :=
  if has opts PR_DEFFROMTYPE then cs "expr [type "%string ++ [QT] ++ cs "eq"%string ++ [QT; SP; QT] ++ cs "local"%string ++ [QT] ++ cs "]"%string
  else cs "expr [type "%string ++ [QT] ++ cs "eq"%string ++ [QT; SP; QT] ++ cs "any"%string ++ [QT] ++ cs "]"%string.

Definition FLOAT_ONE : spec_float := Eval vm_compute in float_of 1.

(** The state [setDefaults] leaves, for a buffer [selectStr] of [size] bytes. *)
Definition setDefaults (info : lsInfo) (opts size : Z) : outcome resVal :=
  let n := length (resTable info) in
  let v := mkVal (default_select opts) size [R15S + 1; PG + 1] 0 (repeat INFINIT_LOAD n) (seqZ 0 (numIndx info))
             (repeat 0 (n / 32 + 1)) INFINIT_INT INFINIT_LOAD INFINIT_INT INFINIT_INT INFINIT_INT 0 [] in
  if has opts PR_BATCH then Ok v
  else if (n <? 3)%nat then Crash Table
  else Ok (set_genClass 7 (set_val (<[2%nat := FLOAT_ONE]> (<[1%nat := FLOAT_ONE]> (<[0%nat := FLOAT_ONE]> (val v))))
             (set_rusgBitMaps (SET_BIT R15M (SET_BIT R1M (SET_BIT R15S (rusgBitMaps v)))) v))).

(** ** The sections order, filter, rusage and span *)

Fixpoint order_loop (fuel : nat) (info : lsInfo) (orderReq : cstr) (v : resVal) : outcome (Z * resVal) :=
  match fuel with
  | O => OutOfFuel
  | S fuel =>
      let* '(token, r) := getNextToken orderReq in
      match token with
      | None => Ok (PARSE_OK, add_option PR_ORDER v)
      | Some w =>
          let '(negate, w) := minus w in
          let entry := getResEntry info w in
          if entry <? 0 then Ok (PARSE_BAD_NAME, v)
          else match item info entry with
               | None => Crash Table
               | Some it =>
                   match r_orderType it with
                   | NA => Ok (PARSE_BAD_NAME, v)
                   | _ =>
                       let nphase := Z.of_nat (length (order v)) in
                       if NBUILTINDEX <? nphase then Ok (PARSE_OK, add_option PR_ORDER v)
                       else if nphase =? NBUILTINDEX then Crash Order
                       else order_loop fuel info r (set_order (order v ++ [if negate then - (entry + 1) else entry + 1]) v)
                   end
               end
      end
  end.

Definition parseOrder (info : lsInfo) (orderReq : cstr) (v : resVal) : outcome (Z * resVal) :=
  if blank orderReq then Ok (PARSE_OK, v) else order_loop (S (length orderReq)) info orderReq (set_order [] v).

Fixpoint filter_loop (fuel : nat) (info : lsInfo) (filter : cstr) (v : resVal) : outcome (Z * resVal) :=
  match fuel with
  | O => OutOfFuel
  | S fuel =>
      let* '(token, r) := getNextToken filter in
      match token with
      | None => Ok (PARSE_OK, add_option PR_FILTER v)
      | Some w =>
          let entry := getResEntry info w in
          if entry <? 0 then Ok (PARSE_BAD_FILTER, v)
          else match item info entry with
               | None => Crash Table
               | Some it =>
                   if negb (has (r_flags it) RESF_DYNAMIC) then Ok (PARSE_BAD_FILTER, v)
                   else if has (r_flags it) RESF_SHARED then Ok (PARSE_BAD_FILTER, v)
                   else if numIndx info <=? Z.of_nat (length (indicies v)) then Crash Indicies
                   else filter_loop fuel info r (set_indicies (indicies v ++ [entry]) v)
               end
      end
  end.

Definition parseFilter (info : lsInfo) (filter : cstr) (v : resVal) : outcome (Z * resVal) :=
  if blank filter then Ok (PARSE_OK, v) else filter_loop (S (length filter)) info filter (set_indicies [] v).

Definition negative (x : spec_float) : bool := SFltb x (S754_zero false).

(** The conversion of a [float] to [int]. *)
Definition int_of_float (x : spec_float) : outcome Z :=
  match x with
  | S754_infinity _ | S754_nan => Crash Conversion
  | _ => if int32b (trunc x) then Ok (trunc x) else Crash Conversion
  end.

(** [resVal->genClass |= 1 << entry] for the first [MAXSRES] entries. *)
Definition class_bit (entry : Z) (v : resVal) : resVal :=
  if entry <? MAXSRES then set_genClass (wrap32 (Z.lor (genClass v) (Z.shiftl 1 entry))) v else v.

(** A value that is not a number or is negative is refused. *)
Definition goodVal (x : option spec_float) : option spec_float :=
  match x with Some x => if negative x then None else Some x | None => None end.

Fixpoint usage_loop (fuel : nat) (info : lsInfo) (usageReq : cstr) (v : resVal) : outcome (Z * resVal) :=
  match fuel with
  | O => OutOfFuel
  | S fuel =>
      let* '(token, r) := getNextToken usageReq in
      match token with
      | None => Ok (PARSE_OK, add_option PR_RUSAGE v)
      | Some w =>
          let w := snd (minus w) in
          let key := getKeyEntry w in
          if (0 <? key) && negb (key =? KEY_DURATION) && negb (key =? KEY_DECAY) then Ok (PARSE_BAD_NAME, v)
          else if (0 <? key) && next_is "=" r then
            let* '(x, r) := (if key =? KEY_DURATION then getTimeVal r else getVal r) in
            match goodVal x with
            | None => Ok (PARSE_BAD_VAL, v)
            | Some x =>
                if key =? KEY_DURATION then let* d := int_of_float x in usage_loop fuel info r (set_duration d v)
                else usage_loop fuel info r (set_decay x v)
            end
          else
            let entry := getResEntry info w in
            if entry <? 0 then Ok (PARSE_BAD_NAME, v)
            else match item info entry with
                 | None => Crash Table
                 | Some it =>
                     let counted := has (r_flags it) RESF_DYNAMIC || match r_valueType it with LS_NUMERIC => true | _ => false end in
                     let v := if counted then set_rusgBitMaps (SET_BIT entry (rusgBitMaps v)) (class_bit entry v) else v in
                     if next_is "=" r then
                       let* '(x, r) := getVal r in
                       match goodVal x with
                       | None => Ok (PARSE_BAD_VAL, v)
                       | Some x => usage_loop fuel info r (if counted then set_val (<[Z.to_nat entry := x]> (val v)) v else v)
                       end
                     else usage_loop fuel info r v
                 end
      end
  end.

Definition parseUsage (info : lsInfo) (usageReq : cstr) (v : resVal) : outcome (Z * resVal) :=
  if blank usageReq then Ok (PARSE_OK, v) else usage_loop (S (length usageReq)) info usageReq (set_genClass 0 v).

Fixpoint span_loop (fuel : nat) (usageReq : cstr) (v : resVal) : outcome (Z * resVal) :=
  match fuel with
  | O => OutOfFuel
  | S fuel =>
      let* '(token, r) := getNextToken usageReq in
      match token with
      | None => Ok (PARSE_OK, add_option PR_SPAN v)
      | Some w =>
          let entry := getKeyEntry (snd (minus w)) in
          if (0 <=? entry) && (entry <? KEY_HOSTS) then Ok (PARSE_BAD_NAME, v)
          else
            let* '(cc, val1, val2, r) := getValPair r in
            if (cc <? 0) || (val1 <=? 0) || (val2 <=? 0) then Ok (PARSE_BAD_VAL, v)
            else if entry =? KEY_HOSTS then span_loop fuel r (set_hosts_span val1 val2 v)
            else if entry =? KEY_PTILE then
              if negb (val2 =? INFINIT_INT) then Ok (PARSE_BAD_VAL, set_pTile val1 v) else span_loop fuel r (set_pTile val1 v)
            else Ok (PARSE_BAD_NAME, v)
      end
  end.

Definition parseSpan (usageReq : cstr) (v : resVal) : outcome (Z * resVal) :=
  if blank usageReq then Ok (PARSE_OK, v) else span_loop (S (length usageReq)) usageReq v.

(** ** The section select *)

Inductive syntaxType := OLD | NEW | EITHER.

Definition strchr (s : cstr) (c : ascii) : bool := existsb (fun x => Ascii.eqb x c) s.

(** The text from the first [c] on. *)
Definition from (c : ascii) (s : cstr) : cstr := drop (length (before c s)) s.

Definition getSyntax (resReq : cstr) : syntaxType :=
  if strchr resReq ":" then OLD
  else if strchr resReq SP then NEW
  else if existsb (strchr resReq) (cs "()|!><&+*/"%string) then NEW
  else if next_is "=" (drop 1 (from "=" resReq)) then NEW
  else EITHER.

Definition statuses : list cstr :=
  map cs ["ok"; "busy"; "lockU"; "lockW"; "lock"; "lockM"; "lockUW"; "lockUM"; "lockWM"; "lockUWM"; "unavail"]%string.

Definition validValue (value : cstr) (info : lsInfo) (it : resItem) : bool :=
  if streq value (cs "any"%string) || streq value (cs "local"%string) then true
  else if streq (r_name it) (cs "type"%string) then existsb (streq value) (hostTypes info)
  else if streq (r_name it) (cs "model"%string) then existsb (streq value) (hostModels info)
  else if streq (r_name it) (cs "status"%string) then existsb (streq value) statuses
  else true.

Definition between (a b c : ascii) : bool := (nat_of_ascii a <=? nat_of_ascii c)%nat && (nat_of_ascii c <=? nat_of_ascii b)%nat.
Definition IS_LETTER (c : ascii) : bool := between "a" "z" c || between "A" "Z" c.
Definition IS_DIGIT (c : ascii) : bool := between "0" "9" c.
Definition IS_VALID_OTHER (c : ascii) : bool := Ascii.eqb c "_" || Ascii.eqb c "~".
Definition word_char (c : ascii) : bool := IS_LETTER c || IS_DIGIT c || IS_VALID_OTHER c.

Fixpoint word_of (s : cstr) : cstr :=
  match s with
  | c :: s' => if word_char c then c :: word_of s' else []
  | [] => []
  end.

(** The characters copied to the expression as they are. *)
Definition copied (c : ascii) : bool := existsb (Ascii.eqb c) (cs "()=!><|&+-*/."%string) || IS_DIGIT c.

Fixpoint skip_sp (s : cstr) : cstr :=
  match s with
  | c :: s' => if Ascii.eqb c SP then skip_sp s' else s
  | [] => []
  end.

(** [sprintf] of a text of at most [cap - 1] characters, and [strcat] to the expression. *)
Definition strcat (cap size : Z) (sp text : cstr) : outcome cstr :=
  if cap <=? len text then Crash Text
  else if size <=? len sp + len text then Crash Select
  else Ok (sp ++ text).

(** The comparison of a string resource, and the text behind it. *)
Definition string_op (s : cstr) : option (cstr * cstr) :=
  match s with
  | a :: ((b :: s2) as s1) =>
      if Ascii.eqb a "=" && Ascii.eqb b "=" then Some (cs "eq"%string, s2)
      else if Ascii.eqb a "!" && Ascii.eqb b "=" then Some (cs "ne"%string, s2)
      else if Ascii.eqb a ">" && Ascii.eqb b "=" then Some (cs "ge"%string, s2)
      else if Ascii.eqb a "<" && Ascii.eqb b "=" then Some (cs "le"%string, s2)
      else if Ascii.eqb a "<" then Some (cs "lt"%string, s1)
      else if Ascii.eqb a ">" then Some (cs "gt"%string, s1)
      else None
  | _ => None
  end.

(** The value of a string resource, and the text behind it.  A value of [MAXLSFNAMELEN]
    characters or more writes behind the end of [val]. *)
Definition string_value (s : cstr) : outcome (cstr * cstr) :=
  let quoted := next_is "'" s in
  let s := if quoted then drop 1 s else s in
  let v := if quoted then before "'" s else word_of s in
  if MAXLSFNAMELEN <=? len v then Crash Value
  else let s := drop (length v) s in Ok (v, if quoted && next_is "'" s then drop 1 s else s).

Definition quote (s : cstr) : cstr := [QT] ++ s ++ [QT].
Definition defined_text (name : cstr) : cstr := cs "[defined "%string ++ quote name ++ cs " ]"%string.
Definition compare_text (name op v : cstr) : cstr := cs "["%string ++ name ++ [SP] ++ quote op ++ [SP] ++ quote v ++ cs "]"%string.

(** The call [defined(name)], behind the word. *)
Definition class_defined (info : lsInfo) (size : Z) (s sp : cstr) : outcome (Z * cstr * cstr) :=
  let s := skip_sp s in
  if negb (next_is "(" s) then Ok (PARSE_BAD_EXP, s, sp)
  else
    let s := drop 1 s in
    let res := word_of s in
    if MAXLSFNAMELEN <=? len res then Crash Name
    else
      let entry := getResEntry info res in
      if entry <? 0 then Ok (PARSE_BAD_NAME, s, sp)
      else match item info entry with
           | None => Crash Table
           | Some it =>
               let* sp := strcat (MAXLSFNAMELEN * 2) size sp (defined_text (r_name it)) in
               let s := skip_sp (drop (length res) s) in
               if next_is ")" s then Ok (PARSE_OK, drop 1 s, sp) else Ok (PARSE_BAD_EXP, s, sp)
           end.

(** The comparison of a string resource, behind its name. *)
Definition class_string (info : lsInfo) (it : resItem) (size : Z) (s sp : cstr) : outcome (Z * cstr * cstr) :=
  match string_op (skip_sp s) with
  | None => Ok (PARSE_BAD_EXP, s, sp)
  | Some (op, s) =>
      let* '(v, s) := string_value (skip_sp s) in
      match v with
      | [] => Ok (PARSE_BAD_VAL, s, sp)
      | _ =>
          if negb (validValue v info it) then Ok (PARSE_BAD_VAL, s, sp)
          else let* sp := strcat (MAXLSFNAMELEN * 2) size sp (compare_text (r_name it) op v) in Ok (PARSE_OK, s, sp)
      end
  end.

(** A name in the expression: the code, the text behind it and the expression. *)
Definition class_name (info : lsInfo) (size : Z) (s sp : cstr) : outcome (Z * cstr * cstr) :=
  let res := word_of s in
  let s := drop (length res) s in
  if MAXLSFNAMELEN <=? len res then Crash Name
  else
    let entry := getResEntry info res in
    if entry <? 0 then
      if prefixb res (cs "defined"%string) then class_defined info size s sp else Ok (PARSE_BAD_NAME, s, sp)
    else match item info entry with
         | None => Crash Table
         | Some it =>
             match r_valueType it with
             | LS_NUMERIC | LS_BOOLEAN =>
                 if MAXLSFNAMELEN <=? len res + 2 then Crash Name
                 else let* sp := strcat MAXLSFNAMELEN size sp (res ++ cs "()"%string) in Ok (PARSE_OK, s, sp)
             | LS_STRING => class_string info it size s sp
             | LS_EXTERNAL => Ok (PARSE_OK, s, sp)
             end
         end.

Fixpoint class_new (fuel : nat) (info : lsInfo) (size : Z) (s sp : cstr) : outcome (Z * cstr) :=
  match fuel with
  | O => OutOfFuel
  | S fuel =>
      match s with
      | [] => Ok (PARSE_OK, sp)
      | c :: s' =>
          if size - MAXLSFNAMELEN <=? len sp then Ok (PARSE_BAD_EXP, sp)
          else if Ascii.eqb c SP then class_new fuel info size s' sp
          else if copied c then class_new fuel info size s' (sp ++ [c])
          else if IS_LETTER c then
            let* '(cc, s, sp) := class_name info size s sp in
            if cc =? PARSE_OK then class_new fuel info size s sp else Ok (cc, sp)
          else Ok (PARSE_BAD_EXP, sp)
      end
  end.

Definition EXPR : cstr := cs "expr "%string.

Definition resToClassNew (info : lsInfo) (resReq : cstr) (v : resVal) : outcome (Z * resVal) :=
  let* '(cc, sp) := class_new (S (length resReq)) info (selectStrSize v) resReq EXPR in
  let v := set_selectStr sp v in
  Ok (cc, if cc =? PARSE_OK then add_option PR_SELECT v else v).

Definition AND : cstr := cs "&&"%string.
Definition any_text : cstr := compare_text (cs "type"%string) (cs "eq"%string) (cs "any"%string) ++ [SP] ++ AND.
Definition IT_VALUE : spec_float := Eval vm_compute in float_of IDLETIME.

Definition cat_select (text : cstr) (v : resVal) : outcome resVal :=
  let* sp := strcat MAXLINELEN (selectStrSize v) (selectStr v) text in Ok (set_selectStr sp v).

(** The condition of a numeric resource: its value, if there is one. *)
Definition numeric_text (it : resItem) (value : option spec_float) : cstr :=
  r_name it ++ cs "()"%string
  ++ match value with
     | Some x => (match r_orderType it with INCR => cs "<="%string | _ => cs ">="%string end) ++ fmt_f 6 2 x
     | None => []
     end ++ AND.

Fixpoint old_loop (fuel : nat) (info : lsInfo) (resReq : cstr) (v : resVal) : outcome (Z * resVal) :=
  match fuel with
  | O => OutOfFuel
  | S fuel =>
      let* '(token, r) := getNextToken resReq in
      match token with
      | None => let* v := cat_select (cs "1"%string) v in Ok (PARSE_OK, add_option PR_SELECT v)
      | Some w =>
          if selectStrSize v - MAXLSFNAMELEN <=? len (selectStr v) then Ok (PARSE_BAD_EXP, v)
          else if match w with c :: _ => IS_DIGIT c | [] => false end then Ok (PARSE_BAD_EXP, v)
          else if streq w (cs "-"%string) then let* v := cat_select any_text v in old_loop fuel info r v
          else
            let '(negate, w) := minus w in
            let entry := getResEntry info w in
            if entry <? 0 then Ok (PARSE_BAD_NAME, v)
            else match item info entry with
                 | None => Crash Table
                 | Some it =>
                     match r_valueType it with
                     | LS_BOOLEAN =>
                         let* v := cat_select ((if negate then cs "!"%string else []) ++ r_name it ++ cs "()"%string ++ AND) v in
                         old_loop fuel info r v
                     | LS_NUMERIC =>
                         if negate then Ok (PARSE_BAD_EXP, v)
                         else if next_is "=" r then
                           let* '(x, r) := getVal r in
                           match goodVal x with
                           | None => Ok (PARSE_BAD_VAL, v)
                           | Some x =>
                               let v := if has (r_flags it) RESF_DYNAMIC then set_val (<[Z.to_nat entry := x]> (val v)) v else v in
                               let* v := cat_select (numeric_text it (Some x)) v in old_loop fuel info r v
                           end
                         else if entry =? IT then
                           let v := set_val (<[Z.to_nat entry := IT_VALUE]> (val v)) v in
                           let* v := cat_select (numeric_text it (Some IT_VALUE)) v in old_loop fuel info r v
                         else let* v := cat_select (numeric_text it None) v in old_loop fuel info r v
                     | LS_STRING =>
                         if negate then Ok (PARSE_BAD_EXP, v)
                         else if negb (next_is "=" r) then Ok (PARSE_BAD_EXP, v)
                         else
                           let* '(token, r) := getNextToken r in
                           match token with
                           | None => Ok (PARSE_BAD_EXP, v)
                           | Some value =>
                               if negb (validValue value info it) then Ok (PARSE_BAD_VAL, v)
                               else let* v := cat_select (compare_text (r_name it) (cs "eq"%string) value ++ AND) v in old_loop fuel info r v
                           end
                     | LS_EXTERNAL => if negate then Ok (PARSE_BAD_EXP, v) else old_loop fuel info r v
                     end
                 end
      end
  end.

Definition resToClassOld (info : lsInfo) (resReq : cstr) (v : resVal) : outcome (Z * resVal) :=
  if blank resReq then Ok (PARSE_OK, v)
  else if next_is ":" resReq || next_is "=" resReq then Ok (PARSE_BAD_EXP, v)
  else old_loop (S (length resReq)) info resReq (set_selectStr EXPR v).

(** An expression that is refused leaves an empty text. *)
Definition refuse (x : Z * resVal) : Z * resVal :=
  if fst x =? PARSE_OK then x else (fst x, set_selectStr [] (snd x)).

(** [parseSelect] with [parseXor] FALSE, and the end of it otherwise. *)
Definition parseSelect1 (info : lsInfo) (resReq : cstr) (v : resVal) : outcome (Z * resVal) :=
  match getSyntax resReq with
  | OLD => let* x := resToClassOld info resReq v in Ok (refuse x)
  | NEW => let* x := resToClassNew info resReq v in Ok (refuse x)
  | EITHER =>
      let* '(cc, v) := resToClassOld info resReq v in
      if (cc =? PARSE_OK) || (cc =? PARSE_BAD_NAME) || (cc =? PARSE_BAD_VAL) then Ok (refuse (cc, v))
      else let* x := resToClassNew info resReq v in Ok (refuse x)
  end.

(** The texts [strtok] finds between commas. *)
Fixpoint strtok (s : cstr) (word : cstr) : list cstr :=
  let flush := match word with [] => [] | _ => [rev word] end in
  match s with
  | [] => flush
  | c :: s' => if Ascii.eqb c "," then flush ++ strtok s' [] else strtok s' (c :: word)
  end.

(** The expression of each alternative. *)
Fixpoint xor_exprs (info : lsInfo) (opts : Z) (exprs : list cstr) : outcome (Z * list cstr) :=
  match exprs with
  | [] => Ok (PARSE_OK, [])
  | e :: rest =>
      let* tmp := setDefaults info opts (SIZE e) in
      let* '(cc, tmp) := parseSelect1 info e tmp in
      if negb (cc =? PARSE_OK) then Ok (cc, [])
      else
        let* '(cc, es) := xor_exprs info opts rest in
        if negb (cc =? PARSE_OK) then Ok (cc, []) else Ok (PARSE_OK, selectStr tmp :: es)
  end.

(** The alternatives in one expression, joined by [||]. *)
Fixpoint join_or (exprs : list cstr) : cstr :=
  match exprs with
  | [] => []
  | [e] => cs "("%string ++ e ++ cs ")"%string
  | e :: rest => cs "("%string ++ e ++ cs ")||"%string ++ join_or rest
  end.

Definition parseSelect (info : lsInfo) (parseXor : bool) (opts : Z) (resReq : cstr) (v : resVal) : outcome (Z * resVal) :=
  match resReq with
  | [] => parseSelect1 info resReq v
  | _ =>
      if parseXor then
        match strtok resReq [] with
        | [] => Ok (PARSE_BAD_EXP, v)
        | [_] => if strchr resReq "," then Ok (PARSE_BAD_EXP, v) else parseSelect1 info resReq v
        | exprs =>
            let* '(cc, es) := xor_exprs info opts exprs in
            if negb (cc =? PARSE_OK) then Ok (cc, v) else parseSelect1 info (join_or exprs) (set_xorExprs es v)
        end
      else parseSelect1 info resReq v
  end.

(** ** The whole requirement *)

(** [resVal] with nothing allocated, but the text of [size] bytes. *)
Definition initResVal (size : Z) (v : resVal) : resVal :=
  mkVal [] size (order v) (genClass v) [] [] [] (duration v) (decay v) (numHosts v) (v_maxNumHosts v) (v_pTile v) (options v) [].

(** A section that is asked for is parsed, unless one before it was refused. *)
Definition section (wanted : bool) (parse : resVal -> outcome (Z * resVal)) (x : Z * resVal) : outcome (Z * resVal) :=
  if (fst x =? PARSE_OK) && wanted then parse (snd x) else Ok x.

Definition parseResReq (info : lsInfo) (resReq : cstr) (opts : Z) (v : resVal) : outcome (Z * resVal) :=
  match parseSection resReq with
  | None => Ok (PARSE_BAD_EXP, initResVal (SIZE resReq) v)
  | Some req =>
      let* v := setDefaults info opts (SIZE resReq) in
      let* x := section (has opts PR_SELECT) (parseSelect info (has opts PR_XOR) opts (s_select req)) (PARSE_OK, v) in
      let* x := section (has opts PR_ORDER) (parseOrder info (s_order req)) x in
      let* x := section (has opts PR_RUSAGE) (parseUsage info (s_rusage req)) x in
      let* x := section (has opts PR_FILTER) (parseFilter info (s_filter req)) x in
      section (has opts PR_SPAN) (parseSpan (s_span req)) x
  end.
