(* ===== verification/ResReqSect.v ===== *)
(** * The sections of a requirement are found

    A requirement is printed as a leading text, which is the section [select] when
    there is no such section, and sections in any order; [parseSection] finds each. *)
From Stdlib Require Import ZArith Ascii String Lia.
From stdpp Require Import base gmap list.
From S2P Require Import Prelude ResReq.

(** A text inside a section. *)
Definition body_char (c : ascii) : bool := negb (Ascii.eqb c "[" || Ascii.eqb c "]" || Ascii.eqb c NUL).
Definition body (s : cstr) : Prop := forallb body_char s = true.
Definition bodyb (s : cstr) : bool := forallb body_char s && (trailing s =? 0)%nat.

Definition piece (p : cstr * cstr) : cstr := p.1 ++ "["%char :: p.2 ++ ["]"%char; SP].
Definition cut_piece (p : cstr * cstr) : cstr := NUL :: tl p.1 ++ "["%char :: p.2 ++ [NUL; SP].

(** The text, as far as the sections [ks] are cut out. *)
Definition form (ks : list cstr) (p : cstr * cstr) : cstr := if decide (p.1 ∈ ks) then cut_piece p else piece p.
Definition print_sections (lead : cstr) (ps : list (cstr * cstr)) : cstr := lead ++ SP :: concat (map piece ps).

(** The text of a section. *)
Definition section_of (dflt : cstr) (ps : list (cstr * cstr)) (kw : cstr) : cstr :=
  match list_find (fun p => p.1 = kw) ps with Some (_, p) => p.2 | None => dflt end.

(** ** Texts *)

Ltac app_norm := repeat first [rewrite <- app_assoc | progress cbn [app]].

Lemma before_app_stop c s r : Ascii.eqb c c = true -> forallb (fun x => negb (Ascii.eqb x c)) s = true -> before c (s ++ c :: r) = s.
Proof.
  intros E. induction s as [|x s IH]; cbn; intros H; [now rewrite E|]. apply andb_prop in H as [H1 H2].
  apply negb_true_iff in H1. rewrite H1. now f_equal; apply IH.
Qed.

Lemma text_at_app pre s r : forallb (fun x => negb (Ascii.eqb x NUL)) s = true -> text_at (pre ++ s ++ NUL :: r) (length pre) = s.
Proof. intros H. unfold text_at. rewrite drop_app_length. now apply before_app_stop. Qed.

Lemma forallb_impl {A} (f g : A -> bool) l : (forall x, f x = true -> g x = true) -> forallb f l = true -> forallb g l = true.
Proof. rewrite !forallb_forall. firstorder. Qed.

Lemma body_no_nul s : body s -> forallb (fun x => negb (Ascii.eqb x NUL)) s = true.
Proof. apply forallb_impl. intros x. unfold body_char. rewrite !negb_orb. now intros [_ H]%andb_prop. Qed.
Lemma body_no_close s : body s -> forallb (fun x => negb (Ascii.eqb x "]")) s = true.
Proof. apply forallb_impl. intros x. unfold body_char. rewrite !negb_orb. intros [[_ H]%andb_prop _]%andb_prop. exact H. Qed.

(** ** The search *)

Definition letters (kw : cstr) : Prop := kw <> [] /\ forallb (fun x => IS_LETTER x) kw = true.

Lemma keyword_letters kw : kw ∈ keywords -> letters kw.
Proof. unfold keywords. rewrite !elem_of_cons. intros H. repeat destruct H as [->|H]; try (split; [discriminate|reflexivity]). now apply elem_of_nil in H. Qed.

(** [s] is empty or ends in a character that is in no keyword. *)
Definition closed (s : cstr) : Prop := s = [] \/ exists s' c, s = s' ++ [c] /\ IS_LETTER c = false.

Lemma closed_tail c s : closed (c :: s) -> closed s.
Proof.
  intros [H|(s' & d & H & Hd)]; [discriminate|]. destruct s' as [|x s']; cbn in H; injection H as ? H; subst; [now left|right; eauto].
Qed.

Lemma prefix_closed kw s r : forallb (fun x => IS_LETTER x) kw = true -> closed s -> s <> [] ->
  prefixb kw (s ++ r) = true -> (length kw < length s)%nat.
Proof.
  revert s. induction kw as [|k kw IH]; intros s Hk Hs Hn Hp; [destruct s; [easy|cbn; lia]|].
  destruct s as [|c s]; [easy|]. cbn in Hk, Hp |- *. apply andb_prop in Hk as [Hk1 Hk2]. apply andb_prop in Hp as [Hp1 Hp2].
  apply Ascii.eqb_eq in Hp1 as ->. destruct s as [|d s].
  - destruct Hs as [?|(s' & d & E & Hd)]; [easy|]. destruct s' as [|? [|]]; cbn in E; try discriminate. injection E as ->. congruence.
  - apply -> Nat.succ_lt_mono. apply IH; auto; try easy. now apply closed_tail in Hs.
Qed.

Lemma find_skip kw s r pos k : letters kw -> closed s -> forallb (fun x => negb (Ascii.eqb x "[")) s = true -> (k <= length s)%nat ->
  find_section kw (s ++ r) pos k = find_section kw r (pos + length s) 0.
Proof.
  intros [Hne Hkw]. revert pos k. induction s as [|c s IH]; intros pos k Hc Hs Hk.
  - cbn in Hk. assert (k = 0%nat) as -> by lia. cbn [app length]. f_equal. lia.
  - cbn [forallb] in Hs. apply andb_prop in Hs as [_ Hs']. pose proof (closed_tail _ _ Hc) as Hc'.
    assert (G : forall k, (k <= length s)%nat -> find_section kw (s ++ r) (S pos) k = find_section kw r (pos + length (c :: s)) 0)
      by (intros k' Hk'; rewrite IH by auto; f_equal; cbn; lia).
    cbn [app find_section]. destruct k as [|k]; [|apply G; cbn in Hk; lia].
    destruct (prefixb kw (c :: s ++ r)) eqn:E; [|apply G; lia].
    assert (L : (length kw < length (c :: s))%nat) by (apply (prefix_closed kw (c :: s) r); auto; easy).
    assert (N : next_is "[" (drop (length kw) (c :: s ++ r)) = false).
    { destruct kw as [|x kw]; [easy|]. cbn in L |- *. rewrite drop_app_le by lia.
      destruct (drop (length kw) s) as [|d t] eqn:D; [apply (f_equal length) in D; rewrite length_drop in D; cbn in D; lia|].
      cbn. rewrite forallb_forall in Hs'. apply negb_true_iff. apply Hs'. rewrite <- (firstn_skipn (length kw) s). apply in_or_app. right.
      rewrite D. now left. }
    rewrite N. apply G. cbn in L. lia.
Qed.

(** Another section is passed over; the own one is found. *)
Lemma find_piece_other kw p r pos : kw ∈ keywords -> p.1 ∈ keywords -> p.1 <> kw -> body p.2 ->
  find_section kw (piece p ++ r) pos 0 = find_section kw r (pos + length (piece p)) 0.
Proof.
  intros Hk Hp Hne Hb. destruct p as [k b]. cbn [fst snd] in *. unfold piece. cbn [fst snd].
  assert (G : forall pos', find_section kw ((b ++ ["]"%char; SP]) ++ r) pos' 0 = find_section kw r (pos' + length (b ++ ["]"%char; SP])) 0).
  { intros pos'. apply find_skip; [now apply keyword_letters| | |lia].
    - right. exists (b ++ ["]"%char]), SP. split; [now rewrite <- app_assoc|reflexivity].
    - rewrite forallb_app. apply andb_true_iff. split; [|reflexivity]. revert Hb. apply forallb_impl.
      intros x. unfold body_char. rewrite !negb_orb. now intros [[H _]%andb_prop _]%andb_prop. }
  rewrite <- app_assoc, length_app. cbn [app length]. set (t := b ++ _) in *. replace (pos + _)%nat with ((pos + S (length k)) + length t)%nat by lia.
  rewrite <- G. revert Hk Hp Hne. unfold keywords. rewrite !elem_of_cons. intros Hk Hp Hne.
  repeat destruct Hk as [->|Hk]; try (now apply elem_of_nil in Hk); repeat destruct Hp as [->|Hp]; try (now apply elem_of_nil in Hp);
    try (now destruct Hne); cbn; f_equal; lia.
Qed.

Lemma find_piece_own p r pos : p.1 ∈ keywords -> find_section p.1 (piece p ++ r) pos 0 = Some pos.
Proof.
  destruct p as [k b]. unfold piece, keywords. cbn [fst snd]. rewrite !elem_of_cons.
  intros Hk. repeat destruct Hk as [->|Hk]; try (now apply elem_of_nil in Hk); reflexivity.
Qed.

(** Where the section begins. *)
Fixpoint place (kw : cstr) (ps : list (cstr * cstr)) (pos : nat) : option nat :=
  match ps with
  | [] => None
  | p :: ps => if decide (p.1 = kw) then Some pos else place kw ps (pos + length (piece p))
  end.

Definition well_formed (ps : list (cstr * cstr)) : Prop :=
  NoDup (map fst ps) /\ Forall (fun p => p.1 ∈ keywords /\ body p.2 /\ trailing p.2 = 0%nat) ps.

Lemma find_place kw ps pos : kw ∈ keywords -> Forall (fun p => p.1 ∈ keywords /\ body p.2 /\ trailing p.2 = 0%nat) ps ->
  find_section kw (concat (map piece ps)) pos 0 = place kw ps pos.
Proof.
  intros Hk. revert pos. induction ps as [|p ps IH]; intros pos H; [reflexivity|]. inversion_clear H as [|? ? (Hp & Hb & _) Hps].
  cbn [map concat place]. case_decide as D; [subst; now apply find_piece_own|]. rewrite find_piece_other by auto. auto.
Qed.

Lemma find_lead kw lead ps : kw ∈ keywords -> body lead -> Forall (fun p => p.1 ∈ keywords /\ body p.2 /\ trailing p.2 = 0%nat) ps ->
  find_section kw (print_sections lead ps) 0 0 = place kw ps (S (length lead)).
Proof.
  intros Hk Hl Hp. unfold print_sections. change (lead ++ SP :: ?x) with (lead ++ [SP] ++ x). rewrite app_assoc, find_skip.
  - rewrite find_place by auto. f_equal. rewrite length_app. cbn. lia.
  - now apply keyword_letters.
  - right. exists lead, SP. auto.
  - rewrite forallb_app. apply andb_true_iff. split; [|reflexivity]. revert Hl. apply forallb_impl.
    intros x. unfold body_char. rewrite !negb_orb. now intros [[H _]%andb_prop _]%andb_prop.
  - lia.
Qed.

(** ** The cuts *)

Lemma length_form ks p : p.1 <> [] -> length (form ks p) = length (piece p).
Proof. destruct p as [[|c k] b]; [easy|]. intros _. unfold form, cut_piece, piece. case_decide; cbn; rewrite !length_app; cbn; now rewrite !length_app. Qed.

Lemma insert_buf {A} (pre post : list A) x y : <[length pre := y]> (pre ++ x :: post) = pre ++ y :: post.
Proof. rewrite insert_app_r_alt by lia. now rewrite Nat.sub_diag. Qed.

Lemma cut_section_piece k b pre post : letters k -> body b ->
  cut_section k (Some (length pre)) (pre ++ piece (k, b) ++ post)
  = Some (Some (S (length pre + length k)), pre ++ cut_piece (k, b) ++ post).
Proof.
  intros [Hk _] Hb. destruct k as [|c k]; [easy|]. unfold cut_section, piece, cut_piece. cbn [fst snd app tl length].
  rewrite insert_buf. set (buf := pre ++ NUL :: _).
  assert (E1 : buf = (pre ++ NUL :: k) ++ "["%char :: b ++ "]"%char :: SP :: post) by (subst buf; app_norm; reflexivity).
  assert (E2 : buf = (pre ++ NUL :: k ++ ["["%char]) ++ b ++ "]"%char :: SP :: post) by (subst buf; app_norm; reflexivity).
  assert (L1 : (length pre + S (length k))%nat = length (pre ++ NUL :: k)) by (rewrite length_app; reflexivity).
  assert (L2 : S (length pre + S (length k)) = length (pre ++ NUL :: k ++ ["["%char])) by (rewrite length_app; cbn; rewrite length_app; cbn; lia).
  rewrite L1 at 1. rewrite E1 at 1. rewrite drop_app_length. cbn [next_is]. rewrite Ascii.eqb_refl.
  rewrite L2. rewrite E2.
  assert (T : before "]" (text_at ((pre ++ NUL :: k ++ ["["%char]) ++ b ++ "]"%char :: SP :: post) (length (pre ++ NUL :: k ++ ["["%char]))) = b).
  { unfold text_at. rewrite drop_app_length. clear -Hb. induction b as [|x b IH]; [reflexivity|]. cbn in Hb |- *.
    apply andb_prop in Hb as [H1 H2]. unfold body_char in H1. rewrite !negb_orb in H1. apply andb_prop in H1 as [[_ H1]%andb_prop H3].
    apply negb_true_iff in H1, H3. rewrite H3. cbn. rewrite H1. now f_equal; apply IH. }
  rewrite T. rewrite <- length_app. set (q := _ ++ b). rewrite (app_assoc _ b). fold q. rewrite drop_app_length. cbn [next_is]. rewrite Ascii.eqb_refl, insert_buf.
  f_equal. f_equal. subst q. app_norm. reflexivity.
Qed.

Lemma form_other kw ks p : p.1 <> kw -> form (kw :: ks) p = form ks p.
Proof. intros H. unfold form. apply decide_ext. rewrite elem_of_cons. split; [intros [?|?]|right]; easy. Qed.

Lemma map_form_other kw ks ps : kw ∉ map fst ps -> map (form (kw :: ks)) ps = map (form ks) ps.
Proof. intros H. apply map_ext_in. intros p Hp. apply form_other. intros E. apply H. apply list_elem_of_In. rewrite <- E. now apply in_map. Qed.

Definition start (kw : cstr) (ps : list (cstr * cstr)) (pos : nat) : option nat :=
  match place kw ps pos with Some p => Some (S (p + length kw)) | None => None end.

Lemma cut_step kw ks ps pre post : kw ∉ ks -> well_formed ps ->
  cut_section kw (place kw ps (length pre)) (pre ++ concat (map (form ks) ps) ++ post)
  = Some (start kw ps (length pre), pre ++ concat (map (form (kw :: ks)) ps) ++ post).
Proof.
  intros Hk. unfold start. revert pre. induction ps as [|[k b] ps IH]; intros pre [Hn Hw]; [reflexivity|].
  cbn in Hn. apply NoDup_cons in Hn as [Hn1 Hn2]. inversion_clear Hw as [|? ? (Hp & Hb & _) Hps]. cbn [fst snd] in *.
  cbn [map concat place fst]. case_decide as D.
  - subst k. rewrite map_form_other by auto. unfold form at 1 3. cbn [fst]. rewrite decide_False by auto. rewrite decide_True by apply list_elem_of_here.
    rewrite <- !app_assoc, cut_section_piece; auto using keyword_letters.
  - assert (L : (length pre + length (piece (k, b)))%nat = length (pre ++ form ks (k, b)))
      by (rewrite length_app, length_form; [reflexivity|now apply keyword_letters in Hp as []]).
    rewrite L, form_other by auto. rewrite <- !app_assoc. rewrite (app_assoc pre). rewrite IH by (split; auto).
    now rewrite <- !app_assoc.
Qed.

Lemma cut_all ts ks ps pre post : NoDup ts -> (forall kw, kw ∈ ts -> kw ∉ ks) -> well_formed ps ->
  cut_sections (map (fun kw => (kw, place kw ps (length pre))) ts) (pre ++ concat (map (form ks) ps) ++ post)
  = Some (map (fun kw => start kw ps (length pre)) ts, pre ++ concat (map (form (rev ts ++ ks)) ps) ++ post).
Proof.
  revert ks. induction ts as [|kw ts IH]; intros ks Hn Hd Hw; [reflexivity|]. apply NoDup_cons in Hn as [Hn1 Hn2].
  cbn [map cut_sections rev]. rewrite cut_step by (auto; apply Hd, list_elem_of_here). rewrite IH; auto.
  - now rewrite <- app_assoc.
  - intros k Hk. rewrite not_elem_of_cons. split; [now intros ->|]. apply Hd. now apply list_elem_of_further.
Qed.

Lemma form_cut ps : Forall (fun p => p.1 ∈ keywords /\ body p.2 /\ trailing p.2 = 0%nat) ps ->
  map (form (rev keywords ++ [])) ps = map cut_piece ps.
Proof.
  intros H. rewrite Forall_forall in H. apply map_ext_in. intros p Hp. unfold form. rewrite decide_True; [reflexivity|].
  destruct (H p) as [Hk _]; [now apply list_elem_of_In|].
  apply list_elem_of_In. rewrite app_nil_r, <- in_rev. now apply list_elem_of_In.
Qed.

(** ** The texts *)

(** A section is where it begins. *)
Lemma text_cut kw ps pre post : well_formed ps ->
  match start kw ps (length pre) with
  | Some q => exists l b r, pre ++ concat (map cut_piece ps) ++ post = l ++ b ++ NUL :: r /\ length l = q
                            /\ b = section_of [] ps kw /\ body b /\ trailing b = 0%nat /\ (length pre <= length l)%nat
  | None => forall d, section_of d ps kw = d
  end.
Proof.
  intros [Hn Hw]. unfold start. revert pre Hn Hw. induction ps as [|[k b] ps IH]; intros pre Hn Hw; [intros d; reflexivity|].
  cbn in Hn. apply NoDup_cons in Hn as [Hn1 Hn2]. inversion_clear Hw as [|? ? (Hp & Hb & Ht) Hps]. cbn [fst snd] in *.
  cbn [place map concat fst]. unfold section_of. cbn [list_find fst]. case_decide as D.
  - subst k. pose proof (keyword_letters _ Hp) as [Hne _]. destruct kw as [|c k]; [easy|].
    exists (pre ++ NUL :: k ++ ["["%char]), b, (SP :: concat (map cut_piece ps) ++ post). unfold cut_piece at 1. cbn [fst snd tl].
    repeat split; auto; rewrite ?length_app; cbn; rewrite ?length_app; cbn; try lia. app_norm. reflexivity.
  - assert (L : (length pre + length (piece (k, b)))%nat = length (pre ++ cut_piece (k, b))).
    { rewrite length_app, <- (length_form [k] (k, b)) by (now apply keyword_letters in Hp as []).
      unfold form. now rewrite decide_True by apply list_elem_of_here. }
    specialize (IH (pre ++ cut_piece (k, b)) Hn2 Hps). rewrite L. unfold section_of in IH.
    destruct (place kw ps _) as [q|].
    + destruct IH as (l0 & b' & r & E & Hl & Hb' & H1 & H2 & H3). exists l0, b', r. rewrite <- !app_assoc in E. rewrite <- !app_assoc. rewrite length_app in H3.
      repeat split; auto; [|lia]. rewrite Hb'. destruct (list_find _ ps) as [[? ?]|]; reflexivity.
    + intros d. specialize (IH d). destruct (list_find _ ps) as [[? ?]|]; exact IH.
Qed.

Lemma trim_id buf st : trailing (text_at buf st) = 0%nat -> trim_at buf st = buf.
Proof. intros H. unfold trim_at. rewrite H, Nat.sub_0_r. cbn. apply take_drop. Qed.

Lemma trailing_snoc s : trailing s = 0%nat -> trailing (s ++ [SP]) = 1%nat.
Proof.
  induction s as [|c s IH]; [reflexivity|]. intros H. cbn [trailing app] in *.
  assert (B : blank (c :: s ++ [SP]) = blank (c :: s)) by (unfold blank; cbn [forallb]; rewrite forallb_app; cbn; now rewrite andb_true_r).
  rewrite B. destruct (blank (c :: s)); [discriminate|auto].
Qed.

Lemma trim_lead lead C : body lead -> trailing lead = 0%nat -> trim_at (lead ++ SP :: NUL :: C) 0 = lead ++ NUL :: NUL :: C.
Proof.
  intros Hb Ht. unfold trim_at.
  assert (T : text_at (lead ++ SP :: NUL :: C) 0 = lead ++ [SP]).
  { change (lead ++ SP :: NUL :: C) with ([] ++ lead ++ [SP] ++ NUL :: C). rewrite (app_assoc lead). apply (text_at_app []).
    rewrite forallb_app. apply andb_true_iff. split; [now apply body_no_nul|reflexivity]. }
  rewrite T, trailing_snoc by auto. cbn [Nat.add repeat].
  replace (length (lead ++ [SP]) - 1)%nat with (length lead) by (rewrite length_app; cbn; lia).
  rewrite take_app_length. change (lead ++ SP :: NUL :: C) with (lead ++ [SP] ++ NUL :: C). rewrite (app_assoc lead [SP]).
  now rewrite drop_app_length.
Qed.

(** What the trimming of the other sections sees. *)
Definition steady (ps : list (cstr * cstr)) (lead n : nat) (buf : cstr) : Prop :=
  exists pre, length pre = lead /\ buf = pre ++ concat (map cut_piece ps) ++ [NUL] /\ length buf = S n.

Lemma steady_text ps lead n buf kw : well_formed ps -> steady ps lead n buf ->
  text_at buf (default n (start kw ps lead)) = section_of [] ps kw /\ trim_at buf (default n (start kw ps lead)) = buf.
Proof.
  intros Hw (pre & Hp & E & Hl). subst lead. pose proof (text_cut kw ps pre [NUL] Hw) as T.
  assert (X : text_at buf (default n (start kw ps (length pre))) = section_of [] ps kw /\ trailing (section_of [] ps kw) = 0%nat).
  { destruct (start kw ps (length pre)) as [q|]; cbn.
    - destruct T as (l & b & r & E' & Hq & Hb & Hbd & Ht & _). rewrite <- Hb. split; [|exact Ht]. rewrite E, E', <- Hq. apply text_at_app. now apply body_no_nul.
    - rewrite T. split; [|reflexivity]. rewrite E, app_assoc, length_app, Nat.add_comm in Hl. injection Hl as Hl. rewrite E, app_assoc, <- Hl.
      now apply (text_at_app _ []). }
  destruct X as [X1 X2]. split; [exact X1|]. apply trim_id. now rewrite X1.
Qed.

Lemma concat_cut_nul ps : exists C, concat (map cut_piece ps) ++ [NUL] = NUL :: C.
Proof. destruct ps as [|p ps]; [now exists []|]. cbn. eauto. Qed.

(** The section [select] may be the text in front. *)
Lemma select_step ps lead n : well_formed ps -> body lead -> trailing lead = 0%nat -> let sel := cs "select"%string in
  let buf := lead ++ SP :: concat (map cut_piece ps) ++ [NUL] in length buf = S n ->
  let q := default 0%nat (start sel ps (S (length lead))) in
  steady ps (S (length lead)) n (trim_at buf q) /\ text_at (trim_at buf q) q = section_of lead ps sel.
Proof.
  intros Hw Hb Ht sel buf Hl q. assert (S0 : steady ps (S (length lead)) n buf).
  { exists (lead ++ [SP]). rewrite length_app. cbn. split; [lia|]. split; [subst buf; now rewrite <- app_assoc|exact Hl]. }
  pose proof (text_cut sel ps (lead ++ [SP]) [NUL] Hw) as T. replace (length (lead ++ [SP])) with (S (length lead)) in T by (rewrite length_app; cbn; lia).
  pose proof (steady_text ps _ n buf sel Hw S0) as [E1 E2]. subst q. destruct (start sel ps (S (length lead))) as [q|] eqn:E; cbn [default from_option] in *; unfold default, from_option, id in *.
  - rewrite E2. split; [exact S0|]. rewrite E1. unfold section_of in *. destruct T as (l & b & r & _ & _ & Hbs & _).
    destruct (list_find _ ps) as [[? ?]|] eqn:F; [reflexivity|]. exfalso. unfold start in E. clear -E F. destruct (place sel ps (S (length lead))) eqn:P; [|discriminate].
    clear E. revert P. generalize (S (length lead)). induction ps as [|p ps IH]; intros m; cbn; [discriminate|].
    cbn in F. case_decide; [discriminate|]. apply IH. now destruct (list_find _ ps) as [[? ?]|].
  - destruct (concat_cut_nul ps) as [C HC]. subst buf. rewrite HC in *. rewrite trim_lead by auto. split.
    + exists (lead ++ [NUL]). rewrite length_app. cbn. split; [lia|]. rewrite HC. split; [now rewrite <- app_assoc|]. rewrite length_app in Hl |- *. cbn in *. lia.
    + rewrite T. apply (text_at_app [] lead). now apply body_no_nul.
Qed.

Lemma length_cut ps : Forall (fun p => p.1 ∈ keywords /\ body p.2 /\ trailing p.2 = 0%nat) ps ->
  length (concat (map cut_piece ps)) = length (concat (map piece ps)).
Proof.
  induction 1 as [|p ps (Hp & _) _ IH]; [reflexivity|]. cbn [map concat]. rewrite !length_app, IH. f_equal.
  rewrite <- (length_form [p.1] p) by (now apply keyword_letters in Hp as []). unfold form. now rewrite decide_True by apply list_elem_of_here.
Qed.

Lemma keywords_nodup : NoDup keywords.
Proof. apply (bool_decide_unpack _). vm_compute. exact I. Qed.

Theorem sections_found lead ps : body lead -> trailing lead = 0%nat -> well_formed ps ->
  parseSection (print_sections lead ps)
  = Some (mkSections (section_of lead ps (cs "select"%string)) (section_of [] ps (cs "order"%string)) (section_of [] ps (cs "rusage"%string))
            (section_of [] ps (cs "filter"%string)) (section_of [] ps (cs "span"%string))).
Proof.
  intros Hb Ht Hw. unfold parseSection. set (n := length (print_sections lead ps)).
  assert (M : combine keywords (map (fun kw => find_section kw (print_sections lead ps) 0 0) keywords)
              = map (fun kw => (kw, place kw ps (length (lead ++ [SP])))) keywords).
  { destruct Hw as [_ Hw]. rewrite length_app, Nat.add_comm. cbn [length Nat.add]. unfold keywords. cbn [map combine].
    rewrite !find_lead by (auto; unfold keywords; set_solver). reflexivity. }
  rewrite M. replace (print_sections lead ps ++ [NUL]) with ((lead ++ [SP]) ++ concat (map (form []) ps) ++ [NUL])
    by (unfold print_sections; app_norm; do 3 f_equal; apply map_ext; intros p; unfold form; now rewrite decide_False by (apply not_elem_of_nil)).
  rewrite cut_all; [|exact keywords_nodup|intros kw _; apply not_elem_of_nil|exact Hw].
  rewrite form_cut by apply Hw. rewrite <- app_assoc. cbn [app].
  set (buf := lead ++ SP :: concat (map cut_piece ps) ++ [NUL]).
  assert (L : length buf = S n).
  { subst buf n. unfold print_sections. rewrite !length_app. cbn. rewrite length_app. cbn.
    rewrite (length_cut ps) by apply Hw. lia. }
  replace (length (lead ++ [SP])) with (S (length lead)) by (rewrite length_app; cbn; lia).
  unfold keywords. cbn [map]. pose proof (select_step ps lead n Hw Hb Ht L) as [S1 S2]. fold buf in S1, S2. cbn zeta in S1, S2.
  cbn [fold_left]. set (b1 := trim_at buf _) in *.
  rewrite !(fun kw => proj2 (steady_text ps _ n b1 kw Hw S1)). rewrite S2, !(fun kw => proj1 (steady_text ps _ n b1 kw Hw S1)). reflexivity.
Qed.
