(* ===== verification/ResReqParse.v ===== *)
(** * The sections order, rusage and span are read as they are written

    Items are printed with colons between them; the loops of [parseOrder], [parseUsage]
    and [parseSpan] read them back. *)
From Stdlib Require Import ZArith Ascii String Lia.
From stdpp Require Import base gmap list.
From Corelib Require Import SpecFloat.
From S2P Require Import Prelude CNum JobArray ResReq ResReqSect.
Local Open Scope Z_scope.

(** ** Tokens *)

(** A character of a token. *)
Definition tok_char (c : ascii) : bool := negb (Ascii.eqb c ":" || Ascii.eqb c "=" || Ascii.eqb c SP).
Definition tok (s : cstr) : Prop := s <> [] /\ forallb tok_char s = true.

(** Where a token ends. *)
Definition stop (r : cstr) : Prop := match r with [] => True | c :: _ => c = ":"%char \/ c = "="%char end.

Lemma before_app c s r : forallb (fun x => negb (Ascii.eqb x c)) s = true -> before c (s ++ r) = s ++ before c r.
Proof.
  induction s as [|x s IH]; [reflexivity|]. cbn. intros [H1 H2]%andb_prop. apply negb_true_iff in H1. rewrite H1. now f_equal; apply IH.
Qed.

Lemma word_found s r : tok s -> stop r -> before "=" (before ":" (s ++ r)) = s.
Proof.
  intros [_ H] Hr.
  assert (H1 : forallb (fun x => negb (Ascii.eqb x ":")) s = true /\ forallb (fun x => negb (Ascii.eqb x "=")) s = true).
  { split; revert H; apply forallb_impl; intros x; unfold tok_char; rewrite !negb_orb; intros [[? ?]%andb_prop ?]%andb_prop; assumption. }
  destruct H1 as [H1 H2]. rewrite before_app, before_app by assumption. destruct r as [|c r]; [now rewrite app_nil_r|].
  destruct Hr as [->| ->]; cbn; now rewrite app_nil_r.
Qed.

Lemma next_token s r : tok s -> stop r -> len (s ++ r) < MAXLINELEN -> getNextToken (s ++ r) = Ok (Some s, r).
Proof.
  intros Hs Hr Hl. pose proof (word_found s r Hs Hr) as W. destruct Hs as [Hn Hs]. destruct s as [|c s]; [easy|]. cbn [app] in *.
  unfold getNextToken. cbn in Hs. apply andb_prop in Hs as [Hc _]. unfold tok_char in Hc. apply negb_true_iff in Hc. rewrite Hc.
  destruct (Z.leb_spec MAXLINELEN (len (c :: s ++ r))); [lia|]. rewrite W. cbn [length]. cbn. now rewrite drop_app_length.
Qed.

Lemma next_token_sep c s r : c = ":"%char \/ c = "="%char -> tok s -> stop r -> len (s ++ r) < MAXLINELEN ->
  getNextToken (c :: s ++ r) = Ok (Some s, r).
Proof.
  intros Hc Hs Hr Hl. rewrite <- (next_token s r) by auto. pose proof Hs as [Hn Ht]. destruct s as [|x s]; [easy|]. cbn [app].
  unfold getNextToken. cbn in Ht. apply andb_prop in Ht as [Hx _]. unfold tok_char in Hx. apply negb_true_iff in Hx. rewrite Hx.
  destruct Hc as [->| ->]; reflexivity.
Qed.

(** Each token takes a character. *)
Lemma next_token_shorter s w r : getNextToken s = Ok (Some w, r) -> (length r < length s)%nat.
Proof.
  unfold getNextToken. destruct s as [|c s]; [discriminate|]. destruct (_ || _) eqn:E.
  - destruct s as [|d s]; [discriminate|]. destruct (MAXLINELEN <=? _); [discriminate|]. intros H. injection H as <- <-. rewrite length_drop. cbn. lia.
  - destruct (MAXLINELEN <=? _); [discriminate|]. intros H. injection H as <- <-. cbn. apply orb_false_elim in E as [[E1 E2]%orb_false_elim _].
    rewrite E1. cbn. rewrite E2. cbn. rewrite length_drop. lia.
Qed.

(** ** Items between colons *)

Definition tail (ts : list cstr) : cstr := concat (map (cons ":"%char) ts).
Definition items (ts : list cstr) : cstr := match ts with [] => [] | t :: ts => t ++ tail ts end.

Lemma stop_tail ts : stop (tail ts).
Proof. destruct ts; cbn; auto. Qed.

Lemma len_app a b : len (a ++ b) = len a + len b.
Proof. unfold len. rewrite length_app. lia. Qed.
Lemma len_cons c s : len (c :: s) = len s + 1.
Proof. unfold len. cbn [length]. lia. Qed.
Lemma len_nonneg s : 0 <= len s.
Proof. unfold len. lia. Qed.

(** A name of a resource. *)
Definition name (s : cstr) : Prop := s <> [] /\ forallb word_char s = true.
Definition nameb (s : cstr) : bool := match s with [] => false | _ => forallb word_char s end.

Lemma nameb_spec s : nameb s = true <-> name s.
Proof. unfold nameb, name. destruct s; [split; [discriminate|now intros []]|]. split; [now split|now intros []]. Qed.

Lemma word_char_cases (P : ascii -> bool) : (forall c, word_char c = true -> P c = true) <-> forallb (fun n => implb (word_char (ascii_of_nat n)) (P (ascii_of_nat n))) (seq 0 256) = true.
Proof.
  rewrite forallb_forall. split.
  - intros H n _. specialize (H (ascii_of_nat n)). destruct (word_char _); [now apply H|reflexivity].
  - intros H c Hc. specialize (H (nat_of_ascii c)). rewrite ascii_nat_embedding, Hc in H. apply H. apply in_seq. pose proof (nat_ascii_bounded c). lia.
Qed.

Lemma word_char_tok c : word_char c = true -> tok_char c = true.
Proof. revert c. apply word_char_cases. vm_compute. reflexivity. Qed.
Lemma word_char_minus c : word_char c = true -> negb (Ascii.eqb c "-") = true.
Proof. revert c. apply word_char_cases. vm_compute. reflexivity. Qed.
Lemma word_char_body c : word_char c = true -> body_char c = true.
Proof. revert c. apply word_char_cases. vm_compute. reflexivity. Qed.

Lemma name_tok s : name s -> tok s.
Proof. intros [H1 H2]. split; [exact H1|]. revert H2. apply forallb_impl, word_char_tok. Qed.

Lemma minus_name s : name s -> minus s = (false, s).
Proof.
  intros [H1 H2]. destruct s as [|c s]; [easy|]. cbn in H2 |- *. apply andb_prop in H2 as [H2 _]. apply word_char_minus, negb_true_iff in H2. now rewrite H2.
Qed.

(** ** The order *)

Definition order_text (x : bool * cstr) : cstr := if x.1 then "-"%char :: x.2 else x.2.

(** What an item adds to the order. *)
Definition order_entry (info : lsInfo) (x : bool * cstr) : option Z :=
  let e := getResEntry info x.2 in
  if e <? 0 then None
  else match item info e with
       | Some it => match r_orderType it with NA => None | _ => Some (if x.1 then - (e + 1) else e + 1) end
       | None => None
       end.

Lemma order_text_tok x : name x.2 -> tok (order_text x).
Proof. intros H%name_tok. destruct x as [[] s]; [|exact H]. destruct H as [_ H]. split; [discriminate|exact H]. Qed.

Lemma minus_order x : name x.2 -> minus (order_text x) = x.
Proof. intros H. destruct x as [[] s]; [reflexivity|]. now apply minus_name. Qed.

(** One round of the loop. *)
Lemma order_round fuel info x s r v e : name x.2 -> order_entry info x = Some e -> getNextToken s = Ok (Some (order_text x), r) ->
  order_loop (S fuel) info s v =
  if NBUILTINDEX <? Z.of_nat (length (order v)) then Ok (PARSE_OK, add_option PR_ORDER v)
  else if Z.of_nat (length (order v)) =? NBUILTINDEX then Crash Order
  else order_loop fuel info r (set_order (order v ++ [e]) v).
Proof.
  intros Hn He Hs. cbn [order_loop]. rewrite Hs. cbn [obind]. rewrite minus_order by exact Hn. unfold order_entry in He. destruct x as [neg w]. cbn [fst snd] in He.
  destruct (_ <? 0); [discriminate|]. destruct (item _ _) as [it|]; [|discriminate]. destruct (r_orderType it); try discriminate; injection He as <-; reflexivity.
Qed.

Lemma set_order_twice a b v : set_order a (set_order b v) = set_order a v.
Proof. reflexivity. Qed.
Lemma set_order_same v : set_order (order v) v = v.
Proof. now destruct v. Qed.

(** The items of a list, with or without a colon in front. *)
Definition starts_items (ts : list cstr) (s : cstr) : Prop := s = tail ts \/ s = items ts.

Lemma starts_token t ts s : tok t -> starts_items (t :: ts) s -> len s <= MAXLINELEN -> len (items (t :: ts)) < MAXLINELEN ->
  getNextToken s = Ok (Some t, tail ts).
Proof.
  intros Ht [->| ->] Hl Hi; cbn in *.
  - apply (next_token_sep ":" t (tail ts)); auto using stop_tail.
  - apply next_token; auto using stop_tail.
Qed.

Lemma starts_nil s : starts_items [] s -> s = [].
Proof. now intros [->| ->]. Qed.

Lemma len_tail_items t ts : len (tail (t :: ts)) = len (items (t :: ts)) + 1.
Proof. cbn. apply len_cons. Qed.
Lemma len_items_cons t ts : len (tail ts) <= len (items (t :: ts)).
Proof. cbn. rewrite len_app. pose proof (len_nonneg t). unfold len in *. lia. Qed.
Lemma len_items_tail ts : len (items ts) <= len (tail ts).
Proof. destruct ts as [|t ts]; [reflexivity|]. rewrite len_tail_items. lia. Qed.

(** Up to [NBUILTINDEX] items are read; one more overruns [order]. *)
Lemma order_items info xs es : Forall (fun x => name x.2) xs -> mapM (order_entry info) xs = Some es ->
  forall fuel s v, starts_items (map order_text xs) s -> len s <= MAXLINELEN -> len (items (map order_text xs)) < MAXLINELEN ->
  (length xs < fuel)%nat -> (length (order v) <= Z.to_nat NBUILTINDEX)%nat ->
  order_loop fuel info s v
  = if (length (order v) + length xs <=? Z.to_nat NBUILTINDEX)%nat then Ok (PARSE_OK, add_option PR_ORDER (set_order (order v ++ es) v)) else Crash Order.
Proof.
  intros Hn. revert es. induction Hn as [|x xs Hx Hxs IH]; intros es Hm fuel s v Hs Hl Hi Hf Hv.
  - injection Hm as <-. apply starts_nil in Hs as ->. destruct fuel as [|fuel]; [cbn in Hf; lia|]. cbn. rewrite app_nil_r, set_order_same.
    destruct (Nat.leb_spec (length (order v) + 0) (Z.to_nat NBUILTINDEX)) as [_|H]; [reflexivity|lia].
  - cbn in Hm. destruct (order_entry info x) as [e|] eqn:Ee; [|discriminate]. cbn in Hm. destruct (mapM _ xs) as [es'|]; [|discriminate]. injection Hm as <-.
    destruct fuel as [|fuel]; [lia|]. cbn [map] in Hs, Hi. pose proof (starts_token _ _ _ (order_text_tok x Hx) Hs Hl Hi) as Ht.
    rewrite (order_round fuel info x s _ v e Hx Ee Ht). change (Z.to_nat NBUILTINDEX) with 11%nat in *. change NBUILTINDEX with 11.
    destruct (Z.ltb_spec 11 (Z.of_nat (length (order v)))); [lia|]. destruct (Z.eqb_spec (Z.of_nat (length (order v))) 11) as [E|E].
    + destruct (Nat.leb_spec (length (order v) + length (x :: xs)) 11); [cbn in *; lia|reflexivity].
    + pose proof (len_items_cons (order_text x) (map order_text xs)). pose proof (len_items_tail (map order_text xs)).
      rewrite (IH es' eq_refl); [| now left | lia | lia | cbn in Hf; lia | cbn; rewrite length_app; cbn; lia].
      cbn [order set_order]. rewrite length_app, <- app_assoc. cbn [length app]. rewrite set_order_twice. now rewrite <- Nat.add_assoc.
Qed.

(** A text that begins with a token is not blank, and holds a character for each item. *)
Definition headed (t : cstr) : Prop := match t with c :: _ => tok_char c = true | [] => False end.

Lemma tok_headed t r : tok t -> headed (t ++ r).
Proof. intros [H1 H2]. destruct t as [|c t]; [easy|]. cbn in *. now apply andb_prop in H2 as [H2 _]. Qed.

Lemma headed_not_blank t ts : headed t -> blank (items (t :: ts)) = false.
Proof.
  destruct t as [|c t]; [easy|]. cbn [headed]. intros H. unfold blank. cbn [items app forallb]. unfold tok_char in H. apply negb_true_iff in H.
  apply orb_false_elim in H as [_ H]. rewrite Ascii.eqb_sym in H. now rewrite H.
Qed.

Lemma length_headed ts : Forall headed ts -> (length ts <= length (items ts))%nat.
Proof.
  intros H. assert (G : forall ts, (length ts <= length (tail ts))%nat) by (induction ts0 as [|t ts0 IH]; cbn; [lia|]; rewrite length_app; unfold tail in IH; lia).
  destruct H as [|t ts Ht _]; [cbn; lia|]. cbn. rewrite length_app. specialize (G ts). destruct t; [easy|cbn; lia].
Qed.

Lemma parse_order info xs es v : xs <> [] -> Forall (fun x => name x.2) xs -> mapM (order_entry info) xs = Some es ->
  len (items (map order_text xs)) < MAXLINELEN ->
  parseOrder info (items (map order_text xs)) v
  = if (length xs <=? Z.to_nat NBUILTINDEX)%nat then Ok (PARSE_OK, add_option PR_ORDER (set_order es v)) else Crash Order.
Proof.
  intros Hne Hn Hm Hl. unfold parseOrder.
  assert (Hh : Forall headed (map order_text xs)).
  { apply Forall_map, (Forall_impl _ _ _ Hn). intros x Hx%order_text_tok. rewrite <- (app_nil_r (order_text x)). now apply tok_headed. }
  pose proof (length_headed _ Hh) as L. rewrite length_map in L. destruct xs as [|x xs]; [easy|]. inversion_clear Hh as [|? ? Hhx _].
  cbn [map] in *. rewrite headed_not_blank by exact Hhx. rewrite (order_items info (x :: xs) es Hn Hm); [reflexivity| now right | lia | exact Hl | lia | cbn; lia].
Qed.

(** ** Numbers *)

(** The value of [n / 10^p] as a [float], and when [isanumber_] accepts its text. *)
Definition float_val (n : Z) (p : nat) : spec_float := narrow (dec_to_float 53 1024 false n p).
Definition fits (n : Z) (p : nat) : bool :=
  let x := dec_to_float 53 1024 false n p in
  let tiny := match x with
              | S754_zero _ => negb (n =? 0)
              | S754_finite _ m _ => Zpos (digits2_pos m) <? 53
              | _ => false
              end in
  (0 <=? n) && negb tiny && SFleb x MAXFLOAT && SFltb (SFopp MAXFLOAT) x && negb (negative (narrow x)).

Lemma fits_nonneg n p : fits n p = true -> 0 <= n.
Proof. unfold fits. intros H. repeat apply andb_prop in H as [H _]. lia. Qed.

Lemma number_fixed n p : fits n p = true -> number (fixed p n) = Ok (Some (dec_to_float 53 1024 false n p)).
Proof.
  intros H. pose proof (fits_nonneg n p H) as Hn. pose proof (scan_float_fixed 0 p false n [] Hn I) as S.
  rewrite app_nil_r in S. change (pad_left 0 (signed false (fixed p n))) with (fixed p n) in S. unfold number. rewrite S.
  unfold fits in H. apply andb_prop in H as [[[[_ H1]%andb_prop H2]%andb_prop H3]%andb_prop _]. now rewrite H1, H2, H3.
Qed.

Lemma fixed_digits p n : 0 <= n -> forallb (fun c => isdigit c || Ascii.eqb c ".") (fixed p n) = true /\ fixed p n <> [].
Proof.
  intros Hn. unfold fixed. assert (H10 : 0 < 10 ^ Z.of_nat p) by (apply Z.pow_pos_nonneg; lia).
  assert (Hq : 0 <= n / 10 ^ Z.of_nat p) by (apply Z.div_pos; lia). split.
  - rewrite forallb_app. apply andb_true_iff. split; [apply (forallb_impl isdigit), unat_digits; [now intros x ->|exact Hq]|].
    destruct p as [|p]; [reflexivity|]. cbn [forallb]. rewrite orb_true_r, andb_true_l. apply (forallb_impl isdigit); [now intros x ->|].
    pose proof (pad_digits_spec (S p) (n mod 10 ^ Z.of_nat (S p)) (Z.mod_pos_bound _ _ H10)) as D. apply D.
  - destruct (unat_cons _ Hq) as (c & t & -> & _). discriminate.
Qed.

Lemma digit_tok c : isdigit c || Ascii.eqb c "." = true -> tok_char c = true.
Proof. destruct c as [[] [] [] [] [] [] [] []]; vm_compute; auto. Qed.

Lemma fixed_tok p n : 0 <= n -> tok (fixed p n).
Proof. intros Hn. destruct (fixed_digits p n Hn) as [H1 H2]. split; [exact H2|]. revert H1. apply forallb_impl, digit_tok. Qed.

Lemma get_val n p r : fits n p = true -> stop r -> len (fixed p n ++ r) < MAXLINELEN ->
  getVal ("="%char :: fixed p n ++ r) = Ok (Some (float_val n p), r) /\ negative (float_val n p) = false.
Proof.
  intros Hf Hr Hl. pose proof (fits_nonneg n p Hf) as Hn. unfold getVal. rewrite next_token_sep by (auto using fixed_tok).
  cbn [obind]. unfold isanumber_. destruct (fixed p n) eqn:E; [now destruct (fixed_digits p n Hn)|]. rewrite <- E, number_fixed by exact Hf. split; [reflexivity|].
  unfold fits in Hf. apply andb_prop in Hf as [_ Hf]. now apply negb_true_iff in Hf.
Qed.

(** ** Durations *)

Definition seconds (u : option ascii) : Z :=
  match u with
  | Some c => if Ascii.eqb c "h" then 3600 else if Ascii.eqb c "m" then 60 else 1
  | None => 60
  end.
Definition unit_text (u : option ascii) : cstr := match u with Some c => [c] | None => [] end.
Definition unitb (u : option ascii) : bool :=
  match u with Some c => Ascii.eqb c "m" || Ascii.eqb c "h" || Ascii.eqb c "s" | None => true end.

(** The longest duration of the theorems: up to it the [float] is the number of seconds. *)
Definition MAXDURATION : Z := 1000.

Definition scaled (n : Z) (u : option ascii) : spec_float :=
  let v := float_val n 0 in
  match u with
  | Some c => if Ascii.eqb c "h" then SFmul 24 128 v (float_of 3600) else if Ascii.eqb c "m" then SFmul 24 128 v (float_of 60) else v
  | None => SFmul 24 128 v (float_of 60)
  end.
Definition exact (n : Z) (u : option ascii) : bool :=
  fits n 0 && negb (negative (scaled n u)) && match int_of_float (scaled n u) with Ok d => d =? n * seconds u | _ => false end.

Lemma exact_all : forallb (fun n => exact n None && exact n (Some "m"%char) && exact n (Some "h"%char) && exact n (Some "s"%char)) (map Z.of_nat (seq 0 1001)) = true.
Proof. vm_compute. reflexivity. Qed.

Lemma exact_upto n u : 0 <= n <= MAXDURATION -> unitb u = true -> exact n u = true.
Proof.
  intros Hn Hu. pose proof exact_all as H. rewrite forallb_forall in H. specialize (H n).
  assert (I : In n (map Z.of_nat (seq 0 1001))) by (apply in_map_iff; exists (Z.to_nat n); split; [lia|apply in_seq; unfold MAXDURATION in Hn; lia]).
  apply H in I. apply andb_prop in I as [[[H1 H2]%andb_prop H3]%andb_prop H4]. destruct u as [c|]; [|exact H1]. cbn in Hu.
  destruct (Ascii.eqb_spec c "m"); [now subst|]. destruct (Ascii.eqb_spec c "h"); [now subst|]. destruct (Ascii.eqb_spec c "s"); [now subst|discriminate].
Qed.

Lemma digits_of_app s r : forallb isdigit s = true -> match r with c :: _ => isdigit c = false | [] => True end -> digits_of (s ++ r) = s.
Proof.
  intros Hs Hr. induction s as [|c s IH]; cbn; [destruct r as [|c r]; [reflexivity|]; cbn; now rewrite Hr|].
  cbn in Hs. apply andb_prop in Hs as [-> Hs]. f_equal. now apply IH.
Qed.

Lemma unit_tok u : unitb u = true -> forallb tok_char (unit_text u) = true /\ match unit_text u with c :: _ => isdigit c = false | [] => True end.
Proof.
  destruct u as [c|]; [|now split]. cbn. intros H. destruct (Ascii.eqb_spec c "m"); [now subst|]. destruct (Ascii.eqb_spec c "h"); [now subst|].
  destruct (Ascii.eqb_spec c "s"); [now subst|discriminate].
Qed.

Lemma unat_fixed n : 0 <= n -> fixed 0 n = unat n.
Proof. intros H. unfold fixed. change (10 ^ Z.of_nat 0) with 1. now rewrite Z.div_1_r, app_nil_r. Qed.

Lemma time_val n u r : 0 <= n <= MAXDURATION -> unitb u = true -> stop r -> len (unat n ++ unit_text u ++ r) < MAXLINELEN ->
  getTimeVal ("="%char :: unat n ++ unit_text u ++ r) = Ok (Some (scaled n u), r)
  /\ negative (scaled n u) = false /\ int_of_float (scaled n u) = Ok (n * seconds u).
Proof.
  intros Hn Hu Hr Hl. pose proof (exact_upto n u Hn Hu) as E. unfold exact in E. apply andb_prop in E as [[Ef En]%andb_prop Ei].
  destruct (unit_tok u Hu) as [Hut Hud]. assert (Hn0 : 0 <= n) by lia. pose proof (unat_digits n Hn0) as Hd.
  split; [|split; [now apply negb_true_iff in En|destruct (int_of_float _); try discriminate; f_equal; lia]].
  unfold getTimeVal. rewrite app_assoc in Hl |- *. rewrite next_token_sep; [|auto| |exact Hr|exact Hl].
  2: { split; [destruct (unat_cons n Hn0) as (c & t & -> & _); discriminate|]. rewrite forallb_app, Hut, andb_true_r. revert Hd. apply forallb_impl.
       intros x Hx. apply digit_tok. now rewrite Hx. }
  cbn [obind]. rewrite digits_of_app by auto. rewrite drop_app_length.
  assert (N : isanumber_ (Some (unat n)) = Ok (Some (dec_to_float 53 1024 false n 0))).
  { rewrite <- unat_fixed by lia. pose proof (number_fixed n 0 Ef) as F. unfold isanumber_. destruct (fixed 0 n) eqn:X; [|exact F].
    now destruct (fixed_digits 0 n Hn0). }
  destruct u as [c|]; cbn [unit_text].
  - cbn in Hu. rewrite Hu. rewrite N. reflexivity.
  - rewrite app_nil_r, N. reflexivity.
Qed.

(** ** The resource usage *)

Inductive use :=
| Use (w : cstr) (x : option (Z * nat))
| UseFor (n : Z) (u : option ascii)
| UseDecay (n : Z) (p : nat).

Definition use_text (i : use) : cstr :=
  match i with
  | Use w None => w
  | Use w (Some (n, p)) => w ++ "="%char :: fixed p n
  | UseFor n u => cs "duration"%string ++ "="%char :: unat n ++ unit_text u
  | UseDecay n p => cs "decay"%string ++ "="%char :: fixed p n
  end.

Definition use_ok (info : lsInfo) (i : use) : bool :=
  match i with
  | Use w x => nameb w && (getKeyEntry w =? -1) && (0 <=? getResEntry info w) && (getResEntry info w <? nRes info)
               && match x with Some (n, p) => fits n p | None => true end
  | UseFor n u => (0 <=? n) && (n <=? MAXDURATION) && unitb u
  | UseDecay n p => fits n p
  end.

(** A resource whose use is recorded. *)
Definition counted (it : resItem) : bool := has (r_flags it) RESF_DYNAMIC || match r_valueType it with LS_NUMERIC => true | _ => false end.

(** What an item means. *)
Definition use_val (info : lsInfo) (v : resVal) (i : use) : resVal :=
  match i with
  | UseFor n u => set_duration (n * seconds u) v
  | UseDecay n p => set_decay (float_val n p) v
  | Use w x =>
      let e := getResEntry info w in
      match item info e with
      | Some it =>
          if counted it then
            let v := set_rusgBitMaps (SET_BIT e (rusgBitMaps v)) (class_bit e v) in
            match x with Some (n, p) => set_val (<[Z.to_nat e := float_val n p]> (val v)) v | None => v end
          else v
      | None => v
      end
  end.

Lemma len_items_head a b ts : len (items ((a ++ b) :: ts)) = len a + len b + len (tail ts).
Proof. cbn. now rewrite !len_app. Qed.

(** A token in front of a value or of the end of the item. *)
Lemma starts_head w r ts s : tok w -> stop r -> starts_items ((w ++ r) :: ts) s -> len (items ((w ++ r) :: ts)) < MAXLINELEN ->
  stop (r ++ tail ts) -> getNextToken s = Ok (Some w, r ++ tail ts).
Proof.
  intros Hw Hr Hs Hl Hst. destruct Hs as [->| ->]; cbn in Hl |- *; rewrite <- app_assoc in *.
  - apply (next_token_sep ":" w (r ++ tail ts)); auto.
  - now apply next_token.
Qed.

Lemma stop_app r ts : stop r -> stop (r ++ tail ts).
Proof. intros H. destruct r as [|c r]; [apply stop_tail|exact H]. Qed.

Lemma key_tok : tok (cs "duration"%string) /\ tok (cs "decay"%string) /\ tok (cs "hosts"%string) /\ tok (cs "ptile"%string).
Proof. repeat split; discriminate. Qed.

Lemma item_in_range info e : 0 <= e < nRes info -> exists it, item info e = Some it.
Proof. intros H. unfold item, nRes in *. apply lookup_lt_is_Some. lia. Qed.

(** One round of the loop of [parseUsage]. *)
Lemma usage_round info i ts s fuel v : use_ok info i = true -> starts_items (use_text i :: ts) s -> len (items (use_text i :: ts)) < MAXLINELEN ->
  usage_loop (S fuel) info s v = usage_loop fuel info (tail ts) (use_val info v i).
Proof.
  intros Ho Hs Hl. destruct key_tok as (Kd & Kc & _). cbn [usage_loop]. destruct i as [w x|n u|n p]; cbn [use_ok] in Ho.
  - apply andb_prop in Ho as [[[[Hw Hk]%andb_prop H0]%andb_prop H1]%andb_prop Hx]. apply nameb_spec in Hw. apply Z.eqb_eq in Hk.
    set (r := match x with Some (n, p) => "="%char :: fixed p n | None => [] end).
    assert (E : use_text (Use w x) = w ++ r) by (subst r; destruct x as [[n p]|]; cbn; [reflexivity|now rewrite app_nil_r]). rewrite E in Hs, Hl.
    assert (Sr : stop r) by (subst r; destruct x as [[n p]|]; cbn; auto).
    rewrite (starts_head w r ts s (name_tok w Hw) Sr Hs Hl (stop_app _ _ Sr)). cbn [obind]. rewrite minus_name by exact Hw. cbn [snd].
    rewrite Hk. cbn [Z.ltb Z.compare andb]. destruct (Z.ltb_spec (getResEntry info w) 0); [lia|]. destruct (item_in_range info (getResEntry info w)) as [it Hi]; [lia|].
    cbn [use_val]. rewrite Hi. fold (counted it). destruct x as [[n p]|]; subst r; cbn [app next_is].
    + change (Ascii.eqb "=" "=") with true. cbv iota. destruct (get_val n p (tail ts) Hx (stop_tail ts)) as [-> Hng].
      { rewrite len_items_head, len_cons in Hl. rewrite len_app. pose proof (len_nonneg w). lia. }
      cbn [obind goodVal]. rewrite Hng. now destruct (counted it).
    + assert (N : next_is "=" (tail ts) = false) by (destruct ts; reflexivity). rewrite N. now destruct (counted it).
  - apply andb_prop in Ho as [[H0 H1]%andb_prop Hu].
    set (r := "="%char :: unat n ++ unit_text u). change (use_text (UseFor n u)) with (cs "duration"%string ++ r) in *.
    assert (Sr : stop r) by (subst r; cbn; auto). rewrite (starts_head _ r ts s Kd Sr Hs Hl (stop_app _ _ Sr)). cbn [obind].
    change (snd (minus (cs "duration"%string))) with (cs "duration"%string). change (getKeyEntry (cs "duration"%string)) with 1. cbn [Z.ltb Z.compare Z.eqb Pos.eqb KEY_DURATION KEY_DECAY negb andb].
    subst r. cbn [app next_is]. change (Ascii.eqb "=" "=") with true. cbn [andb]. rewrite <- app_assoc.
    destruct (time_val n u (tail ts)) as (-> & Hng & Hd); [lia|exact Hu|apply stop_tail| |].
    { rewrite len_items_head, len_cons in Hl. rewrite !len_app in *. pose proof (len_nonneg (cs "duration"%string)). lia. }
    cbn [obind goodVal]. rewrite Hng. cbn [Z.eqb]. rewrite Hd. reflexivity.
  - set (r := "="%char :: fixed p n). change (use_text (UseDecay n p)) with (cs "decay"%string ++ r) in *.
    assert (Sr : stop r) by (subst r; cbn; auto). rewrite (starts_head _ r ts s Kc Sr Hs Hl (stop_app _ _ Sr)). cbn [obind].
    change (snd (minus (cs "decay"%string))) with (cs "decay"%string). change (getKeyEntry (cs "decay"%string)) with 4. cbn [Z.ltb Z.compare Z.eqb Pos.eqb KEY_DURATION KEY_DECAY negb andb].
    subst r. cbn [app next_is]. change (Ascii.eqb "=" "=") with true. cbn [andb]. destruct (get_val n p (tail ts) Ho (stop_tail ts)) as [-> Hng].
    { rewrite len_items_head, len_cons in Hl. rewrite len_app. pose proof (len_nonneg (cs "decay"%string)). lia. }
    cbn [obind goodVal]. rewrite Hng. reflexivity.
Qed.

Lemma usage_items info us : Forall (fun i => use_ok info i = true) us ->
  forall fuel s v, starts_items (map use_text us) s -> len (items (map use_text us)) < MAXLINELEN -> (length us < fuel)%nat ->
  usage_loop fuel info s v = Ok (PARSE_OK, add_option PR_RUSAGE (fold_left (use_val info) us v)).
Proof.
  induction 1 as [|i us Hi Hus IH]; intros fuel s v Hs Hl Hf; (destruct fuel as [|fuel]; [cbn in Hf; lia|]).
  - apply starts_nil in Hs as ->. reflexivity.
  - cbn [map] in *. rewrite (usage_round info i (map use_text us)) by auto. cbn [fold_left]. apply IH; [now left| |cbn in Hf; lia].
    pose proof (len_items_cons (use_text i) (map use_text us)). pose proof (len_items_tail (map use_text us)). lia.
Qed.

Lemma use_headed info i : use_ok info i = true -> headed (use_text i).
Proof.
  destruct key_tok as (Kd & Kc & _). destruct i as [w x|n u|n p]; cbn [use_ok use_text].
  - intros H. apply andb_prop in H as [[[[Hw _]%andb_prop _]%andb_prop _]%andb_prop _]. apply nameb_spec, name_tok in Hw.
    destruct x as [[n p]|]; [now apply tok_headed|]. rewrite <- (app_nil_r w). now apply tok_headed.
  - intros _. now apply tok_headed.
  - intros _. now apply tok_headed.
Qed.

Lemma parse_usage info us v : us <> [] -> Forall (fun i => use_ok info i = true) us -> len (items (map use_text us)) < MAXLINELEN ->
  parseUsage info (items (map use_text us)) v = Ok (PARSE_OK, add_option PR_RUSAGE (fold_left (use_val info) us (set_genClass 0 v))).
Proof.
  intros Hne Hi Hl. unfold parseUsage.
  assert (Hh : Forall headed (map use_text us)) by (apply Forall_map, (Forall_impl _ _ _ Hi); intros i; apply use_headed).
  pose proof (length_headed _ Hh) as L. rewrite length_map in L. destruct us as [|i us]; [easy|]. inversion_clear Hh as [|? ? Hhi _]. cbn [map] in *.
  rewrite headed_not_blank by exact Hhi. apply (usage_items info (i :: us) Hi); [now right|exact Hl|lia].
Qed.

(** ** The spread over hosts *)

Inductive spread := Hosts (n : Z) (m : option Z) | Tile (n : Z).

Definition spread_text (i : spread) : cstr :=
  match i with
  | Hosts n m => cs "hosts"%string ++ "="%char :: unat n ++ match m with Some m => ","%char :: unat m | None => [] end
  | Tile n => cs "ptile"%string ++ "="%char :: unat n
  end.

Definition countb (n : Z) : bool := (0 <? n) && (n <? 2 ^ 31).
Definition spread_ok (i : spread) : bool :=
  match i with
  | Hosts n m => countb n && match m with Some m => countb m | None => true end
  | Tile n => countb n
  end.

Definition spread_val (v : resVal) (i : spread) : resVal :=
  match i with
  | Hosts n m => set_hosts_span n (default INFINIT_INT m) v
  | Tile n => set_pTile n v
  end.

Lemma unat_dec n : 0 <= n -> unat n = dec n.
Proof. intros H. rewrite dec_signed. destruct (Z.ltb_spec n 0); [lia|]. now rewrite Z.abs_eq. Qed.

Lemma count_int n : countb n = true -> isint_ (unat n) = true /\ atoi (unat n) = n /\ 0 < n.
Proof.
  unfold countb. intros [H1 H2]%andb_prop. assert (Hn : 0 <= n) by lia. assert (Hi : int32 n) by (unfold int32; lia). split; [|split; [|lia]].
  - unfold isint_. pose proof (skip_space_sign false n [] Hn) as S. cbn [signed] in S. rewrite app_nil_r in S. rewrite S.
    pose proof (scan_sign_unat n [] Hn) as S1. rewrite app_nil_r in S1. rewrite S1. pose proof (scan_digits_unat n [] Hn) as D. rewrite app_nil_r in D. cbn [scan_digits] in D.
    rewrite D. destruct (unat_cons n Hn) as (c & t & Hc & _). rewrite Hc. cbn [length]. rewrite clamp64_id, wrap32_id by exact Hi.
    unfold INFINIT_INT. apply andb_true_iff. split; lia.
  - unfold atoi. rewrite unat_dec by lia. pose proof (scan_int_dec n [] Hi I) as D. rewrite app_nil_r in D. now rewrite D.
Qed.

Lemma digit_sep c : isdigit c = true -> tok_char c = true /\ Ascii.eqb c "," = false /\ Ascii.eqb c "/" = false.
Proof. destruct c as [[] [] [] [] [] [] [] []]; vm_compute; auto; discriminate. Qed.

Lemma unat_no c n : (forall x, isdigit x = true -> Ascii.eqb x c = false) -> 0 <= n -> forallb (fun x => negb (Ascii.eqb x c)) (unat n) = true.
Proof. intros H Hn. generalize (unat_digits n Hn). apply forallb_impl. intros x Hx. now rewrite H. Qed.

Definition pair_text (n : Z) (m : option Z) : cstr := unat n ++ match m with Some m => ","%char :: unat m | None => [] end.

Lemma pair_tok n m : countb n = true -> match m with Some m => countb m | None => true end = true -> tok (pair_text n m).
Proof.
  intros Hn Hm. unfold countb in *. assert (T : forall k, 0 <= k -> forallb tok_char (unat k) = true).
  { intros k Hk. generalize (unat_digits k Hk). apply forallb_impl. intros x Hx. now apply digit_sep. }
  unfold pair_text. split; [destruct (unat_cons n ltac:(lia)) as (c & t & -> & _); discriminate|]. rewrite forallb_app, T by lia.
  destruct m as [m|]; [|reflexivity]. cbn. apply T. lia.
Qed.

Lemma val_pair n m r : countb n = true -> match m with Some m => countb m | None => true end = true -> stop r ->
  len (pair_text n m ++ r) < MAXLINELEN -> getValPair ("="%char :: pair_text n m ++ r) = Ok (0, n, default INFINIT_INT m, r).
Proof.
  intros Hn Hm Hr Hl. pose proof (pair_tok n m Hn Hm) as Ht. unfold getValPair. rewrite next_token_sep by auto. cbn [obind].
  assert (Hn0 : 0 <= n) by (unfold countb in Hn; lia). destruct (unat_cons n Hn0) as (c & t & Hc & _).
  destruct (count_int n Hn) as (I1 & A1 & P1).
  assert (B : before "/" (before "," (pair_text n m)) = unat n).
  { unfold pair_text. rewrite before_app by (apply unat_no; [intros x Hx; now apply digit_sep|exact Hn0]).
    rewrite before_app by (apply unat_no; [intros x Hx; now apply digit_sep|exact Hn0]). destruct m; cbn; now rewrite app_nil_r. }
  rewrite B. destruct (pair_text n m) as [|y l] eqn:E; [now destruct Ht|]. rewrite <- E. unfold pair_text. rewrite drop_app_length. rewrite Hc. rewrite <- Hc.
  destruct m as [m|].
  - destruct (count_int m Hm) as (I2 & A2 & P2). destruct (unat_cons m ltac:(lia)) as (d & u & Hd & _). rewrite Hd. rewrite <- Hd. rewrite I1, I2, A1, A2. reflexivity.
  - rewrite I1, A1. reflexivity.
Qed.

Lemma span_round i ts s fuel v : spread_ok i = true -> starts_items (spread_text i :: ts) s -> len (items (spread_text i :: ts)) < MAXLINELEN ->
  span_loop (S fuel) s v = span_loop fuel (tail ts) (spread_val v i).
Proof.
  intros Ho Hs Hl. destruct key_tok as (_ & _ & Kh & Kp). cbn [span_loop]. destruct i as [n m|n]; cbn [spread_ok] in Ho.
  - apply andb_prop in Ho as [Hn Hm]. set (r := "="%char :: pair_text n m). change (spread_text (Hosts n m)) with (cs "hosts"%string ++ r) in *.
    assert (Sr : stop r) by (subst r; cbn; auto). rewrite (starts_head _ r ts s Kh Sr Hs Hl (stop_app _ _ Sr)). cbn [obind].
    change (getKeyEntry (snd (minus (cs "hosts"%string)))) with 2. change ((0 <=? 2) && (2 <? KEY_HOSTS)) with false. cbv iota. subst r. cbn [app].
    rewrite (val_pair n m (tail ts) Hn Hm (stop_tail ts)) by (rewrite len_items_head, len_cons in Hl; rewrite len_app; pose proof (len_nonneg (cs "hosts"%string)); lia).
    cbn [obind]. destruct (count_int n Hn) as (_ & _ & P1). assert (P2 : 0 < default INFINIT_INT m) by (destruct m as [m|]; [now destruct (count_int m Hm) as (_ & _ & ?)|reflexivity]).
    destruct (Z.ltb_spec 0 0); [lia|]. destruct (Z.leb_spec n 0); [lia|]. destruct (Z.leb_spec (default INFINIT_INT m) 0); [lia|]. reflexivity.
  - set (r := "="%char :: unat n). change (spread_text (Tile n)) with (cs "ptile"%string ++ r) in *.
    assert (Sr : stop r) by (subst r; cbn; auto). rewrite (starts_head _ r ts s Kp Sr Hs Hl (stop_app _ _ Sr)). cbn [obind].
    change (getKeyEntry (snd (minus (cs "ptile"%string)))) with 3. change ((0 <=? 3) && (3 <? KEY_HOSTS)) with false. cbv iota. subst r. cbn [app].
    rewrite len_items_head, len_cons in Hl.
    pose proof (val_pair n None (tail ts) Ho eq_refl (stop_tail ts)) as V. unfold pair_text in V. rewrite app_nil_r in V.
    rewrite V by (rewrite len_app; pose proof (len_nonneg (cs "ptile"%string)); lia). cbn [obind default from_option]. destruct (count_int n Ho) as (_ & _ & P1).
    destruct (Z.ltb_spec 0 0); [lia|]. destruct (Z.leb_spec n 0); [lia|]. reflexivity.
Qed.

Lemma spread_headed i : headed (spread_text i).
Proof. destruct key_tok as (_ & _ & Kh & Kp). destruct i; now apply tok_headed. Qed.

Lemma span_items us : Forall (fun i => spread_ok i = true) us ->
  forall fuel s v, starts_items (map spread_text us) s -> len (items (map spread_text us)) < MAXLINELEN -> (length us < fuel)%nat ->
  span_loop fuel s v = Ok (PARSE_OK, add_option PR_SPAN (fold_left spread_val us v)).
Proof.
  induction 1 as [|i us Hi Hus IH]; intros fuel s v Hs Hl Hf; (destruct fuel as [|fuel]; [cbn in Hf; lia|]).
  - apply starts_nil in Hs as ->. reflexivity.
  - cbn [map] in *. rewrite (span_round i (map spread_text us)) by auto. cbn [fold_left]. apply IH; [now left| |cbn in Hf; lia].
    pose proof (len_items_cons (spread_text i) (map spread_text us)). pose proof (len_items_tail (map spread_text us)). lia.
Qed.

Lemma parse_span us v : us <> [] -> Forall (fun i => spread_ok i = true) us -> len (items (map spread_text us)) < MAXLINELEN ->
  parseSpan (items (map spread_text us)) v = Ok (PARSE_OK, add_option PR_SPAN (fold_left spread_val us v)).
Proof.
  intros Hne Hi Hl. unfold parseSpan.
  assert (Hh : Forall headed (map spread_text us)) by (apply Forall_map, Forall_true; intros i; apply spread_headed).
  pose proof (length_headed _ Hh) as L. rewrite length_map in L. destruct us as [|i us]; [easy|]. inversion_clear Hh as [|? ? Hhi _]. cbn [map] in *.
  rewrite headed_not_blank by exact Hhi. apply (span_items (i :: us) Hi); [now right|exact Hl|lia].
Qed.
