(* ===== verification/ResReqSelect.v ===== *)
(** * The section select in the new syntax

    The translation of a condition to Tcl, and the room it needs: no text overruns the
    expression or the buffer of its parts, however long the condition is. *)
From Stdlib Require Import ZArith Ascii String Lia.
From stdpp Require Import base gmap list.
From S2P Require Import Prelude CNum JobArray ResReq ResReqSect ResReqParse.
Local Open Scope Z_scope.

(** ** The loop consumes its text *)

Lemma word_of_le s : (length (word_of s) <= length s)%nat.
Proof. induction s as [|c s IH]; cbn; [lia|]. destruct (word_char c); cbn; lia. Qed.
Lemma skip_sp_le s : (length (skip_sp s) <= length s)%nat.
Proof. induction s as [|c s IH]; cbn; [lia|]. destruct (Ascii.eqb c SP); cbn; lia. Qed.
Lemma letter_word c s : IS_LETTER c = true -> word_of (c :: s) = c :: word_of s.
Proof. intros H. cbn. unfold word_char. now rewrite H. Qed.

Lemma string_op_shorter s op r : string_op s = Some (op, r) -> (length r < length s)%nat.
Proof. unfold string_op. destruct s as [|a [|b s]]; try discriminate. intros H. repeat case_match; try discriminate; injection H as <- <-; cbn; lia. Qed.

Lemma before_le c s : (length (before c s) <= length s)%nat.
Proof. induction s as [|x s IH]; cbn; [lia|]. destruct (Ascii.eqb x c); cbn; lia. Qed.

Lemma drop_length_le {A} n (s : list A) : (length (drop n s) <= length s)%nat.
Proof. rewrite length_drop. lia. Qed.

(** The value and the rest of the text. *)
Lemma string_value_len s v r : string_value s = Ok (v, r) -> (length v + length r <= length s)%nat /\ len v < MAXLSFNAMELEN.
Proof.
  unfold string_value. set (q := next_is "'" s). set (s1 := if q then drop 1 s else s). set (w := if q then before "'" s1 else word_of s1).
  destruct (Z.leb_spec MAXLSFNAMELEN (len w)); [discriminate|]. intros H0. injection H0 as <- <-. split; [|exact H].
  assert (L1 : (length s1 <= length s)%nat) by (subst s1; destruct q; [apply drop_length_le|lia]).
  assert (L2 : (length w <= length s1)%nat) by (subst w; destruct q; [apply before_le|apply word_of_le]).
  assert (L3 : (length (drop (length w) s1) = length s1 - length w)%nat) by apply length_drop.
  destruct (q && _); [pose proof (drop_length_le 1 (drop (length w) s1))|]; lia.
Qed.

(** What a part of the expression costs: [used] characters of the text become [made] of the expression. *)
Lemma strcat_ok cap size sp text r : strcat cap size sp text = Ok r -> r = sp ++ text.
Proof. unfold strcat. destruct (cap <=? _); [discriminate|]. destruct (size <=? _); [discriminate|]. now intros [= <-]. Qed.

Lemma class_defined_shorter info size s sp s' sp' : class_defined info size s sp = Ok (PARSE_OK, s', sp') -> (length s' <= length s)%nat.
Proof.
  unfold class_defined. destruct (negb _); [discriminate|]. destruct (MAXLSFNAMELEN <=? _); [discriminate|]. destruct (_ <? 0); [discriminate|].
  destruct (item _ _); [|discriminate]. destruct (strcat _ _ _ _); try discriminate. cbn [obind]. destruct (next_is ")" _); [|discriminate].
  intros [= <- <-]. set (t := skip_sp s). pose proof (skip_sp_le s). rewrite !length_drop.
  pose proof (skip_sp_le (drop (length (word_of (drop 1 t))) (drop 1 t))) as L. rewrite !length_drop in L. fold t in H. lia.
Qed.

Lemma class_string_shorter info it size s sp s' sp' : class_string info it size s sp = Ok (PARSE_OK, s', sp') -> (length s' <= length s)%nat.
Proof.
  unfold class_string. destruct (string_op (skip_sp s)) as [[op r]|] eqn:E; [|discriminate]. apply string_op_shorter in E. pose proof (skip_sp_le s). pose proof (skip_sp_le r).
  destruct (string_value (skip_sp r)) as [[v r1]| | |] eqn:V; try discriminate. apply string_value_len in V as [V _]. cbn [obind]. destruct v; [discriminate|].
  destruct (negb _); [discriminate|]. destruct (strcat _ _ _ _); try discriminate. intros [= <- <-]. lia.
Qed.

Lemma class_name_shorter info size c s sp s' sp' : IS_LETTER c = true -> class_name info size (c :: s) sp = Ok (PARSE_OK, s', sp') -> (length s' <= length s)%nat.
Proof.
  intros Hc. unfold class_name. rewrite letter_word by exact Hc. cbn [length]. rewrite skipn_cons. destruct (MAXLSFNAMELEN <=? _); [discriminate|].
  pose proof (drop_length_le (length (word_of s)) s) as L. destruct (_ <? 0).
  - destruct (prefixb _ _); [|discriminate]. intros H%class_defined_shorter. lia.
  - destruct (item _ _) as [it|]; [|discriminate]. destruct (r_valueType it).
    + destruct (MAXLSFNAMELEN <=? _); [discriminate|]. destruct (strcat _ _ _ _); try discriminate. now intros [= <- <-].
    + destruct (MAXLSFNAMELEN <=? _); [discriminate|]. destruct (strcat _ _ _ _); try discriminate. now intros [= <- <-].
    + intros H%class_string_shorter. lia.
    + now intros [= <- <-].
Qed.

(** More fuel than the text is long changes nothing. *)
Lemma class_new_stable info size f1 f2 s sp : (length s < f1)%nat -> (length s < f2)%nat -> class_new f1 info size s sp = class_new f2 info size s sp.
Proof.
  revert f2 s sp. induction f1 as [|f1 IH]; intros f2 s sp H1 H2; [lia|]. destruct f2 as [|f2]; [lia|]. destruct s as [|c s]; [reflexivity|]. cbn in H1, H2. cbn [class_new].
  destruct (_ <=? _); [reflexivity|]. destruct (Ascii.eqb c SP); [apply IH; lia|]. destruct (copied c); [apply IH; lia|]. destruct (IS_LETTER c) eqn:L; [|reflexivity].
  destruct (class_name info size (c :: s) sp) as [[[cc s'] sp']| | |] eqn:E; [|reflexivity..]. cbn [obind]. destruct (Z.eqb_spec cc PARSE_OK) as [->|]; [|reflexivity].
  apply class_name_shorter in E; [|exact L]. apply IH; lia.
Qed.

Definition class (info : lsInfo) (size : Z) (s sp : cstr) : outcome (Z * cstr) := class_new (S (length s)) info size s sp.

Lemma class_cons info size c s sp : class info size (c :: s) sp =
  if size - MAXLSFNAMELEN <=? len sp then Ok (PARSE_BAD_EXP, sp)
  else if Ascii.eqb c SP then class info size s sp
  else if copied c then class info size s (sp ++ [c])
  else if IS_LETTER c then
    obind (class_name info size (c :: s) sp) (fun '(cc, s, sp) => if cc =? PARSE_OK then class info size s sp else Ok (cc, sp))
  else Ok (PARSE_BAD_EXP, sp).
Proof.
  unfold class. cbn [length]. remember (S (length s)) as f eqn:Hf. cbn [class_new]. destruct (_ <=? _); [reflexivity|]. destruct (Ascii.eqb c SP); [reflexivity|].
  destruct (copied c); [reflexivity|]. destruct (IS_LETTER c) eqn:L; [|reflexivity].
  destruct (class_name info size (c :: s) sp) as [[[cc s'] sp']| | |] eqn:E; [|reflexivity..]. cbn [obind]. destruct (Z.eqb_spec cc PARSE_OK) as [->|]; [|reflexivity].
  apply class_name_shorter in E; [|exact L]. apply (class_new_stable info size f (S (length s')) s' sp'); lia.
Qed.

(** ** Conditions and their translation *)

Inductive relop := Eq | Ne | Ge | Le | Lt | Gt.
Inductive term :=
| Copy (s : cstr)
| Named (w : cstr)
| Defined (w : cstr)
| Compare (w : cstr) (op : relop) (v : cstr).

Definition op_text (op : relop) : cstr :=
  match op with Eq => cs "=="%string | Ne => cs "!="%string | Ge => cs ">="%string | Le => cs "<="%string | Lt => cs "<"%string | Gt => cs ">"%string end.
Definition op_tcl (op : relop) : cstr :=
  match op with Eq => cs "eq"%string | Ne => cs "ne"%string | Ge => cs "ge"%string | Le => cs "le"%string | Lt => cs "lt"%string | Gt => cs "gt"%string end.

Definition term_text (t : term) : cstr :=
  match t with
  | Copy s => s
  | Named w => w
  | Defined w => cs "defined("%string ++ w ++ cs ")"%string
  | Compare w op v => w ++ op_text op ++ cs "'"%string ++ v ++ cs "'"%string
  end.

(** A condition has a space between its terms. *)
Fixpoint cond_text (ts : list term) : cstr :=
  match ts with
  | [] => []
  | [t] => term_text t
  | t :: ts => term_text t ++ SP :: cond_text ts
  end.

Definition table_name (info : lsInfo) (w : cstr) : cstr := match item info (getResEntry info w) with Some it => r_name it | None => [] end.

Definition term_tcl (info : lsInfo) (t : term) : cstr :=
  match t with
  | Copy s => s
  | Named w => w ++ cs "()"%string
  | Defined w => defined_text (table_name info w)
  | Compare w op v => compare_text (table_name info w) (op_tcl op) v
  end.
Definition cond_tcl (info : lsInfo) (ts : list term) : cstr := concat (map (term_tcl info) ts).

(** A name, the resource of which has one of the types. *)
Definition known (info : lsInfo) (w : cstr) (types : valueType -> bool) : bool :=
  (0 <=? getResEntry info w) && match item info (getResEntry info w) with Some it => types (r_valueType it) | None => false end.
Definition short_name (w : cstr) : bool :=
  match w with c :: _ => IS_LETTER c | [] => false end && forallb word_char w && (len w + 2 <? MAXLSFNAMELEN).

Definition value_char (c : ascii) : bool := negb (Ascii.eqb c "'" || Ascii.eqb c ":" || Ascii.eqb c ",") && body_char c.

Definition term_ok (info : lsInfo) (t : term) : bool :=
  match t with
  | Copy s => match s with [] => false | _ => forallb copied s end
  | Named w => short_name w && known info w (fun t => match t with LS_NUMERIC | LS_BOOLEAN => true | _ => false end)
  | Defined w => short_name w && known info w (fun _ => true) && (getResEntry info (cs "defined"%string) <? 0) && (len (table_name info w) <? 60)
  | Compare w op v =>
      short_name w && known info w (fun t => match t with LS_STRING => true | _ => false end) && (len (table_name info w) <? 31)
      && match v with [] => false | _ => forallb value_char v end && (len v <? MAXLSFNAMELEN)
      && match item info (getResEntry info w) with Some it => validValue v info it | None => false end
  end.

(** What can follow a term. *)
Definition gap (k : cstr) : Prop := match k with [] => True | c :: _ => word_char c = false end.

Lemma word_of_app w k : forallb word_char w = true -> gap k -> word_of (w ++ k) = w.
Proof.
  intros Hw Hk. induction w as [|c w IH]; cbn; [destruct k as [|c k]; [reflexivity|]; cbn; now rewrite Hk|].
  cbn in Hw. apply andb_prop in Hw as [-> Hw]. f_equal. now apply IH.
Qed.

Lemma short_name_spec w : short_name w = true -> exists c w', w = c :: w' /\ IS_LETTER c = true /\ forallb word_char w = true /\ len w + 2 < MAXLSFNAMELEN.
Proof. unfold short_name. destruct w as [|c w]; [discriminate|]. intros [[H1 H2]%andb_prop H3]%andb_prop. exists c, w. repeat split; auto. lia. Qed.

Lemma known_spec info w f : known info w f = true -> exists it, 0 <= getResEntry info w /\ item info (getResEntry info w) = Some it /\ f (r_valueType it) = true
  /\ table_name info w = r_name it.
Proof. unfold known, table_name. intros [H1 H2]%andb_prop. destruct (item _ _) as [it|]; [|discriminate]. exists it. repeat split; auto. lia. Qed.

Lemma letter_plain c : IS_LETTER c = true -> Ascii.eqb c SP = false /\ copied c = false.
Proof. destruct c as [[] [] [] [] [] [] [] []]; vm_compute; auto; discriminate. Qed.

Lemma strcat_room cap size sp text : len text < cap -> len sp + len text < size -> strcat cap size sp text = Ok (sp ++ text).
Proof. intros H1 H2. unfold strcat. destruct (Z.leb_spec cap (len text)); [lia|]. destruct (Z.leb_spec size (len sp + len text)); [lia|]. reflexivity. Qed.

Lemma len_quote s : len (quote s) = len s + 2.
Proof. unfold quote. rewrite !len_app. unfold len. cbn. lia. Qed.
Lemma len_defined s : len (defined_text s) = len s + 13.
Proof. unfold defined_text. rewrite !len_app, len_quote. unfold len. cbn. lia. Qed.
Lemma len_compare n op v : len (compare_text n op v) = len n + len op + len v + 8.
Proof. unfold compare_text. rewrite !len_app, !len_quote. unfold len. cbn. lia. Qed.

Lemma copied_not_space c : copied c = true -> Ascii.eqb c SP = false.
Proof. destruct c as [[] [] [] [] [] [] [] []]; vm_compute; auto; discriminate. Qed.

Lemma class_copy info size s k sp : forallb copied s = true -> len (sp ++ s) < size - MAXLSFNAMELEN ->
  class info size (s ++ k) sp = class info size k (sp ++ s).
Proof.
  revert sp. induction s as [|c s IH]; intros sp Hs Hl; [now rewrite app_nil_r|]. cbn in Hs. apply andb_prop in Hs as [Hc Hs].
  cbn [app]. rewrite class_cons. rewrite len_app, len_cons in Hl. pose proof (len_nonneg s). destruct (Z.leb_spec (size - MAXLSFNAMELEN) (len sp)); [lia|].
  rewrite copied_not_space, Hc by exact Hc. rewrite IH; [now rewrite <- app_assoc|exact Hs|]. rewrite !len_app. unfold len in *. cbn in *. lia.
Qed.

(** A term that begins with a letter is read by [class_name]. *)
Lemma class_letter info size c s k sp text : IS_LETTER c = true -> len sp < size - MAXLSFNAMELEN ->
  class_name info size (c :: s) sp = Ok (PARSE_OK, k, sp ++ text) -> class info size (c :: s) sp = class info size k (sp ++ text).
Proof.
  intros Hc Hl H. rewrite class_cons. destruct (Z.leb_spec (size - MAXLSFNAMELEN) (len sp)); [lia|]. destruct (letter_plain c Hc) as [-> ->]. rewrite Hc, H. reflexivity.
Qed.

Lemma name_named info size w k sp : short_name w = true -> known info w (fun t => match t with LS_NUMERIC | LS_BOOLEAN => true | _ => false end) = true ->
  gap k -> len sp + len w + 2 < size ->
  class_name info size (w ++ k) sp = Ok (PARSE_OK, k, sp ++ w ++ cs "()"%string).
Proof.
  intros (c & w' & Ew & _ & Hw & Hlw)%short_name_spec (it & He & Hi & Ht & _)%known_spec Hk Hl. unfold class_name. rewrite word_of_app, drop_app_length by auto.
  destruct (Z.leb_spec MAXLSFNAMELEN (len w)); [lia|]. destruct (Z.ltb_spec (getResEntry info w) 0); [lia|]. rewrite Hi.
  assert (S : strcat MAXLSFNAMELEN size sp (w ++ cs "()"%string) = Ok (sp ++ w ++ cs "()"%string)) by (apply strcat_room; rewrite len_app; unfold len in *; cbn; lia).
  destruct (r_valueType it); try discriminate; (destruct (Z.leb_spec MAXLSFNAMELEN (len w + 2)); [lia|]); rewrite S; reflexivity.
Qed.

Lemma name_defined info size w k sp : short_name w = true -> known info w (fun _ => true) = true -> getResEntry info (cs "defined"%string) < 0 ->
  len (table_name info w) < 60 -> len sp + len (defined_text (table_name info w)) < size ->
  class_name info size (term_text (Defined w) ++ k) sp = Ok (PARSE_OK, k, sp ++ defined_text (table_name info w)).
Proof.
  intros (c & w' & Ew & _ & Hw & Hlw)%short_name_spec (it & He & Hi & _ & Hn)%known_spec Hd Hl Hs. unfold class_name.
  replace (term_text (Defined w) ++ k) with (cs "defined"%string ++ ("("%char :: w ++ ")"%char :: k)) by (cbn; now rewrite <- app_assoc).
  rewrite word_of_app, drop_app_length by reflexivity. change (MAXLSFNAMELEN <=? len (cs "defined"%string)) with false. cbv iota.
  destruct (Z.ltb_spec (getResEntry info (cs "defined"%string)) 0); [|lia]. change (prefixb _ _) with true. cbv iota. unfold class_defined.
  change (skip_sp ("("%char :: ?x)) with ("("%char :: x). change (negb (next_is "(" ("("%char :: _))) with false. cbv iota. rewrite skipn_cons, skipn_O.
  rewrite word_of_app by (auto; reflexivity). destruct (Z.leb_spec MAXLSFNAMELEN (len w)); [lia|]. destruct (Z.ltb_spec (getResEntry info w) 0); [lia|]. rewrite Hi, drop_app_length, <- Hn.
  rewrite strcat_room; [reflexivity| |exact Hs]. rewrite len_defined. unfold MAXLSFNAMELEN. lia.
Qed.

Lemma string_op_text op v : string_op (op_text op ++ "'"%char :: v) = Some (op_tcl op, "'"%char :: v).
Proof. now destruct op. Qed.

Lemma value_quoted v k : v <> [] -> forallb value_char v = true -> len v < MAXLSFNAMELEN -> string_value ("'"%char :: v ++ "'"%char :: k) = Ok (v, k).
Proof.
  intros Hn Hv Hl. unfold string_value. change (next_is "'" ("'"%char :: _)) with true. cbv iota. rewrite skipn_cons, skipn_O.
  rewrite before_app_stop; [|reflexivity|revert Hv; apply forallb_impl; intros x; unfold value_char; rewrite !negb_orb; intros [[[H _]%andb_prop _]%andb_prop _]%andb_prop; exact H].
  destruct (Z.leb_spec MAXLSFNAMELEN (len v)); [lia|]. rewrite drop_app_length. reflexivity.
Qed.

Lemma name_compare info size w op v k sp : term_ok info (Compare w op v) = true ->
  len sp + len (term_tcl info (Compare w op v)) < size ->
  class_name info size (term_text (Compare w op v) ++ k) sp = Ok (PARSE_OK, k, sp ++ term_tcl info (Compare w op v)).
Proof.
  intros Ho Hl. cbn [term_ok term_tcl] in *. apply andb_prop in Ho as [[[[[Hw Hk]%andb_prop Hln]%andb_prop Hv]%andb_prop Hlv]%andb_prop Hval].
  apply short_name_spec in Hw as (c & w' & Ew & _ & Hw & Hlw). apply known_spec in Hk as (it & He & Hi & Ht & Hn). rewrite Hi in Hval.
  replace (term_text (Compare w op v) ++ k) with (w ++ (op_text op ++ "'"%char :: v ++ "'"%char :: k)) by (cbn; now app_norm).
  assert (Hop : gap (op_text op ++ "'"%char :: v ++ "'"%char :: k)) by now destruct op.
  unfold class_name. rewrite word_of_app, drop_app_length by auto. destruct (Z.leb_spec MAXLSFNAMELEN (len w)); [lia|].
  destruct (Z.ltb_spec (getResEntry info w) 0); [lia|]. rewrite Hi. destruct (r_valueType it); try discriminate. unfold class_string.
  replace (skip_sp (op_text op ++ "'"%char :: v ++ "'"%char :: k)) with (op_text op ++ "'"%char :: v ++ "'"%char :: k) by now destruct op.
  rewrite string_op_text. change (skip_sp ("'"%char :: ?x)) with ("'"%char :: x).
  assert (Hv0 : v <> [] /\ forallb value_char v = true) by (destruct v; [discriminate|now split]). destruct Hv0 as [Hv0 Hv1].
  rewrite value_quoted by (auto; lia). cbn [obind]. destruct v as [|x v]; [easy|]. rewrite Hval. cbn [negb]. rewrite <- Hn.
  rewrite strcat_room; [reflexivity| |exact Hl]. rewrite len_compare. assert (len (op_tcl op) = 2) by now destruct op. unfold MAXLSFNAMELEN in *. lia.
Qed.

Lemma class_term info size t k sp : term_ok info t = true -> gap k -> len (sp ++ term_tcl info t) < size - MAXLSFNAMELEN ->
  class info size (term_text t ++ k) sp = class info size k (sp ++ term_tcl info t).
Proof.
  intros Ho Hk Hl. rewrite len_app in Hl. pose proof (len_nonneg (term_tcl info t)) as P. unfold MAXLSFNAMELEN in Hl. destruct t as [s|w|w|w op v]; cbn [term_text].
  - cbn [term_ok term_tcl] in *. apply class_copy; [destruct s; [discriminate|exact Ho]|]. rewrite len_app. unfold MAXLSFNAMELEN. lia.
  - cbn [term_ok term_tcl] in *. apply andb_prop in Ho as [Hw Hkn]. pose proof (short_name_spec w Hw) as (c & w' & Ew & Hc & _ & _).
    assert (N : class_name info size (w ++ k) sp = Ok (PARSE_OK, k, sp ++ w ++ cs "()"%string)).
    { apply name_named; [exact Hw|exact Hkn|exact Hk|]. rewrite len_app in Hl. change (len (cs "()"%string)) with 2 in Hl. lia. }
    rewrite Ew in N |- *. apply class_letter; [exact Hc|unfold MAXLSFNAMELEN; lia|exact N].
  - cbn [term_ok term_tcl] in *. apply andb_prop in Ho as [[[Hw Hkn]%andb_prop Hd]%andb_prop Hn].
    assert (N : class_name info size (term_text (Defined w) ++ k) sp = Ok (PARSE_OK, k, sp ++ defined_text (table_name info w))) by (apply name_defined; auto; lia).
    apply class_letter; [reflexivity|unfold MAXLSFNAMELEN; lia|exact N].
  - assert (N : class_name info size (term_text (Compare w op v) ++ k) sp = Ok (PARSE_OK, k, sp ++ term_tcl info (Compare w op v))) by (apply name_compare; auto; lia).
    cbn [term_ok] in Ho. apply andb_prop in Ho as [[[[[Hw _]%andb_prop _]%andb_prop _]%andb_prop _]%andb_prop _]. pose proof (short_name_spec w Hw) as (c & w' & Ew & Hc & _ & _).
    cbn [term_text] in N. rewrite Ew in N |- *. rewrite <- !app_comm_cons in N |- *. apply class_letter; [exact Hc|unfold MAXLSFNAMELEN; lia|exact N].
Qed.

Lemma cond_cons t t' ts : cond_text (t :: t' :: ts) = term_text t ++ SP :: cond_text (t' :: ts).
Proof. reflexivity. Qed.

(** A condition is translated term by term. *)
Lemma class_cond info size ts k sp : Forall (fun t => term_ok info t = true) ts -> gap k -> len (sp ++ cond_tcl info ts) < size - MAXLSFNAMELEN ->
  class info size (cond_text ts ++ k) sp = class info size k (sp ++ cond_tcl info ts).
Proof.
  intros H Hk. revert sp. induction H as [|t ts Ht Hts IH]; intros sp Hl; [now rewrite app_nil_r|].
  unfold cond_tcl in *. cbn [map concat] in *. rewrite app_assoc in Hl |- *.
  assert (Hl' : len (sp ++ term_tcl info t) < size - MAXLSFNAMELEN) by (rewrite (len_app (sp ++ _)) in Hl; pose proof (len_nonneg (concat (map (term_tcl info) ts))); lia).
  destruct ts as [|t' ts]; [cbn; rewrite app_nil_r; now apply class_term|].
  rewrite cond_cons, <- app_assoc, <- app_comm_cons, class_term by (auto; reflexivity). rewrite class_cons. destruct (Z.leb_spec (size - MAXLSFNAMELEN) (len (sp ++ term_tcl info t))); [lia|].
  rewrite Ascii.eqb_refl. now apply IH.
Qed.

Lemma join_cons a b l : join_or (a :: b :: l) = cs "("%string ++ a ++ cs ")||"%string ++ join_or (b :: l).
Proof. reflexivity. Qed.

(** Alternatives are translated one by one, and their parentheses and bars are copied. *)
Lemma class_join info size tss sp : Forall (Forall (fun t => term_ok info t = true)) tss -> len (sp ++ join_or (map (cond_tcl info) tss)) < size - MAXLSFNAMELEN ->
  class info size (join_or (map cond_text tss)) sp = Ok (PARSE_OK, sp ++ join_or (map (cond_tcl info) tss)).
Proof.
  intros H. revert sp. induction H as [|ts tss Hts Htss IH]; intros sp Hl; [unfold class; cbn; now rewrite app_nil_r|].
  assert (G : forall k z, gap k -> len ((sp ++ cs "("%string) ++ cond_tcl info ts ++ z) < size - MAXLSFNAMELEN ->
    class info size (cs "("%string ++ cond_text ts ++ k) sp = class info size k (sp ++ cs "("%string ++ cond_tcl info ts)).
  { intros k z Hk Hz. rewrite !len_app in Hz. pose proof (len_nonneg z). pose proof (len_nonneg (cond_tcl info ts)).
    rewrite class_copy, class_cond; auto; rewrite ?len_app; try lia. now rewrite <- app_assoc. }
  destruct tss as [|ts' tss]; cbn [map] in *.
  - cbn [join_or] in *. rewrite (G _ (cs ")"%string)); [|reflexivity|now rewrite <- app_assoc]. rewrite <- (app_nil_r (cs ")"%string)) at 1.
    rewrite class_copy; [|reflexivity|now rewrite <- !app_assoc]. unfold class. cbn. now rewrite <- !app_assoc.
  - rewrite join_cons in Hl |- *. rewrite join_cons. set (J := join_or (cond_tcl info ts' :: _)) in *. rewrite (G _ (cs ")||"%string ++ J)); [|reflexivity|now rewrite <- app_assoc].
    rewrite class_copy; [|reflexivity|]. 2: { rewrite !len_app in *. pose proof (len_nonneg J). lia. }
    rewrite IH; [now rewrite <- !app_assoc|]. now rewrite <- !app_assoc.
Qed.
