(* ===== verification/ResReqRoom.v ===== *)
(** * Room for the expression

    The buffer of the expression has three bytes for each character of the requirement,
    and at least [MAXLINELEN + MAXLSFNAMELEN].  In the new syntax this is enough. *)
From Stdlib Require Import ZArith Ascii String Lia.
From stdpp Require Import base gmap list.
From S2P Require Import Prelude CNum JobArray ResReq ResReqSect ResReqParse ResReqSelect.
Local Open Scope Z_scope.

(** The names that have aliases are those of the built-in indices; no name is shorter than two
    characters, or than three when it has strings for values, or longer than thirty. *)
Definition name_sized (it : resItem) : bool :=
  (2 <=? len (r_name it)) && (len (r_name it) <=? 30) && match r_valueType it with LS_STRING => 3 <=? len (r_name it) | _ => true end.
Definition builtin (info : lsInfo) (e : Z) (s : cstr) : bool := match item info e with Some it => streq (r_name it) s | None => false end.
Definition names_ok (info : lsInfo) : bool :=
  forallb name_sized (resTable info) && builtin info R1M (cs "r1m"%string) && builtin info LS (cs "ls"%string)
  && builtin info IT (cs "it"%string) && builtin info SWP (cs "swp"%string).

Lemma res_names_found k t i m e : res_names i t m !! k = Some e ->
  m !! k = Some e \/ exists j it, t !! j = Some it /\ r_name it = k /\ e = i + Z.of_nat j.
Proof.
  revert i m. induction t as [|r t IH]; intros i m; cbn; [now left|]. intros H. apply IH in H as [H|(j & it & H1 & H2 & H3)].
  - destruct (decide (r_name r = k)) as [<-|Hne].
    + rewrite lookup_insert_eq in H. injection H as <-. right. exists 0%nat, r. repeat split; lia.
    + rewrite lookup_insert_ne in H by exact Hne. now left.
  - right. exists (S j), it. repeat split; auto. lia.
Qed.

Lemma builtin_spec info e s it : builtin info e s = true -> item info e = Some it -> r_name it = s.
Proof. unfold builtin. intros H E. rewrite E in H. now apply streq_eq in H. Qed.

(** The name in the table is not longer than the one that was looked up. *)
Lemma entry_len info w it : names_ok info = true -> 0 <= getResEntry info w -> item info (getResEntry info w) = Some it -> len (r_name it) <= len w.
Proof.
  unfold names_ok. intros H. apply andb_prop in H as [[[[_ B1]%andb_prop B2]%andb_prop B3]%andb_prop B4]. unfold getResEntry.
  destruct (initParse info !! w) as [e|] eqn:E; [|cbn; lia]. change (default (-1) (Some e)) with e. intros He Hi. unfold initParse in E.
  destruct (decide (cs "cpu"%string = w)) as [<-|N1]; [rewrite lookup_insert_eq in E; injection E as <-; now rewrite (builtin_spec _ _ _ _ B1 Hi)|rewrite lookup_insert_ne in E by exact N1].
  destruct (decide (cs "idle"%string = w)) as [<-|N2]; [rewrite lookup_insert_eq in E; injection E as <-; now rewrite (builtin_spec _ _ _ _ B3 Hi)|rewrite lookup_insert_ne in E by exact N2].
  destruct (decide (cs "swap"%string = w)) as [<-|N3]; [rewrite lookup_insert_eq in E; injection E as <-; now rewrite (builtin_spec _ _ _ _ B4 Hi)|rewrite lookup_insert_ne in E by exact N3].
  destruct (decide (cs "login"%string = w)) as [<-|N4]; [rewrite lookup_insert_eq in E; injection E as <-; now rewrite (builtin_spec _ _ _ _ B2 Hi)|rewrite lookup_insert_ne in E by exact N4].
  apply res_names_found in E as [E|(j & it' & H1 & H2 & H3)]; [now rewrite lookup_empty in E|].
  unfold item in Hi. rewrite H3, Z.add_0_l, Nat2Z.id, H1 in Hi. injection Hi as <-. rewrite H2. lia.
Qed.

Lemma item_sized info e it : names_ok info = true -> item info e = Some it ->
  2 <= len (r_name it) <= 30 /\ (r_valueType it = LS_STRING -> 3 <= len (r_name it)).
Proof.
  unfold names_ok, item. intros H Hi. apply andb_prop in H as [[[[H _]%andb_prop _]%andb_prop _]%andb_prop _]. rewrite forallb_forall in H.
  specialize (H it). apply list_elem_of_lookup_2 in Hi. apply list_elem_of_In in Hi. apply H in Hi. unfold name_sized in Hi.
  apply andb_prop in Hi as [[H1 H2]%andb_prop H3]. split; [lia|]. intros E. rewrite E in H3. lia.
Qed.

(** ** Cost *)

(** Nothing is overrun, and what is left keeps the expression within its share of the buffer. *)
Definition within (L : Z) (x : outcome (Z * cstr * cstr)) : Prop :=
  match x with
  | Crash Text | Crash Select => False
  | Ok (cc, s, sp) => cc = PARSE_OK -> len sp <= 5 + 3 * (L - len s)
  | _ => True
  end.

Section Cost.
Context (info : lsInfo) (L size : Z) (Hok : names_ok info = true) (Hsz : 3 * L + 1 <= size).

(** A text of [k] characters that stands for at least [used] characters of the requirement. *)
Lemma strcat_within cap sp text used s : len sp < size - MAXLSFNAMELEN -> len sp <= 5 + 3 * (L - len s) -> len text < cap -> used <= len s ->
  len text < MAXLSFNAMELEN \/ len text + 5 <= 3 * used ->
  strcat cap size sp text = Ok (sp ++ text).
Proof. intros H1 H2 H3 H4 H5. apply strcat_room; [exact H3|]. unfold MAXLSFNAMELEN in *. lia. Qed.

Lemma len_drop n s : len (drop n s) = Z.max 0 (len s - Z.of_nat n).
Proof. unfold len. rewrite length_drop. lia. Qed.
Lemma len_skip s : len (skip_sp s) <= len s.
Proof. unfold len. pose proof (skip_sp_le s). lia. Qed.
Lemma len_word s : len (word_of s) <= len s.
Proof. unfold len. pose proof (word_of_le s). lia. Qed.
Lemma next_is_len c s : next_is c s = true -> 1 <= len s.
Proof. destruct s as [|x s]; [discriminate|]. intros _. rewrite len_cons. pose proof (len_nonneg s). lia. Qed.

(** [w] is the word in front of [s]. *)
Lemma defined_within w s sp : 1 <= len w -> len sp < size - MAXLSFNAMELEN -> len sp <= 5 + 3 * (L - (len w + len s)) -> within L (class_defined info size s sp).
Proof.
  intros Hw H1 H2. unfold class_defined. destruct (next_is "(" (skip_sp s)) eqn:Ep; cbn [negb]; [|cbn; discriminate].
  set (t := drop 1 (skip_sp s)). apply next_is_len in Ep. assert (Ht : len t = len (skip_sp s) - 1) by (subst t; rewrite len_drop; lia).
  pose proof (len_skip s) as Hs. destruct (MAXLSFNAMELEN <=? len (word_of t)); [exact I|]. destruct (Z.ltb_spec (getResEntry info (word_of t)) 0) as [|He]; [cbn; discriminate|].
  destruct (item info (getResEntry info (word_of t))) as [it|] eqn:Hi; [|exact I]. pose proof (entry_len info _ it Hok He Hi) as Hlen. destruct (item_sized info _ it Hok Hi) as [Hn _].
  pose proof (len_word t) as Hwt.
  rewrite (strcat_within _ _ _ (len w + 1 + len (word_of t)) (w ++ s)); rewrite ?len_app, ?len_defined; unfold MAXLSFNAMELEN in *; try lia.
  cbn [obind]. set (r := skip_sp _). pose proof (len_skip (drop (length (word_of t)) t)) as Hr. fold r in Hr.
  assert (Hd : len (drop (length (word_of t)) t) = len t - len (word_of t)) by (rewrite len_drop; unfold len in *; lia).
  destruct (next_is ")" r) eqn:Ec; cbn [within]; [|discriminate]. apply next_is_len in Ec. intros _. rewrite len_app, len_defined, len_drop. lia.
Qed.

Lemma string_within w it s sp : item info (getResEntry info w) = Some it -> 0 <= getResEntry info w -> r_valueType it = LS_STRING ->
  len sp < size - MAXLSFNAMELEN -> len sp <= 5 + 3 * (L - (len w + len s)) -> within L (class_string info it size s sp).
Proof.
  intros Hi He Ht H1 H2. pose proof (entry_len info w it Hok He Hi) as Hlen. destruct (item_sized info _ it Hok Hi) as [Hn Hn3]. specialize (Hn3 Ht).
  unfold class_string. destruct (string_op (skip_sp s)) as [[op r]|] eqn:E; [|cbn; discriminate].
  assert (Hop : len op = 2) by (revert E; unfold string_op; destruct (skip_sp s) as [|a [|b t]]; try discriminate; intros E; repeat case_match; try discriminate; injection E as <- <-; reflexivity).
  apply string_op_shorter in E. pose proof (skip_sp_le s). pose proof (skip_sp_le r).
  destruct (string_value (skip_sp r)) as [[v r1]|o| |] eqn:V; try exact I.
  2: { unfold string_value in V. destruct (MAXLSFNAMELEN <=? _); [injection V as <-; exact I|discriminate]. }
  apply string_value_len in V as [V1 V2]. cbn [obind]. destruct v as [|x v]; [cbn; discriminate|]. destruct (negb _); [cbn; discriminate|]. set (u := x :: v) in *.
  assert (Hu : 1 <= len u) by (subst u; rewrite len_cons; pose proof (len_nonneg v); lia).
  rewrite (strcat_within _ _ _ (len w + 1 + len u) (w ++ s)); rewrite ?len_app, ?len_compare; unfold MAXLSFNAMELEN, len in *; try lia.
  cbn [obind within]. intros _. unfold len. rewrite length_app. pose proof (len_compare (r_name it) op u) as C. unfold len in C. lia.
Qed.

Lemma name_within c s sp : IS_LETTER c = true -> len sp < size - MAXLSFNAMELEN -> len sp <= 5 + 3 * (L - len (c :: s)) -> within L (class_name info size (c :: s) sp).
Proof.
  intros Hc H1 H2. unfold class_name. set (w := word_of (c :: s)). assert (Hw : 1 <= len w) by (subst w; rewrite letter_word by exact Hc; rewrite len_cons; pose proof (len_nonneg (word_of s)); lia).
  pose proof (len_word (c :: s)) as Hwl. fold w in Hwl. set (r := drop (length w) (c :: s)). assert (Hr : len w + len r = len (c :: s)) by (subst r; rewrite len_drop; unfold len in *; lia).
  destruct (MAXLSFNAMELEN <=? len w); [exact I|]. destruct (Z.ltb_spec (getResEntry info w) 0) as [|He].
  - destruct (prefixb _ _); [|cbn; discriminate]. apply (defined_within w); auto. lia.
  - destruct (item info (getResEntry info w)) as [it|] eqn:Hi; [|exact I]. pose proof (entry_len info w it Hok He Hi) as Hlen. destruct (item_sized info _ it Hok Hi) as [Hn _].
    assert (N : within L (if MAXLSFNAMELEN <=? len w + 2 then Crash Name else obind (strcat MAXLSFNAMELEN size sp (w ++ cs "()"%string)) (fun sp => Ok (PARSE_OK, r, sp)))).
    { destruct (Z.leb_spec MAXLSFNAMELEN (len w + 2)); [exact I|]. assert (Ll : len (w ++ cs "()"%string) = len w + 2) by (rewrite len_app; reflexivity).
      rewrite (strcat_within _ _ _ (len w) (c :: s)); try lia. cbn [obind within]. intros _. rewrite len_app, Ll. lia. }
    destruct (r_valueType it) eqn:Ht; [exact N|exact N| |]; [|cbn [within]; intros _; lia]. apply (string_within w); auto. lia.
Qed.

(** The loop, from a text that is the rest of [L] characters. *)
Lemma class_within fuel s sp : len sp <= 5 + 3 * (L - len s) -> match class_new fuel info size s sp with Crash Text | Crash Select => False | _ => True end.
Proof.
  revert s sp. induction fuel as [|fuel IH]; intros s sp H; [exact I|]. destruct s as [|c s]; [exact I|]. cbn [class_new].
  destruct (Z.leb_spec (size - MAXLSFNAMELEN) (len sp)) as [|Hg]; [exact I|]. rewrite len_cons in H.
  destruct (Ascii.eqb c SP); [apply IH; lia|]. destruct (copied c); [apply IH; rewrite len_app; change (len [c]) with 1; lia|]. destruct (IS_LETTER c) eqn:Hc; [|exact I].
  pose proof (name_within c s sp Hc Hg ltac:(rewrite len_cons; lia)) as W. destruct (class_name info size (c :: s) sp) as [[[cc s'] sp']|o| |]; try exact I; [|exact W].
  cbn [obind within] in *. destruct (Z.eqb_spec cc PARSE_OK) as [E|]; [|exact I]. apply IH, W, E.
Qed.

End Cost.
