(* ===== verification/ResReqMeaning.v ===== *)
(** * Resource requirements: their text and their meaning

    A requirement as data, its text, with the sections in any order, and what it changes
    of the defaults; [parseResReq] reads the text and makes the change. *)
From Stdlib Require Import ZArith Ascii String Lia.
From stdpp Require Import base gmap list.
From Corelib Require Import SpecFloat.
From S2P Require Import Prelude CNum JobArray ResReq ResReqSect ResReqParse ResReqSelect ResReqRoom.
Local Open Scope Z_scope.

(** ** Requirements *)

(** The alternatives of the condition, each a list of terms, and the items of the other sections. *)
Record requirement := mkReq { q_select : list (list term); q_order : list (bool * cstr); q_rusage : list use; q_span : list spread }.

(** Alternatives are separated by commas. *)
Fixpoint commas (ts : list cstr) : cstr :=
  match ts with
  | [] => []
  | [t] => t
  | t :: ts => t ++ ","%char :: commas ts
  end.

Definition select_body (r : requirement) : cstr := commas (map cond_text (q_select r)).
Definition order_body (r : requirement) : cstr := items (map order_text (q_order r)).
Definition rusage_body (r : requirement) : cstr := items (map use_text (q_rusage r)).
Definition span_body (r : requirement) : cstr := items (map spread_text (q_span r)).

(** The sections that are there; with [inline] the condition is the text in front of them. *)
Definition pieces (inline : bool) (r : requirement) : list (cstr * cstr) :=
  (if inline then [] else match q_select r with [] => [] | _ => [(cs "select"%string, select_body r)] end)
  ++ match q_order r with [] => [] | _ => [(cs "order"%string, order_body r)] end
  ++ match q_rusage r with [] => [] | _ => [(cs "rusage"%string, rusage_body r)] end
  ++ match q_span r with [] => [] | _ => [(cs "span"%string, span_body r)] end.
Definition lead (inline : bool) (r : requirement) : cstr := if inline then select_body r else [].

Definition order_ok (info : lsInfo) (x : bool * cstr) : bool := nameb x.2 && match order_entry info x with Some _ => true | None => false end.

(** An alternative has two terms at least: a space tells the new syntax from the old one. *)
Definition alternative_ok (info : lsInfo) (ts : list term) : bool :=
  forallb (term_ok info) ts && (2 <=? length ts)%nat && (len (EXPR ++ cond_tcl info ts) <? MAXLINELEN).

(** The expression of the alternatives. *)
Definition select_tcl (info : lsInfo) (tss : list (list term)) : cstr :=
  match tss with
  | [ts] => EXPR ++ cond_tcl info ts
  | _ => EXPR ++ join_or (map (cond_tcl info) tss)
  end.

(** The bounds: [MAXLINELEN] is that of [getNextToken], [NBUILTINDEX] that of [order], and the
    expression has to fit in the smallest buffer.  Alternatives are read only when they are asked for. *)
Definition requirement_ok (info : lsInfo) (opts : Z) (r : requirement) : bool :=
  forallb (alternative_ok info) (q_select r) && (len (select_tcl info (q_select r)) <? MAXLINELEN) && (has opts PR_XOR || (length (q_select r) <=? 1)%nat)
  && forallb (order_ok info) (q_order r) && (length (q_order r) <=? Z.to_nat NBUILTINDEX)%nat && (len (order_body r) <? MAXLINELEN)
  && forallb (use_ok info) (q_rusage r) && (len (rusage_body r) <? MAXLINELEN)
  && forallb spread_ok (q_span r) && (len (span_body r) <? MAXLINELEN).

Definition order_of (info : lsInfo) (xs : list (bool * cstr)) : list Z := default [] (mapM (order_entry info) xs).

(** What each section changes. *)
Definition select_val (info : lsInfo) (tss : list (list term)) (v : resVal) : resVal :=
  match tss with
  | [] => v
  | [_] => add_option PR_SELECT (set_selectStr (select_tcl info tss) v)
  | _ => add_option PR_SELECT (set_selectStr (select_tcl info tss) (set_xorExprs (map (fun ts => EXPR ++ cond_tcl info ts) tss) v))
  end.
Definition order_val (info : lsInfo) (xs : list (bool * cstr)) (v : resVal) : resVal :=
  match xs with [] => v | _ => add_option PR_ORDER (set_order (order_of info xs) v) end.
Definition usage_val (info : lsInfo) (us : list use) (v : resVal) : resVal :=
  match us with [] => v | _ => add_option PR_RUSAGE (fold_left (use_val info) us (set_genClass 0 v)) end.
Definition span_val (us : list spread) (v : resVal) : resVal :=
  match us with [] => v | _ => add_option PR_SPAN (fold_left spread_val us v) end.

(** What a requirement changes of the defaults. *)
Definition meaning (info : lsInfo) (r : requirement) (v : resVal) : resVal :=
  span_val (q_span r) (usage_val info (q_rusage r) (order_val info (q_order r) (select_val info (q_select r) v))).

(** ** The bodies of the sections *)

Lemma trailing_last s c : Ascii.eqb SP c = false -> trailing (s ++ [c]) = 0%nat.
Proof.
  intros Hc. induction s as [|x s IH]; cbn [app trailing].
  - unfold blank. cbn [forallb]. now rewrite Hc.
  - assert (B : blank (x :: s ++ [c]) = false) by (unfold blank; cbn [forallb]; rewrite forallb_app; cbn [forallb]; now rewrite Hc, !andb_false_r).
    now rewrite B.
Qed.

(** The text ends in something else than a space. *)
Definition ends (s : cstr) : Prop := exists t c, s = t ++ [c] /\ Ascii.eqb SP c = false.

Lemma ends_trailing s : s = [] \/ ends s -> trailing s = 0%nat.
Proof. intros [->|(t & c & -> & H)]; [reflexivity|now apply trailing_last]. Qed.

Lemma ends_app a b : ends b -> ends (a ++ b).
Proof. intros (t & c & -> & H). exists (a ++ t), c. now rewrite app_assoc. Qed.

Lemma ends_forall s : s <> [] -> forallb (fun c => negb (Ascii.eqb SP c)) s = true -> ends s.
Proof.
  intros Hn. destruct (exists_last Hn) as (t & c & ->). rewrite forallb_app. cbn. intros [_ [H _]%andb_prop]%andb_prop. exists t, c. split; [reflexivity|now apply negb_true_iff].
Qed.

Definition good_body (s : cstr) : Prop := body s /\ trailing s = 0%nat.

Lemma tok_char_space c : tok_char c = true -> negb (Ascii.eqb SP c) = true.
Proof. unfold tok_char. rewrite Ascii.eqb_sym, !negb_orb. now intros [_ H]%andb_prop. Qed.

(** A character of a condition that is neither a separator of sections, syntaxes or alternatives. *)
Definition plain_char (c : ascii) : bool := body_char c && negb (Ascii.eqb c ":") && negb (Ascii.eqb c ",").

Lemma copied_plain c : copied c = true -> plain_char c = true /\ negb (Ascii.eqb SP c) = true.
Proof. destruct c as [[] [] [] [] [] [] [] []]; vm_compute; auto; discriminate. Qed.
Lemma word_plain c : word_char c = true -> plain_char c = true /\ negb (Ascii.eqb SP c) = true.
Proof. destruct c as [[] [] [] [] [] [] [] []]; vm_compute; auto; discriminate. Qed.
Lemma value_plain c : value_char c = true -> plain_char c = true.
Proof. destruct c as [[] [] [] [] [] [] [] []]; vm_compute; auto. Qed.

Definition plain (s : cstr) : Prop := forallb plain_char s = true.

Lemma plainc_app a b : plain a -> plain b -> plain (a ++ b).
Proof. unfold plain. intros Ha Hb. now rewrite forallb_app, Ha, Hb. Qed.

Lemma name_plain w : short_name w = true -> plain w /\ ends w.
Proof.
  intros (c & w' & E & _ & H & _)%short_name_spec. split; [unfold plain|apply ends_forall; [now rewrite E|]]; revert H; apply forallb_impl; intros x Hx; now apply word_plain.
Qed.

Lemma term_plain info t : term_ok info t = true -> plain (term_text t) /\ ends (term_text t).
Proof.
  destruct t as [s|w|w|w op v]; cbn [term_ok term_text].
  - destruct s as [|c s]; [discriminate|]. intros H. split; [unfold plain|apply ends_forall; [discriminate|]]; revert H; apply forallb_impl; intros x Hx; now apply copied_plain.
  - intros [H _]%andb_prop. now apply name_plain.
  - intros H. apply andb_prop in H as [[[H _]%andb_prop _]%andb_prop _]. apply name_plain in H as [H _].
    split; [now repeat apply plainc_app|apply ends_app, ends_app; now exists [], ")"%char].
  - intros H. apply andb_prop in H as [[[[[H _]%andb_prop _]%andb_prop Hv]%andb_prop _]%andb_prop _]. apply name_plain in H as [H _].
    assert (Hv' : plain v) by (unfold plain; destruct v; [discriminate|]; revert Hv; apply forallb_impl, value_plain).
    split; [repeat apply plainc_app; auto; now destruct op|do 4 apply ends_app; now exists [], "'"%char].
Qed.

Lemma cond_plain info ts : Forall (fun t => term_ok info t = true) ts -> ts <> [] -> plain (cond_text ts) /\ ends (cond_text ts).
Proof.
  induction 1 as [|t ts Ht Hts IH]; [easy|]. intros _. apply term_plain in Ht as [H1 H2]. destruct ts as [|t' ts]; [now split|]. destruct IH as [H3 H4]; [discriminate|].
  rewrite cond_cons. split; [apply plainc_app; [exact H1|exact H3]|]. change (SP :: ?x) with ([SP] ++ x). now apply ends_app, ends_app.
Qed.

Lemma cond_space ts : (2 <= length ts)%nat -> exists a b, cond_text ts = a ++ SP :: b.
Proof. destruct ts as [|t [|t' ts]]; cbn [length]; try lia. intros _. rewrite cond_cons. eauto. Qed.

Lemma strchr_cat a b c : strchr (a ++ b) c = strchr a c || strchr b c.
Proof. unfold strchr. apply existsb_app. Qed.
Lemma strchr_none s c : forallb (fun x => negb (Ascii.eqb x c)) s = true -> strchr s c = false.
Proof. induction s as [|x s IH]; [reflexivity|]. cbn. intros [H1 H2]%andb_prop. apply negb_true_iff in H1. rewrite H1. now apply IH. Qed.

Lemma plain_no_colon s : plain s -> strchr s ":" = false.
Proof. intros H. apply strchr_none. revert H. apply forallb_impl. intros x. unfold plain_char. now intros [[_ ?]%andb_prop _]%andb_prop. Qed.
Lemma plain_no_comma s : plain s -> forallb (fun x => negb (Ascii.eqb x ",")) s = true.
Proof. apply forallb_impl. intros x. unfold plain_char. now intros [_ ?]%andb_prop. Qed.
Lemma plain_body s : plain s -> body s.
Proof. apply forallb_impl. intros x. unfold plain_char. now intros [[? _]%andb_prop _]%andb_prop. Qed.

Lemma syntax_new s a b : strchr s ":" = false -> s = a ++ SP :: b -> getSyntax s = NEW.
Proof. intros H ->. unfold getSyntax. rewrite H, strchr_cat. cbn [strchr existsb]. rewrite Ascii.eqb_refl, orb_true_r. reflexivity. Qed.

Lemma to_class_new info s v text : class info (selectStrSize v) s EXPR = Ok (PARSE_OK, text) -> resToClassNew info s v = Ok (PARSE_OK, add_option PR_SELECT (set_selectStr text v)).
Proof. unfold class, resToClassNew. intros ->. reflexivity. Qed.

Lemma forallb_all {A} (f : A -> bool) l : forallb f l = true -> Forall (fun x => f x = true) l.
Proof. intros H. apply Forall_forall. intros x Hx. rewrite forallb_forall in H. now apply H, list_elem_of_In. Qed.

Lemma alternative_spec info ts : alternative_ok info ts = true ->
  Forall (fun t => term_ok info t = true) ts /\ (2 <= length ts)%nat /\ len (EXPR ++ cond_tcl info ts) < MAXLINELEN.
Proof. unfold alternative_ok. intros [[H1 H2]%andb_prop H3]%andb_prop. split; [now apply forallb_all|]. split; [now apply Nat.leb_le|lia]. Qed.

Lemma alternative_text info ts : alternative_ok info ts = true -> plain (cond_text ts) /\ ends (cond_text ts) /\ exists a b, cond_text ts = a ++ SP :: b.
Proof.
  intros (H1 & H2 & _)%alternative_spec. destruct (cond_plain info ts H1) as [P E]; [intros ->; cbn in H2; lia|]. auto using cond_space.
Qed.

(** One alternative. *)
Lemma select_one info ts v : alternative_ok info ts = true -> MAXLINELEN + MAXLSFNAMELEN <= selectStrSize v ->
  parseSelect1 info (cond_text ts) v = Ok (PARSE_OK, add_option PR_SELECT (set_selectStr (EXPR ++ cond_tcl info ts) v)).
Proof.
  intros Ha Hs. destruct (alternative_text info ts Ha) as (P & _ & a & b & E). destruct (alternative_spec info ts Ha) as (H1 & _ & H3).
  unfold parseSelect1. rewrite (syntax_new _ a b (plain_no_colon _ P) E). rewrite (to_class_new info _ v (EXPR ++ cond_tcl info ts)); [reflexivity|].
  rewrite <- (app_nil_r (cond_text ts)), class_cond; [reflexivity|exact H1|exact I|lia].
Qed.

(** ** Alternatives *)

Lemma commas_cons a b l : commas (a :: b :: l) = a ++ ","%char :: commas (b :: l).
Proof. reflexivity. Qed.

Lemma strtok_word s w r : forallb (fun x => negb (Ascii.eqb x ",")) s = true -> strtok (s ++ r) w = strtok r (rev s ++ w).
Proof.
  revert w. induction s as [|c s IH]; intros w H; [reflexivity|]. cbn [forallb] in H. apply andb_prop in H as [Hc H]. apply negb_true_iff in Hc.
  cbn [app strtok]. rewrite Hc, IH by exact H. cbn. now rewrite <- app_assoc.
Qed.

Lemma strtok_commas ts : Forall (fun t => forallb (fun x => negb (Ascii.eqb x ",")) t = true /\ t <> []) ts -> strtok (commas ts) [] = ts.
Proof.
  assert (F : forall (t : cstr), t <> [] -> match rev t ++ [] with [] => [] | _ => [rev (rev t ++ [])] end = [t]).
  { intros t Ht. rewrite app_nil_r. destruct (rev t) eqn:E; [apply (f_equal (@rev ascii)) in E; rewrite rev_involutive in E; now subst|]. rewrite <- E. now rewrite rev_involutive. }
  induction 1 as [|t ts [H1 H2] Hts IH]; [reflexivity|]. destruct ts as [|t' ts].
  - cbn [commas]. rewrite <- (app_nil_r t) at 1. rewrite strtok_word by exact H1. cbn [strtok]. now apply F.
  - rewrite commas_cons, strtok_word by exact H1. cbn [strtok]. rewrite Ascii.eqb_refl, F by exact H2. cbn [app]. f_equal. exact IH.
Qed.

Lemma set_size info opts n m v : setDefaults info opts n = Ok v -> exists w, setDefaults info opts m = Ok w /\ selectStrSize w = m.
Proof. unfold setDefaults. destruct (has opts PR_BATCH); [intros _; eauto|]. destruct (_ <? 3)%nat; [discriminate|intros _; eauto]. Qed.

Lemma SIZE_min s : MAXLINELEN + MAXLSFNAMELEN <= SIZE s.
Proof. unfold SIZE. lia. Qed.

Lemma xor_all info opts n v tss : setDefaults info opts n = Ok v -> Forall (fun ts => alternative_ok info ts = true) tss ->
  xor_exprs info opts (map cond_text tss) = Ok (PARSE_OK, map (fun ts => EXPR ++ cond_tcl info ts) tss).
Proof.
  intros Hd. induction 1 as [|ts tss Hts _ IH]; [reflexivity|]. cbn [map xor_exprs]. destruct (set_size info opts n (SIZE (cond_text ts)) v Hd) as (w & -> & Hw).
  cbn [obind]. rewrite select_one; [|exact Hts|rewrite Hw; apply SIZE_min]. cbn [obind]. change (negb (PARSE_OK =? PARSE_OK)) with false. cbv iota. rewrite IH. reflexivity.
Qed.

Lemma plain_join l : Forall plain l -> plain (join_or l).
Proof. induction 1 as [|a l Ha Hl IH]; [reflexivity|]. destruct l as [|b l]; [cbn [join_or]|rewrite join_cons]; repeat apply plainc_app; auto; reflexivity. Qed.

Lemma join_space a b s l : s = a ++ SP :: b -> exists a' b', join_or (s :: l) = a' ++ SP :: b'.
Proof.
  intros ->. destruct l as [|t l].
  - exists (cs "("%string ++ a), (b ++ cs ")"%string). cbn [join_or]. app_norm. reflexivity.
  - rewrite join_cons. exists (cs "("%string ++ a), (b ++ cs ")||"%string ++ join_or (t :: l)). app_norm. reflexivity.
Qed.

Lemma commas_not_nil t ts : t <> [] -> commas (t :: ts) <> [].
Proof. destruct t; [easy|]. destruct ts; discriminate. Qed.

Lemma ends_not_nil s : ends s -> s <> [].
Proof. intros (t & c & -> & _). destruct t; discriminate. Qed.

Lemma parse_select info opts n d tss v : setDefaults info opts n = Ok d -> Forall (fun ts => alternative_ok info ts = true) tss ->
  len (select_tcl info tss) < MAXLINELEN -> has opts PR_XOR || (length tss <=? 1)%nat = true -> MAXLINELEN + MAXLSFNAMELEN <= selectStrSize v ->
  parseSelect info (has opts PR_XOR) opts (commas (map cond_text tss)) v = Ok (PARSE_OK, select_val info tss v).
Proof.
  intros Hd Ha Hl Hx Hs. destruct tss as [|ts tss]; [reflexivity|]. pose proof Ha as Ha0. inversion_clear Ha as [|? ? Hts Htss].
  assert (Hc : Forall (fun t => forallb (fun x => negb (Ascii.eqb x ",")) t = true /\ t <> []) (map cond_text (ts :: tss))).
  { apply Forall_map, (Forall_impl _ _ _ Ha0). intros t (P & E & _)%alternative_text. auto using plain_no_comma, ends_not_nil. }
  pose proof (strtok_commas _ Hc) as St. destruct (alternative_text info ts Hts) as (P & E & a & b & Es). unfold parseSelect.
  destruct (commas (map cond_text (ts :: tss))) as [|c0 s0] eqn:Ec; [now apply commas_not_nil in Ec; [|apply ends_not_nil]|]. rewrite <- Ec in *. destruct tss as [|ts' tss].
  - cbn [map commas] in *. rewrite St, (strchr_none _ ",") by now apply plain_no_comma. rewrite select_one by auto. now destruct (has opts PR_XOR).
  - destruct (has opts PR_XOR); [|discriminate]. rewrite St. cbn [map]. change (cond_text ts :: cond_text ts' :: map cond_text tss) with (map cond_text (ts :: ts' :: tss)).
    rewrite (xor_all info opts n d) by auto. cbn [obind]. change (negb (PARSE_OK =? PARSE_OK)) with false. cbv iota. unfold parseSelect1.
    assert (Pj : plain (join_or (map cond_text (ts :: ts' :: tss)))) by (apply plain_join, Forall_map, (Forall_impl _ _ _ Ha0); intros t (? & _)%alternative_text; assumption).
    destruct (join_space a b (cond_text ts) (map cond_text (ts' :: tss)) Es) as (a' & b' & Ej). rewrite (syntax_new _ a' b' (plain_no_colon _ Pj) Ej).
    rewrite (to_class_new _ _ _ (select_tcl info (ts :: ts' :: tss))); [reflexivity|]. apply class_join; [|cbn [select_tcl] in Hl; cbn [selectStrSize set_xorExprs]; lia].
    apply (Forall_impl _ _ _ Ha0). intros t (? & _)%alternative_spec. assumption.
Qed.

(** ** The whole requirement *)

Lemma select_text info tss : Forall (fun ts => alternative_ok info ts = true) tss -> tss <> [] -> body (commas (map cond_text tss)) /\ ends (commas (map cond_text tss)).
Proof.
  induction 1 as [|ts tss Hts _ IH]; [easy|]. intros _. apply alternative_text in Hts as (P%plain_body & E & _). destruct tss as [|ts' tss]; [now split|].
  destruct IH as [H1 H2]; [discriminate|]. cbn [map] in *. rewrite commas_cons. split.
  - unfold body in *. rewrite forallb_app. cbn [forallb]. now rewrite P, H1.
  - change (","%char :: ?x) with ([","%char] ++ x). now apply ends_app, ends_app.
Qed.

Lemma items_text ts : Forall (fun t => body t /\ ends t) ts -> ts <> [] -> body (items ts) /\ ends (items ts).
Proof.
  intros H Hn. destruct H as [|t ts [Ht Et] Hts]; [easy|]. clear Hn. cbn [items]. revert t Ht Et.
  induction Hts as [|t' ts [Ht' Et'] _ IH]; intros t Ht Et; [cbn; rewrite app_nil_r; now split|]. destruct (IH t' Ht' Et') as [H1 H2].
  cbn [tail map concat]. fold (tail ts). rewrite <- app_comm_cons. split.
  - unfold body in *. rewrite forallb_app. cbn [forallb]. now rewrite Ht, H1.
  - change (":"%char :: ?x) with ([":"%char] ++ x). now apply ends_app, ends_app.
Qed.

Lemma name_text w : name w -> body w /\ ends w.
Proof. intros [H1 H2]. split; [|apply ends_forall; [exact H1|]]; revert H2; apply forallb_impl; intros x Hx; [now apply word_char_body|now apply tok_char_space, word_char_tok]. Qed.

Lemma order_text_text x : name x.2 -> body (order_text x) /\ ends (order_text x).
Proof. intros H%name_text. destruct x as [[] w]; [|exact H]. destruct H as [H1 H2]. split; [exact H1|]. cbn. change ("-"%char :: ?x) with (["-"%char] ++ x). now apply ends_app. Qed.

Lemma digit_body c : isdigit c || Ascii.eqb c "." = true -> body_char c = true.
Proof. destruct c as [[] [] [] [] [] [] [] []]; vm_compute; auto. Qed.

Lemma fixed_text p n : 0 <= n -> body (fixed p n) /\ ends (fixed p n).
Proof.
  intros H. destruct (fixed_digits p n H) as [H1 H2]. split; [|apply ends_forall; [exact H2|]]; revert H1; apply forallb_impl; intros x Hx; [now apply digit_body|now apply tok_char_space, digit_tok].
Qed.

Lemma text_app a b : body a -> body b -> ends b -> body (a ++ b) /\ ends (a ++ b).
Proof. unfold body. intros Ha Hb He. rewrite forallb_app, Ha, Hb. split; [reflexivity|now apply ends_app]. Qed.

Lemma unat_text n : 0 <= n -> body (unat n) /\ ends (unat n).
Proof. intros H. rewrite <- unat_fixed by exact H. now apply fixed_text. Qed.

Lemma value_text a b : body a -> body b -> ends b -> body (a ++ "="%char :: b) /\ ends (a ++ "="%char :: b).
Proof. intros Ha Hb He. change ("="%char :: b) with (["="%char] ++ b). destruct (text_app ["="%char] b eq_refl Hb He). now apply text_app. Qed.

Lemma use_text_text info i : use_ok info i = true -> body (use_text i) /\ ends (use_text i).
Proof.
  destruct i as [w x|n u|n p]; cbn [use_ok use_text].
  - intros H. apply andb_prop in H as [[[[Hw _]%andb_prop _]%andb_prop _]%andb_prop Hx]. apply nameb_spec, name_text in Hw.
    destruct x as [[n p]|]; [|exact Hw]. apply fits_nonneg, (fixed_text p) in Hx as []. destruct Hw. now apply value_text.
  - intros H. apply andb_prop in H as [[H0 _]%andb_prop Hu]. destruct (unat_text n ltac:(lia)) as [H1 H2].
    assert (T : body (unat n ++ unit_text u) /\ ends (unat n ++ unit_text u)).
    { destruct u as [c|]; [|cbn; now rewrite app_nil_r]. cbn in Hu. apply text_app; [exact H1| |];
        destruct (Ascii.eqb_spec c "m"); subst; try reflexivity; try (now exists [], "m"%char); destruct (Ascii.eqb_spec c "h"); subst; try reflexivity; try (now exists [], "h"%char);
        destruct (Ascii.eqb_spec c "s"); subst; try reflexivity; try (now exists [], "s"%char); discriminate. }
    destruct T. now apply value_text.
  - intros H. apply fits_nonneg, (fixed_text p) in H as []. now apply value_text.
Qed.

Lemma spread_text_text i : spread_ok i = true -> body (spread_text i) /\ ends (spread_text i).
Proof.
  destruct i as [n m|n]; cbn [spread_ok spread_text]; unfold countb.
  - intros [Hn Hm]%andb_prop. destruct (unat_text n ltac:(lia)) as [H1 H2].
    assert (T : body (unat n ++ match m with Some m => ","%char :: unat m | None => [] end) /\ ends (unat n ++ match m with Some m => ","%char :: unat m | None => [] end)).
    { destruct m as [m|]; [|now rewrite app_nil_r]. destruct (unat_text m ltac:(lia)) as [H3 H4]. destruct (text_app [","%char] (unat m) eq_refl H3 H4). now apply text_app. }
    destruct T. now apply value_text.
  - intros Hn. destruct (unat_text n ltac:(lia)) as [H1 H2]. now apply value_text.
Qed.

Lemma requirement_spec info opts r : requirement_ok info opts r = true ->
  (Forall (fun ts => alternative_ok info ts = true) (q_select r) /\ len (select_tcl info (q_select r)) < MAXLINELEN
   /\ has opts PR_XOR || (length (q_select r) <=? 1)%nat = true)
  /\ (Forall (fun x => order_ok info x = true) (q_order r) /\ (length (q_order r) <= Z.to_nat NBUILTINDEX)%nat /\ len (order_body r) < MAXLINELEN)
  /\ (Forall (fun i => use_ok info i = true) (q_rusage r) /\ len (rusage_body r) < MAXLINELEN)
  /\ (Forall (fun i => spread_ok i = true) (q_span r) /\ len (span_body r) < MAXLINELEN).
Proof.
  unfold requirement_ok. intros H. apply andb_prop in H as [[[[[[[[[H1 H2]%andb_prop H3]%andb_prop H4]%andb_prop H5]%andb_prop H6]%andb_prop H7]%andb_prop H8]%andb_prop H9]%andb_prop H10].
  apply forallb_all in H1, H4, H7, H9. apply Nat.leb_le in H5. repeat split; auto; lia.
Qed.

Lemma order_ok_spec info xs : Forall (fun x => order_ok info x = true) xs -> Forall (fun x => name x.2) xs /\ mapM (order_entry info) xs = Some (order_of info xs) /\ length (order_of info xs) = length xs.
Proof.
  intros H. assert (E : exists es, mapM (order_entry info) xs = Some es /\ length es = length xs).
  { induction H as [|x xs Hx _ (es & IH & L)]; [now exists []|]. unfold order_ok in Hx. apply andb_prop in Hx as [_ Hx]. destruct (order_entry info x) as [e|] eqn:Ee; [|discriminate].
    exists (e :: es). cbn. rewrite Ee. cbn. rewrite IH. split; [reflexivity|now f_equal]. }
  destruct E as (es & E & L). unfold order_of. rewrite E. split; [|now split]. apply (Forall_impl _ _ _ H). intros x [Hx _]%andb_prop. now apply nameb_spec.
Qed.

Lemma pieces_good info opts inline r : requirement_ok info opts r = true -> Forall (fun p => p.1 ∈ keywords /\ body p.2 /\ trailing p.2 = 0%nat) (pieces inline r).
Proof.
  intros ((Hs & _) & (Ho & _) & (Hu & _) & (Hp & _))%requirement_spec. apply order_ok_spec in Ho as [Ho _].
  assert (K : forall k s, bool_decide (k ∈ keywords) = true -> body s /\ ends s -> Forall (fun p => p.1 ∈ keywords /\ body p.2 /\ trailing p.2 = 0%nat) [(k, s) : cstr * cstr]).
  { intros k s Hk [H1 H2]. constructor; [|constructor]. split; [now apply bool_decide_eq_true in Hk|]. split; [exact H1|apply ends_trailing; now right]. }
  unfold pieces. rewrite !Forall_app. split; [|split; [|split]].
  - destruct inline; [constructor|]. unfold select_body. destruct (q_select r) eqn:E; [constructor|]. apply K; [reflexivity|]. rewrite <- E in *. apply (select_text info); [auto|now rewrite E].
  - unfold order_body. destruct (q_order r) eqn:E; [constructor|]. apply K; [reflexivity|]. rewrite <- E in *. apply items_text; [|now rewrite E].
    apply Forall_map, (Forall_impl _ _ _ Ho), order_text_text.
  - unfold rusage_body. destruct (q_rusage r) eqn:E; [constructor|]. apply K; [reflexivity|]. rewrite <- E in *. apply items_text; [|now rewrite E].
    apply Forall_map, (Forall_impl _ _ _ Hu), use_text_text.
  - unfold span_body. destruct (q_span r) eqn:E; [constructor|]. apply K; [reflexivity|]. rewrite <- E in *. apply items_text; [|now rewrite E].
    apply Forall_map, (Forall_impl _ _ _ Hp), spread_text_text.
Qed.

Lemma pieces_nodup inline r : NoDup (map fst (pieces inline r)).
Proof.
  unfold pieces. destruct inline, (q_select r), (q_order r), (q_rusage r), (q_span r); apply (bool_decide_unpack _); vm_compute; exact I.
Qed.

Lemma pieces_well_formed info opts inline r ps : requirement_ok info opts r = true -> ps ≡ₚ pieces inline r -> well_formed ps.
Proof.
  intros Hr Hp. split.
  - eapply NoDup_Permutation_proper; [apply Permutation_map, Hp|apply pieces_nodup].
  - rewrite Hp. eapply pieces_good, Hr.
Qed.

Lemma section_of_elem d ps kw b : NoDup (map fst ps) -> (kw, b) ∈ ps -> section_of d ps kw = b.
Proof.
  unfold section_of. induction ps as [|[k c] ps IH]; cbn; [now intros _ ?%elem_of_nil|]. intros [H1 H2]%NoDup_cons [E|E]%elem_of_cons.
  - injection E as <- <-. case_decide; [reflexivity|easy].
  - case_decide as D; [subst k|].
    + destruct H1. apply list_elem_of_In. apply (in_map fst ps (kw, b)). now apply list_elem_of_In.
    + specialize (IH H2 E). now destruct (list_find _ ps) as [[? ?]|].
Qed.

Lemma section_of_none d ps kw : kw ∉ map fst ps -> section_of d ps kw = d.
Proof.
  unfold section_of. induction ps as [|[k c] ps IH]; cbn; [reflexivity|]. rewrite not_elem_of_cons. intros [H1 H2]. case_decide as D; [congruence|].
  specialize (IH H2). now destruct (list_find _ ps) as [[? ?]|].
Qed.

Lemma section_of_perm d ps qs kw : NoDup (map fst qs) -> ps ≡ₚ qs -> section_of d ps kw = section_of d qs kw.
Proof.
  intros Hn Hp. assert (Hn' : NoDup (map fst ps)) by (eapply NoDup_Permutation_proper; [apply Permutation_map, Hp|exact Hn]).
  destruct (decide (kw ∈ map fst qs)) as [H|H].
  - apply list_elem_of_In, in_map_iff in H as ([k b] & <- & H). apply list_elem_of_In in H. cbn. rewrite (section_of_elem d qs k b) by auto. apply section_of_elem; [exact Hn'|]. now rewrite Hp.
  - rewrite (section_of_none d qs) by exact H. apply section_of_none. intros H'. apply H. now rewrite <- (Permutation_map fst Hp).
Qed.

(** The texts that [parseSection] finds. *)
Lemma pieces_sections inline r :
  section_of (lead inline r) (pieces inline r) (cs "select"%string) = select_body r
  /\ section_of [] (pieces inline r) (cs "order"%string) = order_body r /\ section_of [] (pieces inline r) (cs "rusage"%string) = rusage_body r
  /\ section_of [] (pieces inline r) (cs "filter"%string) = [] /\ section_of [] (pieces inline r) (cs "span"%string) = span_body r.
Proof.
  unfold pieces, lead. remember (select_body r) as a eqn:Ea. remember (order_body r) as b eqn:Eb. remember (rusage_body r) as c eqn:Ec. remember (span_body r) as e eqn:Ee.
  unfold select_body, order_body, rusage_body, span_body in *. destruct inline, (q_select r), (q_order r), (q_rusage r), (q_span r); cbn in Ea, Eb, Ec, Ee; subst; repeat split; reflexivity.
Qed.

Lemma lead_good info opts inline r : requirement_ok info opts r = true -> body (lead inline r) /\ trailing (lead inline r) = 0%nat.
Proof.
  intros ((Hs & _) & _)%requirement_spec. unfold lead, select_body. destruct inline; [|now split]. destruct (q_select r) as [|ts tss] eqn:E; [now split|].
  destruct (select_text info _ Hs) as [H1 H2]; [discriminate|]. split; [exact H1|apply ends_trailing; now right].
Qed.

Lemma section_wanted wanted parse v w : wanted = true -> parse v = Ok (PARSE_OK, w) -> section wanted parse (PARSE_OK, v) = Ok (PARSE_OK, w).
Proof. intros -> <-. reflexivity. Qed.

Lemma set_defaults_size info opts n d : setDefaults info opts n = Ok d -> selectStrSize d = n.
Proof. unfold setDefaults. destruct (has opts PR_BATCH); [now intros [= <-]|]. destruct (_ <? 3)%nat; [discriminate|now intros [= <-]]. Qed.

Lemma requirement_read info opts r inline ps v : requirement_ok info opts r = true -> ps ≡ₚ pieces inline r ->
  has opts PR_SELECT = true -> has opts PR_ORDER = true -> has opts PR_RUSAGE = true -> has opts PR_SPAN = true ->
  let text := print_sections (lead inline r) ps in
  parseResReq info text opts v = obind (setDefaults info opts (SIZE text)) (fun d => Ok (PARSE_OK, meaning info r d)).
Proof.
  intros Hr Hp O1 O2 O3 O4 text. destruct (lead_good info opts inline r Hr) as [L1 L2]. destruct (pieces_sections inline r) as (S1 & S2 & S3 & S4 & S5).
  pose proof (pieces_nodup inline r) as Hn. unfold parseResReq. subst text. rewrite (sections_found _ ps L1 L2) by (eapply pieces_well_formed; eauto).
  rewrite !(section_of_perm _ ps _ _ Hn Hp), S1, S2, S3, S4, S5. cbn [s_select s_order s_rusage s_filter s_span].
  set (size := SIZE _). destruct (setDefaults info opts size) as [d| | |] eqn:D; [|reflexivity..]. cbn [obind].
  pose proof (requirement_spec info opts r Hr) as ((Hs1 & Hs2 & Hs3) & (Ho1 & Ho2 & Ho3) & (Hu1 & Hu2) & (Hp1 & Hp2)).
  rewrite (section_wanted _ _ _ (select_val info (q_select r) d) O1).
  2: { apply (parse_select info opts size d); auto. rewrite (set_defaults_size _ _ _ _ D). apply SIZE_min. }
  cbn [obind].
  rewrite (section_wanted _ _ _ (order_val info (q_order r) (select_val info (q_select r) d)) O2).
  2: { unfold order_val, order_body in *. destruct (q_order r) eqn:E; [reflexivity|]. rewrite <- E in *. apply order_ok_spec in Ho1 as (Hn1 & Hm & _).
       rewrite (parse_order info _ (order_of info (q_order r))); auto; [|now rewrite E]. apply Nat.leb_le in Ho2. now rewrite Ho2. }
  cbn [obind]. rewrite (section_wanted _ _ _ (usage_val info (q_rusage r) (order_val info (q_order r) (select_val info (q_select r) d))) O3).
  2: { unfold usage_val, rusage_body in *. destruct (q_rusage r) eqn:E; [reflexivity|]. rewrite <- E in *. apply parse_usage; auto. now rewrite E. }
  cbn [obind]. replace (section (has opts PR_FILTER) (parseFilter info []) _) with (Ok (PARSE_OK, usage_val info (q_rusage r) (order_val info (q_order r) (select_val info (q_select r) d)))) by (now destruct (has opts PR_FILTER)).
  cbn [obind]. apply section_wanted; [exact O4|]. unfold meaning, span_val, span_body in *. destruct (q_span r) eqn:E; [reflexivity|]. rewrite <- E in *. apply parse_span; auto. now rewrite E.
Qed.
