(* ===== verification/ResReqInv.v ===== *)
(** * What a parsed requirement looks like

    Every loop ends within its fuel, and keeps the arrays of a [resVal] to their sizes, its
    indices within the table of resources and its counts positive. *)
From Stdlib Require Import ZArith Ascii String Lia.
From stdpp Require Import base gmap list.
From Corelib Require Import SpecFloat.
From S2P Require Import Prelude CNum JobArray ResReq ResReqSect ResReqParse ResReqSelect.
Local Open Scope Z_scope.

(** The result of a computation that ends. *)
Definition good {A} (P : A -> Prop) (x : outcome A) : Prop :=
  match x with Ok a => P a | OutOfFuel => False | _ => True end.

Lemma good_bind {A B} (P : A -> Prop) (Q : B -> Prop) m f : good P m -> (forall a, P a -> good Q (f a)) -> good Q (obind m f).
Proof. destruct m; cbn; auto. Qed.
Lemma good_mono {A} (P Q : A -> Prop) x : good P x -> (forall a, P a -> Q a) -> good Q x.
Proof. destruct x; cbn; auto. Qed.

(** An entry of [order]: a position of the table, counted from one, with a sign. *)
Definition order_in (info : lsInfo) (o : Z) : Prop := 1 <= Z.abs o <= nRes info.

Record wf (info : lsInfo) (v : resVal) : Prop := mkWf {
  wf_order : (length (order v) <= Z.to_nat NBUILTINDEX)%nat;
  wf_order_in : Forall (order_in info) (order v);
  wf_val : length (val v) = length (resTable info);
  wf_bits : length (rusgBitMaps v) = (length (resTable info) / 32 + 1)%nat;
  wf_indicies : (length (indicies v) <= Z.to_nat (numIndx info))%nat;
  wf_duration : 0 <= duration v;
  wf_numHosts : 0 < numHosts v /\ 0 < v_maxNumHosts v;
  wf_pTile : 0 < v_pTile v;
  wf_room : MAXLINELEN + MAXLSFNAMELEN <= selectStrSize v;
  wf_select : len (selectStr v) < selectStrSize v }.

Ltac wf_simpl := split; cbn; rewrite ?length_insert, ?length_alter; auto.

Section Preservation.
Context (info : lsInfo).

Lemma wf_set_order o v : wf info v -> (length o <= Z.to_nat NBUILTINDEX)%nat -> Forall (order_in info) o -> wf info (set_order o v).
Proof. intros [] H1 H2. wf_simpl. Qed.
Lemma wf_add_option o v : wf info v -> wf info (add_option o v).
Proof. intros []. wf_simpl. Qed.
Lemma wf_set_genClass g v : wf info v -> wf info (set_genClass g v).
Proof. intros []. wf_simpl. Qed.
Lemma wf_set_val i x v : wf info v -> wf info (set_val (<[i := x]> (val v)) v).
Proof. intros []. wf_simpl. Qed.
Lemma wf_count e v : wf info v -> wf info (set_rusgBitMaps (SET_BIT e (rusgBitMaps v)) (class_bit e v)).
Proof. intros []. unfold class_bit, SET_BIT. destruct (e <? MAXSRES); wf_simpl. Qed.
Lemma wf_set_indicies l v : wf info v -> (length l <= Z.to_nat (numIndx info))%nat -> wf info (set_indicies l v).
Proof. intros [] H. wf_simpl. Qed.
Lemma wf_set_duration d v : wf info v -> 0 <= d -> wf info (set_duration d v).
Proof. intros [] H. wf_simpl. Qed.
Lemma wf_set_decay d v : wf info v -> wf info (set_decay d v).
Proof. intros []. wf_simpl. Qed.
Lemma wf_set_hosts a b v : wf info v -> 0 < a -> 0 < b -> wf info (set_hosts_span a b v).
Proof. intros [] H1 H2. wf_simpl. Qed.
Lemma wf_set_pTile a v : wf info v -> 0 < a -> wf info (set_pTile a v).
Proof. intros [] H1. wf_simpl. Qed.
Lemma wf_set_selectStr s v : wf info v -> len s < selectStrSize v -> wf info (set_selectStr s v).
Proof. intros [] H1. wf_simpl. Qed.
Lemma wf_set_xorExprs l v : wf info v -> wf info (set_xorExprs l v).
Proof. intros []. wf_simpl. Qed.
#[local] Hint Resolve wf_add_option wf_set_genClass wf_set_val wf_count wf_set_decay wf_set_xorExprs : core.

(** ** Tokens and values *)

Lemma token_good s : good (fun '(t, r) => match t with Some _ => (length r < length s)%nat | None => True end) (getNextToken s).
Proof.
  destruct (getNextToken s) as [[[w|] r]| | |] eqn:E; cbn; auto; [now apply next_token_shorter in E|].
  unfold getNextToken in E. destruct s; [discriminate|]. repeat case_match; discriminate.
Qed.

Lemma token_rest s : good (fun '(_, r) => (length r <= length s)%nat) (getNextToken s).
Proof.
  pose proof (token_good s) as H. destruct (getNextToken s) as [[[w|] r]| | |] eqn:E; cbn in *; auto; [lia|].
  unfold getNextToken in E. destruct s as [|c s]; [injection E as <-; cbn; lia|]. repeat case_match; try discriminate; injection E as <-; cbn; lia.
Qed.

Lemma number_good w : good (fun _ => True) (isanumber_ w).
Proof. destruct w as [[|c w]|]; cbn; auto. unfold number. destruct (scan_float _); exact I. Qed.

Lemma getVal_good s : good (fun '(_, r) => (length r <= length s)%nat) (getVal s).
Proof. apply (good_bind _ _ _ _ (token_rest s)). intros [t r] Hr. apply (good_bind _ _ _ _ (number_good t)). intros x _. exact Hr. Qed.

Lemma getTimeVal_good s : good (fun '(_, r) => (length r <= length s)%nat) (getTimeVal s).
Proof.
  apply (good_bind _ _ _ _ (token_rest s)). intros [[w|] r] Hr; [|exact I].
  cbv beta iota zeta. match goal with |- context [let '(_, _) := ?m in _] => destruct m as [n u] end. apply (good_bind _ _ _ _ (number_good (Some n))). intros x _. exact Hr.
Qed.

Lemma getValPair_good s : good (fun '(_, _, _, r) => (length r <= length s)%nat) (getValPair s).
Proof.
  apply (good_bind _ _ _ _ (token_rest s)). intros [[[|c w]|] r] Hr; [exact Hr| |exact Hr].
  cbv beta iota zeta. match goal with |- context [let '(_, _) := ?m in _] => destruct m as [wd1 wd2] end. cbn [good]. now destruct (_ || _).
Qed.

Lemma item_entry e it : 0 <= e -> item info e = Some it -> 1 <= e + 1 <= nRes info.
Proof. intros H1 H2%lookup_lt_Some. unfold nRes. lia. Qed.

Lemma nonneg_duration x : negative x = false -> good (fun d => 0 <= d) (int_of_float x).
Proof.
  unfold negative, int_of_float. destruct x as [s|s| |s m e]; try (intros; exact I); [intros _; change (0 <= 0); lia|]. destruct s; [discriminate|]. intros _.
  destruct (int32b _); [|exact I]. cbn [good trunc]. destruct (Z.leb_spec 0 e); [|apply Z.div_pos; [lia|apply Z.pow_pos_nonneg; lia]]. pose proof (Z.pow_nonneg 2 e ltac:(lia)). nia.
Qed.

Lemma goodVal_nonneg x y : goodVal x = Some y -> negative y = false.
Proof. unfold goodVal. destruct x as [x|]; [|discriminate]. destruct (negative x) eqn:E; [discriminate|]. now intros [= <-]. Qed.

(** ** The sections *)

Lemma order_good fuel s v : wf info v -> (length s < fuel)%nat -> good (fun x => wf info x.2) (order_loop fuel info s v).
Proof.
  revert s v. induction fuel as [|fuel IH]; intros s v Hv Hf; [lia|]. cbn [order_loop]. apply (good_bind _ _ _ _ (token_good s)). intros [[w|] r] Hr; [|cbn; auto].
  destruct (minus w) as [neg w']. destruct (Z.ltb_spec (getResEntry info w') 0) as [|He]; [exact Hv|]. destruct (item info _) as [it|] eqn:Hi; [|exact I].
  pose proof (item_entry _ it He Hi) as Hb.
  assert (K : good (fun x : Z * resVal => wf info x.2) (if NBUILTINDEX <? Z.of_nat (length (order v)) then Ok (PARSE_OK, add_option PR_ORDER v)
    else if Z.of_nat (length (order v)) =? NBUILTINDEX then Crash Order
    else order_loop fuel info r (set_order (order v ++ [if neg then - (getResEntry info w' + 1) else getResEntry info w' + 1]) v))).
  { destruct (Z.ltb_spec NBUILTINDEX (Z.of_nat (length (order v)))); [cbn; auto|]. destruct (Z.eqb_spec (Z.of_nat (length (order v))) NBUILTINDEX); [exact I|].
    apply IH; [|lia]. apply wf_set_order; [exact Hv|rewrite length_app; cbn [length]; unfold NBUILTINDEX in *; lia|].
    apply Forall_app. split; [apply Hv|]. constructor; [|constructor]. unfold order_in. destruct neg; lia. }
  destruct (r_orderType it); [exact K|exact K|exact Hv].
Qed.

Lemma filter_good fuel s v : wf info v -> (length s < fuel)%nat -> good (fun x => wf info x.2) (filter_loop fuel info s v).
Proof.
  revert s v. induction fuel as [|fuel IH]; intros s v Hv Hf; [lia|]. cbn [filter_loop]. apply (good_bind _ _ _ _ (token_good s)). intros [[w|] r] Hr; [|cbn; auto].
  destruct (_ <? 0); [exact Hv|]. destruct (item info _) as [it|]; [|exact I]. destruct (negb _); [exact Hv|]. destruct (has _ RESF_SHARED); [exact Hv|].
  destruct (Z.leb_spec (numIndx info) (Z.of_nat (length (indicies v)))); [exact I|]. apply IH; [|lia]. apply wf_set_indicies; [exact Hv|]. rewrite length_app. cbn [length]. lia.
Qed.

Lemma usage_good fuel s v : wf info v -> (length s < fuel)%nat -> good (fun x => wf info x.2) (usage_loop fuel info s v).
Proof.
  revert s v. induction fuel as [|fuel IH]; intros s v Hv Hf; [lia|]. cbn [usage_loop]. apply (good_bind _ _ _ _ (token_good s)). intros [[w|] r] Hr; [|cbn; auto].
  set (key := getKeyEntry _). destruct (_ && _ && _); [exact Hv|]. destruct ((0 <? key) && _).
  - apply (good_bind (fun '(_, r') => (length r' <= length r)%nat)); [destruct (key =? KEY_DURATION); [apply getTimeVal_good|apply getVal_good]|].
    intros [x r'] Hr'. destruct (goodVal x) as [y|] eqn:Ey; [|exact Hv]. apply goodVal_nonneg in Ey. destruct (key =? KEY_DURATION); [|apply IH; auto; lia].
    apply (good_bind _ _ _ _ (nonneg_duration y Ey)). intros d Hd. apply IH; [now apply wf_set_duration|lia].
  - destruct (_ <? 0); [exact Hv|]. destruct (item info _) as [it|]; [|exact I]. set (counted := _ || _). set (v' := if counted then _ else v).
    assert (Hv' : wf info v') by (subst v'; destruct counted; auto). destruct (next_is "=" r); [|apply IH; [exact Hv'|lia]].
    apply (good_bind _ _ _ _ (getVal_good r)). intros [x r'] Hr'. destruct (goodVal x) as [y|]; [|exact Hv']. apply IH; [destruct counted; auto|lia].
Qed.

Lemma span_good fuel s v : wf info v -> (length s < fuel)%nat -> good (fun x => wf info x.2) (span_loop fuel s v).
Proof.
  revert s v. induction fuel as [|fuel IH]; intros s v Hv Hf; [lia|]. cbn [span_loop]. apply (good_bind _ _ _ _ (token_good s)). intros [[w|] r] Hr; [|cbn; auto].
  destruct (_ && _); [exact Hv|]. apply (good_bind _ _ _ _ (getValPair_good r)). intros [[[cc a] b] r'] Hr'.
  destruct (Z.ltb_spec cc 0); [exact Hv|]. destruct (Z.leb_spec a 0); [exact Hv|]. destruct (Z.leb_spec b 0); [exact Hv|]. cbn [orb].
  destruct (_ =? KEY_HOSTS); [apply IH; [now apply wf_set_hosts|lia]|]. destruct (_ =? KEY_PTILE); [|exact Hv].
  assert (Hp : wf info (set_pTile a v)) by now apply wf_set_pTile. destruct (negb _); [exact Hp|apply IH; [exact Hp|lia]].
Qed.

(** ** The condition *)

Lemma strcat_good cap size sp text : good (fun r => len r < size) (strcat cap size sp text).
Proof. unfold strcat. destruct (cap <=? _); [exact I|]. destruct (Z.leb_spec size (len sp + len text)); [exact I|]. cbn. rewrite len_app. lia. Qed.

Lemma value_good s : good (fun _ => True) (string_value s).
Proof. unfold string_value. destruct (MAXLSFNAMELEN <=? _); exact I. Qed.

Lemma defined_good size s sp : len sp < size -> good (fun '(_, _, sp) => len sp < size) (class_defined info size s sp).
Proof.
  intros H. unfold class_defined. destruct (negb _); [exact H|]. destruct (MAXLSFNAMELEN <=? _); [exact I|]. destruct (_ <? 0); [exact H|]. destruct (item _ _); [|exact I].
  apply (good_bind _ _ _ _ (strcat_good _ _ _ _)). intros sp' H'. now destruct (next_is ")" _).
Qed.

Lemma string_good it size s sp : len sp < size -> good (fun '(_, _, sp) => len sp < size) (class_string info it size s sp).
Proof.
  intros H. unfold class_string. destruct (string_op _) as [[op r]|]; [|exact H]. apply (good_bind _ _ _ _ (value_good _)). intros [v r'] _.
  destruct v as [|x v]; [exact H|]. destruct (negb _); [exact H|]. apply (good_bind _ _ _ _ (strcat_good _ _ _ _)). intros sp' H'. exact H'.
Qed.

Lemma name_good size s sp : len sp < size -> good (fun '(_, _, sp) => len sp < size) (class_name info size s sp).
Proof.
  intros H. unfold class_name. destruct (MAXLSFNAMELEN <=? _); [exact I|]. destruct (_ <? 0); [destruct (prefixb _ _); [now apply defined_good|exact H]|].
  destruct (item _ _) as [it|]; [|exact I]. destruct (r_valueType it); [| |now apply string_good|exact H];
    (destruct (MAXLSFNAMELEN <=? _); [exact I|]; apply (good_bind _ _ _ _ (strcat_good _ _ _ _)); intros sp' H'; exact H').
Qed.

Lemma class_good fuel size s sp : len sp < size -> (length s < fuel)%nat -> good (fun '(_, sp) => len sp < size) (class_new fuel info size s sp).
Proof.
  revert s sp. induction fuel as [|fuel IH]; intros s sp H Hf; [lia|]. destruct s as [|c s]; [exact H|]. cbn [length] in Hf. cbn [class_new].
  destruct (Z.leb_spec (size - MAXLSFNAMELEN) (len sp)) as [|Hg]; [exact H|]. destruct (Ascii.eqb c SP); [apply IH; lia|].
  destruct (copied c); [apply IH; [rewrite len_app; change (len [c]) with 1; unfold MAXLSFNAMELEN in Hg; lia|lia]|]. destruct (IS_LETTER c) eqn:Hc; [|exact H].
  pose proof (name_good size (c :: s) sp H) as N. destruct (class_name info size (c :: s) sp) as [[[cc s'] sp']| | |] eqn:E; [|exact N..]. cbn [obind].
  destruct (Z.eqb_spec cc PARSE_OK) as [->|]; [|exact N]. apply IH; [exact N|]. apply class_name_shorter in E; [lia|exact Hc].
Qed.

Lemma new_good s v : wf info v -> good (fun x => wf info x.2) (resToClassNew info s v).
Proof.
  intros H. apply (good_bind (fun '(_, sp) => len sp < selectStrSize v)).
  - apply class_good; [|lia]. pose proof (wf_room _ _ H). change (len EXPR) with 5. unfold MAXLINELEN, MAXLSFNAMELEN in *. lia.
  - intros [cc sp] Hs. cbn. destruct (cc =? PARSE_OK); [apply wf_add_option|]; now apply wf_set_selectStr.
Qed.

Lemma cat_good text v : wf info v -> good (wf info) (cat_select text v).
Proof. intros H. apply (good_bind _ _ _ _ (strcat_good _ _ _ _)). intros sp Hs. now apply wf_set_selectStr. Qed.

Lemma old_good fuel s v : wf info v -> (length s < fuel)%nat -> good (fun x => wf info x.2) (old_loop fuel info s v).
Proof.
  revert s v. induction fuel as [|fuel IH]; intros s v Hv Hf; [lia|]. cbn [old_loop]. apply (good_bind _ _ _ _ (token_good s)).
  assert (C : forall text w r, wf info w -> (length r < fuel)%nat -> good (fun x : Z * resVal => wf info x.2) (obind (cat_select text w) (fun w => old_loop fuel info r w))).
  { intros text w r Hw Hr. apply (good_bind _ _ _ _ (cat_good text w Hw)). auto. }
  intros [[w|] r] Hr; [|apply (good_bind _ _ _ _ (cat_good _ v Hv)); intros v' Hv'; cbn; auto].
  assert (Hr' : (length r < fuel)%nat) by lia. destruct (_ <=? _); [exact Hv|]. destruct (match w with [] => _ | _ => _ end); [exact Hv|]. destruct (streq _ _); [now apply C|].
  destruct (minus w) as [neg w']. destruct (_ <? 0); [exact Hv|]. destruct (item _ _) as [it|]; [|exact I]. destruct (r_valueType it).
  - now apply C.
  - destruct neg; [exact Hv|]. destruct (next_is "=" r); [|destruct (_ =? IT); apply C; auto].
    apply (good_bind _ _ _ _ (getVal_good r)). intros [x r'] Hx. destruct (goodVal x) as [y|]; [|exact Hv]. apply C; [destruct (has _ _); auto|lia].
  - destruct neg; [exact Hv|]. destruct (negb _); [exact Hv|]. apply (good_bind _ _ _ _ (token_rest r)). intros [[u|] r'] Hx; [|exact Hv].
    destruct (negb _); [exact Hv|]. apply C; [exact Hv|lia].
  - destruct neg; [exact Hv|auto].
Qed.

Lemma class_old_good s v : wf info v -> good (fun x => wf info x.2) (resToClassOld info s v).
Proof.
  intros H. unfold resToClassOld. destruct (blank s); [exact H|]. destruct (_ || _); [exact H|]. apply old_good; [|lia]. apply wf_set_selectStr; [exact H|].
  pose proof (wf_room _ _ H). change (len EXPR) with 5. unfold MAXLINELEN, MAXLSFNAMELEN in *. lia.
Qed.

Lemma refuse_good x : wf info x.2 -> wf info (refuse x).2.
Proof.
  intros H. unfold refuse. destruct (_ =? _); [exact H|]. cbn. apply wf_set_selectStr; [exact H|]. pose proof (wf_room _ _ H). change (len []) with 0.
  unfold MAXLINELEN, MAXLSFNAMELEN in *. lia.
Qed.

Lemma select1_good s v : wf info v -> good (fun x => wf info x.2) (parseSelect1 info s v).
Proof.
  intros H. unfold parseSelect1. destruct (getSyntax s).
  - apply (good_bind _ _ _ _ (class_old_good s v H)). intros x Hx. now apply refuse_good.
  - apply (good_bind _ _ _ _ (new_good s v H)). intros x Hx. now apply refuse_good.
  - apply (good_bind _ _ _ _ (class_old_good s v H)). intros [cc v'] Hx. destruct (_ || _); [now apply (refuse_good (cc, v'))|].
    apply (good_bind _ _ _ _ (new_good s v' Hx)). intros x Hx'. now apply refuse_good.
Qed.

(** ** The defaults *)

Lemma defaults_wf opts size : 5 <= nRes info -> MAXLINELEN + MAXLSFNAMELEN <= size -> good (wf info) (setDefaults info opts size).
Proof.
  intros Hn Hs. set (d := mkVal (default_select opts) size [R15S + 1; PG + 1] 0 (repeat INFINIT_LOAD (length (resTable info))) (seqZ 0 (numIndx info))
    (repeat 0 (length (resTable info) / 32 + 1)) INFINIT_INT INFINIT_LOAD INFINIT_INT INFINIT_INT INFINIT_INT 0 []).
  assert (W : wf info d).
  { split; cbn; rewrite ?repeat_length, ?length_seqZ; unfold R15S, PG, NBUILTINDEX, INFINIT_INT; try lia; auto.
    - repeat constructor; unfold order_in; lia.
    - unfold default_select, MAXLINELEN, MAXLSFNAMELEN in *. destruct (has opts PR_DEFFROMTYPE); vm_compute (len _); lia. }
  unfold setDefaults. fold d. destruct (has opts PR_BATCH); [exact W|]. destruct (_ <? 3)%nat; [exact I|].
  destruct W. split; cbn; rewrite ?length_insert; unfold SET_BIT; rewrite ?length_alter; auto.
Qed.

Lemma xor_good opts es : 5 <= nRes info -> good (fun _ => True) (xor_exprs info opts es).
Proof.
  intros Hn. induction es as [|e es IH]; [exact I|]. cbn [xor_exprs]. apply (good_bind _ _ _ _ (defaults_wf opts (SIZE e) Hn ltac:(unfold SIZE; lia))). intros v Hv.
  apply (good_bind _ _ _ _ (select1_good e v Hv)). intros [cc w] _. destruct (negb _); [exact I|]. apply (good_bind _ _ _ _ IH). intros [cc' l] _. destruct (negb _); exact I.
Qed.

Lemma select_good xor opts s v : 5 <= nRes info -> wf info v -> good (fun x => wf info x.2) (parseSelect info xor opts s v).
Proof.
  intros Hn H. unfold parseSelect. destruct s as [|c s]; [now apply select1_good|]. destruct xor; [|now apply select1_good].
  destruct (strtok _ _) as [|e [|e' es]]; [exact H|destruct (strchr _ _); [exact H|now apply select1_good]|].
  apply (good_bind _ _ _ _ (xor_good opts _ Hn)). intros [cc l] _. destruct (negb _); [exact H|]. apply select1_good. auto.
Qed.

Lemma section_good wanted parse x : wf info x.2 -> (forall v, wf info v -> good (fun x => wf info x.2) (parse v)) -> good (fun x => wf info x.2) (section wanted parse x).
Proof. intros Hx Hp. unfold section. destruct (_ && _); [now apply Hp|exact Hx]. Qed.

(** Every requirement has an outcome; the state is well formed when the sections were found. *)
Lemma parse_good opts s v : 5 <= nRes info -> good (fun x => parseSection s = None \/ wf info x.2) (parseResReq info s opts v).
Proof.
  intros Hn. unfold parseResReq. destruct (parseSection s) as [q|]; [|now left].
  apply (good_bind _ _ _ _ (defaults_wf opts (SIZE s) Hn ltac:(unfold SIZE; lia))). intros d Hd.
  apply (good_bind (fun x => wf info x.2)); [apply section_good; [exact Hd|intros w Hw; now apply select_good]|]. intros x1 H1.
  apply (good_bind (fun x => wf info x.2)).
  { apply section_good; [exact H1|]. intros w Hw. unfold parseOrder. destruct (blank _); [exact Hw|]. apply order_good; [|lia]. apply wf_set_order; [exact Hw|cbn; lia|constructor]. }
  intros x2 H2. apply (good_bind (fun x => wf info x.2)).
  { apply section_good; [exact H2|]. intros w Hw. unfold parseUsage. destruct (blank _); [exact Hw|]. apply usage_good; [auto|lia]. }
  intros x3 H3. apply (good_bind (fun x => wf info x.2)).
  { apply section_good; [exact H3|]. intros w Hw. unfold parseFilter. destruct (blank _); [exact Hw|]. apply filter_good; [|lia]. apply wf_set_indicies; [exact Hw|cbn; lia]. }
  intros x4 H4. eapply good_mono; [apply section_good; [exact H4|]|intros x Hx; now right].
  intros w Hw. unfold parseSpan. destruct (blank _); [exact Hw|]. apply span_good; [exact Hw|lia].
Qed.

End Preservation.
