(* ===== verification/ResReqRisk.v ===== *)
(** * Texts that have no outcome

    The runs of the parser that end as [Crash] or [Unmodelled] in ResReq.v are those of the
    requirements that this file describes: sections of more than a line, lists that are longer
    than their arrays, long words and values, conditions in the old syntax, alternatives, and
    durations.  Every other requirement gets an answer. *)
From Stdlib Require Import ZArith Ascii String Lia.
From stdpp Require Import base gmap list.
From S2P Require Import Prelude CNum JobArray ResReq ResReqSect ResReqParse ResReqSelect ResReqInv ResReqRoom.
Local Open Scope Z_scope.

(** The reasons why a computation has no result. *)
Definition risk {A} (H : overrun -> Prop) (U : Prop) (x : outcome A) : Prop :=
  match x with Crash o => H o | Unmodelled => U | _ => True end.

Lemma risk_bind {A B} H U (m : outcome A) (f : A -> outcome B) : risk H U m -> (forall a, m = Ok a -> risk H U (f a)) -> risk H U (obind m f).
Proof. destruct m; cbn; auto. Qed.
Lemma risk_mono {A} (H H' : overrun -> Prop) (U U' : Prop) (x : outcome A) : risk H U x -> (forall o, H o -> H' o) -> (U -> U') -> risk H' U' x.
Proof. destruct x; cbn; auto. Qed.

(** ** What the texts contain *)

Definition infix (p s : cstr) : Prop := exists a b, s = a ++ p ++ b.
Definition long (s : cstr) : Prop := MAXLINELEN <= len s.

(** A number with an exponent, in hexadecimal, an infinity or what is not a number. *)
Definition special (s : cstr) : Prop := exists w, infix w s /\ scan_float w = FSpecial.

(** A name, with the brackets behind it, does not fit [MAXLSFNAMELEN] bytes. *)
Definition long_word (s : cstr) : Prop := exists w, infix w s /\ forallb word_char w = true /\ MAXLSFNAMELEN <= len w + 2.

(** A value in quotes or without does not fit. *)
Definition long_value (s : cstr) : Prop := exists v, infix v s /\ MAXLSFNAMELEN <= len v
  /\ (forallb word_char v = true \/ (infix ("'"%char :: v) s /\ forallb (fun x => negb (Ascii.eqb x "'")) v = true)).

Definition sep (c : ascii) : bool := Ascii.eqb c ":" || Ascii.eqb c "=".
Fixpoint seps (s : cstr) : Z :=
  match s with
  | [] => 0
  | c :: s' => (if sep c then 1 else 0) + seps s'
  end.
(** The words between the separators. *)
Definition words (s : cstr) : Z := seps s + match s with [] => 0 | c :: _ => if sep c then 0 else 1 end.

Lemma infix_suffix p r s : r `suffix_of` s -> infix p r -> infix p s.
Proof. intros [a ->] (b & c & ->). exists (a ++ b), c. by rewrite app_assoc. Qed.
Lemma infix_self s : infix s s.
Proof. exists [], []. by rewrite app_nil_r. Qed.
Lemma long_suffix r s : r `suffix_of` s -> long r -> long s.
Proof. intros [a ->]. unfold long. rewrite len_app. pose proof (len_nonneg a). lia. Qed.
Lemma special_suffix r s : r `suffix_of` s -> special r -> special s.
Proof. intros H (w & Hw & E). exists w. split; [by eapply infix_suffix|done]. Qed.
Lemma long_word_suffix r s : r `suffix_of` s -> long_word r -> long_word s.
Proof. intros H (w & Hw & E). exists w. split; [by eapply infix_suffix|done]. Qed.
Lemma long_value_suffix r s : r `suffix_of` s -> long_value r -> long_value s.
Proof.
  intros H (v & Hv & L & D). exists v. split; [by eapply infix_suffix|]. split; [done|]. destruct D as [D|[D1 D2]]; [by left|right].
  split; [by eapply infix_suffix|done].
Qed.
Lemma seps_app a b : seps (a ++ b) = seps a + seps b.
Proof. induction a as [|c a IH]; cbn; [done|]. rewrite IH. lia. Qed.
Lemma words_seps s : words s <= seps s + 1.
Proof. unfold words. destruct s as [|c s]; [cbn; lia|]. destruct (sep c); lia. Qed.

Lemma words_nonneg s : 0 <= words s.
Proof.
  assert (N : 0 <= seps s) by (induction s as [|c s IH]; cbn; [lia|destruct (sep c); lia]).
  unfold words. destruct s as [|c s]; [lia|]. destruct (sep c); lia.
Qed.

(** ** Tokens *)

Lemma before_split c s : exists r, s = before c s ++ r.
Proof. induction s as [|x s [r IH]]; [by exists []|]. cbn. destruct (Ascii.eqb x c); [by exists (x :: s)|]. exists r. cbn. by f_equal. Qed.

Lemma drop_before (s w : cstr) r : s = w ++ r -> drop (length w) s = r.
Proof. intros ->. by rewrite drop_app_length. Qed.

(** The word ends where the text does, or at a separator. *)
Lemma word_seps s : seps (before "=" (before ":" s)) = 0 /\
  match drop (length (before "=" (before ":" s))) s with [] => True | c :: _ => sep c = true end.
Proof.
  induction s as [|x s [IH1 IH2]]; [done|]. cbn [before]. destruct (Ascii.eqb x ":") eqn:E1; [cbn; unfold sep; by rewrite E1|].
  cbn [before]. destruct (Ascii.eqb x "=") eqn:E2; [cbn; unfold sep; by rewrite E2, orb_true_r|]. cbn. unfold sep at 1. rewrite E1, E2. cbn. by split.
Qed.

Lemma word_split s : s = before "=" (before ":" s) ++ drop (length (before "=" (before ":" s))) s.
Proof.
  destruct (before_split ":" s) as [r1 E1]. destruct (before_split "=" (before ":" s)) as [r2 E2].
  assert (E : s = before "=" (before ":" s) ++ (r2 ++ r1)) by (rewrite app_assoc, <- E2; exact E1). by rewrite (drop_before s _ _ E).
Qed.

(** The text a token is taken from. *)
Definition skipped (s : cstr) : cstr := match s with c :: s' => if sep c || Ascii.eqb c SP then s' else s | [] => [] end.

Lemma token_skipped s : getNextToken s =
  match skipped s with
  | [] => Ok (None, [])
  | sp => if MAXLINELEN <=? len sp then Crash Word else let word := before "=" (before ":" sp) in Ok (Some word, drop (length word) sp)
  end.
Proof. destruct s as [|c s]; [done|]. cbn [skipped]. unfold getNextToken, sep. by destruct (_ || _); [destruct s|]. Qed.

Lemma skipped_parts s : skipped s <> [] -> (exists a, s = a ++ skipped s) /\ seps (skipped s) + 1 <= words s.
Proof.
  destruct s as [|c s]; [done|]. cbn [skipped]. unfold words. cbn [seps]. destruct (sep c) eqn:E; cbn [orb]; [split; [by exists [c]|lia]|].
  destruct (Ascii.eqb c SP); [split; [by exists [c]|lia]|]. split; [by exists []|]. cbn [seps]. rewrite E. lia.
Qed.

Lemma token_parts s w r : getNextToken s = Ok (Some w, r) -> exists a, s = a ++ w ++ r /\ words r + 1 <= words s.
Proof.
  rewrite token_skipped. pose proof (skipped_parts s) as P. destruct (skipped s) as [|x t]; [discriminate|].
  destruct (P ltac:(discriminate)) as [[a Ea] Sa]. cbv beta iota zeta. clear P. generalize dependent (x :: t). intros sp Ea Sa. destruct (MAXLINELEN <=? _); [discriminate|]. intros [= <- <-].
  destruct (word_seps sp) as [S1 S2]. pose proof (word_split sp) as Sp. set (w := before "=" (before ":" sp)) in *. set (r := drop (length w) sp) in *.
  exists a. split; [by rewrite <- Sp|]. rewrite Sp, seps_app, S1 in Sa. unfold words at 1. destruct r as [|y r']; [cbn in *; lia|rewrite S2; lia].
Qed.

Lemma token_suffix s w r : getNextToken s = Ok (Some w, r) -> r `suffix_of` s /\ infix w s.
Proof. intros H. apply token_parts in H as (a & -> & _). split; [exists (a ++ w); by rewrite app_assoc|by exists a, r]. Qed.

Lemma skipped_len s : len (skipped s) <= len s.
Proof. destruct s as [|c s]; cbn [skipped]; [lia|]. destruct (_ || _); rewrite ?len_cons; lia. Qed.

Lemma token_risk s : risk (fun o => o = Word /\ long s) False (getNextToken s).
Proof.
  rewrite token_skipped. pose proof (skipped_len s) as L. destruct (skipped s) as [|x t]; [done|].
  cbv beta iota zeta. destruct (Z.leb_spec MAXLINELEN (len (x :: t))); [|exact I]. split; [done|]. unfold long. lia.
Qed.

(** No token is left. *)
Lemma token_none s r : getNextToken s = Ok (None, r) -> s = [] \/ exists c, s = [c].
Proof.
  rewrite token_skipped. destruct s as [|c s]; [by left|]. cbn [skipped]. destruct (_ || _).
  - destruct s as [|x s]; [right; by exists c|]. destruct (_ <=? _); discriminate.
  - destruct (_ <=? _); discriminate.
Qed.

Lemma number_risk w : risk (fun _ => False) (special (default [] w)) (isanumber_ w).
Proof.
  destruct w as [[|c w]|]; try done. cbn [default isanumber_]. unfold number. destruct (scan_float (c :: w)) eqn:E; try done.
  exists (c :: w). split; [apply infix_self|done].
Qed.

Lemma getVal_risk s : risk (fun o => o = Word /\ long s) (special s) (getVal s).
Proof.
  apply risk_bind; [eapply risk_mono; [apply token_risk|auto|easy]|]. intros [t r] E. apply risk_bind; [|done].
  eapply risk_mono; [apply number_risk|easy|]. destruct t as [w|]; [|by intros (w & (a & b & Ew) & Hs); destruct a; destruct w; try discriminate; vm_compute in Hs].
  apply token_suffix in E as [_ (a & b & ->)]. intros (u & (c & d & Eu) & Hs). cbn in Eu. subst w. exists u. split; [|done]. exists (a ++ c), (d ++ b). by rewrite <- !app_assoc.
Qed.

(** The time behind [duration]. *)
Lemma getTimeVal_risk s : next_is "=" s = true -> risk (fun o => (o = Word /\ long s) \/ (o = NullToken /\ s = cs "="%string)) (special s) (getTimeVal s).
Proof.
  intros N. apply risk_bind; [eapply risk_mono; [apply token_risk|auto|easy]|]. intros [[w|] r] E.
  - cbv beta iota zeta. apply token_suffix in E as [_ (a & b & ->)]. set (p := match drop (length (digits_of w)) w with [] => _ | _ => _ end).
    assert (Hp : infix p.1 w).
    { assert (D : infix (digits_of w) w).
      { exists [], (drop (length (digits_of w)) w). clear. induction w as [|c w IH]; [done|]. cbn. destruct (isdigit c); [|done]. cbn in *. by f_equal. }
      unfold p. case_match; [apply infix_self|]. case_match; [done|apply infix_self]. }
    destruct p as [num oneChar]. apply risk_bind; [|done]. eapply risk_mono; [apply number_risk|easy|].
    intros (u & (c & d & Eu) & Hs). cbn in Eu, Hp. destruct Hp as (c' & d' & ->). subst num. exists u. split; [|done].
    exists (a ++ c' ++ c), (d ++ d' ++ b). by rewrite <- !app_assoc.
  - right. split; [done|]. destruct (token_none s r E) as [->|[c ->]]; [discriminate|]. cbn in N. apply Ascii.eqb_eq in N. by subst c.
Qed.

Lemma getValPair_risk s : risk (fun o => o = Word /\ long s) False (getValPair s).
Proof.
  apply risk_bind; [apply token_risk|]. intros [[[|c w]|] r] E; [done| |done].
  cbv beta iota zeta. match goal with |- context [let '(_, _) := ?m in _] => destruct m as [wd1 wd2] end. done.
Qed.

Lemma token_rest_suffix s t r : getNextToken s = Ok (t, r) -> r `suffix_of` s.
Proof.
  destruct t as [w|]; intros E; [by apply token_suffix in E as [H _]|]. rewrite token_skipped in E.
  destruct (skipped s); [injection E as <-; apply suffix_nil|]. cbv beta iota zeta in E. destruct (_ <=? _); discriminate.
Qed.
Lemma val_suffix s x r : getVal s = Ok (x, r) -> r `suffix_of` s.
Proof.
  unfold getVal. destruct (getNextToken s) as [[t r']| | |] eqn:E; try discriminate. cbn. destruct (isanumber_ t); try discriminate. intros [= _ <-]. by eapply token_rest_suffix.
Qed.
Lemma time_suffix s x r : getTimeVal s = Ok (x, r) -> r `suffix_of` s.
Proof.
  unfold getTimeVal. destruct (getNextToken s) as [[[w|] r']| | |] eqn:E; try discriminate. cbn -[isanumber_].
  match goal with |- context [let '(_, _) := ?m in _] => destruct m as [num c] end. destruct (isanumber_ _); try discriminate. intros [= _ <-]. by eapply token_rest_suffix.
Qed.
Lemma pair_suffix s a b c r : getValPair s = Ok (a, b, c, r) -> r `suffix_of` s.
Proof.
  unfold getValPair. destruct (getNextToken s) as [[t r']| | |] eqn:E; try discriminate. apply token_rest_suffix in E. cbn.
  destruct t as [[|x w]|]; [by intros [= _ _ _ <-]| |by intros [= _ _ _ <-]]. cbv beta iota zeta.
  match goal with |- context [let '(_, _) := ?m in _] => destruct m as [wd1 wd2] end. destruct (_ || _); by intros [= _ _ _ <-].
Qed.

(** ** The sections *)

Section Sections.
Context (info : lsInfo) (Hok : names_ok info = true).

(** Every name that is found is in the table. *)
Lemma entry_item w : 0 <= getResEntry info w -> item info (getResEntry info w) <> None.
Proof.
  pose proof Hok as H. unfold names_ok in H. apply andb_prop in H as [[[[_ B1]%andb_prop B2]%andb_prop B3]%andb_prop B4]. unfold getResEntry.
  assert (B : forall e s, builtin info e s = true -> item info e <> None) by (intros e s; unfold builtin; by destruct (item info e)).
  destruct (initParse info !! w) as [e|] eqn:E; [|cbn; lia]. change (default (-1) (Some e)) with e. intros _. unfold initParse in E.
  apply lookup_insert_Some in E as [[_ <-]|[_ E]]; [by eapply B|]. apply lookup_insert_Some in E as [[_ <-]|[_ E]]; [by eapply B|].
  apply lookup_insert_Some in E as [[_ <-]|[_ E]]; [by eapply B|]. apply lookup_insert_Some in E as [[_ <-]|[_ E]]; [by eapply B|].
  apply res_names_found in E as [E|(j & it & H1 & _ & ->)]; [by rewrite lookup_empty in E|]. unfold item. by rewrite Z.add_0_l, Nat2Z.id, H1.
Qed.

Lemma order_risk fuel s v : risk (fun o => (o = Word /\ long s) \/ (o = Order /\ NBUILTINDEX < Z.of_nat (length (order v)) + words s)) False (order_loop fuel info s v).
Proof.
  revert s v. induction fuel as [|fuel IH]; intros s v; [done|]. cbn [order_loop]. apply risk_bind; [eapply risk_mono; [apply token_risk|auto|easy]|].
  intros [[w|] r] E; [|done]. destruct (token_parts s w r E) as (_ & _ & Hw). apply token_suffix in E as [Hr _].
  destruct (minus w) as [neg w']. destruct (Z.ltb_spec (getResEntry info w') 0) as [|He]; [done|]. destruct (item info _) as [it|] eqn:Hi; [|by destruct (entry_item w' He)].
  destruct (r_orderType it); [| |done].
  all: destruct (Z.ltb_spec NBUILTINDEX (Z.of_nat (length (order v)))); [done|].
  all: pose proof (words_nonneg r) as W.
  all: destruct (Z.eqb_spec (Z.of_nat (length (order v))) NBUILTINDEX) as [Eo|]; [right; split; [done|lia]|].
  all: eapply risk_mono; [apply IH| |done]; intros o [[-> Ho]|[-> Ho]]; [left; split; [done|by eapply long_suffix]|right; split; [done|]].
  all: cbn in Ho; rewrite length_app in Ho; cbn in Ho; lia.
Qed.

Lemma filter_risk fuel s v : risk (fun o => (o = Word /\ long s) \/ (o = Indicies /\ numIndx info < Z.of_nat (length (indicies v)) + words s)) False (filter_loop fuel info s v).
Proof.
  revert s v. induction fuel as [|fuel IH]; intros s v; [done|]. cbn [filter_loop]. apply risk_bind; [eapply risk_mono; [apply token_risk|auto|easy]|].
  intros [[w|] r] E; [|done]. destruct (token_parts s w r E) as (_ & _ & Hw). apply token_suffix in E as [Hr _].
  destruct (Z.ltb_spec (getResEntry info w) 0) as [|He]; [done|]. destruct (item info _) as [it|] eqn:Hi; [|by destruct (entry_item w He)].
  destruct (negb _); [done|]. destruct (has _ RESF_SHARED); [done|]. pose proof (words_nonneg r) as W.
  destruct (Z.leb_spec (numIndx info) (Z.of_nat (length (indicies v)))); [right; split; [done|lia]|].
  eapply risk_mono; [apply IH| |done]. intros o [[-> Ho]|[-> Ho]]; [left; split; [done|by eapply long_suffix]|right; split; [done|]].
  cbn in Ho. rewrite length_app in Ho. cbn in Ho. lia.
Qed.

Lemma span_risk fuel s v : risk (fun o => o = Word /\ long s) False (span_loop fuel s v).
Proof.
  revert s v. induction fuel as [|fuel IH]; intros s v; [done|]. cbn [span_loop]. apply risk_bind; [apply token_risk|].
  intros [[w|] r] E; [|done]. apply token_suffix in E as [Hr _]. destruct (_ && _); [done|].
  apply risk_bind; [eapply risk_mono; [apply getValPair_risk|intros o [-> Ho]; split; [done|by eapply long_suffix]|done]|].
  intros [[[cc a] b] r'] E. destruct (_ || _); [done|].
  assert (K : forall v', risk (fun o => o = Word /\ long s) False (span_loop fuel r' v')).
  { intros v'. eapply risk_mono; [apply IH|intros o [-> Ho]; split; [done|]|done]. apply (long_suffix r); [done|]. eapply long_suffix; [|done]. by eapply pair_suffix. }
  destruct (_ =? KEY_HOSTS); [apply K|]. destruct (_ =? KEY_PTILE); [|done]. destruct (negb _); [done|apply K].
Qed.

(** The hazards of the section rusage. *)
Definition usage_hazard (s : cstr) (o : overrun) : Prop :=
  match o with
  | Word => long s
  | NullToken => cs "duration="%string `suffix_of` s
  | Conversion => infix (cs "duration="%string) s
  | _ => False
  end.

Lemma usage_hazard_suffix r s o : r `suffix_of` s -> usage_hazard r o -> usage_hazard s o.
Proof.
  intros Hr. destruct o; cbn; auto; [apply long_suffix, Hr|apply infix_suffix, Hr|]. intros H. by etrans.
Qed.

Lemma usage_risk fuel s v : risk (usage_hazard s) (special s) (usage_loop fuel info s v).
Proof.
  revert s v. induction fuel as [|fuel IH]; intros s v; [done|]. cbn [usage_loop].
  apply risk_bind; [eapply risk_mono; [apply token_risk|by intros o [-> Ho]|easy]|].
  intros [[w|] r] E; [|done]. destruct (token_parts s w r E) as (a & Es & _). apply token_suffix in E as [Hr _].
  assert (K : forall r' v', r' `suffix_of` r -> risk (usage_hazard s) (special s) (usage_loop fuel info r' v')).
  { intros r' v' Hr'. assert (Hs : r' `suffix_of` s) by (by etrans). eapply risk_mono; [apply IH|intros o; by apply usage_hazard_suffix|by apply special_suffix]. }
  assert (V : risk (usage_hazard s) (special s) (getVal r)).
  { eapply risk_mono; [apply getVal_risk|intros o [-> Ho]; by apply (long_suffix r)|by apply special_suffix]. }
  set (key := getKeyEntry _). destruct (_ && _ && _); [done|]. destruct ((0 <? key) && _) eqn:Ek.
  - apply andb_prop in Ek as [_ Eq]. destruct (Z.eqb_spec key KEY_DURATION) as [Hk|Hk].
    + assert (Hd : exists b, s = b ++ cs "duration"%string ++ r).
      { unfold key in Hk. assert (Hw : (minus w).2 = cs "duration"%string).
        { unfold getKeyEntry in Hk. destruct (streq _ (cs "duration"%string)) eqn:Hq; [by apply streq_eq|]. repeat case_match; discriminate. }
        destruct w as [|c w]; [discriminate|]. cbn in Hw. destruct (Ascii.eqb c "-"); cbn in Hw; [subst w; exists (a ++ [c]); by rewrite <- app_assoc|].
        exists a. by rewrite Es, Hw. }
      destruct Hd as [b Hb]. destruct r as [|c r]; [discriminate|]. cbn in Eq. apply Ascii.eqb_eq in Eq. subst c.
      apply risk_bind.
      { eapply risk_mono; [by apply getTimeVal_risk| |by apply special_suffix]. intros o [[-> Ho]|[-> Ho]]; [by apply (long_suffix ("="%char :: r))|].
        injection Ho as ->. exists b. exact Hb. }
      intros [x r'] E'. destruct (goodVal x) as [y|]; [|done]. apply risk_bind; [|intros d _; apply K; by eapply time_suffix].
      unfold int_of_float. repeat case_match; try done; exists b, r; exact Hb.
    + apply risk_bind; [exact V|]. intros [x r'] E'. destruct (goodVal x) as [y|]; [|done]. apply K. by eapply val_suffix.
  - destruct (Z.ltb_spec (getResEntry info (minus w).2) 0) as [|He]; [done|]. destruct (item info _) as [it|] eqn:Hi; [|by destruct (entry_item _ He)].
    destruct (next_is "=" r); [|by apply K]. apply risk_bind; [exact V|]. intros [x r'] E'. destruct (goodVal x) as [y|]; [|done]. apply K. by eapply val_suffix.
Qed.

(** ** The condition in the new syntax *)

Definition new_hazard (s : cstr) (o : overrun) : Prop :=
  match o with
  | Name => long_word s
  | Value => long_value s
  | Text | Select => True
  | _ => False
  end.

Lemma new_hazard_suffix r s o : r `suffix_of` s -> new_hazard r o -> new_hazard s o.
Proof. intros Hr. destruct o; cbn; auto; [by apply long_word_suffix|by apply long_value_suffix]. Qed.

Lemma skip_suffix s : skip_sp s `suffix_of` s.
Proof. induction s as [|c s IH]; [done|]. cbn. destruct (Ascii.eqb c SP); [by apply suffix_cons_r|done]. Qed.
Lemma drop_suffix n (s : cstr) : drop n s `suffix_of` s.
Proof. exists (take n s). by rewrite take_drop. Qed.
Lemma word_infix s : infix (word_of s) s /\ forallb word_char (word_of s) = true.
Proof.
  induction s as [|c s [(a & b & IH1) IH2]]; [by split; [exists [], []|]|]. cbn. destruct (word_char c) eqn:E; [|split; [by exists [], (c :: s)|done]].
  cbn. rewrite E. split; [|done]. exists [], (drop (length (word_of s)) s). cbn. f_equal. clear. induction s as [|c s IH]; [done|]. cbn. destruct (word_char c); [|done]. cbn. by f_equal.
Qed.
Lemma word_long s : MAXLSFNAMELEN <= len (word_of s) + 2 -> long_word s.
Proof. intros H. exists (word_of s). destruct (word_infix s). done. Qed.

Lemma strcat_risk cap size sp text : risk (fun o => o = Text \/ o = Select) False (strcat cap size sp text).
Proof. unfold strcat. case_match; [by left|]. case_match; [by right|done]. Qed.

Lemma value_risk s : risk (fun o => o = Value /\ long_value s) False (string_value s).
Proof.
  unfold string_value. destruct (next_is "'" s) eqn:Q; cbn zeta.
  - destruct s as [|c s]; [discriminate|]. cbn in Q. apply Ascii.eqb_eq in Q. subst c. cbn [drop]. rewrite drop_0. destruct (Z.leb_spec MAXLSFNAMELEN (len (before "'" s))); [|exact I].
    split; [done|]. destruct (before_split "'" s) as [r Er]. exists (before "'" s). split; [exists ["'"%char], r; cbn; by f_equal|]. split; [done|]. right.
    split; [exists [], r; cbn; by f_equal|]. clear. induction s as [|c s IH]; [done|]. cbn. destruct (Ascii.eqb c "'") eqn:E; [done|]. cbn. by rewrite E.
  - destruct (Z.leb_spec MAXLSFNAMELEN (len (word_of s))); [|exact I]. split; [done|]. destruct (word_infix s). exists (word_of s). split; [done|]. split; [done|by left].
Qed.

Lemma value_suffix s v r : string_value s = Ok (v, r) -> r `suffix_of` s.
Proof.
  unfold string_value. cbn zeta. destruct (_ <=? _); [discriminate|]. intros [= _ <-]. destruct (next_is "'" s); cbn [andb].
  - case_match; [etrans; [apply drop_suffix|]|]; (etrans; [apply drop_suffix|apply drop_suffix]).
  - apply drop_suffix.
Qed.

Lemma op_suffix s op r : string_op s = Some (op, r) -> r `suffix_of` s.
Proof.
  unfold string_op. destruct s as [|a [|b t]]; try discriminate. intros H. repeat case_match; try discriminate; injection H as <- <-; first [by exists [a; b]|by exists [a]].
Qed.

Lemma defined_risk size s sp : risk (new_hazard s) False (class_defined info size s sp)
  /\ forall cc s' sp', class_defined info size s sp = Ok (cc, s', sp') -> s' `suffix_of` s.
Proof.
  unfold class_defined. pose proof (skip_suffix s) as S1. destruct (negb _); [split; [done|by intros cc s' sp' [= _ <- _]]|].
  cbn zeta. set (t := drop 1 (skip_sp s)). assert (S2 : t `suffix_of` s) by (etrans; [apply drop_suffix|done]).
  destruct (Z.leb_spec MAXLSFNAMELEN (len (word_of t))); [split; [apply (long_word_suffix t); [done|]; apply word_long; lia|done]|].
  destruct (Z.ltb_spec (getResEntry info (word_of t)) 0) as [|He]; [split; [done|by intros cc s' sp' [= _ <- _]]|].
  destruct (item info _) as [it|] eqn:Hi; [|by destruct (entry_item _ He)]. pose proof (strcat_risk (MAXLSFNAMELEN * 2) size sp (defined_text (r_name it))) as R.
  set (r := skip_sp _). assert (S3 : r `suffix_of` s) by (etrans; [apply skip_suffix|]; etrans; [apply drop_suffix|done]).
  destruct (strcat _ _ _ _) as [sp1|o| |]; cbn [obind]; [|split; [by destruct R as [-> | ->]|done]|done|split; [done|discriminate]].
  destruct (next_is ")" r); (split; [done|]); intros cc s' sp' [= _ <- _]; [|done]. etrans; [apply drop_suffix|done].
Qed.

Lemma string_risk it size s sp : risk (new_hazard s) False (class_string info it size s sp)
  /\ forall cc s' sp', class_string info it size s sp = Ok (cc, s', sp') -> s' `suffix_of` s.
Proof.
  unfold class_string. destruct (string_op (skip_sp s)) as [[op r]|] eqn:Eo; [|split; [done|by intros cc s' sp' [= _ <- _]]].
  apply op_suffix in Eo. assert (S1 : skip_sp r `suffix_of` s) by (etrans; [apply skip_suffix|]; etrans; [done|apply skip_suffix]).
  pose proof (value_risk (skip_sp r)) as V. destruct (string_value (skip_sp r)) as [[v r1]|o| |] eqn:Ev; cbn [obind]; [| |done|split; [done|discriminate]].
  2: { split; [|done]. destruct V as [-> V]. by apply (long_value_suffix (skip_sp r)). }
  apply value_suffix in Ev. assert (S2 : r1 `suffix_of` s) by (by etrans). destruct v as [|x v]; [split; [done|by intros cc s' sp' [= _ <- _]]|].
  destruct (negb _); [split; [done|by intros cc s' sp' [= _ <- _]]|]. pose proof (strcat_risk (MAXLSFNAMELEN * 2) size sp (compare_text (r_name it) op (x :: v))) as R.
  destruct (strcat _ _ _ _) as [sp1|o| |]; cbn [obind]; [split; [done|by intros cc s' sp' [= _ <- _]]|split; [by destruct R as [-> | ->]|done]|done|split; [done|discriminate]].
Qed.

Lemma name_risk size s sp : risk (new_hazard s) False (class_name info size s sp)
  /\ forall cc s' sp', class_name info size s sp = Ok (cc, s', sp') -> s' `suffix_of` s.
Proof.
  unfold class_name. cbn zeta. set (w := word_of s). set (r := drop (length w) s). assert (S1 : r `suffix_of` s) by apply drop_suffix.
  assert (K : forall x : outcome (Z * cstr * cstr), risk (new_hazard r) False x /\ (forall cc s' sp', x = Ok (cc, s', sp') -> s' `suffix_of` r) ->
    risk (new_hazard s) False x /\ forall cc s' sp', x = Ok (cc, s', sp') -> s' `suffix_of` s).
  { intros x [H1 H2]. split; [eapply risk_mono; [exact H1|intros o; by apply new_hazard_suffix|done]|]. intros cc s' sp' E. etrans; [by eapply H2|done]. }
  assert (D : forall c : Z, risk (new_hazard s) False (Ok (c, r, sp)) /\ forall (cc : Z) (s' sp' : cstr), Ok (c, r, sp) = Ok (cc, s', sp') -> s' `suffix_of` s)
    by (intros c; split; [done|by intros cc s' sp' [= _ <- _]]).
  destruct (Z.leb_spec MAXLSFNAMELEN (len w)); [split; [apply word_long; fold w; lia|discriminate]|].
  destruct (Z.ltb_spec (getResEntry info w) 0) as [|He]; [destruct (prefixb _ _); [apply K, defined_risk|apply D]|].
  destruct (item info _) as [it|] eqn:Hi; [|by destruct (entry_item _ He)].
  destruct (r_valueType it); [| |apply K, string_risk|apply D].
  all: destruct (Z.leb_spec MAXLSFNAMELEN (len w + 2)); [split; [by apply word_long|discriminate]|].
  all: pose proof (strcat_risk MAXLSFNAMELEN size sp (w ++ cs "()"%string)) as R; destruct (strcat _ _ _ _) as [sp1|o| |]; cbn [obind];
    [split; [done|by intros cc s' sp' [= _ <- _]]|split; [by destruct R as [-> | ->]|discriminate]|done|split; [done|discriminate]].
Qed.

Lemma class_risk fuel size s sp : risk (new_hazard s) False (class_new fuel info size s sp).
Proof.
  revert s sp. induction fuel as [|fuel IH]; intros s sp; [done|]. destruct s as [|c s]; [done|]. cbn [class_new]. destruct (_ <=? _); [done|].
  assert (K : forall s' sp', s' `suffix_of` c :: s -> risk (new_hazard (c :: s)) False (class_new fuel info size s' sp')).
  { intros s' sp' Hs. eapply risk_mono; [apply IH|intros o; by apply new_hazard_suffix|done]. }
  assert (S1 : s `suffix_of` c :: s) by (by exists [c]).
  destruct (Ascii.eqb c SP); [by apply K|]. destruct (copied c); [by apply K|]. destruct (IS_LETTER c); [|done].
  destruct (name_risk size (c :: s) sp) as [R1 R2]. apply risk_bind; [done|]. intros [[cc s'] sp'] E. destruct (_ =? _); [|done]. apply K. by eapply R2.
Qed.

(** ** The condition in the old syntax *)

Definition old_hazard (s : cstr) (o : overrun) : Prop :=
  match o with
  | Word => long s
  | Text | Select => True
  | _ => False
  end.

Lemma cat_risk text v : risk (fun o => o = Text \/ o = Select) False (cat_select text v).
Proof. apply risk_bind; [apply strcat_risk|done]. Qed.

Lemma old_risk fuel s v : risk (old_hazard s) (special s) (old_loop fuel info s v).
Proof.
  revert s v. induction fuel as [|fuel IH]; intros s v; [done|]. cbn [old_loop].
  assert (T : forall t, t `suffix_of` s -> risk (old_hazard s) (special s) (getNextToken t)).
  { intros t Ht. eapply risk_mono; [apply token_risk|intros o [-> Ho]; by apply (long_suffix t)|easy]. }
  apply risk_bind; [by apply T|]. intros [[w|] r] E.
  2: { apply risk_bind; [eapply risk_mono; [apply cat_risk|by intros o [-> | ->]|easy]|done]. }
  apply token_rest_suffix in E as Hr.
  assert (K : forall r' v', r' `suffix_of` r -> risk (old_hazard s) (special s) (old_loop fuel info r' v')).
  { intros r' v' Hr'. assert (Hs : r' `suffix_of` s) by (by etrans).
    eapply risk_mono; [apply IH|intros o; destruct o; cbn; auto; by apply long_suffix|by apply special_suffix]. }
  assert (C : forall text v' r', r' `suffix_of` r -> risk (old_hazard s) (special s) (obind (cat_select text v') (fun v => old_loop fuel info r' v))).
  { intros text v' r' Hr'. apply risk_bind; [eapply risk_mono; [apply cat_risk|by intros o [-> | ->]|easy]|]. intros v2 _. by apply K. }
  destruct (_ <=? _); [done|]. destruct (match w with [] => _ | _ => _ end); [done|]. destruct (streq _ _); [by apply C|].
  destruct (minus w) as [neg w']. destruct (Z.ltb_spec (getResEntry info w') 0) as [|He]; [done|]. destruct (item info _) as [it|] eqn:Hi; [|by destruct (entry_item w' He)].
  destruct (r_valueType it).
  - by apply C.
  - destruct neg; [done|]. destruct (next_is "=" r); [|destruct (_ =? IT); by apply C].
    apply risk_bind; [eapply risk_mono; [apply getVal_risk|intros o [-> Ho]; by apply (long_suffix r)|by apply special_suffix]|].
    intros [x r'] Ex. apply val_suffix in Ex. destruct (goodVal x); [by apply C|done].
  - destruct neg; [done|]. destruct (negb _); [done|]. apply risk_bind; [by apply T|]. intros [[u|] r'] Ex; [|done]. apply token_rest_suffix in Ex.
    destruct (negb _); [done|by apply C].
  - destruct neg; [done|by apply K].
Qed.
End Sections.

(** ** The section select *)

(** The new syntax is not certain. *)
Definition old_syntax (t : cstr) : Prop := getSyntax t <> NEW.

(** A condition in a buffer of [size] bytes. *)
Definition condition_hazard (size : Z) (t : cstr) (o : overrun) : Prop :=
  match o with
  | Word => old_syntax t /\ long t
  | Name => long_word t
  | Value => long_value t
  | Text | Select => old_syntax t \/ size < 3 * len t + 1
  | _ => False
  end.

(** The condition, and with alternatives each of them and all in one. *)
Definition conditions (xor : bool) (s : cstr) : list cstr := s :: if xor then strtok s [] ++ [join_or (strtok s [])] else [].

Definition select_hazard (xor : bool) (s : cstr) (o : overrun) : Prop :=
  match o with
  | Word => Exists (fun t => old_syntax t /\ long t) (conditions xor s)
  | Name => Exists long_word (conditions xor s)
  | Value => Exists long_value (conditions xor s)
  | Text | Select => Exists old_syntax (conditions xor s) \/ (xor = true /\ (2 <= length (strtok s []))%nat)
  | _ => False
  end.
Definition select_special (xor : bool) (s : cstr) : Prop := Exists (fun t => old_syntax t /\ special t) (conditions xor s).

Section Select.
Context (info : lsInfo) (Hok : names_ok info = true).

Lemma new_risk s v : risk (fun o => match o with Name => long_word s | Value => long_value s | Text | Select => selectStrSize v < 3 * len s + 1 | _ => False end)
  False (resToClassNew info s v).
Proof.
  apply risk_bind; [|by intros [cc sp] _]. pose proof (class_risk info Hok (S (length s)) (selectStrSize v) s EXPR) as R.
  destruct (Z.ltb_spec (selectStrSize v) (3 * len s + 1)) as [Hs|Hs]; [eapply risk_mono; [exact R|by intros []|done]|].
  pose proof (class_within info (len s) (selectStrSize v) Hok Hs (S (length s)) s EXPR ltac:(change (len EXPR) with 5; lia)) as W.
  destruct (class_new _ _ _ _ _) as [a|o| |]; try done. by destruct o.
Qed.

Lemma class_old_risk s v : risk (old_hazard s) (special s) (resToClassOld info s v).
Proof. unfold resToClassOld. destruct (blank s); [done|]. destruct (_ || _); [done|]. by apply old_risk. Qed.

Lemma old_size s m n : old_syntax s -> forall o, condition_hazard m s o -> condition_hazard n s o.
Proof. intros Ho []; cbn; tauto. Qed.

Lemma select1_risk s v : risk (condition_hazard (selectStrSize v) s) (old_syntax s /\ special s) (parseSelect1 info s v).
Proof.
  assert (O : old_syntax s -> risk (condition_hazard (selectStrSize v) s) (old_syntax s /\ special s) (resToClassOld info s v)).
  { intros H. eapply risk_mono; [apply class_old_risk|intros []; cbn; tauto|tauto]. }
  assert (N : forall w, risk (condition_hazard (selectStrSize w) s) (old_syntax s /\ special s) (resToClassNew info s w)).
  { intros w. eapply risk_mono; [apply new_risk|intros []; cbn; tauto|easy]. }
  unfold parseSelect1. destruct (getSyntax s) eqn:E.
  - apply risk_bind; [apply O; unfold old_syntax; by rewrite E|done].
  - apply risk_bind; [apply N|done].
  - assert (Ho : old_syntax s) by (unfold old_syntax; by rewrite E). apply risk_bind; [by apply O|]. intros [cc w] _. destruct (_ || _); [done|].
    apply risk_bind; [|done]. eapply risk_mono; [apply N|by apply old_size|done].
Qed.

Lemma table_long : (10 <= length (resTable info))%nat.
Proof.
  pose proof Hok as H. unfold names_ok in H. apply andb_prop in H as [_ B]. unfold builtin in B. destruct (item info SWP) as [it|] eqn:E; [|done].
  apply lookup_lt_Some in E. change (Z.to_nat SWP) with 9%nat in E. lia.
Qed.

Lemma defaults_risk opts size : exists v, setDefaults info opts size = Ok v /\ selectStrSize v = size.
Proof.
  unfold setDefaults. pose proof table_long. destruct (has opts PR_BATCH); [by eexists|]. destruct (Nat.ltb_spec (length (resTable info)) 3); [lia|by eexists].
Qed.

Lemma size_room e : 3 * len e + 1 <= SIZE e.
Proof. unfold SIZE. lia. Qed.

(** A hazard of one of the texts, in a buffer that is large enough. *)
Lemma select_from xor s t size : t ∈ conditions xor s -> 3 * len t + 1 <= size -> forall o, condition_hazard size t o -> select_hazard xor s o.
Proof.
  intros Ht Hs o. destruct o; cbn; try done.
  - intros H. apply Exists_exists. by exists t.
  - intros H. apply Exists_exists. by exists t.
  - intros H. apply Exists_exists. by exists t.
  - intros [H|H]; [|lia]. left. apply Exists_exists. by exists t.
  - intros [H|H]; [|lia]. left. apply Exists_exists. by exists t.
Qed.

Lemma xor_risk opts s es : Forall (fun e => e ∈ strtok s []) es -> risk (select_hazard true s) (select_special true s) (xor_exprs info opts es).
Proof.
  induction 1 as [|e es He _ IH]; [done|]. cbn [xor_exprs]. destruct (defaults_risk opts (SIZE e)) as (v & -> & Hv). cbn [obind].
  assert (Hc : e ∈ conditions true s) by (apply elem_of_cons; right; apply elem_of_app; by left).
  apply risk_bind.
  { eapply risk_mono; [apply select1_risk| |]; [apply select_from; [done|]; rewrite Hv; apply size_room|]. intros H. apply Exists_exists. by exists e. }
  intros [cc w] _. destruct (negb _); [done|]. apply risk_bind; [done|]. intros [cc' l] _. by destruct (negb _).
Qed.

Lemma select_risk xor opts s v : 3 * len s + 1 <= selectStrSize v -> risk (select_hazard xor s) (select_special xor s) (parseSelect info xor opts s v).
Proof.
  intros Hs. assert (One : risk (select_hazard xor s) (select_special xor s) (parseSelect1 info s v)).
  { eapply risk_mono; [apply select1_risk| |]; [by apply select_from; [left|]|]. intros H. apply Exists_exists. exists s. split; [by left|done]. }
  unfold parseSelect. destruct s as [|c s]; [done|]. set (t := c :: s) in *. destruct xor; [|done]. destruct (strtok t []) as [|e [|e' es]] eqn:E; [done|by destruct (strchr _ _)|].
  apply risk_bind; [apply xor_risk; apply Forall_forall; by rewrite E|]. intros [cc l] _. destruct (negb _); [done|].
  assert (Hj : join_or (e :: e' :: es) ∈ conditions true t) by (unfold conditions; rewrite E; apply elem_of_cons; right; apply elem_of_app; right; by left).
  eapply risk_mono; [apply select1_risk| |].
  - intros o. destruct o; cbn - [conditions join_or strtok]; try done; try (intros H; apply Exists_exists; by eexists).
    all: intros _; right; rewrite E; split; [done|]; cbn; lia.
  - intros H. apply Exists_exists. by eexists.
Qed.
End Select.

(** ** The sections are no longer than the requirement *)

(** The buffer of a requirement of [n] characters. *)
Definition ended (n : nat) (buf : cstr) : Prop := length buf = S n /\ buf !! n = Some NUL.

Lemma before_bound (l : cstr) k c : l !! k = Some c -> (length (before c l) <= k)%nat.
Proof.
  revert k. induction l as [|x l IH]; intros k; [done|]. cbn. destruct (Ascii.eqb_spec x c) as [->|Hx]; [cbn; lia|].
  destruct k as [|k]; [by intros [= ->]|]. intros H. cbn. specialize (IH k H). lia.
Qed.

Lemma text_bound n buf start : ended n buf -> (start <= n)%nat -> (start + length (text_at buf start) <= n)%nat.
Proof.
  intros [_ H] Hs. pose proof (before_bound (drop start buf) (n - start) NUL) as B. rewrite lookup_drop in B.
  replace (start + (n - start))%nat with n in B by lia. unfold text_at. specialize (B H). lia.
Qed.

Lemma text_short n buf start : ended n buf -> (length (text_at buf start) <= n)%nat.
Proof.
  intros H. destruct (Nat.le_gt_cases start n) as [Hs|Hs]; [pose proof (text_bound n buf start H Hs); lia|].
  unfold text_at. rewrite drop_ge; [cbn; lia|]. destruct H as [-> _]. lia.
Qed.

Lemma nul_ended n buf i : ended n buf -> ended n (<[i := NUL]> buf).
Proof.
  intros [H1 H2]. split; [by rewrite length_insert|]. destruct (decide (i = n)) as [->|Hi]; [by rewrite list_lookup_insert_eq by lia|by rewrite list_lookup_insert_ne].
Qed.

Lemma trim_ended n buf start : ended n buf -> ended n (trim_at buf start).
Proof.
  intros H. unfold trim_at. set (s := text_at buf start). assert (T : (trailing s <= length s)%nat).
  { clear. induction s as [|c s IH]; [done|]. cbn [trailing]. destruct (blank (c :: s)); cbn in *; lia. }
  destruct (Nat.le_gt_cases start n) as [Hs|Hs].
  - pose proof (text_bound n buf start H Hs) as B. fold s in B. destruct H as [H1 H2]. split.
    + rewrite !length_app, length_take, repeat_length, length_drop. lia.
    + assert (Hl : length (take (start + (length s - trailing s)) buf) = (start + (length s - trailing s))%nat) by (rewrite length_take; lia).
      rewrite lookup_app_r by lia. rewrite Hl, lookup_app_r by (rewrite repeat_length; lia). rewrite repeat_length, lookup_drop. rewrite <- H2. f_equal. lia.
  - destruct H as [H1 H2]. assert (s = []) as -> by (unfold s, text_at; by rewrite drop_ge by lia). cbn [length trailing repeat]. rewrite take_ge, drop_ge by lia. cbn. by rewrite app_nil_r.
Qed.

Lemma cut_ended n kps : forall buf qs buf', ended n buf -> cut_sections kps buf = Some (qs, buf') -> ended n buf'.
Proof.
  induction kps as [|[kw p] kps IH]; intros buf qs buf' H; cbn [cut_sections]; [by intros [= _ <-]|].
  destruct (cut_section kw p buf) as [[q b]|] eqn:E; [|done]. destruct (cut_sections kps b) as [[qs' b']|] eqn:E'; [|done]. intros [= _ <-].
  eapply IH; [|exact E']. unfold cut_section in E. destruct p as [p|]; [|by injection E as _ <-]. cbn zeta in E. repeat case_match; try discriminate. injection E as _ <-. by repeat apply nul_ended.
Qed.

Lemma sections_short s q : parseSection s = Some q -> len (s_select q) <= len s.
Proof.
  unfold parseSection. cbn zeta. destruct (cut_sections _ _) as [[qs buf]|] eqn:E; [|done].
  assert (H0 : ended (length s) (s ++ [NUL])) by (split; [rewrite length_app; cbn; lia|by rewrite lookup_app_r, Nat.sub_diag]).
  pose proof (cut_ended _ _ _ _ _ H0 E) as H1. set (starts := match qs with [] => _ | _ => _ end). clearbody starts.
  assert (H2 : ended (length s) (fold_left trim_at starts buf)).
  { clear E. revert buf H1. induction starts as [|st l IH]; intros buf H1; [done|]. cbn. by apply IH, trim_ended. }
  destruct starts as [|st [|st2 [|st3 [|st4 [|st5 [|]]]]]]; try done. intros [= <-]. cbn [s_select]. unfold len.
  match goal with |- Z.of_nat (length (text_at ?b ?t)) <= _ => pose proof (text_short _ b t H2) end. lia.
Qed.

(** ** The whole requirement *)

(** What a requirement with the sections [q] has to contain to have no outcome. *)
Definition hazard (info : lsInfo) (xor : bool) (q : sections) (o : overrun) : Prop :=
  match o with
  | Word => Exists long [s_order q; s_rusage q; s_filter q; s_span q] \/ select_hazard xor (s_select q) Word
  | Order => NBUILTINDEX <= seps (s_order q)
  | Indicies => numIndx info <= seps (s_filter q)
  | Conversion => infix (cs "duration="%string) (s_rusage q)
  | NullToken => cs "duration="%string `suffix_of` s_rusage q
  | o => select_hazard xor (s_select q) o
  end.
Definition unmodelled (xor : bool) (q : sections) : Prop := special (s_rusage q) \/ select_special xor (s_select q).

Section Whole.
Context (info : lsInfo) (Hok : names_ok info = true) (xor : bool) (q : sections).
Abbreviation safe := (risk (hazard info xor q) (unmodelled xor q)).

Lemma long_hazard s : s ∈ [s_order q; s_rusage q; s_filter q; s_span q] -> long s -> hazard info xor q Word.
Proof. intros Hs Hl. left. apply Exists_exists. by exists s. Qed.

Lemma parse_order_risk v : safe (parseOrder info (s_order q) v).
Proof.
  unfold parseOrder. destruct (blank _); [done|]. eapply risk_mono; [by apply order_risk| |easy].
  intros o [[-> Ho]|[-> Ho]]; [eapply long_hazard; [|done]; by left|]. cbn in *. pose proof (words_seps (s_order q)). lia.
Qed.
Lemma parse_filter_risk v : safe (parseFilter info (s_filter q) v).
Proof.
  unfold parseFilter. destruct (blank _); [done|]. eapply risk_mono; [by apply filter_risk| |easy].
  intros o [[-> Ho]|[-> Ho]]; [eapply long_hazard; [|done]; do 2 right; by left|]. cbn in *. pose proof (words_seps (s_filter q)). lia.
Qed.
Lemma parse_usage_risk v : safe (parseUsage info (s_rusage q) v).
Proof.
  unfold parseUsage. destruct (blank _); [done|]. eapply risk_mono; [by apply usage_risk| |by left].
  intros o Ho. destruct o; try done. eapply long_hazard; [|done]. right. by left.
Qed.
Lemma parse_span_risk v : safe (parseSpan (s_span q) v).
Proof.
  unfold parseSpan. destruct (blank _); [done|]. eapply risk_mono; [apply span_risk| |easy].
  intros o [-> Ho]. eapply long_hazard; [|done]. do 3 right. by left.
Qed.
Lemma parse_select_risk opts v : 3 * len (s_select q) + 1 <= selectStrSize v -> safe (parseSelect info xor opts (s_select q) v).
Proof.
  intros Hv. eapply risk_mono; [by apply select_risk| |by right]. intros o Ho. destruct o; try done. by right.
Qed.

Lemma section_risk wanted parse x : (forall v, safe (parse v)) -> safe (section wanted parse x).
Proof. intros H. unfold section. by destruct (_ && _). Qed.
End Whole.

Lemma parse_risk info s opts v : names_ok info = true ->
  risk (fun o => exists q, parseSection s = Some q /\ hazard info (has opts PR_XOR) q o)
    (exists q, parseSection s = Some q /\ unmodelled (has opts PR_XOR) q) (parseResReq info s opts v).
Proof.
  intros Hok. unfold parseResReq. destruct (parseSection s) as [q|] eqn:Eq; [|done].
  assert (R : risk (hazard info (has opts PR_XOR) q) (unmodelled (has opts PR_XOR) q) (parseResReq info s opts v)).
  { unfold parseResReq. rewrite Eq. destruct (defaults_risk info Hok opts (SIZE s)) as (d & -> & Hd). cbn [obind].
    apply risk_bind.
    { unfold section. cbn [fst snd]. destruct (_ && _); [|done]. apply parse_select_risk; [done|]. rewrite Hd. pose proof (size_room s). pose proof (sections_short s q Eq). lia. }
    intros x1 _. apply risk_bind; [apply section_risk; intros w; by apply parse_order_risk|]. intros x2 _. apply risk_bind; [apply section_risk; intros w; by apply parse_usage_risk|].
    intros x3 _. apply risk_bind; [apply section_risk; intros w; by apply parse_filter_risk|]. intros x4 _. apply section_risk. intros w. apply parse_span_risk. }
  unfold parseResReq in R. rewrite Eq in R. eapply risk_mono; [exact R|by exists q|by exists q].
Qed.
