(* ===== verification/ResReqTheorems.v ===== *)
(** * Resource requirements: theorems

    What [parseResReq] makes of a requirement, the state it leaves for every text, the room
    for the expression, and the arrays that are overrun. *)
From Stdlib Require Import ZArith Ascii String Lia.
From stdpp Require Import base gmap list.
From Corelib Require Import SpecFloat.
From S2P Require Import Prelude CNum JobArray ResReq ResReqSect ResReqParse ResReqSelect ResReqRoom ResReqMeaning ResReqInv ResReqRisk.
Local Open Scope Z_scope.

(** The four sections of a requirement are asked for. *)
Definition asked (opts : Z) : bool := has opts PR_SELECT && has opts PR_ORDER && has opts PR_RUSAGE && has opts PR_SPAN.

(** C13: [parseResReq] reads the text of a requirement, with its sections in any order and the
    condition inside or in front of them: the condition, or each of its alternatives, becomes the Tcl
    expression that is its translation, the names of the order their signed positions, the usage
    the bits, values, decay and seconds it stands for, and the span the numbers of hosts; what is
    not written keeps its default. *)
Theorem requirement_roundtrip info opts r inline ps d v :
  requirement_ok info opts r = true -> ps ≡ₚ pieces inline r -> asked opts = true ->
  let text := print_sections (lead inline r) ps in
  setDefaults info opts (SIZE text) = Ok d -> parseResReq info text opts v = Ok (PARSE_OK, meaning info r d).
Proof.
  intros Hr Hp Ho text Hd. unfold asked in Ho. apply andb_prop in Ho as [[[O1 O2]%andb_prop O3]%andb_prop O4]. subst text.
  rewrite (requirement_read info opts r inline ps v Hr Hp O1 O2 O3 O4), Hd. reflexivity.
Qed.

(** C15: What the parser does with every requirement, for a table whose names have two to thirty
    characters and that has the built-in indices.  It never runs out of fuel.  When it accepts the
    requirement, the order has at most [NBUILTINDEX] entries, each a position of the table of
    resources, the values and bit maps have the sizes of the table, the indices are no more than
    their array holds, duration and numbers of hosts are not negative, and the expression ends
    inside its buffer.  A requirement without an answer, that is one for which the code writes
    behind an array, converts a number that does not fit or reads through NULL, or one with a
    number that is not modelled, contains what [hazard] or [unmodelled] says: a section of a line or
    more, eleven separators in the order or as many as there are indices in the filter, a word of
    38 or a value of 40 characters in the condition, the old syntax or alternatives, a duration, a
    number with an exponent or the like.  All other requirements are answered. *)
Theorem requirement_wf info s opts v : names_ok info = true ->
  match parseResReq info s opts v with
  | Ok (cc, w) => cc = PARSE_OK -> wf info w
  | Crash o => exists q, parseSection s = Some q /\ hazard info (has opts PR_XOR) q o
  | Unmodelled => exists q, parseSection s = Some q /\ unmodelled (has opts PR_XOR) q
  | OutOfFuel => False
  end.
Proof.
  intros Hok. pose proof (parse_risk info s opts v Hok) as R. pose proof (table_long info Hok) as Hn.
  pose proof (parse_good info opts s v ltac:(unfold nRes; lia)) as G. destruct (parseResReq info s opts v) as [[cc w]|o| |] eqn:E; [|exact R|exact R|exact G].
  intros ->. destruct G as [G|G]; [|exact G]. unfold parseResReq in E. now rewrite G in E.
Qed.

(** C14: In the new syntax no condition, however long, overruns the buffer of the expression or the
    buffer of its parts, when it is not longer than the requirement whose length gave the buffer
    its size, and when the names of the resources have two to thirty characters: the buffer has
    room for three characters for each one of the requirement, and the test at the start of each
    term leaves room for the short ones.  The translation ends, and can only overrun the arrays for
    a name and for a value: the first when the condition has a word of at least 38 characters, the
    second when it has a value of at least 40. *)
Theorem new_select_fits info resReq s v : names_ok info = true -> len s <= len resReq -> selectStrSize v = SIZE resReq ->
  match resToClassNew info s v with
  | Ok (cc, w) => len (selectStr w) < selectStrSize v
  | Crash Name => long_word s
  | Crash Value => long_value s
  | _ => False
  end.
Proof.
  intros Hn Hl Hs. pose proof (new_risk info Hn s v) as R. pose proof (size_room resReq) as Hr.
  assert (G : good (fun '(_, sp) => len sp < selectStrSize v) (class_new (S (length s)) info (selectStrSize v) s EXPR)).
  { apply class_good; [|lia]. rewrite Hs. unfold SIZE. change (len EXPR) with 5. unfold MAXLINELEN, MAXLSFNAMELEN. lia. }
  unfold resToClassNew in *. destruct (class_new _ _ _ _ _) as [[cc sp]|o| |]; cbn [obind risk] in *; [|destruct o; try exact R; lia|exact R|exact G].
  destruct (cc =? PARSE_OK); exact G.
Qed.

(** C38: A requirement with more than [NBUILTINDEX] names to order by makes [parseOrder] write behind
    the end of [order], since it compares the number of names after the limit is reached. *)
Theorem order_overruns info xs v : Forall (fun x => order_ok info x = true) xs -> (Z.to_nat NBUILTINDEX < length xs)%nat ->
  len (items (map order_text xs)) < MAXLINELEN -> parseOrder info (items (map order_text xs)) v = Crash Order.
Proof.
  intros H Hn Hl. apply order_ok_spec in H as (H1 & H2 & _). assert (Hx : xs <> []) by (intros ->; cbn in Hn; lia).
  rewrite (parse_order info xs _ v Hx H1 H2 Hl).
  destruct (Nat.leb_spec (length xs) (Z.to_nat NBUILTINDEX)); [lia|reflexivity].
Qed.

(** ** Other texts that have no outcome *)

Lemma token_overruns s : MAXLINELEN < len s -> getNextToken s = Crash Word.
Proof.
  intros H. unfold getNextToken. destruct s as [|c s]; [cbn in H; discriminate|]. rewrite len_cons in H. destruct (_ || _).
  - destruct s as [|c' s]; [change (len []) with 0 in H; unfold MAXLINELEN in H; lia|]. destruct (Z.leb_spec MAXLINELEN (len (c' :: s))); [reflexivity|lia].
  - rewrite len_cons. destruct (Z.leb_spec MAXLINELEN (len s + 1)); [reflexivity|lia].
Qed.

(** A section of more than [MAXLINELEN] characters is copied to the word of [getNextToken]. *)
Theorem long_section_overruns info s v : MAXLINELEN < len s -> blank s = false ->
  parseOrder info s v = Crash Word /\ parseUsage info s v = Crash Word /\ parseFilter info s v = Crash Word /\ parseSpan s v = Crash Word.
Proof. intros H B. unfold parseOrder, parseUsage, parseFilter, parseSpan. rewrite B. cbn. now rewrite token_overruns. Qed.

(** ** A cluster *)

Definition index (n : string) (o : orderType) : resItem := mkItem (cs n) LS_NUMERIC o 0x03.
Definition cluster : lsInfo :=
  mkInfo [index "r15s" INCR; index "r1m" INCR; index "r15m" INCR; index "ut" INCR; index "pg" INCR; index "io" INCR; index "ls" INCR; index "it" DECR;
          index "tmp" DECR; index "swp" DECR; index "mem" DECR; mkItem (cs "ncpus") LS_NUMERIC DECR 0x01; mkItem (cs "type") LS_STRING NA 0x01;
          mkItem (cs "linux") LS_BOOLEAN NA 0x01]%string [cs "X86_64"]%string [cs "PC"]%string 11.
Definition nothing : resVal := mkVal [] 0 [] 0 [] [] [] 0 (S754_zero false) 0 0 0 0 [].
Definition PR_ALL : Z := 0x47.

(** [select[type=='any' && mem > 50,linux && defined(mem)] order[-mem:r15s] rusage[mem=20:duration=2h] span[hosts=1,4]] *)
Definition example : requirement :=
  mkReq [[Compare (cs "type") Eq (cs "any"); Copy (cs "&&"); Named (cs "mem"); Copy (cs ">"); Copy (cs "50")]; [Named (cs "linux"); Copy (cs "&&"); Defined (cs "mem")]]%string
    [(true, cs "mem"); (false, cs "r15s")]%string [Use (cs "mem") (Some (20, 0%nat)); UseFor 2 (Some "h"%char)]%string [Hosts 1 (Some 4)].

Lemma requirement_roundtrip_witness : exists d, parseResReq cluster (print_sections [] (pieces false example)) (Z.lor PR_ALL PR_XOR) nothing = Ok (PARSE_OK, meaning cluster example d)
  /\ duration (meaning cluster example d) = 7200 /\ order (meaning cluster example d) = [-11; 1]
  /\ selectStr (meaning cluster example d) = cs "expr ([type "%string ++ [QT] ++ cs "eq"%string ++ [QT; SP; QT] ++ cs "any"%string ++ [QT] ++ cs "]&&mem()>50)||(linux()&&[defined "%string ++ [QT] ++ cs "mem"%string ++ [QT] ++ cs " ])"%string.
Proof.
  destruct (setDefaults cluster (Z.lor PR_ALL PR_XOR) (SIZE (print_sections [] (pieces false example)))) as [d| | |] eqn:E; [|vm_compute in E; discriminate E..]. exists d.
  split; [|split; [|split]; vm_compute; vm_compute in E; injection E as <-; reflexivity].
  apply (requirement_roundtrip cluster (Z.lor PR_ALL PR_XOR) example false (pieces false example) d nothing); [vm_compute; reflexivity|reflexivity|reflexivity|exact E].
Defined.

Lemma requirement_wf_witness :
  match parseResReq cluster (cs "mem=20:linux:order[r15s] span[ptile=2]"%string) PR_ALL nothing with Ok (cc, w) => cc = PARSE_OK /\ wf cluster w | _ => False end.
Proof.
  pose proof (requirement_wf cluster (cs "mem=20:linux:order[r15s] span[ptile=2]"%string) PR_ALL nothing eq_refl) as W.
  assert (E : match parseResReq cluster (cs "mem=20:linux:order[r15s] span[ptile=2]"%string) PR_ALL nothing with Ok (cc, _) => cc =? PARSE_OK | _ => false end = true)
    by (vm_compute; reflexivity).
  destruct (parseResReq cluster _ PR_ALL nothing) as [[cc w]| | |]; try discriminate E. apply Z.eqb_eq in E. auto.
Defined.

Lemma new_select_fits_witness : let s := cs "type == any && d(mem)"%string in let v := mkVal [] (SIZE s) [] 0 [] [] [] 0 (S754_zero false) 0 0 0 0 [] in
  match resToClassNew cluster s v with Ok (cc, w) => len (selectStr w) < SIZE s | Crash Name => long_word s | Crash Value => long_value s | _ => False end.
Proof. intros s v. apply (new_select_fits cluster s s v); [vm_compute; reflexivity|lia|reflexivity]. Defined.

Lemma order_overruns_witness : parseOrder cluster (items (map order_text (repeat (false, cs "r15s"%string) 12))) nothing = Crash Order.
Proof.
  apply (order_overruns cluster (repeat (false, cs "r15s"%string) 12) nothing); [|vm_compute; lia|vm_compute; reflexivity].
  apply forallb_all. vm_compute. reflexivity.
Defined.

(** In the old syntax a number can be printed with more characters than were read: the
    expression overruns its buffer. *)
Theorem old_select_overruns : exists s, (length s < 100)%nat /\ names_ok cluster = true /\ parseResReq cluster s PR_ALL nothing = Crash Select.
Proof.
  exists (items (repeat (cs "-"%string) 25) ++ cs ":mem="%string ++ repeat "9"%char 38). split; [vm_compute; lia|]. split; vm_compute; reflexivity.
Qed.

(** The buffer has no room for the brackets around many alternatives: with these, in the new
    syntax, the last one overruns it. *)
Definition places : lsInfo := mkInfo (resTable cluster ++ [mkItem (cs "location"%string) LS_STRING NA 0x01]) (hostTypes cluster) (hostModels cluster) (numIndx cluster).
Theorem alternatives_overrun : exists s, (length s < 700)%nat /\ names_ok places = true /\ getSyntax s = NEW
  /\ parseResReq places s (Z.lor PR_ALL PR_XOR) nothing = Crash Select.
Proof.
  exists (concat (repeat (cs "d(ls),"%string) 95) ++ cs "location=='"%string ++ repeat "x"%char 39 ++ cs "'"%string). split; [vm_compute; lia|].
  repeat split; vm_compute; reflexivity.
Qed.

(** A value in quotes of 40 characters writes behind the end of [val], a name of 40 letters
    behind that of [res]; an empty duration reads through NULL. *)
Theorem value_overruns : parseResReq cluster (cs "select[type=='"%string ++ repeat "x"%char 40 ++ cs "']"%string) PR_ALL nothing = Crash Value.
Proof. vm_compute. reflexivity. Qed.
Theorem name_overruns : parseResReq cluster (cs "select[1 && "%string ++ repeat "x"%char 40 ++ cs "]"%string) PR_ALL nothing = Crash Name.
Proof. vm_compute. reflexivity. Qed.
Theorem empty_duration : parseResReq cluster (cs "rusage[mem=5:duration=]"%string) PR_ALL nothing = Crash NullToken.
Proof. vm_compute. reflexivity. Qed.

(** Every word that [defined] begins with is taken for it. *)
Theorem defined_abbreviated : match parseResReq cluster (cs "1 && d(mem)"%string) PR_ALL nothing with
  | Ok (cc, w) => cc = PARSE_OK /\ selectStr w = EXPR ++ cs "1&&"%string ++ defined_text (cs "mem"%string) | _ => False end.
Proof. vm_compute. auto. Qed.
