(* ===== verification/JGroup.v ===== *)
(** * The tree of jobs and job groups (lsbatch/daemons/mbd.jgrp.c, mbd.jarray.c)

    All jobs hang below the root of a tree whose nodes are groups, arrays and single
    jobs; the elements of an array are linked by [nextJob] behind the record of the
    array.  Groups and arrays count the jobs below them by state, and conditions
    such as [numdone(5, >3)] read these counts.  The daemon walks over the tree to
    see which pending jobs have their conditions fulfilled; the walk may stop in
    the middle and goes on at the same node when it is called again, so an observer
    moves this position when a part of the tree is removed.

    Nodes, records of jobs and the structs [jgrpData] and [jarray] are kept in
    heaps.  Reference counts are not modelled: a record that is freed becomes void
    ([JOB_STAT_VOID], [JGRP_VOID]), as it does in the code when there are
    references to it.  The files that print the tree are left out. *)
From stdpp Require Import base gmap.
From Stdlib Require Import ZArith Ascii String List Bool Lia.
From S2P Require Import Prelude JobId CNum Words ListSet JobArray Window DepToken DepCond.
Import ListNotations.
Local Open Scope Z_scope.

(** ** Data *)

Definition JOB_STAT_NULL : Z := 0.
Definition JOB_STAT_RUN : Z := 0x04.
Definition JOB_STAT_SSUSP : Z := 0x08.
Definition JOB_STAT_USUSP : Z := 0x10.
Definition JOB_STAT_WAIT : Z := 0x200.
Definition JOB_STAT_UNKWN : Z := 0x10000.
Definition MASK_INT_JOB_STAT : Z := 0x000FFFFF.
Definition JGRP_COUNT_NSSUSP : nat := 4.
Definition JGRP_COUNT_NUSUSP : nat := 5.
Definition NUM_JGRP_COUNTERS : nat := 8.
Definition JGRP_UNDEFINED : Z := -1.
Definition JGRP_ACTIVE : Z := 1.
Definition JFLAG_DEPCOND_INVALID : Z := 0x004.
Definition JFLAG_DEPCOND_REJECT : Z := 0x8000.
Definition JFLAG_READY1 : Z := 0x100000.
Definition JFLAG_READY2 : Z := 0x200000.
Definition JFLAG_WAIT_SWITCH : Z := 0x80000000.
Definition PEND_JOB_NEW : Z := 1.
Definition PEND_JOB_DEPEND : Z := 3.
Definition PEND_JOB_DEP_INVALID : Z := 4.
Definition PEND_JOB_SWITCH : Z := 14.
Definition PEND_JOB_DEP_REJECT : Z := 15.
Definition PEND_USER_STOP : Z := 607.
Definition SUB_JOB_NAME : Z := 0x01.
Definition SUB2_HOLD : Z := 0x01.

(** [ndInfo] with the type of the node: a job, or the struct with the counts of a
    group or an array, and the record of the array. *)
Inductive nodeInfo := JobInfo (job : option Z) | GroupInfo (base : Z) | ArrayInfo (base : Z) (jobArray : option Z).

Record jgTreeNode := mkNode {
  parent : option Z; child : option Z; n_left : option Z; n_right : option Z; name : cstr; ndInfo : nodeInfo }.

(** A record of a job: what conditions use of it, and the fields of this file. *)
Record jobRec := mkRec {
  core : jData; newReason : Z; jgrpNode : option Z; dptRoot : option Z;
  options : Z; options2 : Z; command : cstr }.

(** [entry] is [treeObserverDep->entry]; [fresh] is a number that no object has. *)
Record jtree := mkTree {
  nodes : gmap Z jgTreeNode; recs : gmap Z jobRec; bases : gmap Z jgArrayBase; ids : gmap Z Z;
  groupRoot : Z; entry : option Z; fresh : Z }.

Definition set_parent (p : option Z) n : jgTreeNode := mkNode p (child n) (n_left n) (n_right n) (name n) (ndInfo n).
Definition set_child (p : option Z) n : jgTreeNode := mkNode (parent n) p (n_left n) (n_right n) (name n) (ndInfo n).
Definition set_left (p : option Z) n : jgTreeNode := mkNode (parent n) (child n) p (n_right n) (name n) (ndInfo n).
Definition set_right (p : option Z) n : jgTreeNode := mkNode (parent n) (child n) (n_left n) p (name n) (ndInfo n).
Definition set_info (i : nodeInfo) n : jgTreeNode := mkNode (parent n) (child n) (n_left n) (n_right n) (name n) i.
Definition set_name (s : cstr) n : jgTreeNode := mkNode (parent n) (child n) (n_left n) (n_right n) s (ndInfo n).

Definition set_jStatus (s : Z) j : jData :=
  mkJob (jobId j) s (jFlags j) (startTime j) (endTime j) (exitStatus j) (nodeType j) (nextJob j) (uPtr j) (jobName j) (submitTime j) (array j).
Definition set_jFlags (f : Z) j : jData :=
  mkJob (jobId j) (jStatus j) f (startTime j) (endTime j) (exitStatus j) (nodeType j) (nextJob j) (uPtr j) (jobName j) (submitTime j) (array j).
Definition set_nextJob (r : option Z) j : jData :=
  mkJob (jobId j) (jStatus j) (jFlags j) (startTime j) (endTime j) (exitStatus j) (nodeType j) r (uPtr j) (jobName j) (submitTime j) (array j).
Definition set_kind (k : nodeKind) j : jData :=
  mkJob (jobId j) (jStatus j) (jFlags j) (startTime j) (endTime j) (exitStatus j) k (nextJob j) (uPtr j) (jobName j) (submitTime j) (array j).
Definition set_jobId (i : Z) j : jData :=
  mkJob i (jStatus j) (jFlags j) (startTime j) (endTime j) (exitStatus j) (nodeType j) (nextJob j) (uPtr j) (jobName j) (submitTime j) (array j).
Definition set_array (a : option Z) j : jData :=
  mkJob (jobId j) (jStatus j) (jFlags j) (startTime j) (endTime j) (exitStatus j) (nodeType j) (nextJob j) (uPtr j) (jobName j) (submitTime j) a.

Definition on_core (f : jData -> jData) r : jobRec := mkRec (f (core r)) (newReason r) (jgrpNode r) (dptRoot r) (options r) (options2 r) (command r).
Definition set_newReason (x : Z) r : jobRec := mkRec (core r) x (jgrpNode r) (dptRoot r) (options r) (options2 r) (command r).
Definition set_jgrpNode (p : option Z) r : jobRec := mkRec (core r) (newReason r) p (dptRoot r) (options r) (options2 r) (command r).

Definition set_nodes h t : jtree := mkTree h (recs t) (bases t) (ids t) (groupRoot t) (entry t) (fresh t).
Definition set_recs m t : jtree := mkTree (nodes t) m (bases t) (ids t) (groupRoot t) (entry t) (fresh t).
Definition set_bases m t : jtree := mkTree (nodes t) (recs t) m (ids t) (groupRoot t) (entry t) (fresh t).
Definition set_ids m t : jtree := mkTree (nodes t) (recs t) (bases t) m (groupRoot t) (entry t) (fresh t).
Definition set_entry e t : jtree := mkTree (nodes t) (recs t) (bases t) (ids t) (groupRoot t) e (fresh t).

(** Access through a pointer. *)
Definition node_at (h : gmap Z jgTreeNode) (p : Z) : res jgTreeNode := deref (h !! p).
Definition rec_at (t : jtree) (r : Z) : res jobRec := deref (recs t !! r).
Definition on_node (p : Z) (f : jgTreeNode -> jgTreeNode) (h : gmap Z jgTreeNode) : res (gmap Z jgTreeNode) :=
  n ← node_at h p; Ok (<[p := f n]> h).
Definition on_rec (r : Z) (f : jobRec -> jobRec) (t : jtree) : res jtree :=
  j ← rec_at t r; Ok (set_recs (<[r := f j]> (recs t)) t).

(** Loops over the nodes visit a node at most once. *)
Definition walk_fuel {A} (h : gmap Z A) : nat := S (base.size h).

(** ** Walking *)

(** The right neighbour of the nearest ancestor that has one. *)
Fixpoint climb (fuel : nat) (h : gmap Z jgTreeNode) (p : option Z) : res (option Z) :=
  match p, fuel with
  | None, _ => Ok None
  | Some _, O => OutOfFuel
  | Some p, S f =>
      n ← node_at h p;
      match n_right n with Some r => Ok (Some r) | None => climb f h (parent n) end
  end.

Definition treeLexNext (h : gmap Z jgTreeNode) (node : option Z) : res (option Z) :=
  match node with
  | None => Ok None
  | Some p =>
      n ← node_at h p;
      match child n, n_right n with
      | Some c, _ => Ok (Some c)
      | None, Some r => Ok (Some r)
      | None, None => climb (walk_fuel h) h (parent n)
      end
  end.

Definition treeNextSib (h : gmap Z jgTreeNode) (node : option Z) : res (option Z) :=
  match node with
  | None => Ok None
  | Some p =>
      n ← node_at h p;
      match n_right n with Some r => Ok (Some r) | None => climb (walk_fuel h) h (parent n) end
  end.

Fixpoint is_above (fuel : nat) (h : gmap Z jgTreeNode) (x : Z) (ndPtr : option Z) : res bool :=
  match ndPtr, fuel with
  | None, _ => Ok false
  | Some _, O => OutOfFuel
  | Some p, S f => if p =? x then Ok true else n ← node_at h p; is_above f h x (parent n)
  end.

Definition isAncestor (h : gmap Z jgTreeNode) (x y : option Z) : res bool :=
  match x, y with
  | Some x, Some y => n ← node_at h y; is_above (walk_fuel h) h x (parent n)
  | _, _ => Ok false
  end.

(** The first node of a row of siblings that passes a test. *)
Fixpoint find_right (fuel : nat) (h : gmap Z jgTreeNode) (test : Z -> jgTreeNode -> bool) (nPtr : option Z) : res (option Z) :=
  match nPtr, fuel with
  | None, _ => Ok None
  | Some _, O => OutOfFuel
  | Some p, S f => n ← node_at h p; if test p n then Ok (Some p) else find_right f h test (n_right n)
  end.

Definition isChild (h : gmap Z jgTreeNode) (x y : option Z) : res bool :=
  match x, y with
  | Some x, Some y =>
      n ← node_at h x;
      r ← find_right (walk_fuel h) h (fun p _ => p =? y) (child n);
      Ok (match r with Some _ => true | None => false end)
  | _, _ => Ok false
  end.

Definition findTreeNode (h : gmap Z jgTreeNode) (node : option Z) (nm : cstr) : res (option Z) :=
  find_right (walk_fuel h) h (fun _ n => streq nm (name n)) node.

(** ** Counts *)

Definition MASK_STATUS (s : Z) : Z := Z.land s MASK_INT_JOB_STAT.
Definition SET_STATE (s n : Z) : Z := Z.lor (Z.ldiff s MASK_INT_JOB_STAT) n.

Definition getIndexOfJStatus (s : Z) : nat :=
  let m := MASK_STATUS (Z.ldiff (Z.ldiff (Z.ldiff s JOB_STAT_UNKWN) JOB_STAT_PDONE) JOB_STAT_PERR) in
  if (m =? JOB_STAT_PEND) || (m =? Z.lor JOB_STAT_RUN JOB_STAT_WAIT) then JGRP_COUNT_PEND
  else if m =? JOB_STAT_PSUSP then JGRP_COUNT_NPSUSP
  else if m =? JOB_STAT_RUN then JGRP_COUNT_NRUN
  else if m =? JOB_STAT_SSUSP then JGRP_COUNT_NSSUSP
  else if m =? JOB_STAT_USUSP then JGRP_COUNT_NUSUSP
  else if (m =? JOB_STAT_EXIT) || (m =? Z.lor JOB_STAT_EXIT JOB_STAT_WAIT) then JGRP_COUNT_NEXIT
  else if (m =? JOB_STAT_DONE) || (m =? Z.lor JOB_STAT_DONE JOB_STAT_WAIT) then JGRP_COUNT_NDONE
  else 8%nat.

(** [counts[i] += d] *)
Definition count_add (i : nat) (d : Z) (c : list Z) : list Z := <[i := wrap32 (nth i c 0 + d)]> c.

Definition count_status (oldStatus newStatus : Z) (c : list Z) : list Z :=
  let c := if oldStatus =? JOB_STAT_NULL then c
           else count_add JGRP_COUNT_NJOBS (-1) (count_add (getIndexOfJStatus oldStatus) (-1) c) in
  if newStatus =? JOB_STAT_NULL then c
  else count_add JGRP_COUNT_NJOBS 1 (count_add (getIndexOfJStatus newStatus) 1 c).

Definition base_of (i : nodeInfo) : option Z :=
  match i with JobInfo _ => None | GroupInfo b | ArrayInfo b _ => Some b end.

(** The counts of the struct [b] are changed. *)
Definition on_counts (f : list Z -> list Z) (b : Z) (t : jtree) : res jtree :=
  a ← deref (bases t !! b); Ok (set_bases (<[b := mkArray (status a) (f (counts a))]> (bases t)) t).

Fixpoint count_up (fuel : nat) (f : list Z -> list Z) (gPtr : option Z) (t : jtree) : res jtree :=
  match gPtr, fuel with
  | None, _ => Ok t
  | Some _, O => OutOfFuel
  | Some p, S fu =>
      n ← node_at (nodes t) p;
      t ← match base_of (ndInfo n) with Some b => on_counts f b t | None => Ok t end;
      count_up fu f (parent n) t
  end.

Definition updJgrpCountByJStatus (t : jtree) (job : Z) (oldStatus newStatus : Z) : res jtree :=
  j ← rec_at t job; count_up (walk_fuel (nodes t)) (count_status oldStatus newStatus) (jgrpNode j) t.

(** The first eight counts of [c'] times [factor] are added to [c]. *)
Definition count_all (factor : Z) (c' : list Z) (c : list Z) : list Z :=
  fold_left (fun c i => count_add i (factor * nth i c' 0) c) (seq 0 NUM_JGRP_COUNTERS) c.

(** Every ancestor is taken for a group or an array. *)
Fixpoint op_up (fuel : nat) (factor : Z) (b : Z) (gPtr : option Z) (t : jtree) : res jtree :=
  match gPtr, fuel with
  | None, _ => Ok t
  | Some _, O => OutOfFuel
  | Some p, S fu =>
      n ← node_at (nodes t) p;
      a ← deref (bases t !! b);
      b' ← deref (base_of (ndInfo n));
      t ← on_counts (count_all factor (counts a)) b' t;
      op_up fu factor b (parent n) t
  end.

Definition updJgrpCountByOp (t : jtree) (jgrp : Z) (factor : Z) : res jtree :=
  n ← node_at (nodes t) jgrp;
  match base_of (ndInfo n) with
  | Some b => op_up (walk_fuel (nodes t)) factor b (parent n) t
  | None => Ok t
  end.

(** The counts when a node is attached ([factor] 1) or removed (-1). *)
Definition count_node (t : jtree) (c : Z) (factor : Z) : res jtree :=
  n ← node_at (nodes t) c;
  match ndInfo n with
  | JobInfo j =>
      r ← deref j;
      jr ← rec_at t r;
      let s := jStatus (core jr) in
      if factor =? 1 then updJgrpCountByJStatus t r JOB_STAT_NULL s else updJgrpCountByJStatus t r s JOB_STAT_NULL
  | _ => updJgrpCountByOp t c factor
  end.

(** ** Observers *)

Inductive treeEventType := TREE_EVENT_ADD | TREE_EVENT_CLIP | TREE_EVENT_CTRL | TREE_EVENT_NULL.

Definition treeObserverEvalDep (t : jtree) (operand : Z) (eventType : treeEventType) : res jtree :=
  let affected :=
    match entry t with
    | Some e => if e =? operand then Ok true else isAncestor (nodes t) (Some operand) (Some e)
    | None => Ok false
    end in
  match eventType with
  | TREE_EVENT_ADD | TREE_EVENT_NULL => Ok t
  | TREE_EVENT_CLIP =>
      a ← affected;
      if a : bool then e ← treeNextSib (nodes t) (Some operand); Ok (set_entry e t) else Ok t
  | TREE_EVENT_CTRL => a ← affected; if a : bool then Ok (set_entry (Some operand) t) else Ok t
  end.

(** The list of observers has one element. *)
Definition treeObserverInvoke (t : jtree) (operand : Z) (eventType : treeEventType) : res jtree :=
  treeObserverEvalDep t operand eventType.

(** ** Changing the tree *)

Fixpoint last_right (fuel : nat) (h : gmap Z jgTreeNode) (nPtr : Z) : res Z :=
  match fuel with
  | O => OutOfFuel
  | S f => n ← node_at h nPtr; match n_right n with Some r => last_right f h r | None => Ok nPtr end
  end.

Definition treeLinkSibling (h : gmap Z jgTreeNode) (sib1 sib2 : option Z) : res (option Z * gmap Z jgTreeNode) :=
  match sib1, sib2 with
  | None, _ => Ok (sib2, h)
  | _, None => Ok (sib1, h)
  | Some s1, Some s2 =>
      nPtr ← last_right (walk_fuel h) h s1;
      h ← on_node nPtr (set_right (Some s2)) h;
      h ← on_node s2 (set_left (Some nPtr)) h;
      Ok (sib1, h)
  end.

Fixpoint set_parents (fuel : nat) (p : Z) (nPtr : Z) (h : gmap Z jgTreeNode) : res (gmap Z jgTreeNode) :=
  match fuel with
  | O => OutOfFuel
  | S f =>
      h ← on_node nPtr (set_parent (Some p)) h;
      n ← node_at h nPtr;
      match n_right n with Some r => set_parents f p r h | None => Ok h end
  end.

Definition treeInsertChild (t : jtree) (parent child' : option Z) : res (option Z * jtree) :=
  match parent, child' with
  | None, _ => Ok (child', t)
  | _, None => Ok (parent, t)
  | Some p, Some c =>
      n ← node_at (nodes t) p;
      '(first, h) ← match child n with
                    | Some fc => treeLinkSibling (nodes t) (Some fc) (Some c)
                    | None => Ok (Some c, nodes t)
                    end;
      h ← on_node p (set_child first) h;
      h ← set_parents (walk_fuel h) p c h;
      t ← count_node (set_nodes h t) c 1;
      t ← treeObserverInvoke t c TREE_EVENT_ADD;
      Ok (parent, t)
  end.

Definition treeInsertLeft (t : jtree) (node subtree : option Z) : res jtree :=
  match node, subtree with
  | Some p, Some c =>
      n ← node_at (nodes t) p;
      h ← on_node c (fun m => set_parent (parent n) (set_left (n_left n) (set_right (Some p) m))) (nodes t);
      h ← match n_left n with Some l => on_node l (set_right (Some c)) h | None => Ok h end;
      h ← on_node p (set_left (Some c)) h;
      t ← count_node (set_nodes h t) c 1;
      treeObserverInvoke t c TREE_EVENT_ADD
  | _, _ => Ok t
  end.

Definition treeInsertRight (t : jtree) (node subtree : option Z) : res jtree :=
  match node, subtree with
  | Some p, Some c =>
      n ← node_at (nodes t) p;
      h ← on_node c (fun m => set_parent (parent n) (set_left (Some p) (set_right (n_right n) m))) (nodes t);
      h ← match n_right n with Some r => on_node r (set_left (Some c)) h | None => Ok h end;
      h ← on_node p (set_right (Some c)) h;
      t ← count_node (set_nodes h t) c 1;
      treeObserverInvoke t c TREE_EVENT_ADD
  | _, _ => Ok t
  end.

Definition treeClip (t : jtree) (node : option Z) : res (option Z * jtree) :=
  match node with
  | None => Ok (None, t)
  | Some c =>
      n ← node_at (nodes t) c;
      h ← match n_left n, parent n with
          | Some l, _ => on_node l (set_right (n_right n)) (nodes t)
          | None, Some p => on_node p (set_child (n_right n)) (nodes t)
          | None, None => Ok (nodes t)
          end;
      h ← match n_right n with Some r => on_node r (set_left (n_left n)) h | None => Ok h end;
      t ← count_node (set_nodes h t) c (-1);
      t ← treeObserverInvoke t c TREE_EVENT_CLIP;
      h ← on_node c (fun m => set_parent None (set_left None (set_right None m))) (nodes t);
      Ok (Some c, set_nodes h t)
  end.

(** A new node; groups and arrays get their struct with zero counts. *)
Definition treeNewNode (t : jtree) (type : nodeKind) : Z * jtree :=
  let p := fresh t in
  let info := match type with JGRP_NODE_GROUP => GroupInfo p | JGRP_NODE_ARRAY => ArrayInfo p None | JGRP_NODE_JOB => JobInfo None end in
  let b := match type with
           | JGRP_NODE_GROUP => <[p := mkArray JGRP_UNDEFINED (repeat 0 (S NUM_JGRP_COUNTERS))]> (bases t)
           | JGRP_NODE_ARRAY => <[p := mkArray 0 (repeat 0 (S NUM_JGRP_COUNTERS))]> (bases t)
           | JGRP_NODE_JOB => bases t
           end in
  (p, mkTree (<[p := mkNode None None None None [] info]> (nodes t)) (recs t) b (ids t) (groupRoot t) (entry t) (p + 1)).

Definition freeTreeNode (t : jtree) (node : Z) : res jtree :=
  n ← node_at (nodes t) node;
  t ← match base_of (ndInfo n) with
      | Some b => a ← deref (bases t !! b); Ok (set_bases (<[b := mkArray JGRP_VOID (counts a)]> (bases t)) t)
      | None => Ok t
      end;
  Ok (set_nodes (delete node (nodes t)) t).

Fixpoint treeFree (fuel : nat) (t : jtree) (node : option Z) : res jtree :=
  match node, fuel with
  | None, _ => Ok t
  | Some _, O => OutOfFuel
  | Some p, S f =>
      n ← node_at (nodes t) p;
      t ← match child n with Some c => treeFree f t (Some c) | None => Ok t end;
      t ← freeTreeNode t p;
      treeFree f t (n_right n)
  end.

(** ** Jobs and arrays in the tree *)

(** [name] of a new node. *)
Definition job_name (j : jobRec) : cstr := if has (options j) SUB_JOB_NAME then jobName (core j) else command j.

(** The elements behind [jPtr] are counted and get the node. *)
Fixpoint put_elements (fuel : nat) (t : jtree) (newj : Z) (jPtr : option Z) : res jtree :=
  match jPtr, fuel with
  | None, _ => Ok t
  | Some _, O => OutOfFuel
  | Some r, S f =>
      t ← on_rec r (set_jgrpNode (Some newj)) t;
      j ← rec_at t r;
      t ← updJgrpCountByJStatus t r JOB_STAT_NULL (jStatus (core j));
      put_elements f t newj (nextJob (core j))
  end.

Definition putOntoTree (t : jtree) (jp : Z) : res jtree :=
  j ← rec_at t jp;
  let '(newj, t) := treeNewNode t (nodeType (core j)) in
  let info := match nodeType (core j) with JGRP_NODE_JOB => JobInfo (Some jp) | _ => ArrayInfo newj (Some jp) end in
  h ← on_node newj (fun n => set_info info (set_name (job_name j) n)) (nodes t);
  t ← on_rec jp (set_jgrpNode (Some newj)) (set_nodes h t);
  t ← put_elements (walk_fuel (recs t)) t newj (nextJob (core j));
  '(_, t) ← treeInsertChild t (Some (groupRoot t)) (Some newj);
  on_rec jp (fun j =>
    let j := if newReason j =? 0 then set_newReason PEND_JOB_NEW j else j in
    match dptRoot j with
    | None => on_core (fun k => set_jFlags (Z.lor (jFlags k) JFLAG_READY2) k) j
    | Some _ => j
    end) t.

(** The record before [jp] in the row of an array, or the last one. *)
Fixpoint before_job (fuel : nat) (t : jtree) (jp ptr : Z) : res Z :=
  match fuel with
  | O => OutOfFuel
  | S f =>
      j ← rec_at t ptr;
      match nextJob (core j) with
      | Some r => if r =? jp then Ok ptr else before_job f t jp r
      | None => Ok ptr
      end
  end.

Definition offArray (t : jtree) (jp : Z) : res jtree :=
  j ← rec_at t jp;
  match jgrpNode j with
  | None => Ok t
  | Some node =>
      n ← node_at (nodes t) node;
      match ndInfo n with
      | ArrayInfo _ jobArray =>
          jarray ← deref jobArray;
          ptr ← before_job (walk_fuel (recs t)) t jp jarray;
          pr ← rec_at t ptr;
          t ← match nextJob (core pr) with
              | Some x => xr ← rec_at t x; on_rec ptr (on_core (set_nextJob (nextJob (core xr)))) t
              | None => Ok t
              end;
          updJgrpCountByJStatus t jp (jStatus (core j)) JOB_STAT_NULL
      | _ => Ok t
      end
  end.

(** The record is marked void.  The code does so when a condition refers to it, and
    else frees it; here it is kept, and [job_tree_runs] shows that nothing in the
    tree leads to it. *)
Definition freeJData (t : jtree) (r : Z) : res jtree :=
  on_rec r (on_core (fun k => set_jStatus (Z.lor (jStatus k) JOB_STAT_VOID) k)) t.

Definition clip_and_free (t : jtree) (node : Z) : res jtree :=
  '(c, t) ← treeClip t (Some node); treeFree (walk_fuel (nodes t)) t c.

Definition lookup_id (t : jtree) (id : Z) : option Z := if id <=? 0 then None else ids t !! id.

(** [removeJob]; zombies, the lists of jobs and the event log are left out. *)
Definition removeJob (t : jtree) (id : Z) : res jtree :=
  match lookup_id t id with
  | None => Ok t
  | Some jp =>
      j ← rec_at t jp;
      if is_array (nodeType (core j)) then Ok t
      else
        let t := set_ids (delete (jobId (core j)) (ids t)) t in
        t ← match jgrpNode j with
            | None => Ok t
            | Some node =>
                n ← node_at (nodes t) node;
                match ndInfo n with
                | ArrayInfo b jobArray =>
                    t ← offArray t jp;
                    a ← deref (bases t !! b);
                    if nth JGRP_COUNT_NJOBS (counts a) 0 <=? 0 then
                      r ← deref jobArray;
                      ar ← rec_at t r;
                      t ← freeJData (set_ids (delete (jobId (core ar)) (ids t)) t) r;
                      clip_and_free t node
                    else Ok t
                | _ => clip_and_free t node
                end
            end;
        freeJData t jp
  end.

(** A job with the same identifier is removed first; an array is not removed, and
    the loop does not end. *)
Definition addJobIdHT (t : jtree) (r : Z) : res jtree :=
  j ← rec_at t r;
  let id := jobId (core j) in
  match ids t !! id with
  | None => Ok (set_ids (<[id := r]> (ids t)) t)
  | Some _ =>
      if bool_decide (lookup_id t id = Some r) then Ok t
      else
        t ← removeJob t id;
        match ids t !! id with
        | None => Ok (set_ids (<[id := r]> (ids t)) t)
        | Some _ => OutOfFuel
        end
  end.

(** [jStatusChange]: the counts, and the state in the record.  The other flags of
    the state and the counters of queues and users are in Counters.v. *)
Definition changeState (t : jtree) (r : Z) (newStatus : Z) : res jtree :=
  j ← rec_at t r;
  let old := jStatus (core j) in
  if MASK_STATUS (Z.ldiff newStatus JOB_STAT_UNKWN) =? MASK_STATUS (Z.ldiff old JOB_STAT_UNKWN) then Ok t
  else
    let newStatus := MASK_STATUS newStatus in
    t ← if 0 <=? jobId (core j) then updJgrpCountByJStatus t r old newStatus else Ok t;
    on_rec r (on_core (fun k => set_jStatus (SET_STATE (jStatus k) newStatus) k)) t.

(** [handleNewJob] *)
Definition newJobOnTree (t : jtree) (jpbw : Z) : res jtree :=
  t ← addJobIdHT t jpbw;
  t ← on_rec jpbw (on_core (fun k => set_nextJob None (set_kind JGRP_NODE_JOB k))) t;
  t ← putOntoTree t jpbw;
  j ← rec_at t jpbw;
  if has (options2 j) SUB2_HOLD then
    t ← on_rec jpbw (set_newReason PEND_USER_STOP) t;
    changeState t jpbw JOB_STAT_PSUSP
  else Ok t.

(** [handleRequeueJob]; [psusp] is [pendEvent.sig1Flags == JOB_STAT_PSUSP]. *)
Definition requeueOnTree (t : jtree) (r : Z) (psusp : bool) : res jtree :=
  j ← rec_at t r;
  t ← updJgrpCountByJStatus t r (jStatus (core j)) JOB_STAT_PEND;
  t ← on_rec r (on_core (set_jStatus JOB_STAT_PEND)) t;
  if psusp then
    t ← on_rec r (on_core (set_jStatus JOB_STAT_PSUSP)) t;
    updJgrpCountByJStatus t r JOB_STAT_PEND JOB_STAT_PSUSP
  else Ok t.

(** [modifyJob] with a new name or command, which the record has already: the node is
    built again, but not for an element of an array. *)
Definition renameJob (t : jtree) (jpbw : Z) : res jtree :=
  j ← rec_at t jpbw;
  match jgrpNode j with
  | Some node => if LSB_ARRAY_IDX (jobId (core j)) =? 0 then t ← clip_and_free t node; putOntoTree t jpbw else Ok t
  | None => Ok t
  end.

(** *** Elements of a new array *)

(** [copyJData], with the changes of [handleNewJobArray]. *)
Definition element (j : jobRec) (id : Z) (userPending : bool) : jobRec :=
  let e := on_core (fun k => set_jobId id (set_nextJob None (set_kind JGRP_NODE_JOB k))) j in
  if userPending then set_newReason PEND_USER_STOP (on_core (set_jStatus JOB_STAT_PSUSP) e) else e.

(** The inner loop; [jPtr] is the last record and [numJobs] the number of
    elements so far. *)
Fixpoint new_elements (t : jtree) (jarray : Z) (userPending : bool) (js : list Z) (jPtr numJobs : Z) : res (jtree * Z * Z) :=
  match js with
  | [] => Ok (t, jPtr, numJobs)
  | i :: js' =>
      j ← rec_at t jarray;
      let id := LSB_JOBID (jobId (core j)) i in
      match lookup_id t id with
      | Some _ => new_elements t jarray userPending js' jPtr numJobs
      | None =>
          let r := fresh t in
          let t := mkTree (nodes t) (<[r := element j id userPending]> (recs t)) (bases t) (ids t) (groupRoot t) (entry t) (r + 1) in
          t ← on_rec jPtr (on_core (set_nextJob (Some r))) t;
          t ← addJobIdHT t r;
          new_elements t jarray userPending js' r (numJobs + 1)
      end
  end.

Fixpoint new_lists (t : jtree) (jarray : Z) (userPending : bool) (l : list idxList) (jPtr numJobs : Z) : res (jtree * Z * Z) :=
  match l with
  | [] => Ok (t, jPtr, numJobs)
  | i :: l' =>
      match idx_values i with
      | Values js =>
          '(t, jPtr, numJobs) ← new_elements t jarray userPending js jPtr numJobs;
          new_lists t jarray userPending l' jPtr numJobs
      | _ => Fault
      end
  end.

(** [handleNewJobArray]; priorities, the counters of queues and users and the event
    log are left out. *)
Definition handleNewJobArray (t : jtree) (jarray : Z) (l : list idxList) : res jtree :=
  t ← addJobIdHT t jarray;
  t ← on_rec jarray (on_core (fun k => set_nextJob None (set_kind JGRP_NODE_ARRAY k))) t;
  t ← putOntoTree t jarray;
  j ← rec_at t jarray;
  '(t, _, numJobs) ← new_lists t jarray (has (options2 j) SUB2_HOLD) l jarray 0;
  j ← rec_at t jarray;
  node ← deref (jgrpNode j);
  n ← node_at (nodes t) node;
  b ← deref (base_of (ndInfo n));
  first ← deref (nextJob (core j));
  fr ← rec_at t first;
  t ← on_counts (fun c => <[JGRP_COUNT_NJOBS := wrap32 numJobs]> (<[getIndexOfJStatus (jStatus (core fr)) := wrap32 numJobs]> c)) b t;
  updJgrpCountByOp t node 1.

(** ** The daemon's start and the recount *)

Definition treeInit : jtree :=
  let '(p, t) := treeNewNode (mkTree ∅ ∅ ∅ ∅ 0 None 1) JGRP_NODE_GROUP in
  let t := set_nodes (alter (set_name (cs "/")) p (nodes t)) t in
  let t := set_bases (alter (fun a => mkArray JGRP_ACTIVE (counts a)) p (bases t)) t in
  mkTree (nodes t) (recs t) (bases t) (ids t) p (Some p) (fresh t).

(** The elements of an array from [jPtr] on. *)
Fixpoint recount_elements (fuel : nat) (t : jtree) (jPtr : option Z) : res jtree :=
  match jPtr, fuel with
  | None, _ => Ok t
  | Some _, O => OutOfFuel
  | Some r, S f =>
      j ← rec_at t r;
      t ← updJgrpCountByJStatus t r JOB_STAT_NULL (jStatus (core j));
      recount_elements f t (nextJob (core j))
  end.

Fixpoint reset_from (fuel : nat) (t : jtree) (jgrp : option Z) : res jtree :=
  match jgrp, fuel with
  | None, _ => Ok t
  | Some _, O => OutOfFuel
  | Some p, S f =>
      n ← node_at (nodes t) p;
      t ← match ndInfo n with
          | GroupInfo b => on_counts (fun c => repeat 0 NUM_JGRP_COUNTERS ++ drop NUM_JGRP_COUNTERS c) b t
          | ArrayInfo _ jobArray =>
              a ← deref jobArray;
              ar ← rec_at t a;
              recount_elements (walk_fuel (recs t)) t (nextJob (core ar))
          | JobInfo j =>
              r ← deref j;
              jr ← rec_at t r;
              updJgrpCountByJStatus t r JOB_STAT_NULL (jStatus (core jr))
          end;
      nx ← treeLexNext (nodes t) (Some p);
      reset_from f t nx
  end.

Definition resetJgrpCount (t : jtree) : res jtree := reset_from (walk_fuel (nodes t)) t (Some (groupRoot t)).

(** ** The walk over the conditions *)

(** [ARRAY_DATA(jgrpNode)] of a record. *)
Definition array_of (t : jtree) (r : jobRec) : option Z :=
  match jgrpNode r with
  | Some p => match nodes t !! p with Some n => match ndInfo n with ArrayInfo b _ => Some b | _ => None end | None => None end
  | None => None
  end.

(** The jobs and arrays that are siblings of [nPtr] and behind it. *)
Fixpoint row_jobs (fuel : nat) (h : gmap Z jgTreeNode) (nPtr : option Z) : list Z :=
  match nPtr, fuel with
  | Some p, S f =>
      match h !! p with
      | Some n =>
          match ndInfo n with JobInfo (Some r) | ArrayInfo _ (Some r) => [r] | _ => [] end ++ row_jobs f h (n_right n)
      | None => []
      end
  | _, _ => []
  end.

(** The tree as the conditions see it; configuration, index list and clock are
    those of [env]. *)
Definition dep_view (env : mbd) (t : jtree) : mbd :=
  mkMbd (conf env) (ids t) ((fun r => set_array (array_of t r) (core r)) <$> recs t) (bases t)
    (match nodes t !! groupRoot t with Some n => row_jobs (walk_fuel (nodes t)) (nodes t) (child n) | None => [] end)
    (context env) (now env).

Definition JOB_PEND (s : Z) : bool := has s JOB_STAT_PEND && negb (has s JOB_STAT_PSUSP).

Section Check.
Context `{TW : TimeWindows} (env : mbd).

(** The tree and the conditions of the jobs. *)
Abbreviation cstate := (jtree * gmap Z dptNode)%type.

(** What the value of the condition does to the job. *)
Definition depend (v : dpval) (r : jobRec) : jobRec :=
  match v with
  | DP_FALSE => set_newReason PEND_JOB_DEPEND r
  | DP_INVALID => on_core (fun k => set_jFlags (Z.lor (jFlags k) JFLAG_DEPCOND_INVALID) k) (set_newReason PEND_JOB_DEP_INVALID r)
  | DP_REJECT => on_core (fun k => set_jFlags (Z.lor (jFlags k) JFLAG_DEPCOND_REJECT) k) (set_newReason PEND_JOB_DEP_REJECT r)
  | DP_TRUE => on_core (fun k => set_jFlags (Z.lor (jFlags k) JFLAG_READY2) k) r
  end.

Definition unready (k : jData) : jData :=
  set_jFlags (Z.lor (Z.ldiff (jFlags k) (Z.lor JFLAG_READY1 JFLAG_READY2)) JFLAG_READY1) k.

(** One pass of the inner loop. *)
Definition check_job (st : cstate) (r : Z) : res cstate :=
  let '(t, conds) := st in
  j ← rec_at t r;
  if negb (JOB_PEND (jStatus (core j))) then Ok (t, conds)
  else
    t ← on_rec r (on_core unready) t;
    j ← rec_at t r;
    if has (jFlags (core j)) JFLAG_WAIT_SWITCH then
      t ← on_rec r (set_newReason PEND_JOB_SWITCH) t; Ok (t, conds)
    else
      match dptRoot j with
      | None => t ← on_rec r (depend DP_TRUE) t; Ok (t, conds)
      | Some d =>
          nd ← deref (conds !! d);
          '(v, nd') ← evalDepCond (dep_view env t) nd (Some (core j));
          t ← on_rec r (depend v) t;
          Ok (t, <[d := nd']> conds)
      end.

(** The inner loop; the second component counts its passes ([iterNum]). *)
Fixpoint check_jobs (fuel : nat) (st : cstate) (iterNum : Z) (jpbw : option Z) : res (cstate * Z) :=
  match jpbw, fuel with
  | None, _ => Ok (st, iterNum)
  | Some _, O => OutOfFuel
  | Some r, S f =>
      st ← check_job st r;
      j ← rec_at (fst st) r;
      check_jobs f st (iterNum + 1) (nextJob (core j))
  end.

Definition check_node (st : cstate) (iterNum : Z) (p : Z) : res (cstate * Z) :=
  n ← node_at (nodes (fst st)) p;
  match ndInfo n with
  | GroupInfo _ => Ok (st, iterNum)
  | JobInfo j => check_jobs (walk_fuel (recs (fst st))) st iterNum j
  | ArrayInfo _ jobArray =>
      a ← deref jobArray;
      ar ← rec_at (fst st) a;
      check_jobs (walk_fuel (recs (fst st))) st iterNum (nextJob (core ar))
  end.

(** The outer loop from [nPtr]; the result is the node where it stops.
    [late i] is [time(0) - entryTime > 3] when [iterNum] is [i]. *)
Fixpoint check_from (late : Z -> bool) (fuel : nat) (st : cstate) (iterNum : Z) (nPtr : option Z) : res (cstate * option Z) :=
  match nPtr, fuel with
  | None, _ => Ok (st, None)
  | Some _, O => OutOfFuel
  | Some p, S f =>
      '(st, iterNum) ← check_node st iterNum p;
      nx ← treeLexNext (nodes (fst st)) (Some p);
      let iterNum := iterNum + 1 in
      match nx with
      | Some q => if (1000 <? iterNum) && late iterNum then Ok (st, Some q) else check_from late f st iterNum (Some q)
      | None => Ok (st, None)
      end
  end.

(** [change] is set only before the first round, so the walk ends when it comes to
    the end of the tree, and begins at the root the next time. *)
Definition checkJgrpDep (late : Z -> bool) (st : cstate) : res cstate :=
  let '(t, conds) := st in
  let nPtr := match entry t with Some p => p | None => groupRoot t end in
  let t := set_entry (Some nPtr) t in
  '(st, stop) ← check_from late (walk_fuel (nodes t)) (t, conds) 0 (Some nPtr);
  Ok (set_entry (Some (match stop with Some q => q | None => groupRoot (fst st) end)) (fst st), snd st).
End Check.

(** ** Names *)

Definition MAXPATHLEN : nat := 4096.
Definition slash : ascii := "/"%char.
Definition is_slash (c : ascii) : bool := Ascii.eqb c slash.

(** [s] without the slashes at its end, and then without the last name. *)
Fixpoint drop_while (p : ascii -> bool) (s : cstr) : cstr :=
  match s with [] => [] | c :: s' => if p c then drop_while p s' else s end.
Definition strip_slashes (s : cstr) : cstr := rev (drop_while is_slash (rev s)).
Definition strip_name (s : cstr) : cstr := rev (drop_while (fun c => negb (is_slash c)) (rev s)).

Definition parentGroup (group_spec : option cstr) : cstr :=
  match group_spec with
  | None => []
  | Some s => if (MAXPATHLEN <=? length s)%nat then [] else strip_name (strip_slashes s)
  end.

Definition parentOfJob (group_spec : option cstr) : option cstr :=
  match group_spec with
  | None => None
  | Some s => if (MAXPATHLEN <=? length s)%nat then None else Some (strip_name s)
  end.

Definition myName (group_spec : option cstr) : cstr :=
  match group_spec with
  | None => []
  | Some s => if (MAXPATHLEN <=? length s)%nat then [] else
      let s := strip_slashes s in drop (length (strip_name s)) s
  end.

(** The path of the groups above a node; [None] when a buffer is too small. *)
Fixpoint path_up (fuel : nat) (h : gmap Z jgTreeNode) (jgrpPtr : option Z) (first : bool) (fullPath : cstr) : res cstr :=
  match jgrpPtr, fuel with
  | None, _ => Ok fullPath
  | Some _, O => OutOfFuel
  | Some p, S f =>
      n ← node_at h p;
      let '(path, first) :=
        if streq (name n) [slash] then (slash :: fullPath, first)
        else if first then (name n, false)
        else (name n ++ slash :: fullPath, false) in
      if (MAXPATHLEN <=? length path)%nat then Fault else path_up f h (parent n) first path
  end.

Definition jgrpNodeParentPath (h : gmap Z jgTreeNode) (jgrpNode : option Z) : res (option cstr) :=
  match jgrpNode with
  | None => Ok None
  | Some p => n ← node_at h p; path ← path_up (walk_fuel h) h (parent n) true []; Ok (Some path)
  end.
