(* ===== verification/JTree.v ===== *)
(** * Linked trees

    The pointers of a forest of [jgTreeNode]s, for the theorems about mbd.jgrp.c:
    [path] follows a pointer and [up] is the chain of a node up to its root, [forest] says that the pointers
    [parent], [child], [n_left] and [n_right] fit together, [sub] is the order of a
    walk with [treeLexNext], and adding and removing a leaf keep a forest. *)
From stdpp Require Import base gmap list fin_maps.
From Stdlib Require Import ZArith Bool Lia.
From S2P Require Import Prelude JobId CNum JobArray DepToken DepCond JGroup.
Local Open Scope Z_scope.
#[global] Arguments walk_fuel : simpl never.

(** ** Chains *)

(** The objects that are reached by following a pointer. *)
Inductive path {A} (nx : A -> option Z) (h : gmap Z A) : option Z -> list Z -> Prop :=
| path_nil : path nx h None []
| path_cons p n l : h !! p = Some n -> path nx h (nx n) l -> path nx h (Some p) (p :: l).

Section Path.
Context {A : Type} (nx : A -> option Z).
Implicit Types (h : gmap Z A).

Lemma path_det h o l l' : path nx h o l -> path nx h o l' -> l = l'.
Proof.
  intros U. revert l'. induction U as [|p n l Hp _ IH]; intros l' U'; inversion U'; subst; [done|].
  simplify_eq. f_equal. by apply IH.
Qed.

(** Chains depend on the pointer only. *)
Lemma path_ext h h' o l : (forall x n, x ∈ l -> h !! x = Some n -> exists n', h' !! x = Some n' /\ nx n' = nx n) ->
  path nx h o l -> path nx h' o l.
Proof.
  intros E U. induction U as [|p n l Hp _ IH]; [constructor|].
  destruct (E p n) as (n' & Hp' & En); [set_solver|done|]. econstructor; [done|].
  rewrite En. apply IH. intros x m Hx. apply E. set_solver.
Qed.

Lemma path_dom h o l x : path nx h o l -> x ∈ l -> is_Some (h !! x).
Proof. induction 1; set_solver. Qed.

(** The chain of an element is the rest of the list. *)
Lemma path_suffix h o l1 x l2 : path nx h o (l1 ++ x :: l2) -> path nx h (Some x) (x :: l2).
Proof.
  revert o. induction l1 as [|y l1 IH]; intros o U; cbn in U; inversion U; subst.
  - by econstructor.
  - by eapply IH.
Qed.

Lemma path_nodup h o l : path nx h o l -> NoDup l.
Proof.
  intros U. induction U as [|p n l Hp U IH]; constructor; [|done].
  intros Hin. apply list_elem_of_split in Hin as (l1 & l2 & ->).
  pose proof (path_suffix _ _ _ _ _ U) as U1. assert (U2 : path nx h (Some p) (p :: l1 ++ p :: l2)) by (by econstructor).
  pose proof (path_det _ _ _ _ U1 U2) as E. apply (f_equal length) in E. cbn in E. rewrite length_app in E. cbn in E. lia.
Qed.

(** Different objects of a heap are not more than the heap. *)
Lemma nodup_size h (l : list Z) : NoDup l -> (forall x, x ∈ l -> is_Some (h !! x)) -> (length l <= base.size h)%nat.
Proof.
  intros N D. assert (S : list_to_set l ⊆ dom h).
  { intros x. rewrite elem_of_list_to_set, elem_of_dom. apply D. }
  apply subseteq_size in S. rewrite size_list_to_set in S by done. by rewrite size_dom in S.
Qed.

Lemma path_length h o l : path nx h o l -> (length l < walk_fuel h)%nat.
Proof.
  intros U. unfold walk_fuel. apply Nat.lt_succ_r, nodup_size; [by eapply path_nodup|]. intros x. by eapply path_dom.
Qed.
End Path.

(** The chain of a node up to its root. *)
Abbreviation up := (path parent).

(** *** Loops along a chain *)

(** What [climb] finds on a chain. *)
Fixpoint first_right (h : gmap Z jgTreeNode) (l : list Z) : option Z :=
  match l with
  | [] => None
  | p :: l' => match h !! p ≫= n_right with Some r => Some r | None => first_right h l' end
  end.

Lemma climb_spec h o l fuel : up h o l -> (length l <= fuel)%nat -> climb fuel h o = Ok (first_right h l).
Proof.
  intros U. revert fuel. induction U as [|p n l Hp U IH]; intros [|fuel] F; cbn in F; [done|done|lia|].
  cbn. unfold node_at. rewrite Hp. cbn. destruct (n_right n); [done|]. apply IH. lia.
Qed.

Lemma is_above_spec h x o l fuel : up h o l -> (length l <= fuel)%nat -> is_above fuel h x o = Ok (bool_decide (x ∈ l)).
Proof.
  intros U. revert fuel. induction U as [|p n l Hp U IH]; intros [|fuel] F; cbn in F; [done|done|lia|].
  cbn. destruct (Z.eqb_spec p x) as [->|Hne].
  - by rewrite bool_decide_eq_true_2 by set_solver.
  - unfold node_at. rewrite Hp. cbn. rewrite IH by lia. f_equal. apply bool_decide_ext. set_solver.
Qed.

Lemma isAncestor_spec h x y l : up h (Some y) (y :: l) -> isAncestor h (Some x) (Some y) = Ok (bool_decide (x ∈ l)).
Proof.
  intros U. inversion U as [|? n ? Hy U']; subst. unfold isAncestor, node_at. rewrite Hy. cbn.
  apply is_above_spec; [done|]. apply path_length in U. cbn in U. lia.
Qed.

(** ** Forests *)

(** [kids p] are the children of [p] from left to right. *)
Record forest (h : gmap Z jgTreeNode) (kids : Z -> list Z) : Prop := {
  f_child p n : h !! p = Some n -> child n = head (kids p);
  f_kid p i c : kids p !! i = Some c -> exists n, h !! c = Some n /\ parent n = Some p
    /\ n_left n = match i with O => None | S j => kids p !! j end /\ n_right n = kids p !! S i;
  f_par c n p : h !! c = Some n -> parent n = Some p -> c ∈ kids p /\ is_Some (h !! p);
  f_root c n : h !! c = Some n -> parent n = None -> n_left n = None /\ n_right n = None;
  f_nodup p : NoDup (kids p);
  f_up p : is_Some (h !! p) -> exists l, up h (Some p) (p :: l) }.

Section Forest.
Variables (h : gmap Z jgTreeNode) (kids : Z -> list Z).
Hypothesis F : forest h kids.

Lemma kid_parent p c : c ∈ kids p -> exists n, h !! c = Some n /\ parent n = Some p.
Proof. intros H. apply list_elem_of_lookup_1 in H as [i Hi]. destruct (f_kid _ _ F p i c Hi) as (n & Hn & E & _). eauto. Qed.

Lemma kid_dom p c : c ∈ kids p -> is_Some (h !! p).
Proof. intros H. destruct (kid_parent p c H) as (n & Hn & E). by apply (f_par _ _ F c n). Qed.

(** The chain of a child. *)
Lemma kid_up p c l : c ∈ kids p -> up h (Some p) l -> up h (Some c) (c :: l).
Proof. intros H U. destruct (kid_parent p c H) as (n & Hn & E). econstructor; [done|]. by rewrite E. Qed.

(** A node above another one has children. *)
Lemma up_kid o l1 c p l2 : up h o (l1 ++ c :: p :: l2) -> c ∈ kids p.
Proof.
  intros U. apply path_suffix in U. inversion U as [|? n ? Hc U']; subst. inversion U' as [|? m ? Hp U'' E1]; subst.
  by apply (f_par _ _ F c n).
Qed.

Lemma leaf_not_above o c l x : up h o (x :: l) -> kids c = [] -> c ∉ l.
Proof.
  intros U K H. apply list_elem_of_split in H as (l1 & l2 & ->).
  destruct (exists_last (l := x :: l1)) as (l0 & y & E); [done|].
  assert (E' : x :: l1 ++ c :: l2 = l0 ++ y :: c :: l2).
  { change (x :: l1 ++ c :: l2) with ((x :: l1) ++ c :: l2). rewrite E. by rewrite <- app_assoc. }
  rewrite E' in U. apply up_kid in U. rewrite K in U. set_solver.
Qed.

(** The nodes of the children lists fit into the heap. *)
Lemma kids_length p : (length (kids p) <= base.size h)%nat.
Proof. apply nodup_size; [apply F|]. intros x Hx. destruct (kid_parent p x Hx) as (n & Hn & _). eauto. Qed.

(** *** Walks *)

(** The nodes below [p], to a depth. *)
Fixpoint sub (d : nat) (p : Z) : list Z :=
  match d with O => [] | S d' => p :: concat (map (sub d') (kids p)) end.

Inductive lexwalk : Z -> list Z -> option Z -> Prop :=
| lw_one p nx : treeLexNext h (Some p) = Ok nx -> lexwalk p [p] nx
| lw_cons p q l r : treeLexNext h (Some p) = Ok (Some q) -> lexwalk q l r -> lexwalk p (p :: l) r.

Lemma lexwalk_app p l q l' r : lexwalk p l (Some q) -> lexwalk q l' r -> lexwalk p (l ++ l') r.
Proof.
  remember (Some q) as o eqn:Eo. intros W W'. revert Eo. induction W as [p nx Hn|p q0 l o Hn W IH]; intros ->; cbn.
  - by econstructor.
  - econstructor; [done|]. by apply IH.
Qed.

(** Where the walk goes on behind the nodes below [p]. *)
Definition next_sib (p : Z) (l : list Z) : option Z := first_right h (p :: l).

Lemma treeNextSib_spec p l : up h (Some p) (p :: l) -> treeNextSib h (Some p) = Ok (next_sib p l).
Proof.
  intros U. inversion U as [|? n ? Hp U']; subst. unfold treeNextSib, next_sib, node_at. rewrite Hp. cbn. rewrite Hp. cbn.
  destruct (n_right n); [done|]. apply climb_spec; [done|]. apply path_length in U. cbn in U. lia.
Qed.

Lemma treeLexNext_leaf p l : up h (Some p) (p :: l) -> kids p = [] -> treeLexNext h (Some p) = Ok (next_sib p l).
Proof.
  intros U K. rewrite <- (treeNextSib_spec p l U). inversion U as [|? n ? Hp U']; subst.
  unfold treeLexNext, treeNextSib, node_at. rewrite Hp. cbn. rewrite (f_child _ _ F p n Hp), K. cbn. by destruct (n_right n).
Qed.

Lemma treeLexNext_kid p c l : kids p = c :: l -> treeLexNext h (Some p) = Ok (Some c).
Proof.
  intros K. destruct (kid_dom p c) as [n Hn]; [rewrite K; set_solver|].
  unfold treeLexNext, node_at. rewrite Hn. cbn. by rewrite (f_child _ _ F p n Hn), K.
Qed.

(** Behind a child comes its right neighbour, behind the last one what comes
    behind the parent. *)
Lemma next_sib_kid p i c l : kids p !! i = Some c -> up h (Some p) (p :: l) ->
  next_sib c (p :: l) = match kids p !! S i with Some r => Some r | None => next_sib p l end.
Proof.
  intros K U. destruct (f_kid _ _ F p i c K) as (n & Hn & _ & _ & R). unfold next_sib. cbn [first_right]. rewrite Hn. cbn [mbind option_bind].
  rewrite R. by destruct (kids p !! S i).
Qed.

Lemma sub_walk d p l : up h (Some p) (p :: l) -> (base.size h < d + length (p :: l))%nat -> lexwalk p (sub d p) (next_sib p l).
Proof.
  revert p l. induction d as [|d IH]; intros p l U D.
  { apply path_length in U. unfold walk_fuel in U. cbn in *. lia. }
  cbn [sub]. destruct (kids p) as [|c cs] eqn:K.
  - cbn. constructor. by apply treeLexNext_leaf.
  - assert (W : forall k i c', drop i (kids p) = c' :: k -> lexwalk c' (concat (map (sub d) (c' :: k))) (next_sib p l)).
    { intros k. induction k as [|c2 k IHk]; intros i c' Dk.
      - cbn [map concat]. rewrite app_nil_r. assert (K0 : kids p !! i = Some c') by (rewrite <- (Nat.add_0_r i), <- lookup_drop, Dk; done).
        assert (K1 : kids p !! S i = None).
        { rewrite <- Nat.add_1_r, <- lookup_drop, Dk. done. }
        pose proof (next_sib_kid p i c' l K0 U) as E. rewrite K1 in E. rewrite <- E. apply IH.
        + apply (kid_up p); [by eapply list_elem_of_lookup_2|done].
        + cbn in *. lia.
      - assert (K0 : kids p !! i = Some c') by (rewrite <- (Nat.add_0_r i), <- lookup_drop, Dk; done).
        assert (K1 : kids p !! S i = Some c2) by (rewrite <- Nat.add_1_r, <- lookup_drop, Dk; done).
        cbn [map concat]. apply lexwalk_app with (q := c2).
        + pose proof (next_sib_kid p i c' l K0 U) as E. rewrite K1 in E. rewrite <- E. apply IH.
          * apply (kid_up p); [by eapply list_elem_of_lookup_2|done].
          * cbn in *. lia.
        + apply (IHk (S i)). apply (f_equal (drop 1)) in Dk. rewrite drop_drop, Nat.add_comm in Dk. done. }
    econstructor; [by eapply treeLexNext_kid|]. apply (W cs 0%nat). done.
Qed.

(** The nodes with [p] on their chain are those below [p]. *)
Lemma sub_complete d p x l1 l2 : up h (Some x) (l1 ++ p :: l2) -> (length l1 < d)%nat -> x ∈ sub d p.
Proof.
  revert p l1 l2. induction d as [|d IH]; intros p l1 l2 U D; [lia|].
  destruct l1 as [|c l1 _] using rev_ind; cbn in *.
  - inversion U; subst. set_solver.
  - rewrite <- app_assoc in U. cbn in U. apply elem_of_cons. right. apply list_elem_of_In, in_concat. exists (sub d c). split.
    + apply in_map. apply list_elem_of_In. by eapply up_kid.
    + apply list_elem_of_In. apply (IH c l1 (p :: l2)); [done|]. rewrite length_app in D. cbn in D. lia.
Qed.

Lemma sub_sound d p l x : up h (Some p) (p :: l) -> x ∈ sub d p -> exists l1, up h (Some x) (l1 ++ p :: l).
Proof.
  revert p l. induction d as [|d IH]; intros p l U Hx; cbn in Hx; [set_solver|].
  apply elem_of_cons in Hx as [->|Hx]; [by exists []|].
  apply list_elem_of_In, in_concat in Hx as (k & Hk & Hx). apply in_map_iff in Hk as (c & <- & Hc).
  apply list_elem_of_In in Hx, Hc. destruct (IH c (p :: l)) as (l1 & U1); [by apply (kid_up p)|done|].
  exists (l1 ++ [c]). by rewrite <- app_assoc.
Qed.

Lemma sub_nodup d p l : up h (Some p) (p :: l) -> NoDup (sub d p).
Proof.
  revert p l. induction d as [|d IH]; intros p l U; cbn; [constructor|]. constructor.
  - intros Hx. apply list_elem_of_In, in_concat in Hx as (k & Hk & Hx). apply in_map_iff in Hk as (c & <- & Hc).
    apply list_elem_of_In in Hx, Hc. destruct (sub_sound d c (p :: l) p) as (l1 & U1); [by apply (kid_up p)|done|].
    pose proof (path_det _ _ _ _ _ U U1) as E. apply (f_equal length) in E. rewrite length_app in E. cbn in E. lia.
  - pose proof (f_nodup _ _ F p) as N. assert (Sb : forall c, c ∈ kids p -> c ∈ kids p) by done. revert N Sb.
    generalize (kids p) at 1 2 4 as cs. induction cs as [|c cs IHc]; intros N Sb; cbn; [constructor|].
    apply NoDup_cons in N as [Hc N]. apply NoDup_app. split_and!.
    + apply (IH c (p :: l)), (kid_up p); [apply Sb; set_solver|done].
    + intros x Hx Hx'. apply list_elem_of_In, in_concat in Hx' as (k & Hk & Hx'). apply in_map_iff in Hk as (c' & <- & Hc').
      apply list_elem_of_In in Hx', Hc'.
      destruct (sub_sound d c (p :: l) x) as (l1 & U1); [apply (kid_up p); [apply Sb; set_solver|done]|done|].
      destruct (sub_sound d c' (p :: l) x) as (l2 & U2); [apply (kid_up p); [apply Sb; set_solver|done]|done|].
      pose proof (path_det _ _ _ _ _ U1 U2) as E. apply app_inj_2 in E as [_ E]; [|done]. congruence.
    + apply IHc; [done|]. set_solver.
Qed.
End Forest.

(** ** A new leaf *)

(** The code that links [c] as the last child of [p]. *)
Definition link_child (h : gmap Z jgTreeNode) (p c : Z) : res (gmap Z jgTreeNode) :=
  n ← node_at h p;
  '(first, h) ← match child n with
                | Some fc => treeLinkSibling h (Some fc) (Some c)
                | None => Ok (Some c, h)
                end;
  h ← on_node p (set_child first) h;
  set_parents (walk_fuel h) p c h.

Lemma treeInsertChild_link t p c h : link_child (nodes t) p c = Ok h ->
  treeInsertChild t (Some p) (Some c) = (t ← count_node (set_nodes h t) c 1; Ok (Some p, t)).
Proof.
  unfold link_child, treeInsertChild. destruct (node_at (nodes t) p) as [n| | |]; cbn; try done.
  destruct (child n) as [fc|]; cbn.
  - destruct (last_right _ _ _) as [z| | |]; cbn; try done. destruct (on_node z _ _) as [h1| | |]; cbn; try done.
    destruct (on_node c _ _) as [h2| | |]; cbn; try done. destruct (on_node p _ _) as [h3| | |]; cbn; try done. intros ->. done.
  - destruct (on_node p _ _) as [h3| | |]; cbn; try done. intros ->. done.
Qed.

(** What a change of pointers keeps of a node. *)
Definition same_data (h h' : gmap Z jgTreeNode) : Prop :=
  forall x, (fun n => (name n, ndInfo n)) <$> h' !! x = (fun n => (name n, ndInfo n)) <$> h !! x.

Definition add_kid (kids : Z -> list Z) (p c : Z) : Z -> list Z := fun x => if x =? p then kids p ++ [c] else kids x.

Section Insert.
Variables (h : gmap Z jgTreeNode) (kids : Z -> list Z) (p c : Z) (np nc : jgTreeNode) (lp : list Z).
Hypotheses (F : forest h kids) (Hp : h !! p = Some np) (Hc : h !! c = Some nc) (Root : parent nc = None) (Leaf : kids c = [])
  (Hne : c <> p) (Up : up h (Some p) (p :: lp)).

Definition linked : gmap Z jgTreeNode :=
  <[c := set_parent (Some p) (set_left (last (kids p)) nc)]>
    (<[p := set_child (Some (default c (head (kids p)))) np]>
      (match last (kids p) with Some z => alter (set_right (Some c)) z h | None => h end)).

Lemma last_right_spec k i x fuel : drop i (kids p) = x :: k -> (length k < fuel)%nat ->
  last_right fuel h x = Ok (default x (last k)).
Proof.
  revert i x fuel. induction k as [|y k IH]; intros i x fuel D L; (destruct fuel as [|fuel]; [lia|]); cbn [last_right];
    (assert (Ki : kids p !! i = Some x) by (rewrite <- (Nat.add_0_r i), <- lookup_drop, D; done));
    destruct (f_kid _ _ F p i x Ki) as (n & Hn & _ & _ & R); unfold node_at; rewrite Hn; cbn [deref mbind res_bind]; rewrite R.
  - replace (kids p !! S i) with (@None Z); [done|]. by rewrite <- Nat.add_1_r, <- lookup_drop, D.
  - replace (kids p !! S i) with (Some y) by (by rewrite <- Nat.add_1_r, <- lookup_drop, D).
    rewrite (IH (S i) y fuel); [|apply (f_equal (drop 1)) in D; by rewrite drop_drop, Nat.add_comm in D|cbn in L; lia].
    destruct k as [|y2 k]; [done|]. cbn. by destruct (last (y2 :: k)) eqn:E; [|apply last_None in E].
Qed.

Lemma kid_not_self x : x ∈ kids p -> x <> p /\ x <> c.
Proof.
  intros Hx. pose proof (kid_up _ _ F p x _ Hx Up) as U. apply path_nodup in U. apply NoDup_cons in U as [Hn _].
  split; [set_solver|]. intros ->. destruct (kid_parent _ _ F p c Hx) as (n & Hn' & E). congruence.
Qed.

Lemma link_child_eq : link_child h p c = Ok linked.
Proof.
  destruct (f_root _ _ F c nc Hc Root) as [Lc Rc].
  assert (Fin : forall (g : gmap Z jgTreeNode) fuel, g !! c = Some (set_left (last (kids p)) nc) ->
     set_parents (S fuel) p c g = Ok (<[c := set_parent (Some p) (set_left (last (kids p)) nc)]> g)).
  { intros g fuel Hg. cbn. unfold on_node, node_at. rewrite Hg. cbn. rewrite lookup_insert_eq. cbn. by rewrite Rc. }
  unfold link_child, linked. unfold node_at at 1. rewrite Hp. cbn [deref mbind res_bind]. rewrite (f_child _ _ F p np Hp).
  destruct (kids p) as [|x k] eqn:K.
  - cbn [head last default]. cbn [mbind res_bind]. unfold on_node, node_at. rewrite Hp. cbn [deref mbind res_bind].
    unfold walk_fuel. apply Fin. rewrite lookup_insert_ne, Hc by congruence. f_equal. cbn. rewrite <- Lc. by destruct nc.
  - cbn [head]. unfold treeLinkSibling. pose proof (kids_length _ _ F p) as Len. rewrite K in Len. cbn in Len.
    rewrite (last_right_spec k 0 x) by (try rewrite K; try done; unfold walk_fuel; lia). cbn [deref mbind res_bind].
    set (z := default x (last k)). assert (Lz : last (x :: k) = Some z).
    { unfold z. destruct k as [|y k]; [done|]. change (last (x :: y :: k)) with (last (y :: k)).
      by destruct (last (y :: k)) eqn:E; [|apply last_None in E]. }
    assert (Hz : z ∈ kids p) by (rewrite K; by apply last_Some_elem_of).
    destruct (kid_not_self z Hz) as [Zp Zc]. destruct (kid_parent _ _ F p z Hz) as (nz & Hnz & _).
    rewrite Lz. unfold on_node, node_at. rewrite Hnz. cbn [deref mbind res_bind].
    rewrite lookup_insert_ne, Hc by congruence. cbn [deref mbind res_bind].
    rewrite lookup_insert_ne, lookup_insert_ne, Hp by congruence. cbn [deref mbind res_bind default].
    unfold walk_fuel. rewrite Fin by (rewrite Lz, lookup_insert_ne, lookup_insert_eq by congruence; done).
    f_equal. rewrite Lz. assert (Ez : alter (set_right (Some c)) z h = <[z := set_right (Some c) nz]> h).
    { apply map_eq. intros y. destruct (decide (y = z)) as [->|Hy]; [by rewrite lookup_alter_eq, lookup_insert_eq, Hnz|].
      by rewrite lookup_alter_ne, lookup_insert_ne. }
    rewrite Ez. rewrite (insert_insert_ne _ p c) by congruence. by rewrite insert_insert_eq.
Qed.

Lemma linked_lookup x : linked !! x =
  if decide (x = c) then Some (set_parent (Some p) (set_left (last (kids p)) nc))
  else if decide (x = p) then Some (set_child (Some (default c (head (kids p)))) np)
  else if decide (last (kids p) = Some x) then set_right (Some c) <$> h !! x else h !! x.
Proof.
  unfold linked. case_decide as E; [subst; by rewrite lookup_insert_eq|]. rewrite lookup_insert_ne by done.
  case_decide as E2; [subst; by rewrite lookup_insert_eq|]. rewrite lookup_insert_ne by done.
  destruct (last (kids p)) as [z|]; case_decide as E3; simplify_eq; try done.
  - by rewrite lookup_alter_eq.
  - rewrite lookup_alter_ne; [done|]. congruence.
Qed.

(** Other nodes keep their parents. *)
Lemma linked_parent x n : x <> c -> h !! x = Some n ->
  exists n', linked !! x = Some n' /\ parent n' = parent n /\ child n' = (if decide (x = p) then Some (default c (head (kids p))) else child n)
    /\ n_left n' = n_left n /\ n_right n' = (if decide (last (kids p) = Some x) then Some c else n_right n).
Proof.
  intros Hx Hn. rewrite linked_lookup, decide_False by done. case_decide as E.
  - subst x. rewrite Hp in Hn. injection Hn as <-. eexists. split; [done|]. cbn. split_and!; try done. rewrite decide_False; [done|].
    intros L. apply last_Some_elem_of in L. by destruct (kid_not_self p L).
  - case_decide as E2; rewrite Hn; cbn; (eexists; split_and!; done).
Qed.

Lemma linked_up x l : x <> c -> up h (Some x) l -> up linked (Some x) l.
Proof.
  intros Hx U. apply (path_ext _ h); [|done]. intros y n Hy Hn.
  assert (Hyc : y <> c).
  { intros ->. inversion U as [|? m l' Hm U']; subst. apply elem_of_cons in Hy as [->|Hy]; [done|].
    by apply (leaf_not_above _ _ F (Some x) c l' x). }
  destruct (linked_parent y n Hyc Hn) as (n' & ? & ? & _). eauto.
Qed.

Lemma linked_up_new : up linked (Some c) (c :: p :: lp).
Proof.
  econstructor; [by rewrite linked_lookup, decide_True|]. cbn. apply linked_up; [congruence|done].
Qed.

Lemma linked_data : same_data h linked.
Proof.
  intros x. rewrite linked_lookup. repeat case_decide; subst; rewrite ?Hp, ?Hc; try done. by destruct (h !! x).
Qed.

Lemma linked_old x n' : x <> c -> linked !! x = Some n' -> is_Some (h !! x).
Proof. intros Hx H. pose proof (linked_data x) as D. rewrite H in D. destruct (h !! x); [eauto|done]. Qed.

Lemma linked_not_kid q : c ∉ kids q.
Proof. intros Hq. destruct (kid_parent _ _ F q c Hq) as (n & Hn & E). congruence. Qed.

Lemma linked_kid q i x : add_kid kids p c q !! i = Some x -> exists n, linked !! x = Some n /\ parent n = Some q
  /\ n_left n = match i with O => None | S j => add_kid kids p c q !! j end /\ n_right n = add_kid kids p c q !! S i.
Proof.
  destruct (f_root _ _ F c nc Hc Root) as [Lc Rc].
  intros Hx. unfold add_kid in *. destruct (Z.eqb_spec q p) as [->|Hq].
  + apply lookup_app_Some in Hx as [Hx|[Hlen Hx]].
    * assert (Hxk : x ∈ kids p) by (by eapply list_elem_of_lookup_2). destruct (kid_not_self x Hxk) as [Hxp Hxc].
      destruct (f_kid _ _ F p i x Hx) as (n & Hn & E1 & E2 & E3). destruct (linked_parent x n Hxc Hn) as (m & Hm & P & _ & L & R).
      exists m. split_and!; [done|congruence| |].
      -- rewrite L, E2. pose proof (lookup_lt_Some _ _ _ Hx) as Li. destruct i; [done|]. rewrite lookup_app_l by lia. done.
      -- rewrite R, E3. pose proof (lookup_lt_Some _ _ _ Hx) as Li. destruct (decide (S i = length (kids p))) as [Ei|Ei].
         ++ rewrite decide_True by (rewrite last_lookup, <- Ei; done). rewrite lookup_app_r by lia. by rewrite Ei, Nat.sub_diag.
         ++ rewrite decide_False; [by rewrite lookup_app_l by lia|]. rewrite last_lookup. intros E.
            pose proof (NoDup_lookup _ _ _ _ (f_nodup _ _ F p) Hx E). lia.
    * assert (i = length (kids p)) as ->.
      { apply lookup_lt_Some in Hx. cbn in Hx. lia. }
      rewrite Nat.sub_diag in Hx. injection Hx as <-. exists (set_parent (Some p) (set_left (last (kids p)) nc)).
      split_and!; [by rewrite linked_lookup, decide_True|done| |].
      -- cbn. rewrite last_lookup. destruct (kids p) as [|y k]; [done|]. cbn [length]. cbn [Nat.pred]. rewrite lookup_app_l by (cbn; lia). done.
      -- cbn. rewrite Rc. symmetry. apply lookup_ge_None_2. rewrite length_app. cbn. lia.
  + destruct (f_kid _ _ F q i x Hx) as (n & Hn & E1 & E2 & E3). assert (Hxc : x <> c) by congruence.
    destruct (linked_parent x n Hxc Hn) as (m & Hm & P & _ & L & R). exists m. split_and!; [done|congruence|congruence|].
    rewrite R, decide_False; [done|]. intros E. apply last_Some_elem_of in E. destruct (kid_parent _ _ F p x E) as (n2 & Hn2 & E'). congruence.
Qed.

Lemma linked_forest : forest linked (add_kid kids p c).
Proof.
  destruct (f_root _ _ F c nc Hc Root) as [Lc Rc].
  split.
  - intros x n' Hx. destruct (decide (x = c)) as [->|Hxc].
    + rewrite linked_lookup, decide_True in Hx by done. injection Hx as <-. cbn. rewrite (f_child _ _ F c nc Hc), Leaf.
      unfold add_kid. destruct (Z.eqb_spec c p); [done|]. by rewrite Leaf.
    + destruct (linked_old x n' Hxc Hx) as [n Hn]. destruct (linked_parent x n Hxc Hn) as (m & Hm & _ & C & _).
      simplify_eq. rewrite C, (f_child _ _ F x n Hn). unfold add_kid. destruct (Z.eqb_spec x p) as [->|Hxp].
      * rewrite decide_True by done. by destruct (kids p).
      * by rewrite decide_False.
  - apply linked_kid.
  - intros x n' q Hx E. destruct (decide (x = c)) as [->|Hxc].
    + rewrite linked_lookup, decide_True in Hx by done. injection Hx as <-. cbn in E. injection E as <-. split.
      * unfold add_kid. rewrite Z.eqb_refl. set_solver.
      * destruct (linked_parent p np) as (m & Hm & _); [congruence|done|]. eauto.
    + destruct (linked_old x n' Hxc Hx) as [n Hn]. destruct (linked_parent x n Hxc Hn) as (m & Hm & P & _). simplify_eq.
      rewrite P in E. destruct (f_par _ _ F x n q Hn E) as [K [nq Hq]]. split.
      * unfold add_kid. destruct (Z.eqb_spec q p) as [->|]; set_solver.
      * destruct (decide (q = c)) as [->|Hqc]; [by rewrite linked_lookup, decide_True by done; eauto|].
        destruct (linked_parent q nq Hqc Hq) as (mq & Hmq & _). eauto.
  - intros x n' Hx E. destruct (decide (x = c)) as [->|Hxc].
    + rewrite linked_lookup, decide_True in Hx by done. by injection Hx as <-.
    + destruct (linked_old x n' Hxc Hx) as [n Hn]. destruct (linked_parent x n Hxc Hn) as (m & Hm & P & _ & L & R). simplify_eq.
      rewrite P in E. destruct (f_root _ _ F x n Hn E) as [E1 E2]. split; [congruence|]. rewrite R, decide_False; [done|].
      intros El. apply last_Some_elem_of in El. destruct (kid_parent _ _ F p x El) as (n2 & Hn2 & E'). congruence.
  - intros q. unfold add_kid. destruct (Z.eqb_spec q p) as [->|]; [|apply F]. apply NoDup_app. split_and!; [apply F| |apply NoDup_singleton].
    intros x Hx Hx'. apply list_elem_of_singleton in Hx'. subst. by apply (linked_not_kid p).
  - intros x [n' Hx]. destruct (decide (x = c)) as [->|Hxc]; [eauto using linked_up_new|].
    destruct (linked_old x n' Hxc Hx) as [n Hn]. destruct (f_up _ _ F x) as [l U]; [eauto|]. eauto using linked_up.
Qed.
End Insert.

(** ** A leaf is removed *)

(** The pointers around [c] in [treeClip]. *)
Definition unlink_node (h : gmap Z jgTreeNode) (c : Z) : res (gmap Z jgTreeNode) :=
  n ← node_at h c;
  h ← match n_left n, parent n with
      | Some l, _ => on_node l (set_right (n_right n)) h
      | None, Some p => on_node p (set_child (n_right n)) h
      | None, None => Ok h
      end;
  match n_right n with Some r => on_node r (set_left (n_left n)) h | None => Ok h end.

Lemma treeClip_unlink t c h : unlink_node (nodes t) c = Ok h ->
  treeClip t (Some c) =
    (t ← count_node (set_nodes h t) c (-1);
     t ← treeObserverInvoke t c TREE_EVENT_CLIP;
     h ← on_node c (fun m => set_parent None (set_left None (set_right None m))) (nodes t);
     Ok (Some c, set_nodes h t)).
Proof.
  unfold unlink_node, treeClip. destruct (node_at (nodes t) c) as [n| | |]; cbn; try done.
  destruct (match n_left n with Some l => _ | None => _ end) as [h1| | |]; cbn; try done. by intros ->.
Qed.

Definition drop_kid (kids : Z -> list Z) (p : Z) (k : list Z) : Z -> list Z := fun x => if x =? p then k else kids x.

Lemma lookup_last_pred {A} (k1 : list A) x k2 : last k1 = match length k1 with O => None | S j => (k1 ++ x :: k2) !! j end.
Proof.
  rewrite last_lookup. destruct k1 as [|y k1]; [done|]. cbn [length Nat.pred]. by rewrite lookup_app_l by (cbn; lia).
Qed.

Section Remove.
Variables (h : gmap Z jgTreeNode) (kids : Z -> list Z) (p c : Z) (nc : jgTreeNode) (k1 k2 : list Z).
Hypotheses (F : forest h kids) (Hc : h !! c = Some nc) (K : kids p = k1 ++ c :: k2) (Leaf : kids c = []).

Lemma clip_fields : parent nc = Some p /\ n_left nc = last k1 /\ n_right nc = head k2.
Proof.
  destruct (f_kid _ _ F p (length k1) c) as (n & Hn & E1 & E2 & E3); [by rewrite K, list_lookup_middle|]. simplify_eq.
  split_and!; [done| |].
  - rewrite E2, K. rewrite (lookup_last_pred k1 c k2). done.
  - rewrite E3, K. rewrite lookup_app_r by lia. replace (S (length k1) - length k1)%nat with 1%nat by lia. by destruct k2.
Qed.

Lemma clip_kids : NoDup (k1 ++ c :: k2).
Proof. rewrite <- K. apply F. Qed.

Lemma clip_ne x : x ∈ k1 \/ x ∈ k2 -> x <> c /\ x <> p /\ exists n, h !! x = Some n /\ parent n = Some p.
Proof.
  intros Hx. assert (Hk : x ∈ kids p) by (rewrite K; set_solver). destruct (kid_parent _ _ F p x Hk) as (n & Hn & E).
  assert (x <> c).
  { intros ->. pose proof clip_kids as N. apply NoDup_app in N as (_ & N1 & N2). apply NoDup_cons in N2 as [N2 _]. set_solver. }
  split_and!; [done| |eauto]. intros ->. destruct (f_up _ _ F p) as [l U]; [eauto|]. pose proof (kid_up _ _ F p p _ Hk U) as U2.
  apply path_nodup in U2. apply NoDup_cons in U2 as [U2 _]. set_solver.
Qed.

Lemma clip_parent_ne : c <> p.
Proof.
  intros E. pose proof clip_kids as N. rewrite <- K, <- E, Leaf in N. pose proof K as K0. rewrite <- E, Leaf in K0. by destruct k1.
Qed.

Lemma clip_parent : exists np, h !! p = Some np.
Proof. destruct (kid_dom _ _ F p c) as [np Hnp]; [rewrite K; set_solver|]. eauto. Qed.

Definition unlinked : gmap Z jgTreeNode :=
  let h1 := match last k1 with Some l => alter (set_right (head k2)) l h | None => alter (set_child (head k2)) p h end in
  match head k2 with Some r => alter (set_left (last k1)) r h1 | None => h1 end.

Lemma on_node_alter (g : gmap Z jgTreeNode) x f n : g !! x = Some n -> on_node x f g = Ok (alter f x g).
Proof.
  intros E. unfold on_node, node_at. rewrite E. cbn. f_equal. apply map_eq. intros y.
  destruct (decide (y = x)) as [->|]; [by rewrite lookup_insert_eq, lookup_alter_eq, E|by rewrite lookup_insert_ne, lookup_alter_ne].
Qed.

Lemma unlink_eq : unlink_node h c = Ok unlinked.
Proof.
  destruct clip_fields as (E1 & E2 & E3). destruct clip_parent as [np Hnp].
  unfold unlink_node, unlinked, node_at. rewrite Hc. cbn [deref mbind res_bind]. rewrite E1, E2, E3.
  assert (H1 : exists g, match last k1 with Some l => on_node l (set_right (head k2)) h | None => on_node p (set_child (head k2)) h end = Ok g
             /\ g = match last k1 with Some l => alter (set_right (head k2)) l h | None => alter (set_child (head k2)) p h end).
  { destruct (last k1) as [l|] eqn:El.
    - destruct (clip_ne l) as (_ & _ & nl & Hl & _); [left; by apply last_Some_elem_of|]. eexists. split; [by eapply on_node_alter|done].
    - eexists. split; [by eapply on_node_alter|done]. }
  destruct H1 as (g & -> & ->). cbn [mbind res_bind]. destruct (head k2) as [r|] eqn:Er; [|done].
  destruct (clip_ne r) as (_ & Rp & nr & Hr & _); [right; destruct k2; simplify_eq/=; set_solver|].
  assert (exists n, match last k1 with Some l => alter (set_right (Some r)) l h | None => alter (set_child (Some r)) p h end !! r = Some n) as [n Hn].
  { destruct (last k1) as [l|]; [destruct (decide (r = l)) as [->|]|].
    - rewrite lookup_alter_eq, Hr. by eexists.
    - rewrite lookup_alter_ne by done. eauto.
    - rewrite lookup_alter_ne by congruence. eauto. }
  by eapply on_node_alter.
Qed.

(** The nodes after the removal, except [c]. *)
Definition clipped (x : Z) (n : jgTreeNode) : jgTreeNode :=
  mkNode (parent n) (if decide (x = p /\ last k1 = None) then head k2 else child n)
    (if decide (head k2 = Some x) then last k1 else n_left n)
    (if decide (last k1 = Some x) then head k2 else n_right n) (name n) (ndInfo n).

Lemma unlinked_lookup x : unlinked !! x = clipped x <$> h !! x.
Proof.
  unfold unlinked, clipped. assert (Dp : forall x, last k1 = Some x \/ head k2 = Some x -> x <> p).
  { intros y Hy. assert (y ∈ k1 \/ y ∈ k2) as Hm.
    { destruct Hy as [Hy|Hy]; [left; by apply last_Some_elem_of|right; destruct k2; simplify_eq/=; set_solver]. }
    by destruct (clip_ne y Hm) as (_ & ? & _). }
  assert (El : forall (g : gmap Z jgTreeNode) f y, alter f y g !! x = (if decide (x = y) then f else id) <$> g !! x).
  { intros g f y. case_decide; [subst; by rewrite lookup_alter_eq|]. rewrite lookup_alter_ne by done. by destruct (g !! x). }
  destruct (last k1) as [l|] eqn:E1, (head k2) as [r|] eqn:E2; rewrite ?El;
    destruct (h !! x) as [n|]; cbn; try done; f_equal; destruct n;
    repeat (case_decide; subst; simplify_eq/=); try done; naive_solver.
Qed.

Lemma unlinked_self : unlinked !! c = Some nc.
Proof.
  rewrite unlinked_lookup, Hc. cbn. f_equal. destruct clip_fields as (E1 & E2 & E3). pose proof clip_parent_ne as Ne. unfold clipped.
  rewrite !decide_False; [by destruct nc| | |].
  - intros E. by destruct (clip_ne c (or_introl (last_Some_elem_of _ _ E))).
  - intros E. destruct (clip_ne c) as [? _]; [right; destruct k2; simplify_eq/=; set_solver|done].
  - intros [E _]. done.
Qed.

Lemma unlinked_up o l : up h o l -> up unlinked o l.
Proof. intros U. apply (path_ext _ h); [|done]. intros x n _ Hn. rewrite unlinked_lookup, Hn. by eexists. Qed.

Definition removed : gmap Z jgTreeNode := delete c unlinked.

Lemma removed_lookup x n' : removed !! x = Some n' <-> x <> c /\ exists n, h !! x = Some n /\ n' = clipped x n.
Proof.
  unfold removed. rewrite lookup_delete_Some, unlinked_lookup. destruct (h !! x) as [n|]; cbn; naive_solver.
Qed.

Lemma removed_up x l : x <> c -> up h (Some x) l -> up removed (Some x) l.
Proof.
  intros Hx U. apply (path_ext _ h); [|done]. intros y n Hy Hn. exists (clipped y n). split; [|done]. apply removed_lookup. split; [|eauto].
  intros ->. inversion U as [|? m l' Hm U']; subst. apply elem_of_cons in Hy as [->|Hy]; [done|].
  by apply (leaf_not_above _ _ F (Some x) c l' x).
Qed.

Lemma removed_data : same_data (delete c h) removed.
Proof.
  intros x. unfold removed. destruct (decide (x = c)) as [->|]; [by rewrite !lookup_delete_eq|].
  rewrite !lookup_delete_ne by done. rewrite unlinked_lookup. by destruct (h !! x).
Qed.

Lemma removed_kid_left i x : k1 !! i = Some x -> exists n, removed !! x = Some n /\ parent n = Some p
  /\ n_left n = match i with O => None | S j => (k1 ++ k2) !! j end /\ n_right n = (k1 ++ k2) !! S i.
Proof.
  intros Hx. pose proof clip_kids as Nd. destruct (clip_ne x) as [Hxc _]; [left; by eapply list_elem_of_lookup_2|].
  pose proof (lookup_lt_Some _ _ _ Hx) as Li.
  destruct (f_kid _ _ F p i x) as (n & Hn & P & L & R); [by rewrite K, lookup_app_l by lia|].
  exists (clipped x n). split_and!; [apply removed_lookup; eauto|done| |].
  -- cbn. rewrite decide_False.
     { rewrite L. destruct i; [done|]. rewrite K, !lookup_app_l by lia. done. }
     intros E. destruct k2 as [|y k2']; [done|]. injection E as ->.
     apply NoDup_app in Nd as (_ & Nd & _). apply (Nd x); [by eapply list_elem_of_lookup_2|set_solver].
  -- cbn. destruct (decide (S i = length k1)) as [Ei|Ei].
     ++ rewrite decide_True by (rewrite last_lookup, <- Ei; done). rewrite lookup_app_r by lia. rewrite Ei, Nat.sub_diag. by destruct k2.
     ++ rewrite decide_False.
        { rewrite R, K, !lookup_app_l by lia. done. }
        rewrite last_lookup. intros E. apply NoDup_app in Nd as (Nd & _ & _). pose proof (NoDup_lookup _ _ _ _ Nd Hx E). lia.
Qed.

Lemma removed_kid_right i x : (length k1 <= i)%nat -> k2 !! (i - length k1)%nat = Some x -> exists n, removed !! x = Some n /\ parent n = Some p
  /\ n_left n = match i with O => None | S j => (k1 ++ k2) !! j end /\ n_right n = (k1 ++ k2) !! S i.
Proof.
  intros Hlen Hx. pose proof clip_kids as Nd. destruct (clip_ne x) as [Hxc _]; [right; by eapply list_elem_of_lookup_2|].
  destruct (f_kid _ _ F p (S i) x) as (n & Hn & P & L & R).
  { rewrite K, lookup_app_r by lia. replace (S i - length k1)%nat with (S (i - length k1)) by lia. done. }
  exists (clipped x n). split_and!; [apply removed_lookup; eauto|done| |].
  -- cbn. destruct (decide (i = length k1)) as [->|Ei].
     ++ rewrite Nat.sub_diag in Hx. rewrite decide_True by (by destruct k2). rewrite (lookup_last_pred k1 c k2).
        destruct (length k1) eqn:El; [done|]. rewrite !lookup_app_l by lia. done.
     ++ rewrite decide_False.
        { rewrite L, K. destruct i as [|i]; [lia|]. rewrite !lookup_app_r by lia.
          replace (S i - length k1)%nat with (S (i - length k1)) by lia. done. }
        intros E. apply NoDup_app in Nd as (_ & _ & Nd). apply NoDup_cons in Nd as [_ Nd]. destruct k2 as [|y k2']; [done|]. injection E as ->.
        pose proof (NoDup_lookup _ 0 _ _ Nd eq_refl Hx). lia.
  -- cbn. rewrite decide_False.
     { rewrite R, K, !lookup_app_r by lia. replace (S (S i) - length k1)%nat with (S (S i - length k1)) by lia. done. }
     intros E. apply last_Some_elem_of in E. apply NoDup_app in Nd as (_ & Nd & _). apply (Nd x); [done|].
     apply elem_of_cons. right. by eapply list_elem_of_lookup_2.
Qed.

Lemma removed_forest : forest removed (drop_kid kids p (k1 ++ k2)).
Proof.
  destruct clip_fields as (E1 & E2 & E3). pose proof clip_parent_ne as Nep. pose proof clip_kids as Nd.
  assert (Mid : forall q x, x ∈ drop_kid kids p (k1 ++ k2) q -> x ∈ kids q /\ x <> c).
  { intros q x. unfold drop_kid. destruct (Z.eqb_spec q p) as [->|Hq]; intros Hx.
    - split; [rewrite K; set_solver|]. apply elem_of_app in Hx. by apply clip_ne.
    - split; [done|]. intros ->. destruct (kid_parent _ _ F q c Hx) as (n & Hn & E). congruence. }
  split.
  - intros x n' Hx. apply removed_lookup in Hx as (Hxc & n & Hn & ->). cbn. rewrite (f_child _ _ F x n Hn). unfold drop_kid.
    destruct (Z.eqb_spec x p) as [->|Hxp]; [|by rewrite decide_False by naive_solver]. rewrite K.
    destruct k1 as [|y k1']; [by rewrite decide_True|]. rewrite decide_False; [done|]. intros [_ E]. by apply last_None in E.
  - intros q i x Hx. destruct (Mid q x) as [Hxk Hxc]; [by eapply list_elem_of_lookup_2|]. unfold drop_kid in *.
    destruct (Z.eqb_spec q p) as [->|Hq].
    + apply lookup_app_Some in Hx as [Hx|[Hlen Hx]]; [by apply removed_kid_left|by apply removed_kid_right].
    + destruct (f_kid _ _ F q i x Hx) as (n & Hn & P & L & R). exists (clipped x n).
      assert (Hk : forall y, y ∈ k1 ++ k2 -> y <> x).
      { intros y Hy ->. apply elem_of_app in Hy. destruct (clip_ne x Hy) as (_ & _ & m & Hm & E). congruence. }
      split_and!; [apply removed_lookup; eauto|done| |]; cbn; rewrite decide_False; [done| |done|]; intros E.
      * apply (Hk x); [|done]. destruct k2; simplify_eq/=; set_solver.
      * apply (Hk x); [|done]. apply last_Some_elem_of in E. set_solver.
  - intros x n' q Hx E. apply removed_lookup in Hx as (Hxc & n & Hn & ->). cbn in E. destruct (f_par _ _ F x n q Hn E) as [Kq [nq Hnq]]. split.
    + unfold drop_kid. destruct (Z.eqb_spec q p) as [->|]; [|done]. rewrite K in Kq. set_solver.
    + exists (clipped q nq). apply removed_lookup. split; [|eauto]. intros ->. rewrite Leaf in Kq. set_solver.
  - intros x n' Hx E. apply removed_lookup in Hx as (Hxc & n & Hn & ->). cbn in *. destruct (f_root _ _ F x n Hn E) as [L R].
    assert (Hk : x ∈ k1 \/ x ∈ k2 -> False).
    { intros Hy. destruct (clip_ne x Hy) as (_ & _ & m & Hm & E'). congruence. }
    rewrite !decide_False; [done| |].
    + intros E'. apply Hk. left. by apply last_Some_elem_of.
    + intros E'. apply Hk. right. destruct k2; simplify_eq/=; set_solver.
  - intros q. unfold drop_kid. destruct (Z.eqb_spec q p); [|apply F]. apply NoDup_app in Nd as (N1 & N2 & N3). apply NoDup_cons in N3 as [_ N3].
    apply NoDup_app. split_and!; [done| |done]. intros y Hy Hy'. apply (N2 y Hy). set_solver.
  - intros x [n' Hx]. apply removed_lookup in Hx as (Hxc & n & Hn & ->). destruct (f_up _ _ F x) as [l U]; [eauto|]. eauto using removed_up.
Qed.
End Remove.
