(* ===== verification/JGroupInv.v ===== *)
(** * The counts of the job tree

    An abstract tree has for each node its chain of ancestors and its jobs with
    their states.  The counts of a group or array are exact when they are the
    numbers of the jobs of all nodes that have it on their chain; the walks of
    mbd.jgrp.c up the tree keep them exact. *)
From stdpp Require Import base gmap list fin_maps.
From Stdlib Require Import ZArith Bool Lia.
From S2P Require Import Prelude Ledger JobId CNum JobArray DepToken DepCond JGroup JTree.
Local Open Scope Z_scope.

(** ** Arithmetic of counts *)

Lemma wrap32_add a b : wrap32 (wrap32 a + b) = wrap32 (a + b).
Proof.
  unfold wrap32. f_equal. replace ((a + 2 ^ 31) mod 2 ^ 32 - 2 ^ 31 + b + 2 ^ 31) with ((a + 2 ^ 31) mod 2 ^ 32 + b) by lia.
  rewrite Zplus_mod_idemp_l. f_equal. lia.
Qed.

Lemma wrap32_add_r a b : wrap32 (a + wrap32 b) = wrap32 (a + b).
Proof. rewrite Z.add_comm, wrap32_add. f_equal. lia. Qed.

Lemma wrap32_sub_r a b : wrap32 (a - wrap32 b) = wrap32 (a - b).
Proof.
  unfold wrap32. f_equal. replace (a - ((b + 2 ^ 31) mod 2 ^ 32 - 2 ^ 31) + 2 ^ 31) with ((a + 2 ^ 32) - (b + 2 ^ 31) mod 2 ^ 32) by lia.
  rewrite Zminus_mod_idemp_r. replace (a + 2 ^ 32 - (b + 2 ^ 31)) with (a - b + 2 ^ 31) by lia. done.
Qed.

Lemma wrap32_idem a : wrap32 (wrap32 a) = wrap32 a.
Proof. pose proof (wrap32_add a 0) as H. by rewrite !Z.add_0_r in H. Qed.

(** The count [k] of a job in state [s]: [NJOBS] and the index of the state. *)
Definition hit (k : nat) (s : Z) : Z := if (k =? 0)%nat || (k =? getIndexOfJStatus s)%nat then 1 else 0.

Lemma index_range s : (1 <= getIndexOfJStatus s <= 8)%nat.
Proof. unfold getIndexOfJStatus. repeat case_match; cbn; unfold JGRP_COUNT_PEND, JGRP_COUNT_NPSUSP, JGRP_COUNT_NRUN, JGRP_COUNT_NSSUSP, JGRP_COUNT_NUSUSP, JGRP_COUNT_NEXIT, JGRP_COUNT_NDONE; lia. Qed.

Lemma count_add_length i d c : length (count_add i d c) = length c.
Proof. apply length_insert. Qed.

Lemma count_add_nth i d c k : (i < length c)%nat ->
  nth k (count_add i d c) 0 = if (k =? i)%nat then wrap32 (nth k c 0 + d) else nth k c 0.
Proof.
  intros L. unfold count_add. rewrite !nth_lookup. destruct (Nat.eqb_spec k i) as [->|Hne].
  - by rewrite list_lookup_insert_eq.
  - by rewrite list_lookup_insert_ne.
Qed.

(** A function on counts that adds [d k] to count [k]. *)
Definition adds (f : list Z -> list Z) (d : nat -> Z) : Prop :=
  forall c, length c = 9%nat -> (forall k, (k < 8)%nat -> int32 (nth k c 0)) ->
    length (f c) = 9%nat /\ forall k, (k < 8)%nat -> nth k (f c) 0 = wrap32 (nth k c 0 + d k).

Lemma hit_add c s d k : length c = 9%nat -> int32 (nth k c 0) ->
  nth k (count_add JGRP_COUNT_NJOBS d (count_add (getIndexOfJStatus s) d c)) 0 = wrap32 (nth k c 0 + d * hit k s).
Proof.
  intros L I. pose proof (index_range s) as R. rewrite !count_add_nth by (rewrite ?count_add_length; unfold JGRP_COUNT_NJOBS; lia).
  unfold hit, JGRP_COUNT_NJOBS. destruct (Nat.eqb_spec k 0) as [H0|H0], (Nat.eqb_spec k (getIndexOfJStatus s)) as [H1|H1]; cbn [orb];
    rewrite ?Z.mul_1_r; try done; [lia|]. rewrite Z.mul_0_r, Z.add_0_r. by rewrite wrap32_id.
Qed.

Definition hits (s : Z) (k : nat) : Z := if s =? JOB_STAT_NULL then 0 else hit k s.

Lemma count_status_adds old new : adds (count_status old new) (fun k => hits new k - hits old k).
Proof.
  intros c L I. unfold count_status, hits. split.
  - destruct (old =? _), (new =? _); by rewrite ?count_add_length.
  - intros k Hk. specialize (I k Hk). destruct (old =? _), (new =? _).
    + by rewrite Z.add_0_r, wrap32_id.
    + rewrite hit_add by done. apply (f_equal wrap32). lia.
    + rewrite hit_add by done. apply (f_equal wrap32). lia.
    + rewrite hit_add, hit_add; [|done|done|by rewrite !count_add_length|rewrite hit_add by done; apply wrap32_int32].
      rewrite wrap32_add. f_equal. lia.
Qed.

Lemma count_all_adds factor c' : adds (count_all factor c') (fun k => factor * nth k c' 0).
Proof.
  intros c L I. do 9 (destruct c as [|? c]; [done|]). destruct c; [|done]. split; [done|].
  intros k Hk. do 8 (destruct k as [|k]; [done|]). lia.
Qed.

(** ** Abstract trees *)

Record anode := mkA { a_chain : list Z; a_jobs : list (Z * Z) }.

(** The jobs that count [k] counts. *)
Definition own (k : nat) (js : list (Z * Z)) : Z := foldr (fun p n => hit k p.2 + n) 0 js.

Definition weight (g : Z) (k : nat) (a : anode) : Z := if decide (g ∈ a_chain a) then own k (a_jobs a) else 0.
Definition total (A : gmap Z anode) (g : Z) (k : nat) : Z := zsum (weight g k) A.

Lemma total_insert A x a g k : A !! x = None -> total (<[x := a]> A) g k = total A g k + weight g k a.
Proof. intros H. unfold total. rewrite zsum_insert by done. lia. Qed.

Lemma total_replace A x a a' g k : A !! x = Some a -> total (<[x := a']> A) g k = total A g k - weight g k a + weight g k a'.
Proof. intros H. unfold total. by apply zsum_replace. Qed.

Lemma total_delete A x a g k : A !! x = Some a -> total (delete x A) g k = total A g k - weight g k a.
Proof.
  intros H. rewrite <- (insert_delete_id A x a H) at 2. rewrite total_insert by (by rewrite lookup_delete_eq). lia.
Qed.

(** ** Exact counts *)

Definition based (n : jgTreeNode) : Prop := is_Some (base_of (ndInfo n)).

(** The struct of node [p] is number [p]. *)
Definition own_base (h : gmap Z jgTreeNode) : Prop := forall p n b, h !! p = Some n -> base_of (ndInfo n) = Some b -> b = p.

Definition counts_for (A : gmap Z anode) (p : Z) (a : jgArrayBase) : Prop :=
  status a <> JGRP_VOID /\ length (counts a) = 9%nat /\ forall k, (k < 8)%nat -> nth k (counts a) 0 = wrap32 (total A p k).

Definition exact (t : jtree) (A : gmap Z anode) : Prop :=
  forall p n, nodes t !! p = Some n -> based n -> exists a, bases t !! p = Some a /\ counts_for A p a.

(** Nodes with counts on a list. *)
Definition upd (f : list Z -> list Z) (a : jgArrayBase) : jgArrayBase := mkArray (status a) (f (counts a)).
Definition counted (h : gmap Z jgTreeNode) (x : Z) : bool :=
  match h !! x with Some n => match base_of (ndInfo n) with Some _ => true | None => false end | None => false end.
Definition upd_on (h : gmap Z jgTreeNode) (f : list Z -> list Z) (l : list Z) (B : gmap Z jgArrayBase) : gmap Z jgArrayBase :=
  map_imap (fun x a => Some (if bool_decide (x ∈ l) && counted h x then upd f a else a)) B.

Lemma upd_on_lookup h f l B x : upd_on h f l B !! x = (if bool_decide (x ∈ l) && counted h x then upd f else id) <$> B !! x.
Proof. unfold upd_on. rewrite map_lookup_imap. by destruct (B !! x); cbn; [case_match|]. Qed.

Lemma upd_on_dom h f l B x : is_Some (upd_on h f l B !! x) <-> is_Some (B !! x).
Proof. rewrite upd_on_lookup. by rewrite fmap_is_Some. Qed.

Lemma exact_base t A p n b : own_base (nodes t) -> exact t A -> nodes t !! p = Some n -> base_of (ndInfo n) = Some b ->
  b = p /\ exists a, bases t !! p = Some a /\ counts_for A p a.
Proof. intros O E Hp Hb. split; [by eapply O|]. apply (E p n Hp). by eexists. Qed.

Lemma upd_on_nil h f B : upd_on h f [] B = B.
Proof. apply map_eq. intros x. by rewrite upd_on_lookup, bool_decide_eq_false_2, option_fmap_id by set_solver. Qed.

Lemma upd_on_cons h f p l B a : counted h p = true -> p ∉ l -> B !! p = Some a ->
  upd_on h f l (<[p := upd f a]> B) = upd_on h f (p :: l) B.
Proof.
  intros C Hp Ha. apply map_eq. intros x. rewrite !upd_on_lookup. destruct (decide (x = p)) as [->|Hx].
  - rewrite lookup_insert_eq, Ha, C, bool_decide_eq_false_2, bool_decide_eq_true_2 by set_solver. done.
  - rewrite lookup_insert_ne by done. replace (bool_decide (x ∈ p :: l)) with (bool_decide (x ∈ l)); [done|].
    apply bool_decide_ext. set_solver.
Qed.

Lemma upd_on_skip h f p l B : counted h p = false -> upd_on h f l B = upd_on h f (p :: l) B.
Proof.
  intros C. apply map_eq. intros x. rewrite !upd_on_lookup. destruct (decide (x = p)) as [->|Hx]; [by rewrite C, !andb_false_r|].
  replace (bool_decide (x ∈ p :: l)) with (bool_decide (x ∈ l)); [done|]. apply bool_decide_ext. set_solver.
Qed.

Lemma set_bases_id t : set_bases (bases t) t = t.
Proof. by destruct t. Qed.

(** Every node with counts has its struct. *)
Definition has_bases (t : jtree) : Prop := forall x n, nodes t !! x = Some n -> based n -> is_Some (bases t !! x).

Lemma has_bases_upd t p a : has_bases t -> has_bases (set_bases (<[p := a]> (bases t)) t).
Proof.
  intros Bs x m Hm Hb. cbn in *. destruct (decide (x = p)) as [->|Hx]; [rewrite lookup_insert_eq; eauto|].
  rewrite lookup_insert_ne by done. by eapply Bs.
Qed.

(** The walk of [updJgrpCountByJStatus]. *)
Lemma count_up_spec f t o l fuel : own_base (nodes t) -> has_bases t -> up (nodes t) o l -> (length l <= fuel)%nat ->
  count_up fuel f o t = Ok (set_bases (upd_on (nodes t) f l (bases t)) t).
Proof.
  intros O Bs U. pose proof (path_nodup _ _ _ _ U) as N. remember (nodes t) as h eqn:Eh. revert fuel t Eh Bs N.
  induction U as [|p n l Hp U IH]; intros fuel t -> Bs N L.
  - rewrite upd_on_nil, set_bases_id. by destruct fuel.
  - destruct fuel as [|fuel]; [cbn in L; lia|]. apply NoDup_cons in N as [Np N]. cbn in L.
    cbn [count_up]. unfold node_at. rewrite Hp. cbn [deref mbind res_bind]. destruct (base_of (ndInfo n)) as [b|] eqn:Eb.
    + pose proof (O p n b Hp Eb) as ->. destruct (Bs p n Hp) as [a Ha]; [by eexists|]. unfold on_counts. rewrite Ha. cbn [deref mbind res_bind].
      rewrite IH; [|done|by apply has_bases_upd|done|lia]. cbn. f_equal.
      rewrite <- (upd_on_cons (nodes t) f p l (bases t) a); [done| |done|done]. unfold counted. by rewrite Hp, Eb.
    + cbn [mbind res_bind]. rewrite IH by (try done; lia). rewrite (upd_on_skip _ _ p); [done|]. unfold counted. by rewrite Hp, Eb.
Qed.

(** The walk of [updJgrpCountByOp] over ancestors that all have counts. *)
Lemma op_up_spec factor b a t o l fuel : own_base (nodes t) -> has_bases t -> up (nodes t) o l ->
  Forall (fun x => counted (nodes t) x = true) l -> b ∉ l -> bases t !! b = Some a -> (length l <= fuel)%nat ->
  op_up fuel factor b o t = Ok (set_bases (upd_on (nodes t) (count_all factor (counts a)) l (bases t)) t).
Proof.
  intros O Bs U. pose proof (path_nodup _ _ _ _ U) as N. remember (nodes t) as h eqn:Eh. revert fuel t Eh Bs N.
  induction U as [|p n l Hp U IH]; intros fuel t -> Bs N C Hb Ha L.
  - rewrite upd_on_nil, set_bases_id. by destruct fuel.
  - destruct fuel as [|fuel]; [cbn in L; lia|]. apply NoDup_cons in N as [Np N]. apply Forall_cons in C as [Cp C]. cbn in L.
    cbn [op_up]. unfold node_at. rewrite Hp. cbn [deref mbind res_bind]. rewrite Ha. cbn [deref mbind res_bind].
    pose proof Cp as Cp'. unfold counted in Cp. rewrite Hp in Cp. destruct (base_of (ndInfo n)) as [b'|] eqn:Eb; [|done].
    cbn [deref mbind res_bind]. pose proof (O p n b' Hp Eb) as ->. destruct (Bs p n Hp) as [a' Ha']; [by eexists|].
    unfold on_counts. rewrite Ha'. cbn [deref mbind res_bind].
    rewrite IH; [|done|by apply has_bases_upd|done|done|set_solver| |lia].
    + cbn. f_equal. by rewrite <- (upd_on_cons (nodes t) _ p l (bases t) a').
    + cbn. rewrite lookup_insert_ne; [done|]. set_solver.
Qed.

Lemma counted_based h p n : h !! p = Some n -> counted h p = true <-> based n.
Proof. intros Hp. unfold counted, based. rewrite Hp. destruct (base_of (ndInfo n)); [naive_solver|]. split; [done|]. intros [? ?]. done. Qed.

(** Counts stay exact when the walk adds what the change of the tree adds. *)
Lemma upd_exact f d l t A A' : exact t A -> adds f d ->
  (forall p n k, nodes t !! p = Some n -> based n -> (k < 8)%nat -> total A' p k = total A p k + if decide (p ∈ l) then d k else 0) ->
  exact (set_bases (upd_on (nodes t) f l (bases t)) t) A'.
Proof.
  intros E Ad T p n Hp Hb. cbn in Hp. destruct (E p n Hp Hb) as (a & Ha & V & L & C). cbn. rewrite upd_on_lookup, Ha. cbn.
  rewrite (proj2 (counted_based _ p n Hp) Hb), andb_true_r.
  assert (I : forall k, (k < 8)%nat -> int32 (nth k (counts a) 0)) by (intros k Hk; rewrite C by done; apply wrap32_int32).
  destruct (Ad (counts a) L I) as [L' C']. case_bool_decide as Hl.
  - exists (upd f a). split; [done|]. split_and!; [done|done|]. intros k Hk. cbn. rewrite C', C, wrap32_add, (T p n) by done.
    by rewrite decide_True.
  - exists a. split; [done|]. split_and!; [done|done|]. intros k Hk. rewrite C, (T p n) by done. rewrite decide_False by done. f_equal. lia.
Qed.

Lemma exact_has_bases t A : exact t A -> has_bases t.
Proof. intros E x n Hx Hb. destruct (E x n Hx Hb) as (a & Ha & _). eauto. Qed.

(** ** The state of the tree *)

(** Pointers, chains and counts; [kids] are the children of each node. *)
Record shape (t : jtree) (kids : Z -> list Z) (A : gmap Z anode) : Prop := {
  s_forest : forest (nodes t) kids;
  s_dom x : is_Some (A !! x) <-> is_Some (nodes t !! x);
  s_chain x a : A !! x = Some a -> exists l, a_chain a = x :: l /\ up (nodes t) (Some x) (x :: l);
  s_leaf p n : nodes t !! p = Some n -> kids p <> [] -> exists b, ndInfo n = GroupInfo b;
  s_base : own_base (nodes t);
  s_exact : exact t A;
  s_root : exists n, nodes t !! groupRoot t = Some n /\ ndInfo n = GroupInfo (groupRoot t) /\ parent n = None }.

(** Job [r] is in state [s] and belongs to node [x]. *)
Definition job_at (R : gmap Z jobRec) (x : Z) (p : Z * Z) : Prop :=
  exists j, R !! p.1 = Some j /\ jStatus (core j) = p.2 /\ p.2 <> JOB_STAT_NULL /\ jgrpNode j = Some x
    /\ nodeType (core j) = JGRP_NODE_JOB /\ 0 < jobId (core j).

Abbreviation row := (path (fun j : jobRec => nextJob (core j))).

(** The jobs of a node. *)
Definition info_ok (R : gmap Z jobRec) (x : Z) (i : nodeInfo) (js : list (Z * Z)) : Prop :=
  match i with
  | GroupInfo _ => js = []
  | JobInfo o => exists r s, o = Some r /\ js = [(r, s)] /\ job_at R x (r, s) /\ row R (Some r) [r]
  | ArrayInfo _ o => exists a ja, o = Some a /\ R !! a = Some ja /\ jgrpNode ja = Some x /\ nodeType (core ja) = JGRP_NODE_ARRAY
      /\ 0 < jobId (core ja) /\ jStatus (core ja) <> JOB_STAT_NULL /\ row R (nextJob (core ja)) js.*1 /\ Forall (job_at R x) js /\ Z.of_nat (length js) < 2 ^ 31
  end.

Definition holds (i : nodeInfo) (js : list (Z * Z)) (r : Z) : Prop := r ∈ js.*1 \/ exists b, i = ArrayInfo b (Some r).

#[global] Instance holds_dec i js r : Decision (holds i js r).
Proof.
  unfold holds. destruct (decide (r ∈ js.*1)) as [H|H]; [left; by left|].
  destruct i as [o|b|b o]; [right; naive_solver..|]. destruct (decide (o = Some r)) as [->|Ho]; [left; eauto|right; naive_solver].
Defined.

(** Record [r] belongs to a node of the tree. *)
Definition placed (t : jtree) (A : gmap Z anode) (r : Z) : Prop :=
  exists j x n a, recs t !! r = Some j /\ jgrpNode j = Some x /\ nodes t !! x = Some n /\ A !! x = Some a /\ holds (ndInfo n) (a_jobs a) r.

(** The jobs of all nodes, and the identifiers of all jobs, which belong to nodes
    except those of [P]. *)
Record jobs_but (P : Z -> Prop) (t : jtree) (A : gmap Z anode) : Prop := {
  j_info x n a : nodes t !! x = Some n -> A !! x = Some a -> info_ok (recs t) x (ndInfo n) (a_jobs a);
  j_ids id r : ids t !! id = Some r -> 0 < id /\ (placed t A r \/ P r) /\ exists j, recs t !! r = Some j /\ jobId (core j) = id;
  j_fresh x : is_Some (nodes t !! x) \/ is_Some (recs t !! x) \/ is_Some (bases t !! x) -> x < fresh t }.
Abbreviation jobs_ok := (jobs_but (fun _ => False)).

(** Between operations: every node hangs below the root, and the walk over the
    conditions stands at a node. *)
Record inv_but (P : Z -> Prop) (t : jtree) (kids : Z -> list Z) (A : gmap Z anode) : Prop := {
  i_shape : shape t kids A;
  i_jobs : jobs_but P t A;
  i_attached x a : A !! x = Some a -> groupRoot t ∈ a_chain a;
  i_entry e : entry t = Some e -> is_Some (nodes t !! e) }.
Abbreviation inv := (inv_but (fun _ => False)).

(** *** Lists of jobs *)

Definition set_state (r s : Z) (js : list (Z * Z)) : list (Z * Z) := map (fun p => if p.1 =? r then (r, s) else p) js.

Lemma set_state_fst r s js : (set_state r s js).*1 = js.*1.
Proof. unfold set_state. induction js as [|[r' s'] js IH]; cbn in *; [done|]. rewrite IH. destruct (Z.eqb_spec r' r); cbn; congruence. Qed.

Lemma set_state_other r s js : r ∉ js.*1 -> set_state r s js = js.
Proof.
  unfold set_state. induction js as [|[r' s'] js IH]; cbn in *; [done|]. intros H. rewrite IH by set_solver.
  destruct (Z.eqb_spec r' r); [set_solver|done].
Qed.

Lemma own_cons k p js : own k (p :: js) = hit k p.2 + own k js.
Proof. done. Qed.

Lemma own_app k js js' : own k (js ++ js') = own k js + own k js'.
Proof. induction js as [|p js IH]; [done|]. change ((p :: js) ++ js') with (p :: (js ++ js')). rewrite !own_cons, IH. lia. Qed.

Lemma own_set_state k r s s' js : NoDup js.*1 -> (r, s) ∈ js -> own k (set_state r s' js) = own k js - hit k s + hit k s'.
Proof.
  induction js as [|[r0 s0] js IH]; intros N H; [set_solver|]. rewrite fmap_cons in N. apply NoDup_cons in N as [N1 N].
  change (set_state r s' ((r0, s0) :: js)) with ((if r0 =? r then (r, s') else (r0, s0)) :: set_state r s' js). rewrite !own_cons. cbn [fst snd] in *.
  apply elem_of_cons in H as [[= -> ->]|H].
  - rewrite Z.eqb_refl, set_state_other by done. cbn [snd]. lia.
  - destruct (Z.eqb_spec r0 r) as [->|Hne].
    + exfalso. apply N1. apply list_elem_of_fmap. by exists (r, s).
    + cbn [snd]. rewrite IH by done. lia.
Qed.

Lemma own_zero js : own 0 js = Z.of_nat (length js).
Proof. induction js as [|p js IH]; [done|]. rewrite own_cons, IH. unfold hit. cbn. lia. Qed.

(** *** Changes of one record *)

(** What the tree needs of a record, except the state. *)
Definition keeps (j j' : jobRec) : Prop :=
  jgrpNode j' = jgrpNode j /\ nodeType (core j') = nodeType (core j) /\ jobId (core j') = jobId (core j)
  /\ nextJob (core j') = nextJob (core j).

Definition state_all (r s : Z) (A : gmap Z anode) : gmap Z anode := (fun a => mkA (a_chain a) (set_state r s (a_jobs a))) <$> A.

Section Record.
Variables (R : gmap Z jobRec) (r : Z) (j j' : jobRec).
Hypotheses (Hj : R !! r = Some j) (Kj : keeps j j') (Hs : jStatus (core j') <> JOB_STAT_NULL).
Let R' := <[r := j']> R.

Lemma job_at_rec x p : job_at R x p -> job_at R' x (if p.1 =? r then (r, jStatus (core j')) else p).
Proof.
  intros (j0 & H1 & H2 & H3 & H4 & H5 & H6). destruct Kj as (K1 & K2 & K3 & K4). unfold R'. destruct (Z.eqb_spec p.1 r) as [E|E].
  - rewrite E, Hj in H1. injection H1 as <-. exists j'. cbn. rewrite lookup_insert_eq, K1, K2, K3. done.
  - exists j0. by rewrite lookup_insert_ne.
Qed.

Lemma row_rec o l : row R o l -> row R' o l.
Proof.
  apply path_ext. intros x n _ Hn. unfold R'. destruct (decide (x = r)) as [->|Hx].
  - rewrite Hj in Hn. injection Hn as <-. exists j'. rewrite lookup_insert_eq. destruct Kj as (_ & _ & _ & K4). done.
  - exists n. by rewrite lookup_insert_ne.
Qed.

Lemma info_ok_rec x i js : info_ok R x i js -> info_ok R' x i (set_state r (jStatus (core j')) js).
Proof.
  destruct i as [o|b|b o]; cbn.
  - intros (r0 & s & -> & -> & J & W). exists r0, (if r0 =? r then jStatus (core j') else s).
    pose proof (job_at_rec x _ J) as J'. cbn in J' |- *. split_and!; [done| | |by apply row_rec];
      destruct (Z.eqb_spec r0 r) as [->|]; done.
  - by intros ->.
  - intros (a & ja & -> & Ha & N & T & I & S & W & J & L). pose proof Kj as (K1 & K2 & K3 & K4).
    assert (exists ja', R' !! a = Some ja' /\ keeps ja ja' /\ jStatus (core ja') <> JOB_STAT_NULL) as (ja' & Ha' & (E1 & E2 & E3 & E4) & S').
    { unfold R'. destruct (decide (a = r)) as [->|Hne]; [rewrite lookup_insert_eq; rewrite Hj in Ha; injection Ha as <-; eauto|].
      rewrite lookup_insert_ne by done. exists ja. split_and!; done. }
    exists a, ja'. rewrite E1, E2, E3, E4, set_state_fst. split_and!; try done.
    + by apply row_rec.
    + unfold set_state. apply Forall_fmap. eapply Forall_impl; [exact J|]. intros p Hp. by apply job_at_rec.
    + unfold set_state. by rewrite length_map.
Qed.
End Record.

Lemma holds_state i js r s r0 : holds i js r0 -> holds i (set_state r s js) r0.
Proof. unfold holds. by rewrite set_state_fst. Qed.

Lemma jobs_ok_rec P t A r j j' : jobs_but P t A -> recs t !! r = Some j -> keeps j j' -> jStatus (core j') <> JOB_STAT_NULL ->
  jobs_but P (set_recs (<[r := j']> (recs t)) t) (state_all r (jStatus (core j')) A).
Proof.
  intros [Ji Jd Jf] Hj Kj Hs.
  assert (Lk : forall r0 j0, recs t !! r0 = Some j0 -> exists j1, <[r := j']> (recs t) !! r0 = Some j1 /\ keeps j0 j1).
  { intros r0 j0 H0. destruct (decide (r0 = r)) as [->|Hne]; [rewrite lookup_insert_eq; rewrite Hj in H0; injection H0 as <-; eauto|].
    rewrite lookup_insert_ne by done. exists j0. split; [done|]. done. }
  split; cbn.
  - intros x n a Hn Ha. unfold state_all in Ha. rewrite lookup_fmap_Some in Ha. destruct Ha as (a0 & <- & Ha). cbn.
    eapply info_ok_rec; eauto.
  - intros id r0 H0. destruct (Jd id r0 H0) as (Pos & Pl & j0 & H6 & H7).
    destruct (Lk r0 j0 H6) as (j1 & Hj1 & K1 & K2 & K3 & K4). split; [done|]. split; [|exists j1; split; [done|congruence]].
    destruct Pl as [(j0' & x & n & a & H1 & H2 & H3 & H4 & H5)|Pr]; [left; simplify_eq|by right].
    exists j1, x, n, (mkA (a_chain a) (set_state r (jStatus (core j')) (a_jobs a))). cbn. split_and!; [done|congruence|done| |by apply holds_state].
    unfold state_all. by rewrite lookup_fmap, H4.
  - intros x Hx. apply Jf. destruct Hx as [?|[Hx|?]]; [by left| |by right; right]. right. left.
    destruct (decide (x = r)) as [->|Hne]; [eauto|]. by rewrite lookup_insert_ne in Hx.
Qed.

(** A job belongs to one node. *)
Lemma member_rec P t A x n a r s : jobs_but P t A -> nodes t !! x = Some n -> A !! x = Some a -> (r, s) ∈ a_jobs a -> job_at (recs t) x (r, s).
Proof.
  intros J Hn Ha Hr. pose proof (j_info _ _ _ J x n a Hn Ha) as I. destruct (ndInfo n) as [o|b|b o]; cbn in I.
  - destruct I as (r0 & s0 & _ & E & J0 & _). rewrite E in Hr. apply list_elem_of_singleton in Hr. by injection Hr as -> ->.
  - by rewrite I in Hr; apply elem_of_nil in Hr.
  - destruct I as (a0 & ja & _ & _ & _ & _ & _ & _ & _ & F & _). rewrite Forall_forall in F. by apply F.
Qed.

Lemma member_nodup P t A x n a : jobs_but P t A -> nodes t !! x = Some n -> A !! x = Some a -> NoDup (a_jobs a).*1.
Proof.
  intros J Hn Ha. pose proof (j_info _ _ _ J x n a Hn Ha) as I. destruct (ndInfo n) as [o|b|b o]; cbn in I.
  - destruct I as (r0 & s0 & _ & -> & _). apply NoDup_singleton.
  - rewrite I. constructor.
  - destruct I as (a0 & ja & _ & _ & _ & _ & _ & _ & W & _). by eapply path_nodup.
Qed.

Lemma member_one P t A x n a r y m b : jobs_but P t A -> nodes t !! x = Some n -> A !! x = Some a -> r ∈ (a_jobs a).*1 ->
  nodes t !! y = Some m -> A !! y = Some b -> r ∈ (a_jobs b).*1 -> x = y.
Proof.
  intros J Hn Ha Hr Hm Hb Hr'. apply list_elem_of_fmap in Hr as ([r1 s1] & -> & H1). apply list_elem_of_fmap in Hr' as ([r2 s2] & E & H2).
  cbn in E. subst r2. destruct (member_rec P t A x n a _ _ J Hn Ha H1) as (j1 & A1 & _ & _ & A2 & _).
  destruct (member_rec P t A y m b _ _ J Hm Hb H2) as (j2 & B1 & _ & _ & B2 & _). cbn in *. congruence.
Qed.

Lemma state_all_one P t A x n a r s : jobs_but P t A -> (forall y, is_Some (A !! y) -> is_Some (nodes t !! y)) ->
  nodes t !! x = Some n -> A !! x = Some a -> r ∈ (a_jobs a).*1 ->
  state_all r s A = <[x := mkA (a_chain a) (set_state r s (a_jobs a))]> A.
Proof.
  intros J D Hn Ha Hr. apply map_eq. intros y. unfold state_all. rewrite lookup_fmap. destruct (decide (y = x)) as [->|Hy].
  - by rewrite lookup_insert_eq, Ha.
  - rewrite lookup_insert_ne by done. destruct (A !! y) as [b|] eqn:Hb; [|done]. cbn. f_equal. destruct (D y) as [m Hm]; [eauto|].
    rewrite set_state_other; [by destruct b|]. intros H. apply Hy. symmetry. by eapply (member_one P t A x n a r y m b).
Qed.

Lemma state_all_none P t A r s : jobs_but P t A -> (forall x a, A !! x = Some a -> r ∉ (a_jobs a).*1) -> state_all r s A = A.
Proof.
  intros J N. apply map_eq. intros y. unfold state_all. rewrite lookup_fmap. destruct (A !! y) as [b|] eqn:Hb; [|done]. cbn. f_equal.
  rewrite set_state_other by (by eapply N). by destruct b.
Qed.

#[global] Arguments own : simpl never.
#[global] Arguments hit : simpl never.
#[global] Arguments set_state : simpl never.
