(* ===== verification/JGroupOps.v ===== *)
(** * The operations on the job tree keep it well formed

    Each operation of JGroup.v, started in a state that satisfies [inv], ends
    without a fault in a state that satisfies [inv]. *)
From stdpp Require Import base gmap list fin_maps.
From Stdlib Require Import ZArith Bool Lia.
From S2P Require Import Prelude Ledger JobId CNum ListSet JobArray DepToken DepCond JGroup JTree JGroupInv.
Local Open Scope Z_scope.

(** ** Changes of state *)

Lemma updJgrp_spec t r j l old new : own_base (nodes t) -> has_bases t -> recs t !! r = Some j -> up (nodes t) (jgrpNode j) l ->
  updJgrpCountByJStatus t r old new = Ok (set_bases (upd_on (nodes t) (count_status old new) l (bases t)) t).
Proof.
  intros O B Hj U. unfold updJgrpCountByJStatus, rec_at. rewrite Hj. cbn [deref mbind res_bind].
  apply count_up_spec; [done|done|done|]. apply path_length in U. lia.
Qed.

Lemma on_rec_eq t r f j : recs t !! r = Some j -> on_rec r f t = Ok (set_recs (<[r := f j]> (recs t)) t).
Proof. intros Hj. unfold on_rec, rec_at. by rewrite Hj. Qed.

Lemma rec_at_eq t r j : recs t !! r = Some j -> rec_at t r = Ok j.
Proof. intros Hj. unfold rec_at. by rewrite Hj. Qed.

Lemma node_at_eq h p n : h !! p = Some n -> node_at h p = Ok n.
Proof. intros Hj. unfold node_at. by rewrite Hj. Qed.

(** A job whose state changes. *)
Lemma total_state P t A x n a r s s' g k : jobs_but P t A -> (forall y, is_Some (A !! y) -> is_Some (nodes t !! y)) ->
  nodes t !! x = Some n -> A !! x = Some a -> (r, s) ∈ a_jobs a ->
  total (state_all r s' A) g k = total A g k + if decide (g ∈ a_chain a) then hit k s' - hit k s else 0.
Proof.
  intros J D Hn Ha Hr. rewrite (state_all_one P t A x n a) by (try done; apply list_elem_of_fmap; by exists (r, s)).
  rewrite (total_replace A x a) by done. unfold weight. cbn. case_decide; [|lia].
  rewrite (own_set_state k r s) by (try done; by eapply member_nodup). lia.
Qed.

Lemma shape_state t kids A r s R : shape t kids A -> exact t (state_all r s A) -> shape (set_recs R t) kids (state_all r s A).
Proof.
  intros [S1 S2 S3 S4 S5 S6 S7] E. split; cbn; try done.
  - intros y. unfold state_all. rewrite lookup_fmap, fmap_is_Some. apply S2.
  - intros y a. unfold state_all. rewrite lookup_fmap_Some. intros (a0 & <- & Ha). cbn. by apply S3.
Qed.

Lemma set_bases_shape t kids A B : shape t kids A -> exact (set_bases B t) A -> shape (set_bases B t) kids A.
Proof. by intros [S1 S2 S3 S4 S5 S6 S7] E. Qed.

Lemma exact_upd_state P t kids A x n a r s s' old new : shape t kids A -> jobs_but P t A ->
  nodes t !! x = Some n -> A !! x = Some a -> (r, s) ∈ a_jobs a ->
  (forall k, (k < 8)%nat -> hits new k - hits old k = hit k s' - hit k s) ->
  exact (set_bases (upd_on (nodes t) (count_status old new) (a_chain a) (bases t)) t) (state_all r s' A).
Proof.
  intros S J Hn Ha Hr Hd. eapply (upd_exact _ _ _ _ A); [apply S|apply count_status_adds|].
  intros p m k Hp Hb Hk. rewrite (total_state P t A x n a r s) by (try done; intros; by apply S). case_decide; [|done]. by rewrite Hd.
Qed.

(** The state of a job and the counts are changed together. *)
Lemma status_inv P t kids A x n a r j j' s old new : inv_but P t kids A -> nodes t !! x = Some n -> A !! x = Some a -> (r, s) ∈ a_jobs a ->
  recs t !! r = Some j -> keeps j j' -> jStatus (core j') <> JOB_STAT_NULL ->
  (forall k, (k < 8)%nat -> hits new k - hits old k = hit k (jStatus (core j')) - hit k s) ->
  inv_but P (set_recs (<[r := j']> (recs t)) (set_bases (upd_on (nodes t) (count_status old new) (a_chain a) (bases t)) t)) kids
    (state_all r (jStatus (core j')) A).
Proof.
  intros [S J At En] Hn Ha Hr Hj Kj Hs Hd. pose proof (exact_upd_state _ t kids A x n a r s _ old new S J Hn Ha Hr Hd) as E. split.
  - destruct S as [S1 S2 S3 S4 S5 S6 S7]. split; cbn; try done.
    + intros y. unfold state_all. rewrite lookup_fmap, fmap_is_Some. apply S2.
    + intros y b. unfold state_all. rewrite lookup_fmap_Some. intros (b0 & <- & Hb). cbn. by apply S3.
  - pose proof (jobs_ok_rec _ t A r j j' J Hj Kj Hs) as [J1 J2 J3]. split; cbn in *; try done.
    intros y Hy. apply J3. rewrite upd_on_dom in Hy. done.
  - intros y b Hb. unfold state_all in Hb. rewrite lookup_fmap_Some in Hb. destruct Hb as (b0 & <- & Hb). cbn. by apply (At y).
  - done.
Qed.

(** A member has a record, and the chain of its node leads to the root. *)
Lemma member_facts P t kids A x a r s : inv_but P t kids A -> A !! x = Some a -> (r, s) ∈ a_jobs a ->
  exists n j, nodes t !! x = Some n /\ recs t !! r = Some j /\ jStatus (core j) = s /\ s <> JOB_STAT_NULL /\ jgrpNode j = Some x
    /\ nodeType (core j) = JGRP_NODE_JOB /\ 0 < jobId (core j) /\ up (nodes t) (Some x) (a_chain a).
Proof.
  intros I Ha Hr. destruct (s_dom _ _ _ (i_shape _ _ _ _ I) x) as [D _]. destruct D as [n Hn]; [eauto|].
  destruct (member_rec _ t A x n a r s (i_jobs _ _ _ _ I) Hn Ha Hr) as (j & H1 & H2 & H3 & H4 & H5 & H6). cbn in *.
  destruct (s_chain _ _ _ (i_shape _ _ _ _ I) x a Ha) as (l & -> & U). eauto 12.
Qed.

(** States of jobs: what the index of a count depends on. *)
Lemma index_SET_STATE s n : getIndexOfJStatus (SET_STATE s (MASK_STATUS n)) = getIndexOfJStatus (MASK_STATUS n).
Proof.
  unfold getIndexOfJStatus. replace (MASK_STATUS (Z.ldiff (Z.ldiff (Z.ldiff (SET_STATE s (MASK_STATUS n)) JOB_STAT_UNKWN) JOB_STAT_PDONE) JOB_STAT_PERR))
    with (MASK_STATUS (Z.ldiff (Z.ldiff (Z.ldiff (MASK_STATUS n) JOB_STAT_UNKWN) JOB_STAT_PDONE) JOB_STAT_PERR)); [done|].
  apply Z.bits_inj'. intros i Hi. unfold SET_STATE, MASK_STATUS. rewrite !Z.land_spec, !Z.ldiff_spec, !Z.lor_spec, !Z.land_spec, !Z.ldiff_spec.
  by destruct (Z.testbit MASK_INT_JOB_STAT i), (Z.testbit s i); rewrite ?andb_false_r.
Qed.

Lemma SET_STATE_nonzero s n : MASK_STATUS n <> 0 -> SET_STATE s (MASK_STATUS n) <> JOB_STAT_NULL.
Proof. unfold SET_STATE, JOB_STAT_NULL. intros H E. apply Z.lor_eq_0_iff in E as [_ E]. done. Qed.

Lemma hit_index k s s' : getIndexOfJStatus s = getIndexOfJStatus s' -> hit k s = hit k s'.
Proof. unfold hit. by intros ->. Qed.

Lemma hits_nonzero s k : s <> JOB_STAT_NULL -> hits s k = hit k s.
Proof. unfold hits. intros H. by rewrite (proj2 (Z.eqb_neq _ _) H). Qed.

Theorem changeState_ok t kids A x a r s newStatus : inv t kids A -> A !! x = Some a -> (r, s) ∈ a_jobs a -> MASK_STATUS newStatus <> 0 ->
  exists t' A', changeState t r newStatus = Ok t' /\ inv t' kids A'.
Proof.
  intros I Ha Hr Hm. destruct (member_facts _ t kids A x a r s I Ha Hr) as (n & j & Hn & Hj & Es & Hs & Ej & Ty & Id & U).
  unfold changeState. rewrite (rec_at_eq t r j Hj). cbn [mbind res_bind]. case_match; [eauto|].
  rewrite (proj2 (Z.leb_le 0 (jobId (core j)))) by lia.
  rewrite (updJgrp_spec t r j (a_chain a)); [|apply I|eapply exact_has_bases, I|done|by rewrite Ej]. cbn [mbind res_bind].
  rewrite (on_rec_eq _ r _ j) by done. eexists _, _. split; [done|].
  eapply (status_inv _ t kids A x n a r j _ s); try done; cbn.
  - by apply SET_STATE_nonzero.
  - intros k Hk. rewrite Es, !hits_nonzero by done. f_equal. apply hit_index. symmetry. apply index_SET_STATE.
Qed.

Theorem requeueOnTree_ok t kids A x a r s psusp : inv t kids A -> A !! x = Some a -> (r, s) ∈ a_jobs a ->
  exists t' A', requeueOnTree t r psusp = Ok t' /\ inv t' kids A'.
Proof.
  intros I Ha Hr. destruct (member_facts _ t kids A x a r s I Ha Hr) as (n & j & Hn & Hj & Es & Hs & Ej & Ty & Id & U).
  unfold requeueOnTree. rewrite (rec_at_eq t r j Hj). cbn [mbind res_bind].
  rewrite (updJgrp_spec t r j (a_chain a)); [|apply I|eapply exact_has_bases, I|done|by rewrite Ej]. cbn [mbind res_bind].
  rewrite (on_rec_eq _ r _ j) by done. cbn [mbind res_bind].
  set (j1 := on_core (set_jStatus JOB_STAT_PEND) j). set (t1 := set_recs _ _).
  assert (I1 : inv t1 kids (state_all r JOB_STAT_PEND A)).
  { apply (status_inv _ t kids A x n a r j j1 s (jStatus (core j)) JOB_STAT_PEND); try done.
    intros k Hk. rewrite Es, !hits_nonzero by done. done. }
  destruct psusp; [|eauto]. rewrite (on_rec_eq _ r _ j1) by (cbn; by rewrite lookup_insert_eq). cbn [mbind res_bind].
  set (a1 := mkA (a_chain a) (set_state r JOB_STAT_PEND (a_jobs a))).
  assert (Ha1 : state_all r JOB_STAT_PEND A !! x = Some a1) by (unfold state_all; by rewrite lookup_fmap, Ha).
  rewrite (updJgrp_spec _ r (on_core (set_jStatus JOB_STAT_PSUSP) j1) (a_chain a));
    [|apply I1|intros y m Hy Hb; eapply (exact_has_bases t1); [apply I1|exact Hy|done]|cbn; by rewrite lookup_insert_eq|cbn; by rewrite Ej].
  eexists _, _. split; [done|].
  apply (status_inv _ t1 kids _ x n a1 r j1 (on_core (set_jStatus JOB_STAT_PSUSP) j1) JOB_STAT_PEND JOB_STAT_PEND JOB_STAT_PSUSP I1); try done.
  - cbn. apply list_elem_of_fmap. exists (r, s). split; [cbn; by rewrite Z.eqb_refl|done].
  - cbn. by rewrite lookup_insert_eq.
Qed.

(** ** Nodes come and go *)

Lemma zsum_zero {B} (b : B -> Z) (m : gmap Z B) : (forall k e, m !! k = Some e -> b e = 0) -> zsum b m = 0.
Proof.
  induction m as [|k e m Hk IH] using map_ind; intros H; [unfold zsum; by rewrite map_fold_empty|].
  rewrite zsum_insert by done. rewrite (H k e), IH; [done| |by rewrite lookup_insert_eq].
  intros k' e' E. apply (H k' e'). rewrite lookup_insert_ne; [done|congruence].
Qed.

Lemma adds_mod f d d' : adds f d -> (forall k, (k < 8)%nat -> wrap32 (d k) = wrap32 (d' k)) -> adds f d'.
Proof.
  intros Ad E c L I. destruct (Ad c L I) as [L' C]. split; [done|]. intros k Hk. rewrite C by done.
  by rewrite <- wrap32_add_r, E, wrap32_add_r.
Qed.

(** A leaf counts only itself. *)
Lemma total_leaf t kids A c a k : shape t kids A -> A !! c = Some a -> kids c = [] -> total A c k = own k (a_jobs a).
Proof.
  intros S Ha K. rewrite <- (insert_delete_id A c a Ha), total_insert by (by rewrite lookup_delete_eq).
  destruct (s_chain _ _ _ S c a Ha) as (l & E & U). unfold weight. rewrite E, decide_True by set_solver.
  unfold total. rewrite zsum_zero; [done|]. intros x b Hb. apply lookup_delete_Some in Hb as [Hx Hb].
  destruct (s_chain _ _ _ S x b Hb) as (lx & Ex & Ux). unfold weight. rewrite decide_False; [done|]. rewrite Ex.
  pose proof (leaf_not_above _ _ (s_forest _ _ _ S) (Some x) c lx x Ux K). set_solver.
Qed.

(** Everything above a group is a group. *)
Lemma chain_counted t kids A p np lp : shape t kids A -> nodes t !! p = Some np -> ndInfo np = GroupInfo p -> up (nodes t) (Some p) (p :: lp) ->
  Forall (fun x => counted (nodes t) x = true) (p :: lp).
Proof.
  intros S Hp Ip U. apply Forall_cons. split; [unfold counted; by rewrite Hp, Ip|]. apply Forall_forall. intros x Hx.
  apply list_elem_of_split in Hx as (l1 & l2 & E). destruct (exists_last (l := p :: l1)) as (l0 & y & E0); [done|].
  assert (Hy : y ∈ kids x).
  { eapply (up_kid _ _ (s_forest _ _ _ S) (Some p) l0 y x l2). rewrite E in U.
    change (p :: l1 ++ x :: l2) with ((p :: l1) ++ x :: l2) in U. rewrite E0, <- app_assoc in U. done. }
  destruct (kid_dom _ _ (s_forest _ _ _ S) x y Hy) as [nx Hx]. destruct (s_leaf _ _ _ S x nx Hx) as [b Ib]; [by intros K; rewrite K in Hy; apply elem_of_nil in Hy|].
  unfold counted. by rewrite Hx, Ib.
Qed.

(** Pointers change, the contents of the nodes stay. *)
Lemma same_data_info h h' x n' : same_data h h' -> h' !! x = Some n' -> exists n, h !! x = Some n /\ ndInfo n' = ndInfo n.
Proof. intros D H. specialize (D x). rewrite H in D. destruct (h !! x) as [n|]; [|done]. cbn in D. exists n. split; congruence. Qed.

Lemma same_data_back h h' x n : same_data h h' -> h !! x = Some n -> exists n', h' !! x = Some n' /\ ndInfo n' = ndInfo n.
Proof. intros D H. specialize (D x). rewrite H in D. destruct (h' !! x) as [n'|]; [|done]. cbn in D. exists n'. split; congruence. Qed.

Lemma same_data_exact t h A : same_data (nodes t) h -> exact t A -> exact (set_nodes h t) A.
Proof. intros D E p n Hp Hb. destruct (same_data_info _ _ p n D Hp) as (n0 & H0 & Ei). apply (E p n0); [done|]. unfold based in *. by rewrite <- Ei. Qed.

Lemma same_data_own h h' : same_data h h' -> own_base h -> own_base h'.
Proof. intros D O p n b Hp Hb. destruct (same_data_info _ _ p n D Hp) as (n0 & H0 & Ei). apply (O p n0); [done|]. by rewrite <- Ei. Qed.

Lemma same_data_counted h h' x : same_data h h' -> counted h' x = counted h x.
Proof.
  intros D. unfold counted. specialize (D x). destruct (h' !! x) as [n'|], (h !! x) as [n|]; try done. cbn in D. by replace (ndInfo n') with (ndInfo n) by congruence.
Qed.

Section Attach.
Variables (t : jtree) (kids : Z -> list Z) (A : gmap Z anode) (p c : Z) (np nc : jgTreeNode) (lp : list Z) (js : list (Z * Z)).
Hypotheses (S : shape t kids A) (Hp : nodes t !! p = Some np) (Ip : ndInfo np = GroupInfo p) (Up : up (nodes t) (Some p) (p :: lp))
  (Hc : nodes t !! c = Some nc) (Rc : parent nc = None) (Kc : kids c = []) (Hne : c <> p)
  (Ac : A !! c = Some (mkA [c] js)) (Jc : info_ok (recs t) c (ndInfo nc) js) (Gc : forall b, ndInfo nc <> GroupInfo b).

Definition att_h := linked (nodes t) kids p c np nc.
Definition att_A := <[c := mkA (c :: p :: lp) js]> A.

Lemma attach_not_above : c ∉ p :: lp.
Proof.
  pose proof (leaf_not_above _ _ (s_forest _ _ _ S) (Some p) c lp p Up Kc). set_solver.
Qed.

Lemma attach_total g k : total att_A g k = total A g k + if decide (g ∈ p :: lp) then own k js else 0.
Proof.
  unfold att_A. rewrite (total_replace A c (mkA [c] js)) by done. unfold weight. cbn [a_chain a_jobs]. pose proof attach_not_above as N.
  repeat case_decide; try lia; set_solver.
Qed.

(** The counts of the ancestors. *)
Lemma attach_counts : exists B, count_node (set_nodes att_h t) c 1 = Ok (set_bases B (set_nodes att_h t)) /\ exact (set_bases B (set_nodes att_h t)) att_A
  /\ forall x, is_Some (B !! x) <-> is_Some (bases t !! x).
Proof.
  pose proof attach_total as At. pose proof attach_not_above as An.
  pose proof (linked_data (nodes t) kids p c np nc Hp Hc) as D. fold att_h in D.
  pose proof (same_data_own _ _ D (s_base _ _ _ S)) as O. pose proof (same_data_exact t att_h A D (s_exact _ _ _ S)) as E.
  pose proof (linked_up_new (nodes t) kids p c np nc lp (s_forest _ _ _ S) Hp Hc Rc Kc Hne Up) as Un. fold att_h in Un.
  destruct (same_data_back _ _ c nc D Hc) as (nc' & Hc' & Ei). unfold count_node. cbn [nodes set_nodes]. rewrite (node_at_eq att_h c nc' Hc'). cbn [mbind res_bind].
  rewrite Ei. destruct (ndInfo nc) as [o|b|b o] eqn:Ic.
  - destruct Jc as (r & s & -> & -> & (j & Hj & Es & Hs & Nj & _) & _). cbn [deref mbind res_bind fst snd] in *.
    rewrite (rec_at_eq _ r j) by done. cbn [mbind res_bind]. rewrite Z.eqb_refl.
    rewrite (updJgrp_spec _ r j (c :: p :: lp)); [|done|by eapply exact_has_bases|done|by rewrite Nj]. eexists. split; [done|]. split.
    + eapply (upd_exact _ _ _ (set_nodes att_h t) A); [done|apply count_status_adds|]. intros g m k Hg Hb Hk. rewrite At. f_equal.
      assert (g <> c) by (intros ->; cbn in Hg; rewrite Hc' in Hg; injection Hg as <-; destruct Hb as [b Hb]; by rewrite Ei in Hb).
      rewrite Es, (hits_nonzero s) by done. unfold hits. cbn. unfold own; cbn. repeat case_decide; try lia; set_solver.
    + intros x. apply upd_on_dom.
  - by destruct (Gc b).
  - unfold updJgrpCountByOp. cbn [nodes set_nodes]. rewrite (node_at_eq att_h c nc' Hc'). cbn [mbind res_bind]. rewrite Ei. cbn [base_of].
    assert (b = c) as -> by (by eapply (s_base _ _ _ S c nc b Hc); rewrite Ic).
    destruct (s_exact _ _ _ S c nc Hc) as (a & Ha & V & L & C); [unfold based; by rewrite Ic|].
    assert (U2 : up att_h (parent nc') (p :: lp)) by (inversion Un as [|? m ? Hm U2]; subst; by simplify_eq).
    rewrite (op_up_spec 1 c a (set_nodes att_h t) _ (p :: lp)); [|done|by eapply exact_has_bases|done| |exact An|done|apply path_length in U2; cbn in *; lia].
    + eexists. split; [done|]. split; [|intros x; apply upd_on_dom].
      eapply (upd_exact _ (fun k => own k js) _ (set_nodes att_h t) A); [done| |intros; apply At].
      eapply adds_mod; [apply count_all_adds|]. intros k Hk. cbn beta. rewrite C by done. rewrite Z.mul_1_l, wrap32_idem.
      by rewrite (total_leaf t kids A c (mkA [c] js)).
    + eapply Forall_impl; [eapply (chain_counted t kids A p np lp); done|]. intros x Hx. cbn beta in *. by rewrite (same_data_counted (nodes t)).
Qed.

Lemma attach_spec : exists B, treeInsertChild t (Some p) (Some c) = Ok (Some p, set_bases B (set_nodes att_h t))
  /\ shape (set_bases B (set_nodes att_h t)) (add_kid kids p c) att_A /\ forall x, is_Some (B !! x) <-> is_Some (bases t !! x).
Proof.
  pose proof (linked_data (nodes t) kids p c np nc Hp Hc) as D. fold att_h in D. destruct attach_counts as (B & E1 & E2 & E3). exists B. split; [|split; [|done]].
  - rewrite (treeInsertChild_link t p c att_h); [by rewrite E1|].
    apply (link_child_eq (nodes t) kids p c np nc lp); try done. apply S.
  - split; cbn.
    + apply (linked_forest (nodes t) kids p c np nc lp); try done. apply S.
    + intros x. unfold att_A. specialize (D x). destruct (decide (x = c)) as [->|Hx].
      * rewrite lookup_insert_eq. rewrite Hc in D. destruct (att_h !! c); [|done]. split; intros _; eauto.
      * rewrite lookup_insert_ne by done. rewrite (s_dom _ _ _ S x). destruct (att_h !! x), (nodes t !! x); try done; split; eauto.
    + intros x a Ha. unfold att_A in Ha. destruct (decide (x = c)) as [->|Hx].
      * rewrite lookup_insert_eq in Ha. injection Ha as <-. exists (p :: lp). split; [done|].
        apply linked_up_new; try done. apply S.
      * rewrite lookup_insert_ne in Ha by done. destruct (s_chain _ _ _ S x a Ha) as (l & El & U). exists l. split; [done|].
        eapply linked_up; try done. apply S.
    + intros q n Hq Kq. destruct (same_data_info _ _ q n D Hq) as (n0 & H0 & ->). unfold add_kid in Kq.
      destruct (Z.eqb_spec q p) as [->|]; [rewrite Hp in H0; injection H0 as <-; eauto|]. by apply (s_leaf _ _ _ S q).
    + eapply same_data_own; [done|apply S].
    + done.
    + destruct (s_root _ _ _ S) as (n & Hn & In & Pn). destruct (same_data_back _ _ _ n D Hn) as (n' & Hn' & Ei).
      exists n'. rewrite Ei. split_and!; try done.
      assert (groupRoot t <> c) as Rne by (intros E; rewrite E, Hc in Hn; injection Hn as <-; by eapply Gc).
      destruct (linked_parent (nodes t) kids p c np nc lp (s_forest _ _ _ S) Hp Hc Rc Kc Hne Up (groupRoot t) n Rne Hn) as (n2 & Hn2 & E & _).
      unfold att_h in Hn'. congruence.
Qed.
End Attach.

Lemma first_right_some h l q : first_right h l = Some q -> exists y n, y ∈ l /\ h !! y = Some n /\ n_right n = Some q.
Proof.
  induction l as [|y l IH]; cbn; [done|]. destruct (h !! y ≫= n_right) as [r|] eqn:E.
  - intros [= ->]. destruct (h !! y) as [n|] eqn:Hy; [|done]. exists y, n. cbn in E. split_and!; [set_solver|done|done].
  - intros H. destruct (IH H) as (y' & n & Hy & ?). exists y', n. split; [set_solver|done].
Qed.

Lemma set_entry_id t e : entry t = e -> set_entry e t = t.
Proof. intros <-. by destruct t. Qed.

Lemma set_nodes_nodes h h' t : set_nodes h (set_nodes h' t) = set_nodes h t.
Proof. done. Qed.
Lemma set_bases_nodes B h t : set_bases B (set_nodes h t) = set_nodes h (set_bases B t).
Proof. done. Qed.

Section Detach.
Variables (t : jtree) (kids : Z -> list Z) (A : gmap Z anode) (p c : Z) (nc : jgTreeNode) (lp k1 k2 : list Z) (js : list (Z * Z)).
Hypotheses (S : shape t kids A) (Hc : nodes t !! c = Some nc) (Kp : kids p = k1 ++ c :: k2) (Kc : kids c = [])
  (Ac : A !! c = Some (mkA (c :: p :: lp) js)) (Jc : info_ok (recs t) c (ndInfo nc) js) (Gc : forall b, ndInfo nc <> GroupInfo b).

Definition det_h := unlinked (nodes t) p k1 k2.
Definition det_A := <[c := mkA [c] js]> A.

Lemma detach_up : up (nodes t) (Some c) (c :: p :: lp).
Proof. destruct (s_chain _ _ _ S c _ Ac) as (l & E & U). cbn in E. by injection E as <-. Qed.

Lemma detach_data : same_data (nodes t) det_h.
Proof.
  intros x. unfold det_h. rewrite (unlinked_lookup (nodes t) kids p c nc k1 k2) by (try done; apply S). by destruct (nodes t !! x).
Qed.

Lemma detach_self : det_h !! c = Some nc.
Proof. apply (unlinked_self (nodes t) kids p c nc k1 k2); try done. apply S. Qed.

Lemma detach_up' o l : up (nodes t) o l -> up det_h o l.
Proof. apply (unlinked_up (nodes t) kids p c nc k1 k2); try done. apply S. Qed.

Lemma detach_not_above : c ∉ p :: lp.
Proof. apply (leaf_not_above _ _ (s_forest _ _ _ S) (Some c) c (p :: lp) c detach_up Kc). Qed.

Lemma detach_total g k : total det_A g k = total A g k + if decide (g ∈ p :: lp) then - own k js else 0.
Proof.
  unfold det_A. rewrite (total_replace A c (mkA (c :: p :: lp) js)) by done. unfold weight. cbn [a_chain a_jobs]. pose proof detach_not_above as N.
  repeat case_decide; try lia; set_solver.
Qed.

Lemma detach_ancestors : Forall (fun x => counted (nodes t) x = true) (p :: lp).
Proof.
  destruct (kid_dom _ _ (s_forest _ _ _ S) p c) as [np Hp]; [rewrite Kp; set_solver|].
  destruct (s_leaf _ _ _ S p np Hp) as [b Ib]; [rewrite Kp; by destruct k1|].
  assert (b = p) as -> by (by eapply (s_base _ _ _ S p np); [|rewrite Ib]).
  eapply (chain_counted t kids A p np lp); try done. pose proof detach_up as U. by inversion U as [|? m ? Hm U']; subst; inversion U'; subst; econstructor.
Qed.

Lemma detach_counts : exists B, count_node (set_nodes det_h t) c (-1) = Ok (set_bases B (set_nodes det_h t))
  /\ exact (set_bases B (set_nodes det_h t)) det_A /\ forall x, is_Some (B !! x) <-> is_Some (bases t !! x).
Proof.
  pose proof detach_total as At. pose proof detach_not_above as An. pose proof detach_ancestors as Fa. pose proof (detach_up' _ _ detach_up) as Un.
  pose proof detach_data as D. pose proof detach_self as Hc'. pose proof (path_length _ _ _ _ Un) as Len. cbn [length] in Len.
  pose proof (same_data_own _ _ D (s_base _ _ _ S)) as O. pose proof (same_data_exact t det_h A D (s_exact _ _ _ S)) as E.
  unfold count_node. cbn [nodes set_nodes]. rewrite (node_at_eq det_h c nc Hc'). cbn [mbind res_bind].
  destruct (ndInfo nc) as [o|b|b o] eqn:Ic.
  - destruct Jc as (r & s & -> & -> & (j & Hj & Es & Hs & Nj & _) & _). cbn [deref mbind res_bind fst snd] in *.
    rewrite (rec_at_eq _ r j) by done. cbn [mbind res_bind]. change (-1 =? 1) with false. cbn iota.
    rewrite (updJgrp_spec _ r j (c :: p :: lp)); [|done|by eapply exact_has_bases|done|by rewrite Nj]. eexists. split; [done|]. split.
    + eapply (upd_exact _ _ _ (set_nodes det_h t) A); [done|apply count_status_adds|]. intros g m k Hg Hb Hk. rewrite At. f_equal.
      assert (g <> c) by (intros ->; cbn in Hg; rewrite Hc' in Hg; injection Hg as <-; destruct Hb as [b Hb]; by rewrite Ic in Hb).
      rewrite Es, (hits_nonzero s) by done. unfold hits. cbn. unfold own; cbn. repeat case_decide; try lia; set_solver.
    + intros x. apply upd_on_dom.
  - by destruct (Gc b).
  - unfold updJgrpCountByOp. cbn [nodes set_nodes]. rewrite (node_at_eq det_h c nc Hc'). cbn [mbind res_bind]. rewrite Ic. cbn [base_of].
    assert (b = c) as -> by (by eapply (s_base _ _ _ S c nc b Hc); rewrite Ic).
    destruct (s_exact _ _ _ S c nc Hc) as (a & Ha & V & L & C); [unfold based; by rewrite Ic|].
    assert (U2 : up det_h (parent nc) (p :: lp)) by (inversion Un as [|? m ? Hm U2]; subst; by simplify_eq).
    rewrite (op_up_spec (-1) c a (set_nodes det_h t) _ (p :: lp)); [|done|by eapply exact_has_bases|done| |exact An|done|cbn in *; lia].
    + eexists. split; [done|]. split; [|intros x; apply upd_on_dom].
      eapply (upd_exact _ (fun k => - own k js) _ (set_nodes det_h t) A); [done| |intros; apply At].
      eapply adds_mod; [apply count_all_adds|]. intros k Hk. cbn beta. rewrite C by done.
      rewrite (total_leaf t kids A c (mkA (c :: p :: lp) js)) by done. replace (-1 * wrap32 (own k (a_jobs (mkA (c :: p :: lp) js)))) with (0 - wrap32 (own k js)) by (cbn [a_jobs]; lia).
      by rewrite wrap32_sub_r.
    + eapply Forall_impl; [exact Fa|]. intros x Hx. cbn beta in *. by rewrite (same_data_counted (nodes t)).
Qed.

(** The position of the walk moves behind the removed node. *)
Definition moved_entry : option Z :=
  match entry t with Some e => if e =? c then next_sib det_h c (p :: lp) else Some e | None => None end.

Lemma detach_observer B : (forall e, entry t = Some e -> is_Some (nodes t !! e)) ->
  treeObserverInvoke (set_bases B (set_nodes det_h t)) c TREE_EVENT_CLIP = Ok (set_entry moved_entry (set_bases B (set_nodes det_h t))).
Proof.
  intros Hd. unfold treeObserverInvoke, treeObserverEvalDep, moved_entry. cbn [entry nodes set_bases set_nodes].
  destruct (entry t) as [e|] eqn:Ee; cbn [mbind res_bind]; [|by rewrite set_entry_id].
  destruct (Z.eqb_spec e c) as [->|Hne]; cbn [mbind res_bind].
  - by rewrite (treeNextSib_spec det_h c (p :: lp) (detach_up' _ _ detach_up)).
  - destruct (f_up _ _ (s_forest _ _ _ S) e) as [l U]; [by apply Hd|].
    rewrite (isAncestor_spec det_h c e l (detach_up' _ _ U)). cbn [mbind res_bind]. rewrite bool_decide_eq_false_2.
    + by rewrite set_entry_id.
    + apply (leaf_not_above _ _ (s_forest _ _ _ S) (Some e) c l e U Kc).
Qed.

Lemma moved_entry_valid e : (forall e, entry t = Some e -> is_Some (nodes t !! e)) -> moved_entry = Some e ->
  is_Some (removed (nodes t) p c k1 k2 !! e).
Proof.
  intros Hd. pose proof (s_forest _ _ _ S) as F. unfold moved_entry.
  assert (Rm : forall x, x <> c -> is_Some (nodes t !! x) -> is_Some (removed (nodes t) p c k1 k2 !! x)).
  { intros x Hx [n Hn]. unfold removed. rewrite lookup_delete_ne by congruence.
    rewrite (unlinked_lookup (nodes t) kids p c nc k1 k2) by done. rewrite Hn. by eexists. }
  destruct (entry t) as [e0|] eqn:Ee; [|done]. destruct (Z.eqb_spec e0 c) as [->|Hne]; [|intros [= ->]; apply Rm; [done|by apply Hd]].
  intros H. apply first_right_some in H as (y & n & Hy & Hn & Hr). unfold det_h in Hn.
  rewrite (unlinked_lookup (nodes t) kids p c nc k1 k2) in Hn by done. destruct (nodes t !! y) as [n0|] eqn:Hy0; [|done]. injection Hn as <-.
  assert (Nk : forall x, head k2 = Some x -> is_Some (removed (nodes t) p c k1 k2 !! x)).
  { intros x Hx. assert (Hk : x ∈ k2) by (destruct k2; simplify_eq/=; set_solver).
    destruct (clip_ne (nodes t) kids p c nc k1 k2 F Hc Kp Kc x (or_intror Hk)) as (Hxc & _ & m & Hm & _). apply Rm; [done|eauto]. }
  cbn in Hr. case_decide as E1; [by apply Nk|]. destruct (parent n0) as [w|] eqn:Pw.
  - destruct (f_par _ _ F y n0 w Hy0 Pw) as [Kw _]. apply list_elem_of_lookup_1 in Kw as [i Ki].
    destruct (f_kid _ _ F w i y Ki) as (n1 & Hn1 & _ & _ & R1). simplify_eq. rewrite R1 in Hr.
    destruct (f_kid _ _ F w (Datatypes.S i) e Hr) as (n2 & Hn2 & P2 & L2 & _). apply Rm; [|eauto]. intros ->.
    destruct (clip_fields (nodes t) kids p c nc k1 k2 F Hc Kp) as (E2 & E3 & _). simplify_eq. congruence.
  - destruct (f_root _ _ F y n0 Hy0 Pw). congruence.
Qed.

(** The struct of a removed node is void. *)
Definition void_base (B : gmap Z jgArrayBase) : gmap Z jgArrayBase :=
  match base_of (ndInfo nc) with Some b => alter (fun a => mkArray JGRP_VOID (counts a)) b B | None => B end.

Lemma detach_free B e : (forall x, is_Some (B !! x) <-> is_Some (bases t !! x)) ->
  let t1 := set_entry e (set_bases B (set_nodes det_h t)) in
  (h ← on_node c (fun m => set_parent None (set_left None (set_right None m))) (nodes t1);
   treeFree (walk_fuel (nodes (set_nodes h t1))) (set_nodes h t1) (Some c))
  = Ok (set_nodes (removed (nodes t) p c k1 k2) (set_bases (void_base B) t1)).
Proof.
  intros HB t1. pose proof detach_self as Hs. unfold t1, on_node. cbn [nodes set_entry set_bases set_nodes].
  rewrite (node_at_eq det_h c nc Hs). cbn [mbind res_bind]. unfold walk_fuel. cbn [treeFree nodes set_nodes set_entry set_bases].
  rewrite (node_at_eq _ c (set_parent None (set_left None (set_right None nc)))) by (by rewrite lookup_insert_eq). cbn [mbind res_bind child set_parent set_left set_right].
  rewrite (f_child _ _ (s_forest _ _ _ S) c nc Hc), Kc. cbn [head mbind res_bind]. unfold freeTreeNode. cbn [nodes set_nodes].
  rewrite (node_at_eq _ c (set_parent None (set_left None (set_right None nc)))) by (by rewrite lookup_insert_eq). cbn [mbind res_bind ndInfo set_parent set_left set_right].
  unfold void_base, removed. fold det_h.
  assert (Fin : forall B0, treeFree (base.size (<[c := set_parent None (set_left None (set_right None nc))]> det_h))
     (set_nodes (delete c (<[c := set_parent None (set_left None (set_right None nc))]> det_h)) (set_bases B0 t1)) None
     = Ok (set_nodes (delete c det_h) (set_bases B0 t1))).
  { intros B0. rewrite delete_insert_eq. by destruct (base.size _). }
  destruct (base_of (ndInfo nc)) as [b|] eqn:Eb; cbn [bases set_nodes set_entry set_bases mbind res_bind]; [|exact (Fin B)].
  destruct (s_exact _ _ _ S c nc Hc) as (a & Ha & _); [by eexists|].
  assert (b = c) as -> by (by eapply (s_base _ _ _ S c nc b Hc)).
  destruct (proj2 (HB c)) as [a' Ha']; [eauto|]. rewrite Ha'. cbn [deref mbind res_bind].
  assert (Ea : alter (fun a => mkArray JGRP_VOID (counts a)) c B = <[c := mkArray JGRP_VOID (counts a')]> B).
  { apply map_eq. intros x. destruct (decide (x = c)) as [->|]; [by rewrite lookup_insert_eq, lookup_alter_eq, Ha'|by rewrite lookup_insert_ne, lookup_alter_ne]. }
  rewrite <- Ea. change (nodes (set_bases ?B1 (set_nodes ?h1 ?T))) with h1. rewrite !set_bases_nodes, set_nodes_nodes. apply Fin.
Qed.

Lemma void_base_dom B x : is_Some (void_base B !! x) <-> is_Some (B !! x).
Proof.
  unfold void_base. destruct (base_of (ndInfo nc)) as [b|]; [|done]. destruct (decide (x = b)) as [->|]; [|by rewrite lookup_alter_ne].
  by rewrite lookup_alter_eq, fmap_is_Some.
Qed.

Lemma detach_exact B e : exact (set_bases B (set_nodes det_h t)) det_A ->
  exact (set_nodes (removed (nodes t) p c k1 k2) (set_bases (void_base B) (set_entry e (set_bases B (set_nodes det_h t))))) (delete c A).
Proof.
  intros E g n Hg Hb. cbn in Hg. unfold removed in Hg. apply lookup_delete_Some in Hg as [Hgc Hg].
  destruct (E g n Hg Hb) as (a & Ha & V & L & C). exists a. cbn in *. split.
  - unfold void_base. destruct (base_of (ndInfo nc)) as [b|] eqn:Eb; [|done].
    assert (b = c) as -> by (by eapply (s_base _ _ _ S c nc b Hc)). by rewrite lookup_alter_ne.
  - split_and!; [done|done|]. intros k Hk. rewrite C by done. f_equal. unfold det_A.
    rewrite (total_replace A c _ _ g k Ac), (total_delete A c _ g k Ac). unfold weight. cbn [a_chain a_jobs]. rewrite (decide_False (P := g ∈ [c])) by set_solver. lia.
Qed.

Lemma detach_spec : (forall e, entry t = Some e -> is_Some (nodes t !! e)) -> exists B,
  let t' := set_nodes (removed (nodes t) p c k1 k2) (set_bases B (set_entry moved_entry t)) in
  clip_and_free t c = Ok t' /\ shape t' (drop_kid kids p (k1 ++ k2)) (delete c A)
  /\ (forall x, is_Some (B !! x) <-> is_Some (bases t !! x)).
Proof.
  intros Hd. pose proof (s_forest _ _ _ S) as F. destruct detach_counts as (B & E1 & E2 & E3). exists (void_base B). cbn zeta. split; [|split].
  - unfold clip_and_free. rewrite (treeClip_unlink t c det_h) by (by apply (unlink_eq (nodes t) kids p c nc k1 k2)).
    rewrite E1. cbn [mbind res_bind]. rewrite (detach_observer B Hd). cbn [mbind res_bind].
    pose proof (detach_free B moved_entry E3) as Fr. cbn zeta in Fr. destruct (on_node c _ _) as [h1| | |]; cbn [mbind res_bind] in *; try done.
  - pose proof (detach_exact B moved_entry E2) as Ex. split; cbn.
    + by apply (removed_forest (nodes t) kids p c nc k1 k2).
    + intros x. destruct (decide (x = c)) as [->|Hx].
      * rewrite lookup_delete_eq. unfold removed. rewrite lookup_delete_eq. split; by intros [? ?].
      * rewrite lookup_delete_ne by done. unfold removed. rewrite lookup_delete_ne by done. rewrite (s_dom _ _ _ S x).
        rewrite (unlinked_lookup (nodes t) kids p c nc k1 k2) by done. by rewrite fmap_is_Some.
    + intros x a Ha. apply lookup_delete_Some in Ha as [Hx Ha]. destruct (s_chain _ _ _ S x a Ha) as (l & El & U). exists l. split; [done|].
      eapply removed_up; done.
    + intros q n Hq Kq. destruct (same_data_info _ _ q n (removed_data (nodes t) kids p c nc k1 k2 F Hc Kp Kc) Hq) as (n0 & H0 & ->).
      apply lookup_delete_Some in H0 as [_ H0]. apply (s_leaf _ _ _ S q n0 H0). unfold drop_kid in Kq. destruct (Z.eqb_spec q p) as [->|]; [|done].
      rewrite Kp. by destruct k1.
    + intros q n b Hq Hb. destruct (same_data_info _ _ q n (removed_data (nodes t) kids p c nc k1 k2 F Hc Kp Kc) Hq) as (n0 & H0 & Ei).
      apply lookup_delete_Some in H0 as [_ H0]. apply (s_base _ _ _ S q n0); [done|]. by rewrite <- Ei.
    + exact Ex.
    + destruct (s_root _ _ _ S) as (n & Hn & In & Pn). exists (clipped p k1 k2 (groupRoot t) n). split_and!; [|done|done].
      apply (removed_lookup (nodes t) kids p c nc k1 k2); try done. split; [|eauto]. intros E. rewrite E, Hc in Hn. injection Hn as <-. by eapply Gc.
  - intros x. rewrite void_base_dom. apply E3.
Qed.
End Detach.
