(* ===== verification/JGroupPut.v ===== *)
(** * Jobs enter the job tree

    [putOntoTree] makes a node for a job or array below the root and keeps the
    state of the tree well formed. *)
From stdpp Require Import base gmap list fin_maps.
From Stdlib Require Import ZArith Bool Lia.
From S2P Require Import Prelude Ledger JobId CNum ListSet JobArray DepToken DepCond JGroup JTree JGroupInv JGroupOps.
Local Open Scope Z_scope.

(** ** A new node *)

Definition zeros : list Z := repeat 0 (S NUM_JGRP_COUNTERS).
Definition is_jobinfo (i : nodeInfo) : bool := match i with JobInfo _ => true | _ => false end.

(** The tree with a node [fresh t] that is not linked yet. *)
Definition with_node (t : jtree) (nm : cstr) (i : nodeInfo) : jtree :=
  mkTree (<[fresh t := mkNode None None None None nm i]> (nodes t)) (recs t)
    (if is_jobinfo i then bases t else <[fresh t := mkArray 0 zeros]> (bases t)) (ids t) (groupRoot t) (entry t) (fresh t + 1).

Lemma putOntoTree_start t jp j : recs t !! jp = Some j -> nodeType (core j) <> JGRP_NODE_GROUP ->
  let i := match nodeType (core j) with JGRP_NODE_JOB => JobInfo (Some jp) | _ => ArrayInfo (fresh t) (Some jp) end in
  putOntoTree t jp =
    (t1 ← on_rec jp (set_jgrpNode (Some (fresh t))) (with_node t (job_name j) i);
     t1 ← put_elements (walk_fuel (recs t1)) t1 (fresh t) (nextJob (core j));
     '(_, t1) ← treeInsertChild t1 (Some (groupRoot t1)) (Some (fresh t));
     on_rec jp (fun j =>
       let j := if newReason j =? 0 then set_newReason PEND_JOB_NEW j else j in
       match dptRoot j with
       | None => on_core (fun k => set_jFlags (Z.lor (jFlags k) JFLAG_READY2) k) j
       | Some _ => j
       end) t1).
Proof.
  intros Hj Ty i. unfold putOntoTree. rewrite (rec_at_eq t jp j Hj). cbn [mbind res_bind]. unfold treeNewNode. cbn zeta iota.
  unfold on_node, node_at. cbn [nodes]. rewrite lookup_insert_eq. cbn [deref mbind res_bind]. rewrite insert_insert_eq.
  unfold i, with_node, set_nodes. destruct (nodeType (core j)); done.
Qed.

Section NewNode.
Variables (t : jtree) (kids : Z -> list Z) (A : gmap Z anode) (nm : cstr) (i : nodeInfo).
Hypotheses (S : shape t kids A) (Fn : nodes t !! fresh t = None)
  (Hi : forall b, base_of i = Some b -> b = fresh t) (Gi : forall b, i <> GroupInfo b).
Abbreviation c := (fresh t).

Lemma new_kids : kids c = [].
Proof.
  destruct (kids c) as [|x k] eqn:K; [done|]. destruct (kid_dom _ _ (s_forest _ _ _ S) c x) as [n Hn]; [rewrite K; apply elem_of_cons; by left|]. by rewrite Fn in Hn.
Qed.

Lemma new_old x n : nodes t !! x = Some n -> x <> c.
Proof. intros Hx ->. congruence. Qed.

Lemma new_lookup x n : nodes t !! x = Some n -> nodes (with_node t nm i) !! x = Some n.
Proof. intros Hx. cbn. rewrite lookup_insert_ne; [done|]. intros <-. congruence. Qed.

Lemma new_up o l : up (nodes t) o l -> up (nodes (with_node t nm i)) o l.
Proof. apply path_ext. intros x n _ Hx. exists n. split; [by apply new_lookup|done]. Qed.

Lemma new_forest : forest (nodes (with_node t nm i)) kids.
Proof.
  pose proof (s_forest _ _ _ S) as F. cbn. split.
  - intros x n. destruct (decide (x = c)) as [->|Hx]; [rewrite lookup_insert_eq; intros [= <-]; by rewrite new_kids|].
    rewrite lookup_insert_ne by congruence. apply F.
  - intros p k x Hk. destruct (f_kid _ _ F p k x Hk) as (n & Hn & E). exists n. split; [|done].
    rewrite lookup_insert_ne; [done|]. intros <-. congruence.
  - intros x n p. destruct (decide (x = c)) as [->|Hx]; [rewrite lookup_insert_eq; by intros [= <-]|].
    rewrite lookup_insert_ne by congruence. intros Hn Pn. destruct (f_par _ _ F x n p Hn Pn) as [K [m Hm]]. split; [done|].
    exists m. rewrite lookup_insert_ne; [done|]. intros <-. congruence.
  - intros x n. destruct (decide (x = c)) as [->|Hx]; [rewrite lookup_insert_eq; by intros [= <-]|]. rewrite lookup_insert_ne by congruence. apply F.
  - apply F.
  - intros x Hx. destruct (decide (x = c)) as [->|Hxc].
    + exists []. econstructor; [by rewrite lookup_insert_eq|]. constructor.
    + rewrite lookup_insert_ne in Hx by congruence. destruct (f_up _ _ F x Hx) as [l U]. exists l. by apply new_up.
Qed.

Lemma new_chain x a : A !! x = Some a -> c ∉ a_chain a.
Proof.
  intros Ha. destruct (s_chain _ _ _ S x a Ha) as (l & -> & U). intros H. destruct (path_dom _ _ _ _ c U H) as [n Hn]. congruence.
Qed.

Lemma new_total_self k js : total (<[c := mkA [c] js]> A) c k = own k js.
Proof.
  assert (Ac : A !! c = None).
  { destruct (A !! c) eqn:E; [|done]. destruct (proj1 (s_dom _ _ _ S c)) as [n Hn]; [eauto|]. congruence. }
  rewrite total_insert by done. unfold weight at 1. cbn [a_chain a_jobs]. rewrite decide_True by set_solver.
  unfold total. rewrite zsum_zero; [done|]. intros x a Ha. unfold weight. rewrite decide_False; [done|]. by eapply new_chain.
Qed.

Lemma new_total g k js : g <> c -> total (<[c := mkA [c] js]> A) g k = total A g k.
Proof.
  intros Hg. assert (Ac : A !! c = None).
  { destruct (A !! c) eqn:E; [|done]. destruct (proj1 (s_dom _ _ _ S c)) as [n Hn]; [eauto|]. congruence. }
  rewrite total_insert by done. unfold weight. cbn [a_chain a_jobs]. rewrite decide_False by set_solver. lia.
Qed.

(** Any jobs can be given to the new node if it has no counts. *)
Lemma new_shape js : (base_of i <> None -> js = []) -> shape (with_node t nm i) kids (<[c := mkA [c] js]> A).
Proof.
  intros Hjs. split.
  - apply new_forest.
  - intros x. cbn. destruct (decide (x = c)) as [->|Hx]; [rewrite !lookup_insert_eq; split; eauto|]. rewrite !lookup_insert_ne by congruence. apply S.
  - intros x a. destruct (decide (x = c)) as [->|Hx].
    + rewrite lookup_insert_eq. intros [= <-]. exists []. split; [done|]. econstructor; [cbn; by rewrite lookup_insert_eq|]. constructor.
    + rewrite lookup_insert_ne by congruence. intros Ha. destruct (s_chain _ _ _ S x a Ha) as (l & E & U). exists l. split; [done|]. by apply new_up.
  - intros p n. cbn. destruct (decide (p = c)) as [->|Hp]; [by rewrite new_kids|]. rewrite lookup_insert_ne by congruence. apply S.
  - intros p n b. cbn. destruct (decide (p = c)) as [->|Hp]; [rewrite lookup_insert_eq; intros [= <-]; apply Hi|]. rewrite lookup_insert_ne by congruence. apply S.
  - intros p n. cbn. destruct (decide (p = c)) as [->|Hp].
    + rewrite lookup_insert_eq. intros [= <-] Hb. unfold based in Hb. cbn in Hb. exists (mkArray 0 zeros). split.
      * destruct i; [by destruct Hb|cbn; by rewrite lookup_insert_eq..].
      * split; [done|]. split; [done|]. intros k Hk. rewrite new_total_self, Hjs by (destruct Hb as [? ->]; done).
        cbn [counts]. unfold zeros. rewrite nth_repeat. done.
    + rewrite lookup_insert_ne by congruence. intros Hn Hb. destruct (s_exact _ _ _ S p n Hn Hb) as (a & Ha & V & L & C). exists a. split.
      * destruct (is_jobinfo i); [done|]. by rewrite lookup_insert_ne by congruence.
      * split_and!; [done|done|]. intros k Hk. rewrite C by done. by rewrite new_total.
  - destruct (s_root _ _ _ S) as (n & Hn & In & Pn). exists n. split_and!; try done. cbn. rewrite lookup_insert_ne; [done|]. intros E. rewrite <- E in Hn. congruence.
Qed.
End NewNode.

(** ** Elements get their node *)

Definition regroup (c : Z) (l : list Z) (R : gmap Z jobRec) : gmap Z jobRec :=
  map_imap (fun r j => Some (if bool_decide (r ∈ l) then set_jgrpNode (Some c) j else j)) R.

Lemma regroup_lookup c l R r : regroup c l R !! r = (fun j => if bool_decide (r ∈ l) then set_jgrpNode (Some c) j else j) <$> R !! r.
Proof. unfold regroup. rewrite map_lookup_imap. by destruct (R !! r). Qed.

Lemma regroup_nil c R : regroup c [] R = R.
Proof. apply map_eq. intros r. rewrite regroup_lookup. destruct (R !! r); [|done]. cbn. by rewrite bool_decide_eq_false_2 by set_solver. Qed.

Lemma regroup_cons c r l R j : R !! r = Some j -> regroup c l (<[r := set_jgrpNode (Some c) j]> R) = regroup c (r :: l) R.
Proof.
  intros Hj. apply map_eq. intros x. rewrite !regroup_lookup. destruct (decide (x = r)) as [->|Hx].
  - rewrite lookup_insert_eq, Hj. cbn. rewrite (bool_decide_eq_true_2 (r ∈ r :: l)) by set_solver. by case_bool_decide.
  - rewrite lookup_insert_ne by done. destruct (R !! x); [|done]. cbn. f_equal.
    replace (bool_decide (x ∈ r :: l)) with (bool_decide (x ∈ l)); [done|]. apply bool_decide_ext. set_solver.
Qed.

(** A job with its state, at any node. *)
Definition loose (R : gmap Z jobRec) (p : Z * Z) : Prop :=
  exists j, R !! p.1 = Some j /\ jStatus (core j) = p.2 /\ p.2 <> JOB_STAT_NULL /\ nodeType (core j) = JGRP_NODE_JOB /\ 0 < jobId (core j).

(** Changes of records that move jobs only. *)
Definition same_cores (R R' : gmap Z jobRec) : Prop := forall r, core <$> R' !! r = core <$> R !! r.

Lemma same_cores_row R R' o l : same_cores R R' -> row R o l -> row R' o l.
Proof.
  intros E. apply path_ext. intros x n _ Hn. specialize (E x). rewrite Hn in E. destruct (R' !! x) as [n'|]; [|done]. cbn in E. injection E as E.
  exists n'. by rewrite E.
Qed.

Lemma same_cores_loose R R' p : same_cores R R' -> loose R p -> loose R' p.
Proof.
  intros E (j & Hj & H). specialize (E p.1). rewrite Hj in E. destruct (R' !! p.1) as [j'|] eqn:Hj'; [|done]. cbn in E. injection E as E.
  exists j'. by rewrite E.
Qed.

Lemma regroup_cores c l R : same_cores R (regroup c l R).
Proof. intros r. rewrite regroup_lookup. destruct (R !! r); [|done]. cbn. by case_bool_decide. Qed.

Lemma set_jgrpNode_cores R r j c : R !! r = Some j -> same_cores R (<[r := set_jgrpNode c j]> R).
Proof. intros Hj x. destruct (decide (x = r)) as [->|]; [by rewrite lookup_insert_eq, Hj|by rewrite lookup_insert_ne]. Qed.

Lemma own_snoc k js p : own k (js ++ [p]) = own k js + hit k p.2.
Proof. rewrite own_app, own_cons. unfold own; cbn. lia. Qed.

(** Jobs are added to a node that is not linked. *)
Lemma shape_add t kids A c nc js p R : shape t kids A -> nodes t !! c = Some nc -> A !! c = Some (mkA [c] js) ->
  exact (set_bases (upd_on (nodes t) (count_status JOB_STAT_NULL p.2) [c] (bases t)) t) (<[c := mkA [c] (js ++ [p])]> A) ->
  shape (set_bases (upd_on (nodes t) (count_status JOB_STAT_NULL p.2) [c] (bases t)) (set_recs R t)) kids (<[c := mkA [c] (js ++ [p])]> A).
Proof.
  intros [S1 S2 S3 S4 S5 S6 S7] Hc Ac E. split; cbn; try done.
  - intros x. destruct (decide (x = c)) as [->|Hx]; [rewrite lookup_insert_eq, Hc; split; eauto|]. by rewrite lookup_insert_ne.
  - intros x a. destruct (decide (x = c)) as [->|Hx]; [|rewrite lookup_insert_ne by done; apply S3].
    rewrite lookup_insert_eq. intros [= <-]. cbn. destruct (S3 c _ Ac) as (l & E' & U). cbn in E'. exists l. done.
Qed.

Lemma put_elements_spec fuel t kids A c nc js1 js2 o : shape t kids A -> nodes t !! c = Some nc -> parent nc = None ->
  A !! c = Some (mkA [c] js1) -> row (recs t) o js2.*1 -> Forall (loose (recs t)) js2 -> (length js2 <= fuel)%nat ->
  exists B, let t' := set_recs (regroup c js2.*1 (recs t)) (set_bases B t) in
    put_elements fuel t c o = Ok t' /\ shape t' kids (<[c := mkA [c] (js1 ++ js2)]> A)
    /\ (forall x, is_Some (B !! x) <-> is_Some (bases t !! x)).
Proof.
  revert fuel t A js1 o. induction js2 as [|[r s] js2 IH]; intros fuel t A js1 o Sh Hc Pc Ac W L Len.
  - inversion W; subst. exists (bases t). cbn zeta. rewrite regroup_nil, app_nil_r. split_and!; [destruct fuel, t; done| |done].
    rewrite insert_id by done. by destruct t.
  - cbn in W. inversion W as [|? j ? Hj W']; subst. destruct fuel as [|fuel]; [cbn in Len; lia|]. apply Forall_cons in L as [(j' & Hj' & Es & Hs & Ty & Id) L].
    cbn [fst snd] in *. rewrite Hj in Hj'. injection Hj' as <-. cbn [put_elements]. rewrite (on_rec_eq t r _ j Hj). cbn [mbind res_bind].
    set (R1 := <[r := set_jgrpNode (Some c) j]> (recs t)). assert (Hr1 : R1 !! r = Some (set_jgrpNode (Some c) j)) by (unfold R1; by rewrite lookup_insert_eq).
    rewrite (rec_at_eq _ r (set_jgrpNode (Some c) j)) by done. cbn [mbind res_bind core set_jgrpNode]. rewrite Es.
    rewrite (updJgrp_spec (set_recs R1 t) r (set_jgrpNode (Some c) j) [c]);
      [|apply Sh|eapply (exact_has_bases t), Sh|done|cbn; econstructor; [done|]; rewrite Pc; constructor]. cbn [mbind res_bind nodes set_recs bases].
    set (t1 := set_bases _ (set_recs R1 t)). set (A1 := <[c := mkA [c] (js1 ++ [(r, s)])]> A).
    assert (S1 : shape t1 kids A1).
    { apply (shape_add t kids A c nc js1 (r, s) R1 Sh Hc Ac). eapply (upd_exact _ _ _ t A); [apply Sh|apply count_status_adds|].
      intros g m k Hg Hb Hk. rewrite (total_replace A c (mkA [c] js1)) by done. unfold weight. cbn [a_chain a_jobs fst snd]. rewrite own_snoc.
      rewrite (hits_nonzero s) by done. unfold hits. cbn. repeat case_decide; try done; lia. }
    pose proof (set_jgrpNode_cores (recs t) r j (Some c) Hj) as Sc.
    destruct (IH fuel t1 A1 (js1 ++ [(r, s)]) (nextJob (core j))) as (B & E1 & E2 & E3); try done.
    + unfold A1. by rewrite lookup_insert_eq.
    + by apply (same_cores_row (recs t)).
    + eapply Forall_impl; [exact L|]. intros p Hp. by apply (same_cores_loose (recs t)).
    + cbn in Len. lia.
    + exists B. cbn zeta in *. assert (Er : regroup c js2.*1 (recs t1) = regroup c ((r, s) :: js2).*1 (recs t)) by (cbn; unfold R1; by apply regroup_cons).
      rewrite Er in E1, E2. rewrite E1. split_and!; [done| |].
      * unfold A1 in E2. rewrite insert_insert_eq, <- app_assoc in E2. done.
      * intros x. rewrite E3. cbn. apply upd_on_dom.
Qed.

(** ** [putOntoTree] *)

Lemma info_ok_ext R R' x i js : info_ok R x i js -> (forall r, holds i js r -> R' !! r = R !! r) -> info_ok R' x i js.
Proof.
  intros I E. destruct i as [o|b|b o]; cbn in *; [| done |].
  - destruct I as (r & s & -> & -> & J & W). assert (Er : R' !! r = R !! r) by (apply E; left; set_solver).
    exists r, s. split_and!; [done|done| |].
    + destruct J as (j & Hj & ?). exists j. cbn in *. by rewrite Er.
    + eapply path_ext; [|exact W]. intros y n Hy Hn. apply list_elem_of_singleton in Hy. subst. exists n. by rewrite Er.
  - destruct I as (a & ja & -> & Ha & N & T & I & St & W & J & L). exists a, ja. split_and!; try done.
    + rewrite E; [done|]. right. by exists b.
    + eapply path_ext; [|exact W]. intros y n Hy Hn. exists n. rewrite E; [done|]. by left.
    + rewrite Forall_forall in J |- *. intros p Hp. destruct (J p Hp) as (j & Hj & ?). exists j. rewrite E; [done|]. left. by apply list_elem_of_fmap_2.
Qed.

(** Record [r] belongs to no node. *)
Definition outside (t : jtree) (A : gmap Z anode) (r : Z) : Prop :=
  forall x n a, nodes t !! x = Some n -> A !! x = Some a -> ~ holds (ndInfo n) (a_jobs a) r.

Lemma set_state_same r s js : (forall s', (r, s') ∈ js -> s' = s) -> set_state r s js = js.
Proof.
  intros H. unfold set_state. induction js as [|[r0 s0] js IH]; cbn; [done|]. rewrite IH by set_solver.
  destruct (Z.eqb_spec r0 r) as [->|]; [|done]. by rewrite (H s0) by set_solver.
Qed.

Section Put.
Variables (P : Z -> Prop) (t : jtree) (kids : Z -> list Z) (A : gmap Z anode) (nm : cstr) (i : nodeInfo) (js : list (Z * Z)).
Hypotheses (I : inv_but P t kids A) (Gi : forall b, i <> GroupInfo b)
  (Out : forall r, holds i js r -> outside t A r).
Abbreviation c := (fresh t).
Abbreviation A' := (<[c := mkA [c; groupRoot t] js]> A).

Lemma put_fresh : nodes t !! c = None.
Proof.
  destruct (nodes t !! c) eqn:E; [|done]. assert (c < c); [|lia]. apply (j_fresh _ _ _ (i_jobs _ _ _ _ I)). left. eauto.
Qed.

(** The jobs after a node with new records is linked. *)
Lemma put_jobs t' : same_data (nodes (with_node t nm i)) (nodes t') -> ids t' = ids t -> fresh t' = c + 1 ->
  (forall x, is_Some (bases t' !! x) -> x = c \/ is_Some (bases t !! x)) ->
  (forall r, is_Some (recs t' !! r) -> is_Some (recs t !! r)) ->
  (forall r, ~ holds i js r -> recs t' !! r = recs t !! r) ->
  (forall r, holds i js r -> exists j j', recs t !! r = Some j /\ recs t' !! r = Some j' /\ jobId (core j') = jobId (core j) /\ jgrpNode j' = Some c) ->
  info_ok (recs t') c i js ->
  jobs_but (fun r => P r /\ ~ holds i js r) t' A'.
Proof.
  intros D Ei Ef Hb Hd Ro Rn Ic. pose proof (i_jobs _ _ _ _ I) as [J1 J2 J3]. pose proof put_fresh as Fn.
  assert (Nw : forall x n', nodes t' !! x = Some n' -> x <> c -> exists n, nodes t !! x = Some n /\ ndInfo n' = ndInfo n).
  { intros x n' Hx Hxc. destruct (same_data_info _ _ x n' D Hx) as (n & Hn & E). cbn in Hn. rewrite lookup_insert_ne in Hn by congruence. eauto. }
  assert (Nc : exists n', nodes t' !! c = Some n' /\ ndInfo n' = i).
  { destruct (same_data_back _ _ c (mkNode None None None None nm i) D) as (n' & Hn' & E); [cbn; by rewrite lookup_insert_eq|]. eauto. }
  split.
  - intros x n' a Hx. destruct (decide (x = c)) as [->|Hxc].
    + rewrite lookup_insert_eq. intros [= <-]. destruct Nc as (n2 & Hn2 & <-). simplify_eq. done.
    + rewrite lookup_insert_ne by congruence. intros Ha. destruct (Nw x n' Hx Hxc) as (n & Hn & ->).
      apply (info_ok_ext (recs t)); [by eapply J1|]. intros r Hr. apply Ro. intros Hi. by apply (Out r Hi x n a).
  - intros id r. rewrite Ei. intros Hr. destruct (J2 id r Hr) as (Pos & Pl & j & Hj & Ej). split; [done|].
    destruct (decide (holds i js r)) as [Hi|Hi].
    + destruct (Rn r Hi) as (j0 & j' & H0 & H' & E1 & E2). simplify_eq. split; [|exists j'; split; [done|congruence]].
      left. destruct Nc as (n2 & Hn2 & En2). exists j', c, n2, (mkA [c; groupRoot t] js). rewrite lookup_insert_eq, En2. done.
    + split; [|exists j; rewrite Ro by done; done]. destruct Pl as [(j0 & x & n & a & H1 & H2 & H3 & H4 & H5)|Pr]; [|by right].
      left. assert (Hxc : x <> c) by congruence.
      destruct (same_data_back _ _ x n D) as (n' & Hn' & E); [cbn; by rewrite lookup_insert_ne by congruence|].
      exists j0, x, n', a. rewrite Ro, lookup_insert_ne, E by (done || congruence). done.
  - intros x Hx. rewrite Ef. assert (x = c \/ x < c) as [->|]; [|lia|lia]. destruct Hx as [[n' Hx]|[Hx|Hx]].
    + destruct (decide (x = c)); [by left|]. right. destruct (Nw x n' Hx) as (n0 & Hn0 & _); [done|]. apply J3. left. eauto.
    + right. apply J3. right. left. by apply Hd.
    + destruct (Hb x Hx) as [->|]; [by left|]. right. apply J3. by right; right.
Qed.

(** The node is linked below the root, and the record gets its flags. *)
Definition put_flags (j : jobRec) : jobRec :=
  let j := if newReason j =? 0 then set_newReason PEND_JOB_NEW j else j in
  match dptRoot j with
  | None => on_core (fun k => set_jFlags (Z.lor (jFlags k) JFLAG_READY2) k) j
  | Some _ => j
  end.

Lemma put_flags_keeps j : keeps j (put_flags j) /\ jStatus (core (put_flags j)) = jStatus (core j).
Proof. unfold put_flags. destruct (newReason j =? 0), (dptRoot j) eqn:E; cbn; rewrite ?E; done. Qed.

Lemma put_root : exists n, nodes t !! groupRoot t = Some n /\ ndInfo n = GroupInfo (groupRoot t) /\ groupRoot t <> c
  /\ up (nodes t) (Some (groupRoot t)) [groupRoot t].
Proof.
  destruct (s_root _ _ _ (i_shape _ _ _ _ I)) as (n & Hn & In & Pn). exists n. split_and!; [done|done| |].
  - intros E. pose proof put_fresh. congruence.
  - econstructor; [done|]. rewrite Pn. constructor.
Qed.

Lemma put_link t2 jp j2 : shape t2 kids (<[c := mkA [c] js]> A) -> nodes t2 = nodes (with_node t nm i) -> ids t2 = ids t -> fresh t2 = c + 1 ->
  groupRoot t2 = groupRoot t -> entry t2 = entry t ->
  (forall x, is_Some (bases t2 !! x) -> x = c \/ is_Some (bases t !! x)) ->
  (forall r, is_Some (recs t2 !! r) -> is_Some (recs t !! r)) ->
  (forall r, ~ holds i js r -> recs t2 !! r = recs t !! r) ->
  (forall r, holds i js r -> exists j j', recs t !! r = Some j /\ recs t2 !! r = Some j' /\ jobId (core j') = jobId (core j) /\ jgrpNode j' = Some c) ->
  info_ok (recs t2) c i js -> holds i js jp -> recs t2 !! jp = Some j2 -> jStatus (core j2) <> JOB_STAT_NULL ->
  (forall s, (jp, s) ∈ js -> s = jStatus (core j2)) ->
  exists t', ('(_, t1) ← treeInsertChild t2 (Some (groupRoot t2)) (Some c); on_rec jp put_flags t1) = Ok t'
    /\ inv_but (fun r => P r /\ ~ holds i js r) t' (add_kid kids (groupRoot t) c) A' /\ recs t' = <[jp := put_flags j2]> (recs t2)
    /\ ids t' = ids t /\ groupRoot t' = groupRoot t /\ fresh t' = c + 1 /\ entry t' = entry t.
Proof.
  intros S2 En Ei Ef Er Ee Hb Hd Ro Rn Ic Hjp Hj2 Hs Hst. pose proof put_fresh as Fn. destruct put_root as (n & Hn & In & Rc & Ur).
  pose proof (s_forest _ _ _ (i_shape _ _ _ _ I)) as F0. rewrite Er.
  assert (Kc : kids c = []) by (apply (new_kids t kids A (i_shape _ _ _ _ I) Fn)).
  assert (Hn2 : nodes t2 !! groupRoot t = Some n) by (rewrite En; cbn; by rewrite lookup_insert_ne by congruence).
  assert (Hc2 : nodes t2 !! c = Some (mkNode None None None None nm i)) by (rewrite En; cbn; by rewrite lookup_insert_eq).
  assert (Ur2 : up (nodes t2) (Some (groupRoot t)) [groupRoot t]) by (rewrite En; by apply (new_up t)).
  assert (Rc' : c <> groupRoot t) by congruence.
  destruct (attach_spec t2 kids _ (groupRoot t) c n _ [] js S2 Hn2 In Ur2 Hc2 eq_refl Kc Rc' (lookup_insert_eq _ _ _) Ic Gi) as (B & E1 & E2 & E3).
  rewrite E1. cbn [mbind res_bind]. rewrite (on_rec_eq _ jp put_flags j2) by done. eexists. split; [done|].
  destruct (put_flags_keeps j2) as [Kf Sf].
  split_and!; try done. split.
  - unfold att_A in E2. rewrite insert_insert_eq in E2. destruct E2 as [T1 T2 T3 T4 T5 T6 T7]. rewrite <- Er in *. by split.
  - apply put_jobs; cbn [nodes ids fresh recs bases set_recs set_bases set_nodes]; try done.
    + rewrite <- En. exact (linked_data (nodes t2) kids (groupRoot t) c n _ Hn2 Hc2).
    + intros x Hx. apply Hb. by apply E3.
    + intros r Hr. apply Hd. destruct (decide (r = jp)) as [->|]; [eauto|]. by rewrite lookup_insert_ne in Hr by congruence.
    + intros r Hr. rewrite lookup_insert_ne; [by apply Ro|]. intros ->. done.
    + intros r Hr. destruct (Rn r Hr) as (j & j' & H1 & H2 & H3 & H4). destruct (decide (r = jp)) as [->|].
      * exists j, (put_flags j2). rewrite lookup_insert_eq. simplify_eq. destruct Kf as (K1 & _ & K3 & _). rewrite K1, K3. done.
      * exists j, j'. by rewrite lookup_insert_ne by congruence.
    + rewrite <- (set_state_same jp (jStatus (core (put_flags j2))) js) by (intros s Hsj; rewrite Sf; by apply Hst).
      apply (info_ok_rec (recs t2) jp j2 (put_flags j2) Hj2 Kf); [by rewrite Sf|done].
  - intros x a. cbn. rewrite Er. destruct (decide (x = c)) as [->|Hx]; [rewrite lookup_insert_eq; intros [= <-]; cbn; set_solver|].
    rewrite lookup_insert_ne by congruence. apply I.
  - intros e. cbn. rewrite Ee. intros He. destruct (i_entry _ _ _ _ I e He) as [m Hm].
    assert (Hm2 : nodes t2 !! e = Some m) by (rewrite En; cbn; rewrite lookup_insert_ne; [done|congruence]).
    destruct (same_data_back _ _ e m (linked_data (nodes t2) kids (groupRoot t) c n _ Hn2 Hc2) Hm2) as (m' & Hm' & _). by exists m'.
Qed.
End Put.

(** A single job. *)
Lemma put_job P t kids A jp j : inv_but P t kids A -> outside t A jp -> recs t !! jp = Some j -> nodeType (core j) = JGRP_NODE_JOB ->
  nextJob (core j) = None -> jStatus (core j) <> JOB_STAT_NULL -> 0 < jobId (core j) ->
  exists t', let js := [(jp, jStatus (core j))] in
    putOntoTree t jp = Ok t' /\ inv_but (fun r => P r /\ ~ holds (JobInfo (Some jp)) js r) t' (add_kid kids (groupRoot t) (fresh t))
      (<[fresh t := mkA [fresh t; groupRoot t] js]> A)
    /\ recs t' = <[jp := put_flags (set_jgrpNode (Some (fresh t)) j)]> (recs t)
    /\ ids t' = ids t /\ groupRoot t' = groupRoot t /\ fresh t' = fresh t + 1 /\ entry t' = entry t.
Proof.
  intros I Out Hj Ty Nx Hs Id. set (js := [(jp, jStatus (core j))]). cbn zeta. rewrite (putOntoTree_start t jp j) by (done || congruence). cbn zeta. rewrite Ty.
  set (i := JobInfo (Some jp)). rewrite (on_rec_eq _ jp _ j) by done. cbn [mbind res_bind]. rewrite Nx.
  set (t2 := set_recs _ _). replace (put_elements (walk_fuel (recs t2)) t2 (fresh t) None) with (Ok t2) by (unfold walk_fuel; done). cbn [mbind res_bind].
  assert (Hh : forall r, holds i js r <-> r = jp) by (intros r; unfold holds, i; cbn; rewrite list_elem_of_singleton; naive_solver).
  set (j2 := set_jgrpNode (Some (fresh t)) j). assert (Hj2 : recs t2 !! jp = Some j2) by (cbn; by rewrite lookup_insert_eq).
  assert (Out' : forall r, holds i js r -> outside t A r) by (intros r ->%Hh; done).
  pose proof (put_fresh P t kids A I) as Fn.
  destruct (put_link P t kids A (job_name j) i js I ltac:(done) Out' t2 jp j2) as (t' & E & X & E2 & E3); try done.
  - pose proof (new_shape t kids A (job_name j) i (i_shape _ _ _ _ I) Fn ltac:(done) ltac:(done) js ltac:(done)) as [T1 T2 T3 T4 T5 T6 T7]. by split.
  - intros x Hx. by right.
  - intros r Hr. cbn in Hr. destruct (decide (r = jp)) as [->|]; [eauto|]. by rewrite lookup_insert_ne in Hr by congruence.
  - intros r Hr. cbn. rewrite lookup_insert_ne; [done|]. intros <-. apply Hr. by apply Hh.
  - intros r ->%Hh. exists j, j2. done.
  - exists jp, (jStatus (core j)). split_and!; try done; [by exists j2|]. econstructor; [done|]. cbn. rewrite Nx. constructor.
  - by apply Hh.
  - intros s Hsj. apply list_elem_of_singleton in Hsj. by injection Hsj as ->.
  - exists t'. rewrite E2. cbn. rewrite insert_insert_eq. done.
Qed.

Lemma loose_at c l R p : p.1 ∈ l -> loose R p -> job_at (regroup c l R) c p.
Proof.
  intros Hp (j & Hj & H1 & H2 & H3 & H4). exists (set_jgrpNode (Some c) j). rewrite regroup_lookup, Hj. cbn.
  rewrite bool_decide_eq_true_2 by done. done.
Qed.

(** An array with its elements. *)
Lemma put_array P t kids A jp j js : inv_but P t kids A -> (forall r, r = jp \/ r ∈ js.*1 -> outside t A r) -> recs t !! jp = Some j ->
  nodeType (core j) = JGRP_NODE_ARRAY -> row (recs t) (nextJob (core j)) js.*1 -> Forall (loose (recs t)) js ->
  Z.of_nat (length js) < 2 ^ 31 -> jStatus (core j) <> JOB_STAT_NULL -> 0 < jobId (core j) ->
  exists t', let i := ArrayInfo (fresh t) (Some jp) in
    putOntoTree t jp = Ok t' /\ inv_but (fun r => P r /\ ~ holds i js r) t' (add_kid kids (groupRoot t) (fresh t))
      (<[fresh t := mkA [fresh t; groupRoot t] js]> A)
    /\ recs t' = <[jp := put_flags (set_jgrpNode (Some (fresh t)) j)]> (regroup (fresh t) js.*1 (recs t))
    /\ ids t' = ids t /\ groupRoot t' = groupRoot t /\ fresh t' = fresh t + 1 /\ entry t' = entry t.
Proof.
  intros I Out Hj Ty W L Len Hs Id. cbn zeta. rewrite (putOntoTree_start t jp j) by (done || congruence). cbn zeta. rewrite Ty.
  set (c := fresh t) in *. set (i := ArrayInfo c (Some jp)). rewrite (on_rec_eq _ jp _ j) by done. cbn [mbind res_bind].
  pose proof (put_fresh P t kids A I) as Fn. fold c in Fn. set (j2 := set_jgrpNode (Some c) j).
  set (t2 := set_recs (<[jp := j2]> (recs (with_node t (job_name j) i))) (with_node t (job_name j) i)).
  assert (Nin : jp ∉ js.*1).
  { intros H. apply list_elem_of_fmap in H as ([r s] & -> & Hr). rewrite Forall_forall in L. destruct (L _ Hr) as (j0 & Hj0 & _ & _ & T0 & _). cbn in *. congruence. }
  assert (Hh : forall r, holds i js r <-> r = jp \/ r ∈ js.*1) by (intros r; unfold holds, i; naive_solver).
  pose proof (set_jgrpNode_cores (recs t) jp j (Some c) Hj) as Sc.
  assert (S2 : shape t2 kids (<[c := mkA [c] []]> A)).
  { pose proof (new_shape t kids A (job_name j) i (i_shape _ _ _ _ I) Fn ltac:(by intros ? [= <-]) ltac:(done) [] ltac:(done)) as [T1 T2 T3 T4 T5 T6 T7]. by split. }
  destruct (put_elements_spec (walk_fuel (recs t2)) t2 kids (<[c := mkA [c] []]> A) c (mkNode None None None None (job_name j) i) [] js (nextJob (core j)))
    as (B & E1 & E2 & E3); try done.
  { cbn. by rewrite lookup_insert_eq. }
  { by rewrite lookup_insert_eq. }
  { by apply (same_cores_row (recs t)). }
  { eapply Forall_impl; [exact L|]. intros p Hp. by apply (same_cores_loose (recs t)). }
  { pose proof (path_length _ _ _ _ (same_cores_row _ (recs t2) _ _ Sc W)) as Q. rewrite length_fmap in Q. lia. }
  cbn zeta in E1, E2. rewrite E1. cbn [mbind res_bind]. rewrite insert_insert_eq in E2. cbn [app] in E2.
  set (t3 := set_recs (regroup c js.*1 (recs t2)) (set_bases B t2)) in *. assert (R3 : recs t3 = regroup c js.*1 (<[jp := j2]> (recs t))) by done.
  assert (Hj3 : recs t3 !! jp = Some j2) by (rewrite R3, regroup_lookup, lookup_insert_eq; cbn; by rewrite bool_decide_eq_false_2).
  destruct (put_link P t kids A (job_name j) i js I ltac:(done) (fun r Hr => Out r (proj1 (Hh r) Hr)) t3 jp j2) as (t' & F1 & F2 & F3 & F4); try done.
  - intros x Hx. change (is_Some (B !! x)) in Hx. apply E3 in Hx. cbn in Hx. destruct (decide (x = fresh t)) as [->|]; [by left|]. right. by rewrite lookup_insert_ne in Hx by congruence.
  - intros r. rewrite R3, regroup_lookup, fmap_is_Some. destruct (decide (r = jp)) as [->|]; [eauto|]. by rewrite lookup_insert_ne by congruence.
  - intros r Hr. rewrite R3, regroup_lookup. rewrite Hh in Hr. rewrite lookup_insert_ne by naive_solver. destruct (recs t !! r); [|done]. cbn.
    by rewrite bool_decide_eq_false_2 by naive_solver.
  - intros r [->|Hr]%Hh; [exists j, j2; done|]. apply list_elem_of_fmap in Hr as ([r0 s0] & -> & Hr). rewrite Forall_forall in L.
    destruct (L _ Hr) as (j0 & Hj0 & _). cbn [fst] in *. exists j0, (set_jgrpNode (Some c) j0). split; [done|]. rewrite R3, regroup_lookup.
    assert (Hm : r0 ∈ js.*1) by (apply list_elem_of_fmap; by exists (r0, s0)). rewrite lookup_insert_ne, Hj0 by congruence. cbn.
    by rewrite bool_decide_eq_true_2.
  - exists jp, j2. split_and!; try done.
    + rewrite R3. apply (same_cores_row (<[jp := j2]> (recs t))); [apply regroup_cores|]. by apply (same_cores_row (recs t)).
    + rewrite R3. apply Forall_forall. intros p Hp. apply loose_at; [by apply list_elem_of_fmap_2|]. apply (same_cores_loose (recs t)); [done|].
      rewrite Forall_forall in L. by apply L.
  - apply Hh. by left.
  - intros s Hsj. exfalso. apply Nin. apply list_elem_of_fmap. by exists (jp, s).
  - exists t'. split_and!; try done; [|apply F4..]. rewrite F3, R3. apply map_eq. intros r. destruct (decide (r = jp)) as [->|]; [by rewrite !lookup_insert_eq|].
    rewrite !lookup_insert_ne by congruence. rewrite !regroup_lookup. by rewrite lookup_insert_ne by congruence.
Qed.
