(* ===== verification/JGroupRemove.v ===== *)
(** * Jobs leave the job tree

    [removeJob] with [offArray] keeps the state of the tree well formed. *)
From stdpp Require Import base gmap list fin_maps.
From Stdlib Require Import ZArith Bool Lia.
From S2P Require Import Prelude Ledger JobId CNum ListSet JobArray DepToken DepCond JGroup JTree JGroupInv JGroupOps JGroupPut.
Local Open Scope Z_scope.

(** A record belongs to the node that it points to. *)
Lemma holds_node P t A x n a r : jobs_but P t A -> nodes t !! x = Some n -> A !! x = Some a -> holds (ndInfo n) (a_jobs a) r ->
  exists j, recs t !! r = Some j /\ jgrpNode j = Some x.
Proof.
  intros J Hn Ha [Hr|[b Hi]].
  - apply list_elem_of_fmap in Hr as ([r0 s] & -> & Hr). destruct (member_rec P t A x n a r0 s J Hn Ha Hr) as (j & Hj & _ & _ & Nj & _). eauto.
  - pose proof (j_info _ _ _ J x n a Hn Ha) as I. rewrite Hi in I. destruct I as (a0 & ja & [= <-] & H1 & H2 & _). eauto.
Qed.

Lemma holds_one P t A x n a y m b r : jobs_but P t A -> nodes t !! x = Some n -> A !! x = Some a -> holds (ndInfo n) (a_jobs a) r ->
  nodes t !! y = Some m -> A !! y = Some b -> holds (ndInfo m) (a_jobs b) r -> x = y.
Proof.
  intros J Hn Ha H Hm Hb H'. destruct (holds_node P t A x n a r J Hn Ha H) as (j & Hj & E).
  destruct (holds_node P t A y m b r J Hm Hb H') as (j' & Hj' & E'). congruence.
Qed.

(** ** A node is removed *)

Lemma leaf_facts P t kids A c nc a : inv_but P t kids A -> nodes t !! c = Some nc -> A !! c = Some a -> (forall b, ndInfo nc <> GroupInfo b) ->
  exists p lp k1 k2, kids c = [] /\ kids p = k1 ++ c :: k2 /\ a_chain a = c :: p :: lp.
Proof.
  intros I Hc Ha Gc. pose proof (i_shape _ _ _ _ I) as S. pose proof (i_attached _ _ _ _ I c a Ha) as At.
  destruct (s_chain _ _ _ S c a Ha) as (l & El & U). rewrite El in At.
  assert (Kc : kids c = []).
  { destruct (kids c) as [|y k] eqn:K; [done|]. destruct (s_leaf _ _ _ S c nc Hc) as [b Hb]; [by rewrite K|]. by destruct (Gc b). }
  assert (Nr : groupRoot t <> c).
  { intros E. destruct (s_root _ _ _ S) as (n & Hn & In & _). rewrite E, Hc in Hn. injection Hn as <-. by eapply Gc. }
  destruct l as [|p lp]; [set_solver|]. inversion U as [|? n ? Hn U']; subst. simplify_eq. inversion U' as [|? m ? Hm U'' E1]; subst.
  destruct (f_par _ _ (s_forest _ _ _ S) c nc p Hc) as [K _]; [congruence|]. apply list_elem_of_split in K as (k1 & k2 & K).
  exists p, lp, k1, k2. done.
Qed.

Lemma remove_node P t kids A c nc a : inv_but P t kids A -> nodes t !! c = Some nc -> A !! c = Some a -> (forall b, ndInfo nc <> GroupInfo b) ->
  exists t' kids', clip_and_free t c = Ok t' /\ inv_but (fun r => P r \/ holds (ndInfo nc) (a_jobs a) r) t' kids' (delete c A)
    /\ recs t' = recs t /\ ids t' = ids t /\ groupRoot t' = groupRoot t /\ fresh t' = fresh t.
Proof.
  intros I Hc Ha Gc. destruct (leaf_facts P t kids A c nc a I Hc Ha Gc) as (p & lp & k1 & k2 & Kc & Kp & Ech).
  pose proof I as [S J At En]. pose proof (j_info _ _ _ J c nc a Hc Ha) as Jc.
  assert (Ac : A !! c = Some (mkA (c :: p :: lp) (a_jobs a))) by (rewrite Ha, <- Ech; by destruct a).
  destruct (detach_spec t kids A p c nc lp k1 k2 (a_jobs a) S Hc Kp Kc Ac Jc Gc En) as (B & E1 & E2 & E3).
  eexists _, _. split; [exact E1|]. split_and!; [|done..].
  assert (Nl : forall x n, removed (nodes t) p c k1 k2 !! x = Some n -> x <> c /\ exists n0, nodes t !! x = Some n0 /\ ndInfo n = ndInfo n0).
  { intros x n Hx. apply (removed_lookup (nodes t) kids p c nc k1 k2 (s_forest _ _ _ S) Hc Kp Kc) in Hx as (Hxc & n0 & Hn0 & ->). eauto. }
  split; [done| | |].
  - destruct J as [J1 J2 J3]. split; cbn.
    + intros x n b Hn Hb. apply lookup_delete_Some in Hb as [_ Hb]. destruct (Nl x n Hn) as (_ & n0 & Hn0 & ->). by apply J1.
    + intros id r Hr. destruct (J2 id r Hr) as (Pos & Pl & R). split; [done|]. split; [|done].
      destruct Pl as [(j & x & n & b & H1 & H2 & H3 & H4 & H5)|Pr]; [|by right; left]. destruct (decide (x = c)) as [->|Hx].
      * right. right. by simplify_eq.
      * left. exists j, x, (clipped p k1 k2 x n), b. split_and!; try done; [|by rewrite lookup_delete_ne].
        apply (removed_lookup (nodes t) kids p c nc k1 k2 (s_forest _ _ _ S) Hc Kp Kc). eauto.
    + intros x Hx. apply J3. destruct Hx as [[n Hx]|[Hx|Hx]]; [|by right; left|right; right; by apply E3].
      destruct (Nl x n Hx) as (_ & n0 & Hn0 & _). left. eauto.
  - intros x b Hb. apply lookup_delete_Some in Hb as [_ Hb]. by apply (At x).
  - intros e He. cbn in He. by apply (moved_entry_valid t kids A p c nc lp k1 k2 (a_jobs a) S Hc Kp Kc Ac Jc Gc e En).
Qed.

(** ** An element leaves its array *)

Lemma before_job_spec t r x l1 : forall l2 fuel q jq, recs t !! q = Some jq -> row (recs t) (nextJob (core jq)) (l1 ++ r :: l2) ->
  NoDup (q :: l1 ++ r :: l2) -> (length l1 < fuel)%nat -> (forall jr, recs t !! r = Some jr -> nextJob (core jr) = x) ->
  exists ptr pr, before_job fuel t r q = Ok ptr /\ recs t !! ptr = Some pr /\ nextJob (core pr) = Some r /\ (ptr = q \/ ptr ∈ l1)
    /\ let R' := <[ptr := on_core (set_nextJob x) pr]> (recs t) in
       exists jq', R' !! q = Some jq' /\ (ptr <> q -> jq' = jq) /\ (ptr = q -> jq' = on_core (set_nextJob x) jq) /\ row R' (nextJob (core jq')) (l1 ++ l2).
Proof.
  induction l1 as [|y l1 IH]; intros l2 fuel q jq Hq W N F X; (destruct fuel as [|fuel]; [cbn in F; lia|]).
  - inversion W as [|? jr ? Hr W']; subst. exists q, jq. cbn [before_job]. rewrite (rec_at_eq t q jq Hq). cbn [mbind res_bind].
    match goal with E : Some _ = nextJob _ |- _ => rewrite <- E end. rewrite Z.eqb_refl. split_and!; [done|done|done|by left|].
    exists (on_core (set_nextJob x) jq). rewrite lookup_insert_eq. split_and!; [done|done|done|]. cbn. rewrite <- (X jr Hr).
    eapply path_ext; [|exact W']. intros z n Hz Hn. exists n. rewrite lookup_insert_ne; [done|]. intros <-. cbn in N. apply NoDup_cons in N as [N _]. set_solver.
  - inversion W as [|? jy ? Hy W']; subst. apply NoDup_cons in N as [Nq N].
    destruct (IH l2 fuel y jy Hy W' N) as (ptr & pr & E1 & E2 & E3 & E4 & jy' & E5 & E6 & E6' & E7); [cbn in F; lia|done|].
    exists ptr, pr. cbn [before_job]. rewrite (rec_at_eq t q jq Hq). cbn [mbind res_bind].
    match goal with E : Some _ = nextJob _ |- _ => rewrite <- E; rename E into Eq end.
    assert (Hne : y <> r) by (apply NoDup_cons in N as [N _]; set_solver). rewrite (proj2 (Z.eqb_neq y r) Hne), E1.
    assert (Pq : ptr <> q) by (intros ->; destruct E4 as [->|E4]; set_solver).
    split_and!; [done|done|done|right; destruct E4 as [->|E4]; set_solver|]. exists jq. rewrite lookup_insert_ne by congruence. split_and!; [done|done|done|].
    rewrite <- Eq. cbn [app]. by econstructor.
Qed.

Lemma job_at_next R x ptr pr y p : R !! ptr = Some pr -> job_at R x p -> job_at (<[ptr := on_core (set_nextJob y) pr]> R) x p.
Proof.
  intros Hp (j & Hj & H). destruct (decide (p.1 = ptr)) as [E|E].
  - rewrite E, Hp in Hj. injection Hj as <-. exists (on_core (set_nextJob y) pr). rewrite E, lookup_insert_eq. done.
  - exists j. by rewrite lookup_insert_ne.
Qed.

(** The tree after the element [r] has left: [ptr] is the record before it. *)
Section Leave.
Variables (P : Z -> Prop) (t : jtree) (kids : Z -> list Z) (A : gmap Z anode) (c : Z) (nc : jgTreeNode) (b a : Z) (ac : anode)
  (r s : Z) (js1 js2 : list (Z * Z)).
Hypotheses (I : inv_but P t kids A) (Hc : nodes t !! c = Some nc) (Ic : ndInfo nc = ArrayInfo b (Some a)) (Ha : A !! c = Some ac)
  (Hjs : a_jobs ac = js1 ++ (r, s) :: js2).
Abbreviation A' := (<[c := mkA (a_chain ac) (js1 ++ js2)]> A).

Lemma leave_array : exists ja, recs t !! a = Some ja /\ jgrpNode ja = Some c /\ nodeType (core ja) = JGRP_NODE_ARRAY /\ 0 < jobId (core ja)
  /\ jStatus (core ja) <> JOB_STAT_NULL /\ row (recs t) (nextJob (core ja)) (js1.*1 ++ r :: js2.*1) /\ Forall (job_at (recs t) c) (js1 ++ js2)
  /\ Z.of_nat (length (js1 ++ js2)) < 2 ^ 31 /\ NoDup (a :: js1.*1 ++ r :: js2.*1).
Proof.
  pose proof (j_info _ _ _ (i_jobs _ _ _ _ I) c nc ac Hc Ha) as If. rewrite Ic in If. destruct If as (a0 & ja & [= <-] & H1 & H2 & H3 & H4 & H5 & H6 & H7 & H8).
  rewrite Hjs in H6, H7, H8. rewrite fmap_app, fmap_cons in H6. cbn [fst] in H6. exists ja. split_and!; try done.
  - rewrite Forall_app, Forall_cons in H7. rewrite Forall_app. naive_solver.
  - rewrite length_app in *. cbn in H8. lia.
  - apply NoDup_cons. split; [|by eapply path_nodup]. intros Hin.
    assert (Hin' : a ∈ (js1 ++ (r, s) :: js2).*1) by (rewrite fmap_app, fmap_cons; done). apply list_elem_of_fmap in Hin' as (p & Ep & Hp).
    rewrite Forall_forall in H7. destruct (H7 p Hp) as (j & Hj & _ & _ & _ & Tj & _). rewrite <- Ep in Hj. congruence.
Qed.

Lemma leave_total g k : total A' g k = total A g k + if decide (g ∈ a_chain ac) then - hit k s else 0.
Proof.
  rewrite (total_replace A c ac) by done. unfold weight. cbn [a_chain a_jobs]. rewrite Hjs, !own_app, own_cons. cbn [snd]. case_decide; lia.
Qed.

Lemma leave_inv ptr pr ja' x : let R' := <[ptr := on_core (set_nextJob x) pr]> (recs t) in
  recs t !! ptr = Some pr -> (ptr = a \/ ptr ∈ js1.*1) -> s <> JOB_STAT_NULL ->
  R' !! a = Some ja' -> (forall ja, recs t !! a = Some ja -> keeps (on_core (set_nextJob (nextJob (core ja'))) ja) ja' /\ jStatus (core ja') = jStatus (core ja)) ->
  row R' (nextJob (core ja')) (js1.*1 ++ js2.*1) ->
  inv_but (fun r' => P r' \/ r' = r) (set_bases (upd_on (nodes t) (count_status s JOB_STAT_NULL) (a_chain ac) (bases t)) (set_recs R' t)) kids A'.
Proof.
  intros R' Hptr Hin Hs Ha' Kja W. pose proof I as [S J At En]. destruct leave_array as (ja & L1 & L2 & L3 & L4 & L5 & L6 & L7 & L8 & L9).
  destruct (Kja ja L1) as [(K1 & K2 & K3 & K4) K5]. cbn in K1, K2, K3.
  assert (Hh : holds (ndInfo nc) (a_jobs ac) ptr).
  { destruct Hin as [->|Hin]; [right; by exists b|]. left. rewrite Hjs, fmap_app. set_solver. }
  assert (Ro : forall r', r' <> ptr -> R' !! r' = recs t !! r') by (intros r' Hr'; unfold R'; by rewrite lookup_insert_ne).
  split.
  - destruct S as [S1 S2 S3 S4 S5 S6 S7]. split; cbn; try done.
    + intros y. destruct (decide (y = c)) as [->|]; [rewrite lookup_insert_eq, Hc; split; eauto|by rewrite lookup_insert_ne].
    + intros y d. destruct (decide (y = c)) as [->|]; [rewrite lookup_insert_eq; intros [= <-]; by apply (S3 c ac)|rewrite lookup_insert_ne by done; apply S3].
    + eapply (upd_exact _ _ _ (set_recs R' t) A); [exact S6|apply count_status_adds|]. intros g m k _ _ _. rewrite leave_total.
      rewrite (hits_nonzero s) by done. unfold hits. cbn. case_decide; lia.
  - pose proof J as [J1 J2 J3]. split; cbn.
    + intros y n d Hn. destruct (decide (y = c)) as [->|Hy].
      * rewrite lookup_insert_eq. intros [= <-]. rewrite Hc in Hn. injection Hn as <-. rewrite Ic. cbn. exists a, ja'. rewrite K1, K2, K3, K5, fmap_app. split_and!; try done.
        eapply Forall_impl; [exact L7|]. intros p Hp. by apply job_at_next.
      * rewrite lookup_insert_ne by congruence. intros Hd. apply (info_ok_ext (recs t)); [by apply J1|]. intros r' Hr'. apply Ro. intros ->.
        apply Hy. by eapply (holds_one P t A y n d c nc ac ptr).
    + intros id r' Hr'. destruct (J2 id r' Hr') as (Pos & Pl & j & Hj & Ej). split; [done|].
      assert (exists j', R' !! r' = Some j' /\ jobId (core j') = jobId (core j) /\ jgrpNode j' = jgrpNode j) as (j' & Hj' & E1 & E2).
      { destruct (decide (r' = ptr)) as [->|]; [|exists j; rewrite Ro by done; done]. rewrite Hptr in Hj. injection Hj as <-.
        exists (on_core (set_nextJob x) pr). unfold R'. by rewrite lookup_insert_eq. }
      split; [|exists j'; split; [done|congruence]]. destruct Pl as [(j0 & y & n & d & G1 & G2 & G3 & G4 & G5)|Pr]; [|by right; left].
      rewrite Hj in G1. injection G1 as <-. destruct (decide (r' = r)) as [->|Hrr]; [by right; right|left].
      destruct (decide (y = c)) as [->|Hy].
      * exists j', c, nc, (mkA (a_chain ac) (js1 ++ js2)). rewrite lookup_insert_eq. rewrite Hc in G3. injection G3 as <-. rewrite Ha in G4. injection G4 as <-.
        split_and!; try done; [congruence|]. destruct G5 as [G5|G5]; [left|by right]. cbn. rewrite Hjs, fmap_app, fmap_cons in G5. rewrite fmap_app. set_solver.
      * exists j', y, n, d. rewrite lookup_insert_ne by congruence. split_and!; try done. congruence.
    + intros y Hy. apply J3. rewrite upd_on_dom in Hy. destruct Hy as [?|[Hy|?]]; [by left| |by right; right]. right. left.
      destruct (decide (y = ptr)) as [->|]; [eauto|]. by rewrite Ro in Hy by congruence.
  - intros y d. cbn. destruct (decide (y = c)) as [->|]; [rewrite lookup_insert_eq; intros [= <-]; by apply (At c ac)|rewrite lookup_insert_ne by congruence; apply At].
  - exact En.
Qed.

Lemma offArray_spec j : recs t !! r = Some j -> jStatus (core j) = s -> jgrpNode j = Some c -> s <> JOB_STAT_NULL ->
  exists t', offArray t r = Ok t' /\ inv_but (fun r' => P r' \/ r' = r) t' kids A' /\ nodes t' = nodes t /\ ids t' = ids t
    /\ groupRoot t' = groupRoot t /\ fresh t' = fresh t /\ recs t' !! r = Some j
    /\ exists ja ja', recs t !! a = Some ja /\ recs t' !! a = Some ja' /\ jobId (core ja') = jobId (core ja) /\ jStatus (core ja') <> JOB_STAT_NULL.
Proof.
  intros Hj Es Nj Hs. pose proof I as [S J At En]. destruct leave_array as (ja & L1 & L2 & L3 & L4 & L5 & L6 & L7 & L8 & L9).
  destruct (before_job_spec t r (nextJob (core j)) js1.*1 js2.*1 (walk_fuel (recs t)) a ja L1 L6 L9) as (ptr & pr & E1 & E2 & E3 & E4 & ja' & E5 & E6 & E6' & E7).
  { pose proof (path_length _ _ _ _ L6) as Q. rewrite length_app in Q. cbn in Q. lia. }
  { intros jr Hjr. congruence. }
  assert (Nr : ptr <> r).
  { intros ->. apply NoDup_cons in L9 as [N1 N2]. apply NoDup_app in N2 as (_ & N2 & _). destruct E4 as [->|E4]; set_solver. }
  unfold offArray. rewrite (rec_at_eq t r j Hj). cbn [mbind res_bind]. rewrite Nj, (node_at_eq (nodes t) c nc Hc). cbn [mbind res_bind]. rewrite Ic.
  cbn [deref mbind res_bind]. rewrite E1. cbn [mbind res_bind]. rewrite (rec_at_eq t ptr pr E2). cbn [mbind res_bind]. rewrite E3, (rec_at_eq t r j Hj). cbn [mbind res_bind].
  rewrite (on_rec_eq t ptr _ pr E2). cbn [mbind res_bind].
  set (R' := <[ptr := on_core (set_nextJob (nextJob (core j))) pr]> (recs t)) in *.
  assert (Hjr : R' !! r = Some j) by (unfold R'; by rewrite lookup_insert_ne).
  destruct (s_chain _ _ _ S c ac Ha) as (l & El & U).
  assert (Kja : forall ja0, recs t !! a = Some ja0 -> keeps (on_core (set_nextJob (nextJob (core ja'))) ja0) ja' /\ jStatus (core ja') = jStatus (core ja0)).
  { intros ja0 H0. rewrite L1 in H0. injection H0 as <-. destruct (decide (ptr = a)) as [Ep|Ep]; [rewrite (E6' Ep) by done|rewrite (E6 Ep)]; done. }
  rewrite (updJgrp_spec (set_recs R' t) r j (a_chain ac)); [|apply S|eapply (exact_has_bases t), S|done|by rewrite Nj, El].
  rewrite Es. eexists. split; [done|]. split_and!; try done.
  - apply (leave_inv ptr pr ja' (nextJob (core j))); done.
  - exists ja, ja'. destruct (Kja ja L1) as [(K1 & K2 & K3 & K4) K5]. rewrite K5. done.
Qed.
End Leave.

(** ** [removeJob] *)

Lemma inv_weaken (P Q : Z -> Prop) t kids A : inv_but P t kids A -> (forall id r, ids t !! id = Some r -> P r -> Q r) -> inv_but Q t kids A.
Proof.
  intros [S [J1 J2 J3] At En] H. split; [done| |done|done]. split; [done| |done]. intros id r Hr. destruct (J2 id r Hr) as (Pos & Pl & R). naive_solver.
Qed.

Lemma inv_drop_id P t kids A id : inv_but P t kids A -> inv_but P (set_ids (delete id (ids t)) t) kids A.
Proof.
  intros [[S1 S2 S3 S4 S5 S6 S7] [J1 J2 J3] At En]. split; [by split| |done|done]. split; [done| |done].
  intros id' r Hr. cbn in Hr. apply lookup_delete_Some in Hr as [_ Hr]. by apply J2.
Qed.

Lemma inv_rec P t kids A r j j' : inv_but P t kids A -> recs t !! r = Some j -> keeps j j' -> jStatus (core j') <> JOB_STAT_NULL ->
  state_all r (jStatus (core j')) A = A -> inv_but P (set_recs (<[r := j']> (recs t)) t) kids A.
Proof.
  intros [[S1 S2 S3 S4 S5 S6 S7] J At En] Hj K Hs E. split; [by split| |done|done]. rewrite <- E. by apply (jobs_ok_rec P t A r j j').
Qed.

Lemma freeJData_spec P t kids A r j : inv_but P t kids A -> recs t !! r = Some j -> (forall x a, A !! x = Some a -> r ∉ (a_jobs a).*1) ->
  exists j', freeJData t r = Ok (set_recs (<[r := j']> (recs t)) t) /\ inv_but P (set_recs (<[r := j']> (recs t)) t) kids A.
Proof.
  intros I Hj N. unfold freeJData. rewrite (on_rec_eq t r _ j Hj). eexists. split; [done|]. apply (inv_rec P t kids A r j); try done.
  - cbn. intros E. apply Z.lor_eq_0_iff in E as [_ E]. done.
  - by apply (state_all_none P t A r), N; apply I.
Qed.

(** A job that has an identifier is a member of its node, or the record of an array. *)
Lemma placed_member t A r j : jobs_ok t A -> placed t A r -> recs t !! r = Some j -> nodeType (core j) <> JGRP_NODE_ARRAY ->
  exists x n a, nodes t !! x = Some n /\ A !! x = Some a /\ jgrpNode j = Some x /\ (r, jStatus (core j)) ∈ a_jobs a /\ jStatus (core j) <> JOB_STAT_NULL.
Proof.
  intros J (j0 & x & n & a & H1 & H2 & H3 & H4 & H5) Hj Ty. simplify_eq. exists x, n, a. destruct H5 as [H5|[b Hi]].
  - apply list_elem_of_fmap in H5 as ([r0 s] & -> & Hr). destruct (member_rec _ t A x n a r0 s J H3 H4 Hr) as (j1 & Hj1 & Es & Hs & _). cbn in *. simplify_eq. done.
  - pose proof (j_info _ _ _ J x n a H3 H4) as If. rewrite Hi in If. destruct If as (a0 & ja & [= <-] & Hja & _ & Ta & _). congruence.
Qed.

(** No identifier and no node leads to record [r]: it can be freed. *)
Definition gone (t : jtree) (A : gmap Z anode) (r : Z) : Prop :=
  (forall y d, A !! y = Some d -> r ∉ (a_jobs d).*1) /\ forall id, ids t !! id <> Some r.

Lemma removeJob_single t kids A id jp j x n a : inv t kids A -> ids t !! id = Some jp -> recs t !! jp = Some j -> jobId (core j) = id ->
  nodes t !! x = Some n -> A !! x = Some a -> ndInfo n = JobInfo (Some jp) -> a_jobs a = [(jp, jStatus (core j))] ->
  exists t' kids' A', (t1 ← clip_and_free (set_ids (delete id (ids t)) t) x; freeJData t1 jp) = Ok t' /\ inv t' kids' A' /\ gone t' A' jp.
Proof.
  intros I Hid Hj Ej Hn Ha Hi Hjs. pose proof (inv_drop_id _ t kids A id I) as I1.
  destruct (remove_node _ _ kids A x n a I1 Hn Ha) as (t2 & kids2 & E1 & I2 & R2 & D2 & _); [by rewrite Hi|].
  rewrite E1. cbn [mbind res_bind].
  assert (Nm : forall y d, delete x A !! y = Some d -> jp ∉ (a_jobs d).*1).
  { intros y b Hb Hin. apply lookup_delete_Some in Hb as [Hy Hb]. destruct (proj1 (s_dom _ _ _ (i_shape _ _ _ _ I) y)) as [m Hm]; [eauto|].
    apply Hy. eapply (member_one _ t A x n a jp y m b); try done; [apply I|]. rewrite Hjs. set_solver. }
  assert (Nid : forall id', delete id (ids t) !! id' <> Some jp).
  { intros id' H. apply lookup_delete_Some in H as [Hne H]. destruct (j_ids _ _ _ (i_jobs _ _ _ _ I) id' jp H) as (_ & _ & j0 & Hj0 & E0). congruence. }
  destruct (freeJData_spec _ t2 kids2 _ jp j I2) as (j' & E2 & I3); [by rewrite R2|done|].
  rewrite E2. eexists _, _, _. split; [done|]. split; [|split; [exact Nm|intros id'; cbn; rewrite D2; apply Nid]].
  eapply inv_weaken; [exact I3|]. intros id' r Hr [[]|Hh]. cbn in Hr. rewrite D2 in Hr. cbn in Hr.
  rewrite Hi, Hjs in Hh. destruct Hh as [Hh|[b Hb]]; [|done]. cbn in Hh. apply list_elem_of_singleton in Hh. subst r. by apply Nid in Hr.
Qed.

(** The number of jobs of an array tells whether it is empty. *)
Lemma array_empty P t kids A x n b o a : inv_but P t kids A -> nodes t !! x = Some n -> ndInfo n = ArrayInfo b o -> A !! x = Some a ->
  exists ab, b = x /\ bases t !! x = Some ab /\ ((nth JGRP_COUNT_NJOBS (counts ab) 0 <=? 0) = true <-> a_jobs a = []).
Proof.
  intros I Hn Hi Ha. pose proof (i_shape _ _ _ _ I) as S. destruct (leaf_facts P t kids A x n a I Hn Ha) as (p & lp & k1 & k2 & Kx & _); [by rewrite Hi|].
  destruct (s_exact _ _ _ S x n Hn) as (ab & Hab & _ & L & C); [unfold based; by rewrite Hi|]. exists ab. split_and!; [|done|].
  - eapply (s_base _ _ _ S x n); [done|]. by rewrite Hi.
  - unfold JGRP_COUNT_NJOBS. rewrite C by lia. rewrite (total_leaf t kids A x a 0 S Ha Kx), own_zero.
    pose proof (j_info _ _ _ (i_jobs _ _ _ _ I) x n a Hn Ha) as If. rewrite Hi in If. destruct If as (a0 & ja & _ & _ & _ & _ & _ & _ & _ & _ & Len).
    rewrite wrap32_id by (unfold int32; lia). rewrite Z.leb_le. destruct (a_jobs a); cbn; [naive_solver|]. split; [lia|done].
Qed.

Lemma removeJob_element t kids A id jp j x n b arr a : inv t kids A -> ids t !! id = Some jp -> recs t !! jp = Some j -> jobId (core j) = id ->
  nodes t !! x = Some n -> A !! x = Some a -> ndInfo n = ArrayInfo b (Some arr) -> (jp, jStatus (core j)) ∈ a_jobs a -> jgrpNode j = Some x ->
  jStatus (core j) <> JOB_STAT_NULL ->
  exists t' kids' A', (t1 ← (t1 ← offArray (set_ids (delete id (ids t)) t) jp;
      ab ← deref (bases t1 !! b);
      if nth JGRP_COUNT_NJOBS (counts ab) 0 <=? 0 then
        ar ← rec_at t1 arr;
        t1 ← freeJData (set_ids (delete (jobId (core ar)) (ids t1)) t1) arr;
        clip_and_free t1 x
      else Ok t1); freeJData t1 jp) = Ok t' /\ inv t' kids' A' /\ gone t' A' jp.
Proof.
  intros I Hid Hj Ej Hn Ha Hi Hin Nj Hs. pose proof (inv_drop_id _ t kids A id I) as I1. apply list_elem_of_split in Hin as (js1 & js2 & Hjs).
  destruct (offArray_spec _ _ kids A x n b arr a jp (jStatus (core j)) js1 js2 I1 Hn Hi Ha Hjs j Hj eq_refl Nj Hs)
    as (t2 & E2 & I2 & N2 & D2 & G2 & F2 & Rj & ja & ja' & Hja & Hja' & Ija & Sja).
  rewrite E2. cbn [mbind res_bind]. set (A2 := <[x := mkA (a_chain a) (js1 ++ js2)]> A) in *. assert (Ha2 : A2 !! x = Some (mkA (a_chain a) (js1 ++ js2))) by apply lookup_insert_eq.
  assert (Nid : forall id', ids t2 !! id' <> Some jp).
  { intros id' H. rewrite D2 in H. cbn in H. apply lookup_delete_Some in H as [Hne H]. destruct (j_ids _ _ _ (i_jobs _ _ _ _ I) id' jp H) as (_ & _ & j0 & Hj0 & E0). congruence. }
  assert (Nm : forall y d, A2 !! y = Some d -> jp ∉ (a_jobs d).*1).
  { intros y d Hd Hin. destruct (decide (y = x)) as [->|Hy].
    - rewrite Ha2 in Hd. injection Hd as <-. cbn in Hin. pose proof (member_nodup _ t A x n a (i_jobs _ _ _ _ I) Hn Ha) as Nd.
      rewrite Hjs, fmap_app, fmap_cons in Nd. rewrite fmap_app in Hin. apply NoDup_app in Nd as (_ & Nd1 & Nd2). apply NoDup_cons in Nd2 as [Nd2 _]. set_solver.
    - unfold A2 in Hd. rewrite lookup_insert_ne in Hd by congruence. destruct (proj1 (s_dom _ _ _ (i_shape _ _ _ _ I) y)) as [m Hm]; [eauto|].
      apply Hy. symmetry. eapply (member_one _ t A x n a jp y m d); try done; [apply I|]. rewrite Hjs, fmap_app. set_solver. }
  assert (Hn2 : nodes t2 !! x = Some n) by (by rewrite N2).
  destruct (array_empty _ t2 kids A2 x n b (Some arr) _ I2 Hn2 Hi Ha2) as (ab & -> & Hab & Emp).
  rewrite Hab. cbn [deref mbind res_bind]. destruct (_ <=? 0).
  - assert (Hnil : js1 ++ js2 = []) by (by apply Emp). rewrite (rec_at_eq t2 arr ja' Hja'). cbn [mbind res_bind].
    pose proof (inv_drop_id _ t2 kids A2 (jobId (core ja')) I2) as I3. set (t3 := set_ids _ t2) in *.
    assert (Na : forall y d, A2 !! y = Some d -> arr ∉ (a_jobs d).*1).
    { intros y d Hd Hin. destruct (proj1 (s_dom _ _ _ (i_shape _ _ _ _ I2) y)) as [m Hm]; [eauto|].
      apply list_elem_of_fmap in Hin as ([r0 s0] & E0 & Hin). cbn in E0. subst r0. destruct (member_rec _ t2 A2 y m d arr s0 (i_jobs _ _ _ _ I2) Hm Hd Hin) as (j0 & Hj0 & _ & _ & _ & T0 & _).
      pose proof (j_info _ _ _ (i_jobs _ _ _ _ I2) x n _ Hn2 Ha2) as If. rewrite Hi in If.
      destruct If as (a0 & ja0 & [= <-] & Hja0 & _ & Ta & _). cbn in *. congruence. }
    destruct (freeJData_spec _ t3 kids A2 arr ja' I3 Hja' Na) as (jv & E4 & I4). rewrite E4. cbn [mbind res_bind]. set (t4 := set_recs _ t3) in *.
    assert (Hn4 : nodes t4 !! x = Some n) by (cbn; by rewrite N2).
    destruct (remove_node _ t4 kids A2 x n _ I4 Hn4 Ha2) as (t5 & kids5 & E5 & I5 & R5 & D5 & _); [by rewrite Hi|]. rewrite E5. cbn [mbind res_bind].
    assert (Hj5 : exists j5, recs t5 !! jp = Some j5).
    { rewrite R5. cbn. destruct (decide (jp = arr)) as [->|]; [rewrite lookup_insert_eq; eauto|]. rewrite lookup_insert_ne by congruence. eauto. }
    destruct Hj5 as [j5 Hj5]. destruct (freeJData_spec _ t5 kids5 _ jp j5 I5 Hj5) as (jv' & E6 & I6).
    { intros y d Hd. apply lookup_delete_Some in Hd as [_ Hd]. by apply (Nm y). }
    rewrite E6. eexists _, _, _. split; [done|]. split.
    2: { split; [intros y d Hd; apply lookup_delete_Some in Hd as [_ Hd]; by apply (Nm y)|]. intros id' Hr. cbn in Hr. rewrite D5 in Hr. cbn in Hr.
         apply lookup_delete_Some in Hr as [_ Hr]. by apply Nid in Hr. }
    eapply inv_weaken; [exact I6|]. intros id' r Hr Hp. cbn in Hr. rewrite D5 in Hr. cbn in Hr.
    apply lookup_delete_Some in Hr as [Hne Hr]. destruct Hp as [[[]| ->]|Hh]; [by eapply Nid|]. rewrite Hi in Hh. cbn in Hh. rewrite Hnil in Hh.
    destruct Hh as [Hh|[b0 Hb0]]; [set_solver|]. injection Hb0 as -> ->. destruct (j_ids _ _ _ (i_jobs _ _ _ _ I2) id' r Hr) as (_ & _ & j0 & Hj0 & E0). congruence.
  - cbn [mbind res_bind]. destruct (freeJData_spec _ t2 kids A2 jp j I2 Rj Nm) as (jv & E4 & I4). rewrite E4. eexists _, _, _. split; [done|]. split; [|by split].
    eapply inv_weaken; [exact I4|]. intros id' r Hr [[]| ->]. by eapply Nid.
Qed.

Theorem removeJob_ok t kids A id : inv t kids A -> exists t' kids' A', removeJob t id = Ok t' /\ inv t' kids' A'
  /\ forall jp j, ids t !! id = Some jp -> recs t !! jp = Some j -> is_array (nodeType (core j)) = false -> gone t' A' jp.
Proof.
  intros I. unfold removeJob, lookup_id. destruct (ids t !! id) as [jp|] eqn:Hid; [|destruct (_ <=? 0); exists t, kids, A; done].
  destruct (j_ids _ _ _ (i_jobs _ _ _ _ I) id jp Hid) as (Pos & [Pl|[]] & j & Hj & Ej). rewrite (proj2 (Z.leb_gt id 0) Pos).
  rewrite (rec_at_eq t jp j Hj). cbn [mbind res_bind].
  destruct (is_array (nodeType (core j))) eqn:Ty; [exists t, kids, A; split_and!; [done|done|congruence]|].
  destruct (placed_member t A jp j (i_jobs _ _ _ _ I) Pl Hj) as (x & n & a & Hn & Ha & Nj & Hin & Hs); [intros E; by rewrite E in Ty|].
  rewrite Ej, Nj. cbn [nodes set_ids]. rewrite (node_at_eq (nodes t) x n Hn). cbn [mbind res_bind].
  pose proof (j_info _ _ _ (i_jobs _ _ _ _ I) x n a Hn Ha) as If. destruct (ndInfo n) as [o|b|b o] eqn:Hi; cbn in If.
  - destruct If as (r & s & -> & Ejs & _ & _). rewrite Ejs in Hin. apply list_elem_of_singleton in Hin. injection Hin as <- <-.
    destruct (removeJob_single t kids A id jp j x n a I Hid Hj Ej Hn Ha Hi Ejs) as (t' & kids' & A' & E & I' & G).
    exists t', kids', A'. split_and!; [exact E|done|]. by intros r0 j0 [= <-].
  - by rewrite If in Hin; apply elem_of_nil in Hin.
  - destruct If as (arr & ja & -> & _). destruct (removeJob_element t kids A id jp j x n b arr a I Hid Hj Ej Hn Ha Hi Hin Nj Hs) as (t' & kids' & A' & E & I' & G).
    exists t', kids', A'. split_and!; [exact E|done|]. by intros r0 j0 [= <-].
Qed.
