(* ===== verification/JGroupNew.v ===== *)
(** * New jobs in the job tree

    [handleNewJob], [handleNewJobArray] and the renaming of jobs keep the state of
    the tree well formed, and so does the start of the daemon. *)
From stdpp Require Import base gmap list fin_maps.
From Stdlib Require Import ZArith Bool Lia.
From S2P Require Import Prelude Ledger JobId CNum ListSet JobArray DepToken DepCond JGroup JTree JGroupInv JGroupOps JGroupPut JGroupRemove.
Local Open Scope Z_scope.

(** ** Renaming *)

(** [r] is the record that its node stands for. *)
Definition heads (i : nodeInfo) (r : Z) : Prop := i = JobInfo (Some r) \/ exists b, i = ArrayInfo b (Some r).

Lemma removed_outside P t kids A t1 kids1 A1 x n a r : inv_but P t kids A -> nodes t !! x = Some n -> A !! x = Some a -> holds (ndInfo n) (a_jobs a) r ->
  inv_but (fun r => P r \/ holds (ndInfo n) (a_jobs a) r) t1 kids1 (delete x A1) -> recs t1 = recs t -> outside t1 (delete x A1) r.
Proof.
  intros I Hn Ha Hr I1 R1 y m b Hm Hb H. destruct (holds_node _ _ _ y m b r (i_jobs _ _ _ _ I1) Hm Hb H) as (j & Hj & E).
  destruct (holds_node _ _ _ x n a r (i_jobs _ _ _ _ I) Hn Ha Hr) as (j' & Hj' & E'). apply lookup_delete_Some in Hb as [Hb _]. congruence.
Qed.

Theorem renameJob_ok t kids A x n a r j : inv t kids A -> recs t !! r = Some j -> jgrpNode j = Some x -> nodes t !! x = Some n -> A !! x = Some a ->
  heads (ndInfo n) r \/ LSB_ARRAY_IDX (jobId (core j)) <> 0 -> exists t' kids' A', renameJob t r = Ok t' /\ inv t' kids' A'.
Proof.
  intros I Hj Nj Hn Ha Hh. unfold renameJob. rewrite (rec_at_eq t r j Hj). cbn [mbind res_bind]. rewrite Nj.
  destruct (Z.eqb_spec (LSB_ARRAY_IDX (jobId (core j))) 0) as [E0|E0]; [|eauto]. destruct Hh as [Hh|]; [|done].
  pose proof (j_info _ _ _ (i_jobs _ _ _ _ I) x n a Hn Ha) as If.
  destruct (remove_node _ t kids A x n a I Hn Ha) as (t1 & kids1 & E1 & I1 & R1 & D1 & _); [destruct Hh as [->|[b ->]]; done|].
  rewrite E1. cbn [mbind res_bind]. assert (Out : forall r', holds (ndInfo n) (a_jobs a) r' -> outside t1 (delete x A) r').
  { intros r' Hr'. by apply (removed_outside (fun _ => False) t kids A t1 kids1 A x n a r'). }
  rewrite <- R1 in Hj. destruct Hh as [Hi|[b Hi]]; rewrite Hi in If, Out, I1; cbn in If.
  - destruct If as (r0 & s & [= <-] & Ejs & (j0 & Hj0 & Es & Hs & _ & Ty & Id) & W). rewrite <- R1 in Hj0. cbn in Hj0, Es. simplify_eq.
    inversion W as [|? j1 ? Hj1 W']; subst. rewrite <- R1 in Hj1. simplify_eq. inversion W' as [E2|]; subst.
    destruct (put_job _ t1 kids1 _ r j I1) as (t2 & E3 & I2 & _); try done.
    { apply Out. left. rewrite Ejs. set_solver. }
    eexists _, _, _. split; [exact E3|]. eapply inv_weaken; [exact I2|]. intros id r' _ [[[]|H] H']. by rewrite Ejs in H.
  - destruct If as (a0 & ja & [= <-] & Hja & _ & Ty & Id & St & W & L & Len). rewrite <- R1 in Hja, W, L. simplify_eq.
    destruct (put_array _ t1 kids1 _ r j (a_jobs a) I1) as (t2 & E3 & I2 & _); try done.
    { intros r' [->|Hr']; apply Out; [right; by exists b|by left]. }
    { eapply Forall_impl; [exact L|]. intros p (j0 & H1 & H2 & H3 & H4 & H5 & H6). by exists j0. }
    eexists _, _, _. split; [exact E3|]. eapply inv_weaken; [exact I2|]. intros id r' _ [[[]|H] H']. apply H'. destruct H as [H|[b0 [= -> ->]]]; [by left|right; by eexists].
Qed.

(** A record changes in nothing that the tree needs. *)
Lemma inv_same_rec P t kids A r j j' : inv_but P t kids A -> recs t !! r = Some j -> keeps j j' -> jStatus (core j') = jStatus (core j) ->
  jStatus (core j) <> JOB_STAT_NULL -> inv_but P (set_recs (<[r := j']> (recs t)) t) kids A.
Proof.
  intros I Hj K Es Hs. apply (inv_rec P t kids A r j); [done..|congruence|]. apply map_eq. intros x. unfold state_all. rewrite lookup_fmap.
  destruct (A !! x) as [a|] eqn:Ha; [|done]. cbn. f_equal. rewrite set_state_same; [by destruct a|]. intros s Hin.
  destruct (member_facts P t kids A x a r s I Ha Hin) as (n & j0 & _ & Hj0 & E & _). congruence.
Qed.

(** ** New records *)

Definition alloc (j : jobRec) (t : jtree) : jtree :=
  mkTree (nodes t) (<[fresh t := j]> (recs t)) (bases t) (ids t) (groupRoot t) (entry t) (fresh t + 1).

Lemma inv_outside P t kids A r : inv_but P t kids A -> (forall j, recs t !! r = Some j -> jgrpNode j = None) -> outside t A r.
Proof.
  intros I H x n a Hn Ha Hh. destruct (holds_node _ _ _ x n a r (i_jobs _ _ _ _ I) Hn Ha Hh) as (j & Hj & E). by rewrite (H j Hj) in E.
Qed.

Lemma fresh_rec P t kids A : inv_but P t kids A -> recs t !! fresh t = None.
Proof.
  intros I. destruct (recs t !! fresh t) eqn:E; [|done]. assert (fresh t < fresh t); [|lia]. apply (j_fresh _ _ _ (i_jobs _ _ _ _ I)). right. left. eauto.
Qed.

Lemma inv_set_rec (P : Z -> Prop) t kids A r j' f : inv_but P t kids A -> outside t A r -> (forall id, ids t !! id = Some r -> P r /\ jobId (core j') = id) ->
  r < f -> fresh t <= f ->
  inv_but P (mkTree (nodes t) (<[r := j']> (recs t)) (bases t) (ids t) (groupRoot t) (entry t) f) kids A.
Proof.
  intros [[S1 S2 S3 S4 S5 S6 S7] [J1 J2 J3] At En] Out Hid Hf Hf'. split; [by split| |done|done]. split; cbn.
  - intros x n a Hn Ha. apply (info_ok_ext (recs t)); [by apply J1|]. intros r' Hr'. rewrite lookup_insert_ne; [done|]. intros <-. by eapply Out.
  - intros id r' Hr'. destruct (J2 id r' Hr') as (Pos & Pl & j & Hj & Ej). split; [done|]. destruct (decide (r' = r)) as [->|Hne].
    + destruct (Hid id Hr') as [Hp Hi]. split; [by right|]. exists j'. by rewrite lookup_insert_eq.
    + split; [|exists j; by rewrite lookup_insert_ne]. destruct Pl as [(j0 & x & n & a & H1 & H2)|]; [left|by right]. exists j0, x, n, a. cbn. by rewrite lookup_insert_ne.
  - intros x Hx. destruct (decide (x = r)) as [->|Hne]; [done|]. rewrite lookup_insert_ne in Hx by done. specialize (J3 x Hx). lia.
Qed.

Lemma addJobIdHT_spec P t kids A r j : inv_but P t kids A -> recs t !! r = Some j -> 0 < jobId (core j) -> ids t !! jobId (core j) = None ->
  addJobIdHT t r = Ok (set_ids (<[jobId (core j) := r]> (ids t)) t)
  /\ inv_but (fun r' => P r' \/ r' = r) (set_ids (<[jobId (core j) := r]> (ids t)) t) kids A.
Proof.
  intros [[S1 S2 S3 S4 S5 S6 S7] [J1 J2 J3] At En] Hj Pos Hn. unfold addJobIdHT. rewrite (rec_at_eq t r j Hj). cbn [mbind res_bind]. rewrite Hn.
  split; [done|]. split; [by split| |done|done]. split; [done| |done]. intros id r' Hr'. cbn in *. destruct (decide (id = jobId (core j))) as [->|Hne].
  - rewrite lookup_insert_eq in Hr'. injection Hr' as <-. split_and!; [done|by right; right|eauto].
  - rewrite lookup_insert_ne in Hr' by congruence. destruct (J2 id r' Hr') as (P1 & P2 & P3). naive_solver.
Qed.

(** The record of a new job or array gets its identifier, and its type. *)
Definition new_core (k : nodeKind) : jobRec -> jobRec := on_core (fun c => set_nextJob None (set_kind k c)).

Lemma new_record t kids A j k : inv t kids A -> 0 < jobId (core j) -> ids t !! jobId (core j) = None ->
  exists t1, (t1 ← addJobIdHT (alloc j t) (fresh t); on_rec (fresh t) (new_core k) t1) = Ok t1
    /\ inv_but (fun r => r = fresh t) t1 kids A /\ outside t1 A (fresh t) /\ recs t1 = <[fresh t := new_core k j]> (recs t)
    /\ ids t1 = <[jobId (core j) := fresh t]> (ids t) /\ fresh t1 = fresh t + 1 /\ nodes t1 = nodes t /\ groupRoot t1 = groupRoot t.
Proof.
  intros I Pos Hid. pose proof (fresh_rec _ t kids A I) as Fr. set (r := fresh t) in *.
  assert (Nid : forall id, ids t !! id <> Some r).
  { intros id H. destruct (j_ids _ _ _ (i_jobs _ _ _ _ I) id r H) as (_ & _ & j0 & Hj0 & _). congruence. }
  assert (Out : outside t A r) by (apply (inv_outside (fun _ => False) t kids); [done|congruence]).
  assert (I1 : inv (alloc j t) kids A) by (apply inv_set_rec; [done|done|intros id H; by apply Nid in H|unfold r; lia|lia]).
  assert (Hr : recs (alloc j t) !! r = Some j) by (cbn; by rewrite lookup_insert_eq).
  destruct (addJobIdHT_spec _ (alloc j t) kids A r j I1 Hr Pos Hid) as [E1 I2]. rewrite E1. cbn [mbind res_bind].
  rewrite (on_rec_eq _ r _ j) by done. eexists. split; [done|].
  assert (I3 : inv_but (fun r' => r' = r) (set_ids (<[jobId (core j):=r]> (ids (alloc j t))) (alloc j t)) kids A) by (eapply inv_weaken; [exact I2|]; naive_solver).
  split_and!; try done.
  - apply (inv_set_rec _ (set_ids (<[jobId (core j):=r]> (ids (alloc j t))) (alloc j t)) kids A r (new_core k j) (r + 1)); [done|exact Out| |lia|cbn; unfold r; lia].
    intros id. cbn. destruct (decide (id = jobId (core j))) as [->|Hne]; [done|]. rewrite lookup_insert_ne by congruence. intros H. by apply Nid in H.
  - cbn. by rewrite insert_insert_eq.
Qed.

Theorem newJobOnTree_ok t kids A j : inv t kids A -> 0 < jobId (core j) -> ids t !! jobId (core j) = None -> jStatus (core j) <> JOB_STAT_NULL ->
  exists t' kids' A', newJobOnTree (alloc j t) (fresh t) = Ok t' /\ inv t' kids' A'.
Proof.
  intros I Pos Hid Hs. destruct (new_record t kids A j JGRP_NODE_JOB I Pos Hid) as (t1 & E1 & I1 & Out & R1 & D1 & F1 & N1 & G1).
  unfold newJobOnTree. destruct (addJobIdHT (alloc j t) (fresh t)) as [t0| | |] eqn:E0; cbn [mbind res_bind] in E1; try done.
  cbn [mbind res_bind]. unfold new_core in E1. rewrite E1. cbn [mbind res_bind].
  assert (Hr : recs t1 !! fresh t = Some (new_core JGRP_NODE_JOB j)) by (rewrite R1; by rewrite lookup_insert_eq).
  destruct (put_job _ t1 kids A (fresh t) _ I1 Out Hr) as (t2 & E2 & I2 & R2 & _); try done. rewrite E2. cbn [mbind res_bind].
  set (j2 := put_flags _) in R2. assert (Hr2 : recs t2 !! fresh t = Some j2) by (rewrite R2; by rewrite lookup_insert_eq).
  assert (I3 : inv t2 (add_kid kids (groupRoot t1) (fresh t1)) (<[fresh t1 := mkA [fresh t1; groupRoot t1] [(fresh t, jStatus (core j))]]> A)).
  { eapply inv_weaken; [exact I2|]. intros id r _ [-> H]. apply H. left. cbn. set_solver. }
  rewrite (rec_at_eq t2 _ j2 Hr2). cbn [mbind res_bind]. destruct (has _ _); [|eauto].
  rewrite (on_rec_eq _ _ _ j2 Hr2). cbn [mbind res_bind]. set (t3 := set_recs _ _).
  destruct (put_flags_keeps (set_jgrpNode (Some (fresh t1)) (new_core JGRP_NODE_JOB j))) as [_ Sj]. fold j2 in Sj.
  set (A2 := <[fresh t1 := _]> A) in *.
  assert (I4 : inv t3 (add_kid kids (groupRoot t1) (fresh t1)) A2).
  { apply (inv_same_rec _ t2 _ A2 (fresh t) j2); try done. cbn. by rewrite Sj. }
  destruct (changeState_ok t3 _ A2 (fresh t1) (mkA [fresh t1; groupRoot t1] [(fresh t, jStatus (core j))]) (fresh t) (jStatus (core j)) JOB_STAT_PSUSP I4) as (t' & A' & E' & I'); [unfold A2; by rewrite lookup_insert_eq|cbn; set_solver|done|eauto].
Qed.

(** ** New arrays *)

(** All indexes of a list. *)
Fixpoint all_values (l : list idxList) : option (list Z) :=
  match l with
  | [] => Some []
  | i :: l' => match idx_values i, all_values l' with Values js, Some js' => Some (js ++ js') | _, _ => None end
  end.

Lemma new_elements_app t jarray up js js' jPtr n : new_elements t jarray up (js ++ js') jPtr n
  = ('(t, jPtr, n) ← new_elements t jarray up js jPtr n; new_elements t jarray up js' jPtr n).
Proof.
  revert t jPtr n. induction js as [|i js IH]; intros t jPtr n; [done|]. cbn [app new_elements]. destruct (rec_at t jarray) as [j| | |]; cbn [mbind res_bind]; try done.
  destruct (lookup_id _ _); [done|]. destruct (on_rec _ _ _) as [t1| | |]; cbn [mbind res_bind]; try done.
  destruct (addJobIdHT _ _) as [t2| | |]; cbn [mbind res_bind]; done.
Qed.

Lemma new_lists_values l js : all_values l = Some js -> forall t jarray up jPtr n,
  new_lists t jarray up l jPtr n = new_elements t jarray up js jPtr n.
Proof.
  revert js. induction l as [|i l IH]; intros js E t jarray up jPtr n; cbn in *; [by simplify_eq|].
  destruct (idx_values i) as [js1| |]; try done. destruct (all_values l) as [js2|]; [|done]. injection E as <-. rewrite new_elements_app.
  destruct (new_elements t jarray up js1 jPtr n) as [[[t1 p1] n1]| | |]; cbn [mbind res_bind]; try done. by apply IH.
Qed.

(** The tree [t'] while the array [arr] of [t1] gets its elements [els], which have
    state [s]; [jPtr] is the last record. *)
Record growing (t1 : jtree) (c arr : Z) (ja : jobRec) (s : Z) (els : list Z) (jPtr : Z) (t' : jtree) : Prop := {
  g_nodes : nodes t' = nodes t1;
  g_bases : bases t' = bases t1;
  g_root : groupRoot t' = groupRoot t1;
  g_entry : entry t' = entry t1;
  g_recs r j : r <> arr -> recs t1 !! r = Some j -> recs t' !! r = Some j;
  g_arr : exists o, recs t' !! arr = Some (on_core (set_nextJob o) ja) /\ row (recs t') o els;
  g_els e : e ∈ els -> job_at (recs t') c (e, s);
  g_new e : e ∈ els -> fresh t1 <= e;
  g_last : last (arr :: els) = Some jPtr;
  g_ids id r : ids t' !! id = Some r -> ids t1 !! id = Some r \/ 0 < id /\ r ∈ els /\ exists j, recs t' !! r = Some j /\ jobId (core j) = id;
  g_mono id r : ids t1 !! id = Some r -> ids t' !! id = Some r;
  g_fresh : fresh t1 <= fresh t' /\ forall r, is_Some (recs t' !! r) -> r < fresh t' }.

Lemma row_snoc R r je p jp els : forall q jq, R !! q = Some jq -> row R (nextJob (core jq)) els -> last (q :: els) = Some p -> R !! p = Some jp ->
  r ∉ q :: els -> NoDup (q :: els) -> nextJob (core je) = None ->
  let R' := <[p := on_core (set_nextJob (Some r)) jp]> (<[r := je]> R) in
  exists o, R' !! q = Some (on_core (set_nextJob o) jq) /\ row R' o (els ++ [r]).
Proof.
  induction els as [|e els IH]; intros q jq Hq W L Hp Nr N Nx R'.
  - injection L as <-. simplify_eq. exists (Some r). unfold R'. rewrite lookup_insert_eq. split; [done|]. apply (path_cons _ _ r je).
    + rewrite lookup_insert_ne, lookup_insert_eq by set_solver. done.
    + rewrite Nx. constructor.
  - inversion W as [|? je0 ? He W']; subst. match goal with E : Some _ = nextJob _ |- _ => rename E into Eq end. apply NoDup_cons in N as [Nq N].
    destruct (IH e je0 He W' L Hp ltac:(set_solver) N Nx) as (o & H1 & H2). exists (nextJob (core jq)). split.
    + unfold R'. assert (p <> q). { intros ->. change (last (e :: els) = Some q) in L. apply last_Some_elem_of in L. done. }
      rewrite lookup_insert_ne by done. rewrite lookup_insert_ne by set_solver. rewrite Hq. by destruct jq as [[] ? ? ? ? ? ?].
    + rewrite <- Eq. cbn [app]. by econstructor.
Qed.

Section Grow.
Variables (t1 : jtree) (c arr : Z) (ja : jobRec) (userPending : bool).
Hypotheses (Ty : nodeType (core ja) = JGRP_NODE_ARRAY) (Nd : jgrpNode ja = Some c) (St : jStatus (core ja) <> JOB_STAT_NULL)
  (Ft : forall r, is_Some (recs t1 !! r) -> r < fresh t1).
Definition new_state : Z := if userPending then JOB_STAT_PSUSP else jStatus (core ja).
Abbreviation grows := (growing t1 c arr ja new_state).

Lemma new_state_nonzero : new_state <> JOB_STAT_NULL.
Proof. unfold new_state. by destruct userPending. Qed.

Lemma growing_nodup els jPtr t' : grows els jPtr t' -> NoDup (arr :: els).
Proof.
  intros G. destruct (g_arr _ _ _ _ _ _ _ _ G) as (o & Ha & W). apply NoDup_cons. split; [|by eapply path_nodup].
  intros H. destruct (g_els _ _ _ _ _ _ _ _ G arr H) as (j & Hj & _ & _ & _ & T & _). cbn in Hj. rewrite Ha in Hj. injection Hj as <-. cbn in T. congruence.
Qed.

Lemma growing_step els jPtr t' i j : grows els jPtr t' -> recs t' !! arr = Some j ->
  let id := LSB_JOBID (jobId (core j)) i in let r := fresh t' in
  0 < id -> ids t' !! id = None ->
  exists t2, (t2 ← on_rec jPtr (on_core (set_nextJob (Some r))) (alloc (element j id userPending) t'); addJobIdHT t2 r) = Ok t2
    /\ grows (els ++ [r]) r t2.
Proof.
  intros G Hj id r Pos Hid. pose proof (growing_nodup els jPtr t' G) as N. pose proof G as [G1 G2 G3 G4 G5 (o & Ga & Gw) G7 G7' G8 G9 G10 [Gf Gf']].
  rewrite Hj in Ga. injection Ga as Ej.
  assert (Lt : forall x, is_Some (recs t' !! x) -> x <> r) by (intros x Hx; specialize (Gf' x Hx); unfold r; lia).
  assert (Nr : r ∉ arr :: els).
  { intros H. apply elem_of_cons in H as [H|H]; [by apply (Lt arr); eauto|]. destruct (G7 r H) as (j0 & Hj0 & _). by apply (Lt r); eauto. }
  assert (exists jp, recs t' !! jPtr = Some jp) as [jp Hp].
  { pose proof (last_Some_elem_of _ _ G8) as H. apply elem_of_cons in H as [->|H]; [eauto|]. destruct (G7 jPtr H) as (j0 & Hj0 & _). eauto. }
  assert (Hpr : jPtr <> r) by (apply Lt; eauto).
  set (e := element j id userPending). rewrite (on_rec_eq _ jPtr _ jp) by (cbn; rewrite lookup_insert_ne; [done|unfold r in *; congruence]). cbn [mbind res_bind recs alloc].
  set (R' := <[jPtr := on_core (set_nextJob (Some r)) jp]> (<[r := e]> (recs t'))).
  assert (He : R' !! r = Some e) by (unfold R'; rewrite lookup_insert_ne, lookup_insert_eq by done; done).
  assert (Fe : jobId (core e) = id /\ nextJob (core e) = None /\ nodeType (core e) = JGRP_NODE_JOB /\ jgrpNode e = Some c /\ jStatus (core e) = new_state).
  { unfold e, element, new_state. rewrite Ej. destruct userPending; cbn; rewrite Nd; done. }
  destruct Fe as (F1 & F2 & F3 & F4 & F5).
  unfold addJobIdHT. rewrite (rec_at_eq _ r e) by done. cbn [mbind res_bind ids set_recs]. rewrite F1. change (ids (alloc e t')) with (ids t'). rewrite Hid.
  eexists. split; [done|].
  assert (Wj : row (recs t') (nextJob (core j)) els) by (by rewrite Ej).
  destruct (row_snoc (recs t') r e jPtr jp els arr j Hj Wj G8 Hp Nr N F2) as (o' & H1 & H2). fold R' in H1, H2.
  assert (Ho : forall x, x ∈ els -> job_at R' c (x, new_state)).
  { intros x Hx. unfold R'. apply job_at_next; [rewrite lookup_insert_ne by congruence; done|]. destruct (G7 x Hx) as (j0 & H0 & Hr). exists j0. cbn in *.
    split; [|done]. rewrite lookup_insert_ne; [done|]. set_solver. }
  split; cbn [nodes bases groupRoot entry recs ids fresh set_ids set_recs alloc]; try done.
  - intros x j0 Hx H0. destruct (decide (x = jPtr)) as [->|Hxp].
    + pose proof (last_Some_elem_of _ _ G8) as H. apply elem_of_cons in H as [->|H]; [done|].
      specialize (G7' _ H). specialize (Ft jPtr ltac:(eauto)). lia.
    + unfold R'. rewrite !lookup_insert_ne; [by apply G5| |done]. intros <-. by apply (Lt r); eauto.
  - exists o'. split; [|done]. assert (Hx : on_core (set_nextJob o') j = on_core (set_nextJob o') ja) by (rewrite Ej; by destruct ja as [[] ? ? ? ? ? ?]). rewrite <- Hx. exact H1.
  - intros x Hx. apply elem_of_app in Hx as [Hx|Hx]; [by apply Ho|]. apply list_elem_of_singleton in Hx as ->. exists e. split_and!; try done; [apply new_state_nonzero|cbn; lia].
  - intros x Hx. apply elem_of_app in Hx as [Hx|Hx]; [by apply G7'|]. apply list_elem_of_singleton in Hx as ->. done.
  - change (arr :: els ++ [r]) with ((arr :: els) ++ [r]). by rewrite last_snoc.
  - intros id' x Hx. destruct (decide (id' = id)) as [->|Hne].
    + rewrite lookup_insert_eq in Hx. injection Hx as <-. right. split_and!; [done|set_solver|]. exists e. done.
    + rewrite lookup_insert_ne in Hx by congruence. destruct (G9 id' x Hx) as [?|(Hi & Hm & j0 & H0 & E0)]; [by left|]. right. split_and!; [done|set_solver|].
      destruct (decide (x = jPtr)) as [->|Hxp].
      * exists (on_core (set_nextJob (Some r)) jp). unfold R'. rewrite lookup_insert_eq. simplify_eq. done.
      * exists j0. unfold R'. rewrite !lookup_insert_ne; [done| |done]. intros <-. by apply (Lt r); eauto.
  - intros id' x Hx. rewrite lookup_insert_ne; [by apply G10|]. intros <-. rewrite (G10 _ _ Hx) in Hid. done.
  - split; [lia|]. intros x. unfold R'. destruct (decide (x = jPtr)) as [->|Hxp]; [intros _; specialize (Gf' jPtr ltac:(eauto)); lia|].
    rewrite lookup_insert_ne by done. destruct (decide (x = r)) as [->|Hxr]; [unfold r; lia|]. rewrite lookup_insert_ne by done. intros Hx. specialize (Gf' x Hx). lia.
Qed.
Lemma new_elements_spec js : forall els jPtr t' n, grows els jPtr t' -> (forall i, i ∈ js -> 0 < LSB_JOBID (jobId (core ja)) i) ->
  exists t2 els' p, new_elements t' arr userPending js jPtr n = Ok (t2, p, n + Z.of_nat (length els')) /\ grows (els ++ els') p t2
    /\ (length els' <= length js)%nat /\ ((exists i, i ∈ js /\ ids t' !! LSB_JOBID (jobId (core ja)) i = None) -> els' <> []).
Proof.
  induction js as [|i js IH]; intros els jPtr t' n G Pos.
  - exists t', [], jPtr. cbn. rewrite app_nil_r, Z.add_0_r. split_and!; [done|done|lia|]. intros (i & Hi & _). set_solver.
  - destruct (g_arr _ _ _ _ _ _ _ _ G) as (o & Ha & W). cbn [new_elements]. rewrite (rec_at_eq t' arr _ Ha). cbn [mbind res_bind].
    change (jobId (core (on_core (set_nextJob o) ja))) with (jobId (core ja)). assert (Pi : 0 < LSB_JOBID (jobId (core ja)) i) by (apply Pos; set_solver).
    unfold lookup_id. rewrite (proj2 (Z.leb_gt _ 0) Pi). destruct (ids t' !! LSB_JOBID (jobId (core ja)) i) as [x|] eqn:Hx.
    + destruct (IH els jPtr t' n G) as (t2 & els' & p & E & G' & L & Ne); [intros; apply Pos; set_solver|]. exists t2, els', p.
      split_and!; [done|done|cbn; lia|]. intros (i' & Hi' & Hn). apply Ne. exists i'. split; [|done]. apply elem_of_cons in Hi' as [->|]; [congruence|done].
    + destruct (growing_step els jPtr t' i _ G Ha Pi Hx) as (t2 & E & G2). cbn zeta in E. fold (alloc (element (on_core (set_nextJob o) ja) (LSB_JOBID (jobId (core ja)) i) userPending) t').
      destruct (on_rec jPtr _ _) as [t3| | |]; cbn [mbind res_bind] in E |- *; try done. rewrite E. cbn [mbind res_bind].
      destruct (IH _ _ t2 (n + 1) G2) as (t4 & els' & p & E4 & G4 & L & _); [intros; apply Pos; set_solver|]. exists t4, (fresh t' :: els'), p.
      replace (n + Z.of_nat (length (fresh t' :: els'))) with (n + 1 + Z.of_nat (length els')) by (rewrite length_cons; lia).
      split_and!; [exact E4| |cbn; lia|done]. by rewrite <- app_assoc in G4.
Qed.
End Grow.

(** The counts of the new array. *)
Lemma own_replicate k s (els : list Z) : own k (map (fun e => (e, s)) els) = Z.of_nat (length els) * hit k s.
Proof. induction els as [|e els IH]; [done|]. cbn [map length]. rewrite own_cons, IH. cbn [snd]. lia. Qed.

Definition array_counts (s n : Z) (c : list Z) : list Z := <[JGRP_COUNT_NJOBS := wrap32 n]> (<[getIndexOfJStatus s := wrap32 n]> c).

Lemma array_counts_nth s (n : Z) c k : length c = 9%nat -> (k < 8)%nat -> nth k c 0 = 0 -> nth k (array_counts s n c) 0 = wrap32 (n * hit k s).
Proof.
  intros L Hk Z0. pose proof (index_range s) as R. unfold array_counts, hit, JGRP_COUNT_NJOBS. rewrite !nth_lookup in *.
  destruct (Nat.eqb_spec k 0) as [->|H0]; cbn [orb].
  - rewrite list_lookup_insert_eq by (rewrite length_insert; lia). cbn. f_equal. lia.
  - rewrite list_lookup_insert_ne by congruence. destruct (Nat.eqb_spec k (getIndexOfJStatus s)) as [->|H1].
    + rewrite list_lookup_insert_eq by lia. cbn. f_equal. lia.
    + rewrite list_lookup_insert_ne by congruence. rewrite Z0. by rewrite Z.mul_0_r.
Qed.

Section NewArray.
Variables (t1 : jtree) (kids : Z -> list Z) (A : gmap Z anode) (c arr : Z) (n : jgTreeNode) (chain : list Z) (ja : jobRec) (s : Z) (els : list Z) (jPtr : Z) (t2 : jtree).
Hypotheses (I : inv t1 kids A) (Hc : nodes t1 !! c = Some n) (Hi : ndInfo n = ArrayInfo c (Some arr)) (Ha : A !! c = Some (mkA chain []))
  (Hja : recs t1 !! arr = Some ja) (G : growing t1 c arr ja s els jPtr t2) (Len : Z.of_nat (length els) < 2 ^ 31).
Abbreviation js := (map (fun e => (e, s)) els).
Abbreviation A' := (<[c := mkA chain js]> A).

Lemma js_fst : js.*1 = els.
Proof. rewrite <- list_fmap_compose. apply list_fmap_id. Qed.

(** The counts: first those of the array, then those above it. *)
Lemma array_exact : exists a p lp, chain = c :: p :: lp /\ bases t2 !! c = Some a /\
  let t3 := set_bases (<[c := mkArray (status a) (array_counts s (Z.of_nat (length els)) (counts a))]> (bases t2)) t2 in
  exists t', updJgrpCountByOp t3 c 1 = Ok t' /\ exact t' A' /\ exists B, t' = set_bases B t2 /\ forall x, is_Some (B !! x) <-> is_Some (bases t2 !! x).
Proof.
  destruct (leaf_facts _ t1 kids A c n _ I Hc Ha) as (p & lp & k1 & k2 & Kc & Kp & Ech); [by rewrite Hi|]. cbn in Ech. pose proof (i_shape _ _ _ _ I) as S.
  assert (Ac : A !! c = Some (mkA (c :: p :: lp) [])) by (by rewrite Ha, Ech).
  pose proof (detach_not_above t1 kids A p c lp [] S Kc Ac) as Na.
  assert (Fa : Forall (fun x => counted (nodes t1) x = true) (p :: lp)).
  { eapply (detach_ancestors t1 kids A p c n lp k1 k2 []); try done; [apply (j_info _ _ _ (i_jobs _ _ _ _ I) c n _ Hc Ac)|by rewrite Hi]. }
  pose proof (detach_up t1 kids A p c lp [] S Ac) as U.
  assert (U' : up (nodes t1) (parent n) (p :: lp)) by (inversion U; by simplify_eq).
  destruct (s_exact _ _ _ S c n Hc) as (a & Hb & V & L & C); [unfold based; by rewrite Hi|].
  exists a, p, lp. rewrite (g_bases _ _ _ _ _ _ _ _ G). split; [done|]. split; [done|]. intros t3.
  set (m := Z.of_nat (length els)) in *. set (a3 := mkArray (status a) (array_counts s m (counts a))) in *.
  assert (C3 : forall k, (k < 8)%nat -> nth k (counts a3) 0 = wrap32 (own k js)).
  { intros k Hk. rewrite own_replicate. apply array_counts_nth; [done|done|]. rewrite C, (total_leaf t1 kids A c _ k S Ac Kc) by done. done. }
  assert (Nt : nodes t3 = nodes t1) by apply G. assert (O3 : own_base (nodes t3)) by (rewrite Nt; apply S).
  set (A2 := <[c := mkA [c] js]> A).
  assert (E3 : exact t3 A2).
  { intros g m0 Hg Hbm. rewrite Nt in Hg. unfold A2. cbn [bases set_bases t3]. destruct (decide (g = c)) as [->|Hgc].
    - exists a3. rewrite lookup_insert_eq. split; [done|]. split_and!; [done|cbn; unfold array_counts; by rewrite !length_insert|]. intros k Hk. rewrite C3 by done. f_equal.
      rewrite (total_replace A c _ _ c k Ac), (total_leaf t1 kids A c _ k S Ac Kc). unfold weight. cbn [a_chain a_jobs]. rewrite !decide_True by set_solver. lia.
    - destruct (s_exact _ _ _ S g m0 Hg Hbm) as (ag & Hag & V' & L' & C'). exists ag. rewrite lookup_insert_ne by congruence. split; [done|]. split_and!; [done|done|].
      intros k Hk. rewrite C' by done. f_equal. rewrite (total_replace A c _ _ g k Ac). unfold weight. cbn [a_chain a_jobs]. rewrite (decide_False (P := g ∈ [c])) by set_solver.
      change (own k []) with 0. case_decide; lia. }
  unfold updJgrpCountByOp. rewrite Nt, (node_at_eq (nodes t1) c n Hc). cbn [mbind res_bind]. rewrite Hi. cbn [base_of].
  rewrite (op_up_spec 1 c a3 t3 _ (p :: lp)); [|done|by eapply exact_has_bases|by rewrite Nt|by rewrite Nt|exact Na|cbn; by rewrite lookup_insert_eq|].
  - eexists. split; [done|]. split.
    + eapply (upd_exact _ (fun k => own k js) _ t3 A2); [done| |].
      * eapply adds_mod; [apply count_all_adds|]. intros k Hk. cbn beta. rewrite C3, Z.mul_1_l by done. apply wrap32_idem.
      * intros g m0 k _ _ Hk. unfold A2. rewrite !(total_replace A c _ _ g k Ac). unfold weight. cbn [a_chain a_jobs]. repeat case_decide; try lia; set_solver.
    + eexists. split; [done|]. intros x. rewrite upd_on_dom. cbn. destruct (decide (x = c)) as [->|]; [rewrite lookup_insert_eq, Hb; split; eauto|by rewrite lookup_insert_ne by congruence].
  - pose proof (path_length _ _ _ _ U) as Q. cbn in Q |- *. lia.
Qed.
Lemma array_inv B : exact (set_bases B t2) A' -> (forall x, is_Some (B !! x) <-> is_Some (bases t2 !! x)) -> inv (set_bases B t2) kids A'.
Proof.
  intros E HB. pose proof I as [S J At En]. pose proof G as [G1 G2 G3 G4 G5 (o & Ga & Gw) G7 G7' G8 G9 G10 [Gf Gf']].
  pose proof (j_info _ _ _ J c n _ Hc Ha) as Ic. rewrite Hi in Ic. destruct Ic as (a0 & ja0 & [= <-] & Hja0 & N1 & T1 & I1 & S1 & _). simplify_eq.
  assert (Ho : forall y m b r, nodes t1 !! y = Some m -> A !! y = Some b -> y <> c -> holds (ndInfo m) (a_jobs b) r -> recs t2 !! r = recs t1 !! r).
  { intros y m b r Hm Hb Hy Hr. destruct (holds_node _ _ _ y m b r J Hm Hb Hr) as (j & Hj & Ej). rewrite Hj. apply G5; [|done]. intros ->. congruence. }
  split.
  - destruct S as [F D C Lf Bs Ex Rt]. split; cbn; rewrite ?G1, ?G3; try done.
    + intros x. destruct (decide (x = c)) as [->|]; [rewrite lookup_insert_eq, Hc; split; eauto|]. by rewrite lookup_insert_ne by congruence.
    + intros x a. destruct (decide (x = c)) as [->|]; [rewrite lookup_insert_eq; intros [= <-]; by apply (C c _ Ha)|]. rewrite lookup_insert_ne by congruence. apply C.
  - pose proof J as [J1 J2 J3]. split; cbn; rewrite ?G1.
    + intros x m a Hm. destruct (decide (x = c)) as [->|Hx].
      * rewrite lookup_insert_eq. intros [= <-]. simplify_eq. rewrite Hi. cbn [info_ok a_jobs]. exists arr, (on_core (set_nextJob o) ja). rewrite js_fst, length_map.
        split_and!; try done. apply Forall_fmap, Forall_forall. intros e He. by apply G7.
      * rewrite lookup_insert_ne by congruence. intros Hx'. apply (info_ok_ext (recs t1)); [by apply J1|]. intros r Hr. by apply (Ho x m a).
    + intros id r Hr. assert (Pe : forall e, e ∈ els -> placed (set_bases B t2) A' e).
      { intros e He. destruct (G7 e He) as (j & Hj & _ & _ & Nj & _). exists j, c, n, (mkA chain js). cbn. rewrite G1, lookup_insert_eq. split_and!; try done. left. cbn [a_jobs]. by rewrite js_fst. }
      destruct (G9 id r Hr) as [Hold|(Pos & Hm & j & Hj & Ej)]; [|split_and!; [done|left; by apply Pe|eauto]].
      destruct (J2 id r Hold) as (Pos & [(j0 & x & m & b & H1 & H2 & H3 & H4 & H5)|[]] & j & Hj & Ej). rewrite Hj in H1. injection H1 as <-. split; [done|].
      assert (exists j', recs t2 !! r = Some j' /\ jgrpNode j' = jgrpNode j /\ jobId (core j') = jobId (core j)) as (j' & Hj' & E1 & E2).
      { destruct (decide (r = arr)) as [->|Hra]; [rewrite Hja in Hj; injection Hj as <-; eexists; by split; [exact Ga|]|]. exists j. split; [by apply G5|done]. }
      split; [|exists j'; split; [done|congruence]]. left. destruct (decide (x = c)) as [->|Hx].
      * exists j', c, n, (mkA chain js). cbn. rewrite G1, lookup_insert_eq. simplify_eq. split_and!; try done; [congruence|]. right. destruct H5 as [H5|[b0 H5]]; [set_solver|].
        rewrite H5 in Hi. injection Hi as -> ->. eauto.
      * exists j', x, m, b. cbn. rewrite G1, lookup_insert_ne by congruence. split_and!; try done. congruence.
    + intros x Hx. destruct Hx as [Hx|[Hx|Hx]]; [|by apply Gf'|]; [assert (x < fresh t1); [apply J3; by left|lia]|].
      apply HB in Hx. rewrite G2 in Hx. assert (x < fresh t1); [apply J3; by right; right|lia].
  - intros x a. cbn. rewrite G3. destruct (decide (x = c)) as [->|]; [rewrite lookup_insert_eq; intros [= <-]; by apply (At c _ Ha)|]. rewrite lookup_insert_ne by congruence. apply At.
  - intros e. cbn. rewrite G4, G1. apply En.
Qed.
End NewArray.

Lemma growing_start t c arr ja s : recs t !! arr = Some ja -> nextJob (core ja) = None -> (forall r, is_Some (recs t !! r) -> r < fresh t) ->
  growing t c arr ja s [] arr t.
Proof.
  intros Ha Nx F. split; try done; try set_solver.
  - exists None. split; [|constructor]. rewrite Ha. f_equal. destruct ja as [[] ? ? ? ? ? ?]. cbn in *. by subst.
Qed.

(** The counts at the end of [handleNewJobArray]. *)
Lemma new_array_end t1 kids A c arr n chain ja userPending els jPtr t2 : inv t1 kids A -> nodes t1 !! c = Some n -> ndInfo n = ArrayInfo c (Some arr) ->
  A !! c = Some (mkA chain []) -> recs t1 !! arr = Some ja -> jgrpNode ja = Some c -> growing t1 c arr ja (new_state ja userPending) els jPtr t2 ->
  Z.of_nat (length els) < 2 ^ 31 -> els <> [] ->
  exists t', (j ← rec_at t2 arr; node ← deref (jgrpNode j); n ← node_at (nodes t2) node; b ← deref (base_of (ndInfo n));
     first ← deref (nextJob (core j)); fr ← rec_at t2 first;
     t ← on_counts (fun c => <[JGRP_COUNT_NJOBS := wrap32 (0 + Z.of_nat (length els))]> (<[getIndexOfJStatus (jStatus (core fr)) := wrap32 (0 + Z.of_nat (length els))]> c)) b t2;
     updJgrpCountByOp t node 1) = Ok t'
    /\ inv t' kids (<[c := mkA chain (map (fun e => (e, new_state ja userPending)) els)]> A).
Proof.
  intros I Hc Hi Ha Hja Nj G Len Ne. destruct (g_arr _ _ _ _ _ _ _ _ G) as (o & Ga & W). rewrite (rec_at_eq t2 arr _ Ga). cbn [mbind res_bind].
  change (jgrpNode (on_core (set_nextJob o) ja)) with (jgrpNode ja). rewrite Nj. cbn [deref mbind res_bind].
  rewrite (g_nodes _ _ _ _ _ _ _ _ G), (node_at_eq _ c n Hc). cbn [mbind res_bind]. rewrite Hi. cbn [base_of deref mbind res_bind].
  destruct els as [|e els]; [done|]. inversion W as [|? je ? He W' Eo]; subst. cbn [nextJob core on_core set_nextJob deref mbind res_bind].
  destruct (g_els _ _ _ _ _ _ _ _ G e) as (j & Hj & Es & _); [set_solver|]. cbn in Hj, Es. rewrite (rec_at_eq t2 e j Hj). cbn [mbind res_bind]. rewrite Es, Z.add_0_l.
  destruct (array_exact t1 kids A c arr n chain ja _ _ jPtr t2 I Hc Hi Ha Hja G Len) as (a & p & lp & Ech & Hb & t' & E1 & E2 & B & Eb & HB).
  unfold on_counts. rewrite Hb. cbn [deref mbind res_bind]. exists t'. split; [exact E1|]. subst t'.
  by apply (array_inv t1 kids A c arr n chain ja _ _ jPtr t2 I Hc Hi Ha Hja G Len).
Qed.

(** The array before it gets elements: its record, with identifier [id], and its node are in the tree. *)
Lemma array_put t kids A j : inv t kids A -> 0 < jobId (core j) -> ids t !! jobId (core j) = None -> jStatus (core j) <> JOB_STAT_NULL ->
  exists t0 t1 t2 kids2 A2 c root ja n, let arr := fresh t in
    addJobIdHT (alloc j t) arr = Ok t0 /\ on_rec arr (new_core JGRP_NODE_ARRAY) t0 = Ok t1 /\ putOntoTree t1 arr = Ok t2
    /\ inv t2 kids2 A2 /\ A2 !! c = Some (mkA [c; root] []) /\ recs t2 !! arr = Some ja /\ nodes t2 !! c = Some n /\ ndInfo n = ArrayInfo c (Some arr)
    /\ ids t2 = <[jobId (core j) := arr]> (ids t) /\ jgrpNode ja = Some c /\ nodeType (core ja) = JGRP_NODE_ARRAY /\ nextJob (core ja) = None /\ jobId (core ja) = jobId (core j)
    /\ jStatus (core ja) <> JOB_STAT_NULL.
Proof.
  intros I Pos Hid Hs. destruct (new_record t kids A j JGRP_NODE_ARRAY I Pos Hid) as (t1 & E1 & I1 & Out & R1 & D1 & F1 & N1 & G1).
  destruct (addJobIdHT (alloc j t) (fresh t)) as [t0| | |] eqn:E0; cbn [mbind res_bind] in E1; try done. set (arr := fresh t) in *.
  assert (Hr : recs t1 !! arr = Some (new_core JGRP_NODE_ARRAY j)) by (rewrite R1; by rewrite lookup_insert_eq).
  destruct (put_array _ t1 kids A arr (new_core JGRP_NODE_ARRAY j) [] I1) as (t2 & E2 & I2 & R2 & D2 & _); try done.
  { intros r [->|H]; [done|set_solver]. }
  { constructor. }
  cbn [fmap list_fmap] in R2. rewrite regroup_nil in R2. set (c := fresh t1) in *.
  set (ja := put_flags _) in R2. assert (Ha : recs t2 !! arr = Some ja) by (rewrite R2; by rewrite lookup_insert_eq).
  destruct (put_flags_keeps (set_jgrpNode (Some c) (new_core JGRP_NODE_ARRAY j))) as [(K1 & K2 & K3 & K4) Sj]. fold ja in K1, K2, K3, K4, Sj. cbn in K1, K2, K3, K4, Sj.
  set (A2 := <[c := _]> A) in *. assert (I3 : inv t2 (add_kid kids (groupRoot t1) c) A2).
  { eapply inv_weaken; [exact I2|]. intros id r _ [-> H]. apply H. right. by eexists. }
  assert (exists n, nodes t2 !! c = Some n /\ ndInfo n = ArrayInfo c (Some arr)) as (n & Hn & Hni).
  { destruct (j_ids _ _ _ (i_jobs _ _ _ _ I3) (jobId (core j)) arr) as (_ & [(j1 & x & n & a & H1 & H2 & H3 & H4 & H5)|[]] & _); [rewrite D2, D1; by rewrite lookup_insert_eq|].
    rewrite Ha in H1. injection H1 as <-. rewrite K1 in H2. injection H2 as <-. exists n. split; [done|]. unfold A2 in H4. rewrite lookup_insert_eq in H4. injection H4 as <-.
    destruct H5 as [H5|[b Hb]]; [cbn in H5; set_solver|]. rewrite Hb. f_equal. eapply (s_base _ _ _ (i_shape _ _ _ _ I3) c n); [done|]. by rewrite Hb. }
  exists t0, t1, t2, (add_kid kids (groupRoot t1) c), A2, c, (groupRoot t1), ja, n. cbn zeta.
  split_and!; try done; [unfold A2; by rewrite lookup_insert_eq|by rewrite D2, D1|by rewrite Sj].
Qed.

Theorem handleNewJobArray_ok t kids A j l js : inv t kids A -> 0 < jobId (core j) -> ids t !! jobId (core j) = None -> jStatus (core j) <> JOB_STAT_NULL ->
  all_values l = Some js -> Z.of_nat (length js) < 2 ^ 31 -> (forall i, i ∈ js -> 0 < LSB_JOBID (jobId (core j)) i) ->
  (exists i, i ∈ js /\ ids t !! LSB_JOBID (jobId (core j)) i = None /\ LSB_JOBID (jobId (core j)) i <> jobId (core j)) ->
  exists t' kids' A', handleNewJobArray (alloc j t) (fresh t) l = Ok t' /\ inv t' kids' A'.
Proof.
  intros I Pos Hid Hs El Len Pj (i0 & Hi0 & Hn0 & Hne0). destruct (array_put t kids A j I Pos Hid Hs) as (t0 & t1 & t2 & kids2 & A2 & c & root & ja & n & E0 & E1 & E2 & I3 & Hc & Ha & Hn & Hni & D2 & K1 & K2 & K4 & K3 & Sj).
  unfold handleNewJobArray. unfold new_core in E1. rewrite E0. cbn [mbind res_bind]. rewrite E1. cbn [mbind res_bind]. rewrite E2. cbn [mbind res_bind]. set (arr := fresh t) in *.
  rewrite (rec_at_eq t2 arr ja Ha). cbn [mbind res_bind]. set (up := has _ _). rewrite (new_lists_values l js El).
  assert (Ft : forall r, is_Some (recs t2 !! r) -> r < fresh t2) by (intros r Hr'; apply (j_fresh _ _ _ (i_jobs _ _ _ _ I3)); by right; left).
  destruct (new_elements_spec t2 c arr ja up K2 K1 Sj Ft js [] arr t2 0) as (t3 & els & p & E3 & G3 & L3 & Ne3).
  { by apply growing_start. }
  { intros i Hi. rewrite K3. by apply Pj. }
  rewrite E3. cbn [mbind res_bind].
  destruct (new_array_end t2 _ A2 c arr n [c; root] ja up els p t3 I3 Hn Hni) as (t' & E' & I'); try done.
  - lia.
  - apply Ne3. exists i0. split; [done|]. rewrite K3, D2, lookup_insert_ne by congruence. done.
  - eexists _, _, _. split; [exact E'|exact I'].
Qed.

(** *** Submissions that go wrong *)

(** The identifier belongs to an array: [addJobIdHT] does not come to an end. *)
Lemma array_id_hangs t kids A j r ja : inv t kids A -> ids t !! jobId (core j) = Some r -> recs t !! r = Some ja -> nodeType (core ja) = JGRP_NODE_ARRAY ->
  addJobIdHT (alloc j t) (fresh t) = OutOfFuel.
Proof.
  intros I Hid Hr Ty. destruct (j_ids _ _ _ (i_jobs _ _ _ _ I) _ r Hid) as (Pos & _). pose proof (fresh_rec _ t kids A I) as Fr.
  assert (Ne : r <> fresh t) by congruence. unfold addJobIdHT. rewrite (rec_at_eq _ (fresh t) j) by apply lookup_insert_eq. cbn [mbind res_bind ids alloc]. rewrite Hid.
  assert (Lk : lookup_id (alloc j t) (jobId (core j)) = Some r) by (unfold lookup_id; by rewrite (proj2 (Z.leb_gt _ 0) Pos)).
  rewrite bool_decide_eq_false_2 by (rewrite Lk; congruence). unfold removeJob. rewrite Lk. rewrite (rec_at_eq _ r ja) by (cbn; by rewrite lookup_insert_ne by congruence).
  cbn [mbind res_bind]. rewrite Ty. cbn. by rewrite Hid.
Qed.

Lemma new_elements_none t arr ja up js jPtr n : recs t !! arr = Some ja -> (forall i, i ∈ js -> 0 < LSB_JOBID (jobId (core ja)) i /\ is_Some (ids t !! LSB_JOBID (jobId (core ja)) i)) ->
  new_elements t arr up js jPtr n = Ok (t, jPtr, n).
Proof.
  intros Ha. induction js as [|i js IH]; intros H; [done|]. cbn [new_elements]. rewrite (rec_at_eq t arr ja Ha). cbn [mbind res_bind].
  destruct (H i) as [Pi [r Hr]]; [set_solver|]. unfold lookup_id. rewrite (proj2 (Z.leb_gt _ 0) Pi), Hr. apply IH. intros i' Hi'. apply H. set_solver.
Qed.

(** All elements exist: the first one of the new array is read through NULL. *)
Theorem handleNewJobArray_faults t kids A j l js : inv t kids A -> 0 < jobId (core j) -> ids t !! jobId (core j) = None -> jStatus (core j) <> JOB_STAT_NULL ->
  all_values l = Some js -> (forall i, i ∈ js -> 0 < LSB_JOBID (jobId (core j)) i) ->
  (forall i, i ∈ js -> is_Some (ids t !! LSB_JOBID (jobId (core j)) i) \/ LSB_JOBID (jobId (core j)) i = jobId (core j)) ->
  handleNewJobArray (alloc j t) (fresh t) l = Fault.
Proof.
  intros I Pos Hid Hs El Pj Hall. destruct (array_put t kids A j I Pos Hid Hs) as (t0 & t1 & t2 & kids2 & A2 & c & root & ja & n & E0 & E1 & E2 & I3 & Hc & Ha & Hn & Hni & D2 & K1 & K2 & K4 & K3 & Sj).
  unfold handleNewJobArray. unfold new_core in E1. rewrite E0. cbn [mbind res_bind]. rewrite E1. cbn [mbind res_bind]. rewrite E2. cbn [mbind res_bind]. set (arr := fresh t) in *.
  rewrite (rec_at_eq t2 arr ja Ha). cbn [mbind res_bind]. rewrite (new_lists_values l js El), (new_elements_none t2 arr ja); [|done|].
  - cbn [mbind res_bind]. rewrite (rec_at_eq t2 arr ja Ha). cbn [mbind res_bind]. rewrite K1. cbn [deref mbind res_bind]. rewrite (node_at_eq _ c n Hn). cbn [mbind res_bind]. rewrite Hni, K4. done.
  - intros i Hi. rewrite K3. split; [by apply Pj|]. rewrite D2. destruct (Hall i Hi) as [H|H]; [|rewrite H, lookup_insert_eq; by eexists].
    rewrite lookup_insert_ne; [done|]. intros E. rewrite <- E, Hid in H. by destruct H.
Qed.

(** ** The start *)

Theorem treeInit_ok : exists kids A, inv treeInit kids A.
Proof.
  exists (fun _ => []), {[1 := mkA [1] []]}.
  assert (Hn : forall x n, nodes treeInit !! x = Some n -> x = 1 /\ n = mkNode None None None None [slash] (GroupInfo 1)).
  { intros x n H. change (nodes treeInit) with ({[1 := mkNode None None None None [slash] (GroupInfo 1)]} : gmap Z jgTreeNode) in H. apply lookup_singleton_Some in H as [<- <-]. done. }
  assert (H1 : nodes treeInit !! 1 = Some (mkNode None None None None [slash] (GroupInfo 1))) by reflexivity.
  assert (U1 : up (nodes treeInit) (Some 1) [1]) by (econstructor; [exact H1|constructor]).
  split.
  - split.
    + split; try done.
      * intros p n Hp. by apply Hn in Hp as [-> ->].
      * intros c n p Hc Pc. by apply Hn in Hc as [-> ->].
      * intros c n Hc. by apply Hn in Hc as [-> ->].
      * intros p. constructor.
      * intros p [n Hp]. apply Hn in Hp as [-> ->]. exists []. exact U1.
    + intros x. split.
      * intros [a Ha]. apply lookup_singleton_Some in Ha as [<- _]. eauto.
      * intros [n Hx]. apply Hn in Hx as [-> _]. rewrite lookup_singleton_eq. eauto.
    + intros x a Ha. apply lookup_singleton_Some in Ha as [<- <-]. exists []. split; [done|exact U1].
    + done.
    + intros p n b Hp. apply Hn in Hp as [-> ->]. cbn. by intros [= <-].
    + intros p n Hp _. apply Hn in Hp as [-> ->]. exists (mkArray JGRP_ACTIVE (repeat 0 9)). split; [reflexivity|]. split_and!; [done|done|].
      intros k Hk. cbn [counts]. rewrite nth_repeat. unfold total. rewrite zsum_zero; [done|]. intros x a Ha. apply lookup_singleton_Some in Ha as [<- <-]. unfold weight. by case_decide.
    + eexists. split; [exact H1|done].
  - split.
    + intros x n a Hx Ha. apply Hn in Hx as [-> ->]. apply lookup_singleton_Some in Ha as [_ <-]. done.
    + intros id r H. done.
    + intros x [[n Hx]|[[? Hx]|[? Hx]]]; [by apply Hn in Hx as [-> _]|done|].
      change (bases treeInit) with ({[1 := mkArray JGRP_ACTIVE (repeat 0 9)]} : gmap Z jgArrayBase) in Hx. by apply lookup_singleton_Some in Hx as [<- _].
  - intros x a Ha. apply lookup_singleton_Some in Ha as [<- <-]. cbn. set_solver.
  - intros e [= <-]. eauto.
Qed.
