(* ===== verification/JGroupWalk.v ===== *)
(** * The walk over the conditions of the jobs

    [checkJgrpDep] changes flags and reasons of jobs only; every condition that points
    to records of the tree is evaluated; a call visits the nodes from its position
    in the order of the tree. *)
From stdpp Require Import base gmap list fin_maps.
From Stdlib Require Import ZArith Bool Lia.
From S2P Require Import Prelude Ledger JobId CNum ListSet JobArray Window DepToken DepCond JGroup JTree JGroupInv JGroupOps JGroupPut JGroupRemove JGroupNew.
Local Open Scope Z_scope.

(** ** Changes of flags *)

Definition same_job (j j' : jobRec) : Prop := keeps j j' /\ jStatus (core j') = jStatus (core j) /\ dptRoot j' = dptRoot j.

Record same_jobs (t t' : jtree) : Prop := {
  sj_nodes : nodes t' = nodes t; sj_bases : bases t' = bases t; sj_ids : ids t' = ids t;
  sj_root : groupRoot t' = groupRoot t; sj_entry : entry t' = entry t; sj_fresh : fresh t' = fresh t;
  sj_recs r j : recs t !! r = Some j -> exists j', recs t' !! r = Some j' /\ same_job j j';
  sj_back r j' : recs t' !! r = Some j' -> exists j, recs t !! r = Some j /\ same_job j j' }.

Lemma same_rec_refl j : same_job j j.
Proof. done. Qed.

Lemma same_job_trans j j' j'' : same_job j j' -> same_job j' j'' -> same_job j j''.
Proof. unfold same_job, keeps. intros ((? & ? & ? & ?) & ? & ?) ((? & ? & ? & ?) & ? & ?). split_and!; congruence. Qed.

#[global] Instance same_jobs_preorder : PreOrder same_jobs.
Proof.
  split.
  - intros t. split; eauto using same_rec_refl.
  - intros t t' t'' [] []. split; try congruence.
    + intros r j Hj. destruct (sj_recs0 r j Hj) as (j' & Hj' & S). destruct (sj_recs1 r j' Hj') as (j'' & Hj'' & S'). eauto using same_job_trans.
    + intros r j Hj. destruct (sj_back1 r j Hj) as (j' & Hj' & S). destruct (sj_back0 r j' Hj') as (j'' & Hj'' & S'). eauto using same_job_trans.
Qed.

Lemma same_jobs_rec t r f j : recs t !! r = Some j -> same_job j (f j) -> same_jobs t (set_recs (<[r := f j]> (recs t)) t).
Proof.
  intros Hj S. split; try done; cbn.
  - intros r0 j0 H0. destruct (decide (r0 = r)) as [->|]; [rewrite lookup_insert_eq; simplify_eq; eauto|].
    rewrite lookup_insert_ne by congruence. eauto using same_rec_refl.
  - intros r0 j0. destruct (decide (r0 = r)) as [->|]; [rewrite lookup_insert_eq; intros [= <-]; eauto|].
    rewrite lookup_insert_ne by congruence. eauto using same_rec_refl.
Qed.

Section Same.
Variables t t' : jtree.
Hypothesis S : same_jobs t t'.

Lemma same_row o l : row (recs t) o l -> row (recs t') o l.
Proof. apply path_ext. intros x n _ Hn. destruct (sj_recs _ _ S x n Hn) as (n' & Hn' & (_ & _ & _ & E) & _). eauto. Qed.

Lemma same_at x p : job_at (recs t) x p -> job_at (recs t') x p.
Proof.
  intros (j & Hj & H1 & H2 & H3 & H4 & H5). destruct (sj_recs _ _ S _ j Hj) as (j' & Hj' & (K1 & K2 & K3 & K4) & K5 & _).
  exists j'. rewrite K1, K2, K3, K5. done.
Qed.

Lemma same_info x i js : info_ok (recs t) x i js -> info_ok (recs t') x i js.
Proof.
  destruct i as [o|b|b o]; cbn; [|done|].
  - intros (r & s & -> & -> & J & W). exists r, s. split_and!; [done|done|by apply same_at|by apply same_row].
  - intros (a & ja & -> & Ha & H). destruct (sj_recs _ _ S _ _ Ha) as (ja' & Ha' & (K1 & K2 & K3 & K4) & K5 & _).
    exists a, ja'. rewrite K1, K2, K3, K4, K5. destruct H as (? & ? & ? & ? & W & J & ?). split_and!; try done; [by apply same_row|].
    eapply Forall_impl; [exact J|]. intros p. apply same_at.
Qed.

Lemma same_inv kids A : inv t kids A -> inv t' kids A.
Proof.
  intros [[S1 S2 S3 S4 S5 S6 S7] [J1 J2 J3] At En]. pose proof S as [N B D R E F Rr Rb]. split; [split| | |]; rewrite ?N, ?R, ?E; try done.
  - intros p n. rewrite N, B. apply S6.
  - split; rewrite ?N, ?B, ?D, ?F.
    + intros x n a Hn Ha. apply same_info. by apply J1.
    + intros id r Hr. destruct (J2 id r Hr) as (Pos & [(j & x & n & a & H1 & H2 & H3)|[]] & j0 & Hj0 & E0). split; [done|].
      rewrite Hj0 in H1. injection H1 as <-. destruct (Rr r j0 Hj0) as (j' & Hj' & (K1 & K2 & K3 & K4) & _). split; [|exists j'; split; [done|congruence]].
      left. exists j', x, n, a. rewrite N. split_and!; try apply H3; [done|congruence].
    + intros x Hx. apply J3. destruct Hx as [?|[[j' Hx]|?]]; [by left| |by right; right]. destruct (Rb x j' Hx) as (j & Hj & _). right. left. eauto.
Qed.
End Same.

(** ** Conditions on the tree *)

Section Conditions.
Context `{TW : TimeWindows} (env : mbd).

(** The pointers of a condition lead to records and structs of the tree, and the
    elements of an array come to an end. *)
Fixpoint cond_ok (t : jtree) (nd : dptNode) : Prop :=
  match nd with
  | Bin _ _ l r => cond_ok t l /\ cond_ok t r
  | Neg _ l => cond_ok t l
  | Timew _ _ => True
  | Jgrp _ _ _ _ b => forall x, b = Some x -> is_Some (bases t !! x)
  | Job _ _ _ _ one o idx =>
      forall r, o = Some r -> exists j l, recs t !! r = Some j /\ row (recs t) (nextJob (core j)) l
        /\ forall i, idx = Some i -> Forall (fun x => is_Some (recs t !! x)) (depJobList i) /\ (one = true -> depJobList i <> [])
  end.

Definition conds_ok (t : jtree) (conds : gmap Z dptNode) : Prop :=
  (forall id r, ids t !! id = Some r -> is_Some (recs t !! r)) /\
  forall r j d, recs t !! r = Some j -> dptRoot j = Some d -> exists nd, conds !! d = Some nd /\ cond_ok t nd.

Abbreviation st t := (dep_view env t).

Lemma view_job t r j : recs t !! r = Some j -> exists k, jobs (st t) !! r = Some k /\ nextJob k = nextJob (core j) /\ nodeType k = nodeType (core j).
Proof. intros Hj. cbn. rewrite lookup_fmap, Hj. cbn. eexists. split; [done|]. done. Qed.

Lemma view_size t : size (jobs (st t)) = size (recs t).
Proof. cbn. apply map_size_fmap. Qed.

Lemma eval_one t fuel test skip type ptr r v : is_Some (recs t !! r) -> exists w, eval_jobs (st t) (S (S fuel)) test skip type false (Some r) ptr v = Ok w.
Proof. intros [j Hj]. destruct (view_job t r j Hj) as (k & Hk & _). cbn [eval_jobs]. rewrite Hk. repeat case_match; eauto. Qed.

Lemma eval_row t test skip type o l : row (recs t) o l -> forall fuel v, (length l < fuel)%nat ->
  exists w, eval_jobs (st t) fuel test skip type true o None v = Ok w.
Proof.
  induction 1 as [|r j l Hj _ IH]; intros [|fuel] v F; cbn in F; try lia; cbn [eval_jobs]; [eauto|].
  destruct (view_job t r j Hj) as (k & Hk & En & _). rewrite Hk, En. repeat case_match; try (apply IH; lia); eauto.
Qed.

Lemma eval_listed t test skip type l : forall x fuel v, Forall (fun y => is_Some (recs t !! y)) (x :: l) -> (length l + 1 < fuel)%nat ->
  exists w, eval_jobs (st t) fuel test skip type true (Some x) (Some l) v = Ok w.
Proof.
  induction l as [|y l IH]; intros x [|fuel] v [[j Hj] F]%Forall_cons L; cbn in L; try lia; cbn [eval_jobs];
    destruct (view_job t x j Hj) as (k & Hk & _); rewrite Hk.
  - destruct fuel; [lia|]. cbn. repeat case_match; eauto.
  - repeat case_match; try (apply IH; [done|cbn; lia]); eauto.
Qed.

Lemma one_to_one_ok t idx pos : forall r, Forall (fun y => is_Some (recs t !! y)) (r :: pos) ->
  exists x, one_to_one (st t) idx r pos = Ok x /\ is_Some (recs t !! x).
Proof.
  induction pos as [|y pos IH]; intros r [[j Hj] F]%Forall_cons; cbn [one_to_one]; destruct (view_job t r j Hj) as (k & Hk & _); rewrite Hk.
  - case_match; eauto.
  - case_match; [eauto|]. by apply IH.
Qed.

Lemma eval_job_ok t type op code one o idx v dj : (forall id r, ids t !! id = Some r -> is_Some (recs t !! r)) ->
  cond_ok t (Job type v op code one o idx) -> exists w, eval_job (st t) type op code one o idx v (Some dj) = Ok w.
Proof.
  intros Id C. unfold eval_job. destruct o as [r|]; [|eauto]. destruct (C r eq_refl) as (j & l & Hj & W & Ci).
  destruct (view_job t r j Hj) as (k & Hk & En & _). rewrite Hk, En.
  set (fuel := eval_fuel (st t) idx). assert (Ef : exists f, fuel = S (S f)) by (eexists; done). destruct Ef as [f Ef]. rewrite Ef.
  destruct (is_array (nodeType k)) eqn:Ea; cbn [andb]; [|by apply eval_one; eauto]. destruct one; cbn [negb].
  - destruct (getJobData _ _) as [x|] eqn:Hx.
    + apply eval_one. unfold getJobData in Hx. destruct (_ <=? 0); [done|]. by eapply Id.
    + destruct idx as [i|]; [|eauto]. destruct (Ci i eq_refl) as [F Ne]. destruct (depJobList i) as [|r1 pos]; [by destruct Ne|]. cbn [listSetIteratorBegin].
      destruct (one_to_one_ok t (LSB_ARRAY_IDX (jobId dj)) pos r1 F) as (x & -> & Hx2). cbn [mbind res_bind]. by apply eval_one.
  - assert (L : (length l < fuel)%nat).
    { pose proof (path_length _ _ _ _ W) as L. unfold walk_fuel in L. unfold fuel, eval_fuel. rewrite view_size. lia. }
    rewrite <- Ef. destruct idx as [[ix [|x dl]]|]; try (by apply (eval_row t _ _ _ _ l)).
    destruct (Ci _ eq_refl) as [F _]. apply eval_listed; [done|]. unfold fuel, eval_fuel. cbn. lia.
Qed.

Lemma evalDepCond_ok t dj nd : (forall id r, ids t !! id = Some r -> is_Some (recs t !! r)) -> cond_ok t nd ->
  exists v nd', evalDepCond (st t) nd (Some dj) = Ok (v, nd') /\ cond_ok t nd'.
Proof.
  intros Id. induction nd as [type v l IHl r IHr|v l IHl|type v op code one o idx|v w|type v op num b]; intros C.
  - destruct C as [Cl Cr]. destruct (IHl Cl) as (v1 & l' & E1 & C1). destruct (IHr Cr) as (v2 & r' & E2 & C2).
    destruct type; cbn [evalDepCond]; try (eexists _, _; split; [done|by split]); rewrite E1; cbn [mbind res_bind]; destruct v1; rewrite ?E2; cbn [mbind res_bind];
      eexists _, _; (split; [done|by split]).
  - destruct (IHl C) as (v1 & l' & E1 & C1). cbn [evalDepCond]. rewrite E1. cbn [mbind res_bind]. eexists _, _. by split.
  - destruct (eval_job_ok t type op code one o idx v dj Id C) as [w E]. cbn [evalDepCond]. rewrite E. cbn [mbind res_bind]. eexists _, _. by split.
  - eexists _, _. by split.
  - cbn [evalDepCond]. destruct b as [b|]; [|eexists _, _; by split]. destruct (C b eq_refl) as [a Ha]. cbn [arrays dep_view]. rewrite Ha.
    destruct (status a =? JGRP_VOID); eexists _, _; (split; [done|]); [done|]. intros x [= <-]. eauto.
Qed.

Lemma same_cond t t' nd : same_jobs t t' -> cond_ok t nd -> cond_ok t' nd.
Proof.
  intros S. induction nd as [type v l IHl r IHr|v l IHl|type v op code one o idx|v w|type v op num b]; cbn; [naive_solver|naive_solver| |done|].
  - intros C r Hr. destruct (C r Hr) as (j & l & Hj & W & Ci). destruct (sj_recs _ _ S r j Hj) as (j' & Hj' & (_ & _ & _ & En) & _).
    exists j', l. split; [done|]. split; [rewrite En; by apply (same_row t)|]. intros i Hi. destruct (Ci i Hi) as [F Ne]. split; [|done].
    eapply Forall_impl; [exact F|]. intros x [jx Hx]. destruct (sj_recs _ _ S x jx Hx) as (jx' & Hx' & _). eauto.
  - intros C x Hx. rewrite (sj_bases _ _ S). by apply C.
Qed.

Lemma same_conds t t' conds : same_jobs t t' -> conds_ok t conds -> conds_ok t' conds.
Proof.
  intros S [Id C]. split.
  - intros id r. rewrite (sj_ids _ _ S). intros Hr. destruct (Id id r Hr) as [j Hj]. destruct (sj_recs _ _ S r j Hj) as (j' & Hj' & _). eauto.
  - intros r j' d Hj' Hd. destruct (sj_back _ _ S r j' Hj') as (j & Hj & _ & _ & Ed). destruct (C r j d Hj) as (nd & Hnd & Cn); [congruence|].
    exists nd. split; [done|]. by apply (same_cond t).
Qed.

(** ** Jobs are checked *)

(** A pending job was checked, and is ready when nothing holds it. *)
Definition checked (j : jobRec) : Prop :=
  JOB_PEND (jStatus (core j)) = true -> has (jFlags (core j)) JFLAG_READY1 = true
    /\ (dptRoot j = None -> has (jFlags (core j)) JFLAG_WAIT_SWITCH = false -> has (jFlags (core j)) JFLAG_READY2 = true).

Lemma same_dom t t' : same_jobs t t' -> forall r, is_Some (recs t' !! r) -> is_Some (recs t !! r).
Proof. intros S r [j' Hj']. destruct (sj_back _ _ S r j' Hj') as (j & Hj & _). eauto. Qed.

(** The jobs of [l] are checked, and no other job is changed unless it is checked too. *)
Definition done_with (l : list Z) (t t' : jtree) : Prop :=
  forall r j', recs t' !! r = Some j' -> (r ∈ l \/ exists j, recs t !! r = Some j /\ checked j) -> checked j'.

Lemma done_trans l l' t t' t'' : done_with l t t' -> done_with l' t' t'' ->
  (forall r, is_Some (recs t'' !! r) -> is_Some (recs t' !! r)) -> done_with (l ++ l') t t''.
Proof.
  intros D D' S r j'' Hj'' H. apply (D' r j'' Hj''). destruct (decide (r ∈ l')) as [|Hn]; [by left|]. right.
  destruct (S r) as [j' Hj']; [eauto|]. exists j'. split; [done|]. apply (D r j' Hj'). destruct H as [H|H]; [left; set_solver|by right].
Qed.

Lemma done_nil t : done_with [] t t.
Proof. intros r j' Hj' [H|(j & Hj & C)]; [set_solver|by simplify_eq]. Qed.

Lemma has_lor_r x f : f <> 0 -> has (Z.lor x f) f = true.
Proof.
  intros Hf. unfold has. apply negb_true_iff, Z.eqb_neq. rewrite Z.land_lor_distr_l, Z.land_diag. intros H. apply Z.lor_eq_0_iff in H as [_ H]. done.
Qed.

Lemma has_lor_l x g f : has x f = true -> has (Z.lor x g) f = true.
Proof.
  unfold has. rewrite !negb_true_iff, !Z.eqb_neq. rewrite Z.land_lor_distr_l. intros H H0. apply Z.lor_eq_0_iff in H0 as [H0 _]. done.
Qed.

Lemma checked_wait j : checked (set_newReason PEND_JOB_SWITCH (on_core unready j)) \/ has (jFlags (unready (core j))) JFLAG_WAIT_SWITCH = false.
Proof.
  destruct (has (jFlags (unready (core j))) JFLAG_WAIT_SWITCH) eqn:E; [left|by right]. intros _. split; [by apply has_lor_r|]. intros _ H. cbn in *. congruence.
Qed.

Lemma checked_depend v j : has (jFlags (unready (core j))) JFLAG_WAIT_SWITCH = false -> (dptRoot j = None -> v = DP_TRUE) ->
  checked (depend v (on_core unready j)).
Proof.
  intros W Hv _. assert (R1 : has (jFlags (unready (core j))) JFLAG_READY1 = true) by (by apply has_lor_r).
  split; [destruct v; [exact R1|apply has_lor_l, R1..]|]. intros Hd _. rewrite Hv by (by destruct v). cbn. by apply has_lor_r.
Qed.

Lemma unready_same j : same_job j (on_core unready j).
Proof. done. Qed.
Lemma depend_same v j : same_job j (depend v j).
Proof. by destruct v. Qed.

Lemma done_rec t t' r j j' : recs t !! r = Some j -> recs t' = <[r := j']> (recs t) -> checked j' -> done_with [r] t t'.
Proof.
  intros Hj E C r0 j0. rewrite E. destruct (decide (r0 = r)) as [->|Hr]; [rewrite lookup_insert_eq; by intros [= <-]|].
  rewrite lookup_insert_ne by congruence. intros H0 [H|(j1 & H1 & C1)]; [set_solver|by simplify_eq].
Qed.

Lemma check_job_ok t conds r : conds_ok t conds -> is_Some (recs t !! r) ->
  exists t' conds', check_job env (t, conds) r = Ok (t', conds') /\ same_jobs t t' /\ conds_ok t' conds' /\ done_with [r] t t'.
Proof.
  intros C [j Hj]. cbn [check_job]. rewrite (rec_at_eq t r j Hj). cbn [mbind res_bind]. destruct (JOB_PEND (jStatus (core j))) eqn:Pd; cbn [negb].
  2: { exists t, conds. split_and!; try done. intros r0 j0 H0 [Hr|(j1 & H1 & C1)]; [|by simplify_eq].
       apply list_elem_of_singleton in Hr as ->. simplify_eq. intros H. congruence. }
  rewrite (on_rec_eq t r _ j Hj). cbn [mbind res_bind]. set (t1 := set_recs _ t). set (j1 := on_core unready j).
  assert (Hj1 : recs t1 !! r = Some j1) by (cbn; by rewrite lookup_insert_eq). rewrite (rec_at_eq t1 r j1 Hj1). cbn [mbind res_bind].
  assert (S1 : same_jobs t t1) by (apply (same_jobs_rec t r _ j Hj), unready_same).
  assert (Fin : forall f conds', same_job j1 (f j1) -> checked (f j1) -> conds_ok t1 conds' ->
    exists t' conds'', (t2 ← on_rec r f t1; Ok (t2, conds')) = Ok (t', conds'') /\ same_jobs t t' /\ conds_ok t' conds'' /\ done_with [r] t t').
  { intros f conds' Sf Cf C1. rewrite (on_rec_eq t1 r f j1 Hj1). cbn [mbind res_bind]. pose proof (same_jobs_rec t1 r f j1 Hj1 Sf) as S2. eexists _, _. split; [done|].
    split_and!; [by etrans|by apply (same_conds t1)|]. apply (done_rec t _ r j (f j1)); [done| |done]. cbn. by rewrite insert_insert_eq. }
  pose proof (same_conds t t1 conds S1 C) as C1.
  destruct (has (jFlags (core j1)) JFLAG_WAIT_SWITCH) eqn:Wt.
  - apply Fin; [done| |done]. destruct (checked_wait j) as [|W]; [done|]. change (core j1) with (unready (core j)) in Wt. congruence.
  - change (dptRoot j1) with (dptRoot j). destruct (dptRoot j) as [d|] eqn:Ed.
    + destruct (proj2 C1 r j1 d Hj1 Ed) as (nd & Hnd & Cn). rewrite Hnd. cbn [deref mbind res_bind].
      destruct (evalDepCond_ok t1 (core j1) nd (proj1 C1) Cn) as (v & nd' & E & Cn'). rewrite E. cbn [mbind res_bind].
      apply Fin; [apply depend_same|apply checked_depend; [done|congruence]|]. split; [apply C1|]. intros r0 j0 d0 H0 Hd0.
      destruct (decide (d0 = d)) as [->|]; [exists nd'; by rewrite lookup_insert_eq|]. rewrite lookup_insert_ne by congruence. by apply (proj2 C1 r0 j0).
    + apply Fin; [apply depend_same|by apply checked_depend|done].
Qed.

Lemma check_jobs_ok o l : forall t conds it fuel, row (recs t) o l -> (length l <= fuel)%nat -> conds_ok t conds ->
  exists t' conds', check_jobs env fuel (t, conds) it o = Ok ((t', conds'), it + Z.of_nat (length l)) /\ same_jobs t t' /\ conds_ok t' conds' /\ done_with l t t'.
Proof.
  revert o. induction l as [|r l IH]; intros o t conds it fuel W F C; inversion W as [|? j ? Hj W']; subst.
  - exists t, conds. rewrite Z.add_0_r. split_and!; [by destruct fuel|done|done|apply done_nil].
  - destruct fuel as [|fuel]; [cbn in F; lia|]. cbn [check_jobs]. destruct (check_job_ok t conds r C) as (t1 & c1 & E1 & S1 & C1 & D1); [eauto|].
    rewrite E1. cbn [mbind res_bind fst]. destruct (sj_recs _ _ S1 r j Hj) as (j1 & Hj1 & (_ & _ & _ & En) & _). rewrite (rec_at_eq t1 r j1 Hj1). cbn [mbind res_bind].
    rewrite En. destruct (IH (nextJob (core j)) t1 c1 (it + 1) fuel) as (t2 & c2 & E2 & S2 & C2 & D2); [by apply (same_row t)|cbn in F; lia|done|].
    exists t2, c2. rewrite E2. split_and!; [do 2 f_equal; rewrite length_cons; lia|by etrans|done|]. apply (done_trans [r] l t t1); [done|done|by apply same_dom].
Qed.

(** ** Nodes in order *)

Definition node_jobs (A : gmap Z anode) (x : Z) : list Z := match A !! x with Some a => (a_jobs a).*1 | None => [] end.

Lemma check_node_ok t kids A conds it x : inv t kids A -> conds_ok t conds -> is_Some (nodes t !! x) ->
  exists t' conds' it', check_node env (t, conds) it x = Ok ((t', conds'), it') /\ same_jobs t t' /\ conds_ok t' conds' /\ done_with (node_jobs A x) t t'.
Proof.
  intros I C [n Hn]. unfold check_node. cbn [fst]. rewrite (node_at_eq _ x n Hn). cbn [mbind res_bind]. unfold node_jobs.
  destruct (proj2 (s_dom _ _ _ (i_shape _ _ _ _ I) x)) as [a Ha]; [eauto|]. rewrite Ha. pose proof (j_info _ _ _ (i_jobs _ _ _ _ I) x n a Hn Ha) as If.
  destruct (ndInfo n) as [o|b|b o]; cbn in If.
  - destruct If as (r & s & -> & -> & _ & W). destruct (check_jobs_ok (Some r) [r] t conds it (walk_fuel (recs t)) W) as (t' & c' & E & H); [apply path_length in W; lia|done|].
    eexists _, _, _. split; [exact E|done].
  - rewrite If. exists t, conds, it. split_and!; try done. apply done_nil.
  - destruct If as (arr & ja & -> & Hja & _ & _ & _ & _ & W & _). cbn [deref mbind res_bind]. rewrite (rec_at_eq t arr ja Hja). cbn [mbind res_bind].
    destruct (check_jobs_ok _ _ t conds it (walk_fuel (recs t)) W) as (t' & c' & E & H); [apply path_length in W; lia|done|]. eexists _, _, _. split; [exact E|done].
Qed.

(** The nodes of a list are checked. *)
Fixpoint check_nodes (st : jtree * gmap Z dptNode) (iterNum : Z) (l : list Z) : res ((jtree * gmap Z dptNode) * Z) :=
  match l with
  | [] => Ok (st, iterNum)
  | p :: l' => '(st, iterNum) ← check_node env st iterNum p; check_nodes st (iterNum + 1) l'
  end.

(** One call from [p]: it goes along the tour, not less than one node. *)
Lemma check_from_ok late h p l : lexwalk h p l None -> forall t kids A conds it fuel, nodes t = h -> inv t kids A -> conds_ok t conds -> (length l <= fuel)%nat ->
  exists l1 l2 t' conds', l = l1 ++ l2 /\ l1 <> [] /\ check_from env late fuel (t, conds) it (Some p) = Ok ((t', conds'), head l2)
    /\ (exists it', check_nodes (t, conds) it l1 = Ok ((t', conds'), it')) /\ same_jobs t t' /\ conds_ok t' conds'
    /\ done_with (concat (map (node_jobs A) l1)) t t'.
Proof.
  remember None as o eqn:Eo. intros W. revert Eo. induction W as [p nx Hn|p q l r Hn W IH]; intros Eo t kids A conds it fuel Eh I C F; (destruct fuel as [|fuel]; [cbn in F; lia|]).
  - subst nx. assert (Hp : is_Some (nodes t !! p)).
    { rewrite <- Eh in Hn. unfold treeLexNext, node_at in Hn. destruct (nodes t !! p); [eauto|done]. }
    destruct (check_node_ok t kids A conds it p I C Hp) as (t1 & c1 & it1 & E1 & S1 & C1 & D1). exists [p], [], t1, c1. cbn [check_from check_nodes].
    rewrite E1. cbn [mbind res_bind fst]. rewrite (sj_nodes _ _ S1), Eh, Hn. cbn [mbind res_bind map concat]. rewrite !app_nil_r. split_and!; try done; eauto.
  - assert (Hp : is_Some (nodes t !! p)).
    { rewrite <- Eh in Hn. unfold treeLexNext, node_at in Hn. destruct (nodes t !! p); [eauto|done]. }
    destruct (check_node_ok t kids A conds it p I C Hp) as (t1 & c1 & it1 & E1 & S1 & C1 & D1). cbn [check_from]. rewrite E1. cbn [mbind res_bind fst].
    rewrite (sj_nodes _ _ S1), Eh, Hn. cbn [mbind res_bind]. assert (Hq : head l = Some q) by (by destruct W).
    destruct ((1000 <? it1 + 1) && late (it1 + 1)).
    + exists [p], l, t1, c1. cbn [check_nodes map concat]. rewrite E1, Hq, app_nil_r. cbn [mbind res_bind]. split_and!; try done; eauto.
    + destruct (IH Eo t1 kids A c1 (it1 + 1) fuel) as (l1 & l2 & t2 & c2 & -> & Ne & E2 & (it2 & E3) & S2 & C2 & D2);
        [by rewrite (sj_nodes _ _ S1)|by apply (same_inv t)|done|cbn in F; lia|].
      exists (p :: l1), l2, t2, c2. cbn [check_nodes map concat app]. rewrite E1, E2. cbn [mbind res_bind]. split_and!; try done; [eauto|by etrans|apply (done_trans _ _ t t1); [done|done|by apply same_dom]].
Qed.

(** All nodes in the order of [treeLexNext] from the root. *)
Definition tour (t : jtree) (l : list Z) : Prop :=
  lexwalk (nodes t) (groupRoot t) l None /\ NoDup l /\ forall x, x ∈ l <-> is_Some (nodes t !! x).

Lemma lexwalk_suffix h p l1 x l2 r : lexwalk h p (l1 ++ x :: l2) r -> lexwalk h x (x :: l2) r.
Proof.
  revert p. induction l1 as [|y l1 IH]; intros p W; cbn in W.
  - inversion W; subst; done.
  - inversion W as [|? q ? ? _ W']; subst; [by destruct l1|]. by eapply IH.
Qed.

Lemma tour_exists t kids A : inv t kids A -> exists l, tour t l.
Proof.
  intros I. pose proof (s_forest _ _ _ (i_shape _ _ _ _ I)) as F. destruct (s_root _ _ _ (i_shape _ _ _ _ I)) as (n & Hn & _ & Pn).
  assert (U : up (nodes t) (Some (groupRoot t)) [groupRoot t]) by (econstructor; [done|]; rewrite Pn; constructor).
  exists (sub kids (S (base.size (nodes t))) (groupRoot t)). split; [|split].
  - replace None with (next_sib (nodes t) (groupRoot t) []).
    + apply (sub_walk _ _ F); [done|cbn; lia].
    + unfold next_sib. cbn. rewrite Hn. cbn. by rewrite (proj2 (f_root _ _ F _ n Hn Pn)).
  - by apply (sub_nodup _ _ F _ _ []).
  - intros x. split.
    + intros Hx. destruct (sub_sound _ _ F _ _ [] x U Hx) as (l1 & U1). inversion U1; subst. destruct l1; simplify_eq/=; eauto.
    + intros Hx. destruct (proj2 (s_dom _ _ _ (i_shape _ _ _ _ I) x) Hx) as [a Ha]. destruct (s_chain _ _ _ (i_shape _ _ _ _ I) x a Ha) as (l & El & U1).
      pose proof (i_attached _ _ _ _ I x a Ha) as At. rewrite El in At. apply list_elem_of_split in At as (l1 & l2 & E). rewrite E in U1.
      apply (sub_complete _ _ F _ _ _ l1 l2 U1). apply path_length in U1. unfold walk_fuel in U1. rewrite length_app in U1. cbn in U1. lia.
Qed.

(** Where the next call begins. *)
Definition position (t : jtree) : Z := match entry t with Some p => p | None => groupRoot t end.

Lemma inv_set_entry t kids A e : inv t kids A -> (forall x, e = Some x -> is_Some (nodes t !! x)) -> inv (set_entry e t) kids A.
Proof. intros [[] [] ? ?] H. split; [by split|by split|done|done]. Qed.

Lemma cond_entry t e nd : cond_ok (set_entry e t) nd <-> cond_ok t nd.
Proof. induction nd; cbn; naive_solver. Qed.

Lemma conds_entry t e conds : conds_ok (set_entry e t) conds <-> conds_ok t conds.
Proof.
  unfold conds_ok. cbn. split; intros [Id C]; (split; [done|]); intros r j d Hj Hd; destruct (C r j d Hj Hd) as (nd & Hnd & Cn);
    exists nd; (split; [done|]); by apply (cond_entry t e).
Qed.

Lemma position_node t kids A : inv t kids A -> is_Some (nodes t !! position t).
Proof.
  intros I. unfold position. destruct (entry t) as [e|] eqn:E; [by apply (i_entry _ _ _ _ I)|].
  destruct (s_root _ _ _ (i_shape _ _ _ _ I)) as (n & Hn & _). eauto.
Qed.

Lemma checkJgrpDep_ok late t kids A conds order : inv t kids A -> conds_ok t conds -> tour t order ->
  exists pre l1 l2 t1 conds', order = pre ++ l1 ++ l2 /\ head l1 = Some (position t)
    /\ (exists it, check_nodes (set_entry (Some (position t)) t, conds) 0 l1 = Ok ((t1, conds'), it))
    /\ let t' := set_entry (Some (default (groupRoot t) (head l2))) t1 in
       checkJgrpDep env late (t, conds) = Ok (t', conds') /\ inv t' kids A /\ conds_ok t' conds' /\ tour t' order
       /\ done_with (concat (map (node_jobs A) l1)) t t' /\ nodes t' = nodes t /\ ids t' = ids t /\ groupRoot t' = groupRoot t
       /\ (forall r j, recs t !! r = Some j -> exists j', recs t' !! r = Some j' /\ same_job j j')
       /\ (forall r, is_Some (recs t' !! r) -> is_Some (recs t !! r)).
Proof.
  intros I C (W & N & D). pose proof (position_node t kids A I) as Hp. pose proof (proj2 (D _) Hp) as Hin. apply list_elem_of_split in Hin as (pre & suf & Eo).
  rewrite Eo in W. pose proof (lexwalk_suffix _ _ _ _ _ _ W) as Ws. set (t0 := set_entry (Some (position t)) t).
  assert (I0 : inv t0 kids A) by (apply inv_set_entry; [done|by intros x [= <-]]).
  assert (Len : (length (position t :: suf) <= walk_fuel (nodes t))%nat).
  { unfold walk_fuel. etrans; [|apply Nat.le_succ_diag_r]. apply nodup_size.
    - rewrite Eo in N. by apply NoDup_app in N as (_ & _ & N).
    - intros x Hx. apply D. rewrite Eo. set_solver. }
  destruct (check_from_ok late (nodes t) (position t) _ Ws t0 kids A conds 0 (walk_fuel (nodes t)) eq_refl I0 (proj2 (conds_entry t _ conds) C) Len)
    as (l1 & l2 & t1 & c1 & El & Ne & E1 & Ei & S1 & C1 & D1).
  exists pre, l1, l2, t1, c1. split; [by rewrite <- El|]. split; [destruct l1; [done|]; by injection El as <- _|]. split; [done|]. cbn zeta.
  pose proof (sj_nodes _ _ S1) as En. pose proof (sj_root _ _ S1) as Er. split_and!; try done.
  - unfold checkJgrpDep. fold (position t). fold t0. change (nodes t0) with (nodes t). rewrite E1. cbn [mbind res_bind fst snd]. rewrite Er. cbn. by destruct (head l2).
  - apply inv_set_entry; [by apply (same_inv t0)|]. intros x [= <-]. rewrite En. cbn. destruct l2 as [|y l2]; cbn.
    + destruct (s_root _ _ _ (i_shape _ _ _ _ I)) as (n & Hn & _). eauto.
    + apply D. rewrite Eo, El. set_solver.
  - by apply conds_entry.
  - split; cbn; rewrite ?En, ?Er; cbn; [by rewrite Eo|done].
  - apply S1.
  - intros r j Hj. by apply (sj_recs _ _ S1).
  - exact (same_dom t0 t1 S1).
Qed.
End Conditions.

(** An element that is in a list once has one position. *)
Lemma list_split_eq {X} (l1 l1' l2 l2' : list X) (x : X) : NoDup (l1 ++ x :: l2) -> l1 ++ x :: l2 = l1' ++ x :: l2' -> l1 = l1' /\ l2 = l2'.
Proof.
  revert l1'. induction l1 as [|y l1 IH]; intros [|y' l1'] N E; cbn in *; simplify_eq; [done| | |].
  - apply NoDup_cons in N as [N _]. set_solver.
  - apply NoDup_cons in N as [N _]. set_solver.
  - apply NoDup_cons in N as [_ N]. destruct (IH l1' N) as [-> ->]; done.
Qed.

(** ** Calls one after another *)

Section Calls.
Context `{TW : TimeWindows}.

(** Each call has its time and its clock. *)
Fixpoint calls (cs : list (mbd * (Z -> bool))) (st : jtree * gmap Z dptNode) : res (jtree * gmap Z dptNode) :=
  match cs with
  | [] => Ok st
  | (env, late) :: cs' => st ← checkJgrpDep env late st; calls cs' st
  end.

(** The calls check the rest [suf] of a tour, and then all of it. *)
Lemma calls_ok kids A order cs : forall t conds pre suf, inv t kids A -> conds_ok t conds -> tour t order -> order = pre ++ suf -> head suf = Some (position t) ->
  exists t' conds' V, calls cs (t, conds) = Ok (t', conds') /\ ids t' = ids t /\ inv t' kids A
    /\ done_with (concat (map (node_jobs A) V)) t t'
    /\ (forall r j, recs t !! r = Some j -> exists j', recs t' !! r = Some j' /\ same_job j j')
    /\ (forall r, is_Some (recs t' !! r) -> is_Some (recs t !! r))
    /\ (((length suf <= length cs)%nat -> suf `prefix_of` V) /\ ((length suf + length order <= length cs)%nat -> (suf ++ order) `prefix_of` V)).
Proof.
  induction cs as [|[env late] cs IH]; intros t conds pre suf I C T Eo Hs.
  - exists t, conds, []. split_and!; try done; [apply done_nil|intros r j Hj; eauto using same_rec_refl|intros H; destruct suf; [done|cbn in H; lia]..].
  - destruct (checkJgrpDep_ok env late t kids A conds order I C T) as (pre' & l1 & l2 & t1 & c1 & Eo' & Hl & _ & E1 & I1 & C1 & T1 & D1 & N1 & Id1 & R1 & S1 & B1).
    set (t2 := set_entry _ t1) in *.
    assert (Es : suf = l1 ++ l2).
    { destruct T as (_ & N & _). destruct suf as [|x suf], l1 as [|y l1]; try done. injection Hs as ->. injection Hl as ->. rewrite Eo in N, Eo'.
      destruct (list_split_eq pre pre' suf (l1 ++ l2) (position t)) as [_ ->]; [done|done|done]. }
    assert (Ne : l1 <> []) by (by destruct l1). assert (L1 : (0 < length l1)%nat) by (destruct l1; cbn; [done|lia]).
    assert (Pos : head (if decide (l2 = []) then order else l2) = Some (position t2)).
    { unfold position, t2. cbn. destruct l2; cbn; [|done]. destruct T as (W & _). by destruct W. }
    destruct (IH t2 c1 (if decide (l2 = []) then [] else pre' ++ l1) (if decide (l2 = []) then order else l2) I1 C1 T1) as (t3 & c3 & V & E3 & Id3 & I3 & D3 & S3 & B3 & P1 & P2).
    { case_decide; [done|]. by rewrite <- app_assoc. }
    { done. }
    exists t3, c3, (l1 ++ V). cbn [calls]. rewrite E1. cbn [mbind res_bind]. rewrite E3. split_and!; try done.
    + congruence.
    + rewrite map_app, concat_app. by apply (done_trans _ _ t t2).
    + intros r j Hj. destruct (S1 r j Hj) as (j1 & Hj1 & K1). destruct (S3 r j1 Hj1) as (j3 & Hj3 & K3). eauto using same_job_trans.
    + intros r Hr. apply B1, B3, Hr.
    + rewrite Es. intros L. rewrite length_app in L. apply prefix_app. case_decide as E; [subst l2; apply prefix_nil|]. apply P1. cbn in L. lia.
    + rewrite Es, <- app_assoc. intros L. rewrite length_app in L. apply prefix_app. case_decide as E; [subst l2; cbn in L |- *|].
      * apply P1. lia.
      * apply P2. cbn in L. lia.
Qed.
End Calls.
