(* ===== verification/JGroupTheorems.v ===== *)
(** * Theorems about the job tree

    The operations of the daemon on the tree in any order: they do not fail, the
    counts of the groups and arrays stay exact, and the walk over the conditions
    reaches every job. *)
From stdpp Require Import base gmap list fin_maps.
From Stdlib Require Import ZArith Bool Lia.
From S2P Require Import Prelude Ledger JobId CNum ListSet JobArray Window DepToken DepCond JGroup JTree JGroupInv JGroupOps JGroupPut JGroupRemove JGroupNew JGroupWalk.
Local Open Scope Z_scope.

(** ** What the counts should be *)

Fixpoint follow {X} (nx : X -> option Z) (fuel : nat) (h : gmap Z X) (o : option Z) : list Z :=
  match o, fuel with
  | Some p, S f => match h !! p with Some n => p :: follow nx f h (nx n) | None => [] end
  | _, _ => []
  end.

Definition next_of (j : jobRec) : option Z := nextJob (core j).

(** The jobs of a node: the job itself, or the elements of the array. *)
Definition jobs_of (t : jtree) (n : jgTreeNode) : list (Z * Z) :=
  let l := match ndInfo n with
           | JobInfo (Some r) => [r]
           | ArrayInfo _ (Some a) => match recs t !! a with Some ja => follow next_of (walk_fuel (recs t)) (recs t) (next_of ja) | None => [] end
           | _ => []
           end in
  map (fun r => (r, match recs t !! r with Some j => jStatus (core j) | None => 0 end)) l.

(** Each node with its ancestors and its jobs, read from the pointers. *)
Definition abs (t : jtree) : gmap Z anode :=
  map_imap (fun x n => Some (mkA (follow parent (walk_fuel (nodes t)) (nodes t) (Some x)) (jobs_of t n))) (nodes t).

(** How many jobs at or below node [p] count [k] should count. *)
Definition tally (t : jtree) (p : Z) (k : nat) : Z := total (abs t) p k.

Lemma follow_path {X} (nx : X -> option Z) h o l fuel : path nx h o l -> (length l <= fuel)%nat -> follow nx fuel h o = l.
Proof.
  intros U. revert fuel. induction U as [|p n l Hp _ IH]; intros [|fuel] L; cbn in L; try lia; try done.
  cbn. rewrite Hp. f_equal. apply IH. lia.
Qed.

Lemma jobs_of_ok t x n js : info_ok (recs t) x (ndInfo n) js -> jobs_of t n = js.
Proof.
  unfold jobs_of. destruct (ndInfo n) as [o|b|b o]; cbn.
  - intros (r & s & -> & -> & (j & Hj & Es & _) & _). cbn in *. by rewrite Hj, Es.
  - by intros ->.
  - intros (a & ja & -> & Ha & _ & _ & _ & _ & W & J & _). rewrite Ha, (follow_path next_of (recs t) _ js.*1); [|exact W|apply path_length in W; lia].
    clear W. induction J as [|[r s] js (j & Hj & Es & _) _ IH]; [done|]. cbn in *. by rewrite Hj, Es, IH.
Qed.

Lemma abs_inv t kids A : inv t kids A -> abs t = A.
Proof.
  intros I. apply map_eq. intros x. unfold abs. rewrite map_lookup_imap. pose proof (s_dom _ _ _ (i_shape _ _ _ _ I) x) as D.
  destruct (nodes t !! x) as [n|] eqn:Hn; cbn.
  - destruct (proj2 D) as [a Ha]; [eauto|]. rewrite Ha. f_equal. rewrite (jobs_of_ok t x n (a_jobs a)) by (by apply (j_info _ _ _ (i_jobs _ _ _ _ I))).
    destruct (s_chain _ _ _ (i_shape _ _ _ _ I) x a Ha) as (l & E & U). rewrite (follow_path parent _ _ (x :: l)); [|done|apply path_length in U; lia].
    rewrite <- E. by destruct a.
  - destruct (A !! x) eqn:Ha; [|done]. destruct (proj1 D); [eauto|done].
Qed.

(** ** Operations in any order *)

Inductive op :=
| NewJob (j : jobRec)
| NewArray (j : jobRec) (l : list idxList)
| Change (id newStatus : Z)
| Requeue (id : Z) (psusp : bool)
| Remove (id : Z)
| Rename (id : Z).

(** The record that has an identifier. *)
Definition with_id (t : jtree) (id : Z) (f : Z -> res jtree) : res jtree := match ids t !! id with Some r => f r | None => Ok t end.

Definition run (t : jtree) (o : op) : res jtree :=
  match o with
  | NewJob j => newJobOnTree (alloc j t) (fresh t)
  | NewArray j l => handleNewJobArray (alloc j t) (fresh t) l
  | Change id s => with_id t id (fun r => changeState t r s)
  | Requeue id psusp => with_id t id (fun r => requeueOnTree t r psusp)
  | Remove id => removeJob t id
  | Rename id => with_id t id (renameJob t)
  end.

(** New identifiers are positive and not in use, states are not zero; an array has
    an element; only jobs change their states; an element has an index. *)
Definition unused (t : jtree) (id : Z) : bool := match ids t !! id with Some _ => false | None => true end.
Definition new_ok (t : jtree) (j : jobRec) : bool := (0 <? jobId (core j)) && unused t (jobId (core j)) && negb (jStatus (core j) =? JOB_STAT_NULL).
Definition array_ok (t : jtree) (j : jobRec) (l : list idxList) : bool :=
  let id i := LSB_JOBID (jobId (core j)) i in
  match all_values l with
  | Some js => (Z.of_nat (length js) <? 2 ^ 31) && forallb (fun i => 0 <? id i) js && existsb (fun i => unused t (id i) && negb (id i =? jobId (core j))) js
  | None => false
  end.
Definition is_job (t : jtree) (id : Z) : bool :=
  match ids t !! id with Some r => match recs t !! r with Some j => negb (is_array (nodeType (core j))) | None => false end | None => true end.
Definition rename_ok (t : jtree) (id : Z) : bool :=
  match ids t !! id with
  | Some r =>
      match recs t !! r with
      | Some j =>
          is_array (nodeType (core j)) || negb (LSB_ARRAY_IDX (jobId (core j)) =? 0)
          || match jgrpNode j with Some x => match nodes t !! x with Some n => is_jobinfo (ndInfo n) | None => false end | None => false end
      | None => false
      end
  | None => true
  end.

Definition allowed (t : jtree) (o : op) : bool :=
  match o with
  | NewJob j => new_ok t j
  | NewArray j l => new_ok t j && array_ok t j l
  | Change id s => is_job t id && negb (MASK_STATUS s =? 0)
  | Requeue id _ => is_job t id
  | Remove _ => true
  | Rename id => rename_ok t id
  end.

Lemma with_id_job t kids A id f : inv t kids A -> is_job t id = true ->
  (forall r x a s, A !! x = Some a -> (r, s) ∈ a_jobs a -> exists t' A', f r = Ok t' /\ inv t' kids A') ->
  exists t' kids' A', with_id t id f = Ok t' /\ inv t' kids' A'.
Proof.
  intros I J H. unfold with_id. unfold is_job in J. destruct (ids t !! id) as [r|] eqn:Hid; [|eauto].
  destruct (j_ids _ _ _ (i_jobs _ _ _ _ I) id r Hid) as (_ & [Pl|[]] & j & Hj & _). rewrite Hj in J.
  destruct (placed_member t A r j (i_jobs _ _ _ _ I) Pl Hj) as (x & n & a & _ & Ha & _ & Hin & _); [intros E; by rewrite E in J|].
  destruct (H r x a _ Ha Hin) as (t' & A' & E & I'). eauto.
Qed.

Lemma with_id_rename t kids A id : inv t kids A -> rename_ok t id = true -> exists t' kids' A', with_id t id (renameJob t) = Ok t' /\ inv t' kids' A'.
Proof.
  intros I Ok. unfold with_id. unfold rename_ok in Ok. destruct (ids t !! id) as [r|] eqn:Hid; [|eauto].
  destruct (j_ids _ _ _ (i_jobs _ _ _ _ I) id r Hid) as (_ & [(j & x & n & a & Hj & Nj & Hn & Ha & Hh)|[]] & _). rewrite Hj, Nj, Hn in Ok.
  apply (renameJob_ok t kids A x n a r j); try done. destruct (Z.eqb_spec (LSB_ARRAY_IDX (jobId (core j))) 0) as [E|]; [left|by right].
  pose proof (j_info _ _ _ (i_jobs _ _ _ _ I) x n a Hn Ha) as If. destruct (ndInfo n) as [o|b|b o]; cbn in If.
  - destruct If as (r0 & s & -> & Ejs & _). destruct Hh as [Hh|[b Hb]]; [|done]. rewrite Ejs in Hh. apply list_elem_of_singleton in Hh. cbn in Hh. subst. by left.
  - rewrite If in Hh. destruct Hh as [Hh|[? ?]]; [cbn in Hh; set_solver|done].
  - destruct Hh as [Hh|[b0 [= -> ->]]]; [|right; eauto]. exfalso. destruct If as (a0 & ja & _ & _ & _ & _ & _ & _ & _ & F & _).
    apply list_elem_of_fmap in Hh as (p & -> & Hp). rewrite Forall_forall in F. destruct (F p Hp) as (j0 & Hj0 & _ & _ & _ & Ty & _). simplify_eq. by rewrite Ty in Ok.
Qed.

Lemma run_ok t kids A o : inv t kids A -> allowed t o = true -> exists t' kids' A', run t o = Ok t' /\ inv t' kids' A'.
Proof.
  intros I. assert (New : forall j, new_ok t j = true -> 0 < jobId (core j) /\ ids t !! jobId (core j) = None /\ jStatus (core j) <> JOB_STAT_NULL).
  { intros j. unfold new_ok, unused. rewrite !andb_true_iff, negb_true_iff, Z.eqb_neq, Z.ltb_lt. destruct (ids t !! _); naive_solver. }
  destruct o as [j|j l|id s|id psusp|id|id]; cbn [allowed run].
  - intros (P & Q & S)%New. by apply (newJobOnTree_ok t kids A j).
  - intros [(P & Q & S)%New Ok]%andb_true_iff. unfold array_ok in Ok. destruct (all_values l) as [js|] eqn:El; [|done].
    apply andb_true_iff in Ok as [Ok Ex]. apply andb_true_iff in Ok as [Len Pj]. apply (handleNewJobArray_ok t kids A j l js); try done.
    + by apply Z.ltb_lt.
    + intros i Hi. rewrite forallb_forall in Pj. apply Z.ltb_lt, Pj. by apply list_elem_of_In.
    + apply existsb_exists in Ex as (i & Hi & Ei). apply andb_true_iff in Ei as [E1 E2]. exists i. split; [by apply list_elem_of_In|].
      unfold unused in E1. destruct (ids t !! LSB_JOBID (jobId (core j)) i) eqn:Eq; [done|]. split; [done|]. by apply Z.eqb_neq, negb_true_iff.
  - intros [J M]%andb_true_iff. apply negb_true_iff, Z.eqb_neq in M. apply (with_id_job t kids A); [done|done|]. intros r x a s0 Ha Hr. by apply (changeState_ok t kids A x a r s0).
  - intros J. apply (with_id_job t kids A); [done|done|]. intros r x a s0 Ha Hr. by apply (requeueOnTree_ok t kids A x a r s0).
  - intros _. destruct (removeJob_ok t kids A id I) as (t' & kids' & A' & E & I' & _). eauto.
  - intros Ok. by apply (with_id_rename t kids A).
Qed.

(** Operations and walks from the start of the daemon, in any order. *)
Section Reach.
Context `{TW : TimeWindows}.

Inductive reach : jtree -> Prop :=
| reach_init : reach treeInit
| reach_op t o t' : reach t -> allowed t o = true -> run t o = Ok t' -> reach t'
| reach_walk t env late conds st' : reach t -> conds_ok t conds -> checkJgrpDep env late (t, conds) = Ok st' -> reach (fst st').

Lemma reach_inv t : reach t -> exists kids A, inv t kids A.
Proof.
  induction 1 as [|t o t' _ (kids & A & I) Ok E|t env late conds st' _ (kids & A & I) C E].
  - apply treeInit_ok.
  - destruct (run_ok t kids A o I Ok) as (t1 & kids1 & A1 & E1 & I1). rewrite E in E1. injection E1 as <-. eauto.
  - destruct (tour_exists t kids A I) as [order T]. destruct (checkJgrpDep_ok env late t kids A conds order I C T) as (pre & l1 & l2 & t1 & c1 & _ & _ & _ & E1 & I1 & _).
    rewrite E in E1. injection E1 as ->. eauto.
Qed.

(** ** The tree between operations *)

(** The submissions that hang: the identifier belongs to an array. *)
Definition array_id (t : jtree) (o : op) : bool :=
  match o with
  | NewJob j | NewArray j _ =>
      match ids t !! jobId (core j) with Some r => match recs t !! r with Some ja => is_array (nodeType (core ja)) | None => false end | None => false end
  | _ => false
  end.

(** The arrays without a new element. *)
Definition nothing_new (t : jtree) (o : op) : bool :=
  match o with
  | NewArray j l =>
      let id i := LSB_JOBID (jobId (core j)) i in
      new_ok t j && match all_values l with
                    | Some js => forallb (fun i => (0 <? id i) && (negb (unused t (id i)) || (id i =? jobId (core j)))) js
                    | None => false
                    end
  | _ => false
  end.

Lemma run_hangs t kids A o : inv t kids A -> array_id t o = true -> run t o = OutOfFuel.
Proof.
  intros I H. assert (K : forall j, match ids t !! jobId (core j) with Some r => match recs t !! r with Some ja => is_array (nodeType (core ja)) | None => false end | None => false end = true ->
    addJobIdHT (alloc j t) (fresh t) = OutOfFuel).
  { intros j. destruct (ids t !! _) as [r|] eqn:Hid; [|done]. destruct (recs t !! r) as [ja|] eqn:Hr; [|done]. intros Ty.
    apply (array_id_hangs t kids A j r ja); try done. by destruct (nodeType (core ja)). }
  destruct o as [j|j l| | | |]; try done; cbn in H; cbn [run]; [unfold newJobOnTree|unfold handleNewJobArray]; by rewrite (K j H).
Qed.

Lemma run_faults t kids A o : inv t kids A -> nothing_new t o = true -> run t o = Fault.
Proof.
  intros I H. destruct o as [|j l| | | |]; try done. cbn in H. apply andb_true_iff in H as [N H]. destruct (all_values l) as [js|] eqn:El; [|done]. rewrite forallb_forall in H.
  unfold new_ok in N. rewrite !andb_true_iff, negb_true_iff, Z.eqb_neq, Z.ltb_lt in N. destruct N as [[Pos U] Hs]. unfold unused in U. destruct (ids t !! jobId (core j)) eqn:Hid; [done|].
  cbn [run]. apply (handleNewJobArray_faults t kids A j l js); try done; intros i Hi; apply list_elem_of_In, H, andb_true_iff in Hi as [P Q]; [by apply Z.ltb_lt|].
  apply orb_true_iff in Q as [Q|Q]; [left|right; by apply Z.eqb_eq]. unfold unused in Q. destruct (ids t !! LSB_JOBID (jobId (core j)) i); [by eexists|done].
Qed.

(** A record that is removed: no identifier, no node of a job and no row of an array leads to it. *)
Definition forgotten (t : jtree) (r : Z) : Prop :=
  (forall id, ids t !! id <> Some r) /\ forall x n, nodes t !! x = Some n -> r ∉ (jobs_of t n).*1.

Lemma gone_forgotten t kids A r : inv t kids A -> gone t A r -> forgotten t r.
Proof.
  intros I [G1 G2]. split; [done|]. intros x n Hn. destruct (proj2 (s_dom _ _ _ (i_shape _ _ _ _ I) x)) as [a Ha]; [eauto|].
  rewrite (jobs_of_ok t x n (a_jobs a)); [by apply (G1 x)|]. by apply (j_info _ _ _ (i_jobs _ _ _ _ I)).
Qed.

(** C17: From the start of the daemon, whatever jobs and arrays are submitted, started,
    suspended, finished, requeued, renamed or removed, and however often the walk
    over the conditions runs between, no operation that is [allowed] follows a
    dangling pointer to a node or loops for ever, and the tree it leaves is again
    one that the operations can use.  [allowed] says that new identifiers are
    positive and not in use, new states and changed states not zero, that an array
    has an element that is new, and that arrays themselves neither change their
    states nor are requeued.  Two of the operations that are not allowed go wrong
    in every tree: with the identifier of an array [addJobIdHT] does not end, and
    an array without a new element is read through NULL.  The records of jobs stay
    in the model when they are freed (the code keeps them while a condition refers
    to them); after a removal no identifier, no node and no row of an array leads to the
    record of the job. *)
Theorem job_tree_runs t o : reach t ->
  (allowed t o = true -> exists t', run t o = Ok t' /\ reach t')
  /\ (array_id t o = true -> run t o = OutOfFuel)
  /\ (nothing_new t o = true -> run t o = Fault)
  /\ (forall id r j t', o = Remove id -> ids t !! id = Some r -> recs t !! r = Some j -> is_array (nodeType (core j)) = false ->
       run t o = Ok t' -> forgotten t' r).
Proof.
  intros R. destruct (reach_inv t R) as (kids & A & I). split_and!.
  - intros Ok. destruct (run_ok t kids A o I Ok) as (t' & _ & _ & E & _). exists t'. split; [done|]. by eapply reach_op.
  - by apply (run_hangs t kids A).
  - by apply (run_faults t kids A).
  - intros id r j t' -> Hid Hr Ty E. destruct (removeJob_ok t kids A id I) as (t1 & kids1 & A1 & E1 & I1 & G). cbn [run] in E. rewrite E in E1. injection E1 as <-.
    apply (gone_forgotten t' kids1 A1); [done|]. by apply (G r j).
Qed.

(** C16: In every tree that the operations reach, each called as [allowed] says, the
    counts of every group and array are the numbers of jobs in the nodes at or
    below it, by state, as one gets them by going through the jobs themselves;
    they are exact up to the width of [int]. *)
Theorem jgrp_counts_exact t p n b : reach t -> nodes t !! p = Some n -> base_of (ndInfo n) = Some b ->
  exists a, bases t !! b = Some a /\ status a <> JGRP_VOID /\ forall k, (k < NUM_JGRP_COUNTERS)%nat -> nth k (counts a) 0 = wrap32 (tally t p k).
Proof.
  intros R Hn Hb. destruct (reach_inv t R) as (kids & A & I). destruct (exact_base t A p n b) as (-> & a & Ha & V & _ & C); try done; [apply I|apply I|].
  exists a. unfold tally. rewrite (abs_inv t kids A I). done.
Qed.

(** C32: Every identifier leads to a record of the tree: a record that carries it and
    belongs to a node below the root, as the job of the node, as the array or as
    one of its elements; and the walk over the conditions stands at a node. *)
Theorem jobs_on_tree t id r : reach t -> ids t !! id = Some r ->
  is_Some (nodes t !! position t) /\
  exists j x n, recs t !! r = Some j /\ jobId (core j) = id /\ jgrpNode j = Some x /\ nodes t !! x = Some n
    /\ groupRoot t ∈ follow parent (walk_fuel (nodes t)) (nodes t) (Some x)
    /\ (ndInfo n = ArrayInfo x (Some r) \/ (r, jStatus (core j)) ∈ jobs_of t n).
Proof.
  intros R Hid. destruct (reach_inv t R) as (kids & A & I). split; [by apply (position_node t kids A)|].
  destruct (j_ids _ _ _ (i_jobs _ _ _ _ I) id r Hid) as (_ & [Pl|[]] & j & Hj & Ej). pose proof Pl as (j0 & x & n & a & Hj0 & Nj & Hn & Ha & Hh). simplify_eq.
  exists j, x, n. split_and!; try done.
  - destruct (s_chain _ _ _ (i_shape _ _ _ _ I) x a Ha) as (l & E & U). rewrite (follow_path parent _ _ (x :: l)); [|done|apply path_length in U; lia].
    rewrite <- E. by apply (i_attached _ _ _ _ I x).
  - pose proof (j_info _ _ _ (i_jobs _ _ _ _ I) x n a Hn Ha) as If. rewrite (jobs_of_ok t x n (a_jobs a) If). destruct Hh as [Hh|[b Hb]].
    + right. apply list_elem_of_fmap in Hh as ([r0 s] & -> & Hin). destruct (member_rec _ t A x n a r0 s (i_jobs _ _ _ _ I) Hn Ha Hin) as (j1 & Hj1 & Es & _).
      cbn in *. simplify_eq. done.
    + left. rewrite Hb. f_equal. eapply (s_base _ _ _ (i_shape _ _ _ _ I) x n); [done|]. by rewrite Hb.
Qed.

(** ** The walk *)

(** The nodes have an order, from the root with [treeLexNext], in which each comes
    once.  A call of [checkJgrpDep] checks at least one node: those that follow each
    other in this order from the position where the last call stopped; then it
    stores the position behind them, or the root.  Conditions do not make it fail. *)
Theorem walk_follows_tree env late t conds : reach t -> conds_ok t conds ->
  exists order pre l1 l2 t1 conds' it, tour t order /\ order = pre ++ l1 ++ l2 /\ head l1 = Some (position t)
    /\ check_nodes env (set_entry (Some (position t)) t, conds) 0 l1 = Ok ((t1, conds'), it)
    /\ checkJgrpDep env late (t, conds) = Ok (set_entry (Some (default (groupRoot t) (head l2))) t1, conds').
Proof.
  intros R C. destruct (reach_inv t R) as (kids & A & I). destruct (tour_exists t kids A I) as [order T].
  destruct (checkJgrpDep_ok env late t kids A conds order I C T) as (pre & l1 & l2 & t1 & c1 & Eo & Hl & (it & En) & E1 & _).
  exists order, pre, l1, l2, t1, c1, it. done.
Qed.

(** C18: Whatever the clock does, enough calls of [checkJgrpDep] with no other
    operation between them check every job: afterwards each pending job has
    [JFLAG_READY1], and [JFLAG_READY2] too when it has no condition and is not
    waiting to be switched.  The conditions of the jobs are there and name records
    that exist ([conds_ok]). *)
Theorem every_job_checked cs t conds : reach t -> conds_ok t conds -> (2 * size (nodes t) <= length cs)%nat ->
  exists t' conds', calls cs (t, conds) = Ok (t', conds') /\
    forall id r j, ids t !! id = Some r -> recs t !! r = Some j -> nodeType (core j) = JGRP_NODE_JOB ->
      exists j', recs t' !! r = Some j' /\ same_job j j' /\ checked j'.
Proof.
  intros R C L. destruct (reach_inv t R) as (kids & A & I). destruct (tour_exists t kids A I) as [order T]. pose proof T as (W & N & D).
  destruct (list_elem_of_split order (position t)) as (pre & suf & Eo); [apply D; by apply (position_node t kids A)|].
  assert (Lo : (length order <= size (nodes t))%nat) by (apply nodup_size; [done|]; intros x; apply D).
  destruct (calls_ok kids A order cs t conds pre (position t :: suf) I C T Eo eq_refl) as (t' & c' & V & E & _ & _ & Dn & Sm & _ & _ & P).
  exists t', c'. split; [done|]. intros id r j Hid Hj Ty. destruct (Sm r j Hj) as (j' & Hj' & S). exists j'. split_and!; [done|done|]. apply (Dn r j' Hj'). left.
  destruct (j_ids _ _ _ (i_jobs _ _ _ _ I) id r Hid) as (_ & [Pl|[]] & _).
  destruct (placed_member t A r j (i_jobs _ _ _ _ I) Pl Hj) as (x & n & a & Hn & Ha & _ & Hin & _); [congruence|].
  apply list_elem_of_In, in_concat. exists (node_jobs A x). split.
  - apply in_map, list_elem_of_In. destruct P as [V' ->]; [rewrite Eo in Lo |- *; rewrite length_app in *; cbn in *; lia|].
    assert (x ∈ order) by (apply D; eauto). set_solver.
  - apply list_elem_of_In. unfold node_jobs. rewrite Ha. apply list_elem_of_fmap. by exists (r, jStatus (core j)).
Qed.

(** ** Conditions on the numbers of elements *)

(** What each kind of condition counts. *)
Definition counts_in (type : dptType) (s : Z) : bool :=
  let i := getIndexOfJStatus s in
  match type with
  | DPT_NUMPEND => i =? JGRP_COUNT_PEND
  | DPT_NUMRUN => i =? JGRP_COUNT_NRUN
  | DPT_NUMHOLD => i =? JGRP_COUNT_NPSUSP
  | DPT_NUMEXIT => i =? JGRP_COUNT_NEXIT
  | DPT_NUMDONE => i =? JGRP_COUNT_NDONE
  | DPT_NUMSTART => negb ((i =? JGRP_COUNT_PEND) || (i =? JGRP_COUNT_NPSUSP))
  | DPT_NUMENDED => (i =? JGRP_COUNT_NEXIT) || (i =? JGRP_COUNT_NDONE)
  | _ => false
  end%nat.

Definition number (type : dptType) (js : list (Z * Z)) : Z := Z.of_nat (length (List.filter (fun p => counts_in type p.2) js)).

Lemma number_cons type p js : number type (p :: js) = (if counts_in type p.2 then 1 else 0) + number type js.
Proof. unfold number. cbn [List.filter]. destruct (counts_in type p.2); cbn [length]; lia. Qed.

(** The sums that [getCounterOfDep] forms. *)
Definition sum_of (type : dptType) (js : list (Z * Z)) : Z :=
  match type with
  | DPT_NUMPEND => own JGRP_COUNT_PEND js
  | DPT_NUMRUN => own JGRP_COUNT_NRUN js
  | DPT_NUMHOLD => own JGRP_COUNT_NPSUSP js
  | DPT_NUMEXIT => own JGRP_COUNT_NEXIT js
  | DPT_NUMDONE => own JGRP_COUNT_NDONE js
  | DPT_NUMSTART => own JGRP_COUNT_NJOBS js - own JGRP_COUNT_PEND js - own JGRP_COUNT_NPSUSP js
  | DPT_NUMENDED => own JGRP_COUNT_NEXIT js + own JGRP_COUNT_NDONE js
  | _ => 0
  end.

Lemma hit_self s (k : nat) : (0 < k)%nat -> hit k s = if (getIndexOfJStatus s =? k)%nat then 1 else 0.
Proof. intros Hk. unfold hit. rewrite (Nat.eqb_sym k (getIndexOfJStatus s)). by destruct k; [lia|]. Qed.

Lemma sum_of_number type js : sum_of type js = number type js.
Proof.
  induction js as [|p js IH]; [by destruct type|]. rewrite number_cons, <- IH. unfold sum_of, counts_in.
  destruct type; rewrite ?own_cons; try change (hit JGRP_COUNT_NJOBS p.2) with 1; rewrite ?hit_self by (unfold JGRP_COUNT_PEND, JGRP_COUNT_NRUN, JGRP_COUNT_NPSUSP, JGRP_COUNT_NEXIT, JGRP_COUNT_NDONE; lia); try lia.
  all: unfold JGRP_COUNT_PEND, JGRP_COUNT_NPSUSP, JGRP_COUNT_NEXIT, JGRP_COUNT_NDONE.
  all: match goal with |- context [(?i =? ?x)%nat || (?i =? ?y)%nat] => destruct (Nat.eqb_spec i x), (Nat.eqb_spec i y) end; cbn [orb negb]; lia.
Qed.

Lemma own_bound k js : 0 <= own k js <= Z.of_nat (length js).
Proof. induction js as [|p js IH]; [done|]. rewrite own_cons, length_cons. unfold hit. case_match; lia. Qed.

Lemma number_bound type js : 0 <= number type js <= Z.of_nat (length js).
Proof. unfold number. pose proof (List.filter_length_le (fun p => counts_in type p.2) js). lia. Qed.

Lemma getCounter_own type c js : (forall k, (k < 8)%nat -> nth k c 0 = own k js) -> Z.of_nat (length js) < 2 ^ 31 -> getCounterOfDep type c = number type js.
Proof.
  intros C L. pose proof (number_bound type js) as B. rewrite <- sum_of_number in B |- *. unfold getCounterOfDep, sum_of in *.
  pose proof (own_bound JGRP_COUNT_NJOBS js). pose proof (own_bound JGRP_COUNT_PEND js).
  destruct type; rewrite ?C by (unfold JGRP_COUNT_NJOBS, JGRP_COUNT_PEND, JGRP_COUNT_NRUN, JGRP_COUNT_NPSUSP, JGRP_COUNT_NEXIT, JGRP_COUNT_NDONE; lia); try done.
  all: try rewrite (wrap32_id (own JGRP_COUNT_NJOBS js - _)) by (unfold int32; lia).
  all: apply wrap32_id; unfold int32; lia.
Qed.

(** A condition such as [numdone(array, >= 3)] compares the number of elements
    that are in this state, counted one by one, with the operand; [*] stands for
    the number of all elements. *)
Theorem num_condition_exact env t x n arr type v op num dj : reach t -> nodes t !! x = Some n -> ndInfo n = ArrayInfo x (Some arr) ->
  let js := jobs_of t n in
  let all := Z.of_nat (length js) in
  let operand := if num =? INFINIT_INT then (if all =? 0 then INFINIT_INT else all) else num in
  let w := if opExpr op (number type js) operand then DP_TRUE else DP_FALSE in
  evalDepCond (dep_view env t) (Jgrp type v op num (Some x)) dj = Ok (w, Jgrp type w op num (Some x)).
Proof.
  intros R Hn Hi js all operand w. destruct (reach_inv t R) as (kids & A & I). destruct (proj2 (s_dom _ _ _ (i_shape _ _ _ _ I) x)) as [a Ha]; [eauto|].
  destruct (leaf_facts _ t kids A x n a I Hn Ha) as (p & lp & k1 & k2 & Kx & _); [by rewrite Hi|].
  pose proof (j_info _ _ _ (i_jobs _ _ _ _ I) x n a Hn Ha) as If. assert (Ej : js = a_jobs a) by (by apply (jobs_of_ok t x)).
  destruct (s_exact _ _ _ (i_shape _ _ _ _ I) x n Hn) as (ab & Hab & V & _ & C); [unfold based; by rewrite Hi|].
  rewrite Hi in If. destruct If as (? & ? & _ & _ & _ & _ & _ & _ & _ & _ & Len). rewrite <- Ej in Len.
  assert (Co : forall k, (k < 8)%nat -> nth k (counts ab) 0 = own k js).
  { intros k Hk. rewrite C, (total_leaf t kids A x a k (i_shape _ _ _ _ I) Ha Kx), <- Ej by done. apply wrap32_id. pose proof (own_bound k js). unfold int32. lia. }
  cbn [evalDepCond arrays dep_view]. rewrite Hab, (proj2 (Z.eqb_neq _ _) V), (getCounter_own type _ js Co Len).
  unfold JGRP_COUNT_NJOBS. rewrite (Co 0%nat) by lia. rewrite own_zero. fold all.
  replace (all <=? 0) with (all =? 0) by (unfold all; destruct (Z.eqb_spec (Z.of_nat (length js)) 0), (Z.leb_spec (Z.of_nat (length js)) 0); lia || done). done.
Qed.
End Reach.

(** ** A small tree *)

Section Sample.
#[local] Instance sample_windows : TimeWindows := mbd_windows (fun _ => (O, 0, 0)).

Fixpoint run_all (t : jtree) (os : list op) : option jtree :=
  match os with
  | [] => Some t
  | o :: os' => if allowed t o then match run t o with Ok t' => run_all t' os' | _ => None end else None
  end.

Lemma run_all_reach os : forall t t', reach t -> run_all t os = Some t' -> reach t'.
Proof.
  induction os as [|o os IH]; intros t t' R E; cbn in E; [by simplify_eq|]. destruct (allowed t o) eqn:Ok; [|done].
  destruct (run t o) as [t1| | |] eqn:E1; try done. apply (IH t1); [|done]. by eapply reach_op.
Qed.

Definition sample_rec (id : Z) (cond : option Z) : jobRec :=
  mkRec (mkJob id JOB_STAT_PEND 0 0 0 0 JGRP_NODE_JOB None [] [] 0 None) 0 None cond 0 0 [].

(** A job, an array with elements 1, 2 and 3, a job that waits for the array; the
    first element runs and ends, the second is removed, the job is renamed. *)
Definition sample_ops : list op :=
  [NewJob (sample_rec 5 None); NewArray (sample_rec 7 None) [mkIdx 1 3 1]; NewJob (sample_rec 9 (Some 1));
   Change (LSB_JOBID 7 1) JOB_STAT_RUN; Change (LSB_JOBID 7 1) JOB_STAT_DONE; Remove (LSB_JOBID 7 2); Rename 5].

Definition sample_tree : jtree := default treeInit (run_all treeInit sample_ops).
Definition sample_env : mbd := mkMbd (mkConfig 1000 false false) ∅ ∅ ∅ [] [] 1700000000.
Definition sample_array : Z := 5.
Definition sample_conds : gmap Z dptNode := {[1 := Jgrp DPT_NUMDONE DP_FALSE DPT_GE 1 (Some sample_array)]}.

Lemma sample_reach : reach sample_tree.
Proof. apply (run_all_reach sample_ops treeInit); [constructor|]. vm_compute. reflexivity. Qed.

Lemma sample_conds_ok : conds_ok sample_tree sample_conds.
Proof.
  destruct (reach_inv _ sample_reach) as (kids & A & I). split.
  - intros id r Hr. destruct (j_ids _ _ _ (i_jobs _ _ _ _ I) id r Hr) as (_ & _ & j & Hj & _). eauto.
  - assert (F : map_Forall (fun (_ : Z) j => dptRoot j = None \/ dptRoot j = Some 1) (recs sample_tree)) by (apply (bool_decide_unpack _); vm_compute; exact Logic.I).
    intros r j d Hj Hd. destruct (F r j Hj) as [E|E]; [congruence|]. assert (d = 1) as -> by congruence. eexists. split; [reflexivity|].
    intros x [= <-]. vm_compute. eauto.
Qed.

Lemma job_tree_runs_witness : allowed sample_tree (Remove (LSB_JOBID 7 3)) = true /\ exists t', run sample_tree (Remove (LSB_JOBID 7 3)) = Ok t' /\ reach t'.
Proof. split; [reflexivity|]. apply (job_tree_runs sample_tree); [apply sample_reach|reflexivity]. Defined.

Lemma jgrp_counts_exact_witness : tally sample_tree 1 JGRP_COUNT_PEND = 3 /\ tally sample_tree 1 JGRP_COUNT_NDONE = 1 /\
  exists a, bases sample_tree !! 1 = Some a /\ status a <> JGRP_VOID
    /\ forall k, (k < NUM_JGRP_COUNTERS)%nat -> nth k (counts a) 0 = wrap32 (tally sample_tree 1 k).
Proof.
  split; [vm_compute; reflexivity|]. split; [vm_compute; reflexivity|].
  eapply (jgrp_counts_exact sample_tree 1); [apply sample_reach|vm_compute; reflexivity|reflexivity].
Defined.

Lemma jobs_on_tree_witness : is_Some (nodes sample_tree !! position sample_tree) /\
  exists j x n, recs sample_tree !! 6 = Some j /\ jobId (core j) = LSB_JOBID 7 1 /\ jgrpNode j = Some x /\ nodes sample_tree !! x = Some n
    /\ groupRoot sample_tree ∈ follow parent (walk_fuel (nodes sample_tree)) (nodes sample_tree) (Some x)
    /\ (ndInfo n = ArrayInfo x (Some 6) \/ (6, jStatus (core j)) ∈ jobs_of sample_tree n).
Proof. apply (jobs_on_tree sample_tree (LSB_JOBID 7 1) 6); [apply sample_reach|vm_compute; reflexivity]. Defined.

Lemma walk_follows_tree_witness : exists order pre l1 l2 t1 conds' it, tour sample_tree order /\ order = pre ++ l1 ++ l2
  /\ head l1 = Some (position sample_tree)
  /\ check_nodes sample_env (set_entry (Some (position sample_tree)) sample_tree, sample_conds) 0 l1 = Ok ((t1, conds'), it)
  /\ checkJgrpDep sample_env (fun _ => true) (sample_tree, sample_conds)
     = Ok (set_entry (Some (default (groupRoot sample_tree) (head l2))) t1, conds').
Proof. apply (walk_follows_tree sample_env (fun _ => true) sample_tree sample_conds); [apply sample_reach|apply sample_conds_ok]. Defined.

Lemma every_job_checked_witness : exists t' conds', calls (repeat (sample_env, fun _ => true) 8) (sample_tree, sample_conds) = Ok (t', conds') /\
  forall id r j, ids sample_tree !! id = Some r -> recs sample_tree !! r = Some j -> nodeType (core j) = JGRP_NODE_JOB ->
    exists j', recs t' !! r = Some j' /\ same_job j j' /\ checked j'.
Proof.
  apply (every_job_checked (repeat (sample_env, fun _ => true) 8) sample_tree sample_conds); [apply sample_reach|apply sample_conds_ok|].
  vm_compute. lia.
Defined.

Lemma num_condition_exact_witness : evalDepCond (dep_view sample_env sample_tree) (Jgrp DPT_NUMDONE DP_FALSE DPT_GE 1 (Some 5)) None
  = Ok (DP_TRUE, Jgrp DPT_NUMDONE DP_TRUE DPT_GE 1 (Some 5)).
Proof.
  etransitivity; [apply (num_condition_exact sample_env sample_tree 5 (mkNode (Some 1) None None (Some 10) [] (ArrayInfo 5 (Some 4))) 4)|].
  - apply sample_reach.
  - vm_compute. reflexivity.
  - reflexivity.
  - replace (number DPT_NUMDONE _) with 1 by (vm_compute; reflexivity). reflexivity.
Defined.
End Sample.
