(* ===== verification/Xdr.v ===== *)
(** * XDR streams

    The daemons and the library exchange messages in the XDR format.  One C function
    serves both directions: with [XDR_ENCODE] it writes its argument to a memory
    buffer, with [XDR_DECODE] it reads the argument from the buffer.  This file has
    the streams of [xdrmem_create] with the primitives of the C library that the
    sources call ([xdr_int], [xdr_string], [xdr_bytes] and others), and what it
    means that a function carries a value over a stream.

    A primitive takes the value that its pointer points to and returns the value
    after the call.  A function returns [Refused] for FALSE, with the stream at the
    place of the failure, and [Fault] for an access outside an object.  Floating
    point numbers are their bit patterns.  [XDR_FREE], which only gives memory
    back, is left out. *)
From stdpp Require Import base list.
From Stdlib Require Import ZArith Ascii Lia.
From S2P Require Import Prelude JobId.
Local Open Scope Z_scope.

(** ** Streams *)

Inductive xdr_op := XDR_ENCODE | XDR_DECODE.

Record XDR := mkXDR { x_op : xdr_op; x_buf : cstr; x_pos : nat }.

Inductive outcome (A : Type) :=
  | Done (v : A) (x : XDR)
  | Refused (x : XDR)
  | Fault.
Arguments Done {_} _ _. Arguments Refused {_} _. Arguments Fault {_}.

Definition xdr (A : Type) := XDR -> outcome A.

#[global] Instance xdr_ret : MRet xdr := fun _ v x => Done v x.
#[global] Instance xdr_bind : MBind xdr := fun _ _ f m x =>
  match m x with
  | Done v x' => f v x'
  | Refused x' => Refused x'
  | Fault => Fault
  end.

Definition refuse {A} : xdr A := Refused.
Definition fault {A} : xdr A := fun _ => Fault.
Definition xdrmem_create (buf : cstr) (op : xdr_op) : XDR := mkXDR op buf 0.
Definition room (x : XDR) : Z := Z.of_nat (length (x_buf x)) - Z.of_nat (x_pos x).

Definition XDR_GETPOS : xdr Z := fun x => Done (Z.of_nat (x_pos x)) x.

(** The sources ignore the result of [XDR_SETPOS]: a position outside the buffer
    leaves the stream where it is. *)
Definition XDR_SETPOS (p : Z) : xdr unit := fun x =>
  if (0 <=? p) && (p <=? Z.of_nat (length (x_buf x)))
  then Done tt (mkXDR (x_op x) (x_buf x) (Z.to_nat p)) else Done tt x.

(** What a function does in one direction only. *)
Definition by_op {A} (enc dec : xdr A) : xdr A := fun x =>
  match x_op x with XDR_ENCODE => enc x | XDR_DECODE => dec x end.

Definition putbytes (bs : cstr) : xdr unit := fun x =>
  if room x <? Z.of_nat (length bs) then Refused x
  else Done tt (mkXDR (x_op x)
    (take (x_pos x) (x_buf x) ++ bs ++ drop (x_pos x + length bs) (x_buf x)) (x_pos x + length bs)).

Definition getbytes (n : Z) : xdr cstr := fun x =>
  if room x <? n then Refused x
  else Done (take (Z.to_nat n) (drop (x_pos x) (x_buf x))) (mkXDR (x_op x) (x_buf x) (x_pos x + Z.to_nat n)).

(** ** Words *)

Definition byte_of (z : Z) : ascii := ascii_of_N (Z.to_N (z mod 256)).
Definition of_byte (c : ascii) : Z := Z.of_N (N_of_ascii c).

(** 32 bits in network byte order. *)
Definition be32 (z : Z) : cstr :=
  [byte_of (z / 2 ^ 24); byte_of (z / 2 ^ 16); byte_of (z / 2 ^ 8); byte_of z].
Arguments be32 : simpl never.
Definition of_be (bs : cstr) : Z := fold_left (fun z c => z * 256 + of_byte c) bs 0.

(** A word of the stream: [conv] is the conversion from 32 bits to the type of the
    variable. *)
Definition xdr_word (conv : Z -> Z) (z : Z) : xdr Z :=
  by_op (_ ← putbytes (be32 z); mret z) (bs ← getbytes 4; mret (conv (of_be bs))).

Definition wrap16 (z : Z) : Z := (z + 2 ^ 15) mod 2 ^ 16 - 2 ^ 15.
Definition uwrap16 (z : Z) : Z := z mod 2 ^ 16.

Definition xdr_int : Z -> xdr Z := xdr_word wrap32.
Definition xdr_enum : Z -> xdr Z := xdr_word wrap32.
Definition xdr_u_int : Z -> xdr Z := xdr_word uwrap32.
Definition xdr_short : Z -> xdr Z := xdr_word wrap16.
Definition xdr_u_short : Z -> xdr Z := xdr_word uwrap16.
Definition xdr_float : Z -> xdr Z := xdr_word uwrap32.

Definition xdr_bool (b : Z) : xdr Z :=
  by_op (_ ← xdr_int (if b =? 0 then 0 else 1); mret b)
        (l ← xdr_int 0; mret (if l =? 0 then 0 else 1)).

(** A [long] of 64 bits that does not fit into 32 is not encoded. *)
Definition xdr_long (l : Z) : xdr Z :=
  by_op (if wrap32 l =? l then xdr_int l else refuse) (xdr_int 0).

(** The 64 bits of a [double], the high word first. *)
Definition xdr_double (d : Z) : xdr Z :=
  h ← xdr_u_int (d / 2 ^ 32); l ← xdr_u_int (d mod 2 ^ 32); mret (h * 2 ^ 32 + l).

(** ** Strings and bytes *)

(** The bytes up to the next multiple of four. *)
Definition pad4 (n : Z) : Z := (- n) mod 4.
Definition zeros_of (n : Z) : cstr := repeat NUL (Z.to_nat n).

Definition xdr_opaque (cnt : Z) (cp : cstr) : xdr cstr :=
  by_op (_ ← putbytes cp; _ ← putbytes (zeros_of (pad4 cnt)); mret cp)
        (bs ← getbytes cnt; _ ← getbytes (pad4 cnt); mret bs).

(** A C string ends at the first NUL. *)
Fixpoint until_nul (bs : cstr) : cstr :=
  match bs with
  | [] => []
  | c :: bs' => if Ascii.eqb c NUL then [] else c :: until_nul bs'
  end.

(** [xdr_string(xdrs, &sp, maxsize)]: decoding stores [size + 1] bytes at [sp], where
    the array of the caller has [cap] bytes. *)
Definition xdr_string (cap maxsize : Z) (s : cstr) : xdr cstr :=
  by_op
    (size ← xdr_u_int (Z.of_nat (length s));
     if maxsize <? size then refuse else xdr_opaque size s)
    (size ← xdr_u_int 0;
     if (maxsize <? size) || (size =? 2 ^ 32 - 1) then refuse
     else if cap <? size + 1 then fault
     else bs ← xdr_opaque size []; mret (until_nul bs)).

(** [xdr_bytes(xdrs, &sp, &len, maxsize)] with an array of [cap] bytes. *)
Definition xdr_bytes (cap maxsize len : Z) (data : cstr) : xdr (Z * cstr) :=
  by_op
    (_ ← xdr_u_int len;
     if uwrap32 maxsize <? uwrap32 len then refuse
     else if Z.of_nat (length data) <? uwrap32 len then fault
     else bs ← xdr_opaque (uwrap32 len) (take (Z.to_nat (uwrap32 len)) data); mret (len, data))
    (size ← xdr_u_int 0;
     if uwrap32 maxsize <? size then refuse
     else if cap <? size then fault
     else bs ← xdr_opaque size []; mret (wrap32 size, bs)).

(** ** Arrays *)

(** [for (i = 0; i < n; i++) xdr_elem(xdrs, &v[i])]; of the array only the [n] elements
    that the message has are kept. *)
Fixpoint xdr_elems {A} (p : A -> xdr A) (n : nat) (l : list A) : xdr (list A) :=
  match n, l with
  | O, _ => mret []
  | S _, [] => fault
  | S n', y :: l' => y' ← p y; r ← xdr_elems p n' l'; mret (y' :: r)
  end.

Definition xdr_vector {A} (p : A -> xdr A) (n : Z) (l : list A) : xdr (list A) := xdr_elems p (Z.to_nat n) l.

(** [calloc(n, size)] of an array whose pointer the decoder replaces; a negative
    number is taken for a size that no memory has. *)
Definition calloc {A} (n : Z) (d : A) : xdr (list A) :=
  if n <? 0 then refuse else mret (replicate (Z.to_nat n) d).

(** [if (xdrs->x_op == XDR_DECODE) v = ...] *)
Definition on_decode {A} (m : xdr A) (v : A) : xdr A := by_op (mret v) m.
Definition on_encode {A} (m : xdr A) (v : A) : xdr A := by_op m (mret v).

(** A call whose result is ignored. *)
Definition attempt {A} (m : xdr A) : xdr (option A) := fun x =>
  match m x with
  | Done v x' => Done (Some v) x'
  | Refused x' => Done None x'
  | Fault => Fault
  end.

(** ** Carrying values

    [encodes m v w]: encoding writes the bytes [w] and nothing else, and is refused
    when fewer bytes are left.  [decodes m v w]: decoding the bytes [w] gives [v]
    and stops behind them, and is refused when they are cut short.  The sizes of
    buffers are values of type [int]. *)
Definition fits (buf : cstr) : Prop := Z.of_nat (length buf) < 2 ^ 31.

Definition encodes {A} (m : xdr A) (v : A) (w : cstr) : Prop :=
  (forall a b c, fits (a ++ b ++ c) -> length b = length w ->
     m (mkXDR XDR_ENCODE (a ++ b ++ c) (length a)) = Done v (mkXDR XDR_ENCODE (a ++ w ++ c) (length (a ++ w)))) /\
  (forall a b, fits (a ++ b) -> (length b < length w)%nat -> exists x, m (mkXDR XDR_ENCODE (a ++ b) (length a)) = Refused x).

Definition decodes {A} (m : xdr A) (v : A) (w : cstr) : Prop :=
  (forall a c, fits (a ++ w ++ c) -> m (mkXDR XDR_DECODE (a ++ w ++ c) (length a)) = Done v (mkXDR XDR_DECODE (a ++ w ++ c) (length (a ++ w)))) /\
  (forall a b d, fits (a ++ b) -> w = b ++ d -> d <> [] -> exists x, m (mkXDR XDR_DECODE (a ++ b) (length a)) = Refused x).

(** The encoder [m] and the decoder [n] agree on the bytes [w]. *)
Record codec {A} (m n : xdr A) (v u : A) (w : cstr) : Prop := {
  cod_enc : encodes m v w;
  cod_dec : decodes n u w }.

(** [p] carries [v] over a stream, whatever the target held before. *)
Definition carries {A} (p : A -> xdr A) (v : A) (w : cstr) : Prop := forall v0, codec (p v) (p v0) v v w.
Definition transfers {A} (p : A -> xdr A) (v : A) : Prop := exists w, carries p v w.

Lemma codec_ret {A} (v u : A) : codec (mret v) (mret u) v u [].
Proof.
  split; split; intros.
  - destruct b; [|discriminate]. cbn. by rewrite app_nil_r.
  - cbn in *. lia.
  - cbn. by rewrite app_nil_r.
  - destruct b, d; done.
Qed.

Lemma split_length {A} (b : list A) n m : length b = (n + m)%nat ->
  exists b1 b2, b = b1 ++ b2 /\ length b1 = n /\ length b2 = m.
Proof. intros H. exists (take n b), (drop n b). rewrite take_drop, length_take, length_drop. split_and!; lia || done. Qed.

Lemma length_be32 z : length (be32 z) = 4%nat.
Proof. done. Qed.

(** The lengths of buffers in terms of their parts. *)
Ltac sizes := unfold fits in *; repeat rewrite length_app in *; repeat rewrite length_be32 in *; cbn [length] in *; lia.

Lemma encodes_bind {A B} (m : xdr A) (f : A -> xdr B) v v' w w' :
  encodes m v w -> encodes (f v) v' w' -> encodes (m ≫= f) v' (w ++ w').
Proof.
  intros [H1 H2] [H3 H4]. split.
  - intros a b c F Hb. rewrite length_app in Hb. destruct (split_length b _ _ Hb) as (b1 & b2 & -> & L1 & L2).
    unfold mbind, xdr_bind. rewrite <- (app_assoc b1), H1 by (done || sizes).
    rewrite (app_assoc a w), H3 by (done || sizes). by rewrite <- !app_assoc.
  - intros a b F Hb. unfold mbind, xdr_bind. destruct (decide (length b < length w)%nat) as [L|L].
    + destruct (H2 a b F L) as [x ->]. by eexists.
    + rewrite length_app in Hb. assert (Hs : length b = (length w + (length b - length w))%nat) by lia.
      destruct (split_length b _ _ Hs) as (b1 & b2 & -> & L1 & L2). rewrite H1 by done.
      rewrite (app_assoc a w). apply H4; sizes.
Qed.

Lemma prefix_split {A} (w w' b d : list A) : w ++ w' = b ++ d ->
  (exists e, w = b ++ e /\ e <> []) \/ (exists e, b = w ++ e /\ w' = e ++ d).
Proof.
  revert b. induction w as [|x w IH]; intros b H; cbn in *.
  - right. by exists b.
  - destruct b as [|y b]; cbn in H.
    + left. by exists (x :: w).
    + injection H as <- H. destruct (IH _ H) as [(e & -> & He)|(e & -> & He)]; [left|right]; by exists e.
Qed.

Lemma decodes_bind {A B} (m : xdr A) (f : A -> xdr B) v v' w w' :
  decodes m v w -> decodes (f v) v' w' -> decodes (m ≫= f) v' (w ++ w').
Proof.
  intros [H1 H2] [H3 H4]. split.
  - intros a c F. unfold mbind, xdr_bind. rewrite <- (app_assoc w), H1 by sizes.
    rewrite (app_assoc a w), H3 by sizes. by rewrite <- !app_assoc.
  - intros a b d F E Hd. unfold mbind, xdr_bind. destruct (prefix_split _ _ _ _ E) as [(e & -> & He)|(e & -> & ->)].
    + destruct (H2 a b e) as [x ->]; [done..|]. by eexists.
    + rewrite H1, (app_assoc a w) by done. apply (H4 _ e d); sizes || done.
Qed.

Lemma codec_bind {A B} (m n : xdr A) (f g : A -> xdr B) v u v' u' w w' :
  codec m n v u w -> codec (f v) (g u) v' u' w' -> codec (m ≫= f) (n ≫= g) v' u' (w ++ w').
Proof. intros [] []. split; eauto using encodes_bind, decodes_bind. Qed.

(** A step that writes nothing. *)
Lemma codec_bind_nil {A B} (m n : xdr A) (f g : A -> xdr B) v u v' u' w' :
  codec m n v u [] -> codec (f v) (g u) v' u' w' -> codec (m ≫= f) (n ≫= g) v' u' w'.
Proof. apply (codec_bind m n f g v u v' u' [] w'). Qed.

(** [by_op] takes the side of the direction. *)
Lemma encodes_by_op {A} (m n : xdr A) v w : encodes m v w -> encodes (by_op m n) v w.
Proof. intros [H1 H2]. split; intros; cbn; auto. Qed.

Lemma decodes_by_op {A} (m n : xdr A) v w : decodes n v w -> decodes (by_op m n) v w.
Proof. intros [H1 H2]. split; intros; cbn; eauto. Qed.

Lemma codec_by_op {A} (m1 n1 m2 n2 : xdr A) v u w : encodes m1 v w -> decodes n2 u w ->
  codec (by_op m1 n1) (by_op m2 n2) v u w.
Proof. split; auto using encodes_by_op, decodes_by_op. Qed.

Lemma encodes_ret {A} (v : A) : encodes (mret v) v [].
Proof. apply (codec_ret v v). Qed.
Lemma decodes_ret {A} (v : A) : decodes (mret v) v [].
Proof. apply (codec_ret v v). Qed.

Lemma codec_on_decode {A} (m n : xdr A) (v u0 u : A) : n = mret u -> codec (on_decode m v) (on_decode n u0) v u [].
Proof. intros ->. apply codec_by_op; [apply encodes_ret|apply decodes_ret]. Qed.

Lemma codec_on_encode {A} (m n : xdr A) (v u0 v0 : A) : m = mret v -> codec (on_encode m v0) (on_encode n u0) v u0 [].
Proof. intros ->. apply codec_by_op; [apply encodes_ret|apply decodes_ret]. Qed.

(** ** Bytes *)

Lemma room_app op a b : room (mkXDR op (a ++ b) (length a)) = Z.of_nat (length b).
Proof. unfold room. cbn. rewrite length_app. lia. Qed.

Lemma encodes_put bs : encodes (putbytes bs) tt bs.
Proof.
  split.
  - intros a b c F Hb. unfold putbytes. rewrite room_app, length_app.
    destruct (Z.ltb_spec (Z.of_nat (length b + length c)) (Z.of_nat (length bs))); [lia|].
    cbn. rewrite take_app_length, drop_app_ge by lia. rewrite length_app.
    replace (length a + length bs - length a)%nat with (length b) by lia. by rewrite drop_app_length.
  - intros a b F Hb. unfold putbytes. rewrite room_app.
    destruct (Z.ltb_spec (Z.of_nat (length b)) (Z.of_nat (length bs))); [by eexists|lia].
Qed.

Lemma decodes_get bs n : n = Z.of_nat (length bs) -> decodes (getbytes n) bs bs.
Proof.
  intros ->. split.
  - intros a c F. unfold getbytes. rewrite room_app, length_app.
    destruct (Z.ltb_spec (Z.of_nat (length bs + length c)) (Z.of_nat (length bs))); [lia|].
    cbn. rewrite drop_app_length, Nat2Z.id, take_app_length, length_app. done.
  - intros a b d F -> Hd. unfold getbytes. rewrite room_app, length_app.
    destruct d; [done|]. cbn.
    destruct (Z.ltb_spec (Z.of_nat (length b)) (Z.of_nat (length b + S (length d)))); [by eexists|lia].
Qed.

Lemma of_byte_of z : of_byte (byte_of z) = z mod 256.
Proof.
  unfold of_byte, byte_of. rewrite N_ascii_embedding; [rewrite Z2N.id; [done|]|].
  - apply Z.mod_pos_bound. lia.
  - apply N2Z.inj_lt. rewrite Z2N.id; [|apply Z.mod_pos_bound; lia]. apply Z.mod_pos_bound. lia.
Qed.

Lemma of_be32 z : of_be (be32 z) = z mod 2 ^ 32.
Proof.
  unfold of_be, be32. cbn [fold_left]. rewrite !of_byte_of.
  change (2 ^ 24) with (256 * (256 * 256)). change (2 ^ 16) with (256 * 256). change (2 ^ 8) with 256.
  change (2 ^ 32) with (256 * (256 * (256 * 256))).
  rewrite !Z.rem_mul_r, <- !Z.div_div by lia. lia.
Qed.

(** ** Primitives *)

Lemma decodes_word conv z z0 : decodes (xdr_word conv z0) (conv (z mod 2 ^ 32)) (be32 z).
Proof.
  apply decodes_by_op. rewrite <- (app_nil_r (be32 z)). eapply decodes_bind; [by apply decodes_get|].
  rewrite of_be32. apply decodes_ret.
Qed.

Lemma codec_word conv z z0 : conv (z mod 2 ^ 32) = z -> codec (xdr_word conv z) (xdr_word conv z0) z z (be32 z).
Proof.
  intros Hz. split.
  - apply encodes_by_op. rewrite <- (app_nil_r (be32 z)). eapply encodes_bind; [apply encodes_put|apply encodes_ret].
  - pose proof (decodes_word conv z z0) as H. by rewrite Hz in H.
Qed.

Lemma codec_int z z0 : int32 z -> codec (xdr_int z) (xdr_int z0) z z (be32 z).
Proof.
  intros H. apply codec_word. unfold wrap32. rewrite Zplus_mod_idemp_l. by apply wrap32_id.
Qed.

Definition uint32 (z : Z) : Prop := 0 <= z < 2 ^ 32.
Definition int16 (z : Z) : Prop := - 2 ^ 15 <= z < 2 ^ 15.
Definition uint16 (z : Z) : Prop := 0 <= z < 2 ^ 16.

Lemma codec_enum z z0 : int32 z -> codec (xdr_enum z) (xdr_enum z0) z z (be32 z).
Proof. apply codec_int. Qed.

Lemma codec_u_int z z0 : uint32 z -> codec (xdr_u_int z) (xdr_u_int z0) z z (be32 z).
Proof. unfold uint32. intros H. apply codec_word. unfold uwrap32. rewrite Z.mod_mod, Z.mod_small; lia. Qed.

Lemma codec_float z z0 : uint32 z -> codec (xdr_float z) (xdr_float z0) z z (be32 z).
Proof. apply codec_u_int. Qed.

Lemma codec_short z z0 : int16 z -> codec (xdr_short z) (xdr_short z0) z z (be32 z).
Proof.
  unfold int16. intros H. apply codec_word. unfold wrap16.
  assert (E : (z mod 2 ^ 32 + 2 ^ 15) mod 2 ^ 16 = (z + 2 ^ 15) mod 2 ^ 16).
  { rewrite <- (Zplus_mod_idemp_l z), <- Zplus_mod_idemp_l. f_equal. f_equal.
    apply Z.mod_mod_divide. by exists (2 ^ 16). }
  rewrite E, Z.mod_small; lia.
Qed.

Lemma codec_u_short z z0 : uint16 z -> codec (xdr_u_short z) (xdr_u_short z0) z z (be32 z).
Proof. unfold uint16. intros H. apply codec_word. unfold uwrap16. rewrite (Z.mod_small z (2 ^ 32)), Z.mod_small; lia. Qed.

Lemma codec_bool z z0 : z = 0 \/ z = 1 -> codec (xdr_bool z) (xdr_bool z0) z z (be32 z).
Proof.
  intros H. rewrite <- (app_nil_r (be32 z)). apply codec_by_op.
  - eapply encodes_bind; [|apply encodes_ret]. destruct H as [-> | ->]; by apply (codec_int _ 0).
  - eapply decodes_bind; [by apply (codec_int z 0); unfold int32; lia|]. destruct H as [-> | ->]; apply decodes_ret.
Qed.

Lemma codec_long z z0 : int32 z -> codec (xdr_long z) (xdr_long z0) z z (be32 z).
Proof.
  intros H. apply codec_by_op; [|by apply (codec_int z 0)].
  rewrite wrap32_id, Z.eqb_refl by done. by apply (codec_int z 0).
Qed.

Definition be64 (d : Z) : cstr := be32 (d / 2 ^ 32) ++ be32 (d mod 2 ^ 32).
Definition uint64 (z : Z) : Prop := 0 <= z < 2 ^ 64.

Lemma codec_double d d0 : uint64 d -> codec (xdr_double d) (xdr_double d0) d d (be64 d).
Proof.
  unfold uint64. intros H. eapply codec_bind; [apply codec_u_int|].
  { unfold uint32. change (2 ^ 64) with (2 ^ 32 * 2 ^ 32) in H. split; [apply Z.div_pos; lia|apply Z.div_lt_upper_bound; lia]. }
  rewrite <- (app_nil_r (be32 (d mod _))). eapply codec_bind; [apply codec_u_int; apply Z.mod_pos_bound; lia|].
  rewrite Z.mul_comm, <- Z.div_mod by lia. apply codec_ret.
Qed.

(** The bytes of a string on the wire. *)
Definition padded (s : cstr) : cstr := s ++ zeros_of (pad4 (Z.of_nat (length s))).
Definition wstr (s : cstr) : cstr := be32 (Z.of_nat (length s)) ++ padded s.

Lemma pad4_bound n : 0 <= pad4 n < 4.
Proof. apply Z.mod_pos_bound. lia. Qed.

Lemma length_zeros_of n : 0 <= n -> Z.of_nat (length (zeros_of n)) = n.
Proof. intros. unfold zeros_of. rewrite repeat_length. lia. Qed.

Lemma codec_opaque bs n s0 : n = Z.of_nat (length bs) -> codec (xdr_opaque n bs) (xdr_opaque n s0) bs bs (padded bs).
Proof.
  intros ->. unfold padded. rewrite <- (app_nil_r (zeros_of _)). apply codec_by_op.
  - eapply encodes_bind; [apply encodes_put|]. eapply encodes_bind; [apply encodes_put|apply encodes_ret].
  - eapply decodes_bind; [by apply decodes_get|]. eapply decodes_bind; [|apply decodes_ret].
    apply decodes_get. rewrite length_zeros_of; [done|]. apply pad4_bound.
Qed.

(** A C string of at most [n] characters. *)
Definition no_nul (s : cstr) : Prop := Forall (fun c => c <> NUL) s.
Definition str (n : Z) (s : cstr) : Prop := no_nul s /\ Z.of_nat (length s) <= n /\ n < 2 ^ 31.

Lemma until_nul_id s : no_nul s -> until_nul s = s.
Proof. induction 1 as [|c s H _ IH]; [done|]. cbn. destruct (Ascii.eqb_spec c NUL); [done|]. by rewrite IH. Qed.

Lemma codec_string cap maxsize s s0 : str (Z.min maxsize (cap - 1)) s ->
  codec (xdr_string cap maxsize s) (xdr_string cap maxsize s0) s s (wstr s).
Proof.
  intros (Hn & Hl & Hb). assert (Hu : uint32 (Z.of_nat (length s))) by (unfold uint32; lia). apply codec_by_op.
  - eapply encodes_bind; [by apply (codec_u_int _ 0)|].
    destruct (Z.ltb_spec maxsize (Z.of_nat (length s))); [lia|]. by apply (codec_opaque s _ []).
  - eapply decodes_bind; [by apply (codec_u_int _ 0)|]. cbv beta.
    destruct (Z.ltb_spec maxsize (Z.of_nat (length s))); [lia|].
    destruct (Z.eqb_spec (Z.of_nat (length s)) (2 ^ 32 - 1)); [unfold uint32 in *; lia|].
    destruct (Z.ltb_spec cap (Z.of_nat (length s) + 1)); [lia|]. cbn [orb].
    rewrite <- (app_nil_r (padded s)). eapply decodes_bind; [by apply (codec_opaque s)|].
    rewrite until_nul_id by done. apply decodes_ret.
Qed.

(** Uninterpreted bytes. *)
Lemma codec_bytes cap len0 max0 data data0 : let len := Z.of_nat (length data) in
  len < 2 ^ 31 -> len <= cap -> len <= max0 < 2 ^ 32 ->
  codec (xdr_bytes cap max0 len data) (xdr_bytes cap max0 len0 data0) (len, data) (len, data) (be32 len ++ padded data).
Proof.
  intros len Hl Hc Hm. subst len. assert (Hu : uint32 (Z.of_nat (length data))) by (unfold uint32; lia).
  assert (E : uwrap32 (Z.of_nat (length data)) = Z.of_nat (length data)) by (unfold uwrap32; rewrite Z.mod_small; lia).
  assert (E' : uwrap32 max0 = max0) by (unfold uwrap32; rewrite Z.mod_small; lia).
  unfold xdr_bytes. rewrite !E, !E'. apply codec_by_op.
  - eapply encodes_bind; [by apply (codec_u_int _ 0)|].
    destruct (Z.ltb_spec max0 (Z.of_nat (length data))); [lia|]. rewrite Z.ltb_irrefl, Nat2Z.id, firstn_all.
    rewrite <- (app_nil_r (padded data)). eapply encodes_bind; [by apply (codec_opaque data _ [])|apply encodes_ret].
  - eapply decodes_bind; [by apply (codec_u_int _ 0)|]. cbv beta.
    destruct (Z.ltb_spec max0 (Z.of_nat (length data))); [lia|].
    destruct (Z.ltb_spec cap (Z.of_nat (length data))); [lia|].
    rewrite <- (app_nil_r (padded data)). eapply decodes_bind; [by apply (codec_opaque data)|].
    rewrite wrap32_id by (unfold int32; lia). apply decodes_ret.
Qed.

(** ** Arrays *)

Lemma carries_elems {A} (p : A -> xdr A) l ws l0 : Forall2 (carries p) l ws -> length l0 = length l ->
  codec (xdr_elems p (length l) l) (xdr_elems p (length l) l0) l l (concat ws).
Proof.
  intros H. revert l0. induction H as [|x w l ws Hx _ IH]; intros [|y l0] Hl; try done; cbn.
  - apply codec_ret.
  - eapply codec_bind; [apply Hx|]. rewrite <- (app_nil_r (concat ws)).
    eapply codec_bind; [apply IH; cbn in Hl; lia|apply codec_ret].
Qed.

Lemma transfers_wires {A} (p : A -> xdr A) l : Forall (transfers p) l -> exists ws, Forall2 (carries p) l ws.
Proof.
  induction 1 as [|x l [w Hw] _ [ws Hs]]; [by exists []|]. exists (w :: ws). by constructor.
Qed.

(** [n] elements, decoded into an array of that size. *)
Definition many {A} (p : A -> xdr A) (n : Z) (l : list A) (w : cstr) : Prop :=
  forall l0, length l0 = Z.to_nat n -> codec (xdr_vector p n l) (xdr_vector p n l0) l l w.

Lemma many_wires {A} (p : A -> xdr A) n l ws : n = Z.of_nat (length l) -> Forall2 (carries p) l ws -> many p n l (concat ws).
Proof. intros -> H l0 Hl. unfold xdr_vector. rewrite Nat2Z.id in *. by apply carries_elems. Qed.

Lemma many_transfers {A} (p : A -> xdr A) n l : n = Z.of_nat (length l) -> Forall (transfers p) l ->
  exists w, many p n l w.
Proof. intros Hn H. destruct (transfers_wires p l H) as [ws Hw]. eauto using many_wires. Qed.

(** A count that the decoder has just read. *)
Lemma codec_calloc {A} n (d : A) l l0 : 0 <= n ->
  codec (on_decode (calloc n d) l) (on_decode (calloc n d) l0) l (replicate (Z.to_nat n) d) [].
Proof. intros H. apply codec_on_decode. unfold calloc. by destruct (Z.ltb_spec n 0); [lia|]. Qed.

(** [if (xdrs->x_op == XDR_DECODE && n > 0) v = calloc(n, ...)] *)
Definition calloc_pos {A} (n : Z) (d : A) (v : list A) : xdr (list A) :=
  on_decode (if 0 <? n then calloc n d else mret v) v.

(** [if (xdrs->x_op == XDR_DECODE && n) v = calloc(n, ...)] *)
Definition calloc_some {A} (n : Z) (d : A) (v : list A) : xdr (list A) :=
  on_decode (if n =? 0 then mret v else calloc n d) v.

(** [if (xdrs->x_op == XDR_DECODE) v = calloc(n, ...)] *)
Definition calloc_all {A} (n : Z) (d : A) (v : list A) : xdr (list A) := on_decode (calloc n d) v.

Lemma xdr_vector_nil {A} (p : A -> xdr A) l : xdr_vector p 0 l = mret [].
Proof. by destruct l. Qed.

(** Allocation of an array and the loop over it. *)
Lemma codec_calloc_pos {A} (p : A -> xdr A) n d l l0 w {B} (f g : list A -> xdr B) v u w' :
  n = Z.of_nat (length l) -> many p n l w -> codec (f l) (g l) v u w' ->
  codec (a ← calloc_pos n d l; b ← xdr_vector p n a; f b)
        (a ← calloc_pos n d l0; b ← xdr_vector p n a; g b) v u (w ++ w').
Proof.
  intros Hn Hm Hf. unfold calloc_pos. destruct (Z.ltb_spec 0 n).
  - eapply codec_bind_nil; [apply codec_calloc; lia|]. eapply codec_bind; [|done]. apply Hm. by rewrite length_replicate.
  - eapply codec_bind_nil; [by apply codec_on_decode|]. assert (n = 0) as -> by lia.
    assert (l = []) as -> by (destruct l; [done|]; cbn in Hn; lia).
    pose proof (Hm [] eq_refl) as [He _]. cbv beta. rewrite !xdr_vector_nil in *. 
    assert (w = []) as ->.
    { destruct w as [|c w]; [done|]. destruct (proj2 He [] []) as [x Hx]; [done|cbn; lia|discriminate]. }
    eapply codec_bind_nil; [apply codec_ret|done].
Qed.

Lemma codec_calloc_some {A} (p : A -> xdr A) n d l l0 w {B} (f g : list A -> xdr B) v u w' :
  n = Z.of_nat (length l) -> many p n l w -> codec (f l) (g l) v u w' ->
  codec (a ← calloc_some n d l; b ← xdr_vector p n a; f b)
        (a ← calloc_some n d l0; b ← xdr_vector p n a; g b) v u (w ++ w').
Proof.
  intros Hn Hm Hf. pose proof (codec_calloc_pos p n d l l0 w f g v u w' Hn Hm Hf) as H.
  unfold calloc_pos in H. unfold calloc_some.
  replace (if n =? 0 then _ else _) with (if 0 <? n then calloc n d else mret l : xdr (list A));
    [replace (if n =? 0 then _ else _) with (if 0 <? n then calloc n d else mret l0 : xdr (list A)); [done|]|];
  destruct (Z.eqb_spec n 0), (Z.ltb_spec 0 n); done || lia.
Qed.

Lemma codec_calloc_all {A} (p : A -> xdr A) n d l l0 w {B} (f g : list A -> xdr B) v u w' :
  n = Z.of_nat (length l) -> many p n l w -> codec (f l) (g l) v u w' ->
  codec (a ← calloc_all n d l; b ← xdr_vector p n a; f b)
        (a ← calloc_all n d l0; b ← xdr_vector p n a; g b) v u (w ++ w').
Proof.
  intros Hn Hm Hf. eapply codec_bind_nil; [apply codec_calloc; lia|]. eapply codec_bind; [|done].
  apply Hm. by rewrite length_replicate.
Qed.

(** An array that both sides have. *)
Lemma many_fixed {A} (p : A -> xdr A) n l l0 w : many p n l w -> length l0 = Z.to_nat n ->
  codec (xdr_vector p n l) (xdr_vector p n l0) l l w.
Proof. auto. Qed.

(** ** Calls whose result is ignored *)

(** A function that is refused only when not even a word is left. *)
Definition tight {A} (m : xdr A) : Prop := forall x x', m x = Refused x' -> room x' < 4.
(** A function that needs a word. *)
Definition starved {A} (m : xdr A) : Prop := forall x, room x < 4 -> exists x', m x = Refused x'.

Lemma tight_bind {A B} (m : xdr A) (f : A -> xdr B) : tight m -> (forall v, tight (f v)) -> tight (m ≫= f).
Proof. intros Hm Hf x x'. unfold mbind, xdr_bind. destruct (m x) eqn:E; [apply Hf|intros [= <-]; by eapply Hm|done]. Qed.

Lemma tight_ret {A} (v : A) : tight (mret v).
Proof. done. Qed.

Lemma tight_word conv z : tight (xdr_word conv z).
Proof.
  intros x x'. unfold xdr_word, by_op, mbind, xdr_bind, putbytes, getbytes. change (Z.of_nat (length (be32 z))) with 4.
  destruct (x_op x); destruct (Z.ltb_spec (room x) 4); intros E; try discriminate E; by injection E as <-.
Qed.

Lemma tight_elems {A} (p : A -> xdr A) n l : (forall y, tight (p y)) -> tight (xdr_elems p n l).
Proof.
  intros Hp. revert l. induction n as [|n IH]; intros [|y l]; try done.
  cbn. apply tight_bind; [done|]. intros. apply tight_bind; [auto|]. intros. apply tight_ret.
Qed.

Lemma starved_word conv z : starved (xdr_word conv z).
Proof.
  intros x Hx. unfold xdr_word, by_op, mbind, xdr_bind, putbytes, getbytes. change (Z.of_nat (length (be32 z))) with 4.
  destruct (x_op x); destruct (Z.ltb_spec (room x) 4); eauto || lia.
Qed.

Lemma starved_bind {A B} (m : xdr A) (f : A -> xdr B) : starved m -> starved (m ≫= f).
Proof. intros H x Hx. destruct (H x Hx) as [x' E]. unfold mbind, xdr_bind. rewrite E. eauto. Qed.

(** On a stream where [m] succeeds its result is used, elsewhere there is no room. *)
Lemma attempt_refused {A B} (m : xdr A) (f : option A -> xdr B) x : tight m -> starved (f None) ->
  (exists x', (m ≫= fun v => f (Some v)) x = Refused x') -> exists x', (attempt m ≫= f) x = Refused x'.
Proof.
  intros Tm Sf. unfold mbind, xdr_bind, attempt. destruct (m x) eqn:E; [done| |by intros []].
  intros _. apply Sf. by eapply Tm.
Qed.

Lemma attempt_done {A B} (m : xdr A) (f : option A -> xdr B) x v x' :
  (m ≫= fun v => f (Some v)) x = Done v x' -> (attempt m ≫= f) x = Done v x'.
Proof. unfold mbind, xdr_bind, attempt. by destruct (m x). Qed.

Lemma codec_attempt {A B} (m n : xdr A) (f g : option A -> xdr B) v u v' u' w w' :
  codec m n v u w -> tight m -> tight n -> starved (f None) -> starved (g None) ->
  codec (f (Some v)) (g (Some u)) v' u' w' -> codec (attempt m ≫= f) (attempt n ≫= g) v' u' (w ++ w').
Proof.
  intros H Tm Tn Sf Sg H'.
  destruct (codec_bind m n (fun v => f (Some v)) (fun u => g (Some u)) v u v' u' w w' H H') as [[E1 E2] [D1 D2]].
  split; split; intros; [apply attempt_done|apply attempt_refused|apply attempt_done|apply attempt_refused]; eauto.
Qed.

(** ** Arrays of characters and automation *)

(** A string in an array of [n] characters, as the sources pass them:
    [xdr_string(xdrs, &sp, n)]. *)
Definition chars (n : Z) (s : cstr) : Prop := str (n - 1) s.

Lemma codec_chars n s s0 : chars n s -> codec (xdr_string n n s) (xdr_string n n s0) s s (wstr s).
Proof. intros H. apply codec_string. by rewrite Z.min_r by lia. Qed.

Create HintDb xdr.
#[export] Hint Resolve codec_int codec_enum codec_u_int codec_float codec_short codec_u_short codec_bool codec_long
  codec_double codec_chars codec_string many_fixed : xdr.
#[export] Hint Resolve codec_ret : xdr.

(** Runs an encoder and a decoder side by side, field by field. *)
Ltac xdr_step :=
  cbv beta iota;
  first
  [ apply codec_ret
  | eapply codec_calloc_pos; [eassumption|solve [eauto with xdr]|]
  | eapply codec_calloc_some; [eassumption|solve [eauto with xdr]|]
  | eapply codec_calloc_all; [eassumption|solve [eauto with xdr]|]
  | eapply codec_bind; [solve [eauto with xdr]|] ].

(** A count and the array that it belongs to. *)
Definition counts {A} (n : Z) (l : list A) : Prop := n = Z.of_nat (length l) /\ int32 n.

(** Splits what is known of the fields of a record. *)
Ltac fields :=
  repeat match goal with
  | H : _ /\ _ |- _ => destruct H
  | H : counts _ _ |- _ => destruct H
  | H : Forall _ (_ :: _) |- _ => apply Forall_cons in H; destruct H
  | H : Forall _ [] |- _ => clear H
  end.

(** What is known of a function for a part of a record. *)
Ltac part H := let w := fresh "w" in let C := fresh "C" in destruct H as [w C]; unfold carries in C.
