(* ===== verification/XdrLib.v ===== *)
(** * Network messages (lsf/lib/lib.xdr.c, lib.xdrmisc.c)

    A message is a header of 16 bytes and a body.  The header has the request or reply
    code and the length of the body; elements of arrays carry their own length, so
    that a reader can skip fields that it does not know.  The argument [hdr] that
    the functions only pass on is left out.  [MAXHOSTNAMELEN] and [MAXPATHLEN] are
    those of Linux. *)
From stdpp Require Import base list.
From Stdlib Require Import ZArith Ascii Lia.
From S2P Require Import Prelude JobId Xdr.
Local Open Scope Z_scope.

Definition MAXHOSTNAMELEN : Z := 64.
Definition MAXPATHLEN : Z := 4096.
Definition MAXLINELEN : Z := 512.
Definition MAXFILENAMELEN : Z := 256.
Definition MAXLSFNAMELEN : Z := 40.
Definition EAUTH_SIZE : Z := 4096.
Definition NET_INTSIZE_ : Z := 4.
Definition LSF_HEADER_LEN : Z := 16.
Definition JHLAVA_VERSION : Z := 10.
Definition ENMSG_USE_LENGTH : Z := 1.
Definition AUTH_HOST_UX : Z := 2.
Definition CLIENT_DCE : Z := 2.
Definition CLIENT_EAUTH : Z := 3.
Definition ALIGNWORD_ (s : Z) : Z := Z.land s 0xfffffffc + 4.

(** ** Headers *)

Record LSFHeader := mkLSFHeader {
  opCode : Z; refCode : Z; length_ : Z; version : Z; reserved : Z; reserved0 : Z }.

Definition encodeHdr (header : LSFHeader) : Z * Z * Z * Z :=
  (Z.lor (uwrap32 (Z.shiftl (refCode header) 16)) (Z.land (opCode header) 0x0000FFFF),
   length_ header,
   Z.lor (uwrap32 (Z.shiftl (version header) 16)) (Z.land (reserved header) 0x0000FFFF),
   reserved0 header).

Definition xdr_LSFHeader (header : LSFHeader) : xdr LSFHeader :=
  '(w1, w2, w3, w4) ← on_encode (mret (encodeHdr header)) (0, 0, 0, 0);
  word1 ← xdr_u_int w1;
  word2 ← xdr_u_int w2;
  word3 ← xdr_u_int w3;
  word4 ← xdr_u_int w4;
  on_decode (mret (mkLSFHeader (wrap16 (Z.land word1 0xFFFF)) (Z.shiftr word1 16) word2
                               (Z.shiftr word3 16) (Z.land word3 0xFFFF) word4)) header.

Definition xdr_packLSFHeader (header : LSFHeader) : option cstr :=
  match xdr_LSFHeader header (xdrmem_create (repeat NUL (Z.to_nat LSF_HEADER_LEN)) XDR_ENCODE) with
  | Done _ x => Some (take (x_pos x) (x_buf x))
  | _ => None
  end.

(** ** Elements of arrays *)

Definition xdr_arrayElement {A} (xdr_func : A -> xdr A) (data : A) : xdr A :=
  pos ← XDR_GETPOS;
  nextElementOffset ← by_op (_ ← XDR_SETPOS (pos + NET_INTSIZE_); mret 0) (xdr_int 0);
  data' ← xdr_func data;
  nextElementOffset' ← on_encode
    (p ← XDR_GETPOS; _ ← XDR_SETPOS pos; xdr_int (p - pos)) nextElementOffset;
  _ ← XDR_SETPOS (uwrap32 (pos + nextElementOffset'));
  mret data'.

(** ** Strings *)

(** [len] bytes are allocated as the sender says; [malloc] of a negative size fails. *)
Definition xdr_var_string (astring : cstr) : xdr cstr :=
  by_op
    (xdr_string 0 (Z.of_nat (length astring) + 1) astring)
    (pos ← XDR_GETPOS;
     len ← xdr_int 0;
     if wrap32 (len + 1) <? 0 then refuse
     else _ ← XDR_SETPOS pos; xdr_string (wrap32 (len + 1)) (wrap32 (len + 1)) []).

Definition array_string (maxlen : Z) (s : cstr) : xdr cstr :=
  by_op (xdr_string 0 maxlen s) (xdr_string MAXLINELEN maxlen []).

Definition xdr_array_string (astring : list cstr) (maxlen arraysize : Z) : xdr (list cstr) :=
  xdr_vector (array_string maxlen) arraysize astring.

Record stringLen := mkStringLen { name : cstr; len : Z }.

(** The array of the caller has [len] characters. *)
Definition xdr_stringLen (str : stringLen) : xdr stringLen :=
  name' ← xdr_string (len str) (len str) (name str); mret (mkStringLen name' (len str)).

(** [t] is a [time_t] of 64 bits. *)
Definition xdr_time_t (t : Z) : xdr Z := xdr_long t.

(** ** Numbers *)

Definition xdr_LSFlong (l : Z) : xdr Z :=
  '(h, lo) ← on_encode (mret (wrap32 (Z.shiftr l 32), wrap32 (Z.land l 0x00000000FFFFFFFF))) (0, 0);
  high ← xdr_int h;
  low ← xdr_int lo;
  on_decode (mret (Z.lor (wrap64 (Z.shiftl high 32)) (Z.land low 0x00000000FFFFFFFF))) l.

Record lsfLimit := mkLsfLimit { rlim_curl : Z; rlim_curh : Z; rlim_maxl : Z; rlim_maxh : Z }.

(** The fields are read through pointers to [unsigned int] and stay [int]s. *)
Definition xdr_lsfLimit (limits : lsfLimit) : xdr lsfLimit :=
  curl ← xdr_int (rlim_curl limits);
  curh ← xdr_int (rlim_curh limits);
  maxl ← xdr_int (rlim_maxl limits);
  maxh ← xdr_int (rlim_maxh limits);
  mret (mkLsfLimit curl curh maxl maxh).

(** Bytes of a number in memory, the low byte first. *)
Fixpoint le_bytes (n : nat) (z : Z) : cstr :=
  match n with O => [] | S n' => byte_of z :: le_bytes n' (z / 256) end.
Definition of_le (bs : cstr) : Z := of_be (rev bs).

(** Bytes that the message does not have stay 0. *)
Definition xdr_raw (n : nat) (z : Z) : xdr Z :=
  '(_, bs) ← xdr_bytes (Z.of_nat n) (Z.of_nat n) (Z.of_nat n) (le_bytes n z);
  on_decode (mret (of_le bs)) z.

Definition xdr_portno (portno : Z) : xdr Z := xdr_raw 2 portno.
Definition xdr_address (addr : Z) : xdr Z := xdr_raw 4 addr.

Definition my_xdr_float (fp : Z) : xdr Z := xdr_float fp.

(** ** Records *)

Record stat := mkStat {
  st_dev : Z; st_ino : Z; st_mode : Z; st_nlink : Z; st_uid : Z; st_gid : Z;
  st_rdev : Z; st_size : Z; st_atime : Z; st_mtime : Z; st_ctime : Z }.

(** Every field goes through an [int]; on the other side it is converted to the type of
    the field: unsigned with 64 or 32 bits, or signed with 64. *)
Definition xdr_stat (st : stat) : xdr stat :=
  let u64 w := uwrap64 (wrap32 w) in
  let u32 w := uwrap32 (wrap32 w) in
  dev ← xdr_word u64 (st_dev st);
  ino ← xdr_word u64 (st_ino st);
  mode ← xdr_word u32 (st_mode st);
  nlink ← xdr_word u64 (st_nlink st);
  uid ← xdr_word u32 (st_uid st);
  gid ← xdr_word u32 (st_gid st);
  rdev ← xdr_word u64 (st_rdev st);
  size ← xdr_word wrap32 (st_size st);
  at_ ← xdr_word wrap32 (st_atime st);
  mt ← xdr_word wrap32 (st_mtime st);
  ct ← xdr_word wrap32 (st_ctime st);
  mret (mkStat dev ino mode nlink uid gid rdev size at_ mt ct).

Record lsfRusage := mkLsfRusage {
  ru_utime : Z; ru_stime : Z; ru_maxrss : Z; ru_ixrss : Z; ru_ismrss : Z; ru_idrss : Z; ru_isrss : Z;
  ru_minflt : Z; ru_majflt : Z; ru_nswap : Z; ru_inblock : Z; ru_oublock : Z; ru_ioch : Z;
  ru_msgsnd : Z; ru_msgrcv : Z; ru_nsignals : Z; ru_nvcsw : Z; ru_nivcsw : Z; ru_exutime : Z }.

Definition xdr_lsfRusage (lsfRu : lsfRusage) : xdr lsfRusage :=
  utime ← xdr_double (ru_utime lsfRu);
  stime ← xdr_double (ru_stime lsfRu);
  maxrss ← xdr_double (ru_maxrss lsfRu);
  ixrss ← xdr_double (ru_ixrss lsfRu);
  ismrss ← xdr_double (ru_ismrss lsfRu);
  idrss ← xdr_double (ru_idrss lsfRu);
  isrss ← xdr_double (ru_isrss lsfRu);
  minflt ← xdr_double (ru_minflt lsfRu);
  majflt ← xdr_double (ru_majflt lsfRu);
  nswap ← xdr_double (ru_nswap lsfRu);
  inblock ← xdr_double (ru_inblock lsfRu);
  oublock ← xdr_double (ru_oublock lsfRu);
  ioch ← xdr_double (ru_ioch lsfRu);
  msgsnd ← xdr_double (ru_msgsnd lsfRu);
  msgrcv ← xdr_double (ru_msgrcv lsfRu);
  nsignals ← xdr_double (ru_nsignals lsfRu);
  nvcsw ← xdr_double (ru_nvcsw lsfRu);
  nivcsw ← xdr_double (ru_nivcsw lsfRu);
  exutime ← xdr_double (ru_exutime lsfRu);
  mret (mkLsfRusage utime stime maxrss ixrss ismrss idrss isrss minflt majflt nswap inblock oublock ioch
                    msgsnd msgrcv nsignals nvcsw nivcsw exutime).

Record lenData := mkLenData { ld_len : Z; ld_data : cstr }.

(** The array for the data has as many bytes as the first number says; [ld->len] is
    also the bound and is replaced by the second number. *)
Definition xdr_lenData (ld : lenData) : xdr lenData :=
  len ← xdr_int (ld_len ld);
  if len =? 0 then mret (mkLenData 0 [])
  else
    _ ← on_decode (if len <? 0 then refuse else mret tt) tt;
    '(len', data) ← xdr_bytes len len len (ld_data ld);
    mret (mkLenData len' data).

Record lsfAuth := mkLsfAuth {
  uid : Z; gid : Z; lsfUserName : cstr; kind : Z;
  filler : Z; authToken : lenData; eauth : lenData; auth_options : Z }.

Definition xdr_authToken (t : lenData) : xdr lenData :=
  len ← xdr_int (ld_len t);
  _ ← on_decode (if len <? 0 then refuse else mret tt) tt;
  '(len', data) ← xdr_bytes len len len (ld_data t);
  mret (mkLenData len' data).

(** [eauth.data] is an array of [EAUTH_SIZE] characters. *)
Definition xdr_eauth (t : lenData) : xdr lenData :=
  len ← xdr_int (ld_len t);
  '(len', data) ← xdr_bytes EAUTH_SIZE len len (ld_data t);
  mret (mkLenData len' data).

(** The members of the union [k] are fields of their own; [kind] selects the one in
    use. *)
Definition xdr_lsfAuth (auth : lsfAuth) : xdr lsfAuth :=
  u ← xdr_int (uid auth);
  g ← xdr_int (gid auth);
  name ← xdr_string MAXLSFNAMELEN MAXLSFNAMELEN (lsfUserName auth);
  k ← xdr_enum (kind auth);
  '(f, t, e) ←
    (if k =? CLIENT_DCE then t ← xdr_authToken (authToken auth); mret (filler auth, t, eauth auth)
     else if k =? CLIENT_EAUTH then e ← xdr_eauth (eauth auth); mret (filler auth, authToken auth, e)
     else f ← xdr_arrayElement xdr_int (filler auth); mret (f, authToken auth, eauth auth));
  options ← on_encode (mret AUTH_HOST_UX) (auth_options auth);
  options' ← xdr_int options;
  mret (mkLsfAuth u g name k f t e options').

(** [sizeof] of an [int] or [enum] is 4. *)
Definition xdr_lsfAuthSize (auth : option lsfAuth) : Z :=
  match auth with
  | None => 0
  | Some auth =>
      ALIGNWORD_ 4 + ALIGNWORD_ 4 + ALIGNWORD_ (Z.of_nat (length (lsfUserName auth))) + ALIGNWORD_ 4
      + (if kind auth =? CLIENT_DCE then ALIGNWORD_ 4 + ALIGNWORD_ (ld_len (authToken auth))
         else if kind auth =? CLIENT_EAUTH then ALIGNWORD_ 4 + ALIGNWORD_ (ld_len (eauth auth))
         else ALIGNWORD_ 4)
      + ALIGNWORD_ 4
  end.

Record pidInfo := mkPidInfo { pid : Z; ppid : Z; pi_pgid : Z; pi_jobid : Z }.

Definition xdr_pidInfo (p : pidInfo) : xdr pidInfo :=
  a ← xdr_int (pid p); b ← xdr_int (ppid p); c ← xdr_int (pi_pgid p); d ← xdr_int (pi_jobid p);
  mret (mkPidInfo a b c d).

Record jRusage := mkJRusage {
  mem : Z; swap : Z; utime : Z; stime : Z; npids : Z; pidInfos : list pidInfo; npgids : Z; pgid : list Z }.

Definition xdr_jRusage (r : jRusage) : xdr jRusage :=
  m ← xdr_int (mem r);
  s ← xdr_int (swap r);
  u ← xdr_int (utime r);
  st ← xdr_int (stime r);
  np ← xdr_int (npids r);
  pids0 ← calloc_some np (mkPidInfo 0 0 0 0) (pidInfos r);
  pids ← xdr_vector (xdr_arrayElement xdr_pidInfo) np pids0;
  ng ← xdr_int (npgids r);
  pg0 ← calloc_some ng 0 (pgid r);
  pg ← xdr_vector (xdr_arrayElement xdr_int) ng pg0;
  mret (mkJRusage m s u st np pids ng pg).

(** [phostname]: the size of the array that the static pointer of that name points to,
    once there is one; encoding makes it point to the string of the caller. *)
Record debugReq := mkDebugReq {
  d_opCode : Z; level : Z; logClass : Z; d_options : Z; hostName : cstr; logFileName : cstr }.

Definition xdr_debugReq (phostname : option Z) (r : debugReq) : xdr (debugReq * option Z) :=
  static ← by_op (mret (Z.of_nat (length (hostName r)) + 1))
                 (mret match phostname with None => MAXHOSTNAMELEN | Some n => n end);
  op ← xdr_int (d_opCode r);
  lv ← xdr_int (level r);
  lc ← xdr_int (logClass r);
  o ← xdr_int (d_options r);
  h ← xdr_string static MAXHOSTNAMELEN (hostName r);
  f ← xdr_string MAXPATHLEN MAXPATHLEN (logFileName r);
  mret (mkDebugReq op lv lc o h f, Some static).

(** [s] may be NULL. *)
Definition getXdrStrlen (s : option cstr) : Z :=
  match s with None => 4 | Some s => ALIGNWORD_ (Z.of_nat (length s) + 1) end.

(** ** Messages *)

Definition LSE_BAD_XDR : Z := 1.
Definition LSE_MSG_SYS : Z := 2.

Definition with_version (h : LSFHeader) (v : Z) : LSFHeader :=
  mkLSFHeader (opCode h) (refCode h) (length_ h) v (reserved h) (reserved0 h).
Definition with_length (h : LSFHeader) (l : Z) : LSFHeader :=
  mkLSFHeader (opCode h) (refCode h) l (version h) (reserved h) (reserved0 h).

(** [data] or [auth] is [None] for a NULL pointer. *)
Definition optionally {A} (p : A -> xdr A) (v : option A) : xdr unit :=
  match v with None => mret tt | Some a => _ ← p a; mret tt end.

Definition xdr_encodeMsg {A} (data : option A) (hdr : LSFHeader) (xdr_func : A -> xdr A) (options : Z)
    (auth : option lsfAuth) : xdr LSFHeader :=
  _ ← XDR_SETPOS LSF_HEADER_LEN;
  let hdr1 := with_version hdr JHLAVA_VERSION in
  _ ← optionally xdr_lsfAuth auth;
  _ ← optionally xdr_func data;
  len ← XDR_GETPOS;
  let hdr2 := if has options ENMSG_USE_LENGTH then hdr1 else with_length hdr1 (uwrap32 (len - LSF_HEADER_LEN)) in
  _ ← XDR_SETPOS 0;
  hdr3 ← xdr_LSFHeader hdr2;
  _ ← XDR_SETPOS len;
  mret hdr3.

Section channels.
Context {Chan : Type}.

(** [readFunc(s, buf, n)] returns its result, the bytes that it has stored in [buf], and
    the channel after the call; [writeFunc(s, buf, n)] its result. *)
Variable readFunc : Chan -> Z -> Z * cstr * Chan.
Variable writeFunc : Chan -> cstr -> Z * Chan.

(** [Received]: the function returns 0.  [Failed]: it returns [rc] and sets [lserrno].
    [Overrun]: an access outside an object. *)
Inductive received (A : Type) :=
  | Received (v : A) (x : XDR) (ch : Chan)
  | Failed (rc lserrno : Z) (ch : Chan)
  | Overrun.
Arguments Received {_} _ _ _. Arguments Failed {_} _ _ _. Arguments Overrun {_}.

(** The stream [xdrs] of the caller reads the buffer that [readFunc] fills. *)
Definition refill (xdrs : XDR) (bytes : cstr) : option XDR :=
  if Z.of_nat (length (x_buf xdrs)) <? Z.of_nat (length bytes) then None
  else Some (mkXDR (x_op xdrs) (bytes ++ drop (length bytes) (x_buf xdrs)) (x_pos xdrs)).

Definition decoded {A} (r : outcome A) (ch : Chan) : received A :=
  match r with
  | Done v x => Received v x ch
  | Refused _ => Failed (-1) LSE_BAD_XDR ch
  | Fault => Overrun
  end.

Definition readDecodeHdr_ (s : Chan) (xdrs : XDR) (hdr : LSFHeader) : received LSFHeader :=
  let '(n, bytes, s') := readFunc s LSF_HEADER_LEN in
  match refill xdrs bytes with
  | None => Overrun
  | Some x => if n =? LSF_HEADER_LEN then decoded (xdr_LSFHeader hdr x) s' else Failed (-2) LSE_MSG_SYS s'
  end.

Definition readDecodeMsg_ {A} (s : Chan) (hdr : LSFHeader) (xdrs : XDR) (data : A) (xdrFunc : A -> xdr A)
    (auth : option lsfAuth) : received (option lsfAuth * A) :=
  let '(n, bytes, s') := readFunc s (wrap32 (length_ hdr)) in
  match refill xdrs bytes with
  | None => Overrun
  | Some x =>
      if uwrap32 n =? length_ hdr then
        decoded ((auth' ← match auth with
                          | None => mret None
                          | Some a => a' ← xdr_lsfAuth a; mret (Some a')
                          end;
                  data' ← xdrFunc data;
                  mret (auth', data')) x) s'
      else Failed (-2) LSE_MSG_SYS s'
  end.

Definition writeEncodeMsg_ {A} (s : Chan) (buf : cstr) (hdr : LSFHeader) (data : option A) (xdrFunc : A -> xdr A)
    (options : Z) : received LSFHeader :=
  match xdr_encodeMsg data hdr xdrFunc options None (xdrmem_create buf XDR_ENCODE) with
  | Done hdr' x =>
      let '(n, s') := writeFunc s (take (x_pos x) (x_buf x)) in
      if n =? Z.of_nat (x_pos x) then Received hdr' x s' else Failed (-2) LSE_MSG_SYS s'
  | Refused _ => Failed (-1) LSE_BAD_XDR s
  | Fault => Overrun
  end.

Definition writeEncodeHdr_ (s : Chan) (hdr : LSFHeader) : received LSFHeader :=
  match xdr_LSFHeader (with_length hdr 0) (xdrmem_create (repeat NUL (Z.to_nat LSF_HEADER_LEN)) XDR_ENCODE) with
  | Done hdr' x =>
      let '(n, s') := writeFunc s (x_buf x) in
      if n =? LSF_HEADER_LEN then Received hdr' x s' else Failed (-2) LSE_MSG_SYS s'
  | Refused _ => Failed (-1) LSE_BAD_XDR s
  | Fault => Overrun
  end.
End channels.
Arguments Received {_ _} _ _ _. Arguments Failed {_ _} _ _ _. Arguments Overrun {_ _}.
