(* ===== verification/XdrCarry.v ===== *)
(** * Values of the network library on streams

    The functions of lib.xdr.c and lib.xdrmisc.c carry well-formed values over a
    stream. *)
From stdpp Require Import base list.
From Stdlib Require Import ZArith Ascii Lia.
From S2P Require Import Prelude JobId Xdr XdrLib.
Local Open Scope Z_scope.

(** ** Positions *)

Lemma setpos_in op buf m n p : p = Z.of_nat n -> (n <= length buf)%nat ->
  XDR_SETPOS p (mkXDR op buf m) = Done tt (mkXDR op buf n).
Proof.
  intros -> H. unfold XDR_SETPOS. cbn. rewrite Nat2Z.id.
  destruct (Z.leb_spec 0 (Z.of_nat n)), (Z.leb_spec (Z.of_nat n) (Z.of_nat (length buf))); done || lia.
Qed.

Lemma setpos_out x p : Z.of_nat (length (x_buf x)) < p -> XDR_SETPOS p x = Done tt x.
Proof.
  intros H. unfold XDR_SETPOS. destruct (Z.leb_spec p (Z.of_nat (length (x_buf x)))); [lia|].
  by rewrite andb_false_r.
Qed.

Lemma bind_done {A B} (m : xdr A) (f : A -> xdr B) x v x' : m x = Done v x' -> (m ≫= f) x = f v x'.
Proof. intros H. unfold mbind, xdr_bind. by rewrite H. Qed.

Lemma bind_refused {A B} (m : xdr A) (f : A -> xdr B) x : (exists x', m x = Refused x') -> exists x', (m ≫= f) x = Refused x'.
Proof. intros [x' H]. unfold mbind, xdr_bind. rewrite H. eauto. Qed.

(** ** Elements of arrays *)

(** An element on the wire: its size, and its bytes. *)
Definition welem (w : cstr) : cstr := be32 (Z.of_nat (length w) + 4) ++ w.

Lemma encodes_arrayElement {A} (p : A -> xdr A) v v' w : encodes (p v) v' w -> encodes (xdr_arrayElement p v) v' (welem w).
Proof.
  intros [H1 H2]. split.
  - intros a b c F Hb. unfold welem in Hb. rewrite length_app in Hb.
    destruct (split_length b _ _ Hb) as (b1 & b2 & -> & L1 & L2). rewrite length_be32 in L1.
    unfold xdr_arrayElement. erewrite bind_done by reflexivity. cbn [x_pos].
    rewrite (bind_done _ _ _ 0 (mkXDR XDR_ENCODE ((a ++ b1) ++ b2 ++ c) (length (a ++ b1)))).
    2:{ cbn. erewrite bind_done; [reflexivity|]. rewrite <- !app_assoc. apply setpos_in; unfold NET_INTSIZE_; sizes. }
    rewrite (bind_done _ _ _ _ _ (H1 (a ++ b1) b2 c ltac:(sizes) L2)).
    erewrite bind_done.
    2:{ cbn. erewrite bind_done by reflexivity. erewrite bind_done by (apply (setpos_in _ _ _ (length a)); [done|sizes]).
        rewrite <- app_assoc. cbn [x_pos].
        replace (Z.of_nat (length ((a ++ b1) ++ w)) - Z.of_nat (length a)) with (Z.of_nat (length w) + 4) by sizes.
        apply (codec_int _ 0); [unfold int32; sizes|sizes|done]. }
    erewrite bind_done; [|apply (setpos_in _ _ _ (length (a ++ welem w)))].
    + unfold welem. by rewrite <- !app_assoc.
    + unfold uwrap32, welem. rewrite Z.mod_small; sizes.
    + unfold welem. sizes.
  - intros a b F Hb. unfold welem in Hb. rewrite length_app, length_be32 in Hb.
    unfold xdr_arrayElement. erewrite bind_done by reflexivity. cbn [x_pos].
    destruct (decide (length b < 4)%nat) as [L|L].
    + rewrite (bind_done _ _ _ 0 (mkXDR XDR_ENCODE (a ++ b) (length a))).
      2:{ cbn. erewrite bind_done; [reflexivity|]. apply setpos_out. unfold NET_INTSIZE_. cbn. sizes. }
      destruct (decide (length b < length w)%nat) as [L'|L']; [apply bind_refused, H2; done|].
      assert (Hs : length b = (length w + (length b - length w))%nat) by lia.
      destruct (split_length b _ _ Hs) as (b1 & b2 & -> & L1 & L2).
      rewrite (bind_done _ _ _ _ _ (H1 _ _ _ F L1)). apply bind_refused. cbn.
      erewrite bind_done by reflexivity. erewrite bind_done by (apply (setpos_in _ _ _ (length a)); [done|sizes]).
      apply starved_word. rewrite room_app. sizes.
    + assert (Hs : length b = (4 + (length b - 4))%nat) by lia.
      destruct (split_length b _ _ Hs) as (b1 & b2 & -> & L1 & L2).
      rewrite (bind_done _ _ _ 0 (mkXDR XDR_ENCODE ((a ++ b1) ++ b2) (length (a ++ b1)))).
      2:{ cbn. erewrite bind_done; [reflexivity|]. rewrite <- !app_assoc. apply setpos_in; unfold NET_INTSIZE_; sizes. }
      apply bind_refused, H2; sizes.
Qed.

(** The reader may know only the first fields [w] of an element: it goes on behind the
    whole element. *)
Lemma decodes_arrayElement {A} (p : A -> xdr A) v0 v w w' : decodes (p v0) v w ->
  (forall a c, fits (a ++ welem (w ++ w') ++ c) ->
     xdr_arrayElement p v0 (mkXDR XDR_DECODE (a ++ welem (w ++ w') ++ c) (length a)) =
     Done v (mkXDR XDR_DECODE (a ++ welem (w ++ w') ++ c) (length (a ++ welem (w ++ w'))))) /\
  (forall a b d, fits (a ++ b) -> welem w = b ++ d -> d <> [] ->
     exists x, xdr_arrayElement p v0 (mkXDR XDR_DECODE (a ++ b) (length a)) = Refused x).
Proof.
  intros [H1 H2]. split.
  - intros a c F. unfold xdr_arrayElement. erewrite bind_done by reflexivity. cbn [x_pos].
    unfold welem at 1 2. rewrite <- (app_assoc (be32 _)).
    erewrite bind_done; [|apply (proj1 (decodes_word wrap32 _ 0)); unfold welem in F; sizes].
    assert (Hi : int32 (Z.of_nat (length (w ++ w')) + 4)) by (unfold int32, welem in *; sizes).
    rewrite wrap32_mod by done.
    rewrite (app_assoc a), <- (app_assoc w w').
    erewrite bind_done; [|apply H1; unfold welem in F; sizes].
    erewrite bind_done by reflexivity.
    erewrite bind_done; [|apply (setpos_in _ _ _ (length (a ++ welem (w ++ w'))))].
    + unfold welem. by rewrite <- !app_assoc.
    + unfold uwrap32, welem in *. rewrite Z.mod_small; sizes.
    + unfold welem in *. sizes.
  - intros a b d F E Hd. unfold xdr_arrayElement. erewrite bind_done by reflexivity. cbn [x_pos].
    destruct (prefix_split _ _ _ _ E) as [(e & He & Hn)|(e & -> & ->)].
    + apply bind_refused, starved_word. rewrite room_app.
      apply (f_equal length) in He. destruct e; [done|]. sizes.
    + erewrite bind_done; [|apply (proj1 (decodes_word wrap32 _ 0)), F].
      apply bind_refused. rewrite (app_assoc a). apply (H2 _ e d); sizes || done.
Qed.

Lemma codec_arrayElement {A} (p : A -> xdr A) v0 v v' u w : codec (p v) (p v0) v' u w ->
  codec (xdr_arrayElement p v) (xdr_arrayElement p v0) v' u (welem w).
Proof.
  intros [He Hd]. split; [by apply encodes_arrayElement|].
  destruct (decodes_arrayElement p v0 u w [] Hd) as [H1 H2]. rewrite app_nil_r in H1. by split.
Qed.

Lemma carries_arrayElement {A} (p : A -> xdr A) v w : carries p v w -> carries (xdr_arrayElement p) v (welem w).
Proof. intros H v0. apply codec_arrayElement, H. Qed.

Lemma transfers_arrayElement {A} (p : A -> xdr A) v : transfers p v -> transfers (xdr_arrayElement p) v.
Proof. intros [w H]. eexists. by apply carries_arrayElement. Qed.

(** ** Strings *)

(** A string of any length that an [int] can hold. *)
Definition vstr (s : cstr) : Prop := no_nul s /\ Z.of_nat (length s) < 2 ^ 31 - 1.

Lemma codec_var_string s s0 : vstr s -> codec (xdr_var_string s) (xdr_var_string s0) s s (wstr s).
Proof.
  intros [Hn Hl]. set (l := Z.of_nat (length s)). apply codec_by_op.
  - pose proof (codec_string (l + 2) (l + 1) s [] ltac:(unfold str; split_and!; [done|lia..])) as [[H1 H2] _].
    split; [apply H1|apply H2].
  - assert (W : wrap32 (l + 1) = l + 1) by (apply wrap32_id; unfold int32; lia).
    pose proof (codec_string (l + 1) (l + 1) s [] ltac:(unfold str; split_and!; [done|lia..])) as [_ [H1 H2]].
    split.
    + intros a c F. erewrite bind_done by reflexivity. unfold wstr. rewrite <- (app_assoc (be32 _)).
      erewrite bind_done; [|apply (proj1 (decodes_word wrap32 _ 0)); unfold wstr in F; sizes].
      rewrite wrap32_mod by (unfold int32; lia). fold l. rewrite W.
      destruct (Z.ltb_spec (l + 1) 0); [lia|].
      erewrite bind_done by (apply (setpos_in _ _ _ (length a)); [done|sizes]).
      rewrite (app_assoc (be32 _)). apply H1, F.
    + intros a b d F E Hd. erewrite bind_done by reflexivity. unfold wstr in E.
      destruct (prefix_split _ _ _ _ E) as [(e & He & Hne)|(e & -> & He)].
      * apply bind_refused, starved_word. rewrite room_app. apply (f_equal length) in He. destruct e; [done|]. sizes.
      * erewrite bind_done; [|apply (proj1 (decodes_word wrap32 _ 0)), F].
        rewrite wrap32_mod by (unfold int32; lia). fold l. rewrite W.
        destruct (Z.ltb_spec (l + 1) 0); [lia|].
        erewrite bind_done by (apply (setpos_in _ _ _ (length a)); [done|sizes]).
        apply (H2 _ _ d); [done| |done]. unfold wstr. by rewrite He, app_assoc.
Qed.

#[export] Hint Resolve codec_var_string codec_arrayElement : xdr.

Lemma codec_time_t t t0 : int32 t -> codec (xdr_time_t t) (xdr_time_t t0) t t (be32 t).
Proof. apply codec_long. Qed.

Lemma carries_array_string maxlen s : str maxlen s -> maxlen < MAXLINELEN -> carries (array_string maxlen) s (wstr s).
Proof.
  intros (Hn & Hl & Hb) Hm s0. unfold MAXLINELEN in *. apply codec_by_op.
  - pose proof (codec_string 1000 maxlen s [] ltac:(unfold str; split_and!; [done|lia..])) as [[H1 H2] _].
    split; [apply H1|apply H2].
  - apply (codec_string 512 maxlen s []). unfold str. split_and!; [done|lia..].
Qed.

(** Strings of an array. *)
Lemma many_strings {A} (p : A -> xdr A) (P : A -> Prop) wire n l : (forall v, P v -> carries p v (wire v)) ->
  n = Z.of_nat (length l) -> Forall P l -> many p n l (concat (wire <$> l)).
Proof. intros Hp Hn H. apply many_wires; [done|]. clear Hn. induction H; constructor; auto. Qed.

Lemma many_var_strings n l : n = Z.of_nat (length l) -> Forall vstr l ->
  many xdr_var_string n l (concat (wstr <$> l)).
Proof. apply many_strings. intros v H v0. by apply codec_var_string. Qed.

Lemma many_array_string l maxlen n : maxlen < MAXLINELEN -> n = Z.of_nat (length l) -> Forall (str maxlen) l ->
  many (array_string maxlen) n l (concat (wstr <$> l)).
Proof. intros Hm. apply many_strings. intros. by apply carries_array_string. Qed.

Lemma many_words conv n l : n = Z.of_nat (length l) -> Forall (fun z => conv (z mod 2 ^ 32) = z) l ->
  many (xdr_word conv) n l (concat (be32 <$> l)).
Proof. apply many_strings. intros v H v0. by apply codec_word. Qed.

Lemma many_ints n l : n = Z.of_nat (length l) -> Forall int32 l -> many xdr_int n l (concat (be32 <$> l)).
Proof. apply many_strings. intros v H v0. by apply codec_int. Qed.

Lemma many_floats n l : n = Z.of_nat (length l) -> Forall uint32 l -> many xdr_float n l (concat (be32 <$> l)).
Proof. apply many_strings. intros v H v0. by apply codec_float. Qed.

#[export] Hint Resolve codec_time_t many_var_strings many_array_string many_ints many_floats : xdr.

(** ** Sizes on the wire *)

Definition wlen (s : cstr) : Z := 4 + Z.of_nat (length s) + pad4 (Z.of_nat (length s)).

Lemma length_padded s : Z.of_nat (length (padded s)) = Z.of_nat (length s) + pad4 (Z.of_nat (length s)).
Proof. unfold padded. rewrite length_app, Nat2Z.inj_add, length_zeros_of; [done|]. apply pad4_bound. Qed.

Lemma length_wstr s : Z.of_nat (length (wstr s)) = wlen s.
Proof. unfold wstr, wlen. rewrite length_app, Nat2Z.inj_add, length_padded, length_be32. lia. Qed.

Lemma length_welem w : Z.of_nat (length (welem w)) = 4 + Z.of_nat (length w).
Proof. unfold welem. rewrite length_app, length_be32. lia. Qed.

Lemma length_words l : Z.of_nat (length (concat (be32 <$> l))) = 4 * Z.of_nat (length l).
Proof. induction l as [|z l IH]; [done|]. cbn [fmap list_fmap concat]. rewrite length_app, length_be32. cbn [length]. lia. Qed.

(** [ceil(n / 4)] words for the characters of a string. *)
Lemma wlen_bounds s : 4 + Z.of_nat (length s) <= wlen s <= 7 + Z.of_nat (length s) /\ wlen s mod 4 = 0.
Proof.
  unfold wlen, pad4. set (n := Z.of_nat (length s)). pose proof (Z.mod_pos_bound (- n) 4 ltac:(lia)). split; [lia|].
  rewrite (Z.mod_eq (- n) 4) by lia. replace (4 + n + (- n - 4 * (- n / 4))) with ((1 - (- n / 4)) * 4) by lia.
  apply Z.mod_mul. lia.
Qed.

(** The length of a wire that is written out. *)
Ltac wire_length :=
  repeat rewrite length_app; repeat rewrite Nat2Z.inj_add;
  repeat first [rewrite length_wstr | rewrite length_be32 | rewrite length_welem | rewrite length_words]; cbn [length].

(** ** Headers *)

Definition wf_LSFHeader (h : LSFHeader) : Prop :=
  int16 (opCode h) /\ uint16 (refCode h) /\ uint32 (length_ h) /\ uint16 (version h) /\ uint16 (reserved h) /\ uint32 (reserved0 h).

Lemma pack_words a b : 0 <= a < 2 ^ 16 -> Z.lor (uwrap32 (Z.shiftl a 16)) (Z.land b 0xFFFF) = a * 2 ^ 16 + b mod 2 ^ 16.
Proof.
  intros Ha. change 0xFFFF with (Z.ones 16). rewrite Z.land_ones, Z.shiftl_mul_pow2 by lia.
  unfold uwrap32. rewrite Z.mod_small by lia. apply lor_shift; [lia|]. apply Z.mod_pos_bound. lia.
Qed.

Lemma unpack_high a b : 0 <= b < 2 ^ 16 -> Z.shiftr (a * 2 ^ 16 + b) 16 = a.
Proof. intros. rewrite Z.shiftr_div_pow2, Z.div_add_l, Z.div_small; lia. Qed.

Lemma unpack_low a b : 0 <= b < 2 ^ 16 -> Z.land (a * 2 ^ 16 + b) 0xFFFF = b.
Proof. intros. change 0xFFFF with (Z.ones 16). rewrite Z.land_ones, Z.add_comm, Z.mod_add, Z.mod_small; lia. Qed.

Lemma wrap16_mod z : int16 z -> wrap16 (z mod 2 ^ 16) = z.
Proof. unfold int16, wrap16. intros. rewrite Zplus_mod_idemp_l, Z.mod_small; lia. Qed.

(** The 16 bytes of a header. *)
Definition whdr (h : LSFHeader) : cstr :=
  let '(w1, w2, w3, w4) := encodeHdr h in be32 w1 ++ be32 w2 ++ be32 w3 ++ be32 w4.

Lemma carries_LSFHeader h : wf_LSFHeader h -> carries xdr_LSFHeader h (whdr h).
Proof.
  destruct h as [op ref len ver res res0]. intros (H1 & H2 & H3 & H4 & H5 & H6) h0. cbn in *. unfold whdr, encodeHdr. cbn.
  assert (B1 : 0 <= op mod 2 ^ 16 < 2 ^ 16) by (apply Z.mod_pos_bound; lia).
  unfold uint16, uint32 in *. rewrite !pack_words by lia. rewrite (Z.mod_small res) by lia.
  unfold xdr_LSFHeader. eapply codec_bind_nil; [by apply codec_on_encode|].
  cbv iota beta. unfold encodeHdr. cbn. rewrite !pack_words by lia. rewrite (Z.mod_small res) by lia.
  do 3 (eapply codec_bind; [apply codec_u_int; unfold uint32; lia|]).
  rewrite <- (app_nil_r (be32 res0)).
  eapply codec_bind; [apply codec_u_int; unfold uint32; lia|]. cbv beta.
  rewrite !unpack_high, !unpack_low, wrap16_mod by lia || done. by apply codec_on_decode.
Qed.

Lemma length_whdr h : length (whdr h) = 16%nat.
Proof. done. Qed.

(** ** Numbers *)

Lemma long_halves l : - 2 ^ 63 <= l < 2 ^ 63 ->
  Z.lor (wrap64 (Z.shiftl (wrap32 (Z.shiftr l 32)) 32)) (Z.land (wrap32 (Z.land l 0xFFFFFFFF)) 0xFFFFFFFF) = l.
Proof.
  intros H. change 0xFFFFFFFF with (Z.ones 32). rewrite !Z.land_ones, Z.shiftr_div_pow2 by lia.
  assert (Hd : - 2 ^ 31 <= l / 2 ^ 32 < 2 ^ 31).
  { split; [apply Z.div_le_lower_bound|apply Z.div_lt_upper_bound]; lia. }
  assert (Hm : wrap32 (l mod 2 ^ 32) mod 2 ^ 32 = l mod 2 ^ 32).
  { unfold wrap32. rewrite Zminus_mod_idemp_l.
    replace (l mod 2 ^ 32 + 2 ^ 31 - 2 ^ 31) with (l mod 2 ^ 32) by lia. apply Z.mod_mod. lia. }
  rewrite (wrap32_id (l / 2 ^ 32)), Hm, Z.shiftl_mul_pow2 by (unfold int32; lia).
  replace (wrap64 (l / 2 ^ 32 * 2 ^ 32)) with (l / 2 ^ 32 * 2 ^ 32) by (unfold wrap64; rewrite Z.mod_small; lia).
  rewrite lor_shift by (try apply Z.mod_pos_bound; lia).
  rewrite (Z.div_mod l (2 ^ 32)) at 3 by lia. lia.
Qed.

Lemma transfers_LSFlong l : - 2 ^ 63 <= l < 2 ^ 63 -> transfers xdr_LSFlong l.
Proof.
  intros H. eexists. intros l0. unfold xdr_LSFlong. eapply codec_bind_nil; [by apply codec_on_encode|].
  cbv beta iota. do 2 (eapply codec_bind; [apply codec_int, wrap32_int32|]). cbv beta.
  rewrite long_halves by done. by apply codec_on_decode.
Qed.

Definition wf_lsfLimit (l : lsfLimit) : Prop :=
  Forall int32 [rlim_curl l; rlim_curh l; rlim_maxl l; rlim_maxh l].

Definition wlimit (l : lsfLimit) : cstr :=
  be32 (rlim_curl l) ++ be32 (rlim_curh l) ++ be32 (rlim_maxl l) ++ be32 (rlim_maxh l) ++ [].

Lemma carries_lsfLimit l : wf_lsfLimit l -> carries xdr_lsfLimit l (wlimit l).
Proof. destruct l. intros H l0. unfold wf_lsfLimit in H. cbn in *. fields. unfold xdr_lsfLimit, wlimit. repeat xdr_step. Qed.

Lemma length_le_bytes n z : length (le_bytes n z) = n.
Proof. revert z. induction n; intros; cbn; auto. Qed.

Lemma of_be_snoc bs c : of_be (bs ++ [c]) = of_be bs * 256 + of_byte c.
Proof. unfold of_be. by rewrite fold_left_app. Qed.

Lemma of_le_bytes n z : 0 <= z < 256 ^ Z.of_nat n -> of_le (le_bytes n z) = z.
Proof.
  unfold of_le. revert z. induction n as [|n IH]; intros z H.
  - cbn in *. lia.
  - cbn [le_bytes rev]. rewrite of_be_snoc, IH, of_byte_of.
    + rewrite Z.mul_comm. symmetry. apply Z.div_mod. lia.
    + rewrite Nat2Z.inj_succ, Z.pow_succ_r in H by lia. split; [apply Z.div_pos; lia|apply Z.div_lt_upper_bound; lia].
Qed.

Lemma transfers_raw n z : 0 <= z < 256 ^ Z.of_nat n -> (n < 1000)%nat -> transfers (xdr_raw n) z.
Proof.
  intros H Hn. eexists. intros z0. unfold xdr_raw.
  pose proof (codec_bytes (Z.of_nat n) (Z.of_nat n) (Z.of_nat n) (le_bytes n z) (le_bytes n z0)) as C.
  cbv zeta in C. rewrite length_le_bytes in C.
  eapply codec_bind.
  - apply C; lia.
  - cbv beta iota. rewrite of_le_bytes by done. by apply codec_on_decode.
Qed.

Lemma transfers_portno p : uint16 p -> transfers xdr_portno p.
Proof. intros H. by apply (transfers_raw 2); [|lia]. Qed.

Lemma transfers_address a : uint32 a -> transfers xdr_address a.
Proof. intros H. by apply (transfers_raw 4); [|lia]. Qed.

(** ** Records *)

(** Every field fits into 31 bits. *)
Definition wf_stat (s : stat) : Prop :=
  Forall (fun z => 0 <= z < 2 ^ 31)
    [st_dev s; st_ino s; st_mode s; st_nlink s; st_uid s; st_gid s; st_rdev s; st_size s; st_atime s; st_mtime s; st_ctime s].

Lemma codec_stat_word conv z z0 : (conv = (fun w => uwrap64 (wrap32 w)) \/ conv = (fun w => uwrap32 (wrap32 w)) \/ conv = wrap32) ->
  0 <= z < 2 ^ 31 -> codec (xdr_word conv z) (xdr_word conv z0) z z (be32 z).
Proof.
  intros Hc Hz. apply codec_word.
  assert (W : wrap32 (z mod 2 ^ 32) = z) by (apply wrap32_mod; unfold int32; lia).
  destruct Hc as [-> |[-> | ->]]; cbv beta; rewrite ?W; [| |done]; unfold uwrap64, uwrap32; apply Z.mod_small; lia.
Qed.

Lemma transfers_stat s : wf_stat s -> transfers xdr_stat s.
Proof.
  destruct s. intros H. unfold wf_stat in H. cbn in H. fields. eexists. intros s0. unfold xdr_stat. cbv zeta.
  repeat (eapply codec_bind; [solve [apply codec_stat_word; auto]|]; cbv beta). apply codec_ret.
Qed.

Definition wf_lsfRusage (r : lsfRusage) : Prop :=
  Forall uint64 [ru_utime r; ru_stime r; ru_maxrss r; ru_ixrss r; ru_ismrss r; ru_idrss r; ru_isrss r; ru_minflt r;
    ru_majflt r; ru_nswap r; ru_inblock r; ru_oublock r; ru_ioch r; ru_msgsnd r; ru_msgrcv r; ru_nsignals r;
    ru_nvcsw r; ru_nivcsw r; ru_exutime r].

Lemma transfers_lsfRusage r : wf_lsfRusage r -> transfers xdr_lsfRusage r.
Proof.
  destruct r. intros H. unfold wf_lsfRusage in H. cbn in H. fields. eexists. intros r0. unfold xdr_lsfRusage.
  repeat xdr_step.
Qed.

Definition wf_pidInfo (p : pidInfo) : Prop := Forall int32 [pid p; ppid p; pi_pgid p; pi_jobid p].

Lemma transfers_pidInfo p : wf_pidInfo p -> transfers xdr_pidInfo p.
Proof. destruct p. intros H. unfold wf_pidInfo in H. cbn in H. fields. eexists. intros p0. unfold xdr_pidInfo. repeat xdr_step. Qed.

Definition wf_jRusage (r : jRusage) : Prop :=
  Forall int32 [mem r; swap r; utime r; stime r] /\ counts (npids r) (pidInfos r) /\ counts (npgids r) (pgid r) /\
  Forall wf_pidInfo (pidInfos r) /\ Forall int32 (pgid r).

Lemma transfers_jRusage r : wf_jRusage r -> transfers xdr_jRusage r.
Proof.
  destruct r. intros H. unfold wf_jRusage, counts in H. cbn in H. fields.
  destruct (many_transfers (xdr_arrayElement xdr_pidInfo) npids pidInfos) as [w Hw]; [done| |].
  { eapply Forall_impl; [done|]. intros. by apply transfers_arrayElement, transfers_pidInfo. }
  assert (Hg : many (xdr_arrayElement xdr_int) npgids pgid (concat ((fun z => welem (be32 z)) <$> pgid))).
  { apply (many_strings _ int32); [|done..]. intros v Hv. apply carries_arrayElement. intros v0. by apply codec_int. }
  eexists. intros r0. unfold xdr_jRusage. repeat xdr_step.
Qed.

Lemma transfers_stringLen s : chars (len s) (name s) -> forall s0, len s0 = len s ->
  codec (xdr_stringLen s) (xdr_stringLen s0) s s (wstr (name s) ++ []).
Proof. destruct s. cbn. intros H s0 E. unfold xdr_stringLen. rewrite E. cbn. repeat xdr_step. Qed.

(** ** Data of given length and authentication *)

Definition wf_lenData (d : lenData) : Prop := counts (ld_len d) (ld_data d).

Definition wdata (d : lenData) : cstr := be32 (ld_len d) ++ be32 (ld_len d) ++ padded (ld_data d).

Lemma int32_len {A} (d : list A) : int32 (Z.of_nat (length d)) -> Z.of_nat (length d) < 2 ^ 31.
Proof. unfold int32. lia. Qed.

(** The length, and the bytes with their length again. *)
Lemma codec_body cap d data0 len0 : wf_lenData d -> ld_len d <= cap ->
  codec ('(len', data) ← xdr_bytes cap (ld_len d) (ld_len d) (ld_data d); mret (mkLenData len' data))
        ('(len', data) ← xdr_bytes cap (ld_len d) len0 data0; mret (mkLenData len' data)) d d
        ((be32 (ld_len d) ++ padded (ld_data d)) ++ []).
Proof.
  destruct d as [n data]. intros [E H] Hc. cbn in *. subst n. unfold int32 in H. eapply codec_bind; [apply codec_bytes; lia|].
  apply codec_ret.
Qed.

Lemma transfers_lenData d : wf_lenData d -> transfers xdr_lenData d.
Proof.
  intros H. pose proof H as [Hn Hi]. destruct (Z.eqb_spec (ld_len d) 0) as [E|E]; eexists; intros d0; unfold xdr_lenData.
  - eapply codec_bind; [by apply codec_int|]. cbv beta. rewrite E. destruct d as [n data]. cbn in *.
    destruct data; [|cbn in *; lia]. subst. apply codec_ret.
  - eapply codec_bind; [by apply codec_int|]. cbv beta. destruct (Z.eqb_spec (ld_len d) 0); [done|].
    eapply codec_bind_nil; [apply codec_on_decode; destruct (Z.ltb_spec (ld_len d) 0); [lia|done]|].
    apply codec_body; [done|lia].
Qed.

(** The member of the union that [kind] selects is well formed. *)
Definition wf_lsfAuth (a : lsfAuth) : Prop :=
  Forall int32 [uid a; gid a; kind a] /\ chars MAXLSFNAMELEN (lsfUserName a) /\
  (if kind a =? CLIENT_DCE then wf_lenData (authToken a)
   else if kind a =? CLIENT_EAUTH then wf_lenData (eauth a) /\ ld_len (eauth a) <= EAUTH_SIZE
   else int32 (filler a)).

(** What a receiver whose record held [a0] has after the message of [a]. *)
Definition received_auth (a a0 : lsfAuth) : lsfAuth :=
  let dce := kind a =? CLIENT_DCE in
  let ext := kind a =? CLIENT_EAUTH in
  mkLsfAuth (uid a) (gid a) (lsfUserName a) (kind a) (filler (if dce || ext then a0 else a))
    (authToken (if dce then a else a0)) (eauth (if negb dce && ext then a else a0)) AUTH_HOST_UX.

Definition wauth (a : lsfAuth) : cstr :=
  be32 (uid a) ++ be32 (gid a) ++ wstr (lsfUserName a) ++ be32 (kind a) ++
  (if kind a =? CLIENT_DCE then wdata (authToken a)
   else if kind a =? CLIENT_EAUTH then wdata (eauth a) else welem (be32 (filler a))) ++ be32 AUTH_HOST_UX.

Lemma codec_wire {A} (m n : xdr A) v u w w' : codec m n v u w -> w = w' -> codec m n v u w'.
Proof. by intros H <-. Qed.

(** The three forms of the body. *)
Lemma codec_authToken t t0 : wf_lenData t -> codec (xdr_authToken t) (xdr_authToken t0) t t (wdata t ++ []).
Proof.
  intros H. pose proof H as [Hn Hi]. unfold xdr_authToken, wdata. rewrite <- app_assoc.
  eapply codec_bind; [by apply codec_int|]. cbv beta.
  eapply codec_bind_nil; [apply codec_on_decode; destruct (Z.ltb_spec (ld_len t) 0); [lia|done]|].
  apply codec_body; [done|lia].
Qed.

Lemma codec_eauth t t0 : wf_lenData t -> ld_len t <= EAUTH_SIZE -> codec (xdr_eauth t) (xdr_eauth t0) t t (wdata t ++ []).
Proof.
  intros H Hl. pose proof H as [Hn Hi]. unfold xdr_eauth, wdata. rewrite <- app_assoc.
  eapply codec_bind; [by apply codec_int|]. by apply codec_body.
Qed.

Lemma codec_lsfAuth a a0 : wf_lsfAuth a ->
  codec (xdr_lsfAuth a) (xdr_lsfAuth a0) (received_auth a a) (received_auth a a0) (wauth a).
Proof.
  intros (H & Hs & Hk). fields. unfold xdr_lsfAuth, wauth.
  do 4 (eapply codec_bind; [solve [eauto with xdr]|]; cbv beta).
  unfold received_auth. rewrite <- (app_nil_r (be32 AUTH_HOST_UX)).
  destruct (kind a =? CLIENT_DCE); [|destruct (kind a =? CLIENT_EAUTH)]; destruct a, a0; cbn in *.
  1: eapply codec_bind; [eapply codec_wire; [eapply codec_bind; [by apply codec_authToken|apply codec_ret]|by rewrite !app_nil_r]|].
  2: eapply codec_bind; [eapply codec_wire; [eapply codec_bind; [apply codec_eauth; apply Hk|apply codec_ret]|by rewrite !app_nil_r]|].
  3: eapply codec_bind; [eapply codec_wire; [eapply codec_bind; [by apply codec_arrayElement, codec_int|apply codec_ret]|by rewrite !app_nil_r]|].
  all: cbv beta iota; eapply codec_bind_nil; [by apply codec_on_encode|].
  all: eapply codec_bind; [by apply codec_int|apply codec_ret].
Qed.
