(* ===== verification/XdrMsg.v ===== *)
(** * Messages are delivered

    [Wire] is what a function for one kind of record promises to the functions that
    send and receive messages.  The theorems about messages are proved for every
    instance. *)
From stdpp Require Import base list.
From Stdlib Require Import ZArith Ascii Lia.
From S2P Require Import Prelude JobId Xdr XdrLib XdrCarry.
Local Open Scope Z_scope.

(** ** The interface of records *)

Class Wire {A} (p : A -> xdr A) := {
  wf_wire : A -> Prop;
  wire_transfers : forall v, wf_wire v -> transfers p v }.

Lemma transfers_int v : int32 v -> transfers xdr_int v.
Proof. intros H. eexists. intros v0. by apply codec_int. Qed.

#[export] Instance wire_int : Wire xdr_int := { wf_wire := int32; wire_transfers := transfers_int }.

#[export] Instance wire_stat : Wire xdr_stat := { wf_wire := wf_stat; wire_transfers := transfers_stat }.
#[export] Instance wire_lsfRusage : Wire xdr_lsfRusage := { wf_wire := wf_lsfRusage; wire_transfers := transfers_lsfRusage }.
#[export] Instance wire_jRusage : Wire xdr_jRusage := { wf_wire := wf_jRusage; wire_transfers := transfers_jRusage }.
#[export] Instance wire_lenData : Wire xdr_lenData := { wf_wire := wf_lenData; wire_transfers := transfers_lenData }.

(** Elements of arrays keep the promise of the function for an element. *)
#[export] Instance wire_arrayElement {A} (p : A -> xdr A) `{!Wire p} : Wire (xdr_arrayElement p) := {
  wf_wire := wf_wire;
  wire_transfers v H := transfers_arrayElement p v (wire_transfers v H) }.

(** ** Encoding a message *)

Definition wopt {A} (wire : A -> cstr) (o : option A) : cstr := match o with None => [] | Some v => wire v end.

Lemma encodes_optionally {A} (p : A -> xdr A) (o : option A) (wire : A -> cstr) :
  (forall v, o = Some v -> exists u, encodes (p v) u (wire v)) -> encodes (optionally p o) tt (wopt wire o).
Proof.
  intros H. destruct o as [v|]; cbn; [|apply encodes_ret].
  destruct (H v eq_refl) as [u Hu]. rewrite <- (app_nil_r (wire v)). eapply encodes_bind; [done|apply encodes_ret].
Qed.

(** The header that goes with a body of [n] bytes. *)
Definition sent_header (hdr : LSFHeader) (options : Z) (n : nat) : LSFHeader :=
  let hdr1 := with_version hdr JHLAVA_VERSION in
  if has options ENMSG_USE_LENGTH then hdr1 else with_length hdr1 (Z.of_nat n).

Definition final_header (hdr : LSFHeader) (options len : Z) : LSFHeader :=
  let hdr1 := with_version hdr JHLAVA_VERSION in
  if has options ENMSG_USE_LENGTH then hdr1 else with_length hdr1 (uwrap32 (len - LSF_HEADER_LEN)).

Lemma final_sent hdr options len n : len = 16 + Z.of_nat n -> Z.of_nat n < 2 ^ 31 ->
  final_header hdr options len = sent_header hdr options n.
Proof.
  intros -> Hn. unfold final_header, sent_header. cbv zeta. destruct (has options ENMSG_USE_LENGTH); [done|].
  unfold uwrap32, LSF_HEADER_LEN. rewrite Z.mod_small by lia. f_equal. lia.
Qed.

Lemma wf_final hdr options len : wf_LSFHeader hdr -> wf_LSFHeader (final_header hdr options len).
Proof.
  intros (H1 & H2 & H3 & H4 & H5 & H6). pose proof (Z.mod_pos_bound (len - LSF_HEADER_LEN) (2 ^ 32) ltac:(lia)).
  unfold final_header. destruct (has options ENMSG_USE_LENGTH); unfold wf_LSFHeader; cbn;
    unfold int16, uint32, uint16, JHLAVA_VERSION, uwrap32 in *; split_and!; done || lia.
Qed.

Section encoding.
Context {A : Type} (p : A -> xdr A) (data : option A) (auth : option lsfAuth) (wire : A -> cstr).
Hypothesis auth_ok : forall a, auth = Some a -> wf_lsfAuth a.
Hypothesis data_ok : forall v, data = Some v -> carries p v (wire v).

Let body := wopt wauth auth ++ wopt wire data.

Lemma encodes_body : encodes (_ ← optionally xdr_lsfAuth auth; optionally p data) tt body.
Proof.
  eapply encodes_bind; apply encodes_optionally.
  - intros a Ha. eexists. by apply (codec_lsfAuth a a), auth_ok.
  - intros v Hv. eexists. by apply (data_ok v Hv v).
Qed.

(** [xdr_encodeMsg] in two steps: the body behind the header, and the header. *)
Lemma encodeMsg_eq hdr options x : xdr_encodeMsg data hdr p options auth x =
  (_ ← XDR_SETPOS LSF_HEADER_LEN;
   _ ← (_ ← optionally xdr_lsfAuth auth; optionally p data);
   len ← XDR_GETPOS;
   _ ← XDR_SETPOS 0;
   hdr3 ← xdr_LSFHeader (final_header hdr options len);
   _ ← XDR_SETPOS len;
   mret hdr3) x.
Proof.
  unfold xdr_encodeMsg, mbind, xdr_bind. destruct (XDR_SETPOS LSF_HEADER_LEN x); [|done..].
  by destruct (optionally xdr_lsfAuth auth _).
Qed.

Lemma encodeMsg_done hdr options b c : wf_LSFHeader hdr -> fits (b ++ c) -> length b = (16 + length body)%nat ->
  let hdr' := sent_header hdr options (length body) in
  xdr_encodeMsg data hdr p options auth (xdrmem_create (b ++ c) XDR_ENCODE) =
  Done hdr' (mkXDR XDR_ENCODE (whdr hdr' ++ body ++ c) (16 + length body)).
Proof.
  intros Hh F Hb hdr'. destruct (split_length b _ _ Hb) as (b1 & b2 & -> & L1 & L2).
  rewrite encodeMsg_eq. unfold xdrmem_create. rewrite <- app_assoc in *.
  erewrite bind_done by (apply (setpos_in _ _ _ (length b1)); [by rewrite L1|sizes]).
  rewrite (bind_done _ _ _ _ _ (proj1 encodes_body b1 b2 c F L2)).
  erewrite bind_done by reflexivity. cbn [x_pos].
  erewrite bind_done by (apply (setpos_in _ _ _ 0); [done|lia]).
  pose proof (wf_final hdr options (Z.of_nat (length (b1 ++ body))) Hh) as W.
  rewrite (final_sent hdr options _ (length body)) in * by sizes. fold hdr' in W |- *.
  erewrite bind_done.
  2:{ apply (proj1 (cod_enc _ _ _ _ _ (carries_LSFHeader hdr' W hdr')) [] b1 (body ++ c)); [cbn [app]; sizes|by rewrite length_whdr]. }
  erewrite bind_done; [|apply (setpos_in _ _ _ (16 + length body)); [|rewrite !length_app, length_whdr; lia]].
  - done.
  - by rewrite length_app, L1.
Qed.

(** A buffer that is too small is refused, whatever was written before. *)
Lemma encodeMsg_refused hdr options b : wf_LSFHeader hdr -> fits b -> (length b < 16 + length body)%nat ->
  exists x, xdr_encodeMsg data hdr p options auth (xdrmem_create b XDR_ENCODE) = Refused x.
Proof.
  intros Hh F Hb. rewrite encodeMsg_eq. unfold xdrmem_create. destruct (decide (length b < 16)%nat) as [L|L].
  - erewrite bind_done by (apply setpos_out; cbn; unfold LSF_HEADER_LEN; lia).
    destruct (decide (length b < length body)%nat) as [L'|L']; [by apply bind_refused, (proj2 encodes_body [])|].
    assert (Hs : length b = (length body + (length b - length body))%nat) by lia.
    destruct (split_length b _ _ Hs) as (b1 & b2 & -> & L1 & L2).
    rewrite (bind_done _ _ _ _ _ (proj1 encodes_body [] b1 b2 F L1)).
    erewrite bind_done by reflexivity. cbn [x_pos app].
    erewrite bind_done by (apply (setpos_in _ _ _ 0); [done|lia]). apply bind_refused.
    apply (proj2 (cod_enc _ _ _ _ _ (carries_LSFHeader _ (wf_final hdr options _ Hh) hdr)) [] (body ++ b2)); [sizes|].
    rewrite length_whdr. sizes.
  - assert (Hs : length b = (16 + (length b - 16))%nat) by lia.
    destruct (split_length b _ _ Hs) as (b1 & b2 & -> & L1 & L2).
    erewrite bind_done by (apply (setpos_in _ _ _ (length b1)); [by rewrite L1|sizes]).
    apply bind_refused, (proj2 encodes_body); sizes.
Qed.
End encoding.

(** ** Receiving a message *)

Definition delivered_auth (auth auth0 : option lsfAuth) : option lsfAuth :=
  match auth, auth0 with Some a, Some a0 => Some (received_auth a a0) | _, _ => None end.

Lemma decodes_body {A} (p : A -> xdr A) v v0 w auth auth0 : decodes (p v0) v w ->
  (forall a, auth = Some a -> wf_lsfAuth a) -> is_Some auth <-> is_Some auth0 ->
  decodes (auth' ← match auth0 with None => mret None | Some a => a' ← xdr_lsfAuth a; mret (Some a') end;
           data' ← p v0; mret (auth', data')) (delivered_auth auth auth0, v) (wopt wauth auth ++ w).
Proof.
  intros Hp Ha Hi. rewrite <- (app_nil_r w). eapply decodes_bind.
  2:{ eapply decodes_bind; [done|apply decodes_ret]. }
  destruct auth as [a|], auth0 as [a0|]; cbn.
  - rewrite <- (app_nil_r (wauth a)). eapply decodes_bind; [by apply (codec_lsfAuth a a0), Ha|apply decodes_ret].
  - destruct (proj1 Hi (ex_intro _ a eq_refl)) as [? [=]].
  - destruct (proj2 Hi (ex_intro _ a0 eq_refl)) as [? [=]].
  - apply decodes_ret.
Qed.

Lemma refill_ok b bytes : (length bytes <= length b)%nat -> fits b ->
  exists c, refill (xdrmem_create b XDR_DECODE) bytes = Some (mkXDR XDR_DECODE (bytes ++ c) 0) /\ fits (bytes ++ c).
Proof.
  intros Hl F. exists (drop (length bytes) b). unfold refill, xdrmem_create. cbn.
  destruct (Z.ltb_spec (Z.of_nat (length b)) (Z.of_nat (length bytes))); [lia|]. split; [done|].
  unfold fits in *. rewrite length_app, length_drop. lia.
Qed.

Section delivery.
Context {Chan : Type} (readFunc : Chan -> Z -> Z * cstr * Chan).

(** [pending ch bs]: the bytes [bs] are still to be read from the channel.  [readFunc]
    waits until it has as many bytes as it was asked for. *)
Variable pending : Chan -> cstr -> Prop.
Hypothesis reads : forall ch bytes rest, pending ch (bytes ++ rest) ->
  exists ch', readFunc ch (Z.of_nat (length bytes)) = (Z.of_nat (length bytes), bytes, ch') /\ pending ch' rest.

Lemma header_received h hdr0 ch rest buf : wf_LSFHeader h -> pending ch (whdr h ++ rest) ->
  fits buf -> (16 <= length buf)%nat ->
  exists x ch', readDecodeHdr_ readFunc ch (xdrmem_create buf XDR_DECODE) hdr0 = Received h x ch' /\ pending ch' rest /\
    x_op x = XDR_DECODE /\ length (x_buf x) = length buf.
Proof.
  intros Hh Hp F Hl. destruct (reads _ _ _ Hp) as (ch' & E & Hp'). rewrite length_whdr in E.
  unfold readDecodeHdr_. change LSF_HEADER_LEN with (Z.of_nat 16). rewrite E.
  destruct (refill_ok buf (whdr h)) as (c & Ec & Fc); [by rewrite length_whdr|done|]. rewrite Ec, Z.eqb_refl.
  pose proof (proj1 (cod_dec _ _ _ _ _ (carries_LSFHeader h Hh hdr0)) [] c Fc) as D. cbn [app length] in D.
  rewrite D. cbn [decoded]. do 2 eexists. split; [done|]. split; [done|]. split; [done|]. cbn [x_buf].
  unfold refill in Ec. cbn in Ec. destruct (_ <? _); [done|]. injection Ec as Ec. rewrite <- Ec.
  rewrite length_app, length_drop, length_whdr. lia.
Qed.

Lemma body_received {A} (p : A -> xdr A) v v0 w auth auth0 h ch rest buf : decodes (p v0) v w ->
  (forall a, auth = Some a -> wf_lsfAuth a) -> is_Some auth <-> is_Some auth0 ->
  length_ h = Z.of_nat (length (wopt wauth auth ++ w)) -> pending ch ((wopt wauth auth ++ w) ++ rest) ->
  fits buf -> (length (wopt wauth auth ++ w) <= length buf)%nat ->
  exists x ch', readDecodeMsg_ readFunc ch h (xdrmem_create buf XDR_DECODE) v0 p auth0 =
    Received (delivered_auth auth auth0, v) x ch' /\ pending ch' rest.
Proof.
  intros Hd Ha Hi Hl Hp F Hb. destruct (reads _ _ _ Hp) as (ch' & E & Hp').
  unfold readDecodeMsg_. rewrite Hl, wrap32_id by (unfold int32, fits in *; lia). rewrite E.
  destruct (refill_ok buf (wopt wauth auth ++ w)) as (c & Ec & Fc); [done..|]. rewrite Ec.
  unfold uwrap32. rewrite Z.mod_small, Z.eqb_refl by (unfold fits in *; lia).
  pose proof (proj1 (decodes_body p v v0 w auth auth0 Hd Ha Hi) [] c Fc) as D. cbn [length] in D. change ([] ++ ?x) with x in D.
  rewrite D. cbn. eauto.
Qed.

(** C5: A message is delivered.  For every kind of record whose function is an instance
    of [Wire], and every well-formed record, header and authentication: there is a
    size such that [xdr_encodeMsg] is refused by every smaller buffer, and fills
    that many bytes of a larger one; a receiver that reads these bytes from a
    channel, first with [readDecodeHdr_] and then with [readDecodeMsg_], gets the
    header, the authentication and the record that were sent, and leaves what
    follows in the channel. *)
Theorem message_delivered {A} (p : A -> xdr A) `{!Wire p} (v : A) hdr auth auth0 :
  wf_wire v -> wf_LSFHeader hdr -> (forall a, auth = Some a -> wf_lsfAuth a) -> is_Some auth <-> is_Some auth0 ->
  exists n, (16 <= n)%nat /\
  (forall buf, fits buf -> (length buf < n)%nat ->
     exists x, xdr_encodeMsg (Some v) hdr p 0 auth (xdrmem_create buf XDR_ENCODE) = Refused x) /\
  (forall buf, fits buf -> (n <= length buf)%nat ->
     let hdr' := with_length (with_version hdr JHLAVA_VERSION) (Z.of_nat (n - 16)) in
     exists x, xdr_encodeMsg (Some v) hdr p 0 auth (xdrmem_create buf XDR_ENCODE) = Done hdr' x /\ x_pos x = n /\
     forall ch rest buf1 buf2 hdr0 v0, pending ch (take n (x_buf x) ++ rest) ->
       fits buf1 -> (16 <= length buf1)%nat -> fits buf2 -> (n - 16 <= length buf2)%nat ->
       exists x1 ch1 x2 ch2,
         readDecodeHdr_ readFunc ch (xdrmem_create buf1 XDR_DECODE) hdr0 = Received hdr' x1 ch1 /\
         readDecodeMsg_ readFunc ch1 hdr' (xdrmem_create buf2 XDR_DECODE) v0 p auth0 =
           Received (delivered_auth auth auth0, v) x2 ch2 /\
         pending ch2 rest).
Proof.
  intros Hv Hh Ha Hi. destruct (wire_transfers v Hv) as [w Hw].
  assert (Hd : forall v', Some v = Some v' -> carries p v' w) by by intros v' [= <-].
  set (body := wopt wauth auth ++ w). exists (16 + length body)%nat. split_and!; [lia| |].
  - intros buf F Hl. by apply (encodeMsg_refused p (Some v) auth (fun _ => w)).
  - intros buf F Hl hdr'.
    assert (Hs : length buf = (16 + length body + (length buf - (16 + length body)))%nat) by lia.
    destruct (split_length buf _ _ Hs) as (b & c & -> & L1 & L2).
    assert (Eh : sent_header hdr 0 (length body) = hdr') by (unfold hdr', sent_header; cbn; f_equal; lia).
    pose proof (encodeMsg_done p (Some v) auth (fun _ => w) Ha Hd hdr 0 b c Hh F L1) as E. cbv zeta in E.
    cbn [wopt] in E. fold body in E. rewrite Eh in E.
    eexists. split; [exact E|]. split; [done|].
    intros ch rest buf1 buf2 hdr0 v0 Hp F1 L1' F2 L2'. cbn [x_buf wopt] in Hp. fold body in Hp.
    assert (Ht : forall h, take (16 + length body) (whdr h ++ body ++ c) = whdr h ++ body).
    { intros h. rewrite (app_assoc (whdr h)). apply take_app_length'. by rewrite length_app, length_whdr. }
    rewrite Ht, <- app_assoc in Hp.
    assert (Hw' : wf_LSFHeader hdr').
    { rewrite <- Eh, <- (final_sent hdr 0 (16 + Z.of_nat (length body))) by sizes. by apply wf_final. }
    destruct (header_received _ hdr0 _ _ buf1 Hw' Hp F1 L1') as (x1 & ch1 & E1 & Hp1 & _).
    destruct (body_received p v v0 w auth auth0 hdr' ch1 rest buf2) as (x2 & ch2 & E2 & Hp2);
      [apply Hw|done|done| |done|done|fold body; lia|]; [unfold hdr'; cbn; fold body; f_equal; lia|]. eauto 10.
Qed.
End delivery.
