(* ===== verification/XdrBatch.v ===== *)
(** * Requests and replies of the batch system: identifiers and arrays

    What the functions of lsbatch/lib/lsb.xdr.c and lsbatch/daemons/daemons.xdr.c share:
    job identifiers travel as two numbers, arrays that are part of a struct have a
    fixed size, and an array may need targets of a given shape. *)
From stdpp Require Import base list.
From Stdlib Require Import ZArith Ascii Lia.
From S2P Require Import Prelude JobId Xdr XdrLib XdrCarry.
Local Open Scope Z_scope.

Definition MAX_LSB_NAME_LEN : Z := 60.
Definition MAX_CMD_DESC_LEN : Z := 256.
Definition LSB_MAX_SD_LENGTH : Z := 128.
Definition LSF_RLIM_NLIMITS : Z := 11.
Definition LSB_SIG_NUM : Z := 23.
Definition NUM_JGRP_COUNTERS : Z := 8.

(** ** Job identifiers *)

Definition jobId64To32 (interJobId : Z) : Z * Z := (LSB_ARRAY_JOBID interJobId, LSB_ARRAY_IDX interJobId).
Definition jobId32To64 (jobId jobArrElemId : Z) : Z := LSB_JOBID jobId jobArrElemId.

(** The number of a job below 2^31 and an index of an array. *)
Definition jobid_ok (id : Z) : Prop := 0 <= id /\ id mod 2 ^ 32 < 2 ^ 31 /\ id / 2 ^ 32 <= LSB_MAX_ARRAY_IDX.

Lemma jobid_parts id : jobid_ok id ->
  int32 (LSB_ARRAY_JOBID id) /\ int32 (LSB_ARRAY_IDX id) /\ jobId32To64 (LSB_ARRAY_JOBID id) (LSB_ARRAY_IDX id) = id.
Proof.
  intros (H0 & H1 & H2). set (j := id mod 2 ^ 32) in *. set (i := id / 2 ^ 32) in *.
  assert (Hj : 0 <= j) by (apply Z.mod_pos_bound; lia). assert (Hi : 0 <= i) by (apply Z.div_pos; lia).
  assert (E : id = LSB_JOBID j i).
  { unfold LSB_MAX_ARRAY_IDX in H2. rewrite LSB_JOBID_val by lia. unfold i, j. rewrite Z.mul_comm. apply Z.div_mod. lia. }
  rewrite E, jobid_job, jobid_idx by lia. unfold LSB_MAX_ARRAY_IDX in *.
  split_and!; [unfold int32; lia..|]. done.
Qed.

Lemma codec_ids id id0 : codec (on_encode (mret (jobId64To32 id)) (0, 0)) (on_encode (mret (jobId64To32 id0)) (0, 0))
  (LSB_ARRAY_JOBID id, LSB_ARRAY_IDX id) (0, 0) [].
Proof. by apply codec_on_encode. Qed.

Lemma codec_jobid id id0 : jobid_ok id ->
  codec (on_decode (mret (jobId32To64 (LSB_ARRAY_JOBID id) (LSB_ARRAY_IDX id))) id)
        (on_decode (mret (jobId32To64 (LSB_ARRAY_JOBID id) (LSB_ARRAY_IDX id))) id0) id id [].
Proof. intros H. apply codec_on_decode. by rewrite (proj2 (proj2 (jobid_parts id H))). Qed.

Lemma codec_jobArrId id a0 : jobid_ok id ->
  codec (xdr_int (LSB_ARRAY_JOBID id)) (xdr_int a0) (LSB_ARRAY_JOBID id) (LSB_ARRAY_JOBID id) (be32 (LSB_ARRAY_JOBID id)).
Proof. intros H. by apply codec_int, jobid_parts. Qed.

Lemma codec_jobArrElemId id a0 : jobid_ok id ->
  codec (xdr_int (LSB_ARRAY_IDX id)) (xdr_int a0) (LSB_ARRAY_IDX id) (LSB_ARRAY_IDX id) (be32 (LSB_ARRAY_IDX id)).
Proof. intros H. by apply codec_int, jobid_parts. Qed.

#[export] Hint Resolve codec_ids codec_jobid codec_jobArrId codec_jobArrElemId : xdr.

(** ** Arrays in structs *)

(** An array of [n] elements is part of the target: [d] stands for what it holds. *)
Definition sized {A} (n : Z) (d : A) (l : list A) : list A := take (Z.to_nat n) (l ++ replicate (Z.to_nat n) d).

Lemma length_sized {A} n (d : A) l : length (sized n d l) = Z.to_nat n.
Proof. unfold sized. rewrite length_take, length_app, length_replicate. lia. Qed.

Definition xdr_array {A} (p : A -> xdr A) (n : Z) (d : A) (l : list A) : xdr (list A) :=
  a ← on_decode (mret (sized n d l)) l; xdr_vector p n a.

Lemma codec_array {A} (p : A -> xdr A) n d l l0 w : many p n l w ->
  codec (xdr_array p n d l) (xdr_array p n d l0) l l w.
Proof.
  intros H. eapply codec_bind_nil; [by apply codec_on_decode|]. apply H, length_sized.
Qed.

(** [nLimits] numbers, of which the array takes [n]; the rest is skipped. *)
Definition xdr_limits {A} (p : A -> xdr A) (n : Z) (d : A) (l : list A) : xdr (list A) :=
  nLimits ← xdr_int n;
  a ← on_decode (mret (sized n d l)) l;
  r ← xdr_vector p (Z.min nLimits n) a;
  _ ← xdr_vector p (nLimits - n) (replicate (Z.to_nat (nLimits - n)) d);
  mret (r ++ drop (length r) a).

Lemma codec_limits {A} (p : A -> xdr A) n d l l0 w : many p n l w -> n = Z.of_nat (length l) -> int32 n ->
  codec (xdr_limits p n d l) (xdr_limits p n d l0) l l (be32 n ++ w ++ []).
Proof.
  intros H Hn Hi. unfold xdr_limits. eapply codec_bind; [by apply codec_int|]. cbv beta.
  eapply codec_bind_nil; [by apply codec_on_decode|]. cbv beta. rewrite Z.min_id, Z.sub_diag.
  eapply codec_bind; [apply H, length_sized|]. rewrite xdr_vector_nil.
  eapply codec_bind_nil; [apply codec_ret|]. cbv beta.
  rewrite drop_all, (drop_ge (sized _ _ _)), app_nil_r by (rewrite length_sized; lia). apply codec_ret.
Qed.

(** ** Arrays of records that need a target of a given shape *)

Definition carries_if {A} (P : A -> Prop) (p : A -> xdr A) (v : A) (w : cstr) : Prop :=
  forall v0, P v0 -> codec (p v) (p v0) v v w.

Lemma carries_elems_if {A} (P : A -> Prop) (p : A -> xdr A) l ws l0 :
  Forall2 (carries_if P p) l ws -> Forall P l0 -> length l0 = length l ->
  codec (xdr_elems p (length l) l) (xdr_elems p (length l) l0) l l (concat ws).
Proof.
  intros H. revert l0. induction H as [|x w l ws Hx _ IH]; intros [|y l0] HP Hl; try done; cbn.
  - apply codec_ret.
  - apply Forall_cons in HP as [HP1 HP2]. eapply codec_bind; [by apply Hx|]. rewrite <- (app_nil_r (concat ws)).
    eapply codec_bind; [apply IH; [done|cbn in Hl; lia]|apply codec_ret].
Qed.

Lemma wires_if {A} (P : A -> Prop) (p : A -> xdr A) l : Forall (fun v => exists w, carries_if P p v w) l ->
  exists ws, Forall2 (carries_if P p) l ws.
Proof. induction 1 as [|x l [w Hw] _ [ws Hs]]; [by exists []|]. exists (w :: ws). by constructor. Qed.

(** Two arrays in step: [xdr(&u[i]) && xdr(&v[i])]. *)
Fixpoint xdr_zip {A B} (p : A -> xdr A) (q : B -> xdr B) (n : nat) (u : list A) (v : list B) : xdr (list A * list B) :=
  match n, u, v with
  | O, _, _ => mret ([], [])
  | S n', x :: u', y :: v' =>
      x' ← p x; y' ← q y; '(u'', v'') ← xdr_zip p q n' u' v'; mret (x' :: u'', y' :: v'')
  | S _, _, _ => fault
  end.

Fixpoint wzip {A B} (wa : A -> cstr) (wb : B -> cstr) (u : list A) (v : list B) : cstr :=
  match u, v with x :: u', y :: v' => wa x ++ wb y ++ wzip wa wb u' v' | _, _ => [] end.

Lemma codec_zip {A B} (p : A -> xdr A) (q : B -> xdr B) P Q wa wb u v u0 v0 :
  (forall x, P x -> carries p x (wa x)) -> (forall y, Q y -> carries q y (wb y)) -> Forall P u -> Forall Q v ->
  length v = length u -> length u0 = length u -> length v0 = length u ->
  codec (xdr_zip p q (length u) u v) (xdr_zip p q (length u) u0 v0) (u, v) (u, v) (wzip wa wb u v).
Proof.
  intros Hp Hq HP. revert v u0 v0. induction HP as [|x u Hx _ IH]; intros v u0 v0 HQ Hl Hl1 Hl2.
  - destruct v; [|done]. apply codec_ret.
  - destruct HQ as [|y v Hy HQ]; [done|]. destruct u0, v0; try done. cbn in *.
    eapply codec_bind; [by apply Hp|]. eapply codec_bind; [by apply Hq|].
    rewrite <- (app_nil_r (wzip _ _ _ _)). eapply codec_bind; [apply IH; [done|lia..]|apply codec_ret].
Qed.

Lemma codec_zip_n {A B} (p : A -> xdr A) (q : B -> xdr B) P Q wa wb n u v u0 v0 :
  (forall x, P x -> carries p x (wa x)) -> (forall y, Q y -> carries q y (wb y)) -> Forall P u -> Forall Q v ->
  length u = n -> length v = n -> length u0 = n -> length v0 = n ->
  codec (xdr_zip p q n u v) (xdr_zip p q n u0 v0) (u, v) (u, v) (wzip wa wb u v).
Proof. intros Hp Hq HP HQ <- **. by apply (codec_zip p q P Q). Qed.

Lemma int32_nlimits : int32 LSF_RLIM_NLIMITS.
Proof. unfold int32, LSF_RLIM_NLIMITS. lia. Qed.

#[export] Hint Resolve codec_array codec_limits int32_nlimits : xdr.

(** The elements of an array of records. *)
Lemma many_elements {A} (p : A -> xdr A) (wf : A -> Prop) n l : (forall v, wf v -> transfers p v) ->
  n = Z.of_nat (length l) -> Forall wf l -> exists w, many (xdr_arrayElement p) n l w.
Proof.
  intros H Hn Hl. apply many_transfers; [done|]. eapply Forall_impl; [exact Hl|].
  intros v Hv. by apply transfers_arrayElement, H.
Qed.

Lemma many_chars size n l : n = Z.of_nat (length l) -> Forall (chars size) l ->
  many (xdr_string size size) n l (concat (wstr <$> l)).
Proof. apply many_strings. intros v H v0. by apply codec_chars. Qed.

Lemma many_hosts n l : n = Z.of_nat (length l) -> Forall (str MAXHOSTNAMELEN) l ->
  many (array_string MAXHOSTNAMELEN) n l (concat (wstr <$> l)).
Proof. by apply many_array_string. Qed.

#[export] Hint Resolve many_chars many_hosts : xdr.
