(* ===== verification/XdrRequest.v ===== *)
(** * Requests to the batch system (lsbatch/lib/lsb.xdr.c)

    One module for each record that a command sends to the master daemon, with the
    struct of lsbatch/daemons/daemonout.h or lsbatch/lsbatch.h and the function that
    encodes and decodes it.  A record has the fields that travel, in the order of the
    struct ([userGroup] of submitReq does not).  Strings that the decoder allocates are
    transferred with [xdr_var_string]; the others go into arrays of the caller, whose
    sizes are those that initSubmit of mbd.serv.c and the structs give them.  A string is
    never NULL here.  What the functions keep in static variables is memory that
    they free or use again at the next call. *)
From stdpp Require Import base list.
From Stdlib Require Import ZArith Ascii Lia.
From S2P Require Import Prelude JobId Xdr XdrLib XdrCarry XdrBatch XdrMsg.
Local Open Scope Z_scope.


Module XFile.
Record xFile := mk {
  subFn : cstr; execFn : cstr; options : Z }.

Definition xdr_xFile (xf : xFile) : xdr xFile :=
  subFn' ← xdr_string MAXFILENAMELEN MAXFILENAMELEN (subFn xf);
  execFn' ← xdr_string MAXFILENAMELEN MAXFILENAMELEN (execFn xf);
  options' ← xdr_int (options xf);
  mret (mk subFn' execFn' options').

Definition wf_xFile (xf : xFile) : Prop :=
  Forall (chars MAXFILENAMELEN) [subFn xf; execFn xf] /\ Forall int32 [options xf].

Lemma transfers_xFile xf : wf_xFile xf -> transfers xdr_xFile xf.
Proof.
  destruct xf. intros H. unfold wf_xFile in H. cbn in H. fields.
  eexists. intros xf0. unfold xdr_xFile. repeat xdr_step.
Qed.

Definition wxfile (xf : xFile) : cstr := wstr (subFn xf) ++ wstr (execFn xf) ++ be32 (options xf) ++ [].

Lemma carries_xFile xf : wf_xFile xf -> carries xdr_xFile xf (wxfile xf).
Proof. destruct xf. intros H xf0. unfold wf_xFile in H. cbn in H. fields. unfold xdr_xFile, wxfile. repeat xdr_step. Qed.

Lemma many_xFile n l : n = Z.of_nat (length l) -> Forall wf_xFile l ->
  many (xdr_arrayElement xdr_xFile) n l (concat ((fun xf => welem (wxfile xf)) <$> l)).
Proof. apply many_strings. intros xf H. by apply carries_arrayElement, carries_xFile. Qed.
End XFile.
#[export] Instance wire_xFile : Wire XFile.xdr_xFile := { wf_wire := XFile.wf_xFile; wire_transfers := XFile.transfers_xFile }.

#[export] Hint Resolve XFile.many_xFile : xdr.

Module SubmitReq.
(** The first option word is read through a pointer to [unsigned int] and stays an [int]. *)
Record submitReq := mk {
  options : Z; options2 : Z; jobName : cstr; queue : cstr; numAskedHosts : Z; askedHosts : list cstr;
  resReq : cstr; rLimits : list Z; hostSpec : cstr; numProcessors : Z; dependCond : cstr; beginTime : Z;
  termTime : Z; sigValue : Z; subHomeDir : cstr; inFile : cstr; outFile : cstr; errFile : cstr;
  command : cstr; inFileSpool : cstr; commandSpool : cstr; chkpntPeriod : Z; chkpntDir : cstr;
  restartPid : Z; nxf : Z; xf : list XFile.xFile; jobFile : cstr; fromHost : cstr; submitTime : Z; umask : Z;
  cwd : cstr; preExecCmd : cstr; mailUser : cstr; projectName : cstr; niosPort : Z; maxNumProcessors : Z;
  loginShell : cstr; schedHostType : cstr; userPriority : Z }.

Definition xdr_submitReq (r : submitReq) : xdr submitReq :=
  options' ← xdr_int (options r);
  queue' ← xdr_var_string (queue r);
  resReq' ← xdr_var_string (resReq r);
  numProcessors' ← xdr_int (numProcessors r);
  fromHost' ← xdr_string MAXHOSTNAMELEN MAXHOSTNAMELEN (fromHost r);
  dependCond' ← xdr_var_string (dependCond r);
  jobName' ← xdr_var_string (jobName r);
  command' ← xdr_var_string (command r);
  jobFile' ← xdr_string MAXFILENAMELEN MAXFILENAMELEN (jobFile r);
  inFile' ← xdr_string MAXFILENAMELEN MAXFILENAMELEN (inFile r);
  outFile' ← xdr_string MAXFILENAMELEN MAXFILENAMELEN (outFile r);
  errFile' ← xdr_string MAXFILENAMELEN MAXFILENAMELEN (errFile r);
  preExecCmd' ← xdr_var_string (preExecCmd r);
  hostSpec' ← xdr_string MAXHOSTNAMELEN MAXHOSTNAMELEN (hostSpec r);
  numAskedHosts' ← xdr_int (numAskedHosts r);
  askedHosts0 ← calloc_pos numAskedHosts' [] (askedHosts r);
  askedHosts' ← xdr_vector xdr_var_string numAskedHosts' askedHosts0;
  rLimits' ← xdr_limits xdr_int LSF_RLIM_NLIMITS 0 (rLimits r);
  submitTime' ← xdr_time_t (submitTime r);
  beginTime' ← xdr_time_t (beginTime r);
  termTime' ← xdr_time_t (termTime r);
  umask' ← xdr_int (umask r);
  sigValue' ← xdr_int (sigValue r);
  restartPid' ← xdr_int (restartPid r);
  chkpntPeriod' ← xdr_time_t (chkpntPeriod r);
  chkpntDir' ← xdr_string MAXFILENAMELEN MAXFILENAMELEN (chkpntDir r);
  subHomeDir' ← xdr_string MAXFILENAMELEN MAXFILENAMELEN (subHomeDir r);
  cwd' ← xdr_string MAXFILENAMELEN MAXFILENAMELEN (cwd r);
  nxf' ← xdr_int (nxf r);
  xf0 ← calloc_pos nxf' (XFile.mk [] [] 0) (xf r);
  xf' ← xdr_vector (xdr_arrayElement XFile.xdr_xFile) nxf' xf0;
  mailUser' ← xdr_var_string (mailUser r);
  projectName' ← xdr_var_string (projectName r);
  niosPort' ← xdr_int (niosPort r);
  maxNumProcessors' ← xdr_int (maxNumProcessors r);
  loginShell' ← xdr_var_string (loginShell r);
  schedHostType' ← xdr_var_string (schedHostType r);
  options2' ← xdr_int (options2 r);
  inFileSpool' ← xdr_string MAXFILENAMELEN MAXFILENAMELEN (inFileSpool r);
  commandSpool' ← xdr_string MAXFILENAMELEN MAXFILENAMELEN (commandSpool r);
  userPriority' ← xdr_int (userPriority r);
  mret (mk options' options2' jobName' queue' numAskedHosts' askedHosts' resReq' rLimits' hostSpec'
            numProcessors' dependCond' beginTime' termTime' sigValue' subHomeDir' inFile' outFile' errFile'
            command' inFileSpool' commandSpool' chkpntPeriod' chkpntDir' restartPid' nxf' xf' jobFile'
            fromHost' submitTime' umask' cwd' preExecCmd' mailUser' projectName' niosPort' maxNumProcessors'
            loginShell' schedHostType' userPriority').

Definition wf_submitReq (r : submitReq) : Prop :=
  Forall int32 [options r; options2 r; numProcessors r; beginTime r; termTime r; sigValue r; chkpntPeriod r;
  restartPid r; submitTime r; umask r; niosPort r; maxNumProcessors r; userPriority r] /\ Forall vstr
  [jobName r; queue r; resReq r; dependCond r; command r; preExecCmd r; mailUser r; projectName r;
  loginShell r; schedHostType r] /\ Forall (chars MAXHOSTNAMELEN) [hostSpec r; fromHost r] /\ Forall (chars
  MAXFILENAMELEN) [subHomeDir r; inFile r; outFile r; errFile r; inFileSpool r; commandSpool r; chkpntDir r;
  jobFile r; cwd r] /\ counts (numAskedHosts r) (askedHosts r) /\ Forall vstr (askedHosts r) /\
  LSF_RLIM_NLIMITS = Z.of_nat (length (rLimits r)) /\ Forall int32 (rLimits r) /\ counts (nxf r) (xf r) /\
  Forall XFile.wf_xFile (xf r).

Lemma transfers_submitReq r : wf_submitReq r -> transfers xdr_submitReq r.
Proof.
  destruct r. intros H. unfold wf_submitReq in H. cbn in H. fields.
  eexists. intros r0. unfold xdr_submitReq. repeat xdr_step.
Qed.

(** Reduces the fields of a record that is written out. *)
Ltac proj :=
  cbn [
    options options2 jobName queue numAskedHosts askedHosts resReq rLimits hostSpec numProcessors dependCond
    beginTime termTime sigValue subHomeDir inFile outFile errFile command inFileSpool commandSpool
    chkpntPeriod chkpntDir restartPid nxf xf jobFile fromHost submitTime umask cwd preExecCmd mailUser
    projectName niosPort maxNumProcessors loginShell schedHostType userPriority].
End SubmitReq.
#[export] Instance wire_submitReq : Wire SubmitReq.xdr_submitReq := { wf_wire := SubmitReq.wf_submitReq; wire_transfers := SubmitReq.transfers_submitReq }.

Module ModifyReq.
Record modifyReq := mk {
  jobId : Z; jobIdStr : cstr; delOptions : Z; delOptions2 : Z; submitReq : SubmitReq.submitReq }.

Definition xdr_modifyReq (r : modifyReq) : xdr modifyReq :=
  '(jobArrId0, jobArrElemId0) ← on_encode (mret (jobId64To32 (jobId r))) (0, 0);
  jobArrId ← xdr_int jobArrId0;
  delOptions' ← xdr_int (delOptions r);
  submitReq' ← xdr_arrayElement SubmitReq.xdr_submitReq (submitReq r);
  jobIdStr' ← xdr_var_string (jobIdStr r);
  delOptions2' ← xdr_int (delOptions2 r);
  jobArrElemId ← xdr_int jobArrElemId0;
  jobId' ← on_decode (mret (jobId32To64 jobArrId jobArrElemId)) (jobId r);
  mret (mk jobId' jobIdStr' delOptions' delOptions2' submitReq').

Definition wf_modifyReq (r : modifyReq) : Prop :=
  Forall vstr [jobIdStr r] /\ Forall int32 [delOptions r; delOptions2 r] /\ jobid_ok (jobId r) /\
  SubmitReq.wf_submitReq (submitReq r).

Lemma transfers_modifyReq r : wf_modifyReq r -> transfers xdr_modifyReq r.
Proof.
  destruct r. intros H. unfold wf_modifyReq in H. cbn in H. fields.
  match goal with H : SubmitReq.wf_submitReq _ |- _ => part (SubmitReq.transfers_submitReq _ H) end.
  eexists. intros r0. unfold xdr_modifyReq. repeat xdr_step.
Qed.
End ModifyReq.
#[export] Instance wire_modifyReq : Wire ModifyReq.xdr_modifyReq := { wf_wire := ModifyReq.wf_modifyReq; wire_transfers := ModifyReq.transfers_modifyReq }.

Module JobInfoReq.
Record jobInfoReq := mk {
  options : Z; userName : cstr; jobId : Z; jobName : cstr; queue : cstr; host : cstr }.

Definition xdr_jobInfoReq (r : jobInfoReq) : xdr jobInfoReq :=
  userName' ← xdr_var_string (userName r);
  '(jobArrId0, jobArrElemId0) ← on_encode (mret (jobId64To32 (jobId r))) (0, 0);
  jobArrId ← xdr_int jobArrId0;
  options' ← xdr_int (options r);
  queue' ← xdr_var_string (queue r);
  host' ← xdr_var_string (host r);
  jobName' ← xdr_var_string (jobName r);
  jobArrElemId ← xdr_int jobArrElemId0;
  jobId' ← on_decode (mret (jobId32To64 jobArrId jobArrElemId)) (jobId r);
  mret (mk options' userName' jobId' jobName' queue' host').

Definition wf_jobInfoReq (r : jobInfoReq) : Prop :=
  Forall int32 [options r] /\ Forall vstr [userName r; jobName r; queue r; host r] /\ jobid_ok (jobId r).

Lemma transfers_jobInfoReq r : wf_jobInfoReq r -> transfers xdr_jobInfoReq r.
Proof.
  destruct r. intros H. unfold wf_jobInfoReq in H. cbn in H. fields.
  eexists. intros r0. unfold xdr_jobInfoReq. repeat xdr_step.
Qed.
End JobInfoReq.
#[export] Instance wire_jobInfoReq : Wire JobInfoReq.xdr_jobInfoReq := { wf_wire := JobInfoReq.wf_jobInfoReq; wire_transfers := JobInfoReq.transfers_jobInfoReq }.

Definition SIG_CHKPNT : Z := -1.
Definition SIG_DELETE_JOB : Z := -3.
Definition SIG_ARRAY_REQUEUE : Z := -23.

Module SignalReq.
Record signalReq := mk { sigValue : Z; jobId : Z; chkPeriod : Z; actFlags : Z }.

(** Only some signals have a period and flags; else the target keeps its own. *)
Definition long_form (sigValue : Z) : bool :=
  (sigValue =? SIG_CHKPNT) || (sigValue =? SIG_DELETE_JOB) || (sigValue =? SIG_ARRAY_REQUEUE).

Definition xdr_signalReq (r : signalReq) : xdr signalReq :=
  '(jobArrId0, jobArrElemId0) ← on_encode (mret (jobId64To32 (jobId r))) (0, 0);
  sigValue' ← xdr_int (sigValue r);
  jobArrId ← xdr_int jobArrId0;
  '(chkPeriod', actFlags') ←
    (if long_form sigValue' then c ← xdr_time_t (chkPeriod r); a ← xdr_int (actFlags r); mret (c, a)
     else mret (chkPeriod r, actFlags r));
  jobArrElemId ← xdr_int jobArrElemId0;
  jobId' ← on_decode (mret (jobId32To64 jobArrId jobArrElemId)) (jobId r);
  mret (mk sigValue' jobId' chkPeriod' actFlags').

Definition wf_signalReq (r : signalReq) : Prop :=
  Forall int32 [sigValue r; chkPeriod r; actFlags r] /\ jobid_ok (jobId r).

(** What the receiver has. *)
Definition received (r r0 : signalReq) : signalReq :=
  if long_form (sigValue r) then r else mk (sigValue r) (jobId r) (chkPeriod r0) (actFlags r0).

Lemma codec_signalReq r r0 : wf_signalReq r ->
  exists w, codec (xdr_signalReq r) (xdr_signalReq r0) r (received r r0) w.
Proof.
  destruct r as [s j c a]. intros H. unfold wf_signalReq in H. cbn in H. fields. unfold received, xdr_signalReq. cbn [sigValue jobId chkPeriod actFlags].
  destruct (long_form s) eqn:E; eexists; do 3 xdr_step; cbv beta iota; rewrite E.
  all: eapply codec_bind; [repeat xdr_step|]; repeat xdr_step.
Qed.
End SignalReq.

Module LsbMsg.
(** The struct [lsbMsgHdr] that [header] points to is part of the record. *)
Record lsbMsg := mk {
  usrId : Z; jobId : Z; msgId : Z; type : Z; src : cstr; dest : cstr; msg : cstr }.

Definition xdr_lsbMsg (m : lsbMsg) : xdr lsbMsg :=
  msgId' ← xdr_int (msgId m);
  usrId' ← xdr_int (usrId m);
  '(jobArrId0, jobArrElemId0) ← on_encode (mret (jobId64To32 (jobId m))) (0, 0);
  jobArrId ← xdr_int jobArrId0;
  type' ← xdr_int (type m);
  src' ← xdr_string LSB_MAX_SD_LENGTH LSB_MAX_SD_LENGTH (src m);
  dest' ← xdr_string LSB_MAX_SD_LENGTH LSB_MAX_SD_LENGTH (dest m);
  msg' ← xdr_var_string (msg m);
  jobArrElemId ← xdr_int jobArrElemId0;
  jobId' ← on_decode (mret (jobId32To64 jobArrId jobArrElemId)) (jobId m);
  mret (mk usrId' jobId' msgId' type' src' dest' msg').

Definition wf_lsbMsg (m : lsbMsg) : Prop :=
  Forall int32 [usrId m; msgId m; type m] /\ Forall (chars LSB_MAX_SD_LENGTH) [src m; dest m] /\ Forall vstr
  [msg m] /\ jobid_ok (jobId m).

Lemma transfers_lsbMsg m : wf_lsbMsg m -> transfers xdr_lsbMsg m.
Proof.
  destruct m. intros H. unfold wf_lsbMsg in H. cbn in H. fields.
  eexists. intros m0. unfold xdr_lsbMsg. repeat xdr_step.
Qed.
End LsbMsg.
#[export] Instance wire_lsbMsg : Wire LsbMsg.xdr_lsbMsg := { wf_wire := LsbMsg.wf_lsbMsg; wire_transfers := LsbMsg.transfers_lsbMsg }.

Definition CHECK_HOST : Z := 0x80.
Definition CHECK_USER : Z := 0x100.

Module InfoReq.
(** The names of the request, and after them the name of a host and of a user if
    the options ask for them.  The decoder makes room for two more names than
    [numNames]; with a number below -1 it has no array. *)
Record infoReq := mk { options : Z; numNames : Z; names : list cstr; resReq : cstr }.

Definition flag (b : bool) : Z := if b then 1 else 0.
Definition extra (options : Z) : Z := flag (has options CHECK_HOST) + flag (has options CHECK_USER).

Definition xdr_infoReq (r : infoReq) : xdr infoReq :=
  options' ← xdr_int (options r);
  numNames' ← xdr_int (numNames r);
  names0 ← on_decode (mret (replicate (Z.to_nat (numNames' + 2)) [])) (names r);
  names' ← xdr_vector xdr_var_string (Z.max 0 numNames' + extra options') names0;
  resReq' ← xdr_var_string (resReq r);
  mret (mk options' numNames' names' resReq').

Definition wf_infoReq (r : infoReq) : Prop :=
  Forall int32 [options r; numNames r] /\ vstr (resReq r) /\ 0 <= numNames r /\ Forall vstr (names r) /\
  Z.of_nat (length (names r)) = numNames r + extra (options r).

(** The array of the target may be longer than needed. *)
Lemma xdr_elems_enough {A} (p : A -> xdr A) n l l' : (n <= length l)%nat -> xdr_elems p n (l ++ l') = xdr_elems p n l.
Proof. revert l. induction n as [|n IH]; intros [|x l] H; cbn in *; [done..|lia|]. rewrite IH by lia. done. Qed.

Lemma transfers_infoReq r : wf_infoReq r -> transfers xdr_infoReq r.
Proof.
  destruct r as [o n l q]. intros H. unfold wf_infoReq in H. cbn in H. fields.
  assert (Ex : 0 <= extra o <= 2) by (unfold extra, flag; repeat case_match; lia).
  assert (Hm : many xdr_var_string (Z.max 0 n + extra o) l (concat (wstr <$> l))) by (apply many_var_strings; [lia|done]).
  eexists. intros r0. unfold xdr_infoReq. cbn [options numNames names resReq]. do 2 xdr_step. cbv beta.
  eapply codec_bind_nil; [by apply codec_on_decode|]. cbv beta.
  replace (Z.to_nat (n + 2)) with (Z.to_nat (Z.max 0 n + extra o) + Z.to_nat (2 - extra o))%nat by lia.
  rewrite replicate_add. unfold xdr_vector at 2. rewrite xdr_elems_enough by (rewrite length_replicate; lia).
  eapply codec_bind; [apply Hm, length_replicate|]. repeat xdr_step.
Qed.
End InfoReq.
#[export] Instance wire_infoReq : Wire InfoReq.xdr_infoReq := { wf_wire := InfoReq.wf_infoReq; wire_transfers := InfoReq.transfers_infoReq }.

Module JobPeekReq.
Record jobPeekReq := mk {
  jobId : Z }.

Definition xdr_jobPeekReq (r : jobPeekReq) : xdr jobPeekReq :=
  '(jobArrId0, jobArrElemId0) ← on_encode (mret (jobId64To32 (jobId r))) (0, 0);
  jobArrId ← xdr_int jobArrId0;
  jobArrElemId ← xdr_int jobArrElemId0;
  jobId' ← on_decode (mret (jobId32To64 jobArrId jobArrElemId)) (jobId r);
  mret (mk jobId').

Definition wf_jobPeekReq (r : jobPeekReq) : Prop :=
  jobid_ok (jobId r).

Lemma transfers_jobPeekReq r : wf_jobPeekReq r -> transfers xdr_jobPeekReq r.
Proof.
  destruct r. intros H. unfold wf_jobPeekReq in H. cbn in H. fields.
  eexists. intros r0. unfold xdr_jobPeekReq. repeat xdr_step.
Qed.
End JobPeekReq.
#[export] Instance wire_jobPeekReq : Wire JobPeekReq.xdr_jobPeekReq := { wf_wire := JobPeekReq.wf_jobPeekReq; wire_transfers := JobPeekReq.transfers_jobPeekReq }.

(** [sp] and [first]: the static pointer is NULL before the first message; decoding makes
    it an array of [MAXHOSTNAMELEN] characters once, encoding makes it point to the string
    of the caller. *)
Module ControlReq.
Record controlReq := mk { opCode : Z; name : cstr }.
Record statics := mkStatics { sp : option Z; first : bool }.

Definition xdr_controlReq (st : statics) (r : controlReq) : xdr (controlReq * statics) :=
  st' ← by_op (mret (mkStatics (Some (Z.of_nat (length (name r)) + 1)) (first st)))
              (mret (if first st then mkStatics (Some MAXHOSTNAMELEN) false else st));
  opCode' ← xdr_int (opCode r);
  name' ← xdr_string (default 0 (sp st')) MAXHOSTNAMELEN (name r);
  mret (mk opCode' name', st').
End ControlReq.

Module JobSwitchReq.
Record jobSwitchReq := mk {
  jobId : Z; queue : cstr }.

Definition xdr_jobSwitchReq (r : jobSwitchReq) : xdr jobSwitchReq :=
  '(jobArrId0, jobArrElemId0) ← on_encode (mret (jobId64To32 (jobId r))) (0, 0);
  jobArrId ← xdr_int jobArrId0;
  queue' ← xdr_string MAX_LSB_NAME_LEN MAX_LSB_NAME_LEN (queue r);
  jobArrElemId ← xdr_int jobArrElemId0;
  jobId' ← on_decode (mret (jobId32To64 jobArrId jobArrElemId)) (jobId r);
  mret (mk jobId' queue').

Definition wf_jobSwitchReq (r : jobSwitchReq) : Prop :=
  Forall (chars MAX_LSB_NAME_LEN) [queue r] /\ jobid_ok (jobId r).

Lemma transfers_jobSwitchReq r : wf_jobSwitchReq r -> transfers xdr_jobSwitchReq r.
Proof.
  destruct r. intros H. unfold wf_jobSwitchReq in H. cbn in H. fields.
  eexists. intros r0. unfold xdr_jobSwitchReq. repeat xdr_step.
Qed.
End JobSwitchReq.
#[export] Instance wire_jobSwitchReq : Wire JobSwitchReq.xdr_jobSwitchReq := { wf_wire := JobSwitchReq.wf_jobSwitchReq; wire_transfers := JobSwitchReq.transfers_jobSwitchReq }.

Module JobMoveReq.
Record jobMoveReq := mk {
  opCode : Z; jobId : Z; position : Z }.

Definition xdr_jobMoveReq (r : jobMoveReq) : xdr jobMoveReq :=
  '(jobArrId0, jobArrElemId0) ← on_encode (mret (jobId64To32 (jobId r))) (0, 0);
  opCode' ← xdr_int (opCode r);
  jobArrId ← xdr_int jobArrId0;
  position' ← xdr_int (position r);
  jobArrElemId ← xdr_int jobArrElemId0;
  jobId' ← on_decode (mret (jobId32To64 jobArrId jobArrElemId)) (jobId r);
  mret (mk opCode' jobId' position').

Definition wf_jobMoveReq (r : jobMoveReq) : Prop :=
  Forall int32 [opCode r; position r] /\ jobid_ok (jobId r).

Lemma transfers_jobMoveReq r : wf_jobMoveReq r -> transfers xdr_jobMoveReq r.
Proof.
  destruct r. intros H. unfold wf_jobMoveReq in H. cbn in H. fields.
  eexists. intros r0. unfold xdr_jobMoveReq. repeat xdr_step.
Qed.
End JobMoveReq.
#[export] Instance wire_jobMoveReq : Wire JobMoveReq.xdr_jobMoveReq := { wf_wire := JobMoveReq.wf_jobMoveReq; wire_transfers := JobMoveReq.transfers_jobMoveReq }.

Module MigReq.
Record migReq := mk {
  jobId : Z; options : Z; numAskedHosts : Z; askedHosts : list cstr }.

Definition xdr_migReq (r : migReq) : xdr migReq :=
  '(jobArrId0, jobArrElemId0) ← on_encode (mret (jobId64To32 (jobId r))) (0, 0);
  jobArrId ← xdr_int jobArrId0;
  options' ← xdr_int (options r);
  numAskedHosts' ← xdr_int (numAskedHosts r);
  askedHosts0 ← calloc_pos numAskedHosts' [] (askedHosts r);
  askedHosts' ← xdr_vector (xdr_string MAXHOSTNAMELEN MAXHOSTNAMELEN) numAskedHosts' askedHosts0;
  jobArrElemId ← xdr_int jobArrElemId0;
  jobId' ← on_decode (mret (jobId32To64 jobArrId jobArrElemId)) (jobId r);
  mret (mk jobId' options' numAskedHosts' askedHosts').

Definition wf_migReq (r : migReq) : Prop :=
  Forall int32 [options r] /\ jobid_ok (jobId r) /\ counts (numAskedHosts r) (askedHosts r) /\ Forall (chars
  MAXHOSTNAMELEN) (askedHosts r).

Lemma transfers_migReq r : wf_migReq r -> transfers xdr_migReq r.
Proof.
  destruct r. intros H. unfold wf_migReq in H. cbn in H. fields.
  eexists. intros r0. unfold xdr_migReq. repeat xdr_step.
Qed.
End MigReq.
#[export] Instance wire_migReq : Wire MigReq.xdr_migReq := { wf_wire := MigReq.wf_migReq; wire_transfers := MigReq.transfers_migReq }.

Module RunJobRequest.
Record runJobRequest := mk {
  jobId : Z; numHosts : Z; hostname : list cstr; options : Z }.

Definition xdr_runJobReq (r : runJobRequest) : xdr runJobRequest :=
  '(jobArrId0, jobArrElemId0) ← on_encode (mret (jobId64To32 (jobId r))) (0, 0);
  numHosts' ← xdr_int (numHosts r);
  jobArrId ← xdr_int jobArrId0;
  options' ← xdr_int (options r);
  hostname0 ← calloc_all numHosts' [] (hostname r);
  hostname' ← xdr_vector xdr_var_string numHosts' hostname0;
  jobArrElemId ← xdr_int jobArrElemId0;
  jobId' ← on_decode (mret (jobId32To64 jobArrId jobArrElemId)) (jobId r);
  mret (mk jobId' numHosts' hostname' options').

Definition wf_runJobRequest (r : runJobRequest) : Prop :=
  Forall int32 [options r] /\ jobid_ok (jobId r) /\ counts (numHosts r) (hostname r) /\ Forall vstr
  (hostname r).

Lemma transfers_runJobRequest r : wf_runJobRequest r -> transfers xdr_runJobReq r.
Proof.
  destruct r. intros H. unfold wf_runJobRequest in H. cbn in H. fields.
  eexists. intros r0. unfold xdr_runJobReq. repeat xdr_step.
Qed.
End RunJobRequest.
#[export] Instance wire_runJobRequest : Wire RunJobRequest.xdr_runJobReq := { wf_wire := RunJobRequest.wf_runJobRequest; wire_transfers := RunJobRequest.transfers_runJobRequest }.

Module JobAttrInfoEnt.
Record jobAttrInfoEnt := mk {
  jobId : Z; port : Z; hostname : cstr }.

Definition xdr_jobAttrReq (r : jobAttrInfoEnt) : xdr jobAttrInfoEnt :=
  '(jobArrId0, jobArrElemId0) ← on_encode (mret (jobId64To32 (jobId r))) (0, 0);
  jobArrId ← xdr_int jobArrId0;
  port' ← xdr_u_short (port r);
  hostname' ← xdr_string MAXHOSTNAMELEN MAXHOSTNAMELEN (hostname r);
  jobArrElemId ← xdr_int jobArrElemId0;
  jobId' ← on_decode (mret (jobId32To64 jobArrId jobArrElemId)) (jobId r);
  mret (mk jobId' port' hostname').

Definition wf_jobAttrInfoEnt (r : jobAttrInfoEnt) : Prop :=
  Forall uint16 [port r] /\ Forall (chars MAXHOSTNAMELEN) [hostname r] /\ jobid_ok (jobId r).

Lemma transfers_jobAttrInfoEnt r : wf_jobAttrInfoEnt r -> transfers xdr_jobAttrReq r.
Proof.
  destruct r. intros H. unfold wf_jobAttrInfoEnt in H. cbn in H. fields.
  eexists. intros r0. unfold xdr_jobAttrReq. repeat xdr_step.
Qed.
End JobAttrInfoEnt.
#[export] Instance wire_jobAttrInfoEnt : Wire JobAttrInfoEnt.xdr_jobAttrReq := { wf_wire := JobAttrInfoEnt.wf_jobAttrInfoEnt; wire_transfers := JobAttrInfoEnt.transfers_jobAttrInfoEnt }.

