(* ===== verification/XdrReply.v ===== *)
(** * Replies of the batch system (lsbatch/lib/lsb.xdr.c)

    One module for each record that the master daemon sends back, as in XdrRequest.v.
    Fields that do not travel are left out (of parameterInfo, groupInfoEnt and
    hostInfoEnt).  The tables that a decoder keeps in static variables from call to
    call are made new in each call here; an entry of a table of load indices is a
    slice of it. *)
From stdpp Require Import base list.
From Stdlib Require Import ZArith Ascii Lia.
From S2P Require Import Prelude JobId Xdr XdrLib XdrCarry XdrBatch XdrMsg XdrRequest.
Local Open Scope Z_scope.

(** ** Tables of load indices *)

(** [table + i * k] for each [i] below [n], in a table of [size] numbers. *)
Definition slices (n k size : Z) : list (list Z) :=
  (fun i => take (Z.to_nat k) (drop (i * Z.to_nat k) (replicate (Z.to_nat size) 0))) <$> seq 0 (Z.to_nat n).

(** [allocLoadIdx] is called when the product, an [int], is larger than the table. *)
Definition table_size (n k : Z) : Z := Z.max 0 (wrap32 (n * k)).

Lemma length_slices n k size : length (slices n k size) = Z.to_nat n.
Proof. unfold slices. by rewrite length_fmap, length_seq. Qed.

Lemma slices_ok n k : 0 <= n -> 0 <= k -> int32 (n * k) ->
  Forall (fun l => length l = Z.to_nat k) (slices n k (table_size n k)).
Proof.
  intros Hn Hk Hi. apply Forall_fmap, Forall_forall. intros i Hin%elem_of_seq. cbn.
  unfold table_size. rewrite wrap32_id by done. rewrite length_take, length_drop, length_replicate. nia.
Qed.

Lemma zip_targets {A} (f : list Z -> list Z -> A) (P : A -> Prop) k u v :
  (forall a b, length a = k -> length b = k -> P (f a b)) ->
  Forall (fun l => length l = k) u -> Forall (fun l => length l = k) v -> Forall P (zip_with f u v).
Proof.
  intros Hf Hu. revert v. induction Hu as [|a u Ha _ IH]; intros v Hv; [constructor|].
  destruct Hv as [|b v Hb Hv]; cbn; constructor; auto.
Qed.


Module SubmitMbdReply.
Record submitMbdReply := mk {
  jobId : Z; queue : cstr; badReqIndx : Z; badJobName : cstr }.

Definition xdr_submitMbdReply (r : submitMbdReply) : xdr submitMbdReply :=
  '(jobArrId0, jobArrElemId0) ← on_encode (mret (jobId64To32 (jobId r))) (0, 0);
  jobArrId ← xdr_int jobArrId0;
  badReqIndx' ← xdr_int (badReqIndx r);
  queue' ← xdr_string MAX_LSB_NAME_LEN MAX_LSB_NAME_LEN (queue r);
  badJobName' ← xdr_string MAX_CMD_DESC_LEN MAX_CMD_DESC_LEN (badJobName r);
  jobArrElemId ← xdr_int jobArrElemId0;
  jobId' ← on_decode (mret (jobId32To64 jobArrId jobArrElemId)) (jobId r);
  mret (mk jobId' queue' badReqIndx' badJobName').

Definition wf_submitMbdReply (r : submitMbdReply) : Prop :=
  Forall (chars MAX_LSB_NAME_LEN) [queue r] /\ Forall int32 [badReqIndx r] /\ Forall (chars
  MAX_CMD_DESC_LEN) [badJobName r] /\ jobid_ok (jobId r).

Lemma transfers_submitMbdReply r : wf_submitMbdReply r -> transfers xdr_submitMbdReply r.
Proof.
  destruct r. intros H. unfold wf_submitMbdReply in H. cbn in H. fields.
  eexists. intros r0. unfold xdr_submitMbdReply. repeat xdr_step.
Qed.
End SubmitMbdReply.
#[export] Instance wire_submitMbdReply : Wire SubmitMbdReply.xdr_submitMbdReply := { wf_wire := SubmitMbdReply.wf_submitMbdReply; wire_transfers := SubmitMbdReply.transfers_submitMbdReply }.

Module ParameterInfo.
(** [maxJobArraySize] travels twice. *)
Record parameterInfo := mk {
  defaultQueues : cstr; defaultHostSpec : cstr; mbatchdInterval : Z; sbatchdInterval : Z;
  jobAcceptInterval : Z; maxDispRetries : Z; maxSbdRetries : Z; cleanPeriod : Z; maxNumJobs : Z;
  pgSuspendIt : Z; defaultProject : cstr; maxJobArraySize : Z; jobTerminateInterval : Z; disableUAcctMap : Z;
  jobDepLastSub : Z; pjobSpoolDir : cstr; maxUserPriority : Z; jobPriorityValue : Z; jobPriorityTime : Z;
  sharedResourceUpdFactor : Z; maxJobId : Z; maxAcctArchiveNum : Z; acctArchiveInDays : Z;
  acctArchiveInSize : Z }.

Definition xdr_parameterInfo (r : parameterInfo) : xdr parameterInfo :=
  defaultQueues' ← xdr_var_string (defaultQueues r);
  defaultHostSpec' ← xdr_var_string (defaultHostSpec r);
  mbatchdInterval' ← xdr_int (mbatchdInterval r);
  sbatchdInterval' ← xdr_int (sbatchdInterval r);
  jobAcceptInterval' ← xdr_int (jobAcceptInterval r);
  maxDispRetries' ← xdr_int (maxDispRetries r);
  maxSbdRetries' ← xdr_int (maxSbdRetries r);
  cleanPeriod' ← xdr_int (cleanPeriod r);
  maxNumJobs' ← xdr_int (maxNumJobs r);
  pgSuspendIt' ← xdr_int (pgSuspendIt r);
  defaultProject' ← xdr_var_string (defaultProject r);
  maxJobArraySize' ← xdr_int (maxJobArraySize r);
  jobTerminateInterval' ← xdr_int (jobTerminateInterval r);
  disableUAcctMap' ← xdr_bool (disableUAcctMap r);
  maxJobArraySize' ← xdr_int (maxJobArraySize r);
  pjobSpoolDir' ← xdr_var_string (pjobSpoolDir r);
  maxUserPriority' ← xdr_int (maxUserPriority r);
  jobPriorityValue' ← xdr_int (jobPriorityValue r);
  jobPriorityTime' ← xdr_int (jobPriorityTime r);
  maxJobId' ← xdr_int (maxJobId r);
  maxAcctArchiveNum' ← xdr_int (maxAcctArchiveNum r);
  acctArchiveInDays' ← xdr_int (acctArchiveInDays r);
  acctArchiveInSize' ← xdr_int (acctArchiveInSize r);
  jobDepLastSub' ← xdr_int (jobDepLastSub r);
  sharedResourceUpdFactor' ← xdr_int (sharedResourceUpdFactor r);
  mret (mk defaultQueues' defaultHostSpec' mbatchdInterval' sbatchdInterval' jobAcceptInterval'
            maxDispRetries' maxSbdRetries' cleanPeriod' maxNumJobs' pgSuspendIt' defaultProject'
            maxJobArraySize' jobTerminateInterval' disableUAcctMap' jobDepLastSub' pjobSpoolDir'
            maxUserPriority' jobPriorityValue' jobPriorityTime' sharedResourceUpdFactor' maxJobId'
            maxAcctArchiveNum' acctArchiveInDays' acctArchiveInSize').

Definition wf_parameterInfo (r : parameterInfo) : Prop :=
  Forall vstr [defaultQueues r; defaultHostSpec r; defaultProject r; pjobSpoolDir r] /\ Forall int32
  [mbatchdInterval r; sbatchdInterval r; jobAcceptInterval r; maxDispRetries r; maxSbdRetries r; cleanPeriod
  r; maxNumJobs r; pgSuspendIt r; maxJobArraySize r; jobTerminateInterval r; jobDepLastSub r;
  maxUserPriority r; jobPriorityValue r; jobPriorityTime r; sharedResourceUpdFactor r; maxJobId r;
  maxAcctArchiveNum r; acctArchiveInDays r; acctArchiveInSize r] /\ (disableUAcctMap r = 0 \/
  disableUAcctMap r = 1).

Lemma transfers_parameterInfo r : wf_parameterInfo r -> transfers xdr_parameterInfo r.
Proof.
  destruct r. intros H. unfold wf_parameterInfo in H. cbn in H. fields.
  eexists. intros r0. unfold xdr_parameterInfo. repeat xdr_step.
Qed.
End ParameterInfo.
#[export] Instance wire_parameterInfo : Wire ParameterInfo.xdr_parameterInfo := { wf_wire := ParameterInfo.wf_parameterInfo; wire_transfers := ParameterInfo.transfers_parameterInfo }.

Module JobInfoHead.
Record jobInfoHead := mk { numJobs : Z; jobIds : list Z; numHosts : Z; hostNames : list cstr }.

Definition xdr_jobInfoHead (r : jobInfoHead) : xdr jobInfoHead :=
  numJobs' ← xdr_int (numJobs r);
  numHosts' ← xdr_int (numHosts r);
  jobArrIds0 ← by_op (mret ((fun id => fst (jobId64To32 id)) <$> jobIds r)) (mret (replicate (Z.to_nat numJobs') 0));
  jobArrElemIds0 ← by_op (mret ((fun id => snd (jobId64To32 id)) <$> jobIds r)) (mret (replicate (Z.to_nat numJobs') 0));
  jobArrIds ← xdr_vector xdr_int numJobs' jobArrIds0;
  hostNames0 ← calloc_pos numHosts' [] (hostNames r);
  hostNames' ← xdr_vector (xdr_string MAXHOSTNAMELEN MAXHOSTNAMELEN) numHosts' hostNames0;
  jobArrElemIds ← xdr_vector xdr_int numJobs' jobArrElemIds0;
  jobIds' ← on_decode (mret (zip_with jobId32To64 jobArrIds jobArrElemIds)) (jobIds r);
  mret (mk numJobs' jobIds' numHosts' hostNames').

Definition wf_jobInfoHead (r : jobInfoHead) : Prop :=
  counts (numJobs r) (jobIds r) /\ Forall jobid_ok (jobIds r) /\
  counts (numHosts r) (hostNames r) /\ Forall (chars MAXHOSTNAMELEN) (hostNames r).

Lemma parts_many (f : Z -> Z) n l : n = Z.of_nat (length l) -> (forall id, jobid_ok id -> int32 (f id)) -> Forall jobid_ok l ->
  many xdr_int n (f <$> l) (concat (be32 <$> (f <$> l))).
Proof.
  intros Hn Hf H. apply many_ints; [by rewrite length_fmap|]. apply Forall_fmap. eapply Forall_impl; [done|]. apply Hf.
Qed.

Lemma ids_joined l : Forall jobid_ok l ->
  zip_with jobId32To64 ((fun id => fst (jobId64To32 id)) <$> l) ((fun id => snd (jobId64To32 id)) <$> l) = l.
Proof.
  induction 1 as [|id l H _ IH]; [done|]. cbn. f_equal; [|exact IH]. apply (jobid_parts id H).
Qed.

Lemma transfers_jobInfoHead r : wf_jobInfoHead r -> transfers xdr_jobInfoHead r.
Proof.
  destruct r as [n ids m hosts]. intros H. unfold wf_jobInfoHead in H. cbn in H. fields.
  eexists. intros r0. unfold xdr_jobInfoHead. cbn [numJobs jobIds numHosts hostNames]. do 2 xdr_step. cbv beta.
  eapply codec_bind_nil; [apply codec_by_op; [apply encodes_ret|apply decodes_ret]|].
  eapply codec_bind_nil; [apply codec_by_op; [apply encodes_ret|apply decodes_ret]|].
  eapply codec_bind; [apply (parts_many (fun id => fst (jobId64To32 id))); [done|by intros; apply jobid_parts|done|apply length_replicate]|].
  xdr_step.
  eapply codec_bind; [apply (parts_many (fun id => snd (jobId64To32 id))); [done|by intros; apply jobid_parts|done|apply length_replicate]|].
  cbv beta. rewrite ids_joined by done. eapply codec_bind_nil; [by apply codec_on_decode|]. apply codec_ret.
Qed.
End JobInfoHead.
#[export] Instance wire_jobInfoHead : Wire JobInfoHead.xdr_jobInfoHead := { wf_wire := JobInfoHead.wf_jobInfoHead; wire_transfers := JobInfoHead.transfers_jobInfoHead }.

Module UserInfoEnt.
Record userInfoEnt := mk {
  user : cstr; procJobLimit : Z; maxJobs : Z; numStartJobs : Z; numJobs : Z; numPEND : Z; numRUN : Z;
  numSSUSP : Z; numUSUSP : Z; numRESERVE : Z }.

(** What the decoder finds in an array of its own. *)
Definition target : userInfoEnt :=
  mk [] 0 0 0 0 0 0 0 0 0.

Definition xdr_userInfoEnt (r : userInfoEnt) : xdr userInfoEnt :=
  user' ← xdr_string MAX_LSB_NAME_LEN MAX_LSB_NAME_LEN (user r);
  procJobLimit' ← xdr_float (procJobLimit r);
  maxJobs' ← xdr_int (maxJobs r);
  numStartJobs' ← xdr_int (numStartJobs r);
  numJobs' ← xdr_int (numJobs r);
  numPEND' ← xdr_int (numPEND r);
  numRUN' ← xdr_int (numRUN r);
  numSSUSP' ← xdr_int (numSSUSP r);
  numUSUSP' ← xdr_int (numUSUSP r);
  numRESERVE' ← xdr_int (numRESERVE r);
  mret (mk user' procJobLimit' maxJobs' numStartJobs' numJobs' numPEND' numRUN' numSSUSP' numUSUSP'
            numRESERVE').

Definition wf_userInfoEnt (r : userInfoEnt) : Prop :=
  Forall (chars MAX_LSB_NAME_LEN) [user r] /\ Forall uint32 [procJobLimit r] /\ Forall int32 [maxJobs r;
  numStartJobs r; numJobs r; numPEND r; numRUN r; numSSUSP r; numUSUSP r; numRESERVE r].

Lemma transfers_userInfoEnt r : wf_userInfoEnt r -> transfers xdr_userInfoEnt r.
Proof.
  destruct r. intros H. unfold wf_userInfoEnt in H. cbn in H. fields.
  eexists. intros r0. unfold xdr_userInfoEnt. repeat xdr_step.
Qed.
End UserInfoEnt.
#[export] Instance wire_userInfoEnt : Wire UserInfoEnt.xdr_userInfoEnt := { wf_wire := UserInfoEnt.wf_userInfoEnt; wire_transfers := UserInfoEnt.transfers_userInfoEnt }.

Module UserInfoReply.
Record userInfoReply := mk {
  badUser : Z; numUsers : Z; users : list UserInfoEnt.userInfoEnt }.

Definition xdr_userInfoReply (r : userInfoReply) : xdr userInfoReply :=
  numUsers' ← xdr_int (numUsers r);
  badUser' ← xdr_int (badUser r);
  users0 ← calloc_pos numUsers' UserInfoEnt.target (users r);
  users' ← xdr_vector (xdr_arrayElement UserInfoEnt.xdr_userInfoEnt) numUsers' users0;
  mret (mk badUser' numUsers' users').

Definition wf_userInfoReply (r : userInfoReply) : Prop :=
  Forall int32 [badUser r] /\ counts (numUsers r) (users r) /\ Forall UserInfoEnt.wf_userInfoEnt (users r).

Lemma transfers_userInfoReply r : wf_userInfoReply r -> transfers xdr_userInfoReply r.
Proof.
  destruct r. intros H. unfold wf_userInfoReply in H. cbn in H. fields.
  edestruct (many_elements UserInfoEnt.xdr_userInfoEnt) as [w Hw]; [apply UserInfoEnt.transfers_userInfoEnt|eassumption..|].
  eexists. intros r0. unfold xdr_userInfoReply. repeat xdr_step.
Qed.
End UserInfoReply.
#[export] Instance wire_userInfoReply : Wire UserInfoReply.xdr_userInfoReply := { wf_wire := UserInfoReply.wf_userInfoReply; wire_transfers := UserInfoReply.transfers_userInfoReply }.

Module JobPeekReply.
Record jobPeekReply := mk {
  outFile : cstr; pSpoolDir : cstr }.

Definition xdr_jobPeekReply (r : jobPeekReply) : xdr jobPeekReply :=
  outFile' ← xdr_string MAXFILENAMELEN MAXFILENAMELEN (outFile r);
  pSpoolDir' ← xdr_var_string (pSpoolDir r);
  mret (mk outFile' pSpoolDir').

Definition wf_jobPeekReply (r : jobPeekReply) : Prop :=
  Forall (chars MAXFILENAMELEN) [outFile r] /\ Forall vstr [pSpoolDir r].

Lemma transfers_jobPeekReply r : wf_jobPeekReply r -> transfers xdr_jobPeekReply r.
Proof.
  destruct r. intros H. unfold wf_jobPeekReply in H. cbn in H. fields.
  eexists. intros r0. unfold xdr_jobPeekReply. repeat xdr_step.
Qed.
End JobPeekReply.
#[export] Instance wire_jobPeekReply : Wire JobPeekReply.xdr_jobPeekReply := { wf_wire := JobPeekReply.wf_jobPeekReply; wire_transfers := JobPeekReply.transfers_jobPeekReply }.

Module GroupInfoEnt.
Record groupInfoEnt := mk {
  group : cstr; memberList : cstr }.

(** What the decoder finds in an array of its own. *)
Definition target : groupInfoEnt :=
  mk [] [].

Definition xdr_groupInfoEnt (r : groupInfoEnt) : xdr groupInfoEnt :=
  group' ← xdr_var_string (group r);
  memberList' ← xdr_var_string (memberList r);
  mret (mk group' memberList').

Definition wf_groupInfoEnt (r : groupInfoEnt) : Prop :=
  Forall vstr [group r; memberList r].

Lemma transfers_groupInfoEnt r : wf_groupInfoEnt r -> transfers xdr_groupInfoEnt r.
Proof.
  destruct r. intros H. unfold wf_groupInfoEnt in H. cbn in H. fields.
  eexists. intros r0. unfold xdr_groupInfoEnt. repeat xdr_step.
Qed.
End GroupInfoEnt.
#[export] Instance wire_groupInfoEnt : Wire GroupInfoEnt.xdr_groupInfoEnt := { wf_wire := GroupInfoEnt.wf_groupInfoEnt; wire_transfers := GroupInfoEnt.transfers_groupInfoEnt }.

Module GroupInfoReply.
Record groupInfoReply := mk {
  numGroups : Z; groups : list GroupInfoEnt.groupInfoEnt }.

Definition xdr_groupInfoReply (r : groupInfoReply) : xdr groupInfoReply :=
  numGroups' ← xdr_int (numGroups r);
  groups0 ← calloc_some numGroups' GroupInfoEnt.target (groups r);
  groups' ← xdr_vector (xdr_arrayElement GroupInfoEnt.xdr_groupInfoEnt) numGroups' groups0;
  mret (mk numGroups' groups').

Definition wf_groupInfoReply (r : groupInfoReply) : Prop :=
  counts (numGroups r) (groups r) /\ Forall GroupInfoEnt.wf_groupInfoEnt (groups r).

Lemma transfers_groupInfoReply r : wf_groupInfoReply r -> transfers xdr_groupInfoReply r.
Proof.
  destruct r. intros H. unfold wf_groupInfoReply in H. cbn in H. fields.
  edestruct (many_elements GroupInfoEnt.xdr_groupInfoEnt) as [w Hw]; [apply GroupInfoEnt.transfers_groupInfoEnt|eassumption..|].
  eexists. intros r0. unfold xdr_groupInfoReply. repeat xdr_step.
Qed.
End GroupInfoReply.
#[export] Instance wire_groupInfoReply : Wire GroupInfoReply.xdr_groupInfoReply := { wf_wire := GroupInfoReply.wf_groupInfoReply; wire_transfers := GroupInfoReply.transfers_groupInfoReply }.

Module SharedInstance.
Record lsbSharedResourceInstance := mk {
  totalValue : cstr; rsvValue : cstr; nHosts : Z; hostList : list cstr }.

(** What the decoder finds in an array of its own. *)
Definition target : lsbSharedResourceInstance :=
  mk [] [] 0 [].

Definition xdr_lsbShareResourceInstance (r : lsbSharedResourceInstance) : xdr lsbSharedResourceInstance :=
  totalValue' ← xdr_var_string (totalValue r);
  rsvValue' ← xdr_var_string (rsvValue r);
  nHosts' ← xdr_int (nHosts r);
  hostList0 ← calloc_pos nHosts' [] (hostList r);
  hostList' ← xdr_array_string hostList0 MAXHOSTNAMELEN nHosts';
  mret (mk totalValue' rsvValue' nHosts' hostList').

Definition wf_lsbSharedResourceInstance (r : lsbSharedResourceInstance) : Prop :=
  Forall vstr [totalValue r; rsvValue r] /\ counts (nHosts r) (hostList r) /\ Forall (str MAXHOSTNAMELEN)
  (hostList r).

Lemma transfers_lsbSharedResourceInstance r : wf_lsbSharedResourceInstance r -> transfers xdr_lsbShareResourceInstance r.
Proof.
  destruct r. intros H. unfold wf_lsbSharedResourceInstance in H. cbn in H. fields.
  eexists. intros r0. unfold xdr_lsbShareResourceInstance. repeat xdr_step.
Qed.
End SharedInstance.
#[export] Instance wire_lsbSharedResourceInstance : Wire SharedInstance.xdr_lsbShareResourceInstance := { wf_wire := SharedInstance.wf_lsbSharedResourceInstance; wire_transfers := SharedInstance.transfers_lsbSharedResourceInstance }.

Module SharedResource.
Record lsbSharedResourceInfo := mk {
  resourceName : cstr; nInstances : Z; instances : list SharedInstance.lsbSharedResourceInstance }.

(** What the decoder finds in an array of its own. *)
Definition target : lsbSharedResourceInfo :=
  mk [] 0 [].

Definition xdr_lsbSharedResourceInfo (r : lsbSharedResourceInfo) : xdr lsbSharedResourceInfo :=
  resourceName' ← xdr_var_string (resourceName r);
  nInstances' ← xdr_int (nInstances r);
  instances0 ← calloc_pos nInstances' SharedInstance.target (instances r);
  instances' ← xdr_vector (xdr_arrayElement SharedInstance.xdr_lsbShareResourceInstance) nInstances' instances0;
  mret (mk resourceName' nInstances' instances').

Definition wf_lsbSharedResourceInfo (r : lsbSharedResourceInfo) : Prop :=
  Forall vstr [resourceName r] /\ counts (nInstances r) (instances r) /\ Forall
  SharedInstance.wf_lsbSharedResourceInstance (instances r).

Lemma transfers_lsbSharedResourceInfo r : wf_lsbSharedResourceInfo r -> transfers xdr_lsbSharedResourceInfo r.
Proof.
  destruct r. intros H. unfold wf_lsbSharedResourceInfo in H. cbn in H. fields.
  edestruct (many_elements SharedInstance.xdr_lsbShareResourceInstance) as [w Hw]; [apply SharedInstance.transfers_lsbSharedResourceInstance|eassumption..|].
  eexists. intros r0. unfold xdr_lsbSharedResourceInfo. repeat xdr_step.
Qed.
End SharedResource.
#[export] Instance wire_lsbSharedResourceInfo : Wire SharedResource.xdr_lsbSharedResourceInfo := { wf_wire := SharedResource.wf_lsbSharedResourceInfo; wire_transfers := SharedResource.transfers_lsbSharedResourceInfo }.

Module SharedReply.
Record lsbShareResourceInfoReply := mk {
  numResources : Z; resources : list SharedResource.lsbSharedResourceInfo; badResource : Z }.

Definition xdr_lsbShareResourceInfoReply (r : lsbShareResourceInfoReply) : xdr lsbShareResourceInfoReply :=
  numResources' ← xdr_int (numResources r);
  badResource' ← xdr_int (badResource r);
  resources0 ← calloc_pos numResources' SharedResource.target (resources r);
  resources' ← xdr_vector (xdr_arrayElement SharedResource.xdr_lsbSharedResourceInfo) numResources' resources0;
  mret (mk numResources' resources' badResource').

Definition wf_lsbShareResourceInfoReply (r : lsbShareResourceInfoReply) : Prop :=
  Forall int32 [badResource r] /\ counts (numResources r) (resources r) /\ Forall
  SharedResource.wf_lsbSharedResourceInfo (resources r).

Lemma transfers_lsbShareResourceInfoReply r : wf_lsbShareResourceInfoReply r -> transfers xdr_lsbShareResourceInfoReply r.
Proof.
  destruct r. intros H. unfold wf_lsbShareResourceInfoReply in H. cbn in H. fields.
  edestruct (many_elements SharedResource.xdr_lsbSharedResourceInfo) as [w Hw]; [apply SharedResource.transfers_lsbSharedResourceInfo|eassumption..|].
  eexists. intros r0. unfold xdr_lsbShareResourceInfoReply. repeat xdr_step.
Qed.
End SharedReply.
#[export] Instance wire_lsbShareResourceInfoReply : Wire SharedReply.xdr_lsbShareResourceInfoReply := { wf_wire := SharedReply.wf_lsbShareResourceInfoReply; wire_transfers := SharedReply.transfers_lsbShareResourceInfoReply }.
