(* ===== verification/XdrInfo.v ===== *)
(** * Information about queues, hosts and jobs (lsbatch/lib/lsb.xdr.c)

    The replies with tables of load indices.  Entries of queues and hosts have as many
    load indices as the reply says ([nIdx]). *)
From stdpp Require Import base list.
From Stdlib Require Import ZArith Ascii Lia.
From S2P Require Import Prelude JobId Xdr XdrLib XdrCarry XdrBatch XdrMsg XdrRequest XdrReply.
Local Open Scope Z_scope.

(** Arrays of floats in step. *)
Lemma codec_floats n u v u0 v0 : Forall uint32 u -> Forall uint32 v -> length u = n -> length v = n ->
  length u0 = n -> length v0 = n ->
  codec (xdr_zip xdr_float xdr_float n u v) (xdr_zip xdr_float xdr_float n u0 v0) (u, v) (u, v) (wzip be32 be32 u v).
Proof. intros. apply (codec_zip_n _ _ uint32 uint32); try done; intros x Hx x0; by apply codec_float. Qed.

Lemma codec_ints n u v u0 v0 : Forall int32 u -> Forall int32 v -> length u = n -> length v = n ->
  length u0 = n -> length v0 = n ->
  codec (xdr_zip xdr_int xdr_int n u v) (xdr_zip xdr_int xdr_int n u0 v0) (u, v) (u, v) (wzip be32 be32 u v).
Proof. intros. apply (codec_zip_n _ _ int32 int32); try done; intros x Hx x0; by apply codec_int. Qed.
#[export] Hint Resolve codec_floats codec_ints : xdr.

Lemma length_wzip u v : length u = length v -> Z.of_nat (length (wzip be32 be32 u v)) = 8 * Z.of_nat (length u).
Proof.
  revert v. induction u as [|x u IH]; intros [|y v] H; try done. cbn [wzip length]. wire_length.
  cbn in H. rewrite IH by lia. lia.
Qed.

Definition list_sum_Z (l : list Z) : Z := foldr Z.add 0 l.


Module QueueInfoEnt.
Record queueInfoEnt := mk {
  queue : cstr; description : cstr; priority : Z; nice : Z; userList : cstr; hostList : cstr; nIdx : Z;
  loadSched : list Z; loadStop : list Z; userJobLimit : Z; procJobLimit : Z; windows : cstr;
  rLimits : list Z; hostSpec : cstr; qAttrib : Z; qStatus : Z; maxJobs : Z; numJobs : Z; numPEND : Z;
  numRUN : Z; numSSUSP : Z; numUSUSP : Z; mig : Z; schedDelay : Z; acceptIntvl : Z; windowsD : cstr;
  defaultHostSpec : cstr; procLimit : Z; admins : cstr; preCmd : cstr; postCmd : cstr;
  prepostUsername : cstr; requeueEValues : cstr; hostJobLimit : Z; resReq : cstr; numRESERVE : Z;
  slotHoldTime : Z; resumeCond : cstr; stopCond : cstr; jobStarter : cstr; suspendActCmd : cstr;
  resumeActCmd : cstr; terminateActCmd : cstr; sigMap : list Z; chkpntDir : cstr; chkpntPeriod : Z;
  defLimits : list Z; minProcLimit : Z; defProcLimit : Z }.

(** What the decoder finds in an array of its own. *)
Definition target (sched stop : list Z) : queueInfoEnt :=
  mk [] [] 0 0 [] [] 0 sched stop 0 0 [] [] [] 0 0 0 0 0 0 0 0 0 0 0 [] [] 0 [] [] [] [] [] 0 [] 0 0 [] [] []
     [] [] [] [] [] 0 [] 0 0.

Definition xdr_queueInfoEnt (nIdx_ : Z) (q : queueInfoEnt) : xdr queueInfoEnt :=
  queue' ← xdr_string MAX_LSB_NAME_LEN MAX_LSB_NAME_LEN (queue q);
  description' ← xdr_var_string (description q);
  userList' ← xdr_var_string (userList q);
  hostList' ← xdr_var_string (hostList q);
  windows' ← xdr_var_string (windows q);
  hostSpec' ← xdr_string MAX_LSB_NAME_LEN MAX_LSB_NAME_LEN (hostSpec q);
  rLimits' ← xdr_array xdr_int LSF_RLIM_NLIMITS 0 (rLimits q);
  '(loadSched', loadStop') ← xdr_zip xdr_float xdr_float (Z.to_nat nIdx_) (loadSched q) (loadStop q);
  priority' ← xdr_int (priority q);
  nice' ← xdr_short (nice q);
  userJobLimit' ← xdr_int (userJobLimit q);
  procJobLimit' ← xdr_float (procJobLimit q);
  qAttrib' ← xdr_int (qAttrib q);
  qStatus' ← xdr_int (qStatus q);
  maxJobs' ← xdr_int (maxJobs q);
  numJobs' ← xdr_int (numJobs q);
  numPEND' ← xdr_int (numPEND q);
  numRUN' ← xdr_int (numRUN q);
  numSSUSP' ← xdr_int (numSSUSP q);
  numUSUSP' ← xdr_int (numUSUSP q);
  mig' ← xdr_int (mig q);
  acceptIntvl' ← xdr_int (acceptIntvl q);
  schedDelay' ← xdr_int (schedDelay q);
  windowsD' ← xdr_var_string (windowsD q);
  defaultHostSpec' ← xdr_var_string (defaultHostSpec q);
  procLimit' ← xdr_int (procLimit q);
  admins' ← xdr_var_string (admins q);
  preCmd' ← xdr_var_string (preCmd q);
  postCmd' ← xdr_var_string (postCmd q);
  prepostUsername' ← xdr_var_string (prepostUsername q);
  requeueEValues' ← xdr_var_string (requeueEValues q);
  hostJobLimit' ← xdr_int (hostJobLimit q);
  resReq' ← xdr_var_string (resReq q);
  numRESERVE' ← xdr_int (numRESERVE q);
  slotHoldTime' ← xdr_int (slotHoldTime q);
  resumeCond' ← xdr_var_string (resumeCond q);
  stopCond' ← xdr_var_string (stopCond q);
  jobStarter' ← xdr_var_string (jobStarter q);
  suspendActCmd' ← xdr_var_string (suspendActCmd q);
  resumeActCmd' ← xdr_var_string (resumeActCmd q);
  terminateActCmd' ← xdr_var_string (terminateActCmd q);
  sigMap' ← xdr_array xdr_int LSB_SIG_NUM 0 (sigMap q);
  chkpntDir' ← xdr_var_string (chkpntDir q);
  chkpntPeriod' ← xdr_int (chkpntPeriod q);
  defLimits' ← xdr_array xdr_int LSF_RLIM_NLIMITS 0 (defLimits q);
  minProcLimit' ← xdr_int (minProcLimit q);
  defProcLimit' ← xdr_int (defProcLimit q);
  mret (mk queue' description' priority' nice' userList' hostList' nIdx_ loadSched' loadStop' userJobLimit'
            procJobLimit' windows' rLimits' hostSpec' qAttrib' qStatus' maxJobs' numJobs' numPEND' numRUN'
            numSSUSP' numUSUSP' mig' schedDelay' acceptIntvl' windowsD' defaultHostSpec' procLimit' admins'
            preCmd' postCmd' prepostUsername' requeueEValues' hostJobLimit' resReq' numRESERVE' slotHoldTime'
            resumeCond' stopCond' jobStarter' suspendActCmd' resumeActCmd' terminateActCmd' sigMap'
            chkpntDir' chkpntPeriod' defLimits' minProcLimit' defProcLimit').

Definition wf_queueInfoEnt (q : queueInfoEnt) : Prop :=
  Forall (chars MAX_LSB_NAME_LEN) [queue q; hostSpec q] /\ Forall vstr [description q; userList q; hostList
  q; windows q; windowsD q; defaultHostSpec q; admins q; preCmd q; postCmd q; prepostUsername q;
  requeueEValues q; resReq q; resumeCond q; stopCond q; jobStarter q; suspendActCmd q; resumeActCmd q;
  terminateActCmd q; chkpntDir q] /\ Forall int32 [priority q; userJobLimit q; qAttrib q; qStatus q; maxJobs
  q; numJobs q; numPEND q; numRUN q; numSSUSP q; numUSUSP q; mig q; schedDelay q; acceptIntvl q; procLimit
  q; hostJobLimit q; numRESERVE q; slotHoldTime q; chkpntPeriod q; minProcLimit q; defProcLimit q] /\ Forall
  int16 [nice q] /\ Forall uint32 [procJobLimit q] /\ length (loadSched q) = Z.to_nat (nIdx q) /\ Forall
  uint32 (loadSched q) /\ length (loadStop q) = Z.to_nat (nIdx q) /\ Forall uint32 (loadStop q) /\
  LSF_RLIM_NLIMITS = Z.of_nat (length (rLimits q)) /\ Forall int32 (rLimits q) /\ LSB_SIG_NUM = Z.of_nat
  (length (sigMap q)) /\ Forall int32 (sigMap q) /\ LSF_RLIM_NLIMITS = Z.of_nat (length (defLimits q)) /\
  Forall int32 (defLimits q).


(** Reduces the fields of a record that is written out. *)
Ltac proj :=
  cbn [
    queue description priority nice userList hostList nIdx loadSched loadStop userJobLimit procJobLimit
    windows rLimits hostSpec qAttrib qStatus maxJobs numJobs numPEND numRUN numSSUSP numUSUSP mig schedDelay
    acceptIntvl windowsD defaultHostSpec procLimit admins preCmd postCmd prepostUsername requeueEValues
    hostJobLimit resReq numRESERVE slotHoldTime resumeCond stopCond jobStarter suspendActCmd resumeActCmd
    terminateActCmd sigMap chkpntDir chkpntPeriod defLimits minProcLimit defProcLimit].

(** A target with arrays for [k] load indices. *)
Definition shaped (k : Z) (q : queueInfoEnt) : Prop :=
  length (loadSched q) = Z.to_nat k /\ length (loadStop q) = Z.to_nat k.

(** The strings and the bytes of an entry. *)
Definition strings (q : queueInfoEnt) : list cstr :=
  [queue q; description q; userList q; hostList q; windows q; hostSpec q; windowsD q; defaultHostSpec q; admins q;
   preCmd q; postCmd q; prepostUsername q; requeueEValues q; resReq q; resumeCond q; stopCond q; jobStarter q;
   suspendActCmd q; resumeActCmd q; terminateActCmd q; chkpntDir q].
Definition size (q : queueInfoEnt) : Z := list_sum_Z (wlen <$> strings q) + 8 * Z.max 0 (nIdx q) + 4 * 67.

Lemma carries_queueInfoEnt q : wf_queueInfoEnt q ->
  exists w, carries_if (shaped (nIdx q)) (xdr_queueInfoEnt (nIdx q)) q w /\ Z.of_nat (length w) = size q.
Proof.
  destruct q. intros H. unfold wf_queueInfoEnt in H. cbn in H. fields. eexists. split.
  - intros q0 [S1 S2]. unfold xdr_queueInfoEnt. cbn [QueueInfoEnt.nIdx] in *. repeat xdr_step.
  - proj. wire_length. rewrite !length_wzip by congruence. unfold size, strings. cbn.
    unfold LSF_RLIM_NLIMITS, LSB_SIG_NUM in *. lia.
Qed.
End QueueInfoEnt.

Module QueueInfoReply.
Record queueInfoReply := mk { badQueue : Z; numQueues : Z; nIdx : Z; queues : list QueueInfoEnt.queueInfoEnt }.

Definition targets (n k : Z) : list QueueInfoEnt.queueInfoEnt :=
  zip_with QueueInfoEnt.target (slices n k (table_size n k)) (slices n k (table_size n k)).

Definition xdr_queueInfoReply (r : queueInfoReply) : xdr queueInfoReply :=
  numQueues' ← xdr_int (numQueues r);
  badQueue' ← xdr_int (badQueue r);
  nIdx' ← xdr_int (nIdx r);
  queues0 ← on_decode (mret (targets numQueues' nIdx')) (queues r);
  queues' ← xdr_vector (xdr_arrayElement (QueueInfoEnt.xdr_queueInfoEnt nIdx')) numQueues' queues0;
  mret (mk badQueue' numQueues' nIdx' queues').

(** The numbers of load indices of all queues together are an [int]. *)
Definition wf_queueInfoReply (r : queueInfoReply) : Prop :=
  Forall int32 [badQueue r; nIdx r] /\ counts (numQueues r) (queues r) /\ 0 <= nIdx r /\ int32 (numQueues r * nIdx r) /\
  Forall (fun q => QueueInfoEnt.wf_queueInfoEnt q /\ QueueInfoEnt.nIdx q = nIdx r) (queues r).

Definition size (r : queueInfoReply) : Z := 12 + list_sum_Z ((fun q => 4 + QueueInfoEnt.size q) <$> queues r).

Lemma targets_ok n k : 0 <= n -> 0 <= k -> int32 (n * k) ->
  Forall (QueueInfoEnt.shaped k) (targets n k) /\ length (targets n k) = Z.to_nat n.
Proof.
  intros. split.
  - eapply zip_targets; [|by apply slices_ok..]. done.
  - unfold targets. rewrite length_zip_with, !length_slices. lia.
Qed.

Lemma wires_queues k l : Forall (fun q => QueueInfoEnt.wf_queueInfoEnt q /\ QueueInfoEnt.nIdx q = k) l ->
  exists ws, Forall2 (carries_if (QueueInfoEnt.shaped k) (xdr_arrayElement (QueueInfoEnt.xdr_queueInfoEnt k))) l ws /\
    Z.of_nat (length (concat ws)) = list_sum_Z ((fun q => 4 + QueueInfoEnt.size q) <$> l).
Proof.
  induction 1 as [|q l [Hq <-] _ (ws & Hw & Hs)]; [by exists []|].
  destruct (QueueInfoEnt.carries_queueInfoEnt q Hq) as (w & Cw & Lw). exists (welem w :: ws). split.
  - constructor; [|done]. intros q0 H0. by apply codec_arrayElement, Cw.
  - cbn [concat]. wire_length. by rewrite Lw, Hs.
Qed.

Lemma transfers_queueInfoReply_size r : wf_queueInfoReply r ->
  exists w, carries xdr_queueInfoReply r w /\ Z.of_nat (length w) = size r.
Proof.
  destruct r as [b n k l]. intros H. unfold wf_queueInfoReply in H. cbn in H. fields.
  destruct (wires_queues k l) as (ws & Hw & Hs); [done|]. destruct (targets_ok n k) as [T1 T2]; [lia|done..|].
  eexists. split.
  - intros r0. unfold xdr_queueInfoReply. cbn [badQueue numQueues nIdx queues]. do 3 xdr_step. cbv beta.
    eapply codec_bind_nil; [by apply codec_on_decode|].
    eapply codec_bind; [|apply codec_ret]. unfold xdr_vector. replace (Z.to_nat n) with (length l) in * by lia.
    by apply (carries_elems_if (QueueInfoEnt.shaped k)).
  - wire_length. unfold size. cbn [queues]. lia.
Qed.

Lemma transfers_queueInfoReply r : wf_queueInfoReply r -> transfers xdr_queueInfoReply r.
Proof. intros H. destruct (transfers_queueInfoReply_size r H) as (w & Hw & _). by exists w. Qed.
End QueueInfoReply.
#[export] Instance wire_queueInfoReply : Wire QueueInfoReply.xdr_queueInfoReply := { wf_wire := QueueInfoReply.wf_queueInfoReply; wire_transfers := QueueInfoReply.transfers_queueInfoReply }.

(** [(i)/INTEGER_BITS + 1] *)
Definition GET_INTNUM (i : Z) : Z := Z.quot i 32 + 1.

Module HostInfoEnt.
Record hostInfoEnt := mk {
  host : cstr; hStatus : Z; busySched : list Z; busyStop : list Z; cpuFactor : Z; nIdx : Z; load : list Z;
  loadSched : list Z; loadStop : list Z; windows : cstr; userJobLimit : Z; maxJobs : Z; numJobs : Z;
  numRUN : Z; numSSUSP : Z; numUSUSP : Z; mig : Z; attr : Z; realLoad : list Z; numRESERVE : Z }.

(** What the decoder finds in an array of its own. *)
Definition target (bsched bstop sched stop real ld : list Z) : hostInfoEnt :=
  mk [] 0 bsched bstop 0 0 ld sched stop [] 0 0 0 0 0 0 0 0 real 0.

Definition xdr_hostInfoEnt (nIdx_ : Z) (h : hostInfoEnt) : xdr hostInfoEnt :=
  host' ← xdr_string MAXHOSTNAMELEN MAXHOSTNAMELEN (host h);
  cpuFactor' ← xdr_float (cpuFactor h);
  windows' ← xdr_string MAXLINELEN MAXLINELEN (windows h);
  userJobLimit' ← xdr_int (userJobLimit h);
  maxJobs' ← xdr_int (maxJobs h);
  numJobs' ← xdr_int (numJobs h);
  numRUN' ← xdr_int (numRUN h);
  numSSUSP' ← xdr_int (numSSUSP h);
  numUSUSP' ← xdr_int (numUSUSP h);
  hStatus' ← xdr_int (hStatus h);
  attr' ← xdr_int (attr h);
  mig' ← xdr_int (mig h);
  '(busySched', busyStop') ← xdr_zip xdr_int xdr_int (Z.to_nat (GET_INTNUM nIdx_)) (busySched h) (busyStop h);
  '(loadSched', loadStop') ← xdr_zip xdr_float xdr_float (Z.to_nat nIdx_) (loadSched h) (loadStop h);
  '(realLoad', load') ← xdr_zip xdr_float xdr_float (Z.to_nat nIdx_) (realLoad h) (load h);
  numRESERVE' ← xdr_int (numRESERVE h);
  mret (mk host' hStatus' busySched' busyStop' cpuFactor' nIdx_ load' loadSched' loadStop' windows'
            userJobLimit' maxJobs' numJobs' numRUN' numSSUSP' numUSUSP' mig' attr' realLoad' numRESERVE').

Definition wf_hostInfoEnt (h : hostInfoEnt) : Prop :=
  Forall (chars MAXHOSTNAMELEN) [host h] /\ Forall int32 [hStatus h; userJobLimit h; maxJobs h; numJobs h;
  numRUN h; numSSUSP h; numUSUSP h; mig h; attr h; numRESERVE h] /\ Forall uint32 [cpuFactor h] /\ Forall
  (chars MAXLINELEN) [windows h] /\ length (busySched h) = Z.to_nat (GET_INTNUM (nIdx h)) /\ Forall int32
  (busySched h) /\ length (busyStop h) = Z.to_nat (GET_INTNUM (nIdx h)) /\ Forall int32 (busyStop h) /\
  length (load h) = Z.to_nat (nIdx h) /\ Forall uint32 (load h) /\ length (loadSched h) = Z.to_nat (nIdx h)
  /\ Forall uint32 (loadSched h) /\ length (loadStop h) = Z.to_nat (nIdx h) /\ Forall uint32 (loadStop h) /\
  length (realLoad h) = Z.to_nat (nIdx h) /\ Forall uint32 (realLoad h).


(** A target with arrays for [k] load indices. *)
Definition shaped (k : Z) (h : hostInfoEnt) : Prop :=
  Forall (fun l => length l = Z.to_nat k) [loadSched h; loadStop h; realLoad h; load h] /\
  Forall (fun l => length l = Z.to_nat (GET_INTNUM k)) [busySched h; busyStop h].

Lemma carries_hostInfoEnt h : wf_hostInfoEnt h ->
  exists w, carries_if (shaped (nIdx h)) (xdr_hostInfoEnt (nIdx h)) h w.
Proof.
  destruct h. intros H. unfold wf_hostInfoEnt in H. cbn in H. fields. eexists. intros h0 S. unfold shaped in S. fields.
  unfold xdr_hostInfoEnt. cbn [HostInfoEnt.nIdx] in *. repeat xdr_step.
Qed.
End HostInfoEnt.

Module HostDataReply.
Record hostDataReply := mk { badHost : Z; numHosts : Z; nIdx : Z; flag : Z; hosts : list HostInfoEnt.hostInfoEnt }.

(** Entry [i] gets slice [i] of each of the six tables. *)
Definition targets (n k : Z) : list HostInfoEnt.hostInfoEnt :=
  let loads := slices n k (table_size n k) in
  let busy := slices n (GET_INTNUM k) (table_size n (GET_INTNUM k)) in
  zip_with (fun b l => HostInfoEnt.target b b l l l l) busy loads.

(** The tables of [load] and [realLoad] have [nIdx * numHosts] numbers, those of
    [busySched] and [busyStop] [GET_INTNUM(nIdx) * numHosts]; a negative size is refused.  The
    variable [lsbSharedResConfigured_] that the decoder sets from [flag] is left out. *)
Definition xdr_hostDataReply (r : hostDataReply) : xdr hostDataReply :=
  numHosts' ← xdr_int (numHosts r);
  badHost' ← xdr_int (badHost r);
  nIdx' ← xdr_int (nIdx r);
  hosts0 ← on_decode
    (if (0 <? numHosts') && ((wrap32 (numHosts' * nIdx') <? 0) || (wrap32 (numHosts' * GET_INTNUM nIdx') <? 0)) then refuse
     else mret (targets numHosts' nIdx')) (hosts r);
  hosts' ← xdr_vector (xdr_arrayElement (HostInfoEnt.xdr_hostInfoEnt nIdx')) numHosts' hosts0;
  flag' ← xdr_int (flag r);
  mret (mk badHost' numHosts' nIdx' flag' hosts').

Definition wf_hostDataReply (r : hostDataReply) : Prop :=
  Forall int32 [badHost r; nIdx r; flag r] /\ counts (numHosts r) (hosts r) /\ 0 <= nIdx r /\
  int32 (numHosts r * nIdx r) /\ int32 (numHosts r * GET_INTNUM (nIdx r)) /\
  Forall (fun h => HostInfoEnt.wf_hostInfoEnt h /\ HostInfoEnt.nIdx h = nIdx r) (hosts r).

Lemma GET_INTNUM_pos k : 0 <= k -> 0 < GET_INTNUM k.
Proof. intros. unfold GET_INTNUM. pose proof (Z.quot_pos k 32). lia. Qed.

Lemma host_targets_ok n k : 0 <= n -> 0 <= k -> int32 (n * k) -> int32 (n * GET_INTNUM k) ->
  Forall (HostInfoEnt.shaped k) (targets n k) /\ length (targets n k) = Z.to_nat n.
Proof.
  intros Hn Hk H1 H2. pose proof (GET_INTNUM_pos k Hk). split.
  - unfold targets. cbv zeta. pose proof (slices_ok n k Hn Hk H1) as S.
    pose proof (slices_ok n (GET_INTNUM k) Hn ltac:(lia) H2) as B. revert B S.
    generalize (slices n (GET_INTNUM k) (table_size n (GET_INTNUM k))) as bs, (slices n k (table_size n k)) as ls.
    intros bs ls B. revert ls. induction B as [|b bs Hb _ IH]; intros ls S; [constructor|].
    destruct S as [|l ls Hl S]; cbn; constructor; [|by apply IH]. unfold HostInfoEnt.shaped. cbn. repeat constructor; done.
  - unfold targets. rewrite length_zip_with, !length_slices. lia.
Qed.

Lemma transfers_hostDataReply r : wf_hostDataReply r -> transfers xdr_hostDataReply r.
Proof.
  destruct r as [b n k f l]. intros H. unfold wf_hostDataReply in H. cbn in H. fields.
  destruct (wires_if (HostInfoEnt.shaped k) (xdr_arrayElement (HostInfoEnt.xdr_hostInfoEnt k)) l) as [ws Hw].
  { eapply Forall_impl; [done|]. intros h [Hh <-]. destruct (HostInfoEnt.carries_hostInfoEnt h Hh) as [w Cw].
    exists (welem w). intros h0 Hs. by apply codec_arrayElement, Cw. }
  destruct (host_targets_ok n k) as [T1 T2]; [lia|done..|].
  pose proof (GET_INTNUM_pos k ltac:(done)).
  assert (P1 : 0 <= n * k) by nia. assert (P2 : 0 <= n * GET_INTNUM k) by nia.
  eexists. intros r0. unfold xdr_hostDataReply. cbn [badHost numHosts nIdx flag hosts]. do 3 xdr_step. cbv beta.
  rewrite !wrap32_id by done.
  destruct (Z.ltb_spec (n * k) 0); [lia|]. destruct (Z.ltb_spec (n * GET_INTNUM k) 0); [lia|]. rewrite andb_false_r.
  eapply codec_bind_nil; [by apply codec_on_decode|].
  eapply codec_bind; [|repeat xdr_step]. unfold xdr_vector. replace (Z.to_nat n) with (length l) in * by lia.
  by apply (carries_elems_if (HostInfoEnt.shaped k)).
Qed.
End HostDataReply.
#[export] Instance wire_hostDataReply : Wire HostDataReply.xdr_hostDataReply := { wf_wire := HostDataReply.wf_hostDataReply; wire_transfers := HostDataReply.transfers_hostDataReply }.

Definition JGRP_NODE_GROUP : Z := 2.

Module JobInfoReply.
Record jobInfoReply := mk {
  jobId : Z; status : Z; reasonTb : list Z; numReasons : Z; reasons : Z; subreasons : Z; startTime : Z;
  predictedStartTime : Z; endTime : Z; cpuTime : Z; numToHosts : Z; toHosts : list cstr; nIdx : Z;
  loadSched : list Z; loadStop : list Z; userId : Z; userName : cstr; execUid : Z; exitStatus : Z;
  execHome : cstr; execCwd : cstr; execUsername : cstr; jobBill : SubmitReq.submitReq; reserveTime : Z;
  jobPid : Z; jRusageUpdateTime : Z; runRusage : jRusage; jType : Z; parentGroup : cstr; jName : cstr;
  counter : list Z; port : Z; jobPriority : Z }.

(** The record [jobBill] of a group gets a condition, a time and a name. *)
Definition with_bill (b : SubmitReq.submitReq) (dependCond' : cstr) (submitTime' : Z) (jobName' : cstr) : SubmitReq.submitReq :=
  SubmitReq.mk (SubmitReq.options b) (SubmitReq.options2 b) jobName' (SubmitReq.queue b) (SubmitReq.numAskedHosts b)
      (SubmitReq.askedHosts b) (SubmitReq.resReq b) (SubmitReq.rLimits b) (SubmitReq.hostSpec b)
      (SubmitReq.numProcessors b) dependCond' (SubmitReq.beginTime b) (SubmitReq.termTime b)
      (SubmitReq.sigValue b) (SubmitReq.subHomeDir b) (SubmitReq.inFile b) (SubmitReq.outFile b)
      (SubmitReq.errFile b) (SubmitReq.command b) (SubmitReq.inFileSpool b) (SubmitReq.commandSpool b)
      (SubmitReq.chkpntPeriod b) (SubmitReq.chkpntDir b) (SubmitReq.restartPid b) (SubmitReq.nxf b)
      (SubmitReq.xf b) (SubmitReq.jobFile b) (SubmitReq.fromHost b) submitTime' (SubmitReq.umask b)
      (SubmitReq.cwd b) (SubmitReq.preExecCmd b) (SubmitReq.mailUser b) (SubmitReq.projectName b)
      (SubmitReq.niosPort b) (SubmitReq.maxNumProcessors b) (SubmitReq.loginShell b)
      (SubmitReq.schedHostType b) (SubmitReq.userPriority b).

Definition xdr_jgrpInfoReply (r : jobInfoReply) : xdr jobInfoReply :=
  '(jobArrId0, jobArrElemId0) ← on_encode (mret (jobId64To32 (jobId r))) (0, 0);
  jobArrId ← xdr_int jobArrId0;
  status' ← xdr_int (status r);
  reasons' ← xdr_int (reasons r);
  subreasons' ← xdr_int (subreasons r);
  startTime' ← xdr_time_t (startTime r);
  predictedStartTime' ← xdr_time_t (predictedStartTime r);
  endTime' ← xdr_time_t (endTime r);
  cpuTime' ← xdr_float (cpuTime r);
  numToHosts' ← xdr_int (numToHosts r);
  userId' ← xdr_int (userId r);
  userName' ← xdr_string MAXLSFNAMELEN MAXLSFNAMELEN (userName r);
  dependCond' ← xdr_var_string (SubmitReq.dependCond (jobBill r));
  submitTime' ← xdr_time_t (SubmitReq.submitTime (jobBill r));
  jobName' ← xdr_var_string (SubmitReq.jobName (jobBill r));
  jobArrElemId ← xdr_int jobArrElemId0;
  jobId' ← on_decode (mret (jobId32To64 jobArrId jobArrElemId)) (jobId r);
  let jobBill' := with_bill (jobBill r) dependCond' submitTime' jobName' in
  mret (mk jobId' status' (reasonTb r) (numReasons r) reasons' subreasons' startTime' predictedStartTime' endTime'
      cpuTime' numToHosts' (toHosts r) (nIdx r) (loadSched r) (loadStop r) userId' userName' (execUid r)
      (exitStatus r) (execHome r) (execCwd r) (execUsername r) jobBill' (reserveTime r) (jobPid r)
      (jRusageUpdateTime r) (runRusage r) (jType r) (parentGroup r) (jName r) (counter r) (port r)
      (jobPriority r)).

(** The first fields of the message are those of all nodes of the job tree. *)
Definition with_node (r : jobInfoReply) (jType' : Z) (parentGroup' jName' : cstr) (counter' : list Z) : jobInfoReply :=
  mk (jobId r) (status r) (reasonTb r) (numReasons r) (reasons r) (subreasons r) (startTime r)
      (predictedStartTime r) (endTime r) (cpuTime r) (numToHosts r) (toHosts r) (nIdx r) (loadSched r)
      (loadStop r) (userId r) (userName r) (execUid r) (exitStatus r) (execHome r) (execCwd r)
      (execUsername r) (jobBill r) (reserveTime r) (jobPid r) (jRusageUpdateTime r) (runRusage r) jType'
      parentGroup' jName' counter' (port r) (jobPriority r).

Definition xdr_jobInfoReply (r : jobInfoReply) : xdr jobInfoReply :=
  jType' ← xdr_int (jType r);
  parentGroup' ← xdr_var_string (parentGroup r);
  jName' ← xdr_var_string (jName r);
  counter' ← xdr_array xdr_int NUM_JGRP_COUNTERS 0 (counter r);
  if jType' =? JGRP_NODE_GROUP then xdr_jgrpInfoReply (with_node r jType' parentGroup' jName' counter')
  else
  '(jobArrId0, jobArrElemId0) ← on_encode (mret (jobId64To32 (jobId r))) (0, 0);
  jobArrId ← xdr_int jobArrId0;
  status' ← xdr_int (status r);
  reasons' ← xdr_int (reasons r);
  subreasons' ← xdr_int (subreasons r);
  startTime' ← xdr_time_t (startTime r);
  endTime' ← xdr_time_t (endTime r);
  cpuTime' ← xdr_float (cpuTime r);
  numToHosts' ← xdr_int (numToHosts r);
  nIdx' ← xdr_int (nIdx r);
  numReasons' ← xdr_int (numReasons r);
  userId' ← xdr_int (userId r);
  userName' ← xdr_string MAXLSFNAMELEN MAXLSFNAMELEN (userName r);
  loadSched0 ← on_decode (mret (replicate (Z.to_nat nIdx') 0)) (loadSched r);
  loadStop0 ← on_decode (mret (replicate (Z.to_nat nIdx') 0)) (loadStop r);
  '(loadSched', loadStop') ← xdr_zip xdr_float xdr_float (Z.to_nat nIdx') loadSched0 loadStop0;
  reasonTb0 ← calloc_pos numReasons' 0 (reasonTb r);
  reasonTb' ← xdr_vector xdr_int numReasons' reasonTb0;
  toHosts0 ← calloc_pos numToHosts' [] (toHosts r);
  toHosts' ← xdr_vector (xdr_string MAXHOSTNAMELEN MAXHOSTNAMELEN) numToHosts' toHosts0;
  jobBill' ← xdr_arrayElement SubmitReq.xdr_submitReq (jobBill r);
  exitStatus' ← xdr_int (exitStatus r);
  execUid' ← xdr_int (execUid r);
  execHome' ← xdr_var_string (execHome r);
  execCwd' ← xdr_var_string (execCwd r);
  execUsername' ← xdr_var_string (execUsername r);
  reserveTime' ← xdr_time_t (reserveTime r);
  jobPid' ← xdr_int (jobPid r);
  jRusageUpdateTime' ← xdr_time_t (jRusageUpdateTime r);
  runRusage' ← xdr_jRusage (runRusage r);
  predictedStartTime' ← xdr_time_t (predictedStartTime r);
  port' ← xdr_u_short (port r);
  jobPriority' ← xdr_int (jobPriority r);
  jobArrElemId ← xdr_int jobArrElemId0;
  jobId' ← on_decode (mret (jobId32To64 jobArrId jobArrElemId)) (jobId r);
  mret (mk jobId' status' reasonTb' numReasons' reasons' subreasons' startTime' predictedStartTime' endTime'
      cpuTime' numToHosts' toHosts' nIdx' loadSched' loadStop' userId' userName' execUid' exitStatus'
      execHome' execCwd' execUsername' jobBill' reserveTime' jobPid' jRusageUpdateTime' runRusage' jType'
      parentGroup' jName' counter' port' jobPriority').

(** The fields that every node has. *)
Definition wf_node (r : jobInfoReply) : Prop :=
  Forall int32 [jType r; status r; reasons r; subreasons r; startTime r; predictedStartTime r; endTime r; userId r] /\
  Forall vstr [parentGroup r; jName r] /\ chars MAXLSFNAMELEN (userName r) /\ uint32 (cpuTime r) /\ jobid_ok (jobId r) /\
  NUM_JGRP_COUNTERS = Z.of_nat (length (counter r)) /\ Forall int32 (counter r).

(** Jobs and arrays. *)
Definition wf_jobInfoReply (r : jobInfoReply) : Prop :=
  wf_node r /\ jType r <> JGRP_NODE_GROUP /\
  Forall int32 [exitStatus r; execUid r; reserveTime r; jobPid r; jRusageUpdateTime r; jobPriority r] /\
  Forall vstr [execHome r; execCwd r; execUsername r] /\ uint16 (port r) /\
  counts (numToHosts r) (toHosts r) /\ Forall (chars MAXHOSTNAMELEN) (toHosts r) /\
  counts (numReasons r) (reasonTb r) /\ Forall int32 (reasonTb r) /\
  counts (nIdx r) (loadSched r) /\ counts (nIdx r) (loadStop r) /\ Forall uint32 (loadSched r) /\ Forall uint32 (loadStop r) /\
  SubmitReq.wf_submitReq (jobBill r) /\ wf_jRusage (runRusage r).

Lemma transfers_jobInfoReply r : wf_jobInfoReply r -> transfers xdr_jobInfoReply r.
Proof.
  destruct r. intros (Hn & Hg & H). unfold wf_node in Hn. cbn in Hn, Hg, H. fields.
  match goal with H : SubmitReq.wf_submitReq _ |- _ => part (SubmitReq.transfers_submitReq _ H) end.
  match goal with H : wf_jRusage _ |- _ => part (transfers_jRusage _ H) end.
  eexists. intros r0. unfold xdr_jobInfoReply. do 4 xdr_step. cbv beta. cbn [jType].
  destruct (Z.eqb_spec jType0 JGRP_NODE_GROUP); [done|]. do 13 xdr_step.
  do 2 (eapply codec_bind_nil; [by apply codec_on_decode|]; cbv beta).
  eapply codec_bind; [apply codec_floats; try done; rewrite ?length_replicate; done || (cbn; lia)|].
  repeat xdr_step.
Qed.

(** A group: what the message does not have stays as it was. *)
Definition received_group (r r0 : jobInfoReply) : jobInfoReply :=
  let b := jobBill r in
  mk (jobId r) (status r) (reasonTb r0) (numReasons r0) (reasons r) (subreasons r) (startTime r) (predictedStartTime r)
     (endTime r) (cpuTime r) (numToHosts r) (toHosts r0) (nIdx r0) (loadSched r0) (loadStop r0) (userId r) (userName r)
     (execUid r0) (exitStatus r0) (execHome r0) (execCwd r0) (execUsername r0)
     (with_bill (jobBill r0) (SubmitReq.dependCond b) (SubmitReq.submitTime b) (SubmitReq.jobName b))
     (reserveTime r0) (jobPid r0) (jRusageUpdateTime r0) (runRusage r0) (jType r) (parentGroup r) (jName r) (counter r)
     (port r0) (jobPriority r0).

Definition wf_group (r : jobInfoReply) : Prop :=
  wf_node r /\ jType r = JGRP_NODE_GROUP /\ int32 (numToHosts r) /\ int32 (SubmitReq.submitTime (jobBill r)) /\
  vstr (SubmitReq.dependCond (jobBill r)) /\ vstr (SubmitReq.jobName (jobBill r)).

Lemma codec_group r : wf_group r ->
  exists w, forall r0, codec (xdr_jobInfoReply r) (xdr_jobInfoReply r0) (received_group r r) (received_group r r0) w.
Proof.
  intros (Hn & Hg & H). unfold wf_node in Hn. fields.
  eexists. intros r0. unfold xdr_jobInfoReply. do 4 xdr_step. cbv beta. rewrite Hg, Z.eqb_refl.
  unfold xdr_jgrpInfoReply, with_node, received_group. cbn. rewrite Hg. repeat xdr_step.
Qed.
End JobInfoReply.
#[export] Instance wire_jobInfoReply : Wire JobInfoReply.xdr_jobInfoReply := { wf_wire := JobInfoReply.wf_jobInfoReply; wire_transfers := JobInfoReply.transfers_jobInfoReply }.
