(* ===== verification/XdrDaemons.v ===== *)
(** * Messages between the master and the slave batch daemons (lsbatch/daemons/daemons.xdr.c)

    The master sends jobs to the slaves and gets reports on their states.  Modules as in
    XdrRequest.v; messages to the system log are left out. *)
From stdpp Require Import base list.
From Stdlib Require Import ZArith Ascii Lia.
From S2P Require Import Prelude JobId Xdr XdrLib XdrCarry XdrBatch XdrMsg XdrRequest XdrReply XdrInfo.
Local Open Scope Z_scope.

(** [my_calloc] logs a failure and returns NULL; the loops over a negative number of
    elements do nothing. *)
Definition my_calloc {A} (n : Z) (d : A) (v : list A) : xdr (list A) := on_decode (mret (replicate (Z.to_nat n) d)) v.

Lemma codec_my_calloc {A} (p : A -> xdr A) n d l l0 w {B} (f g : list A -> xdr B) v u w' :
  many p n l w -> codec (f l) (g l) v u w' ->
  codec (a ← my_calloc n d l; b ← xdr_vector p n a; f b)
        (a ← my_calloc n d l0; b ← xdr_vector p n a; g b) v u (w ++ w').
Proof.
  intros Hm Hf. eapply codec_bind_nil; [by apply codec_on_decode|]. eapply codec_bind; [|done].
  apply Hm. by rewrite length_replicate.
Qed.

Ltac daemon_step := first [eapply codec_my_calloc; [solve [eauto with xdr]|] | xdr_step].

(** ** Thresholds *)

Module Thresholds.
Record thresholds := mk { nIdx : Z; nThresholds : Z; loadStop : list (list Z); loadSched : list (list Z) }.

Fixpoint xdr_rows (n k : nat) (u v : list (list Z)) : xdr (list (list Z) * list (list Z)) :=
  match n, u, v with
  | O, _, _ => mret ([], [])
  | S n', a :: u', b :: v' =>
      '(a', b') ← xdr_zip xdr_float xdr_float k a b; '(u'', v'') ← xdr_rows n' k u' v'; mret (a' :: u'', b' :: v'')
  | S _, _, _ => fault
  end.

Definition xdr_thresholds (t : thresholds) : xdr thresholds :=
  nIdx' ← xdr_int (nIdx t);
  nThresholds' ← xdr_int (nThresholds t);
  loadSched0 ← my_calloc nThresholds' (replicate (Z.to_nat nIdx') 0) (loadSched t);
  loadStop0 ← my_calloc nThresholds' (replicate (Z.to_nat nIdx') 0) (loadStop t);
  '(loadStop', loadSched') ← xdr_rows (Z.to_nat nThresholds') (Z.to_nat nIdx') loadStop0 loadSched0;
  mret (mk nIdx' nThresholds' loadStop' loadSched').

Definition wf_rows (n k : Z) (u : list (list Z)) : Prop :=
  length u = Z.to_nat n /\ Forall (fun a => length a = Z.to_nat k /\ Forall uint32 a) u.

Definition wf_thresholds (t : thresholds) : Prop :=
  int32 (nIdx t) /\ int32 (nThresholds t) /\
  wf_rows (nThresholds t) (nIdx t) (loadStop t) /\ wf_rows (nThresholds t) (nIdx t) (loadSched t).

Lemma codec_rows k u v : Forall (fun a => length a = k /\ Forall uint32 a) u -> Forall (fun a => length a = k /\ Forall uint32 a) v ->
  length v = length u -> exists w, forall u0 v0, length u0 = length u -> length v0 = length u ->
  Forall (fun a => length a = k) u0 -> Forall (fun a => length a = k) v0 ->
  codec (xdr_rows (length u) k u v) (xdr_rows (length u) k u0 v0) (u, v) (u, v) w.
Proof.
  intros Hu. revert v. induction Hu as [|a u [La Ha] _ IH]; intros v Hv Hl.
  - destruct v; [|done]. exists []. intros. apply codec_ret.
  - destruct Hv as [|b v [Lb Hb] Hv]; [done|]. destruct (IH v Hv) as [w Hw]; [cbn in Hl; lia|].
    exists (wzip be32 be32 a b ++ w ++ []). intros u0 v0 L1 L2 F1 F2.
    destruct F1 as [|a0 u0 La0 F1], F2 as [|b0 v0 Lb0 F2]; try done. cbn.
    eapply codec_bind; [by apply codec_floats|]. eapply codec_bind; [apply Hw; [cbn in *; lia..|done|done]|apply codec_ret].
Qed.

Lemma transfers_thresholds t : wf_thresholds t -> transfers xdr_thresholds t.
Proof.
  destruct t as [k n st sc]. intros (Hk & Hn & [L1 H1] & [L2 H2]). cbn in *.
  destruct (codec_rows (Z.to_nat k) st sc H1 H2) as [w Hw]; [lia|].
  eexists. intros t0. unfold xdr_thresholds. cbn [nIdx nThresholds loadStop loadSched]. do 2 xdr_step. cbv beta.
  do 2 (eapply codec_bind_nil; [by apply codec_on_decode|]; cbv beta).
  rewrite <- L1. eapply codec_bind; [apply Hw; rewrite ?length_replicate; try done; apply Forall_replicate; apply length_replicate|].
  apply codec_ret.
Qed.

Lemma tight_zip n u v : tight (xdr_zip xdr_float xdr_float n u v).
Proof.
  revert u v. induction n as [|n IH]; intros [|a u] [|b v]; try done.
  cbn. do 2 (apply tight_bind; [apply tight_word|intros]). apply tight_bind; [apply IH|]. intros []. apply tight_ret.
Qed.

Lemma tight_rows n k u v : tight (xdr_rows n k u v).
Proof.
  revert u v. induction n as [|n IH]; intros [|a u] [|b v]; try done.
  cbn. apply tight_bind; [apply tight_zip|]. intros []. apply tight_bind; [apply IH|]. intros []. apply tight_ret.
Qed.

Lemma tight_on_decode {A} (v u : A) : tight (on_decode (mret v) u).
Proof. intros x x'. unfold on_decode, by_op. by destruct (x_op x). Qed.

(** [xdr_thresholds] is refused only when not even a word is left. *)
Lemma tight_thresholds t : tight (xdr_thresholds t).
Proof.
  do 2 (apply tight_bind; [apply tight_word|intros]). do 2 (apply tight_bind; [apply tight_on_decode|intros]).
  apply tight_bind; [apply tight_rows|]. intros []. apply tight_ret.
Qed.
End Thresholds.
Import Thresholds(xdr_thresholds).


(** The name of the queue goes into an array of [MAX_LSB_NAME_LEN] characters, with
    the bound [MAXFILENAMELEN]. *)
Lemma codec_queue s s0 : chars MAX_LSB_NAME_LEN s ->
  codec (xdr_string MAX_LSB_NAME_LEN MAXFILENAMELEN s) (xdr_string MAX_LSB_NAME_LEN MAXFILENAMELEN s0) s s (wstr s).
Proof. intros H. by apply codec_string. Qed.

Lemma many_limits n l : n = Z.of_nat (length l) -> Forall wf_lsfLimit l ->
  many xdr_lsfLimit n l (concat (wlimit <$> l)).
Proof. apply many_strings. apply carries_lsfLimit. Qed.
#[export] Hint Resolve codec_queue many_limits : xdr.

Module JobSpecs.
(** The result of [xdr_thresholds] is ignored. *)
Record jobSpecs := mk {
  jobId : Z; jobName : cstr; jStatus : Z; reasons : Z; subreasons : Z; userId : Z; userName : cstr;
  options : Z; jobPid : Z; jobPGid : Z; queue : cstr; priority : Z; nice : Z; fromHost : cstr; resReq : cstr;
  startTime : Z; runTime : Z; numToHosts : Z; toHosts : list cstr; thresholds : Thresholds.thresholds;
  jAttrib : Z; sigValue : Z; lsfLimits : list lsfLimit; termTime : Z; windows : cstr; subHomeDir : cstr;
  command : cstr; jobFile : cstr; inFile : cstr; outFile : cstr; errFile : cstr; umask : Z; cwd : cstr;
  restartPid : Z; nxf : Z; xf : list XFile.xFile; submitTime : Z; chkpntDir : cstr; chkSig : Z; actPid : Z;
  chkPeriod : Z; migThresh : Z; lastSSuspTime : Z; preExecCmd : cstr; lastCpuTime : Z; mailUser : cstr;
  clusterName : cstr; numEnv : Z; env : list cstr; eexec : lenData; projectName : cstr; preCmd : cstr;
  postCmd : cstr; prepostUsername : cstr; execCwd : cstr; execHome : cstr; execUid : Z;
  requeueEValues : cstr; niosPort : Z; resumeCond : cstr; stopCond : cstr; suspendActCmd : cstr;
  resumeActCmd : cstr; terminateActCmd : cstr; sigMap : list Z; actValue : Z; loginShell : cstr;
  maxNumProcessors : Z; schedHostType : cstr; execHosts : cstr; options2 : Z; jobSpoolDir : cstr;
  inFileSpool : cstr; commandSpool : cstr; userPriority : Z; execUsername : cstr }.

Definition xdr_jobSpecs (r : jobSpecs) : xdr jobSpecs :=
  '(jobArrId0, jobArrElemId0) ← on_encode (mret (jobId64To32 (jobId r))) (0, 0);
  jobArrId ← xdr_int jobArrId0;
  userId' ← xdr_int (userId r);
  options' ← xdr_int (options r);
  nice' ← xdr_short (nice r);
  priority' ← xdr_int (priority r);
  chkSig' ← xdr_int (chkSig r);
  actPid' ← xdr_int (actPid r);
  chkPeriod' ← xdr_time_t (chkPeriod r);
  migThresh' ← xdr_time_t (migThresh r);
  lastSSuspTime' ← xdr_time_t (lastSSuspTime r);
  lastCpuTime' ← xdr_float (lastCpuTime r);
  lsfLimits' ← xdr_limits xdr_lsfLimit LSF_RLIM_NLIMITS (mkLsfLimit 0 0 0 0) (lsfLimits r);
  jStatus' ← xdr_int (jStatus r);
  reasons' ← xdr_int (reasons r);
  subreasons' ← xdr_int (subreasons r);
  termTime' ← xdr_time_t (termTime r);
  startTime' ← xdr_time_t (startTime r);
  runTime' ← xdr_int (runTime r);
  submitTime' ← xdr_time_t (submitTime r);
  jobPid' ← xdr_int (jobPid r);
  jobPGid' ← xdr_int (jobPGid r);
  restartPid' ← xdr_int (restartPid r);
  sigValue' ← xdr_int (sigValue r);
  umask' ← xdr_int (umask r);
  jAttrib' ← xdr_int (jAttrib r);
  jobFile' ← xdr_string MAXFILENAMELEN MAXFILENAMELEN (jobFile r);
  inFile' ← xdr_string MAXFILENAMELEN MAXFILENAMELEN (inFile r);
  outFile' ← xdr_string MAXFILENAMELEN MAXFILENAMELEN (outFile r);
  errFile' ← xdr_string MAXFILENAMELEN MAXFILENAMELEN (errFile r);
  chkpntDir' ← xdr_string MAXFILENAMELEN MAXFILENAMELEN (chkpntDir r);
  cwd' ← xdr_string MAXFILENAMELEN MAXFILENAMELEN (cwd r);
  subHomeDir' ← xdr_string MAXFILENAMELEN MAXFILENAMELEN (subHomeDir r);
  command' ← xdr_string MAXLINELEN MAXLINELEN (command r);
  jobName' ← xdr_string MAXLINELEN MAXLINELEN (jobName r);
  preExecCmd' ← xdr_string MAXLINELEN MAXLINELEN (preExecCmd r);
  fromHost' ← xdr_string MAXHOSTNAMELEN MAXHOSTNAMELEN (fromHost r);
  resReq' ← xdr_string MAXLINELEN MAXLINELEN (resReq r);
  queue' ← xdr_string MAX_LSB_NAME_LEN MAXFILENAMELEN (queue r);
  windows' ← xdr_string MAXLINELEN MAXLINELEN (windows r);
  userName' ← xdr_string MAX_LSB_NAME_LEN MAX_LSB_NAME_LEN (userName r);
  numToHosts' ← xdr_int (numToHosts r);
  toHosts0 ← my_calloc numToHosts' [] (toHosts r);
  toHosts' ← xdr_vector xdr_var_string numToHosts' toHosts0;
  t ← attempt (xdr_thresholds (thresholds r));
  let thresholds' := default (thresholds r) t in
  nxf' ← xdr_int (nxf r);
  xf0 ← my_calloc nxf' (XFile.mk [] [] 0) (xf r);
  xf' ← xdr_vector (xdr_arrayElement XFile.xdr_xFile) nxf' xf0;
  mailUser' ← xdr_string MAXLINELEN MAXLINELEN (mailUser r);
  clusterName' ← xdr_string MAX_LSB_NAME_LEN MAX_LSB_NAME_LEN (clusterName r);
  projectName' ← xdr_string MAX_LSB_NAME_LEN MAX_LSB_NAME_LEN (projectName r);
  preCmd' ← xdr_string MAXLINELEN MAXLINELEN (preCmd r);
  postCmd' ← xdr_string MAXLINELEN MAXLINELEN (postCmd r);
  execCwd' ← xdr_string MAXFILENAMELEN MAXFILENAMELEN (execCwd r);
  execHome' ← xdr_string MAXFILENAMELEN MAXFILENAMELEN (execHome r);
  requeueEValues' ← xdr_string MAXLINELEN MAXLINELEN (requeueEValues r);
  execUid' ← xdr_int (execUid r);
  maxNumProcessors' ← xdr_int (maxNumProcessors r);
  numEnv' ← xdr_int (numEnv r);
  env0 ← my_calloc numEnv' [] (env r);
  env' ← xdr_vector xdr_var_string numEnv' env0;
  eexec' ← xdr_lenData (eexec r);
  niosPort' ← xdr_int (niosPort r);
  resumeCond' ← xdr_string MAXLINELEN MAXLINELEN (resumeCond r);
  stopCond' ← xdr_string MAXLINELEN MAXLINELEN (stopCond r);
  suspendActCmd' ← xdr_string MAXLINELEN MAXLINELEN (suspendActCmd r);
  resumeActCmd' ← xdr_string MAXLINELEN MAXLINELEN (resumeActCmd r);
  terminateActCmd' ← xdr_string MAXLINELEN MAXLINELEN (terminateActCmd r);
  sigMap' ← xdr_array xdr_int LSB_SIG_NUM 0 (sigMap r);
  actValue' ← xdr_int (actValue r);
  loginShell' ← xdr_var_string (loginShell r);
  schedHostType' ← xdr_var_string (schedHostType r);
  execHosts' ← xdr_var_string (execHosts r);
  options2' ← xdr_int (options2 r);
  jobSpoolDir' ← xdr_string MAXPATHLEN MAXPATHLEN (jobSpoolDir r);
  jobArrElemId ← xdr_int jobArrElemId0;
  jobId' ← on_decode (mret (jobId32To64 jobArrId jobArrElemId)) (jobId r);
  inFileSpool' ← xdr_string MAXFILENAMELEN MAXFILENAMELEN (inFileSpool r);
  commandSpool' ← xdr_string MAXFILENAMELEN MAXFILENAMELEN (commandSpool r);
  userPriority' ← xdr_int (userPriority r);
  execUsername' ← xdr_string MAX_LSB_NAME_LEN MAX_LSB_NAME_LEN (execUsername r);
  prepostUsername' ← xdr_string MAX_LSB_NAME_LEN MAX_LSB_NAME_LEN (prepostUsername r);
  mret (mk jobId' jobName' jStatus' reasons' subreasons' userId' userName' options' jobPid' jobPGid' queue'
            priority' nice' fromHost' resReq' startTime' runTime' numToHosts' toHosts' thresholds' jAttrib'
            sigValue' lsfLimits' termTime' windows' subHomeDir' command' jobFile' inFile' outFile' errFile'
            umask' cwd' restartPid' nxf' xf' submitTime' chkpntDir' chkSig' actPid' chkPeriod' migThresh'
            lastSSuspTime' preExecCmd' lastCpuTime' mailUser' clusterName' numEnv' env' eexec' projectName'
            preCmd' postCmd' prepostUsername' execCwd' execHome' execUid' requeueEValues' niosPort'
            resumeCond' stopCond' suspendActCmd' resumeActCmd' terminateActCmd' sigMap' actValue' loginShell'
            maxNumProcessors' schedHostType' execHosts' options2' jobSpoolDir' inFileSpool' commandSpool'
            userPriority' execUsername').

Definition wf_jobSpecs (r : jobSpecs) : Prop :=
  Forall (chars MAXLINELEN) [jobName r; resReq r; windows r; command r; preExecCmd r; mailUser r; preCmd r;
  postCmd r; requeueEValues r; resumeCond r; stopCond r; suspendActCmd r; resumeActCmd r; terminateActCmd r]
  /\ Forall int32 [jStatus r; reasons r; subreasons r; userId r; options r; jobPid r; jobPGid r; priority r;
  startTime r; runTime r; jAttrib r; sigValue r; termTime r; umask r; restartPid r; submitTime r; chkSig r;
  actPid r; chkPeriod r; migThresh r; lastSSuspTime r; execUid r; niosPort r; actValue r; maxNumProcessors
  r; options2 r; userPriority r] /\ Forall (chars MAX_LSB_NAME_LEN) [userName r; queue r; clusterName r;
  projectName r; prepostUsername r; execUsername r] /\ Forall int16 [nice r] /\ Forall (chars
  MAXHOSTNAMELEN) [fromHost r] /\ Forall (chars MAXFILENAMELEN) [subHomeDir r; jobFile r; inFile r; outFile
  r; errFile r; cwd r; chkpntDir r; execCwd r; execHome r; inFileSpool r; commandSpool r] /\ Forall uint32
  [lastCpuTime r] /\ Forall vstr [loginShell r; schedHostType r; execHosts r] /\ Forall (chars MAXPATHLEN)
  [jobSpoolDir r] /\ jobid_ok (jobId r) /\ counts (numToHosts r) (toHosts r) /\ Forall vstr (toHosts r) /\
  Thresholds.wf_thresholds (thresholds r) /\ LSF_RLIM_NLIMITS = Z.of_nat (length (lsfLimits r)) /\ Forall
  wf_lsfLimit (lsfLimits r) /\ counts (nxf r) (xf r) /\ Forall XFile.wf_xFile (xf r) /\ counts (numEnv r)
  (env r) /\ Forall vstr (env r) /\ wf_lenData (eexec r) /\ LSB_SIG_NUM = Z.of_nat (length (sigMap r)) /\
  Forall int32 (sigMap r).


(** The same job in a queue of another name. *)
Definition with_queue (r : jobSpecs) (q : cstr) : jobSpecs :=
  mk (jobId r) (jobName r) (jStatus r) (reasons r) (subreasons r) (userId r) (userName r) (options r)
     (jobPid r) (jobPGid r) q (priority r) (nice r) (fromHost r) (resReq r) (startTime r) (runTime r)
     (numToHosts r) (toHosts r) (thresholds r) (jAttrib r) (sigValue r) (lsfLimits r) (termTime r)
     (windows r) (subHomeDir r) (command r) (jobFile r) (inFile r) (outFile r) (errFile r) (umask r) (cwd r)
     (restartPid r) (nxf r) (xf r) (submitTime r) (chkpntDir r) (chkSig r) (actPid r) (chkPeriod r)
     (migThresh r) (lastSSuspTime r) (preExecCmd r) (lastCpuTime r) (mailUser r) (clusterName r) (numEnv r)
     (env r) (eexec r) (projectName r) (preCmd r) (postCmd r) (prepostUsername r) (execCwd r) (execHome r)
     (execUid r) (requeueEValues r) (niosPort r) (resumeCond r) (stopCond r) (suspendActCmd r)
     (resumeActCmd r) (terminateActCmd r) (sigMap r) (actValue r) (loginShell r) (maxNumProcessors r)
     (schedHostType r) (execHosts r) (options2 r) (jobSpoolDir r) (inFileSpool r) (commandSpool r)
     (userPriority r) (execUsername r).

Lemma transfers_jobSpecs r : wf_jobSpecs r -> transfers xdr_jobSpecs r.
Proof.
  destruct r. intros H. unfold wf_jobSpecs in H. cbn in H. fields.
  match goal with H : Thresholds.wf_thresholds _ |- _ => part (Thresholds.transfers_thresholds _ H) end.
  match goal with H : wf_lenData _ |- _ => part (transfers_lenData _ H) end.
  eexists. intros r0. unfold xdr_jobSpecs. repeat daemon_step.
  eapply codec_attempt; [eauto|apply Thresholds.tight_thresholds..|apply starved_bind, starved_word|apply starved_bind, starved_word|].
  cbv beta iota zeta. cbn [default from_option]. repeat daemon_step.
Qed.
End JobSpecs.

#[export] Instance wire_jobSpecs : Wire JobSpecs.xdr_jobSpecs := { wf_wire := JobSpecs.wf_jobSpecs; wire_transfers := JobSpecs.transfers_jobSpecs }.

Module JobSig.
Record jobSig := mk {
  jobId : Z; sigValue : Z; chkPeriod : Z; actFlags : Z; actCmd : cstr; reasons : Z; subReasons : Z;
  newJobId : Z }.

Definition xdr_jobSig (r : jobSig) : xdr jobSig :=
  '(jobArrId0, jobArrElemId0) ← on_encode (mret (jobId64To32 (jobId r))) (0, 0);
  jobArrId ← xdr_int jobArrId0;
  sigValue' ← xdr_int (sigValue r);
  chkPeriod' ← xdr_time_t (chkPeriod r);
  actFlags' ← xdr_int (actFlags r);
  reasons' ← xdr_int (reasons r);
  subReasons' ← xdr_int (subReasons r);
  actCmd' ← xdr_var_string (actCmd r);
  jobArrElemId ← xdr_int jobArrElemId0;
  jobId' ← on_decode (mret (jobId32To64 jobArrId jobArrElemId)) (jobId r);
  '(newJobArrId0, newJobArrElemId0) ← on_encode (mret (jobId64To32 (newJobId r))) (0, 0);
  newJobArrId ← xdr_int newJobArrId0;
  newJobArrElemId ← xdr_int newJobArrElemId0;
  newJobId' ← on_decode (mret (jobId32To64 newJobArrId newJobArrElemId)) (newJobId r);
  mret (mk jobId' sigValue' chkPeriod' actFlags' actCmd' reasons' subReasons' newJobId').

Definition wf_jobSig (r : jobSig) : Prop :=
  Forall int32 [sigValue r; chkPeriod r; actFlags r; reasons r; subReasons r] /\ Forall vstr [actCmd r] /\
  jobid_ok (jobId r) /\ jobid_ok (newJobId r).

Lemma transfers_jobSig r : wf_jobSig r -> transfers xdr_jobSig r.
Proof.
  destruct r. intros H. unfold wf_jobSig in H. cbn in H. fields.
  eexists. intros r0. unfold xdr_jobSig. repeat xdr_step.
Qed.
End JobSig.
#[export] Instance wire_jobSig : Wire JobSig.xdr_jobSig := { wf_wire := JobSig.wf_jobSig; wire_transfers := JobSig.transfers_jobSig }.

Module JobReply.
Record jobReply := mk {
  jobId : Z; jobPid : Z; jobPGid : Z; jStatus : Z; reasons : Z; actPid : Z; actValue : Z; actStatus : Z }.

Definition xdr_jobReply (r : jobReply) : xdr jobReply :=
  '(jobArrId0, jobArrElemId0) ← on_encode (mret (jobId64To32 (jobId r))) (0, 0);
  jobArrId ← xdr_int jobArrId0;
  jobPid' ← xdr_int (jobPid r);
  jobPGid' ← xdr_int (jobPGid r);
  actPid' ← xdr_int (actPid r);
  jStatus' ← xdr_int (jStatus r);
  reasons' ← xdr_int (reasons r);
  actValue' ← xdr_int (actValue r);
  actStatus' ← xdr_int (actStatus r);
  jobArrElemId ← xdr_int jobArrElemId0;
  jobId' ← on_decode (mret (jobId32To64 jobArrId jobArrElemId)) (jobId r);
  mret (mk jobId' jobPid' jobPGid' jStatus' reasons' actPid' actValue' actStatus').

Definition wf_jobReply (r : jobReply) : Prop :=
  Forall int32 [jobPid r; jobPGid r; jStatus r; reasons r; actPid r; actValue r; actStatus r] /\ jobid_ok
  (jobId r).

Lemma transfers_jobReply r : wf_jobReply r -> transfers xdr_jobReply r.
Proof.
  destruct r. intros H. unfold wf_jobReply in H. cbn in H. fields.
  eexists. intros r0. unfold xdr_jobReply. repeat xdr_step.
Qed.
End JobReply.
#[export] Instance wire_jobReply : Wire JobReply.xdr_jobReply := { wf_wire := JobReply.wf_jobReply; wire_transfers := JobReply.transfers_jobReply }.

Module StatusReq.
Record statusReq := mk {
  jobId : Z; jobPid : Z; jobPGid : Z; newStatus : Z; reason : Z; subreasons : Z; seq : Z; sbdReply : Z;
  lsfRusage : lsfRusage; actPid : Z; execUid : Z; numExecHosts : Z; execHosts : list cstr; exitStatus : Z;
  execHome : cstr; execCwd : cstr; execUsername : cstr; queuePreCmd : cstr; queuePostCmd : cstr; msgId : Z;
  runRusage : jRusage; sigValue : Z; actStatus : Z }.

(** What the decoder finds in an array of its own. *)
Definition target : statusReq :=
  mk 0 0 0 0 0 0 0 0 (mkLsfRusage 0 0 0 0 0 0 0 0 0 0 0 0 0 0 0 0 0 0 0) 0 0 0 [] 0 [] [] [] [] [] 0
     (mkJRusage 0 0 0 0 0 [] 0 []) 0 0.

Definition xdr_statusReq (r : statusReq) : xdr statusReq :=
  '(jobArrId0, jobArrElemId0) ← on_encode (mret (jobId64To32 (jobId r))) (0, 0);
  jobArrId ← xdr_int jobArrId0;
  jobPid' ← xdr_int (jobPid r);
  jobPGid' ← xdr_int (jobPGid r);
  actPid' ← xdr_int (actPid r);
  seq' ← xdr_int (seq r);
  newStatus' ← xdr_int (newStatus r);
  reason' ← xdr_int (reason r);
  subreasons' ← xdr_int (subreasons r);
  sbdReply' ← xdr_int (sbdReply r);
  lsfRusage' ← xdr_arrayElement xdr_lsfRusage (lsfRusage r);
  execUid' ← xdr_int (execUid r);
  numExecHosts' ← xdr_int (numExecHosts r);
  execHosts0 ← calloc_pos numExecHosts' [] (execHosts r);
  execHosts' ← xdr_array_string execHosts0 MAXHOSTNAMELEN numExecHosts';
  exitStatus' ← xdr_int (exitStatus r);
  execHome' ← xdr_var_string (execHome r);
  execUsername' ← xdr_var_string (execUsername r);
  execCwd' ← xdr_var_string (execCwd r);
  queuePreCmd' ← xdr_var_string (queuePreCmd r);
  queuePostCmd' ← xdr_var_string (queuePostCmd r);
  msgId' ← xdr_int (msgId r);
  runRusage' ← xdr_jRusage (runRusage r);
  sigValue' ← xdr_int (sigValue r);
  actStatus' ← xdr_int (actStatus r);
  jobArrElemId ← xdr_int jobArrElemId0;
  jobId' ← on_decode (mret (jobId32To64 jobArrId jobArrElemId)) (jobId r);
  mret (mk jobId' jobPid' jobPGid' newStatus' reason' subreasons' seq' sbdReply' lsfRusage' actPid' execUid'
            numExecHosts' execHosts' exitStatus' execHome' execCwd' execUsername' queuePreCmd' queuePostCmd'
            msgId' runRusage' sigValue' actStatus').

Definition wf_statusReq (r : statusReq) : Prop :=
  Forall int32 [jobPid r; jobPGid r; newStatus r; reason r; subreasons r; seq r; sbdReply r; actPid r;
  execUid r; exitStatus r; msgId r; sigValue r; actStatus r] /\ Forall vstr [execHome r; execCwd r;
  execUsername r; queuePreCmd r; queuePostCmd r] /\ jobid_ok (jobId r) /\ wf_lsfRusage (lsfRusage r) /\
  counts (numExecHosts r) (execHosts r) /\ Forall (str MAXHOSTNAMELEN) (execHosts r) /\ wf_jRusage
  (runRusage r).

Lemma transfers_statusReq r : wf_statusReq r -> transfers xdr_statusReq r.
Proof.
  destruct r. intros H. unfold wf_statusReq in H. cbn in H. fields.
  match goal with H : wf_lsfRusage _ |- _ => part (transfers_lsfRusage _ H) end.
  match goal with H : wf_jRusage _ |- _ => part (transfers_jRusage _ H) end.
  eexists. intros r0. unfold xdr_statusReq. repeat xdr_step.
Qed.
End StatusReq.
#[export] Instance wire_statusReq : Wire StatusReq.xdr_statusReq := { wf_wire := StatusReq.wf_statusReq; wire_transfers := StatusReq.transfers_statusReq }.

Module ChunkStatusReq.
(** A request is [None] when its decoding was refused: it is partly filled. *)
Record chunkStatusReq := mk { numStatusReqs : Z; statusReqs : list (option StatusReq.statusReq) }.

(** The result of [xdr_statusReq] is ignored. *)
Definition xdr_one (s : option StatusReq.statusReq) : xdr (option StatusReq.statusReq) :=
  match s with Some s => attempt (StatusReq.xdr_statusReq s) | None => fault end.

Definition xdr_chunkStatusReq (r : chunkStatusReq) : xdr chunkStatusReq :=
  numStatusReqs' ← xdr_int (numStatusReqs r);
  statusReqs0 ← my_calloc numStatusReqs' (Some StatusReq.target) (statusReqs r);
  statusReqs' ← xdr_vector xdr_one numStatusReqs' statusReqs0;
  mret (mk numStatusReqs' statusReqs').
End ChunkStatusReq.

Module SbdPackage.
Record sbdPackage := mk {
  managerId : Z; lsbManager : cstr; mbdPid : Z; sbdSleepTime : Z; retryIntvl : Z; preemPeriod : Z; pgSuspIdleT : Z;
  maxJobs : Z; numJobs : Z; jobs : list JobSpecs.jobSpecs; uJobLimit : Z; rusageUpdateRate : Z; rusageUpdatePercent : Z;
  jobTerminateInterval : Z; nAdmins : Z; admins : list cstr }.

Definition xdr_sbdPackage1 (r : sbdPackage) : xdr sbdPackage :=
  uJobLimit' ← xdr_int (uJobLimit r);
  rusageUpdateRate' ← xdr_int (rusageUpdateRate r);
  rusageUpdatePercent' ← xdr_int (rusageUpdatePercent r);
  jobTerminateInterval' ← xdr_int (jobTerminateInterval r);
  nAdmins' ← xdr_int (nAdmins r);
  admins0 ← calloc_pos nAdmins' [] (admins r);
  admins' ← xdr_vector xdr_var_string nAdmins' admins0;
  mret (mk (managerId r) (lsbManager r) (mbdPid r) (sbdSleepTime r) (retryIntvl r) (preemPeriod r) (pgSuspIdleT r)
           (maxJobs r) (numJobs r) (jobs r) uJobLimit' rusageUpdateRate' rusageUpdatePercent' jobTerminateInterval'
           nAdmins' admins').

(** Encoding writes the whole package; decoding reads the first fields, and the caller
    goes on with the jobs. *)
Definition xdr_sbdPackage (r : sbdPackage) : xdr sbdPackage :=
  mbdPid' ← xdr_int (mbdPid r);
  retryIntvl' ← xdr_int (retryIntvl r);
  preemPeriod' ← xdr_int (preemPeriod r);
  pgSuspIdleT' ← xdr_int (pgSuspIdleT r);
  maxJobs' ← xdr_int (maxJobs r);
  sbdSleepTime' ← xdr_int (sbdSleepTime r);
  managerId' ← xdr_int (managerId r);
  numJobs' ← xdr_int (numJobs r);
  lsbManager' ← xdr_string MAX_LSB_NAME_LEN MAX_LSB_NAME_LEN (lsbManager r);
  let r' := mk managerId' lsbManager' mbdPid' sbdSleepTime' retryIntvl' preemPeriod' pgSuspIdleT' maxJobs' numJobs'
               (jobs r) (uJobLimit r) (rusageUpdateRate r) (rusageUpdatePercent r) (jobTerminateInterval r)
               (nAdmins r) (admins r) in
  on_encode (_ ← xdr_vector (xdr_arrayElement JobSpecs.xdr_jobSpecs) numJobs' (jobs r); xdr_sbdPackage1 r') r'.

(** The loop of the receiver: each job is decoded into the same variable and added. *)
Fixpoint receive_jobs (n : nat) (jobSpecs : JobSpecs.jobSpecs) : xdr (list JobSpecs.jobSpecs) :=
  match n with
  | O => mret []
  | S n' => job ← xdr_arrayElement JobSpecs.xdr_jobSpecs jobSpecs; rest ← receive_jobs n' job; mret (job :: rest)
  end.

(** What [getJobsState] of sbd.comm.c does with the reply of the master: the package
    and the jobs that it adds.  A failure of [xdr_sbdPackage1] is only logged. *)
Definition getJobsState (sbdPackage : sbdPackage) (jobSpecs : JobSpecs.jobSpecs) : xdr (SbdPackage.sbdPackage * list JobSpecs.jobSpecs) :=
  package ← xdr_sbdPackage sbdPackage;
  added ← receive_jobs (Z.to_nat (numJobs package)) jobSpecs;
  package1 ← attempt (xdr_sbdPackage1 package);
  mret (default package package1, added).

Definition wf_sbdPackage (r : sbdPackage) : Prop :=
  Forall int32 [managerId r; mbdPid r; sbdSleepTime r; retryIntvl r; preemPeriod r; pgSuspIdleT r; maxJobs r; uJobLimit r;
    rusageUpdateRate r; rusageUpdatePercent r; jobTerminateInterval r] /\ chars MAX_LSB_NAME_LEN (lsbManager r) /\
  counts (numJobs r) (jobs r) /\ Forall JobSpecs.wf_jobSpecs (jobs r) /\ counts (nAdmins r) (admins r) /\ Forall vstr (admins r).

(** The package without its jobs, which the receiver does not store. *)
Definition without_jobs (r r0 : sbdPackage) : sbdPackage :=
  mk (managerId r) (lsbManager r) (mbdPid r) (sbdSleepTime r) (retryIntvl r) (preemPeriod r) (pgSuspIdleT r) (maxJobs r)
     (numJobs r) (jobs r0) (uJobLimit r) (rusageUpdateRate r) (rusageUpdatePercent r) (jobTerminateInterval r)
     (nAdmins r) (admins r).

Lemma decodes_jobs l ws j0 : Forall2 (carries (xdr_arrayElement JobSpecs.xdr_jobSpecs)) l ws ->
  decodes (receive_jobs (length l) j0) l (concat ws).
Proof.
  intros H. revert j0. induction H as [|j w l ws Hj _ IH]; intros j0; cbn; [apply decodes_ret|].
  eapply decodes_bind; [apply Hj|]. rewrite <- (app_nil_r (concat ws)). eapply decodes_bind; [apply IH|apply decodes_ret].
Qed.
End SbdPackage.
