(* ===== verification/XdrSize.v ===== *)
(** * The sizes of messages

    The callers compute how large a buffer a message needs, before it is encoded: the
    size of the authentication (xdr_lsfAuthSize of lsf/lib/lib.xdrmisc.c), of a submission
    (xdrSubReqSize of lsbatch/lib/lsb.sub.c) and of the reply about queues
    (xdrsize_QueueInfoReply of lsbatch/daemons/mbd.serv.c).  The sizes of structs are
    those of 64-bit systems. *)
From stdpp Require Import base list.
From Stdlib Require Import ZArith Ascii Lia.
From S2P Require Import Prelude JobId Xdr XdrLib XdrCarry XdrBatch XdrMsg XdrRequest XdrReply XdrInfo.
Local Open Scope Z_scope.

Definition sizeof_xFile : Z := 516.
Definition sizeof_submitReq : Z := 336.
Definition sizeof_queueInfoReply : Z := 24.
Definition sizeof_queueInfoEnt : Z := 480.
Definition strlen (s : cstr) : Z := Z.of_nat (length s).

Definition xdrSubReqSize (req : SubmitReq.submitReq) : Z :=
  let word s := ALIGNWORD_ (strlen s + 1) + 4 in
  1024 + ALIGNWORD_ sizeof_submitReq
  + (word (SubmitReq.queue req) + (ALIGNWORD_ (strlen (SubmitReq.resReq req)) + 4) + word (SubmitReq.fromHost req)
     + word (SubmitReq.dependCond req) + word (SubmitReq.jobName req) + word (SubmitReq.command req)
     + word (SubmitReq.jobFile req) + word (SubmitReq.inFile req) + word (SubmitReq.outFile req)
     + word (SubmitReq.errFile req) + word (SubmitReq.inFileSpool req) + word (SubmitReq.commandSpool req)
     + word (SubmitReq.preExecCmd req) + word (SubmitReq.hostSpec req) + word (SubmitReq.chkpntDir req)
     + word (SubmitReq.subHomeDir req) + word (SubmitReq.cwd req) + word (SubmitReq.mailUser req)
     + word (SubmitReq.projectName req))
  + list_sum_Z ((fun h => ALIGNWORD_ (strlen h + 1 + 4)) <$> take (Z.to_nat (SubmitReq.numAskedHosts req)) (SubmitReq.askedHosts req))
  + Z.max 0 (SubmitReq.nxf req) * ALIGNWORD_ (sizeof_xFile + 4 * 4).

(** [getXdrStrlen] of each string but the name of the queue. *)
Definition queue_strings (q : QueueInfoEnt.queueInfoEnt) : list cstr :=
  [QueueInfoEnt.description q; QueueInfoEnt.windows q; QueueInfoEnt.userList q; QueueInfoEnt.hostList q;
   QueueInfoEnt.defaultHostSpec q; QueueInfoEnt.hostSpec q; QueueInfoEnt.windowsD q; QueueInfoEnt.admins q;
   QueueInfoEnt.preCmd q; QueueInfoEnt.postCmd q; QueueInfoEnt.prepostUsername q; QueueInfoEnt.requeueEValues q;
   QueueInfoEnt.resReq q; QueueInfoEnt.resumeCond q; QueueInfoEnt.stopCond q; QueueInfoEnt.jobStarter q;
   QueueInfoEnt.suspendActCmd q; QueueInfoEnt.resumeActCmd q; QueueInfoEnt.terminateActCmd q; QueueInfoEnt.chkpntDir q].

Definition xdrsize_QueueInfoReply (r : QueueInfoReply.queueInfoReply) : Z :=
  list_sum_Z ((fun q => list_sum_Z ((fun s => getXdrStrlen (Some s)) <$> queue_strings q))
              <$> take (Z.to_nat (QueueInfoReply.numQueues r)) (QueueInfoReply.queues r))
  + ALIGNWORD_ (sizeof_queueInfoReply
      + QueueInfoReply.numQueues r * (sizeof_queueInfoEnt + MAX_LSB_NAME_LEN + QueueInfoReply.nIdx r * 2 * 4)
      + QueueInfoReply.numQueues r * NET_INTSIZE_).

(** ** Words *)

Lemma ALIGNWORD_val s : 0 <= s < 2 ^ 32 -> ALIGNWORD_ s = 4 * (s / 4) + 4.
Proof.
  intros H. unfold ALIGNWORD_. change 0xfffffffc with (Z.shiftl (Z.ones 30) 2).
  assert (E : Z.land s (Z.shiftl (Z.ones 30) 2) = Z.shiftl (Z.land (Z.shiftr s 2) (Z.ones 30)) 2).
  { apply Z.bits_inj'. intros i Hi. rewrite Z.land_spec. destruct (Z.ltb_spec i 2).
    - rewrite !Z.shiftl_spec_low, andb_false_r by lia. done.
    - rewrite !Z.shiftl_spec, Z.land_spec, Z.shiftr_spec by lia. by replace (i - 2 + 2) with i by lia. }
  rewrite E, Z.land_ones, Z.shiftr_div_pow2, Z.shiftl_mul_pow2 by lia. change (2 ^ 2) with 4.
  rewrite Z.mod_small; [lia|]. split; [apply Z.div_pos; lia|apply Z.div_lt_upper_bound; lia].
Qed.

(** A string with its length, in words. *)
Lemma wlen_words s : wlen s = 4 + 4 * ((strlen s + 3) / 4).
Proof.
  unfold strlen. pose proof (wlen_bounds s) as [B M]. apply Z.mod_divide in M as [k M]; [|lia].
  pose proof (Z.div_mod (Z.of_nat (length s) + 3) 4 ltac:(lia)) as D.
  pose proof (Z.mod_pos_bound (Z.of_nat (length s) + 3) 4 ltac:(lia)). lia.
Qed.

Ltac words :=
  rewrite ?wlen_words; unfold strlen in *;
  repeat match goal with |- context [?a / 4] =>
    lazymatch goal with H : a = 4 * (a / 4) + a mod 4 |- _ => fail | _ => idtac end;
    pose proof (Z.div_mod a 4 ltac:(lia)); pose proof (Z.mod_pos_bound a 4 ltac:(lia)) end; lia.

Lemma word_enough s : strlen s < 2 ^ 31 -> wlen s <= ALIGNWORD_ (strlen s + 1) + 4.
Proof. intros H. rewrite ALIGNWORD_val by (unfold strlen in *; lia). words. Qed.

Lemma word_enough' s : strlen s < 2 ^ 31 -> wlen s <= ALIGNWORD_ (strlen s) + 4.
Proof. intros H. rewrite ALIGNWORD_val by (unfold strlen in *; lia). words. Qed.

Lemma host_enough s : strlen s < 2 ^ 31 -> wlen s <= ALIGNWORD_ (strlen s + 1 + 4).
Proof. intros H. rewrite ALIGNWORD_val by (unfold strlen in *; lia). words. Qed.

(** [getXdrStrlen] may be one word short. *)
Lemma getXdrStrlen_enough s : strlen s < 2 ^ 31 -> wlen s <= getXdrStrlen (Some s) + 4.
Proof. intros H. unfold getXdrStrlen. fold (strlen s). rewrite ALIGNWORD_val by (unfold strlen in *; lia). words. Qed.

(** ** Authentication *)

Lemma length_wdata d : wf_lenData d -> Z.of_nat (length (wdata d)) <= 8 + ALIGNWORD_ (ld_len d).
Proof.
  intros [Hn Hi]. unfold wdata, int32 in *. wire_length. rewrite length_padded, ALIGNWORD_val by lia.
  pose proof (wlen_words (ld_data d)) as W. unfold wlen in W. rewrite <- Hn in *. revert W. words.
Qed.

Lemma length_wauth a : wf_lsfAuth a -> Z.of_nat (length (wauth a)) <= xdr_lsfAuthSize (Some a).
Proof.
  intros (_ & (_ & Hs & Hb) & Hk). unfold wauth, xdr_lsfAuthSize. wire_length.
  pose proof (word_enough' (lsfUserName a) ltac:(unfold strlen; lia)) as W. unfold strlen in W. change (ALIGNWORD_ 4) with 8.
  destruct (kind a =? CLIENT_DCE); [|destruct (kind a =? CLIENT_EAUTH)].
  - pose proof (length_wdata _ Hk). lia.
  - pose proof (length_wdata _ (proj1 Hk)). lia.
  - wire_length. lia.
Qed.

(** ** Submissions *)

Lemma str_word n s : str n s -> wlen s <= ALIGNWORD_ (strlen s + 1) + 4 /\ wlen s <= ALIGNWORD_ (strlen s) + 4 /\ wlen s <= n + 7.
Proof.
  intros (_ & Hl & Hb). split_and!; [apply word_enough|apply word_enough'|]; unfold strlen; [lia..|].
  pose proof (wlen_bounds s). lia.
Qed.

Lemma vstr_str s : vstr s -> str (2 ^ 31 - 1) s.
Proof. intros [Hn Hl]. unfold str. split_and!; done || lia. Qed.

(** Bounds for all strings of the context. *)
Ltac strings_enough :=
  repeat match goal with
  | H : vstr ?s |- _ => pose proof (str_word _ s (vstr_str s H)); clear H
  | H : chars ?n ?s |- _ => pose proof (str_word _ s H); clear H
  end.

Lemma length_hosts l : Forall vstr l ->
  Z.of_nat (length (concat (wstr <$> l))) <= list_sum_Z ((fun h => ALIGNWORD_ (strlen h + 1 + 4)) <$> l).
Proof.
  induction 1 as [|s l [Hn Hl] _ IH]; [done|]. cbn [fmap list_fmap concat]. wire_length.
  pose proof (host_enough s ltac:(unfold strlen; lia)) as B.
  change (list_sum_Z (?a :: ?b)) with (a + list_sum_Z b). apply Z.add_le_mono; [exact B|exact IH].
Qed.

Lemma length_xfiles l : Forall XFile.wf_xFile l ->
  Z.of_nat (length (concat ((fun xf => welem (XFile.wxfile xf)) <$> l))) <= Z.of_nat (length l) * 536.
Proof.
  induction 1 as [|xf l H _ IH]; [done|]. unfold XFile.wf_xFile in H. fields.
  assert (A : Z.of_nat (length (welem (XFile.wxfile xf))) <= 536).
  { wire_length. unfold XFile.wxfile. wire_length. strings_enough. unfold MAXFILENAMELEN in *. lia. }
  cbn [fmap list_fmap concat]. rewrite length_app, Nat2Z.inj_add.
  transitivity (536 + Z.of_nat (length l) * 536); [by apply Z.add_le_mono|]. cbn [length]. lia.
Qed.

(** The bytes of a request: what [xdrSubReqSize] counts without its reserve, the
    numbers, and two strings that it does not count. *)
Lemma carries_submitReq r : SubmitReq.wf_submitReq r ->
  exists w, carries SubmitReq.xdr_submitReq r w /\
    Z.of_nat (length w) <= xdrSubReqSize r - (1024 + 340) + 4 * 27
      + wlen (SubmitReq.loginShell r) + wlen (SubmitReq.schedHostType r).
Proof.
  destruct r. intros H. unfold SubmitReq.wf_submitReq in H. cbn in H. fields. eexists. split.
  - intros r0. unfold SubmitReq.xdr_submitReq. repeat xdr_step.
  - SubmitReq.proj. wire_length. unfold xdrSubReqSize. SubmitReq.proj. cbv zeta.
    match goal with H : Forall vstr _ |- _ => pose proof (length_hosts _ H) end.
    match goal with H : Forall XFile.wf_xFile _ |- _ => pose proof (length_xfiles _ H) end.
    rewrite (firstn_all2 askedHosts) by lia. unfold LSF_RLIM_NLIMITS in *.
    change (ALIGNWORD_ sizeof_submitReq) with 340. change (ALIGNWORD_ (sizeof_xFile + 4 * 4)) with 536.
    strings_enough. lia.
Qed.

(** What [encodeMsg_done] needs of a buffer. *)
Lemma encodeMsg_room {A} (p : A -> xdr A) v w hdr auth buf : carries p v w -> wf_LSFHeader hdr ->
  (forall a, auth = Some a -> wf_lsfAuth a) -> fits buf ->
  16 + xdr_lsfAuthSize auth + Z.of_nat (length w) <= Z.of_nat (length buf) ->
  exists hdr' x, xdr_encodeMsg (Some v) hdr p 0 auth (xdrmem_create buf XDR_ENCODE) = Done hdr' x.
Proof.
  intros Hp Hh Ha F Hl.
  assert (L : Z.of_nat (length (wopt wauth auth)) <= xdr_lsfAuthSize auth).
  { destruct auth as [a|]; [|done]. by apply length_wauth, Ha. }
  assert (Hs : length buf = (16 + length (wopt wauth auth ++ w) + (length buf - (16 + length (wopt wauth auth ++ w))))%nat).
  { rewrite length_app. lia. }
  destruct (split_length buf _ _ Hs) as (b & c & -> & L1 & L2).
  eexists _, _. apply (encodeMsg_done p (Some v) auth (fun _ => w)); [done|by intros ? [= <-]|done..].
Qed.

(** C26: The buffer that [send_batch] allocates for a submission, of [xdrSubReqSize] and
    [xdr_lsfAuthSize] bytes, has room for the message of every well-formed request
    and authentication, provided that the names of the login shell and of the host type,
    which [xdrSubReqSize] does not count, have at most 1200 characters together. *)
Theorem submission_fits r hdr auth buf : SubmitReq.wf_submitReq r -> wf_LSFHeader hdr ->
  (forall a, auth = Some a -> wf_lsfAuth a) ->
  strlen (SubmitReq.loginShell r) + strlen (SubmitReq.schedHostType r) <= 1200 ->
  fits buf -> Z.of_nat (length buf) = xdrSubReqSize r + xdr_lsfAuthSize auth ->
  exists hdr' x, xdr_encodeMsg (Some r) hdr SubmitReq.xdr_submitReq 0 auth (xdrmem_create buf XDR_ENCODE) = Done hdr' x.
Proof.
  intros Hr Hh Ha Hs F Hb. destruct (carries_submitReq r Hr) as (w & Hw & Lw).
  apply (encodeMsg_room _ r w); [done..|]. unfold strlen in Hs.
  pose proof (wlen_bounds (SubmitReq.loginShell r)). pose proof (wlen_bounds (SubmitReq.schedHostType r)). lia.
Qed.

(** ** Queues *)

Lemma sum_enough l : Forall vstr l ->
  list_sum_Z (wlen <$> l) <= list_sum_Z ((fun s => getXdrStrlen (Some s)) <$> l) + 4 * Z.of_nat (length l).
Proof.
  induction 1 as [|s l [Hn Hl] _ IH]; [done|]. pose proof (getXdrStrlen_enough s ltac:(unfold strlen; lia)) as B.
  change (wlen s + list_sum_Z (wlen <$> l) <= getXdrStrlen (Some s) + list_sum_Z ((fun s => getXdrStrlen (Some s)) <$> l)
    + 4 * Z.of_nat (S (length l))). lia.
Qed.

Lemma chars_vstr n s : chars n s -> n < 2 ^ 31 -> vstr s.
Proof. intros (Hn & Hl & _) H. split; [done|lia]. Qed.

(** A queue takes at most what is counted for it. *)
Lemma queue_enough q : QueueInfoEnt.wf_queueInfoEnt q -> 0 <= QueueInfoEnt.nIdx q ->
  4 + QueueInfoEnt.size q <= list_sum_Z ((fun s => getXdrStrlen (Some s)) <$> queue_strings q) + 544 + QueueInfoEnt.nIdx q * 8.
Proof.
  intros H Hk. unfold QueueInfoEnt.wf_queueInfoEnt in H. fields.
  assert (V : Forall vstr (queue_strings q)).
  { repeat (apply Forall_cons_2; [first [assumption|by apply (chars_vstr MAX_LSB_NAME_LEN)]|]). apply Forall_nil_2. }
  pose proof (sum_enough _ V) as B. change (Z.of_nat (length (queue_strings q))) with 20 in B.
  match goal with H : chars _ (QueueInfoEnt.queue q) |- _ => pose proof (str_word _ _ H) as Q end.
  unfold MAX_LSB_NAME_LEN in Q. unfold QueueInfoEnt.size.
  cut (list_sum_Z (wlen <$> QueueInfoEnt.strings q) = wlen (QueueInfoEnt.queue q) + list_sum_Z (wlen <$> queue_strings q)); [lia|].
  cbn. lia.
Qed.

Lemma queues_enough k l : 0 <= k ->
  Forall (fun q => QueueInfoEnt.wf_queueInfoEnt q /\ QueueInfoEnt.nIdx q = k) l ->
  list_sum_Z ((fun q => 4 + QueueInfoEnt.size q) <$> l) <=
  list_sum_Z ((fun q => list_sum_Z ((fun s => getXdrStrlen (Some s)) <$> queue_strings q)) <$> l)
    + Z.of_nat (length l) * (544 + k * 8).
Proof.
  intros Hk. induction 1 as [|q l [Hq <-] _ IH]; [done|]. pose proof (queue_enough q Hq Hk) as B.
  change (4 + QueueInfoEnt.size q + list_sum_Z ((fun q => 4 + QueueInfoEnt.size q) <$> l) <=
    list_sum_Z ((fun s => getXdrStrlen (Some s)) <$> queue_strings q)
      + list_sum_Z ((fun q => list_sum_Z ((fun s => getXdrStrlen (Some s)) <$> queue_strings q)) <$> l)
      + Z.of_nat (S (length l)) * (544 + QueueInfoEnt.nIdx q * 8)). lia.
Qed.

(** The reply to a request about queues fits into the buffer that do_queueInfoReq
    allocates for it, of the size of a header and [xdrsize_QueueInfoReply] bytes: the
    words that [getXdrStrlen] does not count are covered by what the sizes of the structs
    leave over.  (The sizes of the structs are below 2^31 in total.) *)
Theorem queue_reply_fits r hdr buf : QueueInfoReply.wf_queueInfoReply r -> wf_LSFHeader hdr ->
  QueueInfoReply.numQueues r * (544 + QueueInfoReply.nIdx r * 8) < 2 ^ 31 ->
  fits buf -> Z.of_nat (length buf) = LSF_HEADER_LEN + xdrsize_QueueInfoReply r ->
  exists hdr' x, xdr_encodeMsg (Some r) hdr QueueInfoReply.xdr_queueInfoReply 0 None (xdrmem_create buf XDR_ENCODE) = Done hdr' x.
Proof.
  intros Hr Hh Hn F Hb. destruct (QueueInfoReply.transfers_queueInfoReply_size r Hr) as (w & Hw & Lw).
  apply (encodeMsg_room _ r w); [done..|]. cbn [xdr_lsfAuthSize]. destruct r as [b n k l]. unfold QueueInfoReply.wf_queueInfoReply in Hr.
  cbn in Hr. fields. pose proof (queues_enough k l) as Q. unfold QueueInfoReply.size, xdrsize_QueueInfoReply in *.
  cbn [QueueInfoReply.queues QueueInfoReply.numQueues QueueInfoReply.nIdx] in *.
  rewrite (firstn_all2 l) in Hb by lia. unfold sizeof_queueInfoReply, sizeof_queueInfoEnt, MAX_LSB_NAME_LEN, NET_INTSIZE_, LSF_HEADER_LEN in *.
  assert (P : 0 <= n * k) by nia.
  rewrite ALIGNWORD_val in Hb by nia. specialize (Q ltac:(lia) ltac:(done)).
  pose proof (Z.div_mod (24 + n * (480 + 60 + k * 2 * 4) + n * 4) 4 ltac:(lia)).
  pose proof (Z.mod_pos_bound (24 + n * (480 + 60 + k * 2 * 4) + n * 4) 4 ltac:(lia)). nia.
Qed.
