(* ===== verification/XdrSafe.v ===== *)
(** * Decoders and bytes from anywhere

    A decoder is safe when no sequence of bytes makes it access memory outside its
    objects.  The decoders that allocate their strings by the length in the message are
    safe. *)
From stdpp Require Import base list.
From Stdlib Require Import ZArith Ascii Lia.
From S2P Require Import Prelude JobId Xdr XdrLib XdrCarry XdrBatch XdrMsg XdrRequest XdrReply XdrInfo XdrDaemons.
Local Open Scope Z_scope.

(** A stream to decode from, with its position inside the buffer. *)
Definition reading (x : XDR) : Prop := x_op x = XDR_DECODE /\ (x_pos x <= length (x_buf x))%nat.

Definition safe {A} (m : xdr A) : Prop :=
  forall x, reading x -> match m x with Done _ x' => reading x' | Refused x' => reading x' | Fault => False end.

Lemma safe_ret {A} (v : A) : safe (mret v).
Proof. intros x Hx. exact Hx. Qed.

Lemma safe_bind {A B} (m : xdr A) (f : A -> xdr B) : safe m -> (forall v, safe (f v)) -> safe (m ≫= f).
Proof.
  intros Hm Hf x Hx. specialize (Hm x Hx). unfold mbind, xdr_bind.
  destruct (m x) as [v x'|x'|]; [by apply Hf|done..].
Qed.

Lemma safe_by_op {A} (m n : xdr A) : safe n -> safe (by_op m n).
Proof. intros H x Hx. unfold by_op. rewrite (proj1 Hx). by apply H. Qed.

Lemma safe_get n : 0 <= n -> safe (getbytes n).
Proof.
  intros Hn x [H1 H2]. unfold getbytes, room. destruct (Z.ltb_spec (Z.of_nat (length (x_buf x)) - Z.of_nat (x_pos x)) n).
  - done.
  - split; cbn; [done|lia].
Qed.

Lemma safe_word conv z : safe (xdr_word conv z).
Proof. apply safe_by_op, safe_bind; [by apply safe_get|]. intros. apply safe_ret. Qed.

Lemma safe_setpos p : safe (XDR_SETPOS p).
Proof.
  intros x [H1 H2]. unfold XDR_SETPOS. destruct (Z.leb_spec 0 p), (Z.leb_spec p (Z.of_nat (length (x_buf x)))); cbn; [|done..].
  split; cbn; [done|lia].
Qed.

Lemma safe_getpos : safe XDR_GETPOS.
Proof. intros x Hx. done. Qed.

Lemma safe_refuse {A} : safe (refuse (A := A)).
Proof. intros x Hx. done. Qed.

Lemma safe_on_decode {A} (m : xdr A) v : safe m -> safe (on_decode m v).
Proof. apply safe_by_op. Qed.

Lemma safe_on_encode {A} (m : xdr A) v : safe (on_encode m v).
Proof. apply safe_by_op, safe_ret. Qed.

Lemma safe_opaque n s : 0 <= n -> safe (xdr_opaque n s).
Proof.
  intros Hn. apply safe_by_op. apply safe_bind; [by apply safe_get|]. intros.
  apply safe_bind; [apply safe_get, pad4_bound|]. intros. apply safe_ret.
Qed.

(** Words of four bytes are not negative. *)
Lemma of_be_pos bs : 0 <= of_be bs.
Proof.
  unfold of_be. enough (H : forall z, 0 <= z -> 0 <= fold_left (fun z c => z * 256 + of_byte c) bs z) by (apply H; lia).
  induction bs as [|c bs IH]; intros z Hz; [done|]. cbn. apply IH. unfold of_byte. lia.
Qed.

(** Strings whose bound is below the size of the array. *)
Lemma safe_string cap maxsize s : maxsize < cap -> safe (xdr_string cap maxsize s).
Proof.
  intros Hc. apply safe_by_op. intros x Hx. pose proof (safe_word uwrap32 0 x Hx) as W. unfold mbind, xdr_bind, xdr_u_int.
  destruct (xdr_word uwrap32 0 x) as [size x'|x'|] eqn:E; [|done..].
  assert (0 <= size).
  { revert E. unfold xdr_word, by_op. rewrite (proj1 Hx). unfold mbind, xdr_bind. destruct (getbytes 4 x); try done.
    intros [= <- _]. unfold uwrap32. apply Z.mod_pos_bound. lia. }
  destruct (Z.ltb_spec maxsize size); [done|]. destruct (Z.eqb_spec size (2 ^ 32 - 1)); [done|]. cbn [orb].
  destruct (Z.ltb_spec cap (size + 1)); [lia|].
  apply (safe_bind (xdr_opaque size [])); [by apply safe_opaque|intros; apply safe_ret|done].
Qed.

(** A string is read twice: its length to allocate the array, then the string. *)
Lemma safe_var_string s : safe (xdr_var_string s).
Proof.
  apply safe_by_op. intros x Hx. erewrite bind_done by reflexivity.
  pose proof (safe_word wrap32 0 x Hx) as W. pose proof (safe_word uwrap32 0 x Hx) as W'.
  unfold mbind, xdr_bind. unfold xdr_int. destruct (xdr_word wrap32 0 x) as [len x'|x'|] eqn:E; [|done..].
  destruct (Z.ltb_spec (wrap32 (len + 1)) 0) as [|Hl]; [done|].
  assert (R : XDR_SETPOS (Z.of_nat (x_pos x)) x' = Done tt x).
  { revert E. unfold xdr_word, by_op. rewrite (proj1 Hx). unfold mbind, xdr_bind. unfold getbytes.
    destruct (room x <? 4); [done|]. intros [= _ <-]. destruct x as [op buf pos]. destruct Hx as [Ho Hp]. cbn in *.
    by apply setpos_in. }
  rewrite R. unfold xdr_string, by_op. rewrite (proj1 Hx). unfold mbind, xdr_bind. unfold xdr_u_int.
  destruct (xdr_word uwrap32 0 x) as [size y|y|] eqn:E'; [|done..].
  assert (S : len = wrap32 size /\ 0 <= size < 2 ^ 32).
  { revert E E'. unfold xdr_word, by_op. rewrite (proj1 Hx). unfold mbind, xdr_bind. destruct (getbytes 4 x) as [bs z|z|]; try done.
    intros [= <- _] [= <- _]. split; [|apply Z.mod_pos_bound; lia].
    unfold wrap32, uwrap32. by rewrite Zplus_mod_idemp_l. }
  destruct S as [-> S].
  destruct (Z.ltb_spec (wrap32 (wrap32 size + 1)) size) as [|Hs]; [done|].
  destruct (Z.eqb_spec size (2 ^ 32 - 1)); [done|]. cbn [orb].
  destruct (Z.ltb_spec (wrap32 (wrap32 size + 1)) (size + 1)) as [Hb|].
  - exfalso. assert (int32 size) by (pose proof (wrap32_int32 (wrap32 size + 1)); unfold int32 in *; lia).
    rewrite (wrap32_id size) in * by done. destruct (decide (size + 1 = 2 ^ 31)) as [e|].
    + rewrite e in Hl. vm_compute in Hl. by apply Hl.
    + rewrite wrap32_id in * by (unfold int32 in *; lia). lia.
  - apply (safe_bind (xdr_opaque size [])); [apply safe_opaque; lia|intros; apply safe_ret|done].
Qed.

Lemma safe_arrayElement {A} (p : A -> xdr A) v : safe (p v) -> safe (xdr_arrayElement p v).
Proof.
  intros Hp. apply safe_bind; [apply safe_getpos|]. intros pos. apply safe_bind; [apply safe_by_op, safe_word|]. intros off.
  apply safe_bind; [done|]. intros v'. apply safe_bind; [apply safe_on_encode|]. intros off'.
  apply safe_bind; [apply safe_setpos|]. intros. apply safe_ret.
Qed.

Lemma safe_elems {A} (p : A -> xdr A) n l : (forall v, safe (p v)) -> (n <= length l)%nat -> safe (xdr_elems p n l).
Proof.
  intros Hp. revert l. induction n as [|n IH]; intros [|v l] Hl; cbn in *; [apply safe_ret..|lia|].
  apply safe_bind; [done|]. intros. apply safe_bind; [apply IH; lia|]. intros. apply safe_ret.
Qed.

(** ** Arrays that the decoder allocates *)

(** [m] gives an array of at least [n] elements. *)
Definition allocates {A} (m : xdr (list A)) (n : Z) : Prop :=
  forall x, reading x -> (exists l, m x = Done l x /\ (Z.to_nat n <= length l)%nat) \/ m x = Refused x.

Lemma safe_alloc {A B} (m : xdr (list A)) (p : A -> xdr A) n (f : list A -> xdr B) :
  allocates m n -> (forall v, safe (p v)) -> (forall l, safe (f l)) -> safe (a ← m; b ← xdr_vector p n a; f b).
Proof.
  intros Hm Hp Hf x Hx. destruct (Hm x Hx) as [(l & E & Hl)|E]; unfold mbind at 1, xdr_bind at 1; rewrite E; [|done].
  apply (safe_bind (xdr_vector p n l)); [by apply safe_elems|done|done].
Qed.

Lemma allocates_calloc {A} n (d : A) v : allocates (on_decode (calloc n d) v) n.
Proof.
  intros x [Ho _]. unfold on_decode, by_op, calloc. rewrite Ho. destruct (Z.ltb_spec n 0); [by right|].
  left. eexists. split; [done|]. by rewrite length_replicate.
Qed.

Lemma allocates_pos {A} n (d : A) v : allocates (calloc_pos n d v) n.
Proof.
  unfold calloc_pos. destruct (Z.ltb_spec 0 n); [apply allocates_calloc|].
  intros x [Ho _]. unfold on_decode, by_op. rewrite Ho. left. eexists. split; [done|]. lia.
Qed.

Lemma allocates_some {A} n (d : A) v : allocates (calloc_some n d v) n.
Proof.
  unfold calloc_some. destruct (Z.eqb_spec n 0) as [->|]; [|apply allocates_calloc].
  intros x [Ho _]. unfold on_decode, by_op. rewrite Ho. left. eexists. split; [done|]. cbn. lia.
Qed.

Lemma allocates_all {A} n (d : A) v : allocates (calloc_all n d v) n.
Proof. apply allocates_calloc. Qed.

Lemma safe_array_string maxlen s : maxlen < MAXLINELEN -> safe (array_string maxlen s).
Proof. intros. by apply safe_by_op, safe_string. Qed.

Lemma safe_hosts s : safe (array_string MAXHOSTNAMELEN s).
Proof. by apply safe_array_string. Qed.

Lemma safe_long z : safe (xdr_long z).
Proof. apply safe_by_op, safe_word. Qed.

Lemma safe_bool z : safe (xdr_bool z).
Proof. apply safe_by_op, safe_bind; [apply safe_word|]. intros. apply safe_ret. Qed.

Lemma safe_double z : safe (xdr_double z).
Proof. do 2 (apply safe_bind; [apply safe_word|intros]). apply safe_ret. Qed.

Create HintDb xsafe.
#[export] Hint Resolve safe_ret safe_word safe_var_string safe_hosts safe_long safe_bool safe_double safe_on_encode safe_arrayElement
  safe_on_decode allocates_pos allocates_some allocates_all : xsafe.
#[export] Hint Extern 1 (safe (xdr_int _)) => apply safe_word : xsafe.
#[export] Hint Extern 1 (safe (xdr_float _)) => apply safe_word : xsafe.
#[export] Hint Extern 1 (safe (xdr_u_short _)) => apply safe_word : xsafe.
#[export] Hint Extern 1 (safe (xdr_time_t _)) => apply safe_long : xsafe.

Ltac safe_step :=
  cbv beta;
  first
  [ apply safe_ret
  | apply safe_alloc; [solve [auto with xsafe]|intros; solve [auto with xsafe]|intros]
  | apply safe_bind; [solve [auto with xsafe]|let v := fresh in intros v; try match type of v with (_ * _)%type => destruct v end] ].

Lemma safe_pidInfo p : safe (xdr_pidInfo p).
Proof. unfold xdr_pidInfo. repeat safe_step. Qed.
#[export] Hint Resolve safe_pidInfo : xsafe.

Lemma safe_jRusage r : safe (xdr_jRusage r).
Proof. unfold xdr_jRusage. repeat safe_step. Qed.
Lemma safe_lsfRusage r : safe (xdr_lsfRusage r).
Proof. unfold xdr_lsfRusage. repeat safe_step. Qed.
Lemma safe_groupInfoEnt r : safe (GroupInfoEnt.xdr_groupInfoEnt r).
Proof. unfold GroupInfoEnt.xdr_groupInfoEnt. repeat safe_step. Qed.
Lemma safe_instance r : safe (SharedInstance.xdr_lsbShareResourceInstance r).
Proof. unfold SharedInstance.xdr_lsbShareResourceInstance, xdr_array_string. repeat safe_step. Qed.
#[export] Hint Resolve safe_jRusage safe_lsfRusage safe_groupInfoEnt safe_instance : xsafe.
Lemma safe_resource r : safe (SharedResource.xdr_lsbSharedResourceInfo r).
Proof. unfold SharedResource.xdr_lsbSharedResourceInfo. repeat safe_step. Qed.
#[export] Hint Resolve safe_resource : xsafe.

(** C25: No sequence of bytes, whatever its source, makes the decoders of these messages
    access memory outside their objects: requests about jobs, signals, moves, runs,
    groups, shared resources and parameters, and the replies and reports of the
    slaves. *)
Theorem decoders_safe :
  (forall r, safe (JobInfoReq.xdr_jobInfoReq r)) /\ (forall r, safe (SignalReq.xdr_signalReq r)) /\
  (forall r, safe (JobMoveReq.xdr_jobMoveReq r)) /\ (forall r, safe (JobPeekReq.xdr_jobPeekReq r)) /\
  (forall r, safe (RunJobRequest.xdr_runJobReq r)) /\ (forall r, safe (ParameterInfo.xdr_parameterInfo r)) /\
  (forall r, safe (GroupInfoReply.xdr_groupInfoReply r)) /\ (forall r, safe (SharedReply.xdr_lsbShareResourceInfoReply r)) /\
  (forall r, safe (JobSig.xdr_jobSig r)) /\ (forall r, safe (JobReply.xdr_jobReply r)) /\
  (forall r, safe (StatusReq.xdr_statusReq r)) /\ (forall h, safe (xdr_LSFHeader h)).
Proof.
  split_and!; intros r.
  - unfold JobInfoReq.xdr_jobInfoReq. repeat safe_step.
  - unfold SignalReq.xdr_signalReq. do 3 safe_step.
    apply safe_bind; [destruct (SignalReq.long_form _); repeat safe_step|]. intros []. repeat safe_step.
  - unfold JobMoveReq.xdr_jobMoveReq. repeat safe_step.
  - unfold JobPeekReq.xdr_jobPeekReq. repeat safe_step.
  - unfold RunJobRequest.xdr_runJobReq. repeat safe_step.
  - unfold ParameterInfo.xdr_parameterInfo. repeat safe_step.
  - unfold GroupInfoReply.xdr_groupInfoReply. repeat safe_step.
  - unfold SharedReply.xdr_lsbShareResourceInfoReply. repeat safe_step.
  - unfold JobSig.xdr_jobSig. repeat safe_step.
  - unfold JobReply.xdr_jobReply. repeat safe_step.
  - unfold StatusReq.xdr_statusReq, xdr_array_string. repeat safe_step.
  - unfold xdr_LSFHeader. apply safe_bind; [apply safe_on_encode|]. intros [[[] ?] ?].
    do 4 (apply safe_bind; [apply safe_word|intros]). apply safe_on_decode, safe_ret.
Qed.
