(* ===== verification/XdrTheorems.v ===== *)
(** * Theorems about the network messages

    Every kind of record survives the network; a package of jobs reaches the slave; a
    reader may know fewer fields than the writer; and what malformed or long
    messages do to the decoders. *)
From Stdlib Require Import String.
From stdpp Require Import base list.
From Stdlib Require Import ZArith Ascii Lia.
From S2P Require Import Prelude JobId Xdr XdrLib XdrCarry XdrBatch XdrMsg XdrRequest XdrReply XdrInfo XdrDaemons XdrSize.
Local Open Scope Z_scope.

(** ** Elements of arrays *)

(** Fields can be added to a record without breaking older readers.  A writer [p']
    writes an element of an array whose bytes begin with those that an older reader [p]
    expects, and goes on with fields that this reader does not know: the older reader
    gets its fields, and stops behind the whole element. *)
Theorem element_skipped {A B} (p : A -> xdr A) (p' : B -> xdr B) v v0 v' w extra a b c :
  decodes (p v0) v w -> carries p' v' (w ++ extra) -> length b = (4 + length (w ++ extra))%nat -> fits (a ++ b ++ c) ->
  exists x, xdr_arrayElement p' v' (mkXDR XDR_ENCODE (a ++ b ++ c) (length a)) = Done v' x /\
  xdr_arrayElement p v0 (mkXDR XDR_DECODE (x_buf x) (length a)) = Done v (mkXDR XDR_DECODE (x_buf x) (x_pos x)).
Proof.
  intros Hd Hc Hl F. pose proof (encodes_arrayElement p' v' v' (w ++ extra) (cod_enc _ _ _ _ _ (Hc v'))) as [E _].
  assert (Lw : length b = length (welem (w ++ extra))) by (unfold welem; rewrite length_app, length_be32; lia).
  eexists. split; [by apply E|]. cbn [x_buf x_pos]. apply (decodes_arrayElement p v0 v w extra Hd).
  unfold fits in *. rewrite !length_app, Lw in *. lia.
Qed.

(** A reader that knows only the process numbers of a [pidInfo]. *)
Definition old_reader (v : Z) : xdr Z := xdr_int v.

Lemma element_skipped_witness :
  exists x, xdr_arrayElement xdr_pidInfo (mkPidInfo 7 1 7 42) (mkXDR XDR_ENCODE (repeat NUL 24) 0) = Done (mkPidInfo 7 1 7 42) x /\
  xdr_arrayElement old_reader 0 (mkXDR XDR_DECODE (x_buf x) 0) = Done 7 (mkXDR XDR_DECODE (x_buf x) (x_pos x)).
Proof.
  apply (element_skipped old_reader xdr_pidInfo 7 0 (mkPidInfo 7 1 7 42) (be32 7) (be32 1 ++ be32 7 ++ be32 42 ++ [])
           [] (repeat NUL 20) (repeat NUL 4)).
  - apply (codec_int 7 0). unfold int32. lia.
  - intros v0. unfold xdr_pidInfo. cbn. repeat (eapply codec_bind; [apply codec_int; unfold int32; lia|]; cbv beta). apply codec_ret.
  - reflexivity.
  - unfold fits. cbn. lia.
Defined.

(** ** Packages of jobs *)

Import SbdPackage.

Definition wire_head (r : sbdPackage) : cstr :=
  be32 (mbdPid r) ++ be32 (retryIntvl r) ++ be32 (preemPeriod r) ++ be32 (pgSuspIdleT r) ++ be32 (maxJobs r) ++
  be32 (sbdSleepTime r) ++ be32 (managerId r) ++ be32 (numJobs r) ++ wstr (lsbManager r) ++ [].

Lemma enc_self {A} (m : xdr A) v w : codec m m v v w -> encodes m v w.
Proof. by intros []. Qed.

Lemma dec_of {A} (m n : xdr A) v w : codec m n v v w -> decodes n v w.
Proof. by intros []. Qed.

Ltac enc_step := eapply encodes_bind; [apply enc_self; solve [eauto with xdr]|].
Ltac dec_step := eapply decodes_bind; [eapply dec_of; solve [eauto with xdr]|].

(** What the receiver has before it reads the jobs. *)
Definition head_only (r r0 : sbdPackage) : sbdPackage :=
  SbdPackage.mk (managerId r) (lsbManager r) (mbdPid r) (sbdSleepTime r) (retryIntvl r) (preemPeriod r) (pgSuspIdleT r) (maxJobs r)
    (numJobs r) (jobs r0) (uJobLimit r0) (rusageUpdateRate r0) (rusageUpdatePercent r0) (jobTerminateInterval r0)
    (nAdmins r0) (admins r0).

Lemma codec_sbdPackage1 r : wf_sbdPackage r ->
  exists w, forall r0, codec (xdr_sbdPackage1 r) (xdr_sbdPackage1 (head_only r r0)) r (without_jobs r r0) w.
Proof.
  destruct r. intros H. unfold wf_sbdPackage in H. cbn in H. fields. eexists. intros r0. unfold xdr_sbdPackage1. cbn.
  repeat xdr_step.
Qed.

Lemma decodes_head r r0 : wf_sbdPackage r -> decodes (xdr_sbdPackage r0) (head_only r r0) (wire_head r).
Proof.
  intros H. unfold wf_sbdPackage in H. fields. unfold xdr_sbdPackage, wire_head. do 9 dec_step.
  cbv beta zeta. apply decodes_by_op, decodes_ret.
Qed.

Lemma encodes_package r ws w : wf_sbdPackage r -> Forall2 (carries (xdr_arrayElement JobSpecs.xdr_jobSpecs)) (jobs r) ws ->
  encodes (xdr_sbdPackage1 r) r w -> encodes (xdr_sbdPackage r) r (wire_head r ++ concat ws ++ w).
Proof.
  intros H Hws Hw. unfold wf_sbdPackage in H. fields. unfold xdr_sbdPackage, wire_head. rewrite <- !app_assoc. do 9 enc_step.
  cbv beta zeta. rewrite app_nil_l. apply encodes_by_op.
  eapply encodes_bind; [apply enc_self, (many_wires _ (numJobs r) (jobs r) _ ltac:(eassumption) Hws); lia|]. by destruct r.
Qed.

(** C20: The jobs of a host reach its slave daemon.  The bytes that the master writes with
    [xdr_sbdPackage] for a well-formed package are read by [getJobsState] as the same
    jobs, in order, and the same parameters, whatever the variables of the receiver
    held, and the receiver stops behind them. *)
Theorem package_delivered r : wf_sbdPackage r ->
  exists w, encodes (xdr_sbdPackage r) r w /\
  forall r0 j0 a c, fits (a ++ w ++ c) ->
    getJobsState r0 j0 (mkXDR XDR_DECODE (a ++ w ++ c) (length a)) =
    Done (without_jobs r r0, jobs r) (mkXDR XDR_DECODE (a ++ w ++ c) (length (a ++ w))).
Proof.
  intros H. destruct (transfers_wires (xdr_arrayElement JobSpecs.xdr_jobSpecs) (jobs r)) as [ws Hws].
  { unfold wf_sbdPackage in H. fields. eapply Forall_impl; [done|]. intros j Hj. by apply transfers_arrayElement, JobSpecs.transfers_jobSpecs. }
  destruct (codec_sbdPackage1 r H) as [w Hw]. exists (wire_head r ++ concat ws ++ w). split.
  - apply encodes_package; [done..|]. apply (Hw r).
  - intros r0 j0.
    assert (D : decodes (package ← xdr_sbdPackage r0; added ← receive_jobs (Z.to_nat (numJobs package)) j0;
        package1 ← xdr_sbdPackage1 package; mret (package1, added)) (without_jobs r r0, jobs r)
        (wire_head r ++ concat ws ++ w ++ [])).
    { eapply decodes_bind; [by apply decodes_head|]. cbn [numJobs head_only].
      assert (Hn : Z.to_nat (numJobs r) = length (jobs r)) by (unfold wf_sbdPackage in H; fields; lia). rewrite Hn.
      eapply decodes_bind; [by apply decodes_jobs|]. eapply decodes_bind; [apply (Hw r0)|apply decodes_ret]. }
    rewrite app_nil_r in D. intros a c F. specialize (proj1 D a c F) as E. revert E. unfold getJobsState, mbind, xdr_bind, attempt.
    destruct (xdr_sbdPackage r0 _) as [pk x| |]; try done.
    destruct (receive_jobs _ j0 x) as [js x'| |]; try done.
    by destruct (xdr_sbdPackage1 pk x').
Qed.

(** ** Sample records *)

(** Shows that a concrete record is well formed. *)
Ltac no_nuls := unfold no_nul; repeat (apply Forall_cons_2; [discriminate|]); apply Forall_nil_2.
Ltac solve_wf :=
  repeat match goal with
  | |- _ /\ _ => split
  | |- Forall _ [] => apply Forall_nil_2
  | |- Forall _ (_ :: _) => apply Forall_cons_2
  | |- int32 _ => unfold int32; cbn; lia
  | |- int16 _ => unfold int16; cbn; lia
  | |- uint16 _ => unfold uint16; cbn; lia
  | |- uint32 _ => unfold uint32; cbn; lia
  | |- uint64 _ => unfold uint64; cbn; lia
  | |- jobid_ok _ => unfold jobid_ok; vm_compute; split_and!; discriminate || reflexivity
  | |- counts _ _ => split; [reflexivity|]
  | |- no_nul _ => no_nuls
  | |- chars _ _ => unfold chars, str; split_and!; [no_nuls|vm_compute; discriminate|vm_compute; reflexivity]
  | |- str _ _ => unfold str; split_and!; [no_nuls|vm_compute; discriminate|vm_compute; reflexivity]
  | |- vstr _ => split; [no_nuls|vm_compute; reflexivity]
  | |- _ = _ => reflexivity
  end.

Definition sample_job : JobSpecs.jobSpecs :=
  let s := cs "sim" in
  JobSpecs.mk (LSB_JOBID 101 3) s 4 0 0 1000 (cs "ann") 1 0 0 (cs "normal") 40 (-5) (cs "hosta") [] 1000 0
    2 [cs "hosta"; cs "hostb"] (Thresholds.mk 2 1 [[0; 1065353216]] [[0; 0]]) 0 0 (replicate 11 (mkLsfLimit (-1) (-1) (-1) (-1))) 0
    [] (cs "/home/ann") (cs "sleep 10") (cs "1000.101") (cs "/dev/null") [] [] 18 (cs "work") 0
    1 [XFile.mk (cs "in") (cs "out") 1] 999 [] 0 0 0 0 0 [] 0 [] (cs "lava") 1 [cs "PATH=/bin"] (mkLenData 3 (cs "key")) (cs "default")
    [] [] [] [] [] 1000 [] 0 [] [] [] [] [] (replicate 23 0) 0 [] 1 [] [] 0 [] [] [] 0 [].

Lemma sample_job_wf : JobSpecs.wf_jobSpecs sample_job.
Proof. unfold JobSpecs.wf_jobSpecs, Thresholds.wf_thresholds, Thresholds.wf_rows, XFile.wf_xFile, wf_lsfLimit, wf_lenData. cbn. solve_wf. Qed.

Definition sample_package : sbdPackage :=
  SbdPackage.mk 500 (cs "lavaadmin") 77 15 30 1 60 8 2 [sample_job; sample_job] 4 1 10 30 1 [cs "root"].

Lemma package_delivered_witness : exists w, encodes (xdr_sbdPackage sample_package) sample_package w /\
  forall r0 j0 a c, fits (a ++ w ++ c) ->
    getJobsState r0 j0 (mkXDR XDR_DECODE (a ++ w ++ c) (length a)) =
    Done (without_jobs sample_package r0, [sample_job; sample_job]) (mkXDR XDR_DECODE (a ++ w ++ c) (length (a ++ w))).
Proof.
  apply (package_delivered sample_package). unfold wf_sbdPackage. cbn [sample_package managerId mbdPid sbdSleepTime retryIntvl preemPeriod
    pgSuspIdleT maxJobs uJobLimit rusageUpdateRate rusageUpdatePercent jobTerminateInterval lsbManager numJobs jobs nAdmins admins].
  solve_wf; apply sample_job_wf.
Defined.

(** A channel that is a list of bytes: reading takes them from its front. *)
Definition read_bytes (ch : cstr) (n : Z) : Z * cstr * cstr :=
  (Z.min n (Z.of_nat (length ch)), take (Z.to_nat n) ch, drop (Z.to_nat n) ch).

Lemma read_bytes_ok ch bytes rest : ch = bytes ++ rest ->
  exists ch', read_bytes ch (Z.of_nat (length bytes)) = (Z.of_nat (length bytes), bytes, ch') /\ ch' = rest.
Proof.
  intros ->. exists rest. unfold read_bytes. rewrite Nat2Z.id, take_app_length, drop_app_length, length_app.
  split; [|done]. repeat f_equal. lia.
Qed.

Definition sample_request : SubmitReq.submitReq :=
  SubmitReq.mk 1 0 (cs "sim") (cs "normal") 1 [cs "hosta"] (cs "mem>100") (replicate 11 (-1)) [] 1 (cs "done(99)") 0 0 0
    (cs "/home/ann") [] [] [] (cs "sleep 10") [] [] 0 [] 0 1 [XFile.mk (cs "in") (cs "out") 1] (cs "1000") (cs "hosta") 999 18
    (cs "work") [] (cs "ann") (cs "default") 0 1 [] (cs "any") 50.

Lemma sample_request_wf : SubmitReq.wf_submitReq sample_request.
Proof. unfold SubmitReq.wf_submitReq, XFile.wf_xFile. cbn. solve_wf. Qed.

Definition sample_auth : lsfAuth := mkLsfAuth 1000 100 (cs "ann") CLIENT_EAUTH 0 (mkLenData 0 []) (mkLenData 3 (cs "key")) 0.

Lemma sample_auth_wf : wf_lsfAuth sample_auth.
Proof. unfold wf_lsfAuth. cbn. unfold wf_lenData. cbn. solve_wf; vm_compute; [split; [discriminate|reflexivity]|discriminate]. Qed.

Definition sample_header : LSFHeader := mkLSFHeader 1 0 0 0 0 0.

Lemma sample_header_wf : wf_LSFHeader sample_header.
Proof. unfold wf_LSFHeader. cbn. solve_wf. Qed.

Lemma message_delivered_witness :
  exists n, (16 <= n)%nat /\
  (forall buf, fits buf -> (length buf < n)%nat ->
     exists x, xdr_encodeMsg (Some sample_request) sample_header SubmitReq.xdr_submitReq 0 (Some sample_auth) (xdrmem_create buf XDR_ENCODE) = Refused x) /\
  (forall buf, fits buf -> (n <= length buf)%nat ->
     let hdr' := with_length (with_version sample_header JHLAVA_VERSION) (Z.of_nat (n - 16)) in
     exists x, xdr_encodeMsg (Some sample_request) sample_header SubmitReq.xdr_submitReq 0 (Some sample_auth) (xdrmem_create buf XDR_ENCODE) = Done hdr' x /\ x_pos x = n /\
     forall ch rest buf1 buf2 hdr0 v0, ch = take n (x_buf x) ++ rest ->
       fits buf1 -> (16 <= length buf1)%nat -> fits buf2 -> (n - 16 <= length buf2)%nat ->
       exists x1 ch1 x2 ch2,
         readDecodeHdr_ read_bytes ch (xdrmem_create buf1 XDR_DECODE) hdr0 = Received hdr' x1 ch1 /\
         readDecodeMsg_ read_bytes ch1 hdr' (xdrmem_create buf2 XDR_DECODE) v0 SubmitReq.xdr_submitReq (Some sample_auth) =
           Received (delivered_auth (Some sample_auth) (Some sample_auth), sample_request) x2 ch2 /\
         ch2 = rest).
Proof.
  apply (message_delivered read_bytes (fun ch bs => ch = bs) read_bytes_ok SubmitReq.xdr_submitReq sample_request
    sample_header (Some sample_auth) (Some sample_auth)).
  - exact sample_request_wf.
  - exact sample_header_wf.
  - intros a [= <-]. exact sample_auth_wf.
  - split; intros _; eexists; reflexivity.
Defined.

Lemma submission_fits_witness :
  exists hdr' x, xdr_encodeMsg (Some sample_request) sample_header SubmitReq.xdr_submitReq 0 (Some sample_auth)
    (xdrmem_create (repeat NUL (Z.to_nat (xdrSubReqSize sample_request + xdr_lsfAuthSize (Some sample_auth)))) XDR_ENCODE) = Done hdr' x.
Proof.
  apply submission_fits.
  - exact sample_request_wf.
  - exact sample_header_wf.
  - intros a [= <-]. exact sample_auth_wf.
  - vm_compute. discriminate.
  - unfold fits. rewrite repeat_length. vm_compute. reflexivity.
  - rewrite repeat_length. vm_compute. reflexivity.
Defined.

Definition sample_queue : QueueInfoEnt.queueInfoEnt :=
  let z := cs "a" in
  QueueInfoEnt.mk (cs "night") z 40 10 z z 2 [0; 1065353216] [0; 0] 5 1065353216 z (replicate 11 (-1)) z 0 0 10 3 1 2 0 0 0 0 0
    z z 1 z z z z z 4 z 0 0 z z z z z z (replicate 23 0) z 0 (replicate 11 (-1)) 1 1.

Lemma sample_queue_wf : QueueInfoEnt.wf_queueInfoEnt sample_queue.
Proof. unfold QueueInfoEnt.wf_queueInfoEnt. cbn. solve_wf. Qed.

Definition sample_queues : QueueInfoReply.queueInfoReply := QueueInfoReply.mk 0 2 2 [sample_queue; sample_queue].

Lemma sample_queues_wf : QueueInfoReply.wf_queueInfoReply sample_queues.
Proof.
  unfold QueueInfoReply.wf_queueInfoReply. cbn [sample_queues QueueInfoReply.badQueue QueueInfoReply.nIdx QueueInfoReply.numQueues QueueInfoReply.queues].
  solve_wf; try exact sample_queue_wf. lia.
Qed.

Lemma queue_reply_fits_witness :
  exists hdr' x, xdr_encodeMsg (Some sample_queues) sample_header QueueInfoReply.xdr_queueInfoReply 0 None
    (xdrmem_create (repeat NUL (Z.to_nat (LSF_HEADER_LEN + xdrsize_QueueInfoReply sample_queues))) XDR_ENCODE) = Done hdr' x.
Proof.
  apply queue_reply_fits.
  - exact sample_queues_wf.
  - exact sample_header_wf.
  - vm_compute. reflexivity.
  - unfold fits. rewrite repeat_length. vm_compute. reflexivity.
  - rewrite repeat_length. vm_compute. reflexivity.
Defined.

(** ** Every kind of record *)

(** C19: Every record of the batch protocol is carried: for each kind, the bytes that
    encoding a well-formed record writes are decoded to the same record by any receiver,
    encoding is refused by a buffer without room for all of them, and decoding is
    refused when they are cut short at any place. *)
Theorem records_carried :
  (forall r, SubmitReq.wf_submitReq r -> transfers SubmitReq.xdr_submitReq r) /\
  (forall r, ModifyReq.wf_modifyReq r -> transfers ModifyReq.xdr_modifyReq r) /\
  (forall r, JobInfoReq.wf_jobInfoReq r -> transfers JobInfoReq.xdr_jobInfoReq r) /\
  (forall r, LsbMsg.wf_lsbMsg r -> transfers LsbMsg.xdr_lsbMsg r) /\
  (forall r, InfoReq.wf_infoReq r -> transfers InfoReq.xdr_infoReq r) /\
  (forall r, JobSwitchReq.wf_jobSwitchReq r -> transfers JobSwitchReq.xdr_jobSwitchReq r) /\
  (forall r, JobMoveReq.wf_jobMoveReq r -> transfers JobMoveReq.xdr_jobMoveReq r) /\
  (forall r, MigReq.wf_migReq r -> transfers MigReq.xdr_migReq r) /\
  (forall r, RunJobRequest.wf_runJobRequest r -> transfers RunJobRequest.xdr_runJobReq r) /\
  (forall r, JobAttrInfoEnt.wf_jobAttrInfoEnt r -> transfers JobAttrInfoEnt.xdr_jobAttrReq r) /\
  (forall r, SubmitMbdReply.wf_submitMbdReply r -> transfers SubmitMbdReply.xdr_submitMbdReply r) /\
  (forall r, ParameterInfo.wf_parameterInfo r -> transfers ParameterInfo.xdr_parameterInfo r) /\
  (forall r, JobInfoHead.wf_jobInfoHead r -> transfers JobInfoHead.xdr_jobInfoHead r) /\
  (forall r, JobInfoReply.wf_jobInfoReply r -> transfers JobInfoReply.xdr_jobInfoReply r) /\
  (forall r, QueueInfoReply.wf_queueInfoReply r -> transfers QueueInfoReply.xdr_queueInfoReply r) /\
  (forall r, HostDataReply.wf_hostDataReply r -> transfers HostDataReply.xdr_hostDataReply r) /\
  (forall r, UserInfoReply.wf_userInfoReply r -> transfers UserInfoReply.xdr_userInfoReply r) /\
  (forall r, GroupInfoReply.wf_groupInfoReply r -> transfers GroupInfoReply.xdr_groupInfoReply r) /\
  (forall r, SharedReply.wf_lsbShareResourceInfoReply r -> transfers SharedReply.xdr_lsbShareResourceInfoReply r) /\
  (forall r, JobSpecs.wf_jobSpecs r -> transfers JobSpecs.xdr_jobSpecs r) /\
  (forall r, JobSig.wf_jobSig r -> transfers JobSig.xdr_jobSig r) /\
  (forall r, JobReply.wf_jobReply r -> transfers JobReply.xdr_jobReply r) /\
  (forall r, StatusReq.wf_statusReq r -> transfers StatusReq.xdr_statusReq r).
Proof. split_and!; intros r H; apply wire_transfers; exact H. Qed.

Lemma records_carried_witness :
  transfers SubmitReq.xdr_submitReq sample_request /\ transfers QueueInfoReply.xdr_queueInfoReply sample_queues /\
  transfers JobSpecs.xdr_jobSpecs sample_job.
Proof.
  split_and!; apply records_carried; [exact sample_request_wf|exact sample_queues_wf|exact sample_job_wf].
Defined.

(** ** Messages that write outside arrays *)

(** A message [w] that can be sent, and that makes the receiver write outside an array. *)
Definition crashes {A} (m : xdr A) (w : cstr) : Prop :=
  forall a c, fits (a ++ w ++ c) -> m (mkXDR XDR_DECODE (a ++ w ++ c) (length a)) = Fault.

Definition breaks {A} (m n : xdr A) (v : A) (w : cstr) : Prop := encodes m v w /\ crashes n w.

Lemma crashes_bind {A B} (m : xdr A) (f : A -> xdr B) v w w' : decodes m v w -> crashes (f v) w' -> crashes (m ≫= f) (w ++ w').
Proof.
  intros [H1 _] H2 a c F. unfold mbind, xdr_bind. rewrite <- (app_assoc w), H1 by sizes.
  rewrite (app_assoc a w). apply H2. sizes.
Qed.

Lemma crashes_first {A B} (m : xdr A) (f : A -> xdr B) w w' : crashes m w -> crashes (m ≫= f) (w ++ w').
Proof. intros H a c F. unfold mbind, xdr_bind. rewrite <- (app_assoc w), H by sizes. done. Qed.

Lemma breaks_bind {A B} (m n : xdr A) (f g : A -> xdr B) v u v' w w' : codec m n v u w ->
  breaks (f v) (g u) v' w' -> breaks (m ≫= f) (n ≫= g) v' (w ++ w').
Proof. intros [He Hd] [He' Hc]. split; [by eapply encodes_bind|by eapply crashes_bind]. Qed.

Lemma breaks_here {A B} (m n : xdr A) (f g : A -> xdr B) v v' w w' : breaks m n v w ->
  encodes (f v) v' w' -> breaks (m ≫= f) (n ≫= g) v' (w ++ w').
Proof. intros [He Hc] He'. split; [by eapply encodes_bind|by apply crashes_first]. Qed.

(** A string that the bound allows and the array does not. *)
Lemma string_breaks cap maxsize s s0 : no_nul s -> cap <= Z.of_nat (length s) <= maxsize -> maxsize < 2 ^ 31 ->
  breaks (xdr_string cap maxsize s) (xdr_string cap maxsize s0) s (wstr s).
Proof.
  intros Hn Hl Hm. split.
  - apply (codec_string (maxsize + 1) maxsize s s). unfold str. split_and!; done || lia.
  - intros a c F. unfold xdr_string, by_op. cbn [x_op]. unfold wstr. rewrite <- (app_assoc (be32 _)).
    assert (U : uint32 (Z.of_nat (length s))) by (unfold uint32; lia).
    erewrite bind_done; [|apply (codec_u_int _ 0 U); unfold wstr in F; sizes].
    destruct (Z.ltb_spec maxsize (Z.of_nat (length s))); [lia|].
    destruct (Z.eqb_spec (Z.of_nat (length s)) (2 ^ 32 - 1)); [lia|].
    destruct (Z.ltb_spec cap (Z.of_nat (length s) + 1)); [done|lia].
Qed.

(** The name of the queue of a job is decoded into an array of [MAX_LSB_NAME_LEN]
    characters under the bound [MAXFILENAMELEN]: a job that differs from a well-formed one
    in a queue name of 60 to 256 characters is encoded, and makes the slave that decodes
    it write outside the array. *)
Theorem queue_name_overruns r q r0 : JobSpecs.wf_jobSpecs r -> no_nul q ->
  MAX_LSB_NAME_LEN <= Z.of_nat (length q) <= MAXFILENAMELEN ->
  exists w, breaks (JobSpecs.xdr_jobSpecs (JobSpecs.with_queue r q)) (JobSpecs.xdr_jobSpecs r0) (JobSpecs.with_queue r q) w.
Proof.
  intros H Hq Hl. destruct r. unfold JobSpecs.wf_jobSpecs in H. cbn in H. fields. unfold JobSpecs.with_queue. cbn.
  match goal with H : Thresholds.wf_thresholds _ |- _ => part (Thresholds.transfers_thresholds _ H) end.
  match goal with H : wf_lenData _ |- _ => part (transfers_lenData _ H) end.
  eexists. unfold JobSpecs.xdr_jobSpecs.
  repeat (eapply breaks_bind; [solve [eauto with xdr]|]; cbv beta iota).
  eapply breaks_here; [by apply string_breaks|]. cbv beta. apply enc_self. repeat daemon_step.
  eapply codec_attempt; [eauto|apply Thresholds.tight_thresholds..|apply starved_bind, starved_word|apply starved_bind, starved_word|].
  cbv beta iota zeta. cbn [default from_option]. repeat daemon_step.
Qed.

Lemma queue_name_overruns_witness :
  exists w, breaks (JobSpecs.xdr_jobSpecs (JobSpecs.with_queue sample_job (repeat "q"%char 60))) (JobSpecs.xdr_jobSpecs sample_job)
    (JobSpecs.with_queue sample_job (repeat "q"%char 60)) w.
Proof.
  apply (queue_name_overruns sample_job (repeat "q"%char 60) sample_job).
  - exact sample_job_wf.
  - cbn. no_nuls.
  - vm_compute. split; discriminate.
Defined.

(** More bytes than the array has. *)
Lemma bytes_crash cap max0 len0 data data0 : cap < Z.of_nat (length data) <= max0 -> max0 < 2 ^ 31 ->
  crashes (xdr_bytes cap max0 len0 data0) (be32 (Z.of_nat (length data)) ++ padded data).
Proof.
  intros Hl Hm a c F. unfold xdr_bytes, by_op. cbn [x_op]. rewrite <- (app_assoc (be32 _)).
  assert (U : uint32 (Z.of_nat (length data))) by (unfold uint32; lia).
  erewrite bind_done; [|apply (codec_u_int _ 0 U); sizes]. unfold uwrap32. rewrite (Z.mod_small max0) by lia.
  destruct (Z.ltb_spec max0 (Z.of_nat (length data))); [lia|].
  destruct (Z.ltb_spec cap (Z.of_nat (length data))); [done|lia].
Qed.

(** C37: The data of an external authentication go into an array of [EAUTH_SIZE] characters,
    and the message itself says how long they may be: a message with more data makes
    the receiver write outside the array, whoever sends it. *)
Theorem eauth_overruns uid gid name data auth0 : int32 uid -> int32 gid -> chars MAXLSFNAMELEN name ->
  EAUTH_SIZE < Z.of_nat (length data) < 2 ^ 31 -> let len := Z.of_nat (length data) in
  crashes (xdr_lsfAuth auth0) (be32 uid ++ be32 gid ++ wstr name ++ be32 CLIENT_EAUTH ++ be32 len ++ be32 len ++ padded data).
Proof.
  intros Hu Hg Hn Hl len. unfold xdr_lsfAuth.
  do 3 (eapply crashes_bind; [eapply dec_of; solve [eauto with xdr]|]; cbv beta).
  eapply crashes_bind; [by apply (codec_enum CLIENT_EAUTH (kind auth0))|]. cbv beta.
  change (CLIENT_EAUTH =? CLIENT_DCE) with false. change (CLIENT_EAUTH =? CLIENT_EAUTH) with true. cbv iota.
  assert (Hi : int32 len) by (unfold int32, len, EAUTH_SIZE in *; lia).
  rewrite <- (app_nil_r (_ ++ _ ++ padded data)). apply crashes_first.
  rewrite <- (app_nil_r (_ ++ _ ++ padded data)). apply crashes_first. unfold xdr_eauth.
  eapply crashes_bind; [by apply (codec_int len (ld_len (eauth auth0)))|]. cbv beta.
  rewrite <- (app_nil_r (be32 len ++ padded data)). apply crashes_first, bytes_crash; unfold len, EAUTH_SIZE in *; lia.
Qed.

Lemma eauth_overruns_witness :
  crashes (xdr_lsfAuth sample_auth) (be32 1000 ++ be32 100 ++ wstr (cs "ann") ++ be32 CLIENT_EAUTH ++ be32 (Z.of_nat (length (repeat "x"%char 4097)))
    ++ be32 (Z.of_nat (length (repeat "x"%char 4097))) ++ padded (repeat "x"%char 4097)).
Proof.
  apply (eauth_overruns 1000 100 (cs "ann") (repeat "x"%char 4097) sample_auth).
  - unfold int32. lia.
  - unfold int32. lia.
  - solve_wf.
  - rewrite repeat_length. vm_compute. split; reflexivity.
Defined.

(** ** Reports of several jobs *)

Import ChunkStatusReq.

Lemma one_at_end x : x_op x = XDR_DECODE -> room x < 4 -> xdr_one (Some StatusReq.target) x = Done None x.
Proof.
  intros Ho Hr. unfold xdr_one, attempt, StatusReq.xdr_statusReq.
  erewrite bind_done by (unfold on_encode, by_op; rewrite Ho; reflexivity). cbv beta iota.
  unfold mbind at 1, xdr_bind at 1. unfold xdr_int at 1, xdr_word, by_op. rewrite Ho.
  unfold mbind at 1, xdr_bind at 1. unfold getbytes. destruct (Z.ltb_spec (room x) 4); [done|lia].
Qed.

Lemma rest_at_end n x : x_op x = XDR_DECODE -> room x < 4 ->
  xdr_elems xdr_one n (replicate n (Some StatusReq.target)) x = Done (replicate n None) x.
Proof.
  intros Ho Hr. induction n as [|n IH]; [done|]. cbn [replicate xdr_elems].
  rewrite (bind_done _ _ _ _ _ (one_at_end x Ho Hr)). by rewrite (bind_done _ _ _ _ _ IH).
Qed.

Lemma some_received l ws m a : Forall2 (carries StatusReq.xdr_statusReq) l ws -> fits (a ++ concat ws) ->
  xdr_elems xdr_one (length l + m) (replicate (length l + m) (Some StatusReq.target)) (mkXDR XDR_DECODE (a ++ concat ws) (length a)) =
  Done ((Some <$> l) ++ replicate m None) (mkXDR XDR_DECODE (a ++ concat ws) (length (a ++ concat ws))).
Proof.
  intros H. revert a. induction H as [|r w l ws Hr _ IH]; intros a F.
  - cbn [concat length Nat.add fmap list_fmap app] in *. rewrite app_nil_r in *. apply rest_at_end; [done|]. unfold room. cbn. lia.
  - cbn [length Nat.add replicate xdr_elems concat fmap list_fmap app] in *.
    erewrite bind_done.
    2:{ unfold xdr_one, attempt. by rewrite (proj1 (cod_dec _ _ _ _ _ (Hr StatusReq.target)) a (concat ws) F). }
    rewrite (app_assoc a w) in *. by rewrite (bind_done _ _ _ _ _ (IH _ F)).
Qed.

(** A report on [n] jobs that was cut short behind some of them is accepted: the
    result of the function for one job is ignored, and the requests that are missing are
    handed to the master as they are, not decoded at all. *)
Theorem short_report_accepted l ws m r0 a : Forall2 (carries StatusReq.xdr_statusReq) l ws ->
  let n := Z.of_nat (length l + m) in n < 2 ^ 31 -> fits (a ++ be32 n ++ concat ws) ->
  xdr_chunkStatusReq r0 (mkXDR XDR_DECODE (a ++ be32 n ++ concat ws) (length a)) =
  Done (mk n ((Some <$> l) ++ replicate m None)) (mkXDR XDR_DECODE (a ++ be32 n ++ concat ws) (length (a ++ be32 n ++ concat ws))).
Proof.
  intros H n Hn F. unfold xdr_chunkStatusReq.
  erewrite bind_done by (apply (codec_int n (numStatusReqs r0)); [unfold int32, n; lia|done]).
  erewrite bind_done by reflexivity. unfold xdr_vector, n. rewrite Nat2Z.id, (app_assoc a) in *.
  by rewrite (bind_done _ _ _ _ _ (some_received l ws m _ H F)).
Qed.

Lemma short_report_accepted_witness :
  xdr_chunkStatusReq (mk 0 []) (mkXDR XDR_DECODE ([] ++ be32 2 ++ []) 0) =
  Done (mk 2 [None; None]) (mkXDR XDR_DECODE ([] ++ be32 2 ++ []) 4).
Proof.
  apply (short_report_accepted [] [] 2 (mk 0 []) []).
  - constructor.
  - vm_compute. reflexivity.
  - unfold fits. vm_compute. reflexivity.
Defined.

(** The size of a file of 2 GB or more does not survive: it comes out negative. *)
Theorem large_file_size s st0 n : wf_stat s -> 2 ^ 31 <= n < 2 ^ 32 ->
  let with_size z := mkStat (st_dev s) (st_ino s) (st_mode s) (st_nlink s) (st_uid s) (st_gid s) (st_rdev s) z (st_atime s) (st_mtime s) (st_ctime s) in
  exists w, encodes (xdr_stat (with_size n)) (with_size n) w /\ decodes (xdr_stat st0) (with_size (n - 2 ^ 32)) w.
Proof.
  intros H Hn with_size. destruct s. unfold wf_stat in H. cbn in *. fields.
  assert (C : codec (xdr_word wrap32 n) (xdr_word wrap32 (XdrLib.st_size st0)) n (n - 2 ^ 32) (be32 n)).
  { split; [apply encodes_by_op; rewrite <- (app_nil_r (be32 n)); eapply encodes_bind; [apply encodes_put|apply encodes_ret]|].
    replace (n - 2 ^ 32) with (wrap32 (n mod 2 ^ 32)); [apply decodes_word|]. rewrite Z.mod_small by lia. unfold wrap32.
    rewrite <- (Z.mod_add _ (-1)), Z.mod_small by lia. lia. }
  eexists. enough (D : codec (xdr_stat (with_size n)) (xdr_stat st0) (with_size n) (with_size (n - 2 ^ 32)) _) by exact (conj (cod_enc _ _ _ _ _ D) (cod_dec _ _ _ _ _ D)).
  unfold xdr_stat, with_size. cbv zeta. cbn [XdrLib.st_dev XdrLib.st_ino XdrLib.st_mode XdrLib.st_nlink XdrLib.st_uid XdrLib.st_gid XdrLib.st_rdev XdrLib.st_size XdrLib.st_atime XdrLib.st_mtime XdrLib.st_ctime].
  do 7 (eapply codec_bind; [solve [apply codec_stat_word; auto]|]; cbv beta).
  eapply codec_bind; [exact C|]. cbv beta.
  repeat (eapply codec_bind; [solve [apply codec_stat_word; auto]|]; cbv beta). apply codec_ret.
Qed.

(** A process that has received a control request, and then sends one, keeps a pointer to
    the name that it has sent: the next longer name that it receives is written behind the
    end of that string. *)
Theorem control_name_overruns r r0 name buf x' res a c op : no_nul name -> (length (ControlReq.name r) < length name < 64)%nat ->
  int32 op ->
  let st := ControlReq.mkStatics (Some MAXHOSTNAMELEN) false in
  ControlReq.xdr_controlReq st r (xdrmem_create buf XDR_ENCODE) = Done res x' ->
  fits (a ++ (be32 op ++ wstr name) ++ c) ->
  ControlReq.xdr_controlReq (snd res) r0 (mkXDR XDR_DECODE (a ++ (be32 op ++ wstr name) ++ c) (length a)) = Fault.
Proof.
  intros Hn Hl Ho st E F.
  assert (Hs : snd res = ControlReq.mkStatics (Some (Z.of_nat (length (ControlReq.name r)) + 1)) false).
  { revert E. unfold ControlReq.xdr_controlReq. erewrite bind_done by reflexivity. unfold mbind, xdr_bind.
    destruct (xdr_int _ _) as [o y| |]; try done. destruct (xdr_string _ _ _ y) as [n z| |]; try done. by intros [= <- _]. }
  rewrite Hs. unfold ControlReq.xdr_controlReq. erewrite bind_done by reflexivity. cbv beta. cbn [ControlReq.first ControlReq.sp default from_option].
  revert a c F. change (crashes (opCode' ← xdr_int (ControlReq.opCode r0);
    name' ← xdr_string (Z.of_nat (length (ControlReq.name r)) + 1) MAXHOSTNAMELEN (ControlReq.name r0);
    mret (ControlReq.mk opCode' name', ControlReq.mkStatics (Some (Z.of_nat (length (ControlReq.name r)) + 1)) false)) (be32 op ++ wstr name)).
  eapply crashes_bind; [by apply (codec_int op (ControlReq.opCode r0))|]. cbv beta.
  rewrite <- (app_nil_r (wstr name)). apply crashes_first. apply string_breaks; [done|unfold MAXHOSTNAMELEN; lia..].
Qed.
