(* ===== verification/XdrLim.v ===== *)
(** * Messages of the load information manager (lsf/lib/lib.xdrlim.c)

    Requests for hosts and resources and the replies to them, with the structs of
    lsf/lsf.h, lsf/lim/limout.h and lsf/lib/lproto.h.  Modules as in XdrRequest.v.  Tables
    that are part of a struct have a fixed number of entries: a message that says
    more leaves the struct. *)
From stdpp Require Import base list.
From Stdlib Require Import ZArith Ascii Lia.
From S2P Require Import Prelude JobId Xdr XdrLib XdrCarry XdrBatch XdrMsg XdrRequest XdrReply XdrInfo.
Local Open Scope Z_scope.

Definition MAXRESDESLEN : Z := 256.
Definition MAXTYPES : Z := 128.
Definition MAXMODELS : Z := 128.

(** ** Numbers as bytes *)

Definition wraw (n : nat) (z : Z) : cstr := (be32 (Z.of_nat n) ++ padded (le_bytes n z)) ++ [].

Lemma codec_raw n z z0 : 0 <= z < 256 ^ Z.of_nat n -> (n < 1000)%nat -> codec (xdr_raw n z) (xdr_raw n z0) z z (wraw n z).
Proof.
  intros H Hn. pose proof (codec_bytes (Z.of_nat n) (Z.of_nat n) (Z.of_nat n) (le_bytes n z) (le_bytes n z0)) as C.
  cbv zeta in C. rewrite length_le_bytes in C.
  eapply codec_bind; [apply C; lia|]. cbv beta iota. rewrite of_le_bytes by done. by apply codec_on_decode.
Qed.

Lemma codec_portno p p0 : uint16 p -> codec (xdr_portno p) (xdr_portno p0) p p (wraw 2 p).
Proof. intros H. by apply codec_raw; [|lia]. Qed.

Lemma codec_address a a0 : uint32 a -> codec (xdr_address a) (xdr_address a0) a a (wraw 4 a).
Proof. intros H. by apply codec_raw; [|lia]. Qed.

#[export] Hint Resolve codec_portno codec_address : xdr.

(** ** Tables in structs *)

(** The first [n] entries of a table with [cap] entries that is part of the target; entry
    number [cap] is outside. *)
Definition xdr_table {A} (p : A -> xdr A) (cap : Z) (d : A) (n : Z) (l : list A) : xdr (list A) :=
  a ← on_decode (mret (sized cap d l)) l; xdr_vector p n a.

Lemma xdr_elems_take {A} (p : A -> xdr A) n l : xdr_elems p n l = xdr_elems p n (take n l).
Proof. revert l. induction n as [|n IH]; intros [|y l]; try done. cbn. by rewrite <- IH. Qed.

Lemma codec_table {A} (p : A -> xdr A) cap d n l l0 w : many p n l w -> n <= cap ->
  codec (xdr_table p cap d n l) (xdr_table p cap d n l0) l l w.
Proof.
  intros H Hn. eapply codec_bind_nil; [by apply codec_on_decode|]. unfold xdr_vector.
  rewrite (xdr_elems_take _ _ (sized cap d l0)). apply H. rewrite length_take, length_sized. lia.
Qed.

(** A set of [n] bits: the loop runs over the words of the set, and over no more than [n]. *)
Definition xdr_bitmap (n : Z) (l : list Z) : xdr (list Z) :=
  l0 ← on_decode (if n =? 0 then mret l else calloc (GET_INTNUM n) 0) l;
  xdr_vector xdr_int (Z.min n (GET_INTNUM n)) l0.

Definition wf_bitmap (n : Z) (l : list Z) : Prop :=
  0 <= n /\ Z.of_nat (length l) = (if n =? 0 then 0 else GET_INTNUM n) /\ Forall int32 l.

Lemma GET_INTNUM_le n : 0 < n -> 0 < GET_INTNUM n <= n.
Proof. intros H. unfold GET_INTNUM. rewrite Z.quot_div_nonneg by lia. pose proof (Z.div_mod n 32). pose proof (Z.mod_pos_bound n 32). lia. Qed.

Lemma codec_bitmap n l l0 : wf_bitmap n l -> codec (xdr_bitmap n l) (xdr_bitmap n l0) l l (concat (be32 <$> l)).
Proof.
  intros (Hn & Hl & Hi). unfold xdr_bitmap. destruct (Z.eqb_spec n 0) as [->|E].
  - destruct l; [|cbn in Hl; lia]. eapply codec_bind_nil; [by apply codec_on_decode|].
    change (Z.min 0 (GET_INTNUM 0)) with 0. rewrite !xdr_vector_nil. apply codec_ret.
  - pose proof (GET_INTNUM_le n ltac:(lia)). rewrite Z.min_r by lia.
    eapply codec_bind_nil; [apply codec_calloc; lia|]. apply many_ints; [done..|]. by rewrite length_replicate.
Qed.

#[export] Hint Resolve codec_table codec_bitmap : xdr.

(** Names in arrays of [MAXLSFNAMELEN] characters. *)
Lemma many_lsf_names n l : n = Z.of_nat (length l) -> Forall (str MAXLSFNAMELEN) l ->
  many (array_string MAXLSFNAMELEN) n l (concat (wstr <$> l)).
Proof. by apply many_array_string. Qed.
#[export] Hint Resolve many_lsf_names : xdr.


Module PlaceInfo.
Record placeInfo := mk {
  hostName : cstr; numtask : Z }.

(** What the decoder finds in an array of its own. *)
Definition target : placeInfo :=
  mk [] 0.

Definition xdr_placeInfo (r : placeInfo) : xdr placeInfo :=
  hostName' ← xdr_string MAXHOSTNAMELEN MAXHOSTNAMELEN (hostName r);
  numtask' ← xdr_int (numtask r);
  mret (mk hostName' numtask').

Definition wf_placeInfo (r : placeInfo) : Prop :=
  Forall (chars MAXHOSTNAMELEN) [hostName r] /\ Forall int32 [numtask r].

Lemma transfers_placeInfo r : wf_placeInfo r -> transfers xdr_placeInfo r.
Proof.
  destruct r. intros H. unfold wf_placeInfo in H. cbn in H. fields.
  eexists. intros r0. unfold xdr_placeInfo. repeat xdr_step.
Qed.
End PlaceInfo.
#[export] Instance wire_placeInfo : Wire PlaceInfo.xdr_placeInfo := { wf_wire := PlaceInfo.wf_placeInfo; wire_transfers := PlaceInfo.transfers_placeInfo }.

Module DecisionReq.
Record decisionReq := mk {
  ofWhat : Z; options : Z; hostType : cstr; numHosts : Z; resReq : cstr; numPrefs : Z;
  preferredHosts : list cstr }.

Definition xdr_decisionReq (r : decisionReq) : xdr decisionReq :=
  ofWhat' ← xdr_enum (ofWhat r);
  options' ← xdr_int (options r);
  hostType' ← xdr_string MAXLSFNAMELEN MAXLSFNAMELEN (hostType r);
  numHosts' ← xdr_int (numHosts r);
  resReq' ← xdr_string MAXLINELEN MAXLINELEN (resReq r);
  numPrefs' ← xdr_int (numPrefs r);
  preferredHosts0 ← calloc_all numPrefs' [] (preferredHosts r);
  preferredHosts' ← xdr_array_string preferredHosts0 MAXHOSTNAMELEN numPrefs';
  mret (mk ofWhat' options' hostType' numHosts' resReq' numPrefs' preferredHosts').

Definition wf_decisionReq (r : decisionReq) : Prop :=
  Forall int32 [ofWhat r; options r; numHosts r] /\ Forall (chars MAXLSFNAMELEN) [hostType r] /\ Forall
  (chars MAXLINELEN) [resReq r] /\ counts (numPrefs r) (preferredHosts r) /\ Forall (str MAXHOSTNAMELEN)
  (preferredHosts r).

Lemma transfers_decisionReq r : wf_decisionReq r -> transfers xdr_decisionReq r.
Proof.
  destruct r. intros H. unfold wf_decisionReq in H. cbn in H. fields.
  eexists. intros r0. unfold xdr_decisionReq. repeat xdr_step.
Qed.
End DecisionReq.
#[export] Instance wire_decisionReq : Wire DecisionReq.xdr_decisionReq := { wf_wire := DecisionReq.wf_decisionReq; wire_transfers := DecisionReq.transfers_decisionReq }.

Module PlaceReply.
Record placeReply := mk {
  numHosts : Z; placeInfo : list PlaceInfo.placeInfo }.

Definition xdr_placeReply (r : placeReply) : xdr placeReply :=
  numHosts' ← xdr_int (numHosts r);
  placeInfo0 ← calloc_all numHosts' PlaceInfo.target (placeInfo r);
  placeInfo' ← xdr_vector (xdr_arrayElement PlaceInfo.xdr_placeInfo) numHosts' placeInfo0;
  mret (mk numHosts' placeInfo').

Definition wf_placeReply (r : placeReply) : Prop :=
  counts (numHosts r) (placeInfo r) /\ Forall PlaceInfo.wf_placeInfo (placeInfo r).

Lemma transfers_placeReply r : wf_placeReply r -> transfers xdr_placeReply r.
Proof.
  destruct r. intros H. unfold wf_placeReply in H. cbn in H. fields.
  edestruct (many_elements PlaceInfo.xdr_placeInfo) as [ws Hws]; [apply PlaceInfo.transfers_placeInfo|eassumption..|].
  eexists. intros r0. unfold xdr_placeReply. repeat xdr_step.
Qed.
End PlaceReply.
#[export] Instance wire_placeReply : Wire PlaceReply.xdr_placeReply := { wf_wire := PlaceReply.wf_placeReply; wire_transfers := PlaceReply.transfers_placeReply }.

Module JobXfer.
Record jobXfer := mk {
  numHosts : Z; resReq : cstr; placeInfo : list PlaceInfo.placeInfo }.

Definition xdr_jobXfer (r : jobXfer) : xdr jobXfer :=
  numHosts' ← xdr_int (numHosts r);
  resReq' ← xdr_string MAXLINELEN MAXLINELEN (resReq r);
  placeInfo0 ← calloc_all numHosts' PlaceInfo.target (placeInfo r);
  placeInfo' ← xdr_vector (xdr_arrayElement PlaceInfo.xdr_placeInfo) numHosts' placeInfo0;
  mret (mk numHosts' resReq' placeInfo').

Definition wf_jobXfer (r : jobXfer) : Prop :=
  Forall (chars MAXLINELEN) [resReq r] /\ counts (numHosts r) (placeInfo r) /\ Forall PlaceInfo.wf_placeInfo
  (placeInfo r).

Lemma transfers_jobXfer r : wf_jobXfer r -> transfers xdr_jobXfer r.
Proof.
  destruct r. intros H. unfold wf_jobXfer in H. cbn in H. fields.
  edestruct (many_elements PlaceInfo.xdr_placeInfo) as [ws Hws]; [apply PlaceInfo.transfers_placeInfo|eassumption..|].
  eexists. intros r0. unfold xdr_jobXfer. repeat xdr_step.
Qed.
End JobXfer.
#[export] Instance wire_jobXfer : Wire JobXfer.xdr_jobXfer := { wf_wire := JobXfer.wf_jobXfer; wire_transfers := JobXfer.transfers_jobXfer }.

Module ShortLsInfo.
(** The bit maps of the struct do not travel. *)
Record shortLsInfo := mk {
  nRes : Z; resName : list cstr; nTypes : Z; hostTypes : list cstr; nModels : Z; hostModels : list cstr; cpuFactors : list Z }.

Definition target : shortLsInfo := mk 0 [] 0 [] 0 [] [].

(** One block for the names and the pointers to the names of resources.  The sum of the
    names is computed with [int]s; a negative size is more than any memory has.  In a
    block that is too small for the counts the names lie outside. *)
Definition block_size (nRes nTypes nModels : Z) : Z := wrap32 (wrap32 (nRes + nTypes + nModels) * MAXLSFNAMELEN) + nRes * 8.

Definition allocate (nRes nTypes nModels : Z) : xdr unit :=
  if block_size nRes nTypes nModels <? 0 then refuse
  else if (nRes <? 0) || (nTypes <? 0) || (nModels <? 0) ||
          negb (block_size nRes nTypes nModels =? (nRes + nTypes + nModels) * MAXLSFNAMELEN + nRes * 8) then fault
  else mret tt.

Definition xdr_shortLsInfo (r : shortLsInfo) : xdr shortLsInfo :=
  nRes' ← xdr_int (nRes r);
  nTypes' ← xdr_int (nTypes r);
  nModels' ← xdr_int (nModels r);
  _ ← on_decode (allocate nRes' nTypes' nModels') tt;
  _ ← on_decode (if (MAXTYPES <? nTypes') || (MAXMODELS <? nModels') then fault else mret tt) tt;
  resName0 ← calloc_all nRes' [] (resName r);
  resName' ← xdr_vector (xdr_string MAXLSFNAMELEN MAXLSFNAMELEN) nRes' resName0;
  hostTypes' ← xdr_table (xdr_string MAXLSFNAMELEN MAXLSFNAMELEN) MAXTYPES [] nTypes' (hostTypes r);
  hostModels' ← xdr_table (xdr_string MAXLSFNAMELEN MAXLSFNAMELEN) MAXMODELS [] nModels' (hostModels r);
  cpuFactors' ← xdr_table xdr_float MAXMODELS 0 nModels' (cpuFactors r);
  mret (mk nRes' resName' nTypes' hostTypes' nModels' hostModels' cpuFactors').

Definition wf_shortLsInfo (r : shortLsInfo) : Prop :=
  counts (nRes r) (resName r) /\ nRes r < 2 ^ 25 /\ counts (nTypes r) (hostTypes r) /\ nTypes r <= MAXTYPES /\
  counts (nModels r) (hostModels r) /\ nModels r <= MAXMODELS /\ nModels r = Z.of_nat (length (cpuFactors r)) /\
  Forall (chars MAXLSFNAMELEN) (resName r) /\ Forall (chars MAXLSFNAMELEN) (hostTypes r) /\
  Forall (chars MAXLSFNAMELEN) (hostModels r) /\ Forall uint32 (cpuFactors r).

Lemma names_allocated n t m : 0 <= n < 2 ^ 25 -> 0 <= t <= MAXTYPES -> 0 <= m <= MAXMODELS -> allocate n t m = mret tt.
Proof.
  unfold MAXTYPES, MAXMODELS. intros. unfold allocate, block_size, MAXLSFNAMELEN.
  rewrite (wrap32_id (n + t + m)), wrap32_id by (unfold int32; lia). rewrite Z.eqb_refl.
  repeat match goal with |- context [?a <? ?b] => destruct (Z.ltb_spec a b); [lia|] end. done.
Qed.

Lemma transfers_shortLsInfo r : wf_shortLsInfo r -> transfers xdr_shortLsInfo r.
Proof.
  destruct r as [n rs t ts m ms fs]. intros H. unfold wf_shortLsInfo in H. cbn in H. fields.
  eexists. intros r0. unfold xdr_shortLsInfo. do 3 xdr_step. cbn [nRes nTypes nModels].
  rewrite names_allocated by lia. eapply codec_bind_nil; [by apply codec_on_decode|]. cbv beta.
  eapply codec_bind_nil; [apply codec_on_decode; destruct (Z.ltb_spec MAXTYPES t), (Z.ltb_spec MAXMODELS m); done || lia|].
  repeat xdr_step.
Qed.
End ShortLsInfo.
#[export] Instance wire_shortLsInfo : Wire ShortLsInfo.xdr_shortLsInfo := { wf_wire := ShortLsInfo.wf_shortLsInfo; wire_transfers := ShortLsInfo.transfers_shortLsInfo }.

Module LimLock.
Record limLock := mk {
  uid : Z; on : Z; time : Z; lsfUserName : cstr }.

Definition xdr_limLock (r : limLock) : xdr limLock :=
  on' ← xdr_int (on r);
  time' ← xdr_time_t (time r);
  uid' ← xdr_int (uid r);
  lsfUserName' ← xdr_string MAXLSFNAMELEN MAXLSFNAMELEN (lsfUserName r);
  mret (mk uid' on' time' lsfUserName').

Definition wf_limLock (r : limLock) : Prop :=
  Forall int32 [uid r; on r; time r] /\ Forall (chars MAXLSFNAMELEN) [lsfUserName r].

Lemma transfers_limLock r : wf_limLock r -> transfers xdr_limLock r.
Proof.
  destruct r. intros H. unfold wf_limLock in H. cbn in H. fields.
  eexists. intros r0. unfold xdr_limLock. repeat xdr_step.
Qed.
End LimLock.
#[export] Instance wire_limLock : Wire LimLock.xdr_limLock := { wf_wire := LimLock.wf_limLock; wire_transfers := LimLock.transfers_limLock }.

Module ResItem.
Record resItem := mk {
  name : cstr; des : cstr; valueType : Z; orderType : Z; flags : Z; interval : Z }.

(** What the decoder finds in an array of its own. *)
Definition target : resItem :=
  mk [] [] 0 0 0 0.

Definition xdr_resItem (r : resItem) : xdr resItem :=
  name' ← xdr_string MAXLSFNAMELEN MAXLSFNAMELEN (name r);
  des' ← xdr_string MAXRESDESLEN MAXRESDESLEN (des r);
  valueType' ← xdr_enum (valueType r);
  orderType' ← xdr_enum (orderType r);
  flags' ← xdr_int (flags r);
  interval' ← xdr_int (interval r);
  mret (mk name' des' valueType' orderType' flags' interval').

Definition wf_resItem (r : resItem) : Prop :=
  Forall (chars MAXLSFNAMELEN) [name r] /\ Forall (chars MAXRESDESLEN) [des r] /\ Forall int32 [valueType r;
  orderType r; flags r; interval r].

Lemma transfers_resItem r : wf_resItem r -> transfers xdr_resItem r.
Proof.
  destruct r. intros H. unfold wf_resItem in H. cbn in H. fields.
  eexists. intros r0. unfold xdr_resItem. repeat xdr_step.
Qed.
End ResItem.
#[export] Instance wire_resItem : Wire ResItem.xdr_resItem := { wf_wire := ResItem.wf_resItem; wire_transfers := ResItem.transfers_resItem }.

Module LsInfo.
Record lsInfo := mk {
  nRes : Z; resTable : list ResItem.resItem; nTypes : Z; hostTypes : list cstr; nModels : Z;
  hostModels : list cstr; hostArchs : list cstr; modelRefs : list Z; cpuFactor : list Z; numIndx : Z;
  numUsrIndx : Z }.

Definition xdr_lsInfo (r : lsInfo) : xdr lsInfo :=
  nRes' ← xdr_int (nRes r);
  resTable0 ← calloc_all nRes' ResItem.target (resTable r);
  resTable' ← xdr_vector (xdr_arrayElement ResItem.xdr_resItem) nRes' resTable0;
  nTypes' ← xdr_int (nTypes r);
  hostTypes' ← xdr_table (xdr_string MAXLSFNAMELEN MAXLSFNAMELEN) MAXTYPES [] nTypes' (hostTypes r);
  nModels' ← xdr_int (nModels r);
  hostModels' ← xdr_table (xdr_string MAXLSFNAMELEN MAXLSFNAMELEN) MAXMODELS [] nModels' (hostModels r);
  numUsrIndx' ← xdr_int (numUsrIndx r);
  numIndx' ← xdr_int (numIndx r);
  cpuFactor' ← xdr_table xdr_float MAXMODELS 0 nModels' (cpuFactor r);
  hostArchs' ← xdr_table (xdr_string MAXLSFNAMELEN MAXLSFNAMELEN) MAXMODELS [] nModels' (hostArchs r);
  modelRefs' ← xdr_table xdr_int MAXMODELS 0 nModels' (modelRefs r);
  mret (mk nRes' resTable' nTypes' hostTypes' nModels' hostModels' hostArchs' modelRefs' cpuFactor' numIndx'
            numUsrIndx').

Definition wf_lsInfo (r : lsInfo) : Prop :=
  Forall int32 [numIndx r; numUsrIndx r] /\ counts (nRes r) (resTable r) /\ Forall ResItem.wf_resItem
  (resTable r) /\ counts (nTypes r) (hostTypes r) /\ (nTypes r) <= MAXTYPES /\ Forall (chars MAXLSFNAMELEN)
  (hostTypes r) /\ counts (nModels r) (hostModels r) /\ (nModels r) <= MAXMODELS /\ Forall (chars
  MAXLSFNAMELEN) (hostModels r) /\ (nModels r) = Z.of_nat (length (hostArchs r)) /\ Forall (chars
  MAXLSFNAMELEN) (hostArchs r) /\ (nModels r) = Z.of_nat (length (modelRefs r)) /\ Forall int32 (modelRefs
  r) /\ (nModels r) = Z.of_nat (length (cpuFactor r)) /\ Forall uint32 (cpuFactor r).

Lemma transfers_lsInfo r : wf_lsInfo r -> transfers xdr_lsInfo r.
Proof.
  destruct r. intros H. unfold wf_lsInfo in H. cbn in H. fields.
  edestruct (many_elements ResItem.xdr_resItem) as [ws Hws]; [apply ResItem.transfers_resItem|eassumption..|].
  eexists. intros r0. unfold xdr_lsInfo. repeat xdr_step.
Qed.
End LsInfo.
#[export] Instance wire_lsInfo : Wire LsInfo.xdr_lsInfo := { wf_wire := LsInfo.wf_lsInfo; wire_transfers := LsInfo.transfers_lsInfo }.

Module MasterInfo.
Record masterInfo := mk {
  hostName : cstr; addr : Z; portno : Z }.

Definition xdr_masterInfo (r : masterInfo) : xdr masterInfo :=
  hostName' ← xdr_string MAXHOSTNAMELEN MAXHOSTNAMELEN (hostName r);
  addr' ← xdr_address (addr r);
  portno' ← xdr_portno (portno r);
  mret (mk hostName' addr' portno').

Definition wf_masterInfo (r : masterInfo) : Prop :=
  Forall (chars MAXHOSTNAMELEN) [hostName r] /\ Forall uint32 [addr r] /\ Forall uint16 [portno r].

Lemma transfers_masterInfo r : wf_masterInfo r -> transfers xdr_masterInfo r.
Proof.
  destruct r. intros H. unfold wf_masterInfo in H. cbn in H. fields.
  eexists. intros r0. unfold xdr_masterInfo. repeat xdr_step.
Qed.
End MasterInfo.
#[export] Instance wire_masterInfo : Wire MasterInfo.xdr_masterInfo := { wf_wire := MasterInfo.wf_masterInfo; wire_transfers := MasterInfo.transfers_masterInfo }.

Module ClusterInfoReq.
Record clusterInfoReq := mk {
  resReq : cstr; listsize : Z; clusters : list cstr; options : Z }.

Definition xdr_clusterInfoReq (r : clusterInfoReq) : xdr clusterInfoReq :=
  resReq' ← xdr_string MAXLINELEN MAXLINELEN (resReq r);
  listsize' ← xdr_int (listsize r);
  options' ← xdr_int (options r);
  clusters0 ← calloc_some listsize' [] (clusters r);
  clusters' ← xdr_array_string clusters0 MAXLSFNAMELEN listsize';
  mret (mk resReq' listsize' clusters' options').

Definition wf_clusterInfoReq (r : clusterInfoReq) : Prop :=
  Forall (chars MAXLINELEN) [resReq r] /\ Forall int32 [options r] /\ counts (listsize r) (clusters r) /\
  Forall (str MAXLSFNAMELEN) (clusters r).

Lemma transfers_clusterInfoReq r : wf_clusterInfoReq r -> transfers xdr_clusterInfoReq r.
Proof.
  destruct r. intros H. unfold wf_clusterInfoReq in H. cbn in H. fields.
  eexists. intros r0. unfold xdr_clusterInfoReq. repeat xdr_step.
Qed.
End ClusterInfoReq.
#[export] Instance wire_clusterInfoReq : Wire ClusterInfoReq.xdr_clusterInfoReq := { wf_wire := ClusterInfoReq.wf_clusterInfoReq; wire_transfers := ClusterInfoReq.transfers_clusterInfoReq }.

(** Names and numbers of the administrators, in step. *)
Definition xdr_admins (n : Z) (admins : list cstr) (adminIds : list Z) : xdr (list cstr * list Z) :=
  '(admins0, adminIds0) ← on_decode (mret (replicate (Z.to_nat n) [], replicate (Z.to_nat n) 0)) (admins, adminIds);
  xdr_zip xdr_var_string xdr_int (Z.to_nat n) admins0 adminIds0.

Lemma codec_admins n u v u0 v0 : n = Z.of_nat (length u) -> length v = Z.to_nat n -> Forall vstr u -> Forall int32 v ->
  codec (xdr_admins n u v) (xdr_admins n u0 v0) (u, v) (u, v) (wzip wstr be32 u v).
Proof.
  intros -> Hv Hu Hi. unfold xdr_admins. eapply codec_bind_nil; [by apply codec_on_decode|]. cbv beta iota. rewrite Nat2Z.id in *.
  apply (codec_zip_n _ _ vstr int32); rewrite ?length_replicate; try done; intros x Hx x0; [by apply codec_var_string|by apply codec_int].
Qed.
#[export] Hint Resolve codec_admins : xdr.

Module ShortCInfo.
Record shortCInfo := mk {
  clName : cstr; masterName : cstr; managerName : cstr; managerId : Z; status : Z; resClass : Z;
  typeClass : Z; modelClass : Z; numIndx : Z; numUsrIndx : Z; usrIndxClass : Z; numServers : Z;
  numClients : Z; nAdmins : Z; adminIds : list Z; admins : list cstr; nRes : Z; resBitMaps : list Z;
  nTypes : Z; hostTypeBitMaps : list Z; nModels : Z; hostModelBitMaps : list Z }.

(** What the decoder finds in an array of its own. *)
Definition target : shortCInfo :=
  mk [] [] [] 0 0 0 0 0 0 0 0 0 0 0 [] [] 0 [] 0 [] 0 [].

Definition xdr_shortCInfo (r : shortCInfo) : xdr shortCInfo :=
  clName' ← xdr_string MAXLSFNAMELEN MAXLSFNAMELEN (clName r);
  masterName' ← xdr_string MAXHOSTNAMELEN MAXHOSTNAMELEN (masterName r);
  managerName' ← xdr_string MAXLSFNAMELEN MAXLSFNAMELEN (managerName r);
  status' ← xdr_int (status r);
  numServers' ← xdr_int (numServers r);
  numClients' ← xdr_int (numClients r);
  managerId' ← xdr_int (managerId r);
  resClass' ← xdr_int (resClass r);
  typeClass' ← xdr_int (typeClass r);
  modelClass' ← xdr_int (modelClass r);
  numIndx' ← xdr_int (numIndx r);
  numUsrIndx' ← xdr_int (numUsrIndx r);
  usrIndxClass' ← xdr_int (usrIndxClass r);
  nAdmins' ← xdr_int (nAdmins r);
  '(admins', adminIds') ← xdr_admins nAdmins' (admins r) (adminIds r);
  nRes' ← xdr_int (nRes r);
  resBitMaps' ← xdr_bitmap nRes' (resBitMaps r);
  nTypes' ← xdr_int (nTypes r);
  hostTypeBitMaps' ← xdr_bitmap nTypes' (hostTypeBitMaps r);
  nModels' ← xdr_int (nModels r);
  hostModelBitMaps' ← xdr_bitmap nModels' (hostModelBitMaps r);
  mret (mk clName' masterName' managerName' managerId' status' resClass' typeClass' modelClass' numIndx'
            numUsrIndx' usrIndxClass' numServers' numClients' nAdmins' adminIds' admins' nRes'
            resBitMaps' nTypes' hostTypeBitMaps' nModels' hostModelBitMaps').

Definition wf_shortCInfo (r : shortCInfo) : Prop :=
  Forall (chars MAXLSFNAMELEN) [clName r; managerName r] /\ Forall (chars MAXHOSTNAMELEN) [masterName r] /\
  Forall int32 [managerId r; status r; resClass r; typeClass r; modelClass r; numIndx r; numUsrIndx r;
  usrIndxClass r; numServers r; numClients r; nRes r; nTypes r; nModels r] /\ length (adminIds r) = Z.to_nat
  (nAdmins r) /\ Forall int32 (adminIds r) /\ counts (nAdmins r) (admins r) /\ Forall vstr (admins r) /\
  wf_bitmap (nRes r) (resBitMaps r) /\ wf_bitmap (nTypes r) (hostTypeBitMaps r) /\ wf_bitmap (nModels r)
  (hostModelBitMaps r).

Lemma transfers_shortCInfo r : wf_shortCInfo r -> transfers xdr_shortCInfo r.
Proof.
  destruct r. intros H. unfold wf_shortCInfo in H. cbn in H. fields.
  eexists. intros r0. unfold xdr_shortCInfo. repeat xdr_step.
Qed.
End ShortCInfo.
#[export] Instance wire_shortCInfo : Wire ShortCInfo.xdr_shortCInfo := { wf_wire := ShortCInfo.wf_shortCInfo; wire_transfers := ShortCInfo.transfers_shortCInfo }.

(** The names of the load indices, if there are any. *)
Definition xdr_indx_names (numIndx : Z) (l : list cstr) : xdr (list cstr) :=
  l0 ← calloc_pos numIndx [] l;
  if 0 <? numIndx then xdr_array_string l0 MAXLSFNAMELEN numIndx else mret l0.

(** With no index the array of the receiver stays as it is. *)
Lemma codec_indx_names n l l0 : 0 < n -> n = Z.of_nat (length l) -> Forall (str MAXLSFNAMELEN) l ->
  codec (xdr_indx_names n l) (xdr_indx_names n l0) l l (concat (wstr <$> l)).
Proof.
  intros H0 Hn Hl. unfold xdr_indx_names, calloc_pos. destruct (Z.ltb_spec 0 n); [|lia].
  eapply codec_bind_nil; [apply codec_calloc; lia|]. apply many_lsf_names; [done..|]. by rewrite length_replicate.
Qed.
#[export] Hint Resolve codec_indx_names : xdr.

Module CInfo.
Record cInfo := mk {
  clName : cstr; masterName : cstr; managerName : cstr; managerId : Z; status : Z; resClass : Z;
  typeClass : Z; modelClass : Z; numIndx : Z; numUsrIndx : Z; usrIndxClass : Z; numServers : Z;
  numClients : Z; nAdmins : Z; adminIds : list Z; admins : list cstr; nRes : Z; resBitMaps : list Z;
  loadIndxNames : list cstr; shortInfo : ShortLsInfo.shortLsInfo; nTypes : Z; hostTypeBitMaps : list Z;
  nModels : Z; hostModelBitMaps : list Z }.

Definition xdr_cInfo (r : cInfo) : xdr cInfo :=
  clName' ← xdr_string MAXLSFNAMELEN MAXLSFNAMELEN (clName r);
  masterName' ← xdr_string MAXHOSTNAMELEN MAXHOSTNAMELEN (masterName r);
  managerName' ← xdr_string MAXLSFNAMELEN MAXLSFNAMELEN (managerName r);
  status' ← xdr_int (status r);
  numServers' ← xdr_int (numServers r);
  numClients' ← xdr_int (numClients r);
  managerId' ← xdr_int (managerId r);
  resClass' ← xdr_int (resClass r);
  typeClass' ← xdr_int (typeClass r);
  modelClass' ← xdr_int (modelClass r);
  numIndx' ← xdr_int (numIndx r);
  numUsrIndx' ← xdr_int (numUsrIndx r);
  usrIndxClass' ← xdr_int (usrIndxClass r);
  nAdmins' ← xdr_int (nAdmins r);
  '(admins', adminIds') ← xdr_admins nAdmins' (admins r) (adminIds r);
  nRes' ← xdr_int (nRes r);
  resBitMaps' ← xdr_bitmap nRes' (resBitMaps r);
  shortInfo' ← ShortLsInfo.xdr_shortLsInfo (shortInfo r);
  loadIndxNames' ← xdr_indx_names numIndx' (loadIndxNames r);
  nTypes' ← xdr_int (nTypes r);
  hostTypeBitMaps' ← xdr_bitmap nTypes' (hostTypeBitMaps r);
  nModels' ← xdr_int (nModels r);
  hostModelBitMaps' ← xdr_bitmap nModels' (hostModelBitMaps r);
  mret (mk clName' masterName' managerName' managerId' status' resClass' typeClass' modelClass' numIndx'
            numUsrIndx' usrIndxClass' numServers' numClients' nAdmins' adminIds' admins' nRes'
            resBitMaps' loadIndxNames' shortInfo' nTypes' hostTypeBitMaps' nModels' hostModelBitMaps').

Definition wf_cInfo (r : cInfo) : Prop :=
  Forall (chars MAXLSFNAMELEN) [clName r; managerName r] /\ Forall (chars MAXHOSTNAMELEN) [masterName r] /\
  Forall int32 [managerId r; status r; resClass r; typeClass r; modelClass r; numIndx r; numUsrIndx r;
  usrIndxClass r; numServers r; numClients r; nRes r; nTypes r; nModels r] /\ length (adminIds r) = Z.to_nat
  (nAdmins r) /\ Forall int32 (adminIds r) /\ counts (nAdmins r) (admins r) /\ Forall vstr (admins r) /\
  wf_bitmap (nRes r) (resBitMaps r) /\ 0 < numIndx r /\ numIndx r = Z.of_nat (length (loadIndxNames r)) /\ Forall
  (str MAXLSFNAMELEN) (loadIndxNames r) /\ ShortLsInfo.wf_shortLsInfo (shortInfo r) /\ wf_bitmap (nTypes r)
  (hostTypeBitMaps r) /\ wf_bitmap (nModels r) (hostModelBitMaps r).

Lemma transfers_cInfo r : wf_cInfo r -> transfers xdr_cInfo r.
Proof.
  destruct r. intros H. unfold wf_cInfo in H. cbn in H. fields.
  match goal with H : ShortLsInfo.wf_shortLsInfo _ |- _ => part (ShortLsInfo.transfers_shortLsInfo _ H) end.
  eexists. intros r0. unfold xdr_cInfo. repeat xdr_step.
Qed.
End CInfo.
#[export] Instance wire_cInfo : Wire CInfo.xdr_cInfo := { wf_wire := CInfo.wf_cInfo; wire_transfers := CInfo.transfers_cInfo }.

Module ClusterInfoReply.
(** The tables of the last reply, which the decoder frees first, are left out. *)
Record clusterInfoReply := mk {
  nClus : Z; shortLsInfo : ShortLsInfo.shortLsInfo; clusterMatrix : list ShortCInfo.shortCInfo }.

Definition xdr_clusterInfoReply (r : clusterInfoReply) : xdr clusterInfoReply :=
  nClus' ← xdr_int (nClus r);
  shortLsInfo' ← xdr_arrayElement ShortLsInfo.xdr_shortLsInfo (shortLsInfo r);
  clusterMatrix0 ← calloc_all nClus' ShortCInfo.target (clusterMatrix r);
  clusterMatrix' ← xdr_vector (xdr_arrayElement ShortCInfo.xdr_shortCInfo) nClus' clusterMatrix0;
  mret (mk nClus' shortLsInfo' clusterMatrix').

Definition wf_clusterInfoReply (r : clusterInfoReply) : Prop :=
  ShortLsInfo.wf_shortLsInfo (shortLsInfo r) /\ counts (nClus r) (clusterMatrix r) /\ Forall
  ShortCInfo.wf_shortCInfo (clusterMatrix r).

Lemma transfers_clusterInfoReply r : wf_clusterInfoReply r -> transfers xdr_clusterInfoReply r.
Proof.
  destruct r. intros H. unfold wf_clusterInfoReply in H. cbn in H. fields.
  match goal with H : ShortLsInfo.wf_shortLsInfo _ |- _ => part (ShortLsInfo.transfers_shortLsInfo _ H) end.
  edestruct (many_elements ShortCInfo.xdr_shortCInfo) as [ws Hws]; [apply ShortCInfo.transfers_shortCInfo|eassumption..|].
  eexists. intros r0. unfold xdr_clusterInfoReply. repeat xdr_step.
Qed.
End ClusterInfoReply.
#[export] Instance wire_clusterInfoReply : Wire ClusterInfoReply.xdr_clusterInfoReply := { wf_wire := ClusterInfoReply.wf_clusterInfoReply; wire_transfers := ClusterInfoReply.transfers_clusterInfoReply }.

Module ResourceInfoReq.
Record resourceInfoReq := mk {
  numResourceNames : Z; resourceNames : list cstr; hostName : cstr; options : Z }.

Definition xdr_resourceInfoReq (r : resourceInfoReq) : xdr resourceInfoReq :=
  numResourceNames' ← xdr_int (numResourceNames r);
  options' ← xdr_int (options r);
  resourceNames0 ← calloc_pos numResourceNames' [] (resourceNames r);
  resourceNames' ← xdr_vector xdr_var_string numResourceNames' resourceNames0;
  hostName' ← xdr_var_string (hostName r);
  mret (mk numResourceNames' resourceNames' hostName' options').

Definition wf_resourceInfoReq (r : resourceInfoReq) : Prop :=
  Forall vstr [hostName r] /\ Forall int32 [options r] /\ counts (numResourceNames r) (resourceNames r) /\
  Forall vstr (resourceNames r).

Lemma transfers_resourceInfoReq r : wf_resourceInfoReq r -> transfers xdr_resourceInfoReq r.
Proof.
  destruct r. intros H. unfold wf_resourceInfoReq in H. cbn in H. fields.
  eexists. intros r0. unfold xdr_resourceInfoReq. repeat xdr_step.
Qed.
End ResourceInfoReq.
#[export] Instance wire_resourceInfoReq : Wire ResourceInfoReq.xdr_resourceInfoReq := { wf_wire := ResourceInfoReq.wf_resourceInfoReq; wire_transfers := ResourceInfoReq.transfers_resourceInfoReq }.

Module LsInstance.
Record lsSharedResourceInstance := mk {
  value : cstr; nHosts : Z; hostList : list cstr }.

(** What the decoder finds in an array of its own. *)
Definition target : lsSharedResourceInstance :=
  mk [] 0 [].

Definition xdr_lsResourceInstance (r : lsSharedResourceInstance) : xdr lsSharedResourceInstance :=
  value' ← xdr_var_string (value r);
  nHosts' ← xdr_int (nHosts r);
  hostList0 ← calloc_pos nHosts' [] (hostList r);
  hostList' ← xdr_array_string hostList0 MAXHOSTNAMELEN nHosts';
  mret (mk value' nHosts' hostList').

Definition wf_lsSharedResourceInstance (r : lsSharedResourceInstance) : Prop :=
  Forall vstr [value r] /\ counts (nHosts r) (hostList r) /\ Forall (str MAXHOSTNAMELEN) (hostList r).

Lemma transfers_lsSharedResourceInstance r : wf_lsSharedResourceInstance r -> transfers xdr_lsResourceInstance r.
Proof.
  destruct r. intros H. unfold wf_lsSharedResourceInstance in H. cbn in H. fields.
  eexists. intros r0. unfold xdr_lsResourceInstance. repeat xdr_step.
Qed.
End LsInstance.
#[export] Instance wire_lsSharedResourceInstance : Wire LsInstance.xdr_lsResourceInstance := { wf_wire := LsInstance.wf_lsSharedResourceInstance; wire_transfers := LsInstance.transfers_lsSharedResourceInstance }.

Module LsResource.
Record lsSharedResourceInfo := mk {
  resourceName : cstr; nInstances : Z; instances : list LsInstance.lsSharedResourceInstance }.

(** What the decoder finds in an array of its own. *)
Definition target : lsSharedResourceInfo :=
  mk [] 0 [].

Definition xdr_lsResourceInfo (r : lsSharedResourceInfo) : xdr lsSharedResourceInfo :=
  resourceName' ← xdr_var_string (resourceName r);
  nInstances' ← xdr_int (nInstances r);
  instances0 ← calloc_pos nInstances' LsInstance.target (instances r);
  instances' ← xdr_vector (xdr_arrayElement LsInstance.xdr_lsResourceInstance) nInstances' instances0;
  mret (mk resourceName' nInstances' instances').

Definition wf_lsSharedResourceInfo (r : lsSharedResourceInfo) : Prop :=
  Forall vstr [resourceName r] /\ counts (nInstances r) (instances r) /\ Forall
  LsInstance.wf_lsSharedResourceInstance (instances r).

Lemma transfers_lsSharedResourceInfo r : wf_lsSharedResourceInfo r -> transfers xdr_lsResourceInfo r.
Proof.
  destruct r. intros H. unfold wf_lsSharedResourceInfo in H. cbn in H. fields.
  edestruct (many_elements LsInstance.xdr_lsResourceInstance) as [ws Hws]; [apply LsInstance.transfers_lsSharedResourceInstance|eassumption..|].
  eexists. intros r0. unfold xdr_lsResourceInfo. repeat xdr_step.
Qed.
End LsResource.
#[export] Instance wire_lsSharedResourceInfo : Wire LsResource.xdr_lsResourceInfo := { wf_wire := LsResource.wf_lsSharedResourceInfo; wire_transfers := LsResource.transfers_lsSharedResourceInfo }.

Module ResourceInfoReply.
Record resourceInfoReply := mk {
  numResources : Z; resources : list LsResource.lsSharedResourceInfo; badResource : Z }.

Definition xdr_resourceInfoReply (r : resourceInfoReply) : xdr resourceInfoReply :=
  numResources' ← xdr_int (numResources r);
  badResource' ← xdr_int (badResource r);
  resources0 ← calloc_pos numResources' LsResource.target (resources r);
  resources' ← xdr_vector (xdr_arrayElement LsResource.xdr_lsResourceInfo) numResources' resources0;
  mret (mk numResources' resources' badResource').

Definition wf_resourceInfoReply (r : resourceInfoReply) : Prop :=
  Forall int32 [badResource r] /\ counts (numResources r) (resources r) /\ Forall
  LsResource.wf_lsSharedResourceInfo (resources r).

Lemma transfers_resourceInfoReply r : wf_resourceInfoReply r -> transfers xdr_resourceInfoReply r.
Proof.
  destruct r. intros H. unfold wf_resourceInfoReply in H. cbn in H. fields.
  edestruct (many_elements LsResource.xdr_lsResourceInfo) as [ws Hws]; [apply LsResource.transfers_lsSharedResourceInfo|eassumption..|].
  eexists. intros r0. unfold xdr_resourceInfoReply. repeat xdr_step.
Qed.
End ResourceInfoReply.
#[export] Instance wire_resourceInfoReply : Wire ResourceInfoReply.xdr_resourceInfoReply := { wf_wire := ResourceInfoReply.wf_resourceInfoReply; wire_transfers := ResourceInfoReply.transfers_resourceInfoReply }.

Module HostEntry.
Record hostEntry := mk {
  hostName : cstr; hostModel : cstr; hostType : cstr; rcv : Z; nDisks : Z; cpuFactor : Z; numIndx : Z;
  busyThreshold : list Z; nRes : Z; resList : list cstr; rexPriority : Z; window : cstr }.

Definition xdr_hostEntry (r : hostEntry) : xdr hostEntry :=
  hostName' ← xdr_string MAXHOSTNAMELEN MAXHOSTNAMELEN (hostName r);
  hostModel' ← xdr_string MAXLSFNAMELEN MAXLSFNAMELEN (hostModel r);
  hostType' ← xdr_string MAXLSFNAMELEN MAXLSFNAMELEN (hostType r);
  rcv' ← xdr_int (rcv r);
  nDisks' ← xdr_int (nDisks r);
  cpuFactor' ← xdr_float (cpuFactor r);
  numIndx' ← xdr_int (numIndx r);
  busyThreshold0 ← calloc_pos numIndx' 0 (busyThreshold r);
  busyThreshold' ← xdr_vector xdr_float numIndx' busyThreshold0;
  nRes' ← xdr_int (nRes r);
  resList0 ← calloc_pos nRes' [] (resList r);
  resList' ← xdr_vector xdr_var_string nRes' resList0;
  rexPriority' ← xdr_int (rexPriority r);
  window' ← xdr_var_string (window r);
  mret (mk hostName' hostModel' hostType' rcv' nDisks' cpuFactor' numIndx' busyThreshold' nRes' resList'
            rexPriority' window').

Definition wf_hostEntry (r : hostEntry) : Prop :=
  Forall (chars MAXHOSTNAMELEN) [hostName r] /\ Forall (chars MAXLSFNAMELEN) [hostModel r; hostType r] /\
  Forall int32 [rcv r; nDisks r; rexPriority r] /\ Forall uint32 [cpuFactor r] /\ Forall vstr [window r] /\
  counts (numIndx r) (busyThreshold r) /\ Forall uint32 (busyThreshold r) /\ counts (nRes r) (resList r) /\
  Forall vstr (resList r).

Lemma transfers_hostEntry r : wf_hostEntry r -> transfers xdr_hostEntry r.
Proof.
  destruct r. intros H. unfold wf_hostEntry in H. cbn in H. fields.
  eexists. intros r0. unfold xdr_hostEntry. repeat xdr_step.
Qed.
End HostEntry.
#[export] Instance wire_hostEntry : Wire HostEntry.xdr_hostEntry := { wf_wire := HostEntry.wf_hostEntry; wire_transfers := HostEntry.transfers_hostEntry }.

(** The array of the receiver is that of the caller in lim.conf.c. *)
Definition xdr_hostName (hostname : cstr) : xdr cstr := xdr_string MAXHOSTNAMELEN MAXHOSTNAMELEN hostname.

Lemma transfers_hostName s : chars MAXHOSTNAMELEN s -> transfers xdr_hostName s.
Proof. intros H. eexists. intros s0. by apply codec_chars. Qed.
#[export] Instance wire_hostName : Wire xdr_hostName := { wf_wire := chars MAXHOSTNAMELEN; wire_transfers := transfers_hostName }.
