(* ===== verification/XdrHosts.v ===== *)
(** * Load and description of hosts (lsf/lib/lib.xdrlim.c)

    The replies of the load information manager with one entry for each host.  The
    decoder puts the parts of all entries into one block of memory and keeps parts of
    the last reply for the next one; what it keeps is an argument here. *)
From stdpp Require Import base list.
From Stdlib Require Import ZArith Ascii Lia.
From S2P Require Import Prelude JobId Xdr XdrLib XdrCarry XdrBatch XdrMsg XdrRequest XdrReply XdrInfo XdrLim.
Local Open Scope Z_scope.

(** A block whose size is computed with [int]s.  [malloc] of a negative size fails; when
    a count is negative or the size has overflowed, the parts lie outside the block. *)
Definition allocate (size true_size : Z) (counts_ok : bool) : xdr unit :=
  if size <? 0 then refuse else if counts_ok && (size =? true_size) then mret tt else fault.

Lemma allocate_ok size ok : 0 <= size -> int32 size -> ok = true -> allocate (wrap32 size) size ok = mret tt.
Proof. intros H Hi ->. unfold allocate. rewrite wrap32_id, Z.eqb_refl by done. by destruct (Z.ltb_spec size 0); [lia|]. Qed.

(** Elements that the two sides end up with differently. *)
Lemma codec_elems_map {A} (P : A -> Prop) (p : A -> xdr A) (f g : A -> A) l :
  Forall (fun v => exists w, forall v0, P v0 -> codec (p v) (p v0) (f v) (g v) w) l ->
  exists w, forall l0, Forall P l0 -> length l0 = length l ->
  codec (xdr_elems p (length l) l) (xdr_elems p (length l) l0) (f <$> l) (g <$> l) w.
Proof.
  induction 1 as [|x l [w Hw] _ [ws IH]].
  - exists []. intros [|]; [|done]. intros. apply codec_ret.
  - exists (w ++ ws ++ []). intros [|y l0] HP Hl; [done|]. apply Forall_cons in HP as [HP1 HP2]. cbn.
    eapply codec_bind; [by apply Hw|]. eapply codec_bind; [apply IH; [done|cbn in Hl; lia]|apply codec_ret].
Qed.

(** Bytes on which a decoder leaves its objects. *)
Definition faults {A} (n : xdr A) (w : cstr) : Prop :=
  forall a c, fits (a ++ w ++ c) -> n (mkXDR XDR_DECODE (a ++ w ++ c) (length a)) = Fault.

Lemma faults_bind {A B} (m : xdr A) (f : A -> xdr B) v w w' : decodes m v w -> faults (f v) w' -> faults (m ≫= f) (w ++ w').
Proof.
  intros [D _] H a c F. unfold mbind, xdr_bind. rewrite <- (app_assoc w), D by sizes. rewrite (app_assoc a w). apply H. sizes.
Qed.

Lemma faults_here {A B} (m : xdr A) (v : A) (f : A -> xdr B) w : m = fault -> faults (on_decode m v ≫= f) w.
Proof. intros -> a c F. done. Qed.

Lemma faults_pass {A B} (m : xdr A) (u v : A) (f : A -> xdr B) w : m = mret u -> faults (f u) w -> faults (on_decode m v ≫= f) w.
Proof. intros -> H a c F. apply (H a c F). Qed.

(** ** Load of hosts *)

Module HostLoad.
Record hostLoad := mk { hostName : cstr; status : list Z; li : list Z }.

Definition xdr_hostLoad (nIndicies : Z) (r : hostLoad) : xdr hostLoad :=
  hostName' ← xdr_string MAXHOSTNAMELEN MAXHOSTNAMELEN (hostName r);
  status' ← xdr_vector xdr_int (1 + GET_INTNUM nIndicies) (status r);
  li' ← xdr_vector xdr_float nIndicies (li r);
  mret (mk hostName' status' li').

Definition target (k : Z) : hostLoad := mk [] (replicate (Z.to_nat (1 + GET_INTNUM k)) 0) (replicate (Z.to_nat k) 0).

Definition wf_hostLoad (k : Z) (r : hostLoad) : Prop :=
  chars MAXHOSTNAMELEN (hostName r) /\ 1 + GET_INTNUM k = Z.of_nat (length (status r)) /\ Forall int32 (status r) /\
  k = Z.of_nat (length (li r)) /\ Forall uint32 (li r).

(** A target with arrays for [k] load indices. *)
Definition shaped (k : Z) (r : hostLoad) : Prop :=
  length (status r) = Z.to_nat (1 + GET_INTNUM k) /\ length (li r) = Z.to_nat k.

Lemma carries_hostLoad k r : wf_hostLoad k r -> exists w, carries_if (shaped k) (xdr_hostLoad k) r w.
Proof.
  destruct r. intros H. unfold wf_hostLoad in H. cbn in H. fields. eexists. intros r0 S. unfold shaped in S. fields.
  unfold xdr_hostLoad. repeat xdr_step.
Qed.
End HostLoad.

Module LoadReply.
Record loadReply := mk { nEntry : Z; nIndex : Z; indicies : list cstr; loadMatrix : list HostLoad.hostLoad; flags : Z }.

(** [sizeof(struct hostLoad)] is 80. *)
Definition true_size (nEntry nIndex : Z) : Z :=
  ALIGNWORD_ (nEntry * 80) + ALIGNWORD_ ((nEntry + 1) * (nIndex * 4)) + ALIGNWORD_ (nIndex * MAXLSFNAMELEN)
  + nEntry * ALIGNWORD_ ((1 + GET_INTNUM nIndex) * 4).

(** [indicies]: the number of pointers in the array that the static struct of the caller
    has since its first reply.  The pointers to the names are stored in it, and NULL
    behind them. *)
Definition xdr_loadReply (kept : option Z) (r : loadReply) : xdr loadReply :=
  nEntry' ← xdr_int (nEntry r);
  nIndex' ← xdr_int (nIndex r);
  let room := default (nIndex' + 1) kept in
  _ ← on_decode (allocate (wrap32 (true_size nEntry' nIndex')) (true_size nEntry' nIndex') ((0 <=? nEntry') && (0 <=? nIndex'))) tt;
  _ ← on_decode (if room <? nIndex' then fault else mret tt) tt;
  indicies0 ← calloc_all nIndex' [] (indicies r);
  indicies' ← xdr_vector (xdr_string MAXLSFNAMELEN MAXLSFNAMELEN) nIndex' indicies0;
  _ ← on_decode (if room <? nIndex' + 1 then fault else mret tt) tt;
  loadMatrix0 ← on_decode (mret (replicate (Z.to_nat nEntry') (HostLoad.target nIndex'))) (loadMatrix r);
  loadMatrix' ← xdr_vector (xdr_arrayElement (HostLoad.xdr_hostLoad nIndex')) nEntry' loadMatrix0;
  flags' ← xdr_int (flags r);
  mret (mk nEntry' nIndex' indicies' loadMatrix' flags').

(** The array after a reply. *)
Definition keeps (kept : option Z) (r : loadReply) : option Z := Some (default (nIndex r + 1) kept).

Definition wf_loadReply (r : loadReply) : Prop :=
  Forall int32 [flags r] /\ counts (nEntry r) (loadMatrix r) /\ counts (nIndex r) (indicies r) /\
  Forall (chars MAXLSFNAMELEN) (indicies r) /\ Forall (HostLoad.wf_hostLoad (nIndex r)) (loadMatrix r) /\
  int32 (true_size (nEntry r) (nIndex r)).

Lemma ALIGNWORD_nonneg z : 0 <= z -> 0 <= ALIGNWORD_ z.
Proof. intros H. unfold ALIGNWORD_. assert (0 <= Z.land z 0xfffffffc) by (apply Z.land_nonneg; auto). lia. Qed.

Lemma true_size_nonneg n k : 0 <= n -> 0 <= k -> 0 <= true_size n k.
Proof.
  intros Hn Hk. unfold true_size, MAXLSFNAMELEN. pose proof (HostDataReply.GET_INTNUM_pos k Hk).
  pose proof (ALIGNWORD_nonneg (n * 80)). pose proof (ALIGNWORD_nonneg ((n + 1) * (k * 4))).
  pose proof (ALIGNWORD_nonneg (k * 40)). pose proof (ALIGNWORD_nonneg ((1 + GET_INTNUM k) * 4)). nia.
Qed.

(** The encoder does not look at what the receiver keeps. *)
Lemma codec_loadReply r : wf_loadReply r -> exists w, forall kept' kept r0, nIndex r < default (nIndex r + 1) kept ->
  codec (xdr_loadReply kept' r) (xdr_loadReply kept r0) r r (be32 (nEntry r) ++ be32 (nIndex r) ++ concat (wstr <$> indicies r) ++ w).
Proof.
  destruct r as [n k names l f]. intros H. unfold wf_loadReply in H. cbn in H. fields.
  destruct (wires_if (HostLoad.shaped k) (xdr_arrayElement (HostLoad.xdr_hostLoad k)) l) as [ws Hw].
  { eapply Forall_impl; [done|]. intros h Hh. destruct (HostLoad.carries_hostLoad k h Hh) as [w Cw].
    exists (welem w). intros h0 Hs. by apply codec_arrayElement, Cw. }
  eexists. intros kept' kept r0 Hk. cbn in Hk. unfold xdr_loadReply. cbn [nEntry nIndex indicies loadMatrix flags]. do 2 xdr_step. cbv beta zeta.
  rewrite allocate_ok by (try apply true_size_nonneg; done || lia || (destruct (Z.leb_spec 0 n), (Z.leb_spec 0 k); done || lia)).
  eapply codec_bind_nil; [by apply codec_on_decode|]. cbv beta.
  eapply codec_bind_nil; [apply codec_on_decode; destruct (Z.ltb_spec (default (k + 1) kept) k); [lia|done]|]. cbv beta.
  xdr_step. cbv beta.
  eapply codec_bind_nil; [apply codec_on_decode; destruct (Z.ltb_spec (default (k + 1) kept) (k + 1)); [lia|done]|]. cbv beta.
  eapply codec_bind_nil; [by apply codec_on_decode|]. cbv beta.
  eapply codec_bind; [|repeat xdr_step]. unfold xdr_vector. replace (Z.to_nat n) with (length l) by lia.
  apply (carries_elems_if (HostLoad.shaped k)); [done| |by rewrite length_replicate].
  apply Forall_replicate. split; cbn; by rewrite length_replicate.
Qed.

Lemma transfers_loadReply r : wf_loadReply r -> transfers (xdr_loadReply None) r.
Proof. intros H. destruct (codec_loadReply r H) as [w Hw]. eexists. intros r0. apply Hw. cbn. lia. Qed.

(** A receiver whose array has no room for one more name and NULL. *)
Lemma kept_faults r kept r0 w : wf_loadReply r -> kept <= nIndex r ->
  faults (xdr_loadReply (Some kept) r0) (be32 (nEntry r) ++ be32 (nIndex r) ++ concat (wstr <$> indicies r) ++ w).
Proof.
  destruct r as [n k names l f]. intros H Hk. unfold wf_loadReply in H. cbn in H, Hk. fields. cbn [nEntry nIndex indicies].
  unfold xdr_loadReply. do 2 (eapply faults_bind; [eapply cod_dec, codec_int; done|]). cbv beta zeta.
  change (default (k + 1) (Some kept)) with kept.
  eapply faults_pass; [apply allocate_ok; [apply true_size_nonneg; lia|done|destruct (Z.leb_spec 0 n), (Z.leb_spec 0 k); done || lia]|].
  cbv beta. destruct (Z.ltb_spec kept k); [by apply faults_here|]. eapply faults_pass; [done|]. cbv beta.
  eapply faults_pass; [unfold calloc; destruct (Z.ltb_spec k 0); [lia|done]|]. cbv beta.
  eapply faults_bind; [eapply cod_dec, many_chars; [done..|by rewrite length_replicate]|].
  cbv beta. apply faults_here. destruct (Z.ltb_spec kept (k + 1)); [done|lia].
Qed.
End LoadReply.
#[export] Instance wire_loadReply : Wire (LoadReply.xdr_loadReply None) := { wf_wire := LoadReply.wf_loadReply; wire_transfers := LoadReply.transfers_loadReply }.

(** ** Description of hosts *)

Module ShortHInfo.
Record shortHInfo := mk {
  hostName : cstr; hTypeIndx : Z; hModelIndx : Z; maxCpus : Z; maxMem : Z; maxSwap : Z; maxTmp : Z; nDisks : Z;
  resClass : Z; windows : cstr; busyThreshold : list Z; flags : Z; rexPriority : Z; nRInt : Z; resBitMaps : list Z;
  socketnum : Z; corenum : Z; threadnum : Z; topologyflag : Z; topology : list Z }.

(** [windows[0] != '-'] *)
Definition has_windows (h : shortHInfo) : bool :=
  match windows h with c :: _ => negb (Ascii.eqb c "-"%char) | [] => true end.

(** An index of a table, or the size of the table. *)
Definition clamp (max i : Z) : Z := if 0 <=? i then Z.min max i else max.

(** Type and model, memory and processors: two words of two halves.  The top bit of the
    type says that windows follow. *)
Definition type_half (h : shortHInfo) : Z :=
  let tIndx := Z.land (clamp MAXTYPES (hTypeIndx h)) 0x7FFF in
  if has_windows h then Z.lor tIndx 0x8000 else tIndx.
Definition pack (h : shortHInfo) : Z * Z :=
  (uwrap32 (Z.shiftl (type_half h) 16 + clamp MAXMODELS (hModelIndx h)),
   uwrap32 (Z.shiftl (uwrap16 (maxMem h)) 16 + uwrap16 (maxCpus h))).

(** The products are computed with [int]s. *)
Definition processer_num (socketnum corenum threadnum : Z) : Z := wrap32 (wrap32 (socketnum * corenum) * threadnum).

(** A failed [malloc] is noticed only behind the [memset] of its result. *)
Definition xdr_topology (num flag : Z) (t : list Z) : xdr (Z * list Z) :=
  if flag =? 1 then
    t0 ← on_decode (if num <? 0 then fault else mret (replicate (Z.to_nat num) 0)) t;
    t' ← xdr_vector xdr_int num t0; mret (flag, t')
  else mret (0, []).

(** The variable [sharedResConfigured_] that the function sets from [flags] is left out. *)
Definition xdr_shortHInfo (nIndicies : Z) (h : shortHInfo) : xdr shortHInfo :=
  '(a0, b0) ← on_encode (mret (pack h)) (0, 0);
  hostName' ← xdr_string MAXHOSTNAMELEN MAXHOSTNAMELEN (hostName h);
  a ← xdr_u_int a0;
  b ← xdr_u_int b0;
  resClass' ← xdr_int (resClass h);
  windows' ← by_op
    (if has_windows h then xdr_string MAXLINELEN MAXLINELEN (windows h) else mret (windows h))
    (if Z.land (Z.shiftr a 16) 0x8000 =? 0 then mret ["-"%char] else xdr_string MAXLINELEN MAXLINELEN []);
  '(hTypeIndx', hModelIndx', maxMem', maxCpus') ← on_decode
    (mret (Z.land (Z.shiftr a 16) 0x7FFF, Z.shiftr (uwrap32 (Z.shiftl a 16)) 16, Z.shiftr b 16, Z.shiftr (uwrap32 (Z.shiftl b 16)) 16))
    (hTypeIndx h, hModelIndx h, maxMem h, maxCpus h);
  busyThreshold' ← xdr_vector xdr_float nIndicies (busyThreshold h);
  flags' ← xdr_int (flags h);
  rexPriority' ← xdr_int (rexPriority h);
  nDisks' ← xdr_int (nDisks h);
  maxSwap' ← xdr_int (maxSwap h);
  maxTmp' ← xdr_int (maxTmp h);
  nRInt' ← xdr_int (nRInt h);
  resBitMaps' ← xdr_vector xdr_int nRInt' (resBitMaps h);
  socketnum' ← xdr_int (socketnum h);
  corenum' ← xdr_int (corenum h);
  threadnum' ← xdr_int (threadnum h);
  topologyflag1 ← xdr_int (topologyflag h);
  '(topologyflag', topology') ← xdr_topology (processer_num socketnum' corenum' threadnum') topologyflag1 (topology h);
  mret (mk hostName' hTypeIndx' hModelIndx' maxCpus' maxMem' maxSwap' maxTmp' nDisks' resClass' windows' busyThreshold' flags'
           rexPriority' nRInt' resBitMaps' socketnum' corenum' threadnum' topologyflag' topology').

Definition target (k words : Z) : shortHInfo :=
  mk [] 0 0 0 0 0 0 0 0 [] (replicate (Z.to_nat k) 0) 0 0 0 (replicate (Z.to_nat words) 0) 0 0 0 0 [].

Definition wf_shortHInfo (k words : Z) (h : shortHInfo) : Prop :=
  chars MAXHOSTNAMELEN (hostName h) /\ chars MAXLINELEN (windows h) /\
  Forall int32 [maxSwap h; maxTmp h; nDisks h; resClass h; flags h; rexPriority h; socketnum h; corenum h; threadnum h; topologyflag h] /\
  k = Z.of_nat (length (busyThreshold h)) /\ Forall uint32 (busyThreshold h) /\
  counts (nRInt h) (resBitMaps h) /\ nRInt h <= words /\ Forall int32 (resBitMaps h) /\
  (topologyflag h = 1 -> processer_num (socketnum h) (corenum h) (threadnum h) = Z.of_nat (length (topology h)) /\ Forall int32 (topology h)).

Definition with_topology (h : shortHInfo) : shortHInfo :=
  mk (hostName h) (hTypeIndx h) (hModelIndx h) (maxCpus h) (maxMem h) (maxSwap h) (maxTmp h) (nDisks h) (resClass h) (windows h)
     (busyThreshold h) (flags h) (rexPriority h) (nRInt h) (resBitMaps h) (socketnum h) (corenum h) (threadnum h)
     (if topologyflag h =? 1 then 1 else 0) (if topologyflag h =? 1 then topology h else []).

(** What the receiver gets. *)
Definition received (h : shortHInfo) : shortHInfo :=
  let h := with_topology h in
  mk (hostName h) (clamp MAXTYPES (hTypeIndx h)) (clamp MAXMODELS (hModelIndx h)) (uwrap16 (maxCpus h)) (uwrap16 (maxMem h))
     (maxSwap h) (maxTmp h) (nDisks h) (resClass h) (if has_windows h then windows h else ["-"%char])
     (busyThreshold h) (flags h) (rexPriority h) (nRInt h) (resBitMaps h) (socketnum h) (corenum h) (threadnum h)
     (topologyflag h) (topology h).

(** A target with [k] thresholds and room for [words] words of bits. *)
Definition shaped (k words : Z) (h : shortHInfo) : Prop :=
  length (busyThreshold h) = Z.to_nat k /\ length (resBitMaps h) = Z.to_nat words.

Lemma clamp_bounds max i : 0 <= max -> 0 <= clamp max i <= max.
Proof. intros H. unfold clamp. destruct (Z.leb_spec 0 i); lia. Qed.

(** The halves of a word come out as they went in. *)
Lemma halves a b : 0 <= a < 2 ^ 16 -> 0 <= b < 2 ^ 16 ->
  let w := uwrap32 (Z.shiftl a 16 + b) in
  uint32 w /\ Z.shiftr w 16 = a /\ Z.shiftr (uwrap32 (Z.shiftl w 16)) 16 = b.
Proof.
  intros Ha Hb w. assert (W : w = a * 2 ^ 16 + b).
  { unfold w, uwrap32. rewrite Z.shiftl_mul_pow2 by lia. apply Z.mod_small. lia. }
  rewrite W, Z.shiftl_mul_pow2, !Z.shiftr_div_pow2 by lia. split; [unfold uint32; lia|]. split.
  - rewrite Z.div_add_l, Z.div_small by lia. lia.
  - unfold uwrap32. replace ((a * 2 ^ 16 + b) * 2 ^ 16) with (b * 2 ^ 16 + a * 2 ^ 32) by lia.
    rewrite Z.mod_add, Z.mod_small, Z.div_mul by lia. lia.
Qed.

(** The types of a table, with and without the bit for windows. *)
Lemma type_bits c : 0 <= c <= MAXTYPES ->
  Z.land c 0x7FFF = c /\ Z.land c 0x8000 = 0 /\ Z.land (Z.lor c 0x8000) 0x7FFF = c /\ Z.land (Z.lor c 0x8000) 0x8000 = 0x8000 /\ Z.lor c 0x8000 = c + 2 ^ 15.
Proof.
  intros Hc. assert (N : In (Z.to_nat c) (seq 0 129)) by (apply in_seq; unfold MAXTYPES in Hc; lia).
  set (ok := fun n => let c := Z.of_nat n in
    (Z.land c 0x7FFF =? c) && (Z.land c 0x8000 =? 0) && (Z.land (Z.lor c 0x8000) 0x7FFF =? c)
    && (Z.land (Z.lor c 0x8000) 0x8000 =? 0x8000) && (Z.lor c 0x8000 =? c + 2 ^ 15)).
  assert (F : forallb ok (seq 0 129) = true) by (vm_compute; reflexivity).
  rewrite forallb_forall in F. specialize (F _ N). unfold ok in F. rewrite Z2Nat.id, !andb_true_iff, !Z.eqb_eq in F by lia. tauto.
Qed.

Lemma type_half_spec h : 0 <= type_half h < 2 ^ 16 /\
  (Z.land (type_half h) 0x8000 =? 0) = negb (has_windows h) /\ Z.land (type_half h) 0x7FFF = clamp MAXTYPES (hTypeIndx h).
Proof.
  unfold type_half. pose proof (clamp_bounds MAXTYPES (hTypeIndx h) ltac:(done)) as B.
  destruct (type_bits _ B) as (E1 & E2 & E3 & E4 & E5). cbv zeta. unfold MAXTYPES in *. rewrite E1.
  destruct (has_windows h); rewrite ?E2, ?E3, ?E4, ?E1, ?E5; split_and!; done || lia.
Qed.

(** The two parts of the topology. *)
Lemma codec_topology num flag t t0 : (flag = 1 -> num = Z.of_nat (length t) /\ Forall int32 t) ->
  let r := (if flag =? 1 then 1 else 0, if flag =? 1 then t else []) in
  codec (xdr_topology num flag t) (xdr_topology num flag t0) r r (if flag =? 1 then concat (be32 <$> t) else []).
Proof.
  intros H r. subst r. unfold xdr_topology. destruct (Z.eqb_spec flag 1) as [->|]; [|apply codec_ret].
  destruct (H eq_refl) as [-> Hi]. eapply codec_bind_nil.
  { apply codec_on_decode. destruct (Z.ltb_spec (Z.of_nat (length t)) 0); [lia|done]. }
  rewrite <- (app_nil_r (concat _)). eapply codec_bind; [by apply many_ints; [..|rewrite length_replicate]|apply codec_ret].
Qed.

(** The windows, if there are any. *)
Lemma codec_windows h h0 t : chars MAXLINELEN (windows h) -> (Z.land t 0x8000 =? 0) = negb (has_windows h) ->
  codec (by_op (if has_windows h then xdr_string MAXLINELEN MAXLINELEN (windows h) else mret (windows h))
               (if Z.land t 0x8000 =? 0 then mret ["-"%char] else xdr_string MAXLINELEN MAXLINELEN []))
        (by_op (if has_windows h0 then xdr_string MAXLINELEN MAXLINELEN (windows h0) else mret (windows h0))
               (if Z.land t 0x8000 =? 0 then mret ["-"%char] else xdr_string MAXLINELEN MAXLINELEN []))
        (windows h) (if has_windows h then windows h else ["-"%char]) (if has_windows h then wstr (windows h) else []).
Proof.
  intros H E. rewrite E. pose proof (codec_chars _ _ [] H) as [He Hd].
  destruct (has_windows h); cbn [negb]; apply codec_by_op; done || apply encodes_ret || apply decodes_ret.
Qed.

Lemma codec_prefix {A} (p : A -> xdr A) n l l0 w : many p n l w -> n <= Z.of_nat (length l0) ->
  codec (xdr_vector p n l) (xdr_vector p n l0) l l w.
Proof. intros H Hn. unfold xdr_vector. rewrite (xdr_elems_take _ _ l0). apply H. rewrite length_take. lia. Qed.

Lemma codec_shortHInfo k words h : wf_shortHInfo k words h -> exists w, forall h0, shaped k words h0 ->
  codec (xdr_shortHInfo k h) (xdr_shortHInfo k h0) (with_topology h) (received h) w.
Proof.
  intros H. unfold wf_shortHInfo in H. fields. destruct (type_half_spec h) as (T1 & T2 & T3).
  destruct (halves (type_half h) (clamp MAXMODELS (hModelIndx h)) T1) as (A1 & A2 & A3).
  { pose proof (clamp_bounds MAXMODELS (hModelIndx h) ltac:(done)). unfold MAXMODELS in *. lia. }
  destruct (halves (uwrap16 (maxMem h)) (uwrap16 (maxCpus h))) as (B1 & B2 & B3); [apply Z.mod_pos_bound; lia..|].
  eexists. intros h0 [S1 S2]. unfold xdr_shortHInfo, pack.
  eapply codec_bind_nil; [by apply codec_on_encode|]. cbv beta iota.
  do 4 xdr_step. cbv beta. rewrite A2, A3, B2, B3, T3.
  eapply codec_bind; [by apply codec_windows|]. cbv beta.
  eapply codec_bind_nil; [by apply codec_on_decode|]. cbv beta iota.
  do 7 xdr_step. cbv beta. eapply codec_bind; [apply codec_prefix; [by apply many_ints|lia]|].
  do 4 xdr_step. cbv beta. eapply codec_bind; [by apply codec_topology|]. apply codec_ret.
Qed.
End ShortHInfo.

Module HostInfoReply.
Record hostInfoReply := mk { nHost : Z; nIndex : Z; shortLsInfo : ShortLsInfo.shortLsInfo; hostMatrix : list ShortHInfo.shortHInfo }.

Definition words_of (nRes nIndex : Z) : Z := GET_INTNUM nRes + GET_INTNUM nIndex.

(** [sizeof(struct shortHInfo)] is 160. *)
Definition true_size (nHost nIndex nRes : Z) : Z :=
  ALIGNWORD_ (nHost * 160) + ALIGNWORD_ (nHost * (ALIGNWORD_ (nIndex * 4) + words_of nRes nIndex * 4 + MAXLINELEN + 100)).

(** The memory of a host once more, in full. *)
Definition xdr_maxMem (h : ShortHInfo.shortHInfo) : xdr ShortHInfo.shortHInfo :=
  m ← xdr_int (ShortHInfo.maxMem h);
  mret (ShortHInfo.mk (ShortHInfo.hostName h) (ShortHInfo.hTypeIndx h) (ShortHInfo.hModelIndx h) (ShortHInfo.maxCpus h) m
    (ShortHInfo.maxSwap h) (ShortHInfo.maxTmp h) (ShortHInfo.nDisks h) (ShortHInfo.resClass h) (ShortHInfo.windows h)
    (ShortHInfo.busyThreshold h) (ShortHInfo.flags h) (ShortHInfo.rexPriority h) (ShortHInfo.nRInt h) (ShortHInfo.resBitMaps h)
    (ShortHInfo.socketnum h) (ShortHInfo.corenum h) (ShortHInfo.threadnum h) (ShortHInfo.topologyflag h) (ShortHInfo.topology h)).

(** [held]: the number of hosts in the table of the last reply.  The topologies of as many
    hosts as the new reply has are freed in that table. *)
Definition xdr_hostInfoReply (held : option Z) (r : hostInfoReply) : xdr hostInfoReply :=
  nHost' ← xdr_int (nHost r);
  nIndex' ← xdr_int (nIndex r);
  shortLsInfo' ← ShortLsInfo.xdr_shortLsInfo (shortLsInfo r);
  let nRes := ShortLsInfo.nRes shortLsInfo' in
  _ ← on_decode (if default nHost' held <? nHost' then fault else mret tt) tt;
  _ ← on_decode (allocate (wrap32 (true_size nHost' nIndex' nRes)) (true_size nHost' nIndex' nRes) ((0 <=? nHost') && (0 <=? nIndex'))) tt;
  hostMatrix0 ← on_decode
    (mret (replicate (Z.to_nat nHost') (ShortHInfo.target nIndex' (words_of nRes nIndex')))) (hostMatrix r);
  hostMatrix1 ← xdr_vector (xdr_arrayElement (ShortHInfo.xdr_shortHInfo nIndex')) nHost' hostMatrix0;
  hostMatrix' ← xdr_vector xdr_maxMem nHost' hostMatrix1;
  mret (mk nHost' nIndex' shortLsInfo' hostMatrix').

Definition wf_hostInfoReply (r : hostInfoReply) : Prop :=
  counts (nHost r) (hostMatrix r) /\ int32 (nIndex r) /\ 0 <= nIndex r /\ ShortLsInfo.wf_shortLsInfo (shortLsInfo r) /\
  Forall (fun h => int32 (ShortHInfo.maxMem h) /\
    ShortHInfo.wf_shortHInfo (nIndex r) (words_of (ShortLsInfo.nRes (shortLsInfo r)) (nIndex r)) h) (hostMatrix r) /\
  int32 (true_size (nHost r) (nIndex r) (ShortLsInfo.nRes (shortLsInfo r))).

(** What the receiver learns of a host: the indices of type and model within the tables,
    the processors modulo 2^16, the memory in full. *)
Definition host_info (h : ShortHInfo.shortHInfo) : ShortHInfo.shortHInfo :=
  let h := ShortHInfo.with_topology h in
  ShortHInfo.mk (ShortHInfo.hostName h) (ShortHInfo.clamp MAXTYPES (ShortHInfo.hTypeIndx h)) (ShortHInfo.clamp MAXMODELS (ShortHInfo.hModelIndx h))
    (uwrap16 (ShortHInfo.maxCpus h)) (ShortHInfo.maxMem h)
    (ShortHInfo.maxSwap h) (ShortHInfo.maxTmp h) (ShortHInfo.nDisks h) (ShortHInfo.resClass h)
    (if ShortHInfo.has_windows h then ShortHInfo.windows h else ["-"%char])
    (ShortHInfo.busyThreshold h) (ShortHInfo.flags h) (ShortHInfo.rexPriority h) (ShortHInfo.nRInt h) (ShortHInfo.resBitMaps h)
    (ShortHInfo.socketnum h) (ShortHInfo.corenum h) (ShortHInfo.threadnum h) (ShortHInfo.topologyflag h) (ShortHInfo.topology h).

Definition sent (r : hostInfoReply) : hostInfoReply :=
  mk (nHost r) (nIndex r) (shortLsInfo r) (ShortHInfo.with_topology <$> hostMatrix r).
Definition received (r : hostInfoReply) : hostInfoReply := mk (nHost r) (nIndex r) (shortLsInfo r) (host_info <$> hostMatrix r).

Lemma codec_maxMems l : Forall (fun h => int32 (ShortHInfo.maxMem h)) l ->
  codec (xdr_elems xdr_maxMem (length l) (ShortHInfo.with_topology <$> l)) (xdr_elems xdr_maxMem (length l) (ShortHInfo.received <$> l))
    (ShortHInfo.with_topology <$> l) (host_info <$> l) (concat ((fun h => be32 (ShortHInfo.maxMem h) ++ []) <$> l)).
Proof.
  induction 1 as [|h l Hh _ IH]; [apply codec_ret|]. cbn [fmap list_fmap length xdr_elems concat].
  eapply codec_bind; [eapply codec_bind; [by apply codec_int|apply codec_ret]|]. cbv beta.
  rewrite <- (app_nil_r (concat _)). eapply codec_bind; [done|]. apply codec_ret.
Qed.

Lemma hosts_size_nonneg n k m : 0 <= n -> 0 <= k -> 0 <= m -> 0 <= true_size n k m.
Proof.
  intros Hn Hk Hm. unfold true_size, words_of, MAXLINELEN. pose proof (HostDataReply.GET_INTNUM_pos k Hk).
  pose proof (HostDataReply.GET_INTNUM_pos m Hm).
  pose proof (LoadReply.ALIGNWORD_nonneg (n * 160) ltac:(lia)). pose proof (LoadReply.ALIGNWORD_nonneg (k * 4) ltac:(lia)).
  match goal with |- 0 <= _ + ALIGNWORD_ ?z => pose proof (LoadReply.ALIGNWORD_nonneg z ltac:(nia)) end. lia.
Qed.

(** The encoder does not look at what the receiver holds. *)
Lemma codec_hostInfoReply r : wf_hostInfoReply r -> exists w w', carries ShortLsInfo.xdr_shortLsInfo (shortLsInfo r) w /\
  forall held' held r0, nHost r <= default (nHost r) held ->
  codec (xdr_hostInfoReply held' r) (xdr_hostInfoReply held r0) (sent r) (received r) (be32 (nHost r) ++ be32 (nIndex r) ++ w ++ w').
Proof.
  destruct r as [n k ls l]. intros (Hn & Hk & Hk0 & Hls & Hl & Hs). cbn in *. destruct Hn as [Hn Hi].
  part (ShortLsInfo.transfers_shortLsInfo _ Hls). set (words := words_of (ShortLsInfo.nRes ls) k) in *.
  assert (Hr : 0 <= ShortLsInfo.nRes ls) by (unfold ShortLsInfo.wf_shortLsInfo in Hls; fields; lia).
  destruct (codec_elems_map (ShortHInfo.shaped k words) (xdr_arrayElement (ShortHInfo.xdr_shortHInfo k))
    ShortHInfo.with_topology ShortHInfo.received l) as [ws Hws].
  { eapply Forall_impl; [exact Hl|]. intros h [_ Hh]. destruct (ShortHInfo.codec_shortHInfo k words h Hh) as [w' Hw].
    eexists. intros h0 S. apply codec_arrayElement, Hw, S. }
  exists w. eexists. split; [done|]. intros held' held r0 Hh. unfold xdr_hostInfoReply. cbn [nHost nIndex shortLsInfo hostMatrix]. do 3 xdr_step. cbv beta zeta.
  eapply codec_bind_nil; [apply codec_on_decode; destruct (Z.ltb_spec (default n held) n); [lia|done]|]. cbv beta.
  rewrite allocate_ok by (try apply hosts_size_nonneg; done || lia || (destruct (Z.leb_spec 0 n), (Z.leb_spec 0 k); done || lia)).
  do 2 (eapply codec_bind_nil; [by apply codec_on_decode|]; cbv beta). fold words.
  unfold xdr_vector. replace (Z.to_nat n) with (length l) by lia.
  eapply codec_bind; [apply Hws; [apply Forall_replicate; split; cbn; apply length_replicate|by rewrite length_replicate]|].
  eapply codec_bind; [apply codec_maxMems; eapply Forall_impl; [exact Hl|]; by intros h []|apply codec_ret].
Qed.

(** A receiver that holds a smaller table. *)
Lemma held_faults r held r0 w w' : wf_hostInfoReply r -> carries ShortLsInfo.xdr_shortLsInfo (shortLsInfo r) w -> held < nHost r ->
  faults (xdr_hostInfoReply (Some held) r0) (be32 (nHost r) ++ be32 (nIndex r) ++ w ++ w').
Proof.
  intros ([_ Hn] & Hk & _) C Hh. unfold xdr_hostInfoReply.
  do 2 (eapply faults_bind; [eapply cod_dec, codec_int; done|]).
  eapply faults_bind; [apply (cod_dec _ _ _ _ _ (C (shortLsInfo r0)))|]. cbv beta zeta.
  change (default (nHost r) (Some held)) with held. apply faults_here. destruct (Z.ltb_spec held (nHost r)); [done|lia].
Qed.
End HostInfoReply.
