(* ===== verification/Float16.v ===== *)
(** * Load indices in 16 bits (lsf/lim/lim.xdr.c)

    The load information manager sends the load of a host as numbers of 16 bits, six for
    the exponent and ten for the mantissa.  A [float] is its 32 bits, as in Xdr.v; its
    value is an integer times a power of two.  The computations of the source are in
    double precision, where each of them is exact: the mantissa of a [float] has 24 bits,
    and the differences, products and quotients below have no more. *)
From stdpp Require Import base tactics list.
From Stdlib Require Import ZArith Lia.
From S2P Require Import Prelude JobId Xdr.
Local Open Scope Z_scope.

(** ** Values *)

Inductive number := NaN | Inf (negative : bool) | Num (m e : Z).

Definition of_bits (b : Z) : number :=
  let neg := Z.testbit b 31 in
  let expo := Z.land (Z.shiftr b 23) 0xFF in
  let frac := Z.land b 0x7FFFFF in
  let sign := if neg then -1 else 1 in
  if expo =? 255 then if frac =? 0 then Inf neg else NaN
  else if expo =? 0 then Num (sign * frac) (-149) else Num (sign * (2 ^ 23 + frac)) (expo - 150).

(** The bits of a positive number that is normal and has at most 24 bits. *)
Definition to_bits (m e : Z) : Z := (e + Z.log2 m + 127) * 2 ^ 23 + (m - 2 ^ Z.log2 m) * 2 ^ (23 - Z.log2 m).

Definition le_num (m e m' e' : Z) : bool := m * 2 ^ (e - Z.min e e') <=? m' * 2 ^ (e' - Z.min e e').

(** [x <= y] is false when one of them is not a number. *)
Definition leb (x y : number) : bool :=
  match x, y with
  | NaN, _ | _, NaN => false
  | Inf true, _ | _, Inf false => true
  | Inf false, _ | _, Inf true => false
  | Num m e, Num m' e' => le_num m e m' e'
  end.

(** The double 2.328306E-10, which is below 2^-32, and the float 2^31. *)
Definition MIN_FLOAT16 : number := Num 9007197565963708 (-85).
Definition INFINIT_LOAD : number := Num 1 31.
Definition INFINIT_LOAD_bits : Z := 0x4F000000.

(** ** Encoding *)

(** [frexp] gives the exponent of a number whose fraction is between 1/2 and 1. *)
Definition frexp_expo (m e : Z) : Z := e + (Z.log2 m + 1).

(** [(fmant - 0.5) * 2048], without the fraction, where [fmant] is [m / 2 ^ (log2 m + 1)]. *)
Definition frexp_mant (m : Z) : Z := (2 * m - 2 ^ (Z.log2 m + 1)) * 1024 / 2 ^ (Z.log2 m + 1).

(** [None]: [frexp] of what is not a number leaves the exponent open. *)
Definition encfloat16_ (f : Z) : option Z :=
  let temp := of_bits f in
  let temp := if leb temp MIN_FLOAT16 then MIN_FLOAT16 else temp in
  if leb INFINIT_LOAD temp then Some 0x7fff
  else
    match temp with
    | Num m e =>
        let expo := frexp_expo m e in
        let expo' := if expo <? 0 then Z.lor 0x20 (Z.land expo 0x1F) else Z.land expo 0x1F in
        Some (uwrap16 (uwrap16 (Z.shiftl expo' 10) + frexp_mant m))
    | _ => None
    end.

(** ** Decoding *)

(** [mant / 2048 + 0.5] is [(mant + 1024) / 2048]. *)
Definition decfloat16_ (sf : Z) : Z :=
  if sf =? 0x7fff then INFINIT_LOAD_bits
  else
    let expo := Z.land (Z.shiftr sf 10) 0x3F in
    let expo' := if Z.land expo 0x20 =? 0 then Z.land expo 0x1F else Z.land expo 0x1F - 32 in
    let mant := Z.land sf 0x3FF in
    if leb (Num (mant + 1024) (expo' - 11)) MIN_FLOAT16 then 0 else to_bits (mant + 1024) (expo' - 11).

(** ** What the receiver gets

    Below 2^-32 and for negative numbers it is 0; from a bit below 2^31 on it is
    [INFINIT_LOAD]; else the low 13 bits of the mantissa are cleared. *)
Definition round16 (b : Z) : Z :=
  if (b <? 0x2F800000) || (2 ^ 31 <=? b) then 0
  else if b <? 0x4EFFE000 then b - b mod 2 ^ 13 else INFINIT_LOAD_bits.

Definition not_nan (b : Z) : Prop := uint32 b /\ of_bits b <> NaN.

(** The fields of a positive number. *)
Lemma fields_of E m : 0 <= E < 255 -> 0 <= m < 2 ^ 23 -> let b := E * 2 ^ 23 + m in
  Z.testbit b 31 = false /\ Z.land (Z.shiftr b 23) 0xFF = E /\ Z.land b 0x7FFFFF = m.
Proof.
  intros HE Hm b. subst b. split_and!.
  - rewrite <- (Z.mod_small _ (2 ^ 31)) by lia. apply Z.mod_pow2_bits_high. lia.
  - change 0xFF with (Z.ones 8). rewrite Z.land_ones, Z.shiftr_div_pow2, Z.div_add_l, (Z.div_small m), Z.add_0_r by lia. apply Z.mod_small. lia.
  - change 0x7FFFFF with (Z.ones 23). rewrite Z.land_ones, Z.add_comm, Z.mod_add by lia. apply Z.mod_small. lia.
Qed.

Lemma of_bits_normal E m : 0 < E < 255 -> 0 <= m < 2 ^ 23 -> of_bits (E * 2 ^ 23 + m) = Num (2 ^ 23 + m) (E - 150).
Proof.
  intros HE Hm. destruct (fields_of E m ltac:(lia) Hm) as (F1 & F2 & F3). unfold of_bits. rewrite F1, F2, F3.
  destruct (Z.eqb_spec E 255), (Z.eqb_spec E 0); try lia. f_equal. lia.
Qed.

Lemma log2_normal m : 0 <= m < 2 ^ 23 -> Z.log2 (2 ^ 23 + m) = 23.
Proof. intros. apply Z.log2_unique; lia. Qed.

(** A word of exponent and mantissa. *)
Lemma word_fields x m : 0 <= x < 64 -> 0 <= m < 1024 -> let w := x * 1024 + m in
  uint16 w /\ Z.land (Z.shiftr w 10) 0x3F = x /\ Z.land w 0x3FF = m.
Proof.
  intros Hx Hm w. subst w. split_and!.
  - unfold uint16. lia.
  - change 0x3F with (Z.ones 6). change 1024 with (2 ^ 10). rewrite Z.land_ones, Z.shiftr_div_pow2, Z.div_add_l, (Z.div_small m), Z.add_0_r by lia. apply Z.mod_small. lia.
  - change 0x3FF with (Z.ones 10). change 1024 with (2 ^ 10). rewrite Z.land_ones, Z.add_comm, Z.mod_add by lia. apply Z.mod_small. lia.
Qed.

(** The exponents of six bits. *)
Definition expo16 (x : Z) : Z := if x <? 0 then Z.lor 0x20 (Z.land x 0x1F) else Z.land x 0x1F.

Lemma expo16_spec x : -32 <= x <= 31 ->
  0 <= expo16 x < 64 /\ (if Z.land (expo16 x) 0x20 =? 0 then Z.land (expo16 x) 0x1F else Z.land (expo16 x) 0x1F - 32) = x.
Proof.
  intros Hx. assert (N : In (Z.to_nat (x + 32)) (seq 0 64)) by (apply in_seq; lia).
  set (ok := fun n => let x := Z.of_nat n - 32 in let y := expo16 x in
    (0 <=? y) && (y <? 64) && ((if Z.land y 0x20 =? 0 then Z.land y 0x1F else Z.land y 0x1F - 32) =? x)).
  assert (F : forallb ok (seq 0 64) = true) by (vm_compute; reflexivity).
  rewrite forallb_forall in F. specialize (F _ N). unfold ok in F. rewrite Z2Nat.id in F by lia.
  replace (x + 32 - 32) with x in F by lia. rewrite !andb_true_iff, Z.leb_le, Z.ltb_lt, Z.eqb_eq in F. tauto.
Qed.

(** Comparisons with the bounds. *)
Lemma le_min E m : 95 <= E -> 0 <= m < 2 ^ 23 -> leb (Num (2 ^ 23 + m) (E - 150)) MIN_FLOAT16 = false.
Proof.
  intros HE Hm. unfold leb, MIN_FLOAT16, le_num. rewrite Z.min_r by lia. apply Z.leb_gt.
  change (2 ^ (-85 - -85)) with 1. assert (2 ^ 30 <= 2 ^ (E - 150 - -85)) by (apply Z.pow_le_mono_r; lia). nia.
Qed.

Lemma min_le E m : 0 <= E <= 93 -> 0 <= m < 2 ^ 24 -> leb (Num m (Z.max 1 E - 150)) MIN_FLOAT16 = true.
Proof.
  intros HE Hm. unfold leb, MIN_FLOAT16, le_num. apply Z.leb_le. destruct (Z.le_gt_cases (Z.max 1 E - 150) (-85)).
  - rewrite Z.min_l, Z.sub_diag by lia. change (2 ^ 0) with 1.
    assert (2 ^ 0 <= 2 ^ (-85 - (Z.max 1 E - 150))) by (apply Z.pow_le_mono_r; lia). change (2 ^ 0) with 1 in *. nia.
  - rewrite Z.min_r by lia. change (2 ^ (-85 - -85)) with 1.
    assert (2 ^ (Z.max 1 E - 150 - -85) <= 2 ^ 28) by (apply Z.pow_le_mono_r; lia). nia.
Qed.

Lemma infinit_le E m : 0 <= m < 2 ^ 23 -> 0 < E -> leb INFINIT_LOAD (Num (2 ^ 23 + m) (E - 150)) = (158 <=? E).
Proof.
  intros Hm HE. unfold leb, INFINIT_LOAD, le_num. destruct (Z.leb_spec 158 E).
  - apply Z.leb_le. destruct (Z.le_gt_cases (E - 150) 31).
    + rewrite Z.min_r, Z.sub_diag by lia. assert (2 ^ (31 - (E - 150)) <= 2 ^ 23) by (apply Z.pow_le_mono_r; lia). nia.
    + rewrite Z.min_l by lia. assert (2 ^ 0 <= 2 ^ (E - 150 - 31)) by (apply Z.pow_le_mono_r; lia). change (2 ^ 0) with 1 in *. cbn. nia.
  - apply Z.leb_gt. rewrite Z.min_r, Z.sub_diag by lia.
    assert (2 ^ 24 <= 2 ^ (31 - (E - 150))) by (apply Z.pow_le_mono_r; lia). nia.
Qed.

(** Numbers between the bounds: exponent and the ten high bits of the mantissa. *)
Lemma enc_between E m : 94 <= E <= 157 -> 0 <= m < 2 ^ 23 -> leb (Num (2 ^ 23 + m) (E - 150)) MIN_FLOAT16 = false ->
  encfloat16_ (E * 2 ^ 23 + m) = Some (expo16 (E - 126) * 1024 + m / 2 ^ 13).
Proof.
  intros HE Hm L. unfold encfloat16_. rewrite of_bits_normal by lia. cbv zeta. rewrite L, infinit_le by lia.
  destruct (Z.leb_spec 158 E); [lia|]. unfold frexp_expo, frexp_mant. rewrite log2_normal by done.
  replace (E - 150 + (23 + 1)) with (E - 126) by lia. fold (expo16 (E - 126)). f_equal.
  destruct (expo16_spec (E - 126) ltac:(lia)) as [B _].
  replace ((2 * (2 ^ 23 + m) - 2 ^ (23 + 1)) * 1024 / 2 ^ (23 + 1)) with (m / 2 ^ 13).
  2:{ replace ((2 * (2 ^ 23 + m) - 2 ^ (23 + 1)) * 1024) with (m * 2 ^ 11) by (change (23 + 1) with 24; lia).
      change (2 ^ (23 + 1)) with (2 ^ 13 * 2 ^ 11).
      by rewrite Z.div_mul_cancel_r by lia. }
  assert (0 <= m / 2 ^ 13 < 1024) by (split; [apply Z.div_pos; lia|apply Z.div_lt_upper_bound; lia]).
  rewrite Z.shiftl_mul_pow2 by lia. change (2 ^ 10) with 1024. unfold uwrap16.
  rewrite (Z.mod_small (expo16 (E - 126) * 1024)), Z.mod_small by lia. done.
Qed.

Lemma dec_word x m : -32 <= x <= 31 -> 0 <= m < 1024 -> expo16 x * 1024 + m <> 0x7fff ->
  decfloat16_ (expo16 x * 1024 + m) = if x =? -32 then 0 else (x + 126) * 2 ^ 23 + m * 2 ^ 13.
Proof.
  intros Hx Hm Hw. destruct (expo16_spec x Hx) as [B D]. destruct (word_fields _ m B Hm) as (_ & F1 & F2).
  unfold decfloat16_. destruct (Z.eqb_spec (expo16 x * 1024 + m) 0x7fff); [done|]. cbv zeta. rewrite F1, F2, D.
  assert (L : Z.log2 (m + 1024) = 10) by (apply Z.log2_unique; lia).
  unfold leb, MIN_FLOAT16, le_num. destruct (Z.eqb_spec x (-32)) as [->|].
  - change (2 ^ (-32 - 11 - Z.min (-32 - 11) (-85))) with (2 ^ 42). change (2 ^ (-85 - Z.min (-32 - 11) (-85))) with 1.
    by destruct (Z.leb_spec ((m + 1024) * 2 ^ 42) (9007197565963708 * 1)); [|lia].
  - rewrite Z.min_r by lia. change (2 ^ (-85 - -85)) with 1.
    assert (2 ^ 43 <= 2 ^ (x - 11 - -85)) by (apply Z.pow_le_mono_r; lia).
    destruct (Z.leb_spec ((m + 1024) * 2 ^ (x - 11 - -85)) (9007197565963708 * 1)); [nia|].
    unfold to_bits. rewrite L. cbn [Z.sub Z.pow]. change (2 ^ 10) with 1024. change (2 ^ (23 - 10)) with (2 ^ 13). lia.
Qed.

(** The smallest number that is sent. *)
Lemma enc_min f : leb (of_bits f) MIN_FLOAT16 = true -> encfloat16_ f = Some 0x83FF.
Proof. intros H. unfold encfloat16_. rewrite H. vm_compute. reflexivity. Qed.

Lemma of_bits_positive b : 0 <= b < 2 ^ 31 -> of_bits b <> NaN ->
  exists E m, b = E * 2 ^ 23 + m /\ 0 <= m < 2 ^ 23 /\ 0 <= E <= 255 /\ (E = 255 -> m = 0).
Proof.
  intros Hb HN. exists (b / 2 ^ 23), (b mod 2 ^ 23). pose proof (Z.mod_pos_bound b (2 ^ 23) ltac:(lia)).
  assert (0 <= b / 2 ^ 23 <= 255).
  { split; [apply Z.div_pos; lia|]. assert (b / 2 ^ 23 < 256) by (apply Z.div_lt_upper_bound; lia). lia. }
  split_and!; try lia.
  - rewrite Z.mul_comm. apply Z.div_mod. lia.
  - intros E. destruct (Z.eq_dec (b mod 2 ^ 23) 0); [done|]. exfalso. apply HN. unfold of_bits.
    change 0xFF with (Z.ones 8). change 0x7FFFFF with (Z.ones 23). rewrite !Z.land_ones, Z.shiftr_div_pow2, E by lia.
    by destruct (Z.eqb_spec (b mod 2 ^ 23) 0).
Qed.

Lemma of_bits_negative b : 2 ^ 31 <= b < 2 ^ 32 -> of_bits b <> NaN -> leb (of_bits b) MIN_FLOAT16 = true.
Proof.
  intros Hb HN. assert (T : Z.testbit b 31 = true).
  { apply Z.testbit_true; [lia|]. replace (b / 2 ^ 31) with 1; [done|]. apply (Z.div_unique_pos b (2 ^ 31) 1 (b - 2 ^ 31)); lia. }
  assert (F : 0 <= Z.land b 0x7FFFFF) by (apply Z.land_nonneg; lia).
  unfold of_bits in *. rewrite T in *. destruct (_ =? 255); [by destruct (_ =? 0)|].
  assert (L : forall m e, m <= 0 -> leb (Num m e) MIN_FLOAT16 = true).
  { intros m e Hm. unfold leb, MIN_FLOAT16, le_num. apply Z.leb_le.
    pose proof (Z.pow_nonneg 2 (e - Z.min e (-85))). pose proof (Z.pow_nonneg 2 (-85 - Z.min e (-85))). nia. }
  destruct (_ =? 0); apply L; lia.
Qed.

(** The receiver gets the rounded number. *)
Lemma float16_rounds b : not_nan b -> exists w, encfloat16_ b = Some w /\ uint16 w /\ decfloat16_ w = round16 b.
Proof.
  intros [Hu HN]. unfold uint32 in Hu. unfold round16. destruct (Z.leb_spec (2 ^ 31) b) as [Hb|Hb].
  { rewrite orb_true_r. exists 0x83FF. split; [apply enc_min, of_bits_negative; [lia|done]|]. by split; [unfold uint16; lia|]. }
  rewrite orb_false_r. destruct (of_bits_positive b ltac:(lia) HN) as (E & m & -> & Hm & HE & HI).
  assert (Hq : 0 <= m / 2 ^ 13 < 1024) by (split; [apply Z.div_pos; lia|apply Z.div_lt_upper_bound; lia]).
  destruct (Z.le_gt_cases E 93) as [H93|H93].
  { exists 0x83FF. split; [apply enc_min|]. 2:{ split; [unfold uint16; lia|]. by destruct (Z.ltb_spec (E * 2 ^ 23 + m) 0x2F800000); [|lia]. }
    destruct (fields_of E m ltac:(lia) Hm) as (F1 & F2 & F3). unfold of_bits. rewrite F1, F2, F3.
    destruct (Z.eqb_spec E 255); [lia|]. destruct (Z.eqb_spec E 0) as [->|].
    - rewrite Z.mul_1_l. by apply (min_le 0); lia.
    - rewrite Z.mul_1_l. replace (E - 150) with (Z.max 1 E - 150) by lia. apply min_le; lia. }
  destruct (Z.le_gt_cases 158 E) as [H158|H158].
  { exists 0x7fff. destruct (Z.ltb_spec (E * 2 ^ 23 + m) 0x2F800000); [lia|]. destruct (Z.ltb_spec (E * 2 ^ 23 + m) 0x4EFFE000); [lia|].
    split; [|by split; [unfold uint16; lia|]]. unfold encfloat16_. destruct (Z.eq_dec E 255) as [->|].
    - rewrite (HI eq_refl). reflexivity.
    - rewrite of_bits_normal by lia. cbv zeta. rewrite le_min, infinit_le by lia. by destruct (Z.leb_spec 158 E); [|lia]. }
  destruct (leb (Num (2 ^ 23 + m) (E - 150)) MIN_FLOAT16) eqn:L.
  { exists 0x83FF. split; [apply enc_min; by rewrite of_bits_normal by lia|]. split; [unfold uint16; lia|].
    destruct (Z.ltb_spec (E * 2 ^ 23 + m) 0x2F800000); [done|]. rewrite le_min in L by lia. done. }
  exists (expo16 (E - 126) * 1024 + m / 2 ^ 13). destruct (expo16_spec (E - 126) ltac:(lia)) as [B D].
  split; [by apply enc_between; [lia|..]|]. split; [unfold uint16; lia|].
  pose proof (Z.mod_pos_bound m (2 ^ 13) ltac:(lia)) as Bm.
  assert (Em : m mod 2 ^ 13 = m - m / 2 ^ 13 * 2 ^ 13) by (rewrite Z.mod_eq by lia; lia).
  destruct (Z.ltb_spec (E * 2 ^ 23 + m) 0x2F800000) as [Hl|Hl].
  { rewrite dec_word; [|lia|done|]; replace E with 94 in * by lia; [done|]. vm_compute (expo16 _). lia. }
  destruct (Z.ltb_spec (E * 2 ^ 23 + m) 0x4EFFE000) as [Hh|Hh].
  - rewrite dec_word; [|lia|done|].
    + destruct (Z.eqb_spec (E - 126) (-32)); [lia|]. replace (E * 2 ^ 23 + m) with (m + E * 2 ^ 10 * 2 ^ 13) by lia.
      rewrite Z.mod_add by lia. lia.
    + intros W. assert (X : expo16 (E - 126) = 31) by lia. assert (m / 2 ^ 13 = 1023) by lia.
      rewrite X in D. change (31 = E - 126) in D. lia.
  - replace E with 157 in * by lia. replace (m / 2 ^ 13) with 1023 by lia. reflexivity.
Qed.
