(* ===== verification/XdrLoad.v ===== *)
(** * Messages between load information managers (lsf/lim/lim.xdr.c, lim.load.c)

    Every host sends its load to the master: the built-in indices with 16 bits each
    (Float16.v), the others as they are.  What the functions read from [allInfo] and
    [limParams] is an argument. *)
From stdpp Require Import base list.
From Stdlib Require Import ZArith Ascii Lia.
From S2P Require Import Prelude JobId Xdr XdrLib XdrCarry XdrBatch XdrMsg XdrRequest XdrReply XdrInfo XdrSize XdrLim XdrHosts Float16.
Local Open Scope Z_scope.

Definition NBUILTINDEX : Z := 11.

(** ** Load indices *)

Definition enc_at (li : list Z) (i : nat) : option Z := li !! i ≫= encfloat16_.

(** Two indices in a word; behind the last index of the host there is 0. *)
Definition load_word (nIndices : Z) (li : list Z) (i : nat) : option Z :=
  indx ← enc_at li i;
  indx' ← if Z.of_nat i =? nIndices - 1 then Some 0 else enc_at li (S i);
  Some (uwrap32 (Z.shiftl indx 16 + indx')).

Definition load_words (nIndices : Z) (li : list Z) : option (list Z) := mapM (load_word nIndices li) [0; 2; 4; 6; 8; 10]%nat.

Definition two_loads (a : Z) : list Z :=
  [decfloat16_ (Z.land (Z.shiftr a 16) 0xffff); decfloat16_ (Z.land (Z.shiftr (uwrap32 (Z.shiftl a 16)) 16) 0xffff)].

(** The second half of the last word is not used. *)
Definition unpack (a : list Z) : list Z := take (Z.to_nat NBUILTINDEX) (concat (two_loads <$> a)).

(** [a] has [allInfo.numIndx] words, of which six are used.  An index outside the array of
    the host, or one that is not a number, has no encoding. *)
Definition xdr_lvector (allNumIndx : Z) (li : list Z) (nIndices : Z) : xdr (list Z) :=
  _ ← if allNumIndx <? NBUILTINDEX / 2 + 1 then fault else mret tt;
  a0 ← by_op (from_option mret fault (load_words nIndices li)) (mret (replicate 6 0));
  a ← xdr_vector xdr_u_int (NBUILTINDEX / 2 + 1) a0;
  built_in ← by_op (mret (take (Z.to_nat NBUILTINDEX) li))
                   (if Z.of_nat (length li) <? NBUILTINDEX then fault else mret (unpack a));
  others ← xdr_vector xdr_float (nIndices - NBUILTINDEX) (drop (Z.to_nat NBUILTINDEX) li);
  mret (built_in ++ others).

Definition wf_loads (n : Z) (li : list Z) : Prop :=
  n = Z.of_nat (length li) /\ NBUILTINDEX <= n /\ Forall not_nan (take 12 li) /\ Forall uint32 (drop 11 li).

(** What arrives. *)
Definition rounded (li : list Z) : list Z := (round16 <$> take 11 li) ++ drop 11 li.

Lemma enc_done li i x : li !! i = Some x -> not_nan x -> exists w, enc_at li i = Some w /\ uint16 w /\ decfloat16_ w = round16 x.
Proof. intros H Hx. unfold enc_at. rewrite H. by apply float16_rounds. Qed.

Lemma low_half w : uint16 w -> Z.land w 0xffff = w.
Proof. intros H. change 0xffff with (Z.ones 16). rewrite Z.land_ones by lia. apply Z.mod_small, H. Qed.

(** A word of two indices; of the second only what is used matters. *)
Lemma load_word_done n li i x : li !! i = Some x -> not_nan x -> (Z.of_nat i = n - 1 \/ exists y, li !! S i = Some y /\ not_nan y) ->
  exists w, load_word n li i = Some w /\ uint32 w /\
  exists r, two_loads w = [round16 x; r] /\ forall y, li !! S i = Some y -> Z.of_nat i <> n - 1 -> r = round16 y.
Proof.
  intros Hx Nx Hy. destruct (enc_done li i x Hx Nx) as (w1 & E1 & U1 & D1).
  assert (E2 : exists w2, (if Z.of_nat i =? n - 1 then Some 0 else enc_at li (S i)) = Some w2 /\ uint16 w2 /\
    forall y, li !! S i = Some y -> Z.of_nat i <> n - 1 -> decfloat16_ w2 = round16 y).
  { destruct (Z.eqb_spec (Z.of_nat i) (n - 1)) as [E|E].
    - exists 0. split; [done|]. split; [unfold uint16; lia|]. done.
    - destruct Hy as [|(y & Hy & Ny)]; [done|]. destruct (enc_done li (S i) y Hy Ny) as (w2 & E2 & U2 & D2).
      exists w2. split_and!; [done..|]. intros y' Hy' _. by simplify_eq. }
  destruct E2 as (w2 & E2 & U2 & D2). destruct (ShortHInfo.halves w1 w2 U1 U2) as (A1 & A2 & A3).
  eexists. unfold load_word. rewrite E1. cbn [mbind option_bind]. rewrite E2. cbn [mbind option_bind]. split; [done|]. split; [done|].
  exists (decfloat16_ w2). unfold two_loads. rewrite A2, A3, !low_half, D1 by done. split; [done|]. done.
Qed.

(** The six words of a host. *)
Lemma load_words_done n li : wf_loads n li -> exists a, load_words n li = Some a /\ length a = 6%nat /\ Forall uint32 a /\
  unpack a = round16 <$> take 11 li.
Proof.
  intros (Hn & Hk & HN & _). unfold NBUILTINDEX in Hk.
  assert (G : forall i, (i < 12)%nat -> (i < length li)%nat -> exists x, li !! i = Some x /\ not_nan x).
  { intros i Hi Hl. destruct (lookup_lt_is_Some_2 li i Hl) as [x Hx]. exists x. split; [done|].
    apply (Forall_lookup_1 _ _ i x HN). by rewrite lookup_take_lt. }
  assert (W : forall i, (S i < 11)%nat -> exists w x y, load_word n li i = Some w /\ uint32 w /\ li !! i = Some x /\
    li !! S i = Some y /\ two_loads w = [round16 x; round16 y]).
  { intros i Hi. destruct (G i) as (x & Hx & Nx); [lia..|]. destruct (G (S i)) as (y & Hy & Ny); [lia..|].
    destruct (load_word_done n li i x Hx Nx) as (w & E & U & r & T & R); [right; eauto|].
    exists w, x, y. split_and!; [done..|]. by rewrite T, (R y Hy ltac:(lia)). }
  destruct (W 0%nat) as (w0 & x0 & y0 & ? & ? & ? & ? & T0); [lia|]. destruct (W 2%nat) as (w1 & x1 & y1 & ? & ? & ? & ? & T1); [lia|].
  destruct (W 4%nat) as (w2 & x2 & y2 & ? & ? & ? & ? & T2); [lia|]. destruct (W 6%nat) as (w3 & x3 & y3 & ? & ? & ? & ? & T3); [lia|].
  destruct (W 8%nat) as (w4 & x4 & y4 & ? & ? & ? & ? & T4); [lia|]. destruct (G 10%nat) as (x5 & Hx5 & N5); [lia..|].
  destruct (load_word_done n li 10 x5 Hx5 N5) as (w5 & ? & ? & r & T5 & _).
  { destruct (decide (length li = 11)%nat); [left; lia|right]. destruct (G 11%nat) as (y & Hy & Ny); [lia..|]. eauto. }
  exists [w0; w1; w2; w3; w4; w5]. split; [|split; [done|split; [by rewrite !Forall_cons|]]].
  - unfold load_words. cbn [mapM]. repeat match goal with H : load_word _ _ _ = Some _ |- _ => rewrite H; clear H end. done.
  - unfold unpack. cbn [fmap list_fmap concat]. rewrite T0, T1, T2, T3, T4, T5. cbn.
    do 11 (destruct li as [|? li]; [done|]). cbn in *. by simplify_eq.
Qed.

Lemma codec_lvector n li li0 a : wf_loads n li -> load_words n li = Some a -> length li0 = length li ->
  codec (xdr_lvector n li n) (xdr_lvector n li0 n) li (rounded li) (concat (be32 <$> a) ++ concat (be32 <$> drop 11 li) ++ []).
Proof.
  intros Hw E Hl. destruct (load_words_done n li Hw) as (a' & E' & La & Ua & Un). rewrite E in E'. injection E' as <-.
  destruct Hw as (Hn & Hk & _ & Hd). unfold xdr_lvector. rewrite E. unfold NBUILTINDEX in *. change (11 / 2 + 1) with 6.
  destruct (Z.ltb_spec n 6); [lia|]. eapply codec_bind_nil; [apply codec_ret|]. cbv beta. cbn [from_option].
  eapply codec_bind_nil; [apply codec_by_op; [apply encodes_ret|apply decodes_ret]|]. cbv beta.
  eapply codec_bind; [apply (many_words uwrap32); [by rewrite La|eapply Forall_impl; [exact Ua|]; intros z Hz|done]|].
  { unfold uwrap32, uint32 in *. rewrite Z.mod_mod, Z.mod_small; lia. }
  cbv beta. destruct (Z.ltb_spec (Z.of_nat (length li0)) 11); [lia|]. rewrite Un.
  eapply codec_bind_nil; [apply codec_by_op; [apply encodes_ret|apply decodes_ret]|]. cbv beta.
  change (Z.to_nat 11) with 11%nat. eapply codec_bind; [apply many_floats; [rewrite length_drop; lia|done|rewrite length_drop; lia]|].
  cbv beta. unfold rounded. rewrite take_drop. apply codec_ret.
Qed.

(** ** Load of a host *)


Module ResPair.
Record resPair := mk {
  name : cstr; value : cstr }.

(** What the decoder finds in an array of its own. *)
Definition target : resPair :=
  mk [] [].

Definition xdr_resPair (r : resPair) : xdr resPair :=
  name' ← xdr_var_string (name r);
  value' ← xdr_var_string (value r);
  mret (mk name' value').

Definition wf_resPair (r : resPair) : Prop :=
  Forall vstr [name r; value r].

Lemma transfers_resPair r : wf_resPair r -> transfers xdr_resPair r.
Proof.
  destruct r. intros H. unfold wf_resPair in H. cbn in H. fields.
  eexists. intros r0. unfold xdr_resPair. repeat xdr_step.
Qed.

Definition wpair (r : resPair) : cstr := wstr (name r) ++ wstr (value r) ++ [].

Lemma carries_resPair r : wf_resPair r -> carries xdr_resPair r (wpair r).
Proof. destruct r. intros H r0. unfold wf_resPair in H. cbn in H. fields. unfold xdr_resPair, wpair. repeat xdr_step. Qed.

Lemma many_resPair n l : n = Z.of_nat (length l) -> Forall wf_resPair l ->
  many (xdr_arrayElement xdr_resPair) n l (concat ((fun r => welem (wpair r)) <$> l)).
Proof. apply many_strings. intros r H. by apply carries_arrayElement, carries_resPair. Qed.
End ResPair.
#[export] Instance wire_resPair : Wire ResPair.xdr_resPair := { wf_wire := ResPair.wf_resPair; wire_transfers := ResPair.transfers_resPair }.

#[export] Hint Resolve ResPair.many_resPair : xdr.

Module LoadVector.
Record loadVectorStruct := mk {
  hostNo : Z; status : list Z; seqNo : Z; checkSum : Z; flags : Z; numIndx : Z; numUsrIndx : Z; li : list Z;
  numResPairs : Z; resPairs : list ResPair.resPair }.

(** [ignore]: LSF_LIM_IGNORE_CHECKSUM is set.  A different checksum is only logged. *)
Definition xdr_loadvector (ignore : bool) (allNumIndx allNumUsrIndx : Z) (lv : loadVectorStruct) : xdr loadVectorStruct :=
  hostNo' ← xdr_int (hostNo lv);
  seqNo' ← xdr_u_int (seqNo lv);
  numResPairs' ← xdr_int (numResPairs lv);
  checkSum' ← xdr_int (checkSum lv);
  flags' ← xdr_int (flags lv);
  numIndx' ← xdr_int (numIndx lv);
  numUsrIndx' ← xdr_int (numUsrIndx lv);
  _ ← on_decode
    (if negb ignore && (negb (allNumIndx =? numIndx') || negb (allNumUsrIndx =? numUsrIndx')) then refuse else mret tt) tt;
  status' ← xdr_vector xdr_int (1 + GET_INTNUM numIndx') (status lv);
  li' ← xdr_lvector allNumIndx (li lv) numIndx';
  resPairs0 ← calloc_pos numResPairs' ResPair.target (resPairs lv);
  resPairs' ← xdr_vector (xdr_arrayElement ResPair.xdr_resPair) numResPairs' resPairs0;
  mret (mk hostNo' status' seqNo' checkSum' flags' numIndx' numUsrIndx' li' numResPairs' resPairs').

Definition wf_loadVector (lv : loadVectorStruct) : Prop :=
  Forall int32 [hostNo lv; checkSum lv; flags lv; numIndx lv; numUsrIndx lv] /\ uint32 (seqNo lv) /\
  1 + GET_INTNUM (numIndx lv) = Z.of_nat (length (status lv)) /\ Forall int32 (status lv) /\
  wf_loads (numIndx lv) (li lv) /\ counts (numResPairs lv) (resPairs lv) /\ Forall ResPair.wf_resPair (resPairs lv).

(** A receiver with the same indices, whose arrays rcvLoadVector of lim.load.c allocates. *)
Definition shaped (lv0 lv : loadVectorStruct) : Prop := length (status lv0) = length (status lv) /\ length (li lv0) = length (li lv).

Definition received (lv : loadVectorStruct) : loadVectorStruct :=
  mk (hostNo lv) (status lv) (seqNo lv) (checkSum lv) (flags lv) (numIndx lv) (numUsrIndx lv) (rounded (li lv)) (numResPairs lv) (resPairs lv).

(** The bytes around the words of the built-in indices. *)
Definition wload (lv : loadVectorStruct) (a : list Z) : cstr :=
  be32 (hostNo lv) ++ be32 (seqNo lv) ++ be32 (numResPairs lv) ++ be32 (checkSum lv) ++ be32 (flags lv) ++ be32 (numIndx lv) ++
  be32 (numUsrIndx lv) ++ concat (be32 <$> status lv) ++ (concat (be32 <$> a) ++ concat (be32 <$> drop 11 (li lv)) ++ []) ++
  concat ((fun r => welem (ResPair.wpair r)) <$> resPairs lv) ++ [].

Lemma codec_loadvector lv : wf_loadVector lv -> exists a, length a = 6%nat /\ forall ignore ignore' lv0, shaped lv0 lv ->
  codec (xdr_loadvector ignore (numIndx lv) (numUsrIndx lv) lv) (xdr_loadvector ignore' (numIndx lv) (numUsrIndx lv) lv0)
    lv (received lv) (wload lv a).
Proof.
  destruct lv as [h st sq cs_ fl n u l np ps]. intros H. unfold wf_loadVector in H. cbn in H. fields.
  destruct (load_words_done n l ltac:(assumption)) as (a & E & La & _). exists a. split; [done|].
  intros ignore ignore' lv0 [S1 S2]. cbn in S1, S2.
  unfold xdr_loadvector, wload. cbn [hostNo status seqNo checkSum flags numIndx numUsrIndx li numResPairs resPairs].
  do 7 xdr_step. cbv beta. rewrite !Z.eqb_refl. cbn [negb orb]. rewrite !andb_false_r.
  eapply codec_bind_nil; [by apply codec_on_decode|]. cbv beta.
  eapply codec_bind; [apply many_ints; [done..|lia]|]. cbv beta.
  eapply codec_bind; [by apply codec_lvector|]. repeat xdr_step.
Qed.
End LoadVector.

(** ** The message *)

Import LoadVector.

Definition e_vec : Z := 0.

(** What sendLoad of lim.load.c encodes and the receiver decodes: header, kind, load. *)
Definition xdr_load (ignore : bool) (allNumIndx allNumUsrIndx : Z) (m : LSFHeader * Z * loadVectorStruct) : xdr (LSFHeader * Z * loadVectorStruct) :=
  hdr ← xdr_LSFHeader m.1.1;
  loadType ← xdr_enum m.1.2;
  lv ← xdr_loadvector ignore allNumIndx allNumUsrIndx m.2;
  mret (hdr, loadType, lv).

(** [sizeof(struct loadVectorStruct)] is 64, [sizeof(struct resPair)] 16. *)
Definition bufSize (allNumIndx : Z) (lv : loadVectorStruct) : Z :=
  64 + allNumIndx * 4 + GET_INTNUM allNumIndx * 4 + numResPairs lv * 16 + 100
  + list_sum_Z ((fun r => (ALIGNWORD_ (strlen (ResPair.name r) + 1) + 4) + (ALIGNWORD_ (strlen (ResPair.value r) + 1) + 4)) <$> resPairs lv).

Lemma codec_load hdr lv : wf_LSFHeader hdr -> wf_loadVector lv -> exists a, length a = 6%nat /\ forall ignore ignore' m0, shaped m0.2 lv ->
  codec (xdr_load ignore (numIndx lv) (numUsrIndx lv) (hdr, e_vec, lv)) (xdr_load ignore' (numIndx lv) (numUsrIndx lv) m0)
    (hdr, e_vec, lv) (hdr, e_vec, received lv) (whdr hdr ++ be32 e_vec ++ wload lv a ++ []).
Proof.
  intros Hh Hl. destruct (codec_loadvector lv Hl) as (a & La & C). exists a. split; [done|]. intros ignore ignore' m0 Hs.
  eapply codec_bind; [by apply carries_LSFHeader|]. eapply codec_bind; [by apply codec_enum|].
  eapply codec_bind; [by apply C|apply codec_ret].
Qed.

Lemma length_pairs l : Forall ResPair.wf_resPair l ->
  Z.of_nat (length (concat ((fun r => welem (ResPair.wpair r)) <$> l))) <=
  4 * Z.of_nat (length l) + list_sum_Z ((fun r => (ALIGNWORD_ (strlen (ResPair.name r) + 1) + 4) + (ALIGNWORD_ (strlen (ResPair.value r) + 1) + 4)) <$> l).
Proof.
  induction 1 as [|r l H _ IH]; [done|]. unfold ResPair.wf_resPair in H. fields.
  repeat match goal with H : vstr _ |- _ => destruct H end. cbn [fmap list_fmap concat length list_sum_Z foldr].
  fold (list_sum_Z ((fun r => (ALIGNWORD_ (strlen (ResPair.name r) + 1) + 4) + (ALIGNWORD_ (strlen (ResPair.value r) + 1) + 4)) <$> l)).
  rewrite length_app, Nat2Z.inj_add, length_welem. unfold ResPair.wpair at 1. wire_length.
  pose proof (word_enough (ResPair.name r) ltac:(unfold strlen; lia)). pose proof (word_enough (ResPair.value r) ltac:(unfold strlen; lia)). lia.
Qed.

Lemma length_load hdr lv a : wf_loadVector lv -> length a = 6%nat ->
  Z.of_nat (length (whdr hdr ++ be32 e_vec ++ wload lv a ++ [])) <= bufSize (numIndx lv) lv.
Proof.
  intros H La. unfold wf_loadVector, wf_loads, NBUILTINDEX in H. fields. pose proof (length_pairs (resPairs lv) ltac:(done)) as P.
  unfold bufSize, wload. wire_length. rewrite La, length_whdr, length_drop. lia.
Qed.

Module MasterReg.
(** The last three fields of the struct do not travel. *)
Record masterReg := mk {
  clName : cstr; hostName : cstr; flags : Z; seqNo : Z; checkSum : Z; portno : Z }.

Definition xdr_masterReg (r : masterReg) : xdr masterReg :=
  clName' ← xdr_string MAXLSFNAMELEN MAXLSFNAMELEN (clName r);
  hostName' ← xdr_string MAXHOSTNAMELEN MAXHOSTNAMELEN (hostName r);
  flags' ← xdr_int (flags r);
  seqNo' ← xdr_u_int (seqNo r);
  checkSum' ← xdr_int (checkSum r);
  portno' ← xdr_portno (portno r);
  mret (mk clName' hostName' flags' seqNo' checkSum' portno').

Definition wf_masterReg (r : masterReg) : Prop :=
  Forall (chars MAXLSFNAMELEN) [clName r] /\ Forall (chars MAXHOSTNAMELEN) [hostName r] /\ Forall int32
  [flags r; checkSum r] /\ Forall uint32 [seqNo r] /\ Forall uint16 [portno r].

Lemma transfers_masterReg r : wf_masterReg r -> transfers xdr_masterReg r.
Proof.
  destruct r. intros H. unfold wf_masterReg in H. cbn in H. fields.
  eexists. intros r0. unfold xdr_masterReg. repeat xdr_step.
Qed.
End MasterReg.
#[export] Instance wire_masterReg : Wire MasterReg.xdr_masterReg := { wf_wire := MasterReg.wf_masterReg; wire_transfers := MasterReg.transfers_masterReg }.

Module StatInfo.
(** The fields of [tp] are fields of their own; the identifiers of sockets and cores do not travel. *)
Record statInfo := mk {
  hostNo : Z; maxCpus : Z; maxMem : Z; maxSwap : Z; maxTmp : Z; nDisks : Z; portno : Z; hostType : cstr; hostArch : cstr;
  maxPhyCpus : Z; socketnum : Z; corenum : Z; threadnum : Z; topology : list Z; topologyflag : Z }.

(** [calloc] of a negative number of processors fails. *)
Definition xdr_tp_topology (cpu_num flag : Z) (t : list Z) : xdr (list Z) :=
  if flag =? 1 then t0 ← calloc_all cpu_num 0 t; xdr_vector xdr_int cpu_num t0 else mret [].

Definition xdr_statInfo (r : statInfo) : xdr statInfo :=
  maxCpus' ← xdr_int (maxCpus r);
  maxMem' ← xdr_int (maxMem r);
  nDisks' ← xdr_int (nDisks r);
  portno' ← xdr_portno (portno r);
  hostNo' ← xdr_short (hostNo r);
  maxSwap' ← xdr_int (maxSwap r);
  maxTmp' ← xdr_int (maxTmp r);
  hostType' ← xdr_string MAXLSFNAMELEN MAXLSFNAMELEN (hostType r);
  hostArch' ← xdr_string MAXLSFNAMELEN MAXLSFNAMELEN (hostArch r);
  maxPhyCpus' ← xdr_int (maxPhyCpus r);
  socketnum' ← xdr_int (socketnum r);
  corenum' ← xdr_int (corenum r);
  threadnum' ← xdr_int (threadnum r);
  topologyflag' ← xdr_int (topologyflag r);
  topology' ← xdr_tp_topology (ShortHInfo.processer_num socketnum' corenum' threadnum') topologyflag' (topology r);
  mret (mk hostNo' maxCpus' maxMem' maxSwap' maxTmp' nDisks' portno' hostType' hostArch' maxPhyCpus' socketnum' corenum' threadnum'
           topology' topologyflag').

Definition wf_statInfo (r : statInfo) : Prop :=
  Forall int32 [maxCpus r; maxMem r; maxSwap r; maxTmp r; nDisks r; maxPhyCpus r; socketnum r; corenum r; threadnum r; topologyflag r] /\
  int16 (hostNo r) /\ uint16 (portno r) /\ Forall (chars MAXLSFNAMELEN) [hostType r; hostArch r] /\ Forall int32 (topology r) /\
  (if topologyflag r =? 1 then ShortHInfo.processer_num (socketnum r) (corenum r) (threadnum r) else 0) = Z.of_nat (length (topology r)).

Lemma codec_tp_topology n f t t0 : (if f =? 1 then n else 0) = Z.of_nat (length t) -> Forall int32 t ->
  codec (xdr_tp_topology n f t) (xdr_tp_topology n f t0) t t (concat (be32 <$> t)).
Proof.
  intros H Hi. unfold xdr_tp_topology. destruct (f =? 1).
  - eapply codec_bind_nil; [apply codec_calloc; lia|]. apply many_ints; [done..|]. by rewrite length_replicate.
  - destruct t; [apply codec_ret|cbn in H; lia].
Qed.

Lemma transfers_statInfo r : wf_statInfo r -> transfers xdr_statInfo r.
Proof.
  destruct r. intros H. unfold wf_statInfo in H. cbn in H. fields. eexists. intros r0. unfold xdr_statInfo.
  do 14 xdr_step. cbv beta. eapply codec_bind; [by apply codec_tp_topology|]. apply codec_ret.
Qed.
End StatInfo.
#[export] Instance wire_statInfo : Wire StatInfo.xdr_statInfo := { wf_wire := StatInfo.wf_statInfo; wire_transfers := StatInfo.transfers_statInfo }.
