(* ===== verification/XdrTerm.v ===== *)
(** * Terminal settings on the network (lsf/lib/lib.term.c)

    The flags of a terminal travel as numbers whose bit [i] stands for entry [i] of a table,
    so that systems with different flags understand each other.  The values of the flags
    are those of Linux. *)
From stdpp Require Import base list.
From Stdlib Require Import ZArith Ascii Lia.
From S2P Require Import Prelude JobId Xdr XdrLib XdrCarry.
Local Open Scope Z_scope.

(** ** Tables *)

Definition in_table : list Z := [0x1; 0x2; 0x4; 0x8; 0x10; 0x20; 0x40; 0x80; 0x100; 0x200; 0x400; 0x800; 0x1000].

(** With the delays of new line, carriage return, tabulator, backspace, vertical
    tabulator and form feed. *)
Definition out_table : list Z :=
  [0x1; 0x2; 0x4; 0x8; 0x10; 0x20; 0x40; 0x80; 0x100; 0; 0x100; 0x600; 0; 0x200; 0x400; 0x600;
   0x1800; 0; 0x800; 0x1000; 0x1800; 0x2000; 0; 0x2000; 0x4000; 0; 0x4000; 0x8000; 0; 0x8000].

(** [CLOCAL], [CREAD], [CSIZE], [CS5] to [CS8], [CSTOPB], [HUPCL], [PARENB], [PARODD], [LOBLK]. *)
Definition ctrl_table : list Z := [0x800; 0x80; 0x30; 0; 0x10; 0x20; 0x30; 0x40; 0x400; 0x100; 0x200; 0x4000].

Definition loc_table : list Z := [0x1; 0x2; 0x4; 0x8; 0x10; 0x20; 0x40; 0x80; 0x100; 0x8000].

(** Positions of the special characters; [VDSUSP] is defined as 11, which is [VEOL]. *)
Definition chr_table : list nat := [0; 1; 2; 3; 4; 11; 16; 7; 8; 9; 6; 5; 10; 11; 12; 13; 14; 15]%nat.

(** [B0] to [B38400]. *)
Definition baud_table : list Z := [0; 1; 2; 3; 4; 5; 6; 7; 8; 9; 10; 11; 12; 13; 14; 15].

Definition NCCS : nat := 32.
Definition POSIX_VDISABLE : Z := 0.
Definition CBAUD_BITS : Z := 0x100F.

Record termios := mkTermios { c_iflag : Z; c_oflag : Z; c_cflag : Z; c_lflag : Z; c_cc : list Z }.

(** ** Flags *)

Definition selects (mode t : Z) : bool := negb (t =? 0) && (Z.land mode t =? t).

(** The loops over the tables, from entry [i] on. *)
Fixpoint encode_set (mode : Z) (table : list Z) (i : Z) : Z :=
  match table with
  | [] => 0
  | t :: table' => Z.lor (if selects mode t then Z.shiftl 1 i else 0) (encode_set mode table' (i + 1))
  end.

Fixpoint mode_set (set : Z) (table : list Z) (i : Z) : Z :=
  match table with
  | [] => 0
  | t :: table' => Z.lor (if Z.land set (Z.shiftl 1 i) =? 0 then 0 else t) (mode_set set table' (i + 1))
  end.

Definition encode_mode (mode : Z) (table : list Z) : xdr unit := _ ← xdr_int (encode_set mode table 0); mret tt.
Definition decode_mode (table : list Z) : xdr Z := set ← xdr_int 0; mret (mode_set set table 0).

(** ** Speed and characters *)

(** [cfgetospeed] and [cfsetospeed] of the C library. *)
Definition cfgetospeed (c_cflag : Z) : Z := Z.land c_cflag CBAUD_BITS.
Definition cfsetospeed (c_cflag speed : Z) : Z := Z.lor (Z.land c_cflag (Z.lnot CBAUD_BITS)) speed.

(** The position of the speed in the table, or 0. *)
Fixpoint baud_from (table : list Z) (i speed : Z) : Z :=
  match table with
  | [] => 0
  | b :: table' => if speed =? b then i else baud_from table' (i + 1) speed
  end.
Definition baud_index (speed : Z) : Z := baud_from baud_table 0 speed.

Definition wrap8 (z : Z) : Z := (z + 128) mod 256 - 128.

(** [xdr_char] of a [char], and of an [unsigned char] through a pointer to [char]. *)
Definition xdr_char : Z -> xdr Z := xdr_word wrap8.
Definition xdr_cc (z : Z) : xdr Z :=
  by_op (_ ← xdr_char (wrap8 z); mret z) (c ← xdr_char 0; mret (c mod 256)).

Fixpoint xdr_chars (table : list nat) (cc : list Z) : xdr (list Z) :=
  match table with
  | [] => mret cc
  | i :: table' =>
      match cc !! i with
      | None => fault
      | Some z => z' ← xdr_cc z; xdr_chars table' (<[i := z']> cc)
      end
  end.

(** ** Terminals *)

Definition encodeTermios_ (t : termios) : xdr termios :=
  _ ← encode_mode (c_iflag t) in_table;
  _ ← encode_mode (c_oflag t) out_table;
  _ ← encode_mode (c_cflag t) ctrl_table;
  _ ← encode_mode (c_lflag t) loc_table;
  _ ← xdr_int (baud_index (cfgetospeed (c_cflag t)));
  _ ← xdr_chars chr_table (c_cc t);
  mret t.

(** The index of the speed is used as it arrives. *)
Definition decodeTermios_ : xdr termios :=
  iflag ← decode_mode in_table;
  oflag ← decode_mode out_table;
  cflag ← decode_mode ctrl_table;
  lflag ← decode_mode loc_table;
  i ← xdr_int 0;
  speed ← if i <? 0 then fault else from_option mret fault (baud_table !! Z.to_nat i);
  cc ← xdr_chars chr_table (replicate NCCS POSIX_VDISABLE);
  mret (mkTermios iflag oflag (cfsetospeed cflag speed) lflag cc).

(** ** What arrives *)

Definition all_flags (table : list Z) : Z := foldr Z.lor 0 table.

Definition wf_termios (t : termios) : Prop :=
  Forall uint32 [c_iflag t; c_oflag t; c_cflag t; c_lflag t] /\ length (c_cc t) = NCCS /\ Forall (fun z => 0 <= z < 256) (c_cc t).

(** The flags of the tables, the speed if it is in the table, and the first 17 characters. *)
Definition terminal (t : termios) : termios :=
  let speed := cfgetospeed (c_cflag t) in
  mkTermios (Z.land (c_iflag t) (all_flags in_table)) (Z.land (c_oflag t) (all_flags out_table))
    (Z.lor (Z.land (c_cflag t) (all_flags ctrl_table)) (if speed <? 16 then speed else 0)) (Z.land (c_lflag t) (all_flags loc_table))
    (take 17 (c_cc t) ++ replicate 15 POSIX_VDISABLE).

(** ** The flags *)

Definition selected (mode : Z) (table : list Z) : Z := foldr (fun t r => Z.lor (if selects mode t then t else 0) r) 0 table.

Lemma encode_set_low mode table i j : 0 <= i -> j < i -> Z.testbit (encode_set mode table i) j = false.
Proof.
  revert i. induction table as [|t table IH]; intros i Hi Hj; cbn; [apply Z.testbit_0_l|].
  rewrite Z.lor_spec, IH, orb_false_r by lia. destruct (selects mode t); [|apply Z.testbit_0_l].
  destruct (Z.lt_ge_cases j 0); [by apply Z.testbit_neg_r|]. rewrite Z.shiftl_spec by lia. apply Z.testbit_neg_r. lia.
Qed.

Lemma land_bit set i : 0 <= i -> (Z.land set (Z.shiftl 1 i) =? 0) = negb (Z.testbit set i).
Proof.
  intros Hi. rewrite Z.shiftl_1_l. destruct (Z.testbit set i) eqn:E; cbn.
  - apply Z.eqb_neq. intros H. apply (f_equal (fun z => Z.testbit z i)) in H. by rewrite Z.land_spec, E, Z.pow2_bits_true, Z.testbit_0_l in H by lia.
  - apply Z.eqb_eq, Z.bits_inj. intros j. rewrite Z.land_spec, Z.testbit_0_l. destruct (Z.eq_dec i j) as [<-|].
    + by rewrite E.
    + by rewrite Z.pow2_bits_false, andb_false_r by lia.
Qed.

(** Decoding finds the entries that encoding selected. *)
Lemma mode_roundtrip mode table i low : 0 <= i -> (forall j, i <= j -> Z.testbit low j = false) ->
  mode_set (Z.lor low (encode_set mode table i)) table i = selected mode table.
Proof.
  revert i low. induction table as [|t table IH]; intros i low Hi Hl; [done|]. cbn [mode_set encode_set selected foldr].
  rewrite land_bit, !Z.lor_spec, Hl, encode_set_low by lia. rewrite orb_false_r. cbn [orb].
  f_equal.
  - destruct (selects mode t); [by rewrite Z.shiftl_1_l, Z.pow2_bits_true by lia|by rewrite Z.testbit_0_l].
  - rewrite Z.lor_assoc. apply IH; [lia|]. intros j Hj. rewrite Z.lor_spec, Hl by lia. cbn [orb].
    destruct (selects mode t); [|apply Z.testbit_0_l]. rewrite Z.shiftl_1_l. apply Z.pow2_bits_false. lia.
Qed.

(** Every bit of a table is an entry of its own. *)
Definition complete (table : list Z) : bool :=
  forallb (fun j => negb (Z.testbit (all_flags table) (Z.of_nat j)) || existsb (Z.eqb (2 ^ Z.of_nat j)) table) (seq 0 32) &&
  forallb (fun t => (0 <=? t) && (t <? 2 ^ 32)) table.

Lemma all_flags_bit table j : Z.testbit (all_flags table) j = existsb (fun t => Z.testbit t j) table.
Proof. induction table as [|t table IH]; cbn; [apply Z.testbit_0_l|]. fold (all_flags table). by rewrite Z.lor_spec, IH. Qed.

Lemma selected_bit mode table j : Z.testbit (selected mode table) j = existsb (fun t => selects mode t && Z.testbit t j) table.
Proof.
  induction table as [|t table IH]; cbn; [apply Z.testbit_0_l|]. rewrite Z.lor_spec. fold (selected mode table). rewrite IH.
  destruct (selects mode t); cbn; [done|]. by rewrite Z.testbit_0_l.
Qed.

Lemma selects_bit mode t j : selects mode t = true -> Z.testbit t j = true -> Z.testbit mode j = true.
Proof.
  unfold selects. rewrite andb_true_iff, Z.eqb_eq. intros [_ <-]. rewrite Z.land_spec, andb_true_iff. tauto.
Qed.

Lemma complete_bit table j t : complete table = true -> In t table -> Z.testbit t j = true -> In (2 ^ j) table /\ 0 <= j.
Proof.
  intros [C1 C2]%andb_true_iff Hin Hb. rewrite forallb_forall in C1, C2.
  assert (H0 : 0 <= j) by (destruct (Z.lt_ge_cases j 0) as [H|H]; [by rewrite Z.testbit_neg_r in Hb|done]).
  specialize (C2 t Hin). rewrite andb_true_iff, Z.leb_le, Z.ltb_lt in C2.
  assert (H32 : j < 32).
  { destruct (Z.lt_ge_cases j 32) as [|H]; [done|]. rewrite <- (Z.mod_small t (2 ^ 32)), Z.mod_pow2_bits_high in Hb by lia. done. }
  split; [|done]. specialize (C1 (Z.to_nat j) ltac:(apply in_seq; lia)). rewrite Z2Nat.id in C1 by done.
  apply orb_true_iff in C1 as [C1|C1].
  - rewrite all_flags_bit in C1. apply negb_true_iff in C1. exfalso. enough (true = false) by done. rewrite <- C1. symmetry. apply existsb_exists. eauto.
  - apply existsb_exists in C1 as (u & Hu & ->%Z.eqb_eq). done.
Qed.

Lemma selected_all mode table : complete table = true -> selected mode table = Z.land mode (all_flags table).
Proof.
  intros C. apply Z.bits_inj. intros j. rewrite selected_bit, Z.land_spec, all_flags_bit.
  apply eq_iff_eq_true. rewrite andb_true_iff, !existsb_exists. split.
  - intros (t & Hin & [Hs Hb]%andb_true_iff). eauto using selects_bit.
  - intros (Hm & t & Hin & Hb). destruct (complete_bit table j t C Hin Hb) as [H2 Hj]. exists (2 ^ j). split; [done|].
    rewrite Z.pow2_bits_true, andb_true_r by done. unfold selects. apply andb_true_iff. split.
    + apply negb_true_iff, Z.eqb_neq. pose proof (Z.pow_pos_nonneg 2 j). lia.
    + apply Z.eqb_eq, Z.bits_inj. intros k. rewrite Z.land_spec. destruct (Z.eq_dec j k) as [<-|].
      * by rewrite Hm, Z.pow2_bits_true by done.
      * by rewrite Z.pow2_bits_false, andb_false_r by done.
Qed.

Lemma lor_bound n a b : 0 <= n -> 0 <= a < 2 ^ n -> 0 <= b < 2 ^ n -> 0 <= Z.lor a b < 2 ^ n.
Proof.
  intros Hn Ha Hb. assert (E : Z.lor a b = Z.lor a b mod 2 ^ n).
  { rewrite <- Z.land_ones, Z.land_lor_distr_l, !Z.land_ones, !Z.mod_small by lia. done. }
  rewrite E. apply Z.mod_pos_bound. lia.
Qed.

Lemma encode_set_bound mode table i n : 0 <= i -> i + Z.of_nat (length table) <= n -> 0 <= encode_set mode table i < 2 ^ n.
Proof.
  revert i. induction table as [|t table IH]; intros i Hi Hn; cbn [encode_set length] in *.
  - split; [lia|]. apply Z.pow_pos_nonneg; lia.
  - apply lor_bound; [lia| |apply IH; lia]. rewrite Z.shiftl_1_l. pose proof (Z.pow_pos_nonneg 2 n ltac:(lia) ltac:(lia)).
    destruct (selects mode t); [|lia]. split; [apply Z.pow_nonneg; lia|]. apply Z.pow_lt_mono_r; lia.
Qed.

Lemma encodes_mode mode table : (length table <= 30)%nat -> encodes (encode_mode mode table) tt (be32 (encode_set mode table 0) ++ []).
Proof.
  intros Hl. eapply encodes_bind; [apply (codec_int _ 0)|apply encodes_ret].
  pose proof (encode_set_bound mode table 0 30 ltac:(lia) ltac:(lia)). unfold int32. lia.
Qed.

Lemma decodes_mode mode table : (length table <= 30)%nat -> complete table = true ->
  decodes (decode_mode table) (Z.land mode (all_flags table)) (be32 (encode_set mode table 0) ++ []).
Proof.
  intros Hl C. eapply decodes_bind; [apply (codec_int _ 0)|].
  { pose proof (encode_set_bound mode table 0 30 ltac:(lia) ltac:(lia)). unfold int32. lia. }
  cbv beta. rewrite <- selected_all by done. rewrite <- (mode_roundtrip mode table 0 0), Z.lor_0_l by (done || intros; apply Z.testbit_0_l).
  apply decodes_ret.
Qed.

(** ** Speed and characters *)

Lemma baud_index_spec speed : 0 <= speed -> int32 (baud_index speed) /\ 0 <= baud_index speed /\
  baud_table !! Z.to_nat (baud_index speed) = Some (if speed <? 16 then speed else 0).
Proof.
  intros Hs. destruct (Z.ltb_spec speed 16) as [H|H].
  - assert (N : In (Z.to_nat speed) (seq 0 16)) by (apply in_seq; lia).
    set (ok := fun n => let s := Z.of_nat n in (0 <=? baud_index s) && (baud_index s <? 16) &&
      match baud_table !! Z.to_nat (baud_index s) with Some b => b =? s | None => false end).
    assert (F : forallb ok (seq 0 16) = true) by (vm_compute; reflexivity).
    rewrite forallb_forall in F. specialize (F _ N). unfold ok in F. rewrite Z2Nat.id in F by lia.
    rewrite !andb_true_iff, Z.leb_le, Z.ltb_lt in F. destruct F as [[F1 F2] F3].
    destruct (baud_table !! _) as [b|]; [|done]. apply Z.eqb_eq in F3 as ->. unfold int32. split_and!; lia || done.
  - assert (E : baud_index speed = 0).
    { unfold baud_index, baud_table. cbn [baud_from]. repeat match goal with |- context [?a =? ?b] => destruct (Z.eqb_spec a b); [lia|] end. done. }
    rewrite E. unfold int32. split_and!; lia || done.
Qed.

Definition int8 (z : Z) : Prop := - 128 <= z < 128.

Lemma wrap8_int8 z : int8 (wrap8 z).
Proof. unfold int8, wrap8. pose proof (Z.mod_pos_bound (z + 128) 256 ltac:(lia)). lia. Qed.

Lemma codec_char z z0 : int8 z -> codec (xdr_char z) (xdr_char z0) z z (be32 z).
Proof.
  unfold int8. intros H. apply codec_word. unfold wrap8. rewrite <- Zplus_mod_idemp_l.
  assert (E : (z mod 2 ^ 32) mod 256 = z mod 256) by (apply Z.mod_mod_divide; by exists (2 ^ 24)).
  rewrite E, Zplus_mod_idemp_l, Z.mod_small; lia.
Qed.

Lemma codec_cc z z0 : 0 <= z < 256 -> codec (xdr_cc z) (xdr_cc z0) z z (be32 (wrap8 z) ++ []).
Proof.
  intros H. apply codec_by_op.
  - eapply encodes_bind; [apply (codec_char _ 0), wrap8_int8|apply encodes_ret].
  - eapply decodes_bind; [apply (codec_char _ 0), wrap8_int8|]. cbv beta.
    replace (wrap8 z mod 256) with z; [apply decodes_ret|]. unfold wrap8. rewrite Zminus_mod_idemp_l.
    replace (z + 128 - 128) with z by lia. by rewrite Z.mod_small.
Qed.

Lemma codec_xdr_chars cc : length cc = NCCS -> Forall (fun z => 0 <= z < 256) cc -> exists w, forall cc0, length cc0 = NCCS ->
  codec (xdr_chars chr_table cc) (xdr_chars chr_table cc0) cc (take 17 cc ++ drop 17 cc0) w.
Proof.
  intros Hl Hc. unfold NCCS in *. do 32 (destruct cc as [|? cc]; [done|]). destruct cc; [|done].
  repeat (apply Forall_cons in Hc as [? Hc]). eexists. intros cc0 Hl0.
  do 32 (destruct cc0 as [|? cc0]; [done|]). destruct cc0; [|done]. unfold chr_table. cbn [xdr_chars lookup list_lookup insert list_insert].
  repeat (eapply codec_bind; [by apply codec_cc|]; cbn [xdr_chars lookup list_lookup insert list_insert]).
  cbn [take drop app]. apply codec_ret.
Qed.

(** ** Terminals *)

Lemma tables_complete : Forall (fun t => complete t = true) [in_table; out_table; ctrl_table; loc_table].
Proof. repeat constructor. Qed.

Lemma codec_termios t : wf_termios t -> exists w, codec (encodeTermios_ t) decodeTermios_ t (terminal t) w.
Proof.
  intros (Hf & Hl & Hc). pose proof tables_complete as C. rewrite !Forall_cons in C. destruct C as (C1 & C2 & C3 & C4 & _).
  rewrite !Forall_cons in Hf. destruct Hf as (F1 & F2 & F3 & F4 & _).
  destruct (codec_xdr_chars _ Hl Hc) as [wc Wc]. destruct (Wc (replicate NCCS POSIX_VDISABLE) ltac:(done)) as [We Wd].
  destruct (baud_index_spec (cfgetospeed (c_cflag t))) as (B1 & B2 & B3).
  { unfold cfgetospeed, uint32 in *. apply Z.land_nonneg. lia. }
  eexists. split.
  - unfold encodeTermios_. do 4 (eapply encodes_bind; [apply encodes_mode, Nat.leb_le; reflexivity|]; cbv beta).
    eapply encodes_bind; [by apply (codec_int _ 0)|]. eapply encodes_bind; [exact We|apply encodes_ret].
  - unfold decodeTermios_. do 4 (eapply decodes_bind; [apply decodes_mode; [apply Nat.leb_le; reflexivity|done]|]; cbv beta).
    eapply decodes_bind; [by apply (codec_int _ 0)|]. cbv beta. destruct (Z.ltb_spec (baud_index (cfgetospeed (c_cflag t))) 0); [lia|].
    rewrite B3. cbn [from_option]. eapply (decodes_bind _ _ _ _ []); [apply decodes_ret|]. cbv beta.
    eapply decodes_bind; [exact Wd|]. cbv beta. 
    assert (E : cfsetospeed (Z.land (c_cflag t) (all_flags ctrl_table)) (if cfgetospeed (c_cflag t) <? 16 then cfgetospeed (c_cflag t) else 0) =
      Z.lor (Z.land (c_cflag t) (all_flags ctrl_table)) (if cfgetospeed (c_cflag t) <? 16 then cfgetospeed (c_cflag t) else 0)).
    { unfold cfsetospeed. by rewrite <- Z.land_assoc. }
    rewrite E. apply decodes_ret.
Qed.
