(* ===== verification/XdrRes.v ===== *)
(** * Messages of the remote execution server (lsf/lib/lib.xdrres.c, lib.xdrnio.c, lib.xdrrf.c)

    Commands to run on another host, operations on files of another host, and the
    functions that send and receive them.  Modules as in XdrRequest.v, structs of
    lsf/res/resout.h and lsf/lib/lib.rf.h. *)
From Stdlib Require Import String.
From stdpp Require Import base list.
From Stdlib Require Import ZArith Ascii Lia.
From S2P Require Import Prelude JobId Xdr XdrLib XdrCarry XdrBatch XdrMsg XdrLim XdrHosts XdrTerm.
Local Open Scope Z_scope.

(** ** Commands *)

(** [calloc] of [n + 1] pointers for [n] strings and a NULL behind them.  For [n] = -1
    the array is empty and NULL is stored in front of it. *)
Definition calloc_strings (n : Z) (l : list cstr) : xdr (list cstr) :=
  on_decode (if wrap32 (n + 1) <? 0 then refuse else if n <? 0 then fault else mret (replicate (Z.to_nat n) [])) l.

Lemma codec_strings n l l0 {B} (f g : list cstr -> xdr B) v u w' : n = Z.of_nat (length l) -> n < 2 ^ 31 - 1 -> Forall vstr l ->
  codec (f l) (g l) v u w' ->
  codec (a ← calloc_strings n l; b ← xdr_vector xdr_var_string n a; f b)
        (a ← calloc_strings n l0; b ← xdr_vector xdr_var_string n a; g b) v u (concat (wstr <$> l) ++ w').
Proof.
  intros Hn Hb Hl Hf. eapply codec_bind_nil.
  { apply codec_on_decode. rewrite wrap32_id by (unfold int32; lia). destruct (Z.ltb_spec (n + 1) 0), (Z.ltb_spec n 0); done || lia. }
  eapply codec_bind; [|exact Hf]. apply many_var_strings; [done..|]. by rewrite length_replicate.
Qed.

(** The limits that both sides know; the array has [LSF_RLIM_NLIMITS] of them. *)
Definition xdr_lsfLimits (l : list lsfLimit) : xdr (list lsfLimit) :=
  nlimits ← xdr_int LSF_RLIM_NLIMITS;
  n ← on_decode (mret (Z.min nlimits LSF_RLIM_NLIMITS)) nlimits;
  a ← on_decode (mret (sized LSF_RLIM_NLIMITS (mkLsfLimit 0 0 0 0) l)) l;
  r ← xdr_vector (xdr_arrayElement xdr_lsfLimit) n a;
  mret (r ++ drop (length r) a).

Lemma codec_lsfLimits l l0 : LSF_RLIM_NLIMITS = Z.of_nat (length l) -> Forall wf_lsfLimit l ->
  codec (xdr_lsfLimits l) (xdr_lsfLimits l0) l l (be32 LSF_RLIM_NLIMITS ++ concat ((fun v => welem (wlimit v)) <$> l) ++ []).
Proof.
  intros Hn Hl. pose proof (many_strings (xdr_arrayElement xdr_lsfLimit) wf_lsfLimit (fun v => welem (wlimit v)) LSF_RLIM_NLIMITS l) as M.
  specialize (M ltac:(intros v Hv; by apply carries_arrayElement, carries_lsfLimit) Hn Hl).
  eapply codec_bind; [apply codec_int, int32_nlimits|]. cbv beta. rewrite Z.min_id.
  do 2 (eapply codec_bind_nil; [by apply codec_on_decode|]; cbv beta).
  eapply codec_bind; [apply M, length_sized|]. cbv beta.
  rewrite drop_all, (drop_ge (sized _ _ _)), app_nil_r by (rewrite length_sized; lia). apply codec_ret.
Qed.

Module ResCmdBill.
Record resCmdBill := mk {
  retport : Z; rpid : Z; filemask : Z; priority : Z; options : Z; cwd : cstr; argv : list cstr; lsfLimits : list lsfLimit }.

Definition xdr_resCmdBill (r : resCmdBill) : xdr resCmdBill :=
  retport' ← xdr_portno (retport r);
  rpid' ← xdr_int (rpid r);
  filemask' ← xdr_int (filemask r);
  priority' ← xdr_int (priority r);
  options' ← xdr_int (options r);
  cwd' ← xdr_string MAXPATHLEN MAXPATHLEN (cwd r);
  argc ← xdr_int (Z.of_nat (length (argv r)));
  argv0 ← calloc_strings argc (argv r);
  argv' ← xdr_vector xdr_var_string argc argv0;
  lsfLimits' ← xdr_lsfLimits (lsfLimits r);
  mret (mk retport' rpid' filemask' priority' options' cwd' argv' lsfLimits').

Definition wf_resCmdBill (r : resCmdBill) : Prop :=
  uint16 (retport r) /\ Forall int32 [rpid r; filemask r; priority r; options r] /\ chars MAXPATHLEN (cwd r) /\
  Z.of_nat (length (argv r)) < 2 ^ 31 - 1 /\ Forall vstr (argv r) /\
  LSF_RLIM_NLIMITS = Z.of_nat (length (lsfLimits r)) /\ Forall wf_lsfLimit (lsfLimits r).

Lemma transfers_resCmdBill r : wf_resCmdBill r -> transfers xdr_resCmdBill r.
Proof.
  destruct r as [p a b c d s l ls]. intros H. unfold wf_resCmdBill in H. cbn in H. fields.
  eexists. intros r0. unfold xdr_resCmdBill. do 6 xdr_step. cbv beta.
  eapply codec_bind; [apply codec_int; unfold int32; cbn; lia|]. cbv beta. cbn [argv].
  eapply codec_strings; [done..|]. cbv beta. eapply codec_bind; [by apply codec_lsfLimits|]. apply codec_ret.
Qed.
End ResCmdBill.

#[export] Instance wire_resCmdBill : Wire ResCmdBill.xdr_resCmdBill := { wf_wire := ResCmdBill.wf_resCmdBill; wire_transfers := ResCmdBill.transfers_resCmdBill }.

(** [strncmp(s, p, strlen(p)) == 0] *)
Fixpoint starts_with (p s : cstr) : bool :=
  match p, s with
  | [], _ => true
  | c :: p', d :: s' => Ascii.eqb c d && starts_with p' s'
  | _ :: _, [] => false
  end.

(** The static buffer of chDisplay_ (lsf/lib/lib.misc.c) has [MAXHOSTNAMELEN + 10] characters;
    [None]: the result does not fit.  [myhost] is what [ls_getmyhostname] returns. *)
Definition chDisplay_ (myhost : option cstr) (disp : cstr) : option cstr :=
  let sp := drop 8 disp in
  let sp := if starts_with (cs "unix:") sp then drop 4 sp else if starts_with (cs "localhost:") sp then drop 9 sp else sp in
  match sp, myhost with
  | ":"%char :: _, Some hostName =>
      let r := cs "DISPLAY=" ++ hostName ++ sp in
      if MAXHOSTNAMELEN + 10 <? Z.of_nat (length r) + 1 then None else Some r
  | _, _ => Some disp
  end.

(** A string of the environment as it is sent. *)
Definition env_sent (myhost : option cstr) (s : cstr) : option cstr :=
  if starts_with (cs "DISPLAY=") s then chDisplay_ myhost s else Some s.

Module ResSetenv.
Record resSetenv := mk { env : list cstr }.

Definition xdr_env (myhost : option cstr) (s : cstr) : xdr cstr :=
  by_op (sp ← from_option mret fault (env_sent myhost s); _ ← xdr_var_string sp; mret s) (xdr_var_string s).

Definition xdr_resSetenv (myhost : option cstr) (r : resSetenv) : xdr resSetenv :=
  nenv ← xdr_int (Z.of_nat (length (env r)));
  env0 ← calloc_strings nenv (env r);
  env' ← xdr_vector (xdr_env myhost) nenv env0;
  mret (mk env').

Definition received (myhost : option cstr) (r : resSetenv) : resSetenv := mk ((fun s => default s (env_sent myhost s)) <$> env r).

Definition wf_resSetenv (myhost : option cstr) (r : resSetenv) : Prop :=
  Z.of_nat (length (env r)) < 2 ^ 31 - 1 /\ Forall (fun s => exists s', env_sent myhost s = Some s' /\ vstr s') (env r).

Lemma codec_env myhost s s0 s' : env_sent myhost s = Some s' -> vstr s' ->
  codec (xdr_env myhost s) (xdr_env myhost s0) s s' (wstr s').
Proof.
  intros E Hs. destruct (codec_var_string s' s0 Hs) as [He Hd]. unfold xdr_env. rewrite E. apply codec_by_op; [|done].
  cbn [from_option]. eapply (encodes_bind _ _ _ _ [] (wstr s')); [apply encodes_ret|]. rewrite <- (app_nil_r (wstr s')).
  eapply encodes_bind; [exact He|apply encodes_ret].
Qed.

Lemma codec_resSetenv myhost r : wf_resSetenv myhost r -> exists w, forall r0,
  codec (xdr_resSetenv myhost r) (xdr_resSetenv myhost r0) r (received myhost r) w.
Proof.
  destruct r as [l]. intros [Hn Hl]. cbn in *.
  destruct (codec_elems_map (fun _ => True) (xdr_env myhost) id (fun s => default s (env_sent myhost s)) l) as [w Hw].
  { eapply Forall_impl; [exact Hl|]. intros s (s' & E & Hs). exists (wstr s'). intros s0 _. rewrite E. by apply codec_env. }
  eexists. intros r0. unfold xdr_resSetenv. cbn [env]. eapply codec_bind; [apply codec_int; unfold int32; lia|]. cbv beta.
  eapply codec_bind_nil.
  { apply codec_on_decode. rewrite wrap32_id by (unfold int32; lia).
    destruct (Z.ltb_spec (Z.of_nat (length l) + 1) 0), (Z.ltb_spec (Z.of_nat (length l)) 0); done || lia. }
  unfold xdr_vector. rewrite Nat2Z.id. eapply codec_bind; [apply Hw; [by apply Forall_true|by rewrite length_replicate]|].
  rewrite list_fmap_id. apply codec_ret.
Qed.
End ResSetenv.

Module ResRKill.
Record resRKill := mk {
  rid : Z; whatid : Z; signal : Z }.

Definition xdr_resRKill (r : resRKill) : xdr resRKill :=
  rid' ← xdr_int (rid r);
  whatid' ← xdr_int (whatid r);
  signal' ← xdr_int (signal r);
  mret (mk rid' whatid' signal').

Definition wf_resRKill (r : resRKill) : Prop :=
  Forall int32 [rid r; whatid r; signal r].

Lemma transfers_resRKill r : wf_resRKill r -> transfers xdr_resRKill r.
Proof.
  destruct r. intros H. unfold wf_resRKill in H. cbn in H. fields.
  eexists. intros r0. unfold xdr_resRKill. repeat xdr_step.
Qed.
End ResRKill.
#[export] Instance wire_resRKill : Wire ResRKill.xdr_resRKill := { wf_wire := ResRKill.wf_resRKill; wire_transfers := ResRKill.transfers_resRKill }.

Module ResPid.
Record resPid := mk {
  rpid : Z; pid : Z }.

Definition xdr_resGetpid (r : resPid) : xdr resPid :=
  rpid' ← xdr_int (rpid r);
  pid' ← xdr_int (pid r);
  mret (mk rpid' pid').

Definition wf_resPid (r : resPid) : Prop :=
  Forall int32 [rpid r; pid r].

Lemma transfers_resPid r : wf_resPid r -> transfers xdr_resGetpid r.
Proof.
  destruct r. intros H. unfold wf_resPid in H. cbn in H. fields.
  eexists. intros r0. unfold xdr_resGetpid. repeat xdr_step.
Qed.
End ResPid.
#[export] Instance wire_resPid : Wire ResPid.xdr_resGetpid := { wf_wire := ResPid.wf_resPid; wire_transfers := ResPid.transfers_resPid }.

Module ResRusage.
Record resRusage := mk {
  rid : Z; whatid : Z; options : Z }.

Definition xdr_resGetRusage (r : resRusage) : xdr resRusage :=
  rid' ← xdr_int (rid r);
  whatid' ← xdr_int (whatid r);
  options' ← xdr_int (options r);
  mret (mk rid' whatid' options').

Definition wf_resRusage (r : resRusage) : Prop :=
  Forall int32 [rid r; whatid r; options r].

Lemma transfers_resRusage r : wf_resRusage r -> transfers xdr_resGetRusage r.
Proof.
  destruct r. intros H. unfold wf_resRusage in H. cbn in H. fields.
  eexists. intros r0. unfold xdr_resGetRusage. repeat xdr_step.
Qed.
End ResRusage.
#[export] Instance wire_resRusage : Wire ResRusage.xdr_resGetRusage := { wf_wire := ResRusage.wf_resRusage; wire_transfers := ResRusage.transfers_resRusage }.

Module ResChdir.
Record resChdir := mk {
  dir : cstr }.

Definition xdr_resChdir (r : resChdir) : xdr resChdir :=
  dir' ← xdr_string MAXFILENAMELEN MAXFILENAMELEN (dir r);
  mret (mk dir').

Definition wf_resChdir (r : resChdir) : Prop :=
  Forall (chars MAXFILENAMELEN) [dir r].

Lemma transfers_resChdir r : wf_resChdir r -> transfers xdr_resChdir r.
Proof.
  destruct r. intros H. unfold wf_resChdir in H. cbn in H. fields.
  eexists. intros r0. unfold xdr_resChdir. repeat xdr_step.
Qed.
End ResChdir.
#[export] Instance wire_resChdir : Wire ResChdir.xdr_resChdir := { wf_wire := ResChdir.wf_resChdir; wire_transfers := ResChdir.transfers_resChdir }.

Module ResControl.
Record resControl := mk {
  opCode : Z; data : Z }.

Definition xdr_resControl (r : resControl) : xdr resControl :=
  opCode' ← xdr_int (opCode r);
  data' ← xdr_int (data r);
  mret (mk opCode' data').

Definition wf_resControl (r : resControl) : Prop :=
  Forall int32 [opCode r; data r].

Lemma transfers_resControl r : wf_resControl r -> transfers xdr_resControl r.
Proof.
  destruct r. intros H. unfold wf_resControl in H. cbn in H. fields.
  eexists. intros r0. unfold xdr_resControl. repeat xdr_step.
Qed.
End ResControl.
#[export] Instance wire_resControl : Wire ResControl.xdr_resControl := { wf_wire := ResControl.wf_resControl; wire_transfers := ResControl.transfers_resControl }.

Module ResConnect.
Record resConnect := mk {
  eexec : lenData }.

Definition xdr_resConnect (r : resConnect) : xdr resConnect :=
  eexec' ← xdr_lenData (eexec r);
  mret (mk eexec').

Definition wf_resConnect (r : resConnect) : Prop :=
  wf_lenData (eexec r).

Lemma transfers_resConnect r : wf_resConnect r -> transfers xdr_resConnect r.
Proof.
  destruct r. intros H. unfold wf_resConnect in H. cbn in H. fields.
  match goal with H : wf_lenData _ |- _ => part (transfers_lenData _ H) end.
  eexists. intros r0. unfold xdr_resConnect. repeat xdr_step.
Qed.
End ResConnect.
#[export] Instance wire_resConnect : Wire ResConnect.xdr_resConnect := { wf_wire := ResConnect.wf_resConnect; wire_transfers := ResConnect.transfers_resConnect }.

Module NiosConnect.
Record niosConnect := mk {
  rpid : Z; exitStatus : Z; terWhiPendStatus : Z }.

Definition xdr_niosConnect (r : niosConnect) : xdr niosConnect :=
  rpid' ← xdr_int (rpid r);
  exitStatus' ← xdr_int (exitStatus r);
  terWhiPendStatus' ← xdr_int (terWhiPendStatus r);
  mret (mk rpid' exitStatus' terWhiPendStatus').

Definition wf_niosConnect (r : niosConnect) : Prop :=
  Forall int32 [rpid r; exitStatus r; terWhiPendStatus r].

Lemma transfers_niosConnect r : wf_niosConnect r -> transfers xdr_niosConnect r.
Proof.
  destruct r. intros H. unfold wf_niosConnect in H. cbn in H. fields.
  eexists. intros r0. unfold xdr_niosConnect. repeat xdr_step.
Qed.
End NiosConnect.
#[export] Instance wire_niosConnect : Wire NiosConnect.xdr_niosConnect := { wf_wire := NiosConnect.wf_niosConnect; wire_transfers := NiosConnect.transfers_niosConnect }.

Module ResSignal.
Record resSignal := mk {
  pid : Z; sigval : Z }.

Definition xdr_resSignal (r : resSignal) : xdr resSignal :=
  pid' ← xdr_int (pid r);
  sigval' ← xdr_int (sigval r);
  mret (mk pid' sigval').

Definition wf_resSignal (r : resSignal) : Prop :=
  Forall int32 [pid r; sigval r].

Lemma transfers_resSignal r : wf_resSignal r -> transfers xdr_resSignal r.
Proof.
  destruct r. intros H. unfold wf_resSignal in H. cbn in H. fields.
  eexists. intros r0. unfold xdr_resSignal. repeat xdr_step.
Qed.
End ResSignal.
#[export] Instance wire_resSignal : Wire ResSignal.xdr_resSignal := { wf_wire := ResSignal.wf_resSignal; wire_transfers := ResSignal.transfers_resSignal }.

Module ResStty.
Record resStty := mk { termattr : termios; ws_row : Z; ws_col : Z; ws_xpixel : Z; ws_ypixel : Z }.

Definition xdr_resStty (tty : resStty) : xdr resStty :=
  termattr' ← by_op (encodeTermios_ (termattr tty)) decodeTermios_;
  ws_row' ← xdr_u_short (ws_row tty);
  ws_col' ← xdr_u_short (ws_col tty);
  ws_xpixel' ← xdr_u_short (ws_xpixel tty);
  ws_ypixel' ← xdr_u_short (ws_ypixel tty);
  mret (mk termattr' ws_row' ws_col' ws_xpixel' ws_ypixel').

Definition wf_resStty (tty : resStty) : Prop :=
  wf_termios (termattr tty) /\ Forall uint16 [ws_row tty; ws_col tty; ws_xpixel tty; ws_ypixel tty].

Definition received (tty : resStty) : resStty := mk (terminal (termattr tty)) (ws_row tty) (ws_col tty) (ws_xpixel tty) (ws_ypixel tty).

Lemma codec_resStty tty : wf_resStty tty -> exists w, forall tty0,
  codec (xdr_resStty tty) (xdr_resStty tty0) tty (received tty) w.
Proof.
  destruct tty as [t a b c d]. intros [Ht H]. cbn in *. fields. destruct (codec_termios t Ht) as (w & He & Hd).
  eexists. intros tty0. unfold xdr_resStty. cbn [termattr ws_row ws_col ws_xpixel ws_ypixel].
  eapply codec_bind; [by apply codec_by_op|]. cbv beta. repeat xdr_step.
Qed.
End ResStty.

(** ** Files of another host *)

(** Flags of [open] on Linux and on the network. *)
Definition O_WRONLY : Z := 0x1.
Definition O_RDWR : Z := 0x2.
Definition O_NDELAY : Z := 0x800.
Definition O_NONBLOCK : Z := 0x800.
Definition O_APPEND : Z := 0x400.
Definition O_CREAT : Z := 0x40.
Definition O_TRUNC : Z := 0x200.
Definition O_EXCL : Z := 0x80.
Definition O_NOCTTY : Z := 0x100.
Definition LSF_O_WRONLY : Z := 0x1.
Definition LSF_O_RDWR : Z := 0x2.
Definition LSF_O_NDELAY : Z := 0x4.
Definition LSF_O_NONBLOCK : Z := 0x8.
Definition LSF_O_APPEND : Z := 0x10.
Definition LSF_O_CREAT : Z := 0x20.
Definition LSF_O_TRUNC : Z := 0x40.
Definition LSF_O_EXCL : Z := 0x80.
Definition LSF_O_NOCTTY : Z := 0x100.
Definition LSF_O_CREAT_DIR : Z := 0x800.

Definition open_flags : list (Z * Z) :=
  [(O_WRONLY, LSF_O_WRONLY); (O_RDWR, LSF_O_RDWR); (O_NDELAY, LSF_O_NDELAY); (O_NONBLOCK, LSF_O_NONBLOCK); (O_APPEND, LSF_O_APPEND);
   (O_CREAT, LSF_O_CREAT); (O_TRUNC, LSF_O_TRUNC); (O_EXCL, LSF_O_EXCL); (O_NOCTTY, LSF_O_NOCTTY); (LSF_O_CREAT_DIR, LSF_O_CREAT_DIR)].

(** One [if (from & a) to |= b] for each pair. *)
Definition translate (pairs : list (Z * Z)) (flags : Z) : Z :=
  fold_left (fun r p => if Z.land flags p.1 =? 0 then r else Z.lor r p.2) pairs 0.
Definition to_net (flags : Z) : Z := translate open_flags flags.
Definition from_net (flags : Z) : Z := translate ((fun p => (p.2, p.1)) <$> open_flags) flags.

(** The flags that can be translated. *)
Definition known_flags : Z := foldr (fun p r => Z.lor p.1 r) 0 open_flags.

Lemma translate_mask pairs mask f : Forall (fun p => Z.land mask p.1 = p.1) pairs -> translate pairs (Z.land f mask) = translate pairs f.
Proof.
  intros H. unfold translate. generalize 0 at 2 4. induction H as [|p pairs Hp _ IH]; intros z; [done|]. cbn.
  by rewrite <- Z.land_assoc, Hp, IH.
Qed.

Lemma flags_roundtrip f : int32 (to_net f) /\ from_net (to_net f) = Z.land f known_flags.
Proof.
  unfold to_net. rewrite <- (translate_mask open_flags known_flags f) by (repeat constructor). fold (to_net (Z.land f known_flags)).
  assert (M : 0 <= Z.land f known_flags < 2 ^ 12).
  { change known_flags with (Z.land known_flags (Z.ones 12)). rewrite Z.land_assoc, Z.land_ones by lia. apply Z.mod_pos_bound. lia. }
  assert (N : In (Z.to_nat (Z.land f known_flags)) (seq 0 4096)) by (apply in_seq; lia).
  set (ok := fun n => let z := Z.land (Z.of_nat n) known_flags in
    (- 2 ^ 31 <=? to_net z) && (to_net z <? 2 ^ 31) && (from_net (to_net z) =? z)).
  assert (F : forallb ok (seq 0 4096) = true) by (vm_compute; reflexivity).
  rewrite forallb_forall in F. specialize (F _ N). unfold ok in F. rewrite Z2Nat.id in F by lia.
  rewrite <- Z.land_assoc, Z.land_diag, !andb_true_iff, Z.leb_le, Z.ltb_lt, Z.eqb_eq in F. unfold int32. tauto.
Qed.

Module RopenReq.
Record ropenReq := mk { fn : cstr; flags : Z; mode : Z }.

(** The name has [MAXFILENAMELEN] characters in ropen of lsf/res/res.rf.c. *)
Definition xdr_ropenReq (r : ropenReq) : xdr ropenReq :=
  fn' ← by_op (xdr_string 0 (Z.of_nat (length (fn r)) + 1) (fn r)) (xdr_string MAXFILENAMELEN MAXFILENAMELEN []);
  flags' ← by_op (_ ← xdr_int (to_net (flags r)); mret (flags r)) (flags ← xdr_int 0; mret (from_net flags));
  mode' ← xdr_int (mode r);
  mret (mk fn' flags' mode').

Definition wf_ropenReq (r : ropenReq) : Prop := chars MAXFILENAMELEN (fn r) /\ int32 (mode r).
Definition received (r : ropenReq) : ropenReq := mk (fn r) (Z.land (flags r) known_flags) (mode r).

Lemma codec_ropenReq r : wf_ropenReq r -> exists w, forall r0, codec (xdr_ropenReq r) (xdr_ropenReq r0) r (received r) w.
Proof.
  destruct r as [f fl m]. intros [(Hf & Hl & Hb) Hm]. cbn in *. destruct (flags_roundtrip fl) as [I E].
  eexists. intros r0. unfold xdr_ropenReq. cbn [fn flags mode].
  eapply codec_bind; [apply codec_by_op|].
  - apply (codec_string (Z.of_nat (length f) + 2) (Z.of_nat (length f) + 1) f []). unfold str, MAXFILENAMELEN in *. split_and!; [done|lia..].
  - apply codec_chars. by split_and!.
  - cbv beta. eapply codec_bind; [apply codec_by_op|].
    + eapply encodes_bind; [by apply (codec_int _ 0)|apply encodes_ret].
    + eapply decodes_bind; [by apply (codec_int _ 0)|apply decodes_ret].
    + cbv beta. rewrite E. repeat xdr_step.
Qed.
End RopenReq.

Definition SEEK_CUR : Z := 1.
Definition SEEK_END : Z := 2.
Definition LSF_SEEK_CUR : Z := 2.
Definition LSF_SEEK_END : Z := 4.

(** [SEEK_SET] is 0: its tests never hold, and what the decoder does for it has no effect. *)
Definition seek_flags : list (Z * Z) := [(SEEK_CUR, LSF_SEEK_CUR); (SEEK_END, LSF_SEEK_END)].

Module RlseekReq.
Record rlseekReq := mk { fd : Z; whence : Z; offset : Z }.

Definition xdr_rlseekReq (r : rlseekReq) : xdr rlseekReq :=
  whence0 ← on_encode (mret (translate seek_flags (whence r))) 0;
  fd' ← xdr_int (fd r);
  whence1 ← xdr_int whence0;
  offset' ← xdr_int (offset r);
  whence' ← on_decode (mret (translate ((fun p => (p.2, p.1)) <$> seek_flags) whence1)) (whence r);
  mret (mk fd' whence' offset').

Definition wf_rlseekReq (r : rlseekReq) : Prop := Forall int32 [fd r; offset r] /\ 0 <= whence r <= 2.

Lemma transfers_rlseekReq r : wf_rlseekReq r -> transfers xdr_rlseekReq r.
Proof.
  destruct r as [f wh ofs]. intros [H Hw]. cbn in *. fields. eexists. intros r0. unfold xdr_rlseekReq. cbn [fd whence offset].
  eapply codec_bind_nil; [by apply codec_on_encode|]. xdr_step. cbv beta. 
  assert (E : wh = 0 \/ wh = 1 \/ wh = 2) by lia.
  assert (I : int32 (translate seek_flags wh)) by (destruct E as [-> |[-> | ->]]; vm_compute; split; discriminate || reflexivity).
  assert (B : translate ((fun p => (p.2, p.1)) <$> seek_flags) (translate seek_flags wh) = wh) by (destruct E as [-> |[-> | ->]]; reflexivity).
  do 2 xdr_step. cbv beta. rewrite B. eapply codec_bind_nil; [by apply codec_on_decode|]. apply codec_ret.
Qed.
End RlseekReq.
#[export] Instance wire_rlseekReq : Wire RlseekReq.xdr_rlseekReq := { wf_wire := RlseekReq.wf_rlseekReq; wire_transfers := RlseekReq.transfers_rlseekReq }.

Module RrdwrReq.
Record rrdwrReq := mk {
  fd : Z; len : Z }.

Definition xdr_rrdwrReq (r : rrdwrReq) : xdr rrdwrReq :=
  fd' ← xdr_int (fd r);
  len' ← xdr_int (len r);
  mret (mk fd' len').

Definition wf_rrdwrReq (r : rrdwrReq) : Prop :=
  Forall int32 [fd r; len r].

Lemma transfers_rrdwrReq r : wf_rrdwrReq r -> transfers xdr_rrdwrReq r.
Proof.
  destruct r. intros H. unfold wf_rrdwrReq in H. cbn in H. fields.
  eexists. intros r0. unfold xdr_rrdwrReq. repeat xdr_step.
Qed.
End RrdwrReq.
#[export] Instance wire_rrdwrReq : Wire RrdwrReq.xdr_rrdwrReq := { wf_wire := RrdwrReq.wf_rrdwrReq; wire_transfers := RrdwrReq.transfers_rrdwrReq }.

(** The data of a block are not encoded: the position is moved behind them. *)
Definition xdr_noxdr (size : Z) : xdr unit := XDR_SETPOS (uwrap32 (size + LSF_HEADER_LEN)).
