(* ===== verification/XdrSend.v ===== *)
(** * Sending requests and receiving replies (lsf/lib/lib.xdrrf.c)

    A request has a header and a record; [lsSendMsg_] encodes and writes both, and
    [lsRecvMsg_] reads and decodes them into the same buffer one after the other. *)
From stdpp Require Import base list.
From Stdlib Require Import ZArith Ascii Lia.
From S2P Require Import Prelude JobId Xdr XdrLib XdrCarry XdrMsg.
Local Open Scope Z_scope.

Section channels.
Context {Chan : Type} (readFunc : Chan -> Z -> Z * cstr * Chan) (writeFunc : Chan -> cstr -> Z * Chan).

(** [initLSFHeader_] clears the header; [currentSN] is the number of the request. *)
Definition request_header (currentSN opCode : Z) (length_ : Z) : LSFHeader :=
  mkLSFHeader (wrap16 opCode) (uwrap16 currentSN) length_ JHLAVA_VERSION 0 0.

(** Without data the header has the length that the caller gives. *)
Definition lsSendMsg_ {A} (currentSN : Z) (s : Chan) (opCode hdrLength : Z) (data : option A) (reqBuf : cstr)
    (xdrFunc : A -> xdr A) (auth : option lsfAuth) : received (Chan := Chan) LSFHeader :=
  let hdr := request_header currentSN opCode (match data with None => uwrap32 hdrLength | Some _ => 0 end) in
  let options := match data with None => ENMSG_USE_LENGTH | Some _ => 0 end in
  match xdr_encodeMsg data hdr xdrFunc options auth (xdrmem_create reqBuf XDR_ENCODE) with
  | Done hdr' x =>
      let '(n, s') := writeFunc s (take (x_pos x) (x_buf x)) in
      if n =? Z.of_nat (x_pos x) then Received hdr' x s' else Failed (-2) LSE_MSG_SYS s'
  | Refused _ => Failed (-1) LSE_BAD_XDR s
  | Fault => Overrun
  end.

(** The record is read only if the header says that there is one and the caller wants it. *)
Definition lsRecvMsg_ {A} (s : Chan) (buf : cstr) (hdr : LSFHeader) (data : option A) (xdrFunc : A -> xdr A) :
    received (Chan := Chan) (LSFHeader * option A) :=
  match readDecodeHdr_ readFunc s (xdrmem_create buf XDR_DECODE) hdr with
  | Received hdr' x s' =>
      match data with
      | Some v =>
          if length_ hdr' =? 0 then Received (hdr', data) x s'
          else
            match readDecodeMsg_ readFunc s' hdr' (mkXDR (x_op x) (x_buf x) 0) v xdrFunc None with
            | Received (_, v') x' s'' => Received (hdr', Some v') x' s''
            | Failed rc e s'' => Failed rc e s''
            | Overrun => Overrun
            end
      | None => Received (hdr', data) x s'
      end
  | Failed rc e s' => Failed rc e s'
  | Overrun => Overrun
  end.
End channels.

Section delivery.
Context {Chan : Type} (readFunc : Chan -> Z -> Z * cstr * Chan) (writeFunc : Chan -> cstr -> Z * Chan).

(** [pending ch bs]: the bytes [bs] are still to be read from the channel, as in XdrMsg.v. *)
Variable pending : Chan -> cstr -> Prop.
Hypothesis reads : forall ch bytes rest, pending ch (bytes ++ rest) ->
  exists ch', readFunc ch (Z.of_nat (length bytes)) = (Z.of_nat (length bytes), bytes, ch') /\ pending ch' rest.
(** What is written to [ch] arrives behind what was under way. *)
Hypothesis writes : forall ch before bytes, pending ch before ->
  exists ch', writeFunc ch bytes = (Z.of_nat (length bytes), ch') /\ pending ch' (before ++ bytes).

(** C24: A request without authentication reaches the server.  For every kind of record
    that keeps the interface [Wire] and is not empty on the wire: [lsSendMsg_] fails and writes nothing with a
    request buffer below one size; with any larger one it succeeds, and [lsRecvMsg_] at the
    other end, whatever its variables held, returns the header and the record that
    were sent and leaves the channel as it was before. *)
Theorem request_delivered {A} (p : A -> xdr A) `{!Wire p} (v : A) currentSN opCode hdrLength :
  wf_wire v -> p v (xdrmem_create [] XDR_ENCODE) <> Done v (xdrmem_create [] XDR_ENCODE) ->
  exists n, (16 < n)%nat /\
  (forall s reqBuf, fits reqBuf -> (length reqBuf < n)%nat ->
     lsSendMsg_ writeFunc currentSN s opCode hdrLength (Some v) reqBuf p None = Failed (-1) LSE_BAD_XDR s) /\
  (forall s reqBuf, fits reqBuf -> (n <= length reqBuf)%nat -> pending s [] ->
     let hdr := request_header currentSN opCode (Z.of_nat (n - 16)) in
     exists x s', lsSendMsg_ writeFunc currentSN s opCode hdrLength (Some v) reqBuf p None = Received hdr x s' /\
     forall buf hdr0 v0, fits buf -> (16 <= length buf)%nat -> (n - 16 <= length buf)%nat ->
       exists x' s'', lsRecvMsg_ readFunc s' buf hdr0 (Some v0) p = Received (hdr, Some v) x' s'' /\ pending s'' []).
Proof.
  intros Hv He. destruct (wire_transfers v Hv) as [w Hw].
  assert (Hd : forall v', Some v = Some v' -> carries p v' w) by by intros v' [= <-].
  assert (Nw : (0 < length w)%nat).
  { destruct w as [|c w]; [|cbn; lia]. exfalso. apply He. apply (proj1 (cod_enc _ _ _ _ _ (Hw v)) [] [] []); [|done]. unfold fits. cbn. lia. }
  set (hdr0 := request_header currentSN opCode 0).
  assert (Hh : wf_LSFHeader hdr0).
  { unfold wf_LSFHeader, hdr0, request_header. cbn. pose proof (Z.mod_pos_bound (opCode + 2 ^ 15) (2 ^ 16) ltac:(lia)).
    pose proof (Z.mod_pos_bound currentSN (2 ^ 16) ltac:(lia)). unfold int16, uint16, uint32, wrap16, uwrap16, JHLAVA_VERSION. split_and!; lia. }
  assert (Ha : forall a, None = Some a -> wf_lsfAuth a) by done.
  exists (16 + length w)%nat. split_and!; [lia| |].
  - intros s reqBuf F Hl. unfold lsSendMsg_. fold hdr0.
    destruct (encodeMsg_refused p (Some v) None (fun _ => w) Ha Hd hdr0 0 reqBuf Hh F) as [x ->]; [cbn; lia|done].
  - intros s reqBuf F Hl Hp hdr.
    assert (Hs : length reqBuf = (16 + length w + (length reqBuf - (16 + length w)))%nat) by lia.
    destruct (split_length reqBuf _ _ Hs) as (b & c & -> & L1 & L2).
    pose proof (encodeMsg_done p (Some v) None (fun _ => w) Ha Hd hdr0 0 b c Hh F L1) as E. cbv zeta in E. cbn [wopt app] in E.
    assert (Eh : sent_header hdr0 0 (length w) = hdr) by (unfold hdr; replace (16 + length w - 16)%nat with (length w) by lia; done).
    rewrite Eh in E. unfold lsSendMsg_. fold hdr0. rewrite E. cbn [x_pos x_buf].
    assert (Ht : take (16 + length w) (whdr hdr ++ w ++ c) = whdr hdr ++ w).
    { rewrite (app_assoc (whdr hdr)). apply take_app_length'. by rewrite length_app, length_whdr. }
    rewrite Ht. destruct (writes s [] (whdr hdr ++ w) Hp) as (s' & Ew & Hp'). rewrite Ew.
    assert (En : (Z.of_nat (length (whdr hdr ++ w)) =? Z.of_nat (16 + length w)) = true) by (apply Z.eqb_eq; by rewrite length_app, length_whdr).
    rewrite En. do 2 eexists. split; [done|]. intros buf h0 v0 Fb Lb Lb'. cbn [app] in Hp'.
    assert (Hw' : wf_LSFHeader hdr).
    { rewrite <- Eh, <- (final_sent hdr0 0 (16 + Z.of_nat (length w))) by sizes. by apply wf_final. }
    rewrite <- (app_nil_r (whdr hdr ++ w)), <- app_assoc in Hp'.
    destruct (header_received readFunc pending reads _ h0 _ _ buf Hw' Hp' Fb Lb) as (x1 & ch1 & E1 & Hp1 & O1 & Lx).
    unfold lsRecvMsg_. rewrite E1. assert (El : length_ hdr = Z.of_nat (length w)) by (unfold hdr, request_header; cbn [length_]; lia).
    destruct (Z.eqb_spec (length_ hdr) 0); [lia|]. rewrite O1.
    destruct (body_received readFunc pending reads p v v0 w None None hdr ch1 [] (x_buf x1)) as (x2 & ch2 & E2 & Hp2);
      [apply Hw|done|done|done|done|unfold fits in *; lia|cbn; lia|].
    unfold xdrmem_create in E2. rewrite E2. eauto.
Qed.
End delivery.
