(* ===== verification/XdrCard.v ===== *)
(** * Records that the slave batch daemon keeps (lsbatch/daemons/sbd.xdr.c)

    What the children of the daemon report to it, and the card of a job.  Modules as in
    XdrRequest.v, structs of lsbatch/daemons/sbd.h; messages to the system log are left out. *)
From stdpp Require Import base list.
From Stdlib Require Import ZArith Ascii Lia.
From S2P Require Import Prelude JobId Xdr XdrLib XdrCarry XdrBatch XdrMsg XdrRequest XdrReply XdrInfo XdrDaemons XdrTerm.
Local Open Scope Z_scope.

#[export] Hint Resolve codec_char : xdr.


Module JobSetup.
Record jobSetup := mk {
  jobId : Z; jStatus : Z; cpuTime : Z; w_status : Z; lsfRusage : lsfRusage; reason : Z; jobPid : Z;
  jobPGid : Z; execGid : Z; execUid : Z; execUsername : cstr; execHome : cstr; execCwd : cstr; execJobFlag : Z }.

Definition xdr_jobSetup (r : jobSetup) : xdr jobSetup :=
  '(jobArrId0, jobArrElemId0) ← on_encode (mret (jobId64To32 (jobId r))) (0, 0);
  jobArrId ← xdr_int jobArrId0;
  jStatus' ← xdr_int (jStatus r);
  cpuTime' ← xdr_float (cpuTime r);
  w_status' ← xdr_int (w_status r);
  reason' ← xdr_int (reason r);
  jobPid' ← xdr_int (jobPid r);
  jobPGid' ← xdr_int (jobPGid r);
  execGid' ← xdr_int (execGid r);
  execUid' ← xdr_int (execUid r);
  execJobFlag' ← xdr_int (execJobFlag r);
  lsfRusage' ← xdr_arrayElement xdr_lsfRusage (lsfRusage r);
  execUsername' ← xdr_string MAX_LSB_NAME_LEN MAX_LSB_NAME_LEN (execUsername r);
  execHome' ← xdr_string MAXFILENAMELEN MAXFILENAMELEN (execHome r);
  execCwd' ← xdr_string MAXFILENAMELEN MAXFILENAMELEN (execCwd r);
  jobArrElemId ← xdr_int jobArrElemId0;
  jobId' ← on_decode (mret (jobId32To64 jobArrId jobArrElemId)) (jobId r);
  mret (mk jobId' jStatus' cpuTime' w_status' lsfRusage' reason' jobPid' jobPGid' execGid' execUid'
            execUsername' execHome' execCwd' execJobFlag').

Definition wf_jobSetup (r : jobSetup) : Prop :=
  Forall int32 [jStatus r; w_status r; reason r; jobPid r; jobPGid r; execGid r; execUid r; execJobFlag r]
  /\ Forall uint32 [cpuTime r] /\ Forall (chars MAX_LSB_NAME_LEN) [execUsername r] /\ Forall (chars
  MAXFILENAMELEN) [execHome r; execCwd r] /\ jobid_ok (jobId r) /\ wf_lsfRusage (lsfRusage r).

Lemma transfers_jobSetup r : wf_jobSetup r -> transfers xdr_jobSetup r.
Proof.
  destruct r. intros H. unfold wf_jobSetup in H. cbn in H. fields.
  match goal with H : wf_lsfRusage _ |- _ => part (transfers_lsfRusage _ H) end.
  eexists. intros r0. unfold xdr_jobSetup. repeat xdr_step.
Qed.
End JobSetup.
#[export] Instance wire_jobSetup : Wire JobSetup.xdr_jobSetup := { wf_wire := JobSetup.wf_jobSetup; wire_transfers := JobSetup.transfers_jobSetup }.

Module JobSyslog.
Record jobSyslog := mk {
  logLevel : Z; msg : cstr }.

Definition xdr_jobSyslog (r : jobSyslog) : xdr jobSyslog :=
  logLevel' ← xdr_int (logLevel r);
  msg' ← xdr_string MAXLINELEN MAXLINELEN (msg r);
  mret (mk logLevel' msg').

Definition wf_jobSyslog (r : jobSyslog) : Prop :=
  Forall int32 [logLevel r] /\ Forall (chars MAXLINELEN) [msg r].

Lemma transfers_jobSyslog r : wf_jobSyslog r -> transfers xdr_jobSyslog r.
Proof.
  destruct r. intros H. unfold wf_jobSyslog in H. cbn in H. fields.
  eexists. intros r0. unfold xdr_jobSyslog. repeat xdr_step.
Qed.
End JobSyslog.
#[export] Instance wire_jobSyslog : Wire JobSyslog.xdr_jobSyslog := { wf_wire := JobSyslog.wf_jobSyslog; wire_transfers := JobSyslog.transfers_jobSyslog }.

Module JobCard.
(** The fields that travel; of [maxRusage] these are five numbers, which are fields of their own here. *)
Record jobCard := mk {
  execGid : Z; execUsername : cstr; notReported : Z; windEdge : Z; active : Z; timeExpire : Z; missing : Z;
  mbdRestarted : Z; windWarnTime : Z; runTime : Z; w_status : Z; cpuTime : Z; lastChkpntTime : Z; migCnt : Z;
  jobSpecs : JobSpecs.jobSpecs; cleanupPid : Z; execJobFlag : Z; lastStatusMbdTime : Z; maxRusage_mem : Z;
  maxRusage_swap : Z; maxRusage_utime : Z; maxRusage_stime : Z; maxRusage_npids : Z; actFlags : Z;
  actReasons : Z; actSubReasons : Z; actCmd : cstr; exitFile : cstr; clusterName : cstr; servSocket : Z }.

Definition xdr_jobCard (r : jobCard) : xdr jobCard :=
  execGid' ← xdr_int (execGid r);
  notReported' ← xdr_int (notReported r);
  windEdge' ← xdr_time_t (windEdge r);
  active' ← xdr_char (active r);
  timeExpire' ← xdr_char (timeExpire r);
  missing' ← xdr_char (missing r);
  mbdRestarted' ← xdr_char (mbdRestarted r);
  windWarnTime' ← xdr_time_t (windWarnTime r);
  runTime' ← xdr_int (runTime r);
  w_status' ← xdr_int (w_status r);
  cpuTime' ← xdr_float (cpuTime r);
  lastChkpntTime' ← xdr_time_t (lastChkpntTime r);
  migCnt' ← xdr_int (migCnt r);
  cleanupPid' ← xdr_int (cleanupPid r);
  execJobFlag' ← xdr_int (execJobFlag r);
  lastStatusMbdTime' ← xdr_time_t (lastStatusMbdTime r);
  execUsername' ← xdr_string MAX_LSB_NAME_LEN MAX_LSB_NAME_LEN (execUsername r);
  actReasons' ← xdr_int (actReasons r);
  actSubReasons' ← xdr_int (actSubReasons r);
  actCmd' ← xdr_var_string (actCmd r);
  exitFile' ← xdr_var_string (exitFile r);
  clusterName' ← xdr_var_string (clusterName r);
  jobSpecs' ← xdr_arrayElement JobSpecs.xdr_jobSpecs (jobSpecs r);
  servSocket' ← xdr_int (servSocket r);
  maxRusage_mem' ← xdr_int (maxRusage_mem r);
  maxRusage_swap' ← xdr_int (maxRusage_swap r);
  maxRusage_utime' ← xdr_int (maxRusage_utime r);
  maxRusage_stime' ← xdr_int (maxRusage_stime r);
  maxRusage_npids' ← xdr_int (maxRusage_npids r);
  actFlags' ← xdr_int (actFlags r);
  mret (mk execGid' execUsername' notReported' windEdge' active' timeExpire' missing' mbdRestarted'
            windWarnTime' runTime' w_status' cpuTime' lastChkpntTime' migCnt' jobSpecs' cleanupPid'
            execJobFlag' lastStatusMbdTime' maxRusage_mem' maxRusage_swap' maxRusage_utime' maxRusage_stime'
            maxRusage_npids' actFlags' actReasons' actSubReasons' actCmd' exitFile' clusterName' servSocket').

Definition wf_jobCard (r : jobCard) : Prop :=
  Forall int32 [execGid r; notReported r; windEdge r; windWarnTime r; runTime r; w_status r; lastChkpntTime
  r; migCnt r; cleanupPid r; execJobFlag r; lastStatusMbdTime r; maxRusage_mem r; maxRusage_swap r;
  maxRusage_utime r; maxRusage_stime r; maxRusage_npids r; actFlags r; actReasons r; actSubReasons r;
  servSocket r] /\ Forall (chars MAX_LSB_NAME_LEN) [execUsername r] /\ Forall int8 [active r; timeExpire r;
  missing r; mbdRestarted r] /\ Forall uint32 [cpuTime r] /\ Forall vstr [actCmd r; exitFile r; clusterName
  r] /\ JobSpecs.wf_jobSpecs (jobSpecs r).

Lemma transfers_jobCard r : wf_jobCard r -> transfers xdr_jobCard r.
Proof.
  destruct r. intros H. unfold wf_jobCard in H. cbn in H. fields.
  match goal with H : JobSpecs.wf_jobSpecs _ |- _ => part (JobSpecs.transfers_jobSpecs _ H) end.
  eexists. intros r0. unfold xdr_jobCard. repeat xdr_step.
Qed.
End JobCard.
#[export] Instance wire_jobCard : Wire JobCard.xdr_jobCard := { wf_wire := JobCard.wf_jobCard; wire_transfers := JobCard.transfers_jobCard }.
