(* ===== verification/XdrBase.v ===== *)
(** * Theorems about the messages of the base system

    Load, hosts, terminals and remote commands reach the other side; what is lost on the
    way is said exactly; and what messages do to decoders that keep memory between
    calls or trust the numbers that they get. *)
From Stdlib Require Import String.
From stdpp Require Import base list.
From Stdlib Require Import ZArith Ascii Lia.
From S2P Require Import Prelude JobId Xdr XdrLib XdrCarry XdrBatch XdrMsg XdrRequest XdrReply XdrInfo XdrDaemons XdrSize XdrTheorems.
From S2P Require Import XdrLim XdrHosts Float16 XdrLoad XdrTerm XdrRes XdrSend XdrCard.
Local Open Scope Z_scope.

(** A buffer that holds the bytes of a record. *)
Lemma encodes_create {A} (m : xdr A) v w buf : encodes m v w -> fits buf -> (length w <= length buf)%nat ->
  exists c, m (xdrmem_create buf XDR_ENCODE) = Done v (mkXDR XDR_ENCODE (w ++ c) (length w)) /\ fits (w ++ c).
Proof.
  intros [H _] F Hl. assert (Hs : length buf = (length w + (length buf - length w))%nat) by lia.
  destruct (split_length buf _ _ Hs) as (b & c & -> & L1 & L2). exists c. split.
  - apply (H [] b c F L1).
  - unfold fits in *. rewrite !length_app in *. lia.
Qed.

Lemma decodes_create {A} (n : xdr A) u w c : decodes n u w -> fits (w ++ c) ->
  n (xdrmem_create (w ++ c) XDR_DECODE) = Done u (mkXDR XDR_DECODE (w ++ c) (length w)).
Proof. intros [H _] F. apply (H [] c F). Qed.

(** ** Load *)

(** C23: The 16 bits of a load index keep its value.  Every float that is a number is encoded
    by [encfloat16_], and [decfloat16_] gives 0 for it below 2^-32, [INFINIT_LOAD] from one
    unit below 2^31 on, and else a float of the same exponent that is smaller by less
    than a thousandth. *)
Theorem float16_accurate b : not_nan b ->
  exists w, encfloat16_ b = Some w /\ uint16 w /\
  (b < 0x2F800000 \/ 2 ^ 31 <= b -> decfloat16_ w = 0) /\
  (0x4EFFE000 <= b < 2 ^ 31 -> decfloat16_ w = INFINIT_LOAD_bits) /\
  (0x2F800000 <= b < 0x4EFFE000 -> exists m m' e, of_bits b = Num m e /\ of_bits (decfloat16_ w) = Num m' e /\
     m' <= m /\ 1000 * (m - m') < m).
Proof.
  intros Hb. destruct (float16_rounds b Hb) as (w & E & U & D). destruct Hb as [Hu _]. unfold uint32 in Hu.
  exists w. rewrite D. unfold round16. split; [done|]. split; [done|]. split_and!; intros H.
  - by destruct (Z.ltb_spec b 0x2F800000), (Z.leb_spec (2 ^ 31) b); try lia.
  - destruct (Z.ltb_spec b 0x2F800000), (Z.leb_spec (2 ^ 31) b); try lia. by destruct (Z.ltb_spec b 0x4EFFE000); [lia|].
  - destruct (Z.ltb_spec b 0x2F800000), (Z.leb_spec (2 ^ 31) b); try lia. destruct (Z.ltb_spec b 0x4EFFE000); [|lia]. cbn [orb].
    set (k := b / 2 ^ 23). set (m := b mod 2 ^ 23). assert (Eb : b = k * 2 ^ 23 + m) by (unfold k, m; rewrite Z.mul_comm; apply Z.div_mod; lia).
    assert (Hm : 0 <= m < 2 ^ 23) by (apply Z.mod_pos_bound; lia). assert (Hk : 0 < k < 255) by lia.
    assert (R : b mod 2 ^ 13 = m mod 2 ^ 13) by (rewrite Eb; replace (k * 2 ^ 23) with (k * 2 ^ 10 * 2 ^ 13) by lia; rewrite Z.add_comm; apply Z.mod_add; lia).
    pose proof (Z.mod_pos_bound m (2 ^ 13) ltac:(lia)). pose proof (Z.mod_le m (2 ^ 13) ltac:(lia) ltac:(lia)).
    exists (2 ^ 23 + m), (2 ^ 23 + (m - m mod 2 ^ 13)), (k - 150). rewrite R, Eb, <- Z.add_sub_assoc, !of_bits_normal by lia.
    split_and!; done || lia.
Qed.

Lemma float16_accurate_witness :
  exists w, encfloat16_ 0x40490FDB = Some w /\ uint16 w /\
  (0x40490FDB < 0x2F800000 \/ 2 ^ 31 <= 0x40490FDB -> decfloat16_ w = 0) /\
  (0x4EFFE000 <= 0x40490FDB < 2 ^ 31 -> decfloat16_ w = INFINIT_LOAD_bits) /\
  (0x2F800000 <= 0x40490FDB < 0x4EFFE000 -> exists m m' e, of_bits 0x40490FDB = Num m e /\ of_bits (decfloat16_ w) = Num m' e /\
     m' <= m /\ 1000 * (m - m') < m).
Proof. apply (float16_accurate 0x40490FDB). split; [unfold uint32; lia|]. vm_compute. discriminate. Defined.

Import LoadVector.

(** C22: The load of a host reaches the master.  The buffer that sendLoad allocates has room
    for header, kind and load of any host, and from what it writes a receiver with the
    same configuration gets them back, with the built-in indices rounded as
    [round16] says, and everything else as it was sent. *)
Theorem load_delivered hdr lv buf : wf_LSFHeader hdr -> wf_loadVector lv -> fits buf -> bufSize (numIndx lv) lv <= Z.of_nat (length buf) ->
  exists x, xdr_load false (numIndx lv) (numUsrIndx lv) (hdr, e_vec, lv) (xdrmem_create buf XDR_ENCODE) = Done (hdr, e_vec, lv) x /\
  forall ignore m0, shaped m0.2 lv ->
    xdr_load ignore (numIndx lv) (numUsrIndx lv) m0 (xdrmem_create (x_buf x) XDR_DECODE) =
    Done (hdr, e_vec, received lv) (mkXDR XDR_DECODE (x_buf x) (x_pos x)).
Proof.
  intros Hh Hl F Hb. destruct (codec_load hdr lv Hh Hl) as (a & La & C). pose proof (length_load hdr lv a Hl La) as L.
  pose proof (cod_enc _ _ _ _ _ (C false false (hdr, e_vec, lv) (conj eq_refl eq_refl))) as En.
  destruct (encodes_create _ _ _ buf En F) as (c & E & Fc); [lia|].
  eexists. split; [exact E|]. intros ignore m0 Hs. cbn [x_buf x_pos]. apply decodes_create; [|done].
  apply (cod_dec _ _ _ _ _ (C false ignore m0 Hs)).
Qed.

Definition sample_load : loadVectorStruct :=
  LoadVector.mk 3 [0; 0] 17 5 2 12 1 (replicate 11 0x3F800001 ++ [0x3F800001]) 1 [ResPair.mk (cs "license") (cs "4")].

Lemma sample_load_wf : wf_loadVector sample_load.
Proof.
  unfold wf_loadVector, wf_loads, ResPair.wf_resPair. cbn. solve_wf; try done; try (unfold int32; lia); try (vm_compute; discriminate).
  all: unfold not_nan; split; [unfold uint32; lia|vm_compute; discriminate].
Qed.

Lemma load_delivered_witness :
  exists x, xdr_load false 12 1 (sample_header, e_vec, sample_load) (xdrmem_create (repeat NUL 300) XDR_ENCODE) = Done (sample_header, e_vec, sample_load) x /\
  forall ignore m0, shaped m0.2 sample_load ->
    xdr_load ignore 12 1 m0 (xdrmem_create (x_buf x) XDR_DECODE) =
    Done (sample_header, e_vec, received sample_load) (mkXDR XDR_DECODE (x_buf x) (x_pos x)).
Proof.
  apply (load_delivered sample_header sample_load (repeat NUL 300)).
  - exact sample_header_wf.
  - exact sample_load_wf.
  - unfold fits. rewrite repeat_length. lia.
  - rewrite repeat_length. vm_compute. discriminate.
Defined.

(** ** Hosts *)

(** The description of the hosts reaches the caller.  A reply of the manager is encoded
    in every buffer of one size or more and refused by smaller ones, and decoded to what
    [HostInfoReply.received] says: every host has its types and models within the
    tables, the low 16 bits of its number of processors, its memory in full, its
    windows or a dash, its topology if it has one; all else is as it was sent.  The
    receiver must not hold the table of a reply with fewer hosts. *)
Theorem host_info_delivered r : HostInfoReply.wf_hostInfoReply r ->
  exists n, (forall buf, fits buf -> (length buf < n)%nat ->
    exists x, HostInfoReply.xdr_hostInfoReply None r (xdrmem_create buf XDR_ENCODE) = Refused x) /\
  (forall buf, fits buf -> (n <= length buf)%nat ->
    exists x, HostInfoReply.xdr_hostInfoReply None r (xdrmem_create buf XDR_ENCODE) = Done (HostInfoReply.sent r) x /\ x_pos x = n /\
    forall held r0, HostInfoReply.nHost r <= default (HostInfoReply.nHost r) held ->
      HostInfoReply.xdr_hostInfoReply held r0 (xdrmem_create (x_buf x) XDR_DECODE) =
      Done (HostInfoReply.received r) (mkXDR XDR_DECODE (x_buf x) n)).
Proof.
  intros Hr. destruct (HostInfoReply.codec_hostInfoReply r Hr) as (wl & w' & _ & C).
  pose proof (cod_enc _ _ _ _ _ (C None None r (Z.le_refl _))) as En. eexists. split.
  - intros buf F Hl. apply (proj2 En [] buf F Hl).
  - intros buf F Hl. destruct (encodes_create _ _ _ buf En F Hl) as (c & E & Fc). eexists. split; [exact E|]. split; [done|].
    intros held r0 Hh. apply decodes_create; [|done]. apply (cod_dec _ _ _ _ _ (C None held r0 Hh)).
Qed.

Definition sample_host (name : cstr) : ShortHInfo.shortHInfo :=
  ShortHInfo.mk name 2 (-1) 70000 256000 1000 500 2 0 (cs "-") [0; 0x3F800000] 1 20 1 [5] 2 2 1 1 [0; 1; 2; 3].

Definition sample_lsinfo : ShortLsInfo.shortLsInfo :=
  ShortLsInfo.mk 1 [cs "bigmem"] 1 [cs "LINUX"] 1 [cs "PC"] [0x3F800000].

Definition sample_hosts (names : list cstr) : HostInfoReply.hostInfoReply :=
  HostInfoReply.mk (Z.of_nat (length names)) 2 sample_lsinfo (sample_host <$> names).

Lemma sample_lsinfo_wf : ShortLsInfo.wf_shortLsInfo sample_lsinfo.
Proof. unfold ShortLsInfo.wf_shortLsInfo. cbn. unfold MAXTYPES, MAXMODELS. solve_wf; lia. Qed.

Lemma sample_host_wf name : chars MAXHOSTNAMELEN name -> int32 256000 /\ ShortHInfo.wf_shortHInfo 2 2 (sample_host name).
Proof.
  intros H. split; [unfold int32; lia|]. unfold ShortHInfo.wf_shortHInfo. cbn. split; [done|]. solve_wf; [lia|].
  intros _. split; [reflexivity|solve_wf].
Qed.

Lemma sample_hosts_wf names : Forall (chars MAXHOSTNAMELEN) names -> (length names <= 10)%nat -> HostInfoReply.wf_hostInfoReply (sample_hosts names).
Proof.
  intros H Hl. unfold HostInfoReply.wf_hostInfoReply, sample_hosts. cbn [HostInfoReply.nHost HostInfoReply.hostMatrix HostInfoReply.nIndex HostInfoReply.shortLsInfo].
  split; [split; [by rewrite length_fmap|unfold int32; lia]|]. split; [unfold int32; lia|]. split; [lia|]. split; [exact sample_lsinfo_wf|]. split.
  - apply Forall_fmap. eapply Forall_impl; [exact H|]. intros name Hn. apply (sample_host_wf name Hn).
  - assert (N : In (length names) (seq 0 11)) by (apply in_seq; lia). revert N. generalize (length names). intros n N.
    set (ok := fun n => let z := HostInfoReply.true_size (Z.of_nat n) 2 1 in (- 2 ^ 31 <=? z) && (z <? 2 ^ 31)).
    assert (F : forallb ok (seq 0 11) = true) by (vm_compute; reflexivity).
    rewrite forallb_forall in F. specialize (F n N). unfold ok in F. rewrite andb_true_iff, Z.leb_le, Z.ltb_lt in F. exact F.
Qed.

Lemma host_info_delivered_witness :
  exists n, (forall buf, fits buf -> (length buf < n)%nat ->
    exists x, HostInfoReply.xdr_hostInfoReply None (sample_hosts [cs "hosta"; cs "hostb"]) (xdrmem_create buf XDR_ENCODE) = Refused x) /\
  (forall buf, fits buf -> (n <= length buf)%nat ->
    exists x, HostInfoReply.xdr_hostInfoReply None (sample_hosts [cs "hosta"; cs "hostb"]) (xdrmem_create buf XDR_ENCODE) =
      Done (HostInfoReply.sent (sample_hosts [cs "hosta"; cs "hostb"])) x /\ x_pos x = n /\
    forall held r0, 2 <= default 2 held ->
      HostInfoReply.xdr_hostInfoReply held r0 (xdrmem_create (x_buf x) XDR_DECODE) =
      Done (HostInfoReply.received (sample_hosts [cs "hosta"; cs "hostb"])) (mkXDR XDR_DECODE (x_buf x) n)).
Proof. apply (host_info_delivered (sample_hosts [cs "hosta"; cs "hostb"])). apply sample_hosts_wf; [solve_wf|cbn; lia]. Defined.

(** A cluster that grows breaks the callers of ls_gethostinfo.  The decoder frees the
    topologies of the last reply, but counts them by the new one: after a reply about
    some hosts, any well-formed reply about more hosts makes it free what it finds
    outside the table, although both replies were sent as they should. *)
Theorem growing_cluster_overruns r1 r2 : HostInfoReply.wf_hostInfoReply r1 -> HostInfoReply.wf_hostInfoReply r2 ->
  HostInfoReply.nHost r1 < HostInfoReply.nHost r2 ->
  exists w1 w2, encodes (HostInfoReply.xdr_hostInfoReply None r1) (HostInfoReply.sent r1) w1 /\
  encodes (HostInfoReply.xdr_hostInfoReply None r2) (HostInfoReply.sent r2) w2 /\
  forall r0 c1 c2, fits (w1 ++ c1) -> fits (w2 ++ c2) ->
    HostInfoReply.xdr_hostInfoReply None r0 (xdrmem_create (w1 ++ c1) XDR_DECODE) =
      Done (HostInfoReply.received r1) (mkXDR XDR_DECODE (w1 ++ c1) (length w1)) /\
    HostInfoReply.xdr_hostInfoReply (Some (HostInfoReply.nHost (HostInfoReply.received r1))) (HostInfoReply.received r1)
      (xdrmem_create (w2 ++ c2) XDR_DECODE) = Fault.
Proof.
  intros H1 H2 Hn. destruct (HostInfoReply.codec_hostInfoReply r1 H1) as (l1 & w1 & _ & C1).
  destruct (HostInfoReply.codec_hostInfoReply r2 H2) as (l2 & w2 & L2 & C2). do 2 eexists.
  split; [apply (cod_enc _ _ _ _ _ (C1 None None r1 (Z.le_refl _)))|]. split; [apply (cod_enc _ _ _ _ _ (C2 None None r2 (Z.le_refl _)))|].
  intros r0 c1 c2 F1 F2. split.
  - apply decodes_create; [|done]. apply (cod_dec _ _ _ _ _ (C1 None None r0 (Z.le_refl _))).
  - apply (HostInfoReply.held_faults r2 _ _ l2 w2 H2 L2 Hn [] c2 F2).
Qed.

Lemma growing_cluster_overruns_witness :
  exists w1 w2, encodes (HostInfoReply.xdr_hostInfoReply None (sample_hosts [cs "hosta"])) (HostInfoReply.sent (sample_hosts [cs "hosta"])) w1 /\
  encodes (HostInfoReply.xdr_hostInfoReply None (sample_hosts [cs "hosta"; cs "hostb"])) (HostInfoReply.sent (sample_hosts [cs "hosta"; cs "hostb"])) w2 /\
  forall r0 c1 c2, fits (w1 ++ c1) -> fits (w2 ++ c2) ->
    HostInfoReply.xdr_hostInfoReply None r0 (xdrmem_create (w1 ++ c1) XDR_DECODE) =
      Done (HostInfoReply.received (sample_hosts [cs "hosta"])) (mkXDR XDR_DECODE (w1 ++ c1) (length w1)) /\
    HostInfoReply.xdr_hostInfoReply (Some 1) (HostInfoReply.received (sample_hosts [cs "hosta"])) (xdrmem_create (w2 ++ c2) XDR_DECODE) = Fault.
Proof.
  apply (growing_cluster_overruns (sample_hosts [cs "hosta"]) (sample_hosts [cs "hosta"; cs "hostb"])).
  - apply sample_hosts_wf; [solve_wf|cbn; lia].
  - apply sample_hosts_wf; [solve_wf|cbn; lia].
  - vm_compute. reflexivity.
Defined.

(** The same happens to the names of load indices: the array of the first reply is used
    for all later ones. *)
Theorem growing_indices_overrun r1 r2 : LoadReply.wf_loadReply r1 -> LoadReply.wf_loadReply r2 -> LoadReply.nIndex r1 < LoadReply.nIndex r2 ->
  exists w2, encodes (LoadReply.xdr_loadReply None r2) r2 w2 /\
  forall c2, fits (w2 ++ c2) ->
    LoadReply.xdr_loadReply (LoadReply.keeps None r1) r1 (xdrmem_create (w2 ++ c2) XDR_DECODE) = Fault.
Proof.
  intros H1 H2 Hn. destruct (LoadReply.codec_loadReply r2 H2) as [w C]. eexists.
  split; [apply (cod_enc _ _ _ _ _ (C None None r2 ltac:(cbn; lia)))|]. intros c2 F.
  apply (LoadReply.kept_faults r2 _ _ w H2) with (a := []); [cbn; lia|done].
Qed.

(** ** Terminals *)

(** The settings of a terminal reach the other host.  They are encoded and decoded to
    what [terminal] says: of each set of flags those in the table, the speed if it is at
    most 38400 and else 0, the 17 special characters, and the size of the window. *)
Theorem terminal_delivered tty : ResStty.wf_resStty tty ->
  exists n, (forall buf, fits buf -> (length buf < n)%nat -> exists x, ResStty.xdr_resStty tty (xdrmem_create buf XDR_ENCODE) = Refused x) /\
  (forall buf, fits buf -> (n <= length buf)%nat ->
    exists x, ResStty.xdr_resStty tty (xdrmem_create buf XDR_ENCODE) = Done tty x /\ x_pos x = n /\
    forall tty0, ResStty.xdr_resStty tty0 (xdrmem_create (x_buf x) XDR_DECODE) = Done (ResStty.received tty) (mkXDR XDR_DECODE (x_buf x) n)).
Proof.
  intros H. destruct (ResStty.codec_resStty tty H) as [w C]. pose proof (cod_enc _ _ _ _ _ (C tty)) as En. exists (length w). split.
  - intros buf F Hl. apply (proj2 En [] buf F Hl).
  - intros buf F Hl. destruct (encodes_create _ _ _ buf En F Hl) as (c & E & Fc). eexists. split; [exact E|]. split; [done|].
    intros tty0. apply decodes_create; [|done]. apply (cod_dec _ _ _ _ _ (C tty0)).
Qed.

Definition sample_tty : ResStty.resStty :=
  ResStty.mk (mkTermios 0x500 0x5 0xBF 0x8A3B ([3; 28; 127; 21; 4; 0; 1; 0; 17; 19; 26; 255; 18; 15; 23; 22; 254] ++ replicate 15 0)) 24 80 0 0.

Lemma terminal_delivered_witness :
  exists n, (forall buf, fits buf -> (length buf < n)%nat -> exists x, ResStty.xdr_resStty sample_tty (xdrmem_create buf XDR_ENCODE) = Refused x) /\
  (forall buf, fits buf -> (n <= length buf)%nat ->
    exists x, ResStty.xdr_resStty sample_tty (xdrmem_create buf XDR_ENCODE) = Done sample_tty x /\ x_pos x = n /\
    forall tty0, ResStty.xdr_resStty tty0 (xdrmem_create (x_buf x) XDR_DECODE) = Done (ResStty.received sample_tty) (mkXDR XDR_DECODE (x_buf x) n)).
Proof.
  apply (terminal_delivered sample_tty). unfold ResStty.wf_resStty, wf_termios. cbn. solve_wf; lia.
Defined.

(** A terminal with 115200 baud arrives with speed 0, which hangs up. *)
Theorem fast_terminal_hangs_up : cfgetospeed (c_cflag (terminal (mkTermios 0 0 0x1002 0 (replicate 32 0)))) = 0.
Proof. reflexivity. Qed.

(** An index of the speed outside the table is used. *)
Theorem speed_index_unchecked i c : 16 <= i < 2 ^ 31 -> fits (be32 0 ++ be32 0 ++ be32 0 ++ be32 0 ++ be32 i ++ c) ->
  decodeTermios_ (xdrmem_create (be32 0 ++ be32 0 ++ be32 0 ++ be32 0 ++ be32 i ++ c) XDR_DECODE) = Fault.
Proof.
  intros Hi F. assert (D : forall z z0, int32 z -> decodes (xdr_int z0) z (be32 z)) by (intros z z0 H; apply (codec_int z z0 H)).
  assert (X : faults decodeTermios_ ((be32 0 ++ []) ++ (be32 0 ++ []) ++ (be32 0 ++ []) ++ (be32 0 ++ []) ++ be32 i ++ [])).
  { unfold decodeTermios_. do 4 (eapply faults_bind; [eapply decodes_bind; [apply D; unfold int32; lia|apply decodes_ret]|]; cbv beta).
    eapply faults_bind; [apply D; unfold int32; lia|]. cbv beta. destruct (Z.ltb_spec i 0); [lia|].
    rewrite lookup_ge_None_2 by (cbn; lia). intros a c' F'. done. }
  specialize (X [] c). rewrite !app_nil_r, <- !app_assoc in X. apply X. exact F.
Qed.

(** ** Remote commands and files *)

(** A number of -1 strings makes the decoder write in front of its array. *)
Theorem minus_one_strings myhost r0 c : fits (be32 (-1) ++ c) ->
  ResSetenv.xdr_resSetenv myhost r0 (xdrmem_create (be32 (-1) ++ c) XDR_DECODE) = Fault.
Proof.
  intros F. assert (X : faults (ResSetenv.xdr_resSetenv myhost r0) (be32 (-1) ++ [])).
  { unfold ResSetenv.xdr_resSetenv. eapply faults_bind; [eapply cod_dec, codec_int; unfold int32; lia|]. by apply faults_here. }
  specialize (X [] c). rewrite app_nil_r in X. by apply X.
Qed.

(** A display whose text is longer than the buffer of chDisplay_ overruns it. *)
Theorem long_display_overruns : env_sent (Some (cs "hosta")) (cs "DISPLAY=:" ++ repeat "0"%char 62) = None.
Proof. reflexivity. Qed.

(** A file that is to be opened without blocking arrives as one whose directory is to be
    created: the two flags are the same number. *)
Theorem nonblock_is_creat_dir r : Z.land (RopenReq.flags r) O_NONBLOCK <> 0 -> Z.land (RopenReq.flags (RopenReq.received r)) LSF_O_CREAT_DIR <> 0.
Proof. intros H. cbn. by rewrite <- Z.land_assoc. Qed.

(** ** Every kind of record *)

(** C21: Every record of the base system is carried: for each kind, the bytes that encoding a
    well-formed record writes are decoded to the same record by any receiver, encoding
    is refused by a buffer without room for all of them, and decoding is refused when
    they are cut short at any place.  The reply with the load is the first one that the
    receiver decodes. *)
Theorem base_records_carried :
  (forall r, DecisionReq.wf_decisionReq r -> transfers DecisionReq.xdr_decisionReq r) /\
  (forall r, PlaceReply.wf_placeReply r -> transfers PlaceReply.xdr_placeReply r) /\
  (forall r, JobXfer.wf_jobXfer r -> transfers JobXfer.xdr_jobXfer r) /\
  (forall r, LoadReply.wf_loadReply r -> transfers (LoadReply.xdr_loadReply None) r) /\
  (forall r, LimLock.wf_limLock r -> transfers LimLock.xdr_limLock r) /\
  (forall r, LsInfo.wf_lsInfo r -> transfers LsInfo.xdr_lsInfo r) /\
  (forall r, MasterInfo.wf_masterInfo r -> transfers MasterInfo.xdr_masterInfo r) /\
  (forall r, ClusterInfoReq.wf_clusterInfoReq r -> transfers ClusterInfoReq.xdr_clusterInfoReq r) /\
  (forall r, ClusterInfoReply.wf_clusterInfoReply r -> transfers ClusterInfoReply.xdr_clusterInfoReply r) /\
  (forall r, CInfo.wf_cInfo r -> transfers CInfo.xdr_cInfo r) /\
  (forall r, ResourceInfoReq.wf_resourceInfoReq r -> transfers ResourceInfoReq.xdr_resourceInfoReq r) /\
  (forall r, ResourceInfoReply.wf_resourceInfoReply r -> transfers ResourceInfoReply.xdr_resourceInfoReply r) /\
  (forall r, HostEntry.wf_hostEntry r -> transfers HostEntry.xdr_hostEntry r) /\
  (forall r, MasterReg.wf_masterReg r -> transfers MasterReg.xdr_masterReg r) /\
  (forall r, StatInfo.wf_statInfo r -> transfers StatInfo.xdr_statInfo r) /\
  (forall r, ResCmdBill.wf_resCmdBill r -> transfers ResCmdBill.xdr_resCmdBill r) /\
  (forall r, ResRKill.wf_resRKill r -> transfers ResRKill.xdr_resRKill r) /\
  (forall r, ResPid.wf_resPid r -> transfers ResPid.xdr_resGetpid r) /\
  (forall r, ResRusage.wf_resRusage r -> transfers ResRusage.xdr_resGetRusage r) /\
  (forall r, ResChdir.wf_resChdir r -> transfers ResChdir.xdr_resChdir r) /\
  (forall r, ResControl.wf_resControl r -> transfers ResControl.xdr_resControl r) /\
  (forall r, ResConnect.wf_resConnect r -> transfers ResConnect.xdr_resConnect r) /\
  (forall r, NiosConnect.wf_niosConnect r -> transfers NiosConnect.xdr_niosConnect r) /\
  (forall r, ResSignal.wf_resSignal r -> transfers ResSignal.xdr_resSignal r) /\
  (forall r, RlseekReq.wf_rlseekReq r -> transfers RlseekReq.xdr_rlseekReq r) /\
  (forall r, RrdwrReq.wf_rrdwrReq r -> transfers RrdwrReq.xdr_rrdwrReq r) /\
  (forall r, JobSetup.wf_jobSetup r -> transfers JobSetup.xdr_jobSetup r) /\
  (forall r, JobSyslog.wf_jobSyslog r -> transfers JobSyslog.xdr_jobSyslog r) /\
  (forall r, JobCard.wf_jobCard r -> transfers JobCard.xdr_jobCard r).
Proof.
  split_and!.
  - exact DecisionReq.transfers_decisionReq.
  - exact PlaceReply.transfers_placeReply.
  - exact JobXfer.transfers_jobXfer.
  - exact LoadReply.transfers_loadReply.
  - exact LimLock.transfers_limLock.
  - exact LsInfo.transfers_lsInfo.
  - exact MasterInfo.transfers_masterInfo.
  - exact ClusterInfoReq.transfers_clusterInfoReq.
  - exact ClusterInfoReply.transfers_clusterInfoReply.
  - exact CInfo.transfers_cInfo.
  - exact ResourceInfoReq.transfers_resourceInfoReq.
  - exact ResourceInfoReply.transfers_resourceInfoReply.
  - exact HostEntry.transfers_hostEntry.
  - exact MasterReg.transfers_masterReg.
  - exact StatInfo.transfers_statInfo.
  - exact ResCmdBill.transfers_resCmdBill.
  - exact ResRKill.transfers_resRKill.
  - exact ResPid.transfers_resPid.
  - exact ResRusage.transfers_resRusage.
  - exact ResChdir.transfers_resChdir.
  - exact ResControl.transfers_resControl.
  - exact ResConnect.transfers_resConnect.
  - exact NiosConnect.transfers_niosConnect.
  - exact ResSignal.transfers_resSignal.
  - exact RlseekReq.transfers_rlseekReq.
  - exact RrdwrReq.transfers_rrdwrReq.
  - exact JobSetup.transfers_jobSetup.
  - exact JobSyslog.transfers_jobSyslog.
  - exact JobCard.transfers_jobCard.
Qed.

Definition sample_command : ResCmdBill.resCmdBill :=
  ResCmdBill.mk 4000 0 18 0 3 (cs "/home/ann") [cs "sleep"; cs "10"] (replicate 11 (mkLsfLimit (-1) (-1) (-1) (-1))).

Lemma base_records_carried_witness : transfers ResCmdBill.xdr_resCmdBill sample_command /\ transfers ResRKill.xdr_resRKill (ResRKill.mk 12 1 9).
Proof.
  pose proof base_records_carried as H. split.
  - apply H. unfold ResCmdBill.wf_resCmdBill, wf_lsfLimit. cbn. solve_wf; lia.
  - apply H. unfold ResRKill.wf_resRKill. cbn. solve_wf.
Defined.

(** A channel that is a queue of bytes. *)
Definition write_bytes (ch : cstr) (bytes : cstr) : Z * cstr := (Z.of_nat (length bytes), ch ++ bytes).

Lemma write_bytes_ok (ch before bytes : cstr) : ch = before -> exists ch', write_bytes ch bytes = (Z.of_nat (length bytes), ch') /\ ch' = before ++ bytes.
Proof. intros ->. by eexists. Qed.

Lemma request_delivered_witness :
  exists n, (16 < n)%nat /\
  (forall s reqBuf, fits reqBuf -> (length reqBuf < n)%nat ->
     lsSendMsg_ write_bytes 7 s 3 0 (Some sample_command) reqBuf ResCmdBill.xdr_resCmdBill None = Failed (-1) LSE_BAD_XDR s) /\
  (forall s reqBuf, fits reqBuf -> (n <= length reqBuf)%nat -> s = [] ->
     let hdr := request_header 7 3 (Z.of_nat (n - 16)) in
     exists x s', lsSendMsg_ write_bytes 7 s 3 0 (Some sample_command) reqBuf ResCmdBill.xdr_resCmdBill None = Received hdr x s' /\
     forall buf hdr0 v0, fits buf -> (16 <= length buf)%nat -> (n - 16 <= length buf)%nat ->
       exists x' s'', lsRecvMsg_ read_bytes s' buf hdr0 (Some v0) ResCmdBill.xdr_resCmdBill = Received (hdr, Some sample_command) x' s'' /\ s'' = []).
Proof.
  apply (request_delivered read_bytes write_bytes (fun ch bs => ch = bs) read_bytes_ok write_bytes_ok ResCmdBill.xdr_resCmdBill sample_command 7 3 0).
  - cbn. unfold ResCmdBill.wf_resCmdBill, wf_lsfLimit. cbn. solve_wf; lia.
  - vm_compute. discriminate.
Defined.
